(* ===== verification/_CoqProject ===== *)
-Q . S2P
Prelude.v
Memory.v
Stdio.v
LsmSort.v
LsmFile.v
Lsm.v
LsmSpec.v
LsmOps.v
LsmSession.v
LsmTest.v
Calendar.v
DateUnits.v
DateFields.v
DateYmd.v
DateYmw.v
Civil.v
DateSerial.v
DateNth.v
IsoWeek.v
IsoWeekDate.v
IsoProofs.v
DateClock.v
DateStream.v
DateParse.v
DateFormat.v
DateIoProofs.v
DateIoFaults.v
DateIoTotal.v
JulianUnits.v
JulianFields.v
JulianYmd.v
JulianSerial.v
JulianYmw.v
IslamicUnits.v
IslamicFields.v
IslamicYmd.v
IslamicSerial.v
IslamicYmw.v
IsoTheorems.v
CafeRecord.v
CafeProofs.v
Sds.v
LsmTheorems.v
DateTheorems.v
CafeTheorems.v
IoTheorems.v
JulianTheorems.v
IslamicTheorems.v
CalendarTheorems.v
Concurrent.v
CkPr.v
AsQueue.v
AsPool.v
CkMutex.v
CkTicket.v
CkMcs.v
CkClh.v
CkHclh.v
CkAnderson.v
CkRwlock.v
CkRwMutex.v
CkSwlock.v
CkPflock.v
CkTflock.v
CkBytelock.v
CkBrlock.v
CkCohort.v
CkRwcohort.v
CkRing.v
CkRingMany.v
CkSequence.v
CkStack.v
CkFifo.v
CkFifoMany.v
CkTheorems.v
CkQueue.v
CkQueueLists.v
CkQueueReaders.v
CkBitmap.v
CkBitmapScan.v
