(* ===== verification/Prelude.v ===== *)
(** * A verification of DBTest

    DBTest collects small programs that try out storage engines, with the headers they include.
    Its own logic is in three places, and the headers bring a fourth; they share no state and no
    calls:

    - an LSM tree in C (src/test/LSMTree/): a buffer of key-value nodes that is merged into a
      file on disk when it is full, with get, put, delete, update and a test driver;
    - the date library (src/include/date/): the calendar of date.h with its parser and formatter,
      which src/src/date_hinnant.cpp uses, and the calendars of iso_week.h, julian.h and islamic.h;
    - the speed tests of key-value stores (src/src/rocksdb_rw_speed_test.cpp and
      src/src/redis_rw_speed_test.cpp), which encode lines of a file as records, put them and read
      them back, and the packed structure of src/src/rocksdb_arbitrary_store.cpp.

    ** What models what

    [Prelude] (this file) has what a C or C++ expression can do: [outcome], a value or a [fault] (signed
    overflow, access out of bounds, null dereference, uninitialised read, failed assertion, an exception
    that leaves the function), with its monad, and the machine integers: a value of a w-bit type is its
    value in [Z], conversions ([u8] .. [u64], [i16], [i32]) wrap and signed arithmetic ([int_add] ..)
    faults when it leaves its range. [Memory] has arrays with checked access, the copies [arr_slice] and
    [arr_move], little-endian bytes, and [malloc] as a class, [Allocator]: the bytes granted for a size,
    and what uninitialised memory holds: the properties hold of every allocator that grants at least
    what is asked, and glibc's and one that grants exactly that are instances. [Stdio] has the [world]
    (the files as bytes, and the events that [printf] and [perror] print), the state and error monad
    [io] over it, and [stat], [fopen], [fread] and [fwrite] as the programs use them.

    The LSM tree.
    - [LsmSort]: [merge] and [merge_sort] of lsm.c, index loop by index loop.
    - [LsmFile]: the bytes of a node and of a file of nodes.
    - [Lsm]: the record [lsm] and one definition per function of lsm.c, in the monad [io]; a function
      that changes the tree returns the tree after it.
    - [LsmTest]: test.c and main.c.
    - [LsmSpec], [LsmOps]: the abstract store (the nodes flushed, the nodes since), the relation
      [represents] of a tree and a world to it, and what every operation does to them.
    - [LsmSession]: the states reached by operations in any order, and their invariant.
    - [LsmTheorems]: the properties.

    The calendar.
    - [Calendar]: the interfaces: comparison operators that are a total order
      ([Relational], [RelationalLaws]), valid values ([WellFormed]), and dates that convert to and
      from day numbers ([DateSerial], [DateSerialLaws]), with the conversion between two such
      calendars, proved once; and [Reckoning], a calendar of twelve months as a way to count days, with
      its laws and what follows from them: the numbers of the days, their order, and the laws of
      [DateSerial].
    - [DateUnits], [DateFields], [DateYmd], [DateYmw]: the classes of date.h.  A member has the
      width the class gives it ([unsigned char], [short], bit fields of four bits), arithmetic on
      [int] faults on overflow, and an operator of a class [c] is the definition [c_op].
    - [Civil]: the reference: the proleptic Gregorian calendar by counting days.
    - [DateSerial], [DateNth]: the lemmas on day numbers, on arithmetic of months and
      years, on the n-th weekday.
    - [IsoWeek], [IsoWeekDate], [IsoProofs]: iso_week.h, the same way.
    - [JulianUnits], [JulianFields], [JulianYmd], [JulianYmw], and the same four for
      [Islamic]: the classes of julian.h and islamic.h, which have the names of those of date.h
      ([JulianYmd.ymd_to_days] beside [DateYmd.ymd_to_days]).  [JulianSerial] and [IslamicSerial]
      define the two calendars as a [Reckoning] and prove that the conversions compute them.
    - [DateTheorems], [IsoTheorems], [JulianTheorems], [IslamicTheorems], [CalendarTheorems]: the
      properties.

    Parsing and formatting, for [char] and durations of whole seconds.
    - [DateClock]: truncation and rounding of durations, [hh_mm_ss], the twelve-hour clock.
    - [DateStream]: the input stream, and the functions that read characters and numbers from it.
    - [DateParse]: [from_stream], a definition per command of the format, the record [pst] for the
      variables of the loop; what the header asks of the locale is the class [TimeFacets], which has the
      decimal point of [NumPunct].
    - [DateFormat]: [to_stream], [format] and the operators [<<], over an output stream; and the program
      date_hinnant.cpp.
    - [DateIoProofs], [DateIoFaults], [DateIoTotal]: lemmas on numbers and steps of the format, which
      faults a parse can meet, and that formatting meets none.
    - [IoTheorems]: the properties.

    The records of the drivers.
    - [CafeRecord]: [split], the key, the buffer and its decoding, the two drivers; the store is a
      class, [KVStore], and so is the [%s] of redisCommand, [RedisFormat].
    - [CafeProofs], [CafeTheorems]: the lemmas and the properties.

    Concurrency Kit.
    - [Concurrent]: programs of threads as interaction trees of atomic actions on a shared state,
      pools of threads that step in any order ([pool_step], [reaches]), schedules that run them, and
      a logic ([wp]) whose invariant relates the shared state to a ghost state per thread; histories of
      queues ([of_thread], [taken_from]).
    - [CkPr]: the atomic operations of gcc/x86_64/ck_pr.h, one step each, and the members of nodes
      that are reached by their addresses: the memory of nodes is a finite map from addresses to structs
      ([gmap]), and a pointer to no node of it is a fault, as NULL is.
    - [CkMutex]: what a spin lock is ([Spinlock]), its clients, which log when they enter and leave
      their sections, the laws of a lock ([SpinlockLaws]), and that clients of a lock with these laws
      exclude each other. The locks of spinlock/fas.h, cas.h and dec.h, with ck_backoff.h, the names of
      ck_spinlock.h for the first, and the functions of ck_elide.h for any lock, are there too.
      [CkTicket] (spinlock/ticket.h) is a lock too, and has the laws; so do the queue locks [CkMcs],
      [CkClh], [CkHclh] and [CkAnderson] (spinlock/mcs.h, clh.h, hclh.h, anderson.h).
    - [CkRwlock]: ck_rwlock.h, its clients, its invariant. [CkRwMutex]: what a reader-writer lock is
      ([RwSpinlock]) when it can be taken in several ways, its clients, the laws of such a lock
      ([RwSpinlockLaws]), and that clients of a lock with these laws exclude each other; [CkSwlock],
      [CkPflock], [CkTflock], [CkBytelock] and [CkBrlock] (ck_swlock.h, ck_pflock.h, ck_tflock.h,
      ck_bytelock.h, ck_brlock.h) are locks, and have the laws; the last keeps its readers in a linked
      list over a partial memory.
    - [CkCohort]: ck_cohort.h, whose macros make a lock of two others, instances of [Spinlock]; with two
      fas locks it has the laws of CkMutex. [CkRwcohort]: the three reader-writer locks of ck_rwcohort.h
      on top of it have those of CkRwMutex. The steps of the cohort lock are proved once, for any memory
      that has it somewhere ([view] of [Concurrent]).
    - [CkRing]: ck_ring.h, with one producer and one consumer.  [CkRingMany]: any number of
      threads that put and take.
    - [CkSequence]: ck_sequence.h, one writer and its readers.
    - [CkStack]: ck_stack.h, and threads that push, pop and log what they own.
    - [CkFifo]: ck_fifo.h.  [CkFifoMany]: any number of threads that share the queue for many; the ghost
      history has all entries that ever were in the queue.
    - [CkBitmap]: ck_bitmap.h, for one thread, what its functions do to the bits, and that they
      refine sets of numbers.  [CkBitmapScan]: counting and iterating.
    - [CkTheorems]: the properties of the locks, the ring, the stack and the linked queues.
    - [CkQueue]: the macros of ck_queue.h for the three kinds of linked list, over a memory of heads and
      elements, the list that a head has in it ([list_at]), and what each macro does to it when it runs
      alone ([does]). [CkQueueLists]: any sequence of their uses, against lists. [CkQueueReaders]:
      threads that go over a list while another changes it.

    The inline functions of the clients.
    - [AsQueue]: as_queue.h and as_vector.h of the Aerospike client: the pops of a circular queue and
      the accesses of a vector, with classes for the functions they leave to the library.
    - [AsPool]: as_conn_pool.h and the pools of as_event_internal.h, for threads that share the counter.
    - [Sds]: hiredis/sds.h, on the bytes around a string.

    A location ([loc]) stands for a pointer: it says how an object is read and written in the shared
    memory. A load, a store or an atomic operation is one step that all threads see at once; on this
    memory a fence does nothing, and [ck_pr_stall] is a step that lets others run. [memcpy] copies one
    byte per step.

    ** What the theorems show

    The tree: from [init_new_lsm] on, puts never fault, and buffer and file together hold the history of
    the puts; [merge_sort] sorts by key, newest first, and the index loops of [merge] compute the list
    merge [merge_ref]; a flush merges buffer and file; a file reads back as written. The same theorems
    show where the program does not do what it means to: the searches open a file of another name, a
    search that finds a key writes past its block where malloc grants no more than it is asked for (the
    theorems say what each operation gives on either kind of allocator), a delete moves bytes where it
    means nodes, a second put of a key is invisible, a partial flush and a successful search leave their
    blocks, an update of an absent key dereferences null. These are theorems about the faithful
    definitions, and findings.

    The calendar: [to_days] counts the days of the reference calendar, [from_days] is its inverse on the
    whole range of the year, without overflow; the same for the n-th weekday of a month and for ISO
    weeks, which follow the rule of ISO 8601; the comparison operators are total orders and that of
    dates is the order of the days; the arithmetic of months and years; last days, last weekdays and
    last weeks; the exact results of the arithmetic of single fields. The Julian and the Islamic
    calendar have the same properties on all values of [year]; the last day of an invalid month is a
    read out of bounds, in both, which date.h guards against. Valid dates convert between the three
    calendars and back.

    Parsing and formatting: formatting is total on valid dates; a parse ends on every text and
    format; a date printed under [%F] parses back; date_hinnant prints the day it is given.  The
    findings are parses that are undefined because a number is missing, and texts that are no date but
    are accepted: without a year, or with a day that the year does not have.

    The records: the RocksDB driver stores a record for each line and reads the customer back, cut
    to 16 bits of size; the Redis driver loses the record; keys are injective; splitting and
    packing round trip.

    Concurrency Kit: in every interleaving, no two clients of a spin lock are in a section at once; the
    tickets of 16 bits are enough for 65536 threads; no thread writes under the reader-writer lock, or
    under the single-writer, phase-fair, task-fair, byte or big-reader lock, or one made of cohort
    locks, while another reads or writes; a cohort lock can be left with its global lock taken and no
    thread that would leave it; the elided trylock lets a thread in beside the one that has the lock;
    one producer and one consumer of a ring of 2^k slots exchange whole entries in order, also after the
    indices wrap; any number of producers and consumers share one queue; a reader under a sequence lock
    returns what one write left; an entry of a stack has one owner, unless [ck_stack_batch_pop_mpmc] is
    used beside pops; the queue of linked entries loses nothing as long as no entry is put twice, and a
    run shows a value lost when the entry that a thread has just taken out is put again. No thread of
    the queue locks or of the big-reader lock follows a pointer to no node. The theorems hold of threads
    that never end, since they bound no number of steps. The linked lists are lists, whatever sequence
    of insertions, removals, concatenations, swaps and loops uses them; a loop over a list that another
    thread changes sees every element that stays, and nothing that was never in the list. A bitmap is
    the set of its bits: its operations are those of sets, counting and iterating are exact, up to the
    bits past the end that a union with a larger bitmap leaves.

    The clients: a queue of the Aerospike client is a list of bounded length with pops at both ends; a
    vector gives back what was appended; threads that count connections never have more than the limit;
    the functions on a header of hiredis read its members, and change one member of it and nothing else.

    ** Bounds and fuel

    Loops whose end is a comparison of indices take fuel: [find_fuel], [merge_sort_fuel] and the sums of
    lengths in [merge] are more than the number of steps the source can make, and the theorems that say
    an operation returns [Ret] exclude [OutOfFuel]. The loops that read digits have as fuel the
    characters that are left and one ([read_fuel]), and the theorem that a parse ends is that this is
    enough; the digits of a number that is printed have as fuel the number's bits. Everything else is
    structural. The theorems on dates of date.h hold for years -32767 to 32767, which is [year::min()]
    to [year::max()]; day numbers are [int]s, as the standard library represents
    [std::chrono::duration<int>] on the platforms the library is for. The theorems on the tree bound the
    numbers of nodes so that sizes in bytes fit the types that hold them.

    ** What is not modelled

    Weaker memory orders than an interleaving of the atomic steps; lock elision by transactions of the
    processor, which ck_md.h disables; of Concurrency Kit, the two macros of ck_queue.h that do not
    compile, the containers with hazard pointers, whose reclamation (ck_hp.h) is not in the repository,
    and the headers for other processors. Time zones (tz.h and the headers beside it, which nothing in
    the repository includes); durations that are not whole seconds, and wide characters, in parsing and
    formatting; the facets of the locale, which are an interface; the clients of RocksDB, Redis and
    Aerospike, whose sources are not in the repository (only their declarations are); the demos of
    libevent, glog, jemalloc and dlopen, which only call libraries; the Aerospike driver; timings and
    messages of the drivers. A file that cannot be opened for another reason than not being there, and a
    disk that fills up, are not modelled either. *)

(** ** Prelude: outcomes, machine integers, bytes, and the list lemmas shared by the components. *)

From Stdlib Require Import ZArith Lia Zquot Ascii String.
From stdpp Require Import base list gmap strings sorting.

Declare Scope c_scope.
Delimit Scope c_scope with c.
#[global] Open Scope Z_scope.

(** ** Outcomes

    A C or C++ expression has a value or meets a point where the language gives no value (or
    where [assert] stops the program).  [outcome] is the error type of the whole development. *)

Inductive fault : Type :=
  | SignedOverflow      (** signed arithmetic left the range of its type *)
  | OutOfBounds         (** a read or a write outside the array *)
  | HeapOverflow        (** an access past the block that malloc returned *)
  | NullDeref           (** a null pointer was dereferenced *)
  | Indeterminate       (** an uninitialised object was read *)
  | AssertFailed        (** assert(e) with e false *)
  | BadShift            (** a shift by the width of the type, or by more *)
  | DivByZero           (** a division, or a remainder, by 0 *)
  | Thrown              (** a C++ exception *)
  | OutOfFuel.          (** the model's fuel was too small: never happens, and proved so *)

Inductive outcome (A : Type) : Type :=
  | Ret (a : A)
  | Fault (f : fault).
Arguments Ret {A} a.
Arguments Fault {A} f.

#[export] Instance outcome_ret : MRet outcome := λ A, Ret.
#[export] Instance outcome_bind : MBind outcome := λ A B f m,
  match m with Ret a => f a | Fault e => Fault e end.
#[export] Instance fault_eq_dec : EqDecision fault.
Proof. solve_decision. Defined.

Lemma outcome_bind_ret {A B} (f : A → outcome B) a : (Ret a ≫= f) = f a.
Proof. reflexivity. Qed.

Lemma outcome_bind_fault {A B} (f : A → outcome B) e : (Fault e ≫= f) = Fault e.
Proof. reflexivity. Qed.

Lemma outcome_bind_assoc {A B C} (m : outcome A) (f : A → outcome B) (g : B → outcome C) :
  ((m ≫= f) ≫= g) = (m ≫= λ a, f a ≫= g).
Proof. by destruct m. Qed.

Lemma outcome_bind_inv {A B} (m : outcome A) (f : A → outcome B) b :
  (m ≫= f) = Ret b → ∃ a, m = Ret a ∧ f a = Ret b.
Proof. destruct m as [a|e]; simpl; [eauto | discriminate]. Qed.

Definition is_ret {A} (m : outcome A) : bool :=
  match m with Ret _ => true | Fault _ => false end.

Lemma is_ret_spec {A} (m : outcome A) : is_ret m = true ↔ ∃ a, m = Ret a.
Proof. destruct m; simpl; split; [eauto | done | done | by intros [? ?]]. Qed.

(** [guard b else e]: go on when [b] holds, stop with the fault [e] otherwise. *)
Definition guard (b : bool) (e : fault) : outcome unit := if b then Ret tt else Fault e.
Notation "'check' b 'else' e ;; k" := (mbind (λ _, k) (guard b e))
  (at level 100, b at level 99, e at level 99, k at level 200, only parsing) : c_scope.

Lemma guard_true e : guard true e = Ret tt.
Proof. reflexivity. Qed.

(** ** Machine integers

    A value of a [w]-bit type is its mathematical value in [Z].  A conversion to an unsigned type
    reduces modulo [2^w]; a conversion to a signed type takes the representative in
    [-2^(w-1), 2^(w-1)), which is what gcc documents; signed arithmetic that leaves the range is
    the fault [SignedOverflow]. *)

Definition uwrap (w x : Z) : Z := x mod 2 ^ w.
Definition swrap (w x : Z) : Z := (x + 2 ^ (w - 1)) mod 2 ^ w - 2 ^ (w - 1).
Definition in_unsigned (w x : Z) : bool := (0 <=? x) && (x <? 2 ^ w).
Definition in_signed (w x : Z) : bool := (- 2 ^ (w - 1) <=? x) && (x <? 2 ^ (w - 1)).

Abbreviation u8 := (uwrap 8).
Abbreviation u16 := (uwrap 16).
Abbreviation u32 := (uwrap 32).
Abbreviation u64 := (uwrap 64).
Abbreviation i16 := (swrap 16).
Abbreviation i32 := (swrap 32).
Abbreviation is_u8 := (in_unsigned 8).
Abbreviation is_u16 := (in_unsigned 16).
Abbreviation is_u32 := (in_unsigned 32).
Abbreviation is_u64 := (in_unsigned 64).
Abbreviation is_i16 := (in_signed 16).
Abbreviation is_i32 := (in_signed 32).

(** The result of an [int] operation whose mathematical value is [x]. *)
Definition int_res (x : Z) : outcome Z := if is_i32 x then Ret x else Fault SignedOverflow.
Definition int_add (x y : Z) : outcome Z := int_res (x + y).
Definition int_sub (x y : Z) : outcome Z := int_res (x - y).
Definition int_mul (x y : Z) : outcome Z := int_res (x * y).
Definition int_neg (x : Z) : outcome Z := int_res (- x).

(** The same for the 64-bit types of the standard durations. *)
Definition long_res (x : Z) : outcome Z := if in_signed 64 x then Ret x else Fault SignedOverflow.
Definition long_add (x y : Z) : outcome Z := long_res (x + y).
Definition long_sub (x y : Z) : outcome Z := long_res (x - y).
Definition long_mul (x y : Z) : outcome Z := long_res (x * y).
Definition long_neg (x : Z) : outcome Z := long_res (- x).

Lemma in_unsigned_spec w x : in_unsigned w x = true ↔ 0 ≤ x < 2 ^ w.
Proof. unfold in_unsigned. rewrite andb_true_iff, Z.leb_le, Z.ltb_lt. lia. Qed.

Lemma in_signed_spec w x : in_signed w x = true ↔ - 2 ^ (w - 1) ≤ x < 2 ^ (w - 1).
Proof. unfold in_signed. rewrite andb_true_iff, Z.leb_le, Z.ltb_lt. lia. Qed.

Lemma is_i32_spec x : is_i32 x = true ↔ -2147483648 ≤ x < 2147483648.
Proof. apply in_signed_spec. Qed.

Lemma is_i16_spec x : is_i16 x = true ↔ -32768 ≤ x < 32768.
Proof. apply in_signed_spec. Qed.

Lemma is_u8_spec x : is_u8 x = true ↔ 0 ≤ x < 256.
Proof. apply in_unsigned_spec. Qed.

Lemma is_u32_spec x : is_u32 x = true ↔ 0 ≤ x < 4294967296.
Proof. apply in_unsigned_spec. Qed.

Lemma is_u64_spec x : is_u64 x = true ↔ 0 ≤ x < 18446744073709551616.
Proof. apply in_unsigned_spec. Qed.

Lemma uwrap_small w x : 0 ≤ x < 2 ^ w → uwrap w x = x.
Proof. apply Z.mod_small. Qed.

Lemma uwrap_range w x : 0 ≤ w → 0 ≤ uwrap w x < 2 ^ w.
Proof. intros. apply Z.mod_pos_bound. lia. Qed.

Lemma uwrap_in w x : 0 ≤ w → in_unsigned w (uwrap w x) = true.
Proof. intros. by apply in_unsigned_spec, uwrap_range. Qed.

Lemma swrap_small w x : 0 < w → - 2 ^ (w - 1) ≤ x < 2 ^ (w - 1) → swrap w x = x.
Proof.
  intros Hw Hx. unfold swrap.
  assert (2 ^ w = 2 * 2 ^ (w - 1)) as E.
  { rewrite <- Z.pow_succ_r by lia. f_equal. lia. }
  rewrite Z.mod_small; lia.
Qed.

Lemma swrap_range w x : 0 < w → - 2 ^ (w - 1) ≤ swrap w x < 2 ^ (w - 1).
Proof.
  intros Hw. unfold swrap.
  assert (2 ^ w = 2 * 2 ^ (w - 1)) as E.
  { rewrite <- Z.pow_succ_r by lia. f_equal. lia. }
  assert (0 < 2 ^ (w - 1)) by lia.
  pose proof (Z.mod_pos_bound (x + 2 ^ (w - 1)) (2 ^ w)). lia.
Qed.

Lemma swrap_in w x : 0 < w → in_signed w (swrap w x) = true.
Proof. intros. by apply in_signed_spec, swrap_range. Qed.

Lemma u8_small x : 0 ≤ x < 256 → u8 x = x.
Proof. intros. apply uwrap_small. lia. Qed.

Lemma u32_small x : 0 ≤ x < 4294967296 → u32 x = x.
Proof. intros. apply uwrap_small. lia. Qed.

Lemma u64_small x : 0 ≤ x < 18446744073709551616 → u64 x = x.
Proof. intros. apply uwrap_small. lia. Qed.

Lemma i16_small x : -32768 ≤ x < 32768 → i16 x = x.
Proof. intros. apply swrap_small; lia. Qed.

Lemma i32_small x : -2147483648 ≤ x < 2147483648 → i32 x = x.
Proof. intros. apply swrap_small; lia. Qed.

Lemma uwrap_add_l w x y : uwrap w (uwrap w x + y) = uwrap w (x + y).
Proof. unfold uwrap. apply Zplus_mod_idemp_l. Qed.

Lemma uwrap_add_r w x y : uwrap w (x + uwrap w y) = uwrap w (x + y).
Proof. unfold uwrap. apply Zplus_mod_idemp_r. Qed.

Lemma swrap_uwrap w x : 0 < w → swrap w (uwrap w x) = swrap w x.
Proof. intros. unfold swrap, uwrap. by rewrite Zplus_mod_idemp_l. Qed.

Lemma land_shiftl x m n : 0 ≤ n → Z.land x (Z.shiftl m n) = Z.shiftl (Z.land (Z.shiftr x n) m) n.
Proof.
  intros Hn. apply Z.bits_inj'. intros k Hk. rewrite Z.land_spec.
  destruct (Z.ltb_spec k n).
  - rewrite !Z.shiftl_spec_low by lia. apply andb_false_r.
  - rewrite !Z.shiftl_spec by lia. rewrite Z.land_spec, Z.shiftr_spec by lia. f_equal. f_equal. lia.
Qed.

(** The [k] bits from bit [n] on. *)
Lemma land_field x k n : 0 ≤ k → 0 ≤ n → Z.land x (Z.shiftl (Z.ones k) n) = (x / 2 ^ n) mod 2 ^ k * 2 ^ n.
Proof. intros Hk Hn. by rewrite land_shiftl, Z.shiftr_div_pow2, Z.shiftl_mul_pow2, Z.land_ones. Qed.

(** [x & ~m], on words of [w] bits. *)
Lemma land_complement w x m : 0 ≤ w → 0 ≤ x < 2 ^ w → Z.land x (uwrap w (Z.lnot m)) = x - Z.land x m.
Proof.
  intros Hw Hx. unfold uwrap. rewrite <- Z.land_ones, (Z.land_comm (Z.lnot m)), Z.land_assoc by done.
  rewrite Z.land_ones, Z.mod_small by done. rewrite <- Z.ldiff_land.
  assert (Z.land x m + Z.ldiff x m = x); [|lia].
  rewrite <- (Z.lor_ldiff_and x m) at 3. rewrite Z.add_comm. apply Z.add_nocarry_lor.
  apply Z.bits_inj'. intros k Hk. rewrite !Z.land_spec, Z.ldiff_spec, Z.bits_0.
  by destruct (Z.testbit x k), (Z.testbit m k).
Qed.

Lemma uwrap_swrap w x : 0 < w → uwrap w (swrap w x) = uwrap w x.
Proof.
  intros Hw. unfold swrap, uwrap.
  assert (0 < 2 ^ w) by (apply Z.pow_pos_nonneg; lia).
  rewrite Zminus_mod_idemp_l. f_equal. lia.
Qed.

(** A narrower unsigned conversion absorbs a wider one. *)
Lemma u8_u32 x : u8 (u32 x) = u8 x.
Proof.
  unfold uwrap. apply Z.mod_mod_divide. exists (2 ^ 24). reflexivity.
Qed.

Lemma int_res_ok x : -2147483648 ≤ x < 2147483648 → int_res x = Ret x.
Proof. intros H. unfold int_res. by apply is_i32_spec in H as ->. Qed.

Lemma int_add_ok x y : -2147483648 ≤ x + y < 2147483648 → int_add x y = Ret (x + y).
Proof. apply int_res_ok. Qed.

Lemma int_sub_ok x y : -2147483648 ≤ x - y < 2147483648 → int_sub x y = Ret (x - y).
Proof. apply int_res_ok. Qed.

Lemma int_mul_ok x y : -2147483648 ≤ x * y < 2147483648 → int_mul x y = Ret (x * y).
Proof. apply int_res_ok. Qed.

Lemma int_res_overflow x : ¬ (-2147483648 ≤ x < 2147483648) → int_res x = Fault SignedOverflow.
Proof.
  intros H. unfold int_res. destruct (is_i32 x) eqn:E; [|done].
  by apply is_i32_spec in E.
Qed.

Lemma int_res_inv x y : int_res x = Ret y → y = x ∧ -2147483648 ≤ x < 2147483648.
Proof.
  unfold int_res. destruct (is_i32 x) eqn:E; [|done]. apply is_i32_spec in E.
  by intros [= ->].
Qed.

(** [int_step]: discharge the range checks of the [int] operations by [lia]. *)
Ltac int_step :=
  unfold int_add, int_sub, int_mul, int_neg;
  repeat (rewrite int_res_ok by lia; rewrite ?outcome_bind_ret).

(** Arithmetic of [unsigned int]: it wraps and never faults. *)
Definition uint_add (x y : Z) : Z := u32 (x + y).
Definition uint_sub (x y : Z) : Z := u32 (x - y).
Definition uint_mul (x y : Z) : Z := u32 (x * y).
Definition uint_rem (x y : Z) : outcome Z := if y =? 0 then Fault DivByZero else Ret (x mod y).

Lemma uint_add_small x y : 0 ≤ x + y < 4294967296 → uint_add x y = x + y.
Proof. apply u32_small. Qed.

Lemma uint_sub_small x y : 0 ≤ x - y < 4294967296 → uint_sub x y = x - y.
Proof. apply u32_small. Qed.

Lemma uint_mul_small x y : 0 ≤ x * y < 4294967296 → uint_mul x y = x * y.
Proof. apply u32_small. Qed.

Lemma long_res_ok x : -9223372036854775808 ≤ x < 9223372036854775808 → long_res x = Ret x.
Proof. intros H. unfold long_res. by rewrite (proj2 (in_signed_spec 64 x)). Qed.

Lemma long_res_inv x y :
  long_res x = Ret y → y = x ∧ -9223372036854775808 ≤ x < 9223372036854775808.
Proof.
  unfold long_res. destruct (in_signed 64 x) eqn:E; [|done].
  intros [= ->]. split; [done|]. by apply in_signed_spec in E.
Qed.

(** [long_step]: discharge the range checks of the 64-bit operations by [lia]. *)
Ltac long_step :=
  unfold long_add, long_sub, long_mul, long_neg;
  repeat (rewrite long_res_ok by lia; rewrite ?outcome_bind_ret).

(** [uint_step]: replace the [unsigned] operations that do not wrap by the ones of [Z]. *)
Ltac uint_step :=
  repeat match goal with
  | |- context [uint_add ?x ?y] => rewrite (uint_add_small x y) by lia
  | |- context [uint_sub ?x ?y] => rewrite (uint_sub_small x y) by lia
  | |- context [uint_mul ?x ?y] => rewrite (uint_mul_small x y) by lia
  end.

(** C's [/] and [%] truncate toward zero. *)
Definition c_div (x y : Z) : Z := Z.quot x y.
Definition c_rem (x y : Z) : Z := Z.rem x y.

Lemma c_div_nonneg x y : 0 ≤ x → 0 < y → c_div x y = x / y.
Proof. intros. by apply Z.quot_div_nonneg. Qed.

(** The idiom [(x >= 0 ? x : x - (n-1)) / n] is division rounding down. *)
Lemma c_div_floor x n :
  0 < n → c_div (if 0 <=? x then x else x - (n - 1)) n = x / n.
Proof.
  intros Hn. unfold c_div. destruct (Z.leb_spec 0 x).
  - by apply Z.quot_div_nonneg.
  - rewrite <- (Z.opp_involutive (x - (n - 1))).
    rewrite Z.quot_opp_l, Z.quot_div_nonneg by lia.
    apply Z.div_unique with (n - 1 - (- (x - (n - 1))) mod n).
    + pose proof (Z.mod_pos_bound (- (x - (n - 1))) n Hn). lia.
    + pose proof (Z.div_mod (- (x - (n - 1))) n). lia.
Qed.

(** The same with the constant written out. *)
Lemma c_div_floor_by x n k :
  0 < n → k = n - 1 → c_div (if 0 <=? x then x else x - k) n = x / n.
Proof. intros Hn ->. by apply c_div_floor. Qed.

(** ** Locating a value between the steps of a sequence *)

Lemma step_between_nat (S : Z → Z) (n : nat) lo x :
  S lo ≤ x < S (lo + Z.of_nat n) → ∃ k, lo ≤ k < lo + Z.of_nat n ∧ S k ≤ x < S (k + 1).
Proof.
  revert lo. induction n as [|n IH]; intros lo Hx.
  - replace (lo + Z.of_nat 0) with lo in Hx by lia. lia.
  - destruct (Z_lt_le_dec x (S (lo + 1))) as [Hlt|Hge].
    + exists lo. lia.
    + destruct (IH (lo + 1)) as (k & Hk & Hs).
      * replace (lo + 1 + Z.of_nat n) with (lo + Z.of_nat (Datatypes.S n)) by lia. lia.
      * exists k. lia.
Qed.

(** A value between the first and the last step lies between two consecutive ones. *)
Lemma step_between (S : Z → Z) lo hi x :
  lo ≤ hi → S lo ≤ x < S hi → ∃ k, lo ≤ k < hi ∧ S k ≤ x < S (k + 1).
Proof.
  intros Hl Hx. destruct (step_between_nat S (Z.to_nat (hi - lo)) lo x) as (k & Hk & Hs).
  - replace (lo + Z.of_nat (Z.to_nat (hi - lo))) with hi by lia. done.
  - exists k. lia.
Qed.

(** The same idiom on [int]s, whose subtraction is checked. *)
Lemma int_floor_arg x k :
  0 ≤ k → -2147483648 + k ≤ x →
  (if 0 <=? x then Ret x else int_sub x k) = Ret (if 0 <=? x then x else x - k).
Proof.
  intros. destruct (Z.leb_spec 0 x); [done|]. unfold int_sub. apply int_res_ok. lia.
Qed.

(** Goals with division and remainder by numerals. *)
Ltac div_lia := Z.div_mod_to_equations; lia.

(** ** Conversions used by rewriting *)

Create HintDb c_int.
Create Rewrite HintDb c_int.
#[export] Hint Rewrite @outcome_bind_ret @outcome_bind_fault : c_int.
#[export] Hint Rewrite swrap_uwrap using lia : c_int.
#[export] Hint Rewrite u8_u32 : c_int.
#[export] Hint Resolve u8_small u32_small u64_small i16_small i32_small : c_int.

(** Split the boolean tests of the goal and of the hypotheses into propositions for [lia]. *)
Ltac zb_prop :=
  repeat match goal with
  | H : andb _ _ = true |- _ => apply andb_true_iff in H as [? ?]
  | H : andb _ _ = false |- _ => apply andb_false_iff in H as [? | ?]
  | H : orb _ _ = true |- _ => apply orb_true_iff in H as [? | ?]
  | H : orb _ _ = false |- _ => apply orb_false_iff in H as [? ?]
  | H : negb _ = true |- _ => apply negb_true_iff in H
  | H : negb _ = false |- _ => apply negb_false_iff in H
  | H : (_ <=? _) = true |- _ => apply Z.leb_le in H
  | H : (_ <=? _) = false |- _ => apply Z.leb_gt in H
  | H : (_ <? _) = true |- _ => apply Z.ltb_lt in H
  | H : (_ <? _) = false |- _ => apply Z.ltb_ge in H
  | H : (_ =? _) = true |- _ => apply Z.eqb_eq in H
  | H : (_ =? _) = false |- _ => apply Z.eqb_neq in H
  end.

(** Case analysis on every boolean comparison of the goal. *)
Ltac zb_cases :=
  repeat match goal with
  | |- context [?a <=? ?b] => destruct (Z.leb_spec a b)
  | |- context [?a <? ?b] => destruct (Z.ltb_spec a b)
  | |- context [?a =? ?b] => destruct (Z.eqb_spec a b)
  end.

(** ** Checking a statement at every integer of a range *)

Fixpoint all_from (P : Z → bool) (lo : Z) (n : nat) : bool :=
  match n with
  | O => true
  | S n' => P lo && all_from P (lo + 1) n'
  end.

Definition all_between (P : Z → bool) (lo hi : Z) : bool := all_from P lo (Z.to_nat (hi - lo)).

Lemma all_from_spec P lo n :
  all_from P lo n = true → ∀ x, lo ≤ x < lo + Z.of_nat n → P x = true.
Proof.
  revert lo. induction n as [|n IH]; intros lo H x Hx; [lia|]. simpl in H.
  apply andb_true_iff in H as [H1 H2].
  destruct (Z.eq_dec x lo) as [->|]; [done|]. apply (IH (lo + 1)); [done | lia].
Qed.

(** The proof principle: a check over a finite range is a proof for each of its integers. *)
Lemma all_between_spec P lo hi :
  all_between P lo hi = true → ∀ x, lo ≤ x < hi → P x = true.
Proof. intros H x Hx. apply (all_from_spec _ _ _ H). lia. Qed.

(** ** Characters *)

Definition char_code (c : ascii) : Z := Z.of_N (N_of_ascii c).

(** ['0' <= c && c <= '9'], and [c - '0']. *)
Definition is_digit (c : ascii) : bool := (48 <=? char_code c) && (char_code c <=? 57).
Definition digit_val (c : ascii) : Z := char_code c - 48.

(** [isspace] in the C locale. *)
Definition is_space (c : ascii) : bool :=
  ((9 <=? char_code c) && (char_code c <=? 13)) || (char_code c =? 32).

(** [isalnum] in the C locale. *)
Definition is_alnum (c : ascii) : bool :=
  is_digit c || ((65 <=? char_code c) && (char_code c <=? 90))
  || ((97 <=? char_code c) && (char_code c <=? 122)).
