(* ===== verification/Memory.v ===== *)
(** Memory: C arrays with bounds-checked access, byte sequences, little-endian integers, and the
    byte copies of memcpy and memmove, shared by the LSM tree and by the record codecs. *)

From Stdlib Require Import ZArith Lia.
From stdpp Require Import base list.
From S2P Require Import Prelude.

(** ** Arrays

    An array object is the list of its elements; an index outside it is undefined. *)

Section arrays.
Context {A : Type}.
Implicit Types (a : list A) (i : Z) (x : A).

Definition arr_get a i : outcome A :=
  if i <? 0 then Fault OutOfBounds
  else match a !! Z.to_nat i with Some x => Ret x | None => Fault OutOfBounds end.

Definition arr_set a i x : outcome (list A) :=
  if (i <? 0) || (Z.of_nat (length a) <=? i) then Fault OutOfBounds
  else Ret (<[Z.to_nat i := x]> a).

Lemma arr_get_lookup a (i : nat) x : a !! i = Some x → arr_get a (Z.of_nat i) = Ret x.
Proof.
  intros H. unfold arr_get. destruct (Z.ltb_spec (Z.of_nat i) 0); [lia|].
  by rewrite Nat2Z.id, H.
Qed.

Lemma arr_get_oob a (i : nat) : (length a <= i)%nat → arr_get a (Z.of_nat i) = Fault OutOfBounds.
Proof.
  intros H. unfold arr_get. destruct (Z.ltb_spec (Z.of_nat i) 0); [lia|].
  by rewrite Nat2Z.id, lookup_ge_None_2.
Qed.

Lemma arr_get_out a (i : Z) : Z.of_nat (length a) ≤ i → arr_get a i = Fault OutOfBounds.
Proof. intros H. rewrite <- (Z2Nat.id i) by lia. apply arr_get_oob. lia. Qed.

Lemma arr_set_lt a (i : nat) x :
  (i < length a)%nat → arr_set a (Z.of_nat i) x = Ret (<[i := x]> a).
Proof.
  intros H. unfold arr_set.
  destruct (Z.ltb_spec (Z.of_nat i) 0); [lia|].
  destruct (Z.leb_spec (Z.of_nat (length a)) (Z.of_nat i)); [lia|].
  simpl. by rewrite Nat2Z.id.
Qed.

(** The same, for an index that is a number of the program. *)
Lemma arr_get_in a i x : 0 ≤ i → a !! Z.to_nat i = Some x → arr_get a i = Ret x.
Proof. intros Hi H. rewrite <- (Z2Nat.id i) by done. by apply arr_get_lookup. Qed.

Lemma arr_set_in a i x : 0 ≤ i < Z.of_nat (length a) → arr_set a i x = Ret (<[Z.to_nat i := x]> a).
Proof. intros Hi. rewrite <- (Z2Nat.id i) at 1 by lia. apply arr_set_lt. lia. Qed.

Lemma arr_set_ge a (i : nat) x :
  (length a <= i)%nat → arr_set a (Z.of_nat i) x = Fault OutOfBounds.
Proof.
  intros H. unfold arr_set.
  destruct (Z.leb_spec (Z.of_nat (length a)) (Z.of_nat i)); [by rewrite orb_true_r | lia].
Qed.

Lemma arr_set_length a i x b : arr_set a i x = Ret b → length b = length a.
Proof.
  unfold arr_set. destruct (_ || _); [done|]. intros [= <-]. apply length_insert.
Qed.

(** [memcpy(dst, src + off, n)] into a fresh array of exactly [n] elements. *)
Definition arr_slice a (off n : Z) : outcome (list A) :=
  if (0 <=? off) && (0 <=? n) && (off + n <=? Z.of_nat (length a))
  then Ret (take (Z.to_nat n) (drop (Z.to_nat off) a))
  else Fault OutOfBounds.

Lemma arr_slice_ok a (off n : nat) :
  (off + n <= length a)%nat →
  arr_slice a (Z.of_nat off) (Z.of_nat n) = Ret (take n (drop off a)).
Proof.
  intros H. unfold arr_slice.
  destruct (Z.leb_spec 0 (Z.of_nat off)); [|lia].
  destruct (Z.leb_spec 0 (Z.of_nat n)); [|lia].
  destruct (Z.leb_spec (Z.of_nat off + Z.of_nat n) (Z.of_nat (length a))); [|lia].
  simpl. by rewrite !Nat2Z.id.
Qed.

(** [memmove(p + dst, p + src, n)] inside one array, in units of its elements: the source is
    read before the destination is written. *)
Definition arr_move a (dst src n : Z) : outcome (list A) :=
  if (0 <=? dst) && (0 <=? src) && (0 <=? n)
     && (dst + n <=? Z.of_nat (length a)) && (src + n <=? Z.of_nat (length a))
  then Ret (take (Z.to_nat dst) a ++ take (Z.to_nat n) (drop (Z.to_nat src) a)
            ++ drop (Z.to_nat (dst + n)) a)
  else Fault OutOfBounds.

Lemma arr_move_ok a (dst src n : nat) :
  (dst + n <= length a)%nat → (src + n <= length a)%nat →
  arr_move a (Z.of_nat dst) (Z.of_nat src) (Z.of_nat n)
  = Ret (take dst a ++ take n (drop src a) ++ drop (dst + n) a).
Proof.
  intros H1 H2. unfold arr_move.
  rewrite (proj2 (Z.leb_le 0 (Z.of_nat dst))) by lia.
  rewrite (proj2 (Z.leb_le 0 (Z.of_nat src))) by lia.
  rewrite (proj2 (Z.leb_le 0 (Z.of_nat n))) by lia.
  rewrite (proj2 (Z.leb_le (Z.of_nat dst + Z.of_nat n) (Z.of_nat (length a)))) by lia.
  rewrite (proj2 (Z.leb_le (Z.of_nat src + Z.of_nat n) (Z.of_nat (length a)))) by lia.
  simpl. by rewrite <- Nat2Z.inj_add, !Nat2Z.id.
Qed.
End arrays.

(** ** The allocator

    [malloc] as the code relies on it: whether a request succeeds, how many bytes of the block it
    returns may be accessed, and what an [int] read from the fresh block would hold.  The answer
    of an allocator depends on the size of the request alone.  The accessible bytes are what
    malloc_usable_size(3) reports: by its manual page they may be more than were asked for, and
    the excess bytes can be overwritten without ill effects.  The C standard promises the bytes
    asked for and no more, which is [exact_alloc]: a claim of the development is about every
    allocator, and says what happens on one that grants no excess. *)

Class Allocator := {
  malloc_ok : Z → bool;
  malloc_usable : Z → Z;
  malloc_junk : Z
}.

(** The C standard's promise: at least the requested bytes. *)
Class AllocatorLaws (A : Allocator) : Prop := {
  malloc_usable_ge : ∀ n, 0 ≤ n → n ≤ malloc_usable n
}.

(** Memory is plentiful: a request below 1 TiB succeeds. *)
Class AllocatorGrants (A : Allocator) : Prop :=
  malloc_grants : ∀ n, n < 2 ^ 40 → malloc_ok n = true.

(** glibc: a chunk has a header of 8 bytes, a multiple of 16 bytes, and at least 32 bytes. *)
Definition glibc : Allocator := {|
  malloc_ok n := n <? 2 ^ 47;
  malloc_usable n := Z.max 24 ((n + 8 + 15) / 16 * 16 - 8);
  malloc_junk := 0
|}.

(** An allocator that grants exactly the requested bytes, as a checking allocator does. *)
Definition exact_alloc : Allocator := {|
  malloc_ok n := n <? 2 ^ 47;
  malloc_usable n := n;
  malloc_junk := -1
|}.

#[export] Instance glibc_laws : AllocatorLaws glibc.
Proof.
  constructor. intros n Hn. unfold malloc_usable, glibc.
  pose proof (Z.div_mod (n + 8 + 15) 16). pose proof (Z.mod_pos_bound (n + 8 + 15) 16). lia.
Qed.

#[export] Instance exact_alloc_laws : AllocatorLaws exact_alloc.
Proof. constructor. intros n Hn. simpl. lia. Qed.

#[export] Instance glibc_grants : AllocatorGrants glibc.
Proof. intros n Hn. apply Z.ltb_lt. lia. Qed.

#[export] Instance exact_alloc_grants : AllocatorGrants exact_alloc.
Proof. intros n Hn. apply Z.ltb_lt. lia. Qed.

Create HintDb c_arr.
#[export] Hint Resolve arr_get_lookup arr_set_lt arr_slice_ok arr_move_ok : c_arr.

(** Overwrite [a] from index [i] with the elements [xs]. *)
Definition blit {A} (a : list A) (i : nat) (xs : list A) : list A :=
  take i a ++ xs ++ drop (i + length xs) a.

Lemma length_blit {A} (a : list A) i xs :
  (i + length xs <= length a)%nat → length (blit a i xs) = length a.
Proof. intros H. unfold blit. rewrite !length_app, length_take, length_drop. lia. Qed.

Lemma blit_nil {A} (a : list A) i : blit a i [] = a.
Proof. unfold blit. simpl. rewrite Nat.add_0_r. apply take_drop. Qed.

(** Storing one element and then the rest is storing them all. *)
Lemma blit_insert {A} (a : list A) i x xs :
  (i < length a)%nat → blit (<[i := x]> a) (S i) xs = blit a i (x :: xs).
Proof.
  intros H. unfold blit. rewrite insert_take_drop by done.
  rewrite take_app, drop_app, !length_take.
  replace (S i - i `min` length a)%nat with 1%nat by lia.
  replace (S i + length xs - i `min` length a)%nat with (S (length xs)) by lia.
  rewrite take_take, (drop_ge (take i a)) by (rewrite length_take; lia).
  replace (S i `min` i)%nat with i by lia. simpl.
  rewrite take_0, <- app_assoc, drop_drop. simpl. do 3 f_equal. f_equal. lia.
Qed.

Lemma blit_blit {A} (a : list A) i xs ys :
  (i + length xs + length ys <= length a)%nat →
  blit (blit a i xs) (i + length xs) ys = blit a i (xs ++ ys).
Proof.
  intros H. revert a i H. induction xs as [|x xs IH]; intros a i H; simpl in *.
  - by rewrite Nat.add_0_r, blit_nil.
  - rewrite <- (blit_insert a i x xs), <- (blit_insert a i x (xs ++ ys)) by lia.
    rewrite <- IH by (rewrite length_insert; lia). f_equal. lia.
Qed.

(** [memcpy(p + off, xs, n)] into an array, where [n] is the number of the elements [xs]. *)
Definition arr_blit {A} (a : list A) (off : Z) (xs : list A) : outcome (list A) :=
  if (0 <=? off) && (off + Z.of_nat (length xs) <=? Z.of_nat (length a))
  then Ret (blit a (Z.to_nat off) xs) else Fault OutOfBounds.

Lemma arr_blit_ok {A} (a : list A) (off : nat) xs :
  (off + length xs <= length a)%nat → arr_blit a (Z.of_nat off) xs = Ret (blit a off xs).
Proof.
  intros H. unfold arr_blit. rewrite (proj2 (Z.leb_le 0 (Z.of_nat off))) by lia.
  rewrite (proj2 (Z.leb_le _ (Z.of_nat (length a)))) by lia. cbn. by rewrite Nat2Z.id.
Qed.

(** What is read where it was written, and elsewhere. *)
Lemma slice_blit {A} (a : list A) i xs :
  (i + length xs <= length a)%nat → take (length xs) (drop i (blit a i xs)) = xs.
Proof.
  intros H. unfold blit. rewrite drop_app_length' by (rewrite length_take; lia). by rewrite take_app_length.
Qed.

Lemma slice_blit_ne {A} (a : list A) i xs j n :
  (i + length xs <= length a)%nat → (j + n <= i)%nat ∨ (i + length xs <= j)%nat →
  take n (drop j (blit a i xs)) = take n (drop j a).
Proof.
  intros H Hj. apply list_eq. intros k. destruct (decide (k < n)%nat) as [Hk|Hk].
  2:{ rewrite !lookup_take_ge by lia. done. }
  rewrite !lookup_take_lt, !lookup_drop by done. unfold blit. destruct Hj as [Hj|Hj].
  - rewrite lookup_app_l by (rewrite length_take; lia). by apply lookup_take_lt; lia.
  - rewrite lookup_app_r, length_take by (rewrite length_take; lia).
    rewrite lookup_app_r by lia. rewrite lookup_drop. f_equal. lia.
Qed.

(** An array that is overwritten from the start keeps only its tail. *)
Lemma blit_0 {A} (a xs : list A) : blit a 0 xs = xs ++ drop (length xs) a.
Proof. reflexivity. Qed.

(** ** Bytes and little-endian integers *)

Abbreviation bytes := (list Z).

Definition bytes_ok (bs : bytes) : Prop := Forall (λ b, 0 ≤ b < 256) bs.

(** The [n] low bytes of the object representation of [z], least significant first. *)
Fixpoint le_bytes (n : nat) (z : Z) : bytes :=
  match n with
  | O => []
  | S n' => (z mod 256) :: le_bytes n' (z / 256)
  end.

(** The unsigned integer a byte sequence represents. *)
Fixpoint le_value (bs : bytes) : Z :=
  match bs with
  | [] => 0
  | b :: bs' => b + 256 * le_value bs'
  end.

Lemma length_le_bytes n z : length (le_bytes n z) = n.
Proof. revert z. induction n; intros; simpl; auto. Qed.

Lemma le_bytes_ok n z : bytes_ok (le_bytes n z).
Proof.
  revert z. induction n; intros; simpl; constructor; [|apply IHn].
  apply Z.mod_pos_bound. lia.
Qed.

Lemma le_value_le_bytes n z : le_value (le_bytes n z) = z mod 256 ^ Z.of_nat n.
Proof.
  revert z. induction n as [|n IH]; intros z; cbn [le_bytes le_value].
  - by rewrite Z.mod_1_r.
  - rewrite IH, Nat2Z.inj_succ, Z.pow_succ_r by lia. by rewrite Z.rem_mul_r by lia.
Qed.

Lemma le_value_range bs : bytes_ok bs → 0 ≤ le_value bs < 256 ^ Z.of_nat (length bs).
Proof.
  induction 1 as [|b bs Hb _ IH]; cbn [le_value length]; [done|].
  rewrite Nat2Z.inj_succ, Z.pow_succ_r by lia. lia.
Qed.

Lemma le_bytes_le_value bs : bytes_ok bs → le_bytes (length bs) (le_value bs) = bs.
Proof.
  induction 1 as [|b bs Hb _ IH]; cbn [le_value le_bytes length]; [done|].
  f_equal.
  - rewrite Z.mul_comm, Z.mod_add by lia. apply Z.mod_small. lia.
  - rewrite Z.mul_comm, Z.div_add by lia. rewrite Z.div_small by lia. done.
Qed.

(** The bytes of a value only depend on the value modulo their range. *)
Lemma le_bytes_mod n z : le_bytes n (z mod 256 ^ Z.of_nat n) = le_bytes n z.
Proof.
  rewrite <- le_value_le_bytes.
  rewrite <- (le_bytes_le_value (le_bytes n z)) at 2 by apply le_bytes_ok.
  by rewrite length_le_bytes.
Qed.

Lemma le_bytes_i32 z : le_bytes 4 (i32 z) = le_bytes 4 z.
Proof.
  rewrite <- (le_bytes_mod 4 (i32 z)), <- (le_bytes_mod 4 z). f_equal. apply (uwrap_swrap 32). lia.
Qed.

Lemma le_value_u16 z : le_value (le_bytes 2 z) = u16 z.
Proof. apply (le_value_le_bytes 2). Qed.

Lemma le_value_u32 z : le_value (le_bytes 4 z) = u32 z.
Proof. apply (le_value_le_bytes 4). Qed.

Lemma le_value_u64 z : le_value (le_bytes 8 z) = u64 z.
Proof. apply (le_value_le_bytes 8). Qed.

(** An [int] survives the trip through its four bytes. *)
Lemma int_of_le_bytes z : is_i32 z = true → i32 (le_value (le_bytes 4 z)) = z.
Proof.
  intros H. rewrite le_value_u32, swrap_uwrap by lia. apply is_i32_spec in H. apply i32_small. lia.
Qed.

Lemma bytes_ok_app bs1 bs2 : bytes_ok (bs1 ++ bs2) ↔ bytes_ok bs1 ∧ bytes_ok bs2.
Proof. apply Forall_app. Qed.

Create Rewrite HintDb c_bytes.
#[export] Hint Rewrite length_le_bytes le_value_u16 le_value_u32 le_value_u64 : c_bytes.
#[export] Hint Resolve le_bytes_ok : c_arr.
