(* ===== verification/Stdio.v ===== *)
(** Stdio: the world of the C programs (files and messages), the state-and-fault monad their
    functions run in, and the stdio calls they use on binary files. *)

From Stdlib Require Import ZArith Lia.
From stdpp Require Import base list gmap strings.
From S2P Require Import Prelude Memory.

(** A message on stdout or stderr, with the arguments the program passes. *)
Inductive event : Type :=
  | Perror (s : string)
  | Printf (fmt : string) (args : list Z).

(** The files by name, and the messages written so far, latest last.  A file that exists can be
    opened in either mode, and fseek, fwrite and fclose succeed. *)
Record world : Type := World { files : gmap string bytes; out : list event }.

(** ** The monad: a function of the world that may meet a fault *)

Definition io (A : Type) : Type := world → outcome (A * world).

#[export] Instance io_ret : MRet io := λ A a w, Ret (a, w).
#[export] Instance io_bind : MBind io := λ A B f m w,
  match m w with Ret (a, w') => f a w' | Fault e => Fault e end.

Definition lift {A} (m : outcome A) : io A := λ w,
  match m with Ret a => Ret (a, w) | Fault e => Fault e end.
Definition fail {A} (e : fault) : io A := λ _, Fault e.
Definition emit (e : event) : io unit := λ w, Ret (tt, World (files w) (out w ++ [e])).
Definition perror (s : string) : io unit := emit (Perror s).
Definition printf (fmt : string) (args : list Z) : io unit := emit (Printf fmt args).

Lemma io_bind_ret {A B} (m : io A) (f : A → io B) w a w' :
  m w = Ret (a, w') → (m ≫= f) w = f a w'.
Proof. intros H. unfold mbind, io_bind. by rewrite H. Qed.

Lemma io_bind_fault {A B} (m : io A) (f : A → io B) w e :
  m w = Fault e → (m ≫= f) w = Fault e.
Proof. intros H. unfold mbind, io_bind. by rewrite H. Qed.

Lemma io_bind_mret {A B} (a : A) (f : A → io B) w : ((mret a : io A) ≫= f) w = f a w.
Proof. reflexivity. Qed.

Lemma io_bind_lift {A B} (m : outcome A) (f : A → io B) a w :
  m = Ret a → (lift m ≫= f) w = f a w.
Proof. by intros ->. Qed.

Lemma io_bind_lift_fault {A B} (m : outcome A) (f : A → io B) e w :
  m = Fault e → (lift m ≫= f) w = Fault e.
Proof. by intros ->. Qed.

Lemma io_bind_emit {B} e (f : unit → io B) w :
  (emit e ≫= f) w = f tt (World (files w) (out w ++ [e])).
Proof. reflexivity. Qed.

Create Rewrite HintDb c_io.
#[export] Hint Rewrite @io_bind_mret @io_bind_emit : c_io.

(** ** Files *)

(** stat: 0 when the file exists, -1 otherwise; with the size it reports. *)
Definition stat (name : string) : io (Z * option Z) := λ w,
  match files w !! name with
  | Some bs => Ret ((0, Some (Z.of_nat (length bs))), w)
  | None => Ret ((-1, None), w)
  end.

(** fopen(name, r): the bytes still to be read, or a null stream. *)
Definition fopen_r (name : string) : io (option bytes) := λ w, Ret (files w !! name, w).

(** What closing a stream opened with mode w leaves: the file has the bytes written to it.  The
    stream itself is the list of its bytes, empty at fopen. *)
Definition fclose_w (name : string) (content : bytes) : io unit := λ w,
  Ret (tt, World (<[name := content]> (files w)) (out w)).

(** fwrite of [bs] at byte [pos]; a gap left by fseek reads as zeros. *)
Definition fwrite_at (content : bytes) (pos : nat) (bs : bytes) : bytes :=
  let padded := content ++ replicate (pos - length content) 0 in
  take pos padded ++ bs ++ drop (pos + length bs) padded.

Lemma fwrite_at_end content bs : fwrite_at content (length content) bs = content ++ bs.
Proof.
  unfold fwrite_at. rewrite Nat.sub_diag. simpl.
  by rewrite app_nil_r, take_ge, drop_ge, app_nil_r by lia.
Qed.

(** fread(&n, 8, 1, f): the items read, the value the object holds afterwards ([None] when only a
    part of its bytes arrived), and the rest of the stream. *)
Definition fread_size_t (old : option Z) (rest : bytes) : Z * option Z * bytes :=
  match rest with
  | [] => (0, old, [])
  | _ => if decide (8 <= length rest)%nat
         then (1, Some (le_value (take 8 rest)), drop 8 rest)
         else (0, None, [])
  end.

Lemma fread_size_t_ok old n rest :
  is_u64 n = true → fread_size_t old (le_bytes 8 n ++ rest) = (1, Some n, rest).
Proof.
  intros Hn. unfold fread_size_t. destruct (le_bytes 8 n ++ rest) as [|b bs] eqn:E.
  { apply (f_equal length) in E. rewrite length_app, length_le_bytes in E. simpl in E. lia. }
  rewrite <- E. rewrite decide_True by (rewrite length_app, length_le_bytes; lia).
  rewrite take_app_length' by (by rewrite length_le_bytes).
  rewrite drop_app_length' by (by rewrite length_le_bytes).
  rewrite le_value_u64, u64_small; [done|]. by apply is_u64_spec in Hn.
Qed.
