(* ===== verification/LsmSort.v ===== *)
(** LsmSort: the nodes of the LSM tree and its merge sort ([merge] and [merge_sort] of
    test/LSMTree/lsm.c), with the list-level merge that the index-based loops implement. *)

From Stdlib Require Import ZArith Lia.
From stdpp Require Import base list sorting.
From S2P Require Import Prelude Memory.

(** [src: test/LSMTree/lsm.h 10-16 node] *)
Record node : Type := Node { key : Z; val : Z }.

#[export] Instance node_eq_dec : EqDecision node.
Proof. solve_decision. Defined.

(** Both fields are [int]s. *)
Definition node_ok (x : node) : Prop := is_i32 (key x) = true ∧ is_i32 (val x) = true.

(** ** The loops of [merge] *)

(** The loop that compares the two fronts; on a tie it takes the right one.
    [src: test/LSMTree/lsm.c 88-98 merge] *)
Fixpoint merge_both (fuel : nat) (whole left right : list node)
    (left_size right_size l r i : Z) : outcome (list node * Z * Z * Z) :=
  match fuel with
  | O => Fault OutOfFuel
  | S fuel' =>
      if (l <? left_size) && (r <? right_size) then
        a ← arr_get left l;
        b ← arr_get right r;
        if key a <? key b then
          whole' ← arr_set whole i a;
          i' ← int_add i 1; l' ← int_add l 1;
          merge_both fuel' whole' left right left_size right_size l' r i'
        else
          whole' ← arr_set whole i b;
          i' ← int_add i 1; r' ← int_add r 1;
          merge_both fuel' whole' left right left_size right_size l r' i'
      else Ret (whole, l, r, i)
  end.

(** The loop that copies what is left of one side.
    [src: test/LSMTree/lsm.c 100-107 merge] *)
Fixpoint merge_rest (fuel : nat) (whole src : list node) (size l i : Z)
    : outcome (list node * Z) :=
  match fuel with
  | O => Fault OutOfFuel
  | S fuel' =>
      if l <? size then
        a ← arr_get src l;
        whole' ← arr_set whole i a;
        i' ← int_add i 1; l' ← int_add l 1;
        merge_rest fuel' whole' src size l' i'
      else Ret (whole, i)
  end.

(** [src: test/LSMTree/lsm.c 83-108 merge] *)
Definition merge (whole left : list node) (left_size : Z) (right : list node) (right_size : Z)
    : outcome (list node) :=
  let fuel := S (Z.to_nat left_size + Z.to_nat right_size) in
  '(whole, l, r, i) ← merge_both fuel whole left right left_size right_size 0 0 0;
  '(whole, i) ← merge_rest fuel whole left left_size l i;
  '(whole, _) ← merge_rest fuel whole right right_size r i;
  Ret whole.

Section sort.
Context `{A : Allocator}.

(** malloc of [n] nodes and memcpy of [a]'s nodes from [off]; the result is not tested, so a
    failed malloc is a write through a null pointer.
    [src: test/LSMTree/lsm.c 129-134 merge_sort] *)
Definition copy_nodes (a : list node) (off n : Z) : outcome (list node) :=
  if malloc_ok (u64 (8 * u64 n)) then arr_slice a off n else Fault NullDeref.

(** [fuel] bounds the depth of the recursion.
    [src: test/LSMTree/lsm.c 116-142 merge_sort] *)
Fixpoint merge_sort (fuel : nat) (block : list node) (n : Z) : outcome (list node) :=
  match fuel with
  | O => Fault OutOfFuel
  | S fuel' =>
      if n <? 2 then Ret block
      else
        let mid := c_div n 2 in
        left ← copy_nodes block 0 mid;
        right ← copy_nodes block mid (n - mid);
        left ← merge_sort fuel' left mid;
        right ← merge_sort fuel' right (n - mid);
        merge block left mid right (n - mid)
  end.
End sort.

(** Enough fuel for an array of [n] nodes: the size at least halves at each level. *)
Definition merge_sort_fuel (n : Z) : nat := S (Z.to_nat n).

(** ** Reference definitions *)

(** Merging two lists, the right one first on a tie. *)
Fixpoint merge_ref (l1 : list node) : list node → list node :=
  fix merge_ref_right l2 :=
    match l1, l2 with
    | [], _ => l2
    | _, [] => l1
    | a :: l1', b :: l2' =>
        if key a <? key b then a :: merge_ref l1' l2 else b :: merge_ref_right l2'
    end.

Definition key_le (x y : node) : Prop := key x ≤ key y.
Definition same_key (k : Z) (x : node) : Prop := key x = k.
#[export] Instance same_key_dec k x : Decision (same_key k x).
Proof. unfold same_key. apply _. Defined.

#[export] Instance key_le_trans : Transitive key_le.
Proof. intros x y z. unfold key_le. lia. Qed.

Lemma merge_ref_nil_l l : merge_ref [] l = l.
Proof. by destruct l. Qed.

Lemma merge_ref_nil_r l : merge_ref l [] = l.
Proof. by destruct l. Qed.

Lemma merge_ref_cons a l1 b l2 :
  merge_ref (a :: l1) (b :: l2)
  = if key a <? key b then a :: merge_ref l1 (b :: l2) else b :: merge_ref (a :: l1) l2.
Proof. reflexivity. Qed.

#[global] Arguments merge_ref : simpl never.

(** Induction on the two lists as [merge_ref] consumes them. *)
Lemma merge_ref_ind (P : list node → list node → Prop) :
  (∀ l, P [] l) → (∀ l, P l []) →
  (∀ a l1 b l2, key a < key b → P l1 (b :: l2) → P (a :: l1) (b :: l2)) →
  (∀ a l1 b l2, key b ≤ key a → P (a :: l1) l2 → P (a :: l1) (b :: l2)) →
  ∀ l1 l2, P l1 l2.
Proof.
  intros Hl Hr Hlt Hge l1. induction l1 as [|a l1 IH1]; intros l2; [done|].
  induction l2 as [|b l2 IH2]; [done|].
  destruct (Z.lt_ge_cases (key a) (key b)); auto.
Qed.

Lemma merge_ref_lt a l1 b l2 :
  key a < key b → merge_ref (a :: l1) (b :: l2) = a :: merge_ref l1 (b :: l2).
Proof. intros L. rewrite merge_ref_cons. by apply Z.ltb_lt in L as ->. Qed.

Lemma merge_ref_ge a l1 b l2 :
  key b ≤ key a → merge_ref (a :: l1) (b :: l2) = b :: merge_ref (a :: l1) l2.
Proof. intros L. rewrite merge_ref_cons. by apply Z.ltb_ge in L as ->. Qed.

Create Rewrite HintDb c_merge.
#[export] Hint Rewrite merge_ref_nil_l merge_ref_nil_r : c_merge.
#[export] Hint Rewrite merge_ref_lt merge_ref_ge using assumption : c_merge.

Lemma length_merge_ref l1 l2 : length (merge_ref l1 l2) = (length l1 + length l2)%nat.
Proof.
  pattern l1, l2. apply merge_ref_ind; clear l1 l2; intros; autorewrite with c_merge;
    simpl in *; lia.
Qed.

Lemma merge_ref_perm l1 l2 : merge_ref l1 l2 ≡ₚ l1 ++ l2.
Proof.
  pattern l1, l2. apply merge_ref_ind; clear l1 l2; intros; autorewrite with c_merge.
  - done.
  - by rewrite app_nil_r.
  - simpl. by f_equiv.
  - rewrite H0. apply (Permutation_middle (a :: l1) l2 b).
Qed.

Lemma key_le_cons a l k : Forall (key_le a) l → k ≤ key a → Forall (λ x, k ≤ key x) (a :: l).
Proof.
  intros F L. constructor; [done|]. eapply Forall_impl; [exact F|]. unfold key_le. simpl. lia.
Qed.

Lemma merge_ref_sorted l1 l2 :
  StronglySorted key_le l1 → StronglySorted key_le l2 → StronglySorted key_le (merge_ref l1 l2).
Proof.
  pattern l1, l2. apply merge_ref_ind; clear l1 l2; intros; autorewrite with c_merge; [done|done|..].
  - apply StronglySorted_inv in H1 as [S1 F1]. apply StronglySorted_inv in H2 as H2'.
    constructor; [by apply H0|]. rewrite merge_ref_perm, Forall_app. split; [done|].
    apply key_le_cons; [tauto | lia].
  - apply StronglySorted_inv in H2 as [S2 F2]. apply StronglySorted_inv in H1 as H1'.
    constructor; [by apply H0|]. rewrite merge_ref_perm, Forall_app. split; [|done].
    apply key_le_cons; [tauto | lia].
Qed.

Lemma filter_key_above k l : Forall (λ x, k < key x) l → filter (same_key k) l = [].
Proof.
  induction 1 as [|x l Hx _ IH]; [done|].
  rewrite filter_cons_False; [done|]. unfold same_key. lia.
Qed.

(** Among equal keys the nodes of the right list come first, each list in its own order. *)
Lemma merge_ref_filter k l1 l2 :
  StronglySorted key_le l1 → StronglySorted key_le l2 →
  filter (same_key k) (merge_ref l1 l2) = filter (same_key k) l2 ++ filter (same_key k) l1.
Proof.
  pattern l1, l2. apply merge_ref_ind; clear l1 l2; intros; autorewrite with c_merge.
  - by rewrite app_nil_r.
  - done.
  - apply StronglySorted_inv in H1 as [S1 _]. apply StronglySorted_inv in H2 as H2'.
    rewrite filter_cons, (filter_cons _ a), H0 by done.
    destruct (decide (same_key k a)) as [Ea|]; [|done].
    rewrite (filter_key_above k (b :: l2)); [done|].
    unfold same_key in Ea. apply (Forall_impl (λ x, key b ≤ key x)); [|intros; lia].
    apply key_le_cons; [tauto | lia].
  - apply StronglySorted_inv in H2 as [S2 _].
    rewrite filter_cons, (filter_cons _ b), H0 by done.
    by destruct (decide (same_key k b)).
Qed.

(** ** The loops compute the reference merge *)

(** The elements of [a] from index [l] up to index [n]. *)
Definition slice {A} (a : list A) (l n : nat) : list A := drop l (take n a).

Lemma slice_ge {A} (a : list A) l n : (n <= l)%nat → slice a l n = [].
Proof. intros. unfold slice. apply drop_ge. rewrite length_take. lia. Qed.

Lemma slice_cons {A} (a : list A) l n x :
  (l < n)%nat → a !! l = Some x → slice a l n = x :: slice a (S l) n.
Proof.
  intros Hl Hx. unfold slice. apply drop_S. by rewrite lookup_take_lt.
Qed.

Lemma length_slice {A} (a : list A) l n : (n <= length a)%nat → length (slice a l n) = (n - l)%nat.
Proof. intros H. unfold slice. rewrite length_drop, length_take. lia. Qed.

Lemma int_succ (n : nat) :
  Z.of_nat n < 2147483647 → int_add (Z.of_nat n) 1 = Ret (Z.of_nat (S n)).
Proof. intros H. rewrite Nat2Z.inj_succ, <- Z.add_1_r. int_step. done. Qed.

Lemma merge_rest_spec fuel (whole src : list node) (size l i : nat) :
  (size <= length src)%nat → (i + (size - l) <= length whole)%nat →
  Z.of_nat (i + (size - l)) < 2147483648 → Z.of_nat size < 2147483648 →
  (size - l < fuel)%nat →
  merge_rest fuel whole src (Z.of_nat size) (Z.of_nat l) (Z.of_nat i)
  = Ret (blit whole i (slice src l size), Z.of_nat (i + (size - l))).
Proof.
  revert whole l i. induction fuel as [|fuel IH]; intros whole l i Hs Hw Hi Hz Hf; [lia|].
  cbn [merge_rest]. destruct (Z.ltb_spec (Z.of_nat l) (Z.of_nat size)) as [L|L].
  - destruct (lookup_lt_is_Some_2 src l) as [x Hx]; [lia|].
    rewrite (arr_get_lookup _ _ _ Hx), outcome_bind_ret.
    rewrite arr_set_lt, outcome_bind_ret by lia.
    rewrite (int_succ i), outcome_bind_ret, (int_succ l), outcome_bind_ret by lia.
    rewrite IH by (rewrite ?length_insert; lia).
    rewrite (slice_cons src l size x) by (done || lia).
    rewrite blit_insert by lia. do 2 f_equal. lia.
  - rewrite slice_ge, blit_nil by lia.
    do 2 f_equal. lia.
Qed.

(** What [merge_both] has done when one side is used up: it has written [xs], and merging the
    sides from where it started gives [xs] followed by what is left of them. *)
Lemma merge_both_spec fuel (whole left right : list node) (ls rs l r i : nat) :
  (l <= ls <= length left)%nat → (r <= rs <= length right)%nat →
  (i + (ls - l) + (rs - r) <= length whole)%nat →
  Z.of_nat (i + (ls - l) + (rs - r)) < 2147483648 →
  Z.of_nat ls < 2147483648 → Z.of_nat rs < 2147483648 →
  (ls - l + (rs - r) < fuel)%nat →
  ∃ (xs : list node) (l' r' : nat),
    merge_both fuel whole left right (Z.of_nat ls) (Z.of_nat rs)
      (Z.of_nat l) (Z.of_nat r) (Z.of_nat i)
    = Ret (blit whole i xs, Z.of_nat l', Z.of_nat r', Z.of_nat (i + length xs)) ∧
    (l <= l' <= ls)%nat ∧ (r <= r' <= rs)%nat ∧ (l' = ls ∨ r' = rs) ∧
    (length xs + (ls - l') + (rs - r') = (ls - l) + (rs - r))%nat ∧
    merge_ref (slice left l ls) (slice right r rs)
    = xs ++ slice left l' ls ++ slice right r' rs.
Proof.
  revert whole l r i. induction fuel as [|fuel IH]; intros whole l r i Hl Hr Hw Hi Hls Hrs Hf;
    [lia|]. cbn [merge_both].
  destruct (Z.ltb_spec (Z.of_nat l) (Z.of_nat ls)) as [Ll|Ll]; cbn [andb].
  2:{ exists [], l, r. assert (l = ls) as -> by lia. rewrite slice_ge, merge_ref_nil_l, blit_nil by lia.
      simpl. rewrite Nat.add_0_r. split_and!; auto; lia. }
  destruct (Z.ltb_spec (Z.of_nat r) (Z.of_nat rs)) as [Lr|Lr].
  2:{ exists [], l, r. assert (r = rs) as -> by lia.
      rewrite (slice_ge right), merge_ref_nil_r, blit_nil by lia.
      simpl. rewrite Nat.add_0_r, app_nil_r. split_and!; auto; lia. }
  destruct (lookup_lt_is_Some_2 left l) as [a Ha]; [lia|].
  destruct (lookup_lt_is_Some_2 right r) as [b Hb]; [lia|].
  rewrite (arr_get_lookup _ _ _ Ha), outcome_bind_ret.
  rewrite (arr_get_lookup _ _ _ Hb), outcome_bind_ret.
  rewrite (slice_cons left l ls a), (slice_cons right r rs b), merge_ref_cons by (done || lia).
  destruct (key a <? key b); rewrite arr_set_lt, outcome_bind_ret by lia;
    rewrite (int_succ i), outcome_bind_ret by lia;
    [rewrite (int_succ l) by lia | rewrite (int_succ r) by lia]; rewrite outcome_bind_ret.
  - destruct (IH (<[i := a]> whole) (S l) r (S i)) as (xs & l' & r' & E & ? & ? & ? & ? & M);
      [rewrite ?length_insert; lia..|].
    exists (a :: xs), l', r'. rewrite E, blit_insert by lia.
    rewrite <- (slice_cons right r rs b) by (done || lia). rewrite M. simpl.
    split_and!; try done; try lia. do 3 f_equal. lia.
  - destruct (IH (<[i := b]> whole) l (S r) (S i)) as (xs & l' & r' & E & ? & ? & ? & ? & M);
      [rewrite ?length_insert; lia..|].
    exists (b :: xs), l', r'. rewrite E, blit_insert by lia.
    rewrite <- (slice_cons left l ls a) by (done || lia). rewrite M. simpl.
    split_and!; try done; try lia. do 3 f_equal. lia.
Qed.

(** [merge] writes the reference merge of the two inputs at the start of [whole]. *)
Lemma merge_spec (whole left right : list node) (ls rs : nat) :
  (ls <= length left)%nat → (rs <= length right)%nat → (ls + rs <= length whole)%nat →
  Z.of_nat (ls + rs) < 2147483648 →
  merge whole left (Z.of_nat ls) right (Z.of_nat rs)
  = Ret (blit whole 0 (merge_ref (take ls left) (take rs right))).
Proof.
  intros Hl Hr Hw Hz. unfold merge. rewrite !Nat2Z.id.
  destruct (merge_both_spec (S (ls + rs)) whole left right ls rs 0 0 0)
    as (xs & l & r & E & Hl' & Hr' & Hend & Hlen & M); [lia..|].
  change (Z.of_nat 0) with 0 in E. rewrite E, outcome_bind_ret. cbv beta iota.
  unfold slice in M. rewrite !drop_0 in M. fold (slice left l ls) (slice right r rs) in M.
  rewrite merge_rest_spec, outcome_bind_ret by (rewrite ?length_blit; simpl; lia).
  cbv beta iota. rewrite merge_rest_spec, outcome_bind_ret
    by (rewrite ?length_blit; rewrite ?length_blit, ?length_slice; simpl; lia).
  rewrite M, app_assoc. f_equal.
  rewrite (blit_blit whole 0 xs) by (rewrite ?length_slice; simpl; lia).
  replace (0 + length xs + (ls - l))%nat with (0 + length (xs ++ slice left l ls))%nat
    by (rewrite length_app, length_slice; lia).
  rewrite blit_blit; [done|]. rewrite length_app, !length_slice; simpl; lia.
Qed.

(** ** [merge_sort] *)

Section sort_spec.
Context `{A : Allocator} `{!AllocatorGrants A}.

(** The sorted permutation of [l] in which equal keys stand in reverse order of arrival. *)
Definition newest_first_sort (l s : list node) : Prop :=
  s ≡ₚ l ∧ StronglySorted key_le s ∧
  ∀ k, filter (same_key k) s = reverse (filter (same_key k) l).

Lemma copy_nodes_ok (a : list node) (off n : nat) :
  (off + n <= length a)%nat → Z.of_nat n < 2147483648 →
  copy_nodes a (Z.of_nat off) (Z.of_nat n) = Ret (take n (drop off a)).
Proof. intros. unfold copy_nodes. rewrite (u64_small (Z.of_nat n)), u64_small by lia.
  by rewrite malloc_grants, arr_slice_ok by lia. Qed.

(** Merging two sorted halves sorts the whole. *)
Lemma newest_first_merge l1 l2 s1 s2 :
  newest_first_sort l1 s1 → newest_first_sort l2 s2 →
  newest_first_sort (l1 ++ l2) (merge_ref s1 s2).
Proof.
  intros (P1 & S1 & F1) (P2 & S2 & F2). split_and!.
  - by rewrite merge_ref_perm, P1, P2.
  - by apply merge_ref_sorted.
  - intros k. by rewrite merge_ref_filter, F1, F2, filter_app, reverse_app.
Qed.

Lemma newest_first_short l : (length l < 2)%nat → newest_first_sort l l.
Proof.
  destruct l as [|x [|y l]]; simpl; intros; [| |lia]; split_and!; try done.
  - constructor.
  - repeat constructor.
  - intros k. rewrite filter_cons. by destruct (decide _).
Qed.

Lemma merge_sort_spec fuel (block : list node) (n : nat) :
  (n <= length block)%nat → Z.of_nat n < 2147483648 → (n < fuel)%nat →
  ∃ s, merge_sort fuel block (Z.of_nat n) = Ret (s ++ drop n block) ∧
       newest_first_sort (take n block) s.
Proof.
  revert block n. induction fuel as [|fuel IH]; intros block n Hn Hz Hf; [lia|].
  cbn [merge_sort]. destruct (Z.ltb_spec (Z.of_nat n) 2).
  { exists (take n block). rewrite take_drop. split; [done|].
    apply newest_first_short. rewrite length_take. lia. }
  rewrite c_div_nonneg by lia. set (mid := (n / 2)%nat).
  assert (Z.of_nat n / 2 = Z.of_nat mid) as -> by (unfold mid; by rewrite Nat2Z.inj_div).
  assert (2 * mid <= n < 2 * mid + 2)%nat.
  { pose proof (Nat.div_mod_eq n 2). pose proof (Nat.mod_upper_bound n 2). lia. }
  cbv zeta. change 0 with (Z.of_nat 0). rewrite <- Nat2Z.inj_sub by lia.
  rewrite (copy_nodes_ok block 0 mid), outcome_bind_ret by lia.
  rewrite (copy_nodes_ok block mid (n - mid)), outcome_bind_ret by lia.
  rewrite drop_0.
  destruct (IH (take mid block) mid) as (s1 & -> & S1); [rewrite ?length_take; lia..|].
  destruct (IH (take (n - mid) (drop mid block)) (n - mid)%nat) as (s2 & E2 & S2);
    [rewrite ?length_take, ?length_drop; lia..|].
  rewrite outcome_bind_ret, E2, outcome_bind_ret.
  rewrite drop_ge, app_nil_r by (rewrite length_take; lia).
  rewrite drop_ge, app_nil_r by (rewrite length_take, length_drop; lia).
  rewrite take_take, Nat.min_id in S1. rewrite take_take, Nat.min_id in S2.
  pose proof (Permutation_length (proj1 S1)) as L1.
  pose proof (Permutation_length (proj1 S2)) as L2.
  rewrite length_take in L1. rewrite length_take, length_drop in L2.
  rewrite merge_spec by lia. rewrite !take_ge by lia.
  exists (merge_ref s1 s2). rewrite blit_0, length_merge_ref. split.
  - do 3 f_equal. lia.
  - replace (take n block) with (take mid block ++ take (n - mid) (drop mid block)).
    + by apply newest_first_merge.
    + rewrite <- (take_drop mid (take n block)), take_take, skipn_firstn_comm.
      by rewrite Nat.min_l by lia.
Qed.
End sort_spec.
