(* ===== verification/LsmFile.v ===== *)
(** LsmFile: the object representation of nodes, and the disk file of the LSM tree: a size_t
    count followed by the nodes. *)

From Stdlib Require Import ZArith Lia.
From stdpp Require Import base list.
From S2P Require Import Prelude Memory LsmSort Stdio.

(** The eight bytes of a node: two little-endian [int]s. *)
Definition node_bytes (x : node) : bytes := le_bytes 4 (key x) ++ le_bytes 4 (val x).

Definition node_of_bytes (bs : bytes) : node :=
  Node (i32 (le_value (take 4 bs))) (i32 (le_value (take 4 (drop 4 bs)))).

Definition nodes_bytes (xs : list node) : bytes := mjoin (node_bytes <$> xs).

(** The [n] nodes at the start of a byte sequence. *)
Fixpoint nodes_of_bytes (n : nat) (bs : bytes) : list node :=
  match n with
  | O => []
  | S n' => node_of_bytes (take 8 bs) :: nodes_of_bytes n' (drop 8 bs)
  end.

(** fread(file_data, sizeof(node), n, f) with room for [n] nodes: the items read, the nodes that
    are now initialised, and the rest of the stream.
    [src: test/LSMTree/lsm.c 186-188 search_disk] *)
Definition fread_nodes (n : Z) (rest : bytes) : Z * list node * bytes :=
  let got := Z.min n (Z.of_nat (length rest) / 8) in
  (got, nodes_of_bytes (Z.to_nat got) rest, drop (Z.to_nat (8 * got)) rest).

(** The file with the count [n] in front of the nodes [xs], that the two fwrites leave.
    [src: test/LSMTree/lsm.c 294-310 write_to_disk] *)
Definition disk_file (n : Z) (xs : list node) : bytes := le_bytes 8 n ++ nodes_bytes xs.

Lemma length_node_bytes x : length (node_bytes x) = 8%nat.
Proof. unfold node_bytes. by rewrite length_app, !length_le_bytes. Qed.

Lemma node_bytes_ok x : bytes_ok (node_bytes x).
Proof. apply bytes_ok_app. split; apply le_bytes_ok. Qed.

Lemma node_of_node_bytes x : node_ok x → node_of_bytes (node_bytes x) = x.
Proof.
  intros [Hk Hv]. unfold node_of_bytes, node_bytes.
  rewrite take_app_length', drop_app_length' by (by rewrite length_le_bytes).
  rewrite take_ge by (rewrite length_le_bytes; lia).
  rewrite !int_of_le_bytes by done. by destruct x.
Qed.

Lemma node_of_bytes_ok bs : node_ok (node_of_bytes bs).
Proof. split; apply swrap_in; lia. Qed.

Lemma nodes_bytes_cons x xs : nodes_bytes (x :: xs) = node_bytes x ++ nodes_bytes xs.
Proof. reflexivity. Qed.

Lemma nodes_bytes_app xs ys : nodes_bytes (xs ++ ys) = nodes_bytes xs ++ nodes_bytes ys.
Proof. unfold nodes_bytes. by rewrite fmap_app, join_app. Qed.

Lemma length_nodes_bytes xs : length (nodes_bytes xs) = (8 * length xs)%nat.
Proof.
  induction xs as [|x xs IH]; [done|].
  rewrite nodes_bytes_cons, length_app, length_node_bytes, IH. simpl. lia.
Qed.

Lemma length_nodes_of_bytes n bs : length (nodes_of_bytes n bs) = n.
Proof. revert bs. induction n; intros; simpl; auto. Qed.

Lemma nodes_of_bytes_ok n bs : Forall node_ok (nodes_of_bytes n bs).
Proof. revert bs. induction n; intros; simpl; constructor; auto using node_of_bytes_ok. Qed.

(** Nodes survive the trip through their bytes, whatever follows them. *)
Lemma nodes_of_nodes_bytes xs rest :
  Forall node_ok xs → nodes_of_bytes (length xs) (nodes_bytes xs ++ rest) = xs.
Proof.
  induction 1 as [|x xs Hx _ IH]; [done|].
  cbn [nodes_of_bytes length]. rewrite nodes_bytes_cons, <- app_assoc.
  rewrite take_app_length', drop_app_length' by (by rewrite length_node_bytes).
  by rewrite IH, node_of_node_bytes.
Qed.

Lemma nodes_of_bytes_app xs n bs :
  Forall node_ok xs →
  nodes_of_bytes (length xs + n) (nodes_bytes xs ++ bs) = xs ++ nodes_of_bytes n bs.
Proof.
  induction 1 as [|x xs Hx _ IH]; [done|].
  cbn [nodes_of_bytes length Nat.add]. rewrite nodes_bytes_cons, <- app_assoc.
  rewrite take_app_length', drop_app_length' by (by rewrite length_node_bytes).
  by rewrite IH, node_of_node_bytes.
Qed.

Lemma drop_nodes_bytes n xs : drop (8 * n) (nodes_bytes xs) = nodes_bytes (drop n xs).
Proof.
  revert xs. induction n as [|n IH]; intros [|x xs]; try done.
  rewrite nodes_bytes_cons. replace (8 * S n)%nat with (8 + 8 * n)%nat by lia.
  rewrite <- drop_drop, drop_app_length' by (by rewrite length_node_bytes). apply IH.
Qed.

Lemma take_nodes_bytes n xs : take (8 * n) (nodes_bytes xs) = nodes_bytes (take n xs).
Proof.
  revert xs. induction n as [|n IH]; intros [|x xs]; try done.
  rewrite nodes_bytes_cons. replace (8 * S n)%nat with (8 + 8 * n)%nat by lia.
  rewrite <- (length_node_bytes x) at 1. rewrite take_app_add. by rewrite IH.
Qed.

(** Reading back a file the tree wrote gives the count and the nodes. *)
Lemma fread_disk_file n xs :
  is_u64 n = true → Z.of_nat (length xs) = n → Forall node_ok xs →
  ∀ old, fread_size_t old (disk_file n xs) = (1, Some n, nodes_bytes xs) ∧
         fread_nodes n (nodes_bytes xs) = (n, xs, []).
Proof.
  intros Hn Hl Hx old. split; [by apply fread_size_t_ok|].
  unfold fread_nodes. rewrite length_nodes_bytes.
  replace (Z.of_nat (8 * length xs) / 8) with n.
  2:{ rewrite Nat2Z.inj_mul, Hl, Z.mul_comm, Z.div_mul; lia. }
  rewrite Z.min_id. subst n. rewrite Nat2Z.id. f_equal; [f_equal|].
  - rewrite <- (app_nil_r (nodes_bytes xs)). by apply nodes_of_nodes_bytes.
  - apply drop_ge. rewrite length_nodes_bytes. lia.
Qed.
