(* ===== verification/Lsm.v ===== *)
(** Lsm: the LSM tree of test/LSMTree/lsm.c, an in-memory buffer of nodes and one file on disk.
    A tree function takes the tree and runs in [io]; what it returns carries the changed tree.
    Messages are written without their final newline, and what malloc is never asked to free is
    not tracked. *)

From Stdlib Require Import ZArith Lia.
From stdpp Require Import base list gmap strings.
From S2P Require Import Prelude Memory Stdio LsmSort LsmFile.

(** [block] is the whole malloc'ed array, of which the first [next_empty] nodes are in use.
    [src: test/LSMTree/lsm.h 19-28 lsm] *)
Record lsm : Type := Lsm {
  block_size : Z;
  k : Z;
  node_size : Z;
  next_empty : Z;
  block : list node;
  disk1 : string;
  sorted : bool
}.

(** [src: test/LSMTree/lsm.h 30-33 nodei] *)
Record nodei : Type := Nodei { ni_node : node; ni_index : Z }.

Definition set_block (tree : lsm) (b : list node) : lsm :=
  Lsm (block_size tree) (k tree) (node_size tree) (next_empty tree) b (disk1 tree) (sorted tree).
Definition set_next_empty (tree : lsm) (n : Z) : lsm :=
  Lsm (block_size tree) (k tree) (node_size tree) n (block tree) (disk1 tree) (sorted tree).

(** The perror calls on the return value of fread; [at_eof] is feof(f), and ferror does not occur.
    [src: test/LSMTree/lsm.c 19-28 check_file_ret] *)
Definition check_file_ret (at_eof : bool) (r : Z) : io unit :=
  if r =? 0 then if at_eof then perror "EOF found" else mret tt else mret tt.

(** feof after an fread of [r] items out of [n]: the read met the end of the file. *)
Definition feof_after (n r : Z) : bool := r <? n.

Section lsm.
Context `{A : Allocator}.

(** A fresh array of [n] nodes holds junk. *)
Definition junk_nodes (n : Z) : list node :=
  replicate (Z.to_nat n) (Node malloc_junk malloc_junk).

(** [None] is the null pointer.
    [src: test/LSMTree/lsm.c 38-61 init_new_lsm] *)
Definition init_new_lsm (buffer_size : Z) (sorted : bool) : io (option lsm) :=
  if negb (malloc_ok 48) then perror "init_lsm: block is null";; mret None
  else
    let node_size := 8 in
    let size := u64 (buffer_size * node_size) in
    if negb (malloc_ok size) then perror "init_lsm: block is null";; mret None
    else mret (Some (Lsm buffer_size 2 node_size 0 (junk_nodes (size / 8))
                         "disk_storage.txt" sorted)).

(** The loop [for (int i = 0; i < n; ++i) if (a[i].key == k)] of both searches.
    [src: test/LSMTree/lsm.c 152-163 search_buffer] *)
Fixpoint find_key (fuel : nat) (a : list node) (n k i : Z) : outcome (option (node * Z)) :=
  match fuel with
  | O => Fault OutOfFuel
  | S fuel' =>
      if u64 i <? n then
        x ← arr_get a i;
        if key x =? k then Ret (Some (x, i))
        else i' ← int_add i 1; find_key fuel' a n k i'
      else Ret None
  end.

Definition find_fuel (n : Z) : nat := S (Z.to_nat n).

(** [nodei *nodei = malloc(sizeof(nodei))]: the name of the variable hides the type, so the
    request is for a pointer, 8 bytes, while [index] lies at bytes 8 to 11 of the struct.
    [src: test/LSMTree/lsm.c 156-161 search_buffer] *)
Definition new_nodei (x : node) (i : Z) : outcome nodei :=
  if negb (malloc_ok 8) then Fault NullDeref
  else if malloc_usable 8 <? 12 then Fault HeapOverflow
  else Ret (Nodei (Node (key x) (val x)) i).

(** [src: test/LSMTree/lsm.c 150-165 search_buffer] *)
Definition search_buffer (key : Z) (tree : lsm) : io (option nodei) :=
  r ← lift (find_key (find_fuel (next_empty tree)) (block tree) (next_empty tree) key 0);
  match r with
  | Some (x, i) => ni ← lift (new_nodei x i); mret (Some ni)
  | None => mret None
  end.

(** [src: test/LSMTree/lsm.c 176 search_disk] *)
Definition search_file : string := "disk_storae.txt".

(** malloc of [n] nodes followed by fread into it.  The nodes that fread did not fill stay junk.
    [src: test/LSMTree/lsm.c 186-188 search_disk] *)
Definition read_nodes (n : Z) (rest : bytes) : io (list node) :=
  let size := u64 (8 * n) in
  let '(r, got, _) := fread_nodes n rest in
  if negb (malloc_ok size) && (0 <? n) then fail NullDeref
  else if malloc_usable size <? 8 * r then fail HeapOverflow
  else
    check_file_ret (feof_after n r) r;;
    mret (got ++ junk_nodes (size / 8 - r)).

(** [src: test/LSMTree/lsm.c 173-213 search_disk] *)
Definition search_disk (key : Z) (tree : lsm) : io (option nodei) :=
  f ← fopen_r search_file;
  match f with
  | None => perror "search_disk: open 1: ";; mret None
  | Some rest =>
      let '(r, num_elements, rest) := fread_size_t None rest in
      check_file_ret (feof_after 1 r) r;;
      match num_elements with
      | None => fail Indeterminate
      | Some num_elements =>
          file_data ← read_nodes num_elements rest;
          r ← lift (find_key (find_fuel num_elements) file_data num_elements key 0);
          match r with
          | Some (x, i) => ni ← lift (new_nodei x i); mret (Some ni)
          | None => mret None
          end
      end
  end.

(** [src: test/LSMTree/lsm.c 221-240 get] *)
Definition get (key : Z) (tree : lsm) : io (option node) :=
  ni ← search_buffer key tree;
  match ni with
  | Some ni => mret (Some (ni_node ni))
  | None =>
      ni ← search_disk key tree;
      match ni with
      | Some ni => mret (Some (ni_node ni))
      | None => mret None
      end
  end.

(** The part of [write_to_disk] for a file that exists: read it and merge the buffer into it;
    the merged array and the number of nodes the code will write.
    [src: test/LSMTree/lsm.c 260-283 write_to_disk] *)
Definition merge_with_file (tree : lsm) (rest : bytes) : io (list node * Z) :=
  let '(r, num_elements, rest) := fread_size_t (Some 0) rest in
  check_file_ret (feof_after 1 r) r;;
  match num_elements with
  | None => fail Indeterminate
  | Some num_elements =>
      if negb (malloc_ok (u64 (8 * num_elements))) then fail AssertFailed
      else
        file_data ← read_nodes num_elements rest;
        let size := u64 (8 * u64 (num_elements + next_empty tree)) in
        if negb (malloc_ok size) then fail NullDeref
        else
          complete_data ← lift (merge (junk_nodes (size / 8)) file_data (i32 num_elements)
                                      (block tree) (i32 (next_empty tree)));
          mret (complete_data, u64 (num_elements + block_size tree))
  end.

(** The buffer is sorted first when the tree keeps sorted files.
    [src: test/LSMTree/lsm.c 253-257 write_to_disk] *)
Definition sort_block (tree : lsm) : io lsm :=
  if sorted tree then
    let n := i32 (next_empty tree) in
    b ← lift (merge_sort (merge_sort_fuel n) (block tree) n);
    mret (set_block tree b)
  else mret tree.

(** fwrite(a, sizeof(node), n, f) reads [n] nodes of [a]; the bytes written. *)
Definition fwrite_nodes (a : list node) (n : Z) : outcome bytes :=
  xs ← arr_slice a 0 n; Ret (nodes_bytes xs).

(** [src: test/LSMTree/lsm.c 247-320 write_to_disk] *)
Definition write_to_disk (tree : lsm) : io (Z * lsm) :=
  tree ← sort_block tree;
  '(file_not_existed, _) ← stat (disk1 tree);
  '(complete_data, num_elements) ←
    (if file_not_existed =? 0 then
       fr ← fopen_r (disk1 tree);
       match fr with
       | None => fail NullDeref
       | Some rest => merge_with_file tree rest
       end
     else mret (block tree, 0));
  let num_elements := if num_elements <=? 0 then next_empty tree else num_elements in
  let content := fwrite_at [] 0 (le_bytes 8 num_elements) in
  data ← lift (fwrite_nodes complete_data num_elements);
  let content := fwrite_at content 8 data in
  (if num_elements =? 0 then perror "put: fwrite 5: " else mret tt);;
  fclose_w (disk1 tree) content;;
  mret (0, set_next_empty tree 0).

(** [src: test/LSMTree/lsm.c 328-343 put] *)
Definition put (key val : Z) (tree : lsm) : io (Z * lsm) :=
  '(r, tree) ← (if next_empty tree =? block_size tree then write_to_disk tree
                else mret (0, tree));
  b ← lift (arr_set (block tree) (next_empty tree) (Node key val));
  mret (r, set_next_empty (set_block tree b) (u64 (next_empty tree + 1))).

(** memmove of [n] bytes from node [src] to node [dst] of the array [a].
    [src: test/LSMTree/lsm.c 360 delete] *)
Definition move_bytes (a : list node) (dst src n : Z) : outcome (list node) :=
  bs ← arr_move (nodes_bytes a) (8 * dst) (8 * src) n;
  Ret (nodes_of_bytes (length a) bs).

(** The branch of [delete] for a key that the searches find on disk.
    [src: test/LSMTree/lsm.c 364-420 delete] *)
Definition delete_on_disk (key : Z) (tree : lsm) : io (Z * lsm) :=
  ni ← search_disk key tree;
  match ni with
  | None => fail AssertFailed
  | Some ni =>
      fr ← fopen_r (disk1 tree);
      match fr with
      | None => perror "delete: open: ";; fail NullDeref
      | Some rest =>
          let '(r, num_elements, rest) := fread_size_t (Some 0) rest in
          check_file_ret (feof_after 1 r) r;;
          match num_elements with
          | None => fail Indeterminate
          | Some num_elements =>
              if negb (malloc_ok (u64 (8 * num_elements))) then fail AssertFailed
              else
                file_data ← read_nodes num_elements rest;
                let num_elements := u64 (num_elements - 1) in
                file_data ← lift (move_bytes file_data (ni_index ni) (ni_index ni + 1)
                                             (u64 (num_elements - ni_index ni)));
                let content := fwrite_at [] 0 (le_bytes 8 num_elements) in
                data ← lift (fwrite_nodes file_data num_elements);
                let content := fwrite_at content 8 data in
                (if num_elements =? 0 then perror "delete fwrite: " else mret tt);;
                fclose_w (disk1 tree) content;;
                mret (0, tree)
          end
      end
  end.

(** [src: test/LSMTree/lsm.c 351-423 delete] *)
Definition delete (key : Z) (tree : lsm) : io (Z * lsm) :=
  ni ← search_buffer key tree;
  match ni with
  | Some ni =>
      let tree := set_next_empty tree (u64 (next_empty tree - 1)) in
      b ← lift (move_bytes (block tree) (ni_index ni) (ni_index ni + 1)
                           (u64 (block_size tree - ni_index ni)));
      mret (0, set_block tree b)
  | None => delete_on_disk key tree
  end.

(** [ni->index] is read before [ni] is compared with NULL, so the branch that deletes and puts
    is never reached.  Each printf passes the value of a comma expression: one argument.
    [src: test/LSMTree/lsm.c 432-453 update] *)
Definition update (key val : Z) (tree : lsm) : io (Z * lsm) :=
  ni ← search_buffer key tree;
  match ni with
  | None => fail NullDeref
  | Some ni =>
      printf "index is : ni %d" [ni_index ni];;
      printf "updating key: %d, val: %d" [LsmSort.val (ni_node ni)];;
      b ← lift (arr_set (block tree) (ni_index ni) (Node key val));
      printf "to key: %d val: %d" [val];;
      mret (0, set_block tree b)
  end.

(** The printing loop of both print functions.
    [src: test/LSMTree/lsm.c 462-466 print_buffer_data] *)
Fixpoint print_nodes (fuel : nat) (a : list node) (n i : Z) : io unit :=
  match fuel with
  | O => fail OutOfFuel
  | S fuel' =>
      if u64 i <? n then
        x ← lift (arr_get a i);
        printf "key %i " [key x];;
        printf "value %i " [LsmSort.val x];;
        i' ← lift (int_add i 1);
        print_nodes fuel' a n i'
      else mret tt
  end.

(** [src: test/LSMTree/lsm.c 460-467 print_buffer_data] *)
Definition print_buffer_data (tree : lsm) : io unit :=
  print_nodes (find_fuel (next_empty tree)) (block tree) (next_empty tree) 0.

(** [src: test/LSMTree/lsm.c 474-519 print_disk_data] *)
Definition print_disk_data (tree : lsm) : io unit :=
  printf "Printing disk data ..." [];;
  f ← fopen_r (disk1 tree);
  match f with
  | None => fail NullDeref
  | Some rest =>
      let '(r, num_elements, rest) := fread_size_t (Some 0) rest in
      match num_elements with
      | None => fail Indeterminate
      | Some num_elements =>
          printf "num_elements is %d" [i32 num_elements];;
          check_file_ret (feof_after 1 r) r;;
          (if negb (malloc_ok (u64 (8 * num_elements)))
           then perror "print_disk_data: unsuccessful allocation " else mret tt);;
          file_data ← read_nodes num_elements rest;
          print_nodes (find_fuel num_elements) file_data num_elements 0
      end
  end.
End lsm.
