(* ===== verification/LsmSpec.v ===== *)
(** LsmSpec: what the LSM tree promises, and the proofs that lsm.c keeps it.

    The abstract state of a tree is the history of its puts, oldest first, cut into what has been
    flushed to the file and what is still in the buffer. *)

From Stdlib Require Import ZArith Lia.
From stdpp Require Import base list gmap strings sorting.
From S2P Require Import Prelude Memory Stdio LsmSort LsmFile Lsm.

(** ** Representation *)

(** The nodes of the buffer that are in use. *)
Definition buffer (tree : lsm) : list node := take (Z.to_nat (next_empty tree)) (block tree).

(** A tree as [init_new_lsm] makes it and the operations keep it. *)
Record tree_ok (tree : lsm) : Prop := {
  ok_size : 0 < block_size tree < 2147483648;
  ok_block : Z.of_nat (length (block tree)) = block_size tree;
  ok_next : 0 ≤ next_empty tree ≤ block_size tree;
  ok_nodes : Forall node_ok (buffer tree)
}.

(** How the nodes [d] of the file come from the flushed history: sorted, the newest of equal keys
    first, or, in a tree that does not sort, in some order. *)
Definition flushed_as (sorted : bool) (flushed d : list node) : Prop :=
  if sorted then newest_first_sort flushed d else d ≡ₚ flushed.

(** The file [name] holds exactly the nodes [d]; it does not exist before the first flush. *)
Definition file_holds (w : world) (name : string) (d : list node) : Prop :=
  Forall node_ok d ∧
  files w !! name = match d with [] => None | _ => Some (disk_file (Z.of_nat (length d)) d) end.

(** The abstract store: what has been flushed and what has not, each in the order of the puts. *)
Record store : Type := Store { st_flushed : list node; st_recent : list node }.

Definition store_empty : store := Store [] [].
Definition store_history (st : store) : list node := st_flushed st ++ st_recent st.

(** A put appends to the buffer, after flushing it if it is full. *)
Definition store_put (size : Z) (x : node) (st : store) : store :=
  if Z.of_nat (length (st_recent st)) =? size
  then Store (store_history st) [x]
  else Store (st_flushed st) (st_recent st ++ [x]).

(** A get that reaches the flushed nodes: the oldest match of the buffer, or the newest flushed
    one. *)
Definition store_get (k : Z) (st : store) : option node :=
  match filter (same_key k) (st_recent st) with
  | x :: _ => Some x
  | [] => last (filter (same_key k) (st_flushed st))
  end.

(** The tree and the world represent a store. *)
Record represents (tree : lsm) (w : world) (st : store) (d : list node) : Prop := {
  rep_tree : tree_ok tree;
  rep_recent : buffer tree = st_recent st;
  rep_file : file_holds w (disk1 tree) d;
  rep_flushed : flushed_as (sorted tree) (st_flushed st) d
}.

(** Puts in order, the return value of each being 0 (the assertion of test_put). *)
Fixpoint puts `{A : Allocator} (h : list node) (tree : lsm) : io lsm :=
  match h with
  | [] => mret tree
  | x :: h' =>
      '(r, tree) ← put (key x) (val x) tree;
      if r =? 0 then puts h' tree else fail AssertFailed
  end.

Lemma flushed_as_perm b l d : flushed_as b l d → d ≡ₚ l.
Proof. destruct b; [by intros [? _] | done]. Qed.

Lemma flushed_as_nil b : flushed_as b [] [].
Proof. destruct b; simpl; [|done]. apply newest_first_short. simpl. lia. Qed.

Lemma length_buffer tree : tree_ok tree → Z.of_nat (length (buffer tree)) = next_empty tree.
Proof. intros [? ? ? ?]. unfold buffer. rewrite length_take. lia. Qed.

(** The buffer after a put is the buffer before it and the new node. *)
Lemma take_insert_end {A} (a : list A) n x :
  (n < length a)%nat → take (S n) (<[n := x]> a) = take n a ++ [x].
Proof.
  intros H. rewrite (take_S_r _ _ x); [|by rewrite list_lookup_insert_eq].
  by rewrite take_insert_ge by lia.
Qed.

Lemma check_file_ret_quiet at_eof r :
  (r = 0 → at_eof = false) → check_file_ret at_eof r = mret tt.
Proof.
  intros H. unfold check_file_ret. destruct (Z.eqb_spec r 0); [|done]. by rewrite H.
Qed.

Lemma feof_after_all n : feof_after n n = false.
Proof. apply Z.ltb_irrefl. Qed.

Section spec.
Context `{A : Allocator} `{!AllocatorLaws A} `{!AllocatorGrants A}.

Lemma length_junk_nodes n : length (junk_nodes (8 * n / 8)) = Z.to_nat n.
Proof. unfold junk_nodes. by rewrite length_replicate, Z.mul_comm, Z.div_mul by lia. Qed.

(** ** Reading the file back *)

Lemma read_nodes_ok d w :
  Forall node_ok d → Z.of_nat (length d) < 2147483648 →
  read_nodes (Z.of_nat (length d)) (nodes_bytes d) w = Ret (d, w).
Proof.
  intros Hd Hl. unfold read_nodes.
  destruct (fread_disk_file (Z.of_nat (length d)) d) with (old := @None Z) as [_ ->];
    [apply is_u64_spec; lia | done..|].
  rewrite u64_small, malloc_grants by lia. cbn [negb andb].
  destruct (Z.ltb_spec (malloc_usable (8 * Z.of_nat (length d))) (8 * Z.of_nat (length d)))
    as [C|_].
  { pose proof (malloc_usable_ge (8 * Z.of_nat (length d))). lia. }
  rewrite check_file_ret_quiet, io_bind_mret by (intros; apply feof_after_all).
  replace (8 * Z.of_nat (length d) / 8 - Z.of_nat (length d)) with 0
    by (rewrite Z.mul_comm, Z.div_mul; lia).
  by rewrite app_nil_r.
Qed.

Lemma merge_with_file_ok tree d w :
  tree_ok tree → Forall node_ok d →
  Z.of_nat (length d) + block_size tree < 2147483648 →
  merge_with_file tree (disk_file (Z.of_nat (length d)) d) w
  = Ret (merge_ref d (buffer tree), Z.of_nat (length d) + block_size tree, w).
Proof.
  intros Hok Hd Hl. destruct Hok as [Hs Hb Hn Hx] eqn:Eok. unfold merge_with_file.
  destruct (fread_disk_file (Z.of_nat (length d)) d) with (old := Some 0) as [-> _];
    [apply is_u64_spec; lia | done..|].
  rewrite check_file_ret_quiet, io_bind_mret by done.
  rewrite (u64_small (8 * Z.of_nat (length d))), malloc_grants by lia. cbn [negb].
  rewrite (io_bind_ret _ _ _ _ _ (read_nodes_ok d w Hd ltac:(lia))).
  cbv zeta.
  rewrite (u64_small (_ + block_size _)), (u64_small (_ + _)), u64_small, !i32_small by lia.
  rewrite malloc_grants by lia. cbn [negb].
  assert (∃ n : nat, next_empty tree = Z.of_nat n) as [n En]
    by (exists (Z.to_nat (next_empty tree)); lia).
  rewrite En. erewrite io_bind_lift.
  2:{ apply merge_spec; [lia | lia | | lia].
      rewrite length_junk_nodes. lia. }
  unfold mret, io_ret. do 3 f_equal.
  rewrite blit_0, drop_ge, app_nil_r, (take_ge d) by
    (rewrite ?length_junk_nodes, ?length_merge_ref, ?length_take; lia).
  unfold buffer. by rewrite En, Nat2Z.id.
Qed.

(** ** [write_to_disk] *)

Lemma flushed_as_merge b l1 l2 d s :
  flushed_as b l1 d → flushed_as b l2 s → flushed_as b (l1 ++ l2) (merge_ref d s).
Proof.
  destruct b; simpl; [apply newest_first_merge|]. intros H1 H2. by rewrite merge_ref_perm, H1, H2.
Qed.

Lemma sort_block_ok tree w :
  tree_ok tree →
  ∃ s, sort_block tree w
       = Ret (set_block tree (s ++ drop (Z.to_nat (next_empty tree)) (block tree)), w) ∧
       flushed_as (sorted tree) (buffer tree) s.
Proof.
  intros [Hs Hb Hn Hx]. unfold sort_block, flushed_as. destruct (sorted tree) eqn:Es.
  - rewrite i32_small by lia.
    destruct (merge_sort_spec (merge_sort_fuel (next_empty tree)) (block tree)
                (Z.to_nat (next_empty tree))) as (s & E & Hsort);
      [lia | lia | unfold merge_sort_fuel; lia |].
    rewrite Z2Nat.id in E by lia. exists s. by rewrite (io_bind_lift _ _ _ _ E).
  - exists (buffer tree). unfold buffer. rewrite take_drop. split; [|done].
    by destruct tree; simpl in Es; subst.
Qed.

(** What the file holds after a flush that found the nodes [d] in it. *)
Lemma file_written d n :
  n = Z.of_nat (length d) →
  fwrite_at (fwrite_at [] 0 (le_bytes 8 n)) 8 (nodes_bytes d) = disk_file n d.
Proof.
  intros ->. unfold disk_file.
  rewrite (fwrite_at_end [] (le_bytes 8 _) : fwrite_at [] 0 _ = _), app_nil_l.
  by rewrite <- (fwrite_at_end (le_bytes 8 _)), length_le_bytes.
Qed.

Lemma fwrite_nodes_all xs n :
  n = Z.of_nat (length xs) → fwrite_nodes xs n = Ret (nodes_bytes xs).
Proof.
  intros ->. unfold fwrite_nodes. change 0 with (Z.of_nat 0).
  by rewrite arr_slice_ok, outcome_bind_ret, drop_0, take_ge by lia.
Qed.

(** Flushing a full buffer merges it into the file, empties the buffer and changes nothing else
    of the world; it meets no fault. *)
Lemma write_to_disk_full tree w d :
  tree_ok tree → next_empty tree = block_size tree → file_holds w (disk1 tree) d →
  Z.of_nat (length d) + block_size tree < 2147483648 →
  ∃ s, write_to_disk tree w
       = Ret ((0, set_next_empty (set_block tree s) 0),
              World (<[disk1 tree := disk_file (Z.of_nat (length (merge_ref d s)))
                                               (merge_ref d s)]> (files w)) (out w)) ∧
       flushed_as (sorted tree) (buffer tree) s.
Proof.
  intros Hok Hfull [Hd Hf] Hl. destruct (sort_block_ok tree w Hok) as (s & Es & Hs).
  exists s. split; [|done]. unfold write_to_disk. rewrite (io_bind_ret _ _ _ _ _ Es).
  destruct Hok as [Hsz Hb Hn Hx].
  rewrite (drop_ge (block tree)), app_nil_r by lia.
  pose proof (Permutation_length (flushed_as_perm _ _ _ Hs)) as Hlen.
  unfold buffer in Hlen. rewrite length_take in Hlen.
  assert (buffer (set_block tree s) = s) as Hbuf
    by (unfold buffer; simpl; rewrite take_ge; [done | lia]).
  assert (tree_ok (set_block tree s)) as Hok'.
  { constructor; simpl; try lia. rewrite Hbuf.
    by rewrite (flushed_as_perm _ _ _ Hs). }
  pose proof (length_merge_ref d s) as Hm.
  unfold stat. simpl disk1. destruct d as [|x d'] eqn:Ed; [|rewrite <- Ed in *].
  2:{ erewrite io_bind_ret by (rewrite Hf; reflexivity). cbn [Z.eqb].
    erewrite io_bind_ret.
    2:{ erewrite io_bind_ret by (unfold fopen_r; by rewrite Hf).
        by apply merge_with_file_ok. }
    cbv beta iota. rewrite Hbuf. simpl (block_size _).
    destruct (Z.leb_spec (Z.of_nat (length d) + block_size tree) 0); [lia|].
    erewrite io_bind_lift by (apply fwrite_nodes_all; lia).
    destruct (Z.eqb_spec (Z.of_nat (length d) + block_size tree) 0); [lia|].
    rewrite io_bind_mret, file_written by lia. unfold fclose_w, mret, io_ret.
    unfold mbind, io_bind. do 4 f_equal. f_equal. lia. }
  - erewrite io_bind_ret by (rewrite Hf; reflexivity). cbn [Z.eqb].
    rewrite io_bind_mret. cbv beta iota. cbn [Z.leb Z.compare]. simpl (next_empty _).
    rewrite merge_ref_nil_l. simpl (block _).
    erewrite io_bind_lift by (apply fwrite_nodes_all; lia).
    destruct (Z.eqb_spec (next_empty tree) 0); [lia|].
    rewrite io_bind_mret, file_written by lia. unfold fclose_w, mret, io_ret.
    unfold mbind, io_bind. do 4 f_equal. f_equal. lia.
Qed.

(** With fewer nodes in the buffer than its capacity, the count that is added is too large: the
    write reads behind the merged array. *)
Lemma write_to_disk_partial tree w d :
  tree_ok tree → next_empty tree < block_size tree → d ≠ [] → file_holds w (disk1 tree) d →
  Z.of_nat (length d) + block_size tree < 2147483648 →
  write_to_disk tree w = Fault OutOfBounds.
Proof.
  intros Hok Hpart Hne [Hd Hf] Hl. destruct (sort_block_ok tree w Hok) as (s & Es & Hs).
  pose proof (length_buffer tree Hok) as Hnext.
  pose proof (Permutation_length (flushed_as_perm _ _ _ Hs)) as Hlen.
  unfold write_to_disk. rewrite (io_bind_ret _ _ _ _ _ Es).
  destruct Hok as [Hsz Hb Hn Hx]. set (tree' := set_block _ _).
  assert (buffer tree' = s) as Hbuf.
  { unfold buffer, tree'. simpl. rewrite take_app_le, take_ge by lia. done. }
  assert (tree_ok tree') as Hok'.
  { constructor; simpl; try lia.
    - rewrite length_app, length_drop. lia.
    - rewrite Hbuf. by rewrite (flushed_as_perm _ _ _ Hs). }
  assert (files w !! disk1 tree = Some (disk_file (Z.of_nat (length d)) d)) as Hf'
    by (destruct d; done).
  erewrite io_bind_ret by (unfold stat; simpl disk1; by rewrite Hf'). cbn [Z.eqb].
  erewrite io_bind_ret.
  2:{ erewrite io_bind_ret by (unfold fopen_r; simpl disk1; by rewrite Hf').
      by apply merge_with_file_ok. }
  cbv beta iota. simpl (block_size _).
  destruct (Z.leb_spec (Z.of_nat (length d) + block_size tree) 0); [lia|].
  apply io_bind_lift_fault. unfold fwrite_nodes, arr_slice. rewrite length_merge_ref, Hbuf.
  assert ((0 + (Z.of_nat (length d) + block_size tree)
           <=? Z.of_nat (length d + length s)) = false) as -> by (apply Z.leb_gt; lia).
  by rewrite andb_false_r.
Qed.

(** ** [put] *)

(** Storing a node behind the ones in use. *)
Lemma store_node tree x :
  tree_ok tree → next_empty tree < block_size tree → node_ok x →
  ∃ b, arr_set (block tree) (next_empty tree) x = Ret b ∧
       tree_ok (set_next_empty (set_block tree b) (u64 (next_empty tree + 1))) ∧
       buffer (set_next_empty (set_block tree b) (u64 (next_empty tree + 1)))
       = buffer tree ++ [x].
Proof.
  intros [Hs Hb Hn Hx] Hlt Hok. unfold buffer in *.
  assert (∃ n : nat, next_empty tree = Z.of_nat n) as [n En]
    by (exists (Z.to_nat (next_empty tree)); lia).
  rewrite En in *. rewrite Nat2Z.id in *. exists (<[n := x]> (block tree)).
  rewrite arr_set_lt by lia. simpl. rewrite u64_small by lia.
  replace (Z.to_nat (Z.of_nat n + 1)) with (S n) by lia.
  rewrite take_insert_end by lia. split_and!; try done. constructor; simpl.
  - done.
  - by rewrite length_insert.
  - lia.
  - unfold buffer. simpl. replace (Z.to_nat (Z.of_nat n + 1)) with (S n) by lia.
    rewrite take_insert_end by lia.
    apply Forall_app. split; [done|]. by apply Forall_singleton.
Qed.

Definition same_config (tree tree' : lsm) : Prop :=
  block_size tree' = block_size tree ∧ sorted tree' = sorted tree ∧ disk1 tree' = disk1 tree.

(** Worlds that differ at most in the file [name]. *)
Definition same_but (name : string) (w w' : world) : Prop :=
  out w' = out w ∧ ∀ other, other ≠ name → files w' !! other = files w !! other.

Lemma put_refines tree w st d x :
  represents tree w st d → node_ok x →
  Z.of_nat (length d) + block_size tree < 2147483648 →
  ∃ tree' w' d',
    put (key x) (val x) tree w = Ret ((0, tree'), w') ∧
    represents tree' w' (store_put (block_size tree) x st) d' ∧
    same_config tree tree' ∧ same_but (disk1 tree) w w'.
Proof.
  intros [Hok Hr Hf Hd] Hx Hl. unfold put, store_put.
  pose proof (length_buffer tree Hok) as Hlen. rewrite <- Hr, Hlen.
  replace (Node (key x) (val x)) with x by (by destruct x).
  destruct (Z.eqb_spec (next_empty tree) (block_size tree)) as [E|E].
  - destruct (write_to_disk_full tree w d Hok E Hf Hl) as (s & Ew & Hs).
    rewrite (io_bind_ret _ _ _ _ _ Ew). cbv beta iota.
    pose proof (flushed_as_perm _ _ _ Hs) as Ps.
    assert (tree_ok (set_next_empty (set_block tree s) 0)) as Hok'.
    { destruct Hok as [? Hb ? ?]. constructor; simpl; try lia; [|by apply Forall_nil].
      rewrite <- E, <- Hlen. by rewrite Ps. }
    destruct (store_node _ x Hok') as (b & Eb & Hokb & Hbufb); [simpl; destruct Hok; lia | done |].
    rewrite (io_bind_lift _ _ _ _ Eb). eexists _, _, (merge_ref d s).
    split; [done|]. split; [|split; [done|split; [done|]]].
    + constructor; simpl.
      * exact Hokb.
      * exact Hbufb.
      * split; simpl.
        { rewrite merge_ref_perm. apply Forall_app. split; [apply Hf|].
          rewrite Ps. apply Hok. }
        rewrite lookup_insert_eq. destruct (merge_ref d s) eqn:Em; [|done].
        apply (f_equal length) in Em. rewrite length_merge_ref, Ps in Em. simpl in Em.
        destruct Hok. lia.
      * unfold store_history. rewrite <- Hr. by apply flushed_as_merge.
    + intros other Hne. simpl. by rewrite lookup_insert_ne.
  - rewrite io_bind_mret. cbv beta iota.
    destruct (store_node tree x Hok) as (b & Eb & Hokb & Hbufb);
      [destruct Hok; lia | done |].
    rewrite (io_bind_lift _ _ _ _ Eb). eexists _, _, d. split; [done|].
    split; [|by split]. by constructor.
Qed.

(** The store after a sequence of puts. *)
Definition store_puts (size : Z) (h : list node) (st : store) : store :=
  foldl (λ st x, store_put size x st) st h.

Lemma store_put_history size x st :
  store_history (store_put size x st) = store_history st ++ [x].
Proof.
  unfold store_put, store_history. destruct (_ =? _); simpl; [done|]. by rewrite app_assoc.
Qed.

Lemma store_puts_history size h st :
  store_history (store_puts size h st) = store_history st ++ h.
Proof.
  revert st. induction h as [|x h IH]; intros st; simpl; [by rewrite app_nil_r|].
  unfold store_puts in *. by rewrite IH, store_put_history, <- app_assoc.
Qed.

(** After a put the buffer holds between one node and its capacity. *)
Lemma store_put_recent size x st :
  0 < size → Z.of_nat (length (st_recent st)) ≤ size →
  0 < Z.of_nat (length (st_recent (store_put size x st))) ≤ size.
Proof.
  intros Hs Hl. unfold store_put. destruct (Z.eqb_spec (Z.of_nat (length (st_recent st))) size);
    simpl; [lia|]. rewrite length_app. simpl. lia.
Qed.

Lemma store_puts_recent size h st :
  0 < size → 0 < Z.of_nat (length (st_recent st)) ≤ size ∨ st_recent st = [] ∧ h ≠ [] →
  0 < Z.of_nat (length (st_recent (store_puts size h st))) ≤ size.
Proof.
  intros Hs. revert st. induction h as [|x h IH]; intros st H; simpl.
  { destruct H as [?|[_ ?]]; [done | congruence]. }
  apply IH. left. apply store_put_recent; [done|].
  destruct H as [?|[-> _]]; [lia | simpl; lia].
Qed.

(** Nothing is flushed before the buffer is full, and then everything but the last node. *)
Lemma store_puts_flushed size h :
  0 < size → h ≠ [] →
  let st := store_puts size h store_empty in
  (length (st_flushed st) + length (st_recent st) = length h)%nat ∧
  (size < Z.of_nat (length h) → st_flushed st ≠ []).
Proof.
  intros Hs Hh st.
  pose proof (store_puts_recent size h store_empty Hs (or_intror (conj eq_refl Hh))) as Hr.
  fold st in Hr. pose proof (store_puts_history size h store_empty) as Eh. fold st in Eh.
  apply (f_equal length) in Eh. unfold store_history in Eh.
  rewrite !length_app in Eh. simpl in Eh. split; [done|].
  intros Hl C. rewrite C in Eh. simpl in Eh. lia.
Qed.

(** A node is flushed once as many nodes as the buffer holds have followed it. *)
Lemma store_puts_flushed_in size x h st :
  0 < size → Z.of_nat (length (st_recent st)) ≤ size → size ≤ Z.of_nat (length h) →
  x ∈ st_flushed (store_puts size (x :: h) st).
Proof.
  intros Hs Hr Hh. cbn [store_puts foldl]. change (foldl _ ?s h) with (store_puts size h s).
  pose proof (store_puts_history size h (store_put size x st)) as E.
  rewrite store_put_history, <- app_assoc in E. unfold store_history in E.
  pose proof (store_put_recent size x st Hs Hr) as Hr1.
  pose proof (store_puts_recent size h _ Hs (or_introl Hr1)) as Hr2.
  set (st' := store_puts size h _) in *.
  assert (length (st_flushed st ++ st_recent st) < length (st_flushed st'))%nat as Hlt.
  { apply (f_equal length) in E. rewrite !length_app in *. simpl in E. lia. }
  apply (list_elem_of_lookup_2 _ (length (st_flushed st ++ st_recent st))).
  rewrite <- (lookup_app_l _ (st_recent st')), E by done.
  rewrite <- app_assoc, app_assoc. by apply list_lookup_middle.
Qed.

Lemma puts_refine h tree w st d :
  represents tree w st d → Forall node_ok h →
  Z.of_nat (length (store_history st)) + Z.of_nat (length h) + block_size tree < 2147483648 →
  ∃ tree' w' d',
    puts h tree w = Ret (tree', w') ∧
    represents tree' w' (store_puts (block_size tree) h st) d' ∧
    same_config tree tree' ∧ same_but (disk1 tree) w w'.
Proof.
  revert tree w st d. induction h as [|x h IH]; intros tree w st d Hrep Hh Hl.
  { exists tree, w, d. split; [done|]. split; [exact Hrep | by repeat split]. }
  inversion_clear Hh as [|? ? Hx Hh']. cbn [puts length] in *.
  assert (length d <= length (store_history st))%nat.
  { destruct Hrep as [_ _ _ Hd]. apply flushed_as_perm in Hd. rewrite Hd.
    unfold store_history. rewrite length_app. lia. }
  destruct (put_refines tree w st d x Hrep Hx) as (t1 & w1 & d1 & E1 & R1 & C1 & W1); [lia|].
  rewrite (io_bind_ret _ _ _ _ _ E1). cbn [Z.eqb].
  destruct C1 as (Eb & Es & En). rewrite <- Eb in R1 |- *.
  destruct (IH t1 w1 _ d1 R1 Hh') as (t2 & w2 & d2 & E2 & R2 & (Eb2 & Es2 & En2) & W2).
  { rewrite store_put_history, length_app. simpl. lia. }
  exists t2, w2, d2. split; [done|]. split; [exact R2|]. split; [|split].
  - repeat split; congruence.
  - destruct W1, W2. congruence.
  - intros other Hne. destruct W1 as [_ W1], W2 as [_ W2].
    rewrite W2, W1; congruence.
Qed.

(** ** A fresh tree *)

Lemma init_new_lsm_ok size b w :
  Forall node_ok [Node malloc_junk malloc_junk] → 0 < size < 2147483648 →
  files w !! "disk_storage.txt" = None →
  ∃ tree, init_new_lsm size b w = Ret (Some tree, w) ∧
          represents tree w store_empty [] ∧
          block_size tree = size ∧ sorted tree = b ∧ disk1 tree = "disk_storage.txt".
Proof.
  intros Hj Hs Hf. unfold init_new_lsm. rewrite u64_small, !malloc_grants by lia.
  cbn [negb].
  eexists. split; [reflexivity|]. split; [|done]. constructor; simpl.
  - constructor; simpl; try lia.
    + rewrite (Z.mul_comm size), length_junk_nodes. lia.
    + by apply Forall_nil.
  - done.
  - split; [by apply Forall_nil|]. simpl. by rewrite Hf.
  - apply flushed_as_nil.
Qed.
End spec.
