(* ===== verification/LsmOps.v ===== *)
(** LsmOps: the lookups, the deletion and the update of the LSM tree: what each returns on every
    branch, and which branches are undefined. *)

From Stdlib Require Import ZArith Lia.
From stdpp Require Import base list gmap strings sorting.
From S2P Require Import Prelude Memory Stdio LsmSort LsmFile Lsm LsmSpec.

(** The first node with key [k] and its index. *)
Definition first_match (k : Z) (l : list node) : option (nat * node) := list_find (same_key k) l.

Lemma head_filter_first_match k l : head (filter (same_key k) l) = snd <$> first_match k l.
Proof.
  unfold first_match. induction l as [|x l IH]; [done|].
  rewrite filter_cons. cbn [list_find]. case_decide; [done|].
  rewrite IH. by destruct (list_find _ l) as [[? ?]|].
Qed.

Lemma first_match_None k l : first_match k l = None ↔ filter (same_key k) l = [].
Proof.
  split; intros H.
  - pose proof (head_filter_first_match k l) as E. rewrite H in E. simpl in E.
    by destruct (filter _ l).
  - pose proof (head_filter_first_match k l) as E. rewrite H in E. simpl in E.
    by destruct (first_match k l).
Qed.

Lemma first_match_lookup k l i x : first_match k l = Some (i, x) → l !! i = Some x ∧ key x = k.
Proof. intros H. apply list_find_Some in H as (? & ? & _). done. Qed.

Section ops.
Context `{A : Allocator}.

Lemma find_key_spec fuel (a : list node) (n : nat) (k : Z) (i : nat) :
  (n <= length a)%nat → Z.of_nat n < 2147483648 → (i <= n)%nat → (n - i < fuel)%nat →
  find_key fuel a (Z.of_nat n) k (Z.of_nat i)
  = Ret ((λ p, (p.2, Z.of_nat (i + p.1))) <$> first_match k (slice a i n)).
Proof.
  revert i. induction fuel as [|fuel IH]; intros i Hn Hz Hi Hf; [lia|].
  cbn [find_key]. rewrite u64_small by lia.
  destruct (Z.ltb_spec (Z.of_nat i) (Z.of_nat n)) as [L|L].
  2:{ by rewrite slice_ge by lia. }
  destruct (lookup_lt_is_Some_2 a i) as [x Hx]; [lia|].
  rewrite (arr_get_lookup _ _ _ Hx), outcome_bind_ret, (slice_cons a i n x) by (done || lia).
  unfold first_match. cbn [list_find]. unfold same_key at 1 3.
  destruct (Z.eqb_spec (key x) k) as [E|E]; case_decide; try done.
  - simpl. by rewrite Nat.add_0_r.
  - rewrite int_succ, outcome_bind_ret, IH by lia.
    fold (first_match k (slice a (S i) n)).
    destruct (first_match k (slice a (S i) n)) as [[j y]|]; simpl; [|done].
    do 4 f_equal. lia.
Qed.

Lemma find_key_all k (a : list node) (n : nat) :
  (n <= length a)%nat → Z.of_nat n < 2147483648 →
  find_key (find_fuel (Z.of_nat n)) a (Z.of_nat n) k 0
  = Ret ((λ p, (p.2, Z.of_nat p.1)) <$> first_match k (take n a)).
Proof.
  intros Hn Hz. change 0 with (Z.of_nat 0). unfold find_fuel. rewrite Nat2Z.id.
  by rewrite find_key_spec by lia.
Qed.

(** [search_buffer] returns the first match of the buffer. *)
Lemma search_buffer_spec k tree w :
  tree_ok tree →
  search_buffer k tree w =
  match first_match k (buffer tree) with
  | Some (i, x) =>
      match new_nodei x (Z.of_nat i) with
      | Ret ni => Ret (Some ni, w)
      | Fault e => Fault e
      end
  | None => Ret (None, w)
  end.
Proof.
  intros [Hs Hb Hn Hx]. unfold search_buffer, buffer.
  rewrite <- (Z2Nat.id (next_empty tree)) at 1 2 by lia.
  erewrite io_bind_lift by (apply find_key_all; lia).
  destruct (first_match k _) as [[i x]|]; simpl; [|done].
  unfold mbind, io_bind, lift. by destruct (new_nodei _ _).
Qed.

(** The 8 bytes asked for the struct do not hold its index: an allocator that grants no more
    makes every successful search an overflow. *)
Lemma new_nodei_overflow x i :
  malloc_ok 8 = true → malloc_usable 8 < 12 → new_nodei x i = Fault HeapOverflow.
Proof.
  intros Hok Hu. unfold new_nodei. rewrite Hok. simpl. by apply Z.ltb_lt in Hu as ->.
Qed.

(** What a search comes to: nothing found is [None], and a hit is returned when the block that
    malloc granted for the 8 bytes asked for has room for the 12 of the struct.  Otherwise
    writing its [index] leaves the block. *)
Definition hit_outcome {B} (r : option B) (w : world) : outcome (option B * world) :=
  match r with
  | None => Ret (None, w)
  | Some x => if malloc_usable 8 <? 12 then Fault HeapOverflow else Ret (Some x, w)
  end.

Lemma hit_outcome_room {B} (r : option B) w : 12 ≤ malloc_usable 8 → hit_outcome r w = Ret (r, w).
Proof. intros Hu. apply Z.ltb_ge in Hu. unfold hit_outcome. rewrite Hu. by destruct r. Qed.

(** What follows a search. *)
Lemma io_bind_hit {B C} (m : io (option B)) (r : option B) w w1 (k : option B → io C) :
  m w = hit_outcome r w1 →
  (m ≫= k) w =
  match r with
  | None => k None w1
  | Some x => if malloc_usable 8 <? 12 then Fault HeapOverflow else k (Some x) w1
  end.
Proof.
  intros E. unfold mbind, io_bind. rewrite E. destruct r; [|done]. simpl. by destruct (_ <? _).
Qed.

Section granted.
(** An allocator that always answers. *)
Context `{!AllocatorLaws A} `{!AllocatorGrants A}.

Lemma new_nodei_spec x i :
  new_nodei x i = if malloc_usable 8 <? 12 then Fault HeapOverflow else Ret (Nodei x i).
Proof. unfold new_nodei. rewrite malloc_grants by lia. by destruct x. Qed.

Lemma search_buffer_ok k tree w :
  tree_ok tree →
  search_buffer k tree w
  = hit_outcome ((λ p, Nodei p.2 (Z.of_nat p.1)) <$> first_match k (buffer tree)) w.
Proof.
  intros Hok. rewrite search_buffer_spec by done.
  destruct (first_match k _) as [[i x]|]; [|done]. rewrite new_nodei_spec. simpl.
  by destruct (_ <? _).
Qed.

Lemma search_buffer_room k tree w :
  12 ≤ malloc_usable 8 → tree_ok tree →
  search_buffer k tree w
  = Ret ((λ p, Nodei p.2 (Z.of_nat p.1)) <$> first_match k (buffer tree), w).
Proof. intros Hu Hok. by rewrite search_buffer_ok, hit_outcome_room. Qed.

(** [search_disk] returns the first match of the file it opens. *)
Lemma search_disk_ok k tree w d :
  files w !! search_file = Some (disk_file (Z.of_nat (length d)) d) →
  Forall node_ok d → Z.of_nat (length d) < 2147483648 →
  search_disk k tree w = hit_outcome ((λ p, Nodei p.2 (Z.of_nat p.1)) <$> first_match k d) w.
Proof.
  intros Hf Hd Hl. unfold search_disk. erewrite io_bind_ret by done. rewrite Hf.
  destruct (fread_disk_file (Z.of_nat (length d)) d) with (old := @None Z) as [-> _];
    [apply is_u64_spec; lia | done..|].
  rewrite check_file_ret_quiet, io_bind_mret by done.
  rewrite (io_bind_ret _ _ _ _ _ (read_nodes_ok d w Hd Hl)).
  erewrite io_bind_lift by (apply find_key_all; lia). rewrite take_ge by lia.
  destruct (first_match k d) as [[i x]|]; simpl; [|done].
  unfold lift, mbind, io_bind. rewrite new_nodei_spec. by destruct (_ <? _).
Qed.

Lemma search_disk_absent k tree w :
  files w !! search_file = None →
  search_disk k tree w
  = Ret (None, World (files w) (out w ++ [Perror "search_disk: open 1: "])).
Proof. intros Hf. unfold search_disk. erewrite io_bind_ret by done. by rewrite Hf. Qed.

(** ** [get] *)

Lemma get_buffer k tree w i x :
  tree_ok tree → first_match k (buffer tree) = Some (i, x) →
  get k tree w = hit_outcome (Some x) w.
Proof.
  intros Hok Hm. unfold get. by rewrite (io_bind_hit _ _ _ _ _ (search_buffer_ok k tree w Hok)), Hm.
Qed.

(** Where the file that [search_disk] opens holds what the tree flushed, [get] returns the
    oldest match of the buffer, and for a key that is not buffered the newest flushed node. *)
Lemma get_refines k tree w st d :
  represents tree w st d → sorted tree = true →
  files w !! disk1 tree ≠ None → files w !! search_file = files w !! disk1 tree →
  Z.of_nat (length d) < 2147483648 →
  get k tree w = hit_outcome (store_get k st) w.
Proof.
  intros [Hok Hr [Hd Hf] Hfl] Hs Hex Hlink Hl. unfold get, store_get.
  rewrite (io_bind_hit _ _ _ _ _ (search_buffer_ok k tree w Hok)), <- Hr.
  assert (files w !! disk1 tree = Some (disk_file (Z.of_nat (length d)) d)) as Hf'
    by (destruct d; [by rewrite Hf in Hex | done]).
  rewrite Hf' in Hlink.
  pose proof (head_filter_first_match k (buffer tree)) as Eb.
  destruct (first_match k (buffer tree)) as [[i x]|] eqn:Em; simpl in *.
  { by destruct (filter _ (buffer tree)); simplify_eq/=. }
  apply first_match_None in Em as ->.
  rewrite (io_bind_hit _ _ _ _ _ (search_disk_ok k tree w d Hlink Hd Hl)).
  rewrite Hs in Hfl. destruct Hfl as (_ & _ & Hfilter).
  rewrite <- head_reverse, <- Hfilter, head_filter_first_match.
  by destruct (first_match k d) as [[i x]|].
Qed.

(** With no file of the misspelt name, [get] sees the buffer and nothing else. *)
Lemma get_buffer_only k tree w :
  tree_ok tree → files w !! search_file = None →
  ∃ w', get k tree w = hit_outcome (head (filter (same_key k) (buffer tree))) w' ∧
        files w' = files w.
Proof.
  intros Hok Hf. unfold get.
  rewrite (io_bind_hit _ _ _ _ _ (search_buffer_ok k tree w Hok)), head_filter_first_match.
  destruct (first_match k (buffer tree)) as [[i x]|]; simpl; [by exists w|].
  rewrite (io_bind_ret _ _ _ _ _ (search_disk_absent k tree w Hf)). by eexists.
Qed.

(** ** [update] *)

(** On an allocator whose blocks for 8 bytes have room for the struct; on the others [update] of
    a buffered key is the overflow of its search ([update_overflows]). *)
Lemma update_spec k v tree w :
  12 ≤ malloc_usable 8 → tree_ok tree →
  update k v tree w =
  match first_match k (buffer tree) with
  | Some (i, x) =>
      Ret ((0, set_block tree (<[i := Node k v]> (block tree))),
           World (files w)
             (out w ++ [Printf "index is : ni %d" [Z.of_nat i];
                        Printf "updating key: %d, val: %d" [val x];
                        Printf "to key: %d val: %d" [v]]))
  | None => Fault NullDeref
  end.
Proof.
  intros Hu Hok. unfold update.
  rewrite (io_bind_ret _ _ _ _ _ (search_buffer_room k tree w Hu Hok)).
  destruct (first_match k (buffer tree)) as [[i x]|] eqn:Em; simpl; [|done].
  unfold printf. rewrite !io_bind_emit. cbn [files out].
  destruct Hok as [Hs Hb Hn Hx]. apply first_match_lookup in Em as [Hi _].
  apply lookup_lt_Some in Hi. unfold buffer in Hi. rewrite length_take in Hi.
  rewrite (io_bind_lift _ _ _ _ (arr_set_lt (block tree) i (Node k v) ltac:(lia))).
  rewrite io_bind_emit. cbn [files out]. unfold mret, io_ret. by rewrite <- !app_assoc.
Qed.
(** Where the block has no room, none of the three returns from a buffered key. *)
Lemma search_hit_faults {B} k tree w (f : option nodei → io B) i x :
  malloc_usable 8 < 12 → tree_ok tree → first_match k (buffer tree) = Some (i, x) →
  (search_buffer k tree ≫= f) w = Fault HeapOverflow.
Proof.
  intros Hu Hok Hm. rewrite (io_bind_hit _ _ _ _ _ (search_buffer_ok k tree w Hok)), Hm.
  simpl. by apply Z.ltb_lt in Hu as ->.
Qed.

Lemma update_overflows k v tree w i x :
  malloc_usable 8 < 12 → tree_ok tree → first_match k (buffer tree) = Some (i, x) →
  update k v tree w = Fault HeapOverflow.
Proof. apply search_hit_faults. Qed.

Lemma delete_overflows k tree w i x :
  malloc_usable 8 < 12 → tree_ok tree → first_match k (buffer tree) = Some (i, x) →
  delete k tree w = Fault HeapOverflow.
Proof. apply search_hit_faults. Qed.
End granted.

(** ** [delete] *)

(** The node that a move of bytes leaves half overwritten: the first [e] bytes come from the
    nodes [next], the others from [y]. *)
Definition torn_node (e : nat) (next : list node) (y : node) : node :=
  node_of_bytes (take e (nodes_bytes next) ++ drop e (node_bytes y)).

(** The array after [memmove(&a[i], &a[i+1], m)]: [m] counts bytes, so only the first [m / 8]
    nodes behind [i] move down, the next one is torn and the others stay. *)
Definition moved (a : list node) (i m : nat) (y : node) : list node :=
  let q := (m / 8)%nat in
  take i a ++ take q (drop (S i) a)
    ++ (torn_node (m mod 8) (drop (S i + q) a) y :: drop (S (i + q)) a).

Lemma move_bytes_ok (a : list node) (i m : nat) y :
  Forall node_ok a → (8 * S i + m <= 8 * length a)%nat → a !! (i + m / 8)%nat = Some y →
  move_bytes a (Z.of_nat i) (Z.of_nat i + 1) (Z.of_nat m) = Ret (moved a i m y).
Proof.
  intros Ha Hin Hy. unfold move_bytes, moved. set (q := (m / 8)%nat) in *.
  pose proof (Nat.div_mod_eq m 8) as Hm. fold q in Hm. set (e := (m mod 8)%nat) in *.
  assert (e < 8)%nat by (apply Nat.mod_upper_bound; lia).
  replace (8 * Z.of_nat i) with (Z.of_nat (8 * i)) by lia.
  replace (8 * (Z.of_nat i + 1)) with (Z.of_nat (8 * S i)) by lia.
  rewrite arr_move_ok, outcome_bind_ret by (rewrite length_nodes_bytes; lia). f_equal.
  rewrite take_nodes_bytes, drop_nodes_bytes.
  replace (8 * i + m)%nat with (8 * (i + q) + e)%nat by lia.
  rewrite <- drop_drop, drop_nodes_bytes, (drop_S _ _ _ Hy), nodes_bytes_cons.
  rewrite (drop_app_le (node_bytes y)) by (rewrite length_node_bytes; lia).
  rewrite Hm at 1. rewrite <- (take_drop (8 * q) (take (8 * q + e) _)), take_take.
  rewrite Nat.min_l, skipn_firstn_comm, take_nodes_bytes, drop_nodes_bytes, drop_drop by lia.
  replace (8 * q + e - 8 * q)%nat with e by lia.
  rewrite <- (app_assoc (nodes_bytes (take q _))), (app_assoc (nodes_bytes (take i a))).
  rewrite <- nodes_bytes_app.
  assert (e = 0 ∨ S i + q < length a)%nat as He by lia.
  assert (length (take e (nodes_bytes (drop (S i + q) a))) = e) as Le.
  { rewrite length_take, length_nodes_bytes, length_drop. lia. }
  pose proof (lookup_lt_Some _ _ _ Hy) as Hlt.
  replace (length a) with
    (length (take i a ++ take q (drop (S i) a)) + S (length (drop (S (i + q)) a)))%nat.
  2:{ rewrite length_app, !length_take, !length_drop. lia. }
  rewrite nodes_of_bytes_app
    by (apply Forall_app; split; auto using Forall_take, Forall_drop).
  rewrite <- (app_assoc (take i a)). do 2 f_equal. cbn [nodes_of_bytes].
  rewrite (app_assoc (take e _)), take_app_length', drop_app_length'
    by (rewrite length_app, Le, length_drop, length_node_bytes; lia).
  f_equal. rewrite <- (app_nil_r (nodes_bytes _)). apply nodes_of_nodes_bytes.
  by apply Forall_drop.
Qed.

Section granted_delete.
Context `{!AllocatorLaws A} `{!AllocatorGrants A}.

(** Deleting a key of the buffer, where the search has room for what it found. *)
Lemma delete_buffer_spec k tree w i x y :
  12 ≤ malloc_usable 8 → tree_ok tree → Forall node_ok (block tree) →
  first_match k (buffer tree) = Some (i, x) →
  let m := Z.to_nat (block_size tree - Z.of_nat i) in
  block tree !! (i + m / 8)%nat = Some y →
  delete k tree w =
  if Z.of_nat i =? block_size tree - 1 then Fault OutOfBounds
  else Ret ((0, set_block (set_next_empty tree (next_empty tree - 1))
                  (moved (block tree) i m y)), w).
Proof.
  intros Hu Hok Ha Hm m Hy. unfold delete.
  rewrite (io_bind_ret _ _ _ _ _ (search_buffer_room k tree w Hu Hok)), Hm.
  cbn [fmap option_fmap option_map fst snd ni_index]. destruct Hok as [Hs Hb Hn Hx].
  apply first_match_lookup in Hm as [Hi _]. apply lookup_lt_Some in Hi.
  unfold buffer in Hi. rewrite length_take in Hi. cbv zeta.
  rewrite !u64_small by (simpl; lia). simpl (block _). simpl (block_size _).
  replace (block_size tree - Z.of_nat i) with (Z.of_nat m) by lia.
  destruct (Z.eqb_spec (Z.of_nat i) (block_size tree - 1)) as [E|E].
  - erewrite io_bind_lift_fault; [done|]. unfold move_bytes, arr_move.
    rewrite length_nodes_bytes.
    assert ((8 * (Z.of_nat i + 1) + Z.of_nat m <=? Z.of_nat (8 * length (block tree))) = false)
      as -> by (apply Z.leb_gt; lia).
    by rewrite andb_false_r.
  - by erewrite io_bind_lift by (apply move_bytes_ok; [done | lia | done]).
Qed.

(** A deletion is right when the bytes moved cover every node behind the deleted one. *)
Lemma moved_all (a : list node) (i m n : nat) y :
  (i < n)%nat → (n <= length a)%nat → (n - 1 - i <= m / 8)%nat →
  take (n - 1) (moved a i m y) = take i a ++ drop (S i) (take n a).
Proof.
  intros Hi Hn Hq. unfold moved. rewrite take_app, take_take, length_take.
  rewrite Nat.min_r, Nat.min_l by lia. f_equal.
  rewrite take_app_le by (rewrite length_take, length_drop; lia).
  rewrite take_take, Nat.min_l, skipn_firstn_comm by lia. f_equal. lia.
Qed.

(** Otherwise the nodes behind the torn one stay where they are, and the shorter buffer has
    lost the last one. *)
Lemma moved_part (a : list node) (i m n : nat) y :
  (n <= length a)%nat → (i + m / 8 < n - 1)%nat →
  take (n - 1) (moved a i m y)
  = take i a ++ take (m / 8) (drop (S i) a)
    ++ (torn_node (m mod 8) (drop (S i + m / 8) a) y :: slice a (S (i + m / 8)) (n - 1)).
Proof.
  intros Hn Hq. unfold moved. set (q := (m / 8)%nat) in *.
  rewrite take_app, take_take, length_take, Nat.min_r by lia. f_equal.
  rewrite take_app, take_take, length_take, length_drop, Nat.min_r by lia. f_equal.
  replace (n - 1 - i `min` length a - q `min` (length a - S i))%nat
    with (S (n - 1 - S (i + q))) by lia.
  simpl. f_equal. unfold slice. by rewrite skipn_firstn_comm.
Qed.

(** Without a file of the misspelt name, deleting a key that is not buffered stops at the
    assertion, even when the key is in the tree's file. *)
Lemma delete_not_buffered k tree w :
  tree_ok tree → first_match k (buffer tree) = None → files w !! search_file = None →
  delete k tree w = Fault AssertFailed.
Proof.
  intros Hok Hm Hf. unfold delete, delete_on_disk.
  rewrite (io_bind_hit _ _ _ _ _ (search_buffer_ok k tree w Hok)), Hm.
  cbn [fmap option_fmap option_map].
  by rewrite (io_bind_ret _ _ _ _ _ (search_disk_absent k tree w Hf)).
Qed.
End granted_delete.
End ops.
