(* ===== verification/LsmSession.v ===== *)
(** LsmSession: the states that a program reaches with the operations of lsm.c, in any order, as long as
    they return: the relation [session] and its invariant. *)

From Stdlib Require Import ZArith Lia.
From stdpp Require Import base list gmap strings sorting.
From S2P Require Import Prelude Memory Stdio LsmSort LsmFile Lsm LsmSpec LsmOps.

#[local] Open Scope Z_scope.

(** [session size b n tree w]: [tree] and [w] are reached from a fresh tree of [size] nodes, in a
    world without its files, by operations that returned, [n] of them puts.  The arguments of the
    operations are [int]s. *)
Inductive session `{A : Allocator} (size : Z) (b : bool) : nat → lsm → world → Prop :=
  | session_init tree w :
      files w !! "disk_storage.txt" = None → files w !! search_file = None →
      init_new_lsm size b w = Ret (Some tree, w) → session size b 0 tree w
  | session_put n tree w x r tree' w' :
      session size b n tree w → node_ok x →
      put (key x) (val x) tree w = Ret ((r, tree'), w') → session size b (S n) tree' w'
  | session_get n tree w k r w' :
      session size b n tree w → get k tree w = Ret (r, w') → session size b n tree w'
  | session_update n tree w x r tree' w' :
      session size b n tree w → node_ok x →
      update (key x) (val x) tree w = Ret ((r, tree'), w') → session size b n tree' w'
  | session_delete n tree w k r tree' w' :
      session size b n tree w → delete k tree w = Ret ((r, tree'), w') → session size b n tree' w'.

(** What every operation keeps. *)
Record session_ok (size : Z) (b : bool) (n : nat) (tree : lsm) (w : world) : Prop := {
  so_size : block_size tree = size;
  so_sorted : sorted tree = b;
  so_disk : disk1 tree = "disk_storage.txt";
  so_block : Forall node_ok (block tree);
  so_search : files w !! search_file = None;
  so_store : ∃ st d, represents tree w st d ∧ (length (store_history st) <= n)%nat
}.

Section invariant.
Context `{A : Allocator} `{!AllocatorLaws A} `{!AllocatorGrants A}.
Context (junk_ok : node_ok (Node malloc_junk malloc_junk)).
Context (size : Z) (b : bool) (size_pos : 0 < size).

(** Changing the nodes and the number of nodes of the buffer, but not the file. *)
Lemma session_ok_buffer n tree w nodes next w' :
  session_ok size b n tree w → files w' = files w →
  length nodes = length (block tree) → Forall node_ok nodes → 0 ≤ next ≤ next_empty tree →
  session_ok size b n (set_next_empty (set_block tree nodes) next) w'.
Proof.
  intros [Hs Hb Hd Hn Hf (st & d & [Hok Hr [Hfd Hf'] Hfl] & Hl)] Ew Hlen Hnodes Hnext.
  pose proof (length_buffer tree Hok) as Hbuf. destruct Hok as [Hs' Hb' Hn' Hx].
  constructor; simpl; [done..| by rewrite Ew |].
  exists (Store (st_flushed st) (take (Z.to_nat next) nodes)), d. split.
  - constructor; simpl; [constructor; simpl | done | split; [done | by rewrite Ew] | done].
    + done.
    + by rewrite Hlen.
    + lia.
    + by apply Forall_take.
  - unfold store_history in *. cbn [st_flushed st_recent]. rewrite length_app in *.
    rewrite length_take, <- Hr in *. lia.
Qed.

(** A put leaves only nodes of [int]s in the whole block. *)
Lemma put_block_ok tree w st d x r tree' w' :
  represents tree w st d → Forall node_ok (block tree) → node_ok x →
  Z.of_nat (length d) + block_size tree < 2147483648 →
  put (key x) (val x) tree w = Ret ((r, tree'), w') → Forall node_ok (block tree').
Proof.
  intros [Hok Hr Hf Hfl] Hb Hx Hl E. unfold put in E.
  replace (Node (key x) (val x)) with x in E by (by destruct x).
  assert (∀ a e, Forall node_ok a → arr_set a (next_empty e) x = Ret (block tree') →
            Forall node_ok (block tree')) as Hset.
  { intros a e Ha Es. unfold arr_set in Es. destruct (_ || _); [done|]. injection Es as <-.
    by apply Forall_insert. }
  destruct (Z.eqb_spec (next_empty tree) (block_size tree)) as [En|En].
  - destruct (write_to_disk_full tree w d Hok En Hf Hl) as (s & Ew & Hs).
    rewrite (io_bind_ret _ _ _ _ _ Ew) in E. cbv beta iota in E.
    apply flushed_as_perm in Hs.
    destruct (arr_set _ _ x) as [a|] eqn:Es in E; [|done]. injection E as <- <- <-.
    eapply Hset; [|exact Es]. cbn. rewrite Hs. apply Hok.
  - rewrite io_bind_mret in E. cbv beta iota in E.
    destruct (arr_set _ _ x) as [a|] eqn:Es in E; [|done]. injection E as <- <- <-.
    by eapply Hset.
Qed.

Lemma session_ok_put n tree w x :
  session_ok size b n tree w → node_ok x → Z.of_nat n + size < 2147483648 →
  ∃ tree' w', put (key x) (val x) tree w = Ret ((0, tree'), w') ∧ session_ok size b (S n) tree' w'.
Proof.
  intros [Hs Hb Hd Hn Hf (st & d & R & Hl)] Hx Hsize.
  assert (length d <= length (store_history st))%nat as Hld.
  { destruct R as [_ _ _ Hfl]. apply flushed_as_perm in Hfl. rewrite Hfl.
    unfold store_history. rewrite length_app. lia. }
  destruct (put_refines tree w st d x R Hx) as (t1 & w1 & d1 & E & R1 & (C1 & C2 & C3) & [W1 W2]); [lia|].
  exists t1, w1. split; [done|]. constructor; [congruence..| | |].
  - eapply put_block_ok; [exact R | done | done | lia | exact E].
  - rewrite W2; [done|]. by rewrite Hd.
  - exists (store_put (block_size tree) x st), d1. split; [done|].
    rewrite store_put_history, length_app. simpl. lia.
Qed.

(** [get] answers from the buffer, or overflows the block of its search. *)
Lemma session_get_outcome n tree w k :
  session_ok size b n tree w →
  ∃ w', get k tree w = hit_outcome (head (filter (same_key k) (buffer tree))) w' ∧
        session_ok size b n tree w'.
Proof.
  intros H. pose proof H as [Hs Hb Hd Hn Hf (st & d & R & Hl)].
  destruct (get_buffer_only k tree w (rep_tree _ _ _ _ R) Hf) as (w' & E & Ew).
  exists w'. split; [exact E|].
  constructor; [done..| by rewrite Ew |]. exists st, d. split; [|done].
  destruct R as [R1 R2 [R3 R4] R5]. constructor; try done. split; [done|]. by rewrite Ew.
Qed.

Lemma session_ok_get n tree w k r w' :
  session_ok size b n tree w → get k tree w = Ret (r, w') → session_ok size b n tree w'.
Proof.
  intros H E. destruct (session_get_outcome n tree w k H) as (w1 & E1 & H1).
  rewrite E1 in E. unfold hit_outcome in E.
  destruct (head _); [destruct (_ <? _); [done|]|]; by injection E as _ <-.
Qed.

(** An operation that returned had room for what its search found. *)
Lemma hit_room {B} (m : outcome B) y :
  m = Ret y → (malloc_usable 8 < 12 → m = Fault HeapOverflow) → 12 ≤ malloc_usable 8.
Proof.
  intros E Hf. destruct (Z.lt_ge_cases (malloc_usable 8) 12) as [L|L]; [|done].
  by rewrite (Hf L) in E.
Qed.

Lemma session_ok_update n tree w x r tree' w' :
  session_ok size b n tree w → node_ok x →
  update (key x) (val x) tree w = Ret ((r, tree'), w') → session_ok size b n tree' w'.
Proof.
  intros H Hx E. pose proof H as [Hs Hb Hd Hn Hf (st & d & R & Hl)].
  pose proof (rep_tree _ _ _ _ R) as Hok.
  destruct (first_match (key x) (buffer tree)) as [[i y]|] eqn:Em.
  - assert (12 ≤ malloc_usable 8) as Hu.
    { apply (hit_room _ _ E). intros L. by eapply update_overflows. }
    rewrite (update_spec _ _ _ _ Hu Hok), Em in E. injection E as <- <- <-.
    replace (set_block tree _) with
      (set_next_empty (set_block tree (<[i := Node (key x) (val x)]> (block tree))) (next_empty tree))
      by (by destruct tree).
    eapply session_ok_buffer; [exact H | done | by rewrite length_insert | |].
    + apply Forall_insert; [done|]. by destruct x.
    + destruct Hok. lia.
  - unfold update in E.
    by rewrite (io_bind_hit _ _ _ _ _ (search_buffer_ok _ tree w Hok)), Em in E.
Qed.

Lemma session_ok_delete n tree w k r tree' w' :
  session_ok size b n tree w → delete k tree w = Ret ((r, tree'), w') → session_ok size b n tree' w'.
Proof.
  intros H E. pose proof H as [Hs Hb Hd Hn Hf (st & d & R & Hl)].
  pose proof (rep_tree _ _ _ _ R) as Hok.
  destruct (first_match k (buffer tree)) as [[i y]|] eqn:Em.
  - assert (12 ≤ malloc_usable 8) as Hu.
    { apply (hit_room _ _ E). intros L. by eapply delete_overflows. }
    unfold delete in E. rewrite (io_bind_ret _ _ _ _ _ (search_buffer_room k tree w Hu Hok)), Em in E.
    cbn [fmap option_fmap option_map fst snd ni_index] in E.
    apply first_match_lookup in Em as [Hi _]. apply lookup_lt_Some in Hi.
    pose proof (length_buffer tree Hok). destruct Hok as [Hs' Hb' Hn' _].
    destruct (move_bytes _ _ _ _) as [a|] eqn:Ea in E; [|done]. injection E as <- <- <-.
    unfold move_bytes in Ea. destruct (arr_move _ _ _ _) as [bs|] in Ea; [|done]. injection Ea as <-.
    rewrite (u64_small (next_empty tree - 1)) by lia.
    replace (set_block (set_next_empty tree _) _) with
      (set_next_empty (set_block tree (nodes_of_bytes (length (block tree)) bs)) (next_empty tree - 1))
      by (by destruct tree).
    eapply session_ok_buffer; [exact H | done | apply length_nodes_of_bytes
                              | apply nodes_of_bytes_ok | lia].
  - by rewrite (delete_not_buffered k tree w Hok Em Hf) in E.
Qed.

Lemma session_ok_init tree w :
  size < 2147483648 → files w !! "disk_storage.txt" = None → files w !! search_file = None →
  init_new_lsm size b w = Ret (Some tree, w) → session_ok size b 0 tree w.
Proof.
  intros Hs Hf Hf2 E.
  destruct (init_new_lsm_ok size b w) as (t & E1 & R & E2 & E3 & E4);
    [by apply Forall_singleton | lia | done |].
  rewrite E1 in E. injection E as ->. constructor; try done; [|by exists store_empty, []].
  unfold init_new_lsm in E1. rewrite u64_small, !malloc_grants in E1 by lia.
  injection E1 as <-. cbn. by apply Forall_replicate.
Qed.

Lemma session_invariant n tree w :
  session size b n tree w → Z.of_nat n + size < 2147483648 → session_ok size b n tree w.
Proof.
  induction 1 as [tree w Hf Hf2 E | n tree w x r tree' w' _ IH Hx E | n tree w k r w' _ IH E
                 | n tree w x r tree' w' _ IH Hx E | n tree w k r tree' w' _ IH E ]; intros Hsize.
  - apply (session_ok_init tree w); [lia | done..].
  - destruct (session_ok_put n tree w x) as (t1 & w1 & E1 & H1); [apply IH; lia | done | lia |].
    rewrite E1 in E. by injection E as <- <- <-.
  - eapply session_ok_get; [by apply IH | exact E].
  - eapply session_ok_update; [by apply IH | done | exact E].
  - eapply session_ok_delete; [by apply IH | exact E].
Qed.
End invariant.
