(* ===== verification/LsmTest.v ===== *)
(** LsmTest: the driver of test/LSMTree/test.c, which fills a tree and prints it, and what a run
    of it does. *)

From Stdlib Require Import ZArith Lia Ascii String.
From stdpp Require Import base list gmap strings sorting.
From S2P Require Import Prelude Memory Stdio LsmSort LsmFile Lsm LsmSpec LsmOps.

Open Scope list_scope.

(** ** The C library functions the driver uses *)

Fixpoint atoi_digits (s : string) (acc : Z) : Z :=
  match s with
  | String c s' =>
      if is_digit c then atoi_digits s' (10 * acc + digit_val c) else acc
  | EmptyString => acc
  end.

(** atoi on a text without leading blanks; an [int] result is assumed. *)
Definition atoi (s : string) : Z :=
  match s with
  | String "-"%char s' => - atoi_digits s' 0
  | String "+"%char s' => atoi_digits s' 0
  | _ => atoi_digits s 0
  end.

(** strncpy of three characters into an array of four: the last keeps its former byte, and a
    shorter source is padded with zero bytes. *)
Definition strncpy3 (s : string) (old : ascii) : list ascii :=
  take 3 (list_ascii_of_string s ++ replicate 3 zero) ++ [old].

(** strcmp(a, t) = 0 for an array [a] that may lack a final zero byte. *)
Fixpoint strcmp_eq (a t : list ascii) : bool :=
  match a, t with
  | x :: a', y :: t' => Ascii.eqb x y && strcmp_eq a' t'
  | x :: _, [] => Ascii.eqb x zero
  | [], [] => true
  | [], _ => false
  end.

Section driver.
Context `{A : Allocator}.
(** The ticks that clock() counts during the puts. *)
Context (elapsed : Z).

(** When stat fails, [s] stays uninitialised and its size is read all the same.
    [src: test/LSMTree/test.c 26-50 test_print_tree] *)
Definition test_print_tree (tree : lsm) : io unit :=
  '(r, st_size) ← stat (disk1 tree);
  (if r =? 0 then mret tt else perror "print: fstat ");;
  match st_size with
  | None => fail Indeterminate
  | Some st_size =>
      (if (st_size =? 0) && negb (next_empty tree =? 0) then
         printf "data fits in the buffer" [];; print_buffer_data tree else mret tt);;
      (if (0 <? st_size) && (next_empty tree =? 0) then
         printf "data fits in the disk" [];; print_disk_data tree else mret tt);;
      (if (0 <? st_size) && negb (next_empty tree =? 0) then
         printf "data is in buffer & on disk" [];;
         print_buffer_data tree;; print_disk_data tree else mret tt)
  end.

(** The loop of test_put: put [(i, i)] for [i] from 0 below [data_size].
    [src: test/LSMTree/test.c 66-74 test_put] *)
Fixpoint put_loop (fuel : nat) (i data_size r : Z) (tree : lsm) : io (Z * lsm) :=
  match fuel with
  | O => fail OutOfFuel
  | S fuel' =>
      if i <? data_size then
        '(r, tree) ← put i i tree;
        if r =? 0 then
          i' ← lift (int_add i 1);
          put_loop fuel' i' data_size r tree
        else fail AssertFailed
      else mret (r, tree)
  end.

(** [src: test/LSMTree/test.c 60-85 test_put] *)
Definition test_put (tree : lsm) (data_size buffer_size : Z) (sorted timing : bool)
    : io (Z * lsm) :=
  '(r, tree) ← put_loop (find_fuel data_size) 0 data_size 0 tree;
  (if timing then printf "%f, " [elapsed] else mret tt);;
  test_print_tree tree;;
  mret (r, tree).

(** [argv] holds the program name and its arguments, and [stack_byte] is the byte that
    [testing[3]] happens to hold.
    [src: test/LSMTree/test.c 87-123 main] *)
Definition main (argv : list string) (stack_byte : ascii) : io unit :=
  printf "Usage: %s data_size buffer_size nops put/get/upd/thr [sorted] [put_prob] [update_prob]"
    [];;
  if (length argv <? 5)%nat then fail AssertFailed
  else
    let data_size := atoi (nth 1 argv EmptyString) in
    let buffer_size := atoi (nth 2 argv EmptyString) in
    let testing := strncpy3 (nth 4 argv EmptyString) stack_byte in
    let sorted := (length argv =? 6)%nat in
    tree ← init_new_lsm (u64 buffer_size) sorted;
    if strcmp_eq testing (list_ascii_of_string "put") then
      match tree with
      | None => fail NullDeref
      | Some tree => test_put tree data_size buffer_size sorted true;; mret tt
      end
    else mret tt.
End driver.

(** ** What a run does *)

(** The messages for one node, and for an array of nodes. *)
Definition node_events (x : node) : list event :=
  [Printf "key %i " [key x]; Printf "value %i " [val x]].
Definition nodes_events (xs : list node) : list event := mjoin (node_events <$> xs).

(** The nodes that test_put stores, in order. *)
Definition test_nodes (n : nat) : list node := (λ i, Node (Z.of_nat i) (Z.of_nat i)) <$> seq 0 n.

Section driver_spec.
Context `{A : Allocator} `{!AllocatorLaws A} `{!AllocatorGrants A}.

Lemma print_nodes_spec fuel (a : list node) (n i : nat) w :
  (n <= length a)%nat → Z.of_nat n < 2147483647 → (i <= n)%nat → (n - i < fuel)%nat →
  print_nodes fuel a (Z.of_nat n) (Z.of_nat i) w
  = Ret (tt, World (files w) (out w ++ nodes_events (slice a i n))).
Proof.
  revert i w. induction fuel as [|fuel IH]; intros i w Hn Hz Hi Hf; [lia|].
  cbn [print_nodes]. rewrite u64_small by lia.
  destruct (Z.ltb_spec (Z.of_nat i) (Z.of_nat n)) as [L|L].
  2:{ rewrite slice_ge by lia. simpl. rewrite app_nil_r. by destruct w. }
  destruct (lookup_lt_is_Some_2 a i) as [x Hx]; [lia|].
  erewrite io_bind_lift by (by apply arr_get_lookup).
  unfold printf. rewrite !io_bind_emit. cbn [files out].
  erewrite io_bind_lift by (apply int_succ; lia).
  rewrite IH, (slice_cons a i n x) by (done || lia). cbn [files out].
  unfold nodes_events. rewrite fmap_cons. simpl. by rewrite <- !app_assoc.
Qed.

Lemma print_buffer_data_ok tree w :
  tree_ok tree → block_size tree < 2147483647 →
  print_buffer_data tree w
  = Ret (tt, World (files w) (out w ++ nodes_events (buffer tree))).
Proof.
  intros [Hs Hb Hn Hx] Hlt. unfold print_buffer_data, buffer, find_fuel.
  assert (∃ n : nat, next_empty tree = Z.of_nat n) as [n En]
    by (exists (Z.to_nat (next_empty tree)); lia).
  rewrite En, Nat2Z.id. change 0 with (Z.of_nat 0). by rewrite print_nodes_spec by lia.
Qed.

Lemma print_disk_data_ok tree w d :
  files w !! disk1 tree = Some (disk_file (Z.of_nat (length d)) d) → Forall node_ok d →
  Z.of_nat (length d) < 2147483647 →
  print_disk_data tree w
  = Ret (tt, World (files w)
               (out w ++ [Printf "Printing disk data ..." [];
                          Printf "num_elements is %d" [Z.of_nat (length d)]]
                      ++ nodes_events d)).
Proof.
  intros Hf Hd Hl. unfold print_disk_data, printf. rewrite io_bind_emit.
  erewrite io_bind_ret by done. cbn [files out]. rewrite Hf.
  destruct (fread_disk_file (Z.of_nat (length d)) d) with (old := Some 0) as [-> _];
    [apply is_u64_spec; lia | done..|].
  rewrite io_bind_emit, check_file_ret_quiet, io_bind_mret by (done || lia).
  rewrite (u64_small (8 * _)), malloc_grants, i32_small by lia.
  cbn [negb files out]. rewrite io_bind_mret.
  erewrite io_bind_ret by (apply read_nodes_ok; [done | lia]).
  unfold find_fuel. rewrite Nat2Z.id. change 0 with (Z.of_nat 0).
  rewrite print_nodes_spec by lia. cbn [files out].
  unfold slice. rewrite drop_0, take_ge by lia. by rewrite <- !app_assoc.
Qed.

(** The loop of [test_put] is the sequence of puts of its nodes. *)
Lemma put_loop_puts fuel (i n : nat) tree w tree' w' :
  Z.of_nat n < 2147483648 → (i <= n)%nat → (n - i < fuel)%nat →
  puts ((λ j, Node (Z.of_nat j) (Z.of_nat j)) <$> seq i (n - i)) tree w = Ret (tree', w') →
  put_loop fuel (Z.of_nat i) (Z.of_nat n) 0 tree w = Ret ((0, tree'), w').
Proof.
  revert i tree w. induction fuel as [|fuel IH]; intros i tree w Hz Hi Hf Hp; [lia|].
  cbn [put_loop]. destruct (Z.ltb_spec (Z.of_nat i) (Z.of_nat n)) as [L|L].
  - destruct (n - i)%nat as [|m] eqn:Em; [lia|]. simpl in Hp.
    unfold mbind, io_bind in Hp |- *.
    destruct (put (Z.of_nat i) (Z.of_nat i) tree w) as [[[r t] w1]|]; [|done].
    destruct (r =? 0) eqn:Er; [|done]. apply Z.eqb_eq in Er. subst r.
    rewrite int_succ by lia. simpl lift. apply IH; [done | lia | lia |].
    by replace (n - S i)%nat with m by lia.
  - replace (n - i)%nat with 0%nat in Hp by lia. simpl in Hp. by injection Hp as -> ->.
Qed.

Lemma length_test_nodes n : length (test_nodes n) = n.
Proof. unfold test_nodes. by rewrite length_fmap, length_seq. Qed.

Lemma test_nodes_ok n : Z.of_nat n < 2147483648 → Forall node_ok (test_nodes n).
Proof.
  intros Hn. unfold test_nodes. apply Forall_fmap, Forall_forall. intros i Hi.
  apply elem_of_seq in Hi. split; apply is_i32_spec; simpl; lia.
Qed.

Lemma put_loop_refines n tree w :
  represents tree w store_empty [] → Z.of_nat n + block_size tree < 2147483648 →
  ∃ tree' w' d,
    put_loop (find_fuel (Z.of_nat n)) 0 (Z.of_nat n) 0 tree w = Ret ((0, tree'), w') ∧
    represents tree' w' (store_puts (block_size tree) (test_nodes n) store_empty) d ∧
    same_config tree tree' ∧ same_but (disk1 tree) w w'.
Proof.
  intros Hrep Hn.
  destruct (puts_refine (test_nodes n) tree w _ _ Hrep) as (t & w' & d & E & R & C & W).
  - apply test_nodes_ok. destruct Hrep as [[? _ _ _] _ _ _]. lia.
  - rewrite length_test_nodes. simpl. lia.
  - exists t, w', d. split; [|done]. unfold find_fuel. rewrite Nat2Z.id.
    change 0 with (Z.of_nat 0) at 1.
    apply put_loop_puts; [destruct Hrep as [[? _ _ _] _ _ _]; lia | lia | lia |].
    by rewrite Nat.sub_0_r.
Qed.

(** More puts than the buffer holds: the driver prints the buffer and then the file, and every
    node it stored is in one of them. *)
Lemma test_put_run elapsed n tree b w :
  represents tree w store_empty [] →
  block_size tree < Z.of_nat n → Z.of_nat n + block_size tree < 2147483648 →
  let st := store_puts (block_size tree) (test_nodes n) store_empty in
  ∃ tree' w' d,
    test_put elapsed tree (Z.of_nat n) (block_size tree) b true w = Ret ((0, tree'), w') ∧
    represents tree' w' st d ∧
    out w' = out w ++ [Printf "%f, " [elapsed]; Printf "data is in buffer & on disk" []]
      ++ nodes_events (st_recent st)
      ++ [Printf "Printing disk data ..." [];
          Printf "num_elements is %d" [Z.of_nat (length d)]] ++ nodes_events d.
Proof.
  intros Hrep Hlt Hn st.
  destruct (put_loop_refines n tree w Hrep Hn) as (t & w' & d & E & R & (Cb & Cs & Cd) & W).
  pose proof (rep_tree _ _ _ _ Hrep) as [Hs _ _ _].
  assert (test_nodes n ≠ []) as Hne.
  { intros C. apply (f_equal length) in C. rewrite length_test_nodes in C. simpl in C. lia. }
  fold st in R. destruct R as [Rt Rr [Rd Rf] Rl].
  destruct (store_puts_flushed (block_size tree) (test_nodes n) ltac:(lia) Hne) as [Hlen Hfl].
  fold st in Hlen, Hfl. rewrite length_test_nodes in Hlen, Hfl.
  specialize (Hfl ltac:(lia)).
  pose proof (store_puts_recent (block_size tree) (test_nodes n) store_empty ltac:(lia)
                (or_intror (conj eq_refl Hne))) as Hrec. fold st in Hrec.
  pose proof (Permutation_length (flushed_as_perm _ _ _ Rl)) as Hd.
  unfold test_put. rewrite (io_bind_ret _ _ _ _ _ E). unfold printf. rewrite io_bind_emit.
  assert (files w' !! disk1 t = Some (disk_file (Z.of_nat (length d)) d)) as Ef.
  { destruct d; [|done]. destruct (st_flushed st); [done | simpl in Hd; lia]. }
  unfold test_print_tree.
  pose proof (length_buffer t Rt) as Hnext. rewrite Rr in Hnext.
  eexists t, _, d. split; [|split].
  - erewrite io_bind_ret; [reflexivity|].
    erewrite io_bind_ret by (unfold stat; cbn [files]; by rewrite Ef).
    cbn [Z.eqb]. rewrite io_bind_mret.
    destruct (Z.eqb_spec (Z.of_nat (length (disk_file (Z.of_nat (length d)) d))) 0) as [C|_];
      [unfold disk_file in C; rewrite length_app, length_le_bytes in C; lia|].
    destruct (Z.ltb_spec 0 (Z.of_nat (length (disk_file (Z.of_nat (length d)) d)))) as [_|C];
      [|unfold disk_file in C; rewrite length_app, length_le_bytes in C; lia].
    destruct (Z.eqb_spec (next_empty t) 0) as [C|_]; [lia|]. cbn [andb negb].
    rewrite !io_bind_mret. unfold printf. rewrite io_bind_emit. cbn [files out].
    erewrite io_bind_ret by (apply print_buffer_data_ok; [done | lia]).
    apply print_disk_data_ok; [done | done | lia].
  - by constructor.
  - cbn [out]. rewrite (proj1 W), Rr. by rewrite <- !app_assoc.
Qed.

(** When everything fits in the buffer no file exists yet, and the driver reads the size of a
    file that stat did not find. *)
Lemma test_put_small elapsed n tree b w :
  represents tree w store_empty [] →
  Z.of_nat n ≤ block_size tree → Z.of_nat n + block_size tree < 2147483648 →
  test_put elapsed tree (Z.of_nat n) (block_size tree) b true w = Fault Indeterminate.
Proof.
  intros Hrep Hle Hn.
  destruct (put_loop_refines n tree w Hrep Hn) as (t & w' & d & E & R & (Cb & Cs & Cd) & W).
  assert (d = []) as ->.
  { pose proof (Permutation_length (flushed_as_perm _ _ _ (rep_flushed _ _ _ _ R))) as Hd.
    destruct d; [done|]. exfalso.
    pose proof (rep_tree _ _ _ _ Hrep) as [Hs _ _ _].
    assert (∀ h st, st_flushed st = [] →
              Z.of_nat (length (st_recent st)) + Z.of_nat (length h) ≤ block_size tree →
              st_flushed (store_puts (block_size tree) h st) = []) as Hnone.
    { induction h as [|x h IH]; intros st Hst Hl; [done|]. simpl in *.
      unfold store_put. destruct (Z.eqb_spec (Z.of_nat (length (st_recent st))) (block_size tree));
        [lia|]. apply IH; simpl; [done|]. rewrite length_app. simpl. lia. }
    rewrite Hnone in Hd; [done | done |]. rewrite length_test_nodes. simpl. lia. }
  unfold test_put. rewrite (io_bind_ret _ _ _ _ _ E). unfold printf. rewrite io_bind_emit.
  apply io_bind_fault. unfold test_print_tree.
  erewrite io_bind_ret by (unfold stat; cbn [files]; by rewrite (proj2 (rep_file _ _ _ _ R))).
  cbn [Z.eqb]. unfold perror. by rewrite io_bind_emit.
Qed.
End driver_spec.
