(* ===== verification/Calendar.v ===== *)
(** Calendar: what the classes of the date headers promise to their clients.

    [Relational] is the interface of the six comparison operators that each class defines, with
    the laws that make them one total order; [DateSerial] is the interface between a class of
    dates and the serial day number ([sys_days]).  The clients' theorems are proved here once,
    against the interfaces; the files of the classes discharge the laws. *)

From Stdlib Require Import ZArith Lia.
From stdpp Require Import base list sets.
From S2P Require Import Prelude.

#[local] Open Scope Z_scope.

(** ** Comparison *)

Class Relational (A : Type) := {
  rel_eq : A → A → bool;
  rel_ne : A → A → bool;
  rel_lt : A → A → bool;
  rel_gt : A → A → bool;
  rel_le : A → A → bool;
  rel_ge : A → A → bool
}.

(** The lexicographic order of the fields, the most significant first. *)
Fixpoint lex_lt (a b : list Z) : bool :=
  match a, b with
  | x :: a', y :: b' => if x <? y then true else if y <? x then false else lex_lt a' b'
  | _, _ => false
  end.

(** The six operators are one order: that of the fields [rel_key], which determine the value. *)
Class RelationalLaws (A : Type) `{!Relational A} (rel_key : A → list Z) := {
  rel_key_length x y : length (rel_key x) = length (rel_key y);
  rel_key_inj x y : rel_key x = rel_key y → x = y;
  rel_eq_key x y : rel_eq x y = bool_decide (rel_key x = rel_key y);
  rel_lt_key x y : rel_lt x y = lex_lt (rel_key x) (rel_key y);
  rel_ne_eq x y : rel_ne x y = negb (rel_eq x y);
  rel_gt_lt x y : rel_gt x y = rel_lt y x;
  rel_le_lt x y : rel_le x y = negb (rel_lt y x);
  rel_ge_lt x y : rel_ge x y = negb (rel_lt x y)
}.

Lemma lex_lt_irrefl a : lex_lt a a = false.
Proof. induction a as [|x a IH]; simpl; [done|]. by rewrite Z.ltb_irrefl. Qed.

Lemma lex_lt_trans a b c : lex_lt a b = true → lex_lt b c = true → lex_lt a c = true.
Proof.
  revert b c. induction a as [|x a IH]; intros [|y b] [|z c] H1 H2; simpl in *; try done.
  destruct (Z.ltb_spec x y), (Z.ltb_spec y x), (Z.ltb_spec y z), (Z.ltb_spec z y),
    (Z.ltb_spec x z), (Z.ltb_spec z x); try done; try lia.
  eauto.
Qed.

Lemma lex_lt_total a b :
  length a = length b → a = b ∨ lex_lt a b = true ∨ lex_lt b a = true.
Proof.
  revert b. induction a as [|x a IH]; intros [|y b] Hl; simpl in *; try lia; [by left|].
  destruct (Z.ltb_spec x y), (Z.ltb_spec y x); try lia; auto.
  assert (x = y) as -> by lia. destruct (IH b) as [->|[H1|H1]]; auto.
Qed.

Section order.
Context {A : Type} {key : A → list Z} `{!Relational A, !RelationalLaws A key}.

Lemma rel_eq_true (x y : A) : rel_eq x y = true ↔ x = y.
Proof.
  rewrite rel_eq_key, bool_decide_eq_true. split; [apply rel_key_inj | by intros ->].
Qed.

Lemma rel_eq_refl (x : A) : rel_eq x x = true.
Proof. by apply rel_eq_true. Qed.

Lemma rel_lt_irrefl (x : A) : rel_lt x x = false.
Proof. rewrite rel_lt_key. apply lex_lt_irrefl. Qed.

Lemma rel_lt_trans (x y z : A) : rel_lt x y = true → rel_lt y z = true → rel_lt x z = true.
Proof. rewrite !rel_lt_key. apply lex_lt_trans. Qed.

(** Exactly one of [x < y], [x == y] and [x > y] holds. *)
Lemma rel_trichotomy (x y : A) :
  (rel_lt x y, rel_eq x y, rel_gt x y) ∈
    [(true, false, false); (false, true, false); (false, false, true)].
Proof.
  rewrite rel_gt_lt.
  destruct (lex_lt_total (key x) (key y) (rel_key_length x y)) as [E|[E|E]].
  - apply rel_key_inj in E as ->. rewrite rel_lt_irrefl, rel_eq_refl. set_solver.
  - rewrite <- rel_lt_key in E. rewrite E.
    destruct (rel_eq x y) eqn:He.
    { apply rel_eq_true in He as ->. by rewrite rel_lt_irrefl in E. }
    destruct (rel_lt y x) eqn:Hg; [|set_solver].
    pose proof (rel_lt_trans _ _ _ E Hg) as Hc. by rewrite rel_lt_irrefl in Hc.
  - rewrite <- rel_lt_key in E. rewrite E.
    destruct (rel_eq x y) eqn:He.
    { apply rel_eq_true in He as ->. by rewrite rel_lt_irrefl in E. }
    destruct (rel_lt x y) eqn:Hg; [|set_solver].
    pose proof (rel_lt_trans _ _ _ E Hg) as Hc. by rewrite rel_lt_irrefl in Hc.
Qed.

Lemma rel_le_spec (x y : A) : rel_le x y = rel_lt x y || rel_eq x y.
Proof.
  rewrite rel_le_lt, <- rel_gt_lt. pose proof (rel_trichotomy x y) as H.
  rewrite !elem_of_cons in H. destruct H as [H|[H|[H|H]]];
    [by injection H as -> -> -> .. | by apply elem_of_nil in H].
Qed.

Lemma rel_ge_spec (x y : A) : rel_ge x y = rel_gt x y || rel_eq x y.
Proof.
  rewrite rel_ge_lt. pose proof (rel_trichotomy x y) as H.
  rewrite !elem_of_cons in H. destruct H as [H|[H|[H|H]]];
    [by injection H as -> -> -> .. | by apply elem_of_nil in H].
Qed.
End order.

(** ** Serial day numbers *)

(** The values that the members of a class can hold: each in the range of its type. *)
Class WellFormed (A : Type) := wf : A → bool.

(** A class of dates: [ok()], the conversion to [sys_days] and the one from it. *)
Class DateSerial (D : Type) := {
  serial_ok : D → outcome bool;
  to_serial : D → outcome Z;
  of_serial : Z → outcome D
}.

(** Between [lo] and [hi], days and valid dates correspond one to one. *)
Class DateSerialLaws (D : Type) `{!WellFormed D, !DateSerial D} (lo hi : Z) := {
  to_serial_ok d : wf d = true → serial_ok d = Ret true →
    ∃ z, to_serial d = Ret z ∧ lo ≤ z ≤ hi ∧ of_serial z = Ret d;
  of_serial_ok z : lo ≤ z ≤ hi →
    ∃ d, of_serial z = Ret d ∧ wf d = true ∧ serial_ok d = Ret true ∧ to_serial d = Ret z
}.

(** Constructing a date of one class from a date of another: through [sys_days]. *)
Definition convert {D E : Type} `{!DateSerial D, !DateSerial E} (d : D) : outcome E :=
  z ← to_serial d; of_serial z.

Section serial.
Context {D E : Type} {lo hi lo' hi' : Z}.
Context `{!WellFormed D, !DateSerial D, !DateSerialLaws D lo hi}.
Context `{!WellFormed E, !DateSerial E, !DateSerialLaws E lo' hi'}.

Lemma serial_inj (d1 d2 : D) z :
  wf d1 = true → wf d2 = true → serial_ok d1 = Ret true → serial_ok d2 = Ret true →
  to_serial d1 = Ret z → to_serial d2 = Ret z → d1 = d2.
Proof.
  intros W1 W2 H1 H2 T1 T2.
  destruct (to_serial_ok d1 W1 H1) as (z1 & E1 & _ & F1).
  destruct (to_serial_ok d2 W2 H2) as (z2 & E2 & _ & F2). congruence.
Qed.

(** Converting a valid date to another class and back gives the date again. *)
Lemma convert_back (d : D) :
  wf d = true → serial_ok d = Ret true →
  (∀ z, to_serial d = Ret z → lo' ≤ z ≤ hi') →
  ∃ e : E, convert d = Ret e ∧ wf e = true ∧ serial_ok e = Ret true ∧ convert e = Ret d.
Proof.
  intros W Hd Hr. destruct (to_serial_ok d W Hd) as (z & Tz & _ & Oz).
  destruct (of_serial_ok (D := E) z (Hr z Tz)) as (e & Oe & We & He & Te).
  exists e. unfold convert. rewrite Tz, Te, !outcome_bind_ret. done.
Qed.
End serial.

(** * A calendar of twelve months as a way to count days: the interface between the reference calendars and the classes of dates, and what follows from its laws for every such calendar. *)

(** The day number of the first day of each year, the number of days of a year before a month, and the
    lengths of the months. *)
Record Reckoning : Type := MkReckoning {
  year_start : Z → Z;
  days_before : Z → Z → Z;
  length_of : Z → Z → Z
}.

(** The first two follow from the lengths. *)
Class ReckoningLaws (R : Reckoning) := {
  length_range y m : 1 ≤ m ≤ 12 → 28 ≤ length_of R y m ≤ 31;
  days_before_first y : days_before R y 1 = 0;
  days_before_next y m : 1 ≤ m < 12 → days_before R y (m + 1) = days_before R y m + length_of R y m;
  year_start_next y : year_start R (y + 1) = year_start R y + days_before R y 12 + length_of R y 12
}.

(** The twelve months, for a proof by cases. *)
Ltac month_cases m :=
  let H := fresh in
  assert (m = 1 ∨ m = 2 ∨ m = 3 ∨ m = 4 ∨ m = 5 ∨ m = 6 ∨ m = 7 ∨ m = 8 ∨ m = 9
          ∨ m = 10 ∨ m = 11 ∨ m = 12) as H by lia;
  repeat destruct H as [->|H]; [..|subst m].

Section reckoning.
Context (R : Reckoning).

Definition day_number (y m d : Z) : Z := year_start R y + days_before R y m + (d - 1).

Definition valid_day (y m d : Z) : Prop := 1 ≤ m ≤ 12 ∧ 1 ≤ d ≤ length_of R y m.

(** The day after a day. *)
Definition next_day (y m d : Z) : Z * Z * Z :=
  if d <? length_of R y m then (y, m, d + 1)
  else if m <? 12 then (y, m + 1, 1)
  else (y + 1, 1, 1).

Lemma next_day_year y m d : let '(y', _, _) := next_day y m d in y ≤ y' ≤ y + 1.
Proof. unfold next_day. repeat case_match; simplify_eq; lia. Qed.

Context `{!ReckoningLaws R}.

Lemma next_day_number y m d :
  valid_day y m d →
  let '(y', m', d') := next_day y m d in
  valid_day y' m' d' ∧ day_number y' m' d' = day_number y m d + 1.
Proof.
  intros [Hm Hd]. unfold next_day, day_number.
  destruct (Z.ltb_spec d (length_of R y m)); [split; [split; lia | lia]|].
  destruct (Z.ltb_spec m 12).
  - pose proof (length_range (R := R) y (m + 1)). split; [split; lia|]. rewrite days_before_next by lia. lia.
  - assert (m = 12) as -> by lia. pose proof (length_range (R := R) (y + 1) 1). split; [split; lia|].
    rewrite days_before_first, year_start_next. lia.
Qed.

(** A month ends before a later one of the year begins. *)
Lemma days_before_later y m m' :
  1 ≤ m → m < m' ≤ 12 → days_before R y m + length_of R y m ≤ days_before R y m'.
Proof.
  intros Hm Hm'. assert (∃ n : nat, m' = m + 1 + Z.of_nat n) as [n ->]
    by (exists (Z.to_nat (m' - m - 1)); lia).
  induction n as [|n IH]; [rewrite Z.add_0_r, days_before_next by lia; lia|].
  replace (m + 1 + Z.of_nat (S n)) with (m + 1 + Z.of_nat n + 1) by lia.
  rewrite (days_before_next y (m + 1 + Z.of_nat n)) by lia.
  pose proof (length_range (R := R) y (m + 1 + Z.of_nat n)). lia.
Qed.

(** A year ends before a later one begins. *)
Lemma year_start_later y y' m :
  1 ≤ m ≤ 12 → y < y' → year_start R y + days_before R y m + length_of R y m ≤ year_start R y'.
Proof.
  intros Hm Hy.
  assert (year_start R y + days_before R y m + length_of R y m ≤ year_start R (y + 1)) as H1.
  { rewrite year_start_next. destruct (Z.eq_dec m 12) as [->|]; [lia|].
    pose proof (days_before_later y m 12). pose proof (length_range (R := R) y 12). lia. }
  assert (∃ n : nat, y' = y + 1 + Z.of_nat n) as [n ->] by (exists (Z.to_nat (y' - y - 1)); lia).
  etransitivity; [exact H1|]. clear H1 Hy.
  induction n as [|n IH]; [by rewrite Z.add_0_r|].
  replace (y + 1 + Z.of_nat (S n)) with (y + 1 + Z.of_nat n + 1) by lia.
  rewrite (year_start_next (y + 1 + Z.of_nat n)).
  pose proof (days_before_later (y + 1 + Z.of_nat n) 1 12).
  pose proof (length_range (R := R) (y + 1 + Z.of_nat n) 1).
  pose proof (length_range (R := R) (y + 1 + Z.of_nat n) 12). rewrite days_before_first in *. lia.
Qed.

(** The order of the fields is the order of the days. *)
Lemma day_number_mono y m d y' m' d' :
  valid_day y m d → valid_day y' m' d' →
  y < y' ∨ y = y' ∧ (m < m' ∨ m = m' ∧ d < d') → day_number y m d < day_number y' m' d'.
Proof.
  intros [Hm Hd] [Hm' Hd'] H. unfold day_number.
  destruct H as [Hy|[<- [Hmm|[<- Hdd]]]].
  - pose proof (year_start_later y y' m Hm Hy).
    assert (0 ≤ days_before R y' m').
    { destruct (Z.eq_dec m' 1) as [->|]; [by rewrite days_before_first|].
      pose proof (days_before_later y' 1 m'). pose proof (length_range (R := R) y' 1).
      rewrite days_before_first in *. lia. }
    lia.
  - pose proof (days_before_later y m m'). lia.
  - lia.
Qed.

Lemma day_number_lt y m d y' m' d' :
  valid_day y m d → valid_day y' m' d' →
  day_number y m d < day_number y' m' d' ↔ y < y' ∨ y = y' ∧ (m < m' ∨ m = m' ∧ d < d').
Proof.
  intros H H'. split; [|by apply day_number_mono]. intros Hlt.
  pose proof (day_number_mono y' m' d' y m d H' H) as Hgt.
  destruct (Z.lt_trichotomy y y') as [?|[<-|?]]; [by left | | lia].
  destruct (Z.lt_trichotomy m m') as [?|[<-|?]]; [auto | | lia].
  destruct (Z.lt_trichotomy d d') as [?|[<-|?]]; [auto | lia | lia].
Qed.

Lemma day_number_inj y m d y' m' d' :
  valid_day y m d → valid_day y' m' d' → day_number y m d = day_number y' m' d' →
  y = y' ∧ m = m' ∧ d = d'.
Proof.
  intros H H' E. pose proof (day_number_mono y m d y' m' d' H H').
  pose proof (day_number_mono y' m' d' y m d H' H). lia.
Qed.

(** So the lexicographic order of the fields computes it, and so does their equality. *)
Lemma lex_lt_day_number y m d y' m' d' :
  valid_day y m d → valid_day y' m' d' →
  lex_lt [y; m; d] [y'; m'; d'] = (day_number y m d <? day_number y' m' d').
Proof.
  intros H H'. apply Bool.eq_iff_eq_true. rewrite Z.ltb_lt, day_number_lt by done.
  cbn [lex_lt]. zb_cases; intuition (try discriminate; try lia).
Qed.

Lemma fields_eq_day_number y m d y' m' d' :
  valid_day y m d → valid_day y' m' d' →
  bool_decide ([y; m; d] = [y'; m'; d']) = (day_number y m d =? day_number y' m' d').
Proof.
  intros H H'. apply Bool.eq_iff_eq_true. rewrite bool_decide_eq_true, Z.eqb_eq. split.
  - by intros [= -> -> ->].
  - intros E. by destruct (day_number_inj _ _ _ _ _ _ H H' E) as (-> & -> & ->).
Qed.

(** The days from the first of a year to the last of another are those of the years between. *)
Lemma day_number_range lo hi y m d :
  valid_day y m d →
  lo ≤ y ≤ hi ↔ day_number lo 1 1 ≤ day_number y m d < day_number (hi + 1) 1 1.
Proof.
  intros H. assert (∀ k, valid_day k 1 1) as H1.
  { intros k. pose proof (length_range (R := R) k 1). split; lia. }
  pose proof (day_number_lt y m d lo 1 1 H (H1 lo)) as A.
  pose proof (day_number_lt y m d (hi + 1) 1 1 H (H1 (hi + 1))) as B.
  destruct H as [Hm Hd]. lia.
Qed.
End reckoning.

(** ** A class of dates that computes a calendar *)

Section serial.
Context {D : Type} `{!WellFormed D, !DateSerial D} (R : Reckoning) `{!ReckoningLaws R}.
Context (mk : Z → Z → Z → D) (lo hi : Z).

(** The first and the last day of the years from [lo] to [hi]. *)
Definition first_of : Z := day_number R lo 1 1.
Definition last_of : Z := day_number R (hi + 1) 1 1 - 1.

Lemma day_number_in y m d :
  valid_day R y m d → lo ≤ y ≤ hi ↔ first_of ≤ day_number R y m d ≤ last_of.
Proof. intros H. rewrite (day_number_range R lo hi y m d H). unfold first_of, last_of. lia. Qed.

Context (mk_fields : ∀ x, wf x = true → serial_ok x = Ret true →
  ∃ y m d, x = mk y m d ∧ lo ≤ y ≤ hi ∧ valid_day R y m d).
Context (mk_to : ∀ y m d, lo ≤ y ≤ hi → valid_day R y m d →
  wf (mk y m d) = true ∧ serial_ok (mk y m d) = Ret true
  ∧ to_serial (mk y m d) = Ret (day_number R y m d)).
Context (mk_of : ∀ z, first_of ≤ z ≤ last_of →
  ∃ y m d, of_serial z = Ret (mk y m d) ∧ valid_day R y m d ∧ day_number R y m d = z).

(** Then days and valid dates correspond one to one. *)
Lemma reckoning_serial_laws : DateSerialLaws D first_of last_of.
Proof.
  split.
  - intros x Hwf Hok. destruct (mk_fields x Hwf Hok) as (y & m & d & -> & Hy & Hv).
    destruct (mk_to y m d Hy Hv) as (_ & _ & Ht). exists (day_number R y m d).
    pose proof (proj1 (day_number_in y m d Hv) Hy) as Hr. split; [done|]. split; [done|].
    destruct (mk_of _ Hr) as (y' & m' & d' & Hf & Hv' & E).
    by destruct (day_number_inj R _ _ _ _ _ _ Hv' Hv E) as (-> & -> & ->).
  - intros z Hz. destruct (mk_of z Hz) as (y & m & d & Hf & Hv & E).
    assert (lo ≤ y ≤ hi) as Hy by (apply (day_number_in y m d Hv); lia).
    destruct (mk_to y m d Hy Hv) as (Hwf & Hok & Ht).
    exists (mk y m d). split; [done|]. split; [done|]. split; [done|]. by rewrite <- E.
Qed.
End serial.
