(* ===== verification/DateUnits.v ===== *)
(** DateUnits: the single fields of a date in include/date/date.h, [day], [month], [year],
    [weekday], [weekday_indexed] and [weekday_last], with their constructors, comparisons and
    arithmetic.

    A [days], [weeks], [months] or [years] is a [std::chrono::duration<int, ...>], modelled by
    its [int] count.  A field is a record of the byte or the [short] that the class stores; the
    constructor converts to that width.  An operation on [int]s that can leave the range is an
    [outcome].  [x += d] and the like return the new value of [*this]; [x++] returns the value of
    the expression and the new value of [*this]. *)

From Stdlib Require Import ZArith Lia.
From stdpp Require Import base list.
From S2P Require Import Prelude Calendar.

(** ** Durations and time points *)

(** [src: include/date/date.h 178-179 days] *)
Definition days : Type := Z.
(** [src: include/date/date.h 181-182 weeks] *)
Definition weeks : Type := Z.
(** [src: include/date/date.h 184-185 years] *)
Definition years : Type := Z.
(** [src: include/date/date.h 187-188 months] *)
Definition months : Type := Z.
(** A time point is its [time_since_epoch()]. [src: include/date/date.h 192-195 sys_days] *)
Definition sys_days : Type := Z.
(** [src: include/date/date.h 201-204 local_days] *)
Definition local_days : Type := Z.
(** The tag of [last]. [src: include/date/date.h 208-211 last_spec] *)
Inductive last_spec : Type := last.

(** Unary minus of a duration: the minus of its [int]. *)
Definition duration_neg (d : Z) : outcome Z := int_neg d.

(** ** day *)

(** [src: include/date/date.h 321-339 day] *)
Record day : Type := MkDay { day_d : Z }.

#[export] Instance day_eq_dec : EqDecision day.
Proof. solve_decision. Defined.

(** [src: include/date/date.h 1370-1370 day::day] *)
Definition day_ctor (d : Z) : day := MkDay (u8 d).

(** [src: include/date/date.h 1377-1377 day::operator unsigned] *)
Definition day_unsigned (this : day) : Z := day_d this.

(** [src: include/date/date.h 1378-1378 day::ok] *)
Definition day_ok (this : day) : bool := (1 <=? day_d this) && (day_d this <=? 31).

(** [src: include/date/date.h 1380-1386 operator==] *)
Definition day_eq (x y : day) : bool :=
  day_unsigned x =? day_unsigned y.

(** [src: include/date/date.h 1388-1394 operator!=] *)
Definition day_ne (x y : day) : bool := negb (day_eq x y).

(** [src: include/date/date.h 1396-1402 operator<] *)
Definition day_lt (x y : day) : bool :=
  day_unsigned x <? day_unsigned y.

(** [src: include/date/date.h 1404-1410 operator>] *)
Definition day_gt (x y : day) : bool := day_lt y x.

(** [src: include/date/date.h 1412-1418 operator<=] *)
Definition day_le (x y : day) : bool := negb (day_lt y x).

(** [src: include/date/date.h 1420-1426 operator>=] *)
Definition day_ge (x y : day) : bool := negb (day_lt x y).

#[export] Instance day_relational : Relational day :=
  { rel_eq := day_eq; rel_ne := day_ne; rel_lt := day_lt; rel_gt := day_gt;
     rel_le := day_le; rel_ge := day_ge }.

(** [src: include/date/date.h 1428-1435 operator-] *)
Definition day_minus_day (x y : day) : days := i32 (uint_sub (day_unsigned x) (day_unsigned y)).

(** [src: include/date/date.h 1437-1443 operator+] *)
Definition day_plus_days (x : day) (y : days) : day :=
  day_ctor (uint_add (day_unsigned x) (u32 y)).

(** [src: include/date/date.h 1445-1451 operator+] *)
Definition days_plus_day (x : days) (y : day) : day := day_plus_days y x.

(** [src: include/date/date.h 1453-1459 operator-] *)
Definition day_minus_days (x : day) (y : days) : outcome day :=
  y' ← duration_neg y; Ret (day_plus_days x y').

(** [src: include/date/date.h 1371-1371 day::operator++] *)
Definition day_pre_inc (this : day) : day := MkDay (u8 (day_d this + 1)).

(** [src: include/date/date.h 1372-1372 day::operator++] *)
Definition day_post_inc (this : day) : day * day := (this, day_pre_inc this).

(** [src: include/date/date.h 1373-1373 day::operator--] *)
Definition day_pre_dec (this : day) : day := MkDay (u8 (day_d this - 1)).

(** [src: include/date/date.h 1374-1374 day::operator--] *)
Definition day_post_dec (this : day) : day * day := (this, day_pre_dec this).

(** [src: include/date/date.h 1375-1375 day::operator+=] *)
Definition day_add_assign (this : day) (d : days) : day := day_plus_days this d.

(** [src: include/date/date.h 1376-1376 day::operator-=] *)
Definition day_sub_assign (this : day) (d : days) : outcome day := day_minus_days this d.

(** [src: include/date/date.h 1868-1874 _d] *)
Definition day_literal (d : Z) : day := day_ctor (u32 d).

(** ** month *)

(** [src: include/date/date.h 359-377 month] *)
Record month : Type := MkMonth { month_m : Z }.

#[export] Instance month_eq_dec : EqDecision month.
Proof. solve_decision. Defined.

(** [src: include/date/date.h 1478-1478 month::month] *)
Definition month_ctor (m : Z) : month := MkMonth (u8 m).

(** [src: include/date/date.h 1502-1502 month::operator unsigned] *)
Definition month_unsigned (this : month) : Z := month_m this.

(** [src: include/date/date.h 1503-1503 month::ok] *)
Definition month_ok (this : month) : bool := (1 <=? month_m this) && (month_m this <=? 12).

(** [src: include/date/date.h 1505-1511 operator==] *)
Definition month_eq (x y : month) : bool :=
  month_unsigned x =? month_unsigned y.

(** [src: include/date/date.h 1513-1519 operator!=] *)
Definition month_ne (x y : month) : bool := negb (month_eq x y).

(** [src: include/date/date.h 1521-1527 operator<] *)
Definition month_lt (x y : month) : bool :=
  month_unsigned x <? month_unsigned y.

(** [src: include/date/date.h 1529-1535 operator>] *)
Definition month_gt (x y : month) : bool := month_lt y x.

(** [src: include/date/date.h 1537-1543 operator<=] *)
Definition month_le (x y : month) : bool := negb (month_lt y x).

(** [src: include/date/date.h 1545-1551 operator>=] *)
Definition month_ge (x y : month) : bool := negb (month_lt x y).

#[export] Instance month_relational : Relational month :=
  { rel_eq := month_eq; rel_ne := month_ne; rel_lt := month_lt; rel_gt := month_gt;
     rel_le := month_le; rel_ge := month_ge }.

(** The distance forward from [y] to [x] around the year.
    [src: include/date/date.h 1553-1560 operator-] *)
Definition month_minus_month (x y : month) : months :=
  let d := uint_sub (month_unsigned x) (month_unsigned y) in
  i32 (if d <=? 11 then d else uint_add d 12).

(** The sum is taken in [long long], where it cannot overflow.
    [src: include/date/date.h 1562-1570 operator+] *)
Definition month_plus_months (x : month) (y : months) : month :=
  let mu := month_unsigned x + y - 1 in
  let yr := c_div (if 0 <=? mu then mu else mu - 11) 12 in
  month_ctor (u32 (mu - yr * 12 + 1)).

(** [src: include/date/date.h 1572-1578 operator+] *)
Definition months_plus_month (x : months) (y : month) : month := month_plus_months y x.

(** [src: include/date/date.h 1580-1586 operator-] *)
Definition month_minus_months (x : month) (y : months) : outcome month :=
  y' ← duration_neg y; Ret (month_plus_months x y').

(** [src: include/date/date.h 1484-1491 month::operator+=] *)
Definition month_add_assign (this : month) (m : months) : month := month_plus_months this m.

(** [src: include/date/date.h 1493-1500 month::operator-=] *)
Definition month_sub_assign (this : month) (m : months) : outcome month := month_minus_months this m.

(** [src: include/date/date.h 1479-1479 month::operator++] *)
Definition month_pre_inc (this : month) : month := month_add_assign this 1.

(** [src: include/date/date.h 1480-1480 month::operator++] *)
Definition month_post_inc (this : month) : month * month := (this, month_pre_inc this).

(** [src: include/date/date.h 1481-1481 month::operator--] *)
Definition month_pre_dec (this : month) : outcome month := month_sub_assign this 1.

(** [src: include/date/date.h 1482-1482 month::operator--] *)
Definition month_post_dec (this : month) : outcome (month * month) :=
  this' ← month_pre_dec this; Ret (this, this').

(** ** year *)

(** [src: include/date/date.h 397-423 year] *)
Record year : Type := MkYear { year_y : Z }.

#[export] Instance year_eq_dec : EqDecision year.
Proof. solve_decision. Defined.

(** [src: include/date/date.h 1605-1605 year::year] *)
Definition year_ctor (y : Z) : year := MkYear (i16 y).

(** [src: include/date/date.h 421-421 year::min] *)
Definition year_min : year := year_ctor (-32767).

(** [src: include/date/date.h 422-422 year::max] *)
Definition year_max : year := year_ctor 32767.

(** [src: include/date/date.h 1623-1623 year::operator int] *)
Definition year_int (this : year) : Z := year_y this.

(** [src: include/date/date.h 1625-1631 year::ok] *)
Definition year_ok (this : year) : bool := negb (year_y this =? -32768).

(** [src: include/date/date.h 1615-1621 year::is_leap] *)
Definition year_is_leap (this : year) : bool :=
  (c_rem (year_y this) 4 =? 0)
  && (negb (c_rem (year_y this) 100 =? 0) || (c_rem (year_y this) 400 =? 0)).

(** [src: include/date/date.h 1606-1606 year::operator++] *)
Definition year_pre_inc (this : year) : year := MkYear (i16 (year_y this + 1)).

(** [src: include/date/date.h 1608-1608 year::operator--] *)
Definition year_pre_dec (this : year) : year := MkYear (i16 (year_y this - 1)).

(** [src: include/date/date.h 1607-1607 year::operator++] *)
Definition year_post_inc (this : year) : year * year := (this, year_pre_inc this).

(** [src: include/date/date.h 1609-1609 year::operator--] *)
Definition year_post_dec (this : year) : year * year := (this, year_pre_dec this).

(** The operand is a [short]: its negation is an [int].
    [src: include/date/date.h 1612-1612 year::operator-] *)
Definition year_neg (this : year) : year := year_ctor (- year_y this).

(** [src: include/date/date.h 1613-1613 year::operator+] *)
Definition year_pos (this : year) : year := this.

(** [src: include/date/date.h 1633-1639 operator==] *)
Definition year_eq (x y : year) : bool :=
  year_int x =? year_int y.

(** [src: include/date/date.h 1641-1647 operator!=] *)
Definition year_ne (x y : year) : bool := negb (year_eq x y).

(** [src: include/date/date.h 1649-1655 operator<] *)
Definition year_lt (x y : year) : bool :=
  year_int x <? year_int y.

(** [src: include/date/date.h 1657-1663 operator>] *)
Definition year_gt (x y : year) : bool := year_lt y x.

(** [src: include/date/date.h 1665-1671 operator<=] *)
Definition year_le (x y : year) : bool := negb (year_lt y x).

(** [src: include/date/date.h 1673-1679 operator>=] *)
Definition year_ge (x y : year) : bool := negb (year_lt x y).

#[export] Instance year_relational : Relational year :=
  { rel_eq := year_eq; rel_ne := year_ne; rel_lt := year_lt; rel_gt := year_gt;
     rel_le := year_le; rel_ge := year_ge }.

(** [src: include/date/date.h 1681-1687 operator-] *)
Definition year_minus_year (x y : year) : years := year_int x - year_int y.

(** [src: include/date/date.h 1689-1695 operator+] *)
Definition year_plus_years (x : year) (y : years) : outcome year :=
  s ← int_add (year_int x) y; Ret (year_ctor s).

(** [src: include/date/date.h 1697-1703 operator+] *)
Definition years_plus_year (x : years) (y : year) : outcome year := year_plus_years y x.

(** [src: include/date/date.h 1705-1711 operator-] *)
Definition year_minus_years (x : year) (y : years) : outcome year :=
  s ← int_sub (year_int x) y; Ret (year_ctor s).

(** [src: include/date/date.h 1610-1610 year::operator+=] *)
Definition year_add_assign (this : year) (y : years) : outcome year := year_plus_years this y.

(** [src: include/date/date.h 1611-1611 year::operator-=] *)
Definition year_sub_assign (this : year) (y : years) : outcome year := year_minus_years this y.

(** [src: include/date/date.h 1876-1882 _y] *)
Definition year_literal (y : Z) : year := year_ctor (i32 y).

(** ** weekday *)

(** Sunday is 0.  [src: include/date/date.h 443-478 weekday] *)
Record weekday : Type := MkWeekday { weekday_wd : Z }.

#[export] Instance weekday_eq_dec : EqDecision weekday.
Proof. solve_decision. Defined.

(** [src: include/date/date.h 1731-1738 weekday::weekday_from_days] *)
Definition weekday_from_days (z : Z) : Z :=
  let u := u32 z in
  u8 (if -4 <=? z then uint_add u 4 mod 7 else u mod 7).

(** [src: include/date/date.h 1740-1744 weekday::weekday] *)
Definition weekday_ctor (wd : Z) : weekday := MkWeekday (u8 (if negb (wd =? 7) then wd else 0)).

(** [src: include/date/date.h 1746-1750 weekday::weekday] *)
Definition weekday_of_sys_days (dp : sys_days) : weekday := MkWeekday (weekday_from_days dp).

(** [src: include/date/date.h 1752-1756 weekday::weekday] *)
Definition weekday_of_local_days (dp : local_days) : weekday := MkWeekday (weekday_from_days dp).

(** [src: include/date/date.h 1781-1781 weekday::ok] *)
Definition weekday_ok (this : weekday) : bool := weekday_wd this <=? 6.

(** [src: include/date/date.h 1783-1788 weekday::c_encoding] *)
Definition weekday_c_encoding (this : weekday) : Z := weekday_wd this.

(** [src: include/date/date.h 1790-1795 weekday::iso_encoding] *)
Definition weekday_iso_encoding (this : weekday) : Z :=
  if weekday_wd this =? 0 then 7 else weekday_wd this.

(** [src: include/date/date.h 1797-1803 operator==] *)
Definition weekday_eq (x y : weekday) : bool :=
  weekday_wd x =? weekday_wd y.

(** [src: include/date/date.h 1805-1811 operator!=] *)
Definition weekday_ne (x y : weekday) : bool := negb (weekday_eq x y).

(** The distance forward from [y] to [x] around the week.
    [src: include/date/date.h 1813-1821 operator-] *)
Definition weekday_minus_weekday (x y : weekday) : days :=
  let wdu := weekday_wd x - weekday_wd y in
  let wk := c_div (if 0 <=? wdu then wdu else wdu - 6) 7 in
  wdu - wk * 7.

(** [src: include/date/date.h 1823-1831 operator+] *)
Definition weekday_plus_days (x : weekday) (y : days) : weekday :=
  let wdu := weekday_wd x + y in
  let wk := c_div (if 0 <=? wdu then wdu else wdu - 6) 7 in
  weekday_ctor (u32 (wdu - wk * 7)).

(** [src: include/date/date.h 1833-1839 operator+] *)
Definition days_plus_weekday (x : days) (y : weekday) : weekday := weekday_plus_days y x.

(** [src: include/date/date.h 1841-1847 operator-] *)
Definition weekday_minus_days (x : weekday) (y : days) : outcome weekday :=
  y' ← duration_neg y; Ret (weekday_plus_days x y').

(** [src: include/date/date.h 1763-1770 weekday::operator+=] *)
Definition weekday_add_assign (this : weekday) (d : days) : weekday := weekday_plus_days this d.

(** [src: include/date/date.h 1772-1779 weekday::operator-=] *)
Definition weekday_sub_assign (this : weekday) (d : days) : outcome weekday := weekday_minus_days this d.

(** [src: include/date/date.h 1758-1758 weekday::operator++] *)
Definition weekday_pre_inc (this : weekday) : weekday := weekday_add_assign this 1.

(** [src: include/date/date.h 1759-1759 weekday::operator++] *)
Definition weekday_post_inc (this : weekday) : weekday * weekday := (this, weekday_pre_inc this).

(** [src: include/date/date.h 1760-1760 weekday::operator--] *)
Definition weekday_pre_dec (this : weekday) : outcome weekday := weekday_sub_assign this 1.

(** [src: include/date/date.h 1761-1761 weekday::operator--] *)
Definition weekday_post_dec (this : weekday) : outcome (weekday * weekday) :=
  this' ← weekday_pre_dec this; Ret (this, this').

(** ** weekday_indexed and weekday_last *)

(** Two bit fields of four bits.  [src: include/date/date.h 494-506 weekday_indexed] *)
Record weekday_indexed : Type := MkWeekdayIndexed { wdi_wd : Z; wdi_index_ : Z }.

#[export] Instance weekday_indexed_eq_dec : EqDecision weekday_indexed.
Proof. solve_decision. Defined.

(** [src: include/date/date.h 1958-1963 weekday_indexed::weekday_indexed] *)
Definition weekday_indexed_ctor (wd : weekday) (index : Z) : weekday_indexed :=
  MkWeekdayIndexed (uwrap 4 (u8 (weekday_wd wd))) (uwrap 4 (u8 index)).

(** [src: include/date/date.h 1935-1941 weekday_indexed::weekday] *)
Definition wdi_weekday (this : weekday_indexed) : weekday := weekday_ctor (wdi_wd this).

(** [src: include/date/date.h 1943-1943 weekday_indexed::index] *)
Definition wdi_index (this : weekday_indexed) : Z := wdi_index_ this.

(** [src: include/date/date.h 1945-1951 weekday_indexed::ok] *)
Definition wdi_ok (this : weekday_indexed) : bool :=
  weekday_ok (wdi_weekday this) && (1 <=? wdi_index_ this) && (wdi_index_ this <=? 5).

(** [src: include/date/date.h 1981-1987 weekday::operator[](unsigned)] *)
Definition weekday_at (this : weekday) (index : Z) : weekday_indexed :=
  weekday_indexed_ctor this index.

(** [src: include/date/date.h 1989-1995 operator==] *)
Definition wdi_eq (x y : weekday_indexed) : bool :=
  weekday_eq (wdi_weekday x) (wdi_weekday y) && (wdi_index x =? wdi_index y).

(** [src: include/date/date.h 1997-2003 operator!=] *)
Definition wdi_ne (x y : weekday_indexed) : bool := negb (wdi_eq x y).

(** [src: include/date/date.h 517-526 weekday_last] *)
Record weekday_last : Type := MkWeekdayLast { wdl_wd : weekday }.

#[export] Instance weekday_last_eq_dec : EqDecision weekday_last.
Proof. solve_decision. Defined.

(** [src: include/date/date.h 2009-2009 weekday_last::weekday_last] *)
Definition weekday_last_ctor (wd : weekday) : weekday_last := MkWeekdayLast wd.

(** [src: include/date/date.h 2007-2007 weekday_last::weekday] *)
Definition wdl_weekday (this : weekday_last) : weekday := wdl_wd this.

(** [src: include/date/date.h 2008-2008 weekday_last::ok] *)
Definition wdl_ok (this : weekday_last) : bool := weekday_ok (wdl_wd this).

(** [src: include/date/date.h 2035-2041 weekday::operator[](last_spec)] *)
Definition weekday_at_last (this : weekday) (_ : last_spec) : weekday_last :=
  weekday_last_ctor this.

(** [src: include/date/date.h 2011-2017 operator==] *)
Definition wdl_eq (x y : weekday_last) : bool :=
  weekday_eq (wdl_weekday x) (wdl_weekday y).

(** [src: include/date/date.h 2019-2025 operator!=] *)
Definition wdl_ne (x y : weekday_last) : bool := negb (wdl_eq x y).

(** ** Constants *)

(** [src: include/date/date.h 1887-1887 jan] *)
Definition jan : month := month_ctor 1.

(** [src: include/date/date.h 1888-1888 feb] *)
Definition feb : month := month_ctor 2.

(** [src: include/date/date.h 1889-1889 mar] *)
Definition mar : month := month_ctor 3.

(** [src: include/date/date.h 1890-1890 apr] *)
Definition apr : month := month_ctor 4.

(** [src: include/date/date.h 1891-1891 may] *)
Definition may : month := month_ctor 5.

(** [src: include/date/date.h 1892-1892 jun] *)
Definition jun : month := month_ctor 6.

(** [src: include/date/date.h 1893-1893 jul] *)
Definition jul : month := month_ctor 7.

(** [src: include/date/date.h 1894-1894 aug] *)
Definition aug : month := month_ctor 8.

(** [src: include/date/date.h 1895-1895 sep] *)
Definition sep : month := month_ctor 9.

(** [src: include/date/date.h 1896-1896 oct] *)
Definition oct : month := month_ctor 10.

(** [src: include/date/date.h 1897-1897 nov] *)
Definition nov : month := month_ctor 11.

(** [src: include/date/date.h 1898-1898 dec] *)
Definition dec : month := month_ctor 12.

(** [src: include/date/date.h 1900-1900 sun] *)
Definition sun : weekday := weekday_ctor 0.

(** [src: include/date/date.h 1901-1901 mon] *)
Definition mon : weekday := weekday_ctor 1.

(** [src: include/date/date.h 1902-1902 tue] *)
Definition tue : weekday := weekday_ctor 2.

(** [src: include/date/date.h 1903-1903 wed] *)
Definition wed : weekday := weekday_ctor 3.

(** [src: include/date/date.h 1904-1904 thu] *)
Definition thu : weekday := weekday_ctor 4.

(** [src: include/date/date.h 1905-1905 fri] *)
Definition fri : weekday := weekday_ctor 5.

(** [src: include/date/date.h 1906-1906 sat] *)
Definition sat : weekday := weekday_ctor 6.

(** [src: include/date/date.h 1912-1912 January] *)
Definition January : month := month_ctor 1.

(** [src: include/date/date.h 1913-1913 February] *)
Definition February : month := month_ctor 2.

(** [src: include/date/date.h 1914-1914 March] *)
Definition March : month := month_ctor 3.

(** [src: include/date/date.h 1915-1915 April] *)
Definition April : month := month_ctor 4.

(** [src: include/date/date.h 1916-1916 May] *)
Definition May : month := month_ctor 5.

(** [src: include/date/date.h 1917-1917 June] *)
Definition June : month := month_ctor 6.

(** [src: include/date/date.h 1918-1918 July] *)
Definition July : month := month_ctor 7.

(** [src: include/date/date.h 1919-1919 August] *)
Definition August : month := month_ctor 8.

(** [src: include/date/date.h 1920-1920 September] *)
Definition September : month := month_ctor 9.

(** [src: include/date/date.h 1921-1921 October] *)
Definition October : month := month_ctor 10.

(** [src: include/date/date.h 1922-1922 November] *)
Definition November : month := month_ctor 11.

(** [src: include/date/date.h 1923-1923 December] *)
Definition December : month := month_ctor 12.

(** [src: include/date/date.h 1925-1925 Monday] *)
Definition Monday : weekday := weekday_ctor 1.

(** [src: include/date/date.h 1926-1926 Tuesday] *)
Definition Tuesday : weekday := weekday_ctor 2.

(** [src: include/date/date.h 1927-1927 Wednesday] *)
Definition Wednesday : weekday := weekday_ctor 3.

(** [src: include/date/date.h 1928-1928 Thursday] *)
Definition Thursday : weekday := weekday_ctor 4.

(** [src: include/date/date.h 1929-1929 Friday] *)
Definition Friday : weekday := weekday_ctor 5.

(** [src: include/date/date.h 1930-1930 Saturday] *)
Definition Saturday : weekday := weekday_ctor 6.

(** [src: include/date/date.h 1931-1931 Sunday] *)
Definition Sunday : weekday := weekday_ctor 7.
