(* ===== verification/DateFields.v ===== *)
(** DateFields: the pairs of fields of include/date/date.h, [year_month], [month_day],
    [month_day_last], [month_weekday] and [month_weekday_last], and the [operator/]s that
    build them. *)

From Stdlib Require Import ZArith Lia.
From stdpp Require Import base list.
From S2P Require Import Prelude Memory Calendar DateUnits.

(** ** year_month *)

(** [src: include/date/date.h 544-564 year_month] *)
Record year_month : Type := MkYearMonth { ym_y : year; ym_m : month }.

#[export] Instance year_month_eq_dec : EqDecision year_month.
Proof. solve_decision. Defined.

(** [src: include/date/date.h 2045-2050 year_month::year_month] *)
Definition year_month_ctor (y : year) (m : month) : year_month := MkYearMonth y m.

(** [src: include/date/date.h 2052-2052 year_month::year] *)
Definition ym_year (this : year_month) : year := ym_y this.

(** [src: include/date/date.h 2053-2053 year_month::month] *)
Definition ym_month (this : year_month) : month := ym_m this.

(** [src: include/date/date.h 2054-2054 year_month::ok] *)
Definition ym_ok (this : year_month) : bool := year_ok (ym_y this) && month_ok (ym_m this).

(** [src: include/date/date.h 3323-3329 operator/] *)
Definition year_div_month (y : year) (m : month) : year_month := year_month_ctor y m.

(** [src: include/date/date.h 3331-3337 operator/] *)
Definition year_div_int (y : year) (m : Z) : year_month := year_div_month y (month_ctor (u32 m)).

(** [src: include/date/date.h 2094-2100 operator==] *)
Definition ym_eq (x y : year_month) : bool :=
  year_eq (ym_year x) (ym_year y) && month_eq (ym_month x) (ym_month y).

(** [src: include/date/date.h 2102-2108 operator!=] *)
Definition ym_ne (x y : year_month) : bool := negb (ym_eq x y).

(** [src: include/date/date.h 2110-2118 operator<] *)
Definition ym_lt (x y : year_month) : bool :=
  if year_lt (ym_year x) (ym_year y) then true
  else if year_gt (ym_year x) (ym_year y) then false
  else month_lt (ym_month x) (ym_month y).

(** [src: include/date/date.h 2120-2126 operator>] *)
Definition ym_gt (x y : year_month) : bool := ym_lt y x.

(** [src: include/date/date.h 2128-2134 operator<=] *)
Definition ym_le (x y : year_month) : bool := negb (ym_lt y x).

(** [src: include/date/date.h 2136-2142 operator>=] *)
Definition ym_ge (x y : year_month) : bool := negb (ym_lt x y).

#[export] Instance ym_relational : Relational year_month :=
  { rel_eq := ym_eq; rel_ne := ym_ne; rel_lt := ym_lt; rel_gt := ym_gt;
     rel_le := ym_le; rel_ge := ym_ge }.

(** [src: include/date/date.h 2144-2154 operator+] *)
Definition ym_plus_months (ym : year_month) (dm : months) : outcome year_month :=
  dmi ← int_add (i32 (month_unsigned (ym_month ym)) - 1) dm;
  n ← (if 0 <=? dmi then Ret dmi else int_sub dmi 11);
  let dy := c_div n 12 in
  dy12 ← int_mul dy 12;
  r ← int_sub dmi dy12;
  dmi' ← int_add r 1;
  y ← year_plus_years (ym_year ym) dy;
  Ret (year_div_month y (month_ctor (u32 dmi'))).

(** [src: include/date/date.h 2156-2163 operator+] *)
Definition months_plus_ym (dm : months) (ym : year_month) : outcome year_month :=
  ym_plus_months ym dm.

(** [src: include/date/date.h 2165-2172 operator-] *)
Definition ym_minus_months (ym : year_month) (dm : months) : outcome year_month :=
  dm' ← duration_neg dm; ym_plus_months ym dm'.

(** The years are converted to months, twelve each, before the sum.
    [src: include/date/date.h 2174-2181 operator-] *)
Definition ym_minus_ym (x y : year_month) : outcome months :=
  int_add (i32 (year_minus_year (ym_year x) (ym_year y) * 12))
    (i32 (uint_sub (month_unsigned (ym_month x)) (month_unsigned (ym_month y)))).

(** [src: include/date/date.h 2183-2189 operator+] *)
Definition ym_plus_years (ym : year_month) (dy : years) : outcome year_month :=
  y ← year_plus_years (ym_year ym) dy; Ret (year_div_month y (ym_month ym)).

(** [src: include/date/date.h 2191-2197 operator+] *)
Definition years_plus_ym (dy : years) (ym : year_month) : outcome year_month :=
  ym_plus_years ym dy.

(** [src: include/date/date.h 2199-2205 operator-] *)
Definition ym_minus_years (ym : year_month) (dy : years) : outcome year_month :=
  dy' ← duration_neg dy; ym_plus_years ym dy'.

(** [src: include/date/date.h 2056-2064 year_month::operator+=] *)
Definition ym_add_assign_months (this : year_month) (dm : months) : outcome year_month := ym_plus_months this dm.

(** [src: include/date/date.h 2066-2074 year_month::operator-=] *)
Definition ym_sub_assign_months (this : year_month) (dm : months) : outcome year_month := ym_minus_months this dm.

(** [src: include/date/date.h 2076-2083 year_month::operator+=] *)
Definition ym_add_assign_years (this : year_month) (dy : years) : outcome year_month := ym_plus_years this dy.

(** [src: include/date/date.h 2085-2092 year_month::operator-=] *)
Definition ym_sub_assign_years (this : year_month) (dy : years) : outcome year_month := ym_minus_years this dy.

(** ** month_day *)

(** [src: include/date/date.h 591-604 month_day] *)
Record month_day : Type := MkMonthDay { md_m : month; md_d : day }.

#[export] Instance month_day_eq_dec : EqDecision month_day.
Proof. solve_decision. Defined.

(** [src: include/date/date.h 2217-2222 month_day::month_day] *)
Definition month_day_ctor (m : month) (d : day) : month_day := MkMonthDay m d.

(** [src: include/date/date.h 2224-2224 month_day::month] *)
Definition md_month (this : month_day) : month := md_m this.

(** [src: include/date/date.h 2225-2225 month_day::day] *)
Definition md_day (this : month_day) : day := md_d this.

(** The greatest length of each month. [src: include/date/date.h 2232-2238 month_day::ok] *)
Definition month_day_ok_d : list day :=
  [day_ctor 31; day_ctor 29; day_ctor 31;
   day_ctor 30; day_ctor 31; day_ctor 30;
   day_ctor 31; day_ctor 31; day_ctor 30;
   day_ctor 31; day_ctor 30; day_ctor 31].

(** The table is read only when the first two tests hold.
    [src: include/date/date.h 2227-2240 month_day::ok] *)
Definition md_ok (this : month_day) : outcome bool :=
  if month_ok (md_m this) && day_le (day_ctor 1) (md_d this) then
    last_day ← arr_get month_day_ok_d (uint_sub (month_unsigned (md_m this)) 1);
    Ret (day_le (md_d this) last_day)
  else Ret false.

(** [src: include/date/date.h 2242-2248 operator==] *)
Definition md_eq (x y : month_day) : bool :=
  month_eq (md_month x) (md_month y) && day_eq (md_day x) (md_day y).

(** [src: include/date/date.h 2250-2256 operator!=] *)
Definition md_ne (x y : month_day) : bool := negb (md_eq x y).

(** [src: include/date/date.h 2258-2266 operator<] *)
Definition md_lt (x y : month_day) : bool :=
  if month_lt (md_month x) (md_month y) then true
  else if month_gt (md_month x) (md_month y) then false
  else day_lt (md_day x) (md_day y).

(** [src: include/date/date.h 2268-2274 operator>] *)
Definition md_gt (x y : month_day) : bool := md_lt y x.

(** [src: include/date/date.h 2276-2282 operator<=] *)
Definition md_le (x y : month_day) : bool := negb (md_lt y x).

(** [src: include/date/date.h 2284-2290 operator>=] *)
Definition md_ge (x y : month_day) : bool := negb (md_lt x y).

#[export] Instance md_relational : Relational month_day :=
  { rel_eq := md_eq; rel_ne := md_ne; rel_lt := md_lt; rel_gt := md_gt;
     rel_le := md_le; rel_ge := md_ge }.

(** [src: include/date/date.h 3341-3347 operator/] *)
Definition month_div_day (m : month) (d : day) : month_day := month_day_ctor m d.

(** [src: include/date/date.h 3349-3355 operator/] *)
Definition day_div_month (d : day) (m : month) : month_day := month_div_day m d.

(** [src: include/date/date.h 3357-3363 operator/] *)
Definition month_div_int (m : month) (d : Z) : month_day := month_div_day m (day_ctor (u32 d)).

(** [src: include/date/date.h 3365-3371 operator/] *)
Definition int_div_day (m : Z) (d : day) : month_day := month_div_day (month_ctor (u32 m)) d.

(** [src: include/date/date.h 3373-3373 operator/] *)
Definition day_div_int (d : day) (m : Z) : month_day := int_div_day m d.

(** ** month_day_last *)

(** [src: include/date/date.h 619-628 month_day_last] *)
Record month_day_last : Type := MkMonthDayLast { mdl_m : month }.

#[export] Instance month_day_last_eq_dec : EqDecision month_day_last.
Proof. solve_decision. Defined.

(** [src: include/date/date.h 2304-2304 month_day_last::month_day_last] *)
Definition month_day_last_ctor (m : month) : month_day_last := MkMonthDayLast m.

(** [src: include/date/date.h 2302-2302 month_day_last::month] *)
Definition mdl_month (this : month_day_last) : month := mdl_m this.

(** [src: include/date/date.h 2303-2303 month_day_last::ok] *)
Definition mdl_ok (this : month_day_last) : bool := month_ok (mdl_m this).

(** [src: include/date/date.h 2306-2312 operator==] *)
Definition mdl_eq (x y : month_day_last) : bool :=
  month_eq (mdl_month x) (mdl_month y).

(** [src: include/date/date.h 2314-2320 operator!=] *)
Definition mdl_ne (x y : month_day_last) : bool := negb (mdl_eq x y).

(** [src: include/date/date.h 2322-2328 operator<] *)
Definition mdl_lt (x y : month_day_last) : bool :=
  month_lt (mdl_month x) (mdl_month y).

(** [src: include/date/date.h 2330-2336 operator>] *)
Definition mdl_gt (x y : month_day_last) : bool := mdl_lt y x.

(** [src: include/date/date.h 2338-2344 operator<=] *)
Definition mdl_le (x y : month_day_last) : bool := negb (mdl_lt y x).

(** [src: include/date/date.h 2346-2352 operator>=] *)
Definition mdl_ge (x y : month_day_last) : bool := negb (mdl_lt x y).

#[export] Instance mdl_relational : Relational month_day_last :=
  { rel_eq := mdl_eq; rel_ne := mdl_ne; rel_lt := mdl_lt; rel_gt := mdl_gt;
     rel_le := mdl_le; rel_ge := mdl_ge }.

(** [src: include/date/date.h 3377-3383 operator/] *)
Definition month_div_last (m : month) (_ : last_spec) : month_day_last := month_day_last_ctor m.

(** [src: include/date/date.h 3385-3391 operator/] *)
Definition last_div_month (_ : last_spec) (m : month) : month_day_last := month_div_last m last.

(** [src: include/date/date.h 3393-3399 operator/] *)
Definition int_div_last (m : Z) (_ : last_spec) : month_day_last :=
  month_div_last (month_ctor (u32 m)) last.

(** [src: include/date/date.h 3401-3407 operator/] *)
Definition last_div_int (_ : last_spec) (m : Z) : month_day_last := int_div_last m last.

(** ** month_weekday *)

(** [src: include/date/date.h 643-655 month_weekday] *)
Record month_weekday : Type := MkMonthWeekday { mwd_m : month; mwd_wdi : weekday_indexed }.

(** [src: include/date/date.h 2364-2370 month_weekday::month_weekday] *)
Definition month_weekday_ctor (m : month) (wdi : weekday_indexed) : month_weekday :=
  MkMonthWeekday m wdi.

(** [src: include/date/date.h 2372-2372 month_weekday::month] *)
Definition mwd_month (this : month_weekday) : month := mwd_m this.

(** [src: include/date/date.h 2374-2380 month_weekday::weekday_indexed] *)
Definition mwd_weekday_indexed (this : month_weekday) : weekday_indexed := mwd_wdi this.

(** [src: include/date/date.h 2382-2388 month_weekday::ok] *)
Definition mwd_ok (this : month_weekday) : bool := month_ok (mwd_m this) && wdi_ok (mwd_wdi this).

(** [src: include/date/date.h 2390-2396 operator==] *)
Definition mwd_eq (x y : month_weekday) : bool :=
  month_eq (mwd_month x) (mwd_month y)
  && wdi_eq (mwd_weekday_indexed x) (mwd_weekday_indexed y).

(** [src: include/date/date.h 2398-2404 operator!=] *)
Definition mwd_ne (x y : month_weekday) : bool := negb (mwd_eq x y).

(** [src: include/date/date.h 3411-3417 operator/] *)
Definition month_div_wdi (m : month) (wdi : weekday_indexed) : month_weekday :=
  month_weekday_ctor m wdi.

(** [src: include/date/date.h 3419-3425 operator/] *)
Definition wdi_div_month (wdi : weekday_indexed) (m : month) : month_weekday :=
  month_div_wdi m wdi.

(** [src: include/date/date.h 3427-3433 operator/] *)
Definition int_div_wdi (m : Z) (wdi : weekday_indexed) : month_weekday :=
  month_div_wdi (month_ctor (u32 m)) wdi.

(** [src: include/date/date.h 3435-3441 operator/] *)
Definition wdi_div_int (wdi : weekday_indexed) (m : Z) : month_weekday := int_div_wdi m wdi.

(** ** month_weekday_last *)

(** [src: include/date/date.h 666-679 month_weekday_last] *)
Record month_weekday_last : Type :=
  MkMonthWeekdayLast { mwdl_m : month; mwdl_wdl : weekday_last }.

(** [src: include/date/date.h 2416-2422 month_weekday_last::month_weekday_last] *)
Definition month_weekday_last_ctor (m : month) (wdl : weekday_last) : month_weekday_last :=
  MkMonthWeekdayLast m wdl.

(** [src: include/date/date.h 2424-2424 month_weekday_last::month] *)
Definition mwdl_month (this : month_weekday_last) : month := mwdl_m this.

(** [src: include/date/date.h 2426-2432 month_weekday_last::weekday_last] *)
Definition mwdl_weekday_last (this : month_weekday_last) : weekday_last := mwdl_wdl this.

(** [src: include/date/date.h 2434-2440 month_weekday_last::ok] *)
Definition mwdl_ok (this : month_weekday_last) : bool :=
  month_ok (mwdl_m this) && wdl_ok (mwdl_wdl this).

(** [src: include/date/date.h 2442-2448 operator==] *)
Definition mwdl_eq (x y : month_weekday_last) : bool :=
  month_eq (mwdl_month x) (mwdl_month y)
  && wdl_eq (mwdl_weekday_last x) (mwdl_weekday_last y).

(** [src: include/date/date.h 2450-2456 operator!=] *)
Definition mwdl_ne (x y : month_weekday_last) : bool := negb (mwdl_eq x y).

(** [src: include/date/date.h 3445-3451 operator/] *)
Definition month_div_wdl (m : month) (wdl : weekday_last) : month_weekday_last :=
  month_weekday_last_ctor m wdl.

(** [src: include/date/date.h 3453-3459 operator/] *)
Definition wdl_div_month (wdl : weekday_last) (m : month) : month_weekday_last :=
  month_div_wdl m wdl.

(** [src: include/date/date.h 3461-3467 operator/] *)
Definition int_div_wdl (m : Z) (wdl : weekday_last) : month_weekday_last :=
  month_div_wdl (month_ctor (u32 m)) wdl.

(** [src: include/date/date.h 3469-3475 operator/] *)
Definition wdl_div_int (wdl : weekday_last) (m : Z) : month_weekday_last := int_div_wdl m wdl.
