(* ===== verification/DateYmw.v ===== *)
(** DateYmw: [year_month_weekday] (the n-th given weekday of a month) and
    [year_month_weekday_last] of include/date/date.h, their conversions to and from serial day
    numbers, and the arithmetic of months and years. *)

From Stdlib Require Import ZArith Lia.
From stdpp Require Import base list.
From S2P Require Import Prelude Memory Calendar DateUnits DateFields DateYmd.

(** ** year_month_weekday *)

(** [src: include/date/date.h 822-855 year_month_weekday] *)
Record year_month_weekday : Type :=
  MkYearMonthWeekday { ymwd_y : year; ymwd_m : month; ymwd_wdi : weekday_indexed }.

#[export] Instance year_month_weekday_eq_dec : EqDecision year_month_weekday.
Proof. solve_decision. Defined.

(** [src: include/date/date.h 2932-2940 year_month_weekday::year_month_weekday] *)
Definition year_month_weekday_ctor (y : year) (m : month) (wdi : weekday_indexed)
    : year_month_weekday := MkYearMonthWeekday y m wdi.

(** [src: include/date/date.h 2992-2992 year_month_weekday::year] *)
Definition ymwd_year (this : year_month_weekday) : year := ymwd_y this.

(** [src: include/date/date.h 2993-2993 year_month_weekday::month] *)
Definition ymwd_month (this : year_month_weekday) : month := ymwd_m this.

(** [src: include/date/date.h 2995-3001 year_month_weekday::weekday] *)
Definition ymwd_weekday (this : year_month_weekday) : weekday := wdi_weekday (ymwd_wdi this).

(** [src: include/date/date.h 3003-3009 year_month_weekday::index] *)
Definition ymwd_index (this : year_month_weekday) : Z := wdi_index (ymwd_wdi this).

(** [src: include/date/date.h 3011-3017 year_month_weekday::weekday_indexed] *)
Definition ymwd_weekday_indexed (this : year_month_weekday) : weekday_indexed := ymwd_wdi this.

(** [src: include/date/date.h 3068-3075 operator==] *)
Definition ymwd_eq (x y : year_month_weekday) : bool :=
  year_eq (ymwd_year x) (ymwd_year y) && month_eq (ymwd_month x) (ymwd_month y)
  && wdi_eq (ymwd_weekday_indexed x) (ymwd_weekday_indexed y).

(** [src: include/date/date.h 3077-3083 operator!=] *)
Definition ymwd_ne (x y : year_month_weekday) : bool := negb (ymwd_eq x y).

(** A fifth weekday exists when its day is not past the end of the month.
    [src: include/date/date.h 3033-3045 year_month_weekday::ok] *)
Definition ymwd_ok (this : year_month_weekday) : outcome bool :=
  if negb (year_ok (ymwd_y this)) || negb (month_ok (ymwd_m this))
     || negb (weekday_ok (wdi_weekday (ymwd_wdi this))) || (wdi_index (ymwd_wdi this) <? 1)
  then Ret false
  else if wdi_index (ymwd_wdi this) <=? 4 then Ret true
  else
    let ym := year_div_month (ymwd_y this) (ymwd_m this) in
    first ← ymd_sys_days (ym_div_int ym 1);
    d2 ← int_add
           (weekday_minus_weekday (wdi_weekday (ymwd_wdi this)) (weekday_of_sys_days first))
           (i32 (uint_add (uint_mul (uint_sub (wdi_index (ymwd_wdi this)) 1) 7) 1));
    last_day ← ymdl_day (ym_div_last ym last);
    Ret (u32 d2 <=? day_unsigned last_day).

(** [src: include/date/date.h 3047-3056 year_month_weekday::from_days] *)
Definition ymwd_from_days (d : days) : outcome year_month_weekday :=
  let dp : sys_days := d in
  let wd := weekday_of_sys_days dp in
  ymd ← ymd_of_sys_days dp;
  Ret (year_month_weekday_ctor (ymd_year ymd) (ymd_month ymd)
         (weekday_at wd (uint_add (uint_sub (day_unsigned (ymd_day ymd)) 1 / 7) 1))).

(** [src: include/date/date.h 3058-3066 year_month_weekday::to_days] *)
Definition ymwd_to_days (this : year_month_weekday) : outcome days :=
  d ← ymd_sys_days (ym_div_int (year_div_month (ymwd_y this) (ymwd_m this)) 1);
  s ← int_add (weekday_minus_weekday (wdi_weekday (ymwd_wdi this)) (weekday_of_sys_days d))
        (i32 (uint_mul (uint_sub (wdi_index (ymwd_wdi this)) 1) 7));
  int_add d s.

(** [src: include/date/date.h 3019-3024 year_month_weekday::operator sys_days] *)
Definition ymwd_sys_days (this : year_month_weekday) : outcome sys_days := ymwd_to_days this.

(** [src: include/date/date.h 3026-3031 year_month_weekday::operator local_days] *)
Definition ymwd_local_days (this : year_month_weekday) : outcome local_days := ymwd_to_days this.

(** [src: include/date/date.h 2942-2946 year_month_weekday::year_month_weekday] *)
Definition ymwd_of_sys_days (dp : sys_days) : outcome year_month_weekday := ymwd_from_days dp.

(** [src: include/date/date.h 2948-2952 year_month_weekday::year_month_weekday] *)
Definition ymwd_of_local_days (dp : local_days) : outcome year_month_weekday := ymwd_from_days dp.

#[export] Instance ymwd_serial : DateSerial year_month_weekday :=
  { serial_ok := ymwd_ok; to_serial := ymwd_sys_days; of_serial := ymwd_of_sys_days }.

(** [src: include/date/date.h 3571-3577 operator/] *)
Definition ym_div_wdi (ym : year_month) (wdi : weekday_indexed) : year_month_weekday :=
  year_month_weekday_ctor (ym_year ym) (ym_month ym) wdi.

(** [src: include/date/date.h 3579-3585 operator/] *)
Definition year_div_mwd (y : year) (mwd : month_weekday) : year_month_weekday :=
  year_month_weekday_ctor y (mwd_month mwd) (mwd_weekday_indexed mwd).

(** [src: include/date/date.h 3587-3593 operator/] *)
Definition int_div_mwd (y : Z) (mwd : month_weekday) : year_month_weekday :=
  year_div_mwd (year_ctor y) mwd.

(** [src: include/date/date.h 3595-3601 operator/] *)
Definition mwd_div_year (mwd : month_weekday) (y : year) : year_month_weekday :=
  year_div_mwd y mwd.

(** [src: include/date/date.h 3603-3609 operator/] *)
Definition mwd_div_int (mwd : month_weekday) (y : Z) : year_month_weekday :=
  year_div_mwd (year_ctor y) mwd.

(** [src: include/date/date.h 3094-3101 operator+] *)
Definition ymwd_plus_months (ymwd : year_month_weekday) (dm : months)
    : outcome year_month_weekday :=
  ym ← ym_plus_months (year_div_month (ymwd_year ymwd) (ymwd_month ymwd)) dm;
  Ret (ym_div_wdi ym (ymwd_weekday_indexed ymwd)).

(** [src: include/date/date.h 3103-3110 operator+] *)
Definition months_plus_ymwd (dm : months) (ymwd : year_month_weekday)
    : outcome year_month_weekday := ymwd_plus_months ymwd dm.

(** [src: include/date/date.h 3112-3119 operator-] *)
Definition ymwd_minus_months (ymwd : year_month_weekday) (dm : months)
    : outcome year_month_weekday := dm' ← duration_neg dm; ymwd_plus_months ymwd dm'.

(** [src: include/date/date.h 3121-3127 operator+] *)
Definition ymwd_plus_years (ymwd : year_month_weekday) (dy : years)
    : outcome year_month_weekday :=
  y ← year_plus_years (ymwd_year ymwd) dy;
  Ret (year_month_weekday_ctor y (ymwd_month ymwd) (ymwd_weekday_indexed ymwd)).

(** [src: include/date/date.h 3129-3135 operator+] *)
Definition years_plus_ymwd (dy : years) (ymwd : year_month_weekday)
    : outcome year_month_weekday := ymwd_plus_years ymwd dy.

(** [src: include/date/date.h 3137-3143 operator-] *)
Definition ymwd_minus_years (ymwd : year_month_weekday) (dy : years)
    : outcome year_month_weekday := dy' ← duration_neg dy; ymwd_plus_years ymwd dy'.

(** [src: include/date/date.h 2954-2962 year_month_weekday::operator+=] *)
Definition ymwd_add_assign_months (this : year_month_weekday) (m : months) : outcome year_month_weekday := ymwd_plus_months this m.

(** [src: include/date/date.h 2964-2972 year_month_weekday::operator-=] *)
Definition ymwd_sub_assign_months (this : year_month_weekday) (m : months) : outcome year_month_weekday := ymwd_minus_months this m.

(** [src: include/date/date.h 2974-2981 year_month_weekday::operator+=] *)
Definition ymwd_add_assign_years (this : year_month_weekday) (y : years) : outcome year_month_weekday := ymwd_plus_years this y.

(** [src: include/date/date.h 2983-2990 year_month_weekday::operator-=] *)
Definition ymwd_sub_assign_years (this : year_month_weekday) (y : years) : outcome year_month_weekday := ymwd_minus_years this y.

(** ** year_month_weekday_last *)

(** [src: include/date/date.h 895-923 year_month_weekday_last] *)
Record year_month_weekday_last : Type :=
  MkYearMonthWeekdayLast { ymwdl_y : year; ymwdl_m : month; ymwdl_wdl : weekday_last }.

#[export] Instance year_month_weekday_last_eq_dec : EqDecision year_month_weekday_last.
Proof. solve_decision. Defined.

(** [src: include/date/date.h 3147-3155 year_month_weekday_last::year_month_weekday_last] *)
Definition year_month_weekday_last_ctor (y : year) (m : month) (wdl : weekday_last)
    : year_month_weekday_last := MkYearMonthWeekdayLast y m wdl.

(** [src: include/date/date.h 3195-3195 year_month_weekday_last::year] *)
Definition ymwdl_year (this : year_month_weekday_last) : year := ymwdl_y this.

(** [src: include/date/date.h 3196-3196 year_month_weekday_last::month] *)
Definition ymwdl_month (this : year_month_weekday_last) : month := ymwdl_m this.

(** [src: include/date/date.h 3198-3204 year_month_weekday_last::weekday] *)
Definition ymwdl_weekday (this : year_month_weekday_last) : weekday :=
  wdl_weekday (ymwdl_wdl this).

(** [src: include/date/date.h 3206-3212 year_month_weekday_last::weekday_last] *)
Definition ymwdl_weekday_last (this : year_month_weekday_last) : weekday_last := ymwdl_wdl this.

(** [src: include/date/date.h 3228-3234 year_month_weekday_last::ok] *)
Definition ymwdl_ok (this : year_month_weekday_last) : bool :=
  year_ok (ymwdl_y this) && month_ok (ymwdl_m this) && wdl_ok (ymwdl_wdl this).

(** [src: include/date/date.h 3236-3243 year_month_weekday_last::to_days] *)
Definition ymwdl_to_days (this : year_month_weekday_last) : outcome days :=
  d ← ymdl_sys_days (ym_div_last (year_div_month (ymwdl_y this) (ymwdl_m this)) last);
  int_sub d (weekday_minus_weekday (weekday_of_sys_days d) (wdl_weekday (ymwdl_wdl this))).

(** [src: include/date/date.h 3214-3219 year_month_weekday_last::operator sys_days] *)
Definition ymwdl_sys_days (this : year_month_weekday_last) : outcome sys_days :=
  ymwdl_to_days this.

(** [src: include/date/date.h 3221-3226 year_month_weekday_last::operator local_days] *)
Definition ymwdl_local_days (this : year_month_weekday_last) : outcome local_days :=
  ymwdl_to_days this.

(** [src: include/date/date.h 3245-3252 operator==] *)
Definition ymwdl_eq (x y : year_month_weekday_last) : bool :=
  year_eq (ymwdl_year x) (ymwdl_year y) && month_eq (ymwdl_month x) (ymwdl_month y)
  && wdl_eq (ymwdl_weekday_last x) (ymwdl_weekday_last y).

(** [src: include/date/date.h 3254-3260 operator!=] *)
Definition ymwdl_ne (x y : year_month_weekday_last) : bool := negb (ymwdl_eq x y).

(** [src: include/date/date.h 3613-3619 operator/] *)
Definition ym_div_wdl (ym : year_month) (wdl : weekday_last) : year_month_weekday_last :=
  year_month_weekday_last_ctor (ym_year ym) (ym_month ym) wdl.

(** [src: include/date/date.h 3621-3627 operator/] *)
Definition year_div_mwdl (y : year) (mwdl : month_weekday_last) : year_month_weekday_last :=
  year_month_weekday_last_ctor y (mwdl_month mwdl) (mwdl_weekday_last mwdl).

(** [src: include/date/date.h 3629-3635 operator/] *)
Definition int_div_mwdl (y : Z) (mwdl : month_weekday_last) : year_month_weekday_last :=
  year_div_mwdl (year_ctor y) mwdl.

(** [src: include/date/date.h 3637-3643 operator/] *)
Definition mwdl_div_year (mwdl : month_weekday_last) (y : year) : year_month_weekday_last :=
  year_div_mwdl y mwdl.

(** [src: include/date/date.h 3645-3651 operator/] *)
Definition mwdl_div_int (mwdl : month_weekday_last) (y : Z) : year_month_weekday_last :=
  year_div_mwdl (year_ctor y) mwdl.

(** [src: include/date/date.h 3270-3277 operator+] *)
Definition ymwdl_plus_months (ymwdl : year_month_weekday_last) (dm : months)
    : outcome year_month_weekday_last :=
  ym ← ym_plus_months (year_div_month (ymwdl_year ymwdl) (ymwdl_month ymwdl)) dm;
  Ret (ym_div_wdl ym (ymwdl_weekday_last ymwdl)).

(** [src: include/date/date.h 3279-3286 operator+] *)
Definition months_plus_ymwdl (dm : months) (ymwdl : year_month_weekday_last)
    : outcome year_month_weekday_last := ymwdl_plus_months ymwdl dm.

(** [src: include/date/date.h 3288-3295 operator-] *)
Definition ymwdl_minus_months (ymwdl : year_month_weekday_last) (dm : months)
    : outcome year_month_weekday_last := dm' ← duration_neg dm; ymwdl_plus_months ymwdl dm'.

(** [src: include/date/date.h 3297-3303 operator+] *)
Definition ymwdl_plus_years (ymwdl : year_month_weekday_last) (dy : years)
    : outcome year_month_weekday_last :=
  y ← year_plus_years (ymwdl_year ymwdl) dy;
  Ret (year_month_weekday_last_ctor y (ymwdl_month ymwdl) (ymwdl_weekday_last ymwdl)).

(** [src: include/date/date.h 3305-3311 operator+] *)
Definition years_plus_ymwdl (dy : years) (ymwdl : year_month_weekday_last)
    : outcome year_month_weekday_last := ymwdl_plus_years ymwdl dy.

(** [src: include/date/date.h 3313-3319 operator-] *)
Definition ymwdl_minus_years (ymwdl : year_month_weekday_last) (dy : years)
    : outcome year_month_weekday_last := dy' ← duration_neg dy; ymwdl_plus_years ymwdl dy'.

(** [src: include/date/date.h 3157-3165 year_month_weekday_last::operator+=] *)
Definition ymwdl_add_assign_months (this : year_month_weekday_last) (m : months) : outcome year_month_weekday_last := ymwdl_plus_months this m.

(** [src: include/date/date.h 3167-3175 year_month_weekday_last::operator-=] *)
Definition ymwdl_sub_assign_months (this : year_month_weekday_last) (m : months) : outcome year_month_weekday_last := ymwdl_minus_months this m.

(** [src: include/date/date.h 3177-3184 year_month_weekday_last::operator+=] *)
Definition ymwdl_add_assign_years (this : year_month_weekday_last) (y : years) : outcome year_month_weekday_last := ymwdl_plus_years this y.

(** [src: include/date/date.h 3186-3193 year_month_weekday_last::operator-=] *)
Definition ymwdl_sub_assign_years (this : year_month_weekday_last) (y : years) : outcome year_month_weekday_last := ymwdl_minus_years this y.
