(* ===== verification/Civil.v ===== *)
(** Civil: the proleptic Gregorian calendar as a reference, independent of the code.

    [month_length] says how long each month is and [civil_succ] which day follows which; the
    months are numbered from March of the year 0 and [month_start n] is the number of days before
    month [n].  The closed form [civil_days] is proved to be 0 at the epoch and to grow by one
    from a day to the next, which determines it. *)

From Stdlib Require Import ZArith Lia.
From stdpp Require Import base list.
From S2P Require Import Prelude.

Definition leap (y : Z) : bool :=
  (y mod 4 =? 0) && (negb (y mod 100 =? 0) || (y mod 400 =? 0)).

Definition month_length (y m : Z) : Z :=
  if m =? 2 then if leap y then 29 else 28
  else if (m =? 4) || (m =? 6) || (m =? 9) || (m =? 11) then 30 else 31.

Definition civil_valid (y m d : Z) : Prop := 1 ≤ m ≤ 12 ∧ 1 ≤ d ≤ month_length y m.

(** The day after. *)
Definition civil_succ (y m d : Z) : Z * Z * Z :=
  if d <? month_length y m then (y, m, d + 1)
  else if m <? 12 then (y, m + 1, 1) else (y + 1, 1, 1).

(** Days before the first of March of year [k], counted from the first of March of the year 0. *)
Definition march_start (k : Z) : Z := 365 * k + k / 4 - k / 100 + k / 400.

(** Days before the month [mp] months after March. *)
Definition month_offset (mp : Z) : Z := (153 * mp + 2) / 5.

Definition month_start (n : Z) : Z := march_start (n / 12) + month_offset (n mod 12).

(** The number of a month. *)
Definition month_index (y m : Z) : Z := 12 * y + m - 3.

(** Days since 1970-01-01. *)
Definition civil_days (y m d : Z) : Z := month_start (month_index y m) + (d - 1) - 719468.

Lemma month_length_bounds y m : 28 ≤ month_length y m ≤ 31.
Proof. unfold month_length. repeat case_match; lia. Qed.

Lemma march_start_step k : march_start (k + 1) - march_start k = if leap (k + 1) then 366 else 365.
Proof.
  unfold march_start, leap.
  assert ((k + 1) / 4 = k / 4 + (if (k + 1) mod 4 =? 0 then 1 else 0)) as ->
    by (destruct (Z.eqb_spec ((k + 1) mod 4) 0); div_lia).
  assert ((k + 1) / 100 = k / 100 + (if (k + 1) mod 100 =? 0 then 1 else 0)) as ->
    by (destruct (Z.eqb_spec ((k + 1) mod 100) 0); div_lia).
  assert ((k + 1) / 400 = k / 400 + (if (k + 1) mod 400 =? 0 then 1 else 0)) as ->
    by (destruct (Z.eqb_spec ((k + 1) mod 400) 0); div_lia).
  assert ((k + 1) mod 400 = 0 → (k + 1) mod 100 = 0) by div_lia.
  assert ((k + 1) mod 100 = 0 → (k + 1) mod 4 = 0) by div_lia.
  destruct (Z.eqb_spec ((k + 1) mod 4) 0), (Z.eqb_spec ((k + 1) mod 100) 0),
    (Z.eqb_spec ((k + 1) mod 400) 0); simpl; lia.
Qed.

(** The calendar repeats every 400 years, which have 146097 days. *)
Lemma march_start_era era k : march_start (era * 400 + k) = 146097 * era + march_start k.
Proof. unfold march_start. div_lia. Qed.

Lemma leap_mod y : leap y = leap (y mod 400).
Proof.
  unfold leap. rewrite Z.mod_mod by lia.
  assert (y mod 400 mod 4 = y mod 4) as -> by div_lia.
  assert (y mod 400 mod 100 = y mod 100) as -> by div_lia. done.
Qed.

(** The months follow each other: month [m] of year [y] has [month_length y m] days. *)
Lemma month_start_step y m :
  1 ≤ m ≤ 12 →
  month_start (month_index y m + 1) = month_start (month_index y m) + month_length y m.
Proof.
  intros Hm. unfold month_start, month_index.
  destruct (Z.eq_dec m 2) as [->|Hm2].
  - assert ((12 * y + 2 - 3 + 1) / 12 = y) as -> by div_lia.
    assert ((12 * y + 2 - 3 + 1) mod 12 = 0) as -> by div_lia.
    assert ((12 * y + 2 - 3) / 12 = y - 1) as -> by div_lia.
    assert ((12 * y + 2 - 3) mod 12 = 11) as -> by div_lia.
    pose proof (march_start_step (y - 1)) as E.
    replace (y - 1 + 1) with y in E by lia.
    change (month_offset 0) with 0. change (month_offset 11) with 337.
    unfold month_length. simpl. destruct (leap y); lia.
  - assert (((12 * y + m - 3 + 1) / 12) = (12 * y + m - 3) / 12) as -> by div_lia.
    assert ((12 * y + m - 3 + 1) mod 12 = (12 * y + m - 3) mod 12 + 1) as -> by div_lia.
    assert (∀ r, r = (12 * y + m - 3) mod 12 → m = (r + 2) mod 12 + 1) as Hr by (intros; div_lia).
    assert (0 ≤ (12 * y + m - 3) mod 12 < 12) as Hb by (apply Z.mod_pos_bound; lia).
    specialize (Hr _ eq_refl). revert Hr Hb.
    generalize ((12 * y + m - 3) mod 12). intros r -> Hb.
    cut (month_offset (r + 1) = month_offset r + month_length y ((r + 2) mod 12 + 1)); [lia|].
    assert (r = 0 ∨ r = 1 ∨ r = 2 ∨ r = 3 ∨ r = 4 ∨ r = 5 ∨ r = 6 ∨ r = 7 ∨ r = 8 ∨ r = 9
            ∨ r = 10 ∨ r = 11) as H by lia.
    repeat destruct H as [->|H]; try reflexivity.
    subst r. by destruct Hm2.
Qed.

Lemma month_index_decode n : ∃ y m, 1 ≤ m ≤ 12 ∧ n = month_index y m.
Proof.
  exists ((n + 2) / 12), ((n + 2) mod 12 + 1). unfold month_index. split; div_lia.
Qed.

Lemma month_index_inj y m y' m' :
  1 ≤ m ≤ 12 → 1 ≤ m' ≤ 12 → month_index y m = month_index y' m' → y = y' ∧ m = m'.
Proof. unfold month_index. lia. Qed.

Lemma month_start_lt n n' : n < n' → month_start n + 28 ≤ month_start n'.
Proof.
  intros H. remember (Z.to_nat (n' - n - 1)) as k eqn:Hk.
  assert (n' = n + 1 + Z.of_nat k) as -> by lia. clear H Hk.
  assert (∀ j, month_start j + 28 ≤ month_start (j + 1)) as Hstep.
  { intros j. destruct (month_index_decode j) as (y & m & Hm & ->).
    rewrite month_start_step by done. pose proof (month_length_bounds y m). lia. }
  induction k as [|k IH].
  - rewrite Z.add_0_r. apply Hstep.
  - specialize (Hstep (n + 1 + Z.of_nat k)).
    replace (n + 1 + Z.of_nat (S k)) with (n + 1 + Z.of_nat k + 1) by lia. lia.
Qed.

(** ** What determines [civil_days] *)

Lemma civil_days_epoch : civil_days 1970 1 1 = 0.
Proof. reflexivity. Qed.

Lemma civil_days_succ y m d :
  civil_valid y m d →
  let '(y', m', d') := civil_succ y m d in
  civil_valid y' m' d' ∧ civil_days y' m' d' = civil_days y m d + 1.
Proof.
  intros [Hm Hd]. unfold civil_succ.
  pose proof (month_start_step y m Hm) as E.
  destruct (Z.ltb_spec d (month_length y m)); [|destruct (Z.ltb_spec m 12)].
  - split; [split; lia | unfold civil_days; lia].
  - pose proof (month_length_bounds y (m + 1)). split; [split; lia|].
    unfold civil_days. replace (month_index y (m + 1)) with (month_index y m + 1)
      by (unfold month_index; lia). lia.
  - assert (m = 12) as -> by lia. split; [split; [lia | reflexivity || (unfold month_length; simpl; lia)]|].
    unfold civil_days. replace (month_index (y + 1) 1) with (month_index y 12 + 1)
      by (unfold month_index; lia). lia.
Qed.

(** Later dates have greater day numbers. *)
Lemma civil_days_lt y m d y' m' d' :
  civil_valid y m d → civil_valid y' m' d' →
  civil_days y m d < civil_days y' m' d' ↔ y < y' ∨ (y = y' ∧ (m < m' ∨ (m = m' ∧ d < d'))).
Proof.
  assert (∀ y m d y' m' d', civil_valid y m d → civil_valid y' m' d' →
            month_index y m < month_index y' m' → civil_days y m d < civil_days y' m' d') as Hlt.
  { clear. intros y m d y' m' d' [Hm Hd] [Hm' Hd'] H. unfold civil_days.
    pose proof (month_start_step y m Hm).
    destruct (Z.eq_dec (month_index y m + 1) (month_index y' m')) as [E|E].
    - rewrite <- E. lia.
    - pose proof (month_start_lt (month_index y m + 1) (month_index y' m')). lia. }
  intros H H'. pose proof (Hlt _ _ _ _ _ _ H H') as A. pose proof (Hlt _ _ _ _ _ _ H' H) as B.
  destruct H as [Hm Hd], H' as [Hm' Hd'].
  destruct (Z.lt_trichotomy (month_index y m) (month_index y' m')) as [C|[C|C]].
  - specialize (A C). unfold month_index in C. lia.
  - destruct (month_index_inj _ _ _ _ Hm Hm' C) as [-> ->]. unfold civil_days. lia.
  - specialize (B C). unfold month_index in C. lia.
Qed.

Lemma civil_days_inj y m d y' m' d' :
  civil_valid y m d → civil_valid y' m' d' →
  civil_days y m d = civil_days y' m' d' → y = y' ∧ m = m' ∧ d = d'.
Proof.
  intros H H' E.
  pose proof (civil_days_lt _ _ _ _ _ _ H H'). pose proof (civil_days_lt _ _ _ _ _ _ H' H).
  destruct (Z.lt_trichotomy y y') as [?|[?|?]], (Z.lt_trichotomy m m') as [?|[?|?]],
    (Z.lt_trichotomy d d') as [?|[?|?]]; lia.
Qed.

(** ** Splitting a day number *)

(** The year within an era, from the day of the era. *)
Definition year_of_era (doe : Z) : Z := (doe - doe / 1460 + doe / 36524 - doe / 146096) / 365.

Lemma year_of_era_bounds k :
  0 ≤ k < 400 →
  let S := march_start k in let E := march_start (k + 1) - 1 in
  365 * k ≤ S - S / 1460 + S / 36524 - S / 146096 ∧
  E - E / 1460 + E / 36524 - E / 146096 < 365 * (k + 1) ∧
  (E < 146096 ∨ k = 399).
Proof.
  intros Hk S E.
  assert (all_between (λ k, let S := march_start k in let E := march_start (k + 1) - 1 in
    (365 * k <=? S - S / 1460 + S / 36524 - S / 146096)
    && (E - E / 1460 + E / 36524 - E / 146096 <? 365 * (k + 1))
    && ((E <? 146096) || (k =? 399))) 0 400 = true) as H by (vm_compute; reflexivity).
  apply (all_between_spec _ _ _ H k) in Hk. clear H. cbv zeta in Hk. fold S E in Hk.
  zb_prop; lia.
Qed.

Lemma year_of_era_spec k doe :
  0 ≤ k < 400 → march_start k ≤ doe < march_start (k + 1) → year_of_era doe = k.
Proof.
  intros Hk Hd. destruct (year_of_era_bounds k Hk) as (H1 & H2 & H3). cbv zeta in *.
  unfold year_of_era. set (S := march_start k) in *. set (E := march_start (k + 1) - 1) in *.
  assert (0 ≤ S) by (unfold S, march_start; div_lia).
  assert (E ≤ 146096) as HE.
  { destruct H3 as [H3| ->]; [lia|]. vm_compute. discriminate. }
  assert (∀ a b, 0 ≤ a → a ≤ b → b < 146096 →
     a - a / 1460 + a / 36524 - a / 146096 ≤ b - b / 1460 + b / 36524 - b / 146096) as Hmono.
  { intros a b Ha Hab Hb. div_lia. }
  assert (365 * k ≤ doe - doe / 1460 + doe / 36524 - doe / 146096 < 365 * (k + 1)) as Hf.
  { destruct (Z.eq_dec doe 146096) as [->|Hn].
    - assert (k = 399) as -> by (destruct H3; lia). vm_compute. split; [discriminate | reflexivity].
    - pose proof (Hmono S doe). destruct (Z.eq_dec E 146096) as [E'|E'].
      + assert (k = 399) as -> by lia. pose proof (Hmono doe 146095).
        change (146095 - 146095 / 1460 + 146095 / 36524 - 146095 / 146096) with 145998 in *. lia.
      + pose proof (Hmono doe E). lia. }
  symmetry. apply Z.div_unique with (r := doe - doe / 1460 + doe / 36524 - doe / 146096 - 365 * k); lia.
Qed.

(** The month of a March-based year, from the day of that year. *)
Lemma month_of_year doy :
  0 ≤ doy ≤ 365 →
  let mp := (5 * doy + 2) / 153 in
  0 ≤ mp ≤ 11 ∧ month_offset mp ≤ doy ∧ (mp < 11 → doy < month_offset (mp + 1)).
Proof.
  intros Hd. cbv zeta. unfold month_offset. split; [div_lia|]. split; [div_lia|].
  intros. div_lia.
Qed.

(** Every day number is the one of exactly one date. *)
Lemma civil_days_surj z :
  ∃ y m d, civil_valid y m d ∧ civil_days y m d = z.
Proof.
  set (x := z + 719468).
  assert (∃ n, month_start n ≤ x < month_start (n + 1)) as (n & Hn).
  { assert (∀ i, 0 ≤ i → month_start (- i) ≤ - 28 * i ∧ 28 * i ≤ month_start i) as Hb.
    { intros i Hi. destruct (Z.eq_dec i 0) as [->|]; [by vm_compute|].
      unfold month_start, march_start, month_offset. split; div_lia. }
    destruct (Hb (Z.abs x) ltac:(lia)) as [Hlo _]. destruct (Hb (Z.abs x + 1) ltac:(lia)) as [_ Hhi].
    destruct (step_between month_start (- Z.abs x) (Z.abs x + 1) x) as (k & _ & Hk); try lia.
    by exists k. }
  destruct (month_index_decode n) as (y & m & Hm & ->).
  rewrite month_start_step in Hn by done.
  exists y, m, (x - month_start (month_index y m) + 1). unfold civil_valid, civil_days. lia.
Qed.

(** The date of a day number: era, year of the era, day of the year, month. *)
Definition civil_of_days (z : Z) : Z * Z * Z :=
  let x := z + 719468 in
  let era := x / 146097 in
  let doe := x mod 146097 in
  let yoe := year_of_era doe in
  let doy := doe - (365 * yoe + yoe / 4 - yoe / 100) in
  let mp := (5 * doy + 2) / 153 in
  let d := doy - month_offset mp + 1 in
  let m := if mp <? 10 then mp + 3 else mp - 9 in
  (yoe + era * 400 + (if m <=? 2 then 1 else 0), m, d).

(** What the intermediate values of [civil_of_days] are. *)
Lemma civil_of_days_steps z :
  let x := z + 719468 in
  let doe := x mod 146097 in
  let yoe := year_of_era doe in
  let doy := doe - (365 * yoe + yoe / 4 - yoe / 100) in
  let mp := (5 * doy + 2) / 153 in
  0 ≤ doe < 146097 ∧ 0 ≤ yoe < 400 ∧ 0 ≤ doy ≤ 365 ∧ 0 ≤ mp ≤ 11 ∧
  0 ≤ doy - month_offset mp ≤ 30 ∧
  march_start yoe + doy = doe ∧
  month_start (12 * (yoe + x / 146097 * 400) + mp) ≤ x
    < month_start (12 * (yoe + x / 146097 * 400) + mp + 1).
Proof.
  intros x doe yoe doy mp.
  assert (0 ≤ doe < 146097) as Hdoe by (apply Z.mod_pos_bound; lia).
  destruct (step_between march_start 0 400 doe) as (k & Hk & Hs);
    [lia | change (march_start 0) with 0; change (march_start 400) with 146097; lia |].
  assert (yoe = k) as Ek by (apply year_of_era_spec; lia).
  assert (march_start k = 365 * k + k / 4 - k / 100) as Em.
  { unfold march_start. rewrite (Z.div_small k 400) by lia. lia. }
  assert (doy = doe - march_start k) as Edoy by (unfold doy; rewrite Ek; lia).
  pose proof (march_start_step k) as Hlen.
  assert (0 ≤ doy ≤ 365) as Hdoy by (destruct (leap (k + 1)); lia).
  destruct (month_of_year doy Hdoy) as (Hmp & Ho & Ho'). fold mp in Hmp, Ho, Ho'.
  assert (doy - month_offset mp ≤ 30) by (unfold month_offset, mp; div_lia).
  assert (x = 146097 * (x / 146097) + doe) as Ex by (unfold doe; apply Z.div_mod; lia).
  assert (march_start (yoe + x / 146097 * 400) = 146097 * (x / 146097) + march_start k) as Ey.
  { rewrite Ek. rewrite <- march_start_era. f_equal. lia. }
  assert (march_start (yoe + x / 146097 * 400 + 1)
          = 146097 * (x / 146097) + march_start (k + 1)) as Ey'.
  { rewrite Ek. rewrite <- march_start_era. f_equal. lia. }
  do 5 (split; [lia|]). split; [rewrite Ek; lia|].
  generalize dependent (yoe + x / 146097 * 400). intros Y Ey Ey'.
  unfold month_start.
  assert ((12 * Y + mp) / 12 = Y) as -> by div_lia.
  assert ((12 * Y + mp) mod 12 = mp) as -> by div_lia. rewrite Ey. split; [lia|].
  destruct (Z.eq_dec mp 11) as [E|E].
  - assert ((12 * Y + mp + 1) / 12 = Y + 1) as -> by div_lia.
    assert ((12 * Y + mp + 1) mod 12 = 0) as -> by div_lia. rewrite Ey'.
    change (month_offset 0) with 0. lia.
  - assert ((12 * Y + mp + 1) / 12 = Y) as -> by div_lia.
    assert ((12 * Y + mp + 1) mod 12 = mp + 1) as -> by div_lia. rewrite Ey.
    assert (mp < 11) as Hlt by lia. specialize (Ho' Hlt). lia.
Qed.

Lemma civil_of_days_spec z :
  let '(y, m, d) := civil_of_days z in civil_valid y m d ∧ civil_days y m d = z.
Proof.
  pose proof (civil_of_days_steps z) as H. cbv zeta in H. unfold civil_of_days.
  set (x := z + 719468) in *. set (doe := x mod 146097) in *. set (yoe := year_of_era doe) in *.
  set (doy := doe - (365 * yoe + yoe / 4 - yoe / 100)) in *.
  set (mp := (5 * doy + 2) / 153) in *.
  destruct H as (_ & _ & _ & Hmp & Hd & Hx & Hs1 & Hs2).
  set (Y := yoe + x / 146097 * 400) in *.
  set (m := if mp <? 10 then mp + 3 else mp - 9).
  assert (1 ≤ m ≤ 12) as Hm by (unfold m; destruct (Z.ltb_spec mp 10); lia).
  assert (month_index (Y + (if m <=? 2 then 1 else 0)) m = 12 * Y + mp) as En.
  { unfold month_index, m. destruct (Z.ltb_spec mp 10).
    - destruct (Z.leb_spec (mp + 3) 2); lia.
    - destruct (Z.leb_spec (mp - 9) 2); lia. }
  assert (doy - month_offset mp + 1 = x - month_start (12 * Y + mp) + 1) as Ed.
  { unfold month_start.
    assert ((12 * Y + mp) / 12 = Y) as -> by div_lia.
    assert ((12 * Y + mp) mod 12 = mp) as -> by div_lia.
    replace Y with (x / 146097 * 400 + yoe) by (unfold Y; lia).
    rewrite march_start_era. pose proof (Z.div_mod x 146097). fold doe in H. lia. }
  rewrite <- En in Hs2. rewrite month_start_step in Hs2 by done.
  unfold civil_valid, civil_days. rewrite En in *. fold x. lia.
Qed.
