(* ===== verification/DateSerial.v ===== *)
(** DateSerial: the conversion algorithms of [year_month_day] compute the reference calendar of
    Civil; [year_month_day] satisfies the laws of [DateSerial]; the comparison operators of the
    date classes satisfy those of [Relational]. *)

From Stdlib Require Import ZArith Lia.
From stdpp Require Import base list.
From S2P Require Import Prelude Memory Calendar DateUnits DateFields DateYmd DateYmw Civil.

(** ** Well-formed values *)

#[export] Instance day_wf : WellFormed day := λ x, is_u8 (day_d x).
#[export] Instance month_wf : WellFormed month := λ x, is_u8 (month_m x).
#[export] Instance year_wf : WellFormed year := λ x, is_i16 (year_y x).
#[export] Instance weekday_wf : WellFormed weekday := λ x, is_u8 (weekday_wd x).
#[export] Instance weekday_indexed_wf : WellFormed weekday_indexed :=
  λ x, in_unsigned 4 (wdi_wd x) && in_unsigned 4 (wdi_index_ x).
#[export] Instance weekday_last_wf : WellFormed weekday_last := λ x, wf (wdl_wd x).
#[export] Instance year_month_wf : WellFormed year_month := λ x, wf (ym_y x) && wf (ym_m x).
#[export] Instance month_day_wf : WellFormed month_day := λ x, wf (md_m x) && wf (md_d x).
#[export] Instance month_day_last_wf : WellFormed month_day_last := λ x, wf (mdl_m x).
#[export] Instance year_month_day_last_wf : WellFormed year_month_day_last :=
  λ x, wf (ymdl_y x) && wf (ymdl_mdl x).
#[export] Instance year_month_day_wf : WellFormed year_month_day :=
  λ x, wf (ymd_y x) && wf (ymd_m x) && wf (ymd_d x).

Lemma day_wf_spec x : wf x = true ↔ 0 ≤ day_d x < 256.
Proof. apply is_u8_spec. Qed.
Lemma month_wf_spec x : wf x = true ↔ 0 ≤ month_m x < 256.
Proof. apply is_u8_spec. Qed.
Lemma year_wf_spec x : wf x = true ↔ -32768 ≤ year_y x < 32768.
Proof. apply is_i16_spec. Qed.
Lemma weekday_wf_spec x : wf x = true ↔ 0 ≤ weekday_wd x < 256.
Proof. apply is_u8_spec. Qed.

Lemma ymd_wf_spec x :
  wf x = true ↔ -32768 ≤ year_y (ymd_y x) < 32768 ∧ 0 ≤ month_m (ymd_m x) < 256
                ∧ 0 ≤ day_d (ymd_d x) < 256.
Proof.
  unfold wf, year_month_day_wf. rewrite !andb_true_iff, year_wf_spec, month_wf_spec, day_wf_spec.
  tauto.
Qed.

(** A constructor makes a well-formed value of any argument and is the identity in range. *)
Lemma day_ctor_wf d : wf (day_ctor d) = true.
Proof. apply uwrap_in. lia. Qed.
Lemma month_ctor_wf m : wf (month_ctor m) = true.
Proof. apply uwrap_in. lia. Qed.
Lemma year_ctor_wf y : wf (year_ctor y) = true.
Proof. apply swrap_in. lia. Qed.

Lemma day_ctor_small d : 0 ≤ d < 256 → day_ctor d = MkDay d.
Proof. intros. unfold day_ctor. by rewrite u8_small. Qed.
Lemma month_ctor_small m : 0 ≤ m < 256 → month_ctor m = MkMonth m.
Proof. intros. unfold month_ctor. by rewrite u8_small. Qed.
Lemma year_ctor_small y : -32768 ≤ y < 32768 → year_ctor y = MkYear y.
Proof. intros. unfold year_ctor. by rewrite i16_small. Qed.

(** ** [ok()] *)

Lemma month_ok_spec m : month_ok m = true ↔ 1 ≤ month_m m ≤ 12.
Proof. unfold month_ok. rewrite andb_true_iff, !Z.leb_le. done. Qed.

Lemma day_le_spec x y : day_le x y = true ↔ day_d x ≤ day_d y.
Proof.
  unfold day_le, day_lt, day_unsigned. rewrite negb_true_iff, Z.ltb_ge. done.
Qed.

Lemma day_le_leb x y : day_le x y = (day_d x <=? day_d y).
Proof. unfold day_le, day_lt, day_unsigned. by rewrite <- Z.leb_antisym. Qed.

Lemma year_is_leap_spec y : year_is_leap y = leap (year_y y).
Proof.
  unfold year_is_leap, leap, c_rem.
  assert (∀ n, 0 < n → (Z.rem (year_y y) n =? 0) = (year_y y mod n =? 0)) as E.
  { intros n Hn. apply Bool.eq_iff_eq_true. rewrite !Z.eqb_eq.
    rewrite Z.rem_divide, Z.mod_divide by lia. done. }
  by rewrite !E by lia.
Qed.

(** The last day of a month is the length of the month. *)
Lemma ymdl_day_spec y m :
  month_ok m = true →
  ymdl_day (ym_div_last (year_div_month y m) last)
  = Ret (MkDay (month_length (year_y y) (month_m m))).
Proof.
  intros Hm. unfold ymdl_day. cbn. change (mdl_ok _) with (month_ok m). rewrite Hm.
  rewrite year_is_leap_spec. destruct m as [m]. apply month_ok_spec in Hm. cbn in Hm.
  assert (m = 1 ∨ m = 2 ∨ m = 3 ∨ m = 4 ∨ m = 5 ∨ m = 6 ∨ m = 7 ∨ m = 8 ∨ m = 9
          ∨ m = 10 ∨ m = 11 ∨ m = 12) as H by lia.
  unfold month_length. destruct (leap (year_y y));
    repeat destruct H as [->|H]; try reflexivity; subst m; reflexivity.
Qed.

(** The table of [month_day::ok] is that of a leap year. *)
Lemma month_day_ok_d_spec m :
  month_ok m = true →
  arr_get month_day_ok_d (uint_sub (month_unsigned m) 1) = Ret (MkDay (month_length 2000 (month_m m))).
Proof.
  intros Hm. destruct m as [m]. apply month_ok_spec in Hm. cbn [month_m] in *.
  assert (m = 1 ∨ m = 2 ∨ m = 3 ∨ m = 4 ∨ m = 5 ∨ m = 6 ∨ m = 7 ∨ m = 8 ∨ m = 9
          ∨ m = 10 ∨ m = 11 ∨ m = 12) as H by lia.
  repeat destruct H as [->|H]; try reflexivity. by subst m.
Qed.

Lemma ymd_ok_spec x :
  ymd_ok x = Ret (negb (year_y (ymd_y x) =? -32768) && month_ok (ymd_m x)
    && (1 <=? day_d (ymd_d x))
    && (day_d (ymd_d x) <=? month_length (year_y (ymd_y x)) (month_m (ymd_m x)))).
Proof.
  destruct x as [y m d]. unfold ymd_ok. cbn [ymd_y ymd_m ymd_d]. unfold year_ok.
  destruct (year_y y =? -32768); [reflexivity|]. cbn [negb andb].
  destruct (month_ok m) eqn:Hm; [|reflexivity]. cbn [negb andb].
  rewrite (ymdl_day_spec _ _ Hm), outcome_bind_ret.
  unfold day_le, day_lt, day_unsigned. cbn.
  rewrite u8_small by lia. rewrite <- !Z.leb_antisym. by destruct (1 <=? day_d d).
Qed.

Lemma ymd_ok_true x :
  ymd_ok x = Ret true ↔
  year_y (ymd_y x) ≠ -32768 ∧ civil_valid (year_y (ymd_y x)) (month_m (ymd_m x)) (day_d (ymd_d x)).
Proof.
  rewrite ymd_ok_spec. unfold civil_valid. rewrite <- month_ok_spec. split.
  - intros [= H]. zb_prop. split_and!; done.
  - intros (H1 & H2 & H3 & H4). apply Z.eqb_neq in H1. apply Z.leb_le in H3, H4.
    by rewrite H1, H2, H3, H4.
Qed.

(** ** The conversions *)

Lemma month_le_February m : month_le m February = (month_m m <=? 2).
Proof. unfold month_le, month_lt, month_unsigned. cbn. by rewrite <- Z.leb_antisym. Qed.

Lemma month_start_index y m :
  1 ≤ m ≤ 12 →
  month_start (month_index y m)
  = march_start (y - (if m <=? 2 then 1 else 0)) + month_offset (if 2 <? m then m - 3 else m + 9).
Proof.
  intros Hm. unfold month_start, month_index. rewrite (Z.ltb_antisym m 2).
  destruct (Z.leb_spec m 2); simpl; f_equal; f_equal; div_lia.
Qed.

(** [to_days] is the reference, without overflow; the day need not exist in its month. *)
Lemma ymd_to_days_civil x :
  wf x = true → month_ok (ymd_m x) = true → 1 ≤ day_d (ymd_d x) →
  ymd_to_days x
  = Ret (civil_days (year_y (ymd_y x)) (month_m (ymd_m x)) (day_d (ymd_d x))).
Proof.
  intros Hwf Hm Hd. apply ymd_wf_spec in Hwf. apply month_ok_spec in Hm.
  destruct x as [[y] [m] [d]]. cbn in *.
  unfold ymd_to_days. cbn [ymd_y ymd_m ymd_d]. rewrite month_le_February. cbn [month_m].
  unfold year_int, month_unsigned, day_unsigned. cbn [year_y month_m day_d].
  unfold civil_days. rewrite month_start_index by done.
  set (y' := y - (if m <=? 2 then 1 else 0)).
  assert (-32769 ≤ y' < 32768) as Hy' by (unfold y'; destruct (m <=? 2); lia).
  assert (int_sub y (if m <=? 2 then 1 else 0) = Ret y') as -> by (apply int_res_ok; fold y'; lia).
  rewrite outcome_bind_ret, int_floor_arg by lia. rewrite outcome_bind_ret.
  change 399 with (400 - 1). rewrite c_div_floor by lia.
  pose proof (Z.div_mod y' 400). pose proof (Z.mod_pos_bound y' 400).
  rewrite (int_mul_ok (y' / 400) 400), outcome_bind_ret by div_lia.
  rewrite int_sub_ok, outcome_bind_ret by div_lia.
  assert (u32 (y' - y' / 400 * 400) = y' mod 400) as -> by (rewrite u32_small; lia).
  set (yoe := y' mod 400) in *.
  assert ((if 2 <? m then uint_sub m 3 else uint_add m 9) = if 2 <? m then m - 3 else m + 9)
    as -> by (destruct (Z.ltb_spec 2 m); uint_step; done).
  set (mp := if 2 <? m then m - 3 else m + 9).
  assert (0 ≤ mp ≤ 11) by (unfold mp; destruct (Z.ltb_spec 2 m); lia).
  clearbody mp y'. unfold month_offset. uint_step.
  assert (0 ≤ (153 * mp + 2) / 5 ≤ 400) by div_lia. set (o := (153 * mp + 2) / 5) in *.
  assert (0 ≤ yoe / 4 ≤ 100) by div_lia. assert (0 ≤ yoe / 100 ≤ 4) by div_lia.
  assert (yoe / 100 ≤ yoe / 4) by div_lia. uint_step.
  rewrite i32_small by lia.
  assert (-82 ≤ y' / 400 ≤ 82) by div_lia. int_step.
  assert (march_start y' = 146097 * (y' / 400) + (yoe * 365 + yoe / 4 - yoe / 100)) as ->.
  { rewrite (Z.div_mod y' 400) at 1 by lia. fold yoe.
    rewrite (Z.mul_comm 400), march_start_era. unfold march_start.
    rewrite (Z.div_small yoe 400) by lia. lia. }
  f_equal. lia.
Qed.

(** [from_days] is the reference for every day number it can take without overflow; the year is
    reduced to a [short]. *)
Lemma ymd_from_days_civil z :
  -2147483648 ≤ z ≤ 2146764179 →
  ymd_from_days z
  = (let '(y, m, d) := civil_of_days z in
     Ret (MkYearMonthDay (year_ctor y) (MkMonth m) (MkDay d))).
Proof.
  intros Hz. pose proof (civil_of_days_steps z) as H. cbv zeta in H.
  unfold ymd_from_days. rewrite (int_add_ok z), outcome_bind_ret by lia.
  unfold civil_of_days. set (x := z + 719468) in *.
  assert (-2146764180 ≤ x < 2147483648) as Hx by (unfold x; lia).
  rewrite int_floor_arg, outcome_bind_ret by lia.
  change 146096 with (146097 - 1). rewrite c_div_floor by lia.
  pose proof (Z.div_mod x 146097) as Ex.
  assert (-14695 ≤ x / 146097 ≤ 14699) as Hera by div_lia.
  rewrite (int_mul_ok (x / 146097) 146097), outcome_bind_ret by lia.
  rewrite (int_sub_ok x), outcome_bind_ret by lia.
  assert (u32 (x - x / 146097 * 146097) = x mod 146097) as -> by (rewrite u32_small; lia).
  set (doe := x mod 146097) in *. set (era := x / 146097) in *.
  change (146097 - 1) with 146096.
  destruct H as (Hdoe & Hyoe & Hdoy & Hmp & Hd & _).
  assert (uint_sub (uint_add (uint_sub doe (doe / 1460)) (doe / 36524)) (doe / 146096) / 365
          = year_of_era doe) as ->.
  { unfold year_of_era.
    assert (0 ≤ doe / 1460 ≤ doe) by div_lia. assert (0 ≤ doe / 36524 ≤ doe) by div_lia.
    assert (0 ≤ doe / 146096 ≤ doe / 36524) by div_lia. by uint_step. }
  set (yoe := year_of_era doe) in *.
  rewrite i32_small by lia. rewrite (int_mul_ok era), outcome_bind_ret by lia.
  rewrite (int_add_ok yoe), outcome_bind_ret by lia.
  assert (0 ≤ yoe / 4 ≤ yoe) by div_lia. assert (0 ≤ yoe / 100 ≤ yoe / 4) by div_lia.
  assert (uint_sub doe (uint_sub (uint_add (uint_mul 365 yoe) (yoe / 4)) (yoe / 100))
          = doe - (365 * yoe + yoe / 4 - yoe / 100)) as -> by (uint_step; done).
  set (doy := doe - (365 * yoe + yoe / 4 - yoe / 100)) in *.
  assert (uint_add (uint_mul 5 doy) 2 = 5 * doy + 2) as -> by (uint_step; done).
  set (mp := (5 * doy + 2) / 153) in *.
  assert (uint_add (uint_mul 153 mp) 2 / 5 = month_offset mp) as -> by (uint_step; done).
  assert (0 ≤ month_offset mp ≤ 400) by (unfold month_offset; div_lia).
  assert (uint_add (uint_sub doy (month_offset mp)) 1 = doy - month_offset mp + 1) as ->
    by (uint_step; done).
  assert ((if mp <? 10 then uint_add mp 3 else uint_sub mp 9)
          = if mp <? 10 then mp + 3 else mp - 9) as ->
    by (destruct (Z.ltb_spec mp 10); uint_step; done).
  set (m := if mp <? 10 then mp + 3 else mp - 9).
  assert (1 ≤ m ≤ 12) by (unfold m; destruct (Z.ltb_spec mp 10); lia).
  rewrite int_add_ok, outcome_bind_ret by (destruct (m <=? 2); lia).
  unfold year_month_day_ctor. by rewrite month_ctor_small, day_ctor_small by lia.
Qed.

Lemma ymd_from_days_overflow z :
  2146764179 < z ≤ 2147483647 → ymd_from_days z = Fault SignedOverflow.
Proof.
  intros. unfold ymd_from_days.
  assert (int_add z 719468 = Fault SignedOverflow) as -> by (apply int_res_overflow; lia).
  reflexivity.
Qed.

(** ** The laws of [DateSerial] *)

(** -32767-01-01 and 32767-12-31. *)
Abbreviation first_day := (-12687428).
Abbreviation last_day := 11248737.

Lemma first_day_civil : civil_days (-32767) 1 1 = first_day.
Proof. reflexivity. Qed.

Lemma last_day_civil : civil_days 32767 12 31 = last_day.
Proof. reflexivity. Qed.

(** The days of the years of a [year] that is [ok()]. *)
Lemma civil_days_range y m d :
  civil_valid y m d → -32767 ≤ y ≤ 32767 ↔ first_day ≤ civil_days y m d ≤ last_day.
Proof.
  intros H.
  assert (civil_valid (-32767) 1 1) as Hf by (unfold civil_valid; vm_compute; intuition discriminate).
  assert (civil_valid 32767 12 31) as Hl by (unfold civil_valid; vm_compute; intuition discriminate).
  pose proof (civil_days_lt _ _ _ _ _ _ H Hf) as A.
  pose proof (civil_days_lt _ _ _ _ _ _ Hl H) as B.
  rewrite first_day_civil in A. rewrite last_day_civil in B.
  destruct H as [Hm Hd]. unfold month_length in Hd.
  destruct (Z.eqb_spec m 2); [destruct (leap y); lia|].
  destruct ((m =? 4) || (m =? 6) || (m =? 9) || (m =? 11)); lia.
Qed.

Lemma ymd_to_days_ok x :
  wf x = true → ymd_ok x = Ret true →
  ymd_to_days x = Ret (civil_days (year_y (ymd_y x)) (month_m (ymd_m x)) (day_d (ymd_d x)))
  ∧ first_day ≤ civil_days (year_y (ymd_y x)) (month_m (ymd_m x)) (day_d (ymd_d x)) ≤ last_day.
Proof.
  intros Hwf Hok. apply ymd_ok_true in Hok as [Hy Hv]. split.
  - apply ymd_to_days_civil; [done | |]; destruct Hv as [Hm Hd]; [by apply month_ok_spec | lia].
  - apply civil_days_range; [done|]. apply ymd_wf_spec in Hwf. lia.
Qed.

Lemma ymd_from_days_ok z :
  first_day ≤ z ≤ last_day →
  ∃ y m d, ymd_from_days z = Ret (MkYearMonthDay (MkYear y) (MkMonth m) (MkDay d))
    ∧ -32767 ≤ y ≤ 32767 ∧ civil_valid y m d ∧ civil_days y m d = z.
Proof.
  intros Hz. pose proof (civil_of_days_spec z) as H.
  rewrite ymd_from_days_civil by lia. destruct (civil_of_days z) as [[y m] d].
  destruct H as [Hv Hc]. exists y, m, d.
  assert (-32767 ≤ y ≤ 32767) by (apply (civil_days_range y m d); [done | lia]).
  by rewrite year_ctor_small by lia.
Qed.

Lemma MkYearMonthDay_ok y m d :
  -32767 ≤ y ≤ 32767 → civil_valid y m d →
  wf (MkYearMonthDay (MkYear y) (MkMonth m) (MkDay d)) = true
  ∧ ymd_ok (MkYearMonthDay (MkYear y) (MkMonth m) (MkDay d)) = Ret true.
Proof.
  intros Hy Hv. split.
  - apply ymd_wf_spec. destruct Hv as [Hm Hd]. pose proof (month_length_bounds y m).
    cbn in *. lia.
  - apply ymd_ok_true. cbn. split; [lia | done].
Qed.

#[export] Instance ymd_serial_laws : DateSerialLaws year_month_day first_day last_day.
Proof.
  split.
  - intros x Hwf Hok. destruct (ymd_to_days_ok x Hwf Hok) as [Ht Hr].
    eexists. split; [exact Ht|]. split; [exact Hr|].
    destruct (ymd_from_days_ok _ Hr) as (y & m & d & Hf & Hy & Hv & Hc).
    etransitivity; [exact Hf|]. apply ymd_ok_true in Hok as [_ Hvx].
    destruct (civil_days_inj _ _ _ _ _ _ Hv Hvx Hc) as (-> & -> & ->).
    by destruct x as [[] [] []].
  - intros z Hz. destruct (ymd_from_days_ok z Hz) as (y & m & d & Hf & Hy & Hv & Hc).
    destruct (MkYearMonthDay_ok y m d Hy Hv) as [Hwf Hok].
    eexists. split; [exact Hf|]. split; [done|]. split; [done|].
    destruct (ymd_to_days_ok _ Hwf Hok) as [Ht _]. etransitivity; [exact Ht|]. by rewrite <- Hc.
Qed.

(** ** The laws of [Relational] *)

(** Unfold the operators of a class down to comparisons of its numbers. *)
Ltac rel_unfold :=
  unfold rel_eq, rel_ne, rel_lt, rel_gt, rel_le, rel_ge;
  cbv [day_relational month_relational year_relational ym_relational md_relational mdl_relational
       ymd_relational ymdl_relational
       day_eq day_ne day_lt day_gt day_le day_ge day_unsigned
       month_eq month_ne month_lt month_gt month_le month_ge month_unsigned
       year_eq year_ne year_lt year_gt year_le year_ge year_int
       ym_eq ym_ne ym_lt ym_gt ym_le ym_ge ym_year ym_month
       md_eq md_ne md_lt md_gt md_le md_ge md_month md_day
       mdl_eq mdl_ne mdl_lt mdl_gt mdl_le mdl_ge mdl_month
       ymd_eq ymd_ne ymd_lt ymd_gt ymd_le ymd_ge ymd_year ymd_month ymd_day
       ymdl_eq ymdl_ne ymdl_lt ymdl_gt ymdl_le ymdl_ge ymdl_year ymdl_month_day_last].

Ltac rel_destruct :=
  repeat match goal with
  | x : day |- _ => destruct x | x : month |- _ => destruct x | x : year |- _ => destruct x
  | x : year_month |- _ => destruct x | x : month_day |- _ => destruct x
  | x : month_day_last |- _ => destruct x | x : year_month_day |- _ => destruct x
  | x : year_month_day_last |- _ => destruct x
  end; cbn in *.

Ltac rel_laws :=
  split; intros;
  first
  [ done
  | rel_destruct; congruence
  | rel_unfold; rel_destruct; apply Bool.eq_iff_eq_true;
    rewrite bool_decide_eq_true, ?andb_true_iff, ?Z.eqb_eq; split;
    [intros; destruct_and?; congruence | intros [=]; split_and?; congruence]
  | rel_unfold; rel_destruct; zb_cases; try reflexivity; lia ].

#[export] Instance day_laws : RelationalLaws day (λ x, [day_d x]).
Proof. rel_laws. Qed.
#[export] Instance month_laws : RelationalLaws month (λ x, [month_m x]).
Proof. rel_laws. Qed.
#[export] Instance year_laws : RelationalLaws year (λ x, [year_y x]).
Proof. rel_laws. Qed.
#[export] Instance year_month_laws :
  RelationalLaws year_month (λ x, [year_y (ym_y x); month_m (ym_m x)]).
Proof. rel_laws. Qed.
#[export] Instance month_day_laws :
  RelationalLaws month_day (λ x, [month_m (md_m x); day_d (md_d x)]).
Proof. rel_laws. Qed.
#[export] Instance month_day_last_laws :
  RelationalLaws month_day_last (λ x, [month_m (mdl_m x)]).
Proof. rel_laws. Qed.
#[export] Instance year_month_day_last_laws :
  RelationalLaws year_month_day_last (λ x, [year_y (ymdl_y x); month_m (mdl_m (ymdl_mdl x))]).
Proof. rel_laws. Qed.
#[export] Instance year_month_day_laws :
  RelationalLaws year_month_day
    (λ x, [year_y (ymd_y x); month_m (ymd_m x); day_d (ymd_d x)]).
Proof. rel_laws. Qed.

(** * What the arithmetic of the date classes computes, in terms of [mod] and of the reference calendar: weekdays modulo 7, months modulo 12, [year_month] as a month number, and the n-th weekday of a month. *)

(** ** Weekdays *)

Lemma weekday_from_days_mod z :
  -2147483648 ≤ z < 2147483648 → weekday_from_days z = (z + 4) mod 7.
Proof.
  intros Hz. unfold weekday_from_days.
  pose proof (Z.mod_pos_bound (z + 4) 7).
  destruct (Z.leb_spec (-4) z).
  - unfold uint_add. rewrite uwrap_add_l, u32_small by lia. apply u8_small. lia.
  - assert (u32 z = z + 4294967296) as ->.
    { unfold uwrap. change (2 ^ 32) with 4294967296. div_lia. }
    assert ((z + 4294967296) mod 7 = (z + 4) mod 7) as -> by div_lia. apply u8_small. lia.
Qed.

Lemma weekday_ok_spec x : wf x = true → weekday_ok x = true ↔ 0 ≤ weekday_wd x ≤ 6.
Proof. intros H%weekday_wf_spec. unfold weekday_ok. rewrite Z.leb_le. lia. Qed.

Lemma weekday_ctor_small wd : 0 ≤ wd < 7 → weekday_ctor wd = MkWeekday wd.
Proof.
  intros. unfold weekday_ctor. destruct (Z.eqb_spec wd 7); [lia|]. simpl. by rewrite u8_small by lia.
Qed.

Lemma weekday_plus_days_mod x d :
  weekday_plus_days x d = MkWeekday ((weekday_wd x + d) mod 7).
Proof.
  unfold weekday_plus_days. change 6 with (7 - 1). rewrite c_div_floor by lia.
  pose proof (Z.mod_pos_bound (weekday_wd x + d) 7).
  assert (weekday_wd x + d - (weekday_wd x + d) / 7 * 7 = (weekday_wd x + d) mod 7) as ->
    by div_lia.
  rewrite u32_small by lia. apply weekday_ctor_small. lia.
Qed.

Lemma weekday_minus_weekday_mod x y :
  weekday_minus_weekday x y = (weekday_wd x - weekday_wd y) mod 7.
Proof.
  unfold weekday_minus_weekday. change 6 with (7 - 1). rewrite c_div_floor by lia. div_lia.
Qed.

(** ** Months *)

Lemma month_plus_months_mod x d :
  month_plus_months x d = MkMonth ((month_m x + d - 1) mod 12 + 1).
Proof.
  unfold month_plus_months, month_unsigned. change 11 with (12 - 1). rewrite c_div_floor by lia.
  pose proof (Z.mod_pos_bound (month_m x + d - 1) 12).
  assert (month_m x + d - 1 - (month_m x + d - 1) / 12 * 12 + 1 = (month_m x + d - 1) mod 12 + 1)
    as -> by div_lia.
  rewrite u32_small by lia. apply month_ctor_small. lia.
Qed.

Lemma month_minus_month_mod x y :
  month_ok x = true → month_ok y = true →
  month_minus_month x y = (month_m x - month_m y) mod 12.
Proof.
  intros Hx%month_ok_spec Hy%month_ok_spec. unfold month_minus_month, month_unsigned.
  destruct (Z.leb_spec (month_m y) (month_m x)).
  - rewrite uint_sub_small by lia. destruct (Z.leb_spec (month_m x - month_m y) 11); [|lia].
    rewrite i32_small by lia. div_lia.
  - assert (uint_sub (month_m x) (month_m y) = month_m x - month_m y + 4294967296) as ->.
    { unfold uint_sub, uwrap. change (2 ^ 32) with 4294967296. div_lia. }
    destruct (Z.leb_spec (month_m x - month_m y + 4294967296) 11); [lia|].
    assert (uint_add (month_m x - month_m y + 4294967296) 12 = month_m x - month_m y + 12) as ->.
    { unfold uint_add, uwrap. change (2 ^ 32) with 4294967296. div_lia. }
    rewrite i32_small by lia. div_lia.
Qed.

(** ** year_month *)

Lemma ym_wf_spec x :
  wf x = true ↔ -32768 ≤ year_y (ym_y x) < 32768 ∧ 0 ≤ month_m (ym_m x) < 256.
Proof. unfold wf, year_month_wf. by rewrite andb_true_iff, year_wf_spec, month_wf_spec. Qed.

Lemma year_plus_years_ok y d :
  -2147483648 ≤ year_y y + d < 2147483648 → year_plus_years y d = Ret (year_ctor (year_y y + d)).
Proof. intros. unfold year_plus_years, year_int. by rewrite int_add_ok by lia. Qed.

(** Months count from the year; the year is reduced to a [short]. *)
Lemma ym_plus_months_div ym dm :
  wf ym = true → -2147483637 ≤ month_m (ym_m ym) - 1 + dm < 2147483648 →
  ym_plus_months ym dm
  = Ret (MkYearMonth (year_ctor (year_y (ym_y ym) + (month_m (ym_m ym) - 1 + dm) / 12))
           (MkMonth ((month_m (ym_m ym) - 1 + dm) mod 12 + 1))).
Proof.
  intros [Hy Hm]%ym_wf_spec H. unfold ym_plus_months, ym_month, ym_year, month_unsigned.
  rewrite i32_small by lia. rewrite int_add_ok, outcome_bind_ret by lia.
  set (dmi := month_m (ym_m ym) - 1 + dm) in *.
  rewrite int_floor_arg, outcome_bind_ret by lia.
  change 11 with (12 - 1). rewrite c_div_floor by lia.
  pose proof (Z.div_mod dmi 12). pose proof (Z.mod_pos_bound dmi 12).
  rewrite int_mul_ok, outcome_bind_ret by lia. rewrite int_sub_ok, outcome_bind_ret by lia.
  rewrite int_add_ok, outcome_bind_ret by lia. rewrite year_plus_years_ok, outcome_bind_ret by lia.
  unfold year_div_month, year_month_ctor. rewrite u32_small by lia.
  rewrite month_ctor_small by lia. do 3 f_equal. lia.
Qed.

Definition ym_number (ym : year_month) : Z := 12 * year_y (ym_y ym) + (month_m (ym_m ym) - 1).

(** A [year_month] plus months is the one with that month number. *)
Lemma ym_plus_months_number ym dm :
  wf ym = true → month_ok (ym_m ym) = true →
  -393216 ≤ ym_number ym + dm < 393216 →
  ∃ ym', ym_plus_months ym dm = Ret ym' ∧ wf ym' = true ∧ month_ok (ym_m ym') = true
    ∧ ym_number ym' = ym_number ym + dm.
Proof.
  intros Hwf Hm%month_ok_spec H. unfold ym_number in H.
  rewrite ym_plus_months_div by (try done; apply ym_wf_spec in Hwf; lia).
  eexists. split; [reflexivity|].
  pose proof (Z.div_mod (month_m (ym_m ym) - 1 + dm) 12).
  pose proof (Z.mod_pos_bound (month_m (ym_m ym) - 1 + dm) 12).
  rewrite ym_wf_spec, month_ok_spec. unfold ym_number. cbn [ym_y ym_m month_m].
  rewrite year_ctor_small by lia. cbn [year_y]. lia.
Qed.

Lemma ym_number_inj x y :
  month_ok (ym_m x) = true → month_ok (ym_m y) = true → ym_number x = ym_number y → x = y.
Proof.
  intros Hx%month_ok_spec Hy%month_ok_spec H. unfold ym_number in H.
  destruct x as [[yx] [mx]], y as [[yy] [my]]. cbn in *.
  assert (yx = yy) as -> by lia. f_equal. f_equal. lia.
Qed.

Lemma ym_minus_ym_number x y :
  wf x = true → wf y = true → ym_minus_ym x y = Ret (ym_number x - ym_number y).
Proof.
  intros [Hx1 Hx2]%ym_wf_spec [Hy1 Hy2]%ym_wf_spec.
  unfold ym_minus_ym, year_minus_year, ym_year, ym_month, year_int, month_unsigned, ym_number.
  unfold uint_sub. rewrite swrap_uwrap by lia. rewrite !i32_small by lia.
  rewrite int_add_ok by lia. f_equal. lia.
Qed.

(** ** The first and the last day of a month *)

Lemma year_ok_spec y : wf y = true → year_ok y = true ↔ -32767 ≤ year_y y ≤ 32767.
Proof. intros H%year_wf_spec. unfold year_ok. rewrite negb_true_iff, Z.eqb_neq. lia. Qed.

Lemma first_of_month y m :
  wf y = true → month_ok m = true →
  ymd_sys_days (ym_div_int (year_div_month y m) 1)
  = Ret (civil_days (year_y y) (month_m m) 1).
Proof.
  intros Hy Hm.
  change (ym_div_int (year_div_month y m) 1) with (MkYearMonthDay y m (MkDay 1)).
  unfold ymd_sys_days. rewrite ymd_to_days_civil; [done | | done | cbn; lia].
  apply year_wf_spec in Hy. apply month_ok_spec in Hm. apply ymd_wf_spec. cbn. lia.
Qed.

Lemma last_of_month y m :
  wf y = true → month_ok m = true →
  ymdl_sys_days (ym_div_last (year_div_month y m) last)
  = Ret (civil_days (year_y y) (month_m m) (month_length (year_y y) (month_m m))).
Proof.
  intros Hy Hm. unfold ymdl_sys_days. rewrite ymdl_day_spec, outcome_bind_ret by done.
  pose proof (month_length_bounds (year_y y) (month_m m)).
  unfold ymd_sys_days. rewrite ymd_to_days_civil; [done | | done | cbn; lia].
  apply year_wf_spec in Hy. apply month_ok_spec in Hm. apply ymd_wf_spec. cbn. lia.
Qed.

Lemma civil_days_add y m d k : civil_days y m (d + k) = civil_days y m d + k.
Proof. unfold civil_days. lia. Qed.

(** The days of a month of an [ok()] year lie in the range of the serial days. *)
Lemma civil_days_month_range y m d :
  -32767 ≤ y ≤ 32767 → 1 ≤ m ≤ 12 → 1 ≤ d ≤ month_length y m →
  first_day ≤ civil_days y m d ≤ last_day.
Proof. intros Hy Hm Hd. apply civil_days_range; [done | lia]. Qed.

(** The same for every year that a [short] holds. *)
Lemma civil_days_short y m d :
  -32768 ≤ y ≤ 32767 → 1 ≤ m ≤ 12 → 1 ≤ d ≤ month_length y m →
  -12687794 ≤ civil_days y m d ≤ last_day.
Proof.
  intros Hy Hm Hd. destruct (Z.eq_dec y (-32768)) as [->|].
  - assert (civil_valid (-32768) m d) as Hv by done.
    assert (civil_valid (-32768) 1 1) as H1 by (unfold civil_valid; vm_compute; intuition discriminate).
    assert (civil_valid (-32768) 12 31) as H2 by (unfold civil_valid; vm_compute; intuition discriminate).
    pose proof (civil_days_lt _ _ _ _ _ _ Hv H1) as A. pose proof (civil_days_lt _ _ _ _ _ _ H2 Hv) as B.
    change (civil_days (-32768) 1 1) with (-12687794) in A.
    change (civil_days (-32768) 12 31) with (-12687429) in B.
    unfold month_length in Hd. repeat case_match; lia.
  - pose proof (civil_days_month_range y m d). lia.
Qed.
