(* ===== verification/DateNth.v ===== *)
(** DateNth: the n-th weekday of a month.  [year_month_weekday] satisfies the laws of
    [DateSerial]; [year_month_weekday_last] converts to the last such weekday of its month. *)

From Stdlib Require Import ZArith Lia.
From stdpp Require Import base list.
From S2P Require Import Prelude Memory Calendar Civil DateUnits DateFields DateYmd DateYmw DateSerial.

(** The stored weekday is not 7: [wdi_weekday] reads a 7 as Sunday, which is stored as 0. *)
#[export] Instance year_month_weekday_wf : WellFormed year_month_weekday := λ x,
  wf (ymwd_y x) && wf (ymwd_m x) && wf (ymwd_wdi x) && negb (wdi_wd (ymwd_wdi x) =? 7).
#[export] Instance year_month_weekday_last_wf : WellFormed year_month_weekday_last := λ x,
  wf (ymwdl_y x) && wf (ymwdl_m x) && wf (ymwdl_wdl x).

Lemma wdi_wf_spec x : wf x = true ↔ 0 ≤ wdi_wd x < 16 ∧ 0 ≤ wdi_index_ x < 16.
Proof. unfold wf, weekday_indexed_wf. by rewrite andb_true_iff, !in_unsigned_spec. Qed.

Lemma ymwd_wf_spec x :
  wf x = true ↔ wf (ymwd_y x) = true ∧ 0 ≤ month_m (ymwd_m x) < 256
    ∧ (0 ≤ wdi_wd (ymwd_wdi x) < 16 ∧ wdi_wd (ymwd_wdi x) ≠ 7)
    ∧ 0 ≤ wdi_index_ (ymwd_wdi x) < 16.
Proof.
  unfold wf at 1, year_month_weekday_wf.
  rewrite !andb_true_iff, month_wf_spec, wdi_wf_spec, negb_true_iff, Z.eqb_neq. tauto.
Qed.

Lemma wdi_weekday_small x :
  0 ≤ wdi_wd x < 16 → wdi_wd x ≠ 7 → wdi_weekday x = MkWeekday (wdi_wd x).
Proof.
  intros H Hn. unfold wdi_weekday, weekday_ctor. destruct (Z.eqb_spec (wdi_wd x) 7); [done|].
  simpl. by rewrite u8_small by lia.
Qed.

Lemma weekday_at_small wd i :
  0 ≤ wd < 16 → 0 ≤ i < 16 → weekday_at (MkWeekday wd) i = MkWeekdayIndexed wd i.
Proof.
  intros. unfold weekday_at, weekday_indexed_ctor. cbn [weekday_wd].
  rewrite !u8_small by lia. unfold uwrap. by rewrite !Z.mod_small by lia.
Qed.

(** Days from day [z] to the next day, [z] included, whose weekday is [wd]. *)
Definition until_weekday (z wd : Z) : Z := (wd - (z + 4) mod 7) mod 7.

Lemma until_weekday_bounds z wd : 0 ≤ until_weekday z wd < 7.
Proof. apply Z.mod_pos_bound. lia. Qed.

Lemma until_weekday_reaches z wd : 0 ≤ wd < 7 → (z + until_weekday z wd + 4) mod 7 = wd.
Proof. intros. unfold until_weekday. div_lia. Qed.

Lemma until_weekday_unique z k :
  0 ≤ k → until_weekday z ((z + k + 4) mod 7) = k mod 7.
Proof. intros. unfold until_weekday. div_lia. Qed.

(** The day of the month that an index and a weekday select. *)
Definition nth_weekday_day (y m wd i : Z) : Z := until_weekday (civil_days y m 1) wd + (i - 1) * 7 + 1.

Section nth.
Context (x : year_month_weekday).
Context (Hwf : wf x = true) (Hy : year_ok (ymwd_y x) = true) (Hm : month_ok (ymwd_m x) = true).
Context (Hwd : weekday_ok (wdi_weekday (ymwd_wdi x)) = true).
Context (Hi : 1 ≤ wdi_index_ (ymwd_wdi x)).

Let y := year_y (ymwd_y x).
Let m := month_m (ymwd_m x).
Let wd := wdi_wd (ymwd_wdi x).
Let i := wdi_index_ (ymwd_wdi x).
Let first := civil_days y m 1.

Lemma nth_bounds :
  -32767 ≤ y ≤ 32767 ∧ 1 ≤ m ≤ 12 ∧ 0 ≤ wd < 7 ∧ 1 ≤ i < 16 ∧ first_day ≤ first ≤ last_day.
Proof.
  apply ymwd_wf_spec in Hwf as (Hwy & Hwm & [Hw Hw7] & Hwi).
  apply (year_ok_spec _ Hwy) in Hy. apply month_ok_spec in Hm.
  rewrite wdi_weekday_small in Hwd by done. unfold weekday_ok in Hwd. cbn in Hwd.
  apply Z.leb_le in Hwd. repeat (split; [unfold y, m, wd, i; lia|]).
  apply civil_days_month_range; [done..|]. pose proof (month_length_bounds y m). lia.
Qed.

Lemma nth_to_days :
  ymwd_to_days x = Ret (civil_days y m (nth_weekday_day y m wd i)).
Proof.
  pose proof nth_bounds as (Hby & Hbm & Hbw & Hbi & Hbf).
  pose proof Hwf as (Hwy & Hwm & [Hw Hw7] & Hwi)%ymwd_wf_spec.
  unfold ymwd_to_days. rewrite first_of_month, outcome_bind_ret by done.
  rewrite wdi_weekday_small, weekday_minus_weekday_mod by done.
  fold y m wd first. cbn [weekday_wd weekday_of_sys_days].
  unfold weekday_of_sys_days, wdi_index. cbn [weekday_wd]. rewrite weekday_from_days_mod by lia.
  fold i. fold (until_weekday first wd). pose proof (until_weekday_bounds first wd).
  uint_step. rewrite i32_small by lia. rewrite int_add_ok, outcome_bind_ret by lia.
  rewrite int_add_ok by lia. f_equal. unfold nth_weekday_day. fold first.
  replace (until_weekday first wd + (i - 1) * 7 + 1) with (1 + (until_weekday first wd + (i - 1) * 7))
    by lia.
  by rewrite civil_days_add.
Qed.

Lemma nth_ok :
  ymwd_ok x = Ret (nth_weekday_day y m wd i <=? month_length y m).
Proof.
  pose proof nth_bounds as (Hby & Hbm & Hbw & Hbi & Hbf).
  pose proof Hwf as (Hwy & Hwm & [Hw Hw7] & Hwi)%ymwd_wf_spec.
  pose proof (month_length_bounds y m) as Hl.
  pose proof (until_weekday_bounds first wd) as Hu.
  unfold ymwd_ok. rewrite Hy, Hm, Hwd. unfold wdi_index. fold i.
  assert ((i <? 1) = false) as -> by lia. cbn [negb orb].
  destruct (Z.leb_spec i 4) as [H4|H4].
  - unfold nth_weekday_day. fold first.
    destruct (Z.leb_spec (until_weekday first wd + (i - 1) * 7 + 1) (month_length y m)); [done|lia].
  - rewrite first_of_month, outcome_bind_ret by done. fold y m first.
    rewrite wdi_weekday_small, weekday_minus_weekday_mod by done.
    unfold weekday_of_sys_days. cbn [weekday_wd]. rewrite weekday_from_days_mod by lia.
    fold wd. fold (until_weekday first wd). uint_step. rewrite i32_small by lia.
    rewrite int_add_ok, outcome_bind_ret by lia.
    rewrite ymdl_day_spec, outcome_bind_ret by done. fold y m.
    unfold day_unsigned. cbn [day_d]. rewrite u32_small by lia.
    unfold nth_weekday_day. fold first. by rewrite Z.add_assoc.
Qed.
End nth.

(** [ok()] is false as soon as one of its parts is. *)
Lemma ymwd_ok_parts x :
  ymwd_ok x = Ret true →
  year_ok (ymwd_y x) = true ∧ month_ok (ymwd_m x) = true
  ∧ weekday_ok (wdi_weekday (ymwd_wdi x)) = true ∧ 1 ≤ wdi_index_ (ymwd_wdi x).
Proof.
  unfold ymwd_ok, wdi_index.
  destruct (year_ok (ymwd_y x)), (month_ok (ymwd_m x)), (weekday_ok (wdi_weekday (ymwd_wdi x))),
    (Z.ltb_spec (wdi_index_ (ymwd_wdi x)) 1); cbn [negb orb]; try discriminate.
  intros _. auto.
Qed.

(** The date that a day number is the n-th weekday of. *)
Lemma ymwd_from_days_ok z :
  first_day ≤ z ≤ last_day →
  ∃ y m d, -32767 ≤ y ≤ 32767 ∧ civil_valid y m d ∧ civil_days y m d = z ∧
    ymwd_from_days z = Ret (MkYearMonthWeekday (MkYear y) (MkMonth m)
                              (MkWeekdayIndexed ((z + 4) mod 7) ((d - 1) / 7 + 1))).
Proof.
  intros Hz. destruct (ymd_from_days_ok z Hz) as (y & m & d & E & Hy & Hv & Hc).
  exists y, m, d. repeat (split; [done|]). unfold ymwd_from_days.
  assert (ymd_of_sys_days z = Ret (MkYearMonthDay (MkYear y) (MkMonth m) (MkDay d))) as -> by done.
  rewrite outcome_bind_ret. cbn [ymd_year ymd_month ymd_day ymd_y ymd_m ymd_d].
  unfold weekday_of_sys_days, day_unsigned. cbn [day_d]. rewrite weekday_from_days_mod by lia.
  destruct Hv as [Hm Hd]. pose proof (month_length_bounds y m).
  pose proof (Z.mod_pos_bound (z + 4) 7).
  assert (0 ≤ (d - 1) / 7 ≤ 4) by div_lia. uint_step.
  by rewrite weekday_at_small by lia.
Qed.

#[export] Instance ymwd_serial_laws : DateSerialLaws year_month_weekday first_day last_day.
Proof.
  split.
  - intros x Hwf Hok. change (ymwd_ok x = Ret true) in Hok. destruct (ymwd_ok_parts x Hok) as (Hy & Hm & Hwd & Hi).
    pose proof (nth_bounds x Hwf Hy Hm Hwd Hi) as (Hby & Hbm & Hbw & Hbi & Hbf).
    pose proof (nth_to_days x Hwf Hy Hm Hwd Hi) as Ht.
    rewrite (nth_ok x Hwf Hy Hm Hwd Hi) in Hok. injection Hok as Hle%Z.leb_le.
    set (y := year_y (ymwd_y x)) in *. set (m := month_m (ymwd_m x)) in *.
    set (wd := wdi_wd (ymwd_wdi x)) in *. set (i := wdi_index_ (ymwd_wdi x)) in *.
    pose proof (until_weekday_bounds (civil_days y m 1) wd) as Hu.
    set (d := nth_weekday_day y m wd i) in *.
    assert (1 ≤ d) by (unfold d, nth_weekday_day; lia).
    assert (first_day ≤ civil_days y m d ≤ last_day) as Hr by (apply civil_days_month_range; lia).
    exists (civil_days y m d). split; [exact Ht|]. split; [exact Hr|].
    destruct (ymwd_from_days_ok _ Hr) as (y' & m' & d' & _ & Hv' & Hc & E).
    etransitivity; [exact E|].
    assert (civil_valid y m d) as Hv by (split; lia).
    destruct (civil_days_inj _ _ _ _ _ _ Hv' Hv Hc) as (-> & -> & ->).
    assert (civil_days y m d = civil_days y m 1 + until_weekday (civil_days y m 1) wd + (i - 1) * 7)
      as Ed by (unfold d, nth_weekday_day; generalize (until_weekday (civil_days y m 1) wd); intros; unfold civil_days; lia).
    assert ((civil_days y m d + 4) mod 7 = wd) as ->.
    { rewrite Ed.
      replace (civil_days y m 1 + until_weekday (civil_days y m 1) wd + (i - 1) * 7 + 4)
        with (civil_days y m 1 + until_weekday (civil_days y m 1) wd + 4 + (i - 1) * 7) by lia.
      rewrite Z.mod_add by lia. by apply until_weekday_reaches. }
    assert ((d - 1) / 7 + 1 = i) as -> by (unfold d, nth_weekday_day; div_lia).
    unfold y, m, wd, i. by destruct x as [[] [] []].
  - intros z Hz. destruct (ymwd_from_days_ok z Hz) as (y & m & d & Hy & [Hm Hd] & Hc & E).
    set (x := MkYearMonthWeekday _ _ _) in E. exists x. split; [exact E|].
    pose proof (month_length_bounds y m). pose proof (Z.mod_pos_bound (z + 4) 7).
    assert (0 ≤ (d - 1) / 7 ≤ 4) by div_lia.
    assert (wf x = true) as Hwf.
    { apply ymwd_wf_spec. rewrite year_wf_spec. cbn. lia. }
    assert (year_ok (ymwd_y x) = true) as Hyo by (apply year_ok_spec; [apply year_wf_spec|]; cbn; lia).
    assert (month_ok (ymwd_m x) = true) as Hmo by (apply month_ok_spec; done).
    assert (weekday_ok (wdi_weekday (ymwd_wdi x)) = true) as Hwo.
    { rewrite wdi_weekday_small by (cbn; lia). apply Z.leb_le. cbn. lia. }
    assert (1 ≤ wdi_index_ (ymwd_wdi x)) as Hio by (cbn; lia).
    assert (nth_weekday_day y m ((z + 4) mod 7) ((d - 1) / 7 + 1) = d) as Ed.
    { unfold nth_weekday_day.
      replace z with (civil_days y m 1 + (d - 1)) by (unfold civil_days in *; lia).
      rewrite until_weekday_unique by lia. div_lia. }
    split; [done|]. split.
    + etransitivity; [exact (nth_ok x Hwf Hyo Hmo Hwo Hio)|]. cbn. rewrite Ed.
      f_equal. apply Z.leb_le. lia.
    + etransitivity; [exact (nth_to_days x Hwf Hyo Hmo Hwo Hio)|]. cbn. by rewrite Ed, Hc.
Qed.

(** ** The last weekday of a month *)

(** The years that are not [ok()] included: the conversion itself does not test them. *)
Lemma ymwdl_to_days_wf y m wd :
  wf y = true → month_ok m = true → 0 ≤ weekday_wd wd < 7 →
  ∃ d, ymwdl_to_days (ym_div_wdl (year_div_month y m) (weekday_at_last wd last))
       = Ret (civil_days (year_y y) (month_m m) d)
    ∧ month_length (year_y y) (month_m m) - 7 < d ≤ month_length (year_y y) (month_m m)
    ∧ (civil_days (year_y y) (month_m m) d + 4) mod 7 = weekday_wd wd.
Proof.
  intros Hwy Hm Hwd. pose proof Hm as Hm'%month_ok_spec. pose proof Hwy as Hy%year_wf_spec.
  unfold ymwdl_to_days. cbn [ym_div_wdl year_month_weekday_last_ctor ymwdl_y ymwdl_m ymwdl_wdl
    ym_year ym_month year_div_month year_month_ctor ym_y ym_m weekday_at_last weekday_last_ctor
    wdl_weekday wdl_wd].
  change (MkYearMonth y m) with (year_div_month y m).
  rewrite last_of_month, outcome_bind_ret by done.
  set (len := month_length (year_y y) (month_m m)).
  assert (28 ≤ len ≤ 31) as Hl by apply month_length_bounds.
  assert (-12687794 ≤ civil_days (year_y y) (month_m m) len ≤ last_day) as Hr.
  { apply civil_days_short; lia. }
  set (z := civil_days (year_y y) (month_m m) len) in *.
  rewrite weekday_minus_weekday_mod. unfold weekday_of_sys_days. cbn [weekday_wd].
  rewrite weekday_from_days_mod by lia.
  pose proof (Z.mod_pos_bound ((z + 4) mod 7 - weekday_wd wd) 7) as Hb.
  set (k := ((z + 4) mod 7 - weekday_wd wd) mod 7) in *.
  exists (len - k).
  assert (civil_days (year_y y) (month_m m) (len - k) = z - k) as -> by (unfold z, civil_days; lia).
  split; [rewrite int_sub_ok by lia; done|]. split; [lia|]. unfold k. div_lia.
Qed.

Lemma ymwdl_to_days_spec x :
  wf x = true → ymwdl_ok x = true →
  let y := year_y (ymwdl_y x) in let m := month_m (ymwdl_m x) in
  let wd := weekday_wd (wdl_wd (ymwdl_wdl x)) in
  ∃ d, ymwdl_to_days x = Ret (civil_days y m d)
    ∧ month_length y m - 7 < d ≤ month_length y m
    ∧ weekday_of_sys_days (civil_days y m d) = MkWeekday wd.
Proof.
  intros Hwf Hok y m wd. unfold wf, year_month_weekday_last_wf, wf at 3, weekday_last_wf in Hwf.
  apply andb_true_iff in Hwf as [[Hwy Hwm]%andb_true_iff Hww].
  unfold ymwdl_ok in Hok. apply andb_true_iff in Hok as [[Hy Hm]%andb_true_iff Hwd].
  apply (weekday_ok_spec _ Hww) in Hwd. fold wd in Hwd.
  destruct x as [yy mm [ww]]. cbn [ymwdl_y ymwdl_m ymwdl_wdl wdl_wd] in *.
  destruct (ymwdl_to_days_wf yy mm ww Hwy Hm) as (d & E & Hd & Hw); [fold wd; lia|].
  exists d. split; [exact E|]. split; [exact Hd|].
  pose proof (proj1 (year_ok_spec _ Hwy) Hy) as Hy'. pose proof (proj1 (month_ok_spec _) Hm) as Hm'.
  pose proof (month_length_bounds y m). fold y m wd in Hy', Hm', Hd, Hw |- *.
  pose proof (civil_days_month_range y m d Hy' Hm').
  unfold weekday_of_sys_days. rewrite weekday_from_days_mod by lia. by rewrite Hw.
Qed.
