(* ===== verification/IsoWeek.v ===== *)
(** IsoWeek: the ISO week calendar of include/date/iso_week.h: the fields [weekday] (Monday is 1),
    [year] and [weeknum], their combinations, and the conversions between a year, week and weekday
    and the serial day number.

    The classes that share a name with one of date.h are prefixed with [iso_].  The header is built
    on date.h: the weeks of a year are counted from the last Thursday of the December before. *)

From Stdlib Require Import ZArith Lia.
From stdpp Require Import base list.
From S2P Require Import Prelude Memory Calendar DateUnits DateFields DateYmd DateYmw.

(** The tag of [last]. [src: include/date/iso_week.h 48-51 last_week] *)
Inductive last_week : Type := iso_last.

(** [trunc<weeks>] of a duration of days: division toward zero.
    [src: include/date/date.h 1192-1203 trunc] *)
Definition trunc_weeks (d : days) : weeks := c_div d 7.

(** A [weeks] added to days: seven days each. *)
Definition weeks_to_days (w : weeks) : days := i32 (7 * w).

(** ** weekday *)

(** [src: include/date/iso_week.h 94-120 weekday] *)
Record iso_weekday : Type := MkIsoWeekday { iso_wd : Z }.

#[export] Instance iso_weekday_eq_dec : EqDecision iso_weekday.
Proof. solve_decision. Defined.

(** [src: include/date/iso_week.h 420-426 weekday::to_iso_encoding] *)
Definition to_iso_encoding (z : Z) : Z := if negb (z =? 0) then z else 7.

(** [src: include/date/iso_week.h 428-434 weekday::from_iso_encoding] *)
Definition from_iso_encoding (z : Z) : Z := if negb (z =? 7) then z else 0.

(** [src: include/date/iso_week.h 436-443 weekday::weekday_from_days] *)
Definition iso_weekday_from_days (z : Z) : outcome Z :=
  n ← (if -4 <=? z then s ← int_add z 4; Ret (c_rem s 7)
       else s ← int_add z 5; int_add (c_rem s 7) 6);
  Ret (to_iso_encoding (u8 (u32 n))).

(** [src: include/date/iso_week.h 445-449 weekday::weekday] *)
Definition iso_weekday_ctor (wd : Z) : iso_weekday := MkIsoWeekday (u8 wd).

(** [src: include/date/iso_week.h 451-455 weekday::weekday] *)
Definition iso_weekday_of_weekday (wd : weekday) : iso_weekday :=
  MkIsoWeekday (u8 (weekday_iso_encoding wd)).

(** [src: include/date/iso_week.h 457-461 weekday::weekday] *)
Definition iso_weekday_of_sys_days (dp : sys_days) : outcome iso_weekday :=
  wd ← iso_weekday_from_days dp; Ret (MkIsoWeekday wd).

(** [src: include/date/iso_week.h 463-467 weekday::weekday] *)
Definition iso_weekday_of_local_days (dp : local_days) : outcome iso_weekday :=
  wd ← iso_weekday_from_days dp; Ret (MkIsoWeekday wd).

(** [src: include/date/iso_week.h 490-495 weekday::operator unsigned] *)
Definition iso_weekday_unsigned (this : iso_weekday) : Z := iso_wd this.

(** [src: include/date/iso_week.h 497-502 weekday::operator date::weekday] *)
Definition iso_weekday_to_weekday (this : iso_weekday) : weekday :=
  weekday_ctor (from_iso_encoding (iso_wd this)).

(** [src: include/date/iso_week.h 504-504 weekday::ok] *)
Definition iso_weekday_ok (this : iso_weekday) : bool := (1 <=? iso_wd this) && (iso_wd this <=? 7).

(** [src: include/date/iso_week.h 469-469 weekday::operator++] *)
Definition iso_weekday_pre_inc (this : iso_weekday) : iso_weekday :=
  let wd' := u8 (iso_wd this + 1) in
  if wd' =? 8 then MkIsoWeekday 1 else MkIsoWeekday wd'.

(** [src: include/date/iso_week.h 471-471 weekday::operator--] *)
Definition iso_weekday_pre_dec (this : iso_weekday) : iso_weekday :=
  let wd' := u8 (iso_wd this - 1) in
  if iso_wd this =? 1 then MkIsoWeekday 7 else MkIsoWeekday wd'.

(** [src: include/date/iso_week.h 470-470 weekday::operator++] *)
Definition iso_weekday_post_inc (this : iso_weekday) : iso_weekday * iso_weekday := (this, iso_weekday_pre_inc this).

(** [src: include/date/iso_week.h 472-472 weekday::operator--] *)
Definition iso_weekday_post_dec (this : iso_weekday) : iso_weekday * iso_weekday := (this, iso_weekday_pre_dec this).

(** [src: include/date/iso_week.h 506-512 operator==] *)
Definition iso_weekday_eq (x y : iso_weekday) : bool :=
  iso_weekday_unsigned x =? iso_weekday_unsigned y.

(** [src: include/date/iso_week.h 514-520 operator!=] *)
Definition iso_weekday_ne (x y : iso_weekday) : bool := negb (iso_weekday_eq x y).

(** [src: include/date/iso_week.h 522-529 operator-] *)
Definition iso_weekday_minus_weekday (x y : iso_weekday) : days :=
  let diff := uint_sub (iso_weekday_unsigned x) (iso_weekday_unsigned y) in
  i32 (if diff <=? 6 then diff else uint_add diff 7).

(** [src: include/date/iso_week.h 531-539 operator+] *)
Definition iso_weekday_plus_days (x : iso_weekday) (y : days) : iso_weekday :=
  let wdu := uint_sub (iso_weekday_unsigned x) 1 + y in
  let wk := c_div (if 0 <=? wdu then wdu else wdu - 6) 7 in
  iso_weekday_ctor (uint_add (u32 (wdu - wk * 7)) 1).

(** [src: include/date/iso_week.h 541-547 operator+] *)
Definition days_plus_iso_weekday (x : days) (y : iso_weekday) : iso_weekday :=
  iso_weekday_plus_days y x.

(** [src: include/date/iso_week.h 549-555 operator-] *)
Definition iso_weekday_minus_days (x : iso_weekday) (y : days) : outcome iso_weekday :=
  y' ← duration_neg y; Ret (iso_weekday_plus_days x y').

(** [src: include/date/iso_week.h 474-480 weekday::operator+=] *)
Definition iso_weekday_add_assign (this : iso_weekday) (d : days) : iso_weekday := iso_weekday_plus_days this d.

(** [src: include/date/iso_week.h 482-488 weekday::operator-=] *)
Definition iso_weekday_sub_assign (this : iso_weekday) (d : days) : outcome iso_weekday := iso_weekday_minus_days this d.

(** [src: include/date/iso_week.h 754-754 sun] *)
Definition iso_sun : iso_weekday := iso_weekday_ctor 7.

(** [src: include/date/iso_week.h 755-755 mon] *)
Definition iso_mon : iso_weekday := iso_weekday_ctor 1.

(** [src: include/date/iso_week.h 756-756 tue] *)
Definition iso_tue : iso_weekday := iso_weekday_ctor 2.

(** [src: include/date/iso_week.h 757-757 wed] *)
Definition iso_wed : iso_weekday := iso_weekday_ctor 3.

(** [src: include/date/iso_week.h 758-758 thu] *)
Definition iso_thu : iso_weekday := iso_weekday_ctor 4.

(** [src: include/date/iso_week.h 759-759 fri] *)
Definition iso_fri : iso_weekday := iso_weekday_ctor 5.

(** [src: include/date/iso_week.h 760-760 sat] *)
Definition iso_sat : iso_weekday := iso_weekday_ctor 6.

(** ** year *)

(** [src: include/date/iso_week.h 136-156 year] *)
Record iso_year : Type := MkIsoYear { iso_y : Z }.

#[export] Instance iso_year_eq_dec : EqDecision iso_year.
Proof. solve_decision. Defined.

(** [src: include/date/iso_week.h 594-594 year::year] *)
Definition iso_year_ctor (y : Z) : iso_year := MkIsoYear (i16 y).

(** [src: include/date/iso_week.h 602-602 year::operator int] *)
Definition iso_year_int (this : iso_year) : Z := iso_y this.

(** [std::chrono::minutes] counts in 64 bits, so the years are those of a [short].
    [src: include/date/iso_week.h 605-619 year::min] *)
Definition iso_year_min : iso_year := iso_year_ctor (-32768).

(** [src: include/date/iso_week.h 621-635 year::max] *)
Definition iso_year_max : iso_year := iso_year_ctor 32767.

(** [src: include/date/iso_week.h 595-595 year::operator++] *)
Definition iso_year_pre_inc (this : iso_year) : iso_year := MkIsoYear (i16 (iso_y this + 1)).

(** [src: include/date/iso_week.h 597-597 year::operator--] *)
Definition iso_year_pre_dec (this : iso_year) : iso_year := MkIsoYear (i16 (iso_y this - 1)).

(** [src: include/date/iso_week.h 596-596 year::operator++] *)
Definition iso_year_post_inc (this : iso_year) : iso_year * iso_year := (this, iso_year_pre_inc this).

(** [src: include/date/iso_week.h 598-598 year::operator--] *)
Definition iso_year_post_dec (this : iso_year) : iso_year * iso_year := (this, iso_year_pre_dec this).

(** [src: include/date/iso_week.h 637-643 operator==] *)
Definition iso_year_eq (x y : iso_year) : bool :=
  iso_year_int x =? iso_year_int y.

(** [src: include/date/iso_week.h 645-651 operator!=] *)
Definition iso_year_ne (x y : iso_year) : bool := negb (iso_year_eq x y).

(** [src: include/date/iso_week.h 653-659 operator<] *)
Definition iso_year_lt (x y : iso_year) : bool :=
  iso_year_int x <? iso_year_int y.

(** [src: include/date/iso_week.h 661-667 operator>] *)
Definition iso_year_gt (x y : iso_year) : bool := iso_year_lt y x.

(** [src: include/date/iso_week.h 669-675 operator<=] *)
Definition iso_year_le (x y : iso_year) : bool := negb (iso_year_lt y x).

(** [src: include/date/iso_week.h 677-683 operator>=] *)
Definition iso_year_ge (x y : iso_year) : bool := negb (iso_year_lt x y).

#[export] Instance iso_year_relational : Relational iso_year :=
  { rel_eq := iso_year_eq; rel_ne := iso_year_ne; rel_lt := iso_year_lt; rel_gt := iso_year_gt;
     rel_le := iso_year_le; rel_ge := iso_year_ge }.

(** [src: include/date/iso_week.h 603-603 year::ok] *)
Definition iso_year_ok (this : iso_year) : bool :=
  iso_year_le iso_year_min this && iso_year_le this iso_year_max.

(** [src: include/date/iso_week.h 685-691 operator-] *)
Definition iso_year_minus_year (x y : iso_year) : years := iso_year_int x - iso_year_int y.

(** [src: include/date/iso_week.h 693-699 operator+] *)
Definition iso_year_plus_years (x : iso_year) (y : years) : outcome iso_year :=
  s ← int_add (iso_year_int x) y; Ret (iso_year_ctor s).

(** [src: include/date/iso_week.h 701-707 operator+] *)
Definition years_plus_iso_year (x : years) (y : iso_year) : outcome iso_year :=
  iso_year_plus_years y x.

(** [src: include/date/iso_week.h 709-715 operator-] *)
Definition iso_year_minus_years (x : iso_year) (y : years) : outcome iso_year :=
  s ← int_sub (iso_year_int x) y; Ret (iso_year_ctor s).

(** [src: include/date/iso_week.h 599-599 year::operator+=] *)
Definition iso_year_add_assign (this : iso_year) (y : years) : outcome iso_year := iso_year_plus_years this y.

(** [src: include/date/iso_week.h 600-600 year::operator-=] *)
Definition iso_year_sub_assign (this : iso_year) (y : years) : outcome iso_year := iso_year_minus_years this y.

(** [src: include/date/iso_week.h 734-740 _y] *)
Definition iso_year_literal (y : Z) : iso_year := iso_year_ctor (i32 y).

(** ** weeknum *)

(** [src: include/date/iso_week.h 176-193 weeknum] *)
Record weeknum : Type := MkWeeknum { wn_ : Z }.

#[export] Instance weeknum_eq_dec : EqDecision weeknum.
Proof. solve_decision. Defined.

(** [src: include/date/iso_week.h 768-772 weeknum::weeknum] *)
Definition weeknum_ctor (wn : Z) : weeknum := MkWeeknum (u8 wn).

(** [src: include/date/iso_week.h 795-795 weeknum::operator unsigned] *)
Definition weeknum_unsigned (this : weeknum) : Z := wn_ this.

(** [src: include/date/iso_week.h 796-796 weeknum::ok] *)
Definition weeknum_ok (this : weeknum) : bool := (1 <=? wn_ this) && (wn_ this <=? 53).

(** [src: include/date/iso_week.h 774-774 weeknum::operator++] *)
Definition weeknum_pre_inc (this : weeknum) : weeknum := MkWeeknum (u8 (wn_ this + 1)).

(** [src: include/date/iso_week.h 776-776 weeknum::operator--] *)
Definition weeknum_pre_dec (this : weeknum) : weeknum := MkWeeknum (u8 (wn_ this - 1)).

(** [src: include/date/iso_week.h 775-775 weeknum::operator++] *)
Definition weeknum_post_inc (this : weeknum) : weeknum * weeknum := (this, weeknum_pre_inc this).

(** [src: include/date/iso_week.h 777-777 weeknum::operator--] *)
Definition weeknum_post_dec (this : weeknum) : weeknum * weeknum := (this, weeknum_pre_dec this).

(** [src: include/date/iso_week.h 798-804 operator==] *)
Definition weeknum_eq (x y : weeknum) : bool :=
  weeknum_unsigned x =? weeknum_unsigned y.

(** [src: include/date/iso_week.h 806-812 operator!=] *)
Definition weeknum_ne (x y : weeknum) : bool := negb (weeknum_eq x y).

(** [src: include/date/iso_week.h 814-820 operator<] *)
Definition weeknum_lt (x y : weeknum) : bool :=
  weeknum_unsigned x <? weeknum_unsigned y.

(** [src: include/date/iso_week.h 822-828 operator>] *)
Definition weeknum_gt (x y : weeknum) : bool := weeknum_lt y x.

(** [src: include/date/iso_week.h 830-836 operator<=] *)
Definition weeknum_le (x y : weeknum) : bool := negb (weeknum_lt y x).

(** [src: include/date/iso_week.h 838-844 operator>=] *)
Definition weeknum_ge (x y : weeknum) : bool := negb (weeknum_lt x y).

#[export] Instance weeknum_relational : Relational weeknum :=
  { rel_eq := weeknum_eq; rel_ne := weeknum_ne; rel_lt := weeknum_lt; rel_gt := weeknum_gt;
     rel_le := weeknum_le; rel_ge := weeknum_ge }.

(** [src: include/date/iso_week.h 846-853 operator-] *)
Definition weeknum_minus_weeknum (x y : weeknum) : weeks :=
  i32 (weeknum_unsigned x) - i32 (weeknum_unsigned y).

(** [src: include/date/iso_week.h 855-861 operator+] *)
Definition weeknum_plus_weeks (x : weeknum) (y : weeks) : weeknum :=
  weeknum_ctor (uint_add (weeknum_unsigned x) (u32 y)).

(** [src: include/date/iso_week.h 863-869 operator+] *)
Definition weeks_plus_weeknum (x : weeks) (y : weeknum) : weeknum := weeknum_plus_weeks y x.

(** [src: include/date/iso_week.h 871-877 operator-] *)
Definition weeknum_minus_weeks (x : weeknum) (y : weeks) : outcome weeknum :=
  y' ← duration_neg y; Ret (weeknum_plus_weeks x y').

(** [src: include/date/iso_week.h 779-785 weeknum::operator+=] *)
Definition weeknum_add_assign (this : weeknum) (y : weeks) : weeknum := weeknum_plus_weeks this y.

(** [src: include/date/iso_week.h 787-793 weeknum::operator-=] *)
Definition weeknum_sub_assign (this : weeknum) (y : weeks) : outcome weeknum := weeknum_minus_weeks this y.

(** [src: include/date/iso_week.h 742-748 _w] *)
Definition weeknum_literal (wn : Z) : weeknum := weeknum_ctor (u32 wn).

(** ** year_lastweek *)

(** [src: include/date/iso_week.h 247-261 year_lastweek] *)
Record year_lastweek : Type := MkYearLastweek { yl_y : iso_year }.

#[export] Instance year_lastweek_eq_dec : EqDecision year_lastweek.
Proof. solve_decision. Defined.

(** [src: include/date/iso_week.h 1010-1014 year_lastweek::year_lastweek] *)
Definition year_lastweek_ctor (y : iso_year) : year_lastweek := MkYearLastweek y.

(** [src: include/date/iso_week.h 1016-1016 year_lastweek::year] *)
Definition yl_year (this : year_lastweek) : iso_year := yl_y this.

(** The number of weeks between the last Thursdays of two Decembers.
    [src: include/date/iso_week.h 1018-1027 year_lastweek::weeknum] *)
Definition yl_weeknum (this : year_lastweek) : outcome weeknum :=
  let y := year_ctor (iso_year_int (yl_y this)) in
  y0 ← year_minus_years y 1;
  s0 ← ymwdl_sys_days (ym_div_wdl (year_div_int y0 12) (weekday_at_last thu last));
  s1 ← ymwdl_sys_days (ym_div_wdl (year_div_int y 12) (weekday_at_last thu last));
  d ← int_sub s1 s0;
  Ret (weeknum_ctor (u32 (trunc_weeks d))).

(** [src: include/date/iso_week.h 1029-1029 year_lastweek::ok] *)
Definition yl_ok (this : year_lastweek) : bool := iso_year_ok (yl_y this).

(** [src: include/date/iso_week.h 1621-1627 operator/] *)
Definition iso_year_div_last (y : iso_year) (_ : last_week) : year_lastweek := year_lastweek_ctor y.

(** [src: include/date/iso_week.h 1047-1053 operator==] *)
Definition yl_eq (x y : year_lastweek) : bool :=
  iso_year_eq (yl_year x) (yl_year y).

(** [src: include/date/iso_week.h 1055-1061 operator!=] *)
Definition yl_ne (x y : year_lastweek) : bool := negb (yl_eq x y).

(** [src: include/date/iso_week.h 1063-1069 operator<] *)
Definition yl_lt (x y : year_lastweek) : bool :=
  iso_year_lt (yl_year x) (yl_year y).

(** [src: include/date/iso_week.h 1071-1077 operator>] *)
Definition yl_gt (x y : year_lastweek) : bool := yl_lt y x.

(** [src: include/date/iso_week.h 1079-1085 operator<=] *)
Definition yl_le (x y : year_lastweek) : bool := negb (yl_lt y x).

(** [src: include/date/iso_week.h 1087-1093 operator>=] *)
Definition yl_ge (x y : year_lastweek) : bool := negb (yl_lt x y).

#[export] Instance yl_relational : Relational year_lastweek :=
  { rel_eq := yl_eq; rel_ne := yl_ne; rel_lt := yl_lt; rel_gt := yl_gt;
     rel_le := yl_le; rel_ge := yl_ge }.

(** [src: include/date/iso_week.h 1095-1101 operator+] *)
Definition yl_plus_years (ym : year_lastweek) (dy : years) : outcome year_lastweek :=
  y ← iso_year_plus_years (yl_year ym) dy; Ret (year_lastweek_ctor y).

(** [src: include/date/iso_week.h 1103-1109 operator+] *)
Definition years_plus_yl (dy : years) (ym : year_lastweek) : outcome year_lastweek :=
  yl_plus_years ym dy.

(** [src: include/date/iso_week.h 1111-1117 operator-] *)
Definition yl_minus_years (ym : year_lastweek) (dy : years) : outcome year_lastweek :=
  dy' ← duration_neg dy; yl_plus_years ym dy'.

(** [src: include/date/iso_week.h 1031-1037 year_lastweek::operator+=] *)
Definition yl_add_assign (this : year_lastweek) (dy : years) : outcome year_lastweek := yl_plus_years this dy.

(** [src: include/date/iso_week.h 1039-1045 year_lastweek::operator-=] *)
Definition yl_sub_assign (this : year_lastweek) (dy : years) : outcome year_lastweek := yl_minus_years this dy.

(** ** year_weeknum *)

(** [src: include/date/iso_week.h 213-228 year_weeknum] *)
Record year_weeknum : Type := MkYearWeeknum { ywn_y : iso_year; ywn_wn : weeknum }.

#[export] Instance year_weeknum_eq_dec : EqDecision year_weeknum.
Proof. solve_decision. Defined.

(** [src: include/date/iso_week.h 895-900 year_weeknum::year_weeknum] *)
Definition year_weeknum_ctor (y : iso_year) (wn : weeknum) : year_weeknum := MkYearWeeknum y wn.

(** [src: include/date/iso_week.h 902-902 year_weeknum::year] *)
Definition ywn_year (this : year_weeknum) : iso_year := ywn_y this.

(** [src: include/date/iso_week.h 903-903 year_weeknum::weeknum] *)
Definition ywn_weeknum (this : year_weeknum) : weeknum := ywn_wn this.

(** [src: include/date/iso_week.h 904-907 year_weeknum::ok] *)
Definition ywn_ok (this : year_weeknum) : outcome bool :=
  if iso_year_ok (ywn_y this) && (1 <=? weeknum_unsigned (ywn_wn this)) then
    last_wn ← yl_weeknum (iso_year_div_last (ywn_y this) iso_last);
    Ret (weeknum_le (ywn_wn this) last_wn)
  else Ret false.

(** [src: include/date/iso_week.h 1605-1611 operator/] *)
Definition iso_year_div_weeknum (y : iso_year) (wn : weeknum) : year_weeknum :=
  year_weeknum_ctor y wn.

(** [src: include/date/iso_week.h 1613-1619 operator/] *)
Definition iso_year_div_int (y : iso_year) (wn : Z) : year_weeknum :=
  iso_year_div_weeknum y (weeknum_ctor (u32 wn)).

(** [src: include/date/iso_week.h 925-931 operator==] *)
Definition ywn_eq (x y : year_weeknum) : bool :=
  iso_year_eq (ywn_year x) (ywn_year y) && weeknum_eq (ywn_weeknum x) (ywn_weeknum y).

(** [src: include/date/iso_week.h 933-939 operator!=] *)
Definition ywn_ne (x y : year_weeknum) : bool := negb (ywn_eq x y).

(** [src: include/date/iso_week.h 941-949 operator<] *)
Definition ywn_lt (x y : year_weeknum) : bool :=
  if iso_year_lt (ywn_year x) (ywn_year y) then true
  else if iso_year_gt (ywn_year x) (ywn_year y) then false
  else weeknum_lt (ywn_weeknum x) (ywn_weeknum y).

(** [src: include/date/iso_week.h 951-957 operator>] *)
Definition ywn_gt (x y : year_weeknum) : bool := ywn_lt y x.

(** [src: include/date/iso_week.h 959-965 operator<=] *)
Definition ywn_le (x y : year_weeknum) : bool := negb (ywn_lt y x).

(** [src: include/date/iso_week.h 967-973 operator>=] *)
Definition ywn_ge (x y : year_weeknum) : bool := negb (ywn_lt x y).

#[export] Instance ywn_relational : Relational year_weeknum :=
  { rel_eq := ywn_eq; rel_ne := ywn_ne; rel_lt := ywn_lt; rel_gt := ywn_gt;
     rel_le := ywn_le; rel_ge := ywn_ge }.

(** [src: include/date/iso_week.h 975-981 operator+] *)
Definition ywn_plus_years (ym : year_weeknum) (dy : years) : outcome year_weeknum :=
  y ← iso_year_plus_years (ywn_year ym) dy; Ret (iso_year_div_weeknum y (ywn_weeknum ym)).

(** [src: include/date/iso_week.h 983-989 operator+] *)
Definition years_plus_ywn (dy : years) (ym : year_weeknum) : outcome year_weeknum :=
  ywn_plus_years ym dy.

(** [src: include/date/iso_week.h 991-997 operator-] *)
Definition ywn_minus_years (ym : year_weeknum) (dy : years) : outcome year_weeknum :=
  dy' ← duration_neg dy; ywn_plus_years ym dy'.

(** [src: include/date/iso_week.h 909-915 year_weeknum::operator+=] *)
Definition ywn_add_assign (this : year_weeknum) (dy : years) : outcome year_weeknum := ywn_plus_years this dy.

(** [src: include/date/iso_week.h 917-923 year_weeknum::operator-=] *)
Definition ywn_sub_assign (this : year_weeknum) (dy : years) : outcome year_weeknum := ywn_minus_years this dy.
