(* ===== verification/IsoWeekDate.v ===== *)
(** IsoWeekDate: the combinations of include/date/iso_week.h that contain a weekday,
    [weeknum_weekday], [lastweek_weekday], [year_lastweek_weekday] and [year_weeknum_weekday],
    with the conversions to and from serial day numbers. *)

From Stdlib Require Import ZArith Lia.
From stdpp Require Import base list.
From S2P Require Import Prelude Memory Calendar DateUnits DateFields DateYmd DateYmw IsoWeek.

(** ** weeknum_weekday *)

(** [src: include/date/iso_week.h 280-293 weeknum_weekday] *)
Record weeknum_weekday : Type := MkWeeknumWeekday { wnwd_wn : weeknum; wnwd_wd : iso_weekday }.

#[export] Instance weeknum_weekday_eq_dec : EqDecision weeknum_weekday.
Proof. solve_decision. Defined.

(** [src: include/date/iso_week.h 1129-1135 weeknum_weekday::weeknum_weekday] *)
Definition weeknum_weekday_ctor (wn : weeknum) (wd : iso_weekday) : weeknum_weekday :=
  MkWeeknumWeekday wn wd.

(** [src: include/date/iso_week.h 1137-1137 weeknum_weekday::weeknum] *)
Definition wnwd_weeknum (this : weeknum_weekday) : weeknum := wnwd_wn this.

(** [src: include/date/iso_week.h 1138-1138 weeknum_weekday::weekday] *)
Definition wnwd_weekday (this : weeknum_weekday) : iso_weekday := wnwd_wd this.

(** [src: include/date/iso_week.h 1140-1146 weeknum_weekday::ok] *)
Definition wnwd_ok (this : weeknum_weekday) : bool :=
  weeknum_ok (wnwd_wn this) && iso_weekday_ok (wnwd_wd this).

(** The comparison of the weekdays as numbers, that the orders below use. *)
Definition iso_weekday_ltb (x y : iso_weekday) : bool :=
  iso_weekday_unsigned x <? iso_weekday_unsigned y.

(** [src: include/date/iso_week.h 1148-1154 operator==] *)
Definition wnwd_eq (x y : weeknum_weekday) : bool :=
  weeknum_eq (wnwd_weeknum x) (wnwd_weeknum y)
  && iso_weekday_eq (wnwd_weekday x) (wnwd_weekday y).

(** [src: include/date/iso_week.h 1156-1162 operator!=] *)
Definition wnwd_ne (x y : weeknum_weekday) : bool := negb (wnwd_eq x y).

(** [src: include/date/iso_week.h 1164-1172 operator<] *)
Definition wnwd_lt (x y : weeknum_weekday) : bool :=
  if weeknum_lt (wnwd_weeknum x) (wnwd_weeknum y) then true
  else if weeknum_gt (wnwd_weeknum x) (wnwd_weeknum y) then false
  else iso_weekday_ltb (wnwd_weekday x) (wnwd_weekday y).

(** [src: include/date/iso_week.h 1174-1180 operator>] *)
Definition wnwd_gt (x y : weeknum_weekday) : bool := wnwd_lt y x.

(** [src: include/date/iso_week.h 1182-1188 operator<=] *)
Definition wnwd_le (x y : weeknum_weekday) : bool := negb (wnwd_lt y x).

(** [src: include/date/iso_week.h 1190-1196 operator>=] *)
Definition wnwd_ge (x y : weeknum_weekday) : bool := negb (wnwd_lt x y).

#[export] Instance wnwd_relational : Relational weeknum_weekday :=
  { rel_eq := wnwd_eq; rel_ne := wnwd_ne; rel_lt := wnwd_lt; rel_gt := wnwd_gt;
     rel_le := wnwd_le; rel_ge := wnwd_ge }.

(** [src: include/date/iso_week.h 1629-1635 operator/] *)
Definition weeknum_div_weekday (wn : weeknum) (wd : iso_weekday) : weeknum_weekday :=
  weeknum_weekday_ctor wn wd.

(** [src: include/date/iso_week.h 1637-1643 operator/] *)
Definition weeknum_div_int (wn : weeknum) (wd : Z) : weeknum_weekday :=
  weeknum_div_weekday wn (iso_weekday_ctor (u32 wd)).

(** [src: include/date/iso_week.h 1645-1651 operator/] *)
Definition weekday_div_weeknum (wd : iso_weekday) (wn : weeknum) : weeknum_weekday :=
  weeknum_div_weekday wn wd.

(** [src: include/date/iso_week.h 1653-1659 operator/] *)
Definition weekday_div_int (wd : iso_weekday) (wn : Z) : weeknum_weekday :=
  weeknum_div_weekday (weeknum_ctor (u32 wn)) wd.

(** ** lastweek_weekday *)

(** [src: include/date/iso_week.h 308-318 lastweek_weekday] *)
Record lastweek_weekday : Type := MkLastweekWeekday { lwwd_wd : iso_weekday }.

#[export] Instance lastweek_weekday_eq_dec : EqDecision lastweek_weekday.
Proof. solve_decision. Defined.

(** [src: include/date/iso_week.h 1208-1212 lastweek_weekday::lastweek_weekday] *)
Definition lastweek_weekday_ctor (wd : iso_weekday) : lastweek_weekday := MkLastweekWeekday wd.

(** [src: include/date/iso_week.h 1214-1214 lastweek_weekday::weekday] *)
Definition lwwd_weekday (this : lastweek_weekday) : iso_weekday := lwwd_wd this.

(** [src: include/date/iso_week.h 1216-1222 lastweek_weekday::ok] *)
Definition lwwd_ok (this : lastweek_weekday) : bool := iso_weekday_ok (lwwd_wd this).

(** [src: include/date/iso_week.h 1224-1230 operator==] *)
Definition lwwd_eq (x y : lastweek_weekday) : bool :=
  iso_weekday_eq (lwwd_weekday x) (lwwd_weekday y).

(** [src: include/date/iso_week.h 1232-1238 operator!=] *)
Definition lwwd_ne (x y : lastweek_weekday) : bool := negb (lwwd_eq x y).

(** [src: include/date/iso_week.h 1240-1246 operator<] *)
Definition lwwd_lt (x y : lastweek_weekday) : bool :=
  iso_weekday_ltb (lwwd_weekday x) (lwwd_weekday y).

(** [src: include/date/iso_week.h 1248-1254 operator>] *)
Definition lwwd_gt (x y : lastweek_weekday) : bool := lwwd_lt y x.

(** [src: include/date/iso_week.h 1256-1262 operator<=] *)
Definition lwwd_le (x y : lastweek_weekday) : bool := negb (lwwd_lt y x).

(** [src: include/date/iso_week.h 1264-1270 operator>=] *)
Definition lwwd_ge (x y : lastweek_weekday) : bool := negb (lwwd_lt x y).

#[export] Instance lwwd_relational : Relational lastweek_weekday :=
  { rel_eq := lwwd_eq; rel_ne := lwwd_ne; rel_lt := lwwd_lt; rel_gt := lwwd_gt;
     rel_le := lwwd_le; rel_ge := lwwd_ge }.

(** [src: include/date/iso_week.h 1661-1667 operator/] *)
Definition last_div_weekday (_ : last_week) (wd : iso_weekday) : lastweek_weekday :=
  lastweek_weekday_ctor wd.

(** [src: include/date/iso_week.h 1669-1675 operator/] *)
Definition last_week_div_int (wn : last_week) (wd : Z) : lastweek_weekday :=
  last_div_weekday wn (iso_weekday_ctor (u32 wd)).

(** [src: include/date/iso_week.h 1677-1683 operator/] *)
Definition weekday_div_last (wd : iso_weekday) (wn : last_week) : lastweek_weekday :=
  last_div_weekday wn wd.

(** ** year_lastweek_weekday *)

(** [src: include/date/iso_week.h 333-352 year_lastweek_weekday] *)
Record year_lastweek_weekday : Type :=
  MkYearLastweekWeekday { ylwd_y : iso_year; ylwd_wd : iso_weekday }.

#[export] Instance year_lastweek_weekday_eq_dec : EqDecision year_lastweek_weekday.
Proof. solve_decision. Defined.

(** [src: include/date/iso_week.h 1282-1288 year_lastweek_weekday::year_lastweek_weekday] *)
Definition year_lastweek_weekday_ctor (y : iso_year) (wd : iso_weekday) : year_lastweek_weekday :=
  MkYearLastweekWeekday y wd.

(** [src: include/date/iso_week.h 1306-1306 year_lastweek_weekday::year] *)
Definition ylwd_year (this : year_lastweek_weekday) : iso_year := ylwd_y this.

(** [src: include/date/iso_week.h 1308-1314 year_lastweek_weekday::weeknum] *)
Definition ylwd_weeknum (this : year_lastweek_weekday) : outcome weeknum :=
  yl_weeknum (iso_year_div_last (ylwd_y this) iso_last).

(** [src: include/date/iso_week.h 1316-1316 year_lastweek_weekday::weekday] *)
Definition ylwd_weekday (this : year_lastweek_weekday) : iso_weekday := ylwd_wd this.

(** [src: include/date/iso_week.h 1318-1324 year_lastweek_weekday::operator sys_days] *)
Definition ylwd_sys_days (this : year_lastweek_weekday) : outcome sys_days :=
  t ← ymwdl_sys_days (ym_div_wdl (year_div_month (year_ctor (iso_year_int (ylwd_y this))) dec)
                        (weekday_at_last thu last));
  s ← int_add t (iso_weekday_minus_weekday iso_sun iso_thu);
  int_sub s (iso_weekday_minus_weekday iso_sun (ylwd_wd this)).

(** [src: include/date/iso_week.h 1326-1332 year_lastweek_weekday::operator local_days] *)
Definition ylwd_local_days (this : year_lastweek_weekday) : outcome local_days :=
  t ← ymwdl_local_days (ym_div_wdl (year_div_month (year_ctor (iso_year_int (ylwd_y this))) dec)
                          (weekday_at_last thu last));
  s ← int_add t (iso_weekday_minus_weekday iso_sun iso_thu);
  int_sub s (iso_weekday_minus_weekday iso_sun (ylwd_wd this)).

(** [src: include/date/iso_week.h 1334-1340 year_lastweek_weekday::ok] *)
Definition ylwd_ok (this : year_lastweek_weekday) : bool :=
  iso_year_ok (ylwd_y this) && iso_weekday_ok (ylwd_wd this).

(** [src: include/date/iso_week.h 1342-1348 operator==] *)
Definition ylwd_eq (x y : year_lastweek_weekday) : bool :=
  iso_year_eq (ylwd_year x) (ylwd_year y)
  && iso_weekday_eq (ylwd_weekday x) (ylwd_weekday y).

(** [src: include/date/iso_week.h 1350-1356 operator!=] *)
Definition ylwd_ne (x y : year_lastweek_weekday) : bool := negb (ylwd_eq x y).

(** [src: include/date/iso_week.h 1358-1366 operator<] *)
Definition ylwd_lt (x y : year_lastweek_weekday) : bool :=
  if iso_year_lt (ylwd_year x) (ylwd_year y) then true
  else if iso_year_gt (ylwd_year x) (ylwd_year y) then false
  else iso_weekday_ltb (ylwd_weekday x) (ylwd_weekday y).

(** [src: include/date/iso_week.h 1368-1374 operator>] *)
Definition ylwd_gt (x y : year_lastweek_weekday) : bool := ylwd_lt y x.

(** [src: include/date/iso_week.h 1376-1382 operator<=] *)
Definition ylwd_le (x y : year_lastweek_weekday) : bool := negb (ylwd_lt y x).

(** [src: include/date/iso_week.h 1384-1390 operator>=] *)
Definition ylwd_ge (x y : year_lastweek_weekday) : bool := negb (ylwd_lt x y).

#[export] Instance ylwd_relational : Relational year_lastweek_weekday :=
  { rel_eq := ylwd_eq; rel_ne := ylwd_ne; rel_lt := ylwd_lt; rel_gt := ylwd_gt;
     rel_le := ylwd_le; rel_ge := ylwd_ge }.

(** [src: include/date/iso_week.h 1717-1723 operator/] *)
Definition yl_div_weekday (ylw : year_lastweek) (wd : iso_weekday) : year_lastweek_weekday :=
  year_lastweek_weekday_ctor (yl_year ylw) wd.

(** [src: include/date/iso_week.h 1725-1731 operator/] *)
Definition yl_div_int (ylw : year_lastweek) (wd : Z) : year_lastweek_weekday :=
  yl_div_weekday ylw (iso_weekday_ctor (u32 wd)).

(** [src: include/date/iso_week.h 1733-1739 operator/] *)
Definition lwwd_div_year (lwwd : lastweek_weekday) (y : iso_year) : year_lastweek_weekday :=
  year_lastweek_weekday_ctor y (lwwd_weekday lwwd).

(** [src: include/date/iso_week.h 1741-1747 operator/] *)
Definition lwwd_div_int (lwwd : lastweek_weekday) (y : Z) : year_lastweek_weekday :=
  lwwd_div_year lwwd (iso_year_ctor y).

(** [src: include/date/iso_week.h 1392-1398 operator+] *)
Definition ylwd_plus_years (ywnwd : year_lastweek_weekday) (y : years)
    : outcome year_lastweek_weekday :=
  y' ← iso_year_plus_years (ylwd_year ywnwd) y;
  Ret (yl_div_weekday (iso_year_div_last y' iso_last) (ylwd_weekday ywnwd)).

(** [src: include/date/iso_week.h 1400-1406 operator+] *)
Definition years_plus_ylwd (y : years) (ywnwd : year_lastweek_weekday)
    : outcome year_lastweek_weekday := ylwd_plus_years ywnwd y.

(** [src: include/date/iso_week.h 1408-1414 operator-] *)
Definition ylwd_minus_years (ywnwd : year_lastweek_weekday) (y : years)
    : outcome year_lastweek_weekday := y' ← duration_neg y; ylwd_plus_years ywnwd y'.

(** [src: include/date/iso_week.h 1290-1296 year_lastweek_weekday::operator+=] *)
Definition ylwd_add_assign (this : year_lastweek_weekday) (y : years) : outcome year_lastweek_weekday := ylwd_plus_years this y.

(** [src: include/date/iso_week.h 1298-1304 year_lastweek_weekday::operator-=] *)
Definition ylwd_sub_assign (this : year_lastweek_weekday) (y : years) : outcome year_lastweek_weekday := ylwd_minus_years this y.

(** ** year_weeknum_weekday *)

(** [src: include/date/iso_week.h 371-397 year_weeknum_weekday] *)
Record year_weeknum_weekday : Type :=
  MkYearWeeknumWeekday { ywnwd_y : iso_year; ywnwd_wn : weeknum; ywnwd_wd : iso_weekday }.

#[export] Instance year_weeknum_weekday_eq_dec : EqDecision year_weeknum_weekday.
Proof. solve_decision. Defined.

(** [src: include/date/iso_week.h 1426-1434 year_weeknum_weekday::year_weeknum_weekday] *)
Definition year_weeknum_weekday_ctor (y : iso_year) (wn : weeknum) (wd : iso_weekday)
    : year_weeknum_weekday := MkYearWeeknumWeekday y wn wd.

(** [src: include/date/iso_week.h 1436-1442 year_weeknum_weekday::year_weeknum_weekday] *)
Definition ywnwd_of_ylwd (ylwwd : year_lastweek_weekday) : outcome year_weeknum_weekday :=
  wn ← ylwd_weeknum ylwwd;
  Ret (MkYearWeeknumWeekday (ylwd_year ylwwd) wn (ylwd_weekday ylwwd)).

(** [src: include/date/iso_week.h 1472-1472 year_weeknum_weekday::year] *)
Definition ywnwd_year (this : year_weeknum_weekday) : iso_year := ywnwd_y this.

(** [src: include/date/iso_week.h 1473-1473 year_weeknum_weekday::weeknum] *)
Definition ywnwd_weeknum (this : year_weeknum_weekday) : weeknum := ywnwd_wn this.

(** [src: include/date/iso_week.h 1474-1474 year_weeknum_weekday::weekday] *)
Definition ywnwd_weekday (this : year_weeknum_weekday) : iso_weekday := ywnwd_wd this.

(** The days from the last Thursday of December to the Monday after, then the weeks, then the days.
    [src: include/date/iso_week.h 1476-1482 year_weeknum_weekday::operator sys_days] *)
Definition ywnwd_sys_days (this : year_weeknum_weekday) : outcome sys_days :=
  y ← int_sub (iso_year_int (ywnwd_y this)) 1;
  t ← ymwdl_sys_days (ym_div_wdl (year_div_month (year_ctor y) dec) (weekday_at_last thu last));
  a ← int_add t (weekday_minus_weekday mon thu);
  b ← int_add a (weeks_to_days (i32 (uint_sub (weeknum_unsigned (ywnwd_wn this)) 1)));
  int_add b (iso_weekday_minus_weekday (ywnwd_wd this) iso_mon).

(** [src: include/date/iso_week.h 1484-1490 year_weeknum_weekday::operator local_days] *)
Definition ywnwd_local_days (this : year_weeknum_weekday) : outcome local_days :=
  y ← int_sub (iso_year_int (ywnwd_y this)) 1;
  t ← ymwdl_local_days (ym_div_wdl (year_div_month (year_ctor y) dec) (weekday_at_last thu last));
  a ← int_add t (weekday_minus_weekday mon thu);
  b ← int_add a (weeks_to_days (i32 (uint_sub (weeknum_unsigned (ywnwd_wn this)) 1)));
  int_add b (iso_weekday_minus_weekday (ywnwd_wd this) iso_mon).

(** [src: include/date/iso_week.h 1492-1498 year_weeknum_weekday::ok] *)
Definition ywnwd_ok (this : year_weeknum_weekday) : outcome bool :=
  if iso_year_ok (ywnwd_y this) && iso_weekday_ok (ywnwd_wd this)
     && weeknum_le (weeknum_ctor 1) (ywnwd_wn this) then
    last_wn ← yl_weeknum (year_lastweek_ctor (ywnwd_y this));
    Ret (weeknum_le (ywnwd_wn this) last_wn)
  else Ret false.

(** The Monday of the first week of a year: four days after the last Thursday of the December
    before. [src: include/date/iso_week.h 1508-1508 year_weeknum_weekday::from_days] *)
Definition iso_year_start (y : year) : outcome sys_days :=
  y0 ← year_minus_years y 1;
  t ← ymwdl_sys_days (ym_div_wdl (year_div_month y0 dec) (weekday_at_last thu last));
  int_add t (iso_weekday_minus_weekday iso_mon iso_thu).

(** [src: include/date/iso_week.h 1500-1517 year_weeknum_weekday::from_days] *)
Definition ywnwd_from_days (d : days) : outcome year_weeknum_weekday :=
  let dp : sys_days := d in
  wd ← iso_weekday_of_sys_days dp;
  dp3 ← int_add dp 3;
  ymd ← ymd_of_sys_days dp3;
  let y := ymd_year ymd in
  start ← iso_year_start y;
  ys ← (if dp <? start then
          let y' := year_pre_dec y in
          start' ← iso_year_start y'; Ret (y', start')
        else Ret (y, start));
  let '(y', start') := ys in
  n ← int_sub dp start';
  wk ← int_add (trunc_weeks n) 1;
  let wn := weeknum_ctor (u32 wk) in
  Ret (year_weeknum_weekday_ctor (iso_year_ctor (year_int y')) wn wd).

(** [src: include/date/iso_week.h 1444-1448 year_weeknum_weekday::year_weeknum_weekday] *)
Definition ywnwd_of_sys_days (dp : sys_days) : outcome year_weeknum_weekday := ywnwd_from_days dp.

(** [src: include/date/iso_week.h 1450-1454 year_weeknum_weekday::year_weeknum_weekday] *)
Definition ywnwd_of_local_days (dp : local_days) : outcome year_weeknum_weekday :=
  ywnwd_from_days dp.

#[export] Instance ywnwd_serial : DateSerial year_weeknum_weekday :=
  { serial_ok := ywnwd_ok; to_serial := ywnwd_sys_days; of_serial := ywnwd_of_sys_days }.

(** [src: include/date/iso_week.h 1519-1525 operator==] *)
Definition ywnwd_eq (x y : year_weeknum_weekday) : bool :=
  iso_year_eq (ywnwd_year x) (ywnwd_year y)
  && weeknum_eq (ywnwd_weeknum x) (ywnwd_weeknum y)
  && iso_weekday_eq (ywnwd_weekday x) (ywnwd_weekday y).

(** [src: include/date/iso_week.h 1527-1533 operator!=] *)
Definition ywnwd_ne (x y : year_weeknum_weekday) : bool := negb (ywnwd_eq x y).

(** [src: include/date/iso_week.h 1535-1545 operator<] *)
Definition ywnwd_lt (x y : year_weeknum_weekday) : bool :=
  if iso_year_lt (ywnwd_year x) (ywnwd_year y) then true
  else if iso_year_gt (ywnwd_year x) (ywnwd_year y) then false
  else if weeknum_lt (ywnwd_weeknum x) (ywnwd_weeknum y) then true
  else if weeknum_gt (ywnwd_weeknum x) (ywnwd_weeknum y) then false
  else iso_weekday_ltb (ywnwd_weekday x) (ywnwd_weekday y).

(** [src: include/date/iso_week.h 1547-1553 operator>] *)
Definition ywnwd_gt (x y : year_weeknum_weekday) : bool := ywnwd_lt y x.

(** [src: include/date/iso_week.h 1555-1561 operator<=] *)
Definition ywnwd_le (x y : year_weeknum_weekday) : bool := negb (ywnwd_lt y x).

(** [src: include/date/iso_week.h 1563-1569 operator>=] *)
Definition ywnwd_ge (x y : year_weeknum_weekday) : bool := negb (ywnwd_lt x y).

#[export] Instance ywnwd_relational : Relational year_weeknum_weekday :=
  { rel_eq := ywnwd_eq; rel_ne := ywnwd_ne; rel_lt := ywnwd_lt; rel_gt := ywnwd_gt;
     rel_le := ywnwd_le; rel_ge := ywnwd_ge }.

(** [src: include/date/iso_week.h 1685-1691 operator/] *)
Definition ywn_div_weekday (ywn : year_weeknum) (wd : iso_weekday) : year_weeknum_weekday :=
  year_weeknum_weekday_ctor (ywn_year ywn) (ywn_weeknum ywn) wd.

(** [src: include/date/iso_week.h 1693-1699 operator/] *)
Definition ywn_div_int (ywn : year_weeknum) (wd : Z) : year_weeknum_weekday :=
  ywn_div_weekday ywn (iso_weekday_ctor (u32 wd)).

(** [src: include/date/iso_week.h 1701-1707 operator/] *)
Definition wnwd_div_year (wnwd : weeknum_weekday) (y : iso_year) : year_weeknum_weekday :=
  year_weeknum_weekday_ctor y (wnwd_weeknum wnwd) (wnwd_weekday wnwd).

(** [src: include/date/iso_week.h 1709-1715 operator/] *)
Definition wnwd_div_int (wnwd : weeknum_weekday) (y : Z) : year_weeknum_weekday :=
  wnwd_div_year wnwd (iso_year_ctor y).

(** [src: include/date/iso_week.h 1571-1577 operator+] *)
Definition ywnwd_plus_years (ywnwd : year_weeknum_weekday) (y : years)
    : outcome year_weeknum_weekday :=
  y' ← iso_year_plus_years (ywnwd_year ywnwd) y;
  Ret (ywn_div_weekday (iso_year_div_weeknum y' (ywnwd_weeknum ywnwd)) (ywnwd_weekday ywnwd)).

(** [src: include/date/iso_week.h 1579-1585 operator+] *)
Definition years_plus_ywnwd (y : years) (ywnwd : year_weeknum_weekday)
    : outcome year_weeknum_weekday := ywnwd_plus_years ywnwd y.

(** [src: include/date/iso_week.h 1587-1593 operator-] *)
Definition ywnwd_minus_years (ywnwd : year_weeknum_weekday) (y : years)
    : outcome year_weeknum_weekday := y' ← duration_neg y; ywnwd_plus_years ywnwd y'.

(** [src: include/date/iso_week.h 1456-1462 year_weeknum_weekday::operator+=] *)
Definition ywnwd_add_assign (this : year_weeknum_weekday) (y : years) : outcome year_weeknum_weekday := ywnwd_plus_years this y.

(** [src: include/date/iso_week.h 1464-1470 year_weeknum_weekday::operator-=] *)
Definition ywnwd_sub_assign (this : year_weeknum_weekday) (y : years) : outcome year_weeknum_weekday := ywnwd_minus_years this y.
