(* ===== verification/IsoProofs.v ===== *)
(** IsoProofs: the ISO week calendar against the reference.  [iso_start y] is the first day of the
    ISO year [y]; the conversions of [year_weeknum_weekday] count weeks and days from it, and the
    class satisfies the laws of [DateSerial]. *)

From Stdlib Require Import ZArith Lia.
From stdpp Require Import base list.
From S2P Require Import Prelude Memory Calendar Civil DateUnits DateFields DateYmd DateYmw DateSerial DateNth IsoWeek IsoWeekDate.

#[export] Instance iso_weekday_wf : WellFormed iso_weekday := λ x, is_u8 (iso_wd x).
#[export] Instance weeknum_wf : WellFormed weeknum := λ x, is_u8 (wn_ x).
(** The years whose predecessor is also a [short]: all but -32768. *)
#[export] Instance iso_year_wf : WellFormed iso_year := λ x, is_i16 (iso_y x) && (-32768 <? iso_y x).
#[export] Instance year_weeknum_weekday_wf : WellFormed year_weeknum_weekday := λ x,
  wf (ywnwd_y x) && wf (ywnwd_wn x) && wf (ywnwd_wd x).

Lemma iso_year_wf_spec x : wf x = true ↔ -32767 ≤ iso_y x ≤ 32767.
Proof.
  unfold wf, iso_year_wf. rewrite andb_true_iff, is_i16_spec, Z.ltb_lt. lia.
Qed.

Lemma ywnwd_wf_spec x :
  wf x = true ↔ -32767 ≤ iso_y (ywnwd_y x) ≤ 32767 ∧ 0 ≤ wn_ (ywnwd_wn x) < 256
                ∧ 0 ≤ iso_wd (ywnwd_wd x) < 256.
Proof.
  unfold wf at 1, year_weeknum_weekday_wf. rewrite !andb_true_iff, iso_year_wf_spec.
  unfold wf, weeknum_wf, iso_weekday_wf. rewrite !is_u8_spec. tauto.
Qed.

(** ** Weekdays *)

Lemma iso_weekday_from_days_mod z :
  -2147483648 ≤ z ≤ 2147483643 → iso_weekday_from_days z = Ret ((z + 3) mod 7 + 1).
Proof.
  intros Hz. unfold iso_weekday_from_days, c_rem.
  assert (∃ n, (if -4 <=? z then s ← int_add z 4; Ret (Z.rem s 7)
                else s ← int_add z 5; int_add (Z.rem s 7) 6) = Ret n ∧ n = (z + 4) mod 7)
    as (n & -> & ->).
  { destruct (Z.leb_spec (-4) z).
    - rewrite int_add_ok, outcome_bind_ret by lia. eexists. split; [reflexivity|].
      by rewrite Z.rem_mod_nonneg by lia.
    - rewrite int_add_ok, outcome_bind_ret by lia.
      replace (z + 5) with (- (- (z + 5))) by lia. rewrite Z.rem_opp_l, Z.rem_mod_nonneg by lia.
      pose proof (Z.mod_pos_bound (- (z + 5)) 7).
      rewrite int_add_ok by lia. eexists. split; [reflexivity|]. div_lia. }
  rewrite outcome_bind_ret. pose proof (Z.mod_pos_bound (z + 4) 7).
  rewrite u32_small, u8_small by lia. unfold to_iso_encoding.
  destruct (Z.eqb_spec ((z + 4) mod 7) 0); simpl; f_equal; div_lia.
Qed.

Lemma iso_weekday_ok_spec x : iso_weekday_ok x = true ↔ 1 ≤ iso_wd x ≤ 7.
Proof. unfold iso_weekday_ok. by rewrite andb_true_iff, !Z.leb_le. Qed.

Lemma iso_weekday_minus_mod x y :
  iso_weekday_ok x = true → iso_weekday_ok y = true →
  iso_weekday_minus_weekday x y = (iso_wd x - iso_wd y) mod 7.
Proof.
  intros Hx%iso_weekday_ok_spec Hy%iso_weekday_ok_spec.
  unfold iso_weekday_minus_weekday, iso_weekday_unsigned.
  destruct (Z.leb_spec (iso_wd y) (iso_wd x)).
  - rewrite uint_sub_small by lia. destruct (Z.leb_spec (iso_wd x - iso_wd y) 6); [|lia].
    rewrite i32_small by lia. div_lia.
  - assert (uint_sub (iso_wd x) (iso_wd y) = iso_wd x - iso_wd y + 4294967296) as ->.
    { unfold uint_sub, uwrap. change (2 ^ 32) with 4294967296. div_lia. }
    destruct (Z.leb_spec (iso_wd x - iso_wd y + 4294967296) 6); [lia|].
    assert (uint_add (iso_wd x - iso_wd y + 4294967296) 7 = iso_wd x - iso_wd y + 7) as ->.
    { unfold uint_add, uwrap. change (2 ^ 32) with 4294967296. div_lia. }
    rewrite i32_small by lia. div_lia.
Qed.

(** ** The first day of an ISO year *)

(** The Monday among the seven days around the first of January. *)
Definition iso_start (y : Z) : Z :=
  civil_days y 1 1 - 3 + until_weekday (civil_days y 1 1 - 3) 1.

Lemma iso_start_bounds y : civil_days y 1 1 - 3 ≤ iso_start y ≤ civil_days y 1 1 + 3.
Proof. unfold iso_start. pose proof (until_weekday_bounds (civil_days y 1 1 - 3) 1). lia. Qed.

Lemma iso_start_monday y : (iso_start y + 4) mod 7 = 1.
Proof. unfold iso_start. apply until_weekday_reaches. lia. Qed.

Lemma iso_start_unique y z :
  civil_days y 1 1 - 3 ≤ z ≤ civil_days y 1 1 + 3 → (z + 4) mod 7 = 1 → z = iso_start y.
Proof.
  intros Hz Hm. pose proof (iso_start_bounds y). pose proof (iso_start_monday y). div_lia.
Qed.

Lemma civil_days_new_year y : civil_days (y + 1) 1 1 = civil_days y 12 31 + 1.
Proof.
  assert (civil_valid y 12 31) as Hv by (unfold civil_valid, month_length; simpl; lia).
  apply (civil_days_succ y 12 31 Hv).
Qed.

Lemma civil_days_year_length y :
  365 ≤ civil_days (y + 1) 1 1 - civil_days y 1 1 ≤ 366.
Proof.
  unfold civil_days, month_start, month_index.
  assert ((12 * (y + 1) + 1 - 3) / 12 = y) as -> by div_lia.
  assert ((12 * (y + 1) + 1 - 3) mod 12 = 10) as -> by div_lia.
  assert ((12 * y + 1 - 3) / 12 = y - 1) as -> by div_lia.
  assert ((12 * y + 1 - 3) mod 12 = 10) as -> by div_lia.
  pose proof (march_start_step (y - 1)) as H. replace (y - 1 + 1) with y in H by lia.
  destruct (leap y); lia.
Qed.

(** An ISO year has 52 or 53 whole weeks. *)
Lemma iso_year_length y :
  iso_start (y + 1) - iso_start y = 364 ∨ iso_start (y + 1) - iso_start y = 371.
Proof.
  pose proof (iso_start_bounds y). pose proof (iso_start_bounds (y + 1)).
  pose proof (Z.div_mod (iso_start y + 4) 7 ltac:(lia)) as E1.
  pose proof (Z.div_mod (iso_start (y + 1) + 4) 7 ltac:(lia)) as E2.
  rewrite iso_start_monday in E1, E2. pose proof (civil_days_year_length y).
  revert E1 E2. generalize ((iso_start y + 4) / 7), ((iso_start (y + 1) + 4) / 7). lia.
Qed.

Definition iso_weeks (y : Z) : Z := (iso_start (y + 1) - iso_start y) / 7.

Lemma iso_weeks_spec y :
  iso_start (y + 1) = iso_start y + 7 * iso_weeks y ∧ 52 ≤ iso_weeks y ≤ 53.
Proof.
  unfold iso_weeks. destruct (iso_year_length y) as [E|E]; rewrite E.
  - change (364 / 7) with 52. lia.
  - change (371 / 7) with 53. lia.
Qed.

Lemma iso_start_range y : -32767 ≤ y ≤ 32768 → -12687426 ≤ iso_start y ≤ 11248738.
Proof.
  intros Hy. pose proof (iso_start_bounds y).
  destruct (Z.eq_dec y (-32767)) as [->|]; [by vm_compute|].
  destruct (Z.eq_dec y 32768) as [->|]; [by vm_compute|].
  pose proof (civil_days_month_range y 1 1 ltac:(lia) ltac:(lia)).
  pose proof (civil_days_year_length (y - 1)) as Hp. replace (y - 1 + 1) with y in Hp by lia.
  pose proof (civil_days_month_range (y - 1) 1 1 ltac:(lia) ltac:(lia)).
  pose proof (civil_days_year_length y).
  pose proof (civil_days_month_range y 12 31 ltac:(lia) ltac:(lia)).
  pose proof (civil_days_new_year y).
  unfold month_length in *. cbn in *. lia.
Qed.

(** The last Thursday of a December is four days before the ISO year starts. *)
Lemma december_thursday y m :
  wf y = true → m = dec →
  ymwdl_sys_days (ym_div_wdl (year_div_month y m) (weekday_at_last thu last))
  = Ret (iso_start (year_y y + 1) - 4).
Proof.
  intros Hy ->.
  destruct (ymwdl_to_days_wf y dec thu Hy) as (d & E & Hd & Hw); [done | change (weekday_wd thu) with 4; lia |].
  etransitivity; [exact E|]. f_equal.
  change (month_m dec) with 12 in *. change (month_length (year_y y) 12) with 31 in Hd.
  change (weekday_wd thu) with 4 in Hw.
  pose proof (civil_days_new_year (year_y y)) as Hn.
  replace d with (31 + (d - 31)) in * by lia. rewrite civil_days_add in *.
  cut (civil_days (year_y y) 12 31 + (d - 31) + 4 = iso_start (year_y y + 1)); [lia|].
  apply iso_start_unique; [lia | div_lia].
Qed.

(** ** The conversions *)

Lemma yl_weeknum_spec y :
  -32767 ≤ y ≤ 32767 → yl_weeknum (MkYearLastweek (MkIsoYear y)) = Ret (MkWeeknum (iso_weeks y)).
Proof.
  intros Hy. unfold yl_weeknum. cbn [yl_y]. unfold iso_year_int. cbn [iso_y].
  rewrite year_ctor_small by lia. unfold year_minus_years, year_int. cbn [year_y].
  rewrite int_sub_ok, outcome_bind_ret by lia. rewrite year_ctor_small by lia. rewrite outcome_bind_ret.
  change (year_div_int (MkYear (y - 1)) 12) with (year_div_month (MkYear (y - 1)) dec).
  change (year_div_int (MkYear y) 12) with (year_div_month (MkYear y) dec).
  rewrite (december_thursday (MkYear (y - 1))), outcome_bind_ret
    by (done || apply year_wf_spec; cbn; lia).
  rewrite december_thursday, outcome_bind_ret by (done || apply year_wf_spec; cbn; lia).
  cbn [year_y]. replace (y - 1 + 1) with y by lia.
  pose proof (iso_weeks_spec y) as [E Hw].
  pose proof (iso_start_range y). pose proof (iso_start_range (y + 1)).
  rewrite int_sub_ok, outcome_bind_ret by lia. unfold trunc_weeks, c_div.
  replace (iso_start (y + 1) - 4 - (iso_start y - 4)) with (iso_weeks y * 7) by lia.
  rewrite Z.quot_mul by lia. unfold weeknum_ctor. by rewrite u32_small, u8_small by lia.
Qed.

Lemma iso_year_ok_short y : -32768 ≤ y ≤ 32767 → iso_year_ok (MkIsoYear y) = true.
Proof.
  intros. unfold iso_year_ok, iso_year_le, iso_year_lt.
  change (iso_year_int iso_year_min) with (-32768). change (iso_year_int iso_year_max) with 32767.
  cbn. zb_cases; lia || done.
Qed.

Lemma weeknum_le_leb x y : weeknum_le x y = (wn_ x <=? wn_ y).
Proof. unfold weeknum_le, weeknum_lt, weeknum_unsigned. by rewrite <- Z.leb_antisym. Qed.

Lemma ywnwd_ok_spec y wn wd :
  -32767 ≤ y ≤ 32767 →
  ywnwd_ok (MkYearWeeknumWeekday (MkIsoYear y) (MkWeeknum wn) (MkIsoWeekday wd))
  = Ret ((1 <=? wd) && (wd <=? 7) && (1 <=? wn) && (wn <=? iso_weeks y)).
Proof.
  intros Hy. unfold ywnwd_ok. cbn [ywnwd_y ywnwd_wn ywnwd_wd].
  rewrite iso_year_ok_short by lia. rewrite !weeknum_le_leb. unfold iso_weekday_ok.
  change (wn_ (weeknum_ctor 1)) with 1. cbn [iso_wd wn_ andb].
  destruct ((1 <=? wd) && (wd <=? 7) && (1 <=? wn)); [|done].
  unfold year_lastweek_ctor. rewrite yl_weeknum_spec, outcome_bind_ret by done.
  by rewrite weeknum_le_leb.
Qed.

Lemma ywnwd_sys_days_spec y wn wd :
  -32767 ≤ y ≤ 32767 → 1 ≤ wn < 256 → 1 ≤ wd ≤ 7 →
  ywnwd_sys_days (MkYearWeeknumWeekday (MkIsoYear y) (MkWeeknum wn) (MkIsoWeekday wd))
  = Ret (iso_start y + 7 * (wn - 1) + (wd - 1)).
Proof.
  intros Hy Hwn Hwd. pose proof (iso_start_range y).
  unfold ywnwd_sys_days, iso_year_int, weeknum_unsigned. cbn [ywnwd_y ywnwd_wn ywnwd_wd iso_y wn_].
  rewrite int_sub_ok, outcome_bind_ret by lia. rewrite year_ctor_small by lia.
  rewrite december_thursday, outcome_bind_ret by (done || apply year_wf_spec; cbn; lia).
  cbn [year_y]. replace (y - 1 + 1) with y by lia.
  change (weekday_minus_weekday mon thu) with 4. rewrite int_add_ok, outcome_bind_ret by lia.
  uint_step. rewrite i32_small by lia. unfold weeks_to_days. rewrite i32_small by lia.
  rewrite int_add_ok, outcome_bind_ret by lia.
  rewrite iso_weekday_minus_mod by (done || apply iso_weekday_ok_spec; cbn; lia).
  change (iso_wd iso_mon) with 1. cbn [iso_wd]. rewrite Z.mod_small by lia.
  rewrite int_add_ok by lia. f_equal. lia.
Qed.

Lemma iso_year_start_spec y :
  -32767 ≤ y ≤ 32768 → iso_year_start (year_ctor y) = Ret (iso_start y).
Proof.
  intros Hy. pose proof (iso_start_range y).
  unfold iso_year_start, year_minus_years, year_int.
  pose proof (proj1 (year_wf_spec _) (year_ctor_wf y)).
  rewrite int_sub_ok, outcome_bind_ret by lia.
  assert (year_ctor (year_y (year_ctor y) - 1) = MkYear (y - 1)) as ->.
  { unfold year_ctor. cbn [year_y]. f_equal. unfold swrap. change (2 ^ 16) with 65536.
    change (2 ^ (16 - 1)) with 32768. div_lia. }
  rewrite outcome_bind_ret.
  rewrite december_thursday, outcome_bind_ret by (done || apply year_wf_spec; cbn; lia).
  cbn [year_y]. change (iso_weekday_minus_weekday iso_mon iso_thu) with 4.
  replace (y - 1 + 1) with y by lia. rewrite int_add_ok by lia. f_equal. lia.
Qed.

Lemma civil_days_within_year y m d :
  civil_valid y m d → civil_days y 1 1 ≤ civil_days y m d < civil_days (y + 1) 1 1.
Proof.
  intros Hv.
  assert (∀ z, civil_valid z 1 1) as H1 by (intros; unfold civil_valid, month_length; simpl; lia).
  pose proof (civil_days_lt _ _ _ _ _ _ Hv (H1 (y + 1))).
  pose proof (civil_days_lt _ _ _ _ _ _ Hv (H1 y)). destruct Hv as [Hm Hd]. lia.
Qed.

(** [from_days] finds the ISO year that contains the day.  The civil year of three days later is
    that year or the one after; past 32767-12-28 it does not fit a [short], and the two conversions
    that follow bring it back. *)
Lemma ywnwd_from_days_ok z :
  -12687426 ≤ z ≤ last_day →
  ∃ y, -32767 ≤ y ≤ 32767 ∧ iso_start y ≤ z < iso_start (y + 1) ∧
    ywnwd_from_days z
    = Ret (MkYearWeeknumWeekday (MkIsoYear y) (MkWeeknum ((z - iso_start y) / 7 + 1))
             (MkIsoWeekday ((z - iso_start y) mod 7 + 1))).
Proof.
  intros Hz. unfold ywnwd_from_days, iso_weekday_of_sys_days.
  rewrite iso_weekday_from_days_mod, !outcome_bind_ret by lia.
  rewrite int_add_ok, outcome_bind_ret by lia.
  unfold ymd_of_sys_days. rewrite ymd_from_days_civil by lia.
  pose proof (civil_of_days_spec (z + 3)) as Hc.
  destruct (civil_of_days (z + 3)) as [[Y m] d]. destruct Hc as [Hv Hc].
  rewrite outcome_bind_ret. cbn [ymd_year ymd_y].
  pose proof (civil_days_within_year _ _ _ Hv) as Hin. rewrite Hc in Hin.
  assert (-32767 ≤ Y ≤ 32768) as HY.
  { assert (civil_valid (-32767) 1 1) as Hf by (unfold civil_valid; vm_compute; intuition discriminate).
    assert (civil_valid 32768 12 31) as Hl by (unfold civil_valid; vm_compute; intuition discriminate).
    pose proof (civil_days_lt _ _ _ _ _ _ Hv Hf) as A. pose proof (civil_days_lt _ _ _ _ _ _ Hl Hv) as B.
    rewrite Hc in A, B. change (civil_days (-32767) 1 1) with first_day in A.
    change (civil_days 32768 12 31) with 11249103 in B. destruct Hv. lia. }
  rewrite iso_year_start_spec, outcome_bind_ret by done.
  pose proof (iso_start_bounds Y) as HsY. pose proof (iso_start_bounds (Y + 1)) as HsY1.
  pose proof (iso_start_bounds (Y - 1)) as HsY0.
  pose proof (civil_days_year_length (Y - 1)) as Hp. replace (Y - 1 + 1) with Y in Hp by lia.
  assert (∃ y, -32767 ≤ y ≤ 32767 ∧ iso_start y ≤ z < iso_start (y + 1) ∧
    (if z <? iso_start Y then
       start' ← iso_year_start (year_pre_dec (year_ctor Y)); Ret (year_pre_dec (year_ctor Y), start')
     else Ret (year_ctor Y, iso_start Y)) = Ret (MkYear y, iso_start y)) as (y & Hy & Hb & ->).
  { destruct (Z.ltb_spec z (iso_start Y)).
    - exists (Y - 1).
      assert (iso_start (-32767) = -12687426) as Elo by reflexivity.
      assert (Y ≠ -32767) by (intros ->; lia).
      assert (year_pre_dec (year_ctor Y) = year_ctor (Y - 1)) as ->.
      { unfold year_pre_dec, year_ctor. cbn [year_y]. f_equal. unfold swrap.
        change (2 ^ 16) with 65536. change (2 ^ (16 - 1)) with 32768. div_lia. }
      rewrite iso_year_start_spec, outcome_bind_ret by lia. rewrite year_ctor_small by lia.
      split; [lia|]. split; [|done]. replace (Y - 1 + 1) with Y by lia. lia.
    - exists Y. assert (iso_start 32768 = 11248738) as Ehi by reflexivity.
      assert (Y ≠ 32768) by (intros ->; lia).
      rewrite year_ctor_small by lia. split; [lia|]. split; [lia | done]. }
  rewrite outcome_bind_ret. pose proof (iso_start_range y ltac:(lia)).
  pose proof (iso_weeks_spec y) as [Ew Hw]. pose proof (iso_start_monday y) as Hmon.
  exists y. split; [done|]. split; [done|].
  rewrite int_sub_ok, outcome_bind_ret by lia. unfold trunc_weeks.
  rewrite c_div_nonneg by lia. assert (0 ≤ (z - iso_start y) / 7 < 53) by div_lia.
  rewrite int_add_ok, outcome_bind_ret by lia.
  unfold year_weeknum_weekday_ctor, weeknum_ctor, iso_year_ctor, year_int. cbn [year_y].
  rewrite i16_small, u32_small, u8_small by lia. do 3 f_equal. div_lia.
Qed.

#[export] Instance ywnwd_serial_laws : DateSerialLaws year_weeknum_weekday (-12687426) last_day.
Proof.
  split.
  - intros x (Hy & Hwn & Hwd)%ywnwd_wf_spec Hok. destruct x as [[y] [wn] [wd]]. cbn in Hy, Hwn, Hwd.
    change (ywnwd_ok (MkYearWeeknumWeekday (MkIsoYear y) (MkWeeknum wn) (MkIsoWeekday wd)) = Ret true)
      in Hok.
    rewrite ywnwd_ok_spec in Hok by done. injection Hok as Hok. zb_prop.
    pose proof (iso_weeks_spec y) as [Ew Hw].
    set (z := iso_start y + 7 * (wn - 1) + (wd - 1)).
    pose proof (iso_start_range y ltac:(lia)). pose proof (iso_start_range (y + 1) ltac:(lia)).
    assert (-12687426 ≤ z ≤ last_day) as Hz by lia.
    exists z. split; [apply ywnwd_sys_days_spec; lia|]. split; [done|].
    destruct (ywnwd_from_days_ok z Hz) as (y' & Hy' & Hb & E). etransitivity; [exact E|].
    assert (y' = y) as ->.
    { assert (∀ a b, a < b → iso_start (a + 1) ≤ iso_start b) as Hmono.
      { intros a b Hab. destruct (Z.eq_dec (a + 1) b) as [->|]; [lia|].
        pose proof (iso_start_bounds (a + 1)). pose proof (iso_start_bounds b).
        assert (civil_valid (a + 1) 12 31) as V1 by (unfold civil_valid, month_length; simpl; lia).
        assert (civil_valid b 1 1) as V2 by (unfold civil_valid, month_length; simpl; lia).
        pose proof (civil_days_lt _ _ _ _ _ _ V1 V2). pose proof (civil_days_new_year (a + 1)).
        pose proof (civil_days_year_length (a + 1)). lia. }
      destruct (Z.lt_trichotomy y' y) as [C|[C|C]]; [|done|].
      - specialize (Hmono _ _ C). lia.
      - specialize (Hmono _ _ C). lia. }
    assert ((z - iso_start y) / 7 + 1 = wn) as -> by (unfold z; div_lia).
    assert ((z - iso_start y) mod 7 + 1 = wd) as -> by (unfold z; div_lia). done.
  - intros z Hz. destruct (ywnwd_from_days_ok z Hz) as (y & Hy & Hb & E).
    eexists. split; [exact E|]. pose proof (iso_weeks_spec y) as [Ew Hw].
    split.
    { apply ywnwd_wf_spec. cbn. split; [done|]. div_lia. }
    split.
    + etransitivity; [apply ywnwd_ok_spec; done|]. f_equal.
      rewrite !andb_true_iff, !Z.leb_le. div_lia.
    + etransitivity; [apply ywnwd_sys_days_spec; [done | div_lia | div_lia]|]. f_equal. div_lia.
Qed.
