(* ===== verification/DateClock.v ===== *)
(** DateClock: durations of seconds and days and the time of day of include/date/date.h: truncation
    and rounding, [decimal_format_seconds] and [hh_mm_ss] for durations of whole seconds.

    The durations of the standard library ([seconds], [minutes], [hours]) count in 64 bits; [days] and
    [weeks] count in an [int].  A comparison or a sum of two durations converts both to the finer
    unit. *)

From Stdlib Require Import ZArith Lia.
From stdpp Require Import base list.
From S2P Require Import Prelude DateUnits.

Definition seconds : Type := Z.
Definition minutes : Type := Z.
Definition hours : Type := Z.

(** [duration_cast] to a coarser unit, whose count is an [int]. *)
Definition days_of_seconds (d : seconds) : days := i32 (c_div d 86400).
Definition weeks_of_days (d : days) : weeks := i32 (c_div d 7).

(** ** Truncation and rounding *)

(** [src: include/date/date.h 1191-1203 trunc] *)
Definition trunc_days (d : seconds) : days := days_of_seconds d.

(** [src: include/date/date.h 1235-1250 floor] *)
Definition floor_days (d : seconds) : outcome days :=
  let t := trunc_days d in
  if t * 86400 >? d then int_sub t 1 else Ret t.

(** The same template on [days] to [weeks]. [src: include/date/date.h 1235-1250 floor] *)
Definition floor_weeks (d : days) : outcome weeks :=
  let t := weeks_of_days d in
  if t * 7 >? d then int_sub t 1 else Ret t.

(** To nearest, to even on a tie. [src: include/date/date.h 1266-1288 round] *)
Definition round_days (d : seconds) : outcome days :=
  t0 ← floor_days d;
  t1 ← int_add t0 1;
  t1 ← (if (t1 =? 0) && (t0 <? 0) then int_neg t1 else Ret t1);
  diff0 ← long_sub d (t0 * 86400);
  diff1 ← long_sub (t1 * 86400) d;
  if diff0 =? diff1 then
    half ← int_mul (c_div t0 2) 2;
    r ← int_sub t0 half;
    if r =? 0 then Ret t0 else Ret t1
  else if diff0 <? diff1 then Ret t0
  else Ret t1.

(** [src: include/date/date.h 1290-1301 ceil] *)
Definition ceil_days (d : seconds) : outcome days :=
  let t := trunc_days d in
  if t * 86400 <? d then int_add t 1 else Ret t.

(** [src: include/date/date.h 3798-3809 abs] *)
Definition seconds_abs (d : seconds) : outcome seconds :=
  if d >=? 0 then Ret d else long_neg d.

(** ** decimal_format_seconds<seconds> *)

(** The seconds, and the rest in units of [precision], which is [seconds] too.
    [src: include/date/date.h 3712-3725 decimal_format_seconds] *)
Record dfs : Type := MkDfs { dfs_s : seconds; dfs_sub_s : seconds }.

#[export] Instance dfs_eq_dec : EqDecision dfs.
Proof. solve_decision. Defined.

(** [src: include/date/date.h 3733-3737 decimal_format_seconds::decimal_format_seconds] *)
Definition dfs_ctor (d : seconds) : outcome dfs :=
  sub ← long_sub d d;
  Ret (MkDfs d sub).

(** [src: include/date/date.h 3743-3746 decimal_format_seconds::to_duration] *)
Definition dfs_to_duration (this : dfs) : outcome seconds := long_add (dfs_s this) (dfs_sub_s this).

(** [src: include/date/date.h 3748-3751 decimal_format_seconds::in_conventional_range] *)
Definition dfs_in_conventional_range (this : dfs) : bool :=
  (dfs_sub_s this <? 1) && (dfs_s this <? 60).

(** ** hh_mm_ss<seconds> *)

(** [src: include/date/date.h 3826-3834 hh_mm_ss] *)
Record hh_mm_ss : Type := MkHms { hms_h : hours; hms_m : minutes; hms_s : dfs; hms_neg : bool }.

#[export] Instance hh_mm_ss_eq_dec : EqDecision hh_mm_ss.
Proof. solve_decision. Defined.

(** [src: include/date/date.h 3845-3850 hh_mm_ss::hh_mm_ss] *)
Definition hms_ctor (d : seconds) : outcome hh_mm_ss :=
  a ← seconds_abs d;
  let h := c_div a 3600 in
  h60 ← long_mul h 60;
  m ← long_sub (c_div a 60) h60;
  h3600 ← long_mul h 3600;
  r ← long_sub a h3600;
  m60 ← long_mul m 60;
  r ← long_sub r m60;
  s ← dfs_ctor r;
  Ret (MkHms h m s (d <? 0)).

(** The default value is zero. [src: include/date/date.h 3841-3843 hh_mm_ss::hh_mm_ss] *)
Definition hms_zero : hh_mm_ss := MkHms 0 0 (MkDfs 0 0) false.

(** [src: include/date/date.h 3852-3852 hh_mm_ss::hours] *)
Definition hms_hours (this : hh_mm_ss) : hours := hms_h this.

(** [src: include/date/date.h 3853-3853 hh_mm_ss::minutes] *)
Definition hms_minutes (this : hh_mm_ss) : minutes := hms_m this.

(** [src: include/date/date.h 3854-3854 hh_mm_ss::seconds] *)
Definition hms_seconds (this : hh_mm_ss) : seconds := dfs_s (hms_s this).

(** [src: include/date/date.h 3857-3857 hh_mm_ss::subseconds] *)
Definition hms_subseconds (this : hh_mm_ss) : seconds := dfs_sub_s (hms_s this).

(** [src: include/date/date.h 3858-3858 hh_mm_ss::is_negative] *)
Definition hms_is_negative (this : hh_mm_ss) : bool := hms_neg this.

(** [src: include/date/date.h 3861-3862 hh_mm_ss::to_duration] *)
Definition hms_to_duration (this : hh_mm_ss) : outcome seconds :=
  s ← dfs_to_duration (hms_s this);
  m ← long_mul (hms_m this) 60;
  sm ← long_add s m;
  h ← long_mul (hms_h this) 3600;
  smh ← long_add sm h;
  long_mul smh (1 - 2 * Z.b2z (hms_neg this)).

(** Each member is compared after a conversion to the finer of the two units: hours with a day, minutes
    with an hour.  [src: include/date/date.h 3864-3868 hh_mm_ss::in_conventional_range] *)
Definition hms_in_conventional_range (this : hh_mm_ss) : bool :=
  negb (hms_neg this) && (hms_h this <? 24) && (hms_m this <? 60)
  && dfs_in_conventional_range (hms_s this).

(** ** Twelve and twenty-four hours *)

(** [src: include/date/date.h 3903-3910 is_am] *)
Definition is_am (h : hours) : bool := (0 <=? h) && (h <? 12).

(** [src: include/date/date.h 3912-3919 is_pm] *)
Definition is_pm (h : hours) : bool := (12 <=? h) && (h <? 24).

(** [src: include/date/date.h 3921-3938 make12] *)
Definition make12 (h : hours) : outcome hours :=
  if h <? 12 then (if h =? 0 then Ret 12 else Ret h)
  else if negb (h =? 12) then long_sub h 12 else Ret h.

(** [src: include/date/date.h 3940-3954 make24] *)
Definition make24 (h : hours) (is_pm : bool) : outcome hours :=
  if is_pm then (if negb (h =? 12) then long_add h 12 else Ret h)
  else if h =? 12 then Ret 0 else Ret h.

(** [src: include/date/date.h 3959-3968 make_time] *)
Definition make_time (d : seconds) : outcome hh_mm_ss := hms_ctor d.
