(* ===== verification/DateStream.v ===== *)
(** DateStream: the streams of the parser and the formatter of include/date/date.h, and the
    functions that read characters and numbers from an input stream.

    An input stream over a string has the characters that are left and two bits of its state;
    [badbit] is never set.  The members of the standard streams are those of the C++ standard, with the
    choice of libstdc++ that [peek] at the end sets [eofbit].  Characters, digits and white space are
    those of the C locale. *)

From Stdlib Require Import ZArith Lia Ascii String.
From stdpp Require Import base list strings.
From S2P Require Import Prelude DateUnits DateClock.

#[local] Open Scope char_scope.
#[local] Open Scope list_scope.
#[local] Open Scope Z_scope.

(** ** std::istream *)

Record istream : Type := MkIstream { is_rest : string; is_failbit : bool; is_eofbit : bool }.

Definition is_good (i : istream) : bool := negb (is_failbit i) && negb (is_eofbit i).
Definition is_fail (i : istream) : bool := is_failbit i.
Definition setstate (fail eof : bool) (i : istream) : istream :=
  MkIstream (is_rest i) (is_failbit i || fail) (is_eofbit i || eof).
Definition set_failbit : istream → istream := setstate true false.

(** [peek]: the constructor of the sentry sets [failbit] when the stream is not good. *)
Definition peek (i : istream) : option ascii * istream :=
  if negb (is_good i) then (None, set_failbit i)
  else match is_rest i with
       | EmptyString => (None, setstate false true i)
       | String c _ => (Some c, i)
       end.

(** [get]. *)
Definition get_char (i : istream) : option ascii * istream :=
  if negb (is_good i) then (None, set_failbit i)
  else match is_rest i with
       | EmptyString => (None, setstate true true i)
       | String c s => (Some c, MkIstream s (is_failbit i) (is_eofbit i))
       end.

(** [std::ws], on a stream that is good. *)
Fixpoint skip_spaces (s : string) : string :=
  match s with
  | String c s' => if is_space c then skip_spaces s' else s
  | EmptyString => EmptyString
  end.

Definition ws (i : istream) : istream :=
  let s := skip_spaces (is_rest i) in
  MkIstream s (is_failbit i) (is_eofbit i || match s with EmptyString => true | _ => false end).

(** ** Reading characters and numbers *)

(** [src: include/date/date.h 6055-6068 read_char] *)
Definition read_char (i : istream) (fmt : ascii) : bool * istream :=
  let '(ic, i) := get_char i in
  match ic with
  | Some c => if Ascii.eqb c fmt then (true, i) else (false, set_failbit i)
  | None => (false, set_failbit i)
  end.

(** The loop of [read_unsigned]. [src: include/date/date.h 6074-6090 read_unsigned] *)
Fixpoint read_digits (fuel : nat) (i : istream) (x count M : Z) : outcome (Z * Z * istream) :=
  match fuel with
  | O => Fault OutOfFuel
  | S fuel' =>
      let '(ic, i) := peek i in
      match ic with
      | None => Ret (x, count, i)
      | Some c =>
          if negb (is_digit c) then Ret (x, count, i)
          else
            let i := snd (get_char i) in
            let count := uint_add count 1 in
            let x := uint_add (uint_mul 10 x) (digit_val c) in
            if count =? M then Ret (x, count, i) else read_digits fuel' i x count M
      end
  end.

(** Each round but the last takes a character. *)
Definition read_fuel (i : istream) : nat := S (String.length (is_rest i)).

(** At least [m] and at most [M] digits. [src: include/date/date.h 6070-6093 read_unsigned] *)
Definition read_unsigned (i : istream) (m M : Z) : outcome (Z * istream) :=
  '(x, count, i) ← read_digits (read_fuel i) i 0 0 M;
  Ret (x, if count <? m then set_failbit i else i).

(** [src: include/date/date.h 6095-6119 read_signed] *)
Definition read_signed (i : istream) (m M : Z) : outcome (Z * istream) :=
  let '(ic, i) := peek i in
  let failed i := Ret (0, if m >? 0 then set_failbit i else i) in
  match ic with
  | None => failed i
  | Some c =>
      if is_digit c || Ascii.eqb c "-" || Ascii.eqb c "+" then
        let i := if Ascii.eqb c "-" || Ascii.eqb c "+" then snd (get_char i) else i in
        '(x, i) ← read_unsigned i (Z.max m 1) M;
        let x := i32 x in
        if negb (is_fail i) then
          x ← (if Ascii.eqb c "-" then int_neg x else Ret x);
          Ret (x, i)
        else failed i
      else failed i
  end.

(** A number with a fraction as [stold] reads it from digits and at most one point: the digits, and
    how many of them are after the point.  A [long double] has it exactly up to 19 digits. *)
Record decimal : Type := Decimal { dec_digits : Z; dec_scale : nat }.

(** The facet [numpunct] of the locale of a stream. *)
Class NumPunct := { decimal_point : ascii }.

Section reading.
Context `{NumPunct}.

(** The loop of [read_long_double]; [point] says whether a decimal point may still come.  The
    result is the digits and the places read, whether there was a digit, and the count.
    [src: include/date/date.h 6124-6150 read_long_double] *)
Fixpoint read_decimal (fuel : nat) (i : istream) (d : decimal) (point some : bool) (count M : Z)
    : outcome (decimal * bool * Z * istream) :=
  match fuel with
  | O => Fault OutOfFuel
  | S fuel' =>
      let '(ic, i) := peek i in
      match ic with
      | None => Ret (d, some, count, i)
      | Some c =>
          let next d point some :=
            let i := snd (get_char i) in
            let count := uint_add count 1 in
            if count =? M then Ret (d, some, count, i)
            else read_decimal fuel' i d point some count M in
          if point && Ascii.eqb c decimal_point then next d false some
          else if negb (is_digit c) then Ret (d, some, count, i)
          else next (Decimal (10 * dec_digits d + digit_val c)
                             (if point then dec_scale d else S (dec_scale d))) point true
      end
  end.

(** [stold] throws when the text has no digit. [src: include/date/date.h 6121-6157 read_long_double] *)
Definition read_long_double (i : istream) (m M : Z) : outcome (decimal * istream) :=
  '(d, some, count, i) ← read_decimal (read_fuel i) i (Decimal 0 0) true false 0 M;
  if count <? m then Ret (Decimal 0 0, set_failbit i)
  else if some : bool then Ret (d, i) else Fault Thrown.
End reading.

(** [round<seconds>] of a [duration<long double>]: to nearest, to even on a tie.
    [src: include/date/date.h 1266-1288 round] *)
Definition round_seconds (d : decimal) : outcome seconds :=
  let p := 10 ^ Z.of_nat (dec_scale d) in
  let t0 := dec_digits d / p in
  let r := 2 * (dec_digits d mod p) in
  long_res (if r =? p then (if Z.even t0 then t0 else t0 + 1)
            else if r <? p then t0 else t0 + 1).

(** ** The overloads of [read] *)

(** An argument of [read]: a character ([None] is the character 0), the number -1 or one that
    is matched digit by digit, and the three kinds of number to read; the [Z] of [Ars] and [Aru] is
    what the variable holds before ([None]: it is not initialised).
    [src: include/date/date.h 6159-6178 rs] *)
Inductive read_arg : Type :=
  | Achar (c : option ascii)
  | Aint (a : Z)
  | Ars (i : option Z) (m M : Z)
  | Aru (i : option Z) (m M : Z)
  | Arld (m M : Z).

(** What a variable holds after [read]. *)
Inductive read_val : Type :=
  | Vint (x : Z)
  | Vdec (d : decimal)
  | Vnone.

(** A use of a variable: of one that was never assigned it is a fault. *)
Definition use_int (v : read_val) : outcome Z :=
  match v with Vint x => Ret x | _ => Fault Indeterminate end.
Definition use_dec (v : read_val) : outcome decimal :=
  match v with Vdec d => Ret d | _ => Fault Indeterminate end.

Definition initial_val (a : read_arg) : list read_val :=
  match a with
  | Ars i _ _ | Aru i _ _ => [match i with Some x => Vint x | None => Vnone end]
  | Arld _ _ => [Vnone]
  | _ => []
  end.

(** [src: include/date/date.h 6206-6227 read] *)
Definition match_char (i : istream) (a0 : option ascii) : bool * istream :=
  match a0 with
  | None => (true, i)
  | Some a0 =>
      let '(ic, i) := peek i in
      match ic with
      | None => (false, setstate true true i)
      | Some c => if negb (Ascii.eqb c a0) then (false, set_failbit i)
                  else (true, snd (get_char i))
      end
  end.

(** The decimal digits of a natural number, the least first. *)
Fixpoint digits_rev (fuel : nat) (n : Z) : list ascii :=
  match fuel with
  | O => []
  | S fuel' =>
      ascii_of_N (Z.to_N (48 + n mod 10)) :: (if n <? 10 then [] else digits_rev fuel' (n / 10))
  end.

(** As many rounds as bits are enough. *)
Definition decimal_digits (n : Z) : string :=
  String.string_of_list_ascii (rev (digits_rev (S (Z.to_nat (Z.log2 n))) n)).

(** The loop that matches the digits of a number, while the stream is good. *)
Fixpoint match_digits (i : istream) (s : string) : istream :=
  match s with
  | EmptyString => i
  | String c s' => if is_good i then match_digits (snd (match_char i (Some c))) s' else i
  end.

(** [read] of a list of arguments: the values of the variables after it, in order.
    [src: include/date/date.h 6206-6282 read] *)
Fixpoint read `{NumPunct} (i : istream) (args : list read_arg) : outcome (list read_val * istream) :=
  match args with
  | [] => Ret ([], i)
  | a :: args' =>
      let stop i := Ret (mjoin (initial_val <$> args), i) in
      match a with
      | Achar c =>
          let '(ok, i) := match_char i c in
          if ok : bool then read i args' else stop i
      | Aint n =>
          let i := if negb (n =? -1) then match_digits i (decimal_digits (u32 n)) else i in
          if is_good i then read i args' else stop i
      | Ars _ m M =>
          '(x, i) ← read_signed i m M;
          if is_fail i then stop i
          else '(vs, i) ← read i args'; Ret (Vint x :: vs, i)
      | Aru _ m M =>
          '(x, i) ← read_unsigned i m M;
          if is_fail i then stop i
          else '(vs, i) ← read i args'; Ret (Vint (i32 x) :: vs, i)
      | Arld m M =>
          '(d, i) ← read_long_double i m M;
          if is_fail i then stop i
          else '(vs, i) ← read i args'; Ret (Vdec d :: vs, i)
      end
  end.
