(* ===== verification/DateParse.v ===== *)
(** DateParse: [from_stream] of include/date/date.h: dates and times from an input stream under a
    format string.

    The local variables of [from_stream] are the record [pst]; a command of the format is one
    definition.  The commands that the header hands to the [time_get] facet of the stream's locale
    ([%a], [%b], [%c], [%p], [%r], [%x], [%X] and the modifiers [E] and [O]) call the interface
    [TimeFacets].  The duration of the fields is [seconds], as for [sys_days]. *)

From Stdlib Require Import ZArith Lia Ascii String.
From stdpp Require Import base list strings.
From S2P Require Import Prelude Calendar DateUnits DateFields DateYmd DateYmw DateClock DateStream.

#[local] Open Scope char_scope.
#[local] Open Scope list_scope.
#[local] Open Scope Z_scope.

(** ** The locale *)

(** The members of [std::tm] that the header uses. *)
Record tm : Type := MkTm {
  tm_sec : Z; tm_min : Z; tm_hour : Z; tm_mday : Z; tm_mon : Z; tm_year : Z; tm_wday : Z; tm_yday : Z
}.

Definition tm_zero : tm := MkTm 0 0 0 0 0 0 0 0.
Definition tm_set_hour (t : tm) (h : Z) : tm :=
  MkTm (tm_sec t) (tm_min t) h (tm_mday t) (tm_mon t) (tm_year t) (tm_wday t) (tm_yday t).

(** The facets [numpunct], [time_get] and [time_put] of a locale: [time_get] takes the pattern and the characters
    left, and returns the characters after, whether it sets [failbit] and [eofbit], and the
    [tm]; [time_put] returns the text. *)
Class TimeFacets := {
  #[global] facet_numpunct :: NumPunct;
  time_get : string → string → tm → string * (bool * bool) * tm;
  time_put : string → tm → string
}.

(** ** fields<seconds> *)

(** [src: include/date/date.h 4546-4546 nanyear] *)
Definition nanyear : year := year_ctor (-32768).

(** [src: include/date/date.h 4548-4554 fields] *)
Record fields : Type := MkFields {
  f_ymd : year_month_day; f_wd : weekday; f_tod : hh_mm_ss; f_has_tod : bool
}.

(** The default member values. [src: include/date/date.h 4551-4557 fields] *)
Definition fields_default : fields :=
  MkFields (ym_div_int (year_div_int nanyear 0) 0) (weekday_ctor 8) hms_zero false.

Definition fields_set_ymd (f : fields) (x : year_month_day) : fields :=
  MkFields x (f_wd f) (f_tod f) (f_has_tod f).
Definition fields_set_wd (f : fields) (x : weekday) : fields :=
  MkFields (f_ymd f) x (f_tod f) (f_has_tod f).
(** [has_tod] is set with the time of day. *)
Definition fields_set_tod (f : fields) (x : hh_mm_ss) : fields :=
  MkFields (f_ymd f) (f_wd f) x true.

(** ** The local variables *)

(** What the commands of the format set. [src: include/date/date.h 6343-6361 from_stream] *)
Inductive var : Type :=
  | vY | vy | vg | vG | vC | vm | vd | vj | vwd | vH | vI | vp | vM | vs | vU | vV | vW | voffset.

#[export] Instance var_eq_dec : EqDecision var.
Proof. solve_decision. Defined.

(** The value of each variable that means that nothing has set it; [numeric_limits<int>::min() / 100]
    truncates.  [src: include/date/date.h 6328-6341 from_stream] *)
Definition not_a (v : var) : Z :=
  match v with
  | vY | vG | vH | vM => -2147483648
  | vy | vg => 100
  | vC => -21474836
  | vm | vd | vI => 0
  | vj | vp => -1
  | vwd => 8
  | vs | voffset => -9223372036854775808
  | vU | vV | vW => 100
  end.

(** The state of [from_stream]: the stream, the variables, the [tm] of the facet, and the objects of the
    caller: the fields, the abbreviation and the offset ([None] for a null pointer). *)
Record pst : Type := MkPst {
  p_is : istream; p_vars : var → Z; p_tm : tm; p_temp_abbrev : string;
  p_fds : fields; p_abbrev : option string; p_offset : option Z
}.

Definition set_is (i : istream) (s : pst) : pst :=
  MkPst i (p_vars s) (p_tm s) (p_temp_abbrev s) (p_fds s) (p_abbrev s) (p_offset s).
Definition set_var (v : var) (x : Z) (s : pst) : pst :=
  MkPst (p_is s) (λ v', if decide (v' = v) then x else p_vars s v') (p_tm s) (p_temp_abbrev s)
        (p_fds s) (p_abbrev s) (p_offset s).
Definition set_tm (t : tm) (s : pst) : pst :=
  MkPst (p_is s) (p_vars s) t (p_temp_abbrev s) (p_fds s) (p_abbrev s) (p_offset s).
Definition set_temp_abbrev (a : string) (s : pst) : pst :=
  MkPst (p_is s) (p_vars s) (p_tm s) a (p_fds s) (p_abbrev s) (p_offset s).
Definition set_fds (f : fields) (s : pst) : pst :=
  MkPst (p_is s) (p_vars s) (p_tm s) (p_temp_abbrev s) f (p_abbrev s) (p_offset s).
Definition set_results (a : option string) (o : option Z) (s : pst) : pst :=
  MkPst (p_is s) (p_vars s) (p_tm s) (p_temp_abbrev s) (p_fds s) a o.

(** ** The monad: the state, faults, and [goto broken] ([None]) *)

Definition pm (A : Type) : Type := pst → outcome (option A * pst).

#[export] Instance pm_ret : MRet pm := λ A a s, Ret (Some a, s).
#[export] Instance pm_bind : MBind pm := λ A B f m s,
  match m s with
  | Ret (Some a, s') => f a s'
  | Ret (None, s') => Ret (None, s')
  | Fault e => Fault e
  end.

Definition p_lift {A} (m : outcome A) : pm A := λ s,
  match m with Ret a => Ret (Some a, s) | Fault e => Fault e end.
Definition broken {A} : pm A := λ s, Ret (None, s).
Definition modify (f : pst → pst) : pm unit := λ s, Ret (Some tt, f s).
Definition gets {A} (f : pst → A) : pm A := λ s, Ret (Some (f s), s).
Definition get_var (v : var) : pm Z := gets (λ s, p_vars s v).
Definition put_var (v : var) (x : Z) : pm unit := modify (set_var v x).
Definition on_stream {A} (f : istream → A * istream) : pm A := λ s,
  let '(a, i) := f (p_is s) in Ret (Some a, set_is i s).
Definition stream_fails : pm bool := gets (λ s, is_fail (p_is s)).
Definition p_setstate (fail eof : bool) : pm unit := on_stream (λ i, (tt, setstate fail eof i)).
Definition p_peek : pm (option ascii) := on_stream peek.
Definition p_get : pm (option ascii) := on_stream get_char.
Definition p_read `{NumPunct} (args : list read_arg) : pm (list read_val) := λ s,
  match read (p_is s) args with
  | Ret (rd, i) => Ret (Some rd, set_is i s)
  | Fault e => Fault e
  end.
(** The value of the only variable that [args] read. *)
Definition p_read_int `{NumPunct} (arg : read_arg) : pm Z :=
  rd ← p_read [arg];
  p_lift (use_int (default Vnone (head rd))).

(** [f.get(is, nullptr, is, err, &tm, command, fmt+1)]: the bits it sets in [err]. *)
Definition p_time_get `{TimeFacets} (pattern : string) : pm (bool * bool) := λ s,
  let '(rest, err, t) := time_get pattern (is_rest (p_is s)) (p_tm s) in
  Ret (Some err, set_tm t (set_is (MkIstream rest (is_failbit (p_is s)) (is_eofbit (p_is s))) s)).

(** [src: include/date/date.h 6284-6297 checked_set] *)
Definition checked_set (v : var) (from : Z) : pm unit :=
  fail ← stream_fails;
  if negb fail then
    value ← get_var v;
    if value =? not_a v then put_var v from
    else if negb (value =? from) then p_setstate true false
    else mret tt
  else mret tt.

(** The same for the abbreviation, whose unset value is the empty string.
    [src: include/date/date.h 6284-6297 checked_set] *)
Definition checked_set_abbrev (from : string) : pm unit :=
  fail ← stream_fails;
  if negb fail then
    value ← gets p_temp_abbrev;
    if String.eqb value "" then modify (set_temp_abbrev from)
    else if negb (String.eqb value from) then p_setstate true false
    else mret tt
  else mret tt.

(** ** The commands of the format *)

(** [command] points at the [%] of the command that is being read: the format from there; [modified] is
    [E] or [O], [width] the number before the letter or -1. *)
Record fstate : Type := MkFstate {
  command : option string; modified : option ascii; width : Z
}.

Definition fstate_reset : fstate := MkFstate None None (-1).

Definition is_modified (st : fstate) : bool :=
  match modified st with Some _ => true | None => false end.

(** A width that is given is converted to [unsigned]. *)
Definition width_or (st : fstate) (n : Z) : Z := if width st =? -1 then n else u32 (width st).

(** A character of the format that stands for itself. *)
Definition read_plain `{NumPunct} (c : ascii) : pm unit := p_read [Achar (Some c)];; mret tt.

(** A command with a modifier it does not have stands for itself. *)
Definition read_literal `{NumPunct} (st : fstate) (c : ascii) : pm unit :=
  p_read [Achar (Some "%"); Aint (width st); Achar (modified st); Achar (Some c)];; mret tt.

(** The frame of a command: [body] after a [%], the letter itself otherwise. *)
Definition in_command `{NumPunct} (st : fstate) (c : ascii) (body : pm unit) : pm fstate :=
  match command st with
  | Some _ => body;; mret fstate_reset
  | None => read_plain c;; mret st
  end.

(** [body] without a modifier, the text itself with one. *)
Definition unmodified `{NumPunct} (st : fstate) (c : ascii) (body : pm unit) : pm unit :=
  match modified st with None => body | Some _ => read_literal st c end.

(** [body] without a modifier, [get] with [O], the text itself with [E]. *)
Definition modified_O `{NumPunct} (st : fstate) (c : ascii) (body get : pm unit) : pm unit :=
  match modified st with
  | None => body
  | Some e => if Ascii.eqb e "O" then get else read_literal st c
  end.

(** [body] without a modifier, [get] with [E], the text itself with [O]. *)
Definition modified_E `{NumPunct} (st : fstate) (c : ascii) (body get : pm unit) : pm unit :=
  match modified st with
  | None => body
  | Some e => if Ascii.eqb e "E" then get else read_literal st c
  end.

(** A number is read and set. *)
Definition read_set `{NumPunct} (v : var) (arg : read_arg) : pm unit :=
  x ← p_read_int arg; checked_set v x.

Section commands.
Context `{TimeFacets}.

(** A command of the facet, which sets variables from the [tm] unless it failed. *)
Definition facet_sets (pattern : string) (sets : tm → pm unit) : pm unit :=
  err ← p_time_get pattern;
  t ← gets p_tm;
  (if negb (fst err) then sets t else mret tt);;
  p_setstate (fst err) (snd err).

(** [src: include/date/date.h 6371-6452 from_stream] *)
Definition parse_weekday (c : ascii) (st : fstate) (pattern : string) : pm fstate :=
  match command st with
  | Some _ =>
      let facet :=
        err ← p_time_get pattern;
        p_setstate (fst err) (snd err);;
        fail ← stream_fails;
        t ← gets p_tm;
        mret (if negb fail then tm_wday t else not_a vwd) in
      trial_wd ←
        (if Ascii.eqb c "a" || Ascii.eqb c "A" then
           match modified st with
           | None => facet
           | Some _ => read_literal st c;; mret (not_a vwd)
           end
         else
           match modified st with
           | None =>
               trial_wd ← p_read_int (Aru (Some (not_a vwd)) 1 (width_or st 1));
               fail ← stream_fails;
               if negb fail then
                 if Ascii.eqb c "u" then
                   if negb ((1 <=? trial_wd) && (trial_wd <=? 7)) then
                     p_setstate true false;; mret (not_a vwd)
                   else mret (if trial_wd =? 7 then 0 else trial_wd)
                 else
                   if negb ((0 <=? trial_wd) && (trial_wd <=? 6)) then
                     p_setstate true false;; mret (not_a vwd)
                   else mret trial_wd
               else mret trial_wd
           | Some e =>
               if Ascii.eqb e "O" then facet else read_literal st c;; mret (not_a vwd)
           end);
      (if negb (trial_wd =? not_a vwd) then checked_set vwd trial_wd else mret tt);;
      mret fstate_reset
  | None => read_plain c;; mret fstate_reset
  end.

(** [src: include/date/date.h 6453-6483 from_stream] *)
Definition parse_month_name (c : ascii) (st : fstate) (pattern : string) : pm fstate :=
  in_command st c (unmodified st c (
    err ← p_time_get pattern;
    t ← gets p_tm;
    ttm ← p_lift (if negb (fst err) then int_add (tm_mon t) 1 else Ret (not_a vm));
    p_setstate (fst err) (snd err);;
    checked_set vm ttm)).

Definition set_date (t : tm) : pm unit :=
  y ← p_lift (int_add (tm_year t) 1900); checked_set vY y;;
  m ← p_lift (int_add (tm_mon t) 1); checked_set vm m;;
  checked_set vd (tm_mday t).

Definition set_time (t : tm) : pm unit :=
  checked_set vH (tm_hour t);; checked_set vM (tm_min t);; checked_set vs (tm_sec t).

(** [%c], [%x] and [%X] without [O]: the facet.
    [src: include/date/date.h 6484-6618 from_stream] *)
Definition parse_representation (c : ascii) (st : fstate) (pattern : string) : pm fstate :=
  let get := facet_sets pattern (λ t,
    if Ascii.eqb c "c" then set_date t;; set_time t
    else if Ascii.eqb c "x" then set_date t
    else set_time t) in
  in_command st c (
    match modified st with
    | None => get
    | Some e => if negb (Ascii.eqb e "O") then get else read_literal st c
    end).

(** [src: include/date/date.h 6619-6649 from_stream] *)
Definition parse_C (c : ascii) (st : fstate) (pattern : string) : pm fstate :=
  in_command st c (
    tC ← match modified st with
         | None => p_read_int (Ars (Some (not_a vC)) 1 (width_or st 2))
         | Some _ =>
             err ← p_time_get pattern;
             t ← gets p_tm;
             tC ← p_lift (if negb (fst err) then
                            tY ← int_add (tm_year t) 1900;
                            Ret (c_div (if tY >=? 0 then tY else tY - 99) 100)
                          else Ret (not_a vC));
             p_setstate (fst err) (snd err);;
             mret tC
         end;
    checked_set vC tC).

(** [src: include/date/date.h 6650-6673 from_stream] *)
Definition parse_D (c : ascii) (st : fstate) : pm fstate :=
  in_command st c (unmodified st c (
    rd ← p_read [Aru (Some (not_a vm)) 1 2; Achar None; Achar (Some "/"); Achar None;
                 Aru (Some (not_a vd)) 1 2; Achar None; Achar (Some "/"); Achar None;
                 Ars (Some (not_a vy)) 1 2];
    tn ← p_lift (use_int (default Vnone (rd !! 0%nat)));
    td ← p_lift (use_int (default Vnone (rd !! 1%nat)));
    ty ← p_lift (use_int (default Vnone (rd !! 2%nat)));
    checked_set vy ty;; checked_set vm tn;; checked_set vd td)).

(** [src: include/date/date.h 6674-6696 from_stream] *)
Definition parse_F (c : ascii) (st : fstate) : pm fstate :=
  in_command st c (unmodified st c (
    rd ← p_read [Ars (Some (not_a vY)) 1 (width_or st 4); Achar (Some "-");
                 Aru (Some (not_a vm)) 1 2; Achar (Some "-"); Aru (Some (not_a vd)) 1 2];
    tY ← p_lift (use_int (default Vnone (rd !! 0%nat)));
    tn ← p_lift (use_int (default Vnone (rd !! 1%nat)));
    td ← p_lift (use_int (default Vnone (rd !! 2%nat)));
    checked_set vY tY;; checked_set vm tn;; checked_set vd td)).

(** [src: include/date/date.h 6697-6732 from_stream] *)
Definition parse_d (c : ascii) (st : fstate) (pattern : string) : pm fstate :=
  in_command st c (modified_O st c
    (read_set vd (Ars (Some (not_a vd)) 1 (width_or st 2)))
    (facet_sets pattern (λ t, checked_set vd (tm_mday t)))).

(** [src: include/date/date.h 6733-6764 from_stream] *)
Definition parse_H (c : ascii) (st : fstate) (pattern : string) : pm fstate :=
  in_command st c (modified_O st c
    (read_set vH (Aru (Some (not_a vH)) 1 (width_or st 2)))
    (facet_sets pattern (λ t, checked_set vH (tm_hour t)))).

(** [src: include/date/date.h 6765-6785 from_stream] *)
Definition parse_I (c : ascii) (st : fstate) : pm fstate :=
  in_command st c (unmodified st c (
    tI ← p_read_int (Ars (Some (not_a vI)) 1 (width_or st 2));
    (if negb ((1 <=? tI) && (tI <=? 12)) then p_setstate true false else mret tt);;
    checked_set vI tI)).

(** [src: include/date/date.h 6786-6803 from_stream] *)
Definition parse_j (c : ascii) (st : fstate) : pm fstate :=
  in_command st c (unmodified st c (read_set vj (Aru (Some (not_a vj)) 1 (width_or st 3)))).

(** [src: include/date/date.h 6804-6835 from_stream] *)
Definition parse_M (c : ascii) (st : fstate) (pattern : string) : pm fstate :=
  in_command st c (modified_O st c
    (read_set vM (Aru (Some (not_a vM)) 1 (width_or st 2)))
    (facet_sets pattern (λ t, checked_set vM (tm_min t)))).

(** [src: include/date/date.h 6836-6867 from_stream] *)
Definition parse_m (c : ascii) (st : fstate) (pattern : string) : pm fstate :=
  in_command st c (modified_O st c
    (read_set vm (Ars (Some (not_a vm)) 1 (width_or st 2)))
    (facet_sets pattern (λ t, m ← p_lift (int_add (tm_mon t) 1); checked_set vm m))).

(** One white space character ([%n]) or at most one ([%t]).  At the end of the stream the command
    is left open.  [src: include/date/date.h 6868-6900 from_stream] *)
Definition parse_n (c : ascii) (st : fstate) : pm fstate :=
  match command st with
  | Some _ =>
      match modified st with
      | None =>
          ic ← p_peek;
          match ic with
          | None => p_setstate (Ascii.eqb c "n") true;; mret st
          | Some a =>
              (if is_space a then p_get;; mret tt
               else if Ascii.eqb c "n" then p_setstate true false else mret tt);;
              mret fstate_reset
          end
      | Some _ => read_literal st c;; mret fstate_reset
      end
  | None => read_plain c;; mret st
  end.

(** [src: include/date/date.h 6901-6935 from_stream] *)
Definition parse_p (c : ascii) (st : fstate) (pattern : string) : pm fstate :=
  in_command st c (unmodified st c (
    modify (set_tm (tm_set_hour tm_zero 1));;
    err ← p_time_get pattern;
    p_setstate (fst err) (snd err);;
    t ← gets p_tm;
    tp ← (if tm_hour t =? 1 then mret 0
          else if tm_hour t =? 13 then mret 1
          else p_setstate (fst err) (snd err);; mret (not_a vp));
    checked_set vp tp)).

(** [src: include/date/date.h 6936-6979 from_stream] *)
Definition parse_r (c : ascii) (st : fstate) (pattern : string) : pm fstate :=
  in_command st c (unmodified st c (facet_sets pattern set_time)).

(** [src: include/date/date.h 6980-7000 from_stream] *)
Definition parse_R (c : ascii) (st : fstate) : pm fstate :=
  in_command st c (unmodified st c (
    rd ← p_read [Aru (Some (not_a vH)) 1 2; Achar None; Achar (Some ":"); Achar None;
                 Aru (Some (not_a vM)) 1 2; Achar None];
    tH ← p_lift (use_int (default Vnone (rd !! 0%nat)));
    tM ← p_lift (use_int (default Vnone (rd !! 1%nat)));
    checked_set vH tH;; checked_set vM tM)).

(** The width of the seconds is 2, as they have no fraction.  [S] is rounded even when nothing
    was read into it.  [src: include/date/date.h 7001-7036 from_stream] *)
Definition parse_S (c : ascii) (st : fstate) (pattern : string) : pm fstate :=
  in_command st c (modified_O st c
    (rd ← p_read [Arld 1 (width_or st 2)];
     S ← p_lift (use_dec (default Vnone (rd !! 0%nat)));
     s ← p_lift (round_seconds S);
     checked_set vs s)
    (facet_sets pattern (λ t, checked_set vs (tm_sec t)))).
(** [src: include/date/date.h 7037-7062 from_stream] *)
Definition parse_T (c : ascii) (st : fstate) : pm fstate :=
  in_command st c (unmodified st c (
    rd ← p_read [Aru (Some (not_a vH)) 1 2; Achar (Some ":"); Aru (Some (not_a vM)) 1 2;
                 Achar (Some ":"); Arld 1 2];
    tH ← p_lift (use_int (default Vnone (rd !! 0%nat)));
    tM ← p_lift (use_int (default Vnone (rd !! 1%nat)));
    checked_set vH tH;; checked_set vM tM;;
    S ← p_lift (use_dec (default Vnone (rd !! 2%nat)));
    s ← p_lift (round_seconds S);
    checked_set vs s)).

(** [src: include/date/date.h 7063-7094 from_stream] *)
Definition parse_Y (c : ascii) (st : fstate) (pattern : string) : pm fstate :=
  in_command st c (modified_E st c
    (read_set vY (Ars (Some (not_a vY)) 1 (width_or st 4)))
    (facet_sets pattern (λ t, y ← p_lift (int_add (tm_year t) 1900); checked_set vY y))).

(** [src: include/date/date.h 7095-7122 from_stream] *)
Definition parse_y (c : ascii) (st : fstate) (pattern : string) : pm fstate :=
  in_command st c (
    match modified st with
    | None => read_set vy (Aru (Some (not_a vy)) 1 (width_or st 2))
    | Some _ => facet_sets pattern (λ t, y ← p_lift (int_add (tm_year t) 1900); checked_set vY y)
    end).

(** [src: include/date/date.h 7123-7140 from_stream] *)
Definition parse_g (c : ascii) (st : fstate) : pm fstate :=
  in_command st c (unmodified st c (read_set vg (Aru (Some (not_a vg)) 1 (width_or st 2)))).

(** [src: include/date/date.h 7141-7158 from_stream] *)
Definition parse_G (c : ascii) (st : fstate) : pm fstate :=
  in_command st c (unmodified st c (read_set vG (Ars (Some (not_a vG)) 1 (width_or st 4)))).

(** [src: include/date/date.h 7159-7176 from_stream] *)
Definition parse_U (c : ascii) (st : fstate) : pm fstate :=
  in_command st c (unmodified st c (read_set vU (Aru (Some (not_a vU)) 1 (width_or st 2)))).

(** [src: include/date/date.h 7177-7194 from_stream] *)
Definition parse_V (c : ascii) (st : fstate) : pm fstate :=
  in_command st c (unmodified st c (read_set vV (Aru (Some (not_a vV)) 1 (width_or st 2)))).

(** [src: include/date/date.h 7195-7212 from_stream] *)
Definition parse_W (c : ascii) (st : fstate) : pm fstate :=
  in_command st c (unmodified st c (read_set vW (Aru (Some (not_a vW)) 1 (width_or st 2)))).

(** [src: include/date/date.h 7213-7231 from_stream] *)
Definition parse_modifier (c : ascii) (st : fstate) : pm fstate :=
  match command st with
  | Some p =>
      match modified st with
      | None => mret (MkFstate (Some p) (Some c) (width st))
      | Some _ => read_literal st c;; mret fstate_reset
      end
  | None => read_plain c;; mret st
  end.

(** [here] is the format from the [%]. [src: include/date/date.h 7232-7245 from_stream] *)
Definition parse_percent (c : ascii) (st : fstate) (here : string) : pm fstate :=
  match command st with
  | Some _ => unmodified st c (read_plain c);; mret fstate_reset
  | None => mret (MkFstate (Some here) (modified st) (width st))
  end.

(** The minutes of an offset, when [more] accepts the next character.
    [src: include/date/date.h 7266-7279 from_stream] *)
Definition parse_offset_minutes (more : ascii → pm bool) (toff : Z) : pm Z :=
  good ← gets (λ s, is_good (p_is s));
  if good : bool then
    ic ← p_peek;
    match ic with
    | None => mret toff
    | Some a =>
        go ← more a;
        if go : bool then
          rd ← p_read [Aru None 2 2];
          fail ← stream_fails;
          if negb fail then
            tM ← p_lift (use_int (default Vnone (rd !! 0%nat)));
            p_lift (long_add toff tM)
          else mret toff
        else mret toff
    end
  else mret toff.

(** An offset: [+hhmm], or with a modifier [+h:mm].  [-toff] is computed even when nothing was
    read into [toff].  [src: include/date/date.h 7246-7309 from_stream] *)
Definition parse_z (c : ascii) (st : fstate) : pm fstate :=
  in_command st c (
    ic ← p_peek;
    let neg := match ic with Some a => Ascii.eqb a "-" | None => false end in
    rd ← p_read [Ars None (if is_modified st then 1 else 2) 2];
    fail ← stream_fails;
    toff ← p_lift (if negb fail then
                     tH ← use_int (default Vnone (rd !! 0%nat));
                     long_mul (Z.abs tH) 60
                   else Ret (not_a voffset));
    toff ← parse_offset_minutes
             (λ a, match modified st with
                   | None => mret (is_digit a)
                   | Some _ => if Ascii.eqb a ":" then p_get;; mret true else mret false
                   end) toff;
    toff ← p_lift (if neg : bool then long_neg toff else Ret toff);
    checked_set voffset toff).

(** A character of the name of a time zone. [src: include/date/date.h 7327-7331 from_stream] *)
Definition is_zone_char (c : ascii) : bool :=
  (1 <? char_code c) && (char_code c <? 127)
  && (is_alnum c || Ascii.eqb c "_" || Ascii.eqb c "/" || Ascii.eqb c "-" || Ascii.eqb c "+").

(** The name at the front, the characters after it. [src: include/date/date.h 7316-7335 from_stream] *)
Fixpoint take_zone (s : string) : string * string :=
  match s with
  | EmptyString => (EmptyString, EmptyString)
  | String c s' =>
      if is_zone_char c then let '(buf, rest) := take_zone s' in (String c buf, rest)
      else (EmptyString, s)
  end.

(** [src: include/date/date.h 7310-7346 from_stream] *)
Definition parse_Z (c : ascii) (st : fstate) : pm fstate :=
  in_command st c (unmodified st c (
    good ← gets (λ s, is_good (p_is s));
    buf ← (if good : bool then
             on_stream (λ i,
               let '(buf, rest) := take_zone (is_rest i) in
               (buf, setstate false (String.eqb rest "")
                       (MkIstream rest (is_failbit i) (is_eofbit i))))
           else mret ""%string);
    (if String.eqb buf "" then p_setstate true false else mret tt);;
    checked_set_abbrev buf)).

(** What the [default] of the switch does with any other character: a digit starts the width
    ([inl]: the digits after it are still to be read), anything else stands for itself.
    [src: include/date/date.h 7346-7377 from_stream] *)
Definition parse_default (c : ascii) (st : fstate) : pm (fstate + fstate) :=
  match command st with
  | Some p =>
      if (width st =? -1) && negb (is_modified st) && is_digit c then
        mret (inl (MkFstate (Some p) None (digit_val c)))
      else
        (match modified st with
         | None => p_read [Achar (Some "%"); Aint (width st); Achar (Some c)];; mret tt
         | Some _ => read_literal st c
         end);;
        mret (inr fstate_reset)
  | None =>
      (if is_space c then
         good ← gets (λ s, is_good (p_is s));
         if good : bool then on_stream (λ i, (tt, ws i)) else mret tt
       else read_plain c);;
      mret (inr st)
  end.

(** The commands that have a letter; [None] for the other characters.
    [src: include/date/date.h 6368-7379 from_stream] *)
Definition parse_command (c : ascii) (st : fstate) (here pattern : string) : option (pm fstate) :=
  match c with
  | "a" | "A" | "u" | "w" => Some (parse_weekday c st pattern)
  | "b" | "B" | "h" => Some (parse_month_name c st pattern)
  | "c" | "x" | "X" => Some (parse_representation c st pattern)
  | "C" => Some (parse_C c st pattern)
  | "D" => Some (parse_D c st)
  | "F" => Some (parse_F c st)
  | "d" | "e" => Some (parse_d c st pattern)
  | "H" => Some (parse_H c st pattern)
  | "I" => Some (parse_I c st)
  | "j" => Some (parse_j c st)
  | "M" => Some (parse_M c st pattern)
  | "m" => Some (parse_m c st pattern)
  | "n" | "t" => Some (parse_n c st)
  | "p" => Some (parse_p c st pattern)
  | "r" => Some (parse_r c st pattern)
  | "R" => Some (parse_R c st)
  | "S" => Some (parse_S c st pattern)
  | "T" => Some (parse_T c st)
  | "Y" => Some (parse_Y c st pattern)
  | "y" => Some (parse_y c st pattern)
  | "g" => Some (parse_g c st)
  | "G" => Some (parse_G c st)
  | "U" => Some (parse_U c st)
  | "V" => Some (parse_V c st)
  | "W" => Some (parse_W c st)
  | "E" | "O" => Some (parse_modifier c st)
  | "%" => Some (parse_percent c st here)
  | "z" => Some (parse_z c st)
  | "Z" => Some (parse_Z c st)
  | _ => None
  end.

(** The text of the command: from [command] to the current character, which [rest] follows. *)
Definition command_text (st : fstate) (rest : string) : string :=
  match command st with
  | Some p => substring 0 (String.length p - String.length rest) p
  | None => EmptyString
  end.

(** The loop over the format.  [inl]: inside the digits of a width.
    [src: include/date/date.h 6368-7379 from_stream] *)
Fixpoint parse_format (fmt : string) (st : fstate) (in_width : bool) : pm fstate :=
  match fmt with
  | EmptyString => mret st
  | String c rest =>
      if in_width && is_digit c then
        w ← p_lift (w ← int_mul 10 (width st); w ← int_add w (char_code c); int_sub w 48);
        parse_format rest (MkFstate (command st) (modified st) w) true
      else
        fail ← stream_fails;
        if fail : bool then mret st
        else
          match parse_command c st fmt (command_text st rest) with
          | Some m => st ← m; parse_format rest st false
          | None =>
              r ← parse_default c st;
              match r with
              | inl st => parse_format rest st true
              | inr st => parse_format rest st false
              end
          end
  end.

(** A command that the format leaves open. [src: include/date/date.h 7380-7387 from_stream] *)
Definition parse_open_command (st : fstate) : pm unit :=
  good ← gets (λ s, is_good (p_is s));
  match command st with
  | Some _ =>
      if good : bool then
        p_read (match modified st with
                | None => [Achar (Some "%"); Aint (width st)]
                | Some e => [Achar (Some "%"); Aint (width st); Achar (Some e)]
                end);; mret tt
      else mret tt
  | None => mret tt
  end.
End commands.

(** ** From the variables to the fields *)

(** The two-digit year [v2] with the century, if any, gives the year [v4]; without one, 69 to 99 are in
    the 1900s and 0 to 68 in the 2000s.
    [src: include/date/date.h 7390-7445 from_stream] *)
Definition two_digit_year (v2 v4 : var) : pm unit :=
  y ← get_var v2;
  if negb (y =? not_a v2) then
    (if negb ((0 <=? y) && (y <=? 99)) then broken else mret tt);;
    C ← get_var vC;
    Y ← get_var v4;
    (if C =? not_a vC then
       if Y =? not_a v4 then put_var vC (if y >=? 69 then 19 else 20)
       else
         Y' ← p_lift (if Y >=? 0 then Ret Y else int_sub Y 100);
         put_var vC (c_div Y' 100)
     else mret tt);;
    C ← get_var vC;
    tY ← p_lift (if C >=? 0 then
                   h ← int_mul 100 C; int_add h y
                 else
                   C1 ← int_add C 1;
                   h ← int_mul 100 C1;
                   int_sub h (if y =? 0 then 100 else y));
    (if negb (Y =? not_a v4) && negb (Y =? tY) then broken else mret tt);;
    put_var v4 tY
  else mret tt.

(** [Y], [m] and [d] are set from a date, or must agree with it.
    [src: include/date/date.h 7454-7465 from_stream] *)
Definition agree_month_day (trial : year_month_day) : pm unit :=
  m ← get_var vm;
  (if m =? not_a vm then put_var vm (month_unsigned (ymd_month trial))
   else if month_ne (month_ctor (u32 m)) (ymd_month trial) then broken else mret tt);;
  d ← get_var vd;
  (if d =? not_a vd then put_var vd (day_unsigned (ymd_day trial))
   else if day_ne (day_ctor (u32 d)) (ymd_day trial) then broken else mret tt).

(** [src: include/date/date.h 7454-7465 from_stream] *)
Definition agree (trial : year_month_day) : pm unit :=
  Y ← get_var vY;
  (if Y =? not_a vY then put_var vY (year_int (ymd_year trial))
   else if year_ne (year_ctor Y) (ymd_year trial) then broken else mret tt);;
  agree_month_day trial.

(** The date [n - 1] weeks and [wd - first] days after [start].  The weeks become days by a duration_cast, which
    multiplies in 64 bits and truncates to [int]. *)
Definition week_date (start : outcome sys_days) (n wd : Z) (first : weekday) : outcome year_month_day :=
  s ← start;
  n1 ← int_sub n 1;
  s ← int_add s (i32 (n1 * 7));
  s ← int_add s (weekday_minus_weekday (weekday_ctor (u32 wd)) first);
  ymd_of_sys_days s.

(** The Monday after the last Thursday of the year before.
    [src: include/date/date.h 7451-7452 from_stream] *)
Definition iso_year_start (y : year) : outcome sys_days :=
  s ← ymwdl_sys_days (ym_div_wdl (year_div_month y December) (weekday_at_last Thursday last));
  int_add s (weekday_minus_weekday Monday Thursday).

(** The first Sunday or Monday of a year. [src: include/date/date.h 7470-7470 from_stream] *)
Definition first_weekday (y : year) (wd : weekday) : outcome sys_days :=
  ymwd_sys_days (ym_div_wdi (year_div_month y January) (weekday_at wd 1)).

(** [src: include/date/date.h 7446-7505 from_stream] *)
Definition dates_from_weeks : pm bool :=
  Y ← get_var vY;
  (if (Y <? year_int year_min) || (Y >? year_int year_max) then put_var vY (not_a vY) else mret tt);;
  G ← get_var vG; V ← get_var vV; U ← get_var vU; W ← get_var vW; wd ← get_var vwd;
  iso ← (if negb (G =? not_a vG) && negb (V =? not_a vV) && negb (wd =? not_a vwd) then
           trial ← p_lift (G1 ← int_sub G 1;
                           week_date (iso_year_start (year_ctor G1)) V wd Monday);
           agree trial;; mret true
         else mret false);
  Y ← get_var vY;
  sun ← (if negb (Y =? not_a vY) && negb (U =? not_a vU) && negb (wd =? not_a vwd) then
           trial ← p_lift (week_date (first_weekday (year_ctor Y) Sunday) U wd Sunday);
           agree trial;; mret true
         else mret iso);
  Y ← get_var vY;
  if negb (Y =? not_a vY) && negb (W =? not_a vW) && negb (wd =? not_a vwd) then
    trial ← p_lift (week_date (first_weekday (year_ctor Y) Monday) W wd Monday);
    agree trial;; mret true
  else mret sun.

(** A day of the year with a year: month and day are those of the date [j - 1] days after the
    first of January; the year is not compared.
    [src: include/date/date.h 7506-7518 from_stream] *)
Definition date_from_day_of_year : pm unit :=
  j ← get_var vj;
  Y ← get_var vY;
  if negb (j =? not_a vj) && negb (Y =? not_a vY) then
    trial ← p_lift (first ← ymd_local_days (ym_div_int (year_div_int (year_ctor Y) 1) 1);
                    j1 ← int_sub j 1;
                    s ← int_add first j1;
                    ymd_of_local_days s);
    agree_month_day trial;;
    put_var vj (not_a vj)
  else mret tt.

(** The ISO year and week of a valid date agree with [G] and [V].
    [src: include/date/date.h 7529-7550 from_stream] *)
Definition check_iso_week (ymd : year_month_day) : pm unit :=
  G ← get_var vG; V ← get_var vV;
  if negb (G =? not_a vG) || negb (V =? not_a vV) then
    sd ← p_lift (ymd_sys_days ymd);
    G_trial ← p_lift (s3 ← int_add sd 3; t ← ymd_of_sys_days s3; Ret (ymd_year t));
    start ← p_lift (y1 ← year_minus_years G_trial 1; iso_year_start y1);
    '(G_trial, start) ←
      (if sd <? start then
         let G_trial := year_pre_dec G_trial in
         start ← (if negb (V =? not_a vV) then
                    p_lift (y1 ← year_minus_years G_trial 1; iso_year_start y1)
                  else mret start);
         mret (G_trial, start)
       else mret (G_trial, start));
    (if negb (G =? not_a vG) && negb (G =? year_int G_trial) then broken else mret tt);;
    if negb (V =? not_a vV) then
      V_trial ← p_lift (n ← int_sub sd start; int_add (weeks_of_days n) 1);
      if negb (V =? V_trial) then broken else mret tt
    else mret tt
  else mret tt.

(** The same for the weeks that start on Sunday ([U]) and on Monday ([W]).
    [src: include/date/date.h 7551-7563 from_stream] *)
Definition check_week (v : var) (first : weekday) (ymd : year_month_day) : pm unit :=
  n ← get_var v;
  if negb (n =? not_a v) then
    trial ← p_lift (start ← first_weekday (ymd_year ymd) first;
                    sd ← ymd_sys_days ymd;
                    diff ← int_sub sd start;
                    w ← floor_weeks diff;
                    int_add w 1);
    if negb (n =? trial) then broken else mret tt
  else mret tt.

(** A valid date agrees with the weekday and the weeks.
    [src: include/date/date.h 7519-7566 from_stream] *)
Definition check_date (computed : bool) : pm unit :=
  Y ← get_var vY; m ← get_var vm; d ← get_var vd;
  let ymd := ym_div_int (year_div_int (year_ctor Y) m) d in
  ok ← p_lift (ymd_ok ymd);
  (if ok : bool then
     wd ← get_var vwd;
     sd ← p_lift (ymd_sys_days ymd);
     let wd_ymd := weekday_minus_weekday (weekday_of_sys_days sd) Sunday in
     (if wd =? not_a vwd then put_var vwd wd_ymd
      else if negb (wd =? wd_ymd) then broken else mret tt);;
     if negb computed then
       check_iso_week ymd;; check_week vU Sunday ymd;; check_week vW Monday ymd
     else mret tt
   else mret tt);;
  modify (λ s, set_fds (fields_set_ymd (p_fds s) ymd) s).

(** An hour of twelve with AM or PM.  [src: include/date/date.h 7567-7600 from_stream] *)
Definition check_hour : pm unit :=
  I ← get_var vI;
  if negb (I =? not_a vI) then
    (if negb ((1 <=? I) && (I <=? 12)) then broken else mret tt);;
    p ← get_var vp;
    H ← get_var vH;
    if negb (p =? not_a vp) then
      p ← p_lift (if I =? 12 then int_sub p 1 else Ret p);
      I ← p_lift (p12 ← int_mul p 12; int_add I p12);
      if H =? not_a vH then put_var vH I
      else if negb (I =? H) then broken else mret tt
    else if negb (H =? not_a vH) then
      if I =? 12 then (if negb (H =? 0) && negb (H =? 12) then broken else mret tt)
      else if negb ((I =? H) || (I + 12 =? H)) then broken else mret tt
    else mret tt
  else mret tt.

Definition update_tod (f : hh_mm_ss → outcome hh_mm_ss) : pm unit :=
  fds ← gets p_fds;
  tod ← p_lift (f (f_tod fds));
  modify (set_fds (fields_set_tod fds tod)).

(** [src: include/date/date.h 7601-7626 from_stream] *)
Definition set_fields : pm unit :=
  H ← get_var vH; M ← get_var vM; s ← get_var vs; j ← get_var vj; wd ← get_var vwd;
  (if negb (H =? not_a vH) then
     update_tod (λ _, h ← long_mul H 3600; hms_ctor h) else mret tt);;
  (if negb (M =? not_a vM) then
     update_tod (λ t, Ret (MkHms (hms_h t) M (hms_s t) (hms_neg t))) else mret tt);;
  (if negb (s =? not_a vs) then
     update_tod (λ t, s' ← dfs_ctor s; Ret (MkHms (hms_h t) (hms_m t) s' (hms_neg t)))
   else mret tt);;
  (if negb (j =? not_a vj) then
     update_tod (λ t, j24 ← long_mul j 24;
                      h ← long_add (hms_h t) j24;
                      Ret (MkHms h (hms_m t) (hms_s t) (hms_neg t))) else mret tt);;
  (if negb (wd =? not_a vwd) then
     modify (λ st, set_fds (fields_set_wd (p_fds st) (weekday_ctor (u32 wd))) st) else mret tt);;
  modify (λ st,
    set_results
      (match p_abbrev st with Some _ => Some (p_temp_abbrev st) | None => None end)
      (match p_offset st with
       | Some o => Some (if negb (p_vars st voffset =? not_a voffset) then p_vars st voffset else o)
       | None => None
       end) st).

(** [src: include/date/date.h 7388-7626 from_stream] *)
Definition set_results_of_variables : pm unit :=
  fail ← stream_fails;
  if negb fail then
    two_digit_year vy vY;;
    two_digit_year vg vG;;
    computed ← dates_from_weeks;
    date_from_day_of_year;;
    check_date computed;;
    check_hour;;
    set_fields
  else mret tt.

(** ** from_stream *)

Section from_stream.
Context `{TimeFacets}.

(** The stream, the fields, the abbreviation and the offset after it.
    [src: include/date/date.h 6301-7633 from_stream] *)
Definition from_stream (ins : istream) (fmt : string) (fds : fields) (abbrev : option string)
    (offset : option minutes) : outcome (istream * fields * option string * option minutes) :=
  if is_good ins then
    let run := st ← parse_format fmt fstate_reset false;
               parse_open_command st;;
               set_results_of_variables in
    '(r, s) ← run (MkPst ins not_a tm_zero EmptyString fds abbrev offset);
    let i := match r with Some _ => p_is s | None => set_failbit (p_is s) end in
    Ret (i, p_fds s, p_abbrev s, p_offset s)
  else Ret (set_failbit ins, fds, abbrev, offset).

(** The overloads that read the fields and keep a part of them when it is valid. *)
Definition from_stream_part {A} (ok : fields → outcome bool) (part : fields → A)
    (ins : istream) (fmt : string) (old : A) : outcome (istream * A) :=
  '(ins, fds, _, _) ← from_stream ins fmt fields_default None None;
  ok ← ok fds;
  let ins := if negb ok then set_failbit ins else ins in
  Ret (ins, if negb (is_fail ins) then part fds else old).

(** [src: include/date/date.h 7635-7649 from_stream] *)
Definition from_stream_year (ins : istream) (fmt : string) (y : year) : outcome (istream * year) :=
  from_stream_part (λ f, Ret (year_ok (ymd_year (f_ymd f)))) (λ f, ymd_year (f_ymd f)) ins fmt y.

(** [src: include/date/date.h 7651-7665 from_stream] *)
Definition from_stream_month (ins : istream) (fmt : string) (m : month) : outcome (istream * month) :=
  from_stream_part (λ f, Ret (month_ok (ymd_month (f_ymd f)))) (λ f, ymd_month (f_ymd f)) ins fmt m.

(** [src: include/date/date.h 7667-7681 from_stream] *)
Definition from_stream_day (ins : istream) (fmt : string) (d : day) : outcome (istream * day) :=
  from_stream_part (λ f, Ret (day_ok (ymd_day (f_ymd f)))) (λ f, ymd_day (f_ymd f)) ins fmt d.

(** [src: include/date/date.h 7683-7697 from_stream] *)
Definition from_stream_weekday (ins : istream) (fmt : string) (wd : weekday)
    : outcome (istream * weekday) :=
  from_stream_part (λ f, Ret (weekday_ok (f_wd f))) f_wd ins fmt wd.

(** [src: include/date/date.h 7731-7745 from_stream] *)
Definition from_stream_ymd (ins : istream) (fmt : string) (ymd : year_month_day)
    : outcome (istream * year_month_day) :=
  from_stream_part (λ f, ymd_ok (f_ymd f)) f_ymd ins fmt ymd.

(** [src: include/date/date.h 7699-7713 from_stream] *)
Definition from_stream_ym (ins : istream) (fmt : string) (ym : year_month)
    : outcome (istream * year_month) :=
  from_stream_part (λ f, Ret (month_ok (ymd_month (f_ymd f))))
    (λ f, year_div_month (ymd_year (f_ymd f)) (ymd_month (f_ymd f))) ins fmt ym.

(** [src: include/date/date.h 7715-7729 from_stream] *)
Definition from_stream_md (ins : istream) (fmt : string) (md : month_day)
    : outcome (istream * month_day) :=
  from_stream_part (λ f, Ret (month_ok (ymd_month (f_ymd f)) && day_ok (ymd_day (f_ymd f))))
    (λ f, month_div_day (ymd_month (f_ymd f)) (ymd_day (f_ymd f))) ins fmt md.

(** A [sys_days]: the date, less the offset, plus the time of day, rounded to days.  A null [offset]
    is replaced by a local one.  [src: include/date/date.h 7747-7764 from_stream] *)
Definition from_stream_sys_days (ins : istream) (fmt : string) (tp : sys_days)
    (abbrev : option string) (offset : option minutes)
    : outcome (istream * sys_days * option string * option minutes) :=
  let fds := MkFields (f_ymd fields_default) (f_wd fields_default) (f_tod fields_default) true in
  let offptr := default 0 offset in
  '(ins, fds, abbrev, off) ← from_stream ins fmt fds abbrev (Some offptr);
  ok ← ymd_ok (f_ymd fds);
  let ins := if negb ok || negb (hms_in_conventional_range (f_tod fds)) then set_failbit ins else ins in
  tp ← (if negb (is_fail ins) then
          sd ← ymd_sys_days (f_ymd fds);
          m ← long_mul sd 1440;
          m ← long_sub m (default 0 off);
          s ← long_mul m 60;
          t ← hms_to_duration (f_tod fds);
          s ← long_add s t;
          round_days s
        else Ret tp);
  Ret (ins, tp, abbrev, match offset with Some _ => off | None => None end).

(** A [local_time<days>]: the same without the offset.
    [src: include/date/date.h 7766-7781 from_stream] *)
Definition from_stream_local_days (ins : istream) (fmt : string) (tp : local_days)
    (abbrev : option string) (offset : option minutes)
    : outcome (istream * local_days * option string * option minutes) :=
  let fds := MkFields (f_ymd fields_default) (f_wd fields_default) (f_tod fields_default) true in
  '(ins, fds, abbrev, off) ← from_stream ins fmt fds abbrev offset;
  ok ← ymd_ok (f_ymd fds);
  let ins := if negb ok || negb (hms_in_conventional_range (f_tod fds)) then set_failbit ins else ins in
  tp ← (if negb (is_fail ins) then
          ld ← ymd_local_days (f_ymd fds);
          t ← hms_to_duration (f_tod fds);
          s ← long_add (ld * 86400) t;
          round_days s
        else Ret tp);
  Ret (ins, tp, abbrev, off).

(** A duration of seconds: the time of day. [src: include/date/date.h 7783-7799 from_stream] *)
Definition from_stream_seconds (ins : istream) (fmt : string) (d : seconds)
    : outcome (istream * seconds) :=
  '(ins, fds, _, _) ← from_stream ins fmt fields_default None None;
  let ins := if negb (f_has_tod fds) then set_failbit ins else ins in
  d ← (if negb (is_fail ins) then hms_to_duration (f_tod fds) else Ret d);
  Ret (ins, d).

(** [is >> parse(format, tp)].
    [src: include/date/date.h 7822-7828 operator>>] *)
Definition parse_into (ins : istream) (format : string) (tp : sys_days)
    : outcome (istream * sys_days) :=
  '(ins, tp, _, _) ← from_stream_sys_days ins format tp None None;
  Ret (ins, tp).
End from_stream.
