(* ===== verification/DateFormat.v ===== *)
(** DateFormat: [to_stream] and [format] of include/date/date.h, and the stream operators [<<] of its
    classes.

    An output stream has the text written so far, its [failbit], and whether setting the bit
    throws.  A failed stream takes no more output, except from the [time_put] facet, which writes to
    its buffer.  Numbers are written as in the classic locale, without a thousands separator. *)

From Stdlib Require Import ZArith Lia Ascii String.
From stdpp Require Import base list strings.
From S2P Require Import Prelude Calendar DateUnits DateFields DateYmd DateYmw DateClock DateStream DateParse.

#[local] Open Scope char_scope.
#[local] Open Scope list_scope.
#[local] Open Scope Z_scope.

(** ** std::ostream *)

Record ostream : Type := MkOstream { os_text : string; os_failbit : bool; os_throws : bool }.

(** What [to_stream] changes besides: the [tm] for the facet, and whether the sign of a negative time
    of day is still to be written. *)
Record ost : Type := MkOst { ost_os : ostream; ost_tm : tm; ost_negative : bool }.

(** The monad: the state, faults, and the early [return os] ([None]). *)
Definition om (A : Type) : Type := ost → outcome (option A * ost).

#[export] Instance om_ret : MRet om := λ A a s, Ret (Some a, s).
#[export] Instance om_bind : MBind om := λ A B f m s,
  match m s with
  | Ret (Some a, s') => f a s'
  | Ret (None, s') => Ret (None, s')
  | Fault e => Fault e
  end.

Definition o_lift {A} (m : outcome A) : om A := λ s,
  match m with Ret a => Ret (Some a, s) | Fault e => Fault e end.
Definition return_os {A} : om A := λ s, Ret (None, s).
Definition os_fails : om bool := λ s, Ret (Some (os_failbit (ost_os s)), s).
Definition o_tm (f : tm → tm) : om unit := λ s,
  Ret (Some tt, MkOst (ost_os s) (f (ost_tm s)) (ost_negative s)).

(** [os.setstate(failbit)]. *)
Definition os_set_failbit : om unit := λ s,
  let os := ost_os s in
  if os_throws os then Fault Thrown
  else Ret (Some tt, MkOst (MkOstream (os_text os) true false) (ost_tm s) (ost_negative s)).

(** Text to the buffer, whatever the state of the stream. *)
Definition os_write (t : string) : om unit := λ s,
  let os := ost_os s in
  Ret (Some tt, MkOst (MkOstream (os_text os +:+ t) (os_failbit os) (os_throws os))
                      (ost_tm s) (ost_negative s)).

(** [os << t]. *)
Definition put_text (t : string) : om unit :=
  fail ← os_fails; if fail : bool then mret tt else os_write t.
Definition put_char (c : ascii) : om unit := put_text (String c EmptyString).

(** A number to the width [w]: the fill goes before the sign, or with [internal] after it. *)
Definition pad_number (w : nat) (fill : ascii) (internal : bool) (z : Z) : string :=
  let sign := if z <? 0 then "-"%string else ""%string in
  let ds := decimal_digits (Z.abs z) in
  let pad := String.string_of_list_ascii
               (replicate (w - (String.length sign + String.length ds)) fill) in
  if internal then sign +:+ pad +:+ ds else pad +:+ sign +:+ ds.

(** [os << z] without a width. *)
Definition put_int (z : Z) : om unit := put_text (pad_number 0 " " false z).
(** The same after [fill('0')], [flags(dec|right)] and [width(w)]. *)
Definition put_zeros (w : nat) (z : Z) : om unit := put_text (pad_number w "0" false z).

(** ** The fields of a date *)

(** [src: include/date/date.h 1461-1474 operator<<] *)
Definition put_day (d : day) : om unit :=
  put_zeros 2 (day_unsigned d);;
  if negb (day_ok d) then put_text " is not a valid day" else mret tt.

(** [src: include/date/date.h 1713-1727 operator<<] *)
Definition put_year (y : year) : om unit :=
  put_text (pad_number (if year_lt y (year_ctor 0) then 5 else 4) "0" true (year_int y));;
  if negb (year_ok y) then put_text " is not a valid year" else mret tt.

(** [src: include/date/date.h 2840-2856 operator<<] *)
Definition put_ymd (ymd : year_month_day) : om unit :=
  put_year (ymd_year ymd);; put_char "-";;
  put_zeros 2 (month_unsigned (ymd_month ymd));; put_char "-";;
  put_day (ymd_day ymd);;
  ok ← o_lift (ymd_ok ymd);
  if negb ok then put_text " is not a valid date" else mret tt.

(** [src: include/date/date.h 3774-3795 decimal_format_seconds::print] *)
Definition put_dfs (x : dfs) : om unit := put_zeros 2 (dfs_s x).

(** [src: include/date/date.h 3874-3884 operator<<] *)
Definition put_hms (tod : hh_mm_ss) : om unit :=
  (if hms_is_negative tod then put_char "-" else mret tt);;
  (if hms_h tod <? 10 then put_char "0" else mret tt);;
  put_int (hms_h tod);; put_char ":";;
  (if hms_m tod <? 10 then put_char "0" else mret tt);;
  put_int (hms_m tod);; put_char ":";;
  put_dfs (hms_s tod).

(** ** to_stream *)

(** [src: include/date/date.h 4579-4603 extract_weekday] *)
Definition extract_weekday (fds : fields) : om Z :=
  ok ← o_lift (ymd_ok (f_ymd fds));
  if negb ok && negb (weekday_ok (f_wd fds)) then os_set_failbit;; mret 8
  else if ok : bool then
    sd ← o_lift (ymd_sys_days (f_ymd fds));
    let wd := weekday_of_sys_days sd in
    if weekday_ok (f_wd fds) && weekday_ne wd (f_wd fds) then os_set_failbit;; mret 8
    else mret (u32 (weekday_minus_weekday wd Sunday))
  else mret (u32 (weekday_minus_weekday (f_wd fds) Sunday)).

(** [src: include/date/date.h 4605-4616 extract_month] *)
Definition extract_month (fds : fields) : om Z :=
  if negb (month_ok (ymd_month (f_ymd fds))) then os_set_failbit;; mret 0
  else mret (month_unsigned (ymd_month (f_ymd fds))).

(** The command that is being read: whether there was a [%], and the modifier. *)
Record ofstate : Type := MkOfstate { of_command : bool; of_modified : option ascii }.
Definition of_reset : ofstate := MkOfstate false None.
Definition of_is_modified (st : ofstate) : bool :=
  match of_modified st with Some _ => true | None => false end.

(** A command that is not one of its modifier stands for itself. *)
Definition put_literal (st : ofstate) (c : ascii) : om unit :=
  put_char "%";;
  match of_modified st with Some e => put_char e | None => mret tt end;;
  put_char c.

(** The frame of a command: [body] after a [%], the letter itself otherwise. *)
Definition put_command (st : ofstate) (c : ascii) (body : om unit) : om ofstate :=
  if of_command st then body;; mret of_reset else put_char c;; mret st.

(** [body] without a modifier, the text itself with one. *)
Definition put_unmodified (st : ofstate) (c : ascii) (body : om unit) : om unit :=
  match of_modified st with None => body | Some _ => put_literal st c end.

(** The text itself with the modifier [e], otherwise [body] with whether there is a modifier. *)
Definition put_unless (e : ascii) (st : ofstate) (c : ascii) (body : bool → om unit) : om unit :=
  match of_modified st with
  | None => body false
  | Some m => if Ascii.eqb m e then put_literal st c else body true
  end.

Definition require (ok : bool) : om unit := if ok then mret tt else os_set_failbit.
Definition require_ymd (fds : fields) : om unit :=
  ok ← o_lift (ymd_ok (f_ymd fds)); require ok.

(** The sign of a negative time of day, once. *)
Definition put_negative : om unit :=
  neg ← (λ s, Ret (Some (ost_negative s), s)) : om bool;
  if neg : bool then
    put_char "-";; (λ s, Ret (Some tt, MkOst (ost_os s) (ost_tm s) false)) : om unit
  else mret tt.

Definition put_two_digits (z : Z) : om unit :=
  (if z <? 10 then put_char "0" else mret tt);; put_int z.

Section to_stream.
Context `{TimeFacets}.

(** [facet.put(os, os, os.fill(), &tm, f, end)]. *)
Definition facet_put (pattern : list ascii) : om unit := λ s,
  os_write (time_put (String.string_of_list_ascii pattern) (ost_tm s)) s.

Definition pattern_of (st : ofstate) (c : ascii) : list ascii :=
  match of_modified st with None => ["%"; c] | Some e => ["%"; e; c] end.

(** [src: include/date/date.h 4838-4863 to_stream] *)
Definition format_a (fds : fields) (c : ascii) (st : ofstate) : om ofstate :=
  put_command st c (put_unmodified st c (
    wd ← extract_weekday fds;
    o_tm (λ t, MkTm (tm_sec t) (tm_min t) (tm_hour t) (tm_mday t) (tm_mon t) (tm_year t)
                    (i32 wd) (tm_yday t));;
    fail ← os_fails;
    if fail : bool then return_os else facet_put ["%"; c])).

(** [src: include/date/date.h 4864-4888 to_stream] *)
Definition format_b (fds : fields) (c : ascii) (st : ofstate) : om ofstate :=
  put_command st c (put_unmodified st c (
    m ← extract_month fds;
    mon ← o_lift (int_sub (i32 m) 1);
    o_tm (λ t, MkTm (tm_sec t) (tm_min t) (tm_hour t) (tm_mday t) mon (tm_year t)
                    (tm_wday t) (tm_yday t));;
    facet_put ["%"; c])).

(** The [tm] of the fields; [time]: with the time of day.
    [src: include/date/date.h 4899-4918 to_stream] *)
Definition tm_of_fields (fds : fields) (time : bool) : om unit :=
  let ymd := f_ymd fds in
  let tod := f_tod fds in
  ld ← o_lift (ymd_local_days ymd);
  m ← extract_month fds;
  y ← o_lift (int_sub (year_int (ymd_year ymd)) 1900);
  wd ← extract_weekday fds;
  fail ← os_fails;
  if fail : bool then return_os
  else
    first ← o_lift (ymd_local_days (ym_div_int (year_div_int (ymd_year ymd) 1) 1));
    yday ← o_lift (int_sub ld first);
    o_tm (λ _, MkTm (if time then i32 (hms_seconds tod) else 0)
                    (if time then i32 (hms_minutes tod) else 0)
                    (if time then i32 (hms_hours tod) else 0)
                    (day_unsigned (ymd_day ymd)) (i32 (uint_sub m 1)) y (i32 wd) yday).

(** [src: include/date/date.h 4889-4959 to_stream] *)
Definition format_c (fds : fields) (c : ascii) (st : ofstate) : om ofstate :=
  put_command st c (put_unless "O" st c (λ _,
    require_ymd fds;;
    require (negb (Ascii.eqb c "c") || f_has_tod fds);;
    tm_of_fields fds (Ascii.eqb c "c");;
    facet_put (pattern_of st c))).

(** [src: include/date/date.h 4960-5003 to_stream] *)
Definition format_C (fds : fields) (c : ascii) (st : ofstate) : om ofstate :=
  put_command st c (put_unless "O" st c (λ modified,
    let y := year_int (ymd_year (f_ymd fds)) in
    require (year_ok (ymd_year (f_ymd fds)));;
    if negb modified then
      if y >=? 0 then put_zeros 2 (c_div y 100)
      else
        put_char "-";;
        n ← o_lift (int_neg (y - 99));
        put_zeros 2 (c_div n 100)
    else
      o_tm (λ t, MkTm (tm_sec t) (tm_min t) (tm_hour t) (tm_mday t) (tm_mon t) (y - 1900)
                      (tm_wday t) (tm_yday t));;
      facet_put ["%"; "E"; "C"])).

(** [src: include/date/date.h 5004-5042 to_stream] *)
Definition format_d (fds : fields) (c : ascii) (st : ofstate) : om ofstate :=
  put_command st c (put_unless "E" st c (λ modified,
    let d := day_unsigned (ymd_day (f_ymd fds)) in
    require (day_ok (ymd_day (f_ymd fds)));;
    if negb modified then
      put_text (pad_number 2 (if Ascii.eqb c "d" then "0" else " ") false d)
    else
      o_tm (λ t, MkTm (tm_sec t) (tm_min t) (tm_hour t) d (tm_mon t) (tm_year t)
                      (tm_wday t) (tm_yday t));;
      facet_put ["%"; "O"; c])).

(** [src: include/date/date.h 5043-5070 to_stream] *)
Definition format_D (fds : fields) (c : ascii) (st : ofstate) : om ofstate :=
  put_command st c (put_unmodified st c (
    let ymd := f_ymd fds in
    require_ymd fds;;
    put_zeros 2 (month_unsigned (ymd_month ymd));; put_char "/";;
    put_zeros 2 (day_unsigned (ymd_day ymd));; put_char "/";;
    put_zeros 2 (c_rem (year_int (ymd_year ymd)) 100))).

(** [src: include/date/date.h 5071-5099 to_stream] *)
Definition format_F (fds : fields) (c : ascii) (st : ofstate) : om ofstate :=
  put_command st c (put_unmodified st c (
    let ymd := f_ymd fds in
    require_ymd fds;;
    put_zeros 4 (year_int (ymd_year ymd));; put_char "-";;
    put_zeros 2 (month_unsigned (ymd_month ymd));; put_char "-";;
    put_zeros 2 (day_unsigned (ymd_day ymd)))).

(** [src: include/date/date.h 5100-5134 to_stream] *)
Definition format_G (fds : fields) (c : ascii) (st : ofstate) : om ofstate :=
  put_command st c (put_unmodified st c (
    require_ymd fds;;
    ld ← o_lift (ymd_local_days (f_ymd fds));
    y ← o_lift (l3 ← int_add ld 3; t ← ymd_of_local_days l3; Ret (ymd_year t));
    start ← o_lift (y1 ← year_minus_years y 1; iso_year_start y1);
    let y := if ld <? start then year_pre_dec y else y in
    if Ascii.eqb c "G" then put_year y
    else put_zeros 2 (c_rem (Z.abs (year_int y)) 100))).

(** [src: include/date/date.h 5135-5174 to_stream] *)
Definition format_H (fds : fields) (c : ascii) (st : ofstate) : om ofstate :=
  put_command st c (put_unless "E" st c (λ modified,
    let hms := f_tod fds in
    require (f_has_tod fds);;
    put_negative;;
    if negb modified then
      h ← o_lift (if Ascii.eqb c "I" then make12 (hms_hours hms) else Ret (hms_hours hms));
      put_two_digits h
    else
      o_tm (λ t, tm_set_hour t (i32 (hms_hours hms)));;
      facet_put (pattern_of st c))).

(** [src: include/date/date.h 5175-5213 to_stream] *)
Definition format_j (fds : fields) (c : ascii) (st : ofstate) : om ofstate :=
  put_command st c (put_unmodified st c (
    ok ← o_lift (ymd_ok (f_ymd fds));
    if ok || f_has_tod fds then
      doy ← o_lift (
        if ok : bool then
          ld ← ymd_local_days (f_ymd fds);
          first ← ymd_local_days (ym_div_day (year_div_month (ymd_year (f_ymd fds)) January)
                                             (day_ctor 1));
          n ← int_sub ld first;
          int_add n 1
        else d ← hms_to_duration (f_tod fds); Ret (days_of_seconds d));
      put_zeros 3 doy
    else os_set_failbit)).

(** [src: include/date/date.h 5214-5246 to_stream] *)
Definition format_m (fds : fields) (c : ascii) (st : ofstate) : om ofstate :=
  put_command st c (put_unless "E" st c (λ modified,
    let m := month_unsigned (ymd_month (f_ymd fds)) in
    require (month_ok (ymd_month (f_ymd fds)));;
    if negb modified then put_two_digits m
    else
      o_tm (λ t, MkTm (tm_sec t) (tm_min t) (tm_hour t) (tm_mday t) (i32 (uint_sub m 1)) (tm_year t)
                      (tm_wday t) (tm_yday t));;
      facet_put (pattern_of st c))).

(** [src: include/date/date.h 5247-5283 to_stream] *)
Definition format_M (fds : fields) (c : ascii) (st : ofstate) : om ofstate :=
  put_command st c (put_unless "E" st c (λ modified,
    require (f_has_tod fds);;
    put_negative;;
    if negb modified then put_two_digits (hms_minutes (f_tod fds))
    else
      o_tm (λ t, MkTm (tm_sec t) (i32 (hms_minutes (f_tod fds))) (tm_hour t) (tm_mday t) (tm_mon t)
                      (tm_year t) (tm_wday t) (tm_yday t));;
      facet_put (pattern_of st c))).

(** [src: include/date/date.h 5284-5298 to_stream] *)
Definition format_n (c : ascii) (st : ofstate) : om ofstate :=
  put_command st c (put_unmodified st c (put_char "010")).

(** [src: include/date/date.h 5449-5463 to_stream] *)
Definition format_t (c : ascii) (st : ofstate) : om ofstate :=
  put_command st c (put_unmodified st c (put_char "009")).

(** [src: include/date/date.h 5299-5326 to_stream] *)
Definition format_p (fds : fields) (c : ascii) (st : ofstate) : om ofstate :=
  put_command st c (put_unmodified st c (
    require (f_has_tod fds);;
    o_tm (λ t, tm_set_hour t (i32 (hms_hours (f_tod fds))));;
    facet_put ["%"; c])).

(** The unit is seconds. [src: include/date/date.h 5327-5350 to_stream] *)
Definition format_Q (fds : fields) (c : ascii) (st : ofstate) : om ofstate :=
  put_command st c (put_unmodified st c (
    require (f_has_tod fds);;
    d ← o_lift (hms_to_duration (f_tod fds));
    if Ascii.eqb c "q" then put_text "s" else put_int d)).

Definition tm_set_time (tod : hh_mm_ss) (t : tm) : tm :=
  MkTm (i32 (hms_seconds tod)) (i32 (hms_minutes tod)) (i32 (hms_hours tod))
       (tm_mday t) (tm_mon t) (tm_year t) (tm_wday t) (tm_yday t).

(** [src: include/date/date.h 5351-5389 to_stream] *)
Definition format_r (fds : fields) (c : ascii) (st : ofstate) : om ofstate :=
  put_command st c (put_unmodified st c (
    require (f_has_tod fds);;
    o_tm (tm_set_time (f_tod fds));;
    facet_put ["%"; c])).

(** [src: include/date/date.h 5390-5413 to_stream] *)
Definition format_R (fds : fields) (c : ascii) (st : ofstate) : om ofstate :=
  put_command st c (put_unmodified st c (
    require (f_has_tod fds);;
    put_two_digits (hms_hours (f_tod fds));; put_char ":";;
    put_two_digits (hms_minutes (f_tod fds)))).

(** [src: include/date/date.h 5414-5448 to_stream] *)
Definition format_S (fds : fields) (c : ascii) (st : ofstate) : om ofstate :=
  put_command st c (put_unless "E" st c (λ modified,
    require (f_has_tod fds);;
    put_negative;;
    if negb modified then put_dfs (hms_s (f_tod fds))
    else
      o_tm (λ t, MkTm (i32 (dfs_s (hms_s (f_tod fds)))) (tm_min t) (tm_hour t) (tm_mday t) (tm_mon t)
                      (tm_year t) (tm_wday t) (tm_yday t));;
      facet_put (pattern_of st c))).

(** [src: include/date/date.h 5464-5482 to_stream] *)
Definition format_T (fds : fields) (c : ascii) (st : ofstate) : om ofstate :=
  put_command st c (put_unmodified st c (require (f_has_tod fds);; put_hms (f_tod fds))).

Definition tm_set_wday (wd : Z) (t : tm) : tm :=
  MkTm (tm_sec t) (tm_min t) (tm_hour t) (tm_mday t) (tm_mon t) (tm_year t) (i32 wd) (tm_yday t).

(** [src: include/date/date.h 5483-5511 to_stream] *)
Definition format_u (fds : fields) (c : ascii) (st : ofstate) : om ofstate :=
  put_command st c (put_unless "E" st c (λ modified,
    wd ← extract_weekday fds;
    if negb modified then put_int (if negb (wd =? 0) then wd else 7)
    else o_tm (tm_set_wday wd);; facet_put (pattern_of st c))).

(** [src: include/date/date.h 5605-5636 to_stream] *)
Definition format_w (fds : fields) (c : ascii) (st : ofstate) : om ofstate :=
  put_command st c (
    wd ← extract_weekday fds;
    fail ← os_fails;
    if fail : bool then return_os
    else put_unless "E" st c (λ modified,
           if negb modified then put_int wd
           else o_tm (tm_set_wday wd);; facet_put (pattern_of st c))).

(** Year, weekday and day of the year for the facet.
    [src: include/date/date.h 5540-5547 to_stream] *)
Definition tm_of_week (fds : fields) (ld : local_days) : om unit :=
  let ymd := f_ymd fds in
  y ← o_lift (int_sub (year_int (ymd_year ymd)) 1900);
  wd ← extract_weekday fds;
  fail ← os_fails;
  if fail : bool then return_os
  else
    first ← o_lift (ymd_local_days (ym_div_int (year_div_int (ymd_year ymd) 1) 1));
    yday ← o_lift (int_sub ld first);
    o_tm (λ t, MkTm (tm_sec t) (tm_min t) (tm_hour t) (tm_mday t) (tm_mon t) y (i32 wd) yday).

(** The weeks that start with the first Sunday or Monday of the year. *)
Definition format_week (first : weekday) (fds : fields) (c : ascii) (st : ofstate) : om ofstate :=
  put_command st c (put_unless "E" st c (λ modified,
    require_ymd fds;;
    ld ← o_lift (ymd_local_days (f_ymd fds));
    if negb modified then
      start ← o_lift (first_weekday (ymd_year (f_ymd fds)) first);
      if ld <? start then put_text "00"
      else
        wn ← o_lift (n ← int_sub ld start; int_add (weeks_of_days n) 1);
        put_two_digits wn
    else tm_of_week fds ld;; facet_put (pattern_of st c))).

(** [src: include/date/date.h 5512-5556 to_stream] *)
Definition format_U : fields → ascii → ofstate → om ofstate := format_week Sunday.

(** [src: include/date/date.h 5637-5681 to_stream] *)
Definition format_W : fields → ascii → ofstate → om ofstate := format_week Monday.

(** [src: include/date/date.h 5557-5604 to_stream] *)
Definition format_V (fds : fields) (c : ascii) (st : ofstate) : om ofstate :=
  put_command st c (put_unless "E" st c (λ modified,
    require_ymd fds;;
    ld ← o_lift (ymd_local_days (f_ymd fds));
    if negb modified then
      wn ← o_lift (
        l3 ← int_add ld 3;
        t ← ymd_of_local_days l3;
        let y := ymd_year t in
        y1 ← year_minus_years y 1;
        start ← iso_year_start y1;
        start ← (if ld <? start then
                   y1 ← year_minus_years (year_pre_dec y) 1; iso_year_start y1
                 else Ret start);
        n ← int_sub ld start;
        int_add (weeks_of_days n) 1);
      put_two_digits wn
    else tm_of_week fds ld;; facet_put (pattern_of st c))).

(** [src: include/date/date.h 5682-5711 to_stream] *)
Definition format_X (fds : fields) (c : ascii) (st : ofstate) : om ofstate :=
  put_command st c (put_unless "O" st c (λ _,
    require (f_has_tod fds);;
    o_tm (λ _, tm_set_time (f_tod fds) tm_zero);;
    facet_put (pattern_of st c))).

Definition tm_set_year (y : Z) (t : tm) : tm :=
  MkTm (tm_sec t) (tm_min t) (tm_hour t) (tm_mday t) (tm_mon t) (y - 1900) (tm_wday t) (tm_yday t).

(** [src: include/date/date.h 5712-5740 to_stream] *)
Definition format_y (fds : fields) (c : ascii) (st : ofstate) : om ofstate :=
  put_command st c (
    let y := year_int (ymd_year (f_ymd fds)) in
    require (year_ok (ymd_year (f_ymd fds)));;
    match of_modified st with
    | None => put_two_digits (c_rem (Z.abs y) 100)
    | Some _ => o_tm (tm_set_year y);; facet_put (pattern_of st c)
    end).

(** [src: include/date/date.h 5741-5773 to_stream] *)
Definition format_Y (fds : fields) (c : ascii) (st : ofstate) : om ofstate :=
  put_command st c (put_unless "O" st c (λ modified,
    let y := ymd_year (f_ymd fds) in
    require (year_ok y);;
    if negb modified then put_year y
    else o_tm (tm_set_year (year_int y));; facet_put (pattern_of st c))).

(** [src: include/date/date.h 5774-5805 to_stream] *)
Definition format_z (offset_sec : option seconds) (c : ascii) (st : ofstate) : om ofstate :=
  put_command st c (
    match offset_sec with
    | None => os_set_failbit;; return_os
    | Some o =>
        let m := c_div o 60 in
        let neg := m <? 0 in
        m ← o_lift (if m >=? 0 then Ret m else long_neg m);
        let h := c_div m 60 in
        let m := m - h * 60 in
        put_char (if neg then "-" else "+");;
        put_two_digits h;;
        (if of_is_modified st then put_char ":" else mret tt);;
        put_two_digits m
    end).

(** [src: include/date/date.h 5806-5829 to_stream] *)
Definition format_Z (abbrev : option string) (c : ascii) (st : ofstate) : om ofstate :=
  put_command st c (put_unmodified st c (
    match abbrev with
    | None => os_set_failbit;; return_os
    | Some a => put_text a
    end)).

(** [src: include/date/date.h 5830-5847 to_stream] *)
Definition format_modifier (c : ascii) (st : ofstate) : om ofstate :=
  if of_command st then
    match of_modified st with
    | None => mret (MkOfstate true (Some c))
    | Some _ => put_literal st c;; mret of_reset
    end
  else put_char c;; mret st.

(** [src: include/date/date.h 5848-5865 to_stream] *)
Definition format_percent (st : ofstate) : om ofstate :=
  if of_command st then
    match of_modified st with
    | None => put_char "%";; mret of_reset
    | Some _ => put_literal st "%";; mret of_reset
    end
  else mret (MkOfstate true (of_modified st)).

(** [src: include/date/date.h 5866-5879 to_stream] *)
Definition format_default (c : ascii) (st : ofstate) : om ofstate :=
  (if of_command st then put_char "%" else mret tt);;
  match of_modified st with Some e => put_char e | None => mret tt end;;
  put_char c;;
  mret of_reset.

(** [src: include/date/date.h 4836-5880 to_stream] *)
Definition format_step (fds : fields) (abbrev : option string) (offset_sec : option seconds)
    (c : ascii) (st : ofstate) : om ofstate :=
  match c with
  | "a" | "A" => format_a fds c st
  | "b" | "B" | "h" => format_b fds c st
  | "c" | "x" => format_c fds c st
  | "C" => format_C fds c st
  | "d" | "e" => format_d fds c st
  | "D" => format_D fds c st
  | "F" => format_F fds c st
  | "g" | "G" => format_G fds c st
  | "H" | "I" => format_H fds c st
  | "j" => format_j fds c st
  | "m" => format_m fds c st
  | "M" => format_M fds c st
  | "n" => format_n c st
  | "p" => format_p fds c st
  | "Q" | "q" => format_Q fds c st
  | "r" => format_r fds c st
  | "R" => format_R fds c st
  | "S" => format_S fds c st
  | "t" => format_t c st
  | "T" => format_T fds c st
  | "u" => format_u fds c st
  | "U" => format_U fds c st
  | "V" => format_V fds c st
  | "w" => format_w fds c st
  | "W" => format_W fds c st
  | "X" => format_X fds c st
  | "y" => format_y fds c st
  | "Y" => format_Y fds c st
  | "z" => format_z offset_sec c st
  | "Z" => format_Z abbrev c st
  | "E" | "O" => format_modifier c st
  | "%" => format_percent st
  | _ => format_default c st
  end.

(** The loop over the format, and a command that it leaves open.
    [src: include/date/date.h 4834-5887 to_stream] *)
Fixpoint format_loop (fds : fields) (abbrev : option string) (offset_sec : option seconds)
    (fmt : string) (st : ofstate) : om unit :=
  match fmt with
  | EmptyString =>
      (if of_command st then put_char "%" else mret tt);;
      match of_modified st with Some e => put_char e | None => mret tt end
  | String c rest =>
      st ← format_step fds abbrev offset_sec c st;
      format_loop fds abbrev offset_sec rest st
  end.

(** [src: include/date/date.h 4803-4835 to_stream] *)
Definition to_stream (os : ostream) (fmt : string) (fds : fields) (abbrev : option string)
    (offset_sec : option seconds) : outcome ostream :=
  neg ← (if f_has_tod fds then d ← hms_to_duration (f_tod fds); Ret (d <? 0) else Ret false);
  '(_, s) ← format_loop fds abbrev offset_sec fmt of_reset (MkOst os tm_zero neg);
  Ret (ost_os s).

(** ** The overloads and [format] *)

Definition fields_of_ymd (ymd : year_month_day) : fields :=
  MkFields ymd (f_wd fields_default) (f_tod fields_default) false.

(** [src: include/date/date.h 5888-5896 to_stream] *)
Definition to_stream_year (os : ostream) (fmt : string) (y : year) : outcome ostream :=
  to_stream os fmt (fields_of_ymd (ym_div_int (year_div_int y 0) 0)) None None.

(** [src: include/date/date.h 5898-5906 to_stream] *)
Definition to_stream_month (os : ostream) (fmt : string) (m : month) : outcome ostream :=
  to_stream os fmt (fields_of_ymd (md_div_year (month_div_int m 0) nanyear)) None None.

(** [src: include/date/date.h 5908-5916 to_stream] *)
Definition to_stream_day (os : ostream) (fmt : string) (d : day) : outcome ostream :=
  to_stream os fmt (fields_of_ymd (md_div_year (day_div_int d 0) nanyear)) None None.

(** [src: include/date/date.h 5918-5926 to_stream] *)
Definition to_stream_weekday (os : ostream) (fmt : string) (wd : weekday) : outcome ostream :=
  to_stream os fmt (MkFields (f_ymd fields_default) wd (f_tod fields_default) false) None None.

(** [src: include/date/date.h 5928-5936 to_stream] *)
Definition to_stream_ym (os : ostream) (fmt : string) (ym : year_month) : outcome ostream :=
  to_stream os fmt (fields_of_ymd (ym_div_int ym 0)) None None.

(** [src: include/date/date.h 5938-5946 to_stream] *)
Definition to_stream_md (os : ostream) (fmt : string) (md : month_day) : outcome ostream :=
  to_stream os fmt (fields_of_ymd (md_div_year md nanyear)) None None.

(** [src: include/date/date.h 5948-5957 to_stream] *)
Definition to_stream_ymd (os : ostream) (fmt : string) (ymd : year_month_day) : outcome ostream :=
  to_stream os fmt (fields_of_ymd ymd) None None.

(** [src: include/date/date.h 5959-5969 to_stream] *)
Definition to_stream_seconds (os : ostream) (fmt : string) (d : seconds) : outcome ostream :=
  tod ← hms_ctor d;
  to_stream os fmt (MkFields (f_ymd fields_default) (f_wd fields_default) tod true) None None.

(** A local time in seconds. [src: include/date/date.h 5971-5981 to_stream] *)
Definition to_stream_local_seconds (os : ostream) (fmt : string) (tp : seconds)
    (abbrev : option string) (offset_sec : option seconds) : outcome ostream :=
  ld ← floor_days tp;
  ymd ← ymd_of_local_days ld;
  t ← long_sub tp (ld * 86400);
  tod ← hms_ctor t;
  to_stream os fmt (MkFields ymd (f_wd fields_default) tod true) abbrev offset_sec.

(** A system time in seconds. [src: include/date/date.h 5983-5995 to_stream] *)
Definition to_stream_sys_seconds (os : ostream) (fmt : string) (tp : seconds) : outcome ostream :=
  sd ← floor_days tp;
  ymd ← ymd_of_sys_days sd;
  t ← long_sub tp (sd * 86400);
  tod ← hms_ctor t;
  to_stream os fmt (MkFields ymd (f_wd fields_default) tod true) (Some "UTC"%string) (Some 0).

(** A [sys_days]: [floor<days>] does nothing, and the time of day is zero.
    [src: include/date/date.h 5983-5995 to_stream] *)
Definition to_stream_sys_days (os : ostream) (fmt : string) (tp : sys_days) : outcome ostream :=
  ymd ← ymd_of_sys_days tp;
  t ← long_sub (tp * 86400) (tp * 86400);
  tod ← hms_ctor t;
  to_stream os fmt (MkFields ymd (f_wd fields_default) tod true) (Some "UTC"%string) (Some 0).

(** The stream of [format] throws when it fails. [src: include/date/date.h 6012-6022 format] *)
Definition format_with (to_stream : ostream → outcome ostream) : outcome string :=
  os ← to_stream (MkOstream EmptyString false true);
  Ret (os_text os).

(** [src: include/date/date.h 6012-6022 format] *)
Definition format_sys_days (fmt : string) (tp : sys_days) : outcome string :=
  format_with (λ os, to_stream_sys_days os fmt tp).

(** ** The operators [<<] that format *)

(** [src: include/date/date.h 1588-1601 operator<<] *)
Definition put_month (m : month) : om unit :=
  if month_ok m then
    t ← o_lift (format_with (λ os, to_stream_month os "%b" m));
    put_text t
  else put_int (month_unsigned m);; put_text " is not a valid month".

(** [src: include/date/date.h 1849-1862 operator<<] *)
Definition put_weekday (wd : weekday) : om unit :=
  if weekday_ok wd then
    t ← o_lift (format_with (λ os, to_stream_weekday os "%a" wd));
    put_text t
  else put_int (weekday_wd wd);; put_text " is not a valid weekday".

(** [src: include/date/date.h 1969-1979 operator<<] *)
Definition put_wdi (wdi : weekday_indexed) : om unit :=
  put_weekday (wdi_weekday wdi);; put_char "[";; put_int (wdi_index wdi);;
  (if negb ((1 <=? wdi_index wdi) && (wdi_index wdi <=? 5))
   then put_text " is not a valid index" else mret tt);;
  put_char "]".

(** [src: include/date/date.h 2027-2033 operator<<] *)
Definition put_wdl (wdl : weekday_last) : om unit :=
  put_weekday (wdl_weekday wdl);; put_text "[last]".

(** [src: include/date/date.h 2207-2213 operator<<] *)
Definition put_ym (ym : year_month) : om unit :=
  put_year (ym_year ym);; put_char "/";; put_month (ym_month ym).

(** [src: include/date/date.h 2292-2298 operator<<] *)
Definition put_md (md : month_day) : om unit :=
  put_month (md_month md);; put_char "/";; put_day (md_day md).

(** [src: include/date/date.h 2354-2360 operator<<] *)
Definition put_mdl (mdl : month_day_last) : om unit :=
  put_month (mdl_month mdl);; put_text "/last".

(** [src: include/date/date.h 2406-2412 operator<<] *)
Definition put_mwd (mwd : month_weekday) : om unit :=
  put_month (mwd_month mwd);; put_char "/";; put_wdi (mwd_weekday_indexed mwd).

(** [src: include/date/date.h 2458-2464 operator<<] *)
Definition put_mwdl (mwdl : month_weekday_last) : om unit :=
  put_month (mwdl_month mwdl);; put_char "/";; put_wdl (mwdl_weekday_last mwdl).

(** [src: include/date/date.h 2613-2619 operator<<] *)
Definition put_ymdl (ymdl : year_month_day_last) : om unit :=
  put_year (ymdl_year ymdl);; put_char "/";; put_mdl (ymdl_month_day_last ymdl).

(** [src: include/date/date.h 3085-3092 operator<<] *)
Definition put_ymwd (ymwdi : year_month_weekday) : om unit :=
  put_year (ymwd_year ymwdi);; put_char "/";; put_month (ymwd_month ymwdi);; put_char "/";;
  put_wdi (ymwd_weekday_indexed ymwdi).

(** [src: include/date/date.h 3262-3268 operator<<] *)
Definition put_ymwdl (ymwdl : year_month_weekday_last) : om unit :=
  put_year (ymwdl_year ymwdl);; put_char "/";; put_month (ymwdl_month ymwdl);; put_char "/";;
  put_wdl (ymwdl_weekday_last ymwdl).

(** [src: include/date/date.h 3970-3982 operator<<] *)
Definition put_sys_seconds (tp : seconds) : om unit :=
  dp ← o_lift (floor_days tp);
  ymd ← o_lift (ymd_of_sys_days dp);
  put_ymd ymd;; put_char " ";;
  tod ← o_lift (t ← long_sub tp (dp * 86400); make_time t);
  put_hms tod.

(** [src: include/date/date.h 3984-3990 operator<<] *)
Definition put_sys_days (dp : sys_days) : om unit :=
  ymd ← o_lift (ymd_of_sys_days dp); put_ymd ymd.
End to_stream.

(** * The program src/date_hinnant.cpp, which parses a year and a day of the year and prints the date. *)

Section main.
Context `{TimeFacets}.

(** What the program prints for the text of [iStr]; a [sys_days] is zero before it is read.
    [src: src/date_hinnant.cpp 6-20 main] *)
Definition date_hinnant (iStr : string) : outcome string :=
  '(_, sysDays) ← parse_into (MkIstream iStr false false) "%Y%j" 0;
  oStr ← format_sys_days "%F" sysDays;
  Ret oStr.

(** [src: src/date_hinnant.cpp 6-20 main] *)
Definition date_hinnant_main : outcome string := date_hinnant "0000030".
End main.
