(* ===== verification/DateIoProofs.v ===== *)
(** DateIoProofs: lemmas on the parser and the formatter: numbers of a fixed width, the steps of the
    format, and the way from the variables to the date. *)

From Stdlib Require Import ZArith Lia Ascii String.
From stdpp Require Import base list strings.
From S2P Require Import Prelude Calendar DateUnits DateFields DateYmd DateYmw Civil DateSerial DateClock DateStream DateParse DateFormat.

#[local] Open Scope Z_scope.

(** ** Strings *)

Lemma app_string_cons x (a b : string) : String x a +:+ b = String x (a +:+ b).
Proof. reflexivity. Qed.

Lemma app_string_assoc (a b c : string) : (a +:+ b) +:+ c = a +:+ (b +:+ c).
Proof. induction a as [|x a IH]; [done|]. rewrite !app_string_cons. by f_equal. Qed.

Lemma app_string_nil (a : string) : a +:+ ""%string = a.
Proof. induction a as [|x a IH]; [done|]. rewrite !app_string_cons. by f_equal. Qed.

Lemma length_app_string (a b : string) :
  String.length (a +:+ b) = (String.length a + String.length b)%nat.
Proof. induction a as [|x a IH]; [done|]. rewrite app_string_cons. cbn. by f_equal. Qed.

Lemma string_of_app (a b : list ascii) :
  string_of_list_ascii (a ++ b) = string_of_list_ascii a +:+ string_of_list_ascii b.
Proof. induction a as [|x a IH]; [done|]. cbn. rewrite app_string_cons. by f_equal. Qed.

(** ** Numbers of a fixed width *)

Definition digit_char (d : Z) : ascii := ascii_of_N (Z.to_N (48 + d)).

Lemma char_code_digit d : 0 ≤ d < 10 → char_code (digit_char d) = 48 + d.
Proof.
  intros H. unfold char_code, digit_char. rewrite N_ascii_embedding by lia.
  by rewrite Z2N.id by lia.
Qed.

Lemma is_digit_char d : 0 ≤ d < 10 → is_digit (digit_char d) = true.
Proof.
  intros H. unfold is_digit. rewrite char_code_digit by done.
  apply andb_true_iff. rewrite !Z.leb_le. lia.
Qed.

Lemma digit_val_char d : 0 ≤ d < 10 → digit_val (digit_char d) = d.
Proof. intros H. unfold digit_val. rewrite char_code_digit by done. lia. Qed.

(** The last [w] decimal digits of [n]. *)
Fixpoint fixed_list (w : nat) (n : Z) : list ascii :=
  match w with
  | O => []
  | S w' => fixed_list w' (n / 10) ++ [digit_char (n mod 10)]
  end.
Definition fixed (w : nat) (n : Z) : string := string_of_list_ascii (fixed_list w n).

Lemma fixed_S w n rest :
  fixed (S w) n +:+ rest = fixed w (n / 10) +:+ String (digit_char (n mod 10)) rest.
Proof. unfold fixed. cbn [fixed_list]. by rewrite string_of_app, app_string_assoc. Qed.

Lemma length_fixed w n : String.length (fixed w n) = w.
Proof.
  revert n. induction w as [|w IH]; intros n; [done|].
  rewrite <- (app_string_nil (fixed (S w) n)), fixed_S, length_app_string, IH. cbn. lia.
Qed.

Lemma fixed_list_0 w : fixed_list w 0 = replicate w "0"%char.
Proof.
  induction w as [|w IH]; [done|]. cbn [fixed_list]. change (0 / 10) with 0. rewrite IH.
  by rewrite replicate_S_end.
Qed.

Lemma digits_rev_S fuel n :
  digits_rev (S fuel) n
  = digit_char (n mod 10) :: (if n <? 10 then [] else digits_rev fuel (n / 10)).
Proof. reflexivity. Qed.

(** The digits of a number, filled up with zeros. *)
Lemma digits_rev_fixed fuel w n :
  0 ≤ n < 2 ^ Z.of_nat (S fuel) → n < 10 ^ Z.of_nat (S w) →
  (length (digits_rev (S fuel) n) <= S w)%nat
  ∧ replicate (S w - length (digits_rev (S fuel) n)) "0"%char ++ rev (digits_rev (S fuel) n)
    = fixed_list (S w) n.
Proof.
  revert w n. induction fuel as [|fuel IH]; intros w n Hn Hw; rewrite digits_rev_S;
    destruct (Z.ltb_spec n 10) as [Hs|Hs].
  1,3: split; [cbn; lia|]; cbn [length rev app fixed_list];
       replace (n / 10) with 0 by (symmetry; apply Z.div_small; lia);
       rewrite fixed_list_0; do 2 f_equal; lia.
  { change (2 ^ Z.of_nat 1) with 2 in Hn. lia. }
  destruct w as [|w]; [change (10 ^ Z.of_nat 1) with 10 in Hw; lia|].
  rewrite (Nat2Z.inj_succ (S fuel)), Z.pow_succ_r in Hn by lia.
  rewrite (Nat2Z.inj_succ (S w)), Z.pow_succ_r in Hw by lia.
  destruct (IH w (n / 10)) as [Hl E]; [div_lia | div_lia |].
  cbn [length]. split; [lia|]. cbn [rev fixed_list] in *.
  rewrite app_assoc. f_equal. exact E.
Qed.

Lemma length_digits_rev fuel k n :
  0 ≤ n < 2 ^ Z.of_nat (S fuel) → 10 ^ Z.of_nat k ≤ n → (k < length (digits_rev (S fuel) n))%nat.
Proof.
  revert k n. induction fuel as [|fuel IH]; intros k n Hn Hk; rewrite digits_rev_S;
    (destruct k as [|k]; [cbn; lia|]);
    rewrite Nat2Z.inj_succ, Z.pow_succ_r in Hk by lia;
    pose proof (Z.pow_pos_nonneg 10 (Z.of_nat k)).
  { change (2 ^ Z.of_nat 1) with 2 in Hn. lia. }
  assert ((n <? 10) = false) as -> by (apply Z.ltb_ge; lia).
  rewrite (Nat2Z.inj_succ (S fuel)), Z.pow_succ_r in Hn by lia.
  assert (k < length (digits_rev (S fuel) (n / 10)))%nat by (apply IH; div_lia).
  cbn [length]. lia.
Qed.

Lemma log2_fuel n : 0 ≤ n → n < 2 ^ Z.of_nat (S (Z.to_nat (Z.log2 n))).
Proof.
  intros H0. rewrite Nat2Z.inj_succ, Z2Nat.id by apply Z.log2_nonneg.
  destruct (Z.eq_dec n 0) as [->|]; [reflexivity|]. apply Z.log2_spec. lia.
Qed.

(** A number without zeros in front. *)
Lemma decimal_digits_fixed k n :
  0 < n → 10 ^ Z.of_nat k ≤ n < 10 ^ Z.of_nat (S k) → decimal_digits n = fixed (S k) n.
Proof.
  intros H0 Hn. unfold decimal_digits, fixed. pose proof (log2_fuel n ltac:(lia)) as Hf.
  pose proof (length_digits_rev (Z.to_nat (Z.log2 n)) k n) as Hl.
  destruct (digits_rev_fixed (Z.to_nat (Z.log2 n)) k n) as [Hu E]; [lia | lia |].
  rewrite <- E. replace (S k - _)%nat with 0%nat by (specialize (Hl ltac:(lia) ltac:(lia)); lia).
  reflexivity.
Qed.

Lemma pad_number_fixed w b n :
  0 ≤ n < 10 ^ Z.of_nat (S w) → pad_number (S w) "0" b n = fixed (S w) n.
Proof.
  intros [H0 Hw]. unfold pad_number, decimal_digits.
  assert ((n <? 0) = false) as -> by (apply Z.ltb_ge; lia). rewrite Z.abs_eq by lia.
  pose proof (log2_fuel n H0) as Hf.
  destruct (digits_rev_fixed (Z.to_nat (Z.log2 n)) w n) as [Hl E]; [lia | done |].
  assert (∀ l, String.length (string_of_list_ascii l) = length l) as Hlen.
  { induction l as [|a l IH]; [done|]. cbn. by rewrite IH. }
  assert (∀ a, (""%string +:+ a) = a) as Hnil by done. cbn [String.length plus].
  rewrite Hlen, length_rev. unfold fixed. rewrite <- E, string_of_app.
  destruct b; by rewrite Hnil.
Qed.

(** A negative number: the zeros come before the sign. *)
Lemma pad_number_negative w k n :
  0 < n → 10 ^ Z.of_nat k ≤ n < 10 ^ Z.of_nat (S k) →
  pad_number w "0" false (- n)
  = string_of_list_ascii (replicate (w - S (S k)) "0"%char) +:+ String "-" (fixed (S k) n).
Proof.
  intros H0 Hn. unfold pad_number. rewrite Z.abs_opp, Z.abs_eq by lia.
  assert ((- n <? 0) = true) as -> by (apply Z.ltb_lt; lia).
  rewrite (decimal_digits_fixed k) by done. rewrite length_fixed. reflexivity.
Qed.

(** ** Reading *)

Definition stream (s : string) : istream := MkIstream s false false.

(** The digits before the last one that is read. *)
Lemma read_digits_prefix w fuel n rest x count M :
  0 ≤ n < 10 ^ Z.of_nat w → 0 ≤ x → x * 10 ^ Z.of_nat w + n < 4294967296 →
  0 ≤ count → count + Z.of_nat w < M → M < 4294967296 →
  read_digits (w + fuel) (stream (fixed w n +:+ rest)) x count M
  = read_digits fuel (stream rest) (x * 10 ^ Z.of_nat w + n) (count + Z.of_nat w) M.
Proof.
  revert n rest fuel. induction w as [|w IH]; intros n rest fuel Hn Hx Hmax Hc HM HMax.
  { change (10 ^ Z.of_nat 0) with 1 in *. cbn. f_equal; lia. }
  rewrite Nat2Z.inj_succ, Z.pow_succ_r in * by lia.
  assert (0 ≤ n mod 10 < 10) by (apply Z.mod_pos_bound; lia).
  assert (0 ≤ n / 10 < 10 ^ Z.of_nat w) by div_lia.
  replace (S w + fuel)%nat with (w + S fuel)%nat by lia.
  rewrite fixed_S, IH by div_lia.
  cbn [read_digits peek stream is_good is_rest negb andb is_failbit is_eofbit get_char snd].
  rewrite is_digit_char, digit_val_char by done. cbn [negb].
  rewrite (uint_add_small (count + Z.of_nat w)) by lia.
  assert ((count + Z.of_nat w + 1 =? M) = false) as -> by (apply Z.eqb_neq; lia).
  rewrite uint_mul_small by div_lia. rewrite uint_add_small by div_lia.
  f_equal; [div_lia | lia].
Qed.

(** As many digits as are asked for. *)
Lemma read_unsigned_full w n rest m :
  0 ≤ n < 10 ^ Z.of_nat (S w) → n < 4294967296 → Z.of_nat (S w) < 4294967296 →
  m ≤ Z.of_nat (S w) →
  read_unsigned (stream (fixed (S w) n +:+ rest)) m (Z.of_nat (S w)) = Ret (n, stream rest).
Proof.
  intros Hn Hmax HM Hm. unfold read_unsigned, read_fuel. cbn [stream is_rest].
  rewrite length_app_string, length_fixed, fixed_S.
  rewrite Nat2Z.inj_succ, Z.pow_succ_r in Hn by lia.
  replace (S (S w + String.length rest))%nat with (w + S (S (String.length rest)))%nat by lia.
  assert (0 ≤ n mod 10 < 10) by (apply Z.mod_pos_bound; lia).
  rewrite (read_digits_prefix w _ (n / 10)) by div_lia.
  cbn [read_digits peek stream is_good is_rest negb andb is_failbit is_eofbit get_char snd].
  rewrite is_digit_char, digit_val_char by done. cbn [negb].
  rewrite uint_add_small by lia.
  assert ((0 + Z.of_nat w + 1 =? Z.of_nat (S w)) = true) as -> by (apply Z.eqb_eq; lia).
  rewrite uint_mul_small by div_lia. rewrite uint_add_small by div_lia.
  rewrite outcome_bind_ret.
  assert ((0 + Z.of_nat w + 1 <? m) = false) as -> by (apply Z.ltb_ge; lia).
  do 2 f_equal. div_lia.
Qed.

(** Fewer digits, before another character. *)
Lemma read_unsigned_short w n c rest m M :
  0 ≤ n < 10 ^ Z.of_nat w → n < 4294967296 → Z.of_nat w < M < 4294967296 →
  m ≤ Z.of_nat w → is_digit c = false →
  read_unsigned (stream (fixed w n +:+ String c rest)) m M = Ret (n, stream (String c rest)).
Proof.
  intros Hn Hmax HM Hm Hc. unfold read_unsigned, read_fuel. cbn [stream is_rest].
  rewrite length_app_string, length_fixed.
  replace (S (w + String.length (String c rest)))%nat
    with (w + S (String.length (String c rest)))%nat by lia.
  rewrite (read_digits_prefix w _ n) by lia.
  cbn [read_digits peek stream is_good is_rest negb andb is_failbit is_eofbit].
  rewrite Hc. cbn [negb]. rewrite outcome_bind_ret.
  assert ((0 + Z.of_nat w <? m) = false) as -> by (apply Z.ltb_ge; lia). reflexivity.
Qed.

(** The first character of a number. *)
Lemma fixed_first w n rest :
  ∃ c s, fixed (S w) n +:+ rest = String c s ∧ is_digit c = true
    ∧ Ascii.eqb c "-" = false ∧ Ascii.eqb c "+" = false.
Proof.
  assert (∀ c, is_digit c = true → Ascii.eqb c "-" = false ∧ Ascii.eqb c "+" = false) as Hs.
  { intros c Hc. split; apply Ascii.eqb_neq; intros ->; by vm_compute in Hc. }
  revert n rest. induction w as [|w IH]; intros n rest; rewrite fixed_S.
  - eexists _, _. split; [reflexivity|].
    assert (is_digit (digit_char (n mod 10)) = true)
      by (apply is_digit_char, Z.mod_pos_bound; lia).
    split; [done|]. by apply Hs.
  - apply IH.
Qed.

Lemma read_signed_pos w n rest m M i :
  read_unsigned (stream (fixed (S w) n +:+ rest)) (Z.max m 1) M = Ret (n, stream i) →
  0 ≤ n < 2147483648 →
  read_signed (stream (fixed (S w) n +:+ rest)) m M = Ret (n, stream i).
Proof.
  destruct (fixed_first w n rest) as (c & s & E & Hd & Hm & Hp). rewrite E.
  intros H Hn. unfold read_signed.
  cbn [peek stream is_good is_rest negb andb is_failbit is_eofbit].
  rewrite Hd, Hm, Hp. cbn [orb]. unfold stream in *. rewrite H, outcome_bind_ret.
  cbn [is_fail is_failbit negb]. by rewrite i32_small by lia.
Qed.

Lemma read_signed_neg w n rest m M i :
  read_unsigned (stream (fixed (S w) n +:+ rest)) (Z.max m 1) M = Ret (n, stream i) →
  0 ≤ n < 2147483648 →
  read_signed (stream (String "-" (fixed (S w) n +:+ rest))) m M = Ret (- n, stream i).
Proof.
  intros H Hn. unfold read_signed.
  cbn [peek stream is_good is_rest negb andb is_failbit is_eofbit get_char snd].
  change (is_digit "-") with false. change (Ascii.eqb "-" "-") with true. cbn [orb].
  unfold stream in *. rewrite H, outcome_bind_ret.
  cbn [is_fail is_failbit negb]. rewrite i32_small by lia. unfold int_neg.
  by rewrite int_res_ok by lia.
Qed.

(** ** Steps of the parser *)

Lemma pm_bind_some {A B} (m : pm A) (f : A → pm B) s a s' :
  m s = Ret (Some a, s') → (m ≫= f) s = f a s'.
Proof. intros E. unfold mbind, pm_bind. by rewrite E. Qed.

Lemma pm_bind_none {A B} (m : pm A) (f : A → pm B) s s' :
  m s = Ret (None, s') → (m ≫= f) s = Ret (None, s').
Proof. intros E. unfold mbind, pm_bind. by rewrite E. Qed.

Lemma pm_bind_fault {A B} (m : pm A) (f : A → pm B) s e :
  m s = Fault e → (m ≫= f) s = Fault e.
Proof. intros E. unfold mbind, pm_bind. by rewrite E. Qed.

Lemma p_lift_ret {A} (m : outcome A) a s : m = Ret a → p_lift m s = Ret (Some a, s).
Proof. by intros ->. Qed.

Lemma get_set_same v x s : p_vars (set_var v x s) v = x.
Proof. cbn. by rewrite decide_True by done. Qed.

Lemma get_set_other v v' x s : v' ≠ v → p_vars (set_var v x s) v' = p_vars s v'.
Proof. intros H. cbn. by rewrite decide_False by done. Qed.

(** Membership of a variable in a list of variables, by computation. *)
Ltac var_in := apply (bool_decide_unpack _); vm_compute; exact I.
Ltac vars_in := intros ?v Hv; apply (bool_decide_pack _) in Hv; destruct v; first [var_in | done].

(** [pm_step]: one step of a program of the monad whose first action is known. *)
Ltac pm_step := erewrite pm_bind_some; [| first [reflexivity | done] ].

Lemma checked_set_unset v x s :
  is_fail (p_is s) = false → p_vars s v = not_a v →
  checked_set v x s = Ret (Some tt, set_var v x s).
Proof.
  intros Hf Hv. unfold checked_set. pm_step. rewrite Hf. cbn [negb].
  pm_step. rewrite Hv, Z.eqb_refl. reflexivity.
Qed.

Lemma read_set_signed `{NP : NumPunct} v i0 m M x i s :
  read_signed (p_is s) m M = Ret (x, i) → is_fail i = false → p_vars s v = not_a v →
  read_set v (Ars i0 m M) s = Ret (Some tt, set_var v x (set_is i s)).
Proof.
  intros Hr Hf Hv. unfold read_set. erewrite pm_bind_some.
  - by apply checked_set_unset.
  - unfold p_read_int, p_read. cbn [read].
    unfold mbind, pm_bind. by rewrite Hr, outcome_bind_ret, Hf, outcome_bind_ret.
Qed.

Lemma read_set_unsigned `{NP : NumPunct} v i0 m M x i s :
  read_unsigned (p_is s) m M = Ret (x, i) → is_fail i = false → p_vars s v = not_a v →
  read_set v (Aru i0 m M) s = Ret (Some tt, set_var v (i32 x) (set_is i s)).
Proof.
  intros Hr Hf Hv. unfold read_set. erewrite pm_bind_some.
  - by apply checked_set_unset.
  - unfold p_read_int, p_read. cbn [read].
    unfold mbind, pm_bind. by rewrite Hr, outcome_bind_ret, Hf, outcome_bind_ret.
Qed.

Section format.
Context `{TimeFacets}.

(** A character of the format that has a command. *)
Lemma parse_format_step c rest st s m st' s' :
  is_fail (p_is s) = false →
  parse_command c st (String c rest) (command_text st rest) = Some m →
  m s = Ret (Some st', s') →
  parse_format (String c rest) st false s = parse_format rest st' false s'.
Proof.
  intros Hf Hc Hm. cbn [parse_format andb]. pm_step. rewrite Hf, Hc.
  by rewrite (pm_bind_some _ _ _ _ _ Hm).
Qed.

(** A character that stands for itself. *)
Lemma parse_format_plain c rest s t :
  parse_command c fstate_reset (String c rest) "" = None → is_space c = false →
  p_is s = stream (String c t) →
  parse_format (String c rest) fstate_reset false s
  = parse_format rest fstate_reset false (set_is (stream t) s).
Proof.
  intros Hc Hsp Hs. cbn [parse_format andb]. pm_step. rewrite Hs. cbn [is_fail is_failbit stream].
  change (command_text fstate_reset rest) with ""%string. rewrite Hc.
  rewrite (pm_bind_some _ _ s (inr fstate_reset) (set_is (stream t) s)); [reflexivity|].
  unfold parse_default. cbn [command fstate_reset]. rewrite Hsp.
  rewrite (pm_bind_some _ _ s tt (set_is (stream t) s)); [reflexivity|].
  unfold read_plain. rewrite (pm_bind_some _ _ s [] (set_is (stream t) s)); [reflexivity|].
  unfold p_read. rewrite Hs.
  cbn [read match_char peek stream is_good negb andb is_failbit is_eofbit is_rest].
  rewrite Ascii.eqb_refl. reflexivity.
Qed.

(** ** From the variables to the date *)

(** Only the variables of [l] are set. *)
Definition only (l : list var) (s : pst) : Prop := ∀ v, v ∉ l → p_vars s v = not_a v.

Lemma only_mono l l' s : only l s → (∀ v, v ∈ l → v ∈ l') → only l' s.
Proof. intros Ho Hl v Hv. apply Ho. intros Hin. by apply Hv, Hl. Qed.

Lemma only_set l v x s : only l s → only (v :: l) (set_var v x s).
Proof.
  intros Ho v' Hv. apply not_elem_of_cons in Hv as [Hne Hv].
  rewrite get_set_other by done. by apply Ho.
Qed.

Lemma only_set_in l v x s : only l s → v ∈ l → only l (set_var v x s).
Proof.
  intros Ho Hin v' Hv. rewrite get_set_other by (by intros ->). by apply Ho.
Qed.

Lemma two_digit_year_unset v2 v4 s :
  p_vars s v2 = not_a v2 → two_digit_year v2 v4 s = Ret (Some tt, s).
Proof. intros Hv. unfold two_digit_year. pm_step. by rewrite Hv, Z.eqb_refl. Qed.

Lemma dates_from_weeks_unset s :
  -32767 ≤ p_vars s vY ≤ 32767 → p_vars s vwd = not_a vwd →
  dates_from_weeks s = Ret (Some false, s).
Proof.
  intros HY Hwd. unfold dates_from_weeks.
  pm_step. change (year_int year_min) with (-32767). change (year_int year_max) with 32767.
  assert ((p_vars s vY <? -32767) || (p_vars s vY >? 32767) = false) as ->.
  { rewrite Z.gtb_ltb, !(proj2 (Z.ltb_ge _ _)) by lia. done. }
  do 6 pm_step. rewrite Hwd, Z.eqb_refl. cbn [negb]. rewrite !andb_false_r.
  do 2 pm_step. rewrite andb_false_r. do 2 pm_step. by rewrite andb_false_r.
Qed.

(** A year that is not set stays so. *)
Lemma dates_from_weeks_no_year s :
  only [vm; vd] s → dates_from_weeks s = Ret (Some false, set_var vY (not_a vY) s).
Proof.
  intros Ho. assert (∀ v, bool_decide (v ∉ [vm; vd]) → p_vars s v = not_a v) as Hun.
  { intros v Hb. by apply Ho, (bool_decide_unpack _). }
  unfold dates_from_weeks. pm_step. rewrite (Hun vY I).
  change ((not_a vY <? year_int year_min) || (not_a vY >? year_int year_max)) with true.
  set (s0 := set_var vY (not_a vY) s).
  rewrite (pm_bind_some _ _ s tt s0) by reflexivity.
  do 5 pm_step. assert (p_vars s0 vwd = not_a vwd) as -> by apply (Hun vwd I).
  rewrite Z.eqb_refl. cbn [negb]. rewrite !andb_false_r.
  do 2 pm_step. rewrite andb_false_r. do 2 pm_step. by rewrite andb_false_r.
Qed.

Lemma date_from_day_of_year_unset s :
  p_vars s vj = not_a vj → date_from_day_of_year s = Ret (Some tt, s).
Proof. intros Hv. unfold date_from_day_of_year. do 2 pm_step. by rewrite Hv, Z.eqb_refl. Qed.

Lemma check_iso_week_unset ymd s :
  p_vars s vG = not_a vG → p_vars s vV = not_a vV → check_iso_week ymd s = Ret (Some tt, s).
Proof.
  intros HG HV. unfold check_iso_week. do 2 pm_step. by rewrite HG, HV, !Z.eqb_refl.
Qed.

Lemma check_week_unset v first ymd s :
  p_vars s v = not_a v → check_week v first ymd s = Ret (Some tt, s).
Proof. intros Hv. unfold check_week. pm_step. by rewrite Hv, Z.eqb_refl. Qed.

Lemma check_hour_unset s : p_vars s vI = not_a vI → check_hour s = Ret (Some tt, s).
Proof. intros Hv. unfold check_hour. pm_step. by rewrite Hv, Z.eqb_refl. Qed.

Lemma year_month_day_of_ints y m d :
  0 ≤ m < 256 → 0 ≤ d < 256 →
  ym_div_int (year_div_int y m) d = MkYearMonthDay y (MkMonth m) (MkDay d).
Proof.
  intros Hm Hd. unfold ym_div_int, year_div_int, ym_div_day. cbn.
  rewrite !u32_small by lia. by rewrite month_ctor_small, day_ctor_small by lia.
Qed.

(** A date that does not exist is stored as it is. *)
Lemma check_date_invalid b s y m d :
  year_ctor (p_vars s vY) = MkYear y → p_vars s vm = m → p_vars s vd = d →
  -32767 ≤ y ≤ 32767 → 0 ≤ m < 256 → 0 ≤ d < 256 → ¬ civil_valid y m d →
  check_date b s
  = Ret (Some tt, set_fds (fields_set_ymd (p_fds s)
                             (MkYearMonthDay (MkYear y) (MkMonth m) (MkDay d))) s).
Proof.
  intros HY Hm Hd Ry Rm Rd Hv. unfold check_date. do 3 pm_step.
  rewrite HY, Hm, Hd, year_month_day_of_ints by lia.
  assert (ymd_ok (MkYearMonthDay (MkYear y) (MkMonth m) (MkDay d)) = Ret false) as E.
  { rewrite ymd_ok_spec. f_equal. apply not_true_is_false. intros Hb. apply Hv.
    apply (ymd_ok_true (MkYearMonthDay (MkYear y) (MkMonth m) (MkDay d))).
    rewrite ymd_ok_spec. by f_equal. }
  erewrite pm_bind_some; [|apply p_lift_ret; exact E]. by pm_step.
Qed.

(** A date that exists, with no week to agree with. *)
Lemma check_date_valid s y m d :
  year_ctor (p_vars s vY) = MkYear y → p_vars s vm = m → p_vars s vd = d → only [vY; vm; vd] s →
  -32767 ≤ y ≤ 32767 → civil_valid y m d →
  ∃ wd, check_date false s
        = Ret (Some tt, set_fds (fields_set_ymd (p_fds s)
                                   (MkYearMonthDay (MkYear y) (MkMonth m) (MkDay d)))
                                (set_var vwd wd s)).
Proof.
  intros HY Hm Hd Ho Ry Hv. destruct (MkYearMonthDay_ok y m d Ry Hv) as [Hwf Hok].
  assert (1 ≤ m ≤ 12 ∧ 1 ≤ d ≤ 31) as [Rm Rd].
  { destruct Hv as [? ?]. pose proof (month_length_bounds y m). lia. }
  destruct (ymd_to_days_ok _ Hwf Hok) as [Ht _]. cbn in Ht.
  unfold check_date. do 3 pm_step. rewrite HY, Hm, Hd, year_month_day_of_ints by lia.
  erewrite pm_bind_some; [|by apply p_lift_ret].
  set (wd := weekday_minus_weekday (weekday_of_sys_days (civil_days y m d)) Sunday).
  exists wd. rewrite (pm_bind_some _ _ s tt (set_var vwd wd s)); [reflexivity|].
  pm_step. erewrite pm_bind_some; [|apply p_lift_ret; exact Ht].
  rewrite (Ho vwd), Z.eqb_refl by (apply (bool_decide_unpack _); vm_compute; exact I).
  pm_step. cbn [negb].
  assert (∀ v, v ∉ [vY; vm; vd] → v ≠ vwd → p_vars (set_var vwd wd s) v = not_a v) as Hun.
  { intros v Hin Hne. rewrite get_set_other by done. by apply Ho. }
  assert (∀ v, bool_decide (v ∉ [vY; vm; vd]) → v ∉ [vY; vm; vd]) as Hdec
    by (intros v; apply bool_decide_unpack).
  erewrite pm_bind_some; [|apply check_iso_week_unset; apply Hun; by (apply Hdec || done)].
  erewrite pm_bind_some; [|apply check_week_unset; apply Hun; by (apply Hdec || done)].
  apply check_week_unset. apply Hun; by (apply Hdec || done).
Qed.

(** What a parse leaves to its caller. *)
Record outputs (s s' : pst) (x : year_month_day) : Prop := {
  out_is : p_is s' = p_is s;
  out_ymd : f_ymd (p_fds s') = x;
  out_tod : f_tod (p_fds s') = f_tod (p_fds s);
  out_offset : p_offset s' = p_offset s
}.

(** No time of day is set. *)
Lemma set_fields_date s :
  (∀ v, v ∈ [vH; vM; vs; vj; voffset] → p_vars s v = not_a v) →
  ∃ s', set_fields s = Ret (Some tt, s') ∧ outputs s s' (f_ymd (p_fds s)).
Proof.
  intros Hv. assert (∀ v, bool_decide (v ∈ [vH; vM; vs; vj; voffset]) → p_vars s v = not_a v) as Hd.
  { intros v Hb. by apply Hv, (bool_decide_unpack _). }
  unfold set_fields. do 5 pm_step.
  rewrite (Hd vH I), (Hd vM I), (Hd vs I), (Hd vj I), !Z.eqb_refl. do 4 pm_step.
  destruct (p_vars s vwd =? not_a vwd); pm_step;
    (eexists; split; [reflexivity|]; split; try done; cbn;
     destruct (p_offset s); [rewrite (Hd voffset I), Z.eqb_refl|]; done).
Qed.

(** The date of the variables, when only year, month and day are set, at the latest by a day of
    the year. *)
Lemma results_date s s0 s1 y m d :
  is_fail (p_is s) = false → only [vY; vm; vd; vj] s →
  dates_from_weeks s = Ret (Some false, s0) → date_from_day_of_year s0 = Ret (Some tt, s1) →
  year_ctor (p_vars s1 vY) = MkYear y → p_vars s1 vm = m → p_vars s1 vd = d → only [vY; vm; vd] s1 →
  -32767 ≤ y ≤ 32767 → 0 ≤ m < 256 → 0 ≤ d < 256 →
  ∃ s', set_results_of_variables s = Ret (Some tt, s')
    ∧ outputs s1 s' (MkYearMonthDay (MkYear y) (MkMonth m) (MkDay d)).
Proof.
  intros Hf Ho Hw Hj HY Hm Hd Ho1 Ry Rm Rd.
  assert (∀ v, bool_decide (v ∉ [vY; vm; vd; vj]) → p_vars s v = not_a v) as Hun.
  { intros v Hb. by apply Ho, (bool_decide_unpack _). }
  unfold set_results_of_variables. pm_step. rewrite Hf. cbn [negb].
  rewrite (pm_bind_some _ _ s tt s) by (apply two_digit_year_unset, Hun; exact I).
  rewrite (pm_bind_some _ _ s tt s) by (apply two_digit_year_unset, Hun; exact I).
  rewrite (pm_bind_some _ _ _ _ _ Hw), (pm_bind_some _ _ _ _ _ Hj).
  set (x := MkYearMonthDay (MkYear y) (MkMonth m) (MkDay d)).
  assert (∃ s2, check_date false s1 = Ret (Some tt, s2)
            ∧ (∀ v, v ≠ vwd → p_vars s2 v = p_vars s1 v) ∧ outputs s1 s2 x) as (s2 & E & Hs2 & O2).
  { assert (civil_valid y m d ∨ ¬ civil_valid y m d) as [Hv|Hv]
      by (unfold civil_valid; lia).
    - destruct (check_date_valid s1 y m d HY Hm Hd Ho1 Ry Hv) as (wd & E).
      eexists. split; [exact E|]. split; [|by split]. intros v Hne. by apply get_set_other.
    - eexists. split; [by apply (check_date_invalid false s1 y m d)|]. by split. }
  rewrite (pm_bind_some _ _ _ _ _ E).
  assert (∀ v, bool_decide (v ∉ [vY; vm; vd]) → v ≠ vwd → p_vars s2 v = not_a v) as Hun2.
  { intros v Hb Hne. rewrite Hs2 by done. by apply Ho1, (bool_decide_unpack _). }
  rewrite (pm_bind_some _ _ s2 tt s2) by (apply check_hour_unset, Hun2; done).
  destruct (set_fields_date s2) as (s' & E' & O').
  { intros v Hv. apply Hun2; [apply bool_decide_pack|]; intros Hin; try subst v;
      apply (bool_decide_pack _) in Hv.
    - destruct v; try (apply (bool_decide_unpack _); vm_compute in Hv; contradiction);
        apply (bool_decide_pack _) in Hin; vm_compute in Hin; contradiction.
    - vm_compute in Hv. contradiction. }
  exists s'. split; [exact E'|]. destruct O2, O'. split; congruence.
Qed.

(** A day of the year: month and day are those of the day that many days into the year, the year
    stays. *)
Lemma date_from_day_of_year_set s y j y' m d :
  p_vars s vY = y → p_vars s vj = j → only [vY; vj] s →
  -32767 ≤ y ≤ 32767 → 0 ≤ j < 1000 → civil_of_days (civil_days y 1 1 + (j - 1)) = (y', m, d) →
  date_from_day_of_year s = Ret (Some tt, set_var vj (not_a vj) (set_var vd d (set_var vm m s))).
Proof.
  intros HY Hj Ho Ry Rj E.
  destruct (MkYearMonthDay_ok y 1 1) as [Hwf Hok]; [done | unfold civil_valid; cbn; lia |].
  destruct (ymd_to_days_ok _ Hwf Hok) as [Ht Hr]. cbn in Ht, Hr.
  pose proof (civil_of_days_spec (civil_days y 1 1 + (j - 1))) as Hs. rewrite E in Hs.
  destruct Hs as [[Hm Hd] _]. pose proof (month_length_bounds y' m).
  unfold date_from_day_of_year. do 2 pm_step. rewrite HY, Hj.
  assert ((j =? not_a vj) = false) as -> by (apply Z.eqb_neq; cbn; lia).
  assert ((y =? not_a vY) = false) as -> by (apply Z.eqb_neq; cbn; lia). cbn [negb andb].
  rewrite year_month_day_of_ints, year_ctor_small by lia. unfold ymd_local_days. rewrite Ht, outcome_bind_ret.
  rewrite int_sub_ok, outcome_bind_ret by lia. rewrite int_add_ok, outcome_bind_ret by lia.
  unfold ymd_of_local_days. rewrite ymd_from_days_civil, E by lia. pm_step.
  rewrite (pm_bind_some _ _ s tt (set_var vd d (set_var vm m s))); [reflexivity|].
  assert (p_vars s vm = not_a vm) as Em
    by (apply Ho, (bool_decide_unpack _); vm_compute; exact I).
  assert (p_vars s vd = not_a vd) as Ed
    by (apply Ho, (bool_decide_unpack _); vm_compute; exact I).
  unfold agree_month_day. pm_step. rewrite Em, Z.eqb_refl. pm_step. pm_step.
  assert (p_vars (set_var vm m s) vd = p_vars s vd) as E2 by by apply get_set_other.
  cbn [month_unsigned ymd_month ymd_m month_m]. rewrite E2, Ed, Z.eqb_refl. reflexivity.
Qed.

(** ** parse into a sys_days *)

Lemma round_days_whole z : -2147483648 ≤ z < 2147483647 → round_days (z * 86400) = Ret z.
Proof.
  intros Hz. unfold round_days, floor_days, trunc_days, days_of_seconds, c_div.
  rewrite Z.quot_mul, i32_small by lia.
  assert ((z * 86400 >? z * 86400) = false) as -> by (rewrite Z.gtb_ltb; apply Z.ltb_irrefl).
  rewrite outcome_bind_ret, int_add_ok, outcome_bind_ret by lia.
  assert ((if (z + 1 =? 0) && (z <? 0) then int_neg (z + 1) else Ret (z + 1)) = Ret (z + 1)) as ->.
  { destruct (Z.eqb_spec (z + 1) 0) as [E|]; [|done]. rewrite E. by destruct (z <? 0). }
  rewrite outcome_bind_ret. long_step. rewrite Z.sub_diag.
  assert ((0 =? (z + 1) * 86400 - z * 86400) = false) as -> by (apply Z.eqb_neq; lia).
  by assert ((0 <? (z + 1) * 86400 - z * 86400) = true) as -> by (apply Z.ltb_lt; lia).
Qed.

(** The fields that a parse into a [sys_days] starts from. *)
Definition fields_tod : fields :=
  MkFields (f_ymd fields_default) (f_wd fields_default) (f_tod fields_default) true.
Definition pst_start (i : istream) : pst :=
  MkPst i not_a tm_zero EmptyString fields_tod None (Some 0).

Lemma parse_into_run i fmt tp s s1 s' y m d :
  is_good i = true →
  parse_format fmt fstate_reset false (pst_start i) = Ret (Some fstate_reset, s) →
  set_results_of_variables s = Ret (Some tt, s') →
  outputs s1 s' (MkYearMonthDay (MkYear y) (MkMonth m) (MkDay d)) →
  is_fail (p_is s1) = false → f_tod (p_fds s1) = hms_zero → p_offset s1 = Some 0 →
  -32767 ≤ y ≤ 32767 → 0 ≤ m < 256 → 0 ≤ d < 256 →
  (civil_valid y m d → parse_into i fmt tp = Ret (p_is s1, civil_days y m d))
  ∧ (¬ civil_valid y m d → parse_into i fmt tp = Ret (set_failbit (p_is s1), tp)).
Proof.
  intros Hg Hp Hr [Oi Oy Ot Oo] Hf Htod Hoff Ry Rm Rd.
  assert (from_stream i fmt fields_tod None (Some 0)
          = Ret (p_is s1, p_fds s', p_abbrev s', Some 0)) as E.
  { unfold from_stream. rewrite Hg.
    rewrite (pm_bind_some _ _ _ _ _ Hp).
    rewrite (pm_bind_some _ _ s tt s) by reflexivity.
    rewrite Hr, outcome_bind_ret. by rewrite Oi, Oo, Hoff. }
  unfold parse_into, from_stream_sys_days. change (default 0 None) with 0.
  change (MkFields (f_ymd fields_default) (f_wd fields_default) (f_tod fields_default) true)
    with fields_tod.
  rewrite E, outcome_bind_ret, Oy, Ot, Htod. split; intros Hv.
  - destruct (MkYearMonthDay_ok y m d Ry Hv) as [Hwf Hok].
    destruct (ymd_to_days_ok _ Hwf Hok) as [Ht Hz]. cbn in Ht, Hz.
    rewrite Hok, outcome_bind_ret.
    change (negb true || negb (hms_in_conventional_range hms_zero)) with false.
    cbv zeta iota. rewrite Hf. unfold ymd_sys_days. cbn [negb]. rewrite Ht, outcome_bind_ret. change (default 0 (Some 0)) with 0.
    long_step.
    change (hms_to_duration hms_zero) with (Ret 0). rewrite outcome_bind_ret. long_step.
    replace ((civil_days y m d * 1440 - 0) * 60 + 0) with (civil_days y m d * 86400) by lia.
    rewrite round_days_whole, !outcome_bind_ret by lia. reflexivity.
  - assert (ymd_ok (MkYearMonthDay (MkYear y) (MkMonth m) (MkDay d)) = Ret false) as ->.
    { rewrite ymd_ok_spec. f_equal. apply not_true_is_false. intros Hb. apply Hv.
      apply (ymd_ok_true (MkYearMonthDay (MkYear y) (MkMonth m) (MkDay d))).
      rewrite ymd_ok_spec. by f_equal. }
    rewrite outcome_bind_ret.
    change (negb false || negb (hms_in_conventional_range hms_zero)) with true. cbv zeta iota.
    assert (is_fail (set_failbit (p_is s1)) = true) as -> by apply orb_true_r. reflexivity.
Qed.

(** ** The formats *)

Lemma parse_format_percent fmt s :
  is_fail (p_is s) = false →
  parse_format (String "%" fmt) fstate_reset false s
  = parse_format fmt (MkFstate (Some (String "%" fmt)) None (-1)) false s.
Proof. intros Hf. by eapply parse_format_step. Qed.

(** [%Y]: a year of four digits. *)
Lemma parse_Y_step y rest fmt s :
  0 ≤ y < 10000 → p_is s = stream (fixed 4 y +:+ rest) → p_vars s vY = not_a vY →
  parse_format (String "%" (String "Y" fmt)) fstate_reset false s
  = parse_format fmt fstate_reset false (set_var vY y (set_is (stream rest) s)).
Proof.
  intros Hy Hs Hv.
  rewrite parse_format_percent by by rewrite Hs.
  eapply parse_format_step; [by rewrite Hs | reflexivity |].
  unfold parse_Y, in_command. cbn [command modified_E modified].
  rewrite (pm_bind_some _ _ s tt (set_var vY y (set_is (stream rest) s))); [reflexivity|].
  apply read_set_signed; [|done|done]. rewrite Hs.
  apply (read_signed_pos 3); [|lia].
  apply (read_unsigned_full 3); [exact Hy | lia..].
Qed.

(** [%j]: a day of the year of three digits. *)
Lemma parse_j_step j rest fmt s :
  0 ≤ j < 1000 → p_is s = stream (fixed 3 j +:+ rest) → p_vars s vj = not_a vj →
  parse_format (String "%" (String "j" fmt)) fstate_reset false s
  = parse_format fmt fstate_reset false (set_var vj j (set_is (stream rest) s)).
Proof.
  intros Hj Hs Hv.
  rewrite parse_format_percent by by rewrite Hs.
  eapply parse_format_step; [by rewrite Hs | reflexivity |].
  unfold parse_j, in_command, unmodified. cbn [command modified].
  rewrite (pm_bind_some _ _ s tt (set_var vj j (set_is (stream rest) s))); [reflexivity|].
  replace (set_var vj j) with (set_var vj (i32 j)) by by rewrite i32_small by lia.
  apply read_set_unsigned; [|done|done]. rewrite Hs.
  apply (read_unsigned_full 2); [exact Hj | lia..].
Qed.

(** A number of two digits. *)
Lemma read_two_digits n rest :
  0 ≤ n < 100 → read_unsigned (stream (fixed 2 n +:+ rest)) 1 2 = Ret (n, stream rest).
Proof. intros Hn. apply (read_unsigned_full 1); [exact Hn | lia..]. Qed.

(** [%m] and [%d]. *)
Lemma parse_md_step c v n rest fmt s :
  (c = "m"%char ∧ v = vm) ∨ (c = "d"%char ∧ v = vd) →
  0 ≤ n < 100 → p_is s = stream (fixed 2 n +:+ rest) → p_vars s v = not_a v →
  parse_format (String "%" (String c fmt)) fstate_reset false s
  = parse_format fmt fstate_reset false (set_var v n (set_is (stream rest) s)).
Proof.
  intros Hc Hn Hs Hv. rewrite parse_format_percent by by rewrite Hs.
  assert (∀ i, read_set v (Ars i 1 2) s = Ret (Some tt, set_var v n (set_is (stream rest) s))) as Hr.
  { intros i. apply read_set_signed; [|done|done]. rewrite Hs. apply (read_signed_pos 1); [|lia].
    by apply read_two_digits. }
  destruct Hc as [[-> ->]|[-> ->]];
    (eapply parse_format_step; [by rewrite Hs | reflexivity |]);
    unfold parse_m, parse_d, in_command; cbn [command modified_O modified];
    by rewrite (pm_bind_some _ _ s tt _ (Hr _)).
Qed.

(** [%F], whatever the number of digits. *)
Lemma parse_F_step y m d r1 r2 r3 fmt s :
  read_signed (p_is s) 1 4 = Ret (y, stream (String "-" r1)) →
  read_unsigned (stream r1) 1 2 = Ret (m, stream (String "-" r2)) →
  read_unsigned (stream r2) 1 2 = Ret (d, stream r3) →
  is_fail (p_is s) = false → 0 ≤ m < 100 → 0 ≤ d < 100 →
  p_vars s vY = not_a vY → p_vars s vm = not_a vm → p_vars s vd = not_a vd →
  parse_format (String "%" (String "F" fmt)) fstate_reset false s
  = parse_format fmt fstate_reset false
      (set_var vd d (set_var vm m (set_var vY y (set_is (stream r3) s)))).
Proof.
  intros Hy Hm Hd Hf Rm Rd HY HM HD.
  rewrite parse_format_percent by done. eapply parse_format_step; [done | reflexivity |].
  unfold parse_F, in_command, unmodified. cbn [command modified].
  set (s1 := set_is (stream r3) s).
  rewrite (pm_bind_some _ _ s tt (set_var vd d (set_var vm m (set_var vY y s1)))); [reflexivity|].
  rewrite (pm_bind_some _ _ s [Vint y; Vint m; Vint d] s1).
  2:{ unfold p_read. cbn [read]. change (width_or _ 4) with 4.
      rewrite Hy, outcome_bind_ret. cbn [is_fail is_failbit stream].
      unfold match_char. cbn [peek stream is_good negb andb is_failbit is_eofbit is_rest get_char snd].
      rewrite Ascii.eqb_refl. cbn [negb]. unfold stream in Hm, Hd. rewrite Hm, outcome_bind_ret.
      cbn [is_fail is_failbit stream peek is_good negb andb is_eofbit is_rest get_char snd].
      rewrite Ascii.eqb_refl. cbn [negb]. rewrite Hd, outcome_bind_ret.
      cbn [is_fail is_failbit stream]. by rewrite !outcome_bind_ret, !i32_small by lia. }
  do 3 pm_step. assert (is_fail (p_is s1) = false) as Hf1 by done.
  rewrite (pm_bind_some _ _ _ _ _ (checked_set_unset vY y s1 Hf1 HY)).
  erewrite pm_bind_some; [|by apply checked_set_unset].
  by apply checked_set_unset.
Qed.

(** ** From the format to the day *)

(** Year, month and day. *)
Lemma parse_into_ymd i fmt tp s y m d :
  is_good i = true →
  parse_format fmt fstate_reset false (pst_start i) = Ret (Some fstate_reset, s) →
  is_fail (p_is s) = false → f_tod (p_fds s) = hms_zero → p_offset s = Some 0 →
  p_vars s vY = y → p_vars s vm = m → p_vars s vd = d → only [vY; vm; vd] s →
  -32767 ≤ y ≤ 32767 → 0 ≤ m < 256 → 0 ≤ d < 256 →
  (civil_valid y m d → parse_into i fmt tp = Ret (p_is s, civil_days y m d))
  ∧ (¬ civil_valid y m d → parse_into i fmt tp = Ret (set_failbit (p_is s), tp)).
Proof.
  intros Hg Hp Hf Ht Ho HY Hm Hd Hon Ry Rm Rd.
  assert (∀ v, bool_decide (v ∉ [vY; vm; vd]) → p_vars s v = not_a v) as Hun.
  { intros v Hb. by apply Hon, (bool_decide_unpack _). }
  destruct (results_date s s s y m d) as (s' & Hr & O); try done.
  - apply (only_mono _ _ _ Hon). vars_in.
  - apply dates_from_weeks_unset; [lia | by apply Hun].
  - by apply date_from_day_of_year_unset, Hun.
  - rewrite HY. apply year_ctor_small. lia.
  - by apply (parse_into_run i fmt tp s s s' y m d).
Qed.

(** Month and day alone: the year 0. *)
Lemma parse_into_md i fmt tp s m d :
  is_good i = true →
  parse_format fmt fstate_reset false (pst_start i) = Ret (Some fstate_reset, s) →
  is_fail (p_is s) = false → f_tod (p_fds s) = hms_zero → p_offset s = Some 0 →
  p_vars s vm = m → p_vars s vd = d → only [vm; vd] s → 0 ≤ m < 256 → 0 ≤ d < 256 →
  (civil_valid 0 m d → parse_into i fmt tp = Ret (p_is s, civil_days 0 m d))
  ∧ (¬ civil_valid 0 m d → parse_into i fmt tp = Ret (set_failbit (p_is s), tp)).
Proof.
  intros Hg Hp Hf Ht Ho Hm Hd Hon Rm Rd.
  set (s0 := set_var vY (not_a vY) s).
  assert (only [vm; vd] s0) as Hon0.
  { intros v Hv. destruct (decide (v = vY)) as [->|Hn]; [apply get_set_same|].
    unfold s0. rewrite get_set_other by done. by apply Hon. }
  destruct (results_date s s0 s0 0 m d) as (s' & Hr & O); try done.
  - apply (only_mono _ _ _ Hon). vars_in.
  - by apply dates_from_weeks_no_year.
  - apply date_from_day_of_year_unset, Hon0. var_in.
  - apply (only_mono _ _ _ Hon0). vars_in.
  - by apply (parse_into_run i fmt tp s s0 s' 0 m d).
Qed.
End format.

(** ** The formatter *)

Lemma om_bind_some {A B} (m : om A) (f : A → om B) s a s' :
  m s = Ret (Some a, s') → (m ≫= f) s = f a s'.
Proof. intros E. unfold mbind, om_bind. by rewrite E. Qed.

Lemma o_lift_ret {A} (m : outcome A) a s : m = Ret a → o_lift m s = Ret (Some a, s).
Proof. by intros ->. Qed.

(** Text on a stream that has not failed. *)
Definition written (t : string) (s : ost) : ost :=
  MkOst (MkOstream (os_text (ost_os s) +:+ t) (os_failbit (ost_os s)) (os_throws (ost_os s)))
        (ost_tm s) (ost_negative s).

Lemma put_text_ok t s :
  os_failbit (ost_os s) = false → put_text t s = Ret (Some tt, written t s).
Proof.
  intros Hf. unfold put_text. erewrite om_bind_some; [|reflexivity]. by rewrite Hf.
Qed.

Lemma written_written t u s : written u (written t s) = written (t +:+ u) s.
Proof. unfold written. cbn. by rewrite app_string_assoc. Qed.

(** Two texts one after the other. *)
Lemma put_text_bind {B} t (f : unit → om B) s :
  os_failbit (ost_os s) = false → (put_text t ≫= f) s = f tt (written t s).
Proof. intros Hf. by rewrite (om_bind_some _ _ _ _ _ (put_text_ok t s Hf)). Qed.

Section formatter.
Context `{TimeFacets}.

(** The text of a date under [%F]. *)
Definition text_F (y m d : Z) : string :=
  pad_number 4 "0" false y +:+ "-" +:+ fixed 2 m +:+ "-" +:+ fixed 2 d.

Lemma format_F_ok fds s y m d :
  f_ymd fds = MkYearMonthDay (MkYear y) (MkMonth m) (MkDay d) →
  -32767 ≤ y ≤ 32767 → civil_valid y m d → os_failbit (ost_os s) = false →
  format_F fds "F" (MkOfstate true None) s = Ret (Some of_reset, written (text_F y m d) s).
Proof.
  intros E Ry Hv Hf. destruct (MkYearMonthDay_ok y m d Ry Hv) as [_ Hok].
  assert (1 ≤ m ≤ 12 ∧ 1 ≤ d ≤ 31) as [Rm Rd].
  { destruct Hv as [? ?]. pose proof (month_length_bounds y m). lia. }
  unfold format_F, put_command. cbn [of_command put_unmodified of_modified].
  rewrite (om_bind_some _ _ s tt (written (text_F y m d) s)); [reflexivity|].
  unfold put_unmodified. cbn [of_modified]. rewrite E.
  cbn [year_int ymd_year ymd_y year_y month_unsigned ymd_month ymd_m month_m day_unsigned
       ymd_day ymd_d day_d].
  rewrite (om_bind_some _ _ s tt s).
  2:{ unfold require_ymd. rewrite E. rewrite (om_bind_some _ _ s true s); [reflexivity|].
      by apply o_lift_ret. }
  unfold put_zeros, put_char. rewrite !put_text_bind by done.
  rewrite put_text_ok by done. rewrite !written_written. unfold text_F.
  by rewrite !(pad_number_fixed 1) by (cbn; lia).
Qed.

Lemma hms_ctor_zero : hms_ctor 0 = Ret hms_zero.
Proof. reflexivity. Qed.

(** Every date from -32767-01-01 to 32767-12-31. *)
Lemma format_sys_days_F y m d :
  -32767 ≤ y ≤ 32767 → civil_valid y m d →
  format_sys_days "%F" (civil_days y m d) = Ret (text_F y m d).
Proof.
  intros Ry Hv. pose proof (proj1 (civil_days_range y m d Hv) Ry) as Hr.
  destruct (ymd_from_days_ok _ Hr) as (y' & m' & d' & E & _ & Hv' & Hc).
  destruct (civil_days_inj _ _ _ _ _ _ Hv' Hv Hc) as (-> & -> & ->).
  unfold format_sys_days, format_with, to_stream_sys_days, ymd_of_sys_days.
  rewrite E, outcome_bind_ret. unfold long_sub. rewrite Z.sub_diag. cbn [long_res].
  change (long_res 0) with (Ret 0). rewrite outcome_bind_ret, hms_ctor_zero, outcome_bind_ret.
  unfold to_stream. cbn [f_has_tod f_tod]. change (hms_to_duration hms_zero) with (Ret 0).
  rewrite !outcome_bind_ret. cbn [format_loop].
  set (fds := MkFields _ _ _ _).
  set (s := MkOst (MkOstream "" false true) tm_zero (0 <? 0)).
  rewrite (om_bind_some _ _ s (MkOfstate true None) s) by reflexivity.
  rewrite (om_bind_some _ _ s of_reset (written (text_F y m d) s))
    by by apply (format_F_ok fds).
  reflexivity.
Qed.
End formatter.
