(* ===== verification/DateIoFaults.v ===== *)
(** DateIoFaults: which faults a run of the parser can meet, whatever the format and the input.

    [can_fault P m]: a fault of [m] is one of [P].  The predicate goes through the two binds, so that
    the proof for a command is the proof for its calls; the calls that a command makes are hints. *)

From Stdlib Require Import ZArith Lia Ascii String.
From stdpp Require Import base list strings.
From S2P Require Import Prelude Calendar DateUnits DateFields DateYmd DateYmw Civil DateSerial DateClock DateStream DateParse DateFormat DateIoProofs.

#[local] Open Scope Z_scope.

(** ** The predicate *)

Definition can_fault (P : fault → Prop) {A} (m : outcome A) : Prop :=
  match m with Ret _ => True | Fault e => P e end.

(** The same for a step of the parser, from any state. *)
Definition p_can_fault (P : fault → Prop) {A} (m : pm A) : Prop := ∀ s, can_fault P (m s).

(** The faults of a run of the parser: an integer overflow, the use of a number that was not read, and
    the exception of [stold]. *)
Inductive parse_fault : fault → Prop :=
  | parse_overflow : parse_fault SignedOverflow
  | parse_unread : parse_fault Indeterminate
  | parse_throws : parse_fault Thrown.

Create HintDb faults.
#[export] Hint Constructors parse_fault : faults.
#[export] Hint Extern 2 (can_fault _ (Ret _)) => exact I : faults.
#[export] Hint Extern 2 (can_fault parse_fault (Fault _)) => constructor : faults.

Abbreviation tame := (can_fault parse_fault).
Abbreviation p_tame := (p_can_fault parse_fault).

Section binds.
Context (P : fault → Prop).

Lemma can_fault_bind {A B} (m : outcome A) (f : A → outcome B) :
  can_fault P m → (∀ a, m = Ret a → can_fault P (f a)) → can_fault P (m ≫= f).
Proof. destruct m; cbn; auto. Qed.

Lemma p_can_fault_ret {A} (a : A) : p_can_fault P (mret a).
Proof. by intros s. Qed.

Lemma p_can_fault_bind {A B} (m : pm A) (f : A → pm B) :
  p_can_fault P m → (∀ a, p_can_fault P (f a)) → p_can_fault P (m ≫= f).
Proof.
  intros Hm Hf s. specialize (Hm s). unfold mbind, pm_bind.
  destruct (m s) as [[[a|] s']|e]; [apply Hf | done | done].
Qed.

Lemma p_can_fault_lift {A} (m : outcome A) : can_fault P m → p_can_fault P (p_lift m).
Proof. intros H s. unfold p_lift. by destruct m. Qed.

Lemma p_can_fault_stream {A} (f : istream → A * istream) : p_can_fault P (on_stream f).
Proof. intros s. unfold on_stream. by destruct (f (p_is s)). Qed.

Lemma p_can_fault_modify f : p_can_fault P (modify f).
Proof. by intros s. Qed.

Lemma p_can_fault_gets {A} (f : pst → A) : p_can_fault P (gets f).
Proof. by intros s. Qed.

Lemma p_can_fault_broken {A} : p_can_fault P (broken (A := A)).
Proof. by intros s. Qed.

Lemma p_can_fault_time_get `{TimeFacets} pattern : p_can_fault P (p_time_get pattern).
Proof. intros s. unfold p_time_get. by destruct (time_get _ _ _) as [[? ?] ?]. Qed.
End binds.

#[export] Hint Resolve p_can_fault_ret p_can_fault_stream p_can_fault_modify p_can_fault_gets
  p_can_fault_broken p_can_fault_time_get p_can_fault_lift : faults.

(** A step of the proof: through the frame of a definition to its calls. *)
Ltac faults_step :=
  match goal with
  | |- can_fault _ (_ ≫= _) => apply can_fault_bind; [|intros ? ?]
  | |- p_can_fault _ (_ ≫= _) => apply p_can_fault_bind; [|intros ?]
  | |- context [match ?x with _ => _ end] => destruct x
  end.
Ltac faults := repeat first [solve [eauto 3 with faults] | faults_step].

(** ** Arithmetic and dates *)

Lemma int_res_tame x : tame (int_res x).
Proof. unfold int_res. faults. Qed.
Lemma long_res_tame x : tame (long_res x).
Proof. unfold long_res. faults. Qed.
Lemma int_add_tame x y : tame (int_add x y).
Proof. apply int_res_tame. Qed.
Lemma int_sub_tame x y : tame (int_sub x y).
Proof. apply int_res_tame. Qed.
Lemma int_mul_tame x y : tame (int_mul x y).
Proof. apply int_res_tame. Qed.
Lemma int_neg_tame x : tame (int_neg x).
Proof. apply int_res_tame. Qed.
Lemma duration_neg_tame x : tame (duration_neg x).
Proof. apply int_res_tame. Qed.
Lemma long_add_tame x y : tame (long_add x y).
Proof. apply long_res_tame. Qed.
Lemma long_sub_tame x y : tame (long_sub x y).
Proof. apply long_res_tame. Qed.
Lemma long_mul_tame x y : tame (long_mul x y).
Proof. apply long_res_tame. Qed.
Lemma long_neg_tame x : tame (long_neg x).
Proof. apply long_res_tame. Qed.

#[export] Hint Resolve int_add_tame int_sub_tame int_mul_tame int_neg_tame duration_neg_tame
  long_add_tame long_sub_tame long_mul_tame long_neg_tame : faults.

Lemma use_int_tame v : tame (use_int v).
Proof. destruct v; cbn; auto with faults. Qed.
Lemma use_dec_tame v : tame (use_dec v).
Proof. destruct v; cbn; auto with faults. Qed.
Lemma round_seconds_tame d : tame (round_seconds d).
Proof. apply long_res_tame. Qed.

#[export] Hint Resolve use_int_tame use_dec_tame round_seconds_tame : faults.

Lemma ymd_ok_tame x : tame (ymd_ok x).
Proof. by rewrite ymd_ok_spec. Qed.
Lemma ymd_sys_days_tame x : tame (ymd_sys_days x).
Proof. unfold ymd_sys_days, ymd_to_days. faults. Qed.
Lemma ymd_of_sys_days_tame z : tame (ymd_of_sys_days z).
Proof. unfold ymd_of_sys_days, ymd_from_days. faults. Qed.
Lemma year_minus_years_tame y n : tame (year_minus_years y n).
Proof. unfold year_minus_years, year_plus_years. faults. Qed.

#[export] Hint Resolve ymd_ok_tame ymd_sys_days_tame ymd_of_sys_days_tame year_minus_years_tame : faults.
#[export] Hint Extern 1 (can_fault _ (ymd_local_days _)) => apply ymd_sys_days_tame : faults.
#[export] Hint Extern 1 (can_fault _ (ymd_of_local_days _)) => apply ymd_of_sys_days_tame : faults.

Lemma ymwd_sys_days_tame x : tame (ymwd_sys_days x).
Proof. unfold ymwd_sys_days, ymwd_to_days. faults. Qed.
Lemma iso_year_start_tame y : tame (iso_year_start y).
Proof.
  unfold iso_year_start, ymwdl_sys_days, ymwdl_to_days, ymdl_sys_days.
  change (ymdl_day _) with (ymdl_day (ym_div_last (year_div_month y December) last)).
  rewrite ymdl_day_spec by reflexivity. faults.
Qed.
Lemma first_weekday_tame y wd : tame (first_weekday y wd).
Proof. apply ymwd_sys_days_tame. Qed.
Lemma floor_weeks_tame n : tame (floor_weeks n).
Proof. unfold floor_weeks. faults. Qed.
Lemma week_date_tame start n wd first : tame start → tame (week_date start n wd first).
Proof. intros H. unfold week_date. faults. Qed.
Lemma round_days_tame d : tame (round_days d).
Proof. unfold round_days, floor_days. faults. Qed.
Lemma dfs_ctor_tame d : tame (dfs_ctor d).
Proof. unfold dfs_ctor. faults. Qed.
#[export] Hint Resolve iso_year_start_tame first_weekday_tame floor_weeks_tame week_date_tame
  round_days_tame dfs_ctor_tame : faults.
Lemma hms_ctor_tame d : tame (hms_ctor d).
Proof. unfold hms_ctor, seconds_abs. faults. Qed.
Lemma hms_to_duration_tame t : tame (hms_to_duration t).
Proof. unfold hms_to_duration, dfs_to_duration. faults. Qed.
#[export] Hint Resolve hms_ctor_tame hms_to_duration_tame : faults.

(** ** Reading: the fuel is enough *)

(** A character that [peek] shows is the first of those that are left, and [get] takes it. *)
Lemma peek_some i c i' :
  peek i = (Some c, i') → i' = i ∧ is_rest i = String c (is_rest (snd (get_char i))).
Proof.
  unfold peek, get_char. destruct (is_good i); cbn [negb]; [|discriminate].
  destruct (is_rest i) as [|c0 rest] eqn:E; [discriminate|]. intros [= -> <-]. by cbn.
Qed.

Lemma read_digits_tame fuel i x count M :
  (String.length (is_rest i) < fuel)%nat → tame (read_digits fuel i x count M).
Proof.
  revert i x count. induction fuel as [|fuel IH]; intros i x count H; [lia|]. cbn [read_digits].
  destruct (peek i) as [[c|] i'] eqn:E; [|done]. apply peek_some in E as [-> E].
  destruct (negb (is_digit c)); [done|]. cbn zeta. destruct (_ =? M); [done|].
  apply IH. rewrite E in H. cbn [String.length] in H. lia.
Qed.

Lemma read_decimal_tame `{NP : NumPunct} fuel i d point some count M :
  (String.length (is_rest i) < fuel)%nat → tame (read_decimal fuel i d point some count M).
Proof.
  revert i d point some count. induction fuel as [|fuel IH]; intros i d point some count H; [lia|].
  cbn [read_decimal]. destruct (peek i) as [[c|] i'] eqn:E; [|done]. apply peek_some in E as [-> E].
  assert (String.length (is_rest (snd (get_char i))) < fuel)%nat as Hn.
  { rewrite E in H. cbn [String.length] in H. lia. }
  cbn zeta. repeat case_match; first [done | by apply IH].
Qed.

Lemma read_unsigned_tame i m M : tame (read_unsigned i m M).
Proof.
  unfold read_unsigned. apply can_fault_bind.
  - apply read_digits_tame. unfold read_fuel. lia.
  - intros [[x count] i'] _. done.
Qed.
#[export] Hint Resolve read_unsigned_tame : faults.

Lemma read_signed_tame i m M : tame (read_signed i m M).
Proof. unfold read_signed. faults. Qed.

Lemma read_long_double_tame `{NP : NumPunct} i m M : tame (read_long_double i m M).
Proof.
  unfold read_long_double. apply can_fault_bind.
  - apply read_decimal_tame. unfold read_fuel. lia.
  - intros [[[d some] count] i'] _. faults.
Qed.
#[export] Hint Resolve read_signed_tame read_long_double_tame : faults.

Lemma read_tame `{NP : NumPunct} i args : tame (read i args).
Proof.
  revert i. induction args as [|a args IH]; intros i; [done|].
  destruct a; cbn [read]; cbn zeta; faults; apply IH.
Qed.

Lemma p_read_tame `{NP : NumPunct} args : p_tame (p_read args).
Proof. intros s. unfold p_read. pose proof (read_tame (p_is s) args). by destruct (read _ _) as [[? ?]|]. Qed.
#[export] Hint Resolve p_read_tame : faults.

(** ** The steps of the parser *)

#[export] Hint Unfold p_setstate p_peek p_get get_var put_var stream_fails : faults.

Lemma p_read_int_tame `{NP : NumPunct} arg : p_tame (p_read_int arg).
Proof. unfold p_read_int. faults. Qed.
Lemma checked_set_tame v x : p_tame (checked_set v x).
Proof. unfold checked_set. faults. Qed.
Lemma checked_set_abbrev_tame a : p_tame (checked_set_abbrev a).
Proof. unfold checked_set_abbrev. faults. Qed.
#[export] Hint Resolve p_read_int_tame checked_set_tame checked_set_abbrev_tame : faults.

Lemma read_plain_tame `{NP : NumPunct} c : p_tame (read_plain c).
Proof. unfold read_plain. faults. Qed.
Lemma read_literal_tame `{NP : NumPunct} st c : p_tame (read_literal st c).
Proof. unfold read_literal. faults. Qed.
Lemma read_set_tame `{NP : NumPunct} v arg : p_tame (read_set v arg).
Proof. unfold read_set. faults. Qed.
#[export] Hint Resolve read_plain_tame read_literal_tame read_set_tame : faults.

Section commands.
Context `{TimeFacets}.

Lemma facet_sets_tame pattern sets : (∀ t, p_tame (sets t)) → p_tame (facet_sets pattern sets).
Proof. intros Hs. unfold facet_sets. faults. Qed.
Lemma set_date_tame t : p_tame (set_date t).
Proof. unfold set_date. faults. Qed.
Lemma set_time_tame t : p_tame (set_time t).
Proof. unfold set_time. faults. Qed.
Lemma parse_offset_minutes_tame more toff :
  (∀ a, p_tame (more a)) → p_tame (parse_offset_minutes more toff).
Proof. intros Hm. unfold parse_offset_minutes. faults. Qed.
#[local] Hint Resolve facet_sets_tame set_date_tame set_time_tame parse_offset_minutes_tame : faults.

Ltac unfold_head t := lazymatch t with ?f _ => unfold_head f | _ => unfold t end.

(** The commands are the calls above inside the frames. *)
#[local] Hint Unfold in_command unmodified modified_O modified_E : faults.
Ltac command :=
  intros; autounfold with faults; repeat first
    [ solve [eauto 3 with faults]
    | apply facet_sets_tame; intros ? | apply parse_offset_minutes_tame; intros ?
    | apply p_can_fault_lift | faults_step ].

Lemma parse_command_tame c st here pattern m :
  parse_command c st here pattern = Some m → p_tame m.
Proof.
  unfold parse_command. destruct c as [[] [] [] [] [] [] [] []]; intros [= <-].
  all: match goal with |- p_tame ?m => unfold_head m end; command.
Qed.
Lemma parse_default_tame c st : p_tame (parse_default c st).
Proof. unfold parse_default. command. Qed.
#[local] Hint Resolve parse_default_tame : faults.

Lemma parse_format_tame fmt st in_width : p_tame (parse_format fmt st in_width).
Proof.
  revert st in_width. induction fmt as [|c rest IH]; intros st in_width; cbn [parse_format]; [command|].
  destruct (_ && _); [command|]. apply p_can_fault_bind; [command|]. intros [|]; [command|].
  destruct (parse_command _ _ _ _) as [m|] eqn:E.
  - apply p_can_fault_bind; [by eapply parse_command_tame | auto].
  - command.
Qed.
Lemma parse_open_command_tame st : p_tame (parse_open_command st).
Proof. unfold parse_open_command. command. Qed.
End commands.

(** ** From the variables to the fields *)

Ltac results := intros; repeat first
  [ solve [eauto 3 with faults] | apply p_can_fault_lift | faults_step ].

Lemma two_digit_year_tame v2 v4 : p_tame (two_digit_year v2 v4).
Proof. unfold two_digit_year. results. Qed.
Lemma agree_month_day_tame x : p_tame (agree_month_day x).
Proof. unfold agree_month_day. results. Qed.
#[export] Hint Resolve two_digit_year_tame agree_month_day_tame : faults.
Lemma agree_tame x : p_tame (agree x).
Proof. unfold agree. results. Qed.
#[export] Hint Resolve agree_tame : faults.
Lemma dates_from_weeks_tame : p_tame dates_from_weeks.
Proof. unfold dates_from_weeks. results. Qed.
Lemma date_from_day_of_year_tame : p_tame date_from_day_of_year.
Proof. unfold date_from_day_of_year. results. Qed.
Lemma check_iso_week_tame x : p_tame (check_iso_week x).
Proof. unfold check_iso_week. results. Qed.
Lemma check_week_tame v first x : p_tame (check_week v first x).
Proof. unfold check_week. results. Qed.
#[export] Hint Resolve dates_from_weeks_tame date_from_day_of_year_tame check_iso_week_tame
  check_week_tame : faults.
Lemma check_date_tame b : p_tame (check_date b).
Proof. unfold check_date. results. Qed.
Lemma check_hour_tame : p_tame check_hour.
Proof. unfold check_hour. results. Qed.
Lemma update_tod_tame f : (∀ t, tame (f t)) → p_tame (update_tod f).
Proof. intros Hf. unfold update_tod. results. Qed.
#[export] Hint Resolve check_date_tame check_hour_tame : faults.
Lemma set_fields_tame : p_tame set_fields.
Proof. unfold set_fields. repeat first [apply update_tod_tame; intros ?; faults; done | progress results]. Qed.
#[export] Hint Resolve set_fields_tame : faults.
Lemma set_results_tame : p_tame set_results_of_variables.
Proof. unfold set_results_of_variables. results. Qed.

Lemma from_stream_tame `{TimeFacets} ins fmt fds abbrev offset :
  tame (from_stream ins fmt fds abbrev offset).
Proof.
  unfold from_stream. destruct (is_good ins); [|done]. apply can_fault_bind.
  - apply p_can_fault_bind; [apply parse_format_tame|]. intros st.
    apply p_can_fault_bind; [apply parse_open_command_tame|]. intros _. apply set_results_tame.
  - intros [r s] _. done.
Qed.
#[export] Hint Resolve from_stream_tame : faults.

Lemma parse_into_tame `{TimeFacets} ins fmt tp : tame (parse_into ins fmt tp).
Proof. unfold parse_into, from_stream_sys_days. faults. Qed.
Lemma from_stream_seconds_tame `{TimeFacets} ins fmt d : tame (from_stream_seconds ins fmt d).
Proof. unfold from_stream_seconds. faults. Qed.

(** A failed parse leaves the time point. *)
Lemma parse_into_failed `{TimeFacets} ins fmt tp i tp' :
  parse_into ins fmt tp = Ret (i, tp') → is_fail i = true → tp' = tp.
Proof.
  unfold parse_into, from_stream_sys_days. intros E Hf.
  destruct (from_stream _ _ _ _ _) as [[[[i0 f] a] o]|]; [|done]. rewrite outcome_bind_ret in E.
  destruct (ymd_ok _) as [ok|]; [|done]. rewrite outcome_bind_ret in E.
  apply outcome_bind_inv in E as ([[[i1 tp1] a1] o1] & E & [= -> ->]).
  apply outcome_bind_inv in E as (tp2 & E & [= <- <- <- <-]).
  rewrite Hf in E. by injection E.
Qed.

(** ** Numbers that are not there *)

Definition starts_with (P : ascii → bool) (s : string) : bool :=
  match s with String c _ => P c | EmptyString => false end.

Lemma read_digits_none fuel text x count M :
  starts_with is_digit text = false →
  ∃ i, read_digits (S fuel) (stream text) x count M = Ret (x, count, i) ∧ is_rest i = text.
Proof.
  intros H. destruct text as [|c text]; [by eexists|].
  cbn in H. eexists. cbn [read_digits peek stream is_good negb andb is_failbit is_eofbit is_rest].
  rewrite H. done.
Qed.

Lemma read_long_double_none `{NP : NumPunct} text M :
  starts_with (λ c, is_digit c || Ascii.eqb c decimal_point) text = false →
  ∃ i, read_long_double (stream text) 1 M = Ret (Decimal 0 0, i) ∧ is_fail i = true.
Proof.
  intros H. destruct text as [|c text]; [by eexists|].
  cbn in H. apply orb_false_iff in H as [Hd Hp].
  eexists. unfold read_long_double. change (read_fuel _) with (S (S (String.length text))).
  cbn [read_decimal peek stream is_good negb andb is_failbit is_eofbit is_rest].
  rewrite Hp, Hd. done.
Qed.

(** After a point without digits [stold] throws. *)
Lemma read_long_double_point `{NP : NumPunct} text :
  starts_with is_digit text = false → read_long_double (stream (String decimal_point text)) 1 2 = Fault Thrown.
Proof.
  intros H. unfold read_long_double. change (read_fuel _) with (S (S (String.length text))).
  cbn [read_decimal peek stream is_good negb andb is_failbit is_eofbit is_rest]. rewrite Ascii.eqb_refl.
  destruct text as [|c text]; [done|]. cbn in H.
  cbn -[read_decimal]. cbn [read_decimal peek is_good negb andb is_failbit is_eofbit is_rest].
  rewrite H. done.
Qed.

(** A run that stops with a fault. *)
Lemma from_stream_fault `{TimeFacets} c text fds a o m e :
  parse_command c (MkFstate (Some (String "%" (String c ""))) None (-1)) (String c "")
    (command_text (MkFstate (Some (String "%" (String c ""))) None (-1)) "") = Some m →
  m (MkPst (stream text) not_a tm_zero EmptyString fds a o) = Fault e →
  from_stream (stream text) (String "%" (String c "")) fds a o = Fault e.
Proof.
  intros Hc Hm. unfold from_stream. change (is_good (stream text)) with true. cbn iota.
  erewrite pm_bind_fault; [reflexivity|].
  rewrite parse_format_percent by done. cbn [parse_format andb]. pm_step.
  change (is_fail _) with false. cbn iota. rewrite Hc. by apply pm_bind_fault.
Qed.

Lemma from_stream_S `{TimeFacets} text d e :
  (∃ i, read (stream text) [Arld 1 2] = Ret ([Vnone], i)) ∧ e = Indeterminate
  ∨ read (stream text) [Arld 1 2] = Fault e →
  from_stream_seconds (stream text) "%S" d = Fault e.
Proof.
  intros Hr. unfold from_stream_seconds.
  rewrite (from_stream_fault "S" _ _ _ _ _ e eq_refl); [done|].
  unfold parse_S, in_command. cbn [command modified_O modified].
  apply pm_bind_fault. set (s := MkPst _ _ _ _ _ _ _).
  destruct Hr as [[[i Hr] ->]|Hr].
  - rewrite (pm_bind_some _ _ s [Vnone] (set_is i s)); [by apply pm_bind_fault|].
    unfold p_read. change (p_is s) with (stream text). change (width_or _ 2) with 2. by rewrite Hr.
  - apply pm_bind_fault. unfold p_read.
    change (p_is s) with (stream text). change (width_or _ 2) with 2. by rewrite Hr.
Qed.

(** A minus sign without a number. *)
Lemma read_signed_minus text :
  starts_with is_digit text = false →
  ∃ i, read_signed (stream (String "-" text)) 2 2 = Ret (0, i) ∧ is_fail i = true.
Proof.
  intros H. unfold read_signed.
  cbn [peek stream is_good negb andb is_failbit is_eofbit is_rest].
  change (if is_digit "-" || _ || _ then ?x else _) with x.
  change (if Ascii.eqb "-" "-" || _ then snd (get_char ?i) else _) with (stream text). cbn zeta.
  unfold read_unsigned. destruct (read_digits_none (String.length text) text 0 0 2 H) as (i & E & _).
  change (read_fuel _) with (S (String.length text)). rewrite E, !outcome_bind_ret.
  change (0 <? Z.max 2 1) with true. cbn iota.
  assert (is_fail (set_failbit i) = true) as -> by apply orb_true_r.
  eexists. split; [reflexivity|]. apply orb_true_r.
Qed.
