(* ===== verification/DateIoTotal.v ===== *)
(** DateIoTotal: the formatter returns a text for every valid date and time of day, whatever the
    format and the locale.

    [o_runs P m]: on a stream that has not failed, [m] meets no fault, leaves the stream good, and
    its value, if it does not end the formatting, is one of [P]. *)

From Stdlib Require Import ZArith Lia Ascii String.
From stdpp Require Import base list strings.
From S2P Require Import Prelude Calendar DateUnits DateFields DateYmd DateYmw Civil DateSerial DateNth DateClock DateStream DateParse DateFormat DateIoProofs.

#[local] Open Scope Z_scope.

(** ** The predicate *)

Definition os_good (s : ost) : Prop := os_failbit (ost_os s) = false.

Definition o_runs {A} (P : A → Prop) (m : om A) : Prop := ∀ s, os_good s →
  match m s with
  | Ret (Some a, s') => P a ∧ os_good s'
  | Ret (None, s') => os_good s'
  | Fault _ => False
  end.

Abbreviation any := (λ _, True).

Lemma o_runs_ret {A} (P : A → Prop) a : P a → o_runs P (mret a).
Proof. by intros H s Hs. Qed.

Lemma o_runs_bind {A B} (P : A → Prop) (Q : B → Prop) (m : om A) (f : A → om B) :
  o_runs P m → (∀ a, P a → o_runs Q (f a)) → o_runs Q (m ≫= f).
Proof.
  intros Hm Hf s Hs. specialize (Hm s Hs). unfold mbind, om_bind.
  destruct (m s) as [[[a|] s']|e]; [|done..]. destruct Hm as [Ha Hs']. by apply Hf.
Qed.

Lemma o_runs_lift {A} (P : A → Prop) (m : outcome A) a : m = Ret a → P a → o_runs P (o_lift m).
Proof. intros -> Ha s Hs. done. Qed.

Lemma o_runs_mono {A} (P Q : A → Prop) m : (∀ a, P a → Q a) → o_runs P m → o_runs Q m.
Proof.
  intros H Hm s Hs. specialize (Hm s Hs). destruct (m s) as [[[a|] s']|]; [|done..].
  destruct Hm. auto.
Qed.

Lemma o_runs_put_text t : o_runs any (put_text t).
Proof. intros s Hs. by rewrite put_text_ok. Qed.

Lemma o_runs_return {A} (P : A → Prop) : o_runs P return_os.
Proof. by intros s Hs. Qed.

Lemma o_runs_tm f : o_runs any (o_tm f).
Proof. by intros s Hs. Qed.

(** The stream has not failed. *)
Lemma o_runs_fails : o_runs (λ b, b = false) os_fails.
Proof. by intros s Hs. Qed.

Create HintDb runs.
#[export] Hint Resolve o_runs_put_text o_runs_return o_runs_tm o_runs_fails : runs.
#[export] Hint Extern 1 (o_runs _ (mret _)) => apply o_runs_ret : runs.
#[export] Hint Unfold put_char put_int put_zeros put_dfs : runs.

(** The next call: what it returns is known only when a lemma says so. *)
Ltac runs_step :=
  match goal with
  | |- o_runs _ (os_fails ≫= _) =>
      eapply o_runs_bind; [apply o_runs_fails|]; intros ? ->; cbn iota
  | |- o_runs _ (_ ≫= _) => apply (o_runs_bind any); [|intros ? _]
  | |- o_runs _ (if ?b then _ else _) => destruct b
  | |- o_runs _ (match ?x with _ => _ end) => destruct x
  end.
Ltac runs := repeat first [solve [eauto 3 with runs] | progress autounfold with runs | runs_step].

Section to_stream.
Context `{TimeFacets}.

Lemma o_runs_facet pattern : o_runs any (facet_put pattern).
Proof. by intros s Hs. Qed.

Lemma o_runs_negative : o_runs any put_negative.
Proof.
  unfold put_negative. apply (o_runs_bind any); [by intros s Hs|]. intros neg _.
  destruct neg; [|by apply o_runs_ret]. apply (o_runs_bind any); [apply o_runs_put_text|].
  intros _ _. by intros s Hs.
Qed.

Lemma o_runs_literal st c : o_runs any (put_literal st c).
Proof. unfold put_literal. runs. Qed.
Lemma o_runs_two_digits z : o_runs any (put_two_digits z).
Proof. unfold put_two_digits. runs. Qed.
#[local] Hint Resolve o_runs_facet o_runs_negative o_runs_literal o_runs_two_digits : runs.

Lemma o_runs_command st c body : o_runs any body → o_runs any (put_command st c body).
Proof. intros Hb. unfold put_command. runs. Qed.
Lemma o_runs_unmodified st c body : o_runs any body → o_runs any (put_unmodified st c body).
Proof. intros Hb. unfold put_unmodified. runs. Qed.
Lemma o_runs_unless e st c body : (∀ b, o_runs any (body b)) → o_runs any (put_unless e st c body).
Proof. intros Hb. unfold put_unless. runs. Qed.

(** ** The starts of years *)

#[local] Definition near (z : Z) : Prop := -20000000 ≤ z ≤ 20000000.

Lemma iso_year_start_runs y : wf y = true → ∃ z, iso_year_start y = Ret z ∧ near z.
Proof.
  intros Hy. unfold iso_year_start, ymwdl_sys_days.
  destruct (ymwdl_to_days_wf y December Thursday Hy eq_refl) as (d & E & Hd & _); [by vm_compute|].
  rewrite E, outcome_bind_ret. rewrite weekday_minus_weekday_mod.
  pose proof (civil_days_short (year_y y) (month_m December) d) as R.
  pose proof (month_length_bounds (year_y y) (month_m December)).
  apply year_wf_spec in Hy. change (month_m December) with 12 in *.
  change ((weekday_wd Monday - weekday_wd Thursday) mod 7) with 4.
  rewrite int_add_ok by lia. eexists. split; [done|]. unfold near. lia.
Qed.

Lemma first_weekday_runs y w :
  -32767 ≤ y ≤ 32767 → 0 ≤ w < 7 →
  ∃ z, first_weekday (MkYear y) (MkWeekday w) = Ret z ∧ near z.
Proof.
  intros Hy Hw. unfold first_weekday, ymwd_sys_days. rewrite weekday_at_small by lia.
  set (x := ym_div_wdi _ _).
  assert (wf x = true) as Hx.
  { apply ymwd_wf_spec. subst x. split; [apply year_wf_spec; cbn; lia|].
    change (month_m _) with 1. cbn. lia. }
  assert (year_ok (ymwd_y x) = true) as Hok by (apply year_ok_spec; [by apply year_wf_spec; cbn; lia | cbn; lia]).
  assert (wdi_weekday (ymwd_wdi x) = MkWeekday w) as Ew by (apply wdi_weekday_small; cbn; lia).
  assert (weekday_ok (wdi_weekday (ymwd_wdi x)) = true) as Hwd
    by (rewrite Ew; unfold weekday_ok; cbn; apply Z.leb_le; lia).
  pose proof (nth_bounds x Hx Hok eq_refl Hwd) as (_ & _ & _ & _ & Hf); [cbn; lia|].
  rewrite (nth_to_days x Hx Hok eq_refl Hwd) by (cbn; lia).
  eexists. split; [done|].
  unfold nth_weekday_day. set (f := civil_days _ _ 1) in *.
  pose proof (until_weekday_bounds f (wdi_wd (ymwd_wdi x))). set (k := until_weekday _ _) in *.
  change (wdi_index_ (ymwd_wdi x)) with 1. replace (k + (1 - 1) * 7 + 1) with (1 + k) by lia.
  rewrite civil_days_add. fold f. unfold near. lia.
Qed.

(** ** The fields of a valid date and time of day *)

Section valid.
Context (y m d h mi s : Z) (Ry : -32767 ≤ y ≤ 32767) (Hv : civil_valid y m d).
Context (Rh : 0 ≤ h < 24) (Rmi : 0 ≤ mi < 60) (Rs : 0 ≤ s < 60).

Let date := MkYearMonthDay (MkYear y) (MkMonth m) (MkDay d).
Let fds := MkFields date (f_wd fields_default) (MkHms h mi (MkDfs s 0) false) true.
Let day := civil_days y m d.

Lemma date_ok : ymd_ok date = Ret true.
Proof. by apply MkYearMonthDay_ok. Qed.

Lemma date_day : ymd_to_days date = Ret day ∧ first_day ≤ day ≤ last_day.
Proof.
  destruct (MkYearMonthDay_ok y m d Ry Hv) as [Hwf Hok]. apply (ymd_to_days_ok _ Hwf Hok).
Qed.

Lemma date_month : 1 ≤ m ≤ 12.
Proof. apply Hv. Qed.

(** Day [n] after the date, in the ISO calendar: the year [iso_year_start] is asked for. *)
Lemma date_after_runs n : 0 ≤ n ≤ 3 → ∃ x, ymd_from_days (day + n) = Ret x ∧ wf (ymd_year x) = true.
Proof.
  intros Hn. destruct date_day as [_ Hd]. rewrite ymd_from_days_civil by lia.
  destruct (civil_of_days _) as [[? ?] ?]. eexists. split; [done|]. apply year_ctor_wf.
Qed.

Lemma year_minus_one_runs x : wf x = true → ∃ x', year_minus_years x 1 = Ret x' ∧ wf x' = true.
Proof.
  intros Hx%year_wf_spec. unfold year_minus_years, year_int. rewrite int_sub_ok by lia.
  eexists. split; [done|]. apply year_ctor_wf.
Qed.

Lemma o_runs_require_ymd : o_runs any (require_ymd fds).
Proof.
  unfold require_ymd. eapply (o_runs_bind (λ b, b = true)).
  - eapply o_runs_lift; [apply date_ok | done].
  - intros ? ->. by apply o_runs_ret.
Qed.

Lemma o_runs_extract_weekday : o_runs any (extract_weekday fds).
Proof.
  unfold extract_weekday. eapply (o_runs_bind (λ b, b = true)).
  - eapply o_runs_lift; [apply date_ok | done].
  - intros ? ->. cbn [negb andb]. eapply (o_runs_bind any).
    + eapply o_runs_lift; [apply (proj1 date_day) | done].
    + intros z _. change (weekday_ok (f_wd fds)) with false. by apply o_runs_ret.
Qed.

Lemma o_runs_extract_month : o_runs (λ x, x = m) (extract_month fds).
Proof.
  unfold extract_month.
  assert (month_ok (ymd_month (f_ymd fds)) = true) as -> by (apply month_ok_spec; exact date_month).
  by apply o_runs_ret.
Qed.

(** A calculation on [int]s that stays in range. *)
Lemma o_runs_int x : -2147483648 ≤ x < 2147483648 → o_runs (λ z, z = x) (o_lift (int_res x)).
Proof. intros Hx. eapply o_runs_lift; [by apply int_res_ok | done]. Qed.

Lemma o_runs_day : o_runs (λ z, z = day) (o_lift (ymd_local_days date)).
Proof. eapply o_runs_lift; [apply (proj1 date_day) | done]. Qed.

Lemma o_runs_first_day :
  o_runs near (o_lift (ymd_local_days (ym_div_int (year_div_int (ymd_year date) 1) 1))).
Proof.
  rewrite year_month_day_of_ints by lia.
  destruct (MkYearMonthDay_ok y 1 1 Ry) as [Hwf Hok]; [unfold civil_valid; cbn; lia|].
  destruct (ymd_to_days_ok _ Hwf Hok) as [E R]. cbn in E, R.
  eapply o_runs_lift; [exact E|]. unfold near. lia.
Qed.

(** The numbers of the calculations below stay far inside an [int]. *)
Ltac int_runs := eapply o_runs_bind; [apply o_runs_int; unfold near in *; lia | intros ? ->].

Lemma o_runs_tm_of_fields time : o_runs any (tm_of_fields fds time).
Proof.
  pose proof (proj2 date_day) as Hd. unfold tm_of_fields.
  eapply o_runs_bind; [apply o_runs_day | intros ? ->].
  eapply o_runs_bind; [apply o_runs_extract_month | intros ? ->].
  change (year_int (ymd_year (f_ymd fds))) with y. int_runs.
  eapply o_runs_bind; [apply o_runs_extract_weekday | intros wd _].
  eapply o_runs_bind; [apply o_runs_fails | intros ? ->].
  eapply o_runs_bind; [apply o_runs_first_day | intros first Hf].
  int_runs. apply o_runs_tm.
Qed.

Lemma o_runs_tm_of_week : o_runs any (tm_of_week fds day).
Proof.
  pose proof (proj2 date_day) as Hd. unfold tm_of_week.
  change (year_int (ymd_year (f_ymd fds))) with y. int_runs.
  eapply o_runs_bind; [apply o_runs_extract_weekday | intros wd _].
  eapply o_runs_bind; [apply o_runs_fails | intros ? ->].
  eapply o_runs_bind; [apply o_runs_first_day | intros first Hf].
  int_runs. apply o_runs_tm.
Qed.

(** What the guards of the commands find. *)
Lemma month_ok_date : month_ok (ymd_month (f_ymd fds)) = true.
Proof. apply month_ok_spec. exact date_month. Qed.
Lemma year_ok_date : year_ok (ymd_year (f_ymd fds)) = true.
Proof. apply year_ok_spec; [by apply year_wf_spec; cbn; lia | cbn; lia]. Qed.
Lemma day_ok_date : day_ok (ymd_day (f_ymd fds)) = true.
Proof.
  destruct Hv as [_ Hd]. pose proof (month_length_bounds y m).
  unfold day_ok. cbn. apply andb_true_iff. rewrite !Z.leb_le. lia.
Qed.

#[local] Hint Resolve o_runs_require_ymd o_runs_extract_weekday o_runs_tm_of_fields
  o_runs_tm_of_week : runs.

(** A command: its frame, its guards, and what it writes. *)
Ltac command_runs :=
  repeat first [apply o_runs_command | apply o_runs_unmodified | apply o_runs_unless; intros ?];
  cbv zeta; rewrite ?month_ok_date, ?year_ok_date, ?day_ok_date; rewrite ?orb_true_r; cbn [require f_has_tod fds].

#[local] Hint Unfold put_year put_hms format_U format_W : runs.

(** The commands that only put fields. *)
Lemma format_fields_runs c st :
  o_runs any (format_a fds c st) ∧ o_runs any (format_c fds c st) ∧ o_runs any (format_d fds c st)
  ∧ o_runs any (format_D fds c st) ∧ o_runs any (format_F fds c st) ∧ o_runs any (format_m fds c st)
  ∧ o_runs any (format_y fds c st) ∧ o_runs any (format_Y fds c st) ∧ o_runs any (format_u fds c st).
Proof.
  split_and!;
    [ unfold format_a | unfold format_c | unfold format_d | unfold format_D | unfold format_F
    | unfold format_m | unfold format_y | unfold format_Y | unfold format_u ]; command_runs; runs.
Qed.

(** The commands of the time of day, and those that need no field. *)
Lemma format_time_runs c st :
  o_runs any (format_M fds c st) ∧ o_runs any (format_n c st) ∧ o_runs any (format_t c st)
  ∧ o_runs any (format_p fds c st) ∧ o_runs any (format_r fds c st) ∧ o_runs any (format_R fds c st)
  ∧ o_runs any (format_S fds c st) ∧ o_runs any (format_T fds c st) ∧ o_runs any (format_X fds c st)
  ∧ o_runs any (format_modifier c st) ∧ o_runs any (format_percent st)
  ∧ o_runs any (format_default c st).
Proof.
  split_and!;
    [ unfold format_M | unfold format_n | unfold format_t | unfold format_p | unfold format_r
    | unfold format_R | unfold format_S | unfold format_T | unfold format_X
    | unfold format_modifier | unfold format_percent | unfold format_default ]; command_runs; runs.
Qed.

Lemma format_w_runs c st : o_runs any (format_w fds c st).
Proof.
  unfold format_w. command_runs. eapply o_runs_bind; [apply o_runs_extract_weekday | intros wd _].
  runs_step. command_runs. runs.
Qed.

Lemma format_b_runs c st : o_runs any (format_b fds c st).
Proof.
  pose proof date_month. unfold format_b. command_runs.
  eapply o_runs_bind; [apply o_runs_extract_month | intros ? ->].
  rewrite i32_small by lia. int_runs. runs.
Qed.

Lemma format_C_runs c st : o_runs any (format_C fds c st).
Proof.
  unfold format_C. command_runs. change (year_int (ymd_year (f_ymd fds))) with y.
  apply (o_runs_bind any); [runs | intros _ _]. runs_step; [|runs].
  runs_step; [runs|]. apply (o_runs_bind any); [runs | intros _ _].
  change (int_neg (y - 99)) with (int_res (- (y - 99))). int_runs. runs.
Qed.

Lemma format_H_runs c st : o_runs any (format_H fds c st).
Proof.
  unfold format_H. command_runs.
  assert (∃ h', (if Ascii.eqb c "I" then make12 h else Ret h) = Ret h') as (h' & E).
  { destruct (Ascii.eqb c "I"); [|by exists h]. unfold make12.
    destruct (h <? 12); [destruct (h =? 0); by eexists|].
    destruct (h =? 12); [by eexists|]. cbn [negb]. unfold long_sub. eexists. apply long_res_ok. lia. }
  change (hms_hours (f_tod fds)) with h.
  repeat (apply (o_runs_bind any); [by runs | intros _ _]). runs_step; [|runs].
  eapply (o_runs_bind any); [eapply o_runs_lift; [exact E | done] | intros ? _]. runs.
Qed.

Lemma tod_duration :
  hms_to_duration (f_tod fds) = Ret (s + mi * 60 + h * 3600).
Proof.
  unfold hms_to_duration, dfs_to_duration, long_add, long_mul. cbn [f_tod fds hms_s dfs_s dfs_sub_s hms_m hms_h hms_neg].
  change (1 - 2 * Z.b2z false) with 1. rewrite Z.add_0_r.
  repeat (rewrite long_res_ok, ?outcome_bind_ret by lia). f_equal. lia.
Qed.

Lemma format_Q_runs c st : o_runs any (format_Q fds c st).
Proof.
  unfold format_Q. command_runs. apply (o_runs_bind any); [by runs | intros _ _].
  eapply (o_runs_bind any); [by eapply o_runs_lift; [apply tod_duration|] | intros ? _]. runs.
Qed.

Lemma first_of_year :
  ∃ z, ymd_local_days (ym_div_day (year_div_month (ymd_year (f_ymd fds)) January) (day_ctor 1)) = Ret z ∧ near z.
Proof.
  destruct (MkYearMonthDay_ok y 1 1 Ry) as [Hwf Hok]; [unfold civil_valid; cbn; lia|].
  destruct (ymd_to_days_ok _ Hwf Hok) as [E R]. cbn in E, R.
  eexists. split; [exact E|]. unfold near. lia.
Qed.

Lemma format_j_runs c st : o_runs any (format_j fds c st).
Proof.
  pose proof (proj2 date_day) as Hd. unfold format_j. command_runs.
  eapply (o_runs_bind (λ b, b = true)); [by eapply o_runs_lift; [apply date_ok|] | intros ? ->].
  cbn [orb]. destruct first_of_year as (z & E & Hz).
  eapply (o_runs_bind any); [|intros ? _; runs].
  eapply o_runs_lift; [|done]. change (ymd_local_days (f_ymd fds)) with (ymd_to_days date).
  rewrite (proj1 date_day), outcome_bind_ret, E, outcome_bind_ret. unfold near in Hz.
  rewrite int_sub_ok, outcome_bind_ret by lia. by apply int_add_ok; lia.
Qed.

(** The ISO year and the start of it, as [%G] and [%V] find them: the year of the Thursday of the week. *)
Lemma iso_year_of_day :
  ∃ x x1 z, (l3 ← int_add day 3; t ← ymd_of_local_days l3; Ret (ymd_year t)) = Ret x ∧ wf x = true
    ∧ year_minus_years x 1 = Ret x1 ∧ iso_year_start x1 = Ret z ∧ near z.
Proof.
  pose proof (proj2 date_day) as Hd.
  destruct (date_after_runs 3) as (t & E & Hwf); [lia|].
  destruct (year_minus_one_runs _ Hwf) as (x1 & E1 & Hwf1).
  destruct (iso_year_start_runs _ Hwf1) as (z & E2 & Hz).
  exists (ymd_year t), x1, z. split; [|done].
  rewrite int_add_ok, outcome_bind_ret by lia. unfold ymd_of_local_days. by rewrite E.
Qed.

Lemma year_pre_dec_wf x : wf (year_pre_dec x) = true.
Proof. apply year_wf_spec. unfold year_pre_dec. cbn [year_y]. pose proof (swrap_range 16 (year_y x - 1)). lia. Qed.

(** The number of a week, counted from 1. *)
Lemma week_number_runs n :
  -40000000 ≤ n ≤ 40000000 → ∃ w, int_add (weeks_of_days n) 1 = Ret w.
Proof.
  intros Hn. eexists. apply int_add_ok. unfold weeks_of_days, c_div.
  pose proof (Z.quot_rem' n 7). pose proof (Z.rem_bound_abs n 7). rewrite i32_small; lia.
Qed.

Lemma format_G_runs c st : o_runs any (format_G fds c st).
Proof.
  unfold format_G. command_runs. apply (o_runs_bind any); [by runs | intros _ _].
  eapply o_runs_bind; [apply o_runs_day | intros ? ->].
  destruct iso_year_of_day as (x & x1 & z & E & _ & E1 & E2 & _).
  eapply (o_runs_bind (λ x', x' = x)); [by eapply o_runs_lift | intros ? ->].
  eapply (o_runs_bind (λ z', z' = z)).
  { eapply o_runs_lift; [|done]. by rewrite E1, outcome_bind_ret. }
  intros ? ->. runs.
Qed.

Lemma format_V_runs c st : o_runs any (format_V fds c st).
Proof.
  pose proof (proj2 date_day) as Hd.
  unfold format_V. command_runs. apply (o_runs_bind any); [by runs | intros _ _].
  eapply o_runs_bind; [apply o_runs_day | intros ? ->].
  runs_step; [|runs].
  destruct iso_year_of_day as (x & x1 & z & E & Hwf & E1 & E2 & Hz).
  destruct (year_minus_one_runs (year_pre_dec x) (year_pre_dec_wf x)) as (x2 & E3 & Hwf2).
  destruct (iso_year_start_runs _ Hwf2) as (z2 & E4 & Hz2). unfold near in *.
  destruct (week_number_runs (day - if day <? z then z2 else z)) as (wn & Ew);
    [destruct (day <? z); lia|].
  eapply (o_runs_bind any); [|intros ? _; runs]. eapply o_runs_lift; [|done].
  apply outcome_bind_inv in E as (l3 & -> & (t & Et & [= <-])%outcome_bind_inv).
  rewrite outcome_bind_ret, Et, outcome_bind_ret, E1, outcome_bind_ret, E2, outcome_bind_ret, E3, outcome_bind_ret, E4.
  destruct (day <? z); rewrite outcome_bind_ret, int_sub_ok, outcome_bind_ret by lia; exact Ew.
Qed.

Lemma format_week_runs first c st :
  0 ≤ weekday_wd first < 7 → o_runs any (format_week first fds c st).
Proof.
  intros Hw. destruct first as [w]. destruct (first_weekday_runs y w Ry Hw) as (z & E & Hz).
  pose proof (proj2 date_day) as Hd. unfold near in Hz.
  unfold format_week. command_runs. apply (o_runs_bind any); [by runs | intros _ _].
  eapply o_runs_bind; [apply o_runs_day | intros ? ->].
  runs_step; [|runs].
  eapply (o_runs_bind (λ z', z' = z)); [by eapply o_runs_lift; [exact E|] | intros ? ->].
  runs_step; [runs|].
  destruct (week_number_runs (day - z)) as (wn & Ew); [lia|].
  eapply (o_runs_bind any); [|intros ? _; runs]. eapply o_runs_lift; [|done].
  rewrite int_sub_ok, outcome_bind_ret by lia. exact Ew.
Qed.

Context (abbrev : string) (off : seconds) (Ro : in_signed 64 off = true).

Lemma format_z_runs c st : o_runs any (format_z (Some off) c st).
Proof.
  apply in_signed_spec in Ro. change (2 ^ (64 - 1)) with 9223372036854775808 in Ro.
  unfold format_z. command_runs.
  assert (- Z.abs off ≤ c_div off 60 ≤ Z.abs off ∧ Z.abs (c_div off 60) * 60 ≤ Z.abs off) as Rm.
  { unfold c_div. pose proof (Z.quot_abs off 60) as Ha. change (Z.abs 60) with 60 in Ha.
    rewrite (Z.quot_div_nonneg (Z.abs off)) in Ha by lia.
    assert (Z.abs off / 60 * 60 ≤ Z.abs off) by div_lia.
    pose proof (Z.div_pos (Z.abs off) 60). lia. }
  eapply (o_runs_bind any); [|intros ? _; runs]. eapply o_runs_lift; [|done].
  instantiate (1 := Z.abs (c_div off 60)). destruct (Z.geb_spec (c_div off 60) 0).
  - by rewrite Z.abs_eq by lia.
  - unfold long_neg. rewrite long_res_ok by lia. by rewrite Z.abs_neq by lia.
Qed.

Lemma format_Z_runs c st : o_runs any (format_Z (Some abbrev) c st).
Proof. unfold format_Z. command_runs. runs. Qed.

Lemma format_step_runs c st : o_runs any (format_step fds (Some abbrev) (Some off) c st).
Proof.
  destruct (format_fields_runs c st) as (? & ? & ? & ? & ? & ? & ? & ? & ?).
  destruct (format_time_runs c st) as (? & ? & ? & ? & ? & ? & ? & ? & ? & ? & ? & ?).
  unfold format_step. destruct c as [[] [] [] [] [] [] [] []];
    first [ assumption | apply format_w_runs | apply format_b_runs | apply format_C_runs
          | apply format_H_runs | apply format_Q_runs | apply format_j_runs | apply format_G_runs
          | apply format_V_runs | apply format_z_runs | apply format_Z_runs
          | apply format_week_runs; vm_compute; intuition discriminate ].
Qed.

Lemma format_loop_runs fmt st : o_runs any (format_loop fds (Some abbrev) (Some off) fmt st).
Proof.
  revert st. induction fmt as [|c fmt IH]; intros st; cbn [format_loop]; [runs|].
  apply (o_runs_bind any); [apply format_step_runs | auto].
Qed.

Lemma to_stream_total fmt text throws :
  ∃ text', to_stream (MkOstream text false throws) fmt fds (Some abbrev) (Some off) = Ret text'
    ∧ os_failbit text' = false.
Proof.
  unfold to_stream. change (f_has_tod fds) with true. cbn iota.
  rewrite tod_duration, !outcome_bind_ret.
  set (s0 := MkOst _ _ _). pose proof (format_loop_runs fmt of_reset s0 eq_refl) as Hr.
  destruct (format_loop _ _ _ _ _ s0) as [[[a|] s']|]; [| |done]; rewrite outcome_bind_ret;
    eexists; (split; [done|]); [apply Hr | exact Hr].
Qed.
End valid.

(** ** Time points *)

Lemma dfs_ctor_whole x : dfs_ctor x = Ret (MkDfs x 0).
Proof. unfold dfs_ctor, long_sub. by rewrite Z.sub_diag. Qed.

Lemma hms_ctor_day t :
  0 ≤ t < 86400 → hms_ctor t = Ret (MkHms (t / 3600) (t / 60 mod 60) (MkDfs (t mod 60) 0) false).
Proof.
  intros Ht. unfold hms_ctor, seconds_abs.
  destruct (Z.geb_spec t 0); [|lia]. rewrite outcome_bind_ret. cbv zeta.
  rewrite !c_div_nonneg by lia.
  assert (0 ≤ t / 3600 < 24) by div_lia. assert (0 ≤ t / 60 < 1440) by div_lia.
  assert (t / 60 - t / 3600 * 60 = t / 60 mod 60) as Em by div_lia.
  assert (t - t / 3600 * 3600 - t / 60 mod 60 * 60 = t mod 60) as Es by div_lia.
  pose proof (Z.mod_pos_bound (t / 60) 60). pose proof (Z.mod_pos_bound t 60).
  long_step. rewrite Em. long_step. rewrite Es.
  rewrite dfs_ctor_whole, outcome_bind_ret.
  destruct (Z.ltb_spec t 0); [lia|done].
Qed.

Lemma floor_days_div t :
  -1100000000000 ≤ t ≤ 1000000000000 → floor_days t = Ret (t / 86400).
Proof.
  intros Ht. unfold floor_days, trunc_days, days_of_seconds, c_div. cbv zeta.
  pose proof (Z.quot_rem' t 86400). pose proof (Z.rem_bound_abs t 86400).
  assert (0 ≤ t → 0 ≤ Z.rem t 86400) by (intros; apply Z.rem_nonneg; lia).
  assert (t ≤ 0 → Z.rem t 86400 ≤ 0) by (intros; apply Z.rem_nonpos; lia).
  rewrite i32_small by lia. destruct (Z.gtb_spec (Z.quot t 86400 * 86400) t).
  - rewrite int_sub_ok by lia. f_equal. apply (Z.div_unique t 86400 _ (Z.rem t 86400 + 86400)); lia.
  - f_equal. apply (Z.div_unique t 86400 _ (Z.rem t 86400)); lia.
Qed.

(** The fields that a time point of a valid date is printed from. *)
Lemma to_stream_time_total fmt z t abbrev off :
  first_day ≤ z ≤ last_day → 0 ≤ t < 86400 → in_signed 64 off = true →
  ∃ text, format_with (λ os,
    ymd ← ymd_from_days z; tod ← hms_ctor t;
    to_stream os fmt (MkFields ymd (f_wd fields_default) tod true) (Some abbrev) (Some off)) = Ret text.
Proof.
  intros Hz Ht Ho. destruct (ymd_from_days_ok z Hz) as (y & m & d & E & Ry & Hv & _).
  unfold format_with. rewrite E, hms_ctor_day, !outcome_bind_ret by done.
  pose proof (Z.mod_pos_bound (t / 60) 60). pose proof (Z.mod_pos_bound t 60).
  destruct (to_stream_total y m d (t / 3600) (t / 60 mod 60) (t mod 60) Ry Hv) with
    (abbrev := abbrev) (off := off) (fmt := fmt) (text := ""%string) (throws := true)
    as (os & Eo & _); [div_lia | lia | lia | done |].
  exists (os_text os). exact (f_equal (mbind (λ o, Ret (os_text o))) Eo).
Qed.

Lemma to_stream_days_point os fmt z :
  -2147483648 ≤ z < 2147483648 →
  to_stream_sys_days os fmt z
  = (ymd ← ymd_from_days z; tod ← hms_ctor 0;
     to_stream os fmt (MkFields ymd (f_wd fields_default) tod true) (Some "UTC"%string) (Some 0)).
Proof. intros Hz. unfold to_stream_sys_days, long_sub. by rewrite Z.sub_diag. Qed.

Lemma to_stream_seconds_point os fmt z t :
  first_day ≤ z ≤ last_day → 0 ≤ t < 86400 →
  to_stream_sys_seconds os fmt (z * 86400 + t)
  = (ymd ← ymd_from_days z; tod ← hms_ctor t;
     to_stream os fmt (MkFields ymd (f_wd fields_default) tod true) (Some "UTC"%string) (Some 0)).
Proof.
  intros Hz Ht. unfold to_stream_sys_seconds. rewrite floor_days_div by lia.
  replace ((z * 86400 + t) / 86400) with z by div_lia. rewrite outcome_bind_ret.
  unfold ymd_of_sys_days. destruct (ymd_from_days z); [|done]. rewrite !outcome_bind_ret.
  unfold long_sub. replace (z * 86400 + t - z * 86400) with t by lia.
  by rewrite long_res_ok, outcome_bind_ret by lia.
Qed.
End to_stream.
