(* ===== verification/JulianFields.v ===== *)
(** JulianFields: the pairs of fields of include/date/julian.h, [year_month], [month_day],
    [month_day_last], [month_weekday] and [month_weekday_last], and the [operator/]s that
    build them. *)

From Stdlib Require Import ZArith Lia.
From stdpp Require Import base list.
From S2P Require Import Prelude Memory Calendar JulianUnits.

(** ** year_month *)

(** [src: include/date/julian.h 366-383 year_month] *)
Record year_month : Type := MkYearMonth { ym_y : year; ym_m : month }.

#[export] Instance year_month_eq_dec : EqDecision year_month.
Proof. solve_decision. Defined.

(** [src: include/date/julian.h 1476-1481 year_month::year_month] *)
Definition year_month_ctor (y : year) (m : month) : year_month := MkYearMonth y m.

(** [src: include/date/julian.h 1483-1483 year_month::year] *)
Definition ym_year (this : year_month) : year := ym_y this.

(** [src: include/date/julian.h 1484-1484 year_month::month] *)
Definition ym_month (this : year_month) : month := ym_m this.

(** [src: include/date/julian.h 1485-1485 year_month::ok] *)
Definition ym_ok (this : year_month) : bool := year_ok (ym_y this) && month_ok (ym_m this).

(** [src: include/date/julian.h 2714-2720 operator/] *)
Definition year_div_month (y : year) (m : month) : year_month := year_month_ctor y m.

(** [src: include/date/julian.h 2722-2728 operator/] *)
Definition year_div_int (y : year) (m : Z) : year_month := year_div_month y (month_ctor (u32 m)).

(** [src: include/date/julian.h 1523-1529 operator==] *)
Definition ym_eq (x y : year_month) : bool :=
  year_eq (ym_year x) (ym_year y) && month_eq (ym_month x) (ym_month y).

(** [src: include/date/julian.h 1531-1537 operator!=] *)
Definition ym_ne (x y : year_month) : bool := negb (ym_eq x y).

(** [src: include/date/julian.h 1539-1547 operator<] *)
Definition ym_lt (x y : year_month) : bool :=
  if year_lt (ym_year x) (ym_year y) then true
  else if year_gt (ym_year x) (ym_year y) then false
  else month_lt (ym_month x) (ym_month y).

(** [src: include/date/julian.h 1549-1555 operator>] *)
Definition ym_gt (x y : year_month) : bool := ym_lt y x.

(** [src: include/date/julian.h 1557-1563 operator<=] *)
Definition ym_le (x y : year_month) : bool := negb (ym_lt y x).

(** [src: include/date/julian.h 1565-1571 operator>=] *)
Definition ym_ge (x y : year_month) : bool := negb (ym_lt x y).

#[export] Instance ym_relational : Relational year_month :=
  { rel_eq := ym_eq; rel_ne := ym_ne; rel_lt := ym_lt; rel_gt := ym_gt;
     rel_le := ym_le; rel_ge := ym_ge }.

(** [src: include/date/julian.h 1573-1582 operator+] *)
Definition ym_plus_months (ym : year_month) (dm : months) : outcome year_month :=
  dmi ← int_add (i32 (month_unsigned (ym_month ym)) - 1) dm;
  n ← (if 0 <=? dmi then Ret dmi else int_sub dmi 11);
  let dy := c_div n 12 in
  dy12 ← int_mul dy 12;
  r ← int_sub dmi dy12;
  dmi' ← int_add r 1;
  y ← year_plus_years (ym_year ym) dy;
  Ret (year_div_month y (month_ctor (u32 dmi'))).

(** [src: include/date/julian.h 1584-1590 operator+] *)
Definition months_plus_ym (dm : months) (ym : year_month) : outcome year_month :=
  ym_plus_months ym dm.

(** [src: include/date/julian.h 1592-1598 operator-] *)
Definition ym_minus_months (ym : year_month) (dm : months) : outcome year_month :=
  dm' ← duration_neg dm; ym_plus_months ym dm'.

(** The years are converted to months, twelve each, before the sum.
    [src: include/date/julian.h 1600-1607 operator-] *)
Definition ym_minus_ym (x y : year_month) : outcome months :=
  int_add (i32 (year_minus_year (ym_year x) (ym_year y) * 12))
    (i32 (uint_sub (month_unsigned (ym_month x)) (month_unsigned (ym_month y)))).

(** [src: include/date/julian.h 1609-1615 operator+] *)
Definition ym_plus_years (ym : year_month) (dy : years) : outcome year_month :=
  y ← year_plus_years (ym_year ym) dy; Ret (year_div_month y (ym_month ym)).

(** [src: include/date/julian.h 1617-1623 operator+] *)
Definition years_plus_ym (dy : years) (ym : year_month) : outcome year_month :=
  ym_plus_years ym dy.

(** [src: include/date/julian.h 1625-1631 operator-] *)
Definition ym_minus_years (ym : year_month) (dy : years) : outcome year_month :=
  dy' ← duration_neg dy; ym_plus_years ym dy'.

(** [src: include/date/julian.h 1487-1494 year_month::operator+=] *)
Definition ym_add_assign_months (this : year_month) (dm : months) : outcome year_month := ym_plus_months this dm.

(** [src: include/date/julian.h 1496-1503 year_month::operator-=] *)
Definition ym_sub_assign_months (this : year_month) (dm : months) : outcome year_month := ym_minus_months this dm.

(** [src: include/date/julian.h 1505-1512 year_month::operator+=] *)
Definition ym_add_assign_years (this : year_month) (dy : years) : outcome year_month := ym_plus_years this dy.

(** [src: include/date/julian.h 1514-1521 year_month::operator-=] *)
Definition ym_sub_assign_years (this : year_month) (dy : years) : outcome year_month := ym_minus_years this dy.

(** ** month_day *)

(** [src: include/date/julian.h 407-419 month_day] *)
Record month_day : Type := MkMonthDay { md_m : month; md_d : day }.

#[export] Instance month_day_eq_dec : EqDecision month_day.
Proof. solve_decision. Defined.

(** [src: include/date/julian.h 1643-1648 month_day::month_day] *)
Definition month_day_ctor (m : month) (d : day) : month_day := MkMonthDay m d.

(** [src: include/date/julian.h 1650-1650 month_day::month] *)
Definition md_month (this : month_day) : month := md_m this.

(** [src: include/date/julian.h 1651-1651 month_day::day] *)
Definition md_day (this : month_day) : day := md_d this.

(** The greatest length of each month. [src: include/date/julian.h 1658-1659 month_day::ok] *)
Definition month_day_ok_d : list day :=
  [day_ctor 31; day_ctor 29; day_ctor 31;
   day_ctor 30; day_ctor 31; day_ctor 30;
   day_ctor 31; day_ctor 31; day_ctor 30;
   day_ctor 31; day_ctor 30; day_ctor 31].

(** The table is read only when the first two tests hold.
    [src: include/date/julian.h 1653-1661 month_day::ok] *)
Definition md_ok (this : month_day) : outcome bool :=
  if month_ok (md_m this) && day_le (day_ctor 1) (md_d this) then
    last_day ← arr_get month_day_ok_d (uint_sub (month_unsigned (md_m this)) 1);
    Ret (day_le (md_d this) last_day)
  else Ret false.

(** [src: include/date/julian.h 1663-1669 operator==] *)
Definition md_eq (x y : month_day) : bool :=
  month_eq (md_month x) (md_month y) && day_eq (md_day x) (md_day y).

(** [src: include/date/julian.h 1671-1677 operator!=] *)
Definition md_ne (x y : month_day) : bool := negb (md_eq x y).

(** [src: include/date/julian.h 1679-1687 operator<] *)
Definition md_lt (x y : month_day) : bool :=
  if month_lt (md_month x) (md_month y) then true
  else if month_gt (md_month x) (md_month y) then false
  else day_lt (md_day x) (md_day y).

(** [src: include/date/julian.h 1689-1695 operator>] *)
Definition md_gt (x y : month_day) : bool := md_lt y x.

(** [src: include/date/julian.h 1697-1703 operator<=] *)
Definition md_le (x y : month_day) : bool := negb (md_lt y x).

(** [src: include/date/julian.h 1705-1711 operator>=] *)
Definition md_ge (x y : month_day) : bool := negb (md_lt x y).

#[export] Instance md_relational : Relational month_day :=
  { rel_eq := md_eq; rel_ne := md_ne; rel_lt := md_lt; rel_gt := md_gt;
     rel_le := md_le; rel_ge := md_ge }.

(** [src: include/date/julian.h 2732-2738 operator/] *)
Definition month_div_day (m : month) (d : day) : month_day := month_day_ctor m d.

(** [src: include/date/julian.h 2740-2746 operator/] *)
Definition day_div_month (d : day) (m : month) : month_day := month_div_day m d.

(** [src: include/date/julian.h 2748-2754 operator/] *)
Definition month_div_int (m : month) (d : Z) : month_day := month_div_day m (day_ctor (u32 d)).

(** [src: include/date/julian.h 2756-2762 operator/] *)
Definition int_div_day (m : Z) (d : day) : month_day := month_div_day (month_ctor (u32 m)) d.

(** [src: include/date/julian.h 2764-2764 operator/] *)
Definition day_div_int (d : day) (m : Z) : month_day := int_div_day m d.

(** ** month_day_last *)

(** [src: include/date/julian.h 434-443 month_day_last] *)
Record month_day_last : Type := MkMonthDayLast { mdl_m : month }.

#[export] Instance month_day_last_eq_dec : EqDecision month_day_last.
Proof. solve_decision. Defined.

(** [src: include/date/julian.h 1725-1725 month_day_last::month_day_last] *)
Definition month_day_last_ctor (m : month) : month_day_last := MkMonthDayLast m.

(** [src: include/date/julian.h 1723-1723 month_day_last::month] *)
Definition mdl_month (this : month_day_last) : month := mdl_m this.

(** [src: include/date/julian.h 1724-1724 month_day_last::ok] *)
Definition mdl_ok (this : month_day_last) : bool := month_ok (mdl_m this).

(** [src: include/date/julian.h 1727-1733 operator==] *)
Definition mdl_eq (x y : month_day_last) : bool :=
  month_eq (mdl_month x) (mdl_month y).

(** [src: include/date/julian.h 1735-1741 operator!=] *)
Definition mdl_ne (x y : month_day_last) : bool := negb (mdl_eq x y).

(** [src: include/date/julian.h 1743-1749 operator<] *)
Definition mdl_lt (x y : month_day_last) : bool :=
  month_lt (mdl_month x) (mdl_month y).

(** [src: include/date/julian.h 1751-1757 operator>] *)
Definition mdl_gt (x y : month_day_last) : bool := mdl_lt y x.

(** [src: include/date/julian.h 1759-1765 operator<=] *)
Definition mdl_le (x y : month_day_last) : bool := negb (mdl_lt y x).

(** [src: include/date/julian.h 1767-1773 operator>=] *)
Definition mdl_ge (x y : month_day_last) : bool := negb (mdl_lt x y).

#[export] Instance mdl_relational : Relational month_day_last :=
  { rel_eq := mdl_eq; rel_ne := mdl_ne; rel_lt := mdl_lt; rel_gt := mdl_gt;
     rel_le := mdl_le; rel_ge := mdl_ge }.

(** [src: include/date/julian.h 2768-2774 operator/] *)
Definition month_div_last (m : month) (_ : last_spec) : month_day_last := month_day_last_ctor m.

(** [src: include/date/julian.h 2776-2782 operator/] *)
Definition last_div_month (_ : last_spec) (m : month) : month_day_last := month_div_last m last.

(** [src: include/date/julian.h 2784-2790 operator/] *)
Definition int_div_last (m : Z) (_ : last_spec) : month_day_last :=
  month_div_last (month_ctor (u32 m)) last.

(** [src: include/date/julian.h 2792-2798 operator/] *)
Definition last_div_int (_ : last_spec) (m : Z) : month_day_last := int_div_last m last.

(** ** month_weekday *)

(** [src: include/date/julian.h 458-470 month_weekday] *)
Record month_weekday : Type := MkMonthWeekday { mwd_m : month; mwd_wdi : weekday_indexed }.

(** [src: include/date/julian.h 1785-1791 month_weekday::month_weekday] *)
Definition month_weekday_ctor (m : month) (wdi : weekday_indexed) : month_weekday :=
  MkMonthWeekday m wdi.

(** [src: include/date/julian.h 1793-1793 month_weekday::month] *)
Definition mwd_month (this : month_weekday) : month := mwd_m this.

(** [src: include/date/julian.h 1795-1801 month_weekday::weekday_indexed] *)
Definition mwd_weekday_indexed (this : month_weekday) : weekday_indexed := mwd_wdi this.

(** [src: include/date/julian.h 1803-1809 month_weekday::ok] *)
Definition mwd_ok (this : month_weekday) : bool := month_ok (mwd_m this) && wdi_ok (mwd_wdi this).

(** [src: include/date/julian.h 1811-1817 operator==] *)
Definition mwd_eq (x y : month_weekday) : bool :=
  month_eq (mwd_month x) (mwd_month y)
  && wdi_eq (mwd_weekday_indexed x) (mwd_weekday_indexed y).

(** [src: include/date/julian.h 1819-1825 operator!=] *)
Definition mwd_ne (x y : month_weekday) : bool := negb (mwd_eq x y).

(** [src: include/date/julian.h 2802-2808 operator/] *)
Definition month_div_wdi (m : month) (wdi : weekday_indexed) : month_weekday :=
  month_weekday_ctor m wdi.

(** [src: include/date/julian.h 2810-2816 operator/] *)
Definition wdi_div_month (wdi : weekday_indexed) (m : month) : month_weekday :=
  month_div_wdi m wdi.

(** [src: include/date/julian.h 2818-2824 operator/] *)
Definition int_div_wdi (m : Z) (wdi : weekday_indexed) : month_weekday :=
  month_div_wdi (month_ctor (u32 m)) wdi.

(** [src: include/date/julian.h 2826-2832 operator/] *)
Definition wdi_div_int (wdi : weekday_indexed) (m : Z) : month_weekday := int_div_wdi m wdi.

(** ** month_weekday_last *)

(** [src: include/date/julian.h 481-494 month_weekday_last] *)
Record month_weekday_last : Type :=
  MkMonthWeekdayLast { mwdl_m : month; mwdl_wdl : weekday_last }.

(** [src: include/date/julian.h 1837-1843 month_weekday_last::month_weekday_last] *)
Definition month_weekday_last_ctor (m : month) (wdl : weekday_last) : month_weekday_last :=
  MkMonthWeekdayLast m wdl.

(** [src: include/date/julian.h 1845-1845 month_weekday_last::month] *)
Definition mwdl_month (this : month_weekday_last) : month := mwdl_m this.

(** [src: include/date/julian.h 1847-1853 month_weekday_last::weekday_last] *)
Definition mwdl_weekday_last (this : month_weekday_last) : weekday_last := mwdl_wdl this.

(** [src: include/date/julian.h 1855-1861 month_weekday_last::ok] *)
Definition mwdl_ok (this : month_weekday_last) : bool :=
  month_ok (mwdl_m this) && wdl_ok (mwdl_wdl this).

(** [src: include/date/julian.h 1863-1869 operator==] *)
Definition mwdl_eq (x y : month_weekday_last) : bool :=
  month_eq (mwdl_month x) (mwdl_month y)
  && wdl_eq (mwdl_weekday_last x) (mwdl_weekday_last y).

(** [src: include/date/julian.h 1871-1877 operator!=] *)
Definition mwdl_ne (x y : month_weekday_last) : bool := negb (mwdl_eq x y).

(** [src: include/date/julian.h 2836-2842 operator/] *)
Definition month_div_wdl (m : month) (wdl : weekday_last) : month_weekday_last :=
  month_weekday_last_ctor m wdl.

(** [src: include/date/julian.h 2844-2850 operator/] *)
Definition wdl_div_month (wdl : weekday_last) (m : month) : month_weekday_last :=
  month_div_wdl m wdl.

(** [src: include/date/julian.h 2852-2858 operator/] *)
Definition int_div_wdl (m : Z) (wdl : weekday_last) : month_weekday_last :=
  month_div_wdl (month_ctor (u32 m)) wdl.

(** [src: include/date/julian.h 2860-2866 operator/] *)
Definition wdl_div_int (wdl : weekday_last) (m : Z) : month_weekday_last := int_div_wdl m wdl.
