(* ===== verification/JulianYmd.v ===== *)
(** JulianYmd: [year_month_day_last] and [year_month_day] of include/date/julian.h, the conversions
    between a civil date and its serial day number, and the arithmetic of months and years.

    [ymd_to_days] and [ymd_from_days] are the two conversion algorithms, statement by statement:
    an operation on [int]s is checked ([int_add] and the like), one on [unsigned]s wraps
    ([uint_add] and the like). *)

From Stdlib Require Import ZArith Lia.
From stdpp Require Import base list.
From S2P Require Import Prelude Memory Calendar JulianUnits JulianFields.

(** ** year_month_day_last *)

(** [src: include/date/julian.h 559-581 year_month_day_last] *)
Record year_month_day_last : Type :=
  MkYearMonthDayLast { ymdl_y : year; ymdl_mdl : month_day_last }.

#[export] Instance year_month_day_last_eq_dec : EqDecision year_month_day_last.
Proof. solve_decision. Defined.

(** [src: include/date/julian.h 1889-1895 year_month_day_last::year_month_day_last] *)
Definition year_month_day_last_ctor (y : year) (mdl : month_day_last) : year_month_day_last :=
  MkYearMonthDayLast y mdl.

(** [src: include/date/julian.h 1933-1933 year_month_day_last::year] *)
Definition ymdl_year (this : year_month_day_last) : year := ymdl_y this.

(** [src: include/date/julian.h 1934-1934 year_month_day_last::month] *)
Definition ymdl_month (this : year_month_day_last) : month := mdl_month (ymdl_mdl this).

(** [src: include/date/julian.h 1936-1942 year_month_day_last::month_day_last] *)
Definition ymdl_month_day_last (this : year_month_day_last) : month_day_last := ymdl_mdl this.

(** [src: include/date/julian.h 1968-1974 year_month_day_last::ok] *)
Definition ymdl_ok (this : year_month_day_last) : bool :=
  year_ok (ymdl_y this) && mdl_ok (ymdl_mdl this).

(** The length of each month of a common year.
    [src: include/date/julian.h 1949-1950 year_month_day_last::day] *)
Definition ymdl_day_d : list day :=
  [day_ctor 31; day_ctor 28; day_ctor 31;
   day_ctor 30; day_ctor 31; day_ctor 30;
   day_ctor 31; day_ctor 31; day_ctor 30;
   day_ctor 31; day_ctor 30; day_ctor 31].

(** The table is read whatever the month is.  [src: include/date/julian.h 1944-1952 year_month_day_last::day] *)
Definition ymdl_day (this : year_month_day_last) : outcome day :=
  if month_ne (ymdl_month this) feb || negb (year_is_leap (ymdl_y this))
  then arr_get ymdl_day_d (uint_sub (month_unsigned (ymdl_month this)) 1)
  else Ret (day_ctor 29).

(** [src: include/date/julian.h 1976-1982 operator==] *)
Definition ymdl_eq (x y : year_month_day_last) : bool :=
  year_eq (ymdl_year x) (ymdl_year y)
  && mdl_eq (ymdl_month_day_last x) (ymdl_month_day_last y).

(** [src: include/date/julian.h 1984-1990 operator!=] *)
Definition ymdl_ne (x y : year_month_day_last) : bool := negb (ymdl_eq x y).

(** [src: include/date/julian.h 1992-2000 operator<] *)
Definition ymdl_lt (x y : year_month_day_last) : bool :=
  if year_lt (ymdl_year x) (ymdl_year y) then true
  else if year_gt (ymdl_year x) (ymdl_year y) then false
  else mdl_lt (ymdl_month_day_last x) (ymdl_month_day_last y).

(** [src: include/date/julian.h 2002-2008 operator>] *)
Definition ymdl_gt (x y : year_month_day_last) : bool := ymdl_lt y x.

(** [src: include/date/julian.h 2010-2016 operator<=] *)
Definition ymdl_le (x y : year_month_day_last) : bool := negb (ymdl_lt y x).

(** [src: include/date/julian.h 2018-2024 operator>=] *)
Definition ymdl_ge (x y : year_month_day_last) : bool := negb (ymdl_lt x y).

#[export] Instance ymdl_relational : Relational year_month_day_last :=
  { rel_eq := ymdl_eq; rel_ne := ymdl_ne; rel_lt := ymdl_lt; rel_gt := ymdl_gt;
     rel_le := ymdl_le; rel_ge := ymdl_ge }.

(** [src: include/date/julian.h 2920-2926 operator/] *)
Definition ym_div_last (ym : year_month) (_ : last_spec) : year_month_day_last :=
  year_month_day_last_ctor (ym_year ym) (month_day_last_ctor (ym_month ym)).

(** [src: include/date/julian.h 2928-2934 operator/] *)
Definition year_div_mdl (y : year) (mdl : month_day_last) : year_month_day_last :=
  year_month_day_last_ctor y mdl.

(** [src: include/date/julian.h 2936-2942 operator/] *)
Definition int_div_mdl (y : Z) (mdl : month_day_last) : year_month_day_last :=
  year_div_mdl (year_ctor y) mdl.

(** [src: include/date/julian.h 2944-2950 operator/] *)
Definition mdl_div_year (mdl : month_day_last) (y : year) : year_month_day_last :=
  year_div_mdl y mdl.

(** [src: include/date/julian.h 2952-2958 operator/] *)
Definition mdl_div_int (mdl : month_day_last) (y : Z) : year_month_day_last :=
  year_div_mdl (year_ctor y) mdl.

(** [src: include/date/julian.h 2034-2040 operator+] *)
Definition ymdl_plus_months (ymdl : year_month_day_last) (dm : months)
    : outcome year_month_day_last :=
  ym ← ym_plus_months (year_div_month (ymdl_year ymdl) (ymdl_month ymdl)) dm;
  Ret (ym_div_last ym last).

(** [src: include/date/julian.h 2042-2048 operator+] *)
Definition months_plus_ymdl (dm : months) (ymdl : year_month_day_last)
    : outcome year_month_day_last := ymdl_plus_months ymdl dm.

(** [src: include/date/julian.h 2050-2056 operator-] *)
Definition ymdl_minus_months (ymdl : year_month_day_last) (dm : months)
    : outcome year_month_day_last := dm' ← duration_neg dm; ymdl_plus_months ymdl dm'.

(** [src: include/date/julian.h 2058-2064 operator+] *)
Definition ymdl_plus_years (ymdl : year_month_day_last) (dy : years)
    : outcome year_month_day_last :=
  y ← year_plus_years (ymdl_year ymdl) dy;
  Ret (year_month_day_last_ctor y (ymdl_month_day_last ymdl)).

(** [src: include/date/julian.h 2066-2072 operator+] *)
Definition years_plus_ymdl (dy : years) (ymdl : year_month_day_last)
    : outcome year_month_day_last := ymdl_plus_years ymdl dy.

(** [src: include/date/julian.h 2074-2080 operator-] *)
Definition ymdl_minus_years (ymdl : year_month_day_last) (dy : years)
    : outcome year_month_day_last := dy' ← duration_neg dy; ymdl_plus_years ymdl dy'.

(** [src: include/date/julian.h 1897-1904 year_month_day_last::operator+=] *)
Definition ymdl_add_assign_months (this : year_month_day_last) (m : months) : outcome year_month_day_last := ymdl_plus_months this m.

(** [src: include/date/julian.h 1906-1913 year_month_day_last::operator-=] *)
Definition ymdl_sub_assign_months (this : year_month_day_last) (m : months) : outcome year_month_day_last := ymdl_minus_months this m.

(** [src: include/date/julian.h 1915-1922 year_month_day_last::operator+=] *)
Definition ymdl_add_assign_years (this : year_month_day_last) (y : years) : outcome year_month_day_last := ymdl_plus_years this y.

(** [src: include/date/julian.h 1924-1931 year_month_day_last::operator-=] *)
Definition ymdl_sub_assign_years (this : year_month_day_last) (y : years) : outcome year_month_day_last := ymdl_minus_years this y.

(** ** year_month_day *)

(** [src: include/date/julian.h 507-537 year_month_day] *)
Record year_month_day : Type := MkYearMonthDay { ymd_y : year; ymd_m : month; ymd_d : day }.

#[export] Instance year_month_day_eq_dec : EqDecision year_month_day.
Proof. solve_decision. Defined.

(** [src: include/date/julian.h 2084-2091 year_month_day::year_month_day] *)
Definition year_month_day_ctor (y : year) (m : month) (d : day) : year_month_day :=
  MkYearMonthDay y m d.

(** [src: include/date/julian.h 2093-2099 year_month_day::year_month_day] *)
Definition ymd_of_ymdl (ymdl : year_month_day_last) : outcome year_month_day :=
  d ← ymdl_day ymdl; Ret (MkYearMonthDay (ymdl_year ymdl) (ymdl_month ymdl) d).

(** [src: include/date/julian.h 2113-2113 year_month_day::year] *)
Definition ymd_year (this : year_month_day) : year := ymd_y this.

(** [src: include/date/julian.h 2114-2114 year_month_day::month] *)
Definition ymd_month (this : year_month_day) : month := ymd_m this.

(** [src: include/date/julian.h 2115-2115 year_month_day::day] *)
Definition ymd_day (this : year_month_day) : day := ymd_d this.

(** [src: include/date/julian.h 2186-2194 year_month_day::ok] *)
Definition ymd_ok (this : year_month_day) : outcome bool :=
  if negb (year_ok (ymd_y this) && month_ok (ymd_m this)) then Ret false
  else if day_le (day_ctor 1) (ymd_d this) then
    last_day ← ymdl_day (ym_div_last (year_div_month (ymd_y this) (ymd_m this)) last);
    Ret (day_le (ymd_d this) last_day)
  else Ret false.

(** [src: include/date/julian.h 2196-2202 operator==] *)
Definition ymd_eq (x y : year_month_day) : bool :=
  year_eq (ymd_year x) (ymd_year y) && month_eq (ymd_month x) (ymd_month y)
  && day_eq (ymd_day x) (ymd_day y).

(** [src: include/date/julian.h 2204-2210 operator!=] *)
Definition ymd_ne (x y : year_month_day) : bool := negb (ymd_eq x y).

(** [src: include/date/julian.h 2212-2222 operator<] *)
Definition ymd_lt (x y : year_month_day) : bool :=
  if year_lt (ymd_year x) (ymd_year y) then true
  else if year_gt (ymd_year x) (ymd_year y) then false
  else if month_lt (ymd_month x) (ymd_month y) then true
  else if month_gt (ymd_month x) (ymd_month y) then false
  else day_lt (ymd_day x) (ymd_day y).

(** [src: include/date/julian.h 2224-2230 operator>] *)
Definition ymd_gt (x y : year_month_day) : bool := ymd_lt y x.

(** [src: include/date/julian.h 2232-2238 operator<=] *)
Definition ymd_le (x y : year_month_day) : bool := negb (ymd_lt y x).

(** [src: include/date/julian.h 2240-2246 operator>=] *)
Definition ymd_ge (x y : year_month_day) : bool := negb (ymd_lt x y).

#[export] Instance ymd_relational : Relational year_month_day :=
  { rel_eq := ymd_eq; rel_ne := ymd_ne; rel_lt := ymd_lt; rel_gt := ymd_gt;
     rel_le := ymd_le; rel_ge := ymd_ge }.

(** *** The serial day number *)

(** [src: include/date/julian.h 2153-2170 year_month_day::to_days] *)
Definition ymd_to_days (this : year_month_day) : outcome days :=
  y ← int_sub (year_int (ymd_y this)) (if month_le (ymd_m this) feb then 1 else 0);
  let m := month_unsigned (ymd_m this) in
  let d := day_unsigned (ymd_d this) in
  n ← (if 0 <=? y then Ret y else int_sub y 3);
  let era := c_div n 4 in
  era4 ← int_mul era 4;
  r ← int_sub y era4;
  let yoe := u32 r in
  let mp := if 2 <? m then uint_sub m 3 else uint_add m 9 in
  let doy := uint_sub (uint_add (uint_add (uint_mul 153 mp) 2 / 5) d) 1 in
  let doe := uint_add (uint_mul yoe 365) doy in
  a ← int_mul era 1461;
  b ← int_add a (i32 doe);
  int_sub b 719470.

(** [src: include/date/julian.h 2263-2282 year_month_day::from_days] *)
Definition ymd_from_days (dp : days) : outcome year_month_day :=
  z ← int_add dp 719470;
  n ← (if 0 <=? z then Ret z else int_sub z 1460);
  let era := c_div n 1461 in
  e ← int_mul era 1461;
  r ← int_sub z e;
  let doe := u32 r in
  let yoe := uint_sub doe (doe / 1460) / 365 in
  era4 ← int_mul era 4;
  y ← int_add (i32 yoe) era4;
  let doy := uint_sub doe (uint_mul 365 yoe) in
  let mp := uint_add (uint_mul 5 doy) 2 / 153 in
  let d := uint_add (uint_sub doy (uint_add (uint_mul 153 mp) 2 / 5)) 1 in
  let m := if mp <? 10 then uint_add mp 3 else uint_sub mp 9 in
  y' ← int_add y (if m <=? 2 then 1 else 0);
  Ret (year_month_day_ctor (year_ctor y') (month_ctor m) (day_ctor d)).

(** [src: include/date/julian.h 2172-2177 year_month_day::operator sys_days] *)
Definition ymd_sys_days (this : year_month_day) : outcome sys_days := ymd_to_days this.

(** [src: include/date/julian.h 2179-2184 year_month_day::operator local_days] *)
Definition ymd_local_days (this : year_month_day) : outcome local_days := ymd_to_days this.

(** [src: include/date/julian.h 2101-2105 year_month_day::year_month_day] *)
Definition ymd_of_sys_days (dp : sys_days) : outcome year_month_day := ymd_from_days dp.

(** [src: include/date/julian.h 2107-2111 year_month_day::year_month_day] *)
Definition ymd_of_local_days (dp : local_days) : outcome year_month_day := ymd_from_days dp.

#[export] Instance ymd_serial : DateSerial year_month_day :=
  { serial_ok := ymd_ok; to_serial := ymd_sys_days; of_serial := ymd_of_sys_days }.

(** *** Composition and arithmetic *)

(** [src: include/date/julian.h 2870-2876 operator/] *)
Definition ym_div_day (ym : year_month) (d : day) : year_month_day :=
  year_month_day_ctor (ym_year ym) (ym_month ym) d.

(** [src: include/date/julian.h 2878-2884 operator/] *)
Definition ym_div_int (ym : year_month) (d : Z) : year_month_day := ym_div_day ym (day_ctor (u32 d)).

(** [src: include/date/julian.h 2886-2892 operator/] *)
Definition year_div_md (y : year) (md : month_day) : year_month_day :=
  ym_div_day (year_div_month y (md_month md)) (md_day md).

(** [src: include/date/julian.h 2894-2900 operator/] *)
Definition int_div_md (y : Z) (md : month_day) : year_month_day := year_div_md (year_ctor y) md.

(** [src: include/date/julian.h 2902-2908 operator/] *)
Definition md_div_year (md : month_day) (y : year) : year_month_day := year_div_md y md.

(** [src: include/date/julian.h 2910-2916 operator/] *)
Definition md_div_int (md : month_day) (y : Z) : year_month_day := year_div_md (year_ctor y) md.

(** [src: include/date/julian.h 1954-1959 year_month_day_last::operator sys_days] *)
Definition ymdl_sys_days (this : year_month_day_last) : outcome sys_days :=
  d ← ymdl_day this;
  ymd_sys_days (ym_div_day (year_div_month (ymdl_year this) (ymdl_month this)) d).

(** [src: include/date/julian.h 1961-1966 year_month_day_last::operator local_days] *)
Definition ymdl_local_days (this : year_month_day_last) : outcome local_days :=
  d ← ymdl_day this;
  ymd_local_days (ym_div_day (year_div_month (ymdl_year this) (ymdl_month this)) d).

(** [src: include/date/julian.h 2284-2290 operator+] *)
Definition ymd_plus_months (ymd : year_month_day) (dm : months) : outcome year_month_day :=
  ym ← ym_plus_months (year_div_month (ymd_year ymd) (ymd_month ymd)) dm;
  Ret (ym_div_day ym (ymd_day ymd)).

(** [src: include/date/julian.h 2292-2298 operator+] *)
Definition months_plus_ymd (dm : months) (ymd : year_month_day) : outcome year_month_day :=
  ymd_plus_months ymd dm.

(** [src: include/date/julian.h 2300-2306 operator-] *)
Definition ymd_minus_months (ymd : year_month_day) (dm : months) : outcome year_month_day :=
  dm' ← duration_neg dm; ymd_plus_months ymd dm'.

(** [src: include/date/julian.h 2308-2314 operator+] *)
Definition ymd_plus_years (ymd : year_month_day) (dy : years) : outcome year_month_day :=
  y ← year_plus_years (ymd_year ymd) dy;
  Ret (ym_div_day (year_div_month y (ymd_month ymd)) (ymd_day ymd)).

(** [src: include/date/julian.h 2316-2322 operator+] *)
Definition years_plus_ymd (dy : years) (ymd : year_month_day) : outcome year_month_day :=
  ymd_plus_years ymd dy.

(** [src: include/date/julian.h 2324-2330 operator-] *)
Definition ymd_minus_years (ymd : year_month_day) (dy : years) : outcome year_month_day :=
  dy' ← duration_neg dy; ymd_plus_years ymd dy'.

(** [src: include/date/julian.h 2117-2124 year_month_day::operator+=] *)
Definition ymd_add_assign_months (this : year_month_day) (m : months) : outcome year_month_day := ymd_plus_months this m.

(** [src: include/date/julian.h 2126-2133 year_month_day::operator-=] *)
Definition ymd_sub_assign_months (this : year_month_day) (m : months) : outcome year_month_day := ymd_minus_months this m.

(** [src: include/date/julian.h 2135-2142 year_month_day::operator+=] *)
Definition ymd_add_assign_years (this : year_month_day) (y : years) : outcome year_month_day := ymd_plus_years this y.

(** [src: include/date/julian.h 2144-2151 year_month_day::operator-=] *)
Definition ymd_sub_assign_years (this : year_month_day) (y : years) : outcome year_month_day := ymd_minus_years this y.
