(* ===== verification/JulianSerial.v ===== *)
(** JulianSerial: the Julian calendar as a [Reckoning], and that the conversions of
    include/date/julian.h compute it: [year_month_day] satisfies the laws of [DateSerial], and its
    comparison operators those of [Relational]. *)

From Stdlib Require Import ZArith Lia.
From stdpp Require Import base list.
From S2P Require Import Prelude Memory Calendar JulianUnits JulianFields JulianYmd.

#[local] Open Scope Z_scope.

(** ** The reference *)

Definition julian_leap (y : Z) : bool := y mod 4 =? 0.

Definition julian_length (y m : Z) : Z :=
  if m =? 2 then (if julian_leap y then 29 else 28)
  else if (m =? 4) || (m =? 6) || (m =? 9) || (m =? 11) then 30 else 31.

(** The days before a month: January and February, then a pattern of five months. *)
Definition julian_before (y m : Z) : Z :=
  if m <=? 2 then 31 * (m - 1)
  else 59 + Z.b2z (julian_leap y) + (153 * (m - 3) + 2) / 5.

(** 1 January of the year 0 is day -719530. *)
Definition julian : Reckoning :=
  MkReckoning (λ y, 365 * y + (y + 3) / 4 - 719530) julian_before julian_length.

#[export] Instance julian_laws : ReckoningLaws julian.
Proof.
  split; cbn [julian year_start days_before length_of].
  - intros y m Hm. unfold julian_length. destruct (m =? 2), (julian_leap y), (m =? 4), (m =? 6), (m =? 9), (m =? 11); cbn; lia.
  - done.
  - intros y m Hm. month_cases m; try lia; unfold julian_before, julian_length; cbn;
      destruct (julian_leap y); reflexivity.
  - intros y. unfold julian_before, julian_length, julian_leap. cbn.
    destruct (Z.eqb_spec (y mod 4) 0); cbn; div_lia.
Qed.

(** 19 December 1969 of the Julian calendar is the first of January 1970. *)
Lemma julian_epoch : day_number julian 1969 12 19 = 0.
Proof. reflexivity. Qed.

(** ** Well-formed values *)

#[export] Instance day_wf : WellFormed day := λ x, is_u8 (day_d x).
#[export] Instance month_wf : WellFormed month := λ x, is_u8 (month_m x).
#[export] Instance year_wf : WellFormed year := λ x, is_i16 (year_y x).
#[export] Instance year_month_day_wf : WellFormed year_month_day :=
  λ x, wf (ymd_y x) && wf (ymd_m x) && wf (ymd_d x).

Lemma julian_ymd_wf_spec x :
  wf x = true ↔ -32768 ≤ year_y (ymd_y x) < 32768 ∧ 0 ≤ month_m (ymd_m x) < 256
    ∧ 0 ≤ day_d (ymd_d x) < 256.
Proof.
  unfold wf at 1, year_month_day_wf, wf, year_wf, month_wf, day_wf.
  rewrite !andb_true_iff, is_i16_spec, !is_u8_spec. tauto.
Qed.

Lemma julian_month_ok_spec m : month_ok m = true ↔ 1 ≤ month_m m ≤ 12.
Proof. unfold month_ok. rewrite andb_true_iff, !Z.leb_le. done. Qed.

Lemma julian_year_is_leap_spec y : year_is_leap y = julian_leap (year_y y).
Proof.
  unfold year_is_leap, julian_leap, c_rem. apply Bool.eq_iff_eq_true.
  rewrite !Z.eqb_eq, Z.rem_divide, Z.mod_divide by lia. done.
Qed.

Lemma julian_ymdl_day_spec y m :
  month_ok m = true →
  ymdl_day (ym_div_last (year_div_month y m) last) = Ret (MkDay (julian_length (year_y y) (month_m m))).
Proof.
  intros Hm. unfold ymdl_day. cbn. rewrite julian_year_is_leap_spec.
  destruct m as [m]. apply julian_month_ok_spec in Hm. cbn in Hm.
  unfold julian_length. destruct (julian_leap (year_y y)); month_cases m; reflexivity.
Qed.

(** The year is not tested. *)
Lemma julian_ymd_ok_spec x :
  ymd_ok x = Ret (month_ok (ymd_m x) && (1 <=? day_d (ymd_d x))
    && (day_d (ymd_d x) <=? julian_length (year_y (ymd_y x)) (month_m (ymd_m x)))).
Proof.
  destruct x as [y m d]. unfold ymd_ok. cbn [ymd_y ymd_m ymd_d year_ok andb].
  destruct (month_ok m) eqn:Hm; [|reflexivity]. cbn [negb andb].
  rewrite (julian_ymdl_day_spec _ _ Hm), outcome_bind_ret.
  unfold day_le, day_lt, day_unsigned. cbn.
  rewrite u8_small by lia. rewrite <- !Z.leb_antisym. by destruct (1 <=? day_d d).
Qed.

Lemma julian_ymd_ok_true x :
  ymd_ok x = Ret true ↔ valid_day julian (year_y (ymd_y x)) (month_m (ymd_m x)) (day_d (ymd_d x)).
Proof.
  rewrite julian_ymd_ok_spec. unfold valid_day. cbn [julian length_of]. rewrite <- julian_month_ok_spec. split.
  - intros [= H]. zb_prop. split_and!; done.
  - intros (H2 & H3 & H4). apply Z.leb_le in H3, H4. by rewrite H2, H3, H4.
Qed.

(** ** The conversions *)

Lemma month_le_feb m : month_le m feb = (month_m m <=? 2).
Proof. unfold month_le, month_lt, month_unsigned. cbn. by rewrite <- Z.leb_antisym. Qed.

(** The day of the year that begins in March. *)
Lemma julian_day_march y m d :
  1 ≤ m ≤ 12 →
  let y' := y - (if m <=? 2 then 1 else 0) in
  day_number julian y m d
  = 365 * y' + y' / 4 + (153 * (if 2 <? m then m - 3 else m + 9) + 2) / 5 + d - 719471.
Proof.
  intros Hm y'. subst y'. unfold day_number. cbn [julian year_start days_before].
  unfold julian_before, julian_leap. month_cases m; cbn [Z.leb Z.ltb Z.compare Pos.compare Pos.compare_cont];
    cbn -[Z.add Z.mul Z.div Z.modulo]; destruct (Z.eqb_spec (y mod 4) 0); cbn [Z.b2z]; div_lia.
Qed.

Lemma julian_ymd_to_days_spec x :
  wf x = true → month_ok (ymd_m x) = true → 1 ≤ day_d (ymd_d x) →
  ymd_to_days x
  = Ret (day_number julian (year_y (ymd_y x)) (month_m (ymd_m x)) (day_d (ymd_d x))).
Proof.
  intros Hwf Hm Hd. apply julian_ymd_wf_spec in Hwf. apply julian_month_ok_spec in Hm.
  destruct x as [[y] [m] [d]]. cbn in *.
  unfold ymd_to_days. cbn [ymd_y ymd_m ymd_d]. rewrite month_le_feb. cbn [month_m].
  unfold year_int, month_unsigned, day_unsigned. cbn [year_y month_m day_d].
  rewrite julian_day_march by done. cbv zeta.
  set (y' := y - (if m <=? 2 then 1 else 0)).
  assert (-32769 ≤ y' < 32768) as Hy' by (unfold y'; destruct (m <=? 2); lia).
  assert (int_sub y (if m <=? 2 then 1 else 0) = Ret y') as -> by (apply int_res_ok; fold y'; lia).
  rewrite outcome_bind_ret, int_floor_arg, outcome_bind_ret by lia.
  rewrite (c_div_floor_by y' 4 3) by lia.
  rewrite (int_mul_ok (y' / 4) 4), outcome_bind_ret by div_lia.
  rewrite int_sub_ok, outcome_bind_ret by div_lia.
  assert (u32 (y' - y' / 4 * 4) = y' mod 4) as -> by (rewrite u32_small; div_lia).
  assert (0 ≤ y' mod 4 < 4) by (apply Z.mod_pos_bound; lia).
  assert ((if 2 <? m then uint_sub m 3 else uint_add m 9) = if 2 <? m then m - 3 else m + 9)
    as -> by (destruct (Z.ltb_spec 2 m); uint_step; done).
  set (mp := if 2 <? m then m - 3 else m + 9).
  assert (0 ≤ mp ≤ 11) by (unfold mp; destruct (Z.ltb_spec 2 m); lia).
  clearbody mp. set (yoe := y' mod 4) in *.
  assert (y' = 4 * (y' / 4) + yoe) as Ey by (unfold yoe; div_lia). clearbody y' yoe.
  assert (-8193 ≤ y' / 4 ≤ 8192) by div_lia. set (era := y' / 4) in *. clearbody era.
  uint_step. assert (0 ≤ (153 * mp + 2) / 5 ≤ 400) by div_lia. set (o := (153 * mp + 2) / 5) in *.
  uint_step. rewrite i32_small by lia. int_step. f_equal. lia.
Qed.

(** The years of a [year], which are all valid: -32768 to 32767. *)
Abbreviation first_day := (first_of julian (-32768)).
Abbreviation last_day := (last_of julian 32767).

(** From March on the lengths of the months are the steps of the pattern. *)
Lemma julian_length_five y mp :
  0 ≤ mp < 10 → (153 * (mp + 1) + 2) / 5 - (153 * mp + 2) / 5 = julian_length y (mp + 3).
Proof.
  intros H.
  assert (mp = 0 ∨ mp = 1 ∨ mp = 2 ∨ mp = 3 ∨ mp = 4 ∨ mp = 5 ∨ mp = 6 ∨ mp = 7 ∨ mp = 8 ∨ mp = 9)
    as Hc by lia.
  repeat destruct Hc as [->|Hc]; [..|subst mp]; reflexivity.
Qed.

Lemma julian_ymd_from_days_spec z :
  -2147483648 ≤ z ≤ 2146764177 →
  ∃ y m d, ymd_from_days z = Ret (MkYearMonthDay (year_ctor y) (MkMonth m) (MkDay d))
    ∧ valid_day julian y m d ∧ day_number julian y m d = z.
Proof.
  intros Hz. unfold ymd_from_days. rewrite (int_add_ok z), outcome_bind_ret by lia.
  set (x := z + 719470). assert (-2146764178 ≤ x < 2147483648) as Hx by (unfold x; lia).
  rewrite int_floor_arg, outcome_bind_ret by lia.
  rewrite (c_div_floor_by x 1461 1460) by lia.
  assert (-1469381 ≤ x / 1461 ≤ 1469872) as Hera by div_lia.
  rewrite (int_mul_ok (x / 1461) 1461), outcome_bind_ret by div_lia.
  rewrite (int_sub_ok x), outcome_bind_ret by div_lia.
  assert (u32 (x - x / 1461 * 1461) = x mod 1461) as -> by (rewrite u32_small; div_lia).
  assert (0 ≤ x mod 1461 < 1461) as Hdoe by (apply Z.mod_pos_bound; lia).
  assert (x = 1461 * (x / 1461) + x mod 1461) as Ex by div_lia.
  set (doe := x mod 1461) in *. set (era := x / 1461) in *. clearbody doe era.
  assert (0 ≤ doe / 1460 ≤ doe) by div_lia. uint_step.
  set (yoe := (doe - doe / 1460) / 365).
  assert (0 ≤ yoe ≤ 3 ∧ 0 ≤ doe - 365 * yoe ≤ 365
          ∧ (doe - 365 * yoe = 365 → yoe = 3)) as (Hyoe & Hdoy & Hlast) by (unfold yoe; div_lia).
  rewrite i32_small by lia. rewrite (int_mul_ok era), outcome_bind_ret by lia.
  rewrite int_add_ok, outcome_bind_ret by lia. clearbody yoe.
  uint_step. set (doy := doe - 365 * yoe) in *. uint_step.
  set (mp := (5 * doy + 2) / 153).
  assert (0 ≤ mp ≤ 11 ∧ (153 * mp + 2) / 5 ≤ doy ∧ (mp < 11 → doy < (153 * (mp + 1) + 2) / 5)
          ∧ 0 ≤ (153 * mp + 2) / 5 ≤ 400) as (Hmp & Hlo & Hhi & Ho)
    by (unfold mp; split; [div_lia|]; split; [div_lia|]; split; [intros; div_lia|div_lia]).
  clearbody mp. uint_step.
  assert ((if mp <? 10 then mp + 3 else uint_sub mp 9) = if mp <? 10 then mp + 3 else mp - 9) as ->
    by (destruct (Z.ltb_spec mp 10); uint_step; done).
  set (m := if mp <? 10 then mp + 3 else mp - 9).
  assert (m = if mp <? 10 then mp + 3 else mp - 9) as Em by done. clearbody m.
  set (d := doy - (153 * mp + 2) / 5 + 1).
  assert (1 ≤ m ≤ 12) as Hm by (rewrite Em; destruct (Z.ltb_spec mp 10); lia).
  assert (1 ≤ d ≤ 31) as Hd
    by (unfold d; destruct (Z_lt_le_dec mp 11) as [Hl|]; [specialize (Hhi Hl)|]; div_lia).
  rewrite int_add_ok, outcome_bind_ret by (destruct (m <=? 2); lia).
  eexists _, m, d. split; [|split].
  - unfold year_month_day_ctor, month_ctor, day_ctor. rewrite !u8_small by lia. reflexivity.
  - split; [done|]. cbn [julian length_of]. unfold julian_length, julian_leap.
    destruct (Z.leb_spec m 2).
    + assert (mp = 10 ∨ mp = 11) as [->| ->] by (destruct (Z.ltb_spec mp 10); lia);
        cbn in Em; subst m; [exact Hd|].
      assert (d = doy - 336) as Ed by (unfold d; change ((153 * 11 + 2) / 5) with 337; lia).
      cbn -[Z.modulo Z.add Z.mul]. clearbody d.
      change (11 - 9) with 2 in *. cbn [Z.eqb Pos.eqb Z.leb Z.compare Pos.compare Pos.compare_cont].
      destruct (Z.eqb_spec ((yoe + era * 4 + 1) mod 4) 0); [lia|].
      assert (yoe ≠ 3) by (intros ->; div_lia). lia.
    + assert (mp < 10) as Hmp10 by (destruct (Z.ltb_spec mp 10); lia).
      destruct (Z.ltb_spec mp 10); [|lia]. specialize (Hhi ltac:(lia)). subst m.
      pose proof (julian_length_five (yoe + era * 4) mp) as E5.
      unfold julian_length, julian_leap in E5. rewrite Z.add_0_r. unfold d. lia.
  - rewrite julian_day_march by done. cbv zeta.
    replace (if 2 <? m then m - 3 else m + 9) with mp
      by (rewrite Em; destruct (Z.ltb_spec mp 10); zb_cases; lia).
    replace (yoe + era * 4 + (if m <=? 2 then 1 else 0) - (if m <=? 2 then 1 else 0))
      with (yoe + era * 4) by lia.
    assert ((yoe + era * 4) / 4 = era) as -> by div_lia. unfold d, doy, x in *. lia.
Qed.

(** ** The laws *)

Lemma julian_first_day_value : first_day = -12688042.
Proof. reflexivity. Qed.
Lemma julian_last_day_value : last_day = 11248981.
Proof. reflexivity. Qed.

(** Every date of a [year], a month and a day of it is well formed, [ok()], and converted. *)
Lemma julian_to y m d :
  -32768 ≤ y ≤ 32767 → valid_day julian y m d →
  let x := MkYearMonthDay (MkYear y) (MkMonth m) (MkDay d) in
  wf x = true ∧ ymd_ok x = Ret true ∧ ymd_to_days x = Ret (day_number julian y m d).
Proof.
  intros Hy Hv x. pose proof Hv as [Hm Hd]. pose proof (length_range (R := julian) y m Hm).
  assert (wf x = true) as Hwf by (apply julian_ymd_wf_spec; cbn; lia).
  split; [done|]. split; [by apply julian_ymd_ok_true|].
  apply (julian_ymd_to_days_spec x); [done | by apply julian_month_ok_spec | apply Hd].
Qed.

Lemma julian_of z :
  first_day ≤ z ≤ last_day →
  ∃ y m d, ymd_from_days z = Ret (MkYearMonthDay (MkYear y) (MkMonth m) (MkDay d))
    ∧ valid_day julian y m d ∧ day_number julian y m d = z.
Proof.
  intros Hz. pose proof Hz as Hz'. rewrite julian_first_day_value, julian_last_day_value in Hz'.
  destruct (julian_ymd_from_days_spec z) as (y & m & d & E & Hv & Hn); [lia|].
  exists y, m, d. split; [|done]. rewrite E. unfold year_ctor.
  assert (-32768 ≤ y ≤ 32767) by (apply (day_number_in julian _ _ y m d Hv); by rewrite Hn).
  by rewrite i16_small by lia.
Qed.

#[export] Instance ymd_serial_laws : DateSerialLaws year_month_day first_day last_day.
Proof.
  apply (reckoning_serial_laws julian (λ y m d, MkYearMonthDay (MkYear y) (MkMonth m) (MkDay d))).
  - intros [[y] [m] [d]] Hwf Hok. apply julian_ymd_wf_spec in Hwf. apply julian_ymd_ok_true in Hok. cbn in *.
    exists y, m, d. split; [done|]. split; [lia | done].
  - apply julian_to.
  - apply julian_of.
Qed.

(** ** The comparison operators *)

#[export] Instance year_month_day_laws :
  RelationalLaws year_month_day (λ x, [year_y (ymd_y x); month_m (ymd_m x); day_d (ymd_d x)]).
Proof.
  split; intros; try done; destruct x as [[a] [b] [c]], y as [[a'] [b'] [c']];
    [cbn in *; congruence | | ]; unfold rel_eq, rel_lt;
    cbv [ymd_relational ymd_eq ymd_lt year_eq year_lt year_gt month_eq month_lt month_gt day_eq day_lt
         year_int month_unsigned day_unsigned ymd_year ymd_month ymd_day];
    cbn [ymd_y ymd_m ymd_d year_y month_m day_d lex_lt].
  - apply Bool.eq_iff_eq_true. rewrite bool_decide_eq_true, !andb_true_iff, !Z.eqb_eq.
    split; [intros [[-> ->] ->]; done | intros [= -> -> ->]; done].
  - zb_cases; try reflexivity; lia.
Qed.
