(* ===== verification/JulianYmw.v ===== *)
(** JulianYmw: [year_month_weekday] (the n-th given weekday of a month) and
    [year_month_weekday_last] of include/date/julian.h, their conversions to and from serial day
    numbers, and the arithmetic of months and years. *)

From Stdlib Require Import ZArith Lia Ascii String.
From stdpp Require Import base list strings.
From S2P Require Import Prelude Memory Calendar DateFormat JulianUnits JulianFields JulianYmd.

#[local] Open Scope char_scope.
#[local] Open Scope Z_scope.

(** ** year_month_weekday *)

(** [src: include/date/julian.h 626-656 year_month_weekday] *)
Record year_month_weekday : Type :=
  MkYearMonthWeekday { ymwd_y : year; ymwd_m : month; ymwd_wdi : weekday_indexed }.

#[export] Instance year_month_weekday_eq_dec : EqDecision year_month_weekday.
Proof. solve_decision. Defined.

(** [src: include/date/julian.h 2334-2342 year_month_weekday::year_month_weekday] *)
Definition year_month_weekday_ctor (y : year) (m : month) (wdi : weekday_indexed)
    : year_month_weekday := MkYearMonthWeekday y m wdi.

(** [src: include/date/julian.h 2392-2392 year_month_weekday::year] *)
Definition ymwd_year (this : year_month_weekday) : year := ymwd_y this.

(** [src: include/date/julian.h 2393-2393 year_month_weekday::month] *)
Definition ymwd_month (this : year_month_weekday) : month := ymwd_m this.

(** [src: include/date/julian.h 2395-2401 year_month_weekday::weekday] *)
Definition ymwd_weekday (this : year_month_weekday) : weekday := wdi_weekday (ymwd_wdi this).

(** [src: include/date/julian.h 2403-2409 year_month_weekday::index] *)
Definition ymwd_index (this : year_month_weekday) : Z := wdi_index (ymwd_wdi this).

(** [src: include/date/julian.h 2411-2417 year_month_weekday::weekday_indexed] *)
Definition ymwd_weekday_indexed (this : year_month_weekday) : weekday_indexed := ymwd_wdi this.

(** [src: include/date/julian.h 2467-2474 operator==] *)
Definition ymwd_eq (x y : year_month_weekday) : bool :=
  year_eq (ymwd_year x) (ymwd_year y) && month_eq (ymwd_month x) (ymwd_month y)
  && wdi_eq (ymwd_weekday_indexed x) (ymwd_weekday_indexed y).

(** [src: include/date/julian.h 2476-2482 operator!=] *)
Definition ymwd_ne (x y : year_month_weekday) : bool := negb (ymwd_eq x y).

(** A fifth weekday exists when its day is not past the end of the month.
    [src: include/date/julian.h 2433-2444 year_month_weekday::ok] *)
Definition ymwd_ok (this : year_month_weekday) : outcome bool :=
  if negb (year_ok (ymwd_y this)) || negb (month_ok (ymwd_m this))
     || negb (weekday_ok (wdi_weekday (ymwd_wdi this))) || (wdi_index (ymwd_wdi this) <? 1)
  then Ret false
  else if wdi_index (ymwd_wdi this) <=? 4 then Ret true
  else
    let ym := year_div_month (ymwd_y this) (ymwd_m this) in
    first ← ymd_sys_days (ym_div_int ym 1);
    wd ← weekday_of_sys_days first;
    d2 ← int_add
           (weekday_minus_weekday (wdi_weekday (ymwd_wdi this)) wd)
           (i32 (uint_add (uint_mul (uint_sub (wdi_index (ymwd_wdi this)) 1) 7) 1));
    last_day ← ymdl_day (ym_div_last ym last);
    Ret (u32 d2 <=? day_unsigned last_day).

(** [src: include/date/julian.h 2446-2455 year_month_weekday::from_days] *)
Definition ymwd_from_days (d : days) : outcome year_month_weekday :=
  let dp : sys_days := d in
  wd ← weekday_of_sys_days dp;
  ymd ← ymd_of_sys_days dp;
  Ret (year_month_weekday_ctor (ymd_year ymd) (ymd_month ymd)
         (weekday_at wd (uint_add (uint_sub (day_unsigned (ymd_day ymd)) 1 / 7) 1))).

(** [src: include/date/julian.h 2457-2465 year_month_weekday::to_days] *)
Definition ymwd_to_days (this : year_month_weekday) : outcome days :=
  d ← ymd_sys_days (ym_div_int (year_div_month (ymwd_y this) (ymwd_m this)) 1);
  wd ← weekday_of_sys_days d;
  s ← int_add (weekday_minus_weekday (wdi_weekday (ymwd_wdi this)) wd)
        (i32 (uint_mul (uint_sub (wdi_index (ymwd_wdi this)) 1) 7));
  int_add d s.

(** [src: include/date/julian.h 2419-2424 year_month_weekday::operator sys_days] *)
Definition ymwd_sys_days (this : year_month_weekday) : outcome sys_days := ymwd_to_days this.

(** [src: include/date/julian.h 2426-2431 year_month_weekday::operator local_days] *)
Definition ymwd_local_days (this : year_month_weekday) : outcome local_days := ymwd_to_days this.

(** [src: include/date/julian.h 2344-2348 year_month_weekday::year_month_weekday] *)
Definition ymwd_of_sys_days (dp : sys_days) : outcome year_month_weekday := ymwd_from_days dp.

(** [src: include/date/julian.h 2350-2354 year_month_weekday::year_month_weekday] *)
Definition ymwd_of_local_days (dp : local_days) : outcome year_month_weekday := ymwd_from_days dp.

#[export] Instance ymwd_serial : DateSerial year_month_weekday :=
  { serial_ok := ymwd_ok; to_serial := ymwd_sys_days; of_serial := ymwd_of_sys_days }.

(** [src: include/date/julian.h 2962-2968 operator/] *)
Definition ym_div_wdi (ym : year_month) (wdi : weekday_indexed) : year_month_weekday :=
  year_month_weekday_ctor (ym_year ym) (ym_month ym) wdi.

(** [src: include/date/julian.h 2970-2976 operator/] *)
Definition year_div_mwd (y : year) (mwd : month_weekday) : year_month_weekday :=
  year_month_weekday_ctor y (mwd_month mwd) (mwd_weekday_indexed mwd).

(** [src: include/date/julian.h 2978-2984 operator/] *)
Definition int_div_mwd (y : Z) (mwd : month_weekday) : year_month_weekday :=
  year_div_mwd (year_ctor y) mwd.

(** [src: include/date/julian.h 2986-2992 operator/] *)
Definition mwd_div_year (mwd : month_weekday) (y : year) : year_month_weekday :=
  year_div_mwd y mwd.

(** [src: include/date/julian.h 2994-3000 operator/] *)
Definition mwd_div_int (mwd : month_weekday) (y : Z) : year_month_weekday :=
  year_div_mwd (year_ctor y) mwd.

(** [src: include/date/julian.h 2493-2499 operator+] *)
Definition ymwd_plus_months (ymwd : year_month_weekday) (dm : months)
    : outcome year_month_weekday :=
  ym ← ym_plus_months (year_div_month (ymwd_year ymwd) (ymwd_month ymwd)) dm;
  Ret (ym_div_wdi ym (ymwd_weekday_indexed ymwd)).

(** [src: include/date/julian.h 2501-2507 operator+] *)
Definition months_plus_ymwd (dm : months) (ymwd : year_month_weekday)
    : outcome year_month_weekday := ymwd_plus_months ymwd dm.

(** [src: include/date/julian.h 2509-2515 operator-] *)
Definition ymwd_minus_months (ymwd : year_month_weekday) (dm : months)
    : outcome year_month_weekday := dm' ← duration_neg dm; ymwd_plus_months ymwd dm'.

(** [src: include/date/julian.h 2517-2523 operator+] *)
Definition ymwd_plus_years (ymwd : year_month_weekday) (dy : years)
    : outcome year_month_weekday :=
  y ← year_plus_years (ymwd_year ymwd) dy;
  Ret (year_month_weekday_ctor y (ymwd_month ymwd) (ymwd_weekday_indexed ymwd)).

(** [src: include/date/julian.h 2525-2531 operator+] *)
Definition years_plus_ymwd (dy : years) (ymwd : year_month_weekday)
    : outcome year_month_weekday := ymwd_plus_years ymwd dy.

(** [src: include/date/julian.h 2533-2539 operator-] *)
Definition ymwd_minus_years (ymwd : year_month_weekday) (dy : years)
    : outcome year_month_weekday := dy' ← duration_neg dy; ymwd_plus_years ymwd dy'.

(** [src: include/date/julian.h 2356-2363 year_month_weekday::operator+=] *)
Definition ymwd_add_assign_months (this : year_month_weekday) (m : months) : outcome year_month_weekday := ymwd_plus_months this m.

(** [src: include/date/julian.h 2365-2372 year_month_weekday::operator-=] *)
Definition ymwd_sub_assign_months (this : year_month_weekday) (m : months) : outcome year_month_weekday := ymwd_minus_months this m.

(** [src: include/date/julian.h 2374-2381 year_month_weekday::operator+=] *)
Definition ymwd_add_assign_years (this : year_month_weekday) (y : years) : outcome year_month_weekday := ymwd_plus_years this y.

(** [src: include/date/julian.h 2383-2390 year_month_weekday::operator-=] *)
Definition ymwd_sub_assign_years (this : year_month_weekday) (y : years) : outcome year_month_weekday := ymwd_minus_years this y.

(** ** year_month_weekday_last *)

(** [src: include/date/julian.h 693-719 year_month_weekday_last] *)
Record year_month_weekday_last : Type :=
  MkYearMonthWeekdayLast { ymwdl_y : year; ymwdl_m : month; ymwdl_wdl : weekday_last }.

#[export] Instance year_month_weekday_last_eq_dec : EqDecision year_month_weekday_last.
Proof. solve_decision. Defined.

(** [src: include/date/julian.h 2543-2551 year_month_weekday_last::year_month_weekday_last] *)
Definition year_month_weekday_last_ctor (y : year) (m : month) (wdl : weekday_last)
    : year_month_weekday_last := MkYearMonthWeekdayLast y m wdl.

(** [src: include/date/julian.h 2589-2589 year_month_weekday_last::year] *)
Definition ymwdl_year (this : year_month_weekday_last) : year := ymwdl_y this.

(** [src: include/date/julian.h 2590-2590 year_month_weekday_last::month] *)
Definition ymwdl_month (this : year_month_weekday_last) : month := ymwdl_m this.

(** [src: include/date/julian.h 2592-2598 year_month_weekday_last::weekday] *)
Definition ymwdl_weekday (this : year_month_weekday_last) : weekday :=
  wdl_weekday (ymwdl_wdl this).

(** [src: include/date/julian.h 2600-2606 year_month_weekday_last::weekday_last] *)
Definition ymwdl_weekday_last (this : year_month_weekday_last) : weekday_last := ymwdl_wdl this.

(** [src: include/date/julian.h 2622-2628 year_month_weekday_last::ok] *)
Definition ymwdl_ok (this : year_month_weekday_last) : bool :=
  year_ok (ymwdl_y this) && month_ok (ymwdl_m this) && wdl_ok (ymwdl_wdl this).

(** [src: include/date/julian.h 2630-2637 year_month_weekday_last::to_days] *)
Definition ymwdl_to_days (this : year_month_weekday_last) : outcome days :=
  d ← ymdl_sys_days (ym_div_last (year_div_month (ymwdl_y this) (ymwdl_m this)) last);
  wd ← weekday_of_sys_days d;
  int_sub d (weekday_minus_weekday wd (wdl_weekday (ymwdl_wdl this))).

(** [src: include/date/julian.h 2608-2613 year_month_weekday_last::operator sys_days] *)
Definition ymwdl_sys_days (this : year_month_weekday_last) : outcome sys_days :=
  ymwdl_to_days this.

(** [src: include/date/julian.h 2615-2620 year_month_weekday_last::operator local_days] *)
Definition ymwdl_local_days (this : year_month_weekday_last) : outcome local_days :=
  ymwdl_to_days this.

(** [src: include/date/julian.h 2639-2646 operator==] *)
Definition ymwdl_eq (x y : year_month_weekday_last) : bool :=
  year_eq (ymwdl_year x) (ymwdl_year y) && month_eq (ymwdl_month x) (ymwdl_month y)
  && wdl_eq (ymwdl_weekday_last x) (ymwdl_weekday_last y).

(** [src: include/date/julian.h 2648-2654 operator!=] *)
Definition ymwdl_ne (x y : year_month_weekday_last) : bool := negb (ymwdl_eq x y).

(** [src: include/date/julian.h 3004-3010 operator/] *)
Definition ym_div_wdl (ym : year_month) (wdl : weekday_last) : year_month_weekday_last :=
  year_month_weekday_last_ctor (ym_year ym) (ym_month ym) wdl.

(** [src: include/date/julian.h 3012-3018 operator/] *)
Definition year_div_mwdl (y : year) (mwdl : month_weekday_last) : year_month_weekday_last :=
  year_month_weekday_last_ctor y (mwdl_month mwdl) (mwdl_weekday_last mwdl).

(** [src: include/date/julian.h 3020-3026 operator/] *)
Definition int_div_mwdl (y : Z) (mwdl : month_weekday_last) : year_month_weekday_last :=
  year_div_mwdl (year_ctor y) mwdl.

(** [src: include/date/julian.h 3028-3034 operator/] *)
Definition mwdl_div_year (mwdl : month_weekday_last) (y : year) : year_month_weekday_last :=
  year_div_mwdl y mwdl.

(** [src: include/date/julian.h 3036-3042 operator/] *)
Definition mwdl_div_int (mwdl : month_weekday_last) (y : Z) : year_month_weekday_last :=
  year_div_mwdl (year_ctor y) mwdl.

(** [src: include/date/julian.h 2664-2670 operator+] *)
Definition ymwdl_plus_months (ymwdl : year_month_weekday_last) (dm : months)
    : outcome year_month_weekday_last :=
  ym ← ym_plus_months (year_div_month (ymwdl_year ymwdl) (ymwdl_month ymwdl)) dm;
  Ret (ym_div_wdl ym (ymwdl_weekday_last ymwdl)).

(** [src: include/date/julian.h 2672-2678 operator+] *)
Definition months_plus_ymwdl (dm : months) (ymwdl : year_month_weekday_last)
    : outcome year_month_weekday_last := ymwdl_plus_months ymwdl dm.

(** [src: include/date/julian.h 2680-2686 operator-] *)
Definition ymwdl_minus_months (ymwdl : year_month_weekday_last) (dm : months)
    : outcome year_month_weekday_last := dm' ← duration_neg dm; ymwdl_plus_months ymwdl dm'.

(** [src: include/date/julian.h 2688-2694 operator+] *)
Definition ymwdl_plus_years (ymwdl : year_month_weekday_last) (dy : years)
    : outcome year_month_weekday_last :=
  y ← year_plus_years (ymwdl_year ymwdl) dy;
  Ret (year_month_weekday_last_ctor y (ymwdl_month ymwdl) (ymwdl_weekday_last ymwdl)).

(** [src: include/date/julian.h 2696-2702 operator+] *)
Definition years_plus_ymwdl (dy : years) (ymwdl : year_month_weekday_last)
    : outcome year_month_weekday_last := ymwdl_plus_years ymwdl dy.

(** [src: include/date/julian.h 2704-2710 operator-] *)
Definition ymwdl_minus_years (ymwdl : year_month_weekday_last) (dy : years)
    : outcome year_month_weekday_last := dy' ← duration_neg dy; ymwdl_plus_years ymwdl dy'.

(** [src: include/date/julian.h 2553-2560 year_month_weekday_last::operator+=] *)
Definition ymwdl_add_assign_months (this : year_month_weekday_last) (m : months) : outcome year_month_weekday_last := ymwdl_plus_months this m.

(** [src: include/date/julian.h 2562-2569 year_month_weekday_last::operator-=] *)
Definition ymwdl_sub_assign_months (this : year_month_weekday_last) (m : months) : outcome year_month_weekday_last := ymwdl_minus_months this m.

(** [src: include/date/julian.h 2571-2578 year_month_weekday_last::operator+=] *)
Definition ymwdl_add_assign_years (this : year_month_weekday_last) (y : years) : outcome year_month_weekday_last := ymwdl_plus_years this y.

(** [src: include/date/julian.h 2580-2587 year_month_weekday_last::operator-=] *)
Definition ymwdl_sub_assign_years (this : year_month_weekday_last) (y : years) : outcome year_month_weekday_last := ymwdl_minus_years this y.

(** * The stream operators [<<] of the classes of include/date/julian.h, on the output stream of DateFormat. *)

(** [src: include/date/julian.h 877-888 operator<<] *)
Definition put_day (d : day) : om unit := put_zeros 2 (day_unsigned d).

(** [src: include/date/julian.h 1002-1050 operator<<] *)
Definition put_month (m : month) : om unit :=
  match month_unsigned m with
  | 1 => put_text "Jan"
  | 2 => put_text "Feb"
  | 3 => put_text "Mar"
  | 4 => put_text "Apr"
  | 5 => put_text "May"
  | 6 => put_text "Jun"
  | 7 => put_text "Jul"
  | 8 => put_text "Aug"
  | 9 => put_text "Sep"
  | 10 => put_text "Oct"
  | 11 => put_text "Nov"
  | 12 => put_text "Dec"
  | _ => put_int (month_unsigned m);; put_text " is not a valid month"
  end.

(** [src: include/date/julian.h 1169-1180 operator<<] *)
Definition put_year (y : year) : om unit :=
  put_text (pad_number (if year_lt y (year_ctor 0) then 5 else 4) "0" true (year_int y)).

(** [src: include/date/julian.h 1294-1327 operator<<] *)
Definition put_weekday (wd : weekday) : om unit :=
  match weekday_unsigned wd with
  | 0 => put_text "Sun"
  | 1 => put_text "Mon"
  | 2 => put_text "Tue"
  | 3 => put_text "Wed"
  | 4 => put_text "Thu"
  | 5 => put_text "Fri"
  | 6 => put_text "Sat"
  | _ => put_int (weekday_unsigned wd);; put_text " is not a valid weekday"
  end.

(** [src: include/date/julian.h 1404-1410 operator<<] *)
Definition put_wdi (wdi : weekday_indexed) : om unit :=
  put_weekday (wdi_weekday wdi);; put_char "[";; put_int (wdi_index wdi);; put_char "]".

(** [src: include/date/julian.h 1458-1464 operator<<] *)
Definition put_wdl (wdl : weekday_last) : om unit :=
  put_weekday (wdl_weekday wdl);; put_text "[last]".

(** [src: include/date/julian.h 1633-1639 operator<<] *)
Definition put_ym (ym : year_month) : om unit :=
  put_year (ym_year ym);; put_char "/";; put_month (ym_month ym).

(** [src: include/date/julian.h 1713-1719 operator<<] *)
Definition put_md (md : month_day) : om unit :=
  put_month (md_month md);; put_char "/";; put_day (md_day md).

(** [src: include/date/julian.h 1775-1781 operator<<] *)
Definition put_mdl (mdl : month_day_last) : om unit :=
  put_month (mdl_month mdl);; put_text "/last".

(** [src: include/date/julian.h 1827-1833 operator<<] *)
Definition put_mwd (mwd : month_weekday) : om unit :=
  put_month (mwd_month mwd);; put_char "/";; put_wdi (mwd_weekday_indexed mwd).

(** [src: include/date/julian.h 1879-1885 operator<<] *)
Definition put_mwdl (mwdl : month_weekday_last) : om unit :=
  put_month (mwdl_month mwdl);; put_char "/";; put_wdl (mwdl_weekday_last mwdl).

(** [src: include/date/julian.h 2026-2032 operator<<] *)
Definition put_ymdl (ymdl : year_month_day_last) : om unit :=
  put_year (ymdl_year ymdl);; put_char "/";; put_mdl (ymdl_month_day_last ymdl).

(** [src: include/date/julian.h 2248-2261 operator<<] *)
Definition put_ymd (ymd : year_month_day) : om unit :=
  put_year (ymd_year ymd);; put_char "-";;
  put_zeros 2 (month_unsigned (ymd_month ymd));; put_char "-";;
  put_day (ymd_day ymd).

(** [src: include/date/julian.h 2484-2491 operator<<] *)
Definition put_ymwd (ymwdi : year_month_weekday) : om unit :=
  put_year (ymwd_year ymwdi);; put_char "/";; put_month (ymwd_month ymwdi);; put_char "/";;
  put_wdi (ymwd_weekday_indexed ymwdi).

(** [src: include/date/julian.h 2656-2662 operator<<] *)
Definition put_ymwdl (ymwdl : year_month_weekday_last) : om unit :=
  put_year (ymwdl_year ymwdl);; put_char "/";; put_month (ymwdl_month ymwdl);; put_char "/";;
  put_wdl (ymwdl_weekday_last ymwdl).
