(* ===== verification/IslamicUnits.v ===== *)
(** IslamicUnits: the single fields of a date of include/date/islamic.h, as DateUnits has them for date.h:
    the classes are of the same shape, but have no common code.

    In this header the constructor of [weekday] keeps a 7, every [year] is [ok()], and the weekday of a
    day is computed in [int], which can overflow. *)

From Stdlib Require Import ZArith Lia.
From stdpp Require Import base list.
From S2P Require Import Prelude Calendar.

(** ** Durations and time points *)

(** [src: include/date/islamic.h 37-37 days] *)
Definition days : Type := Z.
(** [src: include/date/islamic.h 39-39 weeks] *)
Definition weeks : Type := Z.
(** [src: include/date/islamic.h 41-42 years] *)
Definition years : Type := Z.
(** [src: include/date/islamic.h 44-45 months] *)
Definition months : Type := Z.
(** [src: include/date/islamic.h 49-49 sys_days] *)
Definition sys_days : Type := Z.
(** [src: include/date/islamic.h 50-50 local_days] *)
Definition local_days : Type := Z.
(** The tag of [last]. [src: include/date/islamic.h 54-57 last_spec] *)
Inductive last_spec : Type := last.

(** Unary minus of a duration: the minus of its [int]. *)
Definition duration_neg (d : Z) : outcome Z := int_neg d.

(** ** day *)

(** [src: include/date/islamic.h 167-184 day] *)
Record day : Type := MkDay { day_d : Z }.

#[export] Instance day_eq_dec : EqDecision day.
Proof. solve_decision. Defined.

(** [src: include/date/islamic.h 773-773 day::day] *)
Definition day_ctor (d : Z) : day := MkDay (u8 d).

(** [src: include/date/islamic.h 780-780 day::operator unsigned] *)
Definition day_unsigned (this : day) : Z := day_d this.

(** [src: include/date/islamic.h 781-781 day::ok] *)
Definition day_ok (this : day) : bool := (1 <=? day_d this) && (day_d this <=? 30).

(** [src: include/date/islamic.h 783-789 operator==] *)
Definition day_eq (x y : day) : bool :=
  day_unsigned x =? day_unsigned y.

(** [src: include/date/islamic.h 791-797 operator!=] *)
Definition day_ne (x y : day) : bool := negb (day_eq x y).

(** [src: include/date/islamic.h 799-805 operator<] *)
Definition day_lt (x y : day) : bool :=
  day_unsigned x <? day_unsigned y.

(** [src: include/date/islamic.h 807-813 operator>] *)
Definition day_gt (x y : day) : bool := day_lt y x.

(** [src: include/date/islamic.h 815-821 operator<=] *)
Definition day_le (x y : day) : bool := negb (day_lt y x).

(** [src: include/date/islamic.h 823-829 operator>=] *)
Definition day_ge (x y : day) : bool := negb (day_lt x y).

#[export] Instance day_relational : Relational day :=
  { rel_eq := day_eq; rel_ne := day_ne; rel_lt := day_lt; rel_gt := day_gt;
     rel_le := day_le; rel_ge := day_ge }.

(** [src: include/date/islamic.h 831-838 operator-] *)
Definition day_minus_day (x y : day) : days := i32 (uint_sub (day_unsigned x) (day_unsigned y)).

(** [src: include/date/islamic.h 840-846 operator+] *)
Definition day_plus_days (x : day) (y : days) : day :=
  day_ctor (uint_add (day_unsigned x) (u32 y)).

(** [src: include/date/islamic.h 848-854 operator+] *)
Definition days_plus_day (x : days) (y : day) : day := day_plus_days y x.

(** [src: include/date/islamic.h 856-862 operator-] *)
Definition day_minus_days (x : day) (y : days) : outcome day :=
  y' ← duration_neg y; Ret (day_plus_days x y').

(** [src: include/date/islamic.h 774-774 day::operator++] *)
Definition day_pre_inc (this : day) : day := MkDay (u8 (day_d this + 1)).

(** [src: include/date/islamic.h 775-775 day::operator++] *)
Definition day_post_inc (this : day) : day * day := (this, day_pre_inc this).

(** [src: include/date/islamic.h 776-776 day::operator--] *)
Definition day_pre_dec (this : day) : day := MkDay (u8 (day_d this - 1)).

(** [src: include/date/islamic.h 777-777 day::operator--] *)
Definition day_post_dec (this : day) : day * day := (this, day_pre_dec this).

(** [src: include/date/islamic.h 778-778 day::operator+=] *)
Definition day_add_assign (this : day) (d : days) : day := day_plus_days this d.

(** [src: include/date/islamic.h 779-779 day::operator-=] *)
Definition day_sub_assign (this : day) (d : days) : outcome day := day_minus_days this d.

(** [src: include/date/islamic.h 1339-1345 _d] *)
Definition day_literal (d : Z) : day := day_ctor (u32 d).

(** ** month *)

(** [src: include/date/islamic.h 204-221 month] *)
Record month : Type := MkMonth { month_m : Z }.

#[export] Instance month_eq_dec : EqDecision month.
Proof. solve_decision. Defined.

(** [src: include/date/islamic.h 879-879 month::month] *)
Definition month_ctor (m : Z) : month := MkMonth (u8 m).

(** [src: include/date/islamic.h 903-903 month::operator unsigned] *)
Definition month_unsigned (this : month) : Z := month_m this.

(** [src: include/date/islamic.h 904-904 month::ok] *)
Definition month_ok (this : month) : bool := (1 <=? month_m this) && (month_m this <=? 12).

(** [src: include/date/islamic.h 906-912 operator==] *)
Definition month_eq (x y : month) : bool :=
  month_unsigned x =? month_unsigned y.

(** [src: include/date/islamic.h 914-920 operator!=] *)
Definition month_ne (x y : month) : bool := negb (month_eq x y).

(** [src: include/date/islamic.h 922-928 operator<] *)
Definition month_lt (x y : month) : bool :=
  month_unsigned x <? month_unsigned y.

(** [src: include/date/islamic.h 930-936 operator>] *)
Definition month_gt (x y : month) : bool := month_lt y x.

(** [src: include/date/islamic.h 938-944 operator<=] *)
Definition month_le (x y : month) : bool := negb (month_lt y x).

(** [src: include/date/islamic.h 946-952 operator>=] *)
Definition month_ge (x y : month) : bool := negb (month_lt x y).

#[export] Instance month_relational : Relational month :=
  { rel_eq := month_eq; rel_ne := month_ne; rel_lt := month_lt; rel_gt := month_gt;
     rel_le := month_le; rel_ge := month_ge }.

(** The distance forward from [y] to [x] around the year.
    [src: include/date/islamic.h 954-961 operator-] *)
Definition month_minus_month (x y : month) : months :=
  let d := uint_sub (month_unsigned x) (month_unsigned y) in
  i32 (if d <=? 11 then d else uint_add d 12).

(** The sum is taken in [long long], where it cannot overflow.
    [src: include/date/islamic.h 963-971 operator+] *)
Definition month_plus_months (x : month) (y : months) : month :=
  let mu := month_unsigned x - 1 + y in
  let yr := c_div (if 0 <=? mu then mu else mu - 11) 12 in
  month_ctor (u32 (mu - yr * 12 + 1)).

(** [src: include/date/islamic.h 973-979 operator+] *)
Definition months_plus_month (x : months) (y : month) : month := month_plus_months y x.

(** [src: include/date/islamic.h 981-987 operator-] *)
Definition month_minus_months (x : month) (y : months) : outcome month :=
  y' ← duration_neg y; Ret (month_plus_months x y').

(** [src: include/date/islamic.h 885-892 month::operator+=] *)
Definition month_add_assign (this : month) (m : months) : month := month_plus_months this m.

(** [src: include/date/islamic.h 894-901 month::operator-=] *)
Definition month_sub_assign (this : month) (m : months) : outcome month := month_minus_months this m.

(** [src: include/date/islamic.h 880-880 month::operator++] *)
Definition month_pre_inc (this : month) : month :=
  let m := u8 (month_m this + 1) in MkMonth (if m =? 13 then 1 else m).

(** [src: include/date/islamic.h 881-881 month::operator++] *)
Definition month_post_inc (this : month) : month * month := (this, month_pre_inc this).

(** [src: include/date/islamic.h 882-882 month::operator--] *)
Definition month_pre_dec (this : month) : month :=
  let m := u8 (month_m this - 1) in MkMonth (if m =? 0 then 12 else m).

(** [src: include/date/islamic.h 883-883 month::operator--] *)
Definition month_post_dec (this : month) : month * month := (this, month_pre_dec this).

(** ** year *)

(** [src: include/date/islamic.h 241-263 year] *)
Record year : Type := MkYear { year_y : Z }.

#[export] Instance year_eq_dec : EqDecision year.
Proof. solve_decision. Defined.

(** [src: include/date/islamic.h 1041-1041 year::year] *)
Definition year_ctor (y : Z) : year := MkYear (i16 y).

(** [src: include/date/islamic.h 1079-1085 year::min] *)
Definition year_min : year := year_ctor (-32768).

(** [src: include/date/islamic.h 1087-1093 year::max] *)
Definition year_max : year := year_ctor 32767.

(** [src: include/date/islamic.h 1076-1076 year::operator int] *)
Definition year_int (this : year) : Z := year_y this.

(** [src: include/date/islamic.h 1077-1077 year::ok] *)
Definition year_ok (this : year) : bool := true.

(** The operands are [short]s, so that nothing overflows. [src: include/date/islamic.h 1049-1074 year::is_leap] *)
Definition year_is_leap (this : year) : bool :=
  let y := year_y this - 1 in
  let era := c_div (if 0 <=? y then y else y - 29) 30 in
  let yoe := u32 (y - era * 30) in
  existsb (Z.eqb yoe) [1; 4; 6; 9; 12; 15; 17; 20; 23; 25; 28].

(** [src: include/date/islamic.h 1042-1042 year::operator++] *)
Definition year_pre_inc (this : year) : year := MkYear (i16 (year_y this + 1)).

(** [src: include/date/islamic.h 1044-1044 year::operator--] *)
Definition year_pre_dec (this : year) : year := MkYear (i16 (year_y this - 1)).

(** [src: include/date/islamic.h 1043-1043 year::operator++] *)
Definition year_post_inc (this : year) : year * year := (this, year_pre_inc this).

(** [src: include/date/islamic.h 1045-1045 year::operator--] *)
Definition year_post_dec (this : year) : year * year := (this, year_pre_dec this).

(** [src: include/date/islamic.h 1095-1101 operator==] *)
Definition year_eq (x y : year) : bool :=
  year_int x =? year_int y.

(** [src: include/date/islamic.h 1103-1109 operator!=] *)
Definition year_ne (x y : year) : bool := negb (year_eq x y).

(** [src: include/date/islamic.h 1111-1117 operator<] *)
Definition year_lt (x y : year) : bool :=
  year_int x <? year_int y.

(** [src: include/date/islamic.h 1119-1125 operator>] *)
Definition year_gt (x y : year) : bool := year_lt y x.

(** [src: include/date/islamic.h 1127-1133 operator<=] *)
Definition year_le (x y : year) : bool := negb (year_lt y x).

(** [src: include/date/islamic.h 1135-1141 operator>=] *)
Definition year_ge (x y : year) : bool := negb (year_lt x y).

#[export] Instance year_relational : Relational year :=
  { rel_eq := year_eq; rel_ne := year_ne; rel_lt := year_lt; rel_gt := year_gt;
     rel_le := year_le; rel_ge := year_ge }.

(** [src: include/date/islamic.h 1143-1149 operator-] *)
Definition year_minus_year (x y : year) : years := year_int x - year_int y.

(** [src: include/date/islamic.h 1151-1157 operator+] *)
Definition year_plus_years (x : year) (y : years) : outcome year :=
  s ← int_add (year_int x) y; Ret (year_ctor s).

(** [src: include/date/islamic.h 1159-1165 operator+] *)
Definition years_plus_year (x : years) (y : year) : outcome year := year_plus_years y x.

(** [src: include/date/islamic.h 1167-1173 operator-] *)
Definition year_minus_years (x : year) (y : years) : outcome year :=
  s ← int_sub (year_int x) y; Ret (year_ctor s).

(** [src: include/date/islamic.h 1046-1046 year::operator+=] *)
Definition year_add_assign (this : year) (y : years) : outcome year := year_plus_years this y.

(** [src: include/date/islamic.h 1047-1047 year::operator-=] *)
Definition year_sub_assign (this : year) (y : years) : outcome year := year_minus_years this y.

(** [src: include/date/islamic.h 1347-1353 _y] *)
Definition year_literal (y : Z) : year := year_ctor (i32 y).

(** ** weekday *)

(** Sunday is 0.  [src: include/date/islamic.h 283-308 weekday] *)
Record weekday : Type := MkWeekday { weekday_wd : Z }.

#[export] Instance weekday_eq_dec : EqDecision weekday.
Proof. solve_decision. Defined.

(** [src: include/date/islamic.h 1190-1197 weekday::weekday_from_days] *)
Definition weekday_from_days (z : Z) : outcome Z :=
  w ← (if -4 <=? z then s ← int_add z 4; Ret (c_rem s 7)
       else s ← int_add z 5; int_add (c_rem s 7) 6);
  Ret (u8 (u32 w)).

(** [src: include/date/islamic.h 1199-1203 weekday::weekday] *)
Definition weekday_ctor (wd : Z) : weekday := MkWeekday (u8 wd).

(** [src: include/date/islamic.h 1205-1209 weekday::weekday] *)
Definition weekday_of_sys_days (dp : sys_days) : outcome weekday :=
  wd ← weekday_from_days dp; Ret (MkWeekday wd).

(** [src: include/date/islamic.h 1211-1215 weekday::weekday] *)
Definition weekday_of_local_days (dp : local_days) : outcome weekday :=
  wd ← weekday_from_days dp; Ret (MkWeekday wd).

(** [src: include/date/islamic.h 1247-1247 weekday::ok] *)
Definition weekday_ok (this : weekday) : bool := weekday_wd this <=? 6.

(** [src: include/date/islamic.h 1240-1245 weekday::operator unsigned] *)
Definition weekday_unsigned (this : weekday) : Z := weekday_wd this.

(** [src: include/date/islamic.h 1249-1255 operator==] *)
Definition weekday_eq (x y : weekday) : bool :=
  weekday_unsigned x =? weekday_unsigned y.

(** [src: include/date/islamic.h 1257-1263 operator!=] *)
Definition weekday_ne (x y : weekday) : bool := negb (weekday_eq x y).

(** The distance forward from [y] to [x] around the week.
    [src: include/date/islamic.h 1265-1272 operator-] *)
Definition weekday_minus_weekday (x y : weekday) : days :=
  let diff := uint_sub (weekday_unsigned x) (weekday_unsigned y) in
  i32 (if diff <=? 6 then diff else uint_add diff 7).

(** [src: include/date/islamic.h 1274-1282 operator+] *)
Definition weekday_plus_days (x : weekday) (y : days) : weekday :=
  let wdu := weekday_unsigned x + y in
  let wk := c_div (if 0 <=? wdu then wdu else wdu - 6) 7 in
  weekday_ctor (u32 (wdu - wk * 7)).

(** [src: include/date/islamic.h 1284-1290 operator+] *)
Definition days_plus_weekday (x : days) (y : weekday) : weekday := weekday_plus_days y x.

(** [src: include/date/islamic.h 1292-1298 operator-] *)
Definition weekday_minus_days (x : weekday) (y : days) : outcome weekday :=
  y' ← duration_neg y; Ret (weekday_plus_days x y').

(** [src: include/date/islamic.h 1222-1229 weekday::operator+=] *)
Definition weekday_add_assign (this : weekday) (d : days) : weekday := weekday_plus_days this d.

(** [src: include/date/islamic.h 1231-1238 weekday::operator-=] *)
Definition weekday_sub_assign (this : weekday) (d : days) : outcome weekday := weekday_minus_days this d.

(** [src: include/date/islamic.h 1217-1217 weekday::operator++] *)
Definition weekday_pre_inc (this : weekday) : weekday :=
  let wd := u8 (weekday_wd this + 1) in MkWeekday (if wd =? 7 then 0 else wd).

(** [src: include/date/islamic.h 1218-1218 weekday::operator++] *)
Definition weekday_post_inc (this : weekday) : weekday * weekday := (this, weekday_pre_inc this).

(** [src: include/date/islamic.h 1219-1219 weekday::operator--] *)
Definition weekday_pre_dec (this : weekday) : weekday :=
  MkWeekday (if weekday_wd this =? 0 then 6 else u8 (weekday_wd this - 1)).

(** [src: include/date/islamic.h 1220-1220 weekday::operator--] *)
Definition weekday_post_dec (this : weekday) : weekday * weekday := (this, weekday_pre_dec this).

(** ** weekday_indexed and weekday_last *)

(** Two bit fields of four bits.  [src: include/date/islamic.h 324-335 weekday_indexed] *)
Record weekday_indexed : Type := MkWeekdayIndexed { wdi_wd : Z; wdi_index_ : Z }.

#[export] Instance weekday_indexed_eq_dec : EqDecision weekday_indexed.
Proof. solve_decision. Defined.

(** [src: include/date/islamic.h 1382-1387 weekday_indexed::weekday_indexed] *)
Definition weekday_indexed_ctor (wd : weekday) (index : Z) : weekday_indexed :=
  MkWeekdayIndexed (uwrap 4 (u8 (weekday_wd wd))) (uwrap 4 (u8 index)).

(** [src: include/date/islamic.h 1364-1370 weekday_indexed::weekday] *)
Definition wdi_weekday (this : weekday_indexed) : weekday := weekday_ctor (wdi_wd this).

(** [src: include/date/islamic.h 1372-1372 weekday_indexed::index] *)
Definition wdi_index (this : weekday_indexed) : Z := wdi_index_ this.

(** [src: include/date/islamic.h 1374-1380 weekday_indexed::ok] *)
Definition wdi_ok (this : weekday_indexed) : bool :=
  weekday_ok (wdi_weekday this) && (1 <=? wdi_index_ this) && (wdi_index_ this <=? 5).

(** [src: include/date/islamic.h 1397-1403 weekday::operator[](unsigned)] *)
Definition weekday_at (this : weekday) (index : Z) : weekday_indexed :=
  weekday_indexed_ctor this index.

(** [src: include/date/islamic.h 1405-1411 operator==] *)
Definition wdi_eq (x y : weekday_indexed) : bool :=
  weekday_eq (wdi_weekday x) (wdi_weekday y) && (wdi_index x =? wdi_index y).

(** [src: include/date/islamic.h 1413-1419 operator!=] *)
Definition wdi_ne (x y : weekday_indexed) : bool := negb (wdi_eq x y).

(** [src: include/date/islamic.h 346-355 weekday_last] *)
Record weekday_last : Type := MkWeekdayLast { wdl_wd : weekday }.

#[export] Instance weekday_last_eq_dec : EqDecision weekday_last.
Proof. solve_decision. Defined.

(** [src: include/date/islamic.h 1425-1425 weekday_last::weekday_last] *)
Definition weekday_last_ctor (wd : weekday) : weekday_last := MkWeekdayLast wd.

(** [src: include/date/islamic.h 1423-1423 weekday_last::weekday] *)
Definition wdl_weekday (this : weekday_last) : weekday := wdl_wd this.

(** [src: include/date/islamic.h 1424-1424 weekday_last::ok] *)
Definition wdl_ok (this : weekday_last) : bool := weekday_ok (wdl_wd this).

(** [src: include/date/islamic.h 1451-1457 weekday::operator[](last_spec)] *)
Definition weekday_at_last (this : weekday) (_ : last_spec) : weekday_last :=
  weekday_last_ctor this.

(** [src: include/date/islamic.h 1427-1433 operator==] *)
Definition wdl_eq (x y : weekday_last) : bool :=
  weekday_eq (wdl_weekday x) (wdl_weekday y).

(** [src: include/date/islamic.h 1435-1441 operator!=] *)
Definition wdl_ne (x y : weekday_last) : bool := negb (wdl_eq x y).
