(* ===== verification/IslamicFields.v ===== *)
(** IslamicFields: the pairs of fields of include/date/islamic.h, [year_month], [month_day],
    [month_day_last], [month_weekday] and [month_weekday_last], and the [operator/]s that
    build them. *)

From Stdlib Require Import ZArith Lia.
From stdpp Require Import base list.
From S2P Require Import Prelude Memory Calendar IslamicUnits.

(** ** year_month *)

(** [src: include/date/islamic.h 366-383 year_month] *)
Record year_month : Type := MkYearMonth { ym_y : year; ym_m : month }.

#[export] Instance year_month_eq_dec : EqDecision year_month.
Proof. solve_decision. Defined.

(** [src: include/date/islamic.h 1461-1466 year_month::year_month] *)
Definition year_month_ctor (y : year) (m : month) : year_month := MkYearMonth y m.

(** [src: include/date/islamic.h 1468-1468 year_month::year] *)
Definition ym_year (this : year_month) : year := ym_y this.

(** [src: include/date/islamic.h 1469-1469 year_month::month] *)
Definition ym_month (this : year_month) : month := ym_m this.

(** [src: include/date/islamic.h 1470-1470 year_month::ok] *)
Definition ym_ok (this : year_month) : bool := year_ok (ym_y this) && month_ok (ym_m this).

(** [src: include/date/islamic.h 2699-2705 operator/] *)
Definition year_div_month (y : year) (m : month) : year_month := year_month_ctor y m.

(** [src: include/date/islamic.h 2707-2713 operator/] *)
Definition year_div_int (y : year) (m : Z) : year_month := year_div_month y (month_ctor (u32 m)).

(** [src: include/date/islamic.h 1508-1514 operator==] *)
Definition ym_eq (x y : year_month) : bool :=
  year_eq (ym_year x) (ym_year y) && month_eq (ym_month x) (ym_month y).

(** [src: include/date/islamic.h 1516-1522 operator!=] *)
Definition ym_ne (x y : year_month) : bool := negb (ym_eq x y).

(** [src: include/date/islamic.h 1524-1532 operator<] *)
Definition ym_lt (x y : year_month) : bool :=
  if year_lt (ym_year x) (ym_year y) then true
  else if year_gt (ym_year x) (ym_year y) then false
  else month_lt (ym_month x) (ym_month y).

(** [src: include/date/islamic.h 1534-1540 operator>] *)
Definition ym_gt (x y : year_month) : bool := ym_lt y x.

(** [src: include/date/islamic.h 1542-1548 operator<=] *)
Definition ym_le (x y : year_month) : bool := negb (ym_lt y x).

(** [src: include/date/islamic.h 1550-1556 operator>=] *)
Definition ym_ge (x y : year_month) : bool := negb (ym_lt x y).

#[export] Instance ym_relational : Relational year_month :=
  { rel_eq := ym_eq; rel_ne := ym_ne; rel_lt := ym_lt; rel_gt := ym_gt;
     rel_le := ym_le; rel_ge := ym_ge }.

(** [src: include/date/islamic.h 1558-1567 operator+] *)
Definition ym_plus_months (ym : year_month) (dm : months) : outcome year_month :=
  dmi ← int_add (i32 (month_unsigned (ym_month ym)) - 1) dm;
  n ← (if 0 <=? dmi then Ret dmi else int_sub dmi 11);
  let dy := c_div n 12 in
  dy12 ← int_mul dy 12;
  r ← int_sub dmi dy12;
  dmi' ← int_add r 1;
  y ← year_plus_years (ym_year ym) dy;
  Ret (year_div_month y (month_ctor (u32 dmi'))).

(** [src: include/date/islamic.h 1569-1575 operator+] *)
Definition months_plus_ym (dm : months) (ym : year_month) : outcome year_month :=
  ym_plus_months ym dm.

(** [src: include/date/islamic.h 1577-1583 operator-] *)
Definition ym_minus_months (ym : year_month) (dm : months) : outcome year_month :=
  dm' ← duration_neg dm; ym_plus_months ym dm'.

(** The years are converted to months, twelve each, before the sum.
    [src: include/date/islamic.h 1585-1592 operator-] *)
Definition ym_minus_ym (x y : year_month) : outcome months :=
  int_add (i32 (year_minus_year (ym_year x) (ym_year y) * 12))
    (i32 (uint_sub (month_unsigned (ym_month x)) (month_unsigned (ym_month y)))).

(** [src: include/date/islamic.h 1594-1600 operator+] *)
Definition ym_plus_years (ym : year_month) (dy : years) : outcome year_month :=
  y ← year_plus_years (ym_year ym) dy; Ret (year_div_month y (ym_month ym)).

(** [src: include/date/islamic.h 1602-1608 operator+] *)
Definition years_plus_ym (dy : years) (ym : year_month) : outcome year_month :=
  ym_plus_years ym dy.

(** [src: include/date/islamic.h 1610-1616 operator-] *)
Definition ym_minus_years (ym : year_month) (dy : years) : outcome year_month :=
  dy' ← duration_neg dy; ym_plus_years ym dy'.

(** [src: include/date/islamic.h 1472-1479 year_month::operator+=] *)
Definition ym_add_assign_months (this : year_month) (dm : months) : outcome year_month := ym_plus_months this dm.

(** [src: include/date/islamic.h 1481-1488 year_month::operator-=] *)
Definition ym_sub_assign_months (this : year_month) (dm : months) : outcome year_month := ym_minus_months this dm.

(** [src: include/date/islamic.h 1490-1497 year_month::operator+=] *)
Definition ym_add_assign_years (this : year_month) (dy : years) : outcome year_month := ym_plus_years this dy.

(** [src: include/date/islamic.h 1499-1506 year_month::operator-=] *)
Definition ym_sub_assign_years (this : year_month) (dy : years) : outcome year_month := ym_minus_years this dy.

(** ** month_day *)

(** [src: include/date/islamic.h 407-419 month_day] *)
Record month_day : Type := MkMonthDay { md_m : month; md_d : day }.

#[export] Instance month_day_eq_dec : EqDecision month_day.
Proof. solve_decision. Defined.

(** [src: include/date/islamic.h 1628-1633 month_day::month_day] *)
Definition month_day_ctor (m : month) (d : day) : month_day := MkMonthDay m d.

(** [src: include/date/islamic.h 1635-1635 month_day::month] *)
Definition md_month (this : month_day) : month := md_m this.

(** [src: include/date/islamic.h 1636-1636 month_day::day] *)
Definition md_day (this : month_day) : day := md_d this.

(** The greatest length of each month. [src: include/date/islamic.h 1643-1644 month_day::ok] *)
Definition month_day_ok_d : list day :=
  [day_ctor 30; day_ctor 29; day_ctor 30;
   day_ctor 29; day_ctor 30; day_ctor 29;
   day_ctor 30; day_ctor 29; day_ctor 30;
   day_ctor 29; day_ctor 30; day_ctor 30].

(** The table is read only when the first two tests hold.
    [src: include/date/islamic.h 1638-1646 month_day::ok] *)
Definition md_ok (this : month_day) : outcome bool :=
  if month_ok (md_m this) && day_le (day_ctor 1) (md_d this) then
    last_day ← arr_get month_day_ok_d (uint_sub (month_unsigned (md_m this)) 1);
    Ret (day_le (md_d this) last_day)
  else Ret false.

(** [src: include/date/islamic.h 1648-1654 operator==] *)
Definition md_eq (x y : month_day) : bool :=
  month_eq (md_month x) (md_month y) && day_eq (md_day x) (md_day y).

(** [src: include/date/islamic.h 1656-1662 operator!=] *)
Definition md_ne (x y : month_day) : bool := negb (md_eq x y).

(** [src: include/date/islamic.h 1664-1672 operator<] *)
Definition md_lt (x y : month_day) : bool :=
  if month_lt (md_month x) (md_month y) then true
  else if month_gt (md_month x) (md_month y) then false
  else day_lt (md_day x) (md_day y).

(** [src: include/date/islamic.h 1674-1680 operator>] *)
Definition md_gt (x y : month_day) : bool := md_lt y x.

(** [src: include/date/islamic.h 1682-1688 operator<=] *)
Definition md_le (x y : month_day) : bool := negb (md_lt y x).

(** [src: include/date/islamic.h 1690-1696 operator>=] *)
Definition md_ge (x y : month_day) : bool := negb (md_lt x y).

#[export] Instance md_relational : Relational month_day :=
  { rel_eq := md_eq; rel_ne := md_ne; rel_lt := md_lt; rel_gt := md_gt;
     rel_le := md_le; rel_ge := md_ge }.

(** [src: include/date/islamic.h 2717-2723 operator/] *)
Definition month_div_day (m : month) (d : day) : month_day := month_day_ctor m d.

(** [src: include/date/islamic.h 2725-2731 operator/] *)
Definition day_div_month (d : day) (m : month) : month_day := month_div_day m d.

(** [src: include/date/islamic.h 2733-2739 operator/] *)
Definition month_div_int (m : month) (d : Z) : month_day := month_div_day m (day_ctor (u32 d)).

(** [src: include/date/islamic.h 2741-2747 operator/] *)
Definition int_div_day (m : Z) (d : day) : month_day := month_div_day (month_ctor (u32 m)) d.

(** [src: include/date/islamic.h 2749-2749 operator/] *)
Definition day_div_int (d : day) (m : Z) : month_day := int_div_day m d.

(** ** month_day_last *)

(** [src: include/date/islamic.h 434-443 month_day_last] *)
Record month_day_last : Type := MkMonthDayLast { mdl_m : month }.

#[export] Instance month_day_last_eq_dec : EqDecision month_day_last.
Proof. solve_decision. Defined.

(** [src: include/date/islamic.h 1710-1710 month_day_last::month_day_last] *)
Definition month_day_last_ctor (m : month) : month_day_last := MkMonthDayLast m.

(** [src: include/date/islamic.h 1708-1708 month_day_last::month] *)
Definition mdl_month (this : month_day_last) : month := mdl_m this.

(** [src: include/date/islamic.h 1709-1709 month_day_last::ok] *)
Definition mdl_ok (this : month_day_last) : bool := month_ok (mdl_m this).

(** [src: include/date/islamic.h 1712-1718 operator==] *)
Definition mdl_eq (x y : month_day_last) : bool :=
  month_eq (mdl_month x) (mdl_month y).

(** [src: include/date/islamic.h 1720-1726 operator!=] *)
Definition mdl_ne (x y : month_day_last) : bool := negb (mdl_eq x y).

(** [src: include/date/islamic.h 1728-1734 operator<] *)
Definition mdl_lt (x y : month_day_last) : bool :=
  month_lt (mdl_month x) (mdl_month y).

(** [src: include/date/islamic.h 1736-1742 operator>] *)
Definition mdl_gt (x y : month_day_last) : bool := mdl_lt y x.

(** [src: include/date/islamic.h 1744-1750 operator<=] *)
Definition mdl_le (x y : month_day_last) : bool := negb (mdl_lt y x).

(** [src: include/date/islamic.h 1752-1758 operator>=] *)
Definition mdl_ge (x y : month_day_last) : bool := negb (mdl_lt x y).

#[export] Instance mdl_relational : Relational month_day_last :=
  { rel_eq := mdl_eq; rel_ne := mdl_ne; rel_lt := mdl_lt; rel_gt := mdl_gt;
     rel_le := mdl_le; rel_ge := mdl_ge }.

(** [src: include/date/islamic.h 2753-2759 operator/] *)
Definition month_div_last (m : month) (_ : last_spec) : month_day_last := month_day_last_ctor m.

(** [src: include/date/islamic.h 2761-2767 operator/] *)
Definition last_div_month (_ : last_spec) (m : month) : month_day_last := month_div_last m last.

(** [src: include/date/islamic.h 2769-2775 operator/] *)
Definition int_div_last (m : Z) (_ : last_spec) : month_day_last :=
  month_div_last (month_ctor (u32 m)) last.

(** [src: include/date/islamic.h 2777-2783 operator/] *)
Definition last_div_int (_ : last_spec) (m : Z) : month_day_last := int_div_last m last.

(** ** month_weekday *)

(** [src: include/date/islamic.h 458-470 month_weekday] *)
Record month_weekday : Type := MkMonthWeekday { mwd_m : month; mwd_wdi : weekday_indexed }.

(** [src: include/date/islamic.h 1770-1776 month_weekday::month_weekday] *)
Definition month_weekday_ctor (m : month) (wdi : weekday_indexed) : month_weekday :=
  MkMonthWeekday m wdi.

(** [src: include/date/islamic.h 1778-1778 month_weekday::month] *)
Definition mwd_month (this : month_weekday) : month := mwd_m this.

(** [src: include/date/islamic.h 1780-1786 month_weekday::weekday_indexed] *)
Definition mwd_weekday_indexed (this : month_weekday) : weekday_indexed := mwd_wdi this.

(** [src: include/date/islamic.h 1788-1794 month_weekday::ok] *)
Definition mwd_ok (this : month_weekday) : bool := month_ok (mwd_m this) && wdi_ok (mwd_wdi this).

(** [src: include/date/islamic.h 1796-1802 operator==] *)
Definition mwd_eq (x y : month_weekday) : bool :=
  month_eq (mwd_month x) (mwd_month y)
  && wdi_eq (mwd_weekday_indexed x) (mwd_weekday_indexed y).

(** [src: include/date/islamic.h 1804-1810 operator!=] *)
Definition mwd_ne (x y : month_weekday) : bool := negb (mwd_eq x y).

(** [src: include/date/islamic.h 2787-2793 operator/] *)
Definition month_div_wdi (m : month) (wdi : weekday_indexed) : month_weekday :=
  month_weekday_ctor m wdi.

(** [src: include/date/islamic.h 2795-2801 operator/] *)
Definition wdi_div_month (wdi : weekday_indexed) (m : month) : month_weekday :=
  month_div_wdi m wdi.

(** [src: include/date/islamic.h 2803-2809 operator/] *)
Definition int_div_wdi (m : Z) (wdi : weekday_indexed) : month_weekday :=
  month_div_wdi (month_ctor (u32 m)) wdi.

(** [src: include/date/islamic.h 2811-2817 operator/] *)
Definition wdi_div_int (wdi : weekday_indexed) (m : Z) : month_weekday := int_div_wdi m wdi.

(** ** month_weekday_last *)

(** [src: include/date/islamic.h 481-494 month_weekday_last] *)
Record month_weekday_last : Type :=
  MkMonthWeekdayLast { mwdl_m : month; mwdl_wdl : weekday_last }.

(** [src: include/date/islamic.h 1822-1828 month_weekday_last::month_weekday_last] *)
Definition month_weekday_last_ctor (m : month) (wdl : weekday_last) : month_weekday_last :=
  MkMonthWeekdayLast m wdl.

(** [src: include/date/islamic.h 1830-1830 month_weekday_last::month] *)
Definition mwdl_month (this : month_weekday_last) : month := mwdl_m this.

(** [src: include/date/islamic.h 1832-1838 month_weekday_last::weekday_last] *)
Definition mwdl_weekday_last (this : month_weekday_last) : weekday_last := mwdl_wdl this.

(** [src: include/date/islamic.h 1840-1846 month_weekday_last::ok] *)
Definition mwdl_ok (this : month_weekday_last) : bool :=
  month_ok (mwdl_m this) && wdl_ok (mwdl_wdl this).

(** [src: include/date/islamic.h 1848-1854 operator==] *)
Definition mwdl_eq (x y : month_weekday_last) : bool :=
  month_eq (mwdl_month x) (mwdl_month y)
  && wdl_eq (mwdl_weekday_last x) (mwdl_weekday_last y).

(** [src: include/date/islamic.h 1856-1862 operator!=] *)
Definition mwdl_ne (x y : month_weekday_last) : bool := negb (mwdl_eq x y).

(** [src: include/date/islamic.h 2821-2827 operator/] *)
Definition month_div_wdl (m : month) (wdl : weekday_last) : month_weekday_last :=
  month_weekday_last_ctor m wdl.

(** [src: include/date/islamic.h 2829-2835 operator/] *)
Definition wdl_div_month (wdl : weekday_last) (m : month) : month_weekday_last :=
  month_div_wdl m wdl.

(** [src: include/date/islamic.h 2837-2843 operator/] *)
Definition int_div_wdl (m : Z) (wdl : weekday_last) : month_weekday_last :=
  month_div_wdl (month_ctor (u32 m)) wdl.

(** [src: include/date/islamic.h 2845-2851 operator/] *)
Definition wdl_div_int (wdl : weekday_last) (m : Z) : month_weekday_last := int_div_wdl m wdl.
