(* ===== verification/IslamicYmd.v ===== *)
(** IslamicYmd: [year_month_day_last] and [year_month_day] of include/date/islamic.h, the conversions
    between a civil date and its serial day number, and the arithmetic of months and years.

    [ymd_to_days] and [ymd_from_days] are the two conversion algorithms, statement by statement:
    an operation on [int]s is checked ([int_add] and the like), one on [unsigned]s wraps
    ([uint_add] and the like). *)

From Stdlib Require Import ZArith Lia.
From stdpp Require Import base list.
From S2P Require Import Prelude Memory Calendar IslamicUnits IslamicFields.

(** ** year_month_day_last *)

(** [src: include/date/islamic.h 559-581 year_month_day_last] *)
Record year_month_day_last : Type :=
  MkYearMonthDayLast { ymdl_y : year; ymdl_mdl : month_day_last }.

#[export] Instance year_month_day_last_eq_dec : EqDecision year_month_day_last.
Proof. solve_decision. Defined.

(** [src: include/date/islamic.h 1874-1880 year_month_day_last::year_month_day_last] *)
Definition year_month_day_last_ctor (y : year) (mdl : month_day_last) : year_month_day_last :=
  MkYearMonthDayLast y mdl.

(** [src: include/date/islamic.h 1918-1918 year_month_day_last::year] *)
Definition ymdl_year (this : year_month_day_last) : year := ymdl_y this.

(** [src: include/date/islamic.h 1919-1919 year_month_day_last::month] *)
Definition ymdl_month (this : year_month_day_last) : month := mdl_month (ymdl_mdl this).

(** [src: include/date/islamic.h 1921-1927 year_month_day_last::month_day_last] *)
Definition ymdl_month_day_last (this : year_month_day_last) : month_day_last := ymdl_mdl this.

(** [src: include/date/islamic.h 1954-1960 year_month_day_last::ok] *)
Definition ymdl_ok (this : year_month_day_last) : bool :=
  year_ok (ymdl_y this) && mdl_ok (ymdl_mdl this).

(** The length of each month of a common year.
    [src: include/date/islamic.h 1934-1935 year_month_day_last::day] *)
Definition ymdl_day_d : list day :=
  [day_ctor 30; day_ctor 29; day_ctor 30;
   day_ctor 29; day_ctor 30; day_ctor 29;
   day_ctor 30; day_ctor 29; day_ctor 30;
   day_ctor 29; day_ctor 30; day_ctor 29].

(** The table is read whatever the month is.  [src: include/date/islamic.h 1929-1938 year_month_day_last::day] *)
Definition ymdl_day (this : year_month_day_last) : outcome day :=
  if month_ne (ymdl_month this) (month_ctor 12) || negb (year_is_leap (ymdl_y this))
  then arr_get ymdl_day_d (uint_sub (month_unsigned (ymdl_month this)) 1)
  else Ret (day_ctor 30).

(** [src: include/date/islamic.h 1962-1968 operator==] *)
Definition ymdl_eq (x y : year_month_day_last) : bool :=
  year_eq (ymdl_year x) (ymdl_year y)
  && mdl_eq (ymdl_month_day_last x) (ymdl_month_day_last y).

(** [src: include/date/islamic.h 1970-1976 operator!=] *)
Definition ymdl_ne (x y : year_month_day_last) : bool := negb (ymdl_eq x y).

(** [src: include/date/islamic.h 1978-1986 operator<] *)
Definition ymdl_lt (x y : year_month_day_last) : bool :=
  if year_lt (ymdl_year x) (ymdl_year y) then true
  else if year_gt (ymdl_year x) (ymdl_year y) then false
  else mdl_lt (ymdl_month_day_last x) (ymdl_month_day_last y).

(** [src: include/date/islamic.h 1988-1994 operator>] *)
Definition ymdl_gt (x y : year_month_day_last) : bool := ymdl_lt y x.

(** [src: include/date/islamic.h 1996-2002 operator<=] *)
Definition ymdl_le (x y : year_month_day_last) : bool := negb (ymdl_lt y x).

(** [src: include/date/islamic.h 2004-2010 operator>=] *)
Definition ymdl_ge (x y : year_month_day_last) : bool := negb (ymdl_lt x y).

#[export] Instance ymdl_relational : Relational year_month_day_last :=
  { rel_eq := ymdl_eq; rel_ne := ymdl_ne; rel_lt := ymdl_lt; rel_gt := ymdl_gt;
     rel_le := ymdl_le; rel_ge := ymdl_ge }.

(** [src: include/date/islamic.h 2905-2911 operator/] *)
Definition ym_div_last (ym : year_month) (_ : last_spec) : year_month_day_last :=
  year_month_day_last_ctor (ym_year ym) (month_day_last_ctor (ym_month ym)).

(** [src: include/date/islamic.h 2913-2919 operator/] *)
Definition year_div_mdl (y : year) (mdl : month_day_last) : year_month_day_last :=
  year_month_day_last_ctor y mdl.

(** [src: include/date/islamic.h 2921-2927 operator/] *)
Definition int_div_mdl (y : Z) (mdl : month_day_last) : year_month_day_last :=
  year_div_mdl (year_ctor y) mdl.

(** [src: include/date/islamic.h 2929-2935 operator/] *)
Definition mdl_div_year (mdl : month_day_last) (y : year) : year_month_day_last :=
  year_div_mdl y mdl.

(** [src: include/date/islamic.h 2937-2943 operator/] *)
Definition mdl_div_int (mdl : month_day_last) (y : Z) : year_month_day_last :=
  year_div_mdl (year_ctor y) mdl.

(** [src: include/date/islamic.h 2020-2026 operator+] *)
Definition ymdl_plus_months (ymdl : year_month_day_last) (dm : months)
    : outcome year_month_day_last :=
  ym ← ym_plus_months (year_div_month (ymdl_year ymdl) (ymdl_month ymdl)) dm;
  Ret (ym_div_last ym last).

(** [src: include/date/islamic.h 2028-2034 operator+] *)
Definition months_plus_ymdl (dm : months) (ymdl : year_month_day_last)
    : outcome year_month_day_last := ymdl_plus_months ymdl dm.

(** [src: include/date/islamic.h 2036-2042 operator-] *)
Definition ymdl_minus_months (ymdl : year_month_day_last) (dm : months)
    : outcome year_month_day_last := dm' ← duration_neg dm; ymdl_plus_months ymdl dm'.

(** [src: include/date/islamic.h 2044-2050 operator+] *)
Definition ymdl_plus_years (ymdl : year_month_day_last) (dy : years)
    : outcome year_month_day_last :=
  y ← year_plus_years (ymdl_year ymdl) dy;
  Ret (year_month_day_last_ctor y (ymdl_month_day_last ymdl)).

(** [src: include/date/islamic.h 2052-2058 operator+] *)
Definition years_plus_ymdl (dy : years) (ymdl : year_month_day_last)
    : outcome year_month_day_last := ymdl_plus_years ymdl dy.

(** [src: include/date/islamic.h 2060-2066 operator-] *)
Definition ymdl_minus_years (ymdl : year_month_day_last) (dy : years)
    : outcome year_month_day_last := dy' ← duration_neg dy; ymdl_plus_years ymdl dy'.

(** [src: include/date/islamic.h 1882-1889 year_month_day_last::operator+=] *)
Definition ymdl_add_assign_months (this : year_month_day_last) (m : months) : outcome year_month_day_last := ymdl_plus_months this m.

(** [src: include/date/islamic.h 1891-1898 year_month_day_last::operator-=] *)
Definition ymdl_sub_assign_months (this : year_month_day_last) (m : months) : outcome year_month_day_last := ymdl_minus_months this m.

(** [src: include/date/islamic.h 1900-1907 year_month_day_last::operator+=] *)
Definition ymdl_add_assign_years (this : year_month_day_last) (y : years) : outcome year_month_day_last := ymdl_plus_years this y.

(** [src: include/date/islamic.h 1909-1916 year_month_day_last::operator-=] *)
Definition ymdl_sub_assign_years (this : year_month_day_last) (y : years) : outcome year_month_day_last := ymdl_minus_years this y.

(** ** year_month_day *)

(** [src: include/date/islamic.h 507-537 year_month_day] *)
Record year_month_day : Type := MkYearMonthDay { ymd_y : year; ymd_m : month; ymd_d : day }.

#[export] Instance year_month_day_eq_dec : EqDecision year_month_day.
Proof. solve_decision. Defined.

(** [src: include/date/islamic.h 2070-2077 year_month_day::year_month_day] *)
Definition year_month_day_ctor (y : year) (m : month) (d : day) : year_month_day :=
  MkYearMonthDay y m d.

(** [src: include/date/islamic.h 2079-2085 year_month_day::year_month_day] *)
Definition ymd_of_ymdl (ymdl : year_month_day_last) : outcome year_month_day :=
  d ← ymdl_day ymdl; Ret (MkYearMonthDay (ymdl_year ymdl) (ymdl_month ymdl) d).

(** [src: include/date/islamic.h 2099-2099 year_month_day::year] *)
Definition ymd_year (this : year_month_day) : year := ymd_y this.

(** [src: include/date/islamic.h 2100-2100 year_month_day::month] *)
Definition ymd_month (this : year_month_day) : month := ymd_m this.

(** [src: include/date/islamic.h 2101-2101 year_month_day::day] *)
Definition ymd_day (this : year_month_day) : day := ymd_d this.

(** [src: include/date/islamic.h 2172-2180 year_month_day::ok] *)
Definition ymd_ok (this : year_month_day) : outcome bool :=
  if negb (year_ok (ymd_y this) && month_ok (ymd_m this)) then Ret false
  else if day_le (day_ctor 1) (ymd_d this) then
    last_day ← ymdl_day (ym_div_last (year_div_month (ymd_y this) (ymd_m this)) last);
    Ret (day_le (ymd_d this) last_day)
  else Ret false.

(** [src: include/date/islamic.h 2182-2188 operator==] *)
Definition ymd_eq (x y : year_month_day) : bool :=
  year_eq (ymd_year x) (ymd_year y) && month_eq (ymd_month x) (ymd_month y)
  && day_eq (ymd_day x) (ymd_day y).

(** [src: include/date/islamic.h 2190-2196 operator!=] *)
Definition ymd_ne (x y : year_month_day) : bool := negb (ymd_eq x y).

(** [src: include/date/islamic.h 2198-2208 operator<] *)
Definition ymd_lt (x y : year_month_day) : bool :=
  if year_lt (ymd_year x) (ymd_year y) then true
  else if year_gt (ymd_year x) (ymd_year y) then false
  else if month_lt (ymd_month x) (ymd_month y) then true
  else if month_gt (ymd_month x) (ymd_month y) then false
  else day_lt (ymd_day x) (ymd_day y).

(** [src: include/date/islamic.h 2210-2216 operator>] *)
Definition ymd_gt (x y : year_month_day) : bool := ymd_lt y x.

(** [src: include/date/islamic.h 2218-2224 operator<=] *)
Definition ymd_le (x y : year_month_day) : bool := negb (ymd_lt y x).

(** [src: include/date/islamic.h 2226-2232 operator>=] *)
Definition ymd_ge (x y : year_month_day) : bool := negb (ymd_lt x y).

#[export] Instance ymd_relational : Relational year_month_day :=
  { rel_eq := ymd_eq; rel_ne := ymd_ne; rel_lt := ymd_lt; rel_gt := ymd_gt;
     rel_le := ymd_le; rel_ge := ymd_ge }.

(** *** The serial day number *)

(** [src: include/date/islamic.h 2139-2156 year_month_day::to_days] *)
Definition ymd_to_days (this : year_month_day) : outcome days :=
  y ← int_sub (year_int (ymd_y this)) 1;
  let m := month_unsigned (ymd_m this) in
  let d := day_unsigned (ymd_d this) in
  n ← (if 0 <=? y then Ret y else int_sub y 29);
  let era := c_div n 30 in
  era30 ← int_mul era 30;
  r ← int_sub y era30;
  let yoe := u32 r in
  let doy := uint_sub (uint_add (uint_add (uint_mul 29 (uint_sub m 1)) (m / 2)) d) 1 in
  let doe := uint_add (uint_add (uint_mul yoe 354)
                                (uint_add (uint_mul 11 (uint_add yoe 1)) 3 / 30)) doy in
  a ← int_mul era 10631;
  b ← int_add a (i32 doe);
  int_sub b 492148.

(** [src: include/date/islamic.h 2249-2267 year_month_day::from_days] *)
Definition ymd_from_days (dp : days) : outcome year_month_day :=
  z ← int_add dp 492148;
  n ← (if 0 <=? z then Ret z else int_sub z 10630);
  let era := c_div n 10631 in
  e ← int_mul era 10631;
  r ← int_sub z e;
  let doe := u32 r in
  let yoe := uint_sub (uint_add (uint_mul 30 doe) 10646 / 10631) 1 in
  era30 ← int_mul era 30;
  y ← int_add (i32 yoe) era30;
  y ← int_add y 1;
  let doy := uint_sub doe (uint_add (uint_mul yoe 354)
                                    (uint_add (uint_mul 11 (uint_add yoe 1)) 3 / 30)) in
  let m := uint_add (uint_mul 11 doy) 330 / 325 in
  let d := uint_add (uint_sub doy (uint_add (uint_mul 29 (uint_sub m 1)) (m / 2))) 1 in
  Ret (year_month_day_ctor (year_ctor y) (month_ctor m) (day_ctor d)).

(** [src: include/date/islamic.h 2158-2163 year_month_day::operator sys_days] *)
Definition ymd_sys_days (this : year_month_day) : outcome sys_days := ymd_to_days this.

(** [src: include/date/islamic.h 2165-2170 year_month_day::operator local_days] *)
Definition ymd_local_days (this : year_month_day) : outcome local_days := ymd_to_days this.

(** [src: include/date/islamic.h 2087-2091 year_month_day::year_month_day] *)
Definition ymd_of_sys_days (dp : sys_days) : outcome year_month_day := ymd_from_days dp.

(** [src: include/date/islamic.h 2093-2097 year_month_day::year_month_day] *)
Definition ymd_of_local_days (dp : local_days) : outcome year_month_day := ymd_from_days dp.

#[export] Instance ymd_serial : DateSerial year_month_day :=
  { serial_ok := ymd_ok; to_serial := ymd_sys_days; of_serial := ymd_of_sys_days }.

(** *** Composition and arithmetic *)

(** [src: include/date/islamic.h 2855-2861 operator/] *)
Definition ym_div_day (ym : year_month) (d : day) : year_month_day :=
  year_month_day_ctor (ym_year ym) (ym_month ym) d.

(** [src: include/date/islamic.h 2863-2869 operator/] *)
Definition ym_div_int (ym : year_month) (d : Z) : year_month_day := ym_div_day ym (day_ctor (u32 d)).

(** [src: include/date/islamic.h 2871-2877 operator/] *)
Definition year_div_md (y : year) (md : month_day) : year_month_day :=
  ym_div_day (year_div_month y (md_month md)) (md_day md).

(** [src: include/date/islamic.h 2879-2885 operator/] *)
Definition int_div_md (y : Z) (md : month_day) : year_month_day := year_div_md (year_ctor y) md.

(** [src: include/date/islamic.h 2887-2893 operator/] *)
Definition md_div_year (md : month_day) (y : year) : year_month_day := year_div_md y md.

(** [src: include/date/islamic.h 2895-2901 operator/] *)
Definition md_div_int (md : month_day) (y : Z) : year_month_day := year_div_md (year_ctor y) md.

(** [src: include/date/islamic.h 1940-1945 year_month_day_last::operator sys_days] *)
Definition ymdl_sys_days (this : year_month_day_last) : outcome sys_days :=
  d ← ymdl_day this;
  ymd_sys_days (ym_div_day (year_div_month (ymdl_year this) (ymdl_month this)) d).

(** [src: include/date/islamic.h 1947-1952 year_month_day_last::operator local_days] *)
Definition ymdl_local_days (this : year_month_day_last) : outcome local_days :=
  d ← ymdl_day this;
  ymd_local_days (ym_div_day (year_div_month (ymdl_year this) (ymdl_month this)) d).

(** [src: include/date/islamic.h 2269-2275 operator+] *)
Definition ymd_plus_months (ymd : year_month_day) (dm : months) : outcome year_month_day :=
  ym ← ym_plus_months (year_div_month (ymd_year ymd) (ymd_month ymd)) dm;
  Ret (ym_div_day ym (ymd_day ymd)).

(** [src: include/date/islamic.h 2277-2283 operator+] *)
Definition months_plus_ymd (dm : months) (ymd : year_month_day) : outcome year_month_day :=
  ymd_plus_months ymd dm.

(** [src: include/date/islamic.h 2285-2291 operator-] *)
Definition ymd_minus_months (ymd : year_month_day) (dm : months) : outcome year_month_day :=
  dm' ← duration_neg dm; ymd_plus_months ymd dm'.

(** [src: include/date/islamic.h 2293-2299 operator+] *)
Definition ymd_plus_years (ymd : year_month_day) (dy : years) : outcome year_month_day :=
  y ← year_plus_years (ymd_year ymd) dy;
  Ret (ym_div_day (year_div_month y (ymd_month ymd)) (ymd_day ymd)).

(** [src: include/date/islamic.h 2301-2307 operator+] *)
Definition years_plus_ymd (dy : years) (ymd : year_month_day) : outcome year_month_day :=
  ymd_plus_years ymd dy.

(** [src: include/date/islamic.h 2309-2315 operator-] *)
Definition ymd_minus_years (ymd : year_month_day) (dy : years) : outcome year_month_day :=
  dy' ← duration_neg dy; ymd_plus_years ymd dy'.

(** [src: include/date/islamic.h 2103-2110 year_month_day::operator+=] *)
Definition ymd_add_assign_months (this : year_month_day) (m : months) : outcome year_month_day := ymd_plus_months this m.

(** [src: include/date/islamic.h 2112-2119 year_month_day::operator-=] *)
Definition ymd_sub_assign_months (this : year_month_day) (m : months) : outcome year_month_day := ymd_minus_months this m.

(** [src: include/date/islamic.h 2121-2128 year_month_day::operator+=] *)
Definition ymd_add_assign_years (this : year_month_day) (y : years) : outcome year_month_day := ymd_plus_years this y.

(** [src: include/date/islamic.h 2130-2137 year_month_day::operator-=] *)
Definition ymd_sub_assign_years (this : year_month_day) (y : years) : outcome year_month_day := ymd_minus_years this y.
