(* ===== verification/IslamicSerial.v ===== *)
(** IslamicSerial: the Islamic calendar as a [Reckoning], and that the conversions of
    include/date/islamic.h compute it: [year_month_day] satisfies the laws of [DateSerial], and its
    comparison operators those of [Relational]. *)

From Stdlib Require Import ZArith Lia.
From stdpp Require Import base list.
From S2P Require Import Prelude Memory Calendar IslamicUnits IslamicFields IslamicYmd.

#[local] Open Scope Z_scope.

(** ** The reference *)

Definition islamic_leap (y : Z) : bool :=
  existsb (Z.eqb (y mod 30)) [2; 5; 7; 10; 13; 16; 18; 21; 24; 26; 29].

Definition islamic_length (y m : Z) : Z :=
  if m =? 12 then (if islamic_leap y then 30 else 29)
  else if Z.odd m then 30 else 29.

(** Months of 30 and 29 days in turn. *)
Definition islamic_before (y m : Z) : Z := 29 * (m - 1) + m / 2.

(** The first day of the year 1 is day -492148. *)
Definition islamic : Reckoning :=
  MkReckoning (λ y, 354 * (y - 1) + (11 * y + 3) / 30 - 492148) islamic_before islamic_length.

(** The years of a cycle, for a proof by cases. *)
Ltac cycle_cases r :=
  let H := fresh in
  assert (r = 0 ∨ r = 1 ∨ r = 2 ∨ r = 3 ∨ r = 4 ∨ r = 5 ∨ r = 6 ∨ r = 7 ∨ r = 8 ∨ r = 9
    ∨ r = 10 ∨ r = 11 ∨ r = 12 ∨ r = 13 ∨ r = 14 ∨ r = 15 ∨ r = 16 ∨ r = 17 ∨ r = 18 ∨ r = 19
    ∨ r = 20 ∨ r = 21 ∨ r = 22 ∨ r = 23 ∨ r = 24 ∨ r = 25 ∨ r = 26 ∨ r = 27 ∨ r = 28 ∨ r = 29)
    as H by lia;
  repeat destruct H as [->|H]; [..|subst r].

(** Eleven leap years in thirty. *)
Lemma islamic_leap_step y : (11 * y + 14) / 30 - (11 * y + 3) / 30 = Z.b2z (islamic_leap y).
Proof.
  unfold islamic_leap. pose proof (Z.mod_pos_bound y 30 ltac:(lia)) as Hr. pose proof (Z.div_mod y 30 ltac:(lia)) as E.
  set (r := y mod 30) in *. set (q := y / 30) in *. clearbody r q. subst y.
  replace (11 * (30 * q + r) + 14) with (11 * r + 14 + 11 * q * 30) by lia.
  replace (11 * (30 * q + r) + 3) with (11 * r + 3 + 11 * q * 30) by lia.
  rewrite !Z.div_add by lia.
  replace ((11 * r + 14) / 30 + 11 * q - ((11 * r + 3) / 30 + 11 * q))
    with ((11 * r + 14) / 30 - (11 * r + 3) / 30) by lia.
  cycle_cases r; reflexivity.
Qed.

#[export] Instance islamic_laws : ReckoningLaws islamic.
Proof.
  split; cbn [islamic year_start days_before length_of].
  - intros y m Hm. unfold islamic_length. destruct (m =? 12), (islamic_leap y), (Z.odd m); lia.
  - done.
  - intros y m Hm. month_cases m; try lia; reflexivity.
  - intros y. pose proof (islamic_leap_step y) as H.
    replace (11 * (y + 1) + 3) with (11 * y + 14) by lia.
    unfold islamic_before, islamic_length. cbn [Z.eqb Pos.eqb]. change (12 / 2) with 6.
    destruct (islamic_leap y); cbn [Z.b2z] in H; lia.
Qed.

(** 22 Shawwal 1389 is the first of January 1970. *)
Lemma islamic_epoch : day_number islamic 1389 10 22 = 0.
Proof. reflexivity. Qed.

(** ** Well-formed values *)

#[export] Instance day_wf : WellFormed day := λ x, is_u8 (day_d x).
#[export] Instance month_wf : WellFormed month := λ x, is_u8 (month_m x).
#[export] Instance year_wf : WellFormed year := λ x, is_i16 (year_y x).
#[export] Instance year_month_day_wf : WellFormed year_month_day :=
  λ x, wf (ymd_y x) && wf (ymd_m x) && wf (ymd_d x).

Lemma islamic_ymd_wf_spec x :
  wf x = true ↔ -32768 ≤ year_y (ymd_y x) < 32768 ∧ 0 ≤ month_m (ymd_m x) < 256
    ∧ 0 ≤ day_d (ymd_d x) < 256.
Proof.
  unfold wf at 1, year_month_day_wf, wf, year_wf, month_wf, day_wf.
  rewrite !andb_true_iff, is_i16_spec, !is_u8_spec. tauto.
Qed.

Lemma islamic_month_ok_spec m : month_ok m = true ↔ 1 ≤ month_m m ≤ 12.
Proof. unfold month_ok. rewrite andb_true_iff, !Z.leb_le. done. Qed.

(** The years of the table are counted from 0. *)
Lemma islamic_year_is_leap_spec y : wf y = true → year_is_leap y = islamic_leap (year_y y).
Proof.
  intros Hy%is_i16_spec. unfold year_is_leap, islamic_leap. cbv zeta.
  rewrite (c_div_floor_by (year_y y - 1) 30 29) by lia.
  pose proof (Z.mod_pos_bound (year_y y - 1) 30).
  replace (year_y y - 1 - (year_y y - 1) / 30 * 30) with ((year_y y - 1) mod 30) by div_lia.
  rewrite u32_small by lia. rewrite Zminus_mod.
  pose proof (Z.mod_pos_bound (year_y y) 30 ltac:(lia)) as Hr. set (r := year_y y mod 30) in *. clearbody r.
  cycle_cases r; reflexivity.
Qed.

Lemma islamic_ymdl_day_spec y m :
  wf y = true → month_ok m = true →
  ymdl_day (ym_div_last (year_div_month y m) last) = Ret (MkDay (islamic_length (year_y y) (month_m m))).
Proof.
  intros Hy Hm. unfold ymdl_day. change (ymdl_y _) with y. change (ymdl_month _) with m.
  rewrite islamic_year_is_leap_spec by done. unfold month_eq, month_unsigned.
  destruct m as [m]. apply islamic_month_ok_spec in Hm. cbn in Hm.
  unfold islamic_length. destruct (islamic_leap (year_y y)); month_cases m; reflexivity.
Qed.

(** The year is not tested. *)
Lemma islamic_ymd_ok_spec x :
  wf x = true →
  ymd_ok x = Ret (month_ok (ymd_m x) && (1 <=? day_d (ymd_d x))
    && (day_d (ymd_d x) <=? islamic_length (year_y (ymd_y x)) (month_m (ymd_m x)))).
Proof.
  intros Hwf. destruct x as [y m d]. unfold ymd_ok. cbn [ymd_y ymd_m ymd_d year_ok andb].
  destruct (month_ok m) eqn:Hm; [|reflexivity]. cbn [negb andb].
  rewrite islamic_ymdl_day_spec, outcome_bind_ret by (done || by apply andb_true_iff in Hwf as [[? ?]%andb_true_iff ?]).
  unfold day_le, day_lt, day_unsigned. cbn.
  rewrite u8_small by lia. rewrite <- !Z.leb_antisym. by destruct (1 <=? day_d d).
Qed.

Lemma islamic_ymd_ok_true x :
  wf x = true →
  ymd_ok x = Ret true ↔ valid_day islamic (year_y (ymd_y x)) (month_m (ymd_m x)) (day_d (ymd_d x)).
Proof.
  intros Hwf. rewrite islamic_ymd_ok_spec by done. unfold valid_day. cbn [islamic length_of]. rewrite <- islamic_month_ok_spec. split.
  - intros [= H]. zb_prop. split_and!; done.
  - intros (H2 & H3 & H4). apply Z.leb_le in H3, H4. by rewrite H2, H3, H4.
Qed.

(** ** The conversions *)

(** The day of the cycle of thirty years on which a year of it begins. *)
Definition cycle_start (yoe : Z) : Z := 354 * yoe + (11 * (yoe + 1) + 3) / 30.

Lemma cycle_start_range yoe : 0 ≤ yoe < 30 → 0 ≤ cycle_start yoe ≤ 10277.
Proof. unfold cycle_start. intros H. div_lia. Qed.

Lemma islamic_day_cycle era yoe m d :
  day_number islamic (30 * era + yoe + 1) m d
  = 10631 * era + cycle_start yoe + islamic_before 0 m + d - 1 - 492148.
Proof.
  unfold day_number, cycle_start, islamic_before. cbn [islamic year_start days_before].
  unfold islamic_before. replace (11 * (30 * era + yoe + 1) + 3) with (11 * (yoe + 1) + 3 + 11 * era * 30) by lia.
  rewrite Z.div_add by lia. lia.
Qed.

Lemma islamic_ymd_to_days_spec x :
  wf x = true → month_ok (ymd_m x) = true → 1 ≤ day_d (ymd_d x) →
  ymd_to_days x
  = Ret (day_number islamic (year_y (ymd_y x)) (month_m (ymd_m x)) (day_d (ymd_d x))).
Proof.
  intros Hwf Hm Hd. apply islamic_ymd_wf_spec in Hwf. apply islamic_month_ok_spec in Hm.
  destruct x as [[y] [m] [d]]. cbn in Hwf, Hm, Hd. assert (d < 256) by lia.
  unfold ymd_to_days. cbn [ymd_y ymd_m ymd_d].
  unfold year_int, month_unsigned, day_unsigned. cbn [year_y month_m day_d]. cbv zeta.
  rewrite int_sub_ok, outcome_bind_ret by lia. set (y' := y - 1).
  assert (-32769 ≤ y' ≤ 32766) as Hy' by (unfold y'; lia).
  rewrite int_floor_arg, outcome_bind_ret by lia.
  rewrite (c_div_floor_by y' 30 29) by lia.
  rewrite (int_mul_ok (y' / 30) 30), outcome_bind_ret by div_lia.
  rewrite int_sub_ok, outcome_bind_ret by div_lia.
  assert (u32 (y' - y' / 30 * 30) = y' mod 30) as -> by (rewrite u32_small; div_lia).
  assert (0 ≤ y' mod 30 < 30) as Hyoe by (apply Z.mod_pos_bound; lia).
  assert (y = 30 * (y' / 30) + y' mod 30 + 1) as Ey by (unfold y'; div_lia).
  assert (-1093 ≤ y' / 30 ≤ 1092) as Hera by (clearbody y'; div_lia).
  rewrite Ey at 1. clearbody y'. clear Ey Hwf Hy' y.
  set (era := y' / 30) in *. set (yoe := y' mod 30) in *. clearbody era yoe.
  rewrite islamic_day_cycle. unfold cycle_start, islamic_before.
  assert (0 ≤ m / 2 ≤ 6) by div_lia. set (h := m / 2) in *. clearbody h.
  uint_step. assert (0 ≤ (11 * (yoe + 1) + 3) / 30 ≤ 11) by div_lia.
  set (l := (11 * (yoe + 1) + 3) / 30) in *. clearbody l. uint_step.
  rewrite i32_small by lia. int_step. f_equal. lia.
Qed.

(** The years of a [year], which are all valid: -32768 to 32767. *)
Abbreviation first_day := (first_of islamic (-32768)).
Abbreviation last_day := (last_of islamic 32767).

(** The fields [from_days] computes from a day of the cycle. *)
Definition cycle_year (doe : Z) : Z := (30 * doe + 10646) / 10631 - 1.
Definition cycle_day (doe : Z) : Z := doe - cycle_start (cycle_year doe).
Definition cycle_month (doe : Z) : Z := (11 * cycle_day doe + 330) / 325.
Definition cycle_mday (doe : Z) : Z := cycle_day doe - islamic_before 0 (cycle_month doe) + 1.

(** They are a year of the cycle, a month and a day of it, on all of its 10631 days. *)
Lemma cycle_fields doe :
  0 ≤ doe < 10631 →
  0 ≤ cycle_year doe < 30 ∧ 0 ≤ cycle_day doe ≤ 354 ∧ 1 ≤ cycle_month doe ≤ 12
  ∧ 1 ≤ cycle_mday doe ≤ islamic_length (cycle_year doe + 1) (cycle_month doe).
Proof.
  intros H.
  assert (all_between (λ doe,
    (0 <=? cycle_year doe) && (cycle_year doe <? 30) && (0 <=? cycle_day doe) && (cycle_day doe <=? 354)
    && (1 <=? cycle_month doe) && (cycle_month doe <=? 12) && (1 <=? cycle_mday doe)
    && (cycle_mday doe <=? islamic_length (cycle_year doe + 1) (cycle_month doe))) 0 10631 = true) as A
    by (vm_compute; reflexivity).
  apply (all_between_spec _ _ _ A) in H. clear A. zb_prop. lia.
Qed.

(** The leap years repeat every thirty years. *)
Lemma islamic_length_cycle era yoe m :
  islamic_length (30 * era + yoe + 1) m = islamic_length (yoe + 1) m.
Proof.
  unfold islamic_length, islamic_leap.
  replace (30 * era + yoe + 1) with (yoe + 1 + era * 30) by lia. by rewrite Z.mod_add by lia.
Qed.

Lemma islamic_ymd_from_days_spec z :
  -2000000000 ≤ z ≤ 2000000000 →
  ∃ y m d, ymd_from_days z = Ret (MkYearMonthDay (year_ctor y) (MkMonth m) (MkDay d))
    ∧ valid_day islamic y m d ∧ day_number islamic y m d = z.
Proof.
  intros Hz. unfold ymd_from_days. rewrite (int_add_ok z), outcome_bind_ret by lia.
  set (x := z + 492148). assert (-2000000000 ≤ x ≤ 2000492148) as Hx by (unfold x; lia).
  rewrite int_floor_arg, outcome_bind_ret by lia.
  rewrite (c_div_floor_by x 10631 10630) by lia.
  assert (-188130 ≤ x / 10631 ≤ 188176) as Hera by div_lia.
  rewrite (int_mul_ok (x / 10631) 10631), outcome_bind_ret by div_lia.
  rewrite (int_sub_ok x), outcome_bind_ret by div_lia.
  assert (u32 (x - x / 10631 * 10631) = x mod 10631) as -> by (rewrite u32_small; div_lia).
  assert (0 ≤ x mod 10631 < 10631) as Hdoe by (apply Z.mod_pos_bound; lia).
  assert (x = 10631 * (x / 10631) + x mod 10631) as Ex by div_lia.
  set (doe := x mod 10631) in *. set (era := x / 10631) in *. clearbody doe era.
  pose proof (cycle_fields doe Hdoe) as (Hyoe & Hdoy & Hm & Hd).
  pose proof (cycle_start_range _ Hyoe) as Hcs.
  assert (1 ≤ (30 * doe + 10646) / 10631 ≤ 30) by (unfold cycle_year in Hyoe; lia).
  uint_step. change ((30 * doe + 10646) / 10631 - 1) with (cycle_year doe).
  set (yoe := cycle_year doe) in *.
  assert (0 ≤ (11 * (yoe + 1) + 3) / 30 ≤ 11) by div_lia.
  uint_step.
  replace (doe - (yoe * 354 + (11 * (yoe + 1) + 3) / 30)) with (cycle_day doe)
    by (unfold cycle_day, cycle_start; fold yoe; lia).
  assert (uint_sub doe (yoe * 354 + (11 * (yoe + 1) + 3) / 30) = cycle_day doe) as Edoy.
  { unfold cycle_day, cycle_start in *. fold yoe in Hdoy |- *. uint_step. lia. }
  rewrite i32_small by lia. rewrite (int_mul_ok era), outcome_bind_ret by lia.
  rewrite int_add_ok, outcome_bind_ret by lia. rewrite int_add_ok, outcome_bind_ret by lia.
  cbv zeta. rewrite ?Edoy. uint_step. fold (cycle_month doe). set (m := cycle_month doe) in *.
  assert (0 ≤ m / 2 ≤ 6) by div_lia. uint_step.
  assert (islamic_before 0 m = 29 * (m - 1) + m / 2) as Eb by done.
  assert (cycle_mday doe = cycle_day doe - (29 * (m - 1) + m / 2) + 1) as Ed by (rewrite <- Eb; done).
  pose proof (length_range (R := islamic) (yoe + 1) m Hm) as Hl. cbn [islamic length_of] in Hl.
  assert (29 * (m - 1) + m / 2 ≤ cycle_day doe) by lia. uint_step. rewrite <- Ed.
  exists (30 * era + yoe + 1), m, (cycle_mday doe). split; [|split].
  - unfold year_month_day_ctor, month_ctor, day_ctor. rewrite !u8_small by lia.
    by replace (yoe + era * 30 + 1) with (30 * era + yoe + 1) by lia.
  - split; [done|]. cbn [islamic length_of]. by rewrite islamic_length_cycle.
  - rewrite islamic_day_cycle. rewrite Ed, Eb. unfold cycle_day, x in *. fold yoe. lia.
Qed.

(** ** The laws *)

Lemma islamic_first_day_value : first_day = -12104389.
Proof. reflexivity. Qed.
Lemma islamic_last_day_value : last_day = 11119384.
Proof. reflexivity. Qed.

(** Every date of a [year], a month and a day of it is well formed, [ok()], and converted. *)
Lemma islamic_to y m d :
  -32768 ≤ y ≤ 32767 → valid_day islamic y m d →
  let x := MkYearMonthDay (MkYear y) (MkMonth m) (MkDay d) in
  wf x = true ∧ ymd_ok x = Ret true ∧ ymd_to_days x = Ret (day_number islamic y m d).
Proof.
  intros Hy Hv x. pose proof Hv as [Hm Hd]. pose proof (length_range (R := islamic) y m Hm).
  assert (wf x = true) as Hwf by (apply islamic_ymd_wf_spec; cbn; lia).
  split; [done|]. split; [by apply islamic_ymd_ok_true|].
  apply (islamic_ymd_to_days_spec x); [done | by apply islamic_month_ok_spec | apply Hd].
Qed.

Lemma islamic_of z :
  first_day ≤ z ≤ last_day →
  ∃ y m d, ymd_from_days z = Ret (MkYearMonthDay (MkYear y) (MkMonth m) (MkDay d))
    ∧ valid_day islamic y m d ∧ day_number islamic y m d = z.
Proof.
  intros Hz. pose proof Hz as Hz'. rewrite islamic_first_day_value, islamic_last_day_value in Hz'.
  destruct (islamic_ymd_from_days_spec z) as (y & m & d & E & Hv & Hn); [lia|].
  exists y, m, d. split; [|done]. rewrite E. unfold year_ctor.
  assert (-32768 ≤ y ≤ 32767) by (apply (day_number_in islamic _ _ y m d Hv); by rewrite Hn).
  by rewrite i16_small by lia.
Qed.

#[export] Instance ymd_serial_laws : DateSerialLaws year_month_day first_day last_day.
Proof.
  apply (reckoning_serial_laws islamic (λ y m d, MkYearMonthDay (MkYear y) (MkMonth m) (MkDay d))).
  - intros [[y] [m] [d]] Hwf Hok. apply islamic_ymd_ok_true in Hok; [|done]. apply islamic_ymd_wf_spec in Hwf. cbn in Hwf, Hok.
    exists y, m, d. split; [done|]. split; [lia | done].
  - apply islamic_to.
  - apply islamic_of.
Qed.

(** ** The comparison operators *)

#[export] Instance year_month_day_laws :
  RelationalLaws year_month_day (λ x, [year_y (ymd_y x); month_m (ymd_m x); day_d (ymd_d x)]).
Proof.
  split; intros; try done; destruct x as [[a] [b] [c]], y as [[a'] [b'] [c']];
    [cbn in *; congruence | | ]; unfold rel_eq, rel_lt;
    cbv [ymd_relational ymd_eq ymd_lt year_eq year_lt year_gt month_eq month_lt month_gt day_eq day_lt
         year_int month_unsigned day_unsigned ymd_year ymd_month ymd_day];
    cbn [ymd_y ymd_m ymd_d year_y month_m day_d lex_lt].
  - apply Bool.eq_iff_eq_true. rewrite bool_decide_eq_true, !andb_true_iff, !Z.eqb_eq.
    split; [intros [[-> ->] ->]; done | intros [= -> -> ->]; done].
  - zb_cases; try reflexivity; lia.
Qed.
