(* ===== verification/IslamicYmw.v ===== *)
(** IslamicYmw: [year_month_weekday] (the n-th given weekday of a month) and
    [year_month_weekday_last] of include/date/islamic.h, their conversions to and from serial day
    numbers, and the arithmetic of months and years. *)

From Stdlib Require Import ZArith Lia Ascii String.
From stdpp Require Import base list strings.
From S2P Require Import Prelude Memory Calendar DateFormat IslamicUnits IslamicFields IslamicYmd.

#[local] Open Scope char_scope.
#[local] Open Scope Z_scope.

(** ** year_month_weekday *)

(** [src: include/date/islamic.h 626-656 year_month_weekday] *)
Record year_month_weekday : Type :=
  MkYearMonthWeekday { ymwd_y : year; ymwd_m : month; ymwd_wdi : weekday_indexed }.

#[export] Instance year_month_weekday_eq_dec : EqDecision year_month_weekday.
Proof. solve_decision. Defined.

(** [src: include/date/islamic.h 2319-2327 year_month_weekday::year_month_weekday] *)
Definition year_month_weekday_ctor (y : year) (m : month) (wdi : weekday_indexed)
    : year_month_weekday := MkYearMonthWeekday y m wdi.

(** [src: include/date/islamic.h 2377-2377 year_month_weekday::year] *)
Definition ymwd_year (this : year_month_weekday) : year := ymwd_y this.

(** [src: include/date/islamic.h 2378-2378 year_month_weekday::month] *)
Definition ymwd_month (this : year_month_weekday) : month := ymwd_m this.

(** [src: include/date/islamic.h 2380-2386 year_month_weekday::weekday] *)
Definition ymwd_weekday (this : year_month_weekday) : weekday := wdi_weekday (ymwd_wdi this).

(** [src: include/date/islamic.h 2388-2394 year_month_weekday::index] *)
Definition ymwd_index (this : year_month_weekday) : Z := wdi_index (ymwd_wdi this).

(** [src: include/date/islamic.h 2396-2402 year_month_weekday::weekday_indexed] *)
Definition ymwd_weekday_indexed (this : year_month_weekday) : weekday_indexed := ymwd_wdi this.

(** [src: include/date/islamic.h 2452-2459 operator==] *)
Definition ymwd_eq (x y : year_month_weekday) : bool :=
  year_eq (ymwd_year x) (ymwd_year y) && month_eq (ymwd_month x) (ymwd_month y)
  && wdi_eq (ymwd_weekday_indexed x) (ymwd_weekday_indexed y).

(** [src: include/date/islamic.h 2461-2467 operator!=] *)
Definition ymwd_ne (x y : year_month_weekday) : bool := negb (ymwd_eq x y).

(** A fifth weekday exists when its day is not past the end of the month.
    [src: include/date/islamic.h 2418-2429 year_month_weekday::ok] *)
Definition ymwd_ok (this : year_month_weekday) : outcome bool :=
  if negb (year_ok (ymwd_y this)) || negb (month_ok (ymwd_m this))
     || negb (weekday_ok (wdi_weekday (ymwd_wdi this))) || (wdi_index (ymwd_wdi this) <? 1)
  then Ret false
  else if wdi_index (ymwd_wdi this) <=? 4 then Ret true
  else
    let ym := year_div_month (ymwd_y this) (ymwd_m this) in
    first ← ymd_sys_days (ym_div_int ym 1);
    wd ← weekday_of_sys_days first;
    d2 ← int_add
           (weekday_minus_weekday (wdi_weekday (ymwd_wdi this)) wd)
           (i32 (uint_add (uint_mul (uint_sub (wdi_index (ymwd_wdi this)) 1) 7) 1));
    last_day ← ymdl_day (ym_div_last ym last);
    Ret (u32 d2 <=? day_unsigned last_day).

(** [src: include/date/islamic.h 2431-2440 year_month_weekday::from_days] *)
Definition ymwd_from_days (d : days) : outcome year_month_weekday :=
  let dp : sys_days := d in
  wd ← weekday_of_sys_days dp;
  ymd ← ymd_of_sys_days dp;
  Ret (year_month_weekday_ctor (ymd_year ymd) (ymd_month ymd)
         (weekday_at wd (uint_add (uint_sub (day_unsigned (ymd_day ymd)) 1 / 7) 1))).

(** [src: include/date/islamic.h 2442-2450 year_month_weekday::to_days] *)
Definition ymwd_to_days (this : year_month_weekday) : outcome days :=
  d ← ymd_sys_days (ym_div_int (year_div_month (ymwd_y this) (ymwd_m this)) 1);
  wd ← weekday_of_sys_days d;
  s ← int_add (weekday_minus_weekday (wdi_weekday (ymwd_wdi this)) wd)
        (i32 (uint_mul (uint_sub (wdi_index (ymwd_wdi this)) 1) 7));
  int_add d s.

(** [src: include/date/islamic.h 2404-2409 year_month_weekday::operator sys_days] *)
Definition ymwd_sys_days (this : year_month_weekday) : outcome sys_days := ymwd_to_days this.

(** [src: include/date/islamic.h 2411-2416 year_month_weekday::operator local_days] *)
Definition ymwd_local_days (this : year_month_weekday) : outcome local_days := ymwd_to_days this.

(** [src: include/date/islamic.h 2329-2333 year_month_weekday::year_month_weekday] *)
Definition ymwd_of_sys_days (dp : sys_days) : outcome year_month_weekday := ymwd_from_days dp.

(** [src: include/date/islamic.h 2335-2339 year_month_weekday::year_month_weekday] *)
Definition ymwd_of_local_days (dp : local_days) : outcome year_month_weekday := ymwd_from_days dp.

#[export] Instance ymwd_serial : DateSerial year_month_weekday :=
  { serial_ok := ymwd_ok; to_serial := ymwd_sys_days; of_serial := ymwd_of_sys_days }.

(** [src: include/date/islamic.h 2947-2953 operator/] *)
Definition ym_div_wdi (ym : year_month) (wdi : weekday_indexed) : year_month_weekday :=
  year_month_weekday_ctor (ym_year ym) (ym_month ym) wdi.

(** [src: include/date/islamic.h 2955-2961 operator/] *)
Definition year_div_mwd (y : year) (mwd : month_weekday) : year_month_weekday :=
  year_month_weekday_ctor y (mwd_month mwd) (mwd_weekday_indexed mwd).

(** [src: include/date/islamic.h 2963-2969 operator/] *)
Definition int_div_mwd (y : Z) (mwd : month_weekday) : year_month_weekday :=
  year_div_mwd (year_ctor y) mwd.

(** [src: include/date/islamic.h 2971-2977 operator/] *)
Definition mwd_div_year (mwd : month_weekday) (y : year) : year_month_weekday :=
  year_div_mwd y mwd.

(** [src: include/date/islamic.h 2979-2985 operator/] *)
Definition mwd_div_int (mwd : month_weekday) (y : Z) : year_month_weekday :=
  year_div_mwd (year_ctor y) mwd.

(** [src: include/date/islamic.h 2478-2484 operator+] *)
Definition ymwd_plus_months (ymwd : year_month_weekday) (dm : months)
    : outcome year_month_weekday :=
  ym ← ym_plus_months (year_div_month (ymwd_year ymwd) (ymwd_month ymwd)) dm;
  Ret (ym_div_wdi ym (ymwd_weekday_indexed ymwd)).

(** [src: include/date/islamic.h 2486-2492 operator+] *)
Definition months_plus_ymwd (dm : months) (ymwd : year_month_weekday)
    : outcome year_month_weekday := ymwd_plus_months ymwd dm.

(** [src: include/date/islamic.h 2494-2500 operator-] *)
Definition ymwd_minus_months (ymwd : year_month_weekday) (dm : months)
    : outcome year_month_weekday := dm' ← duration_neg dm; ymwd_plus_months ymwd dm'.

(** [src: include/date/islamic.h 2502-2508 operator+] *)
Definition ymwd_plus_years (ymwd : year_month_weekday) (dy : years)
    : outcome year_month_weekday :=
  y ← year_plus_years (ymwd_year ymwd) dy;
  Ret (year_month_weekday_ctor y (ymwd_month ymwd) (ymwd_weekday_indexed ymwd)).

(** [src: include/date/islamic.h 2510-2516 operator+] *)
Definition years_plus_ymwd (dy : years) (ymwd : year_month_weekday)
    : outcome year_month_weekday := ymwd_plus_years ymwd dy.

(** [src: include/date/islamic.h 2518-2524 operator-] *)
Definition ymwd_minus_years (ymwd : year_month_weekday) (dy : years)
    : outcome year_month_weekday := dy' ← duration_neg dy; ymwd_plus_years ymwd dy'.

(** [src: include/date/islamic.h 2341-2348 year_month_weekday::operator+=] *)
Definition ymwd_add_assign_months (this : year_month_weekday) (m : months) : outcome year_month_weekday := ymwd_plus_months this m.

(** [src: include/date/islamic.h 2350-2357 year_month_weekday::operator-=] *)
Definition ymwd_sub_assign_months (this : year_month_weekday) (m : months) : outcome year_month_weekday := ymwd_minus_months this m.

(** [src: include/date/islamic.h 2359-2366 year_month_weekday::operator+=] *)
Definition ymwd_add_assign_years (this : year_month_weekday) (y : years) : outcome year_month_weekday := ymwd_plus_years this y.

(** [src: include/date/islamic.h 2368-2375 year_month_weekday::operator-=] *)
Definition ymwd_sub_assign_years (this : year_month_weekday) (y : years) : outcome year_month_weekday := ymwd_minus_years this y.

(** ** year_month_weekday_last *)

(** [src: include/date/islamic.h 693-719 year_month_weekday_last] *)
Record year_month_weekday_last : Type :=
  MkYearMonthWeekdayLast { ymwdl_y : year; ymwdl_m : month; ymwdl_wdl : weekday_last }.

#[export] Instance year_month_weekday_last_eq_dec : EqDecision year_month_weekday_last.
Proof. solve_decision. Defined.

(** [src: include/date/islamic.h 2528-2536 year_month_weekday_last::year_month_weekday_last] *)
Definition year_month_weekday_last_ctor (y : year) (m : month) (wdl : weekday_last)
    : year_month_weekday_last := MkYearMonthWeekdayLast y m wdl.

(** [src: include/date/islamic.h 2574-2574 year_month_weekday_last::year] *)
Definition ymwdl_year (this : year_month_weekday_last) : year := ymwdl_y this.

(** [src: include/date/islamic.h 2575-2575 year_month_weekday_last::month] *)
Definition ymwdl_month (this : year_month_weekday_last) : month := ymwdl_m this.

(** [src: include/date/islamic.h 2577-2583 year_month_weekday_last::weekday] *)
Definition ymwdl_weekday (this : year_month_weekday_last) : weekday :=
  wdl_weekday (ymwdl_wdl this).

(** [src: include/date/islamic.h 2585-2591 year_month_weekday_last::weekday_last] *)
Definition ymwdl_weekday_last (this : year_month_weekday_last) : weekday_last := ymwdl_wdl this.

(** [src: include/date/islamic.h 2607-2613 year_month_weekday_last::ok] *)
Definition ymwdl_ok (this : year_month_weekday_last) : bool :=
  year_ok (ymwdl_y this) && month_ok (ymwdl_m this) && wdl_ok (ymwdl_wdl this).

(** [src: include/date/islamic.h 2615-2622 year_month_weekday_last::to_days] *)
Definition ymwdl_to_days (this : year_month_weekday_last) : outcome days :=
  d ← ymdl_sys_days (ym_div_last (year_div_month (ymwdl_y this) (ymwdl_m this)) last);
  wd ← weekday_of_sys_days d;
  int_sub d (weekday_minus_weekday wd (wdl_weekday (ymwdl_wdl this))).

(** [src: include/date/islamic.h 2593-2598 year_month_weekday_last::operator sys_days] *)
Definition ymwdl_sys_days (this : year_month_weekday_last) : outcome sys_days :=
  ymwdl_to_days this.

(** [src: include/date/islamic.h 2600-2605 year_month_weekday_last::operator local_days] *)
Definition ymwdl_local_days (this : year_month_weekday_last) : outcome local_days :=
  ymwdl_to_days this.

(** [src: include/date/islamic.h 2624-2631 operator==] *)
Definition ymwdl_eq (x y : year_month_weekday_last) : bool :=
  year_eq (ymwdl_year x) (ymwdl_year y) && month_eq (ymwdl_month x) (ymwdl_month y)
  && wdl_eq (ymwdl_weekday_last x) (ymwdl_weekday_last y).

(** [src: include/date/islamic.h 2633-2639 operator!=] *)
Definition ymwdl_ne (x y : year_month_weekday_last) : bool := negb (ymwdl_eq x y).

(** [src: include/date/islamic.h 2989-2995 operator/] *)
Definition ym_div_wdl (ym : year_month) (wdl : weekday_last) : year_month_weekday_last :=
  year_month_weekday_last_ctor (ym_year ym) (ym_month ym) wdl.

(** [src: include/date/islamic.h 2997-3003 operator/] *)
Definition year_div_mwdl (y : year) (mwdl : month_weekday_last) : year_month_weekday_last :=
  year_month_weekday_last_ctor y (mwdl_month mwdl) (mwdl_weekday_last mwdl).

(** [src: include/date/islamic.h 3005-3011 operator/] *)
Definition int_div_mwdl (y : Z) (mwdl : month_weekday_last) : year_month_weekday_last :=
  year_div_mwdl (year_ctor y) mwdl.

(** [src: include/date/islamic.h 3013-3019 operator/] *)
Definition mwdl_div_year (mwdl : month_weekday_last) (y : year) : year_month_weekday_last :=
  year_div_mwdl y mwdl.

(** [src: include/date/islamic.h 3021-3027 operator/] *)
Definition mwdl_div_int (mwdl : month_weekday_last) (y : Z) : year_month_weekday_last :=
  year_div_mwdl (year_ctor y) mwdl.

(** [src: include/date/islamic.h 2649-2655 operator+] *)
Definition ymwdl_plus_months (ymwdl : year_month_weekday_last) (dm : months)
    : outcome year_month_weekday_last :=
  ym ← ym_plus_months (year_div_month (ymwdl_year ymwdl) (ymwdl_month ymwdl)) dm;
  Ret (ym_div_wdl ym (ymwdl_weekday_last ymwdl)).

(** [src: include/date/islamic.h 2657-2663 operator+] *)
Definition months_plus_ymwdl (dm : months) (ymwdl : year_month_weekday_last)
    : outcome year_month_weekday_last := ymwdl_plus_months ymwdl dm.

(** [src: include/date/islamic.h 2665-2671 operator-] *)
Definition ymwdl_minus_months (ymwdl : year_month_weekday_last) (dm : months)
    : outcome year_month_weekday_last := dm' ← duration_neg dm; ymwdl_plus_months ymwdl dm'.

(** [src: include/date/islamic.h 2673-2679 operator+] *)
Definition ymwdl_plus_years (ymwdl : year_month_weekday_last) (dy : years)
    : outcome year_month_weekday_last :=
  y ← year_plus_years (ymwdl_year ymwdl) dy;
  Ret (year_month_weekday_last_ctor y (ymwdl_month ymwdl) (ymwdl_weekday_last ymwdl)).

(** [src: include/date/islamic.h 2681-2687 operator+] *)
Definition years_plus_ymwdl (dy : years) (ymwdl : year_month_weekday_last)
    : outcome year_month_weekday_last := ymwdl_plus_years ymwdl dy.

(** [src: include/date/islamic.h 2689-2695 operator-] *)
Definition ymwdl_minus_years (ymwdl : year_month_weekday_last) (dy : years)
    : outcome year_month_weekday_last := dy' ← duration_neg dy; ymwdl_plus_years ymwdl dy'.

(** [src: include/date/islamic.h 2538-2545 year_month_weekday_last::operator+=] *)
Definition ymwdl_add_assign_months (this : year_month_weekday_last) (m : months) : outcome year_month_weekday_last := ymwdl_plus_months this m.

(** [src: include/date/islamic.h 2547-2554 year_month_weekday_last::operator-=] *)
Definition ymwdl_sub_assign_months (this : year_month_weekday_last) (m : months) : outcome year_month_weekday_last := ymwdl_minus_months this m.

(** [src: include/date/islamic.h 2556-2563 year_month_weekday_last::operator+=] *)
Definition ymwdl_add_assign_years (this : year_month_weekday_last) (y : years) : outcome year_month_weekday_last := ymwdl_plus_years this y.

(** [src: include/date/islamic.h 2565-2572 year_month_weekday_last::operator-=] *)
Definition ymwdl_sub_assign_years (this : year_month_weekday_last) (y : years) : outcome year_month_weekday_last := ymwdl_minus_years this y.

(** * The stream operators [<<] of the classes of include/date/islamic.h, on the output stream of DateFormat. *)

(** [src: include/date/islamic.h 864-875 operator<<] *)
Definition put_day (d : day) : om unit := put_zeros 2 (day_unsigned d).

(** [src: include/date/islamic.h 989-1037 operator<<] *)
Definition put_month (m : month) : om unit :=
  match month_unsigned m with
  | 1 => put_text "Muharram"
  | 2 => put_text "Safar"
  | 3 => put_text "Rabi' al-awwal"
  | 4 => put_text "Rabi' al-thani"
  | 5 => put_text "Jumada al-awwal"
  | 6 => put_text "Jumada al-Thani"
  | 7 => put_text "Rajab"
  | 8 => put_text "Sha'ban"
  | 9 => put_text "Ramadan"
  | 10 => put_text "Shawwal"
  | 11 => put_text "Dhu al-Qi'dah"
  | 12 => put_text "Dhu al-Hijjah"
  | _ => put_int (month_unsigned m);; put_text " is not a valid month"
  end.

(** [src: include/date/islamic.h 1175-1186 operator<<] *)
Definition put_year (y : year) : om unit :=
  put_text (pad_number (if year_lt y (year_ctor 0) then 5 else 4) "0" true (year_int y)).

(** [src: include/date/islamic.h 1300-1333 operator<<] *)
Definition put_weekday (wd : weekday) : om unit :=
  match weekday_unsigned wd with
  | 0 => put_text "al-Aḥad"
  | 1 => put_text "al-Ithnayn"
  | 2 => put_text "ath-Thulāthā’"
  | 3 => put_text "al-Arba‘ā’"
  | 4 => put_text "al-Khamīs"
  | 5 => put_text "al-Jum‘ah"
  | 6 => put_text "as-Sabt"
  | _ => put_int (weekday_unsigned wd);; put_text " is not a valid weekday"
  end.

(** [src: include/date/islamic.h 1389-1395 operator<<] *)
Definition put_wdi (wdi : weekday_indexed) : om unit :=
  put_weekday (wdi_weekday wdi);; put_char "[";; put_int (wdi_index wdi);; put_char "]".

(** [src: include/date/islamic.h 1443-1449 operator<<] *)
Definition put_wdl (wdl : weekday_last) : om unit :=
  put_weekday (wdl_weekday wdl);; put_text "[last]".

(** [src: include/date/islamic.h 1618-1624 operator<<] *)
Definition put_ym (ym : year_month) : om unit :=
  put_year (ym_year ym);; put_char "/";; put_month (ym_month ym).

(** [src: include/date/islamic.h 1698-1704 operator<<] *)
Definition put_md (md : month_day) : om unit :=
  put_month (md_month md);; put_char "/";; put_day (md_day md).

(** [src: include/date/islamic.h 1760-1766 operator<<] *)
Definition put_mdl (mdl : month_day_last) : om unit :=
  put_month (mdl_month mdl);; put_text "/last".

(** [src: include/date/islamic.h 1812-1818 operator<<] *)
Definition put_mwd (mwd : month_weekday) : om unit :=
  put_month (mwd_month mwd);; put_char "/";; put_wdi (mwd_weekday_indexed mwd).

(** [src: include/date/islamic.h 1864-1870 operator<<] *)
Definition put_mwdl (mwdl : month_weekday_last) : om unit :=
  put_month (mwdl_month mwdl);; put_char "/";; put_wdl (mwdl_weekday_last mwdl).

(** [src: include/date/islamic.h 2012-2018 operator<<] *)
Definition put_ymdl (ymdl : year_month_day_last) : om unit :=
  put_year (ymdl_year ymdl);; put_char "/";; put_mdl (ymdl_month_day_last ymdl).

(** [src: include/date/islamic.h 2234-2247 operator<<] *)
Definition put_ymd (ymd : year_month_day) : om unit :=
  put_year (ymd_year ymd);; put_char "-";;
  put_zeros 2 (month_unsigned (ymd_month ymd));; put_char "-";;
  put_day (ymd_day ymd).

(** [src: include/date/islamic.h 2469-2476 operator<<] *)
Definition put_ymwd (ymwdi : year_month_weekday) : om unit :=
  put_year (ymwd_year ymwdi);; put_char "/";; put_month (ymwd_month ymwdi);; put_char "/";;
  put_wdi (ymwd_weekday_indexed ymwdi).

(** [src: include/date/islamic.h 2641-2647 operator<<] *)
Definition put_ymwdl (ymwdl : year_month_weekday_last) : om unit :=
  put_year (ymwdl_year ymwdl);; put_char "/";; put_month (ymwdl_month ymwdl);; put_char "/";;
  put_wdl (ymwdl_weekday_last ymwdl).
