(* ===== verification/IsoTheorems.v ===== *)
(** IsoTheorems: the properties of the ISO week classes of include/date/iso_week.h. *)

From Stdlib Require Import ZArith Lia Ascii String.
From stdpp Require Import base list strings.
From S2P Require Import Prelude Memory Calendar DateUnits DateFields DateYmd DateYmw Civil DateSerial DateNth.
From S2P Require Import IsoWeek IsoWeekDate IsoProofs DateFormat.

#[local] Open Scope char_scope.
#[local] Open Scope Z_scope.

(** C7 (roundtrip). ISO dates (year, week, weekday) of the years -32767 to 32767 and the day numbers
    from the first Monday of -32767 to the last day of 32767 correspond one to one, without a fault;
    at the upper end the conversion passes through a civil year that does not fit a [short]. *)
Theorem ywnwd_days_roundtrip :
  (∀ x, wf x = true → ywnwd_ok x = Ret true →
     ∃ z, ywnwd_sys_days x = Ret z ∧ -12687426 ≤ z ≤ last_day ∧ ywnwd_from_days z = Ret x) ∧
  (∀ z, -12687426 ≤ z ≤ last_day →
     ∃ x, ywnwd_from_days z = Ret x ∧ wf x = true ∧ ywnwd_ok x = Ret true
          ∧ ywnwd_sys_days x = Ret z).
Proof.
  split; [exact (@to_serial_ok _ _ _ _ _ ywnwd_serial_laws)
         | exact (@of_serial_ok _ _ _ _ _ ywnwd_serial_laws)].
Qed.

Lemma ywnwd_days_roundtrip_witness :
  ∃ x, ywnwd_from_days 11248736 = Ret x ∧ wf x = true ∧ ywnwd_ok x = Ret true
       ∧ ywnwd_sys_days x = Ret 11248736.
Proof. apply (proj2 ywnwd_days_roundtrip). lia. Defined.

(** C14 (refinement). [from_days] follows the rule of ISO 8601: the week of a day starts on its Monday,
    belongs to the year of its Thursday, and is numbered by how many Thursdays that year has had. *)
Theorem ywnwd_from_days_iso8601 z :
  -12687426 ≤ z ≤ last_day →
  ∃ y wn wd m d, ywnwd_from_days z
      = Ret (MkYearWeeknumWeekday (MkIsoYear y) (MkWeeknum wn) (MkIsoWeekday wd))
    ∧ iso_weekday_of_weekday (weekday_of_sys_days z) = MkIsoWeekday wd
    ∧ civil_valid y m d ∧ civil_days y m d = z - (wd - 1) + 3
    ∧ wn = (civil_days y m d - civil_days y 1 1) / 7 + 1.
Proof.
  intros Hz. destruct (ywnwd_from_days_ok z Hz) as (y & Hy & Hb & E).
  pose proof (iso_start_bounds y) as Hs. pose proof (iso_start_bounds (y + 1)) as Hs'.
  pose proof (iso_start_monday y) as Hm. pose proof (iso_weeks_spec y) as [Ew Hw].
  set (s := iso_start y) in *. set (wd := (z - s) mod 7 + 1).
  destruct (civil_days_surj (z - (wd - 1) + 3)) as (y' & m & d & Hv & Hc).
  pose proof (civil_days_within_year _ _ _ Hv) as Hin. rewrite Hc in Hin.
  assert (s + 3 ≤ z - (wd - 1) + 3 ≤ s + 7 * iso_weeks y - 7 + 3) as Hth by (unfold wd; div_lia).
  assert (y' = y) as ->.
  { pose proof (civil_days_new_year y). pose proof (civil_days_new_year (y - 1)) as Hn.
    replace (y - 1 + 1) with y in Hn by lia.
    assert (civil_valid y 12 31) as V2 by (unfold civil_valid, month_length; simpl; lia).
    assert (civil_valid y 1 1) as V1 by (unfold civil_valid, month_length; simpl; lia).
    pose proof (civil_days_lt _ _ _ _ _ _ Hv V1) as A. pose proof (civil_days_lt _ _ _ _ _ _ V2 Hv) as B.
    rewrite Hc in A, B. destruct Hv as [Hvm Hvd].
    destruct (Z.lt_trichotomy y' y) as [C|[C|C]]; [|done|]; lia. }
  exists y, ((z - s) / 7 + 1), wd, m, d. split; [exact E|]. split.
  { unfold weekday_of_sys_days. rewrite weekday_from_days_mod by lia.
    unfold iso_weekday_of_weekday, weekday_iso_encoding. cbn [weekday_wd].
    pose proof (Z.mod_pos_bound (z + 4) 7). f_equal.
    destruct (Z.eqb_spec ((z + 4) mod 7) 0); (rewrite u8_small by lia); unfold wd; div_lia. }
  split; [done|]. split; [done|]. rewrite Hc. f_equal.
  assert (z - (wd - 1) + 3 = s + 7 * ((z - s) / 7) + 3) as ->.
  { unfold wd. pose proof (Z.div_mod (z - s) 7). lia. }
  generalize ((z - s) / 7). intros q.
  apply Z.div_unique with (r := s + 3 - civil_days y 1 1); lia.
Qed.

Lemma ywnwd_from_days_iso8601_witness :
  ∃ y wn wd m d, ywnwd_from_days 17897
      = Ret (MkYearWeeknumWeekday (MkIsoYear y) (MkWeeknum wn) (MkIsoWeekday wd))
    ∧ iso_weekday_of_weekday (weekday_of_sys_days 17897) = MkIsoWeekday wd
    ∧ civil_valid y m d ∧ civil_days y m d = 17897 - (wd - 1) + 3
    ∧ wn = (civil_days y m d - civil_days y 1 1) / 7 + 1.
Proof. apply (ywnwd_from_days_iso8601 17897). lia. Defined.

(** [year/last] is the last week: it is the 52nd or the 53rd, it is [ok()], the next
    week is not, and the day after its Sunday is the Monday of week 1 of the next year. *)
Theorem year_lastweek_is_last y :
  wf y = true → iso_year_int y < 32767 →
  ∃ wn z, yl_weeknum (iso_year_div_last y iso_last) = Ret wn
    ∧ 52 ≤ weeknum_unsigned wn ≤ 53
    ∧ ywn_ok (iso_year_div_weeknum y wn) = Ret true
    ∧ ywn_ok (iso_year_div_weeknum y (weeknum_plus_weeks wn 1)) = Ret false
    ∧ ylwd_sys_days (yl_div_weekday (iso_year_div_last y iso_last) iso_sun) = Ret z
    ∧ ywnwd_sys_days (ywn_div_weekday (iso_year_div_weeknum y wn) iso_sun) = Ret z
    ∧ (y' ← iso_year_plus_years y 1;
       ywnwd_sys_days (ywn_div_weekday (iso_year_div_int y' 1) iso_mon)) = Ret (z + 1).
Proof.
  intros Hy%iso_year_wf_spec Hlt. destruct y as [y]. cbn [iso_y iso_year_int] in *.
  unfold iso_year_int in Hlt. cbn [iso_y] in Hlt.
  pose proof (iso_weeks_spec y) as [Ew Hw]. pose proof (iso_start_range (y + 1) ltac:(lia)).
  exists (MkWeeknum (iso_weeks y)), (iso_start (y + 1) - 1).
  unfold iso_year_div_last, year_lastweek_ctor. rewrite yl_weeknum_spec by done.
  split; [done|]. split; [done|].
  assert (∀ wn, 1 ≤ wn < 256 → ywn_ok (iso_year_div_weeknum (MkIsoYear y) (MkWeeknum wn))
                               = Ret (wn <=? iso_weeks y)) as Hok.
  { intros wn Hwn. unfold ywn_ok. cbn [iso_year_div_weeknum year_weeknum_ctor ywn_y ywn_wn].
    rewrite iso_year_ok_short by lia. unfold weeknum_unsigned. cbn [wn_].
    assert ((1 <=? wn) = true) as -> by (apply Z.leb_le; lia). cbn [andb].
    unfold iso_year_div_last, year_lastweek_ctor. rewrite yl_weeknum_spec, outcome_bind_ret by done.
    by rewrite weeknum_le_leb. }
  split. { rewrite Hok by lia. f_equal. apply Z.leb_le. lia. }
  split.
  { unfold weeknum_plus_weeks, weeknum_ctor, weeknum_unsigned. cbn [wn_].
    rewrite (u32_small 1) by lia. uint_step. rewrite u8_small by lia.
    rewrite Hok by lia. f_equal. apply Z.leb_gt. lia. }
  split.
  { unfold ylwd_sys_days. cbn [yl_div_weekday year_lastweek_weekday_ctor ylwd_y ylwd_wd yl_year yl_y].
    unfold iso_year_int. cbn [iso_y]. rewrite year_ctor_small by lia.
    rewrite december_thursday, outcome_bind_ret by (done || apply year_wf_spec; cbn; lia).
    cbn [year_y]. change (iso_weekday_minus_weekday iso_sun iso_thu) with 3.
    change (iso_weekday_minus_weekday iso_sun iso_sun) with 0.
    rewrite int_add_ok, outcome_bind_ret by lia. rewrite int_sub_ok by lia. f_equal. lia. }
  pose proof (iso_start_range y ltac:(lia)).
  split.
  { etransitivity; [apply (ywnwd_sys_days_spec y (iso_weeks y) 7); lia|]. f_equal. lia. }
  unfold iso_year_plus_years, iso_year_int. cbn [iso_y]. rewrite int_add_ok, !outcome_bind_ret by lia.
  unfold iso_year_ctor. rewrite i16_small by lia.
  etransitivity; [apply (ywnwd_sys_days_spec (y + 1) 1 1); lia|]. f_equal. lia.
Qed.

Lemma year_lastweek_is_last_witness :
  ∃ wn z, yl_weeknum (iso_year_div_last (MkIsoYear 2020) iso_last) = Ret wn
    ∧ 52 ≤ weeknum_unsigned wn ≤ 53
    ∧ ywn_ok (iso_year_div_weeknum (MkIsoYear 2020) wn) = Ret true
    ∧ ywn_ok (iso_year_div_weeknum (MkIsoYear 2020) (weeknum_plus_weeks wn 1)) = Ret false
    ∧ ylwd_sys_days (yl_div_weekday (iso_year_div_last (MkIsoYear 2020) iso_last) iso_sun) = Ret z
    ∧ ywnwd_sys_days (ywn_div_weekday (iso_year_div_weeknum (MkIsoYear 2020) wn) iso_sun) = Ret z
    ∧ (y' ← iso_year_plus_years (MkIsoYear 2020) 1;
       ywnwd_sys_days (ywn_div_weekday (iso_year_div_int y' 1) iso_mon)) = Ret (z + 1).
Proof. apply year_lastweek_is_last; reflexivity. Defined.

(** The least ISO year, -32768, is [ok()] although the year before it, which its weeks
    are counted from, is not a [short]: it is given 196 weeks, the date -32768-W196-Mon is [ok()], and
    the Monday of its first week is 32768-01-01. *)
Theorem iso_year_min_is_wrong :
  iso_year_ok iso_year_min = true
  ∧ yl_weeknum (iso_year_div_last iso_year_min iso_last) = Ret (weeknum_ctor 196)
  ∧ weeknum_ok (weeknum_ctor 196) = false
  ∧ ywnwd_ok (ywn_div_weekday (iso_year_div_int iso_year_min 196) iso_mon) = Ret true
  ∧ ywnwd_sys_days (ywn_div_weekday (iso_year_div_int iso_year_min 1) iso_mon)
    = Ret (civil_days 32768 1 1)
  ∧ civil_days (-32768) 1 1 = -12687794.
Proof. vm_compute. auto 10. Qed.

(** A date and its ISO week date convert to each other, and the ISO weekday is the
    weekday of the date. *)
Theorem ymd_iso_convert (x : year_month_day) :
  wf x = true → ymd_ok x = Ret true → -32766 ≤ year_int (ymd_year x) →
  ∃ e : year_weeknum_weekday, convert x = Ret e ∧ wf e = true ∧ ywnwd_ok e = Ret true
    ∧ convert e = Ret x
    ∧ ∃ z, ymd_to_days x = Ret z
        ∧ iso_weekday_to_weekday (ywnwd_weekday e) = weekday_of_sys_days z.
Proof.
  intros Hwf Hok Hy. destruct (ymd_to_days_ok x Hwf Hok) as [Ht Hr].
  pose proof Hok as Hok'. apply ymd_ok_true in Hok' as [_ Hv].
  set (z := civil_days _ _ _) in *.
  assert (-12687426 ≤ z) as Hlo.
  { assert (civil_valid (-32766) 1 1) as Hf by (unfold civil_valid; vm_compute; intuition discriminate).
    pose proof (civil_days_lt _ _ _ _ _ _ Hv Hf) as A. fold z in A.
    change (civil_days (-32766) 1 1) with (-12687063) in A. unfold year_int, ymd_year in Hy.
    destruct Hv as [? ?]. lia. }
  destruct (convert_back (E := year_weeknum_weekday) (lo' := -12687426) (hi' := last_day) x)
    as (e & He & We & Oe & Be); [done | done | |].
  { intros n Hn. change (ymd_to_days x = Ret n) in Hn. rewrite Ht in Hn. injection Hn as <-. lia. }
  exists e. split; [done|]. split; [done|]. split; [done|]. split; [done|].
  exists z. split; [exact Ht|].
  assert (ywnwd_from_days z = Ret e) as Ee.
  { unfold convert in He. assert (to_serial x = Ret z) as Tz by exact Ht.
    rewrite Tz, outcome_bind_ret in He. exact He. }
  destruct (ywnwd_from_days_ok z) as (y & Hyy & Hb & E); [lia|].
  rewrite Ee in E. injection E as ->. cbn [ywnwd_weekday ywnwd_wd].
  unfold weekday_of_sys_days. rewrite weekday_from_days_mod by lia.
  pose proof (iso_start_monday y). pose proof (Z.mod_pos_bound (z - iso_start y) 7).
  unfold iso_weekday_to_weekday, from_iso_encoding. cbn [iso_wd].
  destruct (Z.eqb_spec ((z - iso_start y) mod 7 + 1) 7); cbn [negb];
    (rewrite weekday_ctor_small by lia); f_equal; div_lia.
Qed.

Lemma ymd_iso_convert_witness :
  ∃ e : year_weeknum_weekday,
    convert (MkYearMonthDay (MkYear 2018) December (MkDay 31)) = Ret e ∧ wf e = true
    ∧ ywnwd_ok e = Ret true
    ∧ convert e = Ret (MkYearMonthDay (MkYear 2018) December (MkDay 31))
    ∧ ∃ z, ymd_to_days (MkYearMonthDay (MkYear 2018) December (MkDay 31)) = Ret z
        ∧ iso_weekday_to_weekday (ywnwd_weekday e) = weekday_of_sys_days z.
Proof.
  apply (ymd_iso_convert (MkYearMonthDay (MkYear 2018) December (MkDay 31)));
    [reflexivity | reflexivity | vm_compute; discriminate].
Defined.

(** * The stream operators [<<] of the classes of include/date/iso_week.h, on the output stream of DateFormat. *)

(** [src: include/date/iso_week.h 557-590 operator<<] *)
Definition put_iso_weekday (wd : iso_weekday) : om unit :=
  match iso_weekday_unsigned wd with
  | 7 => put_text "Sun"
  | 1 => put_text "Mon"
  | 2 => put_text "Tue"
  | 3 => put_text "Wed"
  | 4 => put_text "Thu"
  | 5 => put_text "Fri"
  | 6 => put_text "Sat"
  | _ => put_int (iso_weekday_unsigned wd);; put_text " is not a valid weekday"
  end.

(** [src: include/date/iso_week.h 717-728 operator<<] *)
Definition put_iso_year (y : iso_year) : om unit :=
  put_text (pad_number (if iso_year_lt y (iso_year_ctor 0) then 5 else 4) "0" true (iso_year_int y)).

(** [src: include/date/iso_week.h 879-891 operator<<] *)
Definition put_weeknum (wn : weeknum) : om unit :=
  put_char "W";; put_zeros 2 (weeknum_unsigned wn).

(** [src: include/date/iso_week.h 999-1005 operator<<] *)
Definition put_ywn (ywn : year_weeknum) : om unit :=
  put_iso_year (ywn_year ywn);; put_char "-";; put_weeknum (ywn_weeknum ywn).

(** [src: include/date/iso_week.h 1119-1125 operator<<] *)
Definition put_yl (ywn : year_lastweek) : om unit :=
  put_iso_year (yl_year ywn);; put_text "-W last".

(** [src: include/date/iso_week.h 1198-1204 operator<<] *)
Definition put_wnwd (md : weeknum_weekday) : om unit :=
  put_weeknum (wnwd_weeknum md);; put_char "-";; put_iso_weekday (wnwd_weekday md).

(** [src: include/date/iso_week.h 1272-1278 operator<<] *)
Definition put_lwwd (md : lastweek_weekday) : om unit :=
  put_text "W last-";; put_iso_weekday (lwwd_weekday md).

(** [src: include/date/iso_week.h 1416-1422 operator<<] *)
Definition put_ylwd (ywnwd : year_lastweek_weekday) : om unit :=
  put_iso_year (ylwd_year ywnwd);; put_text "-W last-";; put_iso_weekday (ylwd_weekday ywnwd).

(** [src: include/date/iso_week.h 1595-1601 operator<<] *)
Definition put_ywnwd (ywnwd : year_weeknum_weekday) : om unit :=
  put_iso_year (ywnwd_year ywnwd);; put_char "-";; put_weeknum (ywnwd_weeknum ywnwd);;
  put_char "-";; put_iso_weekday (ywnwd_weekday ywnwd).
