(* ===== verification/CafeRecord.v ===== *)
(** CafeRecord: the records of the speed-test drivers src/rocksdb_rw_speed_test.cpp and
    src/redis_rw_speed_test.cpp: a line of comma-separated fields becomes a key and a buffer (a
    count, an offset and a size for each field, and the fields), which is put into a key-value store
    and read back.

    A [std::string] is the list of its bytes.  The store is an interface, [KVStore]: RocksDB and
    Redis are not in the repository.  The timings and the messages are left out. *)

From Stdlib Require Import ZArith Lia.
From stdpp Require Import base list gmap.
From S2P Require Import Prelude Memory.

(** ** The key-value store *)

Class KVStore (S : Type) := {
  kv_put : S → bytes → bytes → S;
  kv_get : S → bytes → option bytes
}.

(** What the drivers rely on: a get returns the last value put under the key. *)
Class KVStoreLaws (S : Type) `{!KVStore S} : Prop := {
  kv_get_put_eq s k v : kv_get (kv_put s k v) k = Some v;
  kv_get_put_ne s k k' v : k ≠ k' → kv_get (kv_put s k v) k' = kv_get s k'
}.

(** A store in memory. *)
Definition mem_store : Type := gmap (list Z) (list Z).
#[export] Instance mem_kv : KVStore mem_store := {|
  kv_put s k v := <[k := v]> s;
  kv_get s k := s !! k
|}.
#[export] Instance mem_kv_laws : KVStoreLaws mem_store.
Proof.
  split; intros; cbn; [apply lookup_insert_eq | by apply lookup_insert_ne].
Qed.

(** The formatting of redisCommand: the argument that a [%s] takes from the memory at a [char *]. *)
Class RedisFormat := { percent_s : bytes → bytes }.

(** What hiredis documents of [%s]: the argument is a C string, it ends before the first zero. *)
Class RedisFormatLaws `{!RedisFormat} : Prop := {
  percent_s_nul a rest : (0 ∉ a) → percent_s (a ++ 0 :: rest) = a
}.

(** A formatting function with this law. *)
Fixpoint until_nul (s : bytes) : bytes :=
  match s with
  | [] => []
  | b :: s' => if b =? 0 then [] else b :: until_nul s'
  end.
#[export] Instance until_nul_format : RedisFormat := {| percent_s := until_nul |}.
#[export] Instance until_nul_format_laws : RedisFormatLaws.
Proof.
  split. intros a rest. cbn. induction a as [|b a IH]; intros Ha; [done|].
  apply not_elem_of_cons in Ha as [Hb Ha]. cbn. destruct (Z.eqb_spec b 0); [congruence|].
  by rewrite IH.
Qed.

(** ** Lines and fields *)

Definition comma : Z := 44.
Definition colon : Z := 58.
Definition underscore : Z := 95.
Definition newline : Z := 10.

(** The maximal pieces of a byte sequence between the separators; [cur] is the piece so far. *)
Fixpoint pieces (sep : Z) (cur : bytes) (bs : bytes) : list bytes :=
  match bs with
  | [] => [cur]
  | b :: bs' => if b =? sep then cur :: pieces sep [] bs' else pieces sep (cur ++ [b]) bs'
  end.

(** The last piece is left out when it is empty. *)
Fixpoint drop_empty_last (fs : list bytes) : list bytes :=
  match fs with
  | [] => []
  | [f] => match f with [] => [] | _ => [f] end
  | f :: fs' => f :: drop_empty_last fs'
  end.

(** [std::sregex_token_iterator] with submatch -1 and a delimiter of one ordinary character: the
    pieces between the matches, without an empty piece after the last match; a line without a match
    is one piece, even if it is empty.
    [src: src/rocksdb_rw_speed_test.cpp 13-25 split] *)
Definition split (line : bytes) (delimiter : Z) : list bytes :=
  match pieces delimiter [] line with
  | [f] => [f]
  | fs => drop_empty_last fs
  end.

(** [getline] until it fails: the lines of the file, the last one with or without its newline. *)
Definition file_lines (file : bytes) : list bytes := drop_empty_last (pieces newline [] file).

(** The position of each field in a line. [src: src/rocksdb_rw_speed_test.cpp 53-59 cafe_key_e] *)
Inductive cafe_key_e : Type := trans_date | trans_time | ref_nbr | customer_id.

Definition cafe_index (e : cafe_key_e) : Z :=
  match e with trans_date => 0 | trans_time => 1 | ref_nbr => 2 | customer_id => 3 end.

(** [src: src/rocksdb_rw_speed_test.cpp 93-93 main] *)
Definition cafe_key (ret : list bytes) : outcome bytes :=
  cid ← arr_get ret (cafe_index customer_id);
  date ← arr_get ret (cafe_index trans_date);
  time ← arr_get ret (cafe_index trans_time);
  ref ← arr_get ret (cafe_index ref_nbr);
  Ret (cid ++ [colon] ++ cid ++ [colon] ++ date ++ [underscore] ++ time ++ [underscore] ++ ref).

(** ** The buffer *)

(** [src: src/rocksdb_rw_speed_test.cpp 98-102 block_t] *)
Record block_t : Type := Block { off : Z; size : Z }.

(** The four bytes of a block. *)
Definition block_bytes (b : block_t) : bytes := le_bytes 2 (off b) ++ le_bytes 2 (size b).

Definition block_of_bytes (bs : bytes) : block_t :=
  Block (le_value (take 2 bs)) (le_value (take 2 (drop 2 bs))).

(** The loop that appends a block for each field; [boff] is a [size_t], the members of the block
    are 16 bits wide, and [boff] advances by the member [size].
    [src: src/rocksdb_rw_speed_test.cpp 107-115 main] *)
Fixpoint make_blocks (boff : Z) (ret : list bytes) : list block_t :=
  match ret with
  | [] => []
  | f :: ret' =>
      let block := Block (u16 boff) (u16 (Z.of_nat (length f))) in
      block :: make_blocks (u64 (boff + size block)) ret'
  end.

(** [src: src/rocksdb_rw_speed_test.cpp 104-120 main] *)
Definition encode (ret : list bytes) : bytes :=
  le_bytes 8 (Z.of_nat (length ret))
  ++ mjoin (block_bytes <$> make_blocks 0 ret)
  ++ mjoin ret.

(** [c_str()]: the bytes and a zero. *)
Definition c_str (s : bytes) : bytes := s ++ [0].

(** The value of field [e], read through pointers into [out.c_str()].
    [src: src/rocksdb_rw_speed_test.cpp 138-142 main] *)
Definition decode (out : bytes) (e : cafe_key_e) : outcome bytes :=
  c ← arr_slice (c_str out) 0 8;
  let count := le_value c in
  b ← arr_slice (c_str out) (8 + 4 * cafe_index e) 4;
  let blk := block_of_bytes b in
  arr_slice (c_str out) (8 + u64 (4 * count) + off blk) (size blk).

(** ** The drivers *)

Section driver.
Context {S : Type} `{!KVStore S}.

(** One call of the lambda for a line: the store after it and the value it read back.
    [db->Get] leaves [out] empty when there is no value.
    [src: src/rocksdb_rw_speed_test.cpp 88-157 main] *)
Definition rocksdb_line (db : S) (line : bytes) : outcome (S * bytes) :=
  let ret := split line comma in
  key ← cafe_key ret;
  let buffer := encode ret in
  let db := kv_put db key buffer in
  let out := default [] (kv_get db key) in
  value ← decode out customer_id;
  Ret (db, value).

(** The callback on every line of a file, in order; the values read back.
    [src: src/rocksdb_rw_speed_test.cpp 27-44 read_file_line] *)
Fixpoint read_file_line {R : Type} (callback : S → bytes → outcome (S * R))
    (db : S) (lines : list bytes) : outcome (S * list R) :=
  match lines with
  | [] => Ret (db, [])
  | line :: lines' =>
      '(db, v) ← callback db line;
      '(db, vs) ← read_file_line callback db lines';
      Ret (db, v :: vs)
  end.

(** The whole run on a file. [src: src/rocksdb_rw_speed_test.cpp 63-160 main] *)
Definition rocksdb_main (db : S) (file : bytes) : outcome (S * list bytes) :=
  read_file_line rocksdb_line db (file_lines file).

(** The same lambda in the Redis driver.  Key and buffer go through [%s] of
    their [c_str()]; the reply of GET is
    freed without being copied, so [out] is still empty when it is decoded.
    [src: src/redis_rw_speed_test.cpp 107-190 main] *)
Definition redis_line `{!RedisFormat} (db : S) (line : bytes) : outcome (S * bytes) :=
  let ret := split line comma in
  key ← cafe_key ret;
  let buffer := encode ret in
  let db := kv_put db (percent_s (c_str key)) (percent_s (c_str buffer)) in
  let reply := kv_get db (percent_s (c_str key)) in
  let out := [] in
  value ← decode out customer_id;
  Ret (db, value).
End driver.

(** ** The stored structure of src/rocksdb_arbitrary_store.cpp *)

(** Two [int]s, ten characters, and the two bytes that align the size to four.
    [src: src/rocksdb_arbitrary_store.cpp 35-40 Bob] *)
Record Bob : Type := MkBob { bob_a : Z; bob_b : Z; bob_c : bytes; bob_pad : bytes }.

Definition bob_wf (b : Bob) : Prop :=
  is_i32 (bob_a b) = true ∧ is_i32 (bob_b b) = true ∧ length (bob_c b) = 10%nat
  ∧ length (bob_pad b) = 2%nat.

Definition sizeof_Bob : nat := 20.

(** The bytes of the structure. [src: src/rocksdb_arbitrary_store.cpp 14-20 Pack] *)
Definition Pack (b : Bob) : bytes :=
  le_bytes 4 (bob_a b) ++ le_bytes 4 (bob_b b) ++ bob_c b ++ bob_pad b.

(** [None] is the null pointer. [src: src/rocksdb_arbitrary_store.cpp 22-33 Unpack] *)
Definition Unpack (data : bytes) : option Bob :=
  if negb (length data =? sizeof_Bob)%nat then None
  else Some (MkBob (i32 (le_value (take 4 data))) (i32 (le_value (take 4 (drop 4 data))))
                   (take 10 (drop 8 data)) (drop 18 data)).
