(* ===== verification/CafeProofs.v ===== *)
(** CafeProofs: the record encoding of the speed-test drivers: where the fields are in the buffer,
    what is read back, how lines split into fields. *)

From Stdlib Require Import ZArith Lia.
From stdpp Require Import base list gmap.
From S2P Require Import Prelude Memory CafeRecord.

(** ** Slices *)

Lemma arr_slice_app_r {A} (a b : list A) o n :
  0 ≤ o → arr_slice (a ++ b) (Z.of_nat (length a) + o) n = arr_slice b o n.
Proof.
  intros Ho. unfold arr_slice. rewrite length_app, Nat2Z.inj_add.
  assert ((0 <=? Z.of_nat (length a) + o) = (0 <=? o)) as ->
    by (apply Bool.eq_iff_eq_true; rewrite !Z.leb_le; lia).
  assert ((Z.of_nat (length a) + o + n <=? Z.of_nat (length a) + Z.of_nat (length b))
          = (o + n <=? Z.of_nat (length b))) as ->
    by (apply Bool.eq_iff_eq_true; rewrite !Z.leb_le; lia).
  destruct ((0 <=? o) && (0 <=? n) && (o + n <=? Z.of_nat (length b))); [|done].
  rewrite Z2Nat.inj_add, Nat2Z.id by lia. by rewrite <- drop_drop, drop_app_length.
Qed.

Lemma arr_slice_prefix {A} (a b : list A) n :
  n = Z.of_nat (length a) → arr_slice (a ++ b) 0 n = Ret a.
Proof.
  intros ->. unfold arr_slice. rewrite length_app, Nat2Z.inj_add.
  assert (((0 <=? 0) && (0 <=? Z.of_nat (length a))
           && (0 + Z.of_nat (length a) <=? Z.of_nat (length a) + Z.of_nat (length b))) = true) as ->
    by (rewrite !andb_true_iff, !Z.leb_le; lia).
  by rewrite Nat2Z.id, drop_0, take_app_length.
Qed.

(** ** The blocks *)

Lemma length_block_bytes b : length (block_bytes b) = 4%nat.
Proof. unfold block_bytes. by rewrite length_app, !length_le_bytes. Qed.

Lemma length_blocks bs : length (mjoin (block_bytes <$> bs)) = (4 * length bs)%nat.
Proof.
  induction bs as [|b bs IH]; [done|].
  change (mjoin (block_bytes <$> b :: bs)) with (block_bytes b ++ mjoin (block_bytes <$> bs)).
  rewrite length_app, length_block_bytes, IH. cbn [length]. lia.
Qed.

Lemma length_make_blocks boff ret : length (make_blocks boff ret) = length ret.
Proof. revert boff. induction ret; intros; simpl; auto. Qed.

Lemma block_of_block_bytes b :
  0 ≤ off b < 65536 → 0 ≤ size b < 65536 → block_of_bytes (block_bytes b) = b.
Proof.
  intros Ho Hs. unfold block_of_bytes, block_bytes.
  rewrite take_app_length', drop_app_length' by (by rewrite length_le_bytes).
  rewrite take_ge by (rewrite length_le_bytes; lia).
  rewrite !le_value_u16. unfold uwrap. change (2 ^ 16) with 65536.
  rewrite !Z.mod_small by lia. by destruct b.
Qed.

(** The sum of the 16-bit sizes of the first [i] fields. *)
Fixpoint field_off (ret : list bytes) (i : nat) : Z :=
  match i, ret with
  | S i', f :: ret' => u16 (Z.of_nat (length f)) + field_off ret' i'
  | _, _ => 0
  end.

Lemma u16_range x : 0 ≤ u16 x < 65536.
Proof. apply (uwrap_range 16). lia. Qed.

Lemma field_off_range ret i : 0 ≤ field_off ret i ≤ 65535 * Z.of_nat i.
Proof.
  revert ret. induction i as [|i IH]; intros [|f ret]; cbn [field_off]; try lia.
  specialize (IH ret). pose proof (u16_range (Z.of_nat (length f))). lia.
Qed.

(** Without truncation it is the position of the field. *)
Lemma field_off_small ret i :
  Z.of_nat (length (mjoin (take i ret))) < 65536 →
  field_off ret i = Z.of_nat (length (mjoin (take i ret))).
Proof.
  revert ret. induction i as [|i IH]; intros [|f ret] H; cbn [field_off]; try done.
  change (mjoin (take (S i) (f :: ret))) with (f ++ mjoin (take i ret)) in *.
  rewrite length_app, Nat2Z.inj_add in *.
  rewrite (IH ret) by lia. unfold uwrap. change (2 ^ 16) with 65536. rewrite Z.mod_small by lia. done.
Qed.

Lemma make_blocks_lookup boff ret i f :
  ret !! i = Some f → 0 ≤ boff → boff + 65536 * Z.of_nat (length ret) < 18446744073709551616 →
  make_blocks boff ret !! i
  = Some (Block (u16 (boff + field_off ret i)) (u16 (Z.of_nat (length f)))).
Proof.
  revert boff ret. induction i as [|i IH]; intros boff [|g ret] Hf H0 Hb; try done.
  - injection Hf as ->. cbn. by rewrite Z.add_0_r.
  - cbn [make_blocks lookup list_lookup field_off length size] in *.
    pose proof (u16_range (Z.of_nat (length g))).
    rewrite u64_small by lia.
    change (make_blocks (boff + u16 (Z.of_nat (length g))) ret !! i
            = Some (Block (u16 (boff + (u16 (Z.of_nat (length g)) + field_off ret i)))
                          (u16 (Z.of_nat (length f))))).
    rewrite (IH _ ret Hf) by lia. by rewrite Z.add_assoc.
Qed.

Lemma join_blocks_slice bs i b rest :
  bs !! i = Some b →
  arr_slice (mjoin (block_bytes <$> bs) ++ rest) (4 * Z.of_nat i) 4 = Ret (block_bytes b).
Proof.
  revert i. induction bs as [|c bs IH]; intros [|i] Hb; try done.
  - injection Hb as ->.
    change (mjoin (block_bytes <$> b :: bs)) with (block_bytes b ++ mjoin (block_bytes <$> bs)).
    rewrite <- app_assoc.
    apply arr_slice_prefix. by rewrite length_block_bytes.
  - change (mjoin (block_bytes <$> c :: bs)) with (block_bytes c ++ mjoin (block_bytes <$> bs)).
    rewrite <- app_assoc.
    replace (4 * Z.of_nat (S i)) with (Z.of_nat (length (block_bytes c)) + 4 * Z.of_nat i)
      by (rewrite length_block_bytes; lia).
    rewrite arr_slice_app_r by lia. by apply IH.
Qed.

(** ** Reading a field back *)

Definition cafe_nat (e : cafe_key_e) : nat :=
  match e with trans_date => 0 | trans_time => 1 | ref_nbr => 2 | customer_id => 3 end.

Lemma cafe_index_nat e : cafe_index e = Z.of_nat (cafe_nat e).
Proof. by destruct e. Qed.

(** What [decode] reads from an encoded record: the bytes of the payload at the 16-bit offset and of
    the 16-bit size of the field. *)
Lemma decode_encode ret e f :
  Z.of_nat (length ret) < 1099511627776 → ret !! cafe_nat e = Some f →
  decode (encode ret) e
  = arr_slice (c_str (mjoin ret)) (u16 (field_off ret (cafe_nat e))) (u16 (Z.of_nat (length f))).
Proof.
  intros Hl Hf. unfold decode, c_str, encode.
  set (n := Z.of_nat (length ret)) in *.
  set (blocks := make_blocks 0 ret).
  assert (blocks !! cafe_nat e
          = Some (Block (u16 (field_off ret (cafe_nat e))) (u16 (Z.of_nat (length f))))) as Hb.
  { unfold blocks. rewrite (make_blocks_lookup 0 ret _ f) by (done || lia). done. }
  rewrite <- !app_assoc.
  rewrite arr_slice_prefix, outcome_bind_ret by (by rewrite length_le_bytes).
  rewrite le_value_u64. rewrite (u64_small n) by lia. rewrite u64_small by lia.
  rewrite cafe_index_nat.
  replace (8 + 4 * Z.of_nat (cafe_nat e)) with (Z.of_nat (length (le_bytes 8 n)) + 4 * Z.of_nat (cafe_nat e))
    by (rewrite length_le_bytes; lia).
  rewrite arr_slice_app_r by lia.
  rewrite (join_blocks_slice _ _ _ _ Hb), outcome_bind_ret.
  rewrite block_of_block_bytes by (apply u16_range). cbn [off size].
  pose proof (u16_range (field_off ret (cafe_nat e))).
  replace (8 + 4 * n + u16 (field_off ret (cafe_nat e)))
    with (Z.of_nat (length (le_bytes 8 n))
          + (Z.of_nat (length (mjoin (block_bytes <$> blocks))) + u16 (field_off ret (cafe_nat e)))).
  2:{ rewrite length_le_bytes, length_blocks. unfold blocks. rewrite length_make_blocks.
      unfold n. lia. }
  rewrite !arr_slice_app_r by lia. done.
Qed.

Lemma mjoin_split_at (ret : list bytes) i f :
  ret !! i = Some f →
  mjoin ret = mjoin (take i ret) ++ f ++ mjoin (drop (S i) ret).
Proof.
  intros H. rewrite <- (take_drop_middle ret i f H) at 1.
  by rewrite join_app.
Qed.

(** The field is read back cut to its 16-bit size, when the fields before it fit in 16 bits. *)
Lemma decode_encode_field ret e f :
  Z.of_nat (length ret) < 1099511627776 → ret !! cafe_nat e = Some f →
  Z.of_nat (length (mjoin (take (cafe_nat e) ret))) < 65536 →
  decode (encode ret) e = Ret (take (Z.to_nat (u16 (Z.of_nat (length f)))) f).
Proof.
  intros Hl Hf Hs. rewrite (decode_encode _ _ f) by done. rewrite field_off_small by done.
  assert (u16 (Z.of_nat (length (mjoin (take (cafe_nat e) ret))))
          = Z.of_nat (length (mjoin (take (cafe_nat e) ret)))) as ->.
  { unfold uwrap. change (2 ^ 16) with 65536. apply Z.mod_small. lia. }
  unfold c_str. rewrite (mjoin_split_at _ _ _ Hf). rewrite <- !app_assoc.
  replace (Z.of_nat (length (mjoin (take (cafe_nat e) ret))))
    with (Z.of_nat (length (mjoin (take (cafe_nat e) ret))) + 0) by lia.
  rewrite arr_slice_app_r by lia.
  pose proof (u16_range (Z.of_nat (length f))).
  assert (u16 (Z.of_nat (length f)) ≤ Z.of_nat (length f)).
  { unfold uwrap. change (2 ^ 16) with 65536. apply Z.mod_le; lia. }
  rewrite <- (take_drop (Z.to_nat (u16 (Z.of_nat (length f)))) f) at 1.
  rewrite <- app_assoc. apply arr_slice_prefix. rewrite length_take. lia.
Qed.

(** ** Splitting *)

Lemma pieces_not_nil sep cur bs : pieces sep cur bs ≠ [].
Proof. revert cur. induction bs as [|b bs IH]; intros; simpl; [done|]. by destruct (b =? sep). Qed.

Lemma length_pieces sep cur bs : (length (pieces sep cur bs) <= S (length bs))%nat.
Proof.
  revert cur. induction bs as [|b bs IH]; intros; simpl; [lia|].
  destruct (b =? sep); simpl; [specialize (IH []) | specialize (IH (cur ++ [b]))]; lia.
Qed.

Lemma length_drop_empty_last fs : (length (drop_empty_last fs) <= length fs)%nat.
Proof.
  induction fs as [|f [|g fs] IH]; [done | by destruct f; simpl; lia |].
  cbn [drop_empty_last length] in *. lia.
Qed.

Lemma length_split line d : (length (split line d) <= S (length line))%nat.
Proof.
  pose proof (length_pieces d [] line). unfold split.
  destruct (pieces d [] line) as [|f [|g fs]] eqn:E; [simpl in *; lia.. |].
  pose proof (length_drop_empty_last (f :: g :: fs)). lia.
Qed.

(** There is at least one field. *)
Lemma length_split_pos line d : 0 < Z.of_nat (length (split line d)).
Proof.
  pose proof (pieces_not_nil d [] line). unfold split.
  destruct (pieces d [] line) as [|f [|g fs]]; [done | cbn; lia |].
  cbn [drop_empty_last length]. lia.
Qed.

(** A piece without separators is consumed whole. *)
Lemma pieces_app sep cur f bs :
  sep ∉ f → pieces sep cur (f ++ sep :: bs) = (cur ++ f) :: pieces sep [] bs.
Proof.
  revert cur. induction f as [|b f IH]; intros cur Hn; cbn [app pieces].
  - by rewrite Z.eqb_refl, app_nil_r.
  - apply not_elem_of_cons in Hn as [Hb Hf]. destruct (Z.eqb_spec b sep); [congruence|].
    rewrite IH by done. by rewrite <- app_assoc.
Qed.

Lemma pieces_last sep cur f : sep ∉ f → pieces sep cur f = [cur ++ f].
Proof.
  revert cur. induction f as [|b f IH]; intros cur Hn; cbn [pieces].
  - by rewrite app_nil_r.
  - apply not_elem_of_cons in Hn as [Hb Hf]. destruct (Z.eqb_spec b sep); [congruence|].
    rewrite IH by done. by rewrite <- app_assoc.
Qed.

(** The fields with a separator between them. *)
Fixpoint join_with (sep : Z) (fs : list bytes) : bytes :=
  match fs with
  | [] => []
  | [f] => f
  | f :: fs' => f ++ sep :: join_with sep fs'
  end.

Lemma pieces_join sep fs :
  fs ≠ [] → Forall (λ f, sep ∉ f) fs → pieces sep [] (join_with sep fs) = fs.
Proof.
  intros Hn H. induction H as [|f fs Hf H IH]; [done|].
  destruct fs as [|g fs]; [by apply pieces_last|].
  change (join_with sep (f :: g :: fs)) with (f ++ sep :: join_with sep (g :: fs)).
  rewrite pieces_app by done. by rewrite IH.
Qed.

Lemma drop_empty_last_id fs : last fs ≠ Some [] → drop_empty_last fs = fs.
Proof.
  induction fs as [|f [|g fs] IH]; intros Hl; [done | by destruct f |].
  cbn [drop_empty_last]. f_equal. by apply IH.
Qed.

Lemma drop_empty_last_snoc fs : fs ≠ [] → drop_empty_last (fs ++ [[]]) = fs.
Proof.
  intros Hn. induction fs as [|f [|g fs] IH]; [done | done |].
  cbn [app drop_empty_last]. f_equal. by apply IH.
Qed.

(** ** Keys *)

Lemma cafe_key_spec ret date time ref cid rest :
  ret = date :: time :: ref :: cid :: rest →
  cafe_key ret
  = Ret (cid ++ [colon] ++ cid ++ [colon] ++ date ++ [underscore] ++ time ++ [underscore] ++ ref).
Proof. by intros ->. Qed.

Lemma cafe_key_short ret : (length ret < 4)%nat → cafe_key ret = Fault OutOfBounds.
Proof. intros H. destruct ret as [|? [|? [|? [|? ?]]]]; done || (simpl in H; lia). Qed.

(** Two texts that agree up to their first separator. *)
Lemma app_sep_inj sep (a b x y : bytes) :
  sep ∉ a → sep ∉ b → a ++ sep :: x = b ++ sep :: y → a = b ∧ x = y.
Proof.
  revert b. induction a as [|c a IH]; intros [|d b] Ha Hb E; cbn in E.
  - by injection E.
  - injection E as -> _. by apply not_elem_of_cons in Hb as [? _].
  - injection E as <- _. by apply not_elem_of_cons in Ha as [? _].
  - injection E as -> E. apply not_elem_of_cons in Ha as [_ Ha], Hb as [_ Hb].
    destruct (IH b Ha Hb E) as [-> ->]. done.
Qed.

(** ** The drivers *)

Section driver.
Context {S : Type} `{!KVStore S, !KVStoreLaws S}.
Implicit Types (db : S) (line : bytes).

(** The fields, the key and the customer of a line. *)
Definition line_record line (key cid : bytes) : Prop :=
  cafe_key (split line comma) = Ret key ∧ split line comma !! 3%nat = Some cid.

(** The first four fields together are shorter than 65536 bytes. *)
Definition line_fits line : Prop :=
  Z.of_nat (length line) < 549755813888
  ∧ Z.of_nat (length (mjoin (take 4 (split line comma)))) < 65536.

Lemma line_record_exists line :
  (4 <= length (split line comma))%nat → ∃ key cid, line_record line key cid.
Proof.
  unfold line_record. destruct (split line comma) as [|a [|b [|c [|d rest]]]]; simpl; try lia.
  intros _. eexists _, d. split; [by eapply cafe_key_spec | done].
Qed.

Lemma rocksdb_line_cut db line key cid :
  line_record line key cid → Z.of_nat (length line) < 549755813888 →
  Z.of_nat (length (mjoin (take 3 (split line comma)))) < 65536 →
  rocksdb_line db line
  = Ret (kv_put db key (encode (split line comma)),
         take (Z.to_nat (u16 (Z.of_nat (length cid)))) cid).
Proof.
  intros [Hk Hc] Hl Hs. unfold rocksdb_line. rewrite Hk, outcome_bind_ret.
  rewrite kv_get_put_eq.
  change (default [] (Some (encode (split line comma)))) with (encode (split line comma)).
  pose proof (length_split line comma).
  rewrite (decode_encode_field _ customer_id cid) by (done || lia). done.
Qed.

Lemma rocksdb_line_ok db line key cid :
  line_record line key cid → line_fits line →
  rocksdb_line db line = Ret (kv_put db key (encode (split line comma)), cid).
Proof.
  intros Hr [Hl Hs]. pose proof Hr as [_ Hc].
  rewrite (take_S_r _ 3 cid Hc), join_app, length_app in Hs. cbn in Hs. rewrite app_nil_r in Hs.
  rewrite (rocksdb_line_cut _ _ key cid) by (done || lia). do 2 f_equal.
  unfold uwrap. change (2 ^ 16) with 65536. rewrite Z.mod_small by lia.
  rewrite Nat2Z.id. apply take_ge. lia.
Qed.

(** A run over lines that fit: what it reads back and what it leaves in the store. *)
Lemma rocksdb_lines db (recs : list (bytes * bytes * bytes)) :
  Forall (λ r, line_record r.1.1 r.1.2 r.2 ∧ line_fits r.1.1) recs →
  ∃ db', read_file_line rocksdb_line db (fst ∘ fst <$> recs) = Ret (db', snd <$> recs)
    ∧ (∀ k, k ∉ (snd ∘ fst <$> recs) → kv_get db' k = kv_get db k)
    ∧ (∀ i line k cid, recs !! i = Some (line, k, cid) →
         k ∉ (snd ∘ fst <$> drop (Datatypes.S i) recs) →
         kv_get db' k = Some (encode (split line comma))).
Proof.
  intros H. revert db. induction H as [|[[line k] cid] recs [Hr Hf] _ IH]; intros db.
  - exists db. split; [done|]. split; [done|]. by intros [|i].
  - cbn in Hr, Hf. destruct (IH (kv_put db k (encode (split line comma)))) as (db' & E & Hout & Hin).
    exists db'. cbn [fmap list_fmap compose fst snd read_file_line].
    rewrite (rocksdb_line_ok _ _ _ _ Hr Hf), outcome_bind_ret.
    change (list_fmap _ _ (fst ∘ fst) recs) with (fst ∘ fst <$> recs).
    rewrite E, outcome_bind_ret. split; [done|]. split.
    + intros k' Hk'. apply not_elem_of_cons in Hk' as [Hne Hk'].
      rewrite Hout by done. by apply kv_get_put_ne.
    + intros [|i] line' k' cid' Hl Hn.
      * injection Hl as <- <- <-. rewrite Hout by done. apply kv_get_put_eq.
      * by eapply Hin.
Qed.
End driver.
