(* ===== verification/Sds.v ===== *)
(** Sds: the headers of the strings of hiredis, include/hiredis/sds.h: an [sds] points behind a packed header,
    whose last byte, [s[-1]], says in its low three bits how wide the lengths before it are.

    A block of memory is its bytes, and an [sds] an index into it. *)

From Stdlib Require Import ZArith Lia.
From stdpp Require Import base list.
From S2P Require Import Prelude Memory.

#[local] Open Scope Z_scope.

(** ** Integers in memory *)

Definition load_le (m : bytes) (off : Z) (w : nat) : outcome Z :=
  bs ← arr_slice m off (Z.of_nat w); Ret (le_value bs).
Definition store_le (m : bytes) (off : Z) (w : nat) (v : Z) : outcome bytes := arr_blit m off (le_bytes w v).

Lemma load_le_at pre w x rest :
  load_le (pre ++ le_bytes w x ++ rest) (Z.of_nat (length pre)) w = Ret (x mod 256 ^ Z.of_nat w).
Proof.
  unfold load_le. rewrite arr_slice_ok by (rewrite !length_app, length_le_bytes; lia). cbn [mbind outcome_bind].
  rewrite drop_app_length. rewrite <- (length_le_bytes w x) at 1. by rewrite take_app_length, le_value_le_bytes.
Qed.

Lemma store_le_at pre w x y rest :
  store_le (pre ++ le_bytes w x ++ rest) (Z.of_nat (length pre)) w y = Ret (pre ++ le_bytes w y ++ rest).
Proof.
  unfold store_le. rewrite arr_blit_ok by (rewrite !length_app, !length_le_bytes; lia). f_equal. unfold blit.
  rewrite take_app_length, drop_app_ge by lia. do 2 f_equal.
  replace (length pre + length (le_bytes w y) - length pre)%nat with (length (le_bytes w x)) by (rewrite !length_le_bytes; lia).
  by rewrite drop_app_length.
Qed.

(** ** sds.h *)

(** [src: include/hiredis/sds.h 78-78 SDS_TYPE_5] *)
Definition SDS_TYPE_5 : Z := 0.
(** [src: include/hiredis/sds.h 79-79 SDS_TYPE_8] *)
Definition SDS_TYPE_8 : Z := 1.
(** [src: include/hiredis/sds.h 80-80 SDS_TYPE_16] *)
Definition SDS_TYPE_16 : Z := 2.
(** [src: include/hiredis/sds.h 81-81 SDS_TYPE_32] *)
Definition SDS_TYPE_32 : Z := 3.
(** [src: include/hiredis/sds.h 82-82 SDS_TYPE_64] *)
Definition SDS_TYPE_64 : Z := 4.
(** [src: include/hiredis/sds.h 83-83 SDS_TYPE_MASK] *)
Definition SDS_TYPE_MASK : Z := 7.
(** [src: include/hiredis/sds.h 84-84 SDS_TYPE_BITS] *)
Definition SDS_TYPE_BITS : Z := 3.

(** Where the members of the header with lengths of [w] bytes are: it has [2 * w + 1] bytes, the two lengths and
    the flags.
    [src: include/hiredis/sds.h 86-86 SDS_HDR] *)
Definition SDS_HDR (w : nat) (s : Z) : Z := s - (2 * Z.of_nat w + 1).
Definition hdr_len (w : nat) (s : Z) : Z := SDS_HDR w s.
Definition hdr_alloc (w : nat) (s : Z) : Z := SDS_HDR w s + Z.of_nat w.

(** [src: include/hiredis/sds.h 87-87 SDS_TYPE_5_LEN] *)
Definition SDS_TYPE_5_LEN (f : Z) : Z := Z.shiftr f SDS_TYPE_BITS.

(** The [switch] of each function: [five] for the header that is one byte, [wide] for one with lengths of a number of
    bytes, [other] when there is no such type. *)
Definition sds_switch {A} (flags : Z) (five : A) (wide : nat → A) (other : A) : A :=
  let type := Z.land flags SDS_TYPE_MASK in
  if type =? SDS_TYPE_5 then five
  else if type =? SDS_TYPE_8 then wide 1%nat
  else if type =? SDS_TYPE_16 then wide 2%nat
  else if type =? SDS_TYPE_32 then wide 4%nat
  else if type =? SDS_TYPE_64 then wide 8%nat
  else other.

(** [src: include/hiredis/sds.h 89-104 sdslen] *)
Definition sdslen (m : bytes) (s : Z) : outcome Z :=
  flags ← arr_get m (s - 1);
  sds_switch flags (Ret (SDS_TYPE_5_LEN flags)) (λ w, load_le m (hdr_len w s) w) (Ret 0).

(** The difference of two [uint8_t] or [uint16_t] is an [int], which [size_t] takes in.
    [src: include/hiredis/sds.h 106-130 sdsavail] *)
Definition sdsavail (m : bytes) (s : Z) : outcome Z :=
  flags ← arr_get m (s - 1);
  sds_switch flags (Ret 0)
    (λ w, alloc ← load_le m (hdr_alloc w s) w; len ← load_le m (hdr_len w s) w;
          Ret (if (w =? 4)%nat then u32 (alloc - len) else u64 (alloc - len)))
    (Ret 0).

(** [src: include/hiredis/sds.h 132-154 sdssetlen] *)
Definition sdssetlen (m : bytes) (s newlen : Z) : outcome bytes :=
  flags ← arr_get m (s - 1);
  sds_switch flags (arr_set m (s - 1) (u8 (Z.lor SDS_TYPE_5 (u64 (Z.shiftl newlen SDS_TYPE_BITS)))))
    (λ w, store_le m (hdr_len w s) w newlen) (Ret m).

(** [src: include/hiredis/sds.h 156-179 sdsinclen] *)
Definition sdsinclen (m : bytes) (s inc : Z) : outcome bytes :=
  flags ← arr_get m (s - 1);
  sds_switch flags
    (let newlen := u8 (SDS_TYPE_5_LEN flags + u8 inc) in
     arr_set m (s - 1) (u8 (Z.lor SDS_TYPE_5 (Z.shiftl newlen SDS_TYPE_BITS))))
    (λ w, len ← load_le m (hdr_len w s) w;
          store_le m (hdr_len w s) w (len + uwrap (8 * Z.of_nat w) inc)) (Ret m).

(** [src: include/hiredis/sds.h 182-197 sdsalloc] *)
Definition sdsalloc (m : bytes) (s : Z) : outcome Z :=
  flags ← arr_get m (s - 1);
  sds_switch flags (Ret (SDS_TYPE_5_LEN flags)) (λ w, load_le m (hdr_alloc w s) w) (Ret 0).

(** [src: include/hiredis/sds.h 199-218 sdssetalloc] *)
Definition sdssetalloc (m : bytes) (s newlen : Z) : outcome bytes :=
  flags ← arr_get m (s - 1);
  sds_switch flags (Ret m) (λ w, store_le m (hdr_alloc w s) w newlen) (Ret m).

(** ** Headers as values *)

(** A header: its type, by the bytes of a length or 0 for the type 5; the length; the space, and the high five bits of
    the flags, which the type 5 has not. *)
Inductive sds_width : Type := W5 | W8 | W16 | W32 | W64.
Record sds_header : Type := MkHeader { h_width : sds_width; h_len : Z; h_alloc : Z; h_high : Z }.

Definition width_bytes (w : sds_width) : nat := match w with W5 => 0 | W8 => 1 | W16 => 2 | W32 => 4 | W64 => 8 end.
Definition width_type (w : sds_width) : Z :=
  match w with W5 => SDS_TYPE_5 | W8 => SDS_TYPE_8 | W16 => SDS_TYPE_16 | W32 => SDS_TYPE_32 | W64 => SDS_TYPE_64 end.

(** The bits of a length. *)
Definition len_bits (w : sds_width) : Z := match w with W5 => 5 | _ => 8 * Z.of_nat (width_bytes w) end.

Definition header_flags (h : sds_header) : Z :=
  width_type (h_width h) + 8 * (match h_width h with W5 => h_len h | _ => h_high h end).

Definition header_bytes (h : sds_header) : bytes :=
  le_bytes (width_bytes (h_width h)) (h_len h) ++ le_bytes (width_bytes (h_width h)) (h_alloc h) ++ [header_flags h].

Definition header_ok (h : sds_header) : Prop :=
  0 ≤ h_len h < 2 ^ len_bits (h_width h) ∧ 0 ≤ h_alloc h < 2 ^ len_bits (h_width h) ∧ 0 ≤ h_high h < 32.

(** A string in a block: what is before its header, the header, what is behind. *)
Definition sds_block (pre : bytes) (h : sds_header) (content : bytes) : bytes := pre ++ header_bytes h ++ content.
Definition sds_at (pre : bytes) (h : sds_header) : Z := Z.of_nat (length pre + length (header_bytes h)).

Definition with_len (n : Z) (h : sds_header) : sds_header :=
  MkHeader (h_width h) (n mod 2 ^ len_bits (h_width h)) (h_alloc h) (h_high h).
Definition with_alloc (n : Z) (h : sds_header) : sds_header :=
  match h_width h with W5 => h | _ => MkHeader (h_width h) (h_len h) (n mod 2 ^ len_bits (h_width h)) (h_high h) end.

Section header.
Context (pre content : bytes) (h : sds_header) (Hok : header_ok h).
Abbreviation m := (sds_block pre h content).
Abbreviation s := (sds_at pre h).

Lemma length_header h' : length (header_bytes h') = (2 * width_bytes (h_width h') + 1)%nat.
Proof using. unfold header_bytes. rewrite !length_app, !length_le_bytes. cbn. lia. Qed.

Lemma block_flags : m = (pre ++ le_bytes (width_bytes (h_width h)) (h_len h) ++ le_bytes (width_bytes (h_width h)) (h_alloc h))
  ++ header_flags h :: content.
Proof using. unfold sds_block, header_bytes. by rewrite <- !app_assoc. Qed.

Lemma flags_at : s - 1 = Z.of_nat (length (pre ++ le_bytes (width_bytes (h_width h)) (h_len h)
  ++ le_bytes (width_bytes (h_width h)) (h_alloc h))).
Proof using. unfold sds_at. rewrite length_header, !length_app, !length_le_bytes. lia. Qed.

Lemma flags_get : arr_get m (s - 1) = Ret (header_flags h).
Proof using. rewrite flags_at, block_flags. apply arr_get_lookup. by apply list_lookup_middle. Qed.

Lemma flags_set v : arr_set m (s - 1) v = Ret (pre ++ le_bytes (width_bytes (h_width h)) (h_len h)
  ++ le_bytes (width_bytes (h_width h)) (h_alloc h) ++ v :: content).
Proof using.
  rewrite flags_at, block_flags, arr_set_lt by (rewrite (length_app (pre ++ _)); cbn; lia).
  rewrite insert_app_r_alt, Nat.sub_diag by done. cbn. by rewrite <- !app_assoc.
Qed.

Lemma sds_switch_flags {A} (five : A) (wide : nat → A) (other : A) :
  sds_switch (header_flags h) five wide other =
    match h_width h with W5 => five | w => wide (width_bytes w) end.
Proof using Hok.
  unfold sds_switch. change SDS_TYPE_MASK with (Z.ones 3). rewrite Z.land_ones by done. unfold header_flags.
  change (2 ^ 3) with 8. rewrite (Z.mul_comm 8), Z.mod_add by done. by destruct (h_width h).
Qed.

Lemma five_len : h_width h = W5 → SDS_TYPE_5_LEN (header_flags h) = h_len h.
Proof using.
  intros E. unfold header_flags, SDS_TYPE_5_LEN. rewrite E, Z.shiftr_div_pow2 by done. cbn [width_type].
  change (2 ^ SDS_TYPE_BITS) with 8. unfold SDS_TYPE_5. rewrite Z.add_0_l, Z.mul_comm. by apply Z.div_mul.
Qed.

Lemma len_at : hdr_len (width_bytes (h_width h)) s = Z.of_nat (length pre).
Proof using. unfold hdr_len, SDS_HDR, sds_at. rewrite length_header. lia. Qed.

Lemma alloc_at : hdr_alloc (width_bytes (h_width h)) s = Z.of_nat (length (pre ++ le_bytes (width_bytes (h_width h)) (h_len h))).
Proof using. unfold hdr_alloc, SDS_HDR, sds_at. rewrite length_header, length_app, length_le_bytes. lia. Qed.

(** For the wide headers, the bits of a length are its bytes. *)
Lemma wide_bits : h_width h ≠ W5 → 2 ^ len_bits (h_width h) = 256 ^ Z.of_nat (width_bytes (h_width h)).
Proof using. intros Hw. unfold len_bits. change 256 with (2 ^ 8). rewrite <- Z.pow_mul_r by lia. by destruct (h_width h). Qed.

Lemma wide_len : h_width h ≠ W5 → load_le m (hdr_len (width_bytes (h_width h)) s) (width_bytes (h_width h)) = Ret (h_len h).
Proof using Hok.
  intros Hw. rewrite len_at. unfold sds_block, header_bytes. rewrite <- app_assoc, load_le_at.
  f_equal. apply Z.mod_small. rewrite <- wide_bits by done. apply Hok.
Qed.

Lemma wide_alloc : h_width h ≠ W5 → load_le m (hdr_alloc (width_bytes (h_width h)) s) (width_bytes (h_width h)) = Ret (h_alloc h).
Proof using Hok.
  intros Hw. rewrite alloc_at. unfold sds_block, header_bytes. rewrite <- !app_assoc, app_assoc, load_le_at.
  f_equal. apply Z.mod_small. rewrite <- wide_bits by done. apply Hok.
Qed.

Lemma wide_set_len v : h_width h ≠ W5 →
  store_le m (hdr_len (width_bytes (h_width h)) s) (width_bytes (h_width h)) v = Ret (sds_block pre (with_len v h) content).
Proof using.
  intros Hw. rewrite len_at. unfold sds_block, header_bytes. rewrite <- app_assoc, store_le_at. f_equal. f_equal.
  unfold with_len, header_flags. cbn. rewrite wide_bits, le_bytes_mod by done. by destruct (h_width h).
Qed.

Lemma wide_set_alloc v : h_width h ≠ W5 →
  store_le m (hdr_alloc (width_bytes (h_width h)) s) (width_bytes (h_width h)) v = Ret (sds_block pre (with_alloc v h) content).
Proof using.
  intros Hw. rewrite alloc_at. unfold sds_block, header_bytes. rewrite <- !app_assoc, app_assoc, store_le_at. f_equal.
  rewrite <- app_assoc. f_equal. unfold with_alloc, header_flags.
  destruct (h_width h) eqn:E; try done; cbn [h_width h_len h_alloc h_high]; rewrite <- E, wide_bits, le_bytes_mod by congruence;
    by rewrite E.
Qed.

Lemma five_set_len v : h_width h = W5 →
  arr_set m (s - 1) (u8 (8 * (v mod 32))) = Ret (sds_block pre (with_len v h) content).
Proof using.
  intros E. rewrite flags_set. f_equal. unfold sds_block, header_bytes, with_len, header_flags. rewrite E. cbn.
  rewrite u8_small by (pose proof (Z.mod_pos_bound v 32); lia). done.
Qed.

(** *** What the functions do to the header *)

Lemma sdslen_spec : sdslen m s = Ret (h_len h).
Proof using Hok.
  unfold sdslen. rewrite flags_get. cbn [mbind outcome_bind]. rewrite sds_switch_flags.
  destruct (h_width h) eqn:E; [by rewrite five_len|..]; rewrite <- E; apply wide_len; congruence.
Qed.

Lemma sdsalloc_spec : sdsalloc m s = Ret (match h_width h with W5 => h_len h | _ => h_alloc h end).
Proof using Hok.
  unfold sdsalloc. rewrite flags_get. cbn [mbind outcome_bind]. rewrite sds_switch_flags.
  destruct (h_width h) eqn:E; [by rewrite five_len|..]; rewrite <- E; apply wide_alloc; congruence.
Qed.

Lemma sdsavail_spec :
  sdsavail m s = Ret (match h_width h with
    | W5 => 0
    | W32 => (h_alloc h - h_len h) mod 4294967296
    | _ => (h_alloc h - h_len h) mod 18446744073709551616
    end).
Proof using Hok.
  unfold sdsavail. rewrite flags_get. cbn [mbind outcome_bind]. rewrite sds_switch_flags.
  destruct (h_width h) eqn:E; [done|..]; rewrite <- E, wide_alloc by congruence; cbn [mbind outcome_bind];
    rewrite wide_len by congruence; cbn [mbind outcome_bind]; by rewrite E.
Qed.

Lemma sdssetlen_spec n : 0 ≤ n < 18446744073709551616 → sdssetlen m s n = Ret (sds_block pre (with_len n h) content).
Proof using Hok.
  intros Hn. unfold sdssetlen. rewrite flags_get. cbn [mbind outcome_bind]. rewrite sds_switch_flags.
  destruct (h_width h) eqn:E; [|rewrite <- E; apply wide_set_len; congruence..].
  rewrite <- five_set_len by done. f_equal. unfold SDS_TYPE_5, SDS_TYPE_BITS. rewrite Z.lor_0_l, Z.shiftl_mul_pow2 by done.
  unfold u8, u64, uwrap. change (2 ^ 8) with 256. change (2 ^ 3) with 8. change (2 ^ 64) with 18446744073709551616. div_lia.
Qed.

Lemma sdsinclen_spec n :
  0 ≤ n < 18446744073709551616 → sdsinclen m s n = Ret (sds_block pre (with_len (h_len h + n) h) content).
Proof using Hok.
  intros Hn. unfold sdsinclen. rewrite flags_get. cbn [mbind outcome_bind]. rewrite sds_switch_flags.
  destruct (h_width h) eqn:E.
  { rewrite five_len by done. rewrite <- five_set_len by done. f_equal. unfold SDS_TYPE_5, SDS_TYPE_BITS.
    rewrite Z.lor_0_l, Z.shiftl_mul_pow2 by done. unfold u8, uwrap. change (2 ^ 8) with 256. change (2 ^ 3) with 8.
    rewrite Z.add_mod_idemp_r by done. div_lia. }
  all: rewrite <- E, wide_len by congruence; cbn [mbind outcome_bind]; rewrite wide_set_len by congruence;
      unfold with_len, uwrap; rewrite E; cbn; by rewrite Z.add_mod_idemp_r by done.
Qed.

Lemma sdssetalloc_spec n : sdssetalloc m s n = Ret (sds_block pre (with_alloc n h) content).
Proof using Hok.
  unfold sdssetalloc. rewrite flags_get. cbn [mbind outcome_bind]. rewrite sds_switch_flags.
  destruct (h_width h) eqn:E; [unfold with_alloc; by rewrite E|..]; rewrite <- E; apply wide_set_alloc; congruence.
Qed.
End header.

(** A byte before the string that is of no type. *)
Lemma sds_switch_other {A} flags (five : A) wide other : 4 < Z.land flags 7 → sds_switch flags five wide other = other.
Proof.
  intros Hf. unfold sds_switch, SDS_TYPE_MASK, SDS_TYPE_5, SDS_TYPE_8, SDS_TYPE_16, SDS_TYPE_32, SDS_TYPE_64.
  by rewrite !(proj2 (Z.eqb_neq _ _)) by lia.
Qed.

Lemma sds_no_type m s flags n :
  arr_get m (s - 1) = Ret flags → 4 < Z.land flags 7 →
  sdslen m s = Ret 0 ∧ sdsavail m s = Ret 0 ∧ sdsalloc m s = Ret 0 ∧
  sdssetlen m s n = Ret m ∧ sdsinclen m s n = Ret m ∧ sdssetalloc m s n = Ret m.
Proof.
  intros Hf Ht. unfold sdslen, sdsavail, sdsalloc, sdssetlen, sdsinclen, sdssetalloc. rewrite Hf.
  cbn [mbind outcome_bind]. by rewrite !sds_switch_other.
Qed.

(** ** The properties *)

(** C38 (functional). The functions of sds.h read and write the header before the string, of any of the five types, and
    nothing else: [sdslen] gives the length and [sdsalloc] the space that the header has, which for the type 5 is its
    length; [sdsavail] gives what the space has more than the length, 0 for the type 5, as an [unsigned] for lengths of 32 bits
    and as a [size_t] for the others, so that [sdsalloc] is [sdsavail] and [sdslen] together, as the comment says, when
    the length is at most the space; [sdssetlen], [sdsinclen] and [sdssetalloc] change one member, to the number modulo
    what the type can hold, and leave the bytes before the header, the other members, the unused bits of the flags and
    the string; [sdssetalloc] leaves the type 5 as it is.  When the byte before the string is of no type the first three
    give 0 and the others change nothing. *)
Theorem sds_header_access (pre content : bytes) (h : sds_header) (n : Z) :
  header_ok h → 0 ≤ n < 18446744073709551616 →
  let m := sds_block pre h content in
  let s := sds_at pre h in
  let space := match h_width h with W5 => h_len h | _ => h_alloc h end in
  sdslen m s = Ret (h_len h) ∧ sdsalloc m s = Ret space ∧
  sdsavail m s = Ret ((space - h_len h) mod match h_width h with W32 => 4294967296 | _ => 18446744073709551616 end) ∧
  (h_len h ≤ space → sdsavail m s = Ret (space - h_len h)) ∧
  sdssetlen m s n = Ret (sds_block pre (with_len n h) content) ∧
  sdsinclen m s n = Ret (sds_block pre (with_len (h_len h + n) h) content) ∧
  sdssetalloc m s n = Ret (sds_block pre (with_alloc n h) content) ∧
  sds_at pre (with_len n h) = s ∧ sds_at pre (with_alloc n h) = s ∧
  ∀ m' s' flags, arr_get m' (s' - 1) = Ret flags → 4 < Z.land flags 7 →
    sdslen m' s' = Ret 0 ∧ sdsavail m' s' = Ret 0 ∧ sdsalloc m' s' = Ret 0 ∧
    sdssetlen m' s' n = Ret m' ∧ sdsinclen m' s' n = Ret m' ∧ sdssetalloc m' s' n = Ret m'.
Proof.
  intros Hok Hn m s space. split; [by apply sdslen_spec|]. split; [by apply sdsalloc_spec|].
  assert (sdsavail m s = Ret ((space - h_len h) mod match h_width h with W32 => 4294967296 | _ => 18446744073709551616 end)) as Ha.
  { etrans; [by apply sdsavail_spec|]. subst space. f_equal. by destruct (h_width h); rewrite ?Z.sub_diag. }
  split; [exact Ha|]. split.
  { intros Hle. rewrite Ha. f_equal. destruct Hok as (Hl & Hal & _). subst space.
    destruct (h_width h); cbn in Hl, Hal; apply Z.mod_small; lia. }
  split; [by apply sdssetlen_spec|]. split; [by apply sdsinclen_spec|]. split; [by apply sdssetalloc_spec|].
  unfold s, sds_at. rewrite !length_header. split; [done|]. split.
  { unfold with_alloc. destruct (h_width h) eqn:E; cbn; by rewrite ?E. }
  intros m' s' flags. apply sds_no_type.
Qed.

(** A string of 3 bytes in space for 300, whose header has lengths of 16 bits, and one of the type 5. *)
Lemma sds_header_access_witness :
  let m := sds_block [9] (MkHeader W16 3 300 0) [97; 98; 99; 0] in
  let five := sds_block [] (MkHeader W5 3 3 0) [97; 98; 99; 0] in
  (sdslen m 6 = Ret 3 ∧ sdsalloc m 6 = Ret 300 ∧ sdsavail m 6 = Ret 297 ∧
   sdssetlen m 6 2 = Ret [9; 2; 0; 44; 1; 2; 97; 98; 99; 0]) ∧
  (sdslen five 1 = Ret 3 ∧ sdsalloc five 1 = Ret 3 ∧ sdsinclen five 1 30 = Ret [8; 97; 98; 99; 0]) ∧
  sdslen [65; 7; 98] 2 = Ret 0.
Proof.
  destruct (sds_header_access [9] [97; 98; 99; 0] (MkHeader W16 3 300 0) 2) as (H1 & H2 & H3 & _ & H4 & _);
    [by repeat split|lia|].
  destruct (sds_header_access [] [97; 98; 99; 0] (MkHeader W5 3 3 0) 30) as (F1 & F2 & _ & _ & _ & F3 & _ & _ & _ & F4);
    [by repeat split|lia|].
  split; [split; [exact H1|split; [exact H2|split; [exact H3|exact H4]]]|].
  split; [split; [exact F1|split; [exact F2|exact F3]]|]. by apply (F4 [65; 7; 98] 2 7).
Defined.
