(* ===== verification/LsmTheorems.v ===== *)
(** LsmTheorems: the properties of the LSM tree, each with an instance at a concrete tree. *)

From Stdlib Require Import ZArith Lia.
From stdpp Require Import base list gmap strings sorting.
From S2P Require Import Prelude Memory Stdio LsmSort LsmFile Lsm LsmSpec LsmOps LsmTest LsmSession.

(** The world before the first run: no file. *)
Definition no_files : world := World ∅ [].

(** A tree of capacity 2 in it, with the junk that [glibc] leaves in its buffer. *)
Definition tree2 (b : bool) : lsm :=
  Lsm 2 2 8 0 (replicate 2 (Node 0 0)) "disk_storage.txt" b.

(** Three puts into a tree of capacity 2: the first two nodes are in the file, sorted. *)
Definition flushed2 : world :=
  World {["disk_storage.txt" := disk_file 2 [Node 5 51; Node 7 70]]} [].
Definition linked2 : world :=
  World {["disk_storage.txt" := disk_file 2 [Node 5 51; Node 7 70];
          "disk_storae.txt" := disk_file 2 [Node 5 51; Node 7 70]]} [].
Definition tree2_after : lsm :=
  Lsm 2 2 8 1 [Node 9 90; Node 7 70] "disk_storage.txt" true.
Definition store2_after : store := Store [Node 7 70; Node 5 51] [Node 9 90].

(** Close the concrete side conditions of an instance. *)
Ltac concrete :=
  solve [ reflexivity | discriminate | lia | repeat constructor | vm_compute; repeat constructor
        | vm_compute; lia | vm_compute; intuition discriminate ].

Lemma tree2_ok b : tree_ok (tree2 b).
Proof. constructor; simpl; [lia | lia | lia | constructor]. Defined.

Lemma tree2_after_ok : tree_ok tree2_after.
Proof. constructor; simpl; [lia | lia | lia | repeat constructor]. Defined.

Lemma tree2_fresh b : represents (tree2 b) no_files store_empty [].
Proof.
  constructor; [apply tree2_ok | reflexivity | split; [constructor | reflexivity] |].
  apply flushed_as_nil.
Defined.

Lemma sorted2 : newest_first_sort [Node 7 70; Node 5 51] [Node 5 51; Node 7 70].
Proof.
  split_and!; [constructor | repeat constructor; vm_compute; discriminate |].
  intros k. rewrite !filter_cons, filter_nil. unfold same_key. simpl.
  do 2 case_decide; subst; try done; lia.
Qed.

Lemma tree2_after_represents w :
  files w !! "disk_storage.txt" = Some (disk_file 2 [Node 5 51; Node 7 70]) →
  represents tree2_after w store2_after [Node 5 51; Node 7 70].
Proof.
  intros Hw. constructor; [apply tree2_after_ok | reflexivity | | apply sorted2].
  split; [repeat constructor | exact Hw].
Defined.

(** C1 (refinement). From initialisation on, every sequence of puts runs without a fault, and the buffer and the
    file together represent exactly the history of the puts: nothing is lost or invented, the
    buffer holds the latest nodes in order, and the file holds the earlier ones, in a sorted tree
    sorted with the newest of equal keys first. *)
Theorem lsm_puts_represent_history `{A : Allocator} `{!AllocatorLaws A} `{!AllocatorGrants A}
    (size : Z) (b : bool) (w : world) (h : list node) :
  node_ok (Node malloc_junk malloc_junk) → 0 < size →
  files w !! "disk_storage.txt" = None → Forall node_ok h →
  Z.of_nat (length h) + size < 2147483648 →
  ∃ tree0 tree w' d,
    init_new_lsm size b w = Ret (Some tree0, w) ∧
    puts h tree0 w = Ret (tree, w') ∧
    represents tree w' (store_puts size h store_empty) d ∧
    store_history (store_puts size h store_empty) = h ∧
    same_but "disk_storage.txt" w w'.
Proof.
  intros Hj Hs Hf Hh Hl.
  destruct (init_new_lsm_ok size b w) as (tree0 & E0 & R0 & <- & Eb & En);
    [by apply Forall_singleton | lia | done |].
  destruct (puts_refine h tree0 w _ _ R0 Hh) as (tree & w' & d & E & R & _ & W); [simpl; lia|].
  exists tree0, tree, w', d. split_and!; try done; [apply store_puts_history | by rewrite <- En].
Qed.

Lemma lsm_puts_represent_history_witness :
  ∃ tree0 tree w' d,
    init_new_lsm (A := glibc) 2 true no_files = Ret (Some tree0, no_files) ∧
    puts (A := glibc) [Node 7 70; Node 5 51; Node 9 90] tree0 no_files = Ret (tree, w') ∧
    represents tree w'
      (store_puts 2 [Node 7 70; Node 5 51; Node 9 90] store_empty) d ∧
    store_history (store_puts 2 [Node 7 70; Node 5 51; Node 9 90] store_empty)
    = [Node 7 70; Node 5 51; Node 9 90] ∧
    same_but "disk_storage.txt" no_files w'.
Proof. apply (lsm_puts_represent_history (A := glibc) 2 true no_files); concrete. Defined.

(** C4 (functional). [merge_sort] sorts the whole array by key in place, loses no node, and leaves equal keys in
    the reverse of their order, so that the node put last comes first. *)
Theorem merge_sort_newest_first `{A : Allocator} `{!AllocatorGrants A} (block : list node) :
  Z.of_nat (length block) < 2147483648 →
  let n := Z.of_nat (length block) in
  ∃ s, merge_sort (merge_sort_fuel n) block n = Ret s ∧
       s ≡ₚ block ∧ StronglySorted key_le s ∧
       ∀ k, filter (same_key k) s = reverse (filter (same_key k) block).
Proof.
  intros Hl n. destruct (merge_sort_spec (merge_sort_fuel n) block (length block))
    as (s & E & P & S & F); [lia | lia | unfold merge_sort_fuel, n; lia |].
  exists s. rewrite drop_ge, app_nil_r in E by lia. rewrite take_ge in P, F by lia. done.
Qed.

Lemma merge_sort_newest_first_witness :
  ∃ s, merge_sort (A := glibc) (merge_sort_fuel 3) [Node 2 1; Node 1 2; Node 2 3] 3 = Ret s ∧
       s ≡ₚ [Node 2 1; Node 1 2; Node 2 3] ∧ StronglySorted key_le s ∧
       ∀ k, filter (same_key k) s
            = reverse (filter (same_key k) [Node 2 1; Node 1 2; Node 2 3]).
Proof.
  apply (merge_sort_newest_first (A := glibc) [Node 2 1; Node 1 2; Node 2 3]); concrete.
Defined.

(** The index loops of [merge] compute the list merge that takes the right front on a tie, and
    store it at the start of the target; no index leaves its array and no counter overflows. *)
Theorem merge_computes_reference (whole left right : list node) :
  (length left + length right <= length whole)%nat →
  Z.of_nat (length left + length right) < 2147483648 →
  merge whole left (Z.of_nat (length left)) right (Z.of_nat (length right))
  = Ret (merge_ref left right ++ drop (length left + length right) whole).
Proof.
  intros Hw Hz. rewrite merge_spec, !take_ge, blit_0, length_merge_ref by lia. done.
Qed.

Lemma merge_computes_reference_witness :
  merge (replicate 3 (Node 0 0)) [Node 1 10; Node 4 40] 2 [Node 1 11] 1
  = Ret [Node 1 11; Node 1 10; Node 4 40].
Proof.
  etransitivity;
    [apply (merge_computes_reference (replicate 3 (Node 0 0)) [Node 1 10; Node 4 40] [Node 1 11]);
     concrete | reflexivity].
Defined.

(** C6 (functional). Flushing a full buffer meets no fault: it leaves an empty buffer, changes the tree's file
    only, and the new file holds the old nodes merged with the sorted buffer, none lost. *)
Theorem write_to_disk_merges `{A : Allocator} `{!AllocatorLaws A} `{!AllocatorGrants A}
    (tree : lsm) (w : world) (st : store) (d : list node) :
  represents tree w st d → next_empty tree = block_size tree →
  Z.of_nat (length d) + block_size tree < 2147483648 →
  ∃ tree' w' d',
    write_to_disk tree w = Ret ((0, tree'), w') ∧
    next_empty tree' = 0 ∧ same_config tree tree' ∧ same_but (disk1 tree) w w' ∧
    files w' !! disk1 tree = Some (disk_file (Z.of_nat (length d')) d') ∧
    flushed_as (sorted tree) (store_history st) d'.
Proof.
  intros [Hok Hr Hf Hd] Hfull Hl.
  destruct (write_to_disk_full tree w d Hok Hfull Hf Hl) as (s & E & Hs).
  eexists _, _, (merge_ref d s). split; [exact E|]. split; [done|]. split; [done|].
  split; [|split]; simpl.
  - split; [done|]. intros other Hne. simpl. by rewrite lookup_insert_ne.
  - by rewrite lookup_insert_eq.
  - unfold store_history. rewrite <- Hr. by apply flushed_as_merge.
Qed.

Definition tree2_full : lsm := Lsm 2 2 8 2 [Node 9 90; Node 5 52] "disk_storage.txt" true.

Lemma write_to_disk_merges_witness :
  ∃ tree' w' d',
    write_to_disk (A := glibc) tree2_full flushed2 = Ret ((0, tree'), w') ∧
    next_empty tree' = 0 ∧ same_config tree2_full tree' ∧
    same_but "disk_storage.txt" flushed2 w' ∧
    files w' !! "disk_storage.txt" = Some (disk_file (Z.of_nat (length d')) d') ∧
    flushed_as true [Node 7 70; Node 5 51; Node 9 90; Node 5 52] d'.
Proof.
  apply (write_to_disk_merges (A := glibc) tree2_full flushed2
           (Store [Node 7 70; Node 5 51] [Node 9 90; Node 5 52]) [Node 5 51; Node 7 70]);
    [|concrete..].
  constructor; [constructor; simpl; [lia | lia | lia | repeat constructor] | reflexivity | |
    apply sorted2].
  split; [repeat constructor | reflexivity].
Defined.

(** Flushing a buffer that is not full onto an existing file reads past the merged array: the
    code adds the capacity, not the number of buffered nodes, to the count it writes. *)
Theorem write_to_disk_partial_overreads `{A : Allocator} `{!AllocatorLaws A}
    `{!AllocatorGrants A} (tree : lsm) (w : world) (st : store) (d : list node) :
  represents tree w st d → next_empty tree < block_size tree → d ≠ [] →
  Z.of_nat (length d) + block_size tree < 2147483648 →
  write_to_disk tree w = Fault OutOfBounds.
Proof. intros [Hok Hr Hf Hd] Hpart Hne Hl. by apply (write_to_disk_partial tree w d). Qed.

Lemma write_to_disk_partial_overreads_witness :
  write_to_disk (A := glibc) tree2_after flushed2 = Fault OutOfBounds.
Proof.
  apply (write_to_disk_partial_overreads (A := glibc) tree2_after flushed2 store2_after
           [Node 5 51; Node 7 70]); [apply tree2_after_represents; reflexivity | concrete..].
Defined.

(** A file of nodes reads back as it was written: the count and every node. *)
Theorem disk_file_roundtrip (d : list node) (old : option Z) :
  Z.of_nat (length d) < 18446744073709551616 → Forall node_ok d →
  let n := Z.of_nat (length d) in
  ∃ rest, fread_size_t old (disk_file n d) = (1, Some n, rest) ∧ fread_nodes n rest = (n, d, []).
Proof.
  intros Hl Hd n. exists (nodes_bytes d). apply fread_disk_file; [|done|done].
  apply is_u64_spec. lia.
Qed.

Lemma disk_file_roundtrip_witness :
  ∃ rest, fread_size_t None (disk_file 2 [Node (-1) 5; Node 2147483647 0])
          = (1, Some 2, rest) ∧
          fread_nodes 2 rest = (2, [Node (-1) 5; Node 2147483647 0], []).
Proof. apply (disk_file_roundtrip [Node (-1) 5; Node 2147483647 0] None); concrete. Defined.

(** C5 (refinement). [get] against the lookup of the store, on every allocator that serves requests below 1 TiB.  The tree represents the
    store, it was created with [sorted] set, its file exists, and the file that [search_disk] opens -
    disk_storae.txt, a misspelling of the tree's file - has the same contents, of less than 2^31
    nodes.  Then what is found is the oldest buffered node with the key, or else the newest flushed
    one.  If there is none, [get] returns NULL.  If there is one, [get] returns it when malloc grants
    at least 12 bytes for the 8 that the search asks for, and else the search writes past its block
    (lsm.c:156-161).  It changes nothing. *)
Theorem get_is_store_get `{A : Allocator} `{!AllocatorLaws A} `{!AllocatorGrants A}
    (k : Z) (tree : lsm) (w : world) (st : store) (d : list node) :
  represents tree w st d → sorted tree = true →
  files w !! disk1 tree ≠ None → files w !! search_file = files w !! disk1 tree →
  Z.of_nat (length d) < 2147483648 →
  get k tree w =
  match store_get k st with
  | None => Ret (None, w)
  | Some x => if malloc_usable 8 <? 12 then Fault HeapOverflow else Ret (Some x, w)
  end.
Proof. intros Hr Hs Hex Hlink Hl. by apply (get_refines k tree w st d). Qed.

(** A flushed key with glibc, an absent key, and the flushed key with no more than what was asked. *)
Lemma get_is_store_get_witness :
  get (A := glibc) 7 tree2_after linked2 = Ret (Some (Node 7 70), linked2) ∧
  get (A := glibc) 8 tree2_after linked2 = Ret (None, linked2) ∧
  get (A := exact_alloc) 7 tree2_after linked2 = Fault HeapOverflow.
Proof.
  split_and!;
    [apply (get_is_store_get (A := glibc) 7 tree2_after linked2 store2_after [Node 5 51; Node 7 70])
    |apply (get_is_store_get (A := glibc) 8 tree2_after linked2 store2_after [Node 5 51; Node 7 70])
    |apply (get_is_store_get (A := exact_alloc) 7 tree2_after linked2 store2_after
              [Node 5 51; Node 7 70])];
    try concrete; apply tree2_after_represents; reflexivity.
Defined.

(** With no file of the misspelt name, [get] answers from the buffer alone, whatever the tree has
    flushed: a flushed key is reported as absent. *)
Theorem get_forgets_flushed `{A : Allocator} `{!AllocatorLaws A} `{!AllocatorGrants A}
    (k : Z) (tree : lsm) (w : world) (st : store) (d : list node) :
  represents tree w st d → files w !! search_file = None →
  ∃ w', get k tree w = hit_outcome (head (filter (same_key k) (st_recent st))) w' ∧
        files w' = files w.
Proof. intros [Hok Hr Hf Hd] Hs. rewrite <- Hr. by apply get_buffer_only. Qed.

Lemma get_forgets_flushed_witness :
  ∃ w', get (A := glibc) 7 tree2_after flushed2 = Ret (None, w') ∧ files w' = files flushed2.
Proof.
  apply (get_forgets_flushed (A := glibc) 7 tree2_after flushed2 store2_after
           [Node 5 51; Node 7 70]);
    [apply tree2_after_represents; reflexivity | reflexivity].
Defined.

(** A second put of a buffered key is not seen by [get] while the buffer is not flushed: the
    node put first is still returned, when the search has room for it. *)
Theorem put_does_not_shadow `{A : Allocator} `{!AllocatorLaws A} `{!AllocatorGrants A}
    (x y : node) (rest : list node) (tree : lsm) (w : world) (st : store) (d : list node) :
  represents tree w st d → node_ok y → key y = key x →
  next_empty tree < block_size tree → filter (same_key (key x)) (st_recent st) = x :: rest →
  ∃ tree', put (key y) (val y) tree w = Ret ((0, tree'), w) ∧
           get (key y) tree' w = hit_outcome (Some x) w.
Proof.
  intros [Hok Hr Hf Hd] Hy Hk Hroom Hx. unfold put.
  destruct (Z.eqb_spec (next_empty tree) (block_size tree)); [lia|].
  rewrite io_bind_mret. destruct (store_node tree y Hok Hroom Hy) as (b & Eb & Hok' & Hbuf).
  exists (set_next_empty (set_block tree b) (u64 (next_empty tree + 1))).
  destruct y as [ky vy]. simpl in *. subst ky. rewrite (io_bind_lift _ _ _ _ Eb).
  split; [done|]. pose proof (head_filter_first_match (key x) (buffer tree ++ [Node (key x) vy])) as E.
  rewrite filter_app, Hr, Hx in E. simpl in E.
  destruct (first_match (key x) (st_recent st ++ [Node (key x) vy])) as [[i z]|] eqn:Em;
    simpl in E; [|done].
  injection E as ->. eapply (get_buffer _ _ _ i); [done|]. by rewrite Hbuf, Hr.
Qed.

Definition tree3 : lsm :=
  Lsm 3 2 8 1 [Node 9 90; Node 0 0; Node 0 0] "disk_storage.txt" true.

Lemma put_does_not_shadow_witness :
  ∃ tree', put (A := glibc) 9 91 tree3 no_files = Ret ((0, tree'), no_files) ∧
           get (A := glibc) 9 tree' no_files = Ret (Some (Node 9 90), no_files).
Proof.
  apply (put_does_not_shadow (A := glibc) (Node 9 90) (Node 9 91) [] tree3 no_files
           (Store [] [Node 9 90]) []); try concrete.
  constructor; [constructor; simpl; [lia | lia | lia | repeat constructor] | reflexivity | |
    apply flushed_as_nil].
  split; [constructor | reflexivity].
Defined.

(** Deleting a buffered key, byte by byte: [memmove] gets a count of bytes, so of the nodes
    behind the deleted one only the first [m / 8] move down, the next one is left torn, and the
    rest stay.  When the deleted node is the last of the array the move reads past it.  The result
    is the buffer without the node exactly where the moved bytes cover all that follows it; else
    the buffer has lost its last node.  All this when malloc grants room for what the search
    found, and a heap overflow when not ([search_hit_overflows]). *)
Theorem delete_buffered_moves_bytes `{A : Allocator} `{!AllocatorLaws A} `{!AllocatorGrants A}
    (k : Z) (tree : lsm) (w : world) (i : nat) (x y : node) :
  12 ≤ malloc_usable 8 → tree_ok tree → Forall node_ok (block tree) →
  first_match k (buffer tree) = Some (i, x) →
  let m := Z.to_nat (block_size tree - Z.of_nat i) in
  let q := (m / 8)%nat in
  let n := Z.to_nat (next_empty tree) in
  block tree !! (i + q)%nat = Some y →
  if Z.of_nat i =? block_size tree - 1 then delete k tree w = Fault OutOfBounds
  else ∃ tree',
    delete k tree w = Ret ((0, tree'), w) ∧ next_empty tree' = next_empty tree - 1 ∧
    buffer tree' =
      if decide (n - 1 - i <= q)%nat then take i (buffer tree) ++ drop (S i) (buffer tree)
      else take i (block tree) ++ take q (drop (S i) (block tree))
           ++ (torn_node (m mod 8) (drop (S i + q) (block tree)) y
               :: slice (block tree) (S (i + q)) (n - 1)).
Proof.
  intros Hu Hok Ha Hm m q n Hy.
  pose proof (delete_buffer_spec k tree w i x y Hu Hok Ha Hm Hy) as E. fold m in E.
  destruct (Z.eqb_spec (Z.of_nat i) (block_size tree - 1)); [done|].
  eexists. split; [exact E|]. split; [done|]. destruct Hok as [Hs Hb Hn Hx].
  apply first_match_lookup in Hm as [Hi _]. apply lookup_lt_Some in Hi.
  unfold buffer in *. rewrite length_take in Hi. fold n in Hi |- *. simpl.
  assert (Z.of_nat n = next_empty tree) as En by (unfold n; lia). clearbody n.
  replace (Z.to_nat (next_empty tree - 1)) with (n - 1)%nat by lia. clearbody m.
  subst q. case_decide.
  - rewrite moved_all by lia. by rewrite take_take, Nat.min_l by lia.
  - by apply moved_part; lia.
Qed.

Definition tree4 : lsm :=
  Lsm 4 2 8 3 [Node 1 10; Node 2 20; Node 3 30; Node 0 0] "disk_storage.txt" false.

(** The first of three nodes is deleted from a buffer of four: the key 2 overwrites the key 1 and
    node 3 is gone. *)
Lemma delete_buffered_moves_bytes_witness :
  ∃ tree', delete (A := glibc) 1 tree4 no_files = Ret ((0, tree'), no_files) ∧
           next_empty tree' = 2 ∧ buffer tree' = [Node 2 10; Node 2 20].
Proof.
  apply (delete_buffered_moves_bytes (A := glibc) 1 tree4 no_files 0 (Node 1 10) (Node 1 10));
    try concrete. constructor; simpl; [lia | lia | lia | repeat constructor].
Defined.

(** Deleting a key that is not buffered stops at the assertion when no file has the misspelt
    name, whether or not the tree's own file has the key. *)
Theorem delete_flushed_asserts `{A : Allocator} `{!AllocatorLaws A} `{!AllocatorGrants A}
    (k : Z) (tree : lsm) (w : world) (st : store) (d : list node) :
  represents tree w st d → filter (same_key k) (st_recent st) = [] → files w !! search_file = None →
  delete k tree w = Fault AssertFailed.
Proof.
  intros [Hok Hr Hf Hd] Hk Hs. apply delete_not_buffered; try done.
  apply first_match_None. by rewrite Hr.
Qed.

Lemma delete_flushed_asserts_witness :
  delete (A := glibc) 7 tree2_after flushed2 = Fault AssertFailed.
Proof.
  apply (delete_flushed_asserts (A := glibc) 7 tree2_after flushed2 store2_after
           [Node 5 51; Node 7 70]);
    [apply tree2_after_represents; reflexivity | reflexivity | reflexivity].
Defined.

(** [update] replaces the value of the oldest buffered node with the key; for any other key it
    dereferences a null pointer, so the branch that deletes and puts is unreachable.  The first
    needs an allocator that grants room for what the search found; on the others it is a heap
    overflow ([update_overflows]). *)
Theorem update_buffered_or_null `{A : Allocator} `{!AllocatorLaws A} `{!AllocatorGrants A}
    (k v : Z) (tree : lsm) (w : world) (st : store) (d : list node) :
  12 ≤ malloc_usable 8 → represents tree w st d → node_ok (Node k v) →
  match first_match k (st_recent st) with
  | None => update k v tree w = Fault NullDeref
  | Some (i, _) =>
      ∃ tree' w', update k v tree w = Ret ((0, tree'), w') ∧
        represents tree' w' (Store (st_flushed st) (<[i := Node k v]> (st_recent st))) d ∧
        files w' = files w
  end.
Proof.
  intros Hu [Hok Hr Hf Hd] Hx. pose proof (update_spec k v tree w Hu Hok) as E.
  rewrite Hr in E. destruct (first_match k (st_recent st)) as [[i x]|] eqn:Em; [|done].
  rewrite <- Hr in Em. apply first_match_lookup in Em as [Hi _]. apply lookup_lt_Some in Hi.
  assert (buffer (set_block tree (<[i := Node k v]> (block tree)))
          = <[i := Node k v]> (st_recent st)) as Hbuf.
  { rewrite <- Hr. unfold buffer in *. rewrite length_take in Hi. simpl.
    by rewrite take_insert_lt by lia. }
  eexists _, _. split; [exact E|]. split; [|done]. destruct Hok as [Hs Hb Hn Hxs].
  constructor; try done. constructor; simpl; try done.
  - by rewrite length_insert.
  - rewrite Hbuf, <- Hr. by apply Forall_insert.
Qed.

Lemma update_buffered_or_null_witness :
  ∃ tree' w', update (A := glibc) 9 91 tree2_after flushed2 = Ret ((0, tree'), w') ∧
    represents tree' w' (Store [Node 7 70; Node 5 51] [Node 9 91]) [Node 5 51; Node 7 70] ∧
    files w' = files flushed2.
Proof.
  apply (update_buffered_or_null (A := glibc) 9 91 tree2_after flushed2 store2_after
           [Node 5 51; Node 7 70]);
    [concrete | apply tree2_after_represents; reflexivity | concrete].
Defined.

(** Every search that finds its key writes past the block it allocated, unless malloc grants more
    than it was asked for: [sizeof(nodei)] is there the size of the pointer variable. *)
Theorem search_hit_overflows `{A : Allocator} (k : Z) (tree : lsm) (w : world) (i : nat) (x : node) :
  malloc_ok 8 = true → malloc_usable 8 < 12 → tree_ok tree →
  first_match k (buffer tree) = Some (i, x) →
  search_buffer k tree w = Fault HeapOverflow ∧ get k tree w = Fault HeapOverflow ∧
  delete k tree w = Fault HeapOverflow.
Proof.
  intros Hok Hu Ht Hm.
  assert (search_buffer k tree w = Fault HeapOverflow) as E
    by (by rewrite search_buffer_spec, Hm, new_nodei_overflow).
  split_and!; [done | unfold get | unfold delete]; by apply io_bind_fault.
Qed.

Lemma search_hit_overflows_witness :
  search_buffer (A := exact_alloc) 2 tree4 no_files = Fault HeapOverflow ∧
  get (A := exact_alloc) 2 tree4 no_files = Fault HeapOverflow ∧
  delete (A := exact_alloc) 2 tree4 no_files = Fault HeapOverflow.
Proof.
  apply (search_hit_overflows (A := exact_alloc) 2 tree4 no_files 1 (Node 2 20)); try concrete.
  constructor; simpl; [lia | lia | lia | repeat constructor].
Defined.

(** The driver's test with more keys than the buffer holds: it returns 0, every pair it put is in
    the buffer or in the file, and it prints the buffer and then the file, each node once. *)
Theorem test_put_prints_every_node `{A : Allocator} `{!AllocatorLaws A} `{!AllocatorGrants A}
    (elapsed : Z) (n : nat) (tree : lsm) (b : bool) (w : world) :
  represents tree w store_empty [] → block_size tree < Z.of_nat n →
  Z.of_nat n + block_size tree < 2147483648 →
  ∃ tree' w' recent d,
    test_put elapsed tree (Z.of_nat n) (block_size tree) b true w = Ret ((0, tree'), w') ∧
    d ++ recent ≡ₚ test_nodes n ∧ recent `suffix_of` test_nodes n ∧
    out w' = out w ++ [Printf "%f, " [elapsed]; Printf "data is in buffer & on disk" []]
      ++ nodes_events recent
      ++ [Printf "Printing disk data ..." [];
          Printf "num_elements is %d" [Z.of_nat (length d)]] ++ nodes_events d.
Proof.
  intros Hrep Hlt Hn.
  destruct (test_put_run elapsed n tree b w Hrep Hlt Hn) as (t & w' & d & E & R & Ho).
  pose proof (store_puts_history (block_size tree) (test_nodes n) store_empty) as Eh.
  change (store_history store_empty) with (@nil node) in Eh. rewrite app_nil_l in Eh.
  unfold store_history in Eh. eexists t, w', _, d. split; [exact E|].
  split; [|split; [|exact Ho]].
  - rewrite (flushed_as_perm _ _ _ (rep_flushed _ _ _ _ R)). by rewrite Eh.
  - eexists. by symmetry.
Qed.

Lemma test_put_prints_every_node_witness :
  ∃ tree' w' recent d,
    test_put (A := glibc) 17 (tree2 true) 5 2 true true no_files = Ret ((0, tree'), w') ∧
    d ++ recent ≡ₚ test_nodes 5 ∧ recent `suffix_of` test_nodes 5 ∧
    out w' = [] ++ [Printf "%f, " [17]; Printf "data is in buffer & on disk" []]
      ++ nodes_events recent
      ++ [Printf "Printing disk data ..." [];
          Printf "num_elements is %d" [Z.of_nat (length d)]] ++ nodes_events d.
Proof.
  apply (test_put_prints_every_node (A := glibc) 17 5 (tree2 true) true no_files);
    [apply tree2_fresh | concrete..].
Defined.

(** The driver's test with at most as many keys as the buffer holds reads an uninitialised
    [struct stat]: the branch for data that fits in the buffer cannot be reached on defined
    values. *)
Theorem test_put_small_reads_uninitialised `{A : Allocator} `{!AllocatorLaws A}
    `{!AllocatorGrants A} (elapsed : Z) (n : nat) (tree : lsm) (b : bool) (w : world) :
  represents tree w store_empty [] → Z.of_nat n ≤ block_size tree →
  Z.of_nat n + block_size tree < 2147483648 →
  test_put elapsed tree (Z.of_nat n) (block_size tree) b true w = Fault Indeterminate.
Proof. apply test_put_small. Qed.

Lemma test_put_small_reads_uninitialised_witness :
  test_put (A := glibc) 17 (tree2 true) 2 2 true true no_files = Fault Indeterminate.
Proof.
  apply (test_put_small_reads_uninitialised (A := glibc) 17 2 (tree2 true) true no_files);
    [apply tree2_fresh | concrete..].
Defined.

(** ** Sessions *)

(** C15 (invariant). On every allocator that serves requests below 1 TiB, in every state that is reached from [init_new_lsm], in a world with
    neither the tree's file nor the misspelt one that [search_disk] opens, by puts, gets, updates and
    deletes that returned, in any order: the block has the size of the tree, at most that many
    nodes are in use and all are nodes of [int]s (those of malloc's junk included, which is
    assumed to be one), the file is a count and as many nodes, which with the buffer represent
    some store, and a further put returns.  A further get finds in the buffer, and nowhere else: it
    returns NULL when the key is not there, and when it is the oldest node with the key if malloc
    grants 12 bytes for the 8 that are asked for; if it grants fewer, the search overflows its
    block.  The size and the number of puts sum to less than 2^31. *)
Theorem lsm_session_invariant `{A : Allocator} `{!AllocatorLaws A} `{!AllocatorGrants A}
    (size : Z) (b : bool) (n : nat) (tree : lsm) (w : world) :
  node_ok (Node malloc_junk malloc_junk) → 0 < size →
  session size b n tree w → Z.of_nat n + size < 2147483648 →
  Z.of_nat (length (block tree)) = size ∧ 0 ≤ next_empty tree ≤ size ∧ Forall node_ok (block tree)
  ∧ (∃ st d, represents tree w st d)
  ∧ (∀ x, node_ok x → ∃ tree' w', put (key x) (val x) tree w = Ret ((0, tree'), w'))
  ∧ (∀ k, ∃ w', files w' = files w ∧ get k tree w =
      match head (filter (same_key k) (buffer tree)) with
      | None => Ret (None, w')
      | Some x => if malloc_usable 8 <? 12 then Fault HeapOverflow else Ret (Some x, w')
      end).
Proof.
  intros Hj Hs H Hn. pose proof (session_invariant Hj size b Hs n tree w H Hn) as I.
  pose proof I as [Es _ _ Hb Hf (st & d & R & _)]. pose proof R as [Hok _ _ _].
  pose proof Hok as [_ ? ? _].
  split; [|split; [|split; [done|split; [by exists st, d|split]]]].
  - rewrite <- Es. lia.
  - rewrite <- Es. lia.
  - intros x Hx. destruct (session_ok_put size b n tree w x I Hx Hn) as (t & w' & E & _). eauto.
  - intros k. destruct (get_buffer_only k tree w Hok Hf) as (w' & E & Ew). by exists w'.
Qed.

(** With glibc after a put and a delete, whose [memmove] tears a node; with an allocator that grants
    what is asked for and no more after a put. *)
Lemma lsm_session_invariant_witness :
  (let tree := Lsm 2 2 8 0 [Node 0 70; Node 0 0] "disk_storage.txt" true in
   0 ≤ next_empty tree ≤ 2 ∧ (∃ st d, represents tree no_files st d) ∧
   ∃ tree' w', put (A := glibc) 3 30 tree no_files = Ret ((0, tree'), w')) ∧
  (let tree := Lsm 2 2 8 1 [Node 7 70; Node (-1) (-1)] "disk_storage.txt" true in
   get (A := exact_alloc) 7 tree no_files = Fault HeapOverflow ∧
   ∃ w', get (A := exact_alloc) 8 tree no_files = Ret (None, w')).
Proof.
  split.
  - destruct (lsm_session_invariant (A := glibc) 2 true 1
                (Lsm 2 2 8 0 [Node 0 70; Node 0 0] "disk_storage.txt" true) no_files)
      as (_ & H1 & _ & H2 & H3 & _); [concrete | lia | | lia |].
    + eapply (session_delete _ _ _ (Lsm 2 2 8 1 [Node 7 70; Node 0 0] "disk_storage.txt" true)
                no_files 7 0); [|vm_compute; reflexivity].
      eapply (session_put _ _ 0 (tree2 true) no_files (Node 7 70) 0);
        [|concrete|vm_compute; reflexivity].
      apply session_init; vm_compute; reflexivity.
    + split; [exact H1|]. split; [exact H2|]. apply (H3 (Node 3 30)). concrete.
  - destruct (lsm_session_invariant (A := exact_alloc) 2 true 1
                (Lsm 2 2 8 1 [Node 7 70; Node (-1) (-1)] "disk_storage.txt" true) no_files)
      as (_ & _ & _ & _ & _ & H); [concrete | lia | | lia |].
    + eapply (session_put _ _ 0 (Lsm 2 2 8 0 (replicate 2 (Node (-1) (-1))) "disk_storage.txt" true)
                no_files (Node 7 70) 0); [|concrete|vm_compute; reflexivity].
      apply session_init; vm_compute; reflexivity.
    + split; [destruct (H 7) as (w' & _ & E); exact E | destruct (H 8) as (w' & _ & E); exists w'; exact E].
Defined.

(** C16 (liveness). A node that is put reaches the file of the tree: after as many further puts as the buffer has
    room for, at the latest. *)
Theorem put_reaches_file `{A : Allocator} `{!AllocatorLaws A} `{!AllocatorGrants A}
    (tree : lsm) (w : world) (st : store) (d : list node) (x : node) (h : list node) :
  represents tree w st d → node_ok x → Forall node_ok h →
  block_size tree ≤ Z.of_nat (length h) →
  Z.of_nat (length (store_history st)) + Z.of_nat (length (x :: h)) + block_size tree < 2147483648 →
  ∃ tree' w' d',
    puts (x :: h) tree w = Ret (tree', w') ∧
    files w' !! disk1 tree = Some (disk_file (Z.of_nat (length d')) d') ∧ x ∈ d'.
Proof.
  intros R Hx Hh Hlen Hl.
  destruct (puts_refine (x :: h) tree w st d R) as (t' & w' & d' & E & R' & (_ & _ & C) & _);
    [by constructor | exact Hl |].
  exists t', w', d'. split; [exact E|]. destruct R' as [_ _ [_ Hf] Hfl]. rewrite C in Hf.
  assert (x ∈ d') as Hin.
  { rewrite (flushed_as_perm _ _ _ Hfl). pose proof (rep_tree _ _ _ _ R) as [Hs _ Hn _].
    pose proof (length_buffer tree (rep_tree _ _ _ _ R)) as Hb. rewrite (rep_recent _ _ _ _ R) in Hb.
    apply store_puts_flushed_in; lia. }
  split; [|done]. rewrite Hf. destruct d'; [by apply elem_of_nil in Hin | done].
Qed.

Lemma put_reaches_file_witness :
  ∃ tree' w' d',
    puts (A := glibc) [Node 7 70; Node 5 51; Node 9 90] (tree2 true) no_files = Ret (tree', w') ∧
    files w' !! "disk_storage.txt" = Some (disk_file (Z.of_nat (length d')) d') ∧ Node 7 70 ∈ d'.
Proof.
  apply (put_reaches_file (A := glibc) (tree2 true) no_files store_empty []);
    [apply tree2_fresh | concrete..].
Defined.
