(* ===== verification/DateTheorems.v ===== *)
(** DateTheorems: the properties of the date classes of include/date/date.h. *)

From Stdlib Require Import ZArith Lia.
From stdpp Require Import base list.
From S2P Require Import Prelude Memory Calendar Civil DateUnits DateFields DateYmd DateYmw DateSerial DateNth.

(** ** Serial day numbers *)

(** C2 (roundtrip). [to_days] and [from_days] are inverse to each other, without overflow, between
    the valid dates of the years -32767 to 32767 and the day numbers from -12687428 to 11248737;
    [from_days] gives a valid date for each of these day numbers. *)
Theorem ymd_days_roundtrip :
  (∀ x, wf x = true → ymd_ok x = Ret true →
     ∃ z, ymd_to_days x = Ret z ∧ first_day ≤ z ≤ last_day ∧ ymd_from_days z = Ret x) ∧
  (∀ z, first_day ≤ z ≤ last_day →
     ∃ x, ymd_from_days z = Ret x ∧ wf x = true ∧ ymd_ok x = Ret true ∧ ymd_to_days x = Ret z).
Proof.
  split; [exact (@to_serial_ok _ _ _ _ _ ymd_serial_laws) | exact (@of_serial_ok _ _ _ _ _ ymd_serial_laws)].
Qed.

Lemma ymd_days_roundtrip_witness :
  ∃ z, ymd_to_days (ym_div_int (year_div_int (year_ctor 2019) 8) 16) = Ret z
    ∧ first_day ≤ z ≤ last_day
    ∧ ymd_from_days z = Ret (ym_div_int (year_div_int (year_ctor 2019) 8) 16).
Proof. apply (proj1 ymd_days_roundtrip); reflexivity. Defined.

(** C3 (functional). The day number of 1970-01-01 is 0 and the day number of the day after a date is
    one more: with [civil_succ] the rules of the Gregorian calendar, this determines [to_days] on
    all valid dates. *)
Theorem ymd_to_days_counts_days :
  ymd_to_days (ym_div_day (year_div_month (year_ctor 1970) January) (day_ctor 1)) = Ret 0 ∧
  ∀ y m d y' m' d',
    -32767 ≤ y → y' ≤ 32767 → civil_valid y m d → civil_succ y m d = (y', m', d') →
    ∃ z, ymd_to_days (MkYearMonthDay (MkYear y) (MkMonth m) (MkDay d)) = Ret z
      ∧ ymd_to_days (MkYearMonthDay (MkYear y') (MkMonth m') (MkDay d')) = Ret (z + 1).
Proof.
  split; [reflexivity|]. intros y m d y' m' d' Hlo Hhi Hv E.
  pose proof (civil_days_succ y m d Hv) as H. rewrite E in H. destruct H as [Hv' Hc].
  assert (y ≤ y' ≤ y + 1) as Hy.
  { unfold civil_succ in E. repeat case_match; injection E as <- <- <-; lia. }
  destruct (MkYearMonthDay_ok y m d ltac:(lia) Hv) as [Hw Ho].
  destruct (MkYearMonthDay_ok y' m' d' ltac:(lia) Hv') as [Hw' Ho'].
  exists (civil_days y m d). rewrite <- Hc.
  split; [apply (ymd_to_days_ok _ Hw Ho) | apply (ymd_to_days_ok _ Hw' Ho')].
Qed.

Lemma ymd_to_days_counts_days_witness :
  ∃ z, ymd_to_days (MkYearMonthDay (MkYear 2020) (MkMonth 2) (MkDay 29)) = Ret z
    ∧ ymd_to_days (MkYearMonthDay (MkYear 2020) (MkMonth 3) (MkDay 1)) = Ret (z + 1).
Proof.
  apply (proj2 ymd_to_days_counts_days); [lia | lia | split; [lia | reflexivity || (vm_compute; split; discriminate)] | reflexivity].
Defined.

(** C8 (refinement). On valid dates the operator [<] of [year_month_day] is the order of the day
    numbers, and [==] is their equality. *)
Theorem ymd_order_is_day_order x y :
  wf x = true → wf y = true → ymd_ok x = Ret true → ymd_ok y = Ret true →
  ∃ a b, ymd_to_days x = Ret a ∧ ymd_to_days y = Ret b
    ∧ ymd_lt x y = (a <? b) ∧ ymd_eq x y = (a =? b).
Proof.
  intros Wx Wy Ox Oy.
  destruct (ymd_to_days_ok x Wx Ox) as [Tx _]. destruct (ymd_to_days_ok y Wy Oy) as [Ty _].
  eexists _, _. split; [exact Tx|]. split; [exact Ty|].
  apply ymd_ok_true in Ox as [_ Vx]. apply ymd_ok_true in Oy as [_ Vy].
  pose proof (civil_days_lt _ _ _ _ _ _ Vx Vy) as Hlt.
  pose proof (civil_days_inj _ _ _ _ _ _ Vx Vy) as Heq.
  destruct x as [[y1] [m1] [d1]], y as [[y2] [m2] [d2]]. cbn in *. split; apply Bool.eq_iff_eq_true.
  - rewrite Z.ltb_lt, Hlt. rel_unfold. cbn. zb_cases; intuition (try discriminate; try lia).
  - rewrite Z.eqb_eq. rel_unfold. cbn. rewrite !andb_true_iff, !Z.eqb_eq. split.
    + by intros [[-> ->] ->].
    + intros E. destruct (Heq E) as (-> & -> & ->). auto.
Qed.

Lemma ymd_order_is_day_order_witness :
  ∃ a b, ymd_to_days (MkYearMonthDay (MkYear (-1)) (MkMonth 12) (MkDay 31)) = Ret a
    ∧ ymd_to_days (MkYearMonthDay (MkYear 0) (MkMonth 1) (MkDay 1)) = Ret b
    ∧ ymd_lt (MkYearMonthDay (MkYear (-1)) (MkMonth 12) (MkDay 31))
             (MkYearMonthDay (MkYear 0) (MkMonth 1) (MkDay 1)) = (a <? b)
    ∧ ymd_eq (MkYearMonthDay (MkYear (-1)) (MkMonth 12) (MkDay 31))
             (MkYearMonthDay (MkYear 0) (MkMonth 1) (MkDay 1)) = (a =? b).
Proof. apply ymd_order_is_day_order; reflexivity. Defined.

(** [from_days] of any [int]: month and day are always those of the day; the year is
    the one of the day reduced to a [short], so it is right exactly for the years a [short] holds;
    within 719468 of the largest [int] the first addition overflows. *)
Theorem ymd_from_days_bounds z :
  -2147483648 ≤ z ≤ 2147483647 →
  if z <=? 2146764179 then
    ∃ y m d, civil_valid y m d ∧ civil_days y m d = z
      ∧ ymd_from_days z = Ret (MkYearMonthDay (year_ctor y) (MkMonth m) (MkDay d))
      ∧ (year_int (year_ctor y) = y ↔ -32768 ≤ y ≤ 32767)
  else ymd_from_days z = Fault SignedOverflow.
Proof.
  intros Hz. destruct (Z.leb_spec z 2146764179).
  - pose proof (civil_of_days_spec z) as H'. rewrite ymd_from_days_civil by lia.
    destruct (civil_of_days z) as [[y m] d]. destruct H' as [Hv Hc].
    exists y, m, d. split; [done|]. split; [done|]. split; [done|].
    unfold year_int. split.
    + intros E. pose proof (proj1 (year_wf_spec _) (year_ctor_wf y)). lia.
    + intros. by rewrite year_ctor_small by lia.
  - apply ymd_from_days_overflow. lia.
Qed.

Lemma ymd_from_days_bounds_witness :
  if 11248738 <=? 2146764179 then
    ∃ y m d, civil_valid y m d ∧ civil_days y m d = 11248738
      ∧ ymd_from_days 11248738 = Ret (MkYearMonthDay (year_ctor y) (MkMonth m) (MkDay d))
      ∧ (year_int (year_ctor y) = y ↔ -32768 ≤ y ≤ 32767)
  else ymd_from_days 11248738 = Fault SignedOverflow.
Proof. apply (ymd_from_days_bounds 11248738). lia. Defined.

(** [year/month/last] is the last day of its month: one of its days later it is the
    first of the next month. *)
Theorem ymdl_is_last_day y m :
  wf y = true → year_ok y = true → month_ok m = true → year_y y < 32767 →
  ∃ z d, ymdl_sys_days (ym_div_last (year_div_month y m) last) = Ret z
    ∧ ymd_of_ymdl (ym_div_last (year_div_month y m) last) = Ret (MkYearMonthDay y m d)
    ∧ ymd_ok (MkYearMonthDay y m d) = Ret true
    ∧ ymd_ok (MkYearMonthDay y m (day_pre_inc d)) = Ret false
    ∧ (ym ← ym_plus_months (year_div_month y m) 1; ymd_sys_days (ym_div_int ym 1)) = Ret (z + 1).
Proof.
  intros Hw Ho Hm Hy. pose proof (proj1 (year_ok_spec _ Hw) Ho) as Hr.
  pose proof (proj1 (month_ok_spec _) Hm) as Hm'.
  set (len := month_length (year_y y) (month_m m)).
  assert (28 ≤ len ≤ 31) as Hl by apply month_length_bounds.
  exists (civil_days (year_y y) (month_m m) len), (MkDay len).
  split; [by apply last_of_month|].
  split; [unfold ymd_of_ymdl; by rewrite ymdl_day_spec|].
  assert (negb (year_y y =? -32768) = true) as Hn by (apply negb_true_iff, Z.eqb_neq; lia).
  rewrite !ymd_ok_spec. cbn [ymd_y ymd_m ymd_d]. rewrite Hn, Hm. fold len.
  unfold day_pre_inc. cbn [day_d]. rewrite u8_small by lia.
  split; [f_equal; cbn; apply andb_true_iff; rewrite !Z.leb_le; lia|].
  split; [f_equal; cbn; apply andb_false_iff; rewrite !Z.leb_gt; lia|].
  assert (wf (year_div_month y m) = true) as Hwym.
  { apply ym_wf_spec. apply year_wf_spec in Hw. cbn. lia. }
  rewrite ym_plus_months_div by (try done; cbn; lia). rewrite outcome_bind_ret.
  cbn [year_div_month year_month_ctor ym_y ym_m].
  pose proof (Z.mod_pos_bound (month_m m - 1 + 1) 12).
  pose proof (Z.div_mod (month_m m - 1 + 1) 12).
  rewrite year_ctor_small by lia.
  rewrite (first_of_month (MkYear _) (MkMonth _))
    by (try apply year_wf_spec; try apply month_ok_spec; cbn; lia).
  f_equal. cbn [year_y month_m]. unfold civil_days, len.
  assert (month_index (year_y y + (month_m m - 1 + 1) / 12) ((month_m m - 1 + 1) mod 12 + 1)
          = month_index (year_y y) (month_m m) + 1) as -> by (unfold month_index; lia).
  rewrite month_start_step by done. lia.
Qed.

Lemma ymdl_is_last_day_witness :
  ∃ z d, ymdl_sys_days (ym_div_last (year_div_month (MkYear 1900) February) last) = Ret z
    ∧ ymd_of_ymdl (ym_div_last (year_div_month (MkYear 1900) February) last)
      = Ret (MkYearMonthDay (MkYear 1900) February d)
    ∧ ymd_ok (MkYearMonthDay (MkYear 1900) February d) = Ret true
    ∧ ymd_ok (MkYearMonthDay (MkYear 1900) February (day_pre_inc d)) = Ret false
    ∧ (ym ← ym_plus_months (year_div_month (MkYear 1900) February) 1; ymd_sys_days (ym_div_int ym 1))
      = Ret (z + 1).
Proof. apply ymdl_is_last_day; reflexivity. Defined.

(** ** Months and years *)

(** C13 (functional). A date plus months is the same day of the month that many months away; the
    result is [ok()] exactly when that month has the day, and subtracting the months again gives
    back the date. *)
Theorem ymd_plus_months_keeps_day x dm :
  wf x = true → ymd_ok x = Ret true →
  let n := ym_number (year_div_month (ymd_year x) (ymd_month x)) in
  -393204 ≤ n + dm < 393216 →
  ∃ r, ymd_plus_months x dm = Ret r
    ∧ ym_number (year_div_month (ymd_year r) (ymd_month r)) = n + dm
    ∧ ymd_day r = ymd_day x
    ∧ ymd_ok r = Ret (day_unsigned (ymd_day x)
                        <=? month_length (year_int (ymd_year r)) (month_unsigned (ymd_month r)))
    ∧ ymd_minus_months r dm = Ret x.
Proof.
  intros Hwf Hok n Hn. pose proof (proj1 (ymd_wf_spec _) Hwf) as (Hwy & Hwm & Hwd).
  apply ymd_ok_true in Hok as [Hy [Hm Hd]]. destruct x as [y m d]. cbn in Hy, Hm, Hd, Hwy, Hwm, Hwd.
  set (ym := year_div_month y m) in *. change n with (ym_number ym) in *. clear n.
  assert (wf ym = true) as Hwym by (apply ym_wf_spec; done).
  assert (month_ok (ym_m ym) = true) as Hmo by (apply month_ok_spec; done).
  destruct (ym_plus_months_number ym dm Hwym Hmo) as (r & E & Hwr & Hmr & Hr); [lia|].
  exists (ym_div_day r d). unfold ymd_plus_months. cbn [ymd_year ymd_month ymd_day ymd_y ymd_m ymd_d].
  fold ym. rewrite E, outcome_bind_ret. split; [done|].
  destruct r as [yr mr]. cbn [ym_div_day ym_y ym_m] in *.
  split; [exact Hr|]. split; [done|].
  pose proof (proj1 (month_ok_spec _) Hmr) as Hmr'. cbn [ym_m] in Hmr'.
  assert (-32767 ≤ year_y yr) as Hyr.
  { unfold ym_number in Hr, Hn. cbn [ym_y ym_m ym year_div_month year_month_ctor] in *. lia. }
  split.
  - rewrite ymd_ok_spec.
    cbn [ym_div_day ymd_y ymd_m ymd_d ymd_day ymd_year ymd_month year_month_day_ctor ym_year ym_month ym_y ym_m].
    rewrite Hmr. assert ((year_y yr =? -32768) = false) as -> by (apply Z.eqb_neq; lia).
    assert ((1 <=? day_d d) = true) as -> by (apply Z.leb_le; lia). reflexivity.
  - unfold ymd_minus_months, duration_neg, int_neg.
    assert (-786420 ≤ dm ≤ 786432) as Hdm.
    { unfold ym_number in Hn. cbn [ym_y ym_m ym year_div_month year_month_ctor] in Hn. lia. }
    rewrite int_res_ok, outcome_bind_ret by lia. unfold ymd_plus_months.
    cbn [ym_div_day ymd_year ymd_month ymd_day year_month_day_ctor ymd_y ymd_m ymd_d ym_year ym_month ym_y ym_m].
    destruct (ym_plus_months_number (MkYearMonth yr mr) (- dm) Hwr Hmr) as (b & Eb & _ & Hmb & Hb).
    { rewrite Hr. unfold ym_number. cbn [ym_y ym_m ym year_div_month year_month_ctor]. lia. }
    unfold year_div_month, year_month_ctor. rewrite Eb, outcome_bind_ret.
    assert (b = ym) as -> by (apply ym_number_inj; [done | done | lia]). reflexivity.
Qed.

Lemma ymd_plus_months_keeps_day_witness :
  let x := MkYearMonthDay (MkYear 2019) January (MkDay 31) in
  ∃ r, ymd_plus_months x 1 = Ret r
    ∧ ym_number (year_div_month (ymd_year r) (ymd_month r))
      = ym_number (year_div_month (ymd_year x) (ymd_month x)) + 1
    ∧ ymd_day r = ymd_day x
    ∧ ymd_ok r = Ret (day_unsigned (ymd_day x)
                        <=? month_length (year_int (ymd_year r)) (month_unsigned (ymd_month r)))
    ∧ ymd_minus_months r 1 = Ret x.
Proof.
  intros x. apply (ymd_plus_months_keeps_day x 1); [reflexivity | reflexivity |].
  vm_compute. split; [discriminate | reflexivity].
Defined.

(** [year_month] plus and minus months and the difference of two [year_month]s are
    the arithmetic of the month number 12 y + m - 1, for every pair of months in the years of a
    [short]; none of the [int] operations overflows there. *)
Theorem year_month_arithmetic x y :
  wf x = true → wf y = true → month_ok (ym_m x) = true → month_ok (ym_m y) = true →
  ∃ d, ym_minus_ym y x = Ret d ∧ d = ym_number y - ym_number x
    ∧ ym_plus_months x d = Ret y ∧ months_plus_ym d x = Ret y ∧ ym_minus_months y d = Ret x.
Proof.
  intros Wx Wy Mx My. exists (ym_number y - ym_number x).
  rewrite ym_minus_ym_number by done. split; [done|]. split; [done|].
  assert (∀ z, wf z = true → month_ok (ym_m z) = true → -393216 ≤ ym_number z < 393216) as Hr.
  { intros z [Hz _]%ym_wf_spec Hm%month_ok_spec. unfold ym_number. lia. }
  pose proof (Hr x Wx Mx). pose proof (Hr y Wy My).
  assert (∀ a b, wf a = true → wf b = true → month_ok (ym_m a) = true → month_ok (ym_m b) = true →
            ym_plus_months a (ym_number b - ym_number a) = Ret b) as Hplus.
  { intros a b Wa Wb Ma Mb. pose proof (Hr a Wa Ma). pose proof (Hr b Wb Mb).
    destruct (ym_plus_months_number a (ym_number b - ym_number a) Wa Ma) as (c & E & _ & Mc & Hc);
      [lia|].
    rewrite E. f_equal. apply ym_number_inj; [done | done | lia]. }
  split; [by apply Hplus|]. split; [by apply Hplus|].
  unfold ym_minus_months, duration_neg, int_neg. rewrite int_res_ok, outcome_bind_ret by lia.
  replace (- (ym_number y - ym_number x)) with (ym_number x - ym_number y) by lia. by apply Hplus.
Qed.

Lemma year_month_arithmetic_witness :
  ∃ d, ym_minus_ym (MkYearMonth (MkYear 2020) March) (MkYearMonth (MkYear 2019) November) = Ret d
    ∧ d = ym_number (MkYearMonth (MkYear 2020) March) - ym_number (MkYearMonth (MkYear 2019) November)
    ∧ ym_plus_months (MkYearMonth (MkYear 2019) November) d = Ret (MkYearMonth (MkYear 2020) March)
    ∧ months_plus_ym d (MkYearMonth (MkYear 2019) November) = Ret (MkYearMonth (MkYear 2020) March)
    ∧ ym_minus_months (MkYearMonth (MkYear 2020) March) d = Ret (MkYearMonth (MkYear 2019) November).
Proof. apply year_month_arithmetic; reflexivity. Defined.

(** Months go around the year: the difference of two months is the number of steps
    forward from the second to the first, adding it to the second gives the first, and [++] and
    [--] undo each other. *)
Theorem month_cycle x y :
  month_ok x = true → month_ok y = true →
  0 ≤ month_minus_month x y ≤ 11
  ∧ month_plus_months y (month_minus_month x y) = x
  ∧ month_minus_months x (month_minus_month x y) = Ret y
  ∧ month_pre_dec (month_pre_inc x) = Ret x
  ∧ (month_pre_dec x ≫= λ p, Ret (month_pre_inc p)) = Ret x.
Proof.
  intros Hx Hy. rewrite month_minus_month_mod by done.
  apply month_ok_spec in Hx, Hy. destruct x as [x], y as [y]. cbn [month_m] in *.
  pose proof (Z.mod_pos_bound (x - y) 12).
  split; [lia|]. rewrite month_plus_months_mod. cbn [month_m]. split; [f_equal; div_lia|].
  unfold month_minus_months, month_pre_dec, month_pre_inc, month_sub_assign, month_add_assign,
    month_minus_months, duration_neg, int_neg.
  rewrite !int_res_ok, !outcome_bind_ret by lia. rewrite !month_plus_months_mod. cbn [month_m].
  split_and!; first [div_lia | f_equal; div_lia | do 2 f_equal; div_lia].
Qed.

Lemma month_cycle_witness :
  0 ≤ month_minus_month January December ≤ 11
  ∧ month_plus_months December (month_minus_month January December) = January
  ∧ month_minus_months January (month_minus_month January December) = Ret December
  ∧ month_pre_dec (month_pre_inc January) = Ret January
  ∧ (month_pre_dec January ≫= λ p, Ret (month_pre_inc p)) = Ret January.
Proof. apply month_cycle; reflexivity. Defined.

(** ** Weekdays *)

(** The weekday of a day number is Thursday for 0 and goes one further each day,
    for every [int], negative ones included. *)
Theorem weekday_of_day_number z :
  -2147483648 ≤ z < 2147483647 →
  weekday_of_sys_days z = weekday_plus_days Thursday z
  ∧ weekday_ok (weekday_of_sys_days z) = true
  ∧ weekday_of_sys_days (z + 1) = weekday_pre_inc (weekday_of_sys_days z)
  ∧ weekday_pre_dec (weekday_of_sys_days (z + 1)) = Ret (weekday_of_sys_days z).
Proof.
  intros Hz. unfold weekday_of_sys_days. rewrite !weekday_from_days_mod by lia.
  unfold weekday_pre_dec, weekday_pre_inc, weekday_sub_assign, weekday_add_assign,
    weekday_minus_days, duration_neg, int_neg.
  rewrite int_res_ok, outcome_bind_ret by lia. rewrite !weekday_plus_days_mod.
  change (weekday_wd Thursday) with 4. cbn [weekday_wd].
  split_and!; try first [f_equal; div_lia | do 2 f_equal; div_lia].
  unfold weekday_ok. cbn [weekday_wd]. apply Z.leb_le. div_lia.
Qed.

Lemma weekday_of_day_number_witness :
  weekday_of_sys_days (-1000000) = weekday_plus_days Thursday (-1000000)
  ∧ weekday_ok (weekday_of_sys_days (-1000000)) = true
  ∧ weekday_of_sys_days (-1000000 + 1) = weekday_pre_inc (weekday_of_sys_days (-1000000))
  ∧ weekday_pre_dec (weekday_of_sys_days (-1000000 + 1)) = Ret (weekday_of_sys_days (-1000000)).
Proof. apply weekday_of_day_number. lia. Defined.

(** Weekdays go around the week: the difference of two weekdays is the number of
    days forward from the second to the first, and it takes the second to the first. *)
Theorem weekday_cycle x y d :
  wf x = true → wf y = true → weekday_ok x = true → weekday_ok y = true →
  -2147483648 < d ≤ 2147483647 →
  0 ≤ weekday_minus_weekday x y ≤ 6
  ∧ weekday_plus_days y (weekday_minus_weekday x y) = x
  ∧ weekday_ok (weekday_plus_days x d) = true
  ∧ weekday_minus_days (weekday_plus_days x d) d = Ret x.
Proof.
  intros Wx Wy Hx Hy Hd. apply (weekday_ok_spec _ Wx) in Hx. apply (weekday_ok_spec _ Wy) in Hy.
  destruct x as [x], y as [y]. cbn [weekday_wd] in *.
  rewrite weekday_minus_weekday_mod. unfold weekday_minus_days, duration_neg, int_neg.
  rewrite int_res_ok, outcome_bind_ret by lia. rewrite !weekday_plus_days_mod. cbn [weekday_wd].
  unfold weekday_ok. cbn [weekday_wd]. rewrite Z.leb_le.
  split_and!; first [div_lia | f_equal; div_lia | do 2 f_equal; div_lia].
Qed.

Lemma weekday_cycle_witness :
  0 ≤ weekday_minus_weekday Sunday Saturday ≤ 6
  ∧ weekday_plus_days Saturday (weekday_minus_weekday Sunday Saturday) = Sunday
  ∧ weekday_ok (weekday_plus_days Sunday (-8)) = true
  ∧ weekday_minus_days (weekday_plus_days Sunday (-8)) (-8) = Ret Sunday.
Proof. apply weekday_cycle; [reflexivity.. | lia]. Defined.

(** [weekday_indexed] keeps four bits of the weekday and of the index, so it is [ok()]
    for some arguments that are not: 16 is not a weekday but [weekday{16}[1].ok()] is true, and
    so is that of the weekday 23, whose four bits are read as Sunday. *)
Theorem weekday_indexed_bits wd i :
  wf wd = true → 0 ≤ i < 4294967296 →
  wdi_ok (weekday_at wd i)
  = (weekday_wd wd mod 16 <=? 7) && (1 <=? i mod 16) && (i mod 16 <=? 5).
Proof.
  intros Hwd%weekday_wf_spec Hi. unfold wdi_ok, weekday_at, weekday_indexed_ctor, wdi_weekday.
  cbn [wdi_wd wdi_index_]. rewrite (u8_small (weekday_wd wd)) by lia.
  assert (uwrap 4 (u8 i) = i mod 16) as ->.
  { unfold uwrap. change (2 ^ 4) with 16. change (2 ^ 8) with 256. div_lia. }
  change (uwrap 4 (weekday_wd wd)) with (weekday_wd wd mod 16).
  pose proof (Z.mod_pos_bound (weekday_wd wd) 16).
  f_equal. f_equal. unfold weekday_ctor, weekday_ok. cbn [weekday_wd].
  destruct (Z.eqb_spec (weekday_wd wd mod 16) 7) as [->|]; [done|]. simpl.
  rewrite u8_small by lia. zb_cases; lia || done.
Qed.

Lemma weekday_indexed_bits_witness :
  wdi_ok (weekday_at (weekday_ctor 23) 1)
  = (weekday_wd (weekday_ctor 23) mod 16 <=? 7) && (1 <=? 1 mod 16) && (1 mod 16 <=? 5).
Proof. apply weekday_indexed_bits; [reflexivity | lia]. Defined.

(** C12 (roundtrip). The n-th weekday of a month: [year_month_weekday] and the day numbers correspond
    one to one on the same range as [year_month_day], and a fifth weekday is [ok()] exactly when
    it exists. *)
Theorem ymwd_days_roundtrip :
  (∀ x, wf x = true → ymwd_ok x = Ret true →
     ∃ z, ymwd_to_days x = Ret z ∧ first_day ≤ z ≤ last_day ∧ ymwd_from_days z = Ret x) ∧
  (∀ z, first_day ≤ z ≤ last_day →
     ∃ x, ymwd_from_days z = Ret x ∧ wf x = true ∧ ymwd_ok x = Ret true ∧ ymwd_to_days x = Ret z).
Proof.
  split; [exact (@to_serial_ok _ _ _ _ _ ymwd_serial_laws)
         | exact (@of_serial_ok _ _ _ _ _ ymwd_serial_laws)].
Qed.

Lemma ymwd_days_roundtrip_witness :
  ∃ z, ymwd_to_days (ym_div_wdi (year_div_month (MkYear 2019) August) (weekday_at Friday 5)) = Ret z
    ∧ first_day ≤ z ≤ last_day
    ∧ ymwd_from_days z
      = Ret (ym_div_wdi (year_div_month (MkYear 2019) August) (weekday_at Friday 5)).
Proof. apply (proj1 ymwd_days_roundtrip); reflexivity. Defined.

(** [year_month_weekday_last] is the last such weekday of its month: its day number
    is a day of the month, it has the weekday, and the day a week later is past the month. *)
Theorem ymwdl_is_last_weekday x :
  wf x = true → ymwdl_ok x = true →
  ∃ z d, ymwdl_to_days x = Ret z
    ∧ ymd_from_days z = Ret (MkYearMonthDay (ymwdl_year x) (ymwdl_month x) d)
    ∧ weekday_of_sys_days z = ymwdl_weekday x
    ∧ ymd_ok (MkYearMonthDay (ymwdl_year x) (ymwdl_month x) d) = Ret true
    ∧ ymd_ok (MkYearMonthDay (ymwdl_year x) (ymwdl_month x) (day_plus_days d 7)) = Ret false.
Proof.
  intros Hwf Hok. destruct (ymwdl_to_days_spec x Hwf Hok) as (d & Ed & Hd & Hw).
  pose proof Hwf as Hwf'. unfold wf, year_month_weekday_last_wf in Hwf'.
  apply andb_true_iff in Hwf' as [[Hwy Hwm]%andb_true_iff _].
  pose proof Hok as Hok'. unfold ymwdl_ok in Hok'.
  apply andb_true_iff in Hok' as [[Hy Hm]%andb_true_iff _].
  destruct x as [[y] [m] [[wd]]].
  cbn [ymwdl_y ymwdl_m ymwdl_wdl wdl_wd weekday_wd year_y month_m ymwdl_year ymwdl_month] in *.
  apply (year_ok_spec _ Hwy) in Hy. pose proof Hm as Hm'%month_ok_spec. cbn [year_y month_m] in *.
  pose proof (month_length_bounds y m) as Hl.
  exists (civil_days y m d), (MkDay d). split; [exact Ed|].
  destruct (MkYearMonthDay_ok y m d ltac:(lia)) as [Wx Ox]; [split; lia|].
  destruct (@to_serial_ok _ _ _ _ _ ymd_serial_laws _ Wx Ox) as (z & Tz & _ & Fz).
  assert (z = civil_days y m d) as ->.
  { destruct (ymd_to_days_ok _ Wx Ox) as [T _]. cbn in T.
    change (ymd_to_days (MkYearMonthDay (MkYear y) (MkMonth m) (MkDay d)) = Ret z) in Tz.
    congruence. }
  split; [exact Fz|]. split; [exact Hw|]. split; [exact Ox|].
  rewrite ymd_ok_spec. cbn [ymd_y ymd_m ymd_d year_y month_m].
  unfold day_plus_days, day_unsigned. cbn [day_d]. rewrite (u32_small 7) by lia. uint_step.
  rewrite day_ctor_small by lia. cbn [day_d]. f_equal. apply andb_false_iff. right.
  apply Z.leb_gt. lia.
Qed.

Lemma ymwdl_is_last_weekday_witness :
  let x := ym_div_wdl (year_div_month (MkYear 2019) August) (weekday_at_last Monday last) in
  ∃ z d, ymwdl_to_days x = Ret z
    ∧ ymd_from_days z = Ret (MkYearMonthDay (ymwdl_year x) (ymwdl_month x) d)
    ∧ weekday_of_sys_days z = ymwdl_weekday x
    ∧ ymd_ok (MkYearMonthDay (ymwdl_year x) (ymwdl_month x) d) = Ret true
    ∧ ymd_ok (MkYearMonthDay (ymwdl_year x) (ymwdl_month x) (day_plus_days d 7)) = Ret false.
Proof. intros x. apply (ymwdl_is_last_weekday x); reflexivity. Defined.

(** ** The interfaces *)

(** A valid date converted to the n-th weekday of its month and back is the date
    again. *)
Theorem ymd_ymwd_convert (x : year_month_day) :
  wf x = true → ymd_ok x = Ret true →
  ∃ e : year_month_weekday, convert x = Ret e ∧ wf e = true ∧ ymwd_ok e = Ret true
    ∧ ymwd_year e = ymd_year x ∧ ymwd_month e = ymd_month x ∧ convert e = Ret x.
Proof.
  intros Hwf Hok.
  destruct (ymd_to_days_ok x Hwf Hok) as [Ht Hr].
  destruct (convert_back (E := year_month_weekday) (lo' := first_day) (hi' := last_day) x)
    as (e & He & We & Oe & Be); [done | done | |].
  { intros z Hz. change (ymd_to_days x = Ret z) in Hz. rewrite Ht in Hz. by injection Hz as <-. }
  exists e. split; [done|]. split; [done|]. split; [done|].
  assert (∃ e', convert x = Ret e' ∧ ymwd_year e' = ymd_year x ∧ ymwd_month e' = ymd_month x)
    as (e' & He' & E1 & E2).
  { unfold convert.
    assert (to_serial x = Ret (civil_days (year_y (ymd_y x)) (month_m (ymd_m x)) (day_d (ymd_d x))))
      as -> by exact Ht.
    rewrite outcome_bind_ret.
    destruct (ymwd_from_days_ok _ Hr) as (y & m & d & Hy & Hv & Hc & E).
    apply ymd_ok_true in Hok as [_ Hvx].
    destruct (civil_days_inj _ _ _ _ _ _ Hv Hvx Hc) as (-> & -> & ->).
    eexists. split; [exact E|]. by destruct x as [[] [] []]. }
  rewrite He in He'. injection He' as <-. auto.
Qed.

Lemma ymd_ymwd_convert_witness :
  ∃ e : year_month_weekday,
    convert (MkYearMonthDay (MkYear 2019) August (MkDay 16)) = Ret e ∧ wf e = true
    ∧ ymwd_ok e = Ret true
    ∧ ymwd_year e = MkYear 2019 ∧ ymwd_month e = August
    ∧ convert e = Ret (MkYearMonthDay (MkYear 2019) August (MkDay 16)).
Proof. apply (ymd_ymwd_convert (MkYearMonthDay (MkYear 2019) August (MkDay 16))); reflexivity. Defined.

(** The six operators of a class are one strict total order and what follows from it. *)
Definition total_order (A : Type) `{!Relational A} : Prop :=
  (∀ x y : A, (rel_lt x y, rel_eq x y, rel_gt x y)
     ∈ [(true, false, false); (false, true, false); (false, false, true)]) ∧
  (∀ x y z : A, rel_lt x y = true → rel_lt y z = true → rel_lt x z = true) ∧
  (∀ x y : A, rel_eq x y = true ↔ x = y) ∧
  (∀ x y : A, rel_ne x y = negb (rel_eq x y)) ∧
  (∀ x y : A, rel_le x y = rel_lt x y || rel_eq x y) ∧
  (∀ x y : A, rel_ge x y = rel_gt x y || rel_eq x y).

Lemma laws_total_order {A : Type} {key} `{!Relational A, !RelationalLaws A key} : total_order A.
Proof.
  split_and!; [apply rel_trichotomy | apply rel_lt_trans | apply rel_eq_true
              | apply rel_ne_eq | apply rel_le_spec | apply rel_ge_spec].
Qed.

(** In each class that has the six comparison operators they are one total order:
    exactly one of [<], [==] and [>] holds, [<] is transitive, [==] is equality of the stored
    fields, and [!=], [<=], [>=] are what their names say. *)
Theorem date_comparisons_total_orders :
  total_order day ∧ total_order month ∧ total_order year ∧ total_order year_month ∧
  total_order month_day ∧ total_order month_day_last ∧ total_order year_month_day_last ∧
  total_order year_month_day.
Proof. split_and!; apply laws_total_order. Qed.

(** [month_day::ok()] accepts exactly the days that some year has: 29 February
    included. *)
Theorem md_ok_some_year md :
  wf md = true →
  md_ok md = Ret true
  ↔ ∃ y, wf y = true ∧ ymd_ok (year_div_md y md) = Ret true.
Proof.
  intros Hwf. destruct md as [m d]. unfold wf, month_day_wf in Hwf. cbn in Hwf.
  apply andb_true_iff in Hwf as [Hwm%month_wf_spec Hwd%day_wf_spec].
  assert (md_ok (MkMonthDay m d) = Ret (month_ok m && (1 <=? day_d d)
            && (day_d d <=? month_length 2000 (month_m m)))) as ->.
  { unfold md_ok. cbn [md_m md_d]. rewrite day_le_leb. change (day_d (day_ctor 1)) with 1.
    destruct (month_ok m) eqn:Hm; [|done]. cbn [andb]. destruct (1 <=? day_d d); [|done].
    rewrite month_day_ok_d_spec, outcome_bind_ret by done. by rewrite day_le_leb. }
  split.
  - intros [= H]. exists (MkYear 2000). split; [done|]. rewrite ymd_ok_spec.
    etransitivity; [|exact (f_equal Ret H)]. reflexivity.
  - intros (y & Hy & Hok). apply ymd_ok_true in Hok as [_ [Hm Hd]]. cbn in Hm, Hd.
    rewrite (proj2 (month_ok_spec m) Hm). f_equal. cbn [andb]. apply andb_true_iff.
    rewrite !Z.leb_le. split; [lia|]. etransitivity; [apply Hd|]. unfold month_length.
    destruct (month_m m =? 2); [|done]. destruct (leap (year_y y)); vm_compute; discriminate.
Qed.

Lemma md_ok_some_year_witness :
  md_ok (month_div_day February (MkDay 29)) = Ret true
  ↔ ∃ y, wf y = true ∧ ymd_ok (year_div_md y (month_div_day February (MkDay 29))) = Ret true.
Proof. apply md_ok_some_year. reflexivity. Defined.

(** Undoing the sign of an [int]: only the least one has no negative. *)
Lemma outcome_bind_neg {A} n (f : Z → outcome A) :
  is_i32 n = true →
  (duration_neg n ≫= f) = if n =? -2147483648 then Fault SignedOverflow else f (- n).
Proof.
  intros Hn%is_i32_spec. unfold duration_neg, int_neg. destruct (Z.eqb_spec n (-2147483648)) as [->|Hne]; [done|].
  by rewrite int_res_ok, outcome_bind_ret by lia.
Qed.

Lemma day_plus_days_mod x n : day_plus_days x n = MkDay ((day_d x + n) mod 256).
Proof.
  unfold day_plus_days, day_ctor, day_unsigned, uint_add, uwrap. change (2 ^ 8) with 256. change (2 ^ 32) with 4294967296.
  f_equal. div_lia.
Qed.

(** C40 (functional). What the arithmetic on the fields computes, for any [int] [n], valid fields or not.  A day is a
    byte: the sum and the difference with [n] are taken modulo 256, and two days are apart as their numbers are.  A
    month goes around the year, 1 following 12, and a weekday around the week: the sum and the difference with [n] are valid, and
    of two valid ones the difference is the number of steps forward from the second to the first, so that it added
    to the second gives the first.  A year is a [short]: the sum and the difference with [n] wrap to it, unless they are not
    [int]s, which is undefined; two years are apart as their numbers are; the negative of the least year is itself.
    [++] and [--] are steps by one.  The difference with the least [int] is undefined where the code negates it
    first, for days, months and weekdays. *)
Theorem field_arithmetic_exact (x x' : day) (m m' : month) (y y' : year) (w w' : weekday) (n : Z) :
  wf x = true → wf x' = true → wf y = true → wf y' = true → is_i32 n = true →
  let minus {A} (f : A) : outcome A := if n =? -2147483648 then Fault SignedOverflow else Ret f in
  let short (v : Z) := MkYear ((v + 32768) mod 65536 - 32768) in
  let in_int (v : Z) := (-2147483648 <=? v) && (v <? 2147483648) in
  (day_plus_days x n = MkDay ((day_d x + n) mod 256) ∧ day_minus_days x n = minus (MkDay ((day_d x - n) mod 256)) ∧
   day_minus_day x x' = day_d x - day_d x' ∧
   day_pre_inc x = MkDay ((day_d x + 1) mod 256) ∧ day_pre_dec x = MkDay ((day_d x - 1) mod 256)) ∧
  (month_plus_months m n = MkMonth ((month_m m + n - 1) mod 12 + 1) ∧
   month_minus_months m n = minus (MkMonth ((month_m m - n - 1) mod 12 + 1)) ∧
   month_pre_inc m = MkMonth (month_m m mod 12 + 1) ∧ month_pre_dec m = Ret (MkMonth ((month_m m - 2) mod 12 + 1)) ∧
   (month_ok m = true → month_ok m' = true →
      month_minus_month m m' = (month_m m - month_m m') mod 12 ∧ month_plus_months m' (month_minus_month m m') = m)) ∧
  (year_plus_years y n = (if in_int (year_y y + n) then Ret (short (year_y y + n)) else Fault SignedOverflow) ∧
   year_minus_years y n = (if in_int (year_y y - n) then Ret (short (year_y y - n)) else Fault SignedOverflow) ∧
   year_minus_year y y' = year_y y - year_y y' ∧
   year_pre_inc y = short (year_y y + 1) ∧ year_pre_dec y = short (year_y y - 1) ∧
   year_neg y = (if year_y y =? -32768 then y else MkYear (- year_y y))) ∧
  (weekday_plus_days w n = MkWeekday ((weekday_wd w + n) mod 7) ∧
   weekday_minus_days w n = minus (MkWeekday ((weekday_wd w - n) mod 7)) ∧
   weekday_pre_inc w = MkWeekday ((weekday_wd w + 1) mod 7) ∧
   weekday_pre_dec w = Ret (MkWeekday ((weekday_wd w - 1) mod 7)) ∧
   weekday_minus_weekday w w' = (weekday_wd w - weekday_wd w') mod 7 ∧
   (wf w = true → weekday_ok w = true → weekday_plus_days w' (weekday_minus_weekday w w') = w)).
Proof.
  intros Hx%day_wf_spec Hx'%day_wf_spec Hy%year_wf_spec Hy'%year_wf_spec Hn minus short in_int.
  split; [|split; [|split]].
  - split; [apply day_plus_days_mod|]. split.
    { unfold day_minus_days. rewrite outcome_bind_neg by done. by rewrite day_plus_days_mod, Z.add_opp_r. }
    split; [|done]. unfold day_minus_day, day_unsigned, uint_sub, uwrap, swrap. change (2 ^ (32 - 1)) with 2147483648.
    change (2 ^ 32) with 4294967296. div_lia.
  - split; [apply month_plus_months_mod|]. split.
    { unfold month_minus_months. rewrite outcome_bind_neg by done. by rewrite month_plus_months_mod, Z.add_opp_r. }
    unfold month_pre_inc, month_pre_dec, month_add_assign, month_sub_assign, month_minus_months.
    rewrite outcome_bind_neg by done. cbn [Z.eqb]. rewrite !month_plus_months_mod.
    split; [do 3 f_equal; lia|]. split; [do 4 f_equal; lia|]. intros Ho Ho'. rewrite month_minus_month_mod by done.
    split; [done|]. apply month_ok_spec in Ho, Ho'. destruct m as [m], m' as [m'].
    cbn [month_m] in *. f_equal. div_lia.
  - assert (∀ v, year_ctor v = short v) as Hs by done.
    assert (∀ v, (int_res v ≫= λ s, Ret (year_ctor s)) = if in_int v then Ret (short v) else Fault SignedOverflow) as Hi.
    { intros v. unfold int_res. change (in_int v) with (is_i32 v). by destruct (is_i32 v). }
    split; [apply Hi|]. split; [apply Hi|]. split; [done|]. split; [done|]. split; [done|].
    unfold year_neg. rewrite Hs. unfold short. destruct y as [y]. cbn [year_y] in *.
    destruct (Z.eqb_spec y (-32768)) as [->|]; [done|]. f_equal. div_lia.
  - split; [apply weekday_plus_days_mod|]. split.
    { unfold weekday_minus_days. rewrite outcome_bind_neg by done. by rewrite weekday_plus_days_mod, Z.add_opp_r. }
    unfold weekday_pre_inc, weekday_pre_dec, weekday_add_assign, weekday_sub_assign, weekday_minus_days.
    rewrite outcome_bind_neg by done. cbn [Z.eqb]. rewrite !weekday_plus_days_mod.
    split; [done|]. split; [by rewrite Z.add_opp_r|]. rewrite weekday_minus_weekday_mod. split; [done|].
    intros Hw Ho. apply weekday_ok_spec in Ho; [|done]. destruct w as [w].
    cbn [weekday_wd] in *. f_equal. div_lia.
Qed.

(** A day, a month, a year and a weekday at the end of their ranges. *)
Lemma field_arithmetic_exact_witness :
  day_plus_days (MkDay 255) 2 = MkDay 1 ∧ month_minus_months (MkMonth 1) 13 = Ret (MkMonth 12) ∧
  month_minus_month (MkMonth 1) (MkMonth 12) = 1 ∧ year_plus_years (MkYear 32767) 2 = Ret (MkYear (-32767)) ∧
  weekday_minus_weekday (MkWeekday 0) (MkWeekday 6) = 1.
Proof.
  destruct (field_arithmetic_exact (MkDay 255) (MkDay 0) (MkMonth 1) (MkMonth 12) (MkYear 32767) (MkYear 0) (MkWeekday 0)
    (MkWeekday 6) 2) as ((D & _) & (_ & _ & _ & _ & M) & (Y & _) & (_ & _ & _ & _ & W & _)); try reflexivity.
  destruct (field_arithmetic_exact (MkDay 255) (MkDay 0) (MkMonth 1) (MkMonth 12) (MkYear 32767) (MkYear 0) (MkWeekday 0)
    (MkWeekday 6) 13) as (_ & (_ & M13 & _) & _); try reflexivity.
  split; [exact D|]. split; [exact M13|]. split; [exact (proj1 (M eq_refl eq_refl))|]. split; [exact Y|exact W].
Defined.
