(* ===== verification/CafeTheorems.v ===== *)
(** CafeTheorems: the properties of the speed-test drivers' records. *)

From Stdlib Require Import ZArith Lia.
From stdpp Require Import base list gmap.
From S2P Require Import Prelude Memory CafeRecord CafeProofs.

(** Concrete data for the witnesses: the line [20,22,12,33] and the empty store. *)
Definition line1 : bytes := [50; 48; 44; 50; 50; 44; 49; 50; 44; 51; 51].
Definition cid1 : bytes := [51; 51].
Definition key1 : bytes := [51; 51; 58; 51; 51; 58; 50; 48; 95; 50; 50; 95; 49; 50].
Definition empty_db : mem_store := ∅.

(** One line of the RocksDB driver: with fewer than four fields the index into the
    fields is out of bounds; otherwise the encoded record is put under the key of the line and the
    customer id is read back, cut to the 16 bits of its size when the three fields before it fit in
    16 bits, and so whole when it is itself shorter than 65536 bytes. *)
Theorem rocksdb_line_reads_back {S : Type} `{!KVStore S, !KVStoreLaws S} (db : S) line :
  Z.of_nat (length line) < 549755813888 →
  let ret := split line comma in
  match ret !! 3%nat with
  | None => rocksdb_line db line = Fault OutOfBounds
  | Some cid =>
      ∃ key, cafe_key ret = Ret key
        ∧ (Z.of_nat (length (mjoin (take 3 ret))) < 65536 →
           rocksdb_line db line
           = Ret (kv_put db key (encode ret), take (length cid mod Z.to_nat 65536) cid))
        ∧ (Z.of_nat (length (mjoin (take 3 ret))) < 65536 → Z.of_nat (length cid) < 65536 →
           rocksdb_line db line = Ret (kv_put db key (encode ret), cid))
  end.
Proof.
  intros Hl ret. destruct (ret !! 3%nat) as [cid|] eqn:E.
  - destruct (line_record_exists line) as (key & cid' & Hk & Hc).
    { fold ret. apply lookup_lt_Some in E. lia. }
    fold ret in Hk, Hc. rewrite E in Hc. injection Hc as <-.
    exists key. split; [done|].
    pose proof (λ H, rocksdb_line_cut db line key cid (conj Hk E) Hl H) as Hcut. fold ret in Hcut.
    split; intros Hs; [|intros Hc]; rewrite (Hcut Hs); do 2 f_equal; unfold uwrap;
      change (2 ^ 16) with 65536.
    + f_equal. rewrite Z2Nat.inj_mod, Nat2Z.id by lia. done.
    + rewrite Z.mod_small, Nat2Z.id by lia. by apply take_ge.
  - apply lookup_ge_None in E. unfold rocksdb_line. fold ret. by rewrite cafe_key_short by lia.
Qed.

Lemma rocksdb_line_reads_back_witness :
  rocksdb_line empty_db line1 = Ret (kv_put empty_db key1 (encode (split line1 comma)), cid1).
Proof.
  destruct (rocksdb_line_reads_back empty_db line1 ltac:(vm_compute; reflexivity))
    as (key & Hk & _ & H).
  assert (key = key1) as -> by (vm_compute in Hk; injection Hk as <-; reflexivity).
  apply H; vm_compute; reflexivity.
Defined.

(** C39 (refinement). A run over lines that have four fields and fit in 16 bits: it reads back the
    customer id of every line in order, and at the end the store has, under the key of a line that
    does not come again, the encoded record of that line, and is unchanged elsewhere. *)
Theorem rocksdb_run_stores_lines {S : Type} `{!KVStore S, !KVStoreLaws S} (db : S) file recs :
  file_lines file = fst ∘ fst <$> recs →
  Forall (λ r, line_record r.1.1 r.1.2 r.2 ∧ line_fits r.1.1) recs →
  ∃ db', rocksdb_main db file = Ret (db', snd <$> recs)
    ∧ (∀ k, (k ∉ (snd ∘ fst <$> recs)) → kv_get db' k = kv_get db k)
    ∧ (∀ i line k cid, recs !! i = Some (line, k, cid) →
         (k ∉ (snd ∘ fst <$> drop (Datatypes.S i) recs)) →
         ∃ v, kv_get db' k = Some v ∧ v = encode (split line comma)
           ∧ decode v customer_id = Ret cid).
Proof.
  intros Hf H. destruct (rocksdb_lines db recs H) as (db' & E & Hout & Hin).
  exists db'. unfold rocksdb_main. rewrite Hf. split; [done|]. split; [done|].
  intros i line k cid Hl Hn. eexists. split; [by eapply Hin|]. split; [done|].
  apply (Forall_lookup_1 _ _ i _ H) in Hl as [Hr Hfit]. cbn [fst snd] in Hr, Hfit.
  pose proof (rocksdb_line_ok db line k cid Hr Hfit) as Hv.
  unfold rocksdb_line in Hv. rewrite (proj1 Hr), outcome_bind_ret, kv_get_put_eq in Hv.
  apply outcome_bind_inv in Hv as (v & Hd & [= ->]). exact Hd.
Qed.

Lemma rocksdb_run_stores_lines_witness :
  ∃ db', rocksdb_main empty_db (line1 ++ [newline]) = Ret (db', [cid1])
    ∧ kv_get db' key1 = Some (encode (split line1 comma)).
Proof.
  destruct (rocksdb_run_stores_lines empty_db (line1 ++ [newline]) [(line1, key1, cid1)])
    as (db' & E & _ & H).
  - vm_compute. reflexivity.
  - constructor; [|constructor]. split; [split; vm_compute; reflexivity|].
    split; vm_compute; reflexivity.
  - exists db'. split; [exact E|].
    destruct (H 0%nat line1 key1 cid1) as (v & Hv & -> & _); [reflexivity | | exact Hv].
    intros Hin. apply elem_of_nil in Hin. exact Hin.
Defined.

(** Two lines whose first four fields contain no separator of the key have the same key
    only if the four fields are the same. *)
Theorem cafe_key_injective d t r c rest d' t' r' c' rest' k :
  Forall (λ f, colon ∉ f ∧ underscore ∉ f) [d; t; r; c; d'; t'; r'; c'] →
  cafe_key (d :: t :: r :: c :: rest) = Ret k →
  cafe_key (d' :: t' :: r' :: c' :: rest') = Ret k →
  d = d' ∧ t = t' ∧ r = r' ∧ c = c'.
Proof.
  intros H E E'. rewrite !Forall_cons in H.
  destruct H as ([Hd Hd2] & [Ht Ht2] & [Hr Hr2] & [Hc Hc2] & [Hd' Hd2'] & [Ht' Ht2']
                 & [Hr' Hr2'] & [Hc' Hc2'] & _).
  rewrite (cafe_key_spec _ d t r c rest eq_refl) in E.
  rewrite (cafe_key_spec _ d' t' r' c' rest' eq_refl) in E'.
  injection E as <-. injection E' as E'.
  apply (app_sep_inj colon) in E' as [-> E']; [|done|done].
  apply (app_sep_inj colon) in E' as [_ E']; [|done|done].
  apply (app_sep_inj underscore) in E' as [-> E']; [|done|done].
  apply (app_sep_inj underscore) in E' as [-> ->]; done.
Qed.

Lemma cafe_key_injective_witness :
  [50; 48] = [50; 48] ∧ [50; 50] = [50; 50] ∧ [49; 50] = [49; 50] ∧ cid1 = cid1.
Proof.
  apply (cafe_key_injective [50; 48] [50; 50] [49; 50] cid1 [] [50; 48] [50; 50] [49; 50] cid1
           [[1]] key1); [|reflexivity|reflexivity].
  repeat constructor; apply (bool_decide_unpack _); vm_compute; exact I.
Defined.

(** Splitting a line of comma-separated fields gives the fields back when the last
    one is not empty; one empty field after the last comma is lost; the empty line is one empty
    field. *)
Theorem split_join fs :
  fs ≠ [] → Forall (λ f, comma ∉ f) fs →
  (last fs ≠ Some [] → split (join_with comma fs) comma = fs)
  ∧ split (join_with comma (fs ++ [[]])) comma = fs
  ∧ split [] comma = [[]].
Proof.
  intros Hn H. split; [|split; [|done]].
  - intros Hl. unfold split. rewrite pieces_join by done.
    destruct fs as [|f [|g fs]]; [done | done |]. by apply drop_empty_last_id.
  - unfold split. rewrite pieces_join.
    + destruct fs as [|f fs]; [done|].
      assert (∃ g gs, (f :: fs) ++ [[]] = f :: g :: gs) as (g & gs & E).
      { destruct fs as [|h fs]; eexists _, _; reflexivity. }
      rewrite E, <- E. by apply drop_empty_last_snoc.
    + by destruct fs.
    + apply Forall_app. split; [done|]. constructor; [|constructor]. apply not_elem_of_nil.
Qed.

Lemma split_join_witness : split (join_with comma [[50; 48]; []; cid1]) comma = [[50; 48]; []; cid1].
Proof.
  refine (proj1 (split_join [[50; 48]; []; cid1] _ _) _).
  - discriminate.
  - repeat constructor; apply (bool_decide_unpack _); vm_compute; exact I.
  - vm_compute. discriminate.
Defined.

(** The Redis driver: the command takes the buffer up to its first zero byte, so of a
    record with up to 255 fields only the low byte of the count is stored; and since the reply is
    dropped, the field is decoded from an empty string, which reads out of bounds on every line. *)
Theorem redis_line_loses_record {S : Type} `{!KVStore S, !RedisFormat, !RedisFormatLaws}
    (db : S) line :
  let ret := split line comma in
  Z.of_nat (length ret) < 256 →
  percent_s (c_str (encode ret)) = [Z.of_nat (length ret)]
  ∧ redis_line db line = Fault OutOfBounds.
Proof.
  intros ret Hl. split.
  - assert (0 < Z.of_nat (length ret)) as Hp by apply length_split_pos.
    unfold encode. change (le_bytes 8 (Z.of_nat (length ret)))
      with (Z.of_nat (length ret) mod 256 :: le_bytes 7 (Z.of_nat (length ret) / 256)).
    rewrite Z.mod_small by lia. rewrite Z.div_small by lia.
    apply (percent_s_nul [Z.of_nat (length ret)]).
    apply not_elem_of_cons. split; [lia | apply not_elem_of_nil].
  - unfold redis_line. fold ret. unfold cafe_key, arr_get.
    destruct ret as [|a [|b [|c [|d rest]]]]; reflexivity.
Qed.

Lemma redis_line_loses_record_witness :
  percent_s (c_str (encode (split line1 comma))) = [4]
  ∧ redis_line empty_db line1 = Fault OutOfBounds.
Proof. apply (redis_line_loses_record empty_db line1). vm_compute. reflexivity. Defined.

(** A structure packed into a string unpacks to itself; a string unpacks exactly when
    it has the size of the structure, and packing the result gives the string back. *)
Theorem pack_unpack :
  (∀ b, bob_wf b → Unpack (Pack b) = Some b) ∧
  (∀ data, bytes_ok data →
     if (length data =? sizeof_Bob)%nat
     then ∃ b, Unpack data = Some b ∧ bob_wf b ∧ Pack b = data
     else Unpack data = None).
Proof.
  split.
  - intros b (Ha & Hb & Hc & Hp). unfold Unpack, Pack.
    rewrite !length_app, !length_le_bytes, Hc, Hp. cbn [Nat.eqb negb Nat.add].
    destruct b as [a b c p]. cbn [bob_a bob_b bob_c bob_pad] in *. f_equal.
    rewrite take_app_length', drop_app_length' by (by rewrite length_le_bytes).
    rewrite take_app_length' by (by rewrite length_le_bytes). rewrite !int_of_le_bytes by done.
    f_equal; rewrite app_assoc.
    + rewrite drop_app_length' by (by rewrite length_app, !length_le_bytes).
      by apply take_app_length'.
    + rewrite app_assoc. apply drop_app_length'. by rewrite !length_app, !length_le_bytes, Hc.
  - intros data Hok. destruct (Nat.eqb_spec (length data) sizeof_Bob) as [E|E]; unfold Unpack.
    + rewrite E. cbn [Nat.eqb negb sizeof_Bob].
      eexists. split; [reflexivity|]. unfold sizeof_Bob in E. split.
      * split; [apply swrap_in; lia|]. split; [apply swrap_in; lia|]. cbn.
        rewrite length_take, !length_drop. lia.
      * assert (∀ bs, bytes_ok bs → length bs = 4%nat → le_bytes 4 (i32 (le_value bs)) = bs) as Hle.
        { intros bs Hb Hl. rewrite le_bytes_i32, <- Hl. by apply le_bytes_le_value. }
        unfold Pack. cbn [bob_a bob_b bob_c bob_pad].
        rewrite !Hle by (first [by apply Forall_take | by apply Forall_take, Forall_drop
                               | rewrite length_take, ?length_drop; lia]).
        transitivity (take 4 data ++ take 4 (drop 4 data) ++ drop 4 (drop 4 data)).
        -- do 2 f_equal. rewrite drop_drop. change 18%nat with (8 + 10)%nat.
           rewrite <- drop_drop. apply take_drop.
        -- by rewrite !take_drop.
    + by apply Nat.eqb_neq in E as ->.
Qed.

Lemma pack_unpack_witness :
  Unpack (Pack (MkBob 12 144 [115; 109; 0; 0; 0; 0; 0; 0; 0; 0] [0; 0]))
  = Some (MkBob 12 144 [115; 109; 0; 0; 0; 0; 0; 0; 0; 0] [0; 0]).
Proof. apply (proj1 pack_unpack). vm_compute. auto. Defined.
