(* ===== verification/IoTheorems.v ===== *)
(** IoTheorems: the properties of parsing and formatting dates, and of the program that uses them. *)

From Stdlib Require Import ZArith Lia Ascii String.
From stdpp Require Import base list strings.
From S2P Require Import Prelude Calendar DateUnits DateFields DateYmd Civil DateSerial DateClock DateStream DateParse DateFormat DateIoProofs DateIoFaults DateIoTotal.

#[local] Open Scope Z_scope.

(** A locale for the witnesses: its facets fail and write nothing. *)
Definition no_facets : TimeFacets := {|
  facet_numpunct := {| decimal_point := "."%char |};
  time_get _ rest t := (rest, (true, false), t);
  time_put _ _ := EmptyString
|}.

(** ** A year and a day of the year *)

Section day_of_year.
Context `{TimeFacets}.

(** What [%Y%j] does with seven digits. *)
Lemma parse_Yj y j y' m d tp :
  0 ≤ y < 10000 → 0 ≤ j < 1000 → civil_of_days (civil_days y 1 1 + (j - 1)) = (y', m, d) →
  (civil_valid y m d →
     parse_into (stream (fixed 4 y +:+ fixed 3 j)) "%Y%j" tp = Ret (stream "", civil_days y m d))
  ∧ (¬ civil_valid y m d →
     parse_into (stream (fixed 4 y +:+ fixed 3 j)) "%Y%j" tp = Ret (set_failbit (stream ""), tp)).
Proof.
  intros Ry Rj E.
  pose proof (civil_of_days_spec (civil_days y 1 1 + (j - 1))) as Hs. rewrite E in Hs.
  destruct Hs as [[Rm Rd] _]. pose proof (month_length_bounds y' m).
  set (s0 := pst_start (stream (fixed 4 y +:+ fixed 3 j))).
  set (s := set_var vj j (set_is (stream "") (set_var vY y (set_is (stream (fixed 3 j)) s0)))).
  assert (parse_format "%Y%j" fstate_reset false s0 = Ret (Some fstate_reset, s)) as Hp.
  { rewrite (parse_Y_step y (fixed 3 j)) by done.
    rewrite (parse_j_step j ""); [reflexivity | done | by rewrite app_string_nil | done]. }
  assert (only [vY; vj] s) as Ho.
  { intros v Hv. apply not_elem_of_cons in Hv as [HY Hv]. apply not_elem_of_cons in Hv as [Hj _].
    unfold s. cbn. by rewrite !decide_False by done. }
  pose proof (date_from_day_of_year_set s y j y' m d eq_refl eq_refl Ho) as Hdoy.
  specialize (Hdoy ltac:(lia) Rj E).
  set (s1 := set_var vj (not_a vj) (set_var vd d (set_var vm m s))) in *.
  assert (only [vY; vm; vd] s1) as Ho1.
  { intros v Hv. destruct (decide (v = vj)) as [->|Hj]; [apply get_set_same|].
    apply not_elem_of_cons in Hv as [HY Hv]. apply not_elem_of_cons in Hv as [Hm Hv].
    apply not_elem_of_cons in Hv as [Hd _].
    unfold s1. rewrite !get_set_other by done. apply Ho. apply not_elem_of_cons. split; [done|].
    apply not_elem_of_cons. split; [done | apply not_elem_of_nil]. }
  destruct (results_date s s s1 y m d) as (s' & Hr & O); try done; try lia.
  - apply (only_mono _ _ _ Ho). vars_in.
  - apply dates_from_weeks_unset; [|apply Ho; var_in]. change (p_vars s vY) with y. lia.
  - apply year_ctor_small. lia.
  - apply (parse_into_run (stream (fixed 4 y +:+ fixed 3 j)) "%Y%j" tp s s1 s' y m d);
      try done; lia.
Qed.
End day_of_year.

(** The number of days of a year. *)
Definition year_length (y : Z) : Z := if leap y then 366 else 365.

Lemma civil_days_next_year y : civil_days (y + 1) 1 1 = civil_days y 1 1 + year_length y.
Proof.
  unfold civil_days, month_start, month_index, year_length.
  replace ((12 * (y + 1) + 1 - 3) / 12) with ((y - 1) + 1) by div_lia.
  replace ((12 * y + 1 - 3) / 12) with (y - 1) by div_lia.
  replace ((12 * (y + 1) + 1 - 3) mod 12) with 10 by div_lia.
  replace ((12 * y + 1 - 3) mod 12) with 10 by div_lia.
  pose proof (march_start_step (y - 1)) as H. replace (y - 1 + 1) with y in * by lia. lia.
Qed.

Lemma civil_valid_first y : civil_valid y 1 1.
Proof. unfold civil_valid. cbn. lia. Qed.

(** A day within the year [y] is a date of that year. *)
Lemma day_of_year_date y j :
  1 ≤ j ≤ year_length y →
  ∃ m d, civil_of_days (civil_days y 1 1 + (j - 1)) = (y, m, d) ∧ civil_valid y m d
    ∧ civil_days y m d = civil_days y 1 1 + (j - 1).
Proof.
  intros Hj. pose proof (civil_of_days_spec (civil_days y 1 1 + (j - 1))) as H.
  destruct (civil_of_days (civil_days y 1 1 + (j - 1))) as [[y' m] d]. destruct H as [Hv Hc].
  pose proof (civil_days_next_year y) as Hn.
  pose proof (civil_days_lt y' m d y 1 1 Hv (civil_valid_first y)) as A.
  pose proof (civil_days_lt y' m d (y + 1) 1 1 Hv (civil_valid_first (y + 1))) as B.
  assert (y' = y) as -> by (destruct Hv; lia).
  by exists m, d.
Qed.

(** C17 (functional). The program date_hinnant on a year of four digits and a day of that year of three:
    it prints the date of the day, whose day number is that of the first of January plus the days
    before it. *)
Theorem date_hinnant_prints_day `{TimeFacets} y j :
  0 ≤ y < 10000 → 1 ≤ j ≤ year_length y →
  ∃ m d, civil_valid y m d ∧ civil_days y m d = civil_days y 1 1 + (j - 1)
    ∧ date_hinnant (fixed 4 y +:+ fixed 3 j)
      = Ret (fixed 4 y +:+ "-" +:+ fixed 2 m +:+ "-" +:+ fixed 2 d).
Proof.
  intros Ry Rj. destruct (day_of_year_date y j Rj) as (m & d & E & Hv & Hc).
  exists m, d. split; [done|]. split; [done|].
  assert (0 ≤ j < 1000) as Rj' by (unfold year_length in Rj; destruct (leap y); lia).
  unfold date_hinnant. change (MkIstream ?t false false) with (stream t).
  rewrite (proj1 (parse_Yj y j y m d 0 Ry Rj' E) Hv), outcome_bind_ret.
  rewrite format_sys_days_F, outcome_bind_ret by (done || lia). unfold text_F.
  by rewrite (pad_number_fixed 3).
Qed.

Lemma date_hinnant_prints_day_witness :
  ∃ m d, civil_valid 0 m d ∧ civil_days 0 m d = civil_days 0 1 1 + (30 - 1)
    ∧ date_hinnant (H := no_facets) "0000030"
      = Ret ("0000-" +:+ fixed 2 m +:+ "-" +:+ fixed 2 d).
Proof. apply (date_hinnant_prints_day (H := no_facets) 0 30); vm_compute; intuition discriminate. Defined.

(** [%Y%j] with a day that the year does not have: day 0, or a day after the last one.  It
    is a day of another year, but only its month and day are kept, so the parse succeeds with the
    same month and day in the year that was written, unless that is 29 February of a common year. *)
Theorem parse_day_of_year_wrong_year `{TimeFacets} y j tp :
  0 ≤ y < 10000 → 0 ≤ j < 1000 → (j = 0 ∨ year_length y < j) →
  ∃ y' m d, civil_valid y' m d ∧ y' ≠ y ∧ civil_days y' m d = civil_days y 1 1 + (j - 1)
    ∧ parse_into (stream (fixed 4 y +:+ fixed 3 j)) "%Y%j" tp
      = if d <=? month_length y m then Ret (stream "", civil_days y m d)
        else Ret (set_failbit (stream ""), tp).
Proof.
  intros Ry Rj Hj.
  pose proof (civil_of_days_spec (civil_days y 1 1 + (j - 1))) as Hs.
  destruct (civil_of_days (civil_days y 1 1 + (j - 1))) as [[y' m] d] eqn:E.
  destruct Hs as [Hv Hc]. exists y', m, d. split; [done|].
  destruct (parse_Yj y j y' m d tp Ry Rj E) as [Hok Hno].
  split; [|split; [done|]].
  - intros ->. pose proof (civil_days_next_year y) as Hn.
    pose proof (civil_days_lt y m d y 1 1 Hv (civil_valid_first y)) as A.
    pose proof (civil_days_lt y m d (y + 1) 1 1 Hv (civil_valid_first (y + 1))) as B.
    destruct Hv. lia.
  - destruct Hv as [Hm Hd]. destruct (Z.leb_spec d (month_length y m)) as [Hl|Hl].
    + apply Hok. split; [done | lia].
    + apply Hno. intros [_ ?]. lia.
Qed.

Lemma parse_day_of_year_wrong_year_witness :
  parse_into (H := no_facets) (stream "2019366") "%Y%j" 0 = Ret (stream "", civil_days 2019 1 1).
Proof.
  destruct (parse_day_of_year_wrong_year (H := no_facets) 2019 366 0)
    as (y' & m & d & Hv & _ & Hc & E); [lia | lia | right; reflexivity |].
  assert (civil_valid 2020 1 1) as Hw by (unfold civil_valid; cbn; lia).
  destruct (civil_days_inj y' m d 2020 1 1 Hv Hw) as (-> & -> & ->); [by rewrite Hc | exact E].
Defined.

(** ** ISO dates *)

Section iso_dates.
Context `{TimeFacets}.

(** What [%F] does with the texts of a year, a month and a day. *)
Lemma parse_F i y m d r1 r2 r3 tp :
  is_good i = true →
  read_signed i 1 4 = Ret (y, stream (String "-" r1)) →
  read_unsigned (stream r1) 1 2 = Ret (m, stream (String "-" r2)) →
  read_unsigned (stream r2) 1 2 = Ret (d, stream r3) →
  civil_valid y m d → -32767 ≤ y ≤ 32767 →
  parse_into i "%F" tp = Ret (stream r3, civil_days y m d).
Proof.
  intros Hg Hy Hm Hd Hv Ry.
  assert (1 ≤ m ≤ 12 ∧ 1 ≤ d ≤ 31) as [Rm Rd].
  { destruct Hv as [? ?]. pose proof (month_length_bounds y m). lia. }
  set (s := set_var vd d (set_var vm m (set_var vY y (set_is (stream r3) (pst_start i))))).
  apply (parse_into_ymd i "%F" tp s y m d); try done; try lia.
  - apply (parse_F_step y m d r1 r2 r3 ""); try done; try lia.
    unfold is_good in Hg. cbn. unfold is_fail. by destruct (is_failbit i).
  - intros v Hv'. apply not_elem_of_cons in Hv' as [HY Hv'].
    apply not_elem_of_cons in Hv' as [Hm' Hv']. apply not_elem_of_cons in Hv' as [Hd' _].
    unfold s. by rewrite !get_set_other by done.
Qed.

(** The month and the day of a text. *)
Lemma read_month m rest :
  1 ≤ m ≤ 12 → read_unsigned (stream (fixed 2 m +:+ rest)) 1 2 = Ret (m, stream rest).
Proof. intros Hm. apply read_two_digits. lia. Qed.

(** The year of a text of [%F] in the range that reads back. *)
Lemma read_year y rest :
  0 ≤ y < 10000 ∨ -10000 < y ≤ -100 →
  read_signed (stream (pad_number 4 "0" false y +:+ String "-" rest)) 1 4
  = Ret (y, stream (String "-" rest)).
Proof.
  intros [Hy|Hy].
  - rewrite (pad_number_fixed 3) by exact Hy. apply (read_signed_pos 3); [|lia].
    apply (read_unsigned_full 3); [exact Hy | lia..].
  - assert (∃ w, 10 ^ Z.of_nat w ≤ - y < 10 ^ Z.of_nat (S w) ∧ (2 <= w <= 3)%nat) as (w & Hw & Rw).
    { destruct (Z_lt_le_dec (- y) 1000); [exists 2%nat | exists 3%nat]; cbn; lia. }
    assert (pad_number 4 "0" false y = String "-" (fixed (S w) (- y))) as ->.
    { rewrite <- (Z.opp_involutive y) at 1. rewrite (pad_number_negative 4 w) by lia.
      by assert (w = 2 ∨ w = 3)%nat as [->| ->] by lia. }
    rewrite app_string_cons. rewrite <- (Z.opp_involutive y) at 2.
    apply (read_signed_neg w); [|lia].
    assert (w = 2 ∨ w = 3)%nat as [->| ->] by lia.
    + apply (read_unsigned_short 3); [cbn in *; lia | lia.. | reflexivity].
    + apply (read_unsigned_full 3); [cbn in *; lia | lia..].
Qed.
End iso_dates.
(** C20 (roundtrip). A day printed under [%F] and parsed under [%F] is the day again, for the years 0 to
    9999 and -9999 to -100. *)
Theorem format_parse_F `{TimeFacets} y m d tp :
  civil_valid y m d → 0 ≤ y < 10000 ∨ -10000 < y ≤ -100 →
  ∃ t, format_sys_days "%F" (civil_days y m d) = Ret t
    ∧ parse_into (stream t) "%F" tp = Ret (stream "", civil_days y m d).
Proof.
  intros Hv Ry. assert (-32767 ≤ y ≤ 32767) as Ry' by lia.
  assert (1 ≤ m ≤ 12 ∧ 1 ≤ d ≤ 31) as [Rm Rd].
  { destruct Hv as [? ?]. pose proof (month_length_bounds y m). lia. }
  exists (text_F y m d). split; [by apply format_sys_days_F|]. unfold text_F.
  apply (parse_F _ y m d (fixed 2 m +:+ "-" +:+ fixed 2 d) (fixed 2 d)); try done.
  - by apply read_year.
  - by apply read_month.
  - rewrite <- (app_string_nil (fixed 2 d)). apply read_two_digits. lia.
Qed.

Lemma format_parse_F_witness :
  ∃ t, format_sys_days (H := no_facets) "%F" (civil_days 2019 8 16) = Ret t
    ∧ parse_into (H := no_facets) (stream t) "%F" 0 = Ret (stream "", civil_days 2019 8 16).
Proof.
  apply (format_parse_F (H := no_facets)); [unfold civil_valid; cbn; lia | left; lia].
Defined.

(** A year of one digit before the year 0: [%F] writes zeros before the sign, and the text
    parses without an error as a date of the year 0, with the year for the month and the month for
    the day. *)
Theorem format_F_negative_year `{TimeFacets} y m d tp :
  civil_valid y m d → -10 < y < 0 →
  ∃ t, format_sys_days "%F" (civil_days y m d) = Ret t
    ∧ t = "00-" +:+ fixed 1 (- y) +:+ "-" +:+ fixed 2 m +:+ "-" +:+ fixed 2 d
    ∧ parse_into (stream t) "%F" tp
      = Ret (stream ("-" +:+ fixed 2 d), civil_days 0 (- y) m).
Proof.
  intros Hv Ry. assert (-32767 ≤ y ≤ 32767) as Ry' by lia.
  assert (1 ≤ m ≤ 12) as Rm by apply Hv.
  exists (text_F y m d). split; [by apply format_sys_days_F|].
  assert (text_F y m d = "00-" +:+ fixed 1 (- y) +:+ "-" +:+ fixed 2 m +:+ "-" +:+ fixed 2 d) as ->.
  { unfold text_F. rewrite <- (Z.opp_involutive y) at 1.
    by rewrite (pad_number_negative 4 0) by (cbn; lia). }
  split; [done|].
  apply (parse_F _ 0 (- y) m (fixed 1 (- y) +:+ "-" +:+ fixed 2 m +:+ "-" +:+ fixed 2 d)
           (fixed 2 m +:+ "-" +:+ fixed 2 d)); try done; try lia.
  - apply (read_unsigned_short 1); [cbn; lia | lia.. | reflexivity].
  - by apply read_month.
  - split; [lia|]. pose proof (month_length_bounds 0 (- y)). lia.
Qed.

Lemma format_F_negative_year_witness :
  ∃ t, format_sys_days (H := no_facets) "%F" (civil_days (-5) 3 7) = Ret t
    ∧ t = "00-" +:+ fixed 1 5 +:+ "-" +:+ fixed 2 3 +:+ "-" +:+ fixed 2 7
    ∧ parse_into (H := no_facets) (stream t) "%F" 0
      = Ret (stream ("-" +:+ fixed 2 7), civil_days 0 5 3).
Proof.
  apply (format_F_negative_year (H := no_facets) (-5)); [unfold civil_valid; cbn; lia | lia].
Defined.

(** A date without a year parses, and its year is 0: the value that stands for no year
    is the least [int], which the class [year] truncates to 0. *)
Theorem parse_without_year `{TimeFacets} m d tp :
  civil_valid 0 m d →
  parse_into (stream (fixed 2 m +:+ "-" +:+ fixed 2 d)) "%m-%d" tp
  = Ret (stream "", civil_days 0 m d).
Proof.
  intros Hv. assert (1 ≤ m ≤ 12 ∧ 1 ≤ d ≤ 31) as [Rm Rd].
  { destruct Hv as [? ?]. pose proof (month_length_bounds 0 m). lia. }
  set (i := stream (fixed 2 m +:+ "-" +:+ fixed 2 d)).
  set (s1 := set_var vm m (set_is (stream (String "-" (fixed 2 d))) (pst_start i))).
  set (s := set_var vd d (set_is (stream "") (set_is (stream (fixed 2 d)) s1))).
  apply (parse_into_md i "%m-%d" tp s m d); try done; try lia.
  - rewrite (parse_md_step "m" vm m (String "-" (fixed 2 d))); [|by left | lia | done | done].
    fold s1. rewrite (parse_format_plain "-" _ s1 (fixed 2 d)) by reflexivity.
    rewrite (parse_md_step "d" vd d ""); [reflexivity | by right | lia | | done].
    by rewrite app_string_nil.
  - intros v Hv'. apply not_elem_of_cons in Hv' as [Hm Hv'].
    apply not_elem_of_cons in Hv' as [Hd _]. unfold s, s1. cbn. by rewrite !decide_False by done.
Qed.

Lemma parse_without_year_witness :
  parse_into (H := no_facets) (stream (fixed 2 8 +:+ "-" +:+ fixed 2 16)) "%m-%d" 777
  = Ret (stream "", civil_days 0 8 16).
Proof. apply (parse_without_year (H := no_facets)). unfold civil_valid. cbn. lia. Defined.

(** ** Faults *)

(** C18 (termination). A parse of any text under any format, with any locale, ends: the loops that read
    digits and the loop over the format never run out, and no array is read out of bounds.  It
    returns, or it meets a signed overflow, the use of a number that was not read, or the exception
    of [std::stold].  When it returns with a failed stream, the time point of the caller is as it
    was. *)
Theorem parse_ends `{TimeFacets} text fmt tp :
  (∃ i tp', parse_into (stream text) fmt tp = Ret (i, tp') ∧ (is_fail i = true → tp' = tp))
  ∨ parse_into (stream text) fmt tp = Fault SignedOverflow
  ∨ parse_into (stream text) fmt tp = Fault Indeterminate
  ∨ parse_into (stream text) fmt tp = Fault Thrown.
Proof.
  pose proof (parse_into_tame (stream text) fmt tp) as Ht.
  destruct (parse_into (stream text) fmt tp) as [[i tp']|e] eqn:E.
  - left. exists i, tp'. split; [done|]. by eapply parse_into_failed.
  - right. cbn in Ht. destruct Ht; auto.
Qed.

(** C21 (error). Parses of a number that is not there are undefined: [%S] rounds a number that nothing was
    read into, or throws after a decimal point, that of the locale, without digits; [%z] negates the least value of its
    type after a minus sign without digits. *)
Theorem parse_without_number `{TimeFacets} text d tp :
  (starts_with (λ c, is_digit c || Ascii.eqb c decimal_point) text = false →
     from_stream_seconds (stream text) "%S" d = Fault Indeterminate)
  ∧ (starts_with is_digit text = false →
     from_stream_seconds (stream (String decimal_point text)) "%S" d = Fault Thrown
     ∧ parse_into (stream (String "-" text)) "%z" tp = Fault SignedOverflow).
Proof.
  split; [|intros Ht; split].
  - intros Ht. apply from_stream_S. left. split; [|done].
    destruct (read_long_double_none text 2 Ht) as (i & E & Hi).
    exists i. cbn [read]. by rewrite E, outcome_bind_ret, Hi.
  - apply from_stream_S. right. cbn [read]. by rewrite read_long_double_point.
  - unfold parse_into, from_stream_sys_days.
    rewrite (from_stream_fault "z" _ _ _ _ _ SignedOverflow eq_refl); [done|].
    unfold parse_z, in_command. cbn [command]. apply pm_bind_fault.
    set (s := MkPst _ _ _ _ _ _ _).
    destruct (read_signed_minus text Ht) as (i & E & Hi).
    rewrite (pm_bind_some _ _ s (Some "-"%char) s) by done.
    rewrite (pm_bind_some _ _ s [Vnone] (set_is i s)).
    2:{ unfold p_read. change (p_is s) with (stream (String "-" text)). cbn [read is_modified modified].
        by rewrite E, outcome_bind_ret, Hi. }
    rewrite (pm_bind_some _ _ _ true (set_is i s))  by (rewrite <- Hi; reflexivity).
    cbn [negb].
    pm_step.
    assert (is_good i = false) as Hg by (unfold is_fail in Hi; unfold is_good; by rewrite Hi).
    rewrite (pm_bind_some _ _ _ (not_a voffset) (set_is i s)).
    2:{ unfold parse_offset_minutes. rewrite (pm_bind_some _ _ _ false (set_is i s)); [done|].
        unfold gets. cbn [p_is set_is]. by rewrite Hg. }
    by apply pm_bind_fault.
Qed.

Lemma parse_without_number_witness :
  from_stream_seconds (H := no_facets) (stream "x") "%S" 0 = Fault Indeterminate
  ∧ from_stream_seconds (H := no_facets) (stream ".x") "%S" 0 = Fault Thrown
  ∧ parse_into (H := no_facets) (stream "-x") "%z" 0 = Fault SignedOverflow.
Proof.
  destruct (parse_without_number (H := no_facets) "x" 0 0) as [A B].
  split; [apply A; reflexivity | apply B; reflexivity].
Defined.

(** C19 (safety). Formatting is total: a day of the years -32767 to 32767, and a second of such a day,
    print under every format, with every locale; no format overflows, fails its stream or
    throws. *)
Theorem format_total `{TimeFacets} fmt z t :
  first_day ≤ z ≤ last_day → 0 ≤ t < 86400 →
  (∃ text, format_sys_days fmt z = Ret text)
  ∧ (∃ text, format_with (λ os, to_stream_sys_seconds os fmt (z * 86400 + t)) = Ret text).
Proof.
  intros Hz Ht. split.
  - destruct (to_stream_time_total fmt z 0 "UTC" 0 Hz) as (text & E); [lia | done |].
    exists text. rewrite <- E. unfold format_sys_days, format_with.
    by rewrite to_stream_days_point by lia.
  - destruct (to_stream_time_total fmt z t "UTC" 0 Hz Ht) as (text & E); [done|].
    exists text. rewrite <- E. unfold format_with. by rewrite to_stream_seconds_point.
Qed.

Lemma format_total_witness :
  (∃ text, format_sys_days (H := no_facets) "%c %V" 18124 = Ret text)
  ∧ (∃ text, format_with (λ os, to_stream_sys_seconds (H := no_facets) os "%c %V" (18124 * 86400 + 3599))
     = Ret text).
Proof. apply (format_total (H := no_facets)); lia. Defined.
