(* ===== verification/JulianTheorems.v ===== *)
(** JulianTheorems: the properties of the Julian calendar of include/date/julian.h. *)

From Stdlib Require Import ZArith Lia.
From stdpp Require Import base list.
From S2P Require Import Prelude Memory Calendar JulianUnits JulianFields JulianYmd JulianSerial.

#[local] Open Scope Z_scope.

(** C9 (roundtrip). In the Julian calendar every value of [year] is valid: [to_days] and [from_days] are
    inverse to each other, without overflow, between the valid dates of the years -32768 to 32767 and
    the day numbers from -12688042 to 11248981. *)
Theorem julian_days_roundtrip :
  (∀ x, wf x = true → ymd_ok x = Ret true →
     ∃ z, ymd_to_days x = Ret z ∧ -12688042 ≤ z ≤ 11248981 ∧ ymd_from_days z = Ret x) ∧
  (∀ z, -12688042 ≤ z ≤ 11248981 →
     ∃ x, ymd_from_days z = Ret x ∧ wf x = true ∧ ymd_ok x = Ret true ∧ ymd_to_days x = Ret z).
Proof.
  split; [exact (@to_serial_ok _ _ _ _ _ ymd_serial_laws) | exact (@of_serial_ok _ _ _ _ _ ymd_serial_laws)].
Qed.

Lemma julian_days_roundtrip_witness :
  ∃ z, ymd_to_days (MkYearMonthDay (MkYear 1582) (MkMonth 10) (MkDay 5)) = Ret z
    ∧ -12688042 ≤ z ≤ 11248981
    ∧ ymd_from_days z = Ret (MkYearMonthDay (MkYear 1582) (MkMonth 10) (MkDay 5)).
Proof. apply (proj1 julian_days_roundtrip); reflexivity. Defined.

(** C10 (refinement). [to_days] counts the days of the Julian calendar, in which every fourth year is a
    leap year: 19 December 1969 is day 0, and the day after a valid date ([next_day], by the lengths of
    the months) is valid and has the next number. *)
Theorem julian_to_days_counts_days :
  ymd_to_days (ym_div_day (year_div_month (year_ctor 1969) dec) (day_ctor 19)) = Ret 0 ∧
  ∀ y m d y' m' d',
    let x := MkYearMonthDay (MkYear y) (MkMonth m) (MkDay d) in
    let x' := MkYearMonthDay (MkYear y') (MkMonth m') (MkDay d') in
    wf x = true → ymd_ok x = Ret true → y' ≤ 32767 → next_day julian y m d = (y', m', d') →
    ymd_ok x' = Ret true ∧ ∃ z, ymd_to_days x = Ret z ∧ ymd_to_days x' = Ret (z + 1).
Proof.
  split; [reflexivity|]. intros y m d y' m' d' x x' Hwf Hok Hhi E.
  apply julian_ymd_wf_spec in Hwf. apply julian_ymd_ok_true in Hok. cbn in Hwf, Hok.
  destruct (julian_to y m d ltac:(lia) Hok) as (_ & _ & Ht).
  pose proof (next_day_number julian y m d Hok) as H. pose proof (next_day_year julian y m d) as Hy.
  rewrite E in H, Hy. destruct H as [Hv' Hn].
  destruct (julian_to y' m' d' ltac:(lia) Hv') as (_ & Hok' & Ht'). rewrite Hn in Ht'. eauto.
Qed.

Lemma julian_to_days_counts_days_witness :
  let x := MkYearMonthDay (MkYear 1900) (MkMonth 2) (MkDay 28) in
  let x' := MkYearMonthDay (MkYear 1900) (MkMonth 2) (MkDay 29) in
  ymd_ok x' = Ret true ∧ ∃ z, ymd_to_days x = Ret z ∧ ymd_to_days x' = Ret (z + 1).
Proof. apply (proj2 julian_to_days_counts_days); [reflexivity | reflexivity | lia | reflexivity]. Defined.

(** [year_month_day_last] of an invalid month: [day()] reads its table of twelve days out of
    its bounds, on the months 0 and 13 to 255, and so does the conversion to [sys_days]; on a month of
    the year it is the length of the month. *)
Theorem julian_last_day_of_month y m :
  wf y = true → wf m = true →
  let x := ym_div_last (year_div_month y m) last in
  (month_ok m = true →
     ymdl_day x = Ret (MkDay (julian_length (year_y y) (month_m m))) ∧
     ymdl_sys_days x = Ret (day_number julian (year_y y) (month_m m) (julian_length (year_y y) (month_m m)))) ∧
  (month_ok m = false → ymdl_day x = Fault OutOfBounds ∧ ymdl_sys_days x = Fault OutOfBounds).
Proof.
  intros Hy Hm x.
  assert (0 ≤ month_m m < 256) as Hm' by (by apply is_u8_spec).
  split; intros Hok; unfold ymdl_sys_days.
  - unfold x. rewrite (julian_ymdl_day_spec y m Hok), outcome_bind_ret. split; [done|].
    apply is_i16_spec in Hy. apply julian_month_ok_spec in Hok.
    pose proof (length_range (R := julian) (year_y y) (month_m m) Hok) as Hl. cbn [julian length_of] in Hl.
    destruct (julian_to (year_y y) (month_m m) (julian_length (year_y y) (month_m m)) ltac:(lia))
      as (_ & _ & Ht); [split; [done|]; cbn [julian length_of]; lia|].
    by destruct y, m.
  - assert (¬ (1 ≤ month_m m ≤ 12)) as Hno by (rewrite <- julian_month_ok_spec; congruence).
    assert (ymdl_day x = Fault OutOfBounds) as E; [|by rewrite E].
    unfold ymdl_day. change (ymdl_month x) with m. destruct m as [m]. cbn in Hm', Hno.
    assert (month_ne (MkMonth m) feb = true) as ->.
    { unfold month_ne, month_eq, month_unsigned. change (month_m feb) with 2. cbn [month_m].
      apply negb_true_iff, Z.eqb_neq. lia. }
    cbn [orb month_unsigned]. unfold month_unsigned. cbn [month_m].
    apply arr_get_out. change (length ymdl_day_d) with 12%nat.
    destruct (Z.eq_dec m 0) as [->|]; [done|]. uint_step. lia.
Qed.

Lemma julian_last_day_of_month_witness :
  ymdl_day (ym_div_last (year_div_month (MkYear 2019) (MkMonth 13)) last) = Fault OutOfBounds ∧
  ymdl_sys_days (ym_div_last (year_div_month (MkYear 2019) (MkMonth 13)) last) = Fault OutOfBounds.
Proof. apply julian_last_day_of_month; reflexivity. Defined.
