(* ===== verification/IslamicTheorems.v ===== *)
(** IslamicTheorems: the properties of the Islamic calendar of include/date/islamic.h. *)

From Stdlib Require Import ZArith Lia.
From stdpp Require Import base list.
From S2P Require Import Prelude Memory Calendar IslamicUnits IslamicFields IslamicYmd IslamicSerial.

#[local] Open Scope Z_scope.

(** In the Islamic calendar every value of [year] is valid: [to_days] and [from_days] are
    inverse to each other, without overflow, between the valid dates of the years -32768 to 32767 and
    the day numbers from -12104389 to 11119384. *)
Theorem islamic_days_roundtrip :
  (∀ x, wf x = true → ymd_ok x = Ret true →
     ∃ z, ymd_to_days x = Ret z ∧ -12104389 ≤ z ≤ 11119384 ∧ ymd_from_days z = Ret x) ∧
  (∀ z, -12104389 ≤ z ≤ 11119384 →
     ∃ x, ymd_from_days z = Ret x ∧ wf x = true ∧ ymd_ok x = Ret true ∧ ymd_to_days x = Ret z).
Proof.
  split; [exact (@to_serial_ok _ _ _ _ _ ymd_serial_laws) | exact (@of_serial_ok _ _ _ _ _ ymd_serial_laws)].
Qed.

Lemma islamic_days_roundtrip_witness :
  ∃ z, ymd_to_days (MkYearMonthDay (MkYear 1445) (MkMonth 12) (MkDay 30)) = Ret z
    ∧ -12104389 ≤ z ≤ 11119384
    ∧ ymd_from_days z = Ret (MkYearMonthDay (MkYear 1445) (MkMonth 12) (MkDay 30)).
Proof. apply (proj1 islamic_days_roundtrip); reflexivity. Defined.

(** [to_days] counts the days of the tabular Islamic calendar, whose months have 30 and
    29 days in turn and whose last month has a day more in eleven years of a cycle of thirty: 22 Shawwal
    1389 is day 0, and the day after a valid date ([next_day], by the lengths of the months) is valid
    and has the next number. *)
Theorem islamic_to_days_counts_days :
  ymd_to_days (MkYearMonthDay (year_ctor 1389) (month_ctor 10) (day_ctor 22)) = Ret 0 ∧
  ∀ y m d y' m' d',
    let x := MkYearMonthDay (MkYear y) (MkMonth m) (MkDay d) in
    let x' := MkYearMonthDay (MkYear y') (MkMonth m') (MkDay d') in
    wf x = true → ymd_ok x = Ret true → y' ≤ 32767 → next_day islamic y m d = (y', m', d') →
    ymd_ok x' = Ret true ∧ ∃ z, ymd_to_days x = Ret z ∧ ymd_to_days x' = Ret (z + 1).
Proof.
  split; [reflexivity|]. intros y m d y' m' d' x x' Hwf Hok Hhi E.
  apply islamic_ymd_ok_true in Hok; [|done]. apply islamic_ymd_wf_spec in Hwf. cbn in Hwf, Hok.
  destruct (islamic_to y m d ltac:(lia) Hok) as (_ & _ & Ht).
  pose proof (next_day_number islamic y m d Hok) as H. pose proof (next_day_year islamic y m d) as Hy.
  rewrite E in H, Hy. destruct H as [Hv' Hn].
  destruct (islamic_to y' m' d' ltac:(lia) Hv') as (_ & Hok' & Ht'). rewrite Hn in Ht'. eauto.
Qed.

Lemma islamic_to_days_counts_days_witness :
  let x := MkYearMonthDay (MkYear 1445) (MkMonth 12) (MkDay 30) in
  let x' := MkYearMonthDay (MkYear 1446) (MkMonth 1) (MkDay 1) in
  ymd_ok x' = Ret true ∧ ∃ z, ymd_to_days x = Ret z ∧ ymd_to_days x' = Ret (z + 1).
Proof. apply (proj2 islamic_to_days_counts_days); [reflexivity | reflexivity | lia | reflexivity]. Defined.
