(* ===== verification/CalendarTheorems.v ===== *)
(** CalendarTheorems: properties of the three calendars together: dates of one constructed from dates of
    another, through [sys_days], and the order of the dates. *)

From Stdlib Require Import ZArith Lia.
From stdpp Require Import base list.
From S2P Require Import Prelude Calendar DateUnits DateYmd DateSerial JulianUnits JulianYmd JulianSerial IslamicYmd IslamicSerial.

#[local] Open Scope Z_scope.

(** C11 (equivalence). Every valid date of the Gregorian calendar is a date of the Julian calendar, and
    every one of the Islamic calendar is a date of the Gregorian calendar: constructing the one from the
    other, as the headers do through [sys_days], meets no overflow, gives a valid date, and constructing
    back gives the date again. *)
Theorem calendars_convert_back :
  (∀ g, wf g = true → DateYmd.ymd_ok g = Ret true →
     ∃ j, (z ← DateYmd.ymd_sys_days g; JulianYmd.ymd_of_sys_days z) = Ret j
       ∧ wf j = true ∧ JulianYmd.ymd_ok j = Ret true
       ∧ (z ← JulianYmd.ymd_sys_days j; DateYmd.ymd_of_sys_days z) = Ret g) ∧
  (∀ i, wf i = true → IslamicYmd.ymd_ok i = Ret true →
     ∃ g, (z ← IslamicYmd.ymd_sys_days i; DateYmd.ymd_of_sys_days z) = Ret g
       ∧ wf g = true ∧ DateYmd.ymd_ok g = Ret true
       ∧ (z ← DateYmd.ymd_sys_days g; IslamicYmd.ymd_of_sys_days z) = Ret i).
Proof.
  split.
  - intros g Hw Hok.
    apply (@convert_back _ _ _ _ _ _ _ _ DateSerial.ymd_serial_laws _ _ JulianSerial.ymd_serial_laws g Hw Hok).
    intros z Hz. destruct (@to_serial_ok _ _ _ _ _ DateSerial.ymd_serial_laws g Hw Hok) as (z' & E & Hr & _).
    rewrite JulianSerial.julian_first_day_value, JulianSerial.julian_last_day_value.
    rewrite E in Hz. injection Hz as <-. lia.
  - intros i Hw Hok.
    apply (@convert_back _ _ _ _ _ _ _ _ IslamicSerial.ymd_serial_laws _ _ DateSerial.ymd_serial_laws i Hw Hok).
    intros z Hz. destruct (@to_serial_ok _ _ _ _ _ IslamicSerial.ymd_serial_laws i Hw Hok) as (z' & E & Hr & _).
    rewrite IslamicSerial.islamic_first_day_value, IslamicSerial.islamic_last_day_value in Hr.
    rewrite E in Hz. injection Hz as <-. lia.
Qed.

Lemma calendars_convert_back_witness :
  let g := DateYmd.MkYearMonthDay (DateUnits.MkYear 1582) (DateUnits.MkMonth 10) (DateUnits.MkDay 15) in
  ∃ j, (z ← DateYmd.ymd_sys_days g; JulianYmd.ymd_of_sys_days z) = Ret j
    ∧ wf j = true ∧ JulianYmd.ymd_ok j = Ret true
    ∧ (z ← JulianYmd.ymd_sys_days j; DateYmd.ymd_of_sys_days z) = Ret g.
Proof. apply (proj1 calendars_convert_back); reflexivity. Defined.

(** On valid dates of the Julian calendar, and on those of the Islamic one, the operator
    [<] of [year_month_day] is the order of the day numbers, and [==] is their equality. *)
Theorem calendars_order_is_day_order :
  (∀ x y, wf x = true → wf y = true → JulianYmd.ymd_ok x = Ret true → JulianYmd.ymd_ok y = Ret true →
     ∃ a b, JulianYmd.ymd_to_days x = Ret a ∧ JulianYmd.ymd_to_days y = Ret b
       ∧ JulianYmd.ymd_lt x y = (a <? b) ∧ JulianYmd.ymd_eq x y = (a =? b)) ∧
  (∀ x y, wf x = true → wf y = true → IslamicYmd.ymd_ok x = Ret true → IslamicYmd.ymd_ok y = Ret true →
     ∃ a b, IslamicYmd.ymd_to_days x = Ret a ∧ IslamicYmd.ymd_to_days y = Ret b
       ∧ IslamicYmd.ymd_lt x y = (a <? b) ∧ IslamicYmd.ymd_eq x y = (a =? b)).
Proof.
  split; intros x y Wx Wy Ox Oy.
  - pose proof (@rel_lt_key _ _ _ JulianSerial.year_month_day_laws x y) as Hlt.
    pose proof (@rel_eq_key _ _ _ JulianSerial.year_month_day_laws x y) as Heq.
    cbv beta in Hlt, Heq.
    apply JulianSerial.julian_ymd_ok_true in Ox as Vx, Oy as Vy.
    rewrite (lex_lt_day_number julian) in Hlt by done. rewrite (fields_eq_day_number julian) in Heq by done.
    eexists _, _. split_and!; [| | exact Hlt | exact Heq];
      (apply JulianSerial.julian_ymd_to_days_spec; [done | apply JulianSerial.julian_month_ok_spec; first [apply Vx | apply Vy] | first [apply Vx | apply Vy]]).
  - pose proof (@rel_lt_key _ _ _ IslamicSerial.year_month_day_laws x y) as Hlt.
    pose proof (@rel_eq_key _ _ _ IslamicSerial.year_month_day_laws x y) as Heq.
    cbv beta in Hlt, Heq.
    apply IslamicSerial.islamic_ymd_ok_true in Ox as Vx; [|done]. apply IslamicSerial.islamic_ymd_ok_true in Oy as Vy; [|done].
    rewrite (lex_lt_day_number islamic) in Hlt by done. rewrite (fields_eq_day_number islamic) in Heq by done.
    eexists _, _. split_and!; [| | exact Hlt | exact Heq];
      (apply IslamicSerial.islamic_ymd_to_days_spec; [done | apply IslamicSerial.islamic_month_ok_spec; first [apply Vx | apply Vy] | first [apply Vx | apply Vy]]).
Qed.

Lemma calendars_order_is_day_order_witness :
  let x := JulianYmd.MkYearMonthDay (JulianUnits.MkYear (-1)) (JulianUnits.MkMonth 12) (JulianUnits.MkDay 31) in
  let y := JulianYmd.MkYearMonthDay (JulianUnits.MkYear 0) (JulianUnits.MkMonth 1) (JulianUnits.MkDay 1) in
  ∃ a b, JulianYmd.ymd_to_days x = Ret a ∧ JulianYmd.ymd_to_days y = Ret b
    ∧ JulianYmd.ymd_lt x y = (a <? b) ∧ JulianYmd.ymd_eq x y = (a =? b).
Proof. apply (proj1 calendars_order_is_day_order); reflexivity. Defined.
