(* ===== verification/Concurrent.v ===== *)
(** Concurrent: threads that run atomic actions on a shared memory, and the logic that proves what holds
    in every interleaving.

    A program is an interaction tree whose events are atomic actions on the shared state [S]: reading,
    writing, or updating it in one step, with a result, or a fault.  Loops are [ITree.iter], so a
    program need not end.  A pool of programs runs by steps of its threads in any order; the order of
    the steps of one thread is that of its program, and each step sees the effects of those before it. *)

From Stdlib Require Import ZArith Lia Sorting.Sorted.
From stdpp Require Import base list relations sorting.
From ITree Require Import Core.ITreeDefinition.
From S2P Require Import Prelude.

(** ** Programs *)

(** An atomic action on the state: the value read and the state after it. *)
Variant atom (S : Type) : Type → Type :=
  | Atom A (f : S → outcome (A * S)) : atom S A.
Arguments Atom {S A} f.

Definition prog (S A : Type) : Type := itree (atom S) A.

#[export] Instance prog_ret {S} : MRet (prog S) := λ A a, go (RetF a).
#[export] Instance prog_bind {S} : MBind (prog S) := λ A B k t, ITree.bind t k.

(** Perform an action. *)
Definition atomic {S A} (f : S → outcome (A * S)) : prog S A := ITree.trigger (Atom f).

(** A computation on values alone. *)
Definition pure {S A} (m : outcome A) : prog S A := atomic (λ s, a ← m; Prelude.Ret (a, s)).

(** [for (;;)] with a state: [inl] goes on with the next state, [inr] leaves the loop. *)
Definition loop {S A B} (body : A → prog S (A + B)) (a : A) : prog S B := ITree.iter body a.

(** [while (c) body]. *)
Definition while {S} (c : prog S bool) (body : prog S unit) : prog S unit :=
  loop (λ _ : unit, b ← c; if (b : bool) then body ;; mret (inl tt) else mret (inr tt)) tt.

(** A thread that spins lets the others run. *)
Definition stall {S} : prog S unit := go (TauF (mret (M := prog S) tt)).

(** A program that runs alone, for at most [n] steps. *)
Fixpoint solo (n : nat) {S A} (t : prog S A) (s : S) : outcome (A * S) :=
  match n with
  | O => Fault OutOfFuel
  | Datatypes.S n =>
      match observe t with
      | RetF a => Prelude.Ret (a, s)
      | TauF t' => solo n t' s
      | VisF e k =>
          match e in atom _ X return (X → prog S A) → outcome (A * S) with
          | Atom f => λ k, '(a, s) ← f s; solo n (k a) s
          end k
      end
  end.

(** A program that has ended. *)
Definition ended {S A} (t : prog S A) : bool := match observe t with RetF _ => true | _ => false end.

(** Where an object is: how it is read from the memory, and how it is written there. *)
Record loc (S T : Type) : Type := MkLoc { loc_get : S → T; loc_set : T → S → S }.
Arguments MkLoc {S T} _ _.
Arguments loc_get {S T} _ _.
Arguments loc_set {S T} _ _ _.

(** The object that is the whole memory. *)
Definition loc_whole {S} : loc S S := MkLoc id (λ v _, v).

(** A member of the object at a location. *)
Definition loc_member {S T U} (x : loc S T) (m : loc T U) : loc S U :=
  MkLoc (λ s, loc_get m (loc_get x s)) (λ u s, loc_set x (loc_set m u (loc_get x s)) s).
Notation "x →' m" := (loc_member x m) (at level 50, left associativity).

Lemma observe_prog_bind {S A B} (t : prog S A) (k : A → prog S B) :
  observe (t ≫= k) =
    match observe t with
    | RetF a => observe (k a)
    | TauF t' => TauF (t' ≫= k)
    | VisF e h => VisF e (λ x, (h x : prog S A) ≫= k)
    end.
Proof. unfold mbind, prog_bind, observe. cbn. unfold observe. by destruct (_observe t). Qed.

(** ** Pools of threads *)

Section pool.
Context {S : Type}.
Abbreviation thread := (prog S unit).

(** A step of the thread with index [i]. *)
Inductive pool_step : S * list thread → S * list thread → Prop :=
  | pool_tau s ts i t t' :
      ts !! i = Some t → observe t = TauF t' →
      pool_step (s, ts) (s, <[i := t']> ts)
  | pool_atom s ts i t A (f : S → outcome (A * S)) k a s' :
      ts !! i = Some t → observe t = VisF (Atom f) k → f s = Prelude.Ret (a, s') →
      pool_step (s, ts) (s', <[i := k a]> ts).

(** A thread whose next action is undefined. *)
Inductive pool_faults : S * list thread → Prop :=
  | pool_fault s ts i t A (f : S → outcome (A * S)) k e :
      ts !! i = Some t → observe t = VisF (Atom f) k → f s = Fault e →
      pool_faults (s, ts).

(** The states that a pool reaches. *)
Definition reaches (s : S) (ts : list thread) (s' : S) (ts' : list thread) : Prop :=
  rtc pool_step (s, ts) (s', ts').

(** *** Running a schedule: the indices of the threads that make the steps *)

Definition thread_step (i : nat) (c : S * list thread) : option (S * list thread) :=
  t ← c.2 !! i;
  match observe t with
  | RetF _ => None
  | TauF t' => Some (c.1, <[i := t']> c.2)
  | VisF e k =>
      match e in atom _ X return (X → thread) → option (S * list thread) with
      | Atom f => λ k,
          match f c.1 with
          | Prelude.Ret (a, s') => Some (s', <[i := k a]> c.2)
          | Fault _ => None
          end
      end k
  end.

(** A turn of a thread that has no step passes. *)
Definition schedule (sch : list nat) (c : S * list thread) : S * list thread :=
  foldl (λ c i, default c (thread_step i c)) c sch.

(** The threads below [n] in turn, [k] times. *)
Definition rounds (k n : nat) : list nat := concat (replicate k (seq 0 n)).

Lemma thread_step_sound i c c' : thread_step i c = Some c' → pool_step c c'.
Proof.
  destruct c as [s ts]. unfold thread_step. cbn [fst snd]. intros H.
  destruct (ts !! i) as [t|] eqn:Ht; cbn [mbind option_bind] in H; [|done].
  destruct (observe t) as [a|t'|X e k] eqn:Ho; [done | |].
  - injection H as <-. by eapply pool_tau.
  - destruct e as [X f]. destruct (f s) as [[a s']|] eqn:E; [|done]. injection H as <-.
    by eapply pool_atom.
Qed.

Lemma schedule_sound sch s ts : reaches s ts (schedule sch (s, ts)).1 (schedule sch (s, ts)).2.
Proof.
  unfold reaches, schedule. rewrite <- surjective_pairing. generalize (s, ts). clear s ts.
  induction sch as [|i sch IH]; intros c; cbn [foldl]; [apply rtc_refl|].
  destruct (thread_step i c) as [c'|] eqn:E; cbn [default]; [|apply IH].
  eapply rtc_l; [by eapply thread_step_sound | apply IH].
Qed.

(** A thread that has no turn. *)
Lemma schedule_other sch c i : i ∉ sch → (schedule sch c).2 !! i = c.2 !! i.
Proof.
  unfold schedule. revert c. induction sch as [|j sch IH]; intros c Hi; cbn [foldl]; [done|].
  rewrite IH by set_solver. assert (i ≠ j) as Hne by set_solver. clear IH Hi.
  unfold thread_step. destruct (c.2 !! j) as [t|]; cbn; [|done].
  destruct (observe t) as [a|t'|X e k]; cbn; [done|by apply list_lookup_insert_ne|].
  destruct e as [X f]. destruct (f c.1) as [[a s']|]; cbn; [by apply list_lookup_insert_ne|done].
Qed.

(** Whether the next action of the thread [i] is undefined. *)
Definition thread_faults (i : nat) (c : S * list thread) : bool :=
  match (c.2 !! i : option thread) with
  | Some t =>
      match observe (t : thread) with
      | VisF e k => match e with Atom f => match f c.1 with Fault _ => true | Prelude.Ret _ => false end end
      | _ => false
      end
  | None => false
  end.

Lemma thread_faults_sound i c : thread_faults i c = true → pool_faults c.
Proof.
  destruct c as [s ts]. unfold thread_faults. cbn [fst snd]. intros H. destruct (ts !! i) as [t|] eqn:Ht; [|done].
  destruct (observe t) as [a|t'|X e k] eqn:Ho; [done|done|]. destruct e as [X f]. destruct (f s) as [p|e] eqn:E; [done|].
  by eapply pool_fault.
Qed.

(** What a schedule reaches. *)
Lemma schedule_reaches sch s ts s' : (schedule sch (s, ts)).1 = s' → ∃ ts', reaches s ts s' ts'.
Proof. intros <-. eexists. apply schedule_sound. Qed.
End pool.

(** What a schedule reaches with a log beside the object. *)
Lemma schedule_logs {S U} sch (s : S) (u : U) ts tr :
  (schedule sch ((s, u), ts)).1.2 = tr → ∃ s' ts', reaches (s, u) ts (s', tr) ts'.
Proof.
  intros <-. eexists _, _. rewrite <- surjective_pairing. apply schedule_sound.
Qed.

(** ** The logic

    Each thread has a ghost state of type [L], which only its own steps change, and an invariant [I]
    relates the shared state to the ghost states of all threads.  [wp n t i Q l]: while the others keep
    the invariant, [n] steps of [t], as thread [i] with the ghost state [l], meet no fault and keep it,
    and when [t] ends within them, the result and the ghost state then satisfy [Q]. *)

Section logic.
Context {S L : Type} (I : S → list L → Prop).

Fixpoint wp (n : nat) {A} (t : prog S A) (i : nat) (Q : A → L → Prop) (l : L) : Prop :=
  match n with
  | O => True
  | Datatypes.S n =>
      match observe t with
      | RetF a => Q a l
      | TauF t' => wp n t' i Q l
      | VisF e k =>
          match e in atom _ X return (X → prog S A) → Prop with
          | Atom f => λ k, ∀ s ls, I s ls → ls !! i = Some l →
              ∃ a s' l', f s = Prelude.Ret (a, s') ∧ I s' (<[i := l']> ls) ∧ wp n (k a) i Q l'
          end k
      end
  end.

Lemma wp_S n A (t : prog S A) i Q l : wp (Datatypes.S n) t i Q l → wp n t i Q l.
Proof.
  revert t l. induction n as [|n IH]; intros t l H; [done|].
  cbn [wp]. cbn [wp] in H. destruct (observe t) as [a|t'|X e k]; [done | by apply IH|].
  destruct e as [X f]. intros s ls HI Hl. destruct (H s ls HI Hl) as (a & s' & l' & E & HI' & Hw).
  exists a, s', l'. split; [done|]. split; [done|]. by apply IH.
Qed.

Lemma wp_mono n A (t : prog S A) i (Q Q' : A → L → Prop) l :
  wp n t i Q l → (∀ a l', Q a l' → Q' a l') → wp n t i Q' l.
Proof.
  intros H HQ. revert t l H. induction n as [|n IH]; intros t l H; [done|].
  cbn [wp] in *. destruct (observe t) as [a|t'|X e k]; [by apply HQ | by apply IH|].
  destruct e as [X f]. intros s ls HI Hl. destruct (H s ls HI Hl) as (a & s' & l' & E & HI' & Hw).
  exists a, s', l'. eauto.
Qed.

Lemma wp_ret n A (a : A) i (Q : A → L → Prop) l : Q a l → wp n (mret a) i Q l.
Proof. by destruct n. Qed.

Lemma wp_bind n A B (t : prog S A) (k : A → prog S B) i Q l :
  wp n t i (λ a l', wp n (k a) i Q l') l → wp n (t ≫= k) i Q l.
Proof.
  revert t l. induction n as [|n IH]; intros t l H; [done|].
  cbn [wp] in H. cbn [wp].
  rewrite observe_prog_bind.
  destruct (observe t) as [a|t'|X e h].
  - exact H.
  - apply (IH t'). eapply wp_mono; [exact H|]. intros a l'. apply wp_S.
  - destruct e as [X f]. intros s ls HI Hl. destruct (H s ls HI Hl) as (a & s' & l' & E & HI' & Hw).
    exists a, s', l'. split; [done|]. split; [done|]. apply (IH (h a)).
    eapply wp_mono; [exact Hw|]. intros b l''. apply wp_S.
Qed.

Lemma wp_atomic n A (f : S → outcome (A * S)) i (Q : A → L → Prop) l :
  (∀ s ls, I s ls → ls !! i = Some l →
     ∃ a s' l', f s = Prelude.Ret (a, s') ∧ I s' (<[i := l']> ls) ∧ Q a l') →
  wp n (atomic f) i Q l.
Proof.
  intros H. destruct n as [|n]; [done|]. intros s ls HI Hl.
  destruct (H s ls HI Hl) as (a & s' & l' & E & HI' & HQ).
  exists a, s', l'. split; [done|]. split; [done|]. by apply (wp_ret n _ a).
Qed.

Lemma wp_pure n A (m : outcome A) i (Q : A → L → Prop) l :
  (∃ a, m = Prelude.Ret a ∧ Q a l) → wp n (pure m) i Q l.
Proof.
  intros (a & -> & HQ). apply wp_atomic. intros s ls HI Hl. exists a, s, l.
  by rewrite list_insert_id.
Qed.

(** A loop keeps what holds at the start of each of its rounds. *)
Lemma wp_loop n A B (body : A → prog S (A + B)) (P : A → L → Prop) i Q a l :
  P a l →
  (∀ m a l, P a l → wp m (body a) i (λ r l', match r with inl a' => P a' l' | inr b => Q b l' end) l) →
  wp n (loop body a) i Q l.
Proof.
  intros HP Hbody. revert a l HP. induction n as [|n IH]; intros a l HP; [done|].
  assert (wp (Datatypes.S n)
    (body a ≫= λ r, match r with inl a' => go (TauF (loop body a')) | inr b => mret (M := prog S) b end) i Q l) as H.
  { apply wp_bind. eapply wp_mono; [by apply Hbody|]. intros [a'|b] l'; [|apply wp_ret].
    intros HP'. cbn [wp observe _observe]. by apply IH. }
  exact H.
Qed.

Lemma wp_while n (c : prog S bool) (body : prog S unit) (P : L → Prop) i (Q : unit → L → Prop) l :
  P l →
  (∀ m l, P l → wp m c i (λ b l', if b then wp m body i (λ _, P) l' else Q tt l') l) →
  wp n (while c body) i Q l.
Proof.
  intros HP Hc. apply (wp_loop n _ _ _ (λ _, P)); [done|]. intros m [] l0 HP0.
  apply wp_bind. eapply wp_mono; [by apply Hc|]. intros [] l' H; [|by apply wp_ret].
  apply wp_bind. eapply wp_mono; [exact H|]. intros [] l'' HP''. by apply wp_ret.
Qed.

Lemma wp_stall n i (Q : unit → L → Prop) l : Q tt l → wp n stall i Q l.
Proof. intros H. destruct n as [|n]; [done|]. by apply wp_ret. Qed.

(** In every state that is reached, the invariant holds for some ghost states, with which each thread can go
    on, or has ended with what it promised. *)
Lemma wp_reaches (Q : nat → unit → L → Prop) s ts ls s' ts' :
  length ts = length ls → I s ls →
  (∀ i t l n, ts !! i = Some t → ls !! i = Some l → wp n t i (Q i) l) →
  reaches s ts s' ts' →
  ∃ ls', length ls' = length ls ∧ length ts' = length ls' ∧ I s' ls' ∧
    ∀ i t l, ts' !! i = Some t → ls' !! i = Some l → wp 1 t i (Q i) l.
Proof.
  intros Hlen HI Hwp Hr.
  apply rtc_nsteps in Hr as [m Hm].
  assert (∀ i t l, ts !! i = Some t → ls !! i = Some l → wp (m + 1) t i (Q i) l) as Hw by eauto.
  clear Hwp. revert s ts ls Hlen HI Hw Hm. induction m as [|m IH]; intros s ts ls Hlen HI Hw Hm.
  - inversion Hm; subst. by exists ls.
  - inversion Hm as [|? ? [s1 ts1] ? Hstep Hrest]; subst.
    assert (∃ ls1, length ls1 = length ls ∧ length ts1 = length ls1 ∧ I s1 ls1
      ∧ ∀ i t l, ts1 !! i = Some t → ls1 !! i = Some l → wp (m + 1) t i (Q i) l)
      as (ls1 & Hlen1 & Hlen1' & HI1 & Hw1).
    2:{ destruct (IH s1 ts1 ls1 Hlen1' HI1 Hw1 Hrest) as (ls' & ? & ?).
        exists ls'. split; [congruence | done]. }
    clear IH Hrest Hm. inversion Hstep as [? ? i t t' Ht Ho|? ? i t A f k a ? Ht Ho E]; subst.
    + exists ls. split; [done|]. split; [by rewrite length_insert|]. split; [done|].
      intros j u l Hu Hl. destruct (decide (i = j)) as [<-|Hne].
      * rewrite list_lookup_insert_eq in Hu by (by eapply lookup_lt_Some). injection Hu as <-.
        specialize (Hw i t l Ht Hl). cbn [wp Nat.add] in Hw. by rewrite Ho in Hw.
      * rewrite list_lookup_insert_ne in Hu by done. apply wp_S. exact (Hw j u l Hu Hl).
    + destruct (lookup_lt_is_Some_2 ls i) as [l Hl]; [rewrite <- Hlen; by eapply lookup_lt_Some|].
      pose proof (Hw i t l Ht Hl) as Hwi. cbn [wp Nat.add] in Hwi. rewrite Ho in Hwi.
      destruct (Hwi _ _ HI Hl) as (a1 & s1' & l' & E' & HI' & Hk). rewrite E in E'. injection E' as <- <-.
      exists (<[i := l']> ls). split; [by rewrite length_insert|]. split; [by rewrite !length_insert|].
      split; [done|]. intros j u lj Hu Hlj. destruct (decide (i = j)) as [<-|Hne].
      * rewrite list_lookup_insert_eq in Hu by (by eapply lookup_lt_Some).
        rewrite list_lookup_insert_eq in Hlj by (by eapply lookup_lt_Some).
        injection Hu as <-. injection Hlj as <-. exact Hk.
      * rewrite list_lookup_insert_ne in Hu by done. rewrite list_lookup_insert_ne in Hlj by done.
        apply wp_S. exact (Hw j u lj Hu Hlj).
Qed.

(** A thread that has ended keeps what it promised. *)
Lemma wp_ended A (t : prog S A) i Q l : wp 1 t i Q l → ended t = true → ∃ a, Q a l.
Proof. unfold ended. cbn [wp]. destruct (observe t) as [a| |]; [by exists a | done | done]. Qed.

Lemma wp_of_ended n A (t : prog S A) i (Q : A → L → Prop) l : ended t = true → (∀ a, Q a l) → wp n t i Q l.
Proof. unfold ended. intros Ht HQ. destruct n as [|n]; [done|]. cbn [wp]. by destruct (observe t). Qed.

(** A thread that can go on does not fault. *)
Lemma wp_no_fault Q s ts ls :
  length ts = length ls → I s ls → (∀ i t l, ts !! i = Some t → ls !! i = Some l → wp 1 t i (Q i) l) →
  ¬ pool_faults (s, ts).
Proof.
  intros Hlen HI Hw Hf. inversion Hf as [? ? i t A f k e Ht Ho E]; subst.
  destruct (lookup_lt_is_Some_2 ls i) as [l Hl]; [rewrite <- Hlen; by eapply lookup_lt_Some|].
  specialize (Hw i t l Ht Hl). cbn [wp] in Hw. rewrite Ho in Hw.
  destruct (Hw _ _ HI Hl) as (? & ? & ? & E' & _). congruence.
Qed.

(** In every state that is reached, the invariant holds for some ghost states, and no thread faults. *)
Theorem wp_sound s ts ls s' ts' :
  length ts = length ls → I s ls →
  (∀ i t l n, ts !! i = Some t → ls !! i = Some l → wp n t i (λ _ _, True) l) →
  reaches s ts s' ts' →
  (∃ ls', length ls' = length ls ∧ I s' ls') ∧ ¬ pool_faults (s', ts').
Proof.
  intros Hlen HI Hwp Hr. destruct (wp_reaches (λ _ _ _, True) _ _ _ _ _ Hlen HI Hwp Hr) as (ls' & ? & ? & ? & ?).
  split; [by exists ls'|]. by eapply (wp_no_fault (λ _ _ _, True)).
Qed.
End logic.

(** ** An object in the memory of its clients

    The memory is the object and the rest, [U]; a thread has a ghost state [G] for the object and one, [F],
    for what it does itself.  The clients' invariant [R] may speak of the ghost states of the object, as
    long as a thread that is [out], in no section of its own, may change its state there. *)

Section frame.
Context {T U G F : Type} (out : F) (inv : T → list G → Prop) (R : U → list (G * F) → Prop).

Definition framed (m : T * U) (ls : list (G * F)) : Prop := inv m.1 ls.*1 ∧ R m.2 ls.

Definition outside_stable : Prop :=
  ∀ tr ls i g g', ls !! i = Some (g, out) → R tr ls → R tr (<[i := (g', out)]> ls).

(** [wp] for the steps of the object, outside the sections of the client. *)
Definition outside_wp (n : nat) {A} (t : prog (T * U) A) (i : nat) (Q : A → G → Prop) (g : G) : Prop :=
  wp framed n t i (λ a l, l.2 = out ∧ Q a l.1) (g, out).

Lemma outside_wp_ret n A (a : A) i (Q : A → G → Prop) g : Q a g → outside_wp n (mret a) i Q g.
Proof. intros H. by apply wp_ret. Qed.

Lemma outside_wp_mono n A (t : prog (T * U) A) i (Q Q' : A → G → Prop) g :
  outside_wp n t i Q g → (∀ a g', Q a g' → Q' a g') → outside_wp n t i Q' g.
Proof. intros H HQ. eapply wp_mono; [exact H|]. intros a [g' f] [Hf HQ']. auto. Qed.

Lemma outside_wp_bind n A B (t : prog (T * U) A) (k : A → prog (T * U) B) i Q g :
  outside_wp n t i (λ a g', outside_wp n (k a) i Q g') g → outside_wp n (t ≫= k) i Q g.
Proof.
  intros H. apply wp_bind. eapply wp_mono; [exact H|]. by intros a [g' b] [[= ->] HQ].
Qed.

Lemma outside_wp_while n (c : prog (T * U) bool) body (P : G → Prop) i (Q : unit → G → Prop) g :
  P g →
  (∀ m g, P g → outside_wp m c i (λ b g', if b then outside_wp m body i (λ _, P) g' else Q tt g') g) →
  outside_wp n (while c body) i Q g.
Proof.
  intros HP Hc. apply (wp_while _ _ _ _ (λ l, l.2 = out ∧ P l.1)); [done|].
  intros m [g' b] [[= ->] HP']. eapply wp_mono; [by apply Hc|].
  intros [] [g'' b] [[= ->] H]; [exact H | done].
Qed.

Lemma outside_wp_loop n A B (body : A → prog (T * U) (A + B)) (P : A → G → Prop) i (Q : B → G → Prop) a g :
  P a g →
  (∀ m a g, P a g → outside_wp m (body a) i (λ r g', match r with inl a' => P a' g' | inr b => Q b g' end) g) →
  outside_wp n (loop body a) i Q g.
Proof.
  intros HP H. apply (wp_loop _ _ _ _ _ (λ a l, l.2 = out ∧ P a l.1)); [done|]. clear a g HP.
  intros m a [g f] [[= ->] HP]. eapply wp_mono; [by apply H|]. by intros [a'|b] [g' f] [[= ->] HQ].
Qed.

Lemma outside_wp_stall n i (Q : unit → G → Prop) g : Q tt g → outside_wp n stall i Q g.
Proof. intros H. by apply wp_stall. Qed.

Lemma outside_wp_atomic n A (f : T * U → outcome (A * (T * U))) i (Q : A → G → Prop) g :
  outside_stable →
  (∀ s tr gs, inv s gs → gs !! i = Some g →
     ∃ a s' g', f (s, tr) = Ret (a, (s', tr)) ∧ inv s' (<[i := g']> gs) ∧ Q a g') →
  outside_wp n (atomic f) i Q g.
Proof.
  intros HR H. apply wp_atomic. intros [s tr] ls [HI HF] Hl. cbn [fst snd] in *.
  destruct (H s tr ls.*1 HI) as (a & s' & g' & E & HI' & HQ); [by rewrite list_lookup_fmap, Hl|].
  exists a, (s', tr), (g', out). split; [done|]. split; [|done]. split; cbn [fst snd].
  - by rewrite list_fmap_insert.
  - by eapply HR.
Qed.
End frame.

(** ** An object anywhere in the memory

    The object is at [l]; [gh] is what a thread's ghost state has for it, [up] changes that.  What the clients keep
    in [I] allows any step of the object by a thread that is [ok]. *)

Section view.
Context {S L T G : Type} (I : S → list L → Prop) (l : loc S T) (inv : T → list G → Prop).
Context (gh : L → G) (up : G → L → L) (ok : L → Prop).

Record view : Prop := {
  vw_inv s ls : I s ls → inv (loc_get l s) (gh <$> ls);
  vw_step s ls i x t g :
    I s ls → ls !! i = Some x → ok x → inv t (<[i := g]> (gh <$> ls)) → I (loc_set l t s) (<[i := up g x]> ls);
  vw_same s : loc_set l (loc_get l s) s = s;
  vw_gh g x : gh (up g x) = g;
  vw_ok g x : ok x → ok (up g x);
  vw_up g g' x : up g (up g' x) = up g x;
  vw_id x : up (gh x) x = x
}.

(** [wp] for the steps of the object: what they change of a ghost state is what it has for the object. *)
Definition view_wp (n : nat) {A} (t : prog S A) (i : nat) (Q : A → G → Prop) (g : G) : Prop :=
  ∀ x, ok x → gh x = g → wp I n t i (λ a y, ∃ g', y = up g' x ∧ Q a g') x.

Context (V : view).

Lemma view_wp_ret n A (a : A) i (Q : A → G → Prop) g : Q a g → view_wp n (mret a) i Q g.
Proof using V. intros HQ x Hx <-. apply wp_ret. exists (gh x). by rewrite (vw_id V). Qed.

Lemma view_wp_mono n A (t : prog S A) i (Q Q' : A → G → Prop) g :
  view_wp n t i Q g → (∀ a g', Q a g' → Q' a g') → view_wp n t i Q' g.
Proof. intros H HQ x Hx Hg. eapply wp_mono; [by apply H|]. intros a y (g' & -> & Ha). exists g'. auto. Qed.

Lemma view_wp_bind n A B (t : prog S A) (k : A → prog S B) i Q g :
  view_wp n t i (λ a g', view_wp n (k a) i Q g') g → view_wp n (t ≫= k) i Q g.
Proof using V.
  intros H x Hx Hg. apply wp_bind. eapply wp_mono; [by apply H|]. intros a y (g' & -> & Ha).
  eapply wp_mono; [apply Ha; [by apply (vw_ok V)|apply (vw_gh V)]|]. intros b y (g'' & -> & Hb). exists g''.
  by rewrite (vw_up V).
Qed.

Lemma view_wp_loop n A B (body : A → prog S (A + B)) (P : A → G → Prop) i (Q : B → G → Prop) a g :
  P a g →
  (∀ m a g, P a g → view_wp m (body a) i (λ r g', match r with inl a' => P a' g' | inr b => Q b g' end) g) →
  view_wp n (loop body a) i Q g.
Proof using V.
  intros HP H x Hx Hg. apply (wp_loop _ _ _ _ _ (λ a y, ∃ g', y = up g' x ∧ P a g')).
  { exists g. split; [|done]. by rewrite <- Hg, (vw_id V). }
  clear a g HP Hg. intros m a y (g & -> & HP). eapply wp_mono; [apply (H m a g HP); [by apply (vw_ok V)|apply (vw_gh V)]|].
  intros r y (g' & -> & Hr). rewrite (vw_up V). destruct r; by exists g'.
Qed.

Lemma view_wp_while n (c : prog S bool) (body : prog S unit) (P : G → Prop) i (Q : unit → G → Prop) g :
  P g →
  (∀ m g, P g → view_wp m c i (λ b g', if b then view_wp m body i (λ _, P) g' else Q tt g') g) →
  view_wp n (while c body) i Q g.
Proof using V.
  intros HP Hc. apply (view_wp_loop _ _ _ _ (λ _, P)); [done|]. intros m [] g0 HP0.
  apply view_wp_bind. eapply view_wp_mono; [by apply Hc|]. intros [] g' H; [|by apply view_wp_ret].
  apply view_wp_bind. eapply view_wp_mono; [exact H|]. intros [] g'' HP''. by apply view_wp_ret.
Qed.

Lemma view_wp_stall n i (Q : unit → G → Prop) g : Q tt g → view_wp n stall i Q g.
Proof using V. intros H x Hx <-. apply wp_stall. exists (gh x). by rewrite (vw_id V). Qed.

(** One step on the object. *)
Lemma view_wp_step n A (f : S → outcome (A * S)) (r : T → A) (u : T → T) i (Q : A → G → Prop) g :
  (∀ s, f s = Prelude.Ret (r (loc_get l s), loc_set l (u (loc_get l s)) s)) →
  (∀ t gs, inv t gs → gs !! i = Some g → ∃ g', inv (u t) (<[i := g']> gs) ∧ Q (r t) g') →
  view_wp n (atomic f) i Q g.
Proof using V.
  intros Hf H x Hx Hg. apply wp_atomic. intros s ls HI Hi.
  destruct (H (loc_get l s) (gh <$> ls)) as (g' & HI' & HQ); [by apply (vw_inv V)|by rewrite list_lookup_fmap, Hi, <- Hg|].
  exists (r (loc_get l s)), (loc_set l (u (loc_get l s)) s), (up g' x). split; [apply Hf|]. split; [by apply (vw_step V)|]. by exists g'.
Qed.

(** A step that only looks at it. *)
Lemma view_wp_look n A (f : S → outcome (A * S)) (r : T → A) i (Q : A → G → Prop) g :
  (∀ s, f s = Prelude.Ret (r (loc_get l s), s)) →
  (∀ t gs, inv t gs → gs !! i = Some g → ∃ g', inv t (<[i := g']> gs) ∧ Q (r t) g') →
  view_wp n (atomic f) i Q g.
Proof using V. intros Hf. apply (view_wp_step _ _ _ _ id). intros s. unfold id. by rewrite (vw_same V). Qed.
End view.

(** ** Counting the threads in a state *)

Section tally.
Context {G : Type} (p : G → bool).
#[local] Open Scope Z_scope.

Fixpoint tally (gs : list G) : Z := match gs with [] => 0 | g :: gs => Z.b2z (p g) + tally gs end.

Lemma tally_insert gs i g g' :
  gs !! i = Some g → tally (<[i := g']> gs) = tally gs - Z.b2z (p g) + Z.b2z (p g').
Proof.
  revert i. induction gs as [|x gs IH]; intros [|i] H; try done.
  - injection H as ->. cbn. lia.
  - change (<[Datatypes.S i := g']> (x :: gs)) with (x :: <[i := g']> gs). cbn [tally].
    rewrite (IH i H). lia.
Qed.

Lemma tally_range gs : 0 ≤ tally gs ≤ Z.of_nat (length gs).
Proof. induction gs as [|g gs IH]; cbn [tally length]; [lia|]. destruct (p g); cbn; lia. Qed.

Lemma tally_pos gs i g : gs !! i = Some g → p g = true → 0 < tally gs.
Proof.
  revert i. induction gs as [|x gs IH]; intros [|i] H Hg; cbn in *; try done.
  - injection H as ->. rewrite Hg. pose proof (tally_range gs). cbn. lia.
  - specialize (IH i H Hg). destruct (p x); cbn; lia.
Qed.

(** A thread that is not counted leaves room. *)
Lemma tally_other gs i g : gs !! i = Some g → p g = false → tally gs < Z.of_nat (length gs).
Proof.
  revert i. induction gs as [|x gs IH]; intros [|i] H Hg; cbn in *; try done.
  - injection H as ->. rewrite Hg. pose proof (tally_range gs). cbn. lia.
  - specialize (IH i H Hg). destruct (p x); cbn; lia.
Qed.

Lemma tally_zero gs : (∀ i g, gs !! i = Some g → p g = false) → tally gs = 0.
Proof.
  induction gs as [|g gs IH]; intros H; cbn [tally]; [done|].
  rewrite (H 0%nat g eq_refl). apply IH. intros i. apply (H (Datatypes.S i)).
Qed.

Lemma tally_none n g : p g = false → tally (replicate n g) = 0.
Proof. intros H. induction n as [|n IH]; cbn [replicate tally]; [done|]. by rewrite H, IH. Qed.
End tally.

Lemma tally_le {G} (p q : G → bool) gs : (∀ g, p g = true → q g = true) → (tally p gs ≤ tally q gs)%Z.
Proof.
  intros H. induction gs as [|g gs IH]; cbn [tally]; [done|].
  specialize (H g). destruct (p g), (q g); cbn; lia.
Qed.

Lemma tally_ext {G} (p q : G → bool) gs : (∀ i g, gs !! i = Some g → p g = q g) → tally p gs = tally q gs.
Proof.
  induction gs as [|g gs IH]; intros H; cbn [tally]; [done|].
  rewrite (H 0%nat g eq_refl), IH; [done|]. intros i. apply (H (Datatypes.S i)).
Qed.

(** One thread goes on: what the others are. *)
Lemma insert_case {A} (ls : list A) i j x y :
  <[i := x]> ls !! j = Some y → j = i ∧ y = x ∨ j ≠ i ∧ ls !! j = Some y.
Proof.
  intros H. destruct (decide (j = i)) as [->|Hne].
  - left. split; [done|]. pose proof (lookup_lt_Some _ _ _ H) as Hl. rewrite length_insert in Hl.
    rewrite list_lookup_insert_eq in H by done. congruence.
  - right. by rewrite list_lookup_insert_ne in H.
Qed.

(** What the threads have together. *)
Section total.
Context {G : Type} (f : G → nat).

Fixpoint total (gs : list G) : nat := match gs with [] => 0 | g :: gs => f g + total gs end%nat.

Lemma total_insert gs i g g' : gs !! i = Some g → (total (<[i := g']> gs) + f g = total gs + f g')%nat.
Proof.
  revert i. induction gs as [|x gs IH]; intros [|i] H; try done.
  - injection H as ->. cbn. lia.
  - change (<[Datatypes.S i := g']> (x :: gs)) with (x :: <[i := g']> gs). cbn [total].
    specialize (IH i H). lia.
Qed.

Lemma total_lookup gs i g : gs !! i = Some g → (f g ≤ total gs)%nat.
Proof.
  revert i. induction gs as [|x gs IH]; intros [|i] H; try done; cbn.
  - injection H as ->. lia.
  - specialize (IH i H). lia.
Qed.
End total.

(** ** A program that runs alone

    [runs t s Q]: alone from [s], the program [t] ends, with no fault, and its result and the state then satisfy
    [Q]. *)
Definition runs {S A} (t : prog S A) (s : S) (Q : A → S → Prop) : Prop :=
  ∃ n a s', solo n t s = Prelude.Ret (a, s') ∧ Q a s'.

Lemma solo_more {S A} n k (t : prog S A) s a s' : solo n t s = Prelude.Ret (a, s') → solo (n + k) t s = Prelude.Ret (a, s').
Proof.
  revert t s. induction n as [|n IH]; intros t s H; [done|]. cbn [solo Nat.add] in *.
  destruct (observe t) as [b|t'|X e h]; [done|by apply IH|].
  destruct e as [X f]. destruct (f s) as [[x s1]|]; [by apply IH|done].
Qed.

Lemma solo_bind {S A B} n k (t : prog S A) (h : A → prog S B) s a s' r :
  solo n t s = Prelude.Ret (a, s') → solo k (h a) s' = Prelude.Ret r → solo (n + k) (t ≫= h) s = Prelude.Ret r.
Proof.
  revert t s. induction n as [|n IH]; intros t s H Hk; [done|]. cbn [solo Nat.add] in *. rewrite observe_prog_bind.
  destruct (observe t) as [b|t'|X e g] eqn:Eo.
  - injection H as -> ->. destruct r as [b s'']. apply (solo_more _ (Datatypes.S n)) in Hk.
    replace (k + Datatypes.S n)%nat with (Datatypes.S (n + k)) in Hk by lia. exact Hk.
  - by apply IH.
  - destruct e as [X f]. destruct (f s) as [[x s1]|]; [by apply (IH (g x))|done].
Qed.

Lemma runs_observe {S A} (t t' : prog S A) s Q : observe t = observe t' → runs t s Q → runs t' s Q.
Proof.
  intros E (n & a & s' & H & HQ). exists n, a, s'. split; [|done]. destruct n as [|n]; [done|]. cbn [solo] in *. by rewrite <- E.
Qed.

Section alone.
Context {S : Type}.

Lemma runs_ret A (a : A) (s : S) (Q : A → S → Prop) : Q a s → runs (mret a) s Q.
Proof. intros H. by exists 1%nat, a, s. Qed.

Lemma runs_mono A (t : prog S A) s (Q Q' : A → S → Prop) : runs t s Q → (∀ a s', Q a s' → Q' a s') → runs t s Q'.
Proof. intros (n & a & s' & E & H) HQ. exists n, a, s'. auto. Qed.

Lemma runs_bind A B (t : prog S A) (h : A → prog S B) s Q : runs t s (λ a s', runs (h a) s' Q) → runs (t ≫= h) s Q.
Proof.
  intros (n & a & s' & E & k & b & s'' & E' & H). exists (n + k)%nat, b, s''. split; [|done]. by eapply solo_bind.
Qed.

Lemma runs_atomic A (f : S → outcome (A * S)) s a s' (Q : A → S → Prop) :
  f s = Prelude.Ret (a, s') → Q a s' → runs (atomic f) s Q.
Proof. intros E H. exists 2%nat, a, s'. split; [|done]. cbn. by rewrite E. Qed.

(** One round of a loop. *)
Lemma runs_loop A B (body : A → prog S (A + B)) a s Q :
  runs (body a) s (λ r s', match r with inl a' => runs (loop body a') s' Q | inr b => Q b s' end) →
  runs (loop body a) s Q.
Proof.
  intros H. apply (runs_observe (body a ≫= λ r,
    match r with inl a' => go (TauF (loop body a')) | inr b => mret (M := prog S) b end)); [done|].
  apply runs_bind. eapply runs_mono; [exact H|]. intros [a'|b] s' Hr; [|by apply runs_ret].
  destruct Hr as (n & b & s'' & E & HQ). by exists (Datatypes.S n), b, s''.
Qed.
End alone.

(** * Histories of queues that threads share: what each thread put and took. *)

(** What is marked with the thread [i]. *)
Definition of_thread {A} (i : nat) (l : list (nat * A)) : list A := (filter (λ x, x.1 = i) l).*2.
#[global] Arguments of_thread : simpl never.

(** The log [tr] of what was taken: for the entries [q], in the order in which they were put, each taken at
    the index in [q] that is beside it in [tk]. *)
Definition taken_from {A} (q : list (nat * A)) (tk : list (nat * nat)) (tr : list (nat * A)) : Prop :=
  Forall2 (λ x y, x.1 = y.1 ∧ snd <$> q !! y.2 = Some x.2) tr tk
  ∧ NoDup tk.*2 ∧ ∀ i, StronglySorted lt (of_thread i tk).

Lemma of_thread_snoc {A} i (l : list (nat * A)) j x :
  of_thread i (l ++ [(j, x)]) = of_thread i l ++ (if decide (j = i) then [x] else []).
Proof.
  unfold of_thread. rewrite filter_app, fmap_app. f_equal. rewrite filter_cons. cbn. by case_decide.
Qed.

Lemma elem_of_of_thread {A} i (l : list (nat * A)) x : x ∈ of_thread i l ↔ (i, x) ∈ l.
Proof.
  unfold of_thread. rewrite list_elem_of_fmap. split.
  - intros ([j y] & -> & [Hj Hl]%list_elem_of_filter). cbn in *. by subst.
  - intros H. exists (i, x). split; [done|]. by apply list_elem_of_filter.
Qed.

Lemma sorted_snoc l x : StronglySorted lt l → Forall (λ y, (y < x)%nat) l → StronglySorted lt (l ++ [x]).
Proof.
  intros Hl Hx. induction Hl as [|y l Hl IH Hy]; cbn; [by repeat constructor|].
  inversion Hx; subst. constructor; [by apply IH|]. apply Forall_app. auto.
Qed.

