(* ===== verification/CkPr.v ===== *)
(** CkPr: the atomic operations of Concurrency Kit, include/aerospike/ck/gcc/x86_64/ck_pr.h, on unsigned
    words of [w] bits.

    An operation with a lock prefix is one step; so are a load and a store of a word.  The fences and
    [pause] change no memory: the steps of a thread take effect in the order of the program, which is what
    the fences of the algorithms are there for. *)

From Stdlib Require Import ZArith Lia.
From stdpp Require Import functions base list gmap.
From S2P Require Import Prelude Concurrent.

#[local] Open Scope Z_scope.

Section ops.
Context {S : Type} (w : Z) (target : loc S Z).

(** One step that reads the word [v], returns [r v] and leaves [u v]. *)
Definition rmw {A} (r : Z → A) (u : Z → Z) : prog S A :=
  atomic (λ s, let v := loc_get target s in Ret (r v, loc_set target (u v) s)).

(** [src: include/aerospike/ck/gcc/x86_64/ck_pr.h 173-183 ck_pr_md_load_##S] *)
Definition ck_pr_load : prog S Z := atomic (λ s, Ret (loc_get target s, s)).

(** [src: include/aerospike/ck/gcc/x86_64/ck_pr.h 245-254 ck_pr_md_store_##S] *)
Definition ck_pr_store (v : Z) : prog S unit := atomic (λ s, Ret (tt, loc_set target v s)).

(** [src: include/aerospike/ck/gcc/x86_64/ck_pr.h 140-150 ck_pr_fas_##S] *)
Definition ck_pr_fas (v : Z) : prog S Z := rmw id (λ _, v).

(** [src: include/aerospike/ck/gcc/x86_64/ck_pr.h 289-299 ck_pr_faa_##S] *)
Definition ck_pr_faa (d : Z) : prog S Z := rmw id (λ v, uwrap w (v + d)).

(** [src: include/aerospike/ck/gcc/x86_64/ck_pr.h 323-332 ck_pr_inc_##S] *)
Definition ck_pr_inc : prog S unit := rmw (λ _, tt) (λ v, uwrap w (v + 1)).

(** [src: include/aerospike/ck/gcc/x86_64/ck_pr.h 323-332 ck_pr_dec_##S] *)
Definition ck_pr_dec : prog S unit := rmw (λ _, tt) (λ v, uwrap w (v - 1)).

(** [src: include/aerospike/ck/gcc/x86_64/ck_pr.h 323-332 ck_pr_neg_##S] *)
Definition ck_pr_neg : prog S unit := rmw (λ _, tt) (λ v, uwrap w (- v)).

(** [src: include/aerospike/ck/gcc/x86_64/ck_pr.h 323-332 ck_pr_not_##S] *)
Definition ck_pr_not : prog S unit := rmw (λ _, tt) (λ v, uwrap w (Z.lnot v)).

(** Whether the word is zero after the step.
    [src: include/aerospike/ck/gcc/x86_64/ck_pr.h 334-345 ck_pr_inc_##S##_is_zero] *)
Definition ck_pr_inc_is_zero : prog S bool := rmw (λ v, uwrap w (v + 1) =? 0) (λ v, uwrap w (v + 1)).

(** [src: include/aerospike/ck/gcc/x86_64/ck_pr.h 334-345 ck_pr_dec_##S##_is_zero] *)
Definition ck_pr_dec_is_zero : prog S bool := rmw (λ v, uwrap w (v - 1) =? 0) (λ v, uwrap w (v - 1)).

(** [src: include/aerospike/ck/gcc/x86_64/ck_pr.h 334-345 ck_pr_neg_##S##_is_zero] *)
Definition ck_pr_neg_is_zero : prog S bool := rmw (λ v, uwrap w (- v) =? 0) (λ v, uwrap w (- v)).

(** [src: include/aerospike/ck/ck_pr.h 633-639 ck_pr_inc_##S##_zero] *)
Definition ck_pr_inc_zero : prog S bool := ck_pr_inc_is_zero.

(** [src: include/aerospike/ck/ck_pr.h 633-639 ck_pr_dec_##S##_zero] *)
Definition ck_pr_dec_zero : prog S bool := ck_pr_dec_is_zero.

(** [src: include/aerospike/ck/gcc/x86_64/ck_pr.h 377-386 ck_pr_add_##S] *)
Definition ck_pr_add (d : Z) : prog S unit := rmw (λ _, tt) (λ v, uwrap w (v + d)).

(** [src: include/aerospike/ck/gcc/x86_64/ck_pr.h 377-386 ck_pr_sub_##S] *)
Definition ck_pr_sub (d : Z) : prog S unit := rmw (λ _, tt) (λ v, uwrap w (v - d)).

(** [src: include/aerospike/ck/gcc/x86_64/ck_pr.h 377-386 ck_pr_xor_##S] *)
Definition ck_pr_xor (d : Z) : prog S unit := rmw (λ _, tt) (λ v, Z.lxor v d).

(** [src: include/aerospike/ck/gcc/x86_64/ck_pr.h 377-386 ck_pr_and_##S] *)
Definition ck_pr_and (d : Z) : prog S unit := rmw (λ _, tt) (λ v, Z.land v d).

(** [src: include/aerospike/ck/gcc/x86_64/ck_pr.h 377-386 ck_pr_or_##S] *)
Definition ck_pr_or (d : Z) : prog S unit := rmw (λ _, tt) (λ v, Z.lor v d).

(** [src: include/aerospike/ck/gcc/x86_64/ck_pr.h 413-425 ck_pr_cas_##S] *)
Definition ck_pr_cas (compare set : Z) : prog S bool :=
  rmw (λ v, v =? compare) (λ v, if v =? compare then set else v).

(** The boolean, and the value left in [*v].
    [src: include/aerospike/ck/gcc/x86_64/ck_pr.h 448-463 ck_pr_cas_##S##_value] *)
Definition ck_pr_cas_value (compare set : Z) : prog S (bool * Z) :=
  rmw (λ v, (v =? compare, v)) (λ v, if v =? compare then set else v).
End ops.

(** Two words at once, as an object of two words.
    [src: include/aerospike/ck/gcc/x86_64/ck_pr.h 487-502 ck_pr_cas_64_2] *)
Definition ck_pr_cas_64_2 {S T} `{EqDecision T} (target : loc S T) (compare set : T) : prog S bool :=
  atomic (λ s, let v := loc_get target s in
    Ret (bool_decide (v = compare), loc_set target (if decide (v = compare) then set else v) s)).

(** [src: include/aerospike/ck/gcc/x86_64/ck_pr.h 504-510 ck_pr_cas_ptr_2] *)
Definition ck_pr_cas_ptr_2 {S T} `{EqDecision T} (target : loc S T) (compare set : T) : prog S bool :=
  ck_pr_cas_64_2 target compare set.

(** The same, with the value left.
    [src: include/aerospike/ck/gcc/x86_64/ck_pr.h 512-532 ck_pr_cas_64_2_value] *)
Definition ck_pr_cas_2_value {S T} `{EqDecision T} (target : loc S T) (compare set : T) : prog S (bool * T) :=
  atomic (λ s, let v := loc_get target s in
    Ret ((bool_decide (v = compare), v), loc_set target (if decide (v = compare) then set else v) s)).

(** [src: include/aerospike/ck/gcc/x86_64/ck_pr.h 534-541 ck_pr_cas_ptr_2_value] *)
Definition ck_pr_cas_ptr_2_value {S T} `{EqDecision T} (target : loc S T) (compare set : T) : prog S (bool * T) :=
  ck_pr_cas_2_value target compare set.

(** * Nodes in the memory that programs reach by their addresses; [NULL] is 0. Reading or writing a member of a node is one step; it faults when there is no node at the address. *)

Section nodes.
Context {S N : Type} (nodes : loc S (gmap Z N)).

Definition deref (ns : gmap Z N) (p : Z) : outcome N :=
  if p =? 0 then Fault NullDeref
  else match ns !! p with Some n => Ret n | None => Fault OutOfBounds end.

(** [p->f]. *)
Definition load_member {A} (p : Z) (f : N → A) : prog S A :=
  atomic (λ s, n ← deref (loc_get nodes s) p; Ret (f n, s)).

(** [p->f = …], where [u] is what that does to the node. *)
Definition store_member (p : Z) (u : N → N) : prog S unit :=
  atomic (λ s, n ← deref (loc_get nodes s) p;
               Ret (tt, loc_set nodes (<[p := u n]> (loc_get nodes s)) s)).

(** Compare and swap of a member. *)
Definition cas_member {T} `{EqDecision T} (p : Z) (m : loc N T) (compare set : T) : prog S bool :=
  atomic (λ s, n ← deref (loc_get nodes s) p;
               Ret (bool_decide (loc_get m n = compare),
                    loc_set nodes (<[p := loc_set m (if decide (loc_get m n = compare) then set else loc_get m n) n]>
                                     (loc_get nodes s)) s)).
End nodes.

(** The same for a member that is a word. *)
Section members.
Context {S N : Type} (nodes : loc S (gmap Z N)) (m : loc N Z).

(** [p->m]. *)
Definition get_at (p : Z) : prog S Z := load_member nodes p (loc_get m).
(** [p->m = v]. *)
Definition put_at (p v : Z) : prog S unit := store_member nodes p (loc_set m v).
(** The exchange of [p->m] with [v]. *)
Definition fas_at (p v : Z) : prog S Z :=
  atomic (λ s, n ← deref (loc_get nodes s) p;
               Ret (loc_get m n, loc_set nodes (<[p := loc_set m v n]> (loc_get nodes s)) s)).
End members.

Lemma deref_lookup {N} (ns : gmap Z N) p n : p ≠ 0 → ns !! p = Some n → deref ns p = Ret n.
Proof. intros Hp%Z.eqb_neq H. unfold deref. by rewrite Hp, H. Qed.

(** ** Members as functions

    An invariant may speak of the members of the nodes as functions of the address, total ones: [node_at v p] is the
    node that the functions [v] have at [p], and the memory agrees with them where it has a node.  Programs run on
    the memory alone, so that they fault where there is none; the functions are of the proofs. *)

Class MembersOf (V N : Type) := node_at : V → Z → N.

Definition mem_agrees {V N} `{MembersOf V N} (ns : gmap Z N) (v : V) : Prop :=
  ∀ p n, ns !! p = Some n → n = node_at v p.

(** The member [m] of the nodes is the function [vm]. *)
Class MemberView {V N} `{MembersOf V N} (m : loc N Z) (vm : loc V (Z → Z)) : Prop := {
  mv_get v p : loc_get m (node_at v p) = loc_get vm v p;
  mv_set v p x q :
    node_at (loc_set vm (<[p := x]> (loc_get vm v)) v) q
    = if decide (q = p) then loc_set m x (node_at v p) else node_at v q
}.

Section agrees.
Context {V N : Type} `{MembersOf V N} (m : loc N Z) (vm : loc V (Z → Z)) `{!MemberView m vm}.

Lemma agrees_deref (ns : gmap Z N) v p :
  mem_agrees ns v → p ≠ 0 → is_Some (ns !! p) → deref ns p = Ret (node_at v p).
Proof. intros Ha Hp [n Hn]. by rewrite (deref_lookup _ _ _ Hp Hn), (Ha _ _ Hn). Qed.

Lemma agrees_put (ns : gmap Z N) v p x :
  mem_agrees ns v →
  mem_agrees (<[p := loc_set m x (node_at v p)]> ns) (loc_set vm (<[p := x]> (loc_get vm v)) v).
Proof using All.
  intros Ha q n Hq. rewrite mv_set. apply lookup_insert_Some in Hq as [[<- <-]|[Hne Hq]].
  - by rewrite decide_True.
  - rewrite decide_False by done. by apply Ha.
Qed.
End agrees.

(** Closes an instance of [MemberView] for the nodes that [inst] makes. *)
Tactic Notation "solve_member_view" reference(inst) :=
  split; [done|]; intros ? p ? q; unfold node_at, inst; cbn; case_decide;
  [by subst; rewrite fn_lookup_insert | by rewrite fn_lookup_insert_ne by done].

(** The address of the node that thread [i] brings. *)
Definition own_node (i : nat) : Z := Z.of_nat i + 1.

Lemma own_node_pos i : own_node i ≠ 0.
Proof. unfold own_node. lia. Qed.

Lemma own_node_inj i j : own_node i = own_node j → i = j.
Proof. unfold own_node. lia. Qed.

(** A node for each of [n] threads. *)
Definition own_nodes {N} (n : nat) (x : N) : gmap Z N := list_to_map ((λ i, (own_node i, x)) <$> seq 0 n).

Lemma own_nodes_lookup {N} n (x : N) i : (i < n)%nat → own_nodes n x !! own_node i = Some x.
Proof.
  intros Hi. apply elem_of_list_to_map_1.
  - rewrite <- list_fmap_compose. apply NoDup_fmap_2; [|apply NoDup_seq]. intros a b. apply own_node_inj.
  - apply list_elem_of_fmap. exists i. split; [done|]. apply elem_of_seq. lia.
Qed.

Lemma own_nodes_outside {N} n (x : N) p : (∀ i, (i < n)%nat → p ≠ own_node i) → own_nodes n x !! p = None.
Proof.
  intros H. apply not_elem_of_list_to_map_1. rewrite <- list_fmap_compose.
  intros (i & -> & Hi)%list_elem_of_fmap. apply elem_of_seq in Hi. by apply (H i); [lia|].
Qed.
