(* ===== verification/AsQueue.v ===== *)
(** AsQueue: the queue and the vector of items of the Aerospike client, include/aerospike/as_queue.h and
    as_vector.h: their inline functions, over an array of bytes.

    The functions that only have a prototype there are an interface; what their comments promise are its laws,
    in terms of the items that a queue or a vector holds. *)

From Stdlib Require Import ZArith Lia.
From stdpp Require Import base list.
From S2P Require Import Prelude Memory.

#[local] Open Scope Z_scope.

(** ** as_queue.h *)

(** [src: include/aerospike/as_queue.h 34-69 as_queue] *)
Record as_queue : Type := MkQueue {
  q_data : bytes; q_capacity : Z; q_head : Z; q_tail : Z; q_item_size : Z; q_total : Z; q_flags : Z
}.

Definition set_q_ends (head tail : Z) (q : as_queue) : as_queue :=
  MkQueue (q_data q) (q_capacity q) head tail (q_item_size q) (q_total q) (q_flags q).
Definition set_q_total (total : Z) (q : as_queue) : as_queue :=
  MkQueue (q_data q) (q_capacity q) (q_head q) (q_tail q) (q_item_size q) total (q_flags q).

(** The bytes are those of the stack, [capacity * item_size] of them.
    [src: include/aerospike/as_queue.h 80-86 as_queue_inita] *)
Definition as_queue_inita (alloca : bytes) (item_size capacity : Z) : as_queue :=
  MkQueue alloca capacity 0 0 item_size 0 0.

(** [src: include/aerospike/as_queue.h 113-117 as_queue_size] *)
Definition as_queue_size (queue : as_queue) : Z := uint_sub (q_tail queue) (q_head queue).

(** [src: include/aerospike/as_queue.h 122-126 as_queue_empty] *)
Definition as_queue_empty (queue : as_queue) : bool := q_tail queue =? q_head queue.

(** The index of the item's first byte in [data].
    [src: include/aerospike/as_queue.h 155-159 as_queue_get] *)
Definition as_queue_get (queue : as_queue) (index : Z) : outcome Z :=
  r ← uint_rem index (q_capacity queue); Ret (uint_mul r (q_item_size queue)).

(** The end of a pop: a queue that is empty starts again at 0. *)
Definition as_queue_rewind (q : as_queue) : as_queue :=
  if q_head q =? q_tail q then set_q_ends 0 0 q else q.

(** The item, when the result is [true], and the queue after it.
    [src: include/aerospike/as_queue.h 164-179 as_queue_pop] *)
Definition as_queue_pop (queue : as_queue) : outcome (option bytes * as_queue) :=
  if as_queue_empty queue then Ret (None, queue)
  else
    p ← as_queue_get queue (q_head queue);
    item ← arr_slice (q_data queue) p (q_item_size queue);
    Ret (Some item, as_queue_rewind (set_q_ends (uint_add (q_head queue) 1) (q_tail queue) queue)).

(** [src: include/aerospike/as_queue.h 184-198 as_queue_pop_tail] *)
Definition as_queue_pop_tail (queue : as_queue) : outcome (option bytes * as_queue) :=
  if as_queue_empty queue then Ret (None, queue)
  else
    let queue := set_q_ends (q_head queue) (uint_sub (q_tail queue) 1) queue in
    p ← as_queue_get queue (q_tail queue);
    item ← arr_slice (q_data queue) p (q_item_size queue);
    Ret (Some item, as_queue_rewind queue).

(** [src: include/aerospike/as_queue.h 203-211 as_queue_incr_total] *)
Definition as_queue_incr_total (queue : as_queue) : bool * as_queue :=
  if q_total queue <? q_capacity queue then (true, set_q_total (uint_add (q_total queue) 1) queue)
  else (false, queue).

(** [src: include/aerospike/as_queue.h 216-220 as_queue_decr_total] *)
Definition as_queue_decr_total (queue : as_queue) : as_queue := set_q_total (uint_sub (q_total queue) 1) queue.

(** *** The items of a queue *)

(** The item with index [n] is [x]. *)
Definition stored (q : as_queue) (n : Z) (x : bytes) : Prop :=
  Z.of_nat (length x) = q_item_size q ∧
  take (Z.to_nat (q_item_size q)) (drop (Z.to_nat (n mod q_capacity q * q_item_size q)) (q_data q)) = x.

Record holds_items (q : as_queue) (items : list bytes) : Prop := {
  hi_capacity : 0 < q_capacity q;
  hi_item : 0 < q_item_size q;
  hi_size : q_capacity q * q_item_size q < 4294967296;
  hi_data : Z.of_nat (length (q_data q)) = q_capacity q * q_item_size q;
  hi_head : 0 ≤ q_head q;
  hi_tail : q_tail q = q_head q + Z.of_nat (length items);
  hi_index : q_tail q < 4294967296;
  hi_fit : Z.of_nat (length items) ≤ q_capacity q;
  hi_items k x : items !! k = Some x → stored q (q_head q + Z.of_nat k) x
}.

(** The queue is for items of [sz] bytes, at most [cap] of them. *)
Definition deque (sz cap : Z) (q : as_queue) (items : list bytes) : Prop :=
  q_item_size q = sz ∧ q_capacity q = cap ∧ holds_items q items.

(** *** What is not in the header *)

Class AsQueuePushes : Type := {
  as_queue_push_limit : as_queue → bytes → outcome (bool * as_queue);
  as_queue_push_head_limit : as_queue → bytes → outcome (bool * as_queue)
}.

(** "Push item to the tail of the queue only if size < capacity", and to the head. *)
Class AsQueueLaws (P : AsQueuePushes) : Prop := {
  push_limit_room sz cap q items x :
    deque sz cap q items → Z.of_nat (length x) = sz → Z.of_nat (length items) < cap →
    ∃ q', as_queue_push_limit q x = Ret (true, q') ∧ deque sz cap q' (items ++ [x]);
  push_limit_full sz cap q items x :
    deque sz cap q items → Z.of_nat (length items) = cap → as_queue_push_limit q x = Ret (false, q);
  push_head_limit_room sz cap q items x :
    deque sz cap q items → Z.of_nat (length x) = sz → Z.of_nat (length items) < cap →
    ∃ q', as_queue_push_head_limit q x = Ret (true, q') ∧ deque sz cap q' (x :: items);
  push_head_limit_full sz cap q items x :
    deque sz cap q items → Z.of_nat (length items) = cap → as_queue_push_head_limit q x = Ret (false, q)
}.

(** *** What the functions do to the items *)

Section items.
Context (sz cap : Z).
Implicit Types (q : as_queue) (items : list bytes) (x : bytes).

Lemma deque_size q items : deque sz cap q items → as_queue_size q = Z.of_nat (length items).
Proof.
  intros (_ & _ & H). unfold as_queue_size. destruct H. rewrite uint_sub_small; lia.
Qed.

Lemma deque_empty q items : deque sz cap q items → as_queue_empty q = bool_decide (items = []).
Proof.
  intros (_ & _ & H). unfold as_queue_empty. destruct H. destruct items as [|x items]; cbn in *.
  - apply Z.eqb_eq. lia.
  - apply Z.eqb_neq. lia.
Qed.

(** An item is where [as_queue_get] says. *)
Lemma stored_read q items n x :
  deque sz cap q items → 0 ≤ n → stored q n x →
  (p ← as_queue_get q n; arr_slice (q_data q) p (q_item_size q)) = Ret x.
Proof.
  intros (_ & _ & H) Hn [Hl Hx]. destruct H. unfold as_queue_get, uint_rem.
  pose proof (Z.mod_pos_bound n (q_capacity q) ltac:(lia)) as Hm.
  rewrite (proj2 (Z.eqb_neq _ _)) by lia. cbn [mbind outcome_bind].
  assert (n mod q_capacity q * q_item_size q + q_item_size q ≤ q_capacity q * q_item_size q) as Hle by nia.
  rewrite uint_mul_small by nia. unfold arr_slice.
  rewrite (proj2 (Z.leb_le 0 _)) by nia. rewrite (proj2 (Z.leb_le 0 (q_item_size q))) by lia.
  rewrite (proj2 (Z.leb_le _ (Z.of_nat (length (q_data q))))) by lia. cbn. by rewrite Hx.
Qed.

(** Fewer items are left. *)
Lemma deque_rewind q items head tail :
  q_item_size q = sz → q_capacity q = cap → holds_items (set_q_ends head tail q) items →
  deque sz cap (as_queue_rewind (set_q_ends head tail q)) items.
Proof.
  intros Hs Hc H. unfold as_queue_rewind. destruct (Z.eqb_spec (q_head (set_q_ends head tail q)) (q_tail (set_q_ends head tail q)))
    as [E|]; [|done]. split; [done|]. split; [done|]. destruct H as [? ? ? ? ? Ht ? ? ?]. rewrite E in Ht.
  assert (items = []) as -> by (destruct items; [done|]; cbn [length] in Ht; lia).
  split; cbn in *; try done; lia.
Qed.

Lemma as_queue_pop_spec q items :
  deque sz cap q items →
  ∃ q', as_queue_pop q = Ret (head items, q') ∧ deque sz cap q' (tail items).
Proof.
  intros Hq. unfold as_queue_pop. rewrite (deque_empty q items) by done. destruct items as [|x items].
  { rewrite bool_decide_eq_true_2 by done. by exists q. }
  rewrite bool_decide_eq_false_2 by done. pose proof Hq as (Hs & Hc & H).
  pose proof (hi_items _ _ H 0 x eq_refl) as Hx. rewrite Z.add_0_r in Hx.
  pose proof (stored_read q (x :: items) (q_head q) x Hq (hi_head _ _ H) Hx) as Hr.
  destruct (as_queue_get q (q_head q)) as [p|]; [|done]. cbn [mbind outcome_bind] in *. rewrite Hr.
  cbn [mbind outcome_bind]. eexists. split; [done|]. apply deque_rewind; [done|done|].
  destruct H as [? ? ? ? ? Ht ? ? Hi]. cbn [length] in *. rewrite uint_add_small by lia. split; cbn; try lia; try done.
  intros k y Hk. specialize (Hi (S k) y Hk). unfold stored in *. cbn.
  by replace (q_head q + 1 + Z.of_nat k) with (q_head q + Z.of_nat (S k)) by lia.
Qed.

Lemma as_queue_pop_tail_spec q items :
  deque sz cap q items →
  ∃ q', as_queue_pop_tail q = Ret (last items, q') ∧ deque sz cap q' (take (length items - 1) items).
Proof.
  intros Hq. unfold as_queue_pop_tail. rewrite (deque_empty q items) by done.
  destruct items as [|x items _] using rev_ind.
  { rewrite bool_decide_eq_true_2 by done. by exists q. }
  rewrite bool_decide_eq_false_2 by (by destruct items). pose proof Hq as (Hs & Hc & H).
  pose proof (hi_items _ _ H (length items) x (list_lookup_middle _ _ _ _ eq_refl)) as Hx.
  pose proof (hi_tail _ _ H) as Ht. rewrite length_app in Ht. cbn [length] in Ht.
  pose proof (hi_head _ _ H). pose proof (hi_index _ _ H).
  assert (uint_sub (q_tail q) 1 = q_head q + Z.of_nat (length items)) as -> by (rewrite uint_sub_small; lia).
  set (q1 := set_q_ends _ _ q).
  assert (deque sz cap q1 items) as Hq1.
  { split; [done|]. split; [done|]. destruct H as [? ? ? ? ? _ ? Hf Hi]. rewrite length_app in Hf. cbn [length] in Hf.
    split; cbn; try done; try lia. intros k y Hk. apply Hi. by apply lookup_app_l_Some. }
  cbn [q_tail q1 set_q_ends]. change (q_data q) with (q_data q1). change (q_item_size q) with (q_item_size q1).
  pose proof (stored_read q1 items (q_head q + Z.of_nat (length items)) x Hq1 ltac:(lia) Hx) as Hr.
  destruct (as_queue_get q1 _) as [p|]; [|done]. cbn [mbind outcome_bind] in *.
  change (q_data (set_q_ends _ _ q)) with (q_data q1). rewrite Hr.
  cbn [mbind outcome_bind]. rewrite last_snoc. eexists. split; [done|].
  rewrite length_app. cbn [length]. rewrite Nat.add_sub, take_app_length. apply deque_rewind; [done|done|]. apply Hq1.
Qed.

Lemma as_queue_inita_deque alloca :
  0 < sz → 0 < cap → sz * cap < 4294967296 → Z.of_nat (length alloca) = cap * sz →
  deque sz cap (as_queue_inita alloca sz cap) [].
Proof. intros. split; [done|]. split; [done|]. split; cbn; try done; try lia. Qed.
End items.

(** *** The queue refines a deque *)

(** What a client does with a queue, and what it sees. *)
Inductive queue_use : Type := QPushTail (x : bytes) | QPushHead (x : bytes) | QPopHead | QPopTail | QSize.
Inductive queue_sees : Type := SawStatus (b : bool) | SawItem (x : option bytes) | SawSize (n : Z).

Definition queue_use_once `{AsQueuePushes} (q : as_queue) (u : queue_use) : outcome (queue_sees * as_queue) :=
  match u with
  | QPushTail x => '(b, q) ← as_queue_push_limit q x; Ret (SawStatus b, q)
  | QPushHead x => '(b, q) ← as_queue_push_head_limit q x; Ret (SawStatus b, q)
  | QPopHead => '(x, q) ← as_queue_pop q; Ret (SawItem x, q)
  | QPopTail => '(x, q) ← as_queue_pop_tail q; Ret (SawItem x, q)
  | QSize => Ret (SawSize (as_queue_size q), q)
  end.

Fixpoint queue_uses `{AsQueuePushes} (q : as_queue) (us : list queue_use) : outcome (list queue_sees * as_queue) :=
  match us with
  | [] => Ret ([], q)
  | u :: us => '(s, q) ← queue_use_once q u; '(ss, q) ← queue_uses q us; Ret (s :: ss, q)
  end.

(** The same, of a list with at most [cap] items. *)
Definition deque_use (cap : Z) (items : list bytes) (u : queue_use) : queue_sees * list bytes :=
  let room := Z.of_nat (length items) <? cap in
  match u with
  | QPushTail x => (SawStatus room, if room then items ++ [x] else items)
  | QPushHead x => (SawStatus room, if room then x :: items else items)
  | QPopHead => (SawItem (head items), tail items)
  | QPopTail => (SawItem (last items), take (length items - 1) items)
  | QSize => (SawSize (Z.of_nat (length items)), items)
  end.

Fixpoint deque_uses (cap : Z) (items : list bytes) (us : list queue_use) : list queue_sees * list bytes :=
  match us with
  | [] => ([], items)
  | u :: us => let '(s, items) := deque_use cap items u in let '(ss, items) := deque_uses cap items us in (s :: ss, items)
  end.

Definition item_of_size (sz : Z) (u : queue_use) : Prop :=
  match u with QPushTail x | QPushHead x => Z.of_nat (length x) = sz | _ => True end.

Section refinement.
Context `{P : AsQueuePushes} `{!AsQueueLaws P} (sz cap : Z).

Lemma queue_use_refines q items u :
  deque sz cap q items → item_of_size sz u →
  ∃ q', queue_use_once q u = Ret ((deque_use cap items u).1, q') ∧ deque sz cap q' (deque_use cap items u).2.
Proof.
  intros Hq Hu. pose proof Hq as (_ & Hc & H). pose proof (hi_fit _ _ H) as Hf. rewrite Hc in Hf.
  destruct u as [x|x| | |]; cbn [queue_use_once deque_use fst snd].
  - destruct (Z.ltb_spec (Z.of_nat (length items)) cap).
    + destruct (push_limit_room sz cap q items x) as (q' & -> & Hq'); [done|done|lia|]. by exists q'.
    + rewrite (push_limit_full sz cap q items x) by (done || lia). by exists q.
  - destruct (Z.ltb_spec (Z.of_nat (length items)) cap).
    + destruct (push_head_limit_room sz cap q items x) as (q' & -> & Hq'); [done|done|lia|]. by exists q'.
    + rewrite (push_head_limit_full sz cap q items x) by (done || lia). by exists q.
  - destruct (as_queue_pop_spec sz cap q items Hq) as (q' & -> & Hq'). by exists q'.
  - destruct (as_queue_pop_tail_spec sz cap q items Hq) as (q' & -> & Hq'). by exists q'.
  - exists q. by rewrite (deque_size sz cap q items Hq).
Qed.

Lemma queue_uses_refine q items us :
  deque sz cap q items → Forall (item_of_size sz) us →
  ∃ q', queue_uses q us = Ret ((deque_uses cap items us).1, q') ∧ deque sz cap q' (deque_uses cap items us).2.
Proof.
  revert q items. induction us as [|u us IH]; intros q items Hq Hus; [by exists q|].
  inversion Hus as [|? ? Hu Hus']; subst. cbn [queue_uses deque_uses].
  destruct (queue_use_refines q items u Hq Hu) as (q1 & -> & Hq1). destruct (deque_use cap items u) as [s items1].
  cbn [fst snd mbind outcome_bind] in *. destruct (IH q1 items1 Hq1 Hus') as (q2 & -> & Hq2). exists q2.
  by destruct (deque_uses cap items1 us).
Qed.
End refinement.

(** *** Pushes that have the laws: all items are copied to the front *)

Definition items_of (q : as_queue) : list bytes :=
  (λ k, take (Z.to_nat (q_item_size q))
    (drop (Z.to_nat ((q_head q + Z.of_nat k) mod q_capacity q * q_item_size q)) (q_data q)))
  <$> seq 0 (Z.to_nat (as_queue_size q)).

Definition queue_of (q : as_queue) (items : list bytes) : as_queue :=
  let used := concat items in
  MkQueue (used ++ drop (length used) (q_data q)) (q_capacity q) 0 (Z.of_nat (length items))
    (q_item_size q) (q_total q) (q_flags q).

Definition copying_pushes : AsQueuePushes := {|
  as_queue_push_limit q x :=
    Ret (if as_queue_size q <? q_capacity q then (true, queue_of q (items_of q ++ [x])) else (false, q));
  as_queue_push_head_limit q x :=
    Ret (if as_queue_size q <? q_capacity q then (true, queue_of q (x :: items_of q)) else (false, q))
|}.

Lemma items_of_deque sz cap q items : deque sz cap q items → items_of q = items.
Proof.
  intros Hq. unfold items_of. rewrite (deque_size sz cap q items Hq), Nat2Z.id. destruct Hq as (_ & _ & H).
  apply list_eq. intros k. rewrite list_lookup_fmap. destruct (items !! k) as [x|] eqn:Hx.
  - rewrite lookup_seq_lt by (by eapply lookup_lt_Some). cbn. by destruct (hi_items _ _ H k x Hx) as [_ ->].
  - rewrite lookup_seq_ge; [done|]. by apply lookup_ge_None.
Qed.

(** An item of a list of items of the same length, in their bytes. *)
Lemma concat_slot (n : nat) (items : list bytes) (more : bytes) k x :
  Forall (λ x, length x = n) items → items !! k = Some x → take n (drop (k * n) (concat items ++ more)) = x.
Proof.
  revert k. induction items as [|y items IH]; intros k Hl Hx; [done|]. inversion Hl as [|? ? Hy Hl']; subst.
  cbn [concat]. rewrite <- app_assoc. destruct k as [|k].
  - injection Hx as <-. cbn [Nat.mul]. by rewrite drop_0, take_app_length.
  - rewrite drop_app_ge by lia. replace (S k * length y - length y)%nat with (k * length y)%nat by lia. by apply IH.
Qed.

Lemma concat_length (n : nat) (items : list bytes) :
  Forall (λ x, length x = n) items → length (concat items) = (length items * n)%nat.
Proof. induction 1 as [|x items Hx _ IH]; cbn; [done|]. rewrite length_app. lia. Qed.

Lemma queue_of_deque sz cap q items items' :
  deque sz cap q items → Forall (λ x, Z.of_nat (length x) = sz) items' → Z.of_nat (length items') ≤ cap →
  deque sz cap (queue_of q items') items'.
Proof.
  intros (Hs & Hc & [? ? ? Hd ? ? ? ? _]) Hl Hf. split; [done|]. split; [done|].
  assert (Forall (λ x : bytes, length x = Z.to_nat sz) items') as Hl' by (eapply Forall_impl; [exact Hl|]; cbn; lia).
  pose proof (concat_length _ _ Hl') as Hcl.
  assert (Z.of_nat (length (concat items')) = Z.of_nat (length items') * sz) as Ez by (rewrite Hcl; nia).
  split; cbn; try done; try lia.
  - rewrite length_app, length_drop. nia.
  - nia.
  - intros k x Hx. pose proof (lookup_lt_Some _ _ _ Hx). pose proof Hl as Hxl. eapply Forall_lookup in Hxl; [|exact Hx].
    split; [cbn in *; lia|]. cbn. rewrite Z.mod_small by lia.
    rewrite Hs. replace (Z.to_nat ((0 + Z.of_nat k) * sz)) with (k * Z.to_nat sz)%nat by nia. by apply concat_slot.
Qed.

Lemma deque_lengths sz cap q items : deque sz cap q items → Forall (λ x, Z.of_nat (length x) = sz) items.
Proof.
  intros (Hs & _ & H). apply Forall_lookup. intros k x Hx. destruct (hi_items _ _ H k x Hx) as [Hl _]. lia.
Qed.

#[export] Instance copying_laws : AsQueueLaws copying_pushes.
Proof.
  split; intros sz cap q items x Hq; cbn; rewrite (deque_size sz cap q items Hq), (items_of_deque sz cap q items Hq);
    pose proof Hq as (_ & -> & _); intros; pose proof (deque_lengths sz _ q items Hq).
  1,3: rewrite (proj2 (Z.ltb_lt _ _)) by done; eexists; split; [done|]; eapply queue_of_deque; [exact Hq| |].
  - apply Forall_app. split; [done|]. by constructor.
  - rewrite length_app. cbn. lia.
  - by constructor.
  - cbn. lia.
  - by rewrite (proj2 (Z.ltb_ge _ _)) by lia.
  - by rewrite (proj2 (Z.ltb_ge _ _)) by lia.
Qed.

(** C33 (refinement). A queue that [as_queue_inita] made, under pops at both ends and under pushes that do what the
    comments of the header promise, is a list of at most [capacity] items: every pop gives the item at its end of
    the list, or none when that is empty, [as_queue_size] is the length, also after the indices went round the
    array, and no access is out of bounds. *)
Theorem as_queue_refines_deque (P : AsQueuePushes) (L : AsQueueLaws P) (sz cap : Z) (alloca : bytes) (us : list queue_use) :
  0 < sz → 0 < cap → sz * cap < 4294967296 → Z.of_nat (length alloca) = cap * sz → Forall (item_of_size sz) us →
  ∃ q', queue_uses (as_queue_inita alloca sz cap) us = Ret ((deque_uses cap [] us).1, q') ∧
    deque sz cap q' (deque_uses cap [] us).2.
Proof. intros. apply queue_uses_refine; [|done]. by apply as_queue_inita_deque. Qed.

Lemma as_queue_refines_deque_witness :
  let us := [QPushTail [1; 2]; QPushHead [3; 4]; QPushTail [5; 6]; QPushTail [7; 8]; QPopHead; QPopTail; QSize; QPopTail; QPopHead] in
  ∃ q', queue_uses (H := copying_pushes) (as_queue_inita [9; 9; 9; 9; 9; 9] 2 3) us =
    Ret ([SawStatus true; SawStatus true; SawStatus true; SawStatus false; SawItem (Some [3; 4]); SawItem (Some [5; 6]);
          SawSize 1; SawItem (Some [1; 2]); SawItem None], q') ∧ deque 2 3 q' [].
Proof.
  apply (as_queue_refines_deque copying_pushes copying_laws 2 3 [9; 9; 9; 9; 9; 9]); [lia|lia|lia|done|].
  by repeat constructor.
Defined.

(** ** as_vector.h *)

(** [src: include/aerospike/as_vector.h 34-59 as_vector] *)
Record as_vector : Type := MkVector { v_list : bytes; v_capacity : Z; v_size : Z; v_item_size : Z; v_flags : Z }.

Definition set_v_list (l : bytes) (v : as_vector) : as_vector :=
  MkVector l (v_capacity v) (v_size v) (v_item_size v) (v_flags v).
Definition set_v_size (n : Z) (v : as_vector) : as_vector :=
  MkVector (v_list v) (v_capacity v) n (v_item_size v) (v_flags v).

(** [src: include/aerospike/as_vector.h 70-75 as_vector_inita] *)
Definition as_vector_inita (alloca : bytes) (item_size capacity : Z) : as_vector := MkVector alloca capacity 0 item_size 0.

(** [src: include/aerospike/as_vector.h 102-106 as_vector_clear] *)
Definition as_vector_clear (vector : as_vector) : as_vector := set_v_size 0 vector.

(** The index of the item's first byte in [list].
    [src: include/aerospike/as_vector.h 111-115 as_vector_get] *)
Definition as_vector_get (vector : as_vector) (index : Z) : Z := uint_mul (v_item_size vector) index.

(** The pointer that is the item: 8 bytes, the least significant first.
    [src: include/aerospike/as_vector.h 120-124 as_vector_get_ptr] *)
Definition as_vector_get_ptr (vector : as_vector) (index : Z) : outcome Z :=
  p ← arr_slice (v_list vector) (uint_mul (v_item_size vector) index) 8; Ret (le_value p).

(** [as_vector_increase_capacity], of which the header has the prototype. *)
Class AsVectorGrows : Type := as_vector_increase_capacity : as_vector → outcome as_vector.

(** "Double vector capacity": the items stay. *)
Class AsVectorLaws (G : AsVectorGrows) : Prop :=
  vector_doubles v : 0 ≤ v_capacity v → 0 ≤ v_item_size v →
    Z.of_nat (length (v_list v)) = v_capacity v * v_item_size v → 2 * (v_capacity v * v_item_size v) < 4294967296 →
    ∃ more, Z.of_nat (length more) = v_capacity v * v_item_size v ∧
      as_vector_increase_capacity v =
        Ret (MkVector (v_list v ++ more) (2 * v_capacity v) (v_size v) (v_item_size v) (v_flags v)).

Section vector.
Context `{G : AsVectorGrows}.

(** [src: include/aerospike/as_vector.h 135-139 as_vector_set] *)
Definition as_vector_set (vector : as_vector) (index : Z) (value : bytes) : outcome as_vector :=
  x ← arr_slice value 0 (v_item_size vector);
  l ← arr_blit (v_list vector) (uint_mul index (v_item_size vector)) x;
  Ret (set_v_list l vector).

(** [src: include/aerospike/as_vector.h 144-152 as_vector_append] *)
Definition as_vector_append (vector : as_vector) (value : bytes) : outcome as_vector :=
  vector ← (if v_capacity vector <=? v_size vector then as_vector_increase_capacity vector else Ret vector);
  x ← arr_slice value 0 (v_item_size vector);
  l ← arr_blit (v_list vector) (uint_mul (v_size vector) (v_item_size vector)) x;
  Ret (set_v_size (uint_add (v_size vector) 1) (set_v_list l vector)).

(** Where the item begins, and the vector after it.
    [src: include/aerospike/as_vector.h 170-180 as_vector_reserve] *)
Definition as_vector_reserve (vector : as_vector) : outcome (Z * as_vector) :=
  vector ← (if v_capacity vector <=? v_size vector then as_vector_increase_capacity vector else Ret vector);
  let item := uint_mul (v_size vector) (v_item_size vector) in
  l ← arr_blit (v_list vector) item (replicate (Z.to_nat (v_item_size vector)) 0);
  Ret (item, set_v_size (uint_add (v_size vector) 1) (set_v_list l vector)).

(** *** The items of a vector *)

Record vector_of (sz : Z) (v : as_vector) (items : list bytes) : Prop := {
  vi_item : v_item_size v = sz ∧ 0 < sz;
  vi_capacity : 0 < v_capacity v ∧ v_capacity v * sz < 4294967296;
  vi_length : Z.of_nat (length (v_list v)) = v_capacity v * sz;
  vi_size : v_size v = Z.of_nat (length items);
  vi_fit : v_size v ≤ v_capacity v;
  vi_sizes : Forall (λ x : bytes, Z.of_nat (length x) = sz) items;
  vi_items : take (length (concat items)) (v_list v) = concat items
}.

Lemma items_bytes sz (items : list bytes) :
  0 < sz → Forall (λ x : bytes, Z.of_nat (length x) = sz) items → Z.of_nat (length (concat items)) = Z.of_nat (length items) * sz.
Proof using.
  intros Hs Hl. rewrite (concat_length (Z.to_nat sz)); [nia|]. eapply Forall_impl; [exact Hl|]. cbn. lia.
Qed.

(** A full vector makes room. *)
Lemma vector_room `{!AsVectorLaws G} sz v items :
  vector_of sz v items → 2 * (v_capacity v * sz) < 4294967296 →
  ∃ v', (if v_capacity v <=? v_size v then as_vector_increase_capacity v else Ret v) = Ret v' ∧
    vector_of sz v' items ∧ v_size v' < v_capacity v' ∧ (v_capacity v' = v_capacity v ∨ v_capacity v' = 2 * v_size v).
Proof using.
  intros Hv Hc. pose proof (vi_capacity _ _ _ Hv). destruct (Z.leb_spec (v_capacity v) (v_size v)); [|exists v; split; [done|]; split; [done|lia]].
  destruct Hv as [[Hi Hs] [? ?] Hl Hn Hf Hx Ht].
  destruct (vector_doubles v) as (more & Hm & ->); [lia|lia|by rewrite Hi|by rewrite Hi|].
  eexists. split; [done|]. pose proof (items_bytes sz items Hs Hx) as Hb. rewrite Hi in Hm.
  split; [|cbn; lia]. split; cbn; try done; try lia.
  - rewrite length_app. lia.
  - rewrite take_app_le; [done|]. nia.
Qed.

(** The bytes of an item, stored behind the items. *)
Lemma vector_store sz v items x :
  vector_of sz v items → v_size v < v_capacity v → Z.of_nat (length x) = sz →
  ∃ l, arr_blit (v_list v) (uint_mul (v_size v) (v_item_size v)) x = Ret l ∧
    vector_of sz (set_v_size (uint_add (v_size v) 1) (set_v_list l v)) (items ++ [x]).
Proof using.
  intros [[Hi Hs] [? ?] Hl Hn Hf Hx Ht] Hlt Hlx. pose proof (items_bytes sz items Hs Hx) as Hb.
  assert (v_size v * sz + sz ≤ v_capacity v * sz) by nia.
  rewrite Hi, uint_mul_small by nia. rewrite Hn, <- Hb. rewrite arr_blit_ok by nia. eexists. split; [done|].
  rewrite uint_add_small by nia.
  split; cbn; try done; try lia.
  - rewrite length_blit by nia. done.
  - rewrite length_app. cbn. lia.
  - apply Forall_app. split; [done|]. by constructor.
  - rewrite concat_app, length_app. cbn [concat]. rewrite app_nil_r. unfold blit. rewrite app_assoc, Ht.
    rewrite <- length_app. by rewrite take_app_length.
Qed.

Lemma as_vector_append_spec `{!AsVectorLaws G} sz v items x :
  vector_of sz v items → 2 * (v_capacity v * sz) < 4294967296 → Z.of_nat (length x) = sz →
  ∃ v', as_vector_append v x = Ret v' ∧ vector_of sz v' (items ++ [x])
    ∧ (v_capacity v' = v_capacity v ∨ v_capacity v' = 2 * v_size v).
Proof using.
  intros Hv Hc Hx. unfold as_vector_append. destruct (vector_room sz v items Hv Hc) as (v1 & -> & Hv1 & Hlt & Hcap).
  cbn [mbind outcome_bind]. destruct (vi_item _ _ _ Hv1) as [Hi _].
  assert (arr_slice x 0 (v_item_size v1) = Ret x) as ->.
  { rewrite Hi. replace sz with (Z.of_nat (length x)) by done. rewrite (arr_slice_ok x 0) by lia.
    by rewrite drop_0, take_ge. }
  cbn [mbind outcome_bind]. destruct (vector_store sz v1 items x Hv1 Hlt Hx) as (l & -> & Hv2). by eexists.
Qed.

Lemma as_vector_reserve_spec `{!AsVectorLaws G} sz v items :
  vector_of sz v items → 2 * (v_capacity v * sz) < 4294967296 →
  ∃ v', as_vector_reserve v = Ret (as_vector_get v' (Z.of_nat (length items)), v') ∧
    vector_of sz v' (items ++ [replicate (Z.to_nat sz) 0]).
Proof using.
  intros Hv Hc. unfold as_vector_reserve. destruct (vector_room sz v items Hv Hc) as (v1 & -> & Hv1 & Hlt & _).
  pose proof (vi_item _ _ _ Hv1) as [Hi Hs].
  destruct (vector_store sz v1 items (replicate (Z.to_nat (v_item_size v1)) 0) Hv1 Hlt) as (l & E & Hv2).
  { rewrite length_replicate. lia. }
  cbn [mbind outcome_bind]. rewrite E. rewrite Hi in Hv2. eexists. split; [|exact Hv2].
  unfold as_vector_get. cbn. rewrite (vi_size _ _ _ Hv1). unfold uint_mul. by rewrite Z.mul_comm.
Qed.
(** An item is read where it is. *)
Lemma as_vector_get_spec sz v items k x :
  vector_of sz v items → items !! k = Some x → arr_slice (v_list v) (as_vector_get v (Z.of_nat k)) sz = Ret x.
Proof using.
  intros [[Hi Hs] [? Hc] Hl Hn Hf Hx Ht] Hk. pose proof (lookup_lt_Some _ _ _ Hk).
  unfold as_vector_get. rewrite Hi, uint_mul_small by nia.
  replace (sz * Z.of_nat k) with (Z.of_nat (k * Z.to_nat sz)) by nia. rewrite <- (Z2Nat.id sz) at 2 by lia.
  rewrite arr_slice_ok by nia. f_equal.
  rewrite <- (take_drop (length (concat items)) (v_list v)), Ht. apply concat_slot; [|done].
  eapply Forall_impl; [exact Hx|]. cbn. lia.
Qed.

Fixpoint as_vector_appends (v : as_vector) (xs : list bytes) : outcome as_vector :=
  match xs with [] => Ret v | x :: xs => v ← as_vector_append v x; as_vector_appends v xs end.

Lemma as_vector_appends_spec `{!AsVectorLaws G} sz bound v items xs :
  vector_of sz v items → Forall (λ x : bytes, Z.of_nat (length x) = sz) xs →
  v_capacity v ≤ bound → 2 * Z.of_nat (length (items ++ xs)) ≤ bound → 2 * (bound * sz) < 4294967296 →
  ∃ v', as_vector_appends v xs = Ret v' ∧ vector_of sz v' (items ++ xs).
Proof using.
  revert v items. induction xs as [|x xs IH]; intros v items Hv Hxs Hc Hn Hb; cbn [as_vector_appends].
  - exists v. by rewrite app_nil_r.
  - inversion Hxs as [|? ? Hx Hxs']; subst. pose proof (vi_item _ _ _ Hv) as [_ Hs].
    destruct (as_vector_append_spec _ v items x Hv) as (v1 & -> & Hv1 & Hcap); [nia|done|]. cbn [mbind outcome_bind].
    rewrite length_app in Hn. cbn [length] in Hn.
    destruct (IH v1 (items ++ [x])) as (v2 & E & Hv2); [done|done| | |done|].
    + pose proof (vi_size _ _ _ Hv). lia.
    + rewrite !length_app. cbn. lia.
    + exists v2. split; [done|]. by rewrite <- app_assoc in Hv2.
Qed.
End vector.

(** Growing that has the law: zeros behind. *)
Definition zero_grows : AsVectorGrows := λ v,
  Ret (MkVector (v_list v ++ replicate (Z.to_nat (v_capacity v * v_item_size v)) 0) (2 * v_capacity v) (v_size v)
    (v_item_size v) (v_flags v)).

Lemma zero_laws : AsVectorLaws zero_grows.
Proof. intros v ? ? ? ?. eexists. split; [|done]. rewrite length_replicate. nia. Qed.

(** A vector that [as_vector_inita] made, to which items of [item_size] bytes are appended, grows when
    it is full and gives at every index that was appended the item's bytes, as long as twice its bytes fit
    32 bits; no access is out of bounds. *)
Theorem as_vector_reads_back (G : AsVectorGrows) (L : AsVectorLaws G) (sz cap : Z) (alloca : bytes) (items : list bytes) :
  0 < sz → 0 < cap → Z.of_nat (length alloca) = cap * sz → Forall (λ x : bytes, Z.of_nat (length x) = sz) items →
  2 * (Z.max cap (2 * Z.of_nat (length items)) * sz) < 4294967296 →
  ∃ v, as_vector_appends (as_vector_inita alloca sz cap) items = Ret v ∧ v_size v = Z.of_nat (length items) ∧
    ∀ k x, items !! k = Some x → arr_slice (v_list v) (as_vector_get v (Z.of_nat k)) sz = Ret x.
Proof.
  intros Hs Hc Hl Hx Hb.
  destruct (as_vector_appends_spec sz (Z.max cap (2 * Z.of_nat (length items))) (as_vector_inita alloca sz cap) [] items)
    as (v & E & Hv); [|done|cbn; lia|cbn; lia|done|].
  - split; cbn; try done; try lia. split; [done|nia].
  - exists v. split; [done|]. split; [apply (vi_size _ _ _ Hv)|]. intros k x Hk. by apply (as_vector_get_spec _ _ items).
Qed.

Lemma as_vector_reads_back_witness :
  ∃ v, as_vector_appends (G := zero_grows) (as_vector_inita [7; 7] 2 1) [[1; 2]; [3; 4]; [5; 6]] = Ret v ∧ v_size v = 3 ∧
    ∀ k x, [[1; 2]; [3; 4]; [5; 6]] !! k = Some x → arr_slice (v_list v) (as_vector_get v (Z.of_nat k)) 2 = Ret x.
Proof.
  apply (as_vector_reads_back zero_grows zero_laws 2 1); [lia|lia|done|by repeat constructor|cbn; lia].
Defined.
