(* ===== verification/AsPool.v ===== *)
(** AsPool: the connection pools of the Aerospike client, over the queue of AsQueue and the atomic operations of
    Concurrency Kit: include/aerospike/as_conn_pool.h, for threads that share a pool under a mutex but count its
    connections without it, and the pools of an event loop in as_event_internal.h, for one thread. *)

From Stdlib Require Import ZArith Lia.
From stdpp Require Import base list.
From S2P Require Import Prelude Memory Concurrent CkPr AsQueue.

#[local] Open Scope Z_scope.

(** ** as_conn_pool.h *)

Definition q_total_loc : loc as_queue Z := MkLoc q_total (λ v q, set_q_total v q).
Definition q_capacity_loc : loc as_queue Z :=
  MkLoc q_capacity (λ v q, MkQueue (q_data q) v (q_head q) (q_tail q) (q_item_size q) (q_total q) (q_flags q)).

Section pool.
Context {S : Type} (queue : loc S as_queue).
Context `{AsQueuePushes} (pthread_mutex_lock pthread_mutex_unlock : prog S unit).

(** An operation of the queue, while the mutex is held. *)
Definition on_queue {A} (f : as_queue → outcome (A * as_queue)) : prog S A :=
  atomic (λ s, '(a, q) ← f (loc_get queue s); Ret (a, loc_set queue q s)).

Definition under_lock {A} (f : as_queue → outcome (A * as_queue)) : prog S A :=
  pthread_mutex_lock;; status ← on_queue f; pthread_mutex_unlock;; mret status.

(** The connection, when the result is [true].
    [src: include/aerospike/as_conn_pool.h 67-74 as_conn_pool_pop_head] *)
Definition as_conn_pool_pop_head : prog S (option bytes) := under_lock as_queue_pop.

(** [src: include/aerospike/as_conn_pool.h 80-87 as_conn_pool_pop_tail] *)
Definition as_conn_pool_pop_tail : prog S (option bytes) := under_lock as_queue_pop_tail.

(** [src: include/aerospike/as_conn_pool.h 93-100 as_conn_pool_push_head] *)
Definition as_conn_pool_push_head (sock : bytes) : prog S bool :=
  under_lock (λ q, as_queue_push_head_limit q sock).

(** [src: include/aerospike/as_conn_pool.h 106-113 as_conn_pool_push_tail] *)
Definition as_conn_pool_push_tail (sock : bytes) : prog S bool := under_lock (λ q, as_queue_push_limit q sock).

(** [src: include/aerospike/as_conn_pool.h 120-124 as_conn_pool_incr] *)
Definition as_conn_pool_incr : prog S bool :=
  v ← ck_pr_faa 32 (queue →' q_total_loc) 1;
  capacity ← ck_pr_load (queue →' q_capacity_loc);
  mret (v <? capacity).

(** [src: include/aerospike/as_conn_pool.h 130-134 as_conn_pool_decr] *)
Definition as_conn_pool_decr : prog S unit := ck_pr_dec 32 (queue →' q_total_loc).

(** The connections are closed by [as_socket_close], which is not in the headers; what
    [as_queue_destroy] does is left out.
    [src: include/aerospike/as_conn_pool.h 140-154 as_conn_pool_destroy] *)
Definition as_conn_pool_destroy (as_socket_close : bytes → prog S unit) : prog S unit :=
  pthread_mutex_lock;;
  loop (λ _ : unit,
    sock ← on_queue as_queue_pop;
    match sock with
    | Some sock => as_socket_close sock;; mret (inl tt)
    | None => mret (inr tt)
    end) tt;;
  pthread_mutex_unlock.
End pool.

(** ** The pools of an event loop, as_event_internal.h *)

(** [src: include/aerospike/as_node.h 166-191 as_async_conn_pool] *)
Record as_async_conn_pool : Type := MkAsyncPool { ap_queue : as_queue; ap_limit : Z; ap_opened : Z; ap_closed : Z }.

Definition set_ap_queue (q : as_queue) (p : as_async_conn_pool) : as_async_conn_pool :=
  MkAsyncPool q (ap_limit p) (ap_opened p) (ap_closed p).

(** [src: include/aerospike/as_event_internal.h 704-712 as_async_conn_pool_incr_total] *)
Definition as_async_conn_pool_incr_total (pool : as_async_conn_pool) : bool * as_async_conn_pool :=
  if ap_limit pool <=? q_total (ap_queue pool) then (false, pool)
  else (true, set_ap_queue (set_q_total (uint_add (q_total (ap_queue pool)) 1) (ap_queue pool)) pool).

(** What the queue has of a connection is its address.
    [src: include/aerospike/as_event_internal.h 714-721 as_async_conn_pool_push_head] *)
Definition as_async_conn_pool_push_head (as_queue_push_head : as_queue → bytes → outcome (bool * as_queue))
    (pool : as_async_conn_pool) (conn : bytes) : outcome (bool * as_async_conn_pool) :=
  if ap_limit pool <? q_total (ap_queue pool) then Ret (false, pool)
  else '(b, q) ← as_queue_push_head (ap_queue pool) conn; Ret (b, set_ap_queue q pool).

(** [src: include/aerospike/as_event_internal.h 723-730 as_async_conn_pool_push] *)
Definition as_async_conn_pool_push (as_queue_push : as_queue → bytes → outcome (bool * as_queue))
    (pool : as_async_conn_pool) (conn : bytes) : outcome (bool * as_async_conn_pool) :=
  if ap_limit pool <? q_total (ap_queue pool) then Ret (false, pool)
  else '(b, q) ← as_queue_push (ap_queue pool) conn; Ret (b, set_ap_queue q pool).

(** The connection itself is closed by code that is not in the headers.
    [src: include/aerospike/as_event_internal.h 732-738 as_event_release_connection] *)
Definition as_event_release_connection (pool : as_async_conn_pool) : as_async_conn_pool :=
  let q := as_queue_decr_total (ap_queue pool) in
  MkAsyncPool q (ap_limit pool) (ap_opened pool) (uint_add (ap_closed pool) 1).

(** ** Threads that count their connections *)

(** A connection counted in, out, and one that was over the limit. *)
Inductive pool_mark : Type := PGot (i : nat) | PBack (i : nat) | POver (i : nat).

#[export] Instance pool_mark_eq_dec : EqDecision pool_mark.
Proof. solve_decision. Defined.

Definition pool_memory : Type := as_queue * list pool_mark.
Definition the_pool : loc pool_memory as_queue := MkLoc fst (λ (q : as_queue) (m : pool_memory), (q, m.2)).
Definition pool_log (k : pool_mark) : prog pool_memory unit := atomic (λ m : pool_memory, Ret (tt, (m.1, m.2 ++ [k]))).

(** A thread that [n] times counts a connection in, if it may, and out again; when it may not, it takes the count
    back. *)
Fixpoint pool_client (i : nat) (n : nat) : prog pool_memory unit :=
  match n with
  | O => mret tt
  | S n =>
      b ← as_conn_pool_incr the_pool;
      (if (b : bool) then pool_log (PGot i);; stall;; pool_log (PBack i) else pool_log (POver i));;
      as_conn_pool_decr the_pool;;
      pool_client i n
  end.

Definition pool_clients (ns : list nat) : list (prog pool_memory unit) := imap pool_client ns.

(** How many connections there are after the log. *)
Fixpoint pool_open (tr : list pool_mark) : Z :=
  match tr with
  | [] => 0
  | PGot _ :: tr => 1 + pool_open tr
  | PBack _ :: tr => pool_open tr - 1
  | POver _ :: tr => pool_open tr
  end.

Lemma pool_open_app tr tr' : pool_open (tr ++ tr') = pool_open tr + pool_open tr'.
Proof. induction tr as [|[] tr IH]; cbn [app pool_open]; lia. Qed.

(** A thread has counted nothing; it counted, and has told, a connection; it counted one over the limit. *)
Inductive pool_part : Type := PNone | PMay | PHas | PMayNot.

Definition counted (g : pool_part) : bool := match g with PNone => false | _ => true end.
Definition admitted (g : pool_part) : bool := match g with PMay | PHas => true | _ => false end.
Definition has (g : pool_part) : bool := match g with PHas => true | _ => false end.

Section limit.
Context (capacity : Z) (n : nat) (Hn : Z.of_nat n < 4294967296).

Definition pool_inv (s : pool_memory) (ls : list pool_part) : Prop :=
  length ls = n ∧ q_capacity s.1 = capacity ∧ q_total s.1 = tally counted ls ∧ tally admitted ls ≤ capacity
  ∧ pool_open s.2 = tally has ls ∧ (Z.of_nat n ≤ capacity → ∀ i, (POver i ∉ s.2) ∧ ls !! i ≠ Some PMayNot).

Abbreviation pool_wp := (wp pool_inv).

(** The thread [i] goes on from [g] to [g']. *)
Lemma pool_move q q' tr tr' ls i g g' :
  pool_inv (q, tr) ls → ls !! i = Some g →
  q_capacity q' = q_capacity q →
  q_total q' = q_total q - Z.b2z (counted g) + Z.b2z (counted g') →
  tally admitted ls - Z.b2z (admitted g) + Z.b2z (admitted g') ≤ capacity →
  pool_open tr' = pool_open tr - Z.b2z (has g) + Z.b2z (has g') →
  (Z.of_nat n ≤ capacity → ∀ j, POver j ∈ tr' → POver j ∈ tr) → (Z.of_nat n ≤ capacity → g' ≠ PMayNot) →
  pool_inv (q', tr') (<[i := g']> ls).
Proof using.
  intros (Hl & Hc & Ht & Ha & Ho & Hv) Hi Hc' Ht' Ha' Ho' Hv' Hg'. cbn in *. split; cbn; [by rewrite length_insert|].
  rewrite (tally_insert counted _ _ _ g' Hi), (tally_insert admitted _ _ _ g' Hi), (tally_insert has _ _ _ g' Hi).
  split; [congruence|]. split; [lia|]. split; [lia|]. split; [lia|]. intros Hle j. destruct (Hv Hle j) as [Hv1 Hv2].
  split; [intros Hj; by apply Hv1, Hv'|]. destruct (decide (i = j)) as [<-|].
  - rewrite list_lookup_insert_eq by (by eapply lookup_lt_Some). intros [= ->]. by apply Hg'.
  - by rewrite list_lookup_insert_ne.
Qed.

Lemma pool_incr_wp m i :
  pool_wp m (as_conn_pool_incr the_pool) i (λ b g, g = if b then PMay else PMayNot) PNone.
Proof using Hn.
  apply wp_bind, wp_atomic. intros [q tr] ls HI Hi. pose proof HI as (Hl & Hc & Ht & Ha & Ho & Hv). cbn in *.
  assert (tally counted ls < Z.of_nat n) as Hlt by (rewrite <- Hl; by eapply tally_other).
  pose proof (tally_range counted ls) as Hr.
  pose proof (tally_le admitted counted ls ltac:(by intros [])) as Hac.
  assert (uwrap 32 (q_total q + 1) = q_total q + 1) as -> by (apply u32_small; lia).
  set (g' := if q_total q <? capacity then PMay else PMayNot).
  exists (q_total q), (set_q_total (q_total q + 1) q, tr), g'. split; [done|]. split.
  - apply (pool_move q _ tr tr ls i PNone); try done; unfold g'; destruct (Z.ltb_spec (q_total q) capacity); cbn; try done; lia.
  - apply wp_bind, wp_atomic. clear -capacity. intros [q2 tr2] ls2 HI2 Hi2. pose proof HI2 as (_ & Hc2 & _). cbn in Hc2.
    exists capacity, (q2, tr2), g'. split; [cbn; by rewrite Hc2|]. split; [by rewrite list_insert_id|].
    apply wp_ret. unfold g'. by destruct (_ <? _).
Qed.

Lemma pool_decr_wp m i g : g = PMay ∨ g = PMayNot → pool_wp m (as_conn_pool_decr the_pool) i (λ _ g, g = PNone) g.
Proof using Hn.
  intros Hg. apply wp_atomic. intros [q tr] ls HI Hi. pose proof HI as (Hl & Hc & Ht & Ha & Ho & Hv). cbn in *.
  pose proof (tally_pos counted ls i g Hi ltac:(by destruct Hg as [-> | ->])) as Hpos.
  pose proof (tally_range counted ls) as Hr.
  assert (uwrap 32 (q_total q - 1) = q_total q - 1) as -> by (apply u32_small; lia).
  exists tt, (set_q_total (q_total q - 1) q, tr), PNone. split; [done|]. split; [|done].
  apply (pool_move q _ tr tr ls i g); try done; destruct Hg as [-> | ->]; cbn; lia.
Qed.

Lemma pool_log_wp m i k g g' :
  pool_open [k] = Z.b2z (has g') - Z.b2z (has g) → counted g' = counted g → admitted g' = admitted g →
  (k = POver i → g = PMayNot ∧ g' = PMayNot) → (∀ j, k = POver j → j = i) →
  pool_wp m (pool_log k) i (λ _ l, l = g') g.
Proof using.
  intros Ho Hc Ha Hk Hj. apply wp_atomic. intros [q tr] ls HI Hi. pose proof HI as (_ & _ & _ & Hadm & _ & Hv).
  exists tt, (q, tr ++ [k]), g'. split; [done|]. split; [|done].
  apply (pool_move q q tr _ ls i g); try done.
  - rewrite Hc. lia.
  - rewrite Ha. lia.
  - rewrite pool_open_app. lia.
  - intros Hle j [?|E%list_elem_of_singleton]%elem_of_app; [done|]. exfalso.
    pose proof (Hj j (eq_sym E)) as ->. destruct (Hk (eq_sym E)) as [-> _]. by destruct (Hv Hle i) as [_ ?].
  - intros Hle ->. destruct g; cbn in *; try done. by destruct (Hv Hle i) as [_ ?].
Qed.

Lemma pool_client_wp m i k : pool_wp m (pool_client i k) i (λ _ g, g = PNone) PNone.
Proof using Hn.
  revert m. induction k as [|k IH]; intros m; cbn [pool_client]; [by apply wp_ret|].
  apply wp_bind. eapply wp_mono; [apply pool_incr_wp|]. intros b g ->. apply wp_bind.
  eapply wp_mono with (Q := λ _ g, g = PMay ∨ g = PMayNot).
  - destruct b.
    + apply wp_bind. eapply wp_mono; [by apply (pool_log_wp m i _ PMay PHas)|]. intros _ g ->.
      apply wp_bind, wp_stall. eapply wp_mono; [by apply (pool_log_wp m i _ PHas PMay)|]. intros _ g ->. by left.
    + eapply wp_mono; [apply (pool_log_wp m i _ PMayNot PMayNot); try done; congruence|]. intros _ g ->. by right.
  - intros _ g Hg. apply wp_bind. eapply wp_mono; [by apply pool_decr_wp|]. intros _ g' ->. apply IH.
Qed.
End limit.

(** Any number of threads count connections in with [as_conn_pool_incr], without the mutex of the pool,
    and out with [as_conn_pool_decr], also those that were over the limit: in every interleaving, there are at most
    [capacity] connections; none is over the limit unless there are more threads than [capacity]; and when all threads
    are done, [total] is 0. *)
Theorem conn_pool_limit (capacity : Z) (ns : list nat) (q : as_queue) q' tr pool :
  0 ≤ capacity → Z.of_nat (length ns) < 4294967296 → q_total q = 0 → q_capacity q = capacity →
  reaches (q, []) (pool_clients ns) (q', tr) pool →
  pool_open tr ≤ capacity ∧ (Z.of_nat (length ns) ≤ capacity → ∀ i, POver i ∉ tr)
  ∧ (forallb ended pool = true → q_total q' = 0) ∧ ¬ pool_faults (q', tr, pool).
Proof.
  intros Hcap Hn Ht Hc Hr.
  edestruct (wp_reaches (pool_inv capacity (length ns)) (λ _ _ g, g = PNone)) with (ls := replicate (length ns) PNone)
    as (ls & Hlen & Hlen' & HI & Hw); [| | | exact Hr|].
  - unfold pool_clients. by rewrite length_imap, length_replicate.
  - split; [apply length_replicate|]. rewrite !tally_none by done. split; [done|]. split; [done|]. split; [done|].
    split; [done|]. intros _ i. split; [apply not_elem_of_nil|]. intros [[=] _]%lookup_replicate.
  - intros i t g m Hi [-> _]%lookup_replicate. unfold pool_clients in Hi. rewrite list_lookup_imap in Hi.
    destruct (ns !! i) as [k|]; [|done]. injection Hi as <-. by apply pool_client_wp.
  - pose proof HI as (_ & _ & Htot & Hadm & Ho & Hv). cbn in Htot, Ho, Hv. split; [|split; [|split]].
    + pose proof (tally_le has admitted ls ltac:(by intros [])). lia.
    + intros Hle i. apply (Hv Hle i).
    + intros Hend. rewrite Htot. apply tally_zero. intros i g Hg.
      pose proof (lookup_lt_Some _ _ _ Hg) as Hlt. rewrite <- Hlen' in Hlt.
      destruct (lookup_lt_is_Some_2 pool i Hlt) as [t Ht'].
      destruct (wp_ended _ _ _ _ _ _ (Hw i t g Ht' Hg)) as [_ ->]; [|done].
      rewrite forallb_forall in Hend. apply Hend, list_elem_of_In. by eapply list_elem_of_lookup_2.
    + by apply (wp_no_fault (pool_inv capacity (length ns)) (λ _ _ g, g = PNone) _ _ ls).
Qed.

(** Three threads, and room for two. *)
Definition small_pool : as_queue := as_queue_inita [0; 0] 1 2.
Definition small_run : pool_memory * list (prog pool_memory unit) :=
  schedule (rounds 25 3) ((small_pool, []), pool_clients [1; 1; 3]%nat).

Lemma conn_pool_limit_witness :
  let tr := [PGot 0; PGot 1; POver 2; PBack 0; PBack 1; POver 2; PGot 2; PBack 2]%nat in
  reaches (small_pool, []) (pool_clients [1; 1; 3]%nat) (small_run.1.1, tr) small_run.2 ∧
  pool_open tr ≤ 2 ∧ q_total small_run.1.1 = 0.
Proof.
  intros tr.
  assert (reaches (small_pool, []) (pool_clients [1; 1; 3]%nat) (small_run.1.1, tr) small_run.2) as Hr.
  { replace tr with small_run.1.2 by (by vm_compute). rewrite <- surjective_pairing. apply schedule_sound. }
  destruct (conn_pool_limit 2 [1; 1; 3]%nat small_pool small_run.1.1 tr small_run.2) as (Ho & _ & Ht & _);
    [lia|done|done|done|exact Hr|].
  split; [exact Hr|]. split; [exact Ho|]. apply Ht. by vm_compute.
Defined.
