(* ===== verification/CkMutex.v ===== *)
(** CkMutex: what the spin locks of Concurrency Kit promise to the threads that use them: an interface with
    its laws, and mutual exclusion of the clients of any lock that satisfies them; and the spin locks of one
    word.

    The functions of a lock take the place of the lock in the memory, as those of the source take a
    pointer.  A client keeps, beside the lock, a log of the threads that enter and leave their critical
    sections. *)

From Stdlib Require Import ZArith Lia.
From stdpp Require Import base list.
From S2P Require Import Prelude Concurrent CkPr.

#[local] Open Scope Z_scope.

(** A lock whose state is [T], with what each thread has for it: its index says which node of a queue is its
    own.  Not every lock has a function that tries to take it. *)
Class Spinlock (T : Type) := {
  spin_init : T;
  spin_lock {S} : loc S T → nat → prog S unit;
  spin_trylock {S} : option (loc S T → nat → prog S bool);
  spin_locked {S} : loc S T → nat → prog S bool;
  spin_unlock {S} : loc S T → nat → prog S unit
}.

(** ** Clients *)

Inductive mark : Type := Enter (i : nat) | Leave (i : nat).

#[export] Instance mark_eq_dec : EqDecision mark.
Proof. solve_decision. Defined.

(** What a thread does with the lock: take it, try to take it, ask whether it is taken. *)
Inductive use : Type := UseLock | UseTrylock | UseLocked.

Section client.
Context {T : Type} `{!Spinlock T}.

(** The memory: the lock, and the log. *)
Definition memory : Type := T * list mark.
Definition the_lock : loc memory T := MkLoc fst (λ (x : T) (m : memory), (x, m.2)).
Definition log (k : mark) : prog memory unit := atomic (λ m : memory, Ret (tt, (m.1, m.2 ++ [k]))).

Definition critical_section (i : nat) : prog memory unit :=
  log (Enter i);; log (Leave i);; spin_unlock the_lock i.

(** The thread [i] with a list of uses. *)
Fixpoint client (i : nat) (uses : list use) : prog memory unit :=
  match uses with
  | [] => mret tt
  | UseLock :: uses => spin_lock the_lock i;; critical_section i;; client i uses
  | UseTrylock :: uses =>
      match spin_trylock with
      | Some trylock =>
          b ← trylock the_lock i; (if (b : bool) then critical_section i else mret tt);; client i uses
      | None => client i uses
      end
  | UseLocked :: uses => spin_locked the_lock i;; client i uses
  end.

Definition clients (uses : list (list use)) : list (prog memory unit) := imap client uses.
End client.
Arguments memory : clear implicits.

(** Who is in a critical section after a log, where [cur] was before; [None] when two threads were in one
    at the same time, or one left it without being in it. *)
Fixpoint occupant (cur : option nat) (tr : list mark) : option (option nat) :=
  match tr with
  | [] => Some cur
  | Enter i :: tr => match cur with None => occupant (Some i) tr | Some _ => None end
  | Leave i :: tr => if decide (cur = Some i) then occupant None tr else None
  end.

Definition exclusive (tr : list mark) : Prop := is_Some (occupant None tr).

Lemma occupant_snoc cur tr k :
  occupant cur (tr ++ [k]) = (cur' ← occupant cur tr; occupant cur' [k]).
Proof.
  revert cur. induction tr as [|[i|i] tr IH]; intros cur; cbn [occupant app].
  - by destruct k.
  - destruct cur; [done | apply IH].
  - case_decide; [apply IH | done].
Qed.

(** ** The laws *)

(** The rest of the client's memory is the log, and a thread is in a critical section or not. *)
Abbreviation frame_stable := (outside_stable false).
Abbreviation lock_wp := (outside_wp false).

(** [n] threads at most: the invariant relates the state of the lock to a ghost state per thread; a thread
    that has locked [holds] the lock, and no two do. *)
Class SpinlockLaws (T : Type) `{!Spinlock T} (max : nat) := {
  ghost : Type;
  idle : ghost;
  holds : ghost → Prop;
  lock_inv : T → list ghost → Prop;
  lock_inv_init n : (n ≤ max)%nat → lock_inv spin_init (replicate n idle);
  lock_inv_excl s gs i j g g' :
    lock_inv s gs → gs !! i = Some g → gs !! j = Some g' → holds g → holds g' → i = j;
  spin_lock_wp R n i : frame_stable R →
    lock_wp lock_inv R n (spin_lock the_lock i) i (λ _, holds) idle;
  spin_trylock_wp R n i trylock : frame_stable R → spin_trylock = Some trylock →
    lock_wp lock_inv R n (trylock the_lock i) i (λ b g, if b then holds g else g = idle) idle;
  spin_locked_wp R n i : frame_stable R →
    lock_wp lock_inv R n (spin_locked the_lock i) i (λ _ g, g = idle) idle;
  spin_unlock_wp R n i g : frame_stable R → holds g →
    lock_wp lock_inv R n (spin_unlock the_lock i) i (λ _ g', g' = idle) g
}.

(** ** Mutual exclusion of the clients *)

Section exclusion.
Context {T : Type} {max : nat} `{!Spinlock T} `{!SpinlockLaws T max}.

(** The thread that is in a critical section, if any, is the one with the flag, and holds the lock. *)
Definition log_inv (tr : list mark) (ls : list (ghost * bool)) : Prop :=
  ∃ cur, occupant None tr = Some cur
    ∧ (∀ i, cur = Some i → ∃ g, ls !! i = Some (g, true))
    ∧ (∀ i g, ls !! i = Some (g, true) → cur = Some i ∧ holds g).

Lemma log_inv_stable : frame_stable log_inv.
Proof.
  intros tr ls i g g' Hi (cur & Hc & H1 & H2). exists cur. split; [done|]. split.
  - intros j Hj. destruct (H1 j Hj) as [gj Hgj]. exists gj.
    rewrite list_lookup_insert_ne; [done|]. intros <-. congruence.
  - intros j gj Hj. apply H2. destruct (decide (i = j)) as [<-|].
    + rewrite list_lookup_insert_eq in Hj by (by eapply lookup_lt_Some). congruence.
    + by rewrite list_lookup_insert_ne in Hj.
Qed.

Abbreviation client_inv := (framed lock_inv log_inv).

Lemma log_enter_wp n i g :
  holds g → wp client_inv n (log (Enter i)) i (λ _ l, l = (g, true)) (g, false).
Proof.
  intros Hg. apply wp_atomic. intros [s tr] ls [HI (cur & Hc & H1 & H2)] Hl. cbn [fst snd] in *.
  exists tt, (s, tr ++ [Enter i]), (g, true). split; [done|]. split; [|done].
  split; cbn [fst snd].
  { rewrite list_fmap_insert. cbn. rewrite list_insert_id; [done|]. by rewrite list_lookup_fmap, Hl. }
  assert (cur = None) as ->.
  { destruct cur as [j|]; [|done]. destruct (H1 j eq_refl) as [gj Hj].
    assert (i = j) as <-; [|congruence].
    eapply (lock_inv_excl s ls.*1 i j g gj HI); [| | done | by eapply H2];
      rewrite list_lookup_fmap; [by rewrite Hl | by rewrite Hj]. }
  exists (Some i). split; [by rewrite occupant_snoc, Hc|]. split.
  - intros j [= <-]. exists g. apply list_lookup_insert_eq. by eapply lookup_lt_Some.
  - intros j gj Hj. destruct (decide (i = j)) as [<-|].
    + rewrite list_lookup_insert_eq in Hj by (by eapply lookup_lt_Some). by injection Hj as <-.
    + rewrite list_lookup_insert_ne in Hj by done. by destruct (H2 j gj Hj).
Qed.

Lemma log_leave_wp n i g :
  wp client_inv n (log (Leave i)) i (λ _ l, l = (g, false)) (g, true).
Proof.
  apply wp_atomic. intros [s tr] ls [HI (cur & Hc & H1 & H2)] Hl. cbn [fst snd] in *.
  exists tt, (s, tr ++ [Leave i]), (g, false). split; [done|]. split; [|done].
  split; cbn [fst snd].
  { rewrite list_fmap_insert. cbn. rewrite list_insert_id; [done|]. by rewrite list_lookup_fmap, Hl. }
  destruct (H2 i g Hl) as [-> Hg].
  exists None. split; [rewrite occupant_snoc, Hc; cbn; by rewrite decide_True|]. split; [done|].
  intros j gj Hj. destruct (decide (i = j)) as [<-|].
  - rewrite list_lookup_insert_eq in Hj by (by eapply lookup_lt_Some). congruence.
  - rewrite list_lookup_insert_ne in Hj by done. destruct (H2 j gj Hj) as [[= <-] _]. done.
Qed.

Lemma critical_section_wp n i g :
  holds g → wp client_inv n (critical_section i) i (λ _ l, l = (idle, false)) (g, false).
Proof.
  intros Hg. apply wp_bind. eapply wp_mono; [by apply log_enter_wp|]. intros _ l ->.
  apply wp_bind. eapply wp_mono; [apply log_leave_wp|]. intros _ l ->.
  eapply wp_mono; [by apply spin_unlock_wp, Hg; apply log_inv_stable|].
  intros _ [g' b] [[= ->] [= ->]]. done.
Qed.

Lemma client_wp n i uses :
  wp client_inv n (client i uses) i (λ _ l, l = (idle, false)) (idle, false).
Proof.
  revert n. induction uses as [|[] uses IH]; intros n; cbn [client].
  - by apply wp_ret.
  - apply wp_bind. eapply wp_mono; [apply spin_lock_wp, log_inv_stable|]. intros _ [g b] [[= ->] Hg].
    apply wp_bind. eapply wp_mono; [by apply critical_section_wp|]. intros _ l ->. apply IH.
  - destruct spin_trylock as [trylock|] eqn:Et; [|apply IH].
    apply wp_bind. eapply wp_mono; [by apply spin_trylock_wp; [apply log_inv_stable|]|]. intros r [g b] [[= ->] Hg].
    apply wp_bind. apply (wp_mono _ _ _ _ _ (λ _ l, l = (idle, false))); [|intros _ l ->; apply IH].
    destruct r; [by apply critical_section_wp | apply wp_ret]. cbn in Hg. by subst.
  - apply wp_bind. eapply wp_mono; [apply spin_locked_wp, log_inv_stable|].
    intros r [g b] [[= ->] Hg]. cbn in Hg. subst. apply IH.
Qed.

(** Whatever the threads do with the lock and however their steps interleave, no thread faults and no two are
    in a critical section at the same time. *)
Lemma spinlock_exclusive uses s tr ts :
  (length uses ≤ max)%nat →
  reaches (spin_init, []) (clients uses) (s, tr) ts →
  exclusive tr ∧ ¬ pool_faults (s, tr, ts).
Proof.
  intros Hlen Hr.
  destruct (wp_sound client_inv (spin_init, []) (clients uses) (replicate (length uses) (idle, false))
    (s, tr) ts) as [(ls & _ & _ & (cur & Hc & _)) Hf]; [| | | exact Hr | by split; [exists cur|]].
  - unfold clients. by rewrite length_imap, length_replicate.
  - split; cbn [fst snd].
    + rewrite fmap_replicate. by apply lock_inv_init.
    + exists None. split; [done|]. split; [done|]. intros i g Hi.
      apply lookup_replicate in Hi as [[= _] _].
  - intros i t l n Ht Hl. apply lookup_replicate in Hl as [-> _].
    unfold clients in Ht. rewrite list_lookup_imap in Ht.
    destruct (uses !! i) as [us|]; [|done]. injection Ht as <-.
    eapply wp_mono; [apply client_wp | done].
Qed.
End exclusion.

(** * The spin locks of one word of Concurrency Kit, include/aerospike/ck/spinlock/fas.h and cas.h, with their exponential back-off (ck_backoff.h), and that they satisfy the laws of [Spinlock]. *)

(** ** Back-off *)

(** [src: include/aerospike/ck/ck_backoff.h 33-35 CK_BACKOFF_CEILING] *)
Definition CK_BACKOFF_CEILING : Z := Z.shiftl 1 20 - 1.

(** [src: include/aerospike/ck/ck_backoff.h 37-37 CK_BACKOFF_INITIALIZER] *)
Definition CK_BACKOFF_INITIALIZER : Z := Z.shiftl 1 9.

(** What is left in [*c]; the loop before it only passes time.
    [src: include/aerospike/ck/ck_backoff.h 44-55 ck_backoff_eb] *)
Definition ck_backoff_eb (ceiling : Z) : Z :=
  u32 (Z.shiftl ceiling (Z.b2z (ceiling <? CK_BACKOFF_CEILING))).

(** ** fas.h *)

(** [src: include/aerospike/ck/spinlock/fas.h 39-42 ck_spinlock_fas] *)
Record ck_spinlock_fas : Type := MkFas { fas_value : Z }.
Definition fas_value_loc : loc ck_spinlock_fas Z := MkLoc fas_value (λ v _, MkFas v).

(** [src: include/aerospike/ck/spinlock/fas.h 46-53 ck_spinlock_fas_init] *)
Definition ck_spinlock_fas_init : ck_spinlock_fas := MkFas 0.

Section fas.
Context {S : Type} (lock : loc S ck_spinlock_fas).

(** [src: include/aerospike/ck/spinlock/fas.h 55-64 ck_spinlock_fas_trylock] *)
Definition ck_spinlock_fas_trylock : prog S bool :=
  value ← ck_pr_fas (lock →' fas_value_loc) 1;
  mret (value =? 0).

(** [src: include/aerospike/ck/spinlock/fas.h 66-74 ck_spinlock_fas_locked] *)
Definition ck_spinlock_fas_locked : prog S bool :=
  r ← ck_pr_load (lock →' fas_value_loc);
  mret (negb (r =? 0)).

(** [src: include/aerospike/ck/spinlock/fas.h 76-87 ck_spinlock_fas_lock] *)
Definition ck_spinlock_fas_lock : prog S unit :=
  while (v ← ck_pr_fas (lock →' fas_value_loc) 1; mret (v =? 1))
    (while (v ← ck_pr_load (lock →' fas_value_loc); mret (v =? 1)) stall).

(** [src: include/aerospike/ck/spinlock/fas.h 89-99 ck_spinlock_fas_lock_eb] *)
Definition ck_spinlock_fas_lock_eb : prog S unit :=
  loop (λ backoff, v ← ck_pr_fas (lock →' fas_value_loc) 1;
          mret (if v =? 1 then inl (ck_backoff_eb backoff) else inr tt)) CK_BACKOFF_INITIALIZER.

(** [src: include/aerospike/ck/spinlock/fas.h 101-108 ck_spinlock_fas_unlock] *)
Definition ck_spinlock_fas_unlock : prog S unit := ck_pr_store (lock →' fas_value_loc) 0.
End fas.

(** ** cas.h *)

(** [src: include/aerospike/ck/spinlock/cas.h 41-44 ck_spinlock_cas] *)
Record ck_spinlock_cas : Type := MkCas { cas_value : Z }.
Definition cas_value_loc : loc ck_spinlock_cas Z := MkLoc cas_value (λ v _, MkCas v).

(** [src: include/aerospike/ck/spinlock/cas.h 48-55 ck_spinlock_cas_init] *)
Definition ck_spinlock_cas_init : ck_spinlock_cas := MkCas 0.

Section cas.
Context {S : Type} (lock : loc S ck_spinlock_cas).

(** [src: include/aerospike/ck/spinlock/cas.h 57-65 ck_spinlock_cas_trylock] *)
Definition ck_spinlock_cas_trylock : prog S bool :=
  value ← ck_pr_fas (lock →' cas_value_loc) 1;
  mret (value =? 0).

(** [src: include/aerospike/ck/spinlock/cas.h 67-74 ck_spinlock_cas_locked] *)
Definition ck_spinlock_cas_locked : prog S bool :=
  r ← ck_pr_load (lock →' cas_value_loc);
  mret (negb (r =? 0)).

(** [src: include/aerospike/ck/spinlock/cas.h 76-87 ck_spinlock_cas_lock] *)
Definition ck_spinlock_cas_lock : prog S unit :=
  while (b ← ck_pr_cas (lock →' cas_value_loc) 0 1; mret (negb b))
    (while (v ← ck_pr_load (lock →' cas_value_loc); mret (v =? 1)) stall).

(** [src: include/aerospike/ck/spinlock/cas.h 89-99 ck_spinlock_cas_lock_eb] *)
Definition ck_spinlock_cas_lock_eb : prog S unit :=
  loop (λ backoff, b ← ck_pr_cas (lock →' cas_value_loc) 0 1;
          mret (if negb b then inl (ck_backoff_eb backoff) else inr tt)) CK_BACKOFF_INITIALIZER.

(** [src: include/aerospike/ck/spinlock/cas.h 101-109 ck_spinlock_cas_unlock] *)
Definition ck_spinlock_cas_unlock : prog S unit := ck_pr_store (lock →' cas_value_loc) 0.
End cas.

(** ** A word that is 1 while a thread holds the lock *)

Definition flag_inv (v : Z) (gs : list bool) : Prop :=
  ∃ h : option nat, v = match h with Some _ => 1 | None => 0 end ∧ ∀ i, gs !! i = Some true ↔ h = Some i.

Lemma flag_inv_init n : flag_inv 0 (replicate n false).
Proof.
  exists None. split; [done|]. intros i. split; [|done]. by intros [[=] _]%lookup_replicate.
Qed.

Lemma flag_inv_excl v gs i j : flag_inv v gs → gs !! i = Some true → gs !! j = Some true → i = j.
Proof. intros (h & _ & H) Hi%H Hj%H. congruence. Qed.

(** A thread that does not hold the lock writes 1. *)
Lemma flag_inv_set v gs i :
  flag_inv v gs → gs !! i = Some false → flag_inv 1 (<[i := v =? 0]> gs).
Proof.
  intros (h & -> & H) Hi. destruct h as [k|]; cbn.
  - exists (Some k). split; [done|]. by rewrite list_insert_id.
  - exists (Some i). split; [done|]. intros j. destruct (decide (i = j)) as [<-|].
    + rewrite list_lookup_insert_eq by (by eapply lookup_lt_Some). done.
    + rewrite list_lookup_insert_ne by done. split; [by intros ?%H | congruence].
Qed.

Lemma flag_inv_clear v gs i : flag_inv v gs → gs !! i = Some true → flag_inv 0 (<[i := false]> gs).
Proof.
  intros (h & _ & H) Hi. exists None. split; [done|]. intros j. split; [|done].
  destruct (decide (i = j)) as [<-|].
  - by rewrite list_lookup_insert_eq by (by eapply lookup_lt_Some).
  - rewrite list_lookup_insert_ne by done. intros Hj%H. apply H in Hi. congruence.
Qed.

Lemma flag_inv_range v gs : flag_inv v gs → v = 0 ∨ v = 1.
Proof. intros ([] & -> & _); auto. Qed.

(** The four steps, for a lock that is one word. *)
Section flag.
Context {T : Type} (value : loc T Z) (R : list mark → list (bool * bool) → Prop).
Context (get_set : ∀ v x, loc_get value (loc_set value v x) = v) (Rs : frame_stable R).

Definition word_inv (x : T) (gs : list bool) : Prop := flag_inv (loc_get value x) gs.

Lemma flag_fas_wp n i (Q : Z → bool → Prop) :
  Q 0 true → Q 1 false → lock_wp word_inv R n (ck_pr_fas (the_lock →' value) 1) i Q false.
Proof.
  intros H0 H1. apply outside_wp_atomic; [done|]. intros s tr gs HI Hi.
  eexists _, _, _. split; [reflexivity|]. split; [unfold word_inv; rewrite get_set; by eapply flag_inv_set|].
  by destruct (flag_inv_range _ _ HI) as [E|E]; cbn; rewrite E.
Qed.

Lemma flag_cas_wp n i (Q : bool → bool → Prop) :
  Q true true → Q false false → lock_wp word_inv R n (ck_pr_cas (the_lock →' value) 0 1) i Q false.
Proof.
  intros H0 H1. apply outside_wp_atomic; [done|]. intros s tr gs HI Hi.
  eexists _, _, (loc_get value s =? 0). split; [reflexivity|].
  unfold word_inv in *. cbn. rewrite get_set.
  destruct (flag_inv_range _ _ HI) as [E|E]; rewrite E in *;
    (split; [by eapply (flag_inv_set _ gs i HI) | done]).
Qed.

Lemma flag_load_wp n i (Q : Z → bool → Prop) g :
  (∀ v, Q v g) → lock_wp word_inv R n (ck_pr_load (the_lock →' value)) i Q g.
Proof.
  intros HQ. apply outside_wp_atomic; [done|]. intros s tr gs HI Hi.
  eexists _, _, g. split; [reflexivity|]. split; [by rewrite list_insert_id | done].
Qed.

Lemma flag_unlock_wp n i :
  lock_wp word_inv R n (ck_pr_store (the_lock →' value) 0) i (λ _ g, g = false) true.
Proof.
  apply outside_wp_atomic; [done|]. intros s tr gs HI Hi.
  eexists _, _, false. split; [reflexivity|]. split; [|done]. unfold word_inv. rewrite get_set.
  by eapply flag_inv_clear.
Qed.

(** The inner loop only reads. *)
Lemma flag_spin_wp n i :
  lock_wp word_inv R n (while (v ← ck_pr_load (the_lock →' value); mret (v =? 1)) stall) i
    (λ _ g, g = false) false.
Proof.
  apply (outside_wp_while _ _ _ _ _ _ (λ g, g = false)); [done|]. intros m g ->.
  apply outside_wp_bind, flag_load_wp. intros v. apply outside_wp_ret. destruct (v =? 1); [|done].
  by apply outside_wp_stall.
Qed.
End flag.

(** ** The locks satisfy the laws *)

#[export] Instance fas_spinlock : Spinlock ck_spinlock_fas := {
  spin_init := ck_spinlock_fas_init;
  spin_lock := λ S lock _, ck_spinlock_fas_lock lock;
  spin_trylock := λ S, Some (λ lock _, ck_spinlock_fas_trylock lock);
  spin_locked := λ S lock _, ck_spinlock_fas_locked lock;
  spin_unlock := λ S lock _, ck_spinlock_fas_unlock lock
}.

(** The same lock, taken with back-off. *)
Definition fas_eb_spinlock : Spinlock ck_spinlock_fas := {|
  spin_init := ck_spinlock_fas_init;
  spin_lock := λ S lock _, ck_spinlock_fas_lock_eb lock;
  spin_trylock := λ S, Some (λ lock _, ck_spinlock_fas_trylock lock);
  spin_locked := λ S lock _, ck_spinlock_fas_locked lock;
  spin_unlock := λ S lock _, ck_spinlock_fas_unlock lock
|}.

#[export] Instance cas_spinlock : Spinlock ck_spinlock_cas := {
  spin_init := ck_spinlock_cas_init;
  spin_lock := λ S lock _, ck_spinlock_cas_lock lock;
  spin_trylock := λ S, Some (λ lock _, ck_spinlock_cas_trylock lock);
  spin_locked := λ S lock _, ck_spinlock_cas_locked lock;
  spin_unlock := λ S lock _, ck_spinlock_cas_unlock lock
}.

Definition cas_eb_spinlock : Spinlock ck_spinlock_cas := {|
  spin_init := ck_spinlock_cas_init;
  spin_lock := λ S lock _, ck_spinlock_cas_lock_eb lock;
  spin_trylock := λ S, Some (λ lock _, ck_spinlock_cas_trylock lock);
  spin_locked := λ S lock _, ck_spinlock_cas_locked lock;
  spin_unlock := λ S lock _, ck_spinlock_cas_unlock lock
|}.

(** What the operations of a lock of one word need. *)
Section word.
Context {T : Type} (value : loc T Z) (R : list mark → list (bool * bool) → Prop) (Rs : frame_stable R).
Context (get_set : ∀ v x, loc_get value (loc_set value v x) = v).
Abbreviation word_wp := (lock_wp (word_inv value) R).

Lemma word_trylock_wp n i :
  word_wp n (v ← ck_pr_fas (the_lock →' value) 1; mret (v =? 0)) i
    (λ b g, if (b : bool) then g = true else g = false) false.
Proof. by apply outside_wp_bind, flag_fas_wp; [| |apply outside_wp_ret..]. Qed.

Lemma word_locked_wp n i :
  word_wp n (r ← ck_pr_load (the_lock →' value); mret (negb (r =? 0))) i (λ _ g, g = false) false.
Proof. apply outside_wp_bind, flag_load_wp; [done|]. intros v. by apply outside_wp_ret. Qed.

(** A thread that takes the word as long as it finds it taken. *)
Lemma word_fas_lock_wp n i :
  word_wp n (while (v ← ck_pr_fas (the_lock →' value) 1; mret (v =? 1))
               (while (v ← ck_pr_load (the_lock →' value); mret (v =? 1)) stall)) i (λ _ g, g = true) false.
Proof.
  apply (outside_wp_while _ _ _ _ _ _ (λ g, g = false)); [done|]. intros m g ->.
  apply outside_wp_bind, flag_fas_wp; [done..| |]; apply outside_wp_ret; [done|]. by apply flag_spin_wp.
Qed.

Lemma word_cas_lock_wp n i :
  word_wp n (while (b ← ck_pr_cas (the_lock →' value) 0 1; mret (negb b))
               (while (v ← ck_pr_load (the_lock →' value); mret (v =? 1)) stall)) i (λ _ g, g = true) false.
Proof.
  apply (outside_wp_while _ _ _ _ _ _ (λ g, g = false)); [done|]. intros m g ->.
  apply outside_wp_bind, flag_cas_wp; [done..| |]; apply outside_wp_ret; [done|]. by apply flag_spin_wp.
Qed.

(** With back-off: the state of the loop is the time to wait. *)
Lemma word_eb_wp n i {A} (t : prog (T * list mark) A) (taken : A → bool) c :
  (∀ m, word_wp m t i (λ a g, g = negb (taken a)) false) →
  word_wp n (loop (λ backoff, a ← t; mret (if taken a then inl (ck_backoff_eb backoff) else inr tt)) c) i
    (λ _ g, g = true) false.
Proof.
  intros Ht. apply (wp_loop _ _ _ _ _ (λ _ l, l = (false, false))); [done|]. intros m c' l ->.
  apply wp_bind. eapply wp_mono; [apply Ht|]. intros a [g b] [[= ->] Hg]. cbn in Hg. subst.
  apply wp_ret. by destruct (taken a).
Qed.
End word.

(** The invariant of both locks, for any number of threads. *)
Ltac word_laws value :=
  refine {| ghost := bool; idle := false; holds := (λ g, g = true); lock_inv := word_inv value |};
  [ intros n _; apply flag_inv_init
  | intros s gs i j g g' HI Hi Hj -> ->; by eapply flag_inv_excl
  | intros R n i HR
  | intros R n i trylock HR [= <-]; by apply word_trylock_wp
  | intros R n i HR; by apply word_locked_wp
  | intros R n i g HR ->; by apply flag_unlock_wp ].

#[export] Instance fas_laws max : SpinlockLaws ck_spinlock_fas max.
Proof. word_laws fas_value_loc. by apply word_fas_lock_wp. Defined.

#[export] Instance cas_laws max : SpinlockLaws ck_spinlock_cas max.
Proof. word_laws cas_value_loc. by apply word_cas_lock_wp. Defined.

Definition fas_eb_laws max : @SpinlockLaws ck_spinlock_fas fas_eb_spinlock max.
Proof.
  word_laws fas_value_loc. apply (word_eb_wp fas_value_loc R n i _ (λ v, v =? 1)).
  intros m. by apply flag_fas_wp.
Defined.

Definition cas_eb_laws max : @SpinlockLaws ck_spinlock_cas cas_eb_spinlock max.
Proof.
  word_laws cas_value_loc. apply (word_eb_wp cas_value_loc R n i _ negb).
  intros m. by apply flag_cas_wp.
Defined.

(** ** The lock that ck_spinlock.h names *)

(** [src: include/aerospike/ck/ck_spinlock.h 45-45 CK_SPINLOCK_INITIALIZER] *)
Definition CK_SPINLOCK_INITIALIZER : ck_spinlock_fas := MkFas 0.
(** [src: include/aerospike/ck/ck_spinlock.h 46-46 ck_spinlock_t] *)
Definition ck_spinlock_t : Type := ck_spinlock_fas.
(** [src: include/aerospike/ck/ck_spinlock.h 47-47 ck_spinlock_init] *)
Definition ck_spinlock_init : ck_spinlock_t := ck_spinlock_fas_init.
(** [src: include/aerospike/ck/ck_spinlock.h 48-48 ck_spinlock_lock] *)
Definition ck_spinlock_lock {S} (x : loc S ck_spinlock_t) : prog S unit := ck_spinlock_fas_lock x.
(** [src: include/aerospike/ck/ck_spinlock.h 49-49 ck_spinlock_lock_eb] *)
Definition ck_spinlock_lock_eb {S} (x : loc S ck_spinlock_t) : prog S unit := ck_spinlock_fas_lock_eb x.
(** [src: include/aerospike/ck/ck_spinlock.h 50-50 ck_spinlock_unlock] *)
Definition ck_spinlock_unlock {S} (x : loc S ck_spinlock_t) : prog S unit := ck_spinlock_fas_unlock x.
(** [src: include/aerospike/ck/ck_spinlock.h 51-51 ck_spinlock_locked] *)
Definition ck_spinlock_locked {S} (x : loc S ck_spinlock_t) : prog S bool := ck_spinlock_fas_locked x.
(** [src: include/aerospike/ck/ck_spinlock.h 52-52 ck_spinlock_trylock] *)
Definition ck_spinlock_trylock {S} (x : loc S ck_spinlock_t) : prog S bool := ck_spinlock_fas_trylock x.

(** ** Elision, ck_elide.h, where the processor's transactions are not enabled, as ck_md.h has it *)

(** [src: include/aerospike/ck/ck_elide.h 49-56 ck_elide_config] *)
Record ck_elide_config : Type := MkElideConfig {
  skip_busy : Z; retry_busy : Z; skip_other : Z; retry_other : Z; skip_conflict : Z; retry_conflict : Z }.
(** [src: include/aerospike/ck/ck_elide.h 58-65 CK_ELIDE_CONFIG_DEFAULT_INITIALIZER] *)
Definition CK_ELIDE_CONFIG_DEFAULT_INITIALIZER : ck_elide_config := MkElideConfig 5 256 3 3 2 5.
(** [src: include/aerospike/ck/ck_elide.h 67-72 ck_elide_stat] *)
Record ck_elide_stat : Type := MkElideStat { n_fallback : Z; n_elide : Z; elide_skip : Z }.
(** [src: include/aerospike/ck/ck_elide.h 74-74 CK_ELIDE_STAT_INITIALIZER] *)
Definition CK_ELIDE_STAT_INITIALIZER : ck_elide_stat := MkElideStat 0 0 0.
(** [src: include/aerospike/ck/ck_elide.h 76-82 ck_elide_stat_init] *)
Definition ck_elide_stat_init : ck_elide_stat := MkElideStat 0 0 0.

(** The functions that the macros define, for a lock with the predicates [L_P], [U_P] and [TL_P] and the functions [L], [U]
    and [TL]. *)
Section elide.
Context {S T : Type} (L_P : loc S T → prog S bool) (L : loc S T → prog S unit) (U_P : loc S T → prog S bool)
  (U : loc S T → prog S unit) (TL_P TL : loc S T → prog S bool).

(** [src: include/aerospike/ck/ck_elide.h 253-262 ck_elide_##N##_lock_adaptive] *)
Definition ck_elide_lock_adaptive (lock : loc S T) (st : loc S ck_elide_stat) (c : ck_elide_config) : prog S unit := L lock.
(** [src: include/aerospike/ck/ck_elide.h 263-271 ck_elide_##N##_unlock_adaptive] *)
Definition ck_elide_unlock_adaptive (st : loc S ck_elide_stat) (lock : loc S T) : prog S unit := U lock.
(** [src: include/aerospike/ck/ck_elide.h 272-279 ck_elide_##N##_lock] *)
Definition ck_elide_lock (lock : loc S T) : prog S unit := L lock.
(** [src: include/aerospike/ck/ck_elide.h 280-286 ck_elide_##N##_unlock] *)
Definition ck_elide_unlock (lock : loc S T) : prog S unit := U lock.
(** [src: include/aerospike/ck/ck_elide.h 289-294 ck_elide_##N##_trylock] *)
Definition ck_elide_trylock (lock : loc S T) : prog S bool := TL_P lock.
End elide.

(** The elided operations of a spin lock, as CK_ELIDE_PROTOTYPE and CK_ELIDE_TRYLOCK_PROTOTYPE are used: with its own
    operations, and the predicate that says that it is taken.
    [src: include/aerospike/ck/spinlock/fas.h 110-115 CK_ELIDE_PROTOTYPE] *)
Definition elided {T} (l : Spinlock T) (with_trylock : bool) : Spinlock T := {|
  spin_init := spin_init;
  spin_lock S lock i := ck_elide_lock (λ x, spin_lock x i) lock;
  spin_trylock S := if with_trylock then Some (λ lock i, ck_elide_trylock (λ x, spin_locked x i) lock) else None;
  spin_locked S := spin_locked;
  spin_unlock S lock i := ck_elide_unlock (λ x, spin_unlock x i) lock
|}.

(** Without trying, they are the operations of the lock. *)
Lemma elided_laws {T} (l : Spinlock T) max : @SpinlockLaws T l max → @SpinlockLaws T (elided l false) max.
Proof.
  intros H. refine {| ghost := ghost; idle := idle; holds := holds; lock_inv := lock_inv |}.
  - exact (@lock_inv_init _ l max H).
  - exact (@lock_inv_excl _ l max H).
  - exact (@spin_lock_wp _ l max H).
  - done.
  - exact (@spin_locked_wp _ l max H).
  - exact (@spin_unlock_wp _ l max H).
Qed.

(** [ck_elide_##N##_trylock] only asks whether the lock is taken: it says that it took a lock when another thread has it,
    and then two threads are in a section at once. *)
Theorem elide_trylock_enters :
  let threads := @clients _ (elided fas_spinlock true) [[UseLock]; [UseTrylock]] in
  ∃ s tr ts, reaches (spin_init, []) threads (s, tr) ts ∧ ¬ exclusive tr.
Proof.
  intros threads. destruct (schedule_reaches [0; 0; 1; 1]%nat (spin_init, []) threads (MkFas 1, [Enter 0; Enter 1])) as [ts Hr];
    [by vm_compute|].
  exists (MkFas 1), [Enter 0; Enter 1], ts. split; [exact Hr|]. by intros [].
Qed.

(** * The spin lock of Concurrency Kit that is taken by a decrement, include/aerospike/ck/spinlock/dec.h. The word is 1 while the lock is free; a thread that finds it taken has counted it down, below 0, so the number of threads must not let it come round to 1. *)

(** [src: include/aerospike/ck/spinlock/dec.h 43-46 ck_spinlock_dec] *)
Record ck_spinlock_dec : Type := MkDec { dec_value : Z }.
Definition dec_value_loc : loc ck_spinlock_dec Z := MkLoc dec_value (λ v _, MkDec v).

(** [src: include/aerospike/ck/spinlock/dec.h 50-57 ck_spinlock_dec_init] *)
Definition ck_spinlock_dec_init : ck_spinlock_dec := MkDec 1.

Section dec.
Context {S : Type} (lock : loc S ck_spinlock_dec).
Abbreviation value := (lock →' dec_value_loc).

(** [src: include/aerospike/ck/spinlock/dec.h 59-67 ck_spinlock_dec_trylock] *)
Definition ck_spinlock_dec_trylock : prog S bool :=
  v ← ck_pr_fas value 0;
  mret (v =? 1).

(** [src: include/aerospike/ck/spinlock/dec.h 69-77 ck_spinlock_dec_locked] *)
Definition ck_spinlock_dec_locked : prog S bool :=
  r ← ck_pr_load value;
  mret (negb (r =? 1)).

(** [src: include/aerospike/ck/spinlock/dec.h 79-101 ck_spinlock_dec_lock] *)
Definition ck_spinlock_dec_lock : prog S unit :=
  while (r ← ck_pr_dec_zero 32 value; mret (negb r))
    (while (v ← ck_pr_load value; mret (negb (v =? 1))) stall).

(** The loop that backs off hands the time to wait to its next round.
    [src: include/aerospike/ck/spinlock/dec.h 103-120 ck_spinlock_dec_lock_eb] *)
Definition ck_spinlock_dec_lock_eb : prog S unit :=
  loop (λ backoff,
    r ← ck_pr_dec_zero 32 value;
    if (r : bool) then mret (inr tt)
    else
      backoff ← loop (λ backoff,
        v ← ck_pr_load value;
        mret (if v =? 1 then inr backoff else inl (ck_backoff_eb backoff))) backoff;
      mret (inl backoff)) CK_BACKOFF_INITIALIZER.

(** [src: include/aerospike/ck/spinlock/dec.h 122-134 ck_spinlock_dec_unlock] *)
Definition ck_spinlock_dec_unlock : prog S unit := ck_pr_store value 1.
End dec.

#[export] Instance dec_spinlock : Spinlock ck_spinlock_dec := {
  spin_init := ck_spinlock_dec_init;
  spin_lock := λ S lock _, ck_spinlock_dec_lock lock;
  spin_trylock := λ S, Some (λ lock _, ck_spinlock_dec_trylock lock);
  spin_locked := λ S lock _, ck_spinlock_dec_locked lock;
  spin_unlock := λ S lock _, ck_spinlock_dec_unlock lock
}.

Definition dec_eb_spinlock : Spinlock ck_spinlock_dec := {|
  spin_init := ck_spinlock_dec_init;
  spin_lock := λ S lock _, ck_spinlock_dec_lock_eb lock;
  spin_trylock := λ S, Some (λ lock _, ck_spinlock_dec_trylock lock);
  spin_locked := λ S lock _, ck_spinlock_dec_locked lock;
  spin_unlock := λ S lock _, ck_spinlock_dec_unlock lock
|}.

(** ** The invariant *)

(** A thread that has counted the word down and not seen it free again is counted. *)
Inductive dec_ghost : Type := DecIdle | DecSpin | DecHolds.

Definition spinning (g : dec_ghost) : bool := match g with DecSpin => true | _ => false end.

(** While a thread holds the lock, the word is at most as far below 0 as threads are counted. *)
Definition dec_inv (x : ck_spinlock_dec) (gs : list dec_ghost) : Prop :=
  Z.of_nat (length gs) ≤ 4294967295 ∧
  ∃ h : option nat, (∀ i, gs !! i = Some DecHolds ↔ h = Some i) ∧
    match h with
    | None => dec_value x = 1
    | Some _ => ∃ k, 0 ≤ k ≤ tally spinning gs ∧ dec_value x = u32 (- k)
    end.

Lemma dec_inv_excl x gs i j :
  dec_inv x gs → gs !! i = Some DecHolds → gs !! j = Some DecHolds → i = j.
Proof. intros (_ & h & H & _) Hi%H Hj%H. congruence. Qed.

(** The holder after a thread that does not hold the lock moves, to [g']. *)
Lemma holder_move (gs : list dec_ghost) (h : option nat) i g g' :
  (∀ j, gs !! j = Some DecHolds ↔ h = Some j) → gs !! i = Some g → g ≠ DecHolds →
  (g' = DecHolds → h = None) →
  ∀ j, <[i := g']> gs !! j = Some DecHolds ↔ (match g' with DecHolds => Some i | _ => h end) = Some j.
Proof.
  intros H Hi Hg Hg' j. pose proof (lookup_lt_Some _ _ _ Hi).
  assert (h ≠ Some i) as Hne by (rewrite <- H; congruence).
  destruct (decide (i = j)) as [<-|].
  - rewrite list_lookup_insert_eq by done. destruct g'; split; congruence.
  - rewrite list_lookup_insert_ne by done. rewrite H.
    destruct g'; try done. rewrite (Hg' eq_refl). split; congruence.
Qed.

(** A held word is no 1, and is not counted down to 0. *)
Lemma held_value gs i k :
  Z.of_nat (length gs) ≤ 4294967295 → gs !! i = Some DecHolds → 0 ≤ k ≤ tally spinning gs →
  u32 (- k) ≠ 1.
Proof.
  intros Hl Hi Hk. pose proof (tally_other spinning gs i DecHolds Hi eq_refl).
  unfold uwrap. change (2 ^ 32) with 4294967296. intros E.
  destruct (Z.eq_dec k 0) as [->|]; [done|].
  rewrite <- (Z.mod_add (- k) 1) in E by lia. rewrite Z.mod_small in E by lia. lia.
Qed.

Lemma down_value gs i j k :
  Z.of_nat (length gs) ≤ 4294967295 → gs !! i = Some DecHolds → gs !! j = Some DecIdle →
  0 ≤ k ≤ tally spinning gs → u32 (u32 (- k) - 1) = u32 (- (k + 1)) ∧ u32 (- (k + 1)) ≠ 0.
Proof.
  intros Hl Hi Hj Hk. split.
  - unfold Z.sub. rewrite uwrap_add_l. f_equal. lia.
  - pose proof (tally_other spinning gs i DecHolds Hi eq_refl).
    unfold uwrap. change (2 ^ 32) with 4294967296.
    rewrite <- (Z.mod_add (- (k + 1)) 1) by lia. rewrite Z.mod_small; lia.
Qed.

(** ** The laws *)

Section laws.
Context (R : list mark → list (dec_ghost * bool) → Prop) (HR : frame_stable R).
Abbreviation value := (the_lock →' dec_value_loc).
Abbreviation dec_wp := (lock_wp dec_inv R).

Lemma dec_inv_length x gs i g : dec_inv x gs → Z.of_nat (length (<[i:=g]> gs)) ≤ 4294967295.
Proof. intros [H _]. by rewrite length_insert. Qed.

Lemma dec_zero_wp n i :
  dec_wp n (ck_pr_dec_zero 32 value) i (λ r g, g = if (r : bool) then DecHolds else DecSpin) DecIdle.
Proof.
  apply outside_wp_atomic; [done|]. intros [v] tr gs HI Hi. pose proof HI as (Hl & h & Hh & Hv).
  cbn in Hv. destruct h as [k|].
  - destruct Hv as (d & Hd & ->). assert (gs !! k = Some DecHolds) as Hk by by apply Hh.
    destruct (down_value gs k i d Hl Hk Hi Hd) as [E Hne].
    eexists _, _, DecSpin. split; [reflexivity|]. cbn. rewrite E.
    split; [|by apply Z.eqb_neq in Hne as ->]. split; [by eapply dec_inv_length|].
    exists (Some k). split; [by apply (holder_move gs (Some k) i DecIdle)|].
    exists (d + 1). split; [|done]. rewrite (tally_insert _ _ _ _ _ Hi). cbn. lia.
  - subst v. eexists _, _, DecHolds. split; [reflexivity|]. cbn. split; [|done].
    split; [by eapply dec_inv_length|]. exists (Some i).
    split; [by apply (holder_move gs None i DecIdle)|]. exists 0.
    split; [|done]. pose proof (tally_range spinning (<[i:=DecHolds]> gs)). lia.
Qed.

(** A thread that sees a 1 sees the lock free. *)
Lemma dec_load_wp n i (Q : Z → dec_ghost → Prop) g :
  (∀ v, v ≠ 1 → Q v g) → g ≠ DecHolds → Q 1 DecIdle → dec_wp n (ck_pr_load value) i Q g.
Proof.
  intros HQ Hg HQ1. apply outside_wp_atomic; [done|]. intros [v] tr gs HI Hi.
  destruct (decide (v = 1)) as [->|Hv].
  - eexists _, _, DecIdle. split; [reflexivity|]. split; [|done].
    split; [by eapply dec_inv_length|]. destruct HI as (Hl & [k|] & Hh & Hv).
    + exfalso. destruct Hv as (d & Hd & E). symmetry in E. by eapply held_value in E; [..|by apply Hh|].
    + exists None. split; [by apply (holder_move gs None i g)|done].
  - eexists _, _, g. split; [reflexivity|]. rewrite list_insert_id by done. split; [done|]. by apply HQ.
Qed.

Lemma dec_spin_wp n i :
  dec_wp n (while (v ← ck_pr_load value; mret (negb (v =? 1))) stall) i (λ _ g, g = DecIdle) DecSpin.
Proof.
  apply (outside_wp_while _ _ _ _ _ _ (λ g, g = DecSpin)); [done|]. intros m g ->.
  apply outside_wp_bind, dec_load_wp; [|done|by apply outside_wp_ret].
  intros v Hv. apply outside_wp_ret. apply Z.eqb_neq in Hv as ->. by apply outside_wp_stall.
Qed.

Lemma dec_lock_wp n i :
  dec_wp n (ck_spinlock_dec_lock the_lock) i (λ _ g, g = DecHolds) DecIdle.
Proof.
  apply (outside_wp_while _ _ _ _ _ _ (λ g, g = DecIdle)); [done|]. intros m g ->.
  apply outside_wp_bind. eapply outside_wp_mono; [apply dec_zero_wp|].
  intros [] g ->; apply outside_wp_ret; [done|]. apply dec_spin_wp.
Qed.

Lemma dec_lock_eb_wp n i :
  dec_wp n (ck_spinlock_dec_lock_eb the_lock) i (λ _ g, g = DecHolds) DecIdle.
Proof.
  apply (wp_loop _ _ _ _ _ (λ _ l, l = (DecIdle, false))); [done|]. intros m b l ->.
  apply wp_bind. eapply wp_mono; [apply dec_zero_wp|]. intros [] [g f] [[= ->] [= ->]]; [by apply wp_ret|].
  apply wp_bind, (wp_mono _ _ _ _ _ (λ _ l, l = (DecIdle, false))); [|intros c l ->; by apply wp_ret].
  apply (wp_loop _ _ _ _ _ (λ _ l, l = (DecSpin, false))); [done|]. clear m b. intros m b l ->.
  apply wp_bind. apply (wp_mono _ _ _ _ _ (λ v l, l = (if v =? 1 then DecIdle else DecSpin, false))).
  - eapply wp_mono; [apply (dec_load_wp m i (λ v g, g = if v =? 1 then DecIdle else DecSpin)); [|done|done]|].
    + intros v Hv. by apply Z.eqb_neq in Hv as ->.
    + intros v [g f] [[= ->] [= ->]]. done.
  - intros v l ->. apply wp_ret. by destruct (v =? 1).
Qed.

Lemma dec_trylock_wp n i :
  dec_wp n (ck_spinlock_dec_trylock the_lock) i (λ b g, if (b : bool) then g = DecHolds else g = DecIdle) DecIdle.
Proof.
  apply outside_wp_bind, outside_wp_atomic; [done|]. intros [v] tr gs HI Hi.
  destruct HI as (Hl & [k|] & Hh & Hv); cbn in Hv.
  - destruct Hv as (d & Hd & ->). eexists _, _, DecIdle. split; [reflexivity|].
    rewrite list_insert_id by done. split.
    + split; [done|]. exists (Some k). split; [done|]. exists 0. split; [lia|done].
    + apply outside_wp_ret. cbn. assert (u32 (- d) ≠ 1) as Hne%Z.eqb_neq by by eapply held_value; [|apply Hh|].
      by rewrite Hne.
  - subst v. eexists _, _, DecHolds. split; [reflexivity|]. split; [|by apply outside_wp_ret].
    split; [by rewrite length_insert|]. exists (Some i). split; [by apply (holder_move gs None i DecIdle)|].
    exists 0. split; [|done]. pose proof (tally_range spinning (<[i:=DecHolds]> gs)). lia.
Qed.

Lemma dec_locked_wp n i :
  dec_wp n (ck_spinlock_dec_locked the_lock) i (λ _ g, g = DecIdle) DecIdle.
Proof. apply outside_wp_bind, dec_load_wp; [intros v _| done|]; by apply outside_wp_ret. Qed.

Lemma dec_unlock_wp n i :
  dec_wp n (ck_spinlock_dec_unlock the_lock) i (λ _ g, g = DecIdle) DecHolds.
Proof.
  apply outside_wp_atomic; [done|]. intros [v] tr gs (Hl & h & Hh & _) Hi.
  eexists _, _, DecIdle. split; [reflexivity|]. split; [|done]. split; [by rewrite length_insert|].
  exists None. split; [|done]. intros j. split; [|done]. apply Hh in Hi as Hi'. subst h.
  pose proof (lookup_lt_Some _ _ _ Hi). destruct (decide (i = j)) as [<-|].
  - by rewrite list_lookup_insert_eq.
  - rewrite list_lookup_insert_ne by done. intros ?%Hh. congruence.
Qed.
End laws.

Lemma dec_inv_init n : (n ≤ Z.to_nat 4294967295)%nat → dec_inv ck_spinlock_dec_init (replicate n DecIdle).
Proof.
  intros Hn. split; [rewrite length_replicate; lia|]. exists None. split; [|done].
  intros i. split; [|done]. by intros [[=] _]%lookup_replicate.
Qed.

Ltac dec_law :=
  refine {| ghost := dec_ghost; idle := DecIdle; holds := (λ g, g = DecHolds); lock_inv := dec_inv |};
  [ exact dec_inv_init
  | intros s gs i j g g' HI Hi Hj -> ->; by eapply dec_inv_excl
  | intros R n i HR
  | intros R n i trylock HR [= <-]; by apply dec_trylock_wp
  | intros R n i HR; by apply dec_locked_wp
  | intros R n i g HR ->; by apply dec_unlock_wp ].

#[export] Instance dec_laws : SpinlockLaws ck_spinlock_dec (Z.to_nat 4294967295).
Proof. dec_law. by apply dec_lock_wp. Defined.

Definition dec_eb_laws : @SpinlockLaws ck_spinlock_dec dec_eb_spinlock (Z.to_nat 4294967295).
Proof. dec_law. by apply dec_lock_eb_wp. Defined.
