(* ===== verification/CkTicket.v ===== *)
(** CkTicket: the ticket lock of Concurrency Kit, include/aerospike/ck/spinlock/ticket.h, in the variant for
    x86_64: one word of 32 bits with the ticket that is served in its low half and the next ticket in its
    high half. *)

From Stdlib Require Import ZArith Lia.
From stdpp Require Import base list.
From S2P Require Import Prelude Concurrent CkPr CkMutex.

#[local] Open Scope Z_scope.

(** [src: include/aerospike/ck/spinlock/ticket.h 52-52 CK_SPINLOCK_TICKET_INCREMENT] *)
Definition CK_SPINLOCK_TICKET_INCREMENT : Z := 65536.

(** [src: include/aerospike/ck/spinlock/ticket.h 53-53 CK_SPINLOCK_TICKET_MASK] *)
Definition CK_SPINLOCK_TICKET_MASK : Z := 65535.

(** [src: include/aerospike/ck/spinlock/ticket.h 54-54 CK_SPINLOCK_TICKET_SHIFT] *)
Definition CK_SPINLOCK_TICKET_SHIFT : Z := 16.

(** [src: include/aerospike/ck/spinlock/ticket.h 71-74 ck_spinlock_ticket] *)
Record ck_spinlock_ticket : Type := MkTicket { ticket_value : Z }.
Definition ticket_value_loc : loc ck_spinlock_ticket Z := MkLoc ticket_value (λ v _, MkTicket v).

(** The word as [uint16_t], on a little-endian machine. *)
Definition low_half : loc Z Z := MkLoc (λ v, v mod 65536) (λ x v, v / 65536 * 65536 + x).

(** [src: include/aerospike/ck/spinlock/ticket.h 77-84 ck_spinlock_ticket_init] *)
Definition ck_spinlock_ticket_init : ck_spinlock_ticket := MkTicket 0.

(** The two halves of the word.
    [src: include/aerospike/ck/spinlock/ticket.h 91-93 ck_spinlock_ticket_locked] *)
Definition ticket_position (v : Z) : Z := Z.land v CK_SPINLOCK_TICKET_MASK.
Definition ticket_request (v : Z) : Z := Z.shiftr v CK_SPINLOCK_TICKET_SHIFT.

Section ticket.
Context {S : Type} (ticket : loc S ck_spinlock_ticket).
Abbreviation value := (ticket →' ticket_value_loc).

(** [src: include/aerospike/ck/spinlock/ticket.h 86-97 ck_spinlock_ticket_locked] *)
Definition ck_spinlock_ticket_locked : prog S bool :=
  request ← ck_pr_load value;
  mret (negb (ticket_request request =? ticket_position request)).

(** [src: include/aerospike/ck/spinlock/ticket.h 99-119 ck_spinlock_ticket_lock] *)
Definition ck_spinlock_ticket_lock : prog S unit :=
  v ← ck_pr_faa 32 value CK_SPINLOCK_TICKET_INCREMENT;
  let request := ticket_request v in
  loop (λ position,
    if request =? position then mret (inr tt)
    else stall;; v ← ck_pr_load value; mret (inl (ticket_position v))) (ticket_position v).

(** The same, waiting longer the more threads are before.
    [src: include/aerospike/ck/spinlock/ticket.h 121-146 ck_spinlock_ticket_lock_pb] *)
Definition ck_spinlock_ticket_lock_pb (c : Z) : prog S unit :=
  v ← ck_pr_faa 32 value CK_SPINLOCK_TICKET_INCREMENT;
  let request := ticket_request v in
  loop (λ position,
    if request =? position then mret (inr tt)
    else
      stall;;
      v ← ck_pr_load value;
      let position := ticket_position v in
      let backoff := Z.land (u32 (request - position)) CK_SPINLOCK_TICKET_MASK in
      backoff ← pure (if c <? 32 then Ret (u32 (Z.shiftl backoff c)) else Fault BadShift);
      let _ := ck_backoff_eb backoff in
      mret (inl position)) (ticket_position v).

(** [src: include/aerospike/ck/spinlock/ticket.h 148-167 ck_spinlock_ticket_trylock] *)
Definition ck_spinlock_ticket_trylock : prog S bool :=
  snapshot ← ck_pr_load value;
  if negb (ticket_position snapshot =? ticket_request snapshot) then mret false
  else
    b ← ck_pr_cas value snapshot (u32 (snapshot + CK_SPINLOCK_TICKET_INCREMENT));
    mret b.

(** [src: include/aerospike/ck/spinlock/ticket.h 169-176 ck_spinlock_ticket_unlock] *)
Definition ck_spinlock_ticket_unlock : prog S unit := ck_pr_inc 16 (value →' low_half).
End ticket.

#[export] Instance ticket_spinlock : Spinlock ck_spinlock_ticket := {
  spin_init := ck_spinlock_ticket_init;
  spin_lock := λ S lock _, ck_spinlock_ticket_lock lock;
  spin_trylock := λ S, Some (λ lock _, ck_spinlock_ticket_trylock lock);
  spin_locked := λ S lock _, ck_spinlock_ticket_locked lock;
  spin_unlock := λ S lock _, ck_spinlock_ticket_unlock lock
}.

(** ** The words *)

(** The word in which [p] is served and [n] is the next ticket, for tickets that do not wrap. *)
Definition ticket_word (p n : Z) : Z := (n mod 65536) * 65536 + p mod 65536.

Lemma ticket_word_low p n : ticket_word p n mod 65536 = p mod 65536.
Proof.
  unfold ticket_word. rewrite Z.add_comm, Z.mod_add by lia. by rewrite Z.mod_mod by lia.
Qed.

Lemma ticket_word_high p n : ticket_word p n / 65536 = n mod 65536.
Proof. unfold ticket_word. pose proof (Z.mod_pos_bound p 65536). div_lia. Qed.

Lemma ticket_position_word p n : ticket_position (ticket_word p n) = p mod 65536.
Proof.
  rewrite <- (ticket_word_low p n). unfold ticket_position, CK_SPINLOCK_TICKET_MASK.
  change 65535 with (Z.ones 16). by rewrite Z.land_ones by lia.
Qed.

Lemma ticket_request_word p n : ticket_request (ticket_word p n) = n mod 65536.
Proof.
  rewrite <- (ticket_word_high p n). unfold ticket_request, CK_SPINLOCK_TICKET_SHIFT.
  by rewrite Z.shiftr_div_pow2 by lia.
Qed.

Lemma ticket_word_next p n : u32 (ticket_word p n + 65536) = ticket_word p (n + 1).
Proof.
  unfold ticket_word, uwrap. change (2 ^ 32) with 4294967296.
  pose proof (Z.mod_pos_bound p 65536). pose proof (Z.mod_pos_bound n 65536).
  rewrite (Z.add_mod n 1) by lia. rewrite (Z.mod_small 1) by lia.
  destruct (Z.eq_dec (n mod 65536) 65535) as [E|E].
  - rewrite E. change ((65535 + 1) mod 65536) with 0.
    replace (65535 * 65536 + p mod 65536 + 65536) with (p mod 65536 + 1 * 4294967296) by lia.
    rewrite Z.mod_add by lia. apply Z.mod_small. lia.
  - rewrite (Z.mod_small (n mod 65536 + 1)) by lia. rewrite Z.mod_small by lia. lia.
Qed.

Lemma ticket_word_serve p n :
  loc_set low_half (uwrap 16 (loc_get low_half (ticket_word p n) + 1)) (ticket_word p n) = ticket_word (p + 1) n.
Proof.
  unfold low_half, uwrap. cbn [loc_get loc_set]. rewrite ticket_word_low, ticket_word_high.
  change (2 ^ 16) with 65536. by rewrite Zplus_mod_idemp_l.
Qed.

(** Fewer than 2^16 tickets apart, equal halves are equal tickets. *)
Lemma ticket_half_inj p j : 0 ≤ j < 65536 → (p + j) mod 65536 = p mod 65536 → j = 0.
Proof. intros Hj E. div_lia. Qed.

(** ** The queue of the threads that have a ticket *)

(** A thread has no ticket, or one, and then perhaps it knows that it is served. *)
Definition ticket_ghost : Type := option (Z * bool).

(** The threads with the tickets from [p] on, in the order of the tickets; the first may be served. *)
Definition queue_ok (p : Z) (q : list nat) (gs : list ticket_ghost) : Prop :=
  (∀ j i, q !! j = Some i → ∃ h, gs !! i = Some (Some (p + Z.of_nat j, h))) ∧
  (∀ i k h, gs !! i = Some (Some (k, h)) →
     ∃ j, q !! j = Some i ∧ k = p + Z.of_nat j ∧ (h = true → j = 0%nat)).

Definition ticket_inv (x : ck_spinlock_ticket) (gs : list ticket_ghost) : Prop :=
  ∃ p q, ticket_value x = ticket_word p (p + Z.of_nat (length q)) ∧ queue_ok p q gs
    ∧ (length gs ≤ Z.to_nat 65536)%nat.

Lemma queue_NoDup p q gs : queue_ok p q gs → NoDup q.
Proof.
  intros [H _]. apply NoDup_alt. intros j j' i Hj Hj'.
  destruct (H j i Hj) as [h E], (H j' i Hj') as [h' E']. rewrite E in E'. injection E' as E'. lia.
Qed.

Lemma length_below (q : list nat) n : NoDup q → (∀ i, i ∈ q → (i < n)%nat) → (length q ≤ n)%nat.
Proof.
  intros Hn Hq. rewrite <- (length_seq n 0). apply submseteq_length, NoDup_submseteq; [done|].
  intros i Hi%Hq. apply elem_of_seq. lia.
Qed.

Lemma queue_lt p q gs i : queue_ok p q gs → i ∈ q → (i < length gs)%nat.
Proof.
  intros [H _] [j Hj]%list_elem_of_lookup. destruct (H j i Hj) as [h E]. by eapply lookup_lt_Some.
Qed.

Lemma queue_length p q gs : queue_ok p q gs → (length q ≤ length gs)%nat.
Proof.
  intros H. apply length_below; [by eapply queue_NoDup|]. intros i. by apply (queue_lt p q gs).
Qed.

Lemma queue_not_in p q gs i : queue_ok p q gs → gs !! i = Some None → i ∉ q.
Proof. intros [H _] Hi [j Hj]%list_elem_of_lookup. destruct (H j i Hj). congruence. Qed.

(** A thread without a ticket is not in the queue, which is then shorter. *)
Lemma queue_length_idle p q gs i :
  queue_ok p q gs → gs !! i = Some None → (length q < length gs)%nat.
Proof.
  intros H Hi. apply (length_below (i :: q)).
  - constructor; [by eapply queue_not_in | by eapply queue_NoDup].
  - intros k [->|Hk]%elem_of_cons; [by eapply lookup_lt_Some | by eapply queue_lt].
Qed.

(** It takes the next ticket. *)
Lemma queue_join p q gs i :
  queue_ok p q gs → gs !! i = Some None →
  queue_ok p (q ++ [i]) (<[i := Some (p + Z.of_nat (length q), bool_decide (q = []))]> gs).
Proof.
  intros HQ Hi. pose proof (queue_not_in _ _ _ _ HQ Hi) as Hni. destruct HQ as [H1 H2].
  pose proof (lookup_lt_Some _ _ _ Hi) as Hlt. split.
  - intros j k Hj. apply lookup_app_Some in Hj as [Hj|[Hge Hj]].
    + destruct (H1 j k Hj) as [h E]. exists h. rewrite list_lookup_insert_ne; [done|].
      intros <-. apply Hni. by eapply list_elem_of_lookup_2.
    + apply list_lookup_singleton_Some in Hj as [Hj <-]. eexists. rewrite list_lookup_insert_eq by done.
      by replace j with (length q) by lia.
  - intros k t h Hk. destruct (decide (i = k)) as [<-|].
    + rewrite list_lookup_insert_eq in Hk by done. injection Hk as <- <-. exists (length q).
      split; [by apply list_lookup_middle|]. split; [done|]. intros ->%bool_decide_eq_true. done.
    + rewrite list_lookup_insert_ne in Hk by done. destruct (H2 k t h Hk) as (j & Hj & Ht & Hh).
      exists j. split; [by apply lookup_app_l_Some | done].
Qed.

(** It finds out that it is served. *)
Lemma queue_served p q gs i k b :
  queue_ok p q gs → gs !! i = Some (Some (k, false)) → (b = true → k = p) →
  queue_ok p q (<[i := Some (k, b)]> gs).
Proof.
  intros [H1 H2] Hi Hb. pose proof (lookup_lt_Some _ _ _ Hi) as Hlt. split.
  - intros j t Hj. destruct (H1 j t Hj) as [h E]. destruct (decide (i = t)) as [<-|].
    + exists b. rewrite list_lookup_insert_eq by done. congruence.
    + exists h. by rewrite list_lookup_insert_ne.
  - intros t k' h Ht. destruct (decide (i = t)) as [<-|].
    + rewrite list_lookup_insert_eq in Ht by done. injection Ht as <- <-.
      destruct (H2 i k false Hi) as (j & Hj & E & _). exists j. split; [done|]. split; [done|].
      intros ->. specialize (Hb eq_refl). lia.
    + rewrite list_lookup_insert_ne in Ht by done. eauto.
Qed.

(** The first leaves. *)
Lemma queue_leave p q gs i k :
  queue_ok p q gs → gs !! i = Some (Some (k, true)) →
  ∃ q', q = i :: q' ∧ queue_ok (p + 1) q' (<[i := None]> gs).
Proof.
  intros HQ Hi. pose proof (queue_NoDup _ _ _ HQ) as Hnd. destruct HQ as [H1 H2].
  pose proof (lookup_lt_Some _ _ _ Hi) as Hlt.
  destruct (H2 i k true Hi) as (j & Hj & E & Hh). rewrite (Hh eq_refl) in Hj.
  destruct q as [|i' q]; [done|]. injection Hj as ->. exists q. split; [done|].
  apply NoDup_cons in Hnd as [Hni _]. split.
  - intros j' t Ht. destruct (H1 (Datatypes.S j') t Ht) as [h E']. exists h.
    rewrite list_lookup_insert_ne by (intros <-; apply Hni; by eapply list_elem_of_lookup_2).
    etransitivity; [exact E'|]. do 3 f_equal. lia.
  - intros t k' h Ht. destruct (decide (i = t)) as [<-|];
      [by rewrite list_lookup_insert_eq in Ht by done|].
    rewrite list_lookup_insert_ne in Ht by done. destruct (H2 t k' h Ht) as ([|j'] & Hj' & Ek & Hh').
    + injection Hj' as <-. done.
    + exists j'. split; [done|]. split; [lia|]. intros Hht. specialize (Hh' Hht). lia.
Qed.

(** ** The lock satisfies the laws, for at most 2^16 threads *)

Section laws.
Context (R : list mark → list (ticket_ghost * bool) → Prop) (Rs : frame_stable R).
Abbreviation ticket_wp := (lock_wp ticket_inv R).
Abbreviation word := (the_lock →' ticket_value_loc).

(** Reading the word: a thread that waits finds its ticket served only when it is the first. *)
Lemma ticket_load_wp n i (Q : Z → ticket_ghost → Prop) g :
  (∀ p (q : list nat), (Z.of_nat (length q) < 65536 ∨ g ≠ None) → Q (ticket_word p (p + Z.of_nat (length q))) g) →
  ticket_wp n (ck_pr_load word) i Q g.
Proof.
  intros HQ. apply outside_wp_atomic; [done|]. intros s tr gs (p & q & E & Hq & Hn) Hi.
  eexists _, _, g. split; [reflexivity|]. rewrite list_insert_id by done.
  split; [by exists p, q|]. cbn. rewrite E. apply HQ. destruct g; [by right|]. left.
  pose proof (queue_length_idle _ _ _ _ Hq Hi). lia.
Qed.

Lemma ticket_check_wp n i (Q : Z → ticket_ghost → Prop) k :
  (∀ v, (k mod 65536 =? ticket_position v) = false → Q v (Some (k, false))) →
  (∀ v, (k mod 65536 =? ticket_position v) = true → Q v (Some (k, true))) →
  ticket_wp n (ck_pr_load word) i Q (Some (k, false)).
Proof.
  intros Hno Hyes. apply outside_wp_atomic; [done|]. intros s tr gs (p & q & E & Hq & Hn) Hi.
  set (b := k mod 65536 =? ticket_position (ticket_value s)).
  eexists _, _, (Some (k, b)). split; [reflexivity|]. split.
  - exists p, q. split; [done|]. rewrite length_insert. split; [|done].
    apply (queue_served p q gs i k b Hq Hi). unfold b. rewrite E, ticket_position_word, Z.eqb_eq.
    destruct Hq as [H1 H2] eqn:HQ. destruct (H2 i k false Hi) as (j & Hj & -> & _).
    pose proof (queue_length p q gs Hq) as Hl. apply lookup_lt_Some in Hj.
    intros Ek%ticket_half_inj; lia.
  - cbn. destruct b eqn:Hb; [by apply Hyes | by apply Hno].
Qed.

Lemma ticket_faa_wp n i (Q : Z → ticket_ghost → Prop) :
  (∀ v k, ticket_request v = k mod 65536 →
     Q v (Some (k, k mod 65536 =? ticket_position v))) →
  ticket_wp n (ck_pr_faa 32 word CK_SPINLOCK_TICKET_INCREMENT) i Q None.
Proof.
  intros HQ. apply outside_wp_atomic; [done|]. intros s tr gs (p & q & E & Hq & Hn) Hi.
  pose proof (queue_length_idle _ _ _ _ Hq Hi) as Hl.
  set (k := p + Z.of_nat (length q)).
  eexists _, _, (Some (k, bool_decide (q = []))). split; [reflexivity|]. split.
  - exists p, (q ++ [i]). split.
    + cbn. rewrite E. unfold CK_SPINLOCK_TICKET_INCREMENT. rewrite ticket_word_next, length_app. cbn.
      f_equal. lia.
    + split; [by apply queue_join | by rewrite length_insert].
  - cbn. rewrite E. replace (bool_decide (q = [])) with (k mod 65536 =? ticket_position (ticket_word p k)).
    + apply HQ. by rewrite ticket_request_word.
    + rewrite ticket_position_word. apply Bool.eq_iff_eq_true. rewrite Z.eqb_eq, bool_decide_eq_true.
      split; [|intros ->; unfold k; cbn; f_equal; lia].
      intros Ek%ticket_half_inj; [|lia]. by destruct q.
Qed.

Lemma ticket_lock_wp n i :
  ticket_wp n (ck_spinlock_ticket_lock the_lock) i (λ _ g, ∃ k, g = Some (k, true)) None.
Proof.
  apply outside_wp_bind, ticket_faa_wp. intros v k Ev. cbv zeta. rewrite Ev.
  apply (wp_loop _ _ _ _ _
    (λ pos l, l = (Some (k, k mod 65536 =? pos), false))); [done|].
  clear n v Ev. intros n pos l ->. destruct (k mod 65536 =? pos) eqn:Ep.
  { apply wp_ret. split; [done|]. by exists k. }
  apply wp_bind, wp_stall, wp_bind.
  eapply wp_mono; [apply (ticket_check_wp n i (λ v g, g = Some (k, k mod 65536 =? ticket_position v)))|].
  - by intros v ->.
  - by intros v ->.
  - intros v [g b] [[= ->] Hg]. cbn in Hg. subst. by apply wp_ret.
Qed.

(** With back-off, for shifts that are defined. *)
Lemma ticket_lock_pb_wp n i c :
  c < 32 →
  ticket_wp n (ck_spinlock_ticket_lock_pb the_lock c) i (λ _ g, ∃ k, g = Some (k, true)) None.
Proof.
  intros Hc. apply outside_wp_bind, ticket_faa_wp. intros v k Ev. cbv zeta. rewrite Ev.
  apply (wp_loop _ _ _ _ _
    (λ pos l, l = (Some (k, k mod 65536 =? pos), false))); [done|].
  clear n v Ev. intros n pos l ->. destruct (k mod 65536 =? pos) eqn:Ep.
  { apply wp_ret. split; [done|]. by exists k. }
  apply wp_bind, wp_stall, wp_bind.
  eapply wp_mono; [apply (ticket_check_wp n i (λ v g, g = Some (k, k mod 65536 =? ticket_position v)))|].
  - by intros v ->.
  - by intros v ->.
  - intros v [g b] [[= ->] Hg]. cbn in Hg. subst. apply wp_bind, wp_pure.
    apply Z.ltb_lt in Hc as ->. eexists. split; [done|]. by apply wp_ret.
Qed.

Lemma ticket_unlock_wp n i k :
  ticket_wp n (ck_spinlock_ticket_unlock the_lock) i (λ _ g, g = None) (Some (k, true)).
Proof.
  apply outside_wp_atomic; [done|]. intros s tr gs (p & q & E & Hq & Hn) Hi.
  destruct (queue_leave _ _ _ _ _ Hq Hi) as (q' & -> & Hq').
  eexists _, _, None. split; [reflexivity|]. split; [|done].
  exists (p + 1), q'. rewrite length_insert. split; [|done].
  change (loc_set low_half (uwrap 16 (loc_get low_half (ticket_value s) + 1)) (ticket_value s)
          = ticket_word (p + 1) (p + 1 + Z.of_nat (length q'))).
  rewrite E, ticket_word_serve. f_equal. cbn. lia.
Qed.

Lemma ticket_trylock_wp n i :
  ticket_wp n (ck_spinlock_ticket_trylock the_lock) i
    (λ b g, if (b : bool) then ∃ k, g = Some (k, true) else g = None) None.
Proof.
  apply outside_wp_bind, ticket_load_wp. intros p q _. generalize (ticket_word p (p + Z.of_nat (length q))). clear p q. intros v.
  destruct (ticket_position v =? ticket_request v) eqn:Ev; cbn [negb]; [|by apply outside_wp_ret].
  apply outside_wp_bind, outside_wp_atomic; [done|]. intros s tr gs (p' & q' & E & Hq & Hn) Hi.
  pose proof (queue_length_idle _ _ _ _ Hq Hi) as Hl.
  destruct (ticket_value s =? v) eqn:Es.
  - apply Z.eqb_eq in Es. subst v. rewrite E in Ev.
    rewrite ticket_position_word, ticket_request_word, Z.eqb_eq in Ev. symmetry in Ev.
    apply ticket_half_inj in Ev; [|lia]. destruct q' as [|? ?]; [|done].
    eexists _, _, (Some (p', true)). split; [reflexivity|]. split.
    + exists p', [i]. split.
      * cbn. rewrite Z.eqb_refl, E. unfold CK_SPINLOCK_TICKET_INCREMENT.
        rewrite ticket_word_next. cbn. f_equal. lia.
      * split; [|by rewrite length_insert].
        pose proof (queue_join p' [] gs i Hq Hi) as Hj. cbn in Hj. rewrite Z.add_0_r in Hj. exact Hj.
    + cbn. rewrite Z.eqb_refl. apply outside_wp_ret. by exists p'.
  - eexists _, _, None. split; [reflexivity|]. rewrite list_insert_id by done. split.
    + exists p', q'. cbn. by rewrite Es.
    + cbn. rewrite Es. by apply outside_wp_ret.
Qed.

Lemma ticket_locked_wp n i :
  ticket_wp n (ck_spinlock_ticket_locked the_lock) i (λ _ g, g = None) None.
Proof. apply outside_wp_bind, ticket_load_wp. intros p q _. by apply outside_wp_ret. Qed.
End laws.

(** The lock taken with back-off by a shift of [c]. *)
Definition ticket_pb_spinlock (c : Z) : Spinlock ck_spinlock_ticket := {|
  spin_init := ck_spinlock_ticket_init;
  spin_lock := λ S lock _, ck_spinlock_ticket_lock_pb lock c;
  spin_trylock := λ S, Some (λ lock _, ck_spinlock_ticket_trylock lock);
  spin_locked := λ S lock _, ck_spinlock_ticket_locked lock;
  spin_unlock := λ S lock _, ck_spinlock_ticket_unlock lock
|}.

Lemma ticket_inv_excl s gs i j g g' :
  ticket_inv s gs → gs !! i = Some g → gs !! j = Some g' →
  (∃ k, g = Some (k, true)) → (∃ k, g' = Some (k, true)) → i = j.
Proof.
  intros (p & q & _ & [_ H2] & _) Hi Hj [k ->] [k' ->].
  destruct (H2 i k true Hi) as (a & Ha & _ & E), (H2 j k' true Hj) as (b & Hb & _ & E').
  rewrite (E eq_refl) in Ha. rewrite (E' eq_refl) in Hb. congruence.
Qed.

Ltac ticket_law :=
  refine {| ghost := ticket_ghost; idle := None; holds := (λ g, ∃ k, g = Some (k, true));
            lock_inv := ticket_inv |};
  [ intros n Hn; exists 0, []; split; [done|]; rewrite length_replicate; split; [|done];
    split; [done|]; intros i k h Hi; by apply lookup_replicate in Hi as [[=] _]
  | exact ticket_inv_excl
  | intros R n i HR
  | intros R n i trylock HR [= <-]; by apply ticket_trylock_wp
  | intros R n i HR; by apply ticket_locked_wp
  | intros R n i g HR [k ->]; by apply ticket_unlock_wp ].

#[export] Instance ticket_laws : SpinlockLaws ck_spinlock_ticket (Z.to_nat 65536).
Proof. ticket_law. by apply ticket_lock_wp. Defined.

Definition ticket_pb_laws c : c < 32 → @SpinlockLaws ck_spinlock_ticket (ticket_pb_spinlock c) (Z.to_nat 65536).
Proof. intros Hc. ticket_law. by apply ticket_lock_pb_wp. Defined.
