(* ===== verification/CkMcs.v ===== *)
(** CkMcs: the queue lock of Mellor-Crummey and Scott, include/aerospike/ck/spinlock/mcs.h: a thread waits
    until the one before it in the queue writes into its node. *)

From Stdlib Require Import ZArith Lia.
From stdpp Require Import base list gmap.
From S2P Require Import Prelude Concurrent CkPr CkMutex.

#[local] Open Scope Z_scope.

(** [src: include/aerospike/ck/spinlock/mcs.h 38-42 ck_spinlock_mcs] *)
Record ck_spinlock_mcs : Type := MkMcs { mcs_locked : Z; mcs_next : Z }.

Definition set_mcs_locked (v : Z) (n : ck_spinlock_mcs) : ck_spinlock_mcs := MkMcs v (mcs_next n).
Definition set_mcs_next (v : Z) (n : ck_spinlock_mcs) : ck_spinlock_mcs := MkMcs (mcs_locked n) v.

(** [src: include/aerospike/ck/spinlock/mcs.h 45-45 CK_SPINLOCK_MCS_INITIALIZER] *)
Definition CK_SPINLOCK_MCS_INITIALIZER : Z := 0.

Section mcs.
Context {S : Type} (queue : loc S Z) (nodes : loc S (gmap Z ck_spinlock_mcs)).

(** [src: include/aerospike/ck/spinlock/mcs.h 47-54 ck_spinlock_mcs_init] *)
Definition ck_spinlock_mcs_init : prog S unit := ck_pr_store queue 0.

(** [src: include/aerospike/ck/spinlock/mcs.h 56-69 ck_spinlock_mcs_trylock] *)
Definition ck_spinlock_mcs_trylock (node : Z) : prog S bool :=
  store_member nodes node (set_mcs_locked 1);;
  store_member nodes node (set_mcs_next 0);;
  ck_pr_cas queue 0 node.

(** [src: include/aerospike/ck/spinlock/mcs.h 71-79 ck_spinlock_mcs_locked] *)
Definition ck_spinlock_mcs_locked : prog S bool :=
  q ← ck_pr_load queue;
  mret (negb (q =? 0)).

(** [src: include/aerospike/ck/spinlock/mcs.h 81-113 ck_spinlock_mcs_lock] *)
Definition ck_spinlock_mcs_lock (node : Z) : prog S unit :=
  store_member nodes node (set_mcs_locked 1);;
  store_member nodes node (set_mcs_next 0);;
  previous ← ck_pr_fas queue node;
  if previous =? 0 then mret tt
  else
    store_member nodes previous (set_mcs_next node);;
    while (v ← load_member nodes node mcs_locked; mret (v =? 1)) stall.

(** The address of the next node is not [NULL] at the end of the loop.
    [src: include/aerospike/ck/spinlock/mcs.h 115-153 ck_spinlock_mcs_unlock] *)
Definition ck_spinlock_mcs_unlock (node : Z) : prog S unit :=
  next ← load_member nodes node mcs_next;
  next ← (if next =? 0 then
            q ← ck_pr_load queue;
            emptied ← (if q =? node then ck_pr_cas queue node 0 else mret false);
            if (emptied : bool) then mret None
            else
              loop (λ _ : unit,
                next ← load_member nodes node mcs_next;
                if negb (next =? 0) then mret (inr (Some next))
                else stall;; mret (inl tt)) tt
          else mret (Some next));
  match next with
  | None => mret tt
  | Some next => store_member nodes next (set_mcs_locked 0)
  end.
End mcs.

(** ** The lock of [max] threads, each with a node of its own *)

Record mcs_lock : Type := MkMcsLock { mcs_queue : Z; mcs_nodes : gmap Z ck_spinlock_mcs }.
Definition mcs_queue_loc : loc mcs_lock Z := MkLoc mcs_queue (λ v s, MkMcsLock v (mcs_nodes s)).
Definition mcs_nodes_loc : loc mcs_lock (gmap Z ck_spinlock_mcs) :=
  MkLoc mcs_nodes (λ v s, MkMcsLock (mcs_queue s) v).

#[export] Instance mcs_spinlock (max : nat) : Spinlock mcs_lock := {
  spin_init := MkMcsLock CK_SPINLOCK_MCS_INITIALIZER (own_nodes max (MkMcs 0 0));
  spin_lock := λ S lock i, ck_spinlock_mcs_lock (lock →' mcs_queue_loc) (lock →' mcs_nodes_loc) (own_node i);
  spin_trylock := λ S, Some (λ lock i,
    ck_spinlock_mcs_trylock (lock →' mcs_queue_loc) (lock →' mcs_nodes_loc) (own_node i));
  spin_locked := λ S lock i, ck_spinlock_mcs_locked (lock →' mcs_queue_loc);
  spin_unlock := λ S lock i, ck_spinlock_mcs_unlock (lock →' mcs_queue_loc) (lock →' mcs_nodes_loc) (own_node i)
}.

(** ** The queue of the threads that have the lock or wait for it *)

(** A thread outside, after [k] of its stores; in the queue behind [p], before it told [p]; waiting; with the
    lock; with the lock and the thread that is next. *)
Inductive mcs_ghost : Type :=
  | McsOut (k : nat)
  | McsJoined (p : nat)
  | McsWaits
  | McsHolds
  | McsPasses (next : nat).

Definition mcs_tail (q : list nat) : Z := match last q with Some i => own_node i | None => 0 end.

Definition mcs_joined (g : mcs_ghost) : bool := match g with McsJoined _ => true | _ => false end.

(** What the node of the thread at a place of the queue has as [next]: the thread behind it, when that told. *)
Definition mcs_link (gs : list mcs_ghost) (behind : option nat) : Z :=
  match behind with
  | Some k => match gs !! k with Some (McsJoined _) => 0 | _ => own_node k end
  | None => 0
  end.

Definition mcs_told (gs : list mcs_ghost) (k : nat) : Prop := ∀ p, gs !! k ≠ Some (McsJoined p).

Definition mcs_place_ok (q : list nat) (gs : list mcs_ghost) (j : nat) (g : mcs_ghost) (n : ck_spinlock_mcs) : Prop :=
  mcs_next n = mcs_link gs (q !! Datatypes.S j) ∧
  match g with
  | McsOut _ => False
  | McsJoined p => (∃ j', j = Datatypes.S j' ∧ q !! j' = Some p) ∧ mcs_locked n = 1
  | McsWaits => mcs_locked n = if decide (j = 0%nat) then 0 else 1
  | McsHolds => j = 0%nat
  | McsPasses k => j = 0%nat ∧ q !! 1%nat = Some k ∧ mcs_told gs k
  end.

Definition mcs_out_ok (k : nat) (n : ck_spinlock_mcs) : Prop :=
  ((1 ≤ k)%nat → mcs_locked n = 1) ∧ ((2 ≤ k)%nat → mcs_next n = 0).

Record mcs_queue_ok (q : list nat) (ns : gmap Z ck_spinlock_mcs) (gs : list mcs_ghost) : Prop := {
  mq_place j i : q !! j = Some i → ∃ g n, gs !! i = Some g ∧ ns !! own_node i = Some n ∧ mcs_place_ok q gs j g n;
  mq_in i g : gs !! i = Some g → (∃ k, g = McsOut k) ∨ i ∈ q;
  mq_out i k : gs !! i = Some (McsOut k) → ∃ n, ns !! own_node i = Some n ∧ mcs_out_ok k n;
  mq_nodup : NoDup q
}.

Definition mcs_inv (x : mcs_lock) (gs : list mcs_ghost) : Prop :=
  ∃ q, mcs_queue x = mcs_tail q ∧ mcs_queue_ok q (mcs_nodes x) gs.

(** *** What keeps the queue *)

Lemma mcs_link_insert gs i g g' b :
  gs !! i = Some g → mcs_joined g' = mcs_joined g →
  mcs_link (<[i := g']> gs) b = mcs_link gs b.
Proof.
  intros Hi Hg. destruct b as [k|]; [|done]. cbn. destruct (decide (i = k)) as [<-|Hne].
  - rewrite list_lookup_insert_eq by (by eapply lookup_lt_Some). rewrite Hi.
    by destruct g, g'.
  - by rewrite list_lookup_insert_ne.
Qed.

Lemma mcs_told_insert gs i g k : (∀ p, g ≠ McsJoined p) → mcs_told gs k → mcs_told (<[i := g]> gs) k.
Proof.
  intros Hg H p. destruct (decide (i = k)) as [<-|]; [|rewrite list_lookup_insert_ne by done; apply H].
  destruct (decide (i < length gs)%nat).
  - rewrite list_lookup_insert_eq by done. intros [= E]. by apply (Hg p).
  - rewrite list_insert_ge by lia. apply H.
Qed.

(** Changing what another thread does, while whether it has told stays. *)
Lemma mcs_place_other q gs i g g' j gj n :
  gs !! i = Some g → mcs_joined g' = mcs_joined g →
  mcs_place_ok q gs j gj n → mcs_place_ok q (<[i := g']> gs) j gj n.
Proof.
  intros Hi Hg [Hn Hp]. split; [by rewrite (mcs_link_insert _ _ _ _ _ Hi Hg)|].
  destruct gj as [k|p| | |k]; try done. destruct Hp as (? & ? & Ht). split; [done|]. split; [done|].
  destruct (decide (i = k)) as [<-|].
  - intros p. rewrite list_lookup_insert_eq by (by eapply lookup_lt_Some). intros [= ->].
    destruct g as [|p'| | |]; try done. by apply (Ht p').
  - intros p. rewrite list_lookup_insert_ne by done. apply Ht.
Qed.

Lemma mcs_place_lookup q ns gs j i g :
  mcs_queue_ok q ns gs → q !! j = Some i → gs !! i = Some g → ∃ n, ns !! own_node i = Some n ∧ mcs_place_ok q gs j g n.
Proof. intros H Hj Hi. destruct (mq_place _ _ _ H j i Hj) as (g' & n & E & ? & ?). exists n. by simplify_eq. Qed.

(** The place of a thread that is not outside. *)
Lemma mcs_place_of q ns gs i g :
  mcs_queue_ok q ns gs → gs !! i = Some g → (∀ k, g ≠ McsOut k) →
  ∃ j n, q !! j = Some i ∧ ns !! own_node i = Some n ∧ mcs_place_ok q gs j g n.
Proof.
  intros H Hi Hg. destruct (mq_in _ _ _ H i g Hi) as [[k ->]|Hin]; [by destruct (Hg k)|].
  apply list_elem_of_lookup in Hin as [j Hj]. destruct (mcs_place_lookup _ _ _ _ _ _ H Hj Hi) as (n & ? & ?).
  by exists j, n.
Qed.

Lemma mcs_out_not_in q ns gs i k : mcs_queue_ok q ns gs → gs !! i = Some (McsOut k) → i ∉ q.
Proof.
  intros H Hi [j Hj]%list_elem_of_lookup. destruct (mcs_place_lookup _ _ _ _ _ _ H Hj Hi) as (n & _ & _ & []).
Qed.

Lemma mcs_node q ns gs i g : mcs_queue_ok q ns gs → gs !! i = Some g → ∃ n, ns !! own_node i = Some n.
Proof.
  intros H Hi. destruct g as [k|p| | |k].
  1: destruct (mq_out _ _ _ H i k Hi) as (n & ? & _); by exists n.
  all: destruct (mcs_place_of _ _ _ _ _ H Hi) as (j & n & _ & ? & _); [done|by exists n].
Qed.

(** A thread outside writes its node. *)
Lemma mcs_out_step q ns gs i k k' n :
  mcs_queue_ok q ns gs → gs !! i = Some (McsOut k) → mcs_out_ok k' n →
  mcs_queue_ok q (<[own_node i := n]> ns) (<[i := McsOut k']> gs).
Proof.
  intros H Hi Hn. pose proof (mcs_out_not_in _ _ _ _ _ H Hi) as Hni.
  pose proof (lookup_lt_Some _ _ _ Hi) as Hlt. split; [| | |apply H].
  - intros j i' Hj. assert (i' ≠ i) as Hne by (intros ->; apply Hni; by eapply list_elem_of_lookup_2).
    destruct (mq_place _ _ _ H j i' Hj) as (g & n' & Hg & Hn' & Hp). exists g, n'.
    rewrite list_lookup_insert_ne, lookup_insert_ne by (done || intros ?%own_node_inj; congruence).
    split; [done|]. split; [done|]. by eapply mcs_place_other.
  - intros i' g Hg. destruct (decide (i = i')) as [<-|].
    + rewrite list_lookup_insert_eq in Hg by done. injection Hg as <-. left. by eexists.
    + rewrite list_lookup_insert_ne in Hg by done. by apply (mq_in _ _ _ H).
  - intros i' k1 Hg. destruct (decide (i = i')) as [<-|].
    + rewrite list_lookup_insert_eq in Hg by done. injection Hg as <-. exists n. by rewrite lookup_insert_eq.
    + rewrite list_lookup_insert_ne in Hg by done.
      rewrite lookup_insert_ne by (intros ?%own_node_inj; congruence). by apply (mq_out _ _ _ H).
Qed.

(** A thread takes the end of the queue. *)
Lemma mcs_join q ns gs i :
  mcs_queue_ok q ns gs → gs !! i = Some (McsOut 2) →
  mcs_queue_ok (q ++ [i]) ns (<[i := match last q with Some p => McsJoined p | None => McsHolds end]> gs).
Proof.
  intros H Hi. pose proof (mcs_out_not_in _ _ _ _ _ H Hi) as Hni.
  pose proof (lookup_lt_Some _ _ _ Hi) as Hlt. set (g' := match last q with Some p => _ | None => _ end).
  destruct (mq_out _ _ _ H i _ Hi) as (n & Hn & Hl & Hx). split.
  - intros j i' Hj. apply lookup_app_Some in Hj as [Hj|[Hge Hj]].
    + assert (i' ≠ i) as Hne by (intros ->; apply Hni; by eapply list_elem_of_lookup_2).
      destruct (mq_place _ _ _ H j i' Hj) as (g & n' & Hg & Hn' & Hnx & Hp). exists g, n'.
      rewrite list_lookup_insert_ne by done. split; [done|]. split; [done|]. split.
      * rewrite Hnx. destruct (q !! Datatypes.S j) as [k|] eqn:Ek.
        -- rewrite (lookup_app_l_Some _ _ _ _ Ek). cbn. rewrite list_lookup_insert_ne; [done|].
           intros <-. apply Hni. by eapply list_elem_of_lookup_2.
        -- destruct ((q ++ [i]) !! Datatypes.S j) as [k|] eqn:Ek'; [|done].
           apply lookup_app_Some in Ek' as [?|[Hge' Ek']]; [congruence|].
           apply list_lookup_singleton_Some in Ek' as [Ej <-]. cbn.
           rewrite list_lookup_insert_eq by done. unfold g'. rewrite last_lookup.
           replace (Nat.pred (length q)) with j by lia. by rewrite Hj.
      * destruct g as [k|p| | |k]; try done.
        -- destruct Hp as ((j' & -> & Hp) & ?). split; [|done]. exists j'. split; [done|]. by apply lookup_app_l_Some.
        -- destruct Hp as (? & Hk & Ht). split; [done|]. split; [by apply lookup_app_l_Some|].
           intros p. rewrite list_lookup_insert_ne; [apply Ht|]. intros <-. apply Hni. by eapply list_elem_of_lookup_2.
    + apply list_lookup_singleton_Some in Hj as [Ej <-]. assert (j = length q) as -> by lia. exists g', n.
      rewrite list_lookup_insert_eq by done. split; [done|]. split; [done|]. split.
      * rewrite Hx by lia. rewrite lookup_ge_None_2; [done|]. rewrite length_app. cbn. lia.
      * unfold g'. rewrite last_lookup. destruct q as [|x q]; [done|]. cbn [length Nat.pred].
        destruct ((x :: q) !! length q) as [p|] eqn:Ep.
        -- split; [|by apply Hl; lia]. exists (length q). split; [done|]. by apply lookup_app_l_Some.
        -- apply lookup_ge_None in Ep. cbn in Ep. lia.
  - intros i' g Hg. destruct (decide (i = i')) as [<-|].
    + right. apply elem_of_app. right. by apply list_elem_of_singleton.
    + rewrite list_lookup_insert_ne in Hg by done. destruct (mq_in _ _ _ H i' g Hg); [by left|].
      right. apply elem_of_app. by left.
  - intros i' k Hg. destruct (decide (i = i')) as [<-|].
    + rewrite list_lookup_insert_eq in Hg by done. unfold g' in Hg. by destruct (last q).
    + rewrite list_lookup_insert_ne in Hg by done. by apply (mq_out _ _ _ H).
  - apply NoDup_app. split; [apply H|]. split; [|apply NoDup_singleton].
    intros x Hx' ->%list_elem_of_singleton. done.
Qed.

(** A change of the node of [i] or of what [i] does, for the other places of the queue. *)
Lemma mcs_others q ns gs i n g g' :
  mcs_queue_ok q ns gs → gs !! i = Some g → mcs_joined g' = mcs_joined g →
  (∀ j, q !! j = Some i → mcs_place_ok q gs j g' n) → (∀ k, g ≠ McsOut k) → (∀ k, g' ≠ McsOut k) →
  mcs_queue_ok q (<[own_node i := n]> ns) (<[i := g']> gs).
Proof.
  intros H Hi Hj' Hpl Hg Hg'. pose proof (lookup_lt_Some _ _ _ Hi) as Hlt. split; [| | |apply H].
  - intros j i' Hj. destruct (decide (i = i')) as [<-|Hne].
    + exists g', n. rewrite list_lookup_insert_eq, lookup_insert_eq by done. split; [done|]. split; [done|].
      eapply mcs_place_other; [done|done|]. by apply Hpl.
    + destruct (mq_place _ _ _ H j i' Hj) as (g1 & n' & Hg1 & Hn' & Hp). exists g1, n'.
      rewrite list_lookup_insert_ne, lookup_insert_ne by (done || intros ?%own_node_inj; congruence).
      split; [done|]. split; [done|]. by eapply mcs_place_other.
  - intros i' g1 Hg1. destruct (decide (i = i')) as [<-|].
    + destruct (mq_in _ _ _ H i g Hi) as [[k ->]|]; [by destruct (Hg k)|by right].
    + rewrite list_lookup_insert_ne in Hg1 by done. by apply (mq_in _ _ _ H).
  - intros i' k1 Hg1. destruct (decide (i = i')) as [<-|].
    + rewrite list_lookup_insert_eq in Hg1 by done. injection Hg1 as ->. by destruct (Hg' k1).
    + rewrite list_lookup_insert_ne in Hg1 by done.
      rewrite lookup_insert_ne by (intros ?%own_node_inj; congruence). by apply (mq_out _ _ _ H).
Qed.

(** The same, when the node stays. *)
Lemma mcs_others_id q ns gs i n g g' :
  mcs_queue_ok q ns gs → gs !! i = Some g → ns !! own_node i = Some n → mcs_joined g' = mcs_joined g →
  (∀ j, q !! j = Some i → mcs_place_ok q gs j g' n) → (∀ k, g ≠ McsOut k) → (∀ k, g' ≠ McsOut k) →
  mcs_queue_ok q ns (<[i := g']> gs).
Proof. intros H Hi Hn. rewrite <- (insert_id ns (own_node i) n Hn). by apply mcs_others. Qed.

(** A thread that joined tells the one before it. *)
Lemma mcs_tell q ns gs i p n :
  mcs_queue_ok q ns gs → gs !! i = Some (McsJoined p) → ns !! own_node p = Some n →
  mcs_queue_ok q (<[own_node p := set_mcs_next (own_node i) n]> ns) (<[i := McsWaits]> gs).
Proof.
  intros H Hi Hnp. pose proof (lookup_lt_Some _ _ _ Hi) as Hlt.
  destruct (mcs_place_of _ _ _ _ _ H Hi) as (j & ni & Hj & Hni & Hx & (j' & -> & Hp) & Hl); [done|].
  assert (i ≠ p) as Hip. { intros <-. assert (Datatypes.S j' = j') by (by eapply NoDup_lookup; [apply H|..]). lia. }
  assert (∀ b, b ≠ Some i → mcs_link (<[i := McsWaits]> gs) b = mcs_link gs b) as Hlink.
  { intros [k|] Hb; [|done]. cbn. by rewrite list_lookup_insert_ne by congruence. }
  split; [| | |apply H].
  - intros j i' Hj'. destruct (mq_place _ _ _ H j i' Hj') as (g1 & n1 & Hg1 & Hn1 & Hx1 & Hp1).
    destruct (decide (i' = p)) as [->|Hnep].
    + assert (j = j') as -> by (by eapply NoDup_lookup; [apply H|..]).
      exists g1, (set_mcs_next (own_node i) n). rewrite list_lookup_insert_ne, lookup_insert_eq by done.
      split; [done|]. split; [done|]. simplify_eq. split.
      * rewrite Hj. cbn. by rewrite list_lookup_insert_eq.
      * destruct g1; try done. destruct Hp1 as (? & ? & ?). split; [done|]. split; [done|]. by apply mcs_told_insert.
    + assert (mcs_next n1 = mcs_link (<[i := McsWaits]> gs) (q !! Datatypes.S j)) as Hx1'.
      { rewrite Hlink; [done|]. intros E. apply Hnep.
        assert (Datatypes.S j = Datatypes.S j') as [= ->] by (by eapply NoDup_lookup; [apply H|..]). congruence. }
      destruct (decide (i = i')) as [<-|Hne].
      * exists McsWaits, n1. rewrite list_lookup_insert_eq by done.
        rewrite lookup_insert_ne by (intros ?%own_node_inj; congruence). split; [done|]. split; [done|].
        split; [done|]. assert (j = Datatypes.S j') as -> by (by eapply NoDup_lookup; [apply H|..]). by simplify_eq.
      * exists g1, n1. rewrite list_lookup_insert_ne by done.
        rewrite lookup_insert_ne by (intros ?%own_node_inj; congruence). split; [done|]. split; [done|].
        split; [done|]. destruct g1; try done. destruct Hp1 as (? & ? & ?). split; [done|]. split; [done|].
        by apply mcs_told_insert.
  - intros i' g1 Hg1. destruct (decide (i = i')) as [<-|].
    + right. by eapply list_elem_of_lookup_2.
    + rewrite list_lookup_insert_ne in Hg1 by done. by apply (mq_in _ _ _ H).
  - intros i' k1 Hg1. destruct (decide (i = i')) as [<-|].
    + by rewrite list_lookup_insert_eq in Hg1.
    + rewrite list_lookup_insert_ne in Hg1 by done. rewrite lookup_insert_ne; [by apply (mq_out _ _ _ H)|].
      intros <-%own_node_inj. eapply mcs_out_not_in; [exact H|done|]. by eapply list_elem_of_lookup_2.
Qed.

(** The only thread in the queue leaves it. *)
Lemma mcs_empty q ns gs i :
  mcs_queue_ok q ns gs → gs !! i = Some McsHolds → mcs_tail q = own_node i →
  mcs_queue_ok [] ns (<[i := McsOut 0]> gs).
Proof.
  intros H Hi Ht. pose proof (lookup_lt_Some _ _ _ Hi) as Hlt.
  destruct (mcs_place_of _ _ _ _ _ H Hi) as (j & n & Hj & Hn & _ & ->); [done|].
  assert (q = [i]) as ->.
  { unfold mcs_tail in Ht. destruct (last q) as [k|] eqn:El; [|by destruct (own_node_pos i)].
    apply own_node_inj in Ht as ->. rewrite last_lookup in El.
    assert (Nat.pred (length q) = 0%nat) as E by (by eapply NoDup_lookup; [apply H|..]).
    destruct q as [|x [|y q]]; cbn in *; [done|congruence|lia]. }
  split; [done| | |constructor].
  - intros i' g Hg. left. destruct (decide (i = i')) as [<-|Hne].
    + rewrite list_lookup_insert_eq in Hg by done. injection Hg as <-. by eexists.
    + rewrite list_lookup_insert_ne in Hg by done. destruct (mq_in _ _ _ H i' g Hg) as [|Hin]; [done|].
      apply list_elem_of_singleton in Hin. congruence.
  - intros i' k Hg. destruct (decide (i = i')) as [<-|].
    + rewrite list_lookup_insert_eq in Hg by done. injection Hg as <-. exists n. split; [done|]. split; lia.
    + rewrite list_lookup_insert_ne in Hg by done. by apply (mq_out _ _ _ H).
Qed.

(** The first of the queue lets the next have the lock. *)
Lemma mcs_pass q ns gs i k n :
  mcs_queue_ok q ns gs → gs !! i = Some (McsPasses k) → ns !! own_node k = Some n →
  ∃ q', mcs_tail q = mcs_tail q' ∧
    mcs_queue_ok q' (<[own_node k := set_mcs_locked 0 n]> ns) (<[i := McsOut 0]> gs).
Proof.
  intros H Hi Hnk. pose proof (lookup_lt_Some _ _ _ Hi) as Hlt.
  destruct (mcs_place_of _ _ _ _ _ H Hi) as (j & ni & Hj & Hni & _ & -> & Hk & Ht); [done|].
  destruct q as [|i0 [|k0 q]]; try done. injection Hj as ->. injection Hk as ->.
  pose proof (mq_nodup _ _ _ H) as Hnd. apply NoDup_cons in Hnd as [Hni' Hnd].
  exists (k :: q). split; [done|]. split; [| | |done].
  - intros j i' Hj. assert (i' ≠ i) as Hne by (intros ->; apply Hni'; by eapply list_elem_of_lookup_2).
    destruct (mq_place _ _ _ H (Datatypes.S j) i' Hj) as (g1 & n1 & Hg1 & Hn1 & Hx1 & Hp1).
    assert (∃ n2, <[own_node k := set_mcs_locked 0 n]> ns !! own_node i' = Some n2 ∧ mcs_next n2 = mcs_next n1
              ∧ mcs_locked n2 = if decide (j = 0%nat) then 0 else mcs_locked n1) as (n2 & Hn2 & Ex & El).
    { destruct (decide (j = 0%nat)) as [->|Hj0].
      - injection Hj as <-. simplify_eq. rewrite lookup_insert_eq. by eexists.
      - rewrite lookup_insert_ne; [by exists n1|]. intros <-%own_node_inj. apply Hj0.
        by eapply (NoDup_lookup (k :: q)). }
    exists g1, n2. rewrite list_lookup_insert_ne by done. split; [done|]. split; [done|].
    eapply (mcs_place_other _ _ _ (McsPasses k)); [done|done|]. split; [by rewrite Ex|].
    destruct g1 as [|p| | |]; try done.
    + destruct Hp1 as ((j' & [= <-] & Hp) & Hl). destruct j as [|j].
      * injection Hj as <-. by destruct (Ht p).
      * split; [by exists j|]. rewrite El. by rewrite decide_False by lia.
    + rewrite El, Hp1. by destruct (decide (j = 0%nat)).
    + by destruct Hp1.
  - intros i' g1 Hg1. destruct (decide (i = i')) as [<-|].
    + rewrite list_lookup_insert_eq in Hg1 by done. injection Hg1 as <-. left. by eexists.
    + rewrite list_lookup_insert_ne in Hg1 by done. destruct (mq_in _ _ _ H i' g1 Hg1) as [|Hin]; [by left|].
      right. apply elem_of_cons in Hin as [->|]; done.
  - intros i' k1 Hg1. destruct (decide (i = i')) as [<-|].
    + rewrite list_lookup_insert_eq in Hg1 by done. injection Hg1 as <-.
      rewrite lookup_insert_ne by (intros ->%own_node_inj; apply Hni'; left).
      exists ni. split; [done|]. split; lia.
    + rewrite list_lookup_insert_ne in Hg1 by done. rewrite lookup_insert_ne; [by apply (mq_out _ _ _ H)|].
      intros <-%own_node_inj. eapply mcs_out_not_in; [exact H|done|]. right. left.
Qed.

(** ** The lock satisfies the laws *)

Section laws.
Context (R : list mark → list (mcs_ghost * bool) → Prop) (Rs : frame_stable R).
Abbreviation mcs_wp := (lock_wp mcs_inv R).
Abbreviation tail := (the_lock →' mcs_queue_loc).
Abbreviation nodes := (the_lock →' mcs_nodes_loc).

(** A store into a node. *)
Lemma mcs_store_wp n i p u g g' (Q : unit → mcs_ghost → Prop) :
  (∀ q ns gs, mcs_queue_ok q ns gs → gs !! i = Some g →
     p ≠ 0 ∧ ∃ nd, ns !! p = Some nd ∧ ∃ q', mcs_tail q = mcs_tail q' ∧
     mcs_queue_ok q' (<[p := u nd]> ns) (<[i := g']> gs)) →
  Q tt g' → mcs_wp n (store_member nodes p u) i Q g.
Proof.
  intros H HQ. apply outside_wp_atomic; [done|]. intros [t ns] tr gs (q & Eq & Hq) Hi. cbn in Eq, Hq.
  destruct (H q ns gs Hq Hi) as (Hp & nd & Hnd & q' & Et & Hq').
  eexists _, _, g'. split; [cbn; rewrite (deref_lookup ns p nd) by done; reflexivity|].
  split; [|done]. exists q'. cbn. split; [congruence|done].
Qed.

(** A load from the thread's own node. *)
Lemma mcs_load_wp n i {A} (f : ck_spinlock_mcs → A) g (Q : A → mcs_ghost → Prop) :
  (∀ q ns gs nd, mcs_queue_ok q ns gs → gs !! i = Some g → ns !! own_node i = Some nd →
     ∃ g', mcs_queue_ok q ns (<[i := g']> gs) ∧ Q (f nd) g') →
  mcs_wp n (load_member nodes (own_node i) f) i Q g.
Proof.
  intros H. apply outside_wp_atomic; [done|]. intros [t ns] tr gs (q & Eq & Hq) Hi. cbn in Eq, Hq.
  destruct (mcs_node _ _ _ _ _ Hq Hi) as [nd Hnd]. destruct (H q ns gs nd Hq Hi Hnd) as (g' & Hq' & HQ).
  eexists _, _, g'. split; [cbn; rewrite (deref_lookup ns _ nd); [reflexivity|apply own_node_pos|done]|].
  split; [|done]. by exists q.
Qed.

(** A thread outside prepares its node. *)
Lemma mcs_prepare_wp n i (t : prog (memory mcs_lock) unit) Q k :
  t = store_member nodes (own_node i) (set_mcs_locked 1) ∧ k = 0%nat ∨
  t = store_member nodes (own_node i) (set_mcs_next 0) ∧ k = 1%nat →
  Q tt (McsOut (Datatypes.S k)) → mcs_wp n t i Q (McsOut k).
Proof.
  intros Ht HQ.
  assert (∀ u, (∀ nd, mcs_out_ok k nd → mcs_out_ok (Datatypes.S k) (u nd)) →
    mcs_wp n (store_member nodes (own_node i) u) i Q (McsOut k)) as H.
  { intros u Hu. eapply mcs_store_wp; [|exact HQ]. intros q ns gs Hq Hi. split; [apply own_node_pos|].
    destruct (mq_out _ _ _ Hq i k Hi) as (nd & Hnd & Ho). exists nd. split; [done|]. exists q. split; [done|].
    eapply mcs_out_step; [done|done|]. by apply Hu. }
  destruct Ht as [[-> ->]|[-> ->]]; apply H; intros nd [Hl Hx]; (split; cbn; intros; [|try lia; done]);
    [done|by apply Hl; lia].
Qed.

Lemma mcs_tail_last q : mcs_tail q = 0 → last q = None.
Proof. unfold mcs_tail. destruct (last q); [|done]. intros E. by destruct (own_node_pos n). Qed.

Lemma mcs_tail_snoc q i : mcs_tail (q ++ [i]) = own_node i.
Proof. unfold mcs_tail. by rewrite last_snoc. Qed.

(** It looks at the word. *)
Lemma mcs_load_tail_wp n i g (Q : Z → mcs_ghost → Prop) :
  (∀ v, Q v g) → mcs_wp n (ck_pr_load tail) i Q g.
Proof.
  intros HQ. apply outside_wp_atomic; [done|]. intros [t ns] tr gs (q & Eq & Hq) Hi.
  eexists _, _, g. split; [reflexivity|]. rewrite list_insert_id by done. split; [by exists q|]. apply HQ.
Qed.

Lemma mcs_fas_wp n i (Q : Z → mcs_ghost → Prop) :
  Q 0 McsHolds → (∀ p, Q (own_node p) (McsJoined p)) →
  mcs_wp n (ck_pr_fas tail (own_node i)) i Q (McsOut 2).
Proof.
  intros H0 Hp. apply outside_wp_atomic; [done|]. intros [t ns] tr gs (q & Eq & Hq) Hi. cbn in Eq, Hq.
  eexists _, _, _. split; [reflexivity|]. split.
  - exists (q ++ [i]). split; [by rewrite mcs_tail_snoc|]. by apply mcs_join.
  - cbn. rewrite Eq. unfold mcs_tail. by destruct (last q).
Qed.

Lemma mcs_trylock_wp n i :
  mcs_wp n (ck_spinlock_mcs_trylock tail nodes (own_node i)) i
    (λ b g, if (b : bool) then g = McsHolds else g = McsOut 0) (McsOut 0).
Proof.
  apply outside_wp_bind, mcs_prepare_wp; [by left|]. apply outside_wp_bind, mcs_prepare_wp; [by right|].
  apply outside_wp_atomic; [done|]. intros [t ns] tr gs (q & Eq & Hq) Hi. cbn in Eq, Hq.
  destruct (Z.eqb_spec t 0) as [->|Hne].
  - eexists _, _, McsHolds. split; [reflexivity|]. split; [|done]. symmetry in Eq. apply mcs_tail_last in Eq.
    exists (q ++ [i]). split; [by rewrite mcs_tail_snoc|].
    pose proof (mcs_join q ns gs i Hq Hi) as H. by rewrite Eq in H.
  - eexists _, _, (McsOut 0). split; [reflexivity|]. apply Z.eqb_neq in Hne. cbn. rewrite Hne.
    split; [|done]. exists q. split; [done|]. destruct (mq_out _ _ _ Hq i _ Hi) as (nd & Hnd & _).
    cbn. rewrite <- (insert_id ns (own_node i) nd Hnd). eapply mcs_out_step; [done..|]. split; lia.
Qed.

Lemma mcs_wait_wp n i :
  mcs_wp n (while (v ← load_member nodes (own_node i) mcs_locked; mret (v =? 1)) stall) i
    (λ _ g, g = McsHolds) McsWaits.
Proof.
  apply (outside_wp_while _ _ _ _ _ _ (λ g, g = McsWaits)); [done|]. intros m g ->.
  apply outside_wp_bind, mcs_load_wp. intros q ns gs nd Hq Hi Hnd.
  destruct (mcs_place_of _ _ _ _ _ Hq Hi) as (j & nd' & Hj & E & Hx & Hl); [done|]. simplify_eq.
  destruct (decide (j = 0%nat)) as [->|Hj0]; rewrite Hl; cbn.
  - exists McsHolds. split; [|by apply outside_wp_ret].
    eapply mcs_others_id; [done|done|done|done| |done|done].
    intros j Hj'. split; [|by eapply NoDup_lookup; [apply Hq|..]].
    by assert (j = 0%nat) as -> by (by eapply NoDup_lookup; [apply Hq|..]).
  - exists McsWaits. rewrite list_insert_id by done. split; [done|]. apply outside_wp_ret.
    by apply outside_wp_stall.
Qed.

Lemma mcs_lock_wp n i :
  mcs_wp n (ck_spinlock_mcs_lock tail nodes (own_node i)) i (λ _ g, g = McsHolds) (McsOut 0).
Proof.
  apply outside_wp_bind, mcs_prepare_wp; [by left|]. apply outside_wp_bind, mcs_prepare_wp; [by right|].
  apply outside_wp_bind, mcs_fas_wp; [by apply outside_wp_ret|]. intros p.
  destruct (Z.eqb_spec (own_node p) 0) as [E|_]; [by destruct (own_node_pos p)|].
  apply outside_wp_bind. eapply mcs_store_wp; [|by apply mcs_wait_wp].
  intros q ns gs Hq Hi. split; [apply own_node_pos|].
  destruct (mcs_place_of _ _ _ _ _ Hq Hi) as (j & nd & Hj & _ & _ & (j' & -> & Hp) & _); [done|].
  destruct (mq_place _ _ _ Hq j' p Hp) as (gp & np & _ & Hnp & _). exists np. split; [done|].
  exists q. split; [done|]. by apply mcs_tell.
Qed.

(** The holder looks for the thread behind it. *)
Lemma mcs_behind_wp n i (Q : Z → mcs_ghost → Prop) :
  Q 0 McsHolds → (∀ k, Q (own_node k) (McsPasses k)) →
  mcs_wp n (load_member nodes (own_node i) mcs_next) i Q McsHolds.
Proof.
  intros H0 Hk. apply mcs_load_wp. intros q ns gs nd Hq Hi Hnd.
  destruct (mcs_place_of _ _ _ _ _ Hq Hi) as (j & nd' & Hj & E & Hx & ->); [done|]. simplify_eq. rewrite Hx.
  destruct (q !! 1%nat) as [k|] eqn:Ek; [|exists McsHolds; by rewrite list_insert_id].
  destruct (mq_place _ _ _ Hq 1%nat k Ek) as (gk & nk & Hgk & _). cbn. rewrite Hgk.
  destruct (mcs_joined gk) eqn:Egk; [destruct gk; try done; exists McsHolds; by rewrite list_insert_id|].
  exists (McsPasses k). split; [|by destruct gk].
  eapply mcs_others_id; [done|done|done|done| |done|done].
  intros j Hj'. assert (j = 0%nat) as -> by (by eapply NoDup_lookup; [apply Hq|..]).
  split; [by rewrite Ek|]. split; [done|]. split; [done|]. intros p E. by simplify_eq.
Qed.

(** The lock goes to the next thread. *)
Lemma mcs_hand_wp n i k :
  mcs_wp n (store_member nodes (own_node k) (set_mcs_locked 0)) i (λ _ g, g = McsOut 0) (McsPasses k).
Proof.
  eapply mcs_store_wp; [|done]. intros q ns gs Hq Hi. split; [apply own_node_pos|].
  destruct (mcs_place_of _ _ _ _ _ Hq Hi) as (j & nd & Hj & _ & _ & -> & Hk & _); [done|].
  destruct (mq_place _ _ _ Hq 1%nat k Hk) as (gk & nk & _ & Hnk & _). exists nk. split; [done|].
  by eapply mcs_pass.
Qed.

Lemma mcs_unlock_wp n i :
  mcs_wp n (ck_spinlock_mcs_unlock tail nodes (own_node i)) i (λ _ g, g = McsOut 0) McsHolds.
Proof.
  apply outside_wp_bind, mcs_behind_wp.
  2:{ intros k. destruct (Z.eqb_spec (own_node k) 0) as [E|_]; [by destruct (own_node_pos k)|].
      apply outside_wp_bind, outside_wp_ret. apply mcs_hand_wp. }
  change (0 =? 0) with true. cbv iota.
  apply outside_wp_bind, outside_wp_bind, mcs_load_tail_wp. intros v.
  apply outside_wp_bind.
  apply (outside_wp_mono _ _ _ _ _ _ _ (λ b g, if (b : bool) then g = McsOut 0 else g = McsHolds)).
  - destruct (v =? own_node i); [|by apply outside_wp_ret].
    apply outside_wp_atomic; [done|]. intros [t ns] tr gs (q & Eq & Hq) Hi. cbn in Eq, Hq.
    eexists _, _, (if t =? own_node i then McsOut 0 else McsHolds). split; [reflexivity|]. cbn.
    destruct (Z.eqb_spec t (own_node i)) as [->|Hne].
    + split; [|done]. exists []. split; [done|]. by eapply mcs_empty.
    + split; [|done]. rewrite list_insert_id by done. by exists q.
  - intros [] g ->; [by apply outside_wp_ret, outside_wp_ret|].
    apply (wp_loop _ _ _ _ _ (λ _ l, l = (McsHolds, false))); [done|]. intros m [] l ->.
    apply wp_bind. apply (wp_mono _ _ _ _ _ (λ v l, l.2 = false ∧
      (v = 0 ∧ l.1 = McsHolds ∨ ∃ k, v = own_node k ∧ l.1 = McsPasses k))).
    { apply (mcs_behind_wp m i (λ v g, v = 0 ∧ g = McsHolds ∨ ∃ k, v = own_node k ∧ g = McsPasses k));
        [by left|]. intros k. right. by exists k. }
    intros v' [g b] [[= ->] [[-> E]|(k & -> & E)]]; cbn in E; subst g.
    + change (negb (0 =? 0)) with false. cbv iota. apply wp_bind, wp_stall. by apply wp_ret.
    + destruct (Z.eqb_spec (own_node k) 0) as [E|_]; [by destruct (own_node_pos k)|].
      apply wp_ret. split; [done|]. apply mcs_hand_wp.
Qed.
End laws.

Lemma mcs_inv_init max n : (n ≤ max)%nat → mcs_inv (MkMcsLock 0 (own_nodes max (MkMcs 0 0))) (replicate n (McsOut 0)).
Proof.
  intros Hn. exists []. split; [done|]. split; [done| | |constructor].
  - intros i g [-> _]%lookup_replicate. left. by eexists.
  - intros i k [[= ->] Hi]%lookup_replicate. eexists. split; [apply own_nodes_lookup; cbn; lia|]. split; lia.
Qed.

Lemma mcs_inv_excl s gs i j g g' :
  mcs_inv s gs → gs !! i = Some g → gs !! j = Some g' → g = McsHolds → g' = McsHolds → i = j.
Proof.
  intros (q & _ & Hq) Hi Hj -> ->. destruct (mcs_place_of _ _ _ _ _ Hq Hi) as (a & ? & Ha & _ & _ & ->); [done|].
  destruct (mcs_place_of _ _ _ _ _ Hq Hj) as (b & ? & Hb & _ & _ & ->); [done|]. congruence.
Qed.

Definition mcs_laws max : @SpinlockLaws mcs_lock (mcs_spinlock max) max.
Proof.
  refine {| ghost := mcs_ghost; idle := McsOut 0; holds := (λ g, g = McsHolds); lock_inv := mcs_inv |}.
  - apply mcs_inv_init.
  - apply mcs_inv_excl.
  - intros R n i HR. by apply mcs_lock_wp.
  - intros R n i trylock HR [= <-]. by apply mcs_trylock_wp.
  - intros R n i HR. apply outside_wp_bind, mcs_load_tail_wp; [done|]. intros v. by apply outside_wp_ret.
  - intros R n i g HR ->. by apply mcs_unlock_wp.
Defined.
