(* ===== verification/CkClh.v ===== *)
(** CkClh: the queue lock of Craig, Landin and Hagersten, include/aerospike/ck/spinlock/clh.h: a thread waits on
    the node of the one before it, and has that node for itself when it leaves. *)

From Stdlib Require Import ZArith Lia.
From stdpp Require Import base list gmap.
From S2P Require Import Prelude Concurrent CkPr CkMutex.

#[local] Open Scope Z_scope.

(** [src: include/aerospike/ck/spinlock/clh.h 39-43 ck_spinlock_clh] *)
Record ck_spinlock_clh : Type := MkClh { clh_wait : Z; clh_previous : Z }.

Definition set_clh_wait (v : Z) (n : ck_spinlock_clh) : ck_spinlock_clh := MkClh v (clh_previous n).
Definition set_clh_previous (v : Z) (n : ck_spinlock_clh) : ck_spinlock_clh := MkClh (clh_wait n) v.

Section clh.
Context {S : Type} (queue : loc S Z) (nodes : loc S (gmap Z ck_spinlock_clh)).

(** [src: include/aerospike/ck/spinlock/clh.h 45-54 ck_spinlock_clh_init] *)
Definition ck_spinlock_clh_init (unowned : Z) : prog S unit :=
  store_member nodes unowned (set_clh_previous 0);;
  store_member nodes unowned (set_clh_wait 0);;
  ck_pr_store queue unowned.

(** [src: include/aerospike/ck/spinlock/clh.h 56-66 ck_spinlock_clh_locked] *)
Definition ck_spinlock_clh_locked : prog S bool :=
  head ← ck_pr_load queue;
  r ← load_member nodes head clh_wait;
  mret (negb (r =? 0)).

(** [src: include/aerospike/ck/spinlock/clh.h 68-91 ck_spinlock_clh_lock] *)
Definition ck_spinlock_clh_lock (thread : Z) : prog S unit :=
  store_member nodes thread (set_clh_wait 1);;
  previous ← ck_pr_fas queue thread;
  store_member nodes thread (set_clh_previous previous);;
  while (v ← load_member nodes previous clh_wait; mret (v =? 1)) stall.

(** The variable of the caller is read and, at the end, written.
    [src: include/aerospike/ck/spinlock/clh.h 93-120 ck_spinlock_clh_unlock] *)
Definition ck_spinlock_clh_unlock (thread : loc S Z) : prog S unit :=
  t ← ck_pr_load thread;
  previous ← load_member nodes t clh_previous;
  t ← ck_pr_load thread;
  store_member nodes t (set_clh_wait 0);;
  ck_pr_store thread previous.
End clh.

(** ** The lock of [max] threads, each with a variable for its node *)

Record clh_lock : Type := MkClhLock { clh_queue : Z; clh_nodes : gmap Z ck_spinlock_clh; clh_threads : list Z }.
Definition clh_queue_loc : loc clh_lock Z := MkLoc clh_queue (λ v s, MkClhLock v (clh_nodes s) (clh_threads s)).
Definition clh_nodes_loc : loc clh_lock (gmap Z ck_spinlock_clh) :=
  MkLoc clh_nodes (λ v s, MkClhLock (clh_queue s) v (clh_threads s)).
Definition clh_thread_loc (i : nat) : loc clh_lock Z :=
  MkLoc (λ s, clh_threads s !!! i) (λ v s, MkClhLock (clh_queue s) (clh_nodes s) (<[i := v]> (clh_threads s))).

#[export] Instance clh_spinlock (max : nat) : Spinlock clh_lock := {
  spin_init := MkClhLock (own_node max) (own_nodes (Datatypes.S max) (MkClh 0 0)) (own_node <$> seq 0 max);
  spin_lock := λ S lock i,
    thread ← ck_pr_load (lock →' clh_thread_loc i);
    ck_spinlock_clh_lock (lock →' clh_queue_loc) (lock →' clh_nodes_loc) thread;
  spin_trylock := λ S, None;
  spin_locked := λ S lock i, ck_spinlock_clh_locked (lock →' clh_queue_loc) (lock →' clh_nodes_loc);
  spin_unlock := λ S lock i, ck_spinlock_clh_unlock (lock →' clh_nodes_loc) (lock →' clh_thread_loc i)
}.

(** ** The queue of the threads that have the lock or wait for it *)

(** What a thread does: nothing; it has read its node, and set its flag; it is in the queue, then has noted the
    node before its own; it has the lock; it leaves, having read its node, and the one before; it has let the
    next thread have the lock, and takes the node before its own. *)
Inductive clh_ghost : Type :=
  | ClhOut
  | ClhReads (t : Z)
  | ClhArmed (t : Z)
  | ClhJoined (t p : Z)
  | ClhWaits (p : Z)
  | ClhHolds
  | ClhLeaves (t : Z)
  | ClhLeaves' (p : Z)
  | ClhFrees (t p : Z)
  | ClhFreed (p : Z).

(** The node that a thread has outside the queue. *)
Definition clh_hand (thr : list Z) (i : nat) (g : clh_ghost) : option Z :=
  match g with
  | ClhOut | ClhReads _ | ClhArmed _ => thr !! i
  | ClhFreed p => Some p
  | _ => None
  end.

(** A thread in the queue, with its node [t] and the one before, [p]; the first may have the lock. *)
Definition clh_place_ok (nds : gmap Z ck_spinlock_clh) (j : nat) (t p : Z) (g : clh_ghost) : Prop :=
  let noted := (clh_previous <$> (nds !! t)) = Some p in
  match g with
  | ClhJoined t' p' => t' = t ∧ p' = p
  | ClhWaits p' => p' = p ∧ noted
  | ClhHolds => j = 0%nat ∧ noted
  | ClhLeaves t' => j = 0%nat ∧ t' = t ∧ noted
  | ClhLeaves' p' => j = 0%nat ∧ p' = p
  | ClhFrees t' p' => j = 0%nat ∧ t' = t ∧ p' = p
  | _ => False
  end.

(** The nodes [ns] are the one that is free, and those of the threads in the queue. *)
Record clh_ok (q : list nat) (ns : list Z) (nds : gmap Z ck_spinlock_clh) (thr : list Z) (gs : list clh_ghost) : Prop := {
  cq_length : length ns = Datatypes.S (length q);
  cq_nodup : NoDup ns;
  cq_nodes p : p ∈ ns → p ≠ 0 ∧ is_Some (nds !! p);
  cq_wait j p : ns !! j = Some p → clh_wait <$> (nds !! p) = Some (if decide (j = 0%nat) then 0 else 1);
  cq_place j i : q !! j = Some i →
    ∃ g t p, gs !! i = Some g ∧ thr !! i = Some t ∧ ns !! Datatypes.S j = Some t ∧ ns !! j = Some p
      ∧ clh_place_ok nds j t p g;
  cq_in i g : gs !! i = Some g → i ∈ q ∨ is_Some (clh_hand thr i g);
  cq_hand i g p : gs !! i = Some g → clh_hand thr i g = Some p →
    (i ∉ q) ∧ (p ∉ ns) ∧ p ≠ 0 ∧ is_Some (nds !! p) ∧
    (∀ t, g = ClhReads t ∨ g = ClhArmed t → t = p) ∧ ((∃ t, g = ClhArmed t) → (clh_wait <$> (nds !! p)) = Some 1);
  cq_hands i j g g' p : gs !! i = Some g → gs !! j = Some g' →
    clh_hand thr i g = Some p → clh_hand thr j g' = Some p → i = j;
  cq_threads : (length gs ≤ length thr)%nat
}.

(** There are [max + 1] nodes. *)
Definition clh_nodes_ok (max : nat) (nds : gmap Z ck_spinlock_clh) : Prop :=
  ∀ p, is_Some (nds !! p) ↔ 1 ≤ p ≤ Z.of_nat max + 1.

Definition clh_inv (max : nat) (x : clh_lock) (gs : list clh_ghost) : Prop :=
  clh_nodes_ok max (clh_nodes x) ∧
  ∃ q ns, last ns = Some (clh_queue x) ∧ clh_ok q ns (clh_nodes x) (clh_threads x) gs.

Lemma clh_nodes_insert max nds t n : is_Some (nds !! t) → clh_nodes_ok max nds → clh_nodes_ok max (<[t := n]> nds).
Proof.
  intros Ht H p. rewrite <- (H p), lookup_insert_is_Some. destruct (decide (t = p)) as [<-|]; intuition.
Qed.

(** *** What keeps the queue *)

Section ok.
Context (q : list nat) (ns : list Z) (nds : gmap Z ck_spinlock_clh) (thr : list Z) (gs : list clh_ghost).
Context (H : clh_ok q ns nds thr gs).

(** The place of a thread that has nothing in its hands. *)
Lemma clh_place_of i g :
  gs !! i = Some g → clh_hand thr i g = None →
  ∃ j t p, q !! j = Some i ∧ thr !! i = Some t ∧ ns !! Datatypes.S j = Some t ∧ ns !! j = Some p ∧ clh_place_ok nds j t p g.
Proof using H.
  intros Hi Hh. destruct (cq_in _ _ _ _ _ H i g Hi) as [[j Hj]%list_elem_of_lookup|[? E]]; [|congruence].
  destruct (cq_place _ _ _ _ _ H j i Hj) as (g' & t & p & E & ? & ? & ? & ?). simplify_eq. by exists j, t, p.
Qed.

Lemma clh_place_unique j j' i : q !! j = Some i → q !! j' = Some i → j = j'.
Proof using H.
  intros Hj Hj'. destruct (cq_place _ _ _ _ _ H j i Hj) as (g & t & p & _ & Ht & Hn & _).
  destruct (cq_place _ _ _ _ _ H j' i Hj') as (g' & t' & p' & _ & Ht' & Hn' & _). simplify_eq.
  assert (Datatypes.S j = Datatypes.S j') by (by eapply NoDup_lookup; [apply (cq_nodup _ _ _ _ _ H)|..]). lia.
Qed.

(** The node of a thread, while it is not about to be exchanged. *)
Lemma clh_own_node i g :
  gs !! i = Some g → (∀ p, g ≠ ClhFreed p) → ∃ t n, thr !! i = Some t ∧ t ≠ 0 ∧ nds !! t = Some n.
Proof using H.
  intros Hi Hg. destruct (clh_hand thr i g) as [t|] eqn:Eh.
  - destruct (cq_hand _ _ _ _ _ H i g t Hi Eh) as (_ & _ & Ht & [n Hn] & _). exists t, n.
    split; [|done]. destruct g; try done. by destruct (Hg p).
  - destruct (clh_place_of i g Hi Eh) as (j & t & p & _ & Ht & Hn & _).
    destruct (cq_nodes _ _ _ _ _ H t) as [? [n ?]]; [by eapply list_elem_of_lookup_2|]. by exists t, n.
Qed.

(** A thread changes its own node, and what it does, but not its place. *)
Lemma clh_local i g g' t n n' :
  gs !! i = Some g → thr !! i = Some t → (∀ p, g ≠ ClhFreed p) → nds !! t = Some n →
  clh_hand thr i g' = clh_hand thr i g →
  (t ∈ ns → clh_wait n' = clh_wait n) →
  (∀ j p, q !! j = Some i → ns !! Datatypes.S j = Some t → ns !! j = Some p →
     clh_place_ok nds j t p g → clh_place_ok (<[t := n']> nds) j t p g') →
  (clh_hand thr i g = Some t → (∀ t', g' = ClhReads t' ∨ g' = ClhArmed t' → t' = t) ∧
     ((∃ t', g' = ClhArmed t') → clh_wait n' = 1)) →
  clh_ok q ns (<[t := n']> nds) thr (<[i := g']> gs).
Proof using H.
  intros Hi Ht Hg Hn Hh Hw Hp Hk. pose proof (lookup_lt_Some _ _ _ Hi) as Hlt.
  assert (clh_hand thr i g = Some t ∨ clh_hand thr i g = None) as Ho.
  { destruct g; auto. by destruct (Hg p). }
  assert (∀ j j' i', q !! j = Some i' → ns !! Datatypes.S j = Some t → ns !! Datatypes.S j' = Some t → i' = i → j = j') as Hj.
  { intros j j' i' _ Ha Hb _. assert (Datatypes.S j = Datatypes.S j') by (by eapply NoDup_lookup; [apply (cq_nodup _ _ _ _ _ H)|..]). lia. }
  assert (∀ i' g1, <[i := g']> gs !! i' = Some g1 → ∃ g2, gs !! i' = Some g2 ∧ clh_hand thr i' g1 = clh_hand thr i' g2
            ∧ (i' ≠ i → g1 = g2)) as Hgs.
  { intros i' g1 Hg1. destruct (decide (i = i')) as [<-|].
    - rewrite list_lookup_insert_eq in Hg1 by done. injection Hg1 as <-. by exists g.
    - rewrite list_lookup_insert_ne in Hg1 by done. by exists g1. }
  split; try apply H.
  - intros p' Hp'. destruct (cq_nodes _ _ _ _ _ H p' Hp'). split; [done|].
    apply lookup_insert_is_Some. destruct (decide (t = p')); auto.
  - intros j p' Hp'. rewrite <- (cq_wait _ _ _ _ _ H j p' Hp'). destruct (decide (t = p')) as [<-|].
    + rewrite lookup_insert_eq, Hn. cbn. f_equal. apply Hw. by eapply list_elem_of_lookup_2.
    + by rewrite lookup_insert_ne.
  - intros j i' Hq. destruct (cq_place _ _ _ _ _ H j i' Hq) as (g1 & t1 & p1 & Hg1 & Ht1 & Hn1 & Hp1 & Hok).
    destruct (decide (i = i')) as [<-|Hne].
    + simplify_eq. exists g', t, p1. rewrite list_lookup_insert_eq by done. split_and!; try done. by apply Hp.
    + exists g1, t1, p1. rewrite list_lookup_insert_ne by done. split_and!; try done.
      assert (t ≠ t1) as Hnt.
      { intros <-. destruct Ho as [Ho|Ho].
        - destruct (cq_hand _ _ _ _ _ H i g t Hi Ho) as (_ & Hni & _). apply Hni. by eapply list_elem_of_lookup_2.
        - destruct (clh_place_of i g Hi Ho) as (j2 & t2 & p2 & Hj2 & Ht2 & Hn2 & _). simplify_eq.
          assert (Datatypes.S j = Datatypes.S j2) as [= ->] by (by eapply NoDup_lookup; [apply (cq_nodup _ _ _ _ _ H)|..]).
          congruence. }
      unfold clh_place_ok in *. rewrite lookup_insert_ne by done. done.
  - intros i' g1 Hg1. destruct (Hgs i' g1 Hg1) as (g2 & Hg2 & -> & _). by apply (cq_in _ _ _ _ _ H).
  - intros i' g1 p' Hg1 Hp'. destruct (Hgs i' g1 Hg1) as (g2 & Hg2 & E & E'). rewrite E in Hp'.
    destruct (cq_hand _ _ _ _ _ H i' g2 p' Hg2 Hp') as (Ha & Hb & Hc & Hd & He & Hf). split; [done|]. split; [done|].
    split; [done|]. split; [apply lookup_insert_is_Some; destruct (decide (t = p')); auto|].
    destruct (decide (i' = i)) as [->|Hne].
    + rewrite list_lookup_insert_eq in Hg1 by done. simplify_eq. destruct Ho as [Ho|]; [|congruence]. simplify_eq.
      destruct (Hk Ho) as [Hk1 Hk2]. split; [done|]. intros Hx. rewrite lookup_insert_eq. cbn. f_equal. by apply Hk2.
    + rewrite (E' Hne) in *. split; [done|]. intros Hx. rewrite lookup_insert_ne; [by apply Hf|].
      intros <-. destruct Ho as [Ho|Ho].
      * apply Hne. by eapply (cq_hands _ _ _ _ _ H).
      * destruct (clh_place_of i g Hi Ho) as (j2 & t2 & p2 & Hj2 & Ht2 & Hn2 & _). simplify_eq.
        apply Hb. by eapply list_elem_of_lookup_2.
  - intros a b ga gb p' Ha Hb Hpa Hpb. destruct (Hgs a ga Ha) as (ga' & ? & Ea & _), (Hgs b gb Hb) as (gb' & ? & Eb & _).
    rewrite Ea in Hpa. rewrite Eb in Hpb. by eapply (cq_hands _ _ _ _ _ H).
  - rewrite length_insert. apply (cq_threads _ _ _ _ _ H).
Qed.

(** A thread takes the end of the queue. *)
Lemma clh_join i t :
  gs !! i = Some (ClhArmed t) →
  ∃ p, last ns = Some p ∧ clh_ok (q ++ [i]) (ns ++ [t]) nds thr (<[i := ClhJoined t p]> gs).
Proof using H.
  intros Hi. pose proof (lookup_lt_Some _ _ _ Hi) as Hlt.
  destruct (lookup_lt_is_Some_2 thr i) as [t0 Ht0]; [pose proof (cq_threads _ _ _ _ _ H); lia|].
  destruct (cq_hand _ _ _ _ _ H i _ t0 Hi Ht0) as (Hni & Hnn & Hnz & Hnd & Eq & Hw).
  assert (t = t0) as <- by (apply Eq; by right). specialize (Hw ltac:(by eexists)).
  pose proof (cq_length _ _ _ _ _ H) as Hlen.
  destruct (lookup_lt_is_Some_2 ns (length q)) as [p Hp]; [lia|].
  exists p. split; [rewrite last_lookup; by rewrite Hlen|]. split.
  - rewrite !length_app. cbn. lia.
  - apply NoDup_app. split; [apply (cq_nodup _ _ _ _ _ H)|]. split; [|apply NoDup_singleton].
    by intros x Hx ->%list_elem_of_singleton.
  - intros x [Hx| ->%list_elem_of_singleton]%elem_of_app; [by apply (cq_nodes _ _ _ _ _ H)|done].
  - intros j x [Hx|[Hge Hx]]%lookup_app_Some; [by apply (cq_wait _ _ _ _ _ H)|].
    apply list_lookup_singleton_Some in Hx as [Ej <-]. rewrite decide_False by lia. done.
  - intros j i' [Hj|[Hge Hj]]%lookup_app_Some.
    + destruct (cq_place _ _ _ _ _ H j i' Hj) as (g1 & t1 & p1 & Hg1 & Ht1 & Hn1 & Hp1 & Hok).
      exists g1, t1, p1. rewrite list_lookup_insert_ne; [|intros <-; apply Hni; by eapply list_elem_of_lookup_2].
      split_and!; try done; by apply lookup_app_l_Some.
    + apply list_lookup_singleton_Some in Hj as [Ej <-]. assert (j = length q) as -> by lia.
      exists (ClhJoined t p), t, p. rewrite list_lookup_insert_eq by done. split_and!; try done.
      * rewrite <- Hlen. by apply list_lookup_middle.
      * by apply lookup_app_l_Some.
  - intros i' g1 Hg1. destruct (decide (i = i')) as [<-|].
    + left. apply elem_of_app. right. by apply list_elem_of_singleton.
    + rewrite list_lookup_insert_ne in Hg1 by done. destruct (cq_in _ _ _ _ _ H i' g1 Hg1); [|by right].
      left. apply elem_of_app. by left.
  - intros i' g1 p' Hg1 Hp'. destruct (decide (i = i')) as [<-|Hne].
    + rewrite list_lookup_insert_eq in Hg1 by done. by injection Hg1 as <-.
    + rewrite list_lookup_insert_ne in Hg1 by done.
      destruct (cq_hand _ _ _ _ _ H i' g1 p' Hg1 Hp') as (Ha & Hb & Hrest). split; [|split; [|done]].
      * intros [?|?%list_elem_of_singleton]%elem_of_app; [done|congruence].
      * intros [?| ->%list_elem_of_singleton]%elem_of_app; [done|]. apply Hne.
        by eapply (cq_hands _ _ _ _ _ H i i' _ _ t).
  - intros a b ga gb p' Ha Hb Hpa Hpb.
    assert (∀ c gc, <[i:=ClhJoined t p]> gs !! c = Some gc → clh_hand thr c gc = Some p' → gs !! c = Some gc) as Hc.
    { intros c gc Hc Hpc. destruct (decide (i = c)) as [<-|]; [|by rewrite list_lookup_insert_ne in Hc].
      rewrite list_lookup_insert_eq in Hc by done. by injection Hc as <-. }
    eapply (cq_hands _ _ _ _ _ H a b); eauto.
  - rewrite length_insert. apply (cq_threads _ _ _ _ _ H).
Qed.

(** The first of the queue lets the next have the lock, and has the node that was free. *)
Lemma clh_pass i t p n :
  gs !! i = Some (ClhFrees t p) → nds !! t = Some n →
  ∃ q' ns', q = i :: q' ∧ ns = p :: ns' ∧ clh_ok q' ns' (<[t := set_clh_wait 0 n]> nds) thr (<[i := ClhFreed p]> gs).
Proof using H.
  intros Hi Hn. pose proof (lookup_lt_Some _ _ _ Hi) as Hlt.
  destruct (clh_place_of i _ Hi eq_refl) as (j & t0 & p0 & Hj & Ht & Hnt & Hnp & -> & <- & <-).
  pose proof clh_place_unique as Hu. destruct q as [|i0 q'] eqn:Eq; [done|]. injection Hj as ->. destruct ns as [|p1 ns'] eqn:Ens; [done|].
  injection Hnp as ->. exists q', ns'. split; [done|]. split; [done|].
  pose proof (cq_nodup _ _ _ _ _ H) as Hnd. apply NoDup_cons in Hnd as [Hpn Hnd].
  assert (i ∉ q') as Hiq.
  { intros [j Hj]%list_elem_of_lookup. by assert (0%nat = Datatypes.S j) by (by apply (Hu 0%nat (Datatypes.S j) i)). }
  change (ns' !! 0%nat = Some t) in Hnt. destruct (cq_nodes _ _ _ _ _ H p) as [Hpz Hpd]; [left|].
  assert (∀ i' g1, <[i := ClhFreed p]> gs !! i' = Some g1 → i' ≠ i → gs !! i' = Some g1) as Hgs.
  { intros i' g1 Hg1 Hne. by rewrite list_lookup_insert_ne in Hg1 by done. }
  split; try done.
  - pose proof (cq_length _ _ _ _ _ H) as Hlen. cbn in Hlen. lia.
  - intros x Hx. destruct (cq_nodes _ _ _ _ _ H x); [by right|]. split; [done|].
    apply lookup_insert_is_Some. destruct (decide (t = x)); auto.
  - intros j x Hx. destruct (decide (j = 0%nat)) as [->|Hj0].
    + assert (x = t) as -> by congruence. by rewrite lookup_insert_eq.
    + rewrite lookup_insert_ne by (intros <-; apply Hj0; by eapply NoDup_lookup).
      rewrite (cq_wait _ _ _ _ _ H (Datatypes.S j) x Hx). done.
  - intros j i' Hj. destruct (cq_place _ _ _ _ _ H (Datatypes.S j) i' Hj) as (g1 & t1 & p2 & Hg1 & Ht1 & Hn1 & Hp1 & Hok).
    exists g1, t1, p2. assert (i' ≠ i) as Hne by (intros ->; apply Hiq; by eapply list_elem_of_lookup_2).
    rewrite list_lookup_insert_ne by done. split_and!; try done.
    assert (t ≠ t1). { intros <-. assert (0%nat = Datatypes.S j) by (by eapply (NoDup_lookup ns')). lia. }
    unfold clh_place_ok in *. rewrite lookup_insert_ne by done. destruct g1; try done; by destruct Hok.
  - intros i' g1 Hg1. destruct (decide (i' = i)) as [->|Hne].
    + rewrite list_lookup_insert_eq in Hg1 by done. injection Hg1 as <-. right. by eexists.
    + apply Hgs in Hg1; [|done]. destruct (cq_in _ _ _ _ _ H i' g1 Hg1) as [Hin|]; [|by right].
      apply elem_of_cons in Hin as [|]; [done|by left].
  - intros i' g1 p' Hg1 Hp'. destruct (decide (i' = i)) as [->|Hne].
    + rewrite list_lookup_insert_eq in Hg1 by done. injection Hg1 as <-. injection Hp' as <-.
      split; [done|]. split; [done|]. split; [done|].
      split; [apply lookup_insert_is_Some; destruct (decide (t = p)); auto|].
      split; [by intros ? [|]|by intros [? ?]].
    + apply Hgs in Hg1; [|done]. destruct (cq_hand _ _ _ _ _ H i' g1 p' Hg1 Hp') as (Ha & Hb & Hc & Hd & He & Hf).
      rewrite not_elem_of_cons in Ha. rewrite not_elem_of_cons in Hb. split; [by destruct Ha|]. split; [by destruct Hb|].
      assert (t ≠ p'). { intros <-. destruct Hb as [_ Hb]. apply Hb. by eapply list_elem_of_lookup_2. }
      by rewrite lookup_insert_ne.
  - intros a b ga gb p' Ha Hb Hpa Hpb.
    assert (∀ c gc, <[i := ClhFreed p]> gs !! c = Some gc → clh_hand thr c gc = Some p' → c ≠ i → p' ≠ p) as Hc.
    { intros c gc Hc Hpc Hne ->. apply Hgs in Hc; [|done]. destruct (cq_hand _ _ _ _ _ H c gc p Hc Hpc) as (_ & Hx & _).
      apply Hx. left. }
    destruct (decide (a = i)) as [->|Hai], (decide (b = i)) as [->|Hbi]; try done.
    + rewrite list_lookup_insert_eq in Ha by done. injection Ha as <-. injection Hpa as <-. by destruct (Hc b gb Hb Hpb Hbi).
    + rewrite list_lookup_insert_eq in Hb by done. injection Hb as <-. injection Hpb as <-. by destruct (Hc a ga Ha Hpa Hai).
    + apply Hgs in Ha; [|done]. apply Hgs in Hb; [|done]. by eapply (cq_hands _ _ _ _ _ H).
  - rewrite length_insert. apply (cq_threads _ _ _ _ _ H).
Qed.

(** It keeps that node. *)
Lemma clh_take i p :
  gs !! i = Some (ClhFreed p) → clh_ok q ns nds (<[i := p]> thr) (<[i := ClhOut]> gs).
Proof using H.
  intros Hi. pose proof (lookup_lt_Some _ _ _ Hi) as Hlt. pose proof (cq_threads _ _ _ _ _ H).
  destruct (cq_hand _ _ _ _ _ H i _ p Hi eq_refl) as (Hni & Hnn & Hnz & Hnd & _ & _).
  assert (∀ i' g1, <[i := ClhOut]> gs !! i' = Some g1 → ∃ g2, gs !! i' = Some g2 ∧
    clh_hand (<[i := p]> thr) i' g1 = clh_hand thr i' g2 ∧ (i' ≠ i → g1 = g2) ∧ (i' = i → g1 = ClhOut ∧ g2 = ClhFreed p)) as Hgs.
  { intros i' g1 Hg1. destruct (decide (i = i')) as [<-|Hne].
    - rewrite list_lookup_insert_eq in Hg1 by done. injection Hg1 as <-. exists (ClhFreed p). split_and!; try done.
      cbn. apply list_lookup_insert_eq. lia.
    - rewrite list_lookup_insert_ne in Hg1 by done. exists g1. split_and!; try done.
      destruct g1; try done; cbn; by rewrite list_lookup_insert_ne. }
  split; try apply H.
  - intros j i' Hj. assert (i' ≠ i) as Hne by (intros ->; apply Hni; by eapply list_elem_of_lookup_2).
    destruct (cq_place _ _ _ _ _ H j i' Hj) as (g1 & t1 & p2 & Hg1 & Ht1 & Hrest). exists g1, t1, p2.
    by rewrite !list_lookup_insert_ne by done.
  - intros i' g1 Hg1. destruct (Hgs i' g1 Hg1) as (g2 & Hg2 & -> & _). by apply (cq_in _ _ _ _ _ H).
  - intros i' g1 p' Hg1 Hp'. destruct (Hgs i' g1 Hg1) as (g2 & Hg2 & E & Hne & He). rewrite E in Hp'.
    destruct (cq_hand _ _ _ _ _ H i' g2 p' Hg2 Hp') as (Ha & Hb & Hc & Hd & Hf). split_and!; try done;
      (destruct (decide (i' = i)) as [Ei|Ei]; [destruct (He Ei) as [-> _]|rewrite (Hne Ei); apply Hf]).
    + by intros ? [|].
    + by intros [? ?].
  - intros a b ga gb p' Ha Hb Hpa Hpb. destruct (Hgs a ga Ha) as (ga' & ? & Ea & _), (Hgs b gb Hb) as (gb' & ? & Eb & _).
    rewrite Ea in Hpa. rewrite Eb in Hpb. by eapply (cq_hands _ _ _ _ _ H).
  - rewrite !length_insert. done.
Qed.
End ok.

(** ** The lock satisfies the laws *)

Section laws.
Context (max : nat) (R : list mark → list (clh_ghost * bool) → Prop) (Rs : frame_stable R).
Abbreviation clh_wp := (lock_wp (clh_inv max) R).
Abbreviation tail := (the_lock →' clh_queue_loc).
Abbreviation nodes := (the_lock →' clh_nodes_loc).
Abbreviation var i := (the_lock →' clh_thread_loc i).

(** A step that reads, and after which the thread knows more. *)
Lemma clh_read_wp n i {A} (f : clh_lock → outcome A) g (Q : A → clh_ghost → Prop) :
  (∀ x q ns gs, last ns = Some (clh_queue x) → clh_ok q ns (clh_nodes x) (clh_threads x) gs → gs !! i = Some g →
     ∃ a g', f x = Ret a ∧ clh_ok q ns (clh_nodes x) (clh_threads x) (<[i := g']> gs) ∧ Q a g') →
  clh_wp n (atomic (λ s, a ← f s.1; Ret (a, s))) i Q g.
Proof.
  intros H. apply outside_wp_atomic; [done|]. intros x tr gs (Hd & q & ns & El & Hq) Hi.
  destruct (H x q ns gs El Hq Hi) as (a & g' & E & Hq' & HQ).
  exists a, x, g'. cbn. rewrite E. split; [done|]. split; [split; [done|by exists q, ns]|done].
Qed.

(** What a thread does is all that changes. *)
Lemma clh_know q ns nds thr gs i g g' t nd :
  clh_ok q ns nds thr gs → gs !! i = Some g → thr !! i = Some t → (∀ p, g ≠ ClhFreed p) → nds !! t = Some nd →
  clh_hand thr i g' = clh_hand thr i g →
  (∀ j p, q !! j = Some i → ns !! Datatypes.S j = Some t → ns !! j = Some p →
     clh_place_ok nds j t p g → clh_place_ok nds j t p g') →
  (clh_hand thr i g = Some t → (∀ t', g' = ClhReads t' ∨ g' = ClhArmed t' → t' = t) ∧
     ((∃ t', g' = ClhArmed t') → clh_wait nd = 1)) →
  clh_ok q ns nds thr (<[i := g']> gs).
Proof.
  intros H Hi Ht Hg Hn Hh Hp Hk. rewrite <- (insert_id nds t nd Hn).
  eapply (clh_local q ns nds thr gs H i g); try done. by rewrite (insert_id nds t nd Hn).
Qed.

(** A step that reads a node. *)
Lemma clh_load_wp n i {A} p (f : ck_spinlock_clh → A) g (Q : A → clh_ghost → Prop) :
  (∀ x q ns gs, last ns = Some (clh_queue x) → clh_ok q ns (clh_nodes x) (clh_threads x) gs → gs !! i = Some g →
     ∃ nd g', deref (clh_nodes x) p = Ret nd ∧ clh_ok q ns (clh_nodes x) (clh_threads x) (<[i := g']> gs) ∧ Q (f nd) g') →
  clh_wp n (load_member nodes p f) i Q g.
Proof.
  intros H. apply outside_wp_atomic; [done|]. intros x tr gs (Hd & q & ns & El & Hq) Hi.
  destruct (H x q ns gs El Hq Hi) as (nd & g' & E & Hq' & HQ).
  exists (f nd), x, g'. cbn. rewrite E. split; [done|]. split; [split; [done|by exists q, ns]|done].
Qed.

(** The variable of a thread: it reads its node. *)
Lemma clh_var_wp n i g (Q : Z → clh_ghost → Prop) g' :
  (∀ p, g ≠ ClhFreed p) →
  (∀ thr t, clh_hand thr i (g' t) = clh_hand thr i g) →
  (∀ nds j t p, clh_place_ok nds j t p g → clh_place_ok nds j t p (g' t)) →
  (∀ t, (∀ t', g' t = ClhReads t' → t' = t) ∧ ∀ t', g' t ≠ ClhArmed t') →
  (∀ t, Q t (g' t)) → clh_wp n (ck_pr_load (var i)) i Q g.
Proof.
  intros Hg Hh Hp Hk HQ. apply (clh_read_wp n i (λ x, Ret (clh_threads x !!! i))).
  intros x q ns gs El Hq Hi. destruct (clh_own_node q ns _ _ gs Hq i g Hi Hg) as (t & nd & Ht & _ & Hnd).
  exists t, (g' t). split; [by rewrite (list_lookup_total_correct _ _ _ Ht)|]. split; [|done].
  eapply clh_know; try done.
  - intros j p _ _ _. apply Hp.
  - intros _. destruct (Hk t) as [H1 H2]. split; [intros t' [|E]; [by apply H1|by destruct (H2 t')]|].
    by intros [t' E%H2].
Qed.

(** A store into the thread's own node, of which it knows the address. *)
Lemma clh_store_wp n i g g' t u (Q : unit → clh_ghost → Prop) :
  (∀ p, g ≠ ClhFreed p) →
  (∀ q ns nds thr gs, clh_ok q ns nds thr gs → gs !! i = Some g → thr !! i = Some t) →
  (∀ thr, clh_hand thr i g' = clh_hand thr i g) →
  (∀ nds nd j p, nds !! t = Some nd → clh_place_ok nds j t p g → clh_wait (u nd) = clh_wait nd ∧ clh_place_ok (<[t := u nd]> nds) j t p g') →
  ((∃ thr, is_Some (clh_hand thr i g)) → (∀ t', g' = ClhReads t' ∨ g' = ClhArmed t' → t' = t) ∧
     ((∃ t', g' = ClhArmed t') → ∀ nd, clh_wait (u nd) = 1)) →
  Q tt g' → clh_wp n (store_member nodes t u) i Q g.
Proof.
  intros Hg Ht Hh Hp Hk HQ. apply outside_wp_atomic; [done|]. intros [qp nds thr] tr gs (Hd & q & ns & El & Hq) Hi.
  cbn in El, Hq. pose proof (Ht _ _ _ _ _ Hq Hi) as Hti.
  destruct (clh_own_node q ns nds thr gs Hq i g Hi Hg) as (t' & nd & Ht' & Hz & Hnd).
  assert (t' = t) as -> by congruence. clear Ht'.
  eexists _, _, g'. split; [cbn; rewrite (deref_lookup nds t nd) by done; reflexivity|]. split; [|done].
  split; [by apply clh_nodes_insert; [rewrite Hnd|]|]. exists q, ns. split; [done|]. eapply clh_local; try done.
  - intros Hin. destruct (clh_hand thr i g) as [t0|] eqn:Eh.
    + destruct (cq_hand _ _ _ _ _ Hq i g t0 Hi Eh) as (_ & Hni & _). assert (t0 = t) as ->; [|done].
      destruct g; cbn in Eh; congruence.
    + destruct (clh_place_of q ns nds thr gs Hq i g Hi Eh) as (j & t1 & p & _ & Ht1 & _ & _ & Hok). simplify_eq.
      by apply (Hp nds nd j p).
  - intros j p _ _ _ Hok. by apply (Hp nds nd j p).
  - intros Eh. destruct Hk as [H1 H2]; [by exists thr, t|]. split; [done|]. intros E. by apply H2.
Qed.

Lemma clh_lock_wp n i :
  clh_wp n (thread ← ck_pr_load (var i); ck_spinlock_clh_lock tail nodes thread) i (λ _ g, g = ClhHolds) ClhOut.
Proof.
  apply outside_wp_bind, (clh_var_wp n i ClhOut _ ClhReads); try done.
  { intros t. split; [by intros t' [= ->]|done]. }
  intros t. apply outside_wp_bind. apply (clh_store_wp n i (ClhReads t) (ClhArmed t)); try done.
  { intros q ns nds thr gs Hq Hi. pose proof (lookup_lt_Some _ _ _ Hi). pose proof (cq_threads _ _ _ _ _ Hq).
    destruct (lookup_lt_is_Some_2 thr i) as [t0 Ht0]; [lia|].
    destruct (cq_hand _ _ _ _ _ Hq i _ t0 Hi Ht0) as (_ & _ & _ & _ & E & _). rewrite (E t); auto. }
  { intros _. by split; [intros t' [|[= ->]]|]. }
  apply outside_wp_bind, outside_wp_atomic; [done|]. intros [qp nds thr] tr gs (Hd & q & ns & El & Hq) Hi. cbn in El, Hq.
  destruct (clh_join q ns nds thr gs Hq i t Hi) as (p & Ep & Hq'). assert (qp = p) as -> by congruence.
  eexists _, _, (ClhJoined t p). split; [reflexivity|]. split; [split; [done|]; exists (q ++ [i]), (ns ++ [t]); split; [by rewrite last_snoc|done]|].
  cbn. apply outside_wp_bind. apply (clh_store_wp n i (ClhJoined t p) (ClhWaits p)); try done.
  { clear. intros q ns nds thr gs Hq Hi.
    by destruct (clh_place_of q ns nds thr gs Hq i _ Hi eq_refl) as (j & t1 & p1 & _ & Ht1 & _ & _ & -> & _). }
  { clear. intros nds nd j p0 Hnd [_ <-]. split; [done|]. split; [done|]. by rewrite lookup_insert_eq. }
  { intros [? [? ?]]. done. }
  apply (outside_wp_while _ _ _ _ _ _ (λ g, g = ClhWaits p)); [done|]. clear - Rs. intros m g ->.
  apply outside_wp_bind.
  apply clh_load_wp. intros x q ns gs El' Hq1 Hi1.
  destruct (clh_place_of _ _ _ _ _ Hq1 i _ Hi1 eq_refl) as (j & t1 & p1 & Hj & Ht1 & Hn1 & Hp1 & <- & Hnoted).
  destruct (cq_nodes _ _ _ _ _ Hq1 p) as [Hz [nd Hnd]]; [by eapply list_elem_of_lookup_2|].
  pose proof (cq_wait _ _ _ _ _ Hq1 j p Hp1) as Hw. rewrite Hnd in Hw. cbn in Hw. injection Hw as Hw.
  destruct (cq_nodes _ _ _ _ _ Hq1 t1) as [Hz1 [nd1 Hnd1]]; [by eapply list_elem_of_lookup_2|].
  exists nd. rewrite (deref_lookup _ p nd) by done. rewrite Hw. destruct (decide (j = 0%nat)) as [->|Hj0].
  - exists ClhHolds. split; [done|]. split; [|by apply outside_wp_ret].
    eapply clh_know; try done. intros j p0 Hj' _ Hp0 [<- ?].
    assert (j = 0%nat) as -> by (by eapply clh_place_unique). done.
  - exists (ClhWaits p). rewrite list_insert_id by done. split; [done|]. split; [done|].
    apply outside_wp_ret. by apply outside_wp_stall.
Qed.

Lemma clh_unlock_wp n i :
  clh_wp n (ck_spinlock_clh_unlock nodes (var i)) i (λ _ g, g = ClhOut) ClhHolds.
Proof.
  apply outside_wp_bind, (clh_var_wp n i ClhHolds _ ClhLeaves); try done.
  { by intros nds j t p [-> ?]. }
  intros t. apply outside_wp_bind, clh_load_wp. intros x q ns gs El Hq Hi.
  destruct (clh_place_of _ _ _ _ _ Hq i _ Hi eq_refl) as (j & t1 & p & Hj & Ht1 & Hn1 & Hp1 & -> & -> & Hnoted).
  destruct (cq_nodes _ _ _ _ _ Hq t1) as [Hz [nd Hnd]]; [by eapply list_elem_of_lookup_2|].
  rewrite Hnd in Hnoted. injection Hnoted as Hnoted.
  exists nd, (ClhLeaves' p). rewrite (deref_lookup _ t1 nd) by done. split; [done|]. split.
  { eapply clh_know; try done. intros j p0 Hj' _ Hp0 (-> & _ & E). rewrite Hnd in E. injection E as E.
    split; [done|]. congruence. }
  rewrite Hnoted. clear - Rs. apply outside_wp_bind, (clh_var_wp n i _ _ (λ t, ClhFrees t p)); try done.
  { by intros nds j t p' [-> ->]. }
  intros t. apply outside_wp_bind, outside_wp_atomic; [done|]. intros [qp nds thr] tr gs (Hd & q & ns & El & Hq) Hi. cbn in El, Hq.
  destruct (clh_own_node q ns nds thr gs Hq i _ Hi) as (t' & nd & Ht & Hz & Hnd); [done|].
  destruct (clh_place_of q ns nds thr gs Hq i _ Hi eq_refl) as (j & t1 & p1 & _ & Ht1 & Hn1 & _ & -> & -> & _).
  assert (t' = t1) as -> by congruence.
  destruct (clh_pass q ns nds thr gs Hq i t1 p nd Hi Hnd) as (q' & ns' & -> & -> & Hq').
  eexists _, _, (ClhFreed p). split; [cbn; rewrite (deref_lookup nds t1 nd) by done; reflexivity|]. split.
  { split; [by apply clh_nodes_insert; [rewrite Hnd|]|]. exists q', ns'. split; [|done]. cbn. destruct ns'; [done|]. by rewrite last_cons_cons in El. }
  apply outside_wp_atomic; [done|]. clear - Rs. intros [qp nds thr] tr gs (Hd & q & ns & El & Hq) Hi. cbn in El, Hq.
  eexists _, _, ClhOut. split; [reflexivity|]. split; [|done].
  split; [done|]. exists q, ns. split; [done|]. by apply clh_take.
Qed.

Lemma clh_locked_wp n i :
  clh_wp n (ck_spinlock_clh_locked tail nodes) i (λ _ g, g = ClhOut) ClhOut.
Proof.
  apply outside_wp_bind.
  apply (outside_wp_mono _ _ _ _ _ _ _ (λ p g, g = ClhOut ∧ 1 ≤ p ≤ Z.of_nat max + 1)).
  - apply outside_wp_atomic; [done|]. intros [qp nds thr] tr gs (Hd & q & ns & El & Hq) Hi. cbn in Hd, El, Hq.
    eexists _, _, ClhOut. split; [reflexivity|]. rewrite list_insert_id by done.
    split; [split; [done|by exists q, ns]|]. split; [done|]. apply Hd, (cq_nodes _ _ _ _ _ Hq).
    rewrite last_lookup in El. by eapply list_elem_of_lookup_2.
  - intros p g [-> Hp]. apply outside_wp_bind, outside_wp_atomic; [done|].
    intros [qp nds thr] tr gs (Hd & q & ns & El & Hq) Hi. cbn in Hd, El, Hq.
    destruct (proj2 (Hd p) Hp) as [nd Hnd]. eexists _, _, ClhOut. cbn. rewrite (deref_lookup nds p nd) by (done || lia).
    split; [reflexivity|]. rewrite list_insert_id by done. split; [split; [done|by exists q, ns]|]. by apply outside_wp_ret.
Qed.
End laws.

Lemma clh_inv_init max n :
  (n ≤ max)%nat →
  clh_inv max (MkClhLock (own_node max) (own_nodes (Datatypes.S max) (MkClh 0 0)) (own_node <$> seq 0 max)) (replicate n ClhOut).
Proof.
  intros Hn. split; cbn [clh_nodes clh_queue clh_threads].
  - intros p. split.
    + intros [x Hx]. destruct (decide (1 ≤ p ≤ Z.of_nat max + 1)); [done|].
      rewrite own_nodes_outside in Hx; [done|]. intros i Hi ->. unfold own_node in *. lia.
    + intros Hp. replace p with (own_node (Z.to_nat (p - 1))) by (unfold own_node; lia).
      rewrite own_nodes_lookup by lia. by eexists.
  - assert (∀ i p, (own_node <$> seq 0 max) !! i = Some p → (i < max)%nat ∧ p = own_node i) as Hthr.
    { intros i p E. rewrite list_lookup_fmap in E. destruct (seq 0 max !! i) as [k|] eqn:Ek; [|done].
      apply lookup_seq in Ek as [-> ?]. by injection E as <-. }
    exists [], [own_node max]. split; [done|]. split; try done.
    + apply NoDup_singleton.
    + intros p ->%list_elem_of_singleton. split; [apply own_node_pos|]. rewrite own_nodes_lookup by lia. by eexists.
    + intros j p Hj. apply list_lookup_singleton_Some in Hj as [-> <-]. by rewrite own_nodes_lookup by lia.
    + intros i g [-> Hi]%lookup_replicate. right. cbn. apply lookup_lt_is_Some_2. rewrite length_fmap, length_seq. lia.
    + intros i g p [-> Hi]%lookup_replicate [Hi' ->]%Hthr. split; [apply not_elem_of_nil|].
      split; [intros E%list_elem_of_singleton%own_node_inj; lia|]. split; [apply own_node_pos|].
      rewrite own_nodes_lookup by lia. split; [by eexists|]. split; [by intros t [|]|by intros [t ?]].
    + intros i j g g' p [-> _]%lookup_replicate [-> _]%lookup_replicate [_ ->]%Hthr [_ E]%Hthr. by apply own_node_inj.
    + rewrite length_replicate, length_fmap, length_seq. lia.
Qed.

Lemma clh_inv_excl max s gs i j g g' :
  clh_inv max s gs → gs !! i = Some g → gs !! j = Some g' → g = ClhHolds → g' = ClhHolds → i = j.
Proof.
  intros (_ & q & ns & _ & Hq) Hi Hj -> ->.
  destruct (clh_place_of _ _ _ _ _ Hq i _ Hi eq_refl) as (a & ? & ? & Ha & _ & _ & _ & -> & _).
  destruct (clh_place_of _ _ _ _ _ Hq j _ Hj eq_refl) as (b & ? & ? & Hb & _ & _ & _ & -> & _). congruence.
Qed.

Definition clh_laws max : @SpinlockLaws clh_lock (clh_spinlock max) max.
Proof.
  refine {| ghost := clh_ghost; idle := ClhOut; holds := (λ g, g = ClhHolds); lock_inv := clh_inv max |}.
  - apply clh_inv_init.
  - apply clh_inv_excl.
  - intros R n i HR. by apply clh_lock_wp.
  - done.
  - intros R n i HR. by apply clh_locked_wp.
  - intros R n i g HR ->. by apply clh_unlock_wp.
Defined.
