(* ===== verification/CkHclh.v ===== *)
(** CkHclh: the hierarchical queue lock, include/aerospike/ck/spinlock/hclh.h: the threads of a cluster wait in a queue
    of their own, and the first of them puts a part of that queue at the end of the one of all clusters.

    The nodes are in a memory of their own, as in CkMcs: a step at an address without a node is undefined. *)

From Stdlib Require Import ZArith Lia.
From stdpp Require Import functions base list gmap sets.
From S2P Require Import Prelude Concurrent CkPr CkMutex.

#[local] Open Scope Z_scope.
#[local] Set Warnings "-clear-no-such-hyp".

(** [src: include/aerospike/ck/spinlock/hclh.h 38-43 ck_spinlock_hclh] *)
Record ck_spinlock_hclh : Type := MkHclh { hn_wait : Z; hn_splice : Z; hn_cluster_id : Z; hn_previous : Z }.
Definition wait : loc ck_spinlock_hclh Z :=
  MkLoc hn_wait (λ v x, MkHclh v (hn_splice x) (hn_cluster_id x) (hn_previous x)).
Definition splice : loc ck_spinlock_hclh Z :=
  MkLoc hn_splice (λ v x, MkHclh (hn_wait x) v (hn_cluster_id x) (hn_previous x)).
Definition cluster_id : loc ck_spinlock_hclh Z :=
  MkLoc hn_cluster_id (λ v x, MkHclh (hn_wait x) (hn_splice x) v (hn_previous x)).
Definition previous : loc ck_spinlock_hclh Z :=
  MkLoc hn_previous (λ v x, MkHclh (hn_wait x) (hn_splice x) (hn_cluster_id x) v).

Section hclh.
Context {S : Type} (nodes : loc S (gmap Z ck_spinlock_hclh)).

(** [src: include/aerospike/ck/spinlock/hclh.h 46-59 ck_spinlock_hclh_init] *)
Definition ck_spinlock_hclh_init (lock : loc S Z) (unowned cluster : Z) : prog S unit :=
  put_at nodes previous unowned 0;;
  put_at nodes wait unowned 0;;
  put_at nodes splice unowned 0;;
  put_at nodes cluster_id unowned cluster;;
  ck_pr_store lock unowned.

(** [src: include/aerospike/ck/spinlock/hclh.h 61-71 ck_spinlock_hclh_locked] *)
Definition ck_spinlock_hclh_locked (queue : loc S Z) : prog S bool :=
  head ← ck_pr_load queue;
  r ← get_at nodes wait head;
  mret (negb (r =? 0)).

(** [src: include/aerospike/ck/spinlock/hclh.h 97-105 ck_spinlock_hclh_lock] *)
Definition hclh_wait_local (thread previous_node : Z) : prog S bool :=
  while (w ← get_at nodes wait previous_node;
         if negb (w =? 1) then mret false
         else
           c ← get_at nodes cluster_id previous_node; c' ← get_at nodes cluster_id thread;
           if negb (c =? c') then mret false
           else s ← get_at nodes splice previous_node; mret (s =? 0)) stall;;
  c ← get_at nodes cluster_id previous_node; c' ← get_at nodes cluster_id thread;
  if c =? c' then s ← get_at nodes splice previous_node; mret (s =? 0) else mret false.

(** [src: include/aerospike/ck/spinlock/hclh.h 109-118 ck_spinlock_hclh_lock] *)
Definition hclh_splice_local (glob_queue local_queue : loc S Z) : prog S unit :=
  local_tail ← ck_pr_load local_queue;
  previous_node ← ck_pr_fas glob_queue local_tail;
  put_at nodes splice local_tail 1;;
  while (w ← get_at nodes wait previous_node; mret (w =? 1)) stall.

(** [src: include/aerospike/ck/spinlock/hclh.h 73-120 ck_spinlock_hclh_lock] *)
Definition ck_spinlock_hclh_lock (glob_queue local_queue : loc S Z) (thread : Z) : prog S unit :=
  put_at nodes wait thread 1;;
  put_at nodes splice thread 0;;
  l ← ck_pr_load local_queue; c ← get_at nodes cluster_id l; put_at nodes cluster_id thread c;;
  l ← ck_pr_load local_queue; put_at nodes previous thread l;;
  previous_node ← ck_pr_fas local_queue thread;
  put_at nodes previous thread previous_node;;
  p ← get_at nodes previous previous_node;
  if negb (p =? 0) then
    taken ← hclh_wait_local thread previous_node;
    if (taken : bool) then mret tt else hclh_splice_local glob_queue local_queue
  else hclh_splice_local glob_queue local_queue.

(** The variable of the caller is read and, at the end, written.
    [src: include/aerospike/ck/spinlock/hclh.h 122-147 ck_spinlock_hclh_unlock] *)
Definition ck_spinlock_hclh_unlock (thread : loc S Z) : prog S unit :=
  t ← ck_pr_load thread;
  previous_node ← get_at nodes previous t;
  t ← ck_pr_load thread;
  put_at nodes wait t 0;;
  ck_pr_store thread previous_node.
End hclh.

(** ** The lock of threads in clusters, each with a variable for its node *)

Record hclh_lock : Type := MkHclhLock {
  hl_glob : Z; hl_local : nat → Z; hl_nodes : gmap Z ck_spinlock_hclh; hl_threads : nat → Z }.
Definition hl_glob_loc : loc hclh_lock Z := MkLoc hl_glob (λ v x, MkHclhLock v (hl_local x) (hl_nodes x) (hl_threads x)).
Definition hl_local_loc (c : nat) : loc hclh_lock Z :=
  MkLoc (λ x, hl_local x c) (λ v x, MkHclhLock (hl_glob x) (<[c := v]> (hl_local x)) (hl_nodes x) (hl_threads x)).
Definition hl_nodes_loc : loc hclh_lock (gmap Z ck_spinlock_hclh) :=
  MkLoc hl_nodes (λ v x, MkHclhLock (hl_glob x) (hl_local x) v (hl_threads x)).
Definition hl_thread_loc (i : nat) : loc hclh_lock Z :=
  MkLoc (λ x, hl_threads x i) (λ v x, MkHclhLock (hl_glob x) (hl_local x) (hl_nodes x) (<[i := v]> (hl_threads x))).

(** The nodes that the queues start with: of all clusters, and of one. *)
Definition glob_unowned : Z := -1.
Definition local_unowned (c : nat) : Z := - Z.of_nat c - 2.

(** The lock after the calls of [ck_spinlock_hclh_init], for the queue of all and those of [clusters] clusters; the
    nodes of the threads are as [ns] says. *)
Definition hclh_first (clusters : nat) (ns : list ck_spinlock_hclh) : hclh_lock :=
  MkHclhLock glob_unowned local_unowned
    (foldr (λ c, <[local_unowned c := MkHclh 0 0 (Z.of_nat c) 0]>) (<[glob_unowned := MkHclh 0 0 0 0]> (map_seqZ 1 ns))
       (seq 0 clusters))
    own_node.

Definition hclh_spinlock (co : nat → nat) (clusters : nat) (ns : list ck_spinlock_hclh) : Spinlock hclh_lock := {|
  spin_init := hclh_first clusters ns;
  spin_lock S lock i :=
    thread ← ck_pr_load (lock →' hl_thread_loc i);
    ck_spinlock_hclh_lock (lock →' hl_nodes_loc) (lock →' hl_glob_loc) (lock →' hl_local_loc (co i)) thread;
  spin_trylock S := None;
  spin_locked S lock i := ck_spinlock_hclh_locked (lock →' hl_nodes_loc) (lock →' hl_glob_loc);
  spin_unlock S lock i := ck_spinlock_hclh_unlock (lock →' hl_nodes_loc) (lock →' hl_thread_loc i)
|}.

(** ** The invariant *)

(** What it speaks of: the lock, and the members of the nodes as functions. *)
Record hclh_members : Type := MkHclhMembers {
  hc_wait : Z → Z; hc_splice : Z → Z; hc_cluster_id : Z → Z; hc_previous : Z → Z }.
Definition hc_wait_loc : loc hclh_members (Z → Z) :=
  MkLoc hc_wait (λ v x, MkHclhMembers v (hc_splice x) (hc_cluster_id x) (hc_previous x)).
Definition hc_splice_loc : loc hclh_members (Z → Z) :=
  MkLoc hc_splice (λ v x, MkHclhMembers (hc_wait x) v (hc_cluster_id x) (hc_previous x)).
Definition hc_cluster_id_loc : loc hclh_members (Z → Z) :=
  MkLoc hc_cluster_id (λ v x, MkHclhMembers (hc_wait x) (hc_splice x) v (hc_previous x)).
Definition hc_previous_loc : loc hclh_members (Z → Z) :=
  MkLoc hc_previous (λ v x, MkHclhMembers (hc_wait x) (hc_splice x) (hc_cluster_id x) v).

#[export] Instance hclh_members_of : MembersOf hclh_members ck_spinlock_hclh :=
  λ v p, MkHclh (hc_wait v p) (hc_splice v p) (hc_cluster_id v p) (hc_previous v p).
#[export] Instance wait_view : MemberView wait hc_wait_loc.
Proof. solve_member_view hclh_members_of. Qed.
#[export] Instance splice_view : MemberView splice hc_splice_loc.
Proof. solve_member_view hclh_members_of. Qed.
#[export] Instance cluster_id_view : MemberView cluster_id hc_cluster_id_loc.
Proof. solve_member_view hclh_members_of. Qed.
#[export] Instance previous_view : MemberView previous hc_previous_loc.
Proof. solve_member_view hclh_members_of. Qed.

Record hclh_view : Type := MkHclhView {
  hv_glob : Z; hv_local : nat → Z; hv_nodes : hclh_members; hv_threads : nat → Z }.

(** What a thread does: nothing; it has set its flag, then the other; has read the end of its queue; has set its cluster,
    then the node before, for the time being; is in the queue of its cluster; has noted the node before; has seen that it is
    not the first node; has seen its flag down.  It is the first of its queue, having seen that the node before is the last of a
    part or the first node ([b]); has read the end [lt] of the queue; has put the queue up to [lt] behind [w]; has marked
    [lt]; has the lock; has left it. *)
Inductive hc_phase : Type :=
  | HOut | HArm | HClean | HSeen (v : Z) | HEnrolled | HReady
  | HJoin | HLocal | HChecked | HFree
  | HFirst (b : bool) | HLoaded (lt : Z) | HGlob (lt w : Z) | HWait (w : Z) | HHold | HFreed.

(** Its node, and the one before in the queue of the cluster. *)
Record hc_ghost : Type := MkHcGhost { hg_phase : hc_phase; hg_node : Z; hg_pred : Z }.

Definition hc_active (h : hc_phase) : bool :=
  match h with HJoin | HLocal | HChecked | HFree | HFirst _ | HLoaded _ | HGlob _ _ | HWait _ | HHold => true | _ => false end.
Definition hc_ready (h : hc_phase) : bool := hc_active h || match h with HReady => true | _ => false end.
Definition hc_enrolled (h : hc_phase) : bool := hc_ready h || match h with HEnrolled => true | _ => false end.
Definition hc_clean (h : hc_phase) : bool := match h with HClean | HSeen _ | HEnrolled | HReady => true | _ => false end.
Definition hc_armed (h : hc_phase) : bool := hc_active h || hc_clean h || match h with HArm => true | _ => false end.
Definition hc_noted (h : hc_phase) : bool := hc_active h && match h with HJoin => false | _ => true end.
(** It waits on the node before in the queue of the cluster. *)
Definition hc_local (h : hc_phase) : bool := match h with HJoin | HLocal | HChecked | HFree => true | _ => false end.

(** The node that a thread in the queue of all clusters waits on. *)
Definition hc_waits_on (g : hc_ghost) : option Z :=
  match hg_phase g with
  | HGlob _ w | HWait w => Some w
  | HJoin | HLocal | HChecked | HFree => Some (hg_pred g)
  | _ => None
  end.

(** The cluster that a node belongs to, when there are [max] threads. *)
Definition home (co : nat → nat) (max : nat) (p : Z) : option nat :=
  if p =? 0 then None else if p =? glob_unowned then None
  else if p <? 0 then Some (Z.to_nat (- p - 2))
  else if p <=? Z.of_nat max then Some (co (Z.to_nat (p - 1))) else None.

(** The node of a thread, or one that a queue starts with. *)
Definition is_node (co : nat → nat) (max : nat) (p : Z) : Prop :=
  p = glob_unowned ∨ ∃ i, (i < max)%nat ∧ (p = own_node i ∨ p = local_unowned (co i)).

Lemma is_node_pos co max p : is_node co max p → p ≠ 0.
Proof. unfold is_node, glob_unowned, own_node, local_unowned. intros [->|(i & _ & [->| ->])]; lia. Qed.

Lemma home_is_node co max p i : (i < max)%nat → home co max p = Some (co i) → is_node co max p.
Proof.
  intros Hi. unfold home, is_node, own_node, local_unowned. destruct (Z.eqb_spec p 0); [done|].
  destruct (Z.eqb_spec p glob_unowned) as [->|Hg]; [done|]. unfold glob_unowned in Hg. destruct (Z.ltb_spec p 0).
  - intros E. apply (inj Some) in E. right. exists i. split; [done|]. right. rewrite <- E, Z2Nat.id; lia.
  - destruct (Z.leb_spec p (Z.of_nat max)); [|done]. intros _. right. exists (Z.to_nat (p - 1)). split; [lia|]. left. lia.
Qed.

Section inv.
Context (co : nat → nat) (max : nat).
Abbreviation home := (home co max).
Abbreviation is_node := (is_node co max).

Definition node_of (gs : list hc_ghost) (i : nat) : Z := default 0 (hg_node <$> gs !! i).

(** The threads of a cluster in the queue of all; all in its own queue; the last node of a queue that starts after the
    node [a]; and what the threads of such a queue have to do with the nodes before theirs. *)
Definition in_glob (O : list nat) (c : nat) : list nat := filter (λ i, co i = c) O.
Definition in_local (O : list nat) (P : nat → list nat) (c : nat) : list nat := in_glob O c ++ P c.
Fixpoint end_of (a : Z) (gs : list hc_ghost) (l : list nat) : Z :=
  match l with [] => a | i :: l => end_of (node_of gs i) gs l end.

Fixpoint linked (gs : list hc_ghost) (f : hc_ghost → option Z) (a : Z) (l : list nat) : Prop :=
  match l with
  | [] => True
  | i :: l => (∀ g w, gs !! i = Some g → f g = Some w → w = a) ∧ linked gs f (node_of gs i) l
  end.
Definition hc_before (g : hc_ghost) : option Z := Some (hg_pred g).

(** What the phase of the thread [i] says. *)
Definition phase_ok (m : hclh_members) (gs : list hc_ghost) (O : list nat) (P : nat → list nat) (X : Z) (i : nat) (g : hc_ghost) : Prop :=
  match hg_phase g with
  | HSeen v => home v = Some (co i) ∧ hc_cluster_id m v = Z.of_nat (co i)
  | HChecked => hc_previous m (hg_pred g) ≠ 0
  | HFree => hc_previous m (hg_pred g) ≠ 0 ∧ hc_wait m (hg_pred g) = 0
  | HFirst b => (∃ r, P (co i) = i :: r) ∧
      if b then hc_splice m (hg_pred g) = 1 else hc_previous m (hg_pred g) = 0
  | HLoaded lt => (∃ r, P (co i) = i :: r) ∧ (∃ k, k ∈ P (co i) ∧ node_of gs k = lt) ∧
      (hc_splice m (hg_pred g) = 1 ∨ hc_previous m (hg_pred g) = 0)
  | HGlob lt w => i ∈ O ∧ lt = X ∧ hc_splice m lt = 0
  | HWait w => i ∈ O
  | HHold => ∃ r, O = i :: r
  | _ => True
  end.

Record hc_ok (x : hclh_view) (gs : list hc_ghost) (O : list nat) (P : nat → list nat) (B : nat → Z) (g0 : Z) : Prop := {
  ho_glob_nodup : NoDup O;
  ho_local_nodup c : NoDup (P c);
  ho_local_home c i : i ∈ P c → co i = c;
  ho_disjoint c i : i ∈ P c → i ∉ O;
  ho_in c i : i ∈ O ∨ i ∈ P c → ∃ g, gs !! i = Some g ∧ hc_active (hg_phase g) = true;
  ho_active i g : gs !! i = Some g → hc_active (hg_phase g) = true → i ∈ O ∨ i ∈ P (co i);
  ho_home i g : gs !! i = Some g → home (hg_node g) = Some (co i);
  ho_inj i j g g' : gs !! i = Some g → gs !! j = Some g' → hg_node g = hg_node g' → i = j;
  ho_base_home c : home (B c) = Some c;
  ho_base i g : gs !! i = Some g → hg_node g ≠ B (co i);
  ho_start : is_node g0;
  ho_base_wait c : hc_wait (hv_nodes x) (B c) = 0;
  ho_unowned : hc_wait (hv_nodes x) glob_unowned = 0;
  ho_base_cluster c : hc_cluster_id (hv_nodes x) (B c) = Z.of_nat c;
  ho_armed i g : gs !! i = Some g → hc_armed (hg_phase g) = true → hc_wait (hv_nodes x) (hg_node g) = 1;
  ho_clean i g : gs !! i = Some g → hc_clean (hg_phase g) = true ∨ i ∈ P (co i) → hc_splice (hv_nodes x) (hg_node g) = 0;
  ho_enrolled i g : gs !! i = Some g → hc_enrolled (hg_phase g) = true → hc_cluster_id (hv_nodes x) (hg_node g) = Z.of_nat (co i);
  ho_ready i g : gs !! i = Some g → hc_ready (hg_phase g) = true → hc_previous (hv_nodes x) (hg_node g) ≠ 0;
  ho_noted i g : gs !! i = Some g → hc_noted (hg_phase g) = true → hc_previous (hv_nodes x) (hg_node g) = hg_pred g;
  ho_pred c : linked gs hc_before (B c) (in_local O P c);
  ho_waits : linked gs hc_waits_on g0 O;
  ho_local_end c : hv_local x c = end_of (B c) gs (in_local O P c);
  ho_glob_end : hv_glob x = end_of g0 gs O;
  ho_part i g : i ∈ O → gs !! i = Some g → hc_local (hg_phase g) = true →
    hc_splice (hv_nodes x) (hg_pred g) = 0 ∧ hc_previous (hv_nodes x) (hg_pred g) ≠ 0;
  ho_last c : let X := end_of (B c) gs (in_glob O c) in
    hc_splice (hv_nodes x) X = 1 ∨ hc_previous (hv_nodes x) X = 0 ∨
    ∃ j g w, gs !! j = Some g ∧ co j = c ∧ hg_phase g = HGlob X w;
  ho_one i j g g' lt lt' w w' : gs !! i = Some g → gs !! j = Some g' → co i = co j →
    hg_phase g = HGlob lt w → hg_phase g' = HGlob lt' w' → i = j;
  ho_phase i g : gs !! i = Some g → phase_ok (hv_nodes x) gs O P (end_of (B (co i)) gs (in_glob O (co i))) i g;
  ho_thread i g : gs !! i = Some g → hg_phase g ≠ HFreed → hv_threads x i = hg_node g;
  ho_bound i g : gs !! i = Some g → (i < max)%nat
}.

Definition hc_inv (x : hclh_view) (gs : list hc_ghost) : Prop := ∃ O P B g0, hc_ok x gs O P B g0.
(** *** Queues *)

Lemma node_of_eq gs i g : gs !! i = Some g → node_of gs i = hg_node g.
Proof. intros H. unfold node_of. by rewrite H. Qed.

Lemma end_of_app a gs l r : end_of a gs (l ++ r) = end_of (end_of a gs l) gs r.
Proof. revert a. induction l as [|i l IH]; intros a; [done|]. apply IH. Qed.

Lemma end_of_cases a gs l : l = [] ∧ end_of a gs l = a ∨ ∃ l' k, l = l' ++ [k] ∧ end_of a gs l = node_of gs k.
Proof. destruct l as [|k l _] using rev_ind; [by left|]. right. exists l, k. by rewrite end_of_app. Qed.

Lemma end_of_ext a gs gs' l : (∀ i, i ∈ l → node_of gs' i = node_of gs i) → end_of a gs' l = end_of a gs l.
Proof.
  revert a. induction l as [|i l IH]; intros a H; [done|]. cbn. rewrite H by (by left). apply IH. intros j Hj. apply H. by right.
Qed.

Lemma linked_app gs f a l r : linked gs f a (l ++ r) ↔ linked gs f a l ∧ linked gs f (end_of a gs l) r.
Proof. revert a. induction l as [|i l IH]; intros a; cbn; [by intuition|]. rewrite IH. by intuition. Qed.

Lemma linked_at gs f a l i r g w :
  linked gs f a (l ++ i :: r) → gs !! i = Some g → f g = Some w → w = end_of a gs l.
Proof. intros [_ [H _]]%linked_app Hi Hw. by eapply H. Qed.

(** What the threads of the queue are is all that matters. *)
Lemma linked_ext gs gs' f f' a l :
  (∀ i g' w, i ∈ l → gs' !! i = Some g' → f' g' = Some w → ∃ g, gs !! i = Some g ∧ f g = Some w) →
  (∀ i, i ∈ l → node_of gs' i = node_of gs i) →
  linked gs f a l → linked gs' f' a l.
Proof.
  revert a. induction l as [|i l IH]; intros a Hf Hn; [done|]. intros [H1 H2]. split.
  - intros g' w Hi Hw. destruct (Hf i g' w) as (g & Hg & Hw'); [by left|done|done|]. by eapply H1.
  - rewrite Hn by (by left). apply IH; [|intros j Hj; apply Hn; by right|done].
    intros j g' w Hj. apply (Hf j g' w). by right.
Qed.
Lemma bound_insert (gs : list hc_ghost) i g g' :
  gs !! i = Some g → (∀ j y, gs !! j = Some y → (j < max)%nat) → ∀ j y, <[i := g']> gs !! j = Some y → (j < max)%nat.
Proof. intros Hi H j y [[-> _]|[_ Hj]]%insert_case; [by apply (H _ _ Hi)|by apply (H _ _ Hj)]. Qed.

(** *** Nodes *)

Section facts.
Context (x : hclh_view) (gs : list hc_ghost) (O : list nat) (P : nat → list nat) (B : nat → Z) (g0 : Z).
Context (H : hc_ok x gs O P B g0).

Lemma hc_node_inj i j gi gj : gs !! i = Some gi → gs !! j = Some gj → i ≠ j → hg_node gi ≠ hg_node gj.
Proof using H. intros Hi Hj Hne E. by apply Hne, (ho_inj _ _ _ _ _ _ H i j gi gj). Qed.

Lemma hc_node_base i g c : gs !! i = Some g → hg_node g ≠ B c.
Proof using H.
  intros Hi E. pose proof (ho_home _ _ _ _ _ _ H i g Hi) as H1. rewrite E, (ho_base_home _ _ _ _ _ _ H c) in H1.
  injection H1 as ->. by apply (ho_base _ _ _ _ _ _ H i g).
Qed.

Lemma hc_base_inj c c' : B c = B c' → c = c'.
Proof using H.
  intros E. pose proof (ho_base_home _ _ _ _ _ _ H c) as H1. rewrite E, (ho_base_home _ _ _ _ _ _ H c') in H1. congruence.
Qed.

Lemma hc_home_unowned c : home glob_unowned ≠ Some c.
Proof. done. Qed.

Lemma hc_node_unowned i g : gs !! i = Some g → hg_node g ≠ glob_unowned.
Proof using H. intros Hi E. pose proof (ho_home _ _ _ _ _ _ H i g Hi) as H1. by rewrite E in H1. Qed.

(** Where a thread of the queue of all clusters is in that of its own. *)
Lemma in_glob_elem c i : i ∈ in_glob O c ↔ co i = c ∧ i ∈ O.
Proof. unfold in_glob. by rewrite list_elem_of_filter. Qed.

Lemma in_local_elem c i : i ∈ in_local O P c → co i = c ∧ (i ∈ O ∨ i ∈ P c).
Proof using H.
  intros [[? ?]%in_glob_elem|Hi]%elem_of_app; [by split; [|left]|]. split; [by apply (ho_local_home _ _ _ _ _ _ H)|by right].
Qed.

Lemma in_local_active c i : i ∈ in_local O P c → ∃ g, gs !! i = Some g ∧ hc_active (hg_phase g) = true ∧ co i = c.
Proof using H.
  intros [E Hi]%in_local_elem. destruct (ho_in _ _ _ _ _ _ H c i Hi) as (g & ? & ?). by exists g.
Qed.

Lemma in_local_nodup c : NoDup (in_local O P c).
Proof using H.
  apply NoDup_app. split; [apply NoDup_filter, (ho_glob_nodup _ _ _ _ _ _ H)|]. split; [|apply (ho_local_nodup _ _ _ _ _ _ H)].
  intros i [_ Hi]%in_glob_elem Hp. by apply (ho_disjoint _ _ _ _ _ _ H c i).
Qed.

Lemma in_local_of i g : gs !! i = Some g → hc_active (hg_phase g) = true → i ∈ in_local O P (co i).
Proof using H.
  intros Hi Ha. apply elem_of_app. destruct (ho_active _ _ _ _ _ _ H i g Hi Ha) as [?|?]; [left|by right].
  by apply in_glob_elem.
Qed.

(** The end of a part of a queue: the node left last, or that of a thread in it. *)
Lemma hc_end_cases c l : (∀ i, i ∈ l → i ∈ in_local O P c) →
  l = [] ∧ end_of (B c) gs l = B c ∨
  ∃ l' k g, l = l' ++ [k] ∧ gs !! k = Some g ∧ hc_active (hg_phase g) = true ∧ co k = c ∧ end_of (B c) gs l = hg_node g.
Proof using H.
  intros Hl. destruct (end_of_cases (B c) gs l) as [?|(l' & k & -> & E)]; [by left|right].
  destruct (in_local_active c k) as (g & Hg & Ha & Hc); [apply Hl; set_solver|].
  exists l', k, g. by rewrite E, (node_of_eq _ _ _ Hg).
Qed.

(** The node before that of a thread in a queue. *)
Lemma hc_pred_split i g :
  gs !! i = Some g → hc_active (hg_phase g) = true →
  ∃ l r, in_local O P (co i) = l ++ i :: r ∧ hg_pred g = end_of (B (co i)) gs l.
Proof using H.
  intros Hi Ha. destruct (list_elem_of_split _ _ (in_local_of i g Hi Ha)) as (l & r & E). exists l, r. split; [done|].
  pose proof (ho_pred _ _ _ _ _ _ H (co i)) as Hp. rewrite E in Hp. by eapply linked_at.
Qed.

Lemma hc_pred_cases i g :
  gs !! i = Some g → hc_active (hg_phase g) = true →
  hg_pred g = B (co i) ∨ ∃ k gk, gs !! k = Some gk ∧ hc_active (hg_phase gk) = true ∧ co k = co i ∧ hg_pred g = hg_node gk.
Proof using H.
  intros Hi Ha. destruct (hc_pred_split i g Hi Ha) as (l & r & E & ->).
  destruct (hc_end_cases (co i) l) as [[_ ->]|(l' & k & gk & _ & Hk & Hak & Hc & ->)]; [|by left|right; by exists k, gk].
  intros j Hj. rewrite E. set_solver.
Qed.

Lemma hc_last_cases c :
  in_glob O c = [] ∧ end_of (B c) gs (in_glob O c) = B c ∨
  ∃ k gk, k ∈ O ∧ gs !! k = Some gk ∧ hc_active (hg_phase gk) = true ∧ co k = c ∧ end_of (B c) gs (in_glob O c) = hg_node gk.
Proof using H.
  destruct (hc_end_cases c (in_glob O c)) as [?|(l' & k & gk & E & Hk & Hak & Hc & ->)]; [|by left|right].
  - intros i Hi. apply elem_of_app. by left.
  - exists k, gk. split; [|done]. apply (in_glob_elem c). rewrite E. set_solver.
Qed.
End facts.

(** *** A thread goes on, in its place *)

(** What a step of the thread with the node [n] leaves of a node [q] that others look at. *)
Definition keeps (m m' : hclh_members) (q : Z) : Prop :=
  hc_wait m' q = hc_wait m q ∧ hc_splice m' q = hc_splice m q ∧ hc_cluster_id m' q = hc_cluster_id m q ∧
  (hc_previous m q ≠ 0 → hc_previous m' q ≠ 0) ∧ (hc_previous m q = 0 → hc_previous m' q = 0).

Lemma node_of_same gs i g g' k : gs !! i = Some g → hg_node g' = hg_node g → node_of (<[i := g']> gs) k = node_of gs k.
Proof.
  intros Hi E. unfold node_of. destruct (decide (k = i)) as [->|Hne]; [|by rewrite list_lookup_insert_ne].
  rewrite list_lookup_insert_eq by (by eapply lookup_lt_Some). rewrite Hi. cbn. by rewrite E.
Qed.

Lemma end_of_same gs i g g' a l : gs !! i = Some g → hg_node g' = hg_node g → end_of a (<[i := g']> gs) l = end_of a gs l.
Proof. intros Hi E. apply end_of_ext. intros k _. by apply (node_of_same gs i g). Qed.

(** The phase of a thread says the same of a memory that keeps what it looks at. *)
Lemma phase_keeps m m' gs gs' O P X i g :
  (∀ k, node_of gs' k = node_of gs k) →
  (hc_active (hg_phase g) = true → keeps m m' (hg_pred g)) → keeps m m' X →
  (∀ v, home v = Some (co i) → hc_cluster_id m' v = hc_cluster_id m v ∨ hc_cluster_id m' v = Z.of_nat (co i)) →
  phase_ok m gs O P X i g → phase_ok m' gs' O P X i g.
Proof.
  intros Hn Hp HX Hc. unfold phase_ok. destruct (hg_phase g) as [| | |v| | | | | | |b|lt|lt w|w| |]; try done; cbn in Hp.
  - intros [Hv E]. split; [done|]. destruct (Hc v Hv); congruence.
  - destruct (Hp eq_refl) as (_ & _ & _ & H1 & _). exact H1.
  - destruct (Hp eq_refl) as (H0 & _ & _ & H1 & _). intros [? ?]. split; [by apply H1|congruence].
  - destruct (Hp eq_refl) as (_ & H0 & _ & _ & H1). intros [? ?]. split; [done|]. destruct b; [congruence|by apply H1].
  - destruct (Hp eq_refl) as (_ & H0 & _ & _ & H1). intros (? & (k & ? & ?) & Hs). split; [done|].
    split; [exists k; by rewrite Hn|]. destruct Hs; [left; congruence|right; by apply H1].
  - destruct HX as (_ & H0 & _). intros (? & -> & ?). split; [done|]. split; [done|congruence].
Qed.

Lemma hc_go x x' gs O P B g0 i g h' :
  hc_ok x gs O P B g0 → gs !! i = Some g →
  let n := hg_node g in let g' := MkHcGhost h' n (hg_pred g) in
  hc_active h' = hc_active (hg_phase g) →
  (∀ lt w, hg_phase g ≠ HGlob lt w) → (∀ lt w, h' ≠ HGlob lt w) →
  (hc_local h' = true → hc_local (hg_phase g) = true) →
  (∀ w, hc_waits_on g' = Some w → hc_waits_on g = Some w) →
  hv_glob x' = hv_glob x → hv_local x' = hv_local x →
  (∀ j, j ≠ i → hv_threads x' j = hv_threads x j) → (h' ≠ HFreed → hv_threads x' i = n) →
  (∀ q, q ≠ n → keeps (hv_nodes x) (hv_nodes x') q ∧ hc_previous (hv_nodes x') q = hc_previous (hv_nodes x) q) →
  (hc_cluster_id (hv_nodes x') n = hc_cluster_id (hv_nodes x) n ∨ hc_cluster_id (hv_nodes x') n = Z.of_nat (co i)) →
  (hc_active h' = true → keeps (hv_nodes x) (hv_nodes x') n) →
  (hc_armed h' = true → hc_wait (hv_nodes x') n = 1) →
  (hc_clean h' = true → hc_splice (hv_nodes x') n = 0) →
  (hc_enrolled h' = true → hc_cluster_id (hv_nodes x') n = Z.of_nat (co i)) →
  (hc_ready h' = true → hc_previous (hv_nodes x') n ≠ 0) →
  (hc_noted h' = true → hc_previous (hv_nodes x') n = hg_pred g) →
  phase_ok (hv_nodes x') gs O P (end_of (B (co i)) gs (in_glob O (co i))) i g' →
  hc_ok x' (<[i := g']> gs) O P B g0.
Proof.
  intros H Hi n g' Ha Hg Hg' Hl Hw Eg El Et Ei Hk Hcl Hkn F1 F2 F3 F4 F5 Hph.
  pose proof (lookup_lt_Some _ _ _ Hi) as Hlt.
  assert (∀ k, node_of (<[i := g']> gs) k = node_of gs k) as Hn by (intros k; by eapply node_of_same).
  assert (∀ a l, end_of a (<[i := g']> gs) l = end_of a gs l) as He by (intros a l; by eapply end_of_same).
  assert (∀ c, B c ≠ n) as HB by (intros c E; by apply (hc_node_base _ _ _ _ _ _ H i g c Hi)).
  assert (∀ j gj, gs !! j = Some gj → hc_active (hg_phase gj) = true → keeps (hv_nodes x) (hv_nodes x') (hg_node gj)) as Hka.
  { intros j gj Hj Haj. destruct (decide (j = i)) as [->|Hne].
    - rewrite Hi in Hj. injection Hj as <-. apply Hkn. congruence.
    - apply Hk. by apply (hc_node_inj _ _ _ _ _ _ H j i). }
  assert (∀ j gj, gs !! j = Some gj → hc_active (hg_phase gj) = true → keeps (hv_nodes x) (hv_nodes x') (hg_pred gj)) as Hkp.
  { intros j gj Hj Haj. destruct (hc_pred_cases _ _ _ _ _ _ H j gj Hj Haj) as [->|(k & gk & Hgk & Hak & _ & ->)];
      [by apply Hk|by apply (Hka k)]. }
  assert (∀ c, keeps (hv_nodes x) (hv_nodes x') (end_of (B c) gs (in_glob O c))) as HkX.
  { intros c. destruct (hc_last_cases _ _ _ _ _ _ H c) as [[_ ->]|(k & gk & _ & Hgk & Hak & _ & ->)];
      [by apply Hk|by apply (Hka k)]. }
  assert (∀ j gj, <[i := g']> gs !! j = Some gj → ∃ gj0, gs !! j = Some gj0 ∧ hg_node gj = hg_node gj0 ∧
    hc_active (hg_phase gj) = hc_active (hg_phase gj0) ∧ hg_pred gj = hg_pred gj0 ∧
    (hc_local (hg_phase gj) = true → hc_local (hg_phase gj0) = true)) as Hgs.
  { intros j gj [[-> ->]|[Hne Hj]]%insert_case; [by exists g|by exists gj]. }
  split.
  - apply H.
  - apply H.
  - apply H.
  - apply H.
  - intros c j Hj. destruct (ho_in _ _ _ _ _ _ H c j Hj) as (gj & Hgj & Haj). destruct (decide (j = i)) as [->|Hne].
    + exists g'. rewrite list_lookup_insert_eq by done. split; [done|]. cbn. rewrite Hi in Hgj. injection Hgj as <-. congruence.
    + exists gj. by rewrite list_lookup_insert_ne.
  - intros j gj Hj Haj. destruct (Hgs j gj Hj) as (g1 & H1 & _ & E & _). apply (ho_active _ _ _ _ _ _ H j g1 H1). congruence.
  - intros j gj Hj. destruct (Hgs j gj Hj) as (g1 & H1 & -> & _). by apply (ho_home _ _ _ _ _ _ H).
  - intros j k gj gk Hj Hgk. destruct (Hgs j gj Hj) as (g1 & H1 & -> & _), (Hgs k gk Hgk) as (g2 & H2 & -> & _).
    by apply (ho_inj _ _ _ _ _ _ H).
  - apply H.
  - intros j gj Hj. destruct (Hgs j gj Hj) as (g1 & H1 & -> & _). by apply (ho_base _ _ _ _ _ _ H).
  - apply H.
  - intros c. destruct (Hk (B c) (HB c)) as [(-> & _) _]. apply H.
  - destruct (Hk glob_unowned) as [(-> & _) _]; [|apply H]. intros E. by apply (hc_node_unowned _ _ _ _ _ _ H i g Hi).
  - intros c. destruct (Hk (B c) (HB c)) as [(_ & _ & -> & _) _]. apply H.
  - intros j gj [[-> ->]|[Hne Hj]]%insert_case Hp; [by apply F1|].
    destruct (Hk (hg_node gj)) as [(-> & _) _]; [by apply (hc_node_inj _ _ _ _ _ _ H j i)|by apply (ho_armed _ _ _ _ _ _ H j)].
  - intros j gj [[-> ->]|[Hne Hj]]%insert_case Hp.
    + destruct Hp as [?|Hp]; [by apply F2|]. cbn. destruct (ho_in _ _ _ _ _ _ H _ i (or_intror Hp)) as (g1 & H1 & Ha1).
      rewrite Hi in H1. injection H1 as <-. destruct Hkn as (_ & -> & _); [congruence|].
      apply (ho_clean _ _ _ _ _ _ H i g Hi). by right.
    + destruct (Hk (hg_node gj)) as [(_ & -> & _) _]; [by apply (hc_node_inj _ _ _ _ _ _ H j i)|by apply (ho_clean _ _ _ _ _ _ H j)].
  - intros j gj [[-> ->]|[Hne Hj]]%insert_case Hp; [by apply F3|].
    destruct (Hk (hg_node gj)) as [(_ & _ & -> & _) _]; [by apply (hc_node_inj _ _ _ _ _ _ H j i)|by apply (ho_enrolled _ _ _ _ _ _ H j)].
  - intros j gj [[-> ->]|[Hne Hj]]%insert_case Hp; [by apply F4|].
    destruct (Hk (hg_node gj)) as [_ ->]; [by apply (hc_node_inj _ _ _ _ _ _ H j i)|by apply (ho_ready _ _ _ _ _ _ H j)].
  - intros j gj [[-> ->]|[Hne Hj]]%insert_case Hp; [by apply F5|].
    destruct (Hk (hg_node gj)) as [_ ->]; [by apply (hc_node_inj _ _ _ _ _ _ H j i)|by apply (ho_noted _ _ _ _ _ _ H j)].
  - intros c. eapply linked_ext; [|by intros j _; apply Hn|apply (ho_pred _ _ _ _ _ _ H c)].
    intros j gj w _ Hj [= <-]. destruct (Hgs j gj Hj) as (g1 & H1 & _ & _ & E & _). exists g1. split; [done|].
    unfold hc_before. by rewrite E.
  - eapply linked_ext; [|by intros j _; apply Hn|apply (ho_waits _ _ _ _ _ _ H)].
    intros j gj w _ [[-> ->]|[Hne Hj]]%insert_case Hw'; [exists g; split; [done|by apply Hw]|by exists gj].
  - intros c. rewrite El, He. apply H.
  - rewrite Eg, He. apply H.
  - intros j gj HO Hj Hloc. destruct (Hgs j gj Hj) as (g1 & H1 & _ & E & -> & Hl1). specialize (Hl1 Hloc).
    destruct (ho_part _ _ _ _ _ _ H j g1 HO H1 Hl1) as [Hs Hp].
    destruct (Hkp j g1 H1) as (_ & -> & _ & H2 & _); [by destruct (hg_phase g1)|]. split; [done|by apply H2].
  - intros c. cbv zeta. rewrite He. destruct (HkX c) as (_ & -> & _ & _ & H2).
    destruct (ho_last _ _ _ _ _ _ H c) as [?|[Hp|(j & gj & w & Hj & Hc & Ej)]]; [by left|right; left; by apply H2|].
    right; right. exists j, gj, w. rewrite list_lookup_insert_ne; [done|]. intros <-. rewrite Hi in Hj. injection Hj as <-.
    by apply (Hg _ _ Ej).
  - intros j k gj gk lt lt' w w' [[-> ->]|[Hne Hj]]%insert_case [[-> ->]|[Hne' Hk']]%insert_case Hc Ej Ek; [done| | |].
    + by destruct (Hg' _ _ Ej).
    + by destruct (Hg' _ _ Ek).
    + by apply (ho_one _ _ _ _ _ _ H j k gj gk lt lt' w w').
  - intros j gj Hj. rewrite He. destruct (decide (j = i)) as [->|Hne].
    + rewrite list_lookup_insert_eq in Hj by done. injection Hj as <-. unfold phase_ok in *. cbn in *.
      destruct h'; try done. destruct Hph as (? & (k & ? & ?) & ?). split; [done|]. split; [|done]. exists k. by rewrite Hn.
    + rewrite list_lookup_insert_ne in Hj by done. eapply phase_keeps; [exact Hn|intros Haj; by apply (Hkp j gj)|apply HkX| |by apply (ho_phase _ _ _ _ _ _ H)].
      intros v Hv. destruct (decide (v = n)) as [->|Hnv]; [|left; by apply Hk].
      destruct Hcl as [?|E]; [by left|right]. pose proof (ho_home _ _ _ _ _ _ H i g Hi) as Hh. fold n in Hh. congruence.
  - intros j gj [[-> ->]|[Hne Hj]]%insert_case Hp; [by apply Ei|]. rewrite Et by done. by apply (ho_thread _ _ _ _ _ _ H).
  - by apply (bound_insert gs i _ _ Hi), (ho_bound _ _ _ _ _ _ H).
Qed.

(** *** The end of a part is marked *)

(** A thread in the queue of all clusters does not wait on the last node of its cluster there. *)
Lemma hc_pred_not_last x gs O P B g0 j g c :
  hc_ok x gs O P B g0 → j ∈ O → gs !! j = Some g → hg_pred g ≠ end_of (B c) gs (in_glob O c) ∨ in_glob O c = [].
Proof.
  intros H HO Hj. destruct (ho_in _ _ _ _ _ _ H (co j) j (or_introl HO)) as (g1 & H1 & Ha).
  rewrite Hj in H1. injection H1 as <-.
  destruct (hc_last_cases _ _ _ _ _ _ H c) as [[E _]|(k & gk & HkO & Hgk & Hak & Hck & E)]; [by right|left]. rewrite E.
  assert (j ∈ in_glob O (co j)) as (l & r & El)%list_elem_of_split by (by apply in_glob_elem).
  pose proof (ho_pred _ _ _ _ _ _ H (co j)) as Hp. unfold in_local in Hp. rewrite El, <- app_assoc in Hp.
  rewrite (linked_at _ _ _ _ _ _ g (hg_pred g) Hp Hj eq_refl).
  destruct (hc_end_cases _ _ _ _ _ _ H (co j) l) as [[_ ->]|(l' & k' & gk' & -> & Hk' & _ & Hc' & ->)].
  { intros i Hi. apply elem_of_app. left. rewrite El. set_solver. }
  { intros E'. by apply (hc_node_base _ _ _ _ _ _ H k gk (co j) Hgk). }
  intros E'. pose proof (ho_inj _ _ _ _ _ _ H k' k gk' gk Hk' Hgk E') as <-. rewrite Hc' in Hck. subst c.
  rewrite El in E. pose proof (NoDup_filter (λ i, co i = co j) O (ho_glob_nodup _ _ _ _ _ _ H)) as Hnd.
  change (filter _ O) with (in_glob O (co j)) in Hnd. rewrite El in Hnd.
  rewrite end_of_app in E. cbn in E. destruct (end_of_cases (node_of gs j) gs r) as [[-> E2]|(r' & k2 & -> & E2)]; rewrite E2 in E.
  - rewrite (node_of_eq _ _ _ Hj) in E. pose proof (ho_inj _ _ _ _ _ _ H j k' g gk Hj Hgk E) as ->.
    apply NoDup_app in Hnd as (_ & Hd & _). apply (Hd k'); set_solver.
  - assert (k2 ∈ in_local O P (co j)) as Hk2 by (apply elem_of_app; left; rewrite El; set_solver).
    destruct (in_local_active _ _ _ _ _ _ H (co j) k2 Hk2) as (gk2 & Hgk2 & _).
    rewrite (node_of_eq _ _ _ Hgk2) in E. pose proof (ho_inj _ _ _ _ _ _ H k2 k' gk2 gk Hgk2 Hgk E) as ->.
    apply NoDup_app in Hnd as (_ & Hd & _). apply (Hd k'); set_solver.
Qed.

Lemma hc_mark x gs O P B g0 i n p lt w :
  hc_ok x gs O P B g0 → gs !! i = Some (MkHcGhost (HGlob lt w) n p) →
  let m := hv_nodes x in
  hc_ok (MkHclhView (hv_glob x) (hv_local x)
      (MkHclhMembers (hc_wait m) (<[lt := 1]> (hc_splice m)) (hc_cluster_id m) (hc_previous m)) (hv_threads x))
    (<[i := MkHcGhost (HWait w) n p]> gs) O P B g0.
Proof.
  intros H Hi m. pose proof (lookup_lt_Some _ _ _ Hi) as Hlt.
  pose proof (ho_phase _ _ _ _ _ _ H i _ Hi) as (HiO & Elt & Hs0). cbn in Hs0.
  set (g' := MkHcGhost (HWait w) n p).
  assert (∀ k, node_of (<[i := g']> gs) k = node_of gs k) as Hn by (intros k; by eapply node_of_same).
  assert (∀ a l, end_of a (<[i := g']> gs) l = end_of a gs l) as He by (intros a l; by eapply end_of_same).
  assert (∃ k gk, k ∈ O ∧ gs !! k = Some gk ∧ hc_active (hg_phase gk) = true ∧ co k = co i ∧ lt = hg_node gk)
    as (k & gk & HkO & Hgk & Hak & Hck & Ek).
  { destruct (hc_last_cases _ _ _ _ _ _ H (co i)) as [[E _]|(k & gk & ? & ? & ? & ? & E)]; [|exists k, gk; by rewrite Elt, E].
    assert (i ∈ in_glob O (co i)) as Hin by (by apply in_glob_elem). rewrite E in Hin. by apply elem_of_nil in Hin. }
  assert (∀ j gj, <[i := g']> gs !! j = Some gj → ∃ gj0, gs !! j = Some gj0 ∧ hg_node gj = hg_node gj0 ∧ hg_pred gj = hg_pred gj0 ∧
    hc_active (hg_phase gj) = hc_active (hg_phase gj0) ∧ hc_armed (hg_phase gj) = hc_armed (hg_phase gj0) ∧
    hc_clean (hg_phase gj) = hc_clean (hg_phase gj0) ∧ hc_enrolled (hg_phase gj) = hc_enrolled (hg_phase gj0) ∧
    hc_ready (hg_phase gj) = hc_ready (hg_phase gj0) ∧ hc_noted (hg_phase gj) = hc_noted (hg_phase gj0) ∧
    hc_local (hg_phase gj) = hc_local (hg_phase gj0) ∧ hc_waits_on gj = hc_waits_on gj0) as Hgs.
  { intros j gj [[-> ->]|[Hne Hj]]%insert_case; [by exists (MkHcGhost (HGlob lt w) n p)|by exists gj]. }
  assert (∀ q, hc_splice m q = 1 → <[lt := 1]> (hc_splice m) q = 1) as H1.
  { intros q Hq. destruct (decide (q = lt)) as [->|]; [by rewrite fn_lookup_insert|by rewrite fn_lookup_insert_ne]. }
  split; cbn [hv_nodes hv_glob hv_local hv_threads hc_wait hc_splice hc_cluster_id hc_previous]; try apply H.
  - intros c j Hj. destruct (ho_in _ _ _ _ _ _ H c j Hj) as (gj & Hgj & Haj). destruct (decide (j = i)) as [->|Hne].
    + exists g'. by rewrite list_lookup_insert_eq.
    + exists gj. by rewrite list_lookup_insert_ne.
  - intros j gj Hj. destruct (Hgs j gj Hj) as (g1 & Hg1 & _ & _ & -> & _). by apply (ho_active _ _ _ _ _ _ H j g1).
  - intros j gj Hj. destruct (Hgs j gj Hj) as (g1 & Hg1 & -> & _). by apply (ho_home _ _ _ _ _ _ H).
  - intros j j' gj gj' Hj Hj'. destruct (Hgs j gj Hj) as (g1 & Hg1 & -> & _), (Hgs j' gj' Hj') as (g2 & Hg2 & -> & _).
    by apply (ho_inj _ _ _ _ _ _ H).
  - intros j gj Hj. destruct (Hgs j gj Hj) as (g1 & Hg1 & -> & _). by apply (ho_base _ _ _ _ _ _ H).
  - intros j gj Hj. destruct (Hgs j gj Hj) as (g1 & Hg1 & -> & _ & _ & -> & _). by apply (ho_armed _ _ _ _ _ _ H j).
  - intros j gj Hj Hp. destruct (Hgs j gj Hj) as (g1 & Hg1 & -> & _ & _ & _ & Ec & _). rewrite Ec in Hp.
    rewrite fn_lookup_insert_ne; [by apply (ho_clean _ _ _ _ _ _ H j)|]. rewrite Ek. intros E.
    pose proof (ho_inj _ _ _ _ _ _ H k j gk g1 Hgk Hg1 E) as <-. rewrite Hgk in Hg1. injection Hg1 as <-.
    destruct Hp as [Hp|Hp]; [by destruct (hg_phase gk)|by apply (ho_disjoint _ _ _ _ _ _ H (co k) k)].
  - intros j gj Hj. destruct (Hgs j gj Hj) as (g1 & Hg1 & -> & _ & _ & _ & _ & -> & _). by apply (ho_enrolled _ _ _ _ _ _ H j).
  - intros j gj Hj. destruct (Hgs j gj Hj) as (g1 & Hg1 & -> & _ & _ & _ & _ & _ & -> & _). by apply (ho_ready _ _ _ _ _ _ H j).
  - intros j gj Hj. destruct (Hgs j gj Hj) as (g1 & Hg1 & -> & -> & _ & _ & _ & _ & _ & -> & _). by apply (ho_noted _ _ _ _ _ _ H j).
  - intros c. eapply linked_ext; [|by intros j _; apply Hn|apply (ho_pred _ _ _ _ _ _ H c)].
    intros j gj v _ Hj [= <-]. destruct (Hgs j gj Hj) as (g1 & Hg1 & _ & E & _). exists g1. unfold hc_before. by rewrite E.
  - eapply linked_ext; [|by intros j _; apply Hn|apply (ho_waits _ _ _ _ _ _ H)].
    intros j gj v _ Hj Hv. destruct (Hgs j gj Hj) as (g1 & Hg1 & _ & _ & _ & _ & _ & _ & _ & _ & _ & E). exists g1. by rewrite <- E.
  - intros c. rewrite He. apply H.
  - rewrite He. apply H.
  - intros j gj HO Hj Hloc. destruct (Hgs j gj Hj) as (g1 & Hg1 & _ & -> & _ & _ & _ & _ & _ & _ & E & _). rewrite E in Hloc.
    destruct (ho_part _ _ _ _ _ _ H j g1 HO Hg1 Hloc) as [Hs Hp]. split; [|done]. rewrite fn_lookup_insert_ne; [done|].
    intros E'. destruct (hc_pred_not_last _ _ _ _ _ _ j g1 (co i) H HO Hg1) as [Hne|E2]; [congruence|].
    assert (i ∈ in_glob O (co i)) as Hin by (by apply in_glob_elem). rewrite E2 in Hin. by apply elem_of_nil in Hin.
  - intros c. cbv zeta. rewrite He. destruct (decide (c = co i)) as [->|Hc]; [left; by rewrite <- Elt, fn_lookup_insert|].
    destruct (ho_last _ _ _ _ _ _ H c) as [?|[?|(j & gj & w' & Hj & Hcj & Ej)]]; [by left; apply H1|by right; left|].
    right; right. exists j, gj, w'. rewrite list_lookup_insert_ne; [done|congruence].
  - intros j j' gj gj' lt1 lt2 w1 w2 [[-> ->]|[Hne Hj]]%insert_case [[-> ->]|[Hne' Hk']]%insert_case Hc Ej Ej'; try done.
    by apply (ho_one _ _ _ _ _ _ H j j' gj gj' lt1 lt2 w1 w2).
  - intros j gj [[-> ->]|[Hne Hj]]%insert_case; rewrite He; [done|].
    pose proof (ho_phase _ _ _ _ _ _ H j gj Hj) as Hph. unfold phase_ok in *. cbn.
    destruct (hg_phase gj) as [| | |v| | | | | | |b|lt'|lt' w'|w'| |] eqn:Ej; try done.
    + destruct Hph as [? Hb]. split; [done|]. destruct b; [by apply H1|done].
    + destruct Hph as (? & (k' & ? & ?) & Hb). split; [done|]. split; [exists k'; by rewrite Hn|].
      destruct Hb; [left; by apply H1|by right].
    + destruct Hph as (? & E & ?). split; [done|]. split; [done|]. rewrite fn_lookup_insert_ne; [done|]. intros <-.
      apply Hne. assert (co j = co i) as Hc.
      { destruct (hc_last_cases _ _ _ _ _ _ H (co j)) as [[E2 _]|(k2 & gk2 & _ & Hgk2 & _ & Hc2 & E2)].
        - assert (j ∈ in_glob O (co j)) as Hin by (by apply in_glob_elem). rewrite E2 in Hin. by apply elem_of_nil in Hin.
        - rewrite E2, Ek in E. pose proof (ho_inj _ _ _ _ _ _ H k k2 gk gk2 Hgk Hgk2 E). congruence. }
      by apply (ho_one _ _ _ _ _ _ H j i gj _ lt lt w' w Hj Hi).
  - intros j gj [[-> ->]|[Hne Hj]]%insert_case Hp; [by apply (ho_thread _ _ _ _ _ _ H i _ Hi)|by apply (ho_thread _ _ _ _ _ _ H j gj)].
  - by apply (bound_insert gs i _ _ Hi), (ho_bound _ _ _ _ _ _ H).
Qed.

(** *** The end of a queue is taken *)

Lemma hc_not_in x gs O P B g0 i g :
  hc_ok x gs O P B g0 → gs !! i = Some g → hc_active (hg_phase g) = false → ∀ c, (i ∉ O) ∧ i ∉ P c.
Proof.
  intros H Hi Ha c. split; intros Hin.
  - destruct (ho_in _ _ _ _ _ _ H c i (or_introl Hin)) as (g1 & H1 & ?). congruence.
  - destruct (ho_in _ _ _ _ _ _ H c i (or_intror Hin)) as (g1 & H1 & ?). congruence.
Qed.

Lemma hc_join x gs O P B g0 i n p0 :
  hc_ok x gs O P B g0 → gs !! i = Some (MkHcGhost HReady n p0) →
  hc_ok (MkHclhView (hv_glob x) (<[co i := n]> (hv_local x)) (hv_nodes x) (hv_threads x))
    (<[i := MkHcGhost HJoin n (hv_local x (co i))]> gs) O (<[co i := (P (co i) ++ [i])]> P) B g0.
Proof.
  intros H Hi. pose proof (lookup_lt_Some _ _ _ Hi) as Hlt. set (p := hv_local x (co i)). set (g' := MkHcGhost HJoin n p).
  set (P' := <[co i := (P (co i) ++ [i])]> P).
  pose proof (hc_not_in _ _ _ _ _ _ _ _ H Hi eq_refl) as Hnot. destruct (Hnot 0%nat) as [HnO _].
  assert (∀ k, node_of (<[i := g']> gs) k = node_of gs k) as Hn by (intros k; by eapply node_of_same).
  assert (∀ a l, end_of a (<[i := g']> gs) l = end_of a gs l) as He by (intros a l; by eapply end_of_same).
  assert (∀ c, P' c = if decide (c = co i) then P c ++ [i] else P c) as EP.
  { intros c. unfold P'. case_decide as Hc; [by subst; rewrite fn_lookup_insert|by rewrite fn_lookup_insert_ne]. }
  assert (∀ c j, j ∈ P' c ↔ j ∈ P c ∨ c = co i ∧ j = i) as HP.
  { intros c j. rewrite EP. case_decide; set_solver. }
  assert (∀ c, in_local O P' c = if decide (c = co i) then in_local O P c ++ [i] else in_local O P c) as EL.
  { intros c. unfold in_local. rewrite EP. case_decide; [by rewrite app_assoc|done]. }
  assert (∀ c, i ∉ in_local O P c) as HnL.
  { intros c [_ [?|?]]%(in_local_elem _ _ _ _ _ _ H); by destruct (Hnot c). }
  assert (∀ j gj, <[i := g']> gs !! j = Some gj → ∃ gj0, gs !! j = Some gj0 ∧ hg_node gj = hg_node gj0 ∧
    (hc_armed (hg_phase gj) = true → hc_armed (hg_phase gj0) = true) ∧
    (hc_enrolled (hg_phase gj) = true → hc_enrolled (hg_phase gj0) = true) ∧
    (hc_ready (hg_phase gj) = true → hc_ready (hg_phase gj0) = true)) as Hgs.
  { intros j gj [[-> ->]|[Hne Hj]]%insert_case; [by exists (MkHcGhost HReady n p0)|by exists gj]. }
  split; cbn [hv_nodes hv_glob hv_local hv_threads]; try apply H.
  - intros c. rewrite EP. case_decide; [|apply H]. apply NoDup_app. split; [apply H|]. split; [|apply NoDup_singleton].
    intros j Hj ->%list_elem_of_singleton. by destruct (Hnot c).
  - intros c j [Hj|[-> ->]]%HP; [by apply (ho_local_home _ _ _ _ _ _ H)|done].
  - intros c j [Hj|[-> ->]]%HP; [by apply (ho_disjoint _ _ _ _ _ _ H c)|done].
  - intros c j Hj. destruct (decide (j = i)) as [->|Hne].
    + exists g'. by rewrite list_lookup_insert_eq.
    + rewrite list_lookup_insert_ne by done. apply (ho_in _ _ _ _ _ _ H c). destruct Hj as [?|[?|[_ ?]]%HP]; [by left|by right|done].
  - intros j gj [[-> ->]|[Hne Hj]]%insert_case Ha; [right; apply HP; by right|].
    destruct (ho_active _ _ _ _ _ _ H j gj Hj Ha); [by left|right; apply HP; by left].
  - intros j gj Hj. destruct (Hgs j gj Hj) as (g1 & Hg1 & -> & _). by apply (ho_home _ _ _ _ _ _ H).
  - intros j j' gj gj' Hj Hj'. destruct (Hgs j gj Hj) as (g1 & Hg1 & -> & _), (Hgs j' gj' Hj') as (g2 & Hg2 & -> & _).
    by apply (ho_inj _ _ _ _ _ _ H).
  - intros j gj Hj. destruct (Hgs j gj Hj) as (g1 & Hg1 & -> & _). by apply (ho_base _ _ _ _ _ _ H).
  - intros j gj Hj Hp. destruct (Hgs j gj Hj) as (g1 & Hg1 & -> & Ha & _). by apply (ho_armed _ _ _ _ _ _ H j g1 Hg1), Ha.
  - intros j gj [[-> ->]|[Hne Hj]]%insert_case Hp; [apply (ho_clean _ _ _ _ _ _ H i _ Hi); by left|].
    apply (ho_clean _ _ _ _ _ _ H j gj Hj). destruct Hp as [?|[?|[_ ?]]%HP]; [by left|by right|done].
  - intros j gj Hj Hp. destruct (Hgs j gj Hj) as (g1 & Hg1 & -> & _ & Ha & _). by apply (ho_enrolled _ _ _ _ _ _ H j g1 Hg1), Ha.
  - intros j gj Hj Hp. destruct (Hgs j gj Hj) as (g1 & Hg1 & -> & _ & _ & Ha). by apply (ho_ready _ _ _ _ _ _ H j g1 Hg1), Ha.
  - intros j gj [[-> ->]|[Hne Hj]]%insert_case Hp; [done|by apply (ho_noted _ _ _ _ _ _ H j)].
  - intros c. assert (linked (<[i := g']> gs) hc_before (B c) (in_local O P c)) as HL.
    { eapply linked_ext; [|by intros j _; apply Hn|apply (ho_pred _ _ _ _ _ _ H c)].
      intros j gj v Hj [[-> ->]|[Hne Hgj]]%insert_case Hv; [by destruct (HnL c)|by exists gj]. }
    rewrite EL. case_decide as Hc; [|exact HL]. subst c. apply linked_app. split; [exact HL|]. split; [|done].
    intros gj v Hgj [= <-]. rewrite list_lookup_insert_eq in Hgj by done. injection Hgj as <-. cbn.
    rewrite He. apply (ho_local_end _ _ _ _ _ _ H).
  - eapply linked_ext; [|by intros j _; apply Hn|apply (ho_waits _ _ _ _ _ _ H)].
    intros j gj v Hj [[-> ->]|[Hne Hgj]]%insert_case Hv; [done|by exists gj].
  - intros c. rewrite He, EL. case_decide as Hc.
    + subst c. rewrite fn_lookup_insert, end_of_app. cbn. by rewrite (node_of_eq _ _ _ Hi).
    + rewrite fn_lookup_insert_ne by done. apply H.
  - rewrite He. apply H.
  - intros j gj HO [[-> ->]|[Hne Hj]]%insert_case Hloc; [done|by apply (ho_part _ _ _ _ _ _ H j)].
  - intros c. cbv zeta. rewrite He. destruct (ho_last _ _ _ _ _ _ H c) as [?|[?|(j & gj & w' & Hj & Hcj & Ej)]]; [by left|by right; left|].
    right; right. exists j, gj, w'. rewrite list_lookup_insert_ne; [done|]. intros <-. rewrite Hi in Hj. by injection Hj as <-.
  - intros j j' gj gj' lt1 lt2 w1 w2 [[-> ->]|[Hne Hj]]%insert_case [[-> ->]|[Hne' Hk']]%insert_case Hc Ej Ej'; try done.
    by apply (ho_one _ _ _ _ _ _ H j j' gj gj' lt1 lt2 w1 w2).
  - intros j gj [[-> ->]|[Hne Hj]]%insert_case; rewrite He; [done|].
    pose proof (ho_phase _ _ _ _ _ _ H j gj Hj) as Hph. unfold phase_ok in *. cbn.
    assert ((∃ r, P (co j) = j :: r) → ∃ r, P' (co j) = j :: r) as Hfirst.
    { intros [r E]. rewrite EP, E. case_decide; [by exists (r ++ [i])|by exists r]. }
    destruct (hg_phase gj) as [| | |v| | | | | | |b|lt'|lt' w'|w'| |] eqn:Ej; try done.
    + destruct Hph as [? Hb]. split; [by apply Hfirst|done].
    + destruct Hph as (? & (k' & ? & ?) & Hb). split; [by apply Hfirst|]. split; [|done]. exists k'. rewrite Hn. split; [|done].
      apply HP. by left.
  - intros j gj [[-> ->]|[Hne Hj]]%insert_case Hp; [by apply (ho_thread _ _ _ _ _ _ H i _ Hi)|by apply (ho_thread _ _ _ _ _ _ H j gj)].
  - by apply (bound_insert gs i _ _ Hi), (ho_bound _ _ _ _ _ _ H).
Qed.

(** *** A part of the queue of a cluster is put into that of all *)

Lemma in_glob_app O A c c' : (∀ j, j ∈ A → co j = c) → in_glob (O ++ A) c' = if decide (c' = c) then in_glob O c' ++ A else in_glob O c'.
Proof.
  intros HA. unfold in_glob. rewrite filter_app. case_decide as Hc.
  - f_equal. subst c'. induction A as [|j A IH]; [done|]. rewrite filter_cons_True by (apply HA; by left).
    f_equal. apply IH. intros k Hk. apply HA. by right.
  - rewrite <- (app_nil_r (filter _ O)) at 2. f_equal. induction A as [|j A IH]; [done|].
    rewrite filter_cons_False; [apply IH; intros k Hk; apply HA; by right|]. rewrite (HA j) by (by left). congruence.
Qed.

(** The thread that does it is the first that waits in its cluster, and no other is about to mark the end of a part. *)
Lemma hc_first x gs O P B g0 i g r :
  hc_ok x gs O P B g0 → gs !! i = Some g → P (co i) = i :: r → hg_pred g = end_of (B (co i)) gs (in_glob O (co i)).
Proof.
  intros H Hi E. pose proof (ho_pred _ _ _ _ _ _ H (co i)) as Hp. unfold in_local in Hp. rewrite E in Hp.
  by apply (linked_at _ _ _ _ _ _ g _ Hp Hi).
Qed.

Lemma hc_none_marks x gs O P B g0 i g r j gj lt w :
  hc_ok x gs O P B g0 → gs !! i = Some g → P (co i) = i :: r →
  hc_splice (hv_nodes x) (hg_pred g) = 1 ∨ hc_previous (hv_nodes x) (hg_pred g) = 0 →
  gs !! j = Some gj → co j = co i → hg_phase gj = HGlob lt w → False.
Proof.
  intros H Hi E Hs Hj Hc Ej. pose proof (ho_phase _ _ _ _ _ _ H j gj Hj) as Hph. unfold phase_ok in Hph. rewrite Ej in Hph.
  destruct Hph as (HO & Elt & Hs0). rewrite (hc_first _ _ _ _ _ _ i g r H Hi E) in Hs. rewrite Hc in Elt. rewrite <- Elt in Hs.
  destruct Hs as [Hs|Hs]; [congruence|].
  destruct (hc_last_cases _ _ _ _ _ _ H (co i)) as [[E2 _]|(k & gk & _ & Hgk & Hak & _ & E2)].
  - assert (j ∈ in_glob O (co i)) as Hin by (by apply in_glob_elem). rewrite E2 in Hin. by apply elem_of_nil in Hin.
  - rewrite <- Elt in E2. rewrite E2 in Hs. apply (ho_ready _ _ _ _ _ _ H k gk Hgk); [|done]. unfold hc_ready. by rewrite Hak.
Qed.

Lemma hc_put x gs O P B g0 i n p lt :
  hc_ok x gs O P B g0 → gs !! i = Some (MkHcGhost (HLoaded lt) n p) →
  ∃ O' P', hc_ok (MkHclhView lt (hv_local x) (hv_nodes x) (hv_threads x))
    (<[i := MkHcGhost (HGlob lt (hv_glob x)) n p]> gs) O' P' B g0.
Proof.
  intros H Hi. pose proof (lookup_lt_Some _ _ _ Hi) as Hlt. set (w := hv_glob x). set (g' := MkHcGhost (HGlob lt w) n p).
  pose proof (ho_phase _ _ _ _ _ _ H i _ Hi) as ((r & Er) & (k & Hk & Ek) & Hs). cbn in Hs.
  apply list_elem_of_split in Hk as (A0 & D & ED). set (A := A0 ++ [k]).
  assert (P (co i) = A ++ D) as EPA by (rewrite ED; unfold A; by rewrite <- app_assoc).
  set (P' := <[co i := D]> P). exists (O ++ A), P'.
  assert (∃ A', A = i :: A') as [A' EA].
  { rewrite EPA in Er. unfold A in *. destruct A0 as [|a A0]; cbn in *; injection Er as -> _; by eexists. }
  assert (∀ j, j ∈ A → j ∈ P (co i)) as HAP by (intros j Hj; rewrite EPA; set_solver).
  assert (∀ j, j ∈ A → co j = co i) as HAc by (intros j Hj; by apply (ho_local_home _ _ _ _ _ _ H), HAP).
  pose proof (ho_local_nodup _ _ _ _ _ _ H (co i)) as Hnd. rewrite EPA in Hnd.
  assert (∀ c, P' c = if decide (c = co i) then D else P c) as EP.
  { intros c. unfold P'. case_decide as Hc; [by subst; rewrite fn_lookup_insert|by rewrite fn_lookup_insert_ne]. }
  assert (∀ c j, j ∈ P' c → j ∈ P c) as HP.
  { intros c j. rewrite EP. case_decide as Hc; [subst; rewrite EPA; set_solver|done]. }
  assert (∀ c, in_local (O ++ A) P' c = in_local O P c) as EL.
  { intros c. unfold in_local. rewrite (in_glob_app _ _ (co i)), EP by done. case_decide as Hc; [|done].
    subst c. by rewrite EPA, app_assoc. }
  assert (∀ j, node_of (<[i := g']> gs) j = node_of gs j) as Hn by (intros j; by eapply node_of_same).
  assert (∀ a l, end_of a (<[i := g']> gs) l = end_of a gs l) as He by (intros a l; by eapply end_of_same).
  assert (∀ a l, end_of a gs (l ++ A) = lt) as HeA by (intros a l; unfold A; by rewrite app_assoc, end_of_app).
  assert (∀ c j, j ∈ O ++ A ∨ j ∈ P' c ↔ j ∈ O ∨ j ∈ A ∨ j ∈ P' c) as Hin by set_solver.
  assert (∀ j gj, <[i := g']> gs !! j = Some gj → ∃ gj0, gs !! j = Some gj0 ∧ hg_node gj = hg_node gj0 ∧ hg_pred gj = hg_pred gj0 ∧
    hc_active (hg_phase gj) = hc_active (hg_phase gj0) ∧ hc_armed (hg_phase gj) = hc_armed (hg_phase gj0) ∧
    hc_clean (hg_phase gj) = hc_clean (hg_phase gj0) ∧ hc_enrolled (hg_phase gj) = hc_enrolled (hg_phase gj0) ∧
    hc_ready (hg_phase gj) = hc_ready (hg_phase gj0) ∧ hc_noted (hg_phase gj) = hc_noted (hg_phase gj0) ∧
    hc_local (hg_phase gj) = hc_local (hg_phase gj0)) as Hgs.
  { intros j gj [[-> ->]|[Hne Hj]]%insert_case; [by exists (MkHcGhost (HLoaded lt) n p)|by exists gj]. }
  split; cbn [hv_nodes hv_glob hv_local hv_threads]; try apply H.
  - apply NoDup_app. split; [apply H|]. split; [|by apply NoDup_app in Hnd as (? & _)].
    intros j Hj Hj'. by apply (ho_disjoint _ _ _ _ _ _ H (co i) j); [apply HAP|].
  - intros c. rewrite EP. case_decide; [by apply NoDup_app in Hnd as (_ & _ & ?)|apply H].
  - intros c j Hj. by apply (ho_local_home _ _ _ _ _ _ H), HP.
  - intros c j Hj [Hj'|Hj']%elem_of_app; [by apply (ho_disjoint _ _ _ _ _ _ H c j); [apply HP|]|].
    assert (c = co i) as ->. { rewrite <- (HAc j Hj'). symmetry. by apply (ho_local_home _ _ _ _ _ _ H c), HP. }
    apply NoDup_app in Hnd as (_ & Hd & _). apply (Hd j Hj'). rewrite EP, decide_True in Hj by done. done.
  - intros c j Hj. destruct (decide (j = i)) as [->|Hne].
    + exists g'. by rewrite list_lookup_insert_eq.
    + rewrite list_lookup_insert_ne by done.
      destruct Hj as [[Hj|Hj]%elem_of_app|Hj].
      * by apply (ho_in _ _ _ _ _ _ H c); left.
      * by apply (ho_in _ _ _ _ _ _ H (co i)); right; apply HAP.
      * by apply (ho_in _ _ _ _ _ _ H c); right; apply HP.
  - intros j gj Hj Ha. destruct (Hgs j gj Hj) as (g1 & Hg1 & _ & _ & E & _). rewrite E in Ha.
    destruct (ho_active _ _ _ _ _ _ H j g1 Hg1 Ha) as [?|Hp]; [left; set_solver|]. rewrite EP.
    case_decide as Hc; [|by right]. rewrite Hc, EPA in Hp. set_solver.
  - intros j gj Hj. destruct (Hgs j gj Hj) as (g1 & Hg1 & -> & _). by apply (ho_home _ _ _ _ _ _ H).
  - intros j j' gj gj' Hj Hj'. destruct (Hgs j gj Hj) as (g1 & Hg1 & -> & _), (Hgs j' gj' Hj') as (g2 & Hg2 & -> & _).
    by apply (ho_inj _ _ _ _ _ _ H).
  - intros j gj Hj. destruct (Hgs j gj Hj) as (g1 & Hg1 & -> & _). by apply (ho_base _ _ _ _ _ _ H).
  - intros j gj Hj. destruct (Hgs j gj Hj) as (g1 & Hg1 & -> & _ & _ & -> & _). by apply (ho_armed _ _ _ _ _ _ H j).
  - intros j gj Hj Hp. destruct (Hgs j gj Hj) as (g1 & Hg1 & -> & _ & _ & _ & Ec & _). rewrite Ec in Hp.
    apply (ho_clean _ _ _ _ _ _ H j g1 Hg1). destruct Hp as [?|?]; [by left|right; by apply HP].
  - intros j gj Hj. destruct (Hgs j gj Hj) as (g1 & Hg1 & -> & _ & _ & _ & _ & -> & _). by apply (ho_enrolled _ _ _ _ _ _ H j).
  - intros j gj Hj. destruct (Hgs j gj Hj) as (g1 & Hg1 & -> & _ & _ & _ & _ & _ & -> & _). by apply (ho_ready _ _ _ _ _ _ H j).
  - intros j gj Hj. destruct (Hgs j gj Hj) as (g1 & Hg1 & -> & -> & _ & _ & _ & _ & _ & -> & _). by apply (ho_noted _ _ _ _ _ _ H j).
  - intros c. rewrite EL. eapply linked_ext; [|by intros j _; apply Hn|apply (ho_pred _ _ _ _ _ _ H c)].
    intros j gj v _ Hj [= <-]. destruct (Hgs j gj Hj) as (g1 & Hg1 & _ & E & _). exists g1. unfold hc_before. by rewrite E.
  - apply linked_app. split.
    + eapply linked_ext; [|by intros j _; apply Hn|apply (ho_waits _ _ _ _ _ _ H)].
      intros j gj v HO [[-> ->]|[Hne Hj]]%insert_case Hv; [|by exists gj].
      destruct (ho_disjoint _ _ _ _ _ _ H (co i) i); [rewrite Er; by left|done].
    + rewrite EA. split.
      * intros gj v Hgj. rewrite list_lookup_insert_eq in Hgj by done. injection Hgj as <-. intros [= <-].
        rewrite He. apply (ho_glob_end _ _ _ _ _ _ H).
      * pose proof (ho_pred _ _ _ _ _ _ H (co i)) as Hp. unfold in_local in Hp. rewrite EPA, EA in Hp.
        apply linked_app in Hp as [_ [_ Hp]]. apply linked_app in Hp as [Hp _]. rewrite Hn.
        eapply linked_ext; [|by intros j _; apply Hn|exact Hp].
        assert (i ∉ A') as HnA.
        { apply NoDup_app in Hnd as (Hnd & _). rewrite EA in Hnd. by apply NoDup_cons in Hnd as [? _]. }
        intros j gj v Hj [[-> ->]|[Hne Hgj]]%insert_case Hv; [done|]. exists gj. split; [done|]. unfold hc_before.
        assert (j ∈ P (co i)) as HjP by (apply HAP; rewrite EA; by right).
        assert (co j = co i) as Hcj by (apply HAc; rewrite EA; by right).
        pose proof (ho_phase _ _ _ _ _ _ H j gj Hgj) as Hph. unfold phase_ok in Hph. unfold hc_waits_on in Hv.
        destruct (hg_phase gj) eqn:Ej; try done.
        -- destruct Hph as (HO & _). by destruct (ho_disjoint _ _ _ _ _ _ H (co i) j).
        -- by destruct (ho_disjoint _ _ _ _ _ _ H (co i) j).
  - intros c. rewrite EL, He. apply H.
  - by rewrite He, HeA.
  - intros j gj HO Hj Hloc. destruct (Hgs j gj Hj) as (g1 & Hg1 & _ & -> & _ & _ & _ & _ & _ & _ & E). rewrite E in Hloc.
    apply elem_of_app in HO as [HO|HA]; [by apply (ho_part _ _ _ _ _ _ H j g1)|].
    rewrite EA in HA. apply elem_of_cons in HA as [->|HA].
    { rewrite Hi in Hg1. by injection Hg1 as <-. }
    apply list_elem_of_split in HA as (l1 & l2 & El). pose proof (ho_pred _ _ _ _ _ _ H (co i)) as Hp. unfold in_local in Hp.
    rewrite EPA, EA, El in Hp. apply linked_app in Hp as [_ Hp].
    assert ((i :: l1 ++ j :: l2) ++ D = (i :: l1) ++ j :: (l2 ++ D)) as E2 by (cbn; by rewrite <- app_assoc). rewrite E2 in Hp.
    rewrite (linked_at _ _ _ _ _ _ g1 (hg_pred g1) Hp Hg1 eq_refl).
    destruct (end_of_cases (end_of (B (co i)) gs (in_glob O (co i))) gs (i :: l1)) as [[? _]|(l' & k' & Ek' & ->)]; [done|].
    assert (k' ∈ P (co i)) as Hk'.
    { apply HAP. rewrite EA, El, app_comm_cons, Ek'. set_solver. }
    destruct (ho_in _ _ _ _ _ _ H (co i) k' (or_intror Hk')) as (gk & Hgk & Hak). rewrite (node_of_eq _ _ _ Hgk). split.
    + apply (ho_clean _ _ _ _ _ _ H k' gk Hgk). right. by rewrite (ho_local_home _ _ _ _ _ _ H _ _ Hk').
    + apply (ho_ready _ _ _ _ _ _ H k' gk Hgk). unfold hc_ready. by rewrite Hak.
  - intros c. cbv zeta. rewrite He, (in_glob_app _ _ (co i)) by done. case_decide as Hc.
    + right; right. exists i, g', w. rewrite list_lookup_insert_eq by done. split; [done|]. split; [done|]. by rewrite HeA.
    + destruct (ho_last _ _ _ _ _ _ H c) as [?|[?|(j & gj & w' & Hj & Hcj & Ej)]]; [by left|by right; left|].
      right; right. exists j, gj, w'. rewrite list_lookup_insert_ne; [done|congruence].
  - intros j j' gj gj' lt1 lt2 w1 w2 [[-> ->]|[Hne Hj]]%insert_case [[-> ->]|[Hne' Hk']]%insert_case Hc Ej Ej'; try done.
    + by destruct (hc_none_marks _ _ _ _ _ _ i _ r j' gj' lt2 w2 H Hi Er Hs Hk').
    + by destruct (hc_none_marks _ _ _ _ _ _ i _ r j gj lt1 w1 H Hi Er Hs Hj).
    + by apply (ho_one _ _ _ _ _ _ H j j' gj gj' lt1 lt2 w1 w2).
  - intros j gj [[-> ->]|[Hne Hj]]%insert_case; rewrite He, (in_glob_app _ _ (co i)) by done.
    + rewrite decide_True, HeA by done. split; [rewrite EA; set_solver|]. split; [done|]. cbn.
      assert (k ∈ P (co i)) as Hk by (rewrite ED; set_solver).
      destruct (ho_in _ _ _ _ _ _ H (co i) k (or_intror Hk)) as (gk & Hgk & Hak). rewrite <- Ek, (node_of_eq _ _ _ Hgk).
      apply (ho_clean _ _ _ _ _ _ H k gk Hgk). right. by rewrite (ho_local_home _ _ _ _ _ _ H _ _ Hk).
    + pose proof (ho_phase _ _ _ _ _ _ H j gj Hj) as Hph. unfold phase_ok in *. cbn.
      assert ((∃ r, P (co j) = j :: r) → co j ≠ co i ∧ ∃ r, P' (co j) = j :: r) as Hfirst.
      { intros [r' E]. assert (co j ≠ co i) as Hc by (intros Hc; rewrite Hc, Er in E; congruence). split; [done|].
        exists r'. by rewrite EP, decide_False. }
      destruct (hg_phase gj) as [| | |v| | | | | | |b|lt'|lt' w'|w'| |] eqn:Ej; try done.
      * destruct Hph as [? Hb]. split; [by apply Hfirst|done].
      * destruct Hph as (Hf & (k' & ? & ?) & Hb). split; [by apply Hfirst|]. split; [|done]. exists k'. rewrite Hn. split; [|done].
        rewrite EP, decide_False by (by apply Hfirst). done.
      * destruct Hph as (? & E & ?). split; [set_solver|]. split; [|done].
        rewrite decide_False; [done|]. intros Hc. by destruct (hc_none_marks _ _ _ _ _ _ i _ r j gj lt' w' H Hi Er Hs Hj).
      * set_solver.
      * destruct Hph as [r' ->]. by exists (r' ++ A).
  - intros j gj [[-> ->]|[Hne Hj]]%insert_case Hp; [by apply (ho_thread _ _ _ _ _ _ H i _ Hi)|by apply (ho_thread _ _ _ _ _ _ H j gj)].
  - by apply (bound_insert gs i _ _ Hi), (ho_bound _ _ _ _ _ _ H).
Qed.

(** *** The lock is left *)

Lemma hc_free x gs O P B g0 i n p :
  hc_ok x gs O P B g0 → gs !! i = Some (MkHcGhost HHold n p) →
  let m := hv_nodes x in
  ∃ O' B', hc_ok (MkHclhView (hv_glob x) (hv_local x)
      (MkHclhMembers (<[n := 0]> (hc_wait m)) (hc_splice m) (hc_cluster_id m) (hc_previous m)) (hv_threads x))
    (<[i := MkHcGhost HFreed p p]> gs) O' P B' n.
Proof.
  intros H Hi m. pose proof (lookup_lt_Some _ _ _ Hi) as Hlt. set (g' := MkHcGhost HFreed p p).
  pose proof (ho_phase _ _ _ _ _ _ H i _ Hi) as [O' EO]. cbn in EO.
  set (B' := <[co i := n]> B). exists O', B'. set (gs' := <[i := g']> gs).
  assert (∀ c, B' c = if decide (c = co i) then n else B c) as EB.
  { intros c. unfold B'. case_decide as Hc; [by subst; rewrite fn_lookup_insert|by rewrite fn_lookup_insert_ne]. }
  pose proof (ho_glob_nodup _ _ _ _ _ _ H) as Hnd. rewrite EO in Hnd. apply NoDup_cons in Hnd as [HnO Hnd].
  assert (∀ c, in_glob O c = if decide (c = co i) then i :: in_glob O' c else in_glob O' c) as EG.
  { intros c. unfold in_glob. rewrite EO. case_decide as Hc; [by rewrite filter_cons_True|by rewrite filter_cons_False]. }
  assert (∀ c, in_local O P c = if decide (c = co i) then i :: in_local O' P c else in_local O' P c) as EL.
  { intros c. unfold in_local. rewrite EG. by case_decide. }
  assert (∀ k, k ≠ i → node_of gs' k = node_of gs k) as Hn.
  { intros k Hk. unfold node_of, gs'. by rewrite list_lookup_insert_ne. }
  assert (∀ c, i ∉ in_local O' P c) as HnL.
  { intros c [[_ ?]%in_glob_elem|Hp]%elem_of_app; [done|]. apply (ho_disjoint _ _ _ _ _ _ H c i Hp). rewrite EO. by left. }
  assert (∀ c j, j ∈ in_local O' P c → j ≠ i) as HnL' by (intros c j Hj ->; by apply (HnL c)).
  assert (p = B (co i)) as Ep.
  { pose proof (ho_pred _ _ _ _ _ _ H (co i)) as Hp. rewrite EL, decide_True in Hp by done.
    destruct Hp as [Hp _]. by apply (Hp _ _ Hi). }
  assert (∀ c l, (∀ j, j ∈ l → j ∈ in_local O' P c) →
    end_of (B' c) gs' l = end_of (B c) gs (if decide (c = co i) then i :: l else l)) as He.
  { intros c l Hl. rewrite (end_of_ext _ gs gs') by (intros j Hj; by apply Hn, (HnL' c), Hl). rewrite EB. case_decide; [|done].
    cbn. by rewrite (node_of_eq _ _ _ Hi). }
  assert (∀ c, end_of (B' c) gs' (in_glob O' c) = end_of (B c) gs (in_glob O c)) as HX.
  { intros c. rewrite He, EG; [by case_decide|]. intros j Hj. apply elem_of_app. by left. }
  assert (∀ j gj, j ≠ i → gs !! j = Some gj → hg_node gj ≠ n) as Hne by (intros j gj Hne Hj; by apply (hc_node_inj _ _ _ _ _ _ H j i gj _ Hj Hi)).
  split; cbn [hv_nodes hv_glob hv_local hv_threads hc_wait hc_splice hc_cluster_id hc_previous]; try apply H.
  - exact Hnd.
  - intros c j Hj HO. apply (ho_disjoint _ _ _ _ _ _ H c j Hj). rewrite EO. by right.
  - intros c j Hj. assert (j ≠ i) as Hji.
    { intros ->. destruct Hj as [?|Hj]; [done|]. apply (ho_disjoint _ _ _ _ _ _ H c i Hj). rewrite EO. by left. }
    unfold gs'. rewrite list_lookup_insert_ne by done. apply (ho_in _ _ _ _ _ _ H c). rewrite EO.
    destruct Hj; [left; by right|by right].
  - intros j gj [[-> ->]|[Hji Hj]]%insert_case Ha; [done|].
    destruct (ho_active _ _ _ _ _ _ H j gj Hj Ha) as [HO|?]; [|by right]. rewrite EO in HO. left. set_solver.
  - intros j gj [[-> ->]|[Hji Hj]]%insert_case; [cbn; rewrite Ep; apply H|by apply (ho_home _ _ _ _ _ _ H)].
  - intros j j' gj gj' [[-> ->]|[Hji Hj]]%insert_case [[-> ->]|[Hji' Hj']]%insert_case E; [done| | |].
    + cbn in E. rewrite Ep in E. by destruct (hc_node_base _ _ _ _ _ _ H j' gj' (co i) Hj').
    + cbn in E. rewrite Ep in E. by destruct (hc_node_base _ _ _ _ _ _ H j gj (co i) Hj).
    + by apply (ho_inj _ _ _ _ _ _ H j j' gj gj').
  - intros c. rewrite EB. case_decide as Hc; [subst c; by apply (ho_home _ _ _ _ _ _ H i _ Hi)|apply H].
  - intros j gj [[-> ->]|[Hji Hj]]%insert_case; rewrite EB.
    + rewrite decide_True by done. cbn. rewrite Ep. intros E. by apply (ho_base _ _ _ _ _ _ H i _ Hi).
    + case_decide; [by apply (Hne j)|by apply (ho_base _ _ _ _ _ _ H j)].
  - apply (home_is_node co max n i); [by apply (ho_bound _ _ _ _ _ _ H i _ Hi)|by apply (ho_home _ _ _ _ _ _ H i _ Hi)].
  - intros c. rewrite EB. case_decide as Hc; [by rewrite fn_lookup_insert|]. rewrite fn_lookup_insert_ne; [apply H|].
    apply (hc_node_base _ _ _ _ _ _ H i _ c Hi).
  - rewrite fn_lookup_insert_ne; [apply H|]. apply (hc_node_unowned _ _ _ _ _ _ H i _ Hi).
  - intros c. rewrite EB. case_decide as Hc; [subst c; by apply (ho_enrolled _ _ _ _ _ _ H i _ Hi)|apply H].
  - intros j gj [[-> ->]|[Hji Hj]]%insert_case Hp; [done|]. rewrite fn_lookup_insert_ne by (by apply not_eq_sym, (Hne j)).
    by apply (ho_armed _ _ _ _ _ _ H j).
  - intros j gj [[-> ->]|[Hji Hj]]%insert_case Hp; [|by apply (ho_clean _ _ _ _ _ _ H j)].
    destruct Hp as [?|Hp]; [done|]. destruct (ho_disjoint _ _ _ _ _ _ H (co i) i Hp). rewrite EO. by left.
  - intros j gj [[-> ->]|[Hji Hj]]%insert_case Hp; [done|by apply (ho_enrolled _ _ _ _ _ _ H j)].
  - intros j gj [[-> ->]|[Hji Hj]]%insert_case Hp; [done|by apply (ho_ready _ _ _ _ _ _ H j)].
  - intros j gj [[-> ->]|[Hji Hj]]%insert_case Hp; [done|by apply (ho_noted _ _ _ _ _ _ H j)].
  - intros c. assert (linked gs hc_before (B' c) (in_local O' P c)) as HL.
    { pose proof (ho_pred _ _ _ _ _ _ H c) as Hp. rewrite EL in Hp. rewrite EB. case_decide; [|done].
      destruct Hp as [_ Hp]. by rewrite (node_of_eq _ _ _ Hi) in Hp. }
    eapply linked_ext; [|intros j Hj; by apply Hn, (HnL' c)|exact HL].
    intros j gj v Hj [[-> ->]|[Hji Hgj]]%insert_case Hv; [by destruct (HnL c)|by exists gj].
  - pose proof (ho_waits _ _ _ _ _ _ H) as Hw. rewrite EO in Hw. destruct Hw as [_ Hw]. rewrite (node_of_eq _ _ _ Hi) in Hw.
    eapply linked_ext; [|intros j Hj; apply Hn; by intros ->|exact Hw].
    intros j gj v Hj [[-> ->]|[Hji Hgj]]%insert_case Hv; [done|by exists gj].
  - intros c. rewrite He by done. rewrite (ho_local_end _ _ _ _ _ _ H), EL. by case_decide.
  - rewrite (ho_glob_end _ _ _ _ _ _ H), EO. cbn. rewrite (node_of_eq _ _ _ Hi). cbn. symmetry. apply end_of_ext.
    intros j Hj. apply Hn. by intros ->.
  - intros j gj HO [[-> ->]|[Hji Hj]]%insert_case Hloc; [done|]. apply (ho_part _ _ _ _ _ _ H j gj); [|done|done].
    rewrite EO. by right.
  - intros c. cbv zeta. rewrite HX. destruct (ho_last _ _ _ _ _ _ H c) as [?|[?|(j & gj & w' & Hj & Hcj & Ej)]]; [by left|by right; left|].
    right; right. exists j, gj, w'. unfold gs'. rewrite list_lookup_insert_ne; [done|]. intros <-. rewrite Hi in Hj.
    by injection Hj as <-.
  - intros j j' gj gj' lt1 lt2 w1 w2 [[-> ->]|[Hji Hj]]%insert_case [[-> ->]|[Hji' Hj']]%insert_case Hc Ej Ej'; try done.
    by apply (ho_one _ _ _ _ _ _ H j j' gj gj' lt1 lt2 w1 w2).
  - intros j gj [[-> ->]|[Hji Hj]]%insert_case; rewrite HX; [done|].
    pose proof (ho_phase _ _ _ _ _ _ H j gj Hj) as Hph. unfold phase_ok in *. cbn.
    assert (j ∈ O → j ∈ O') as HjO by (rewrite EO; set_solver).
    destruct (hg_phase gj) as [| | |v| | | | | | |b|lt'|lt' w'|w'| |] eqn:Ej; try done.
    + destruct Hph as [? Hw]. split; [done|]. destruct (decide (hg_pred gj = n)) as [->|]; [by rewrite fn_lookup_insert|].
      by rewrite fn_lookup_insert_ne.
    + destruct Hph as (Hf & (k & Hk & Ek) & Hb). split; [done|]. split; [|done]. exists k. split; [done|].
      rewrite Hn; [done|]. intros ->. apply (ho_disjoint _ _ _ _ _ _ H (co j) i Hk). rewrite EO. by left.
    + destruct Hph as (? & E & ?). split; [by apply HjO|done].
    + by apply HjO.
    + destruct Hph as [r E]. rewrite EO in E. congruence.
  - intros j gj [[-> ->]|[Hji Hj]]%insert_case Hp; [done|by apply (ho_thread _ _ _ _ _ _ H j gj)].
  - by apply (bound_insert gs i _ _ Hi), (ho_bound _ _ _ _ _ _ H).
Qed.

(** *** What a thread sees *)

Lemma hc_own_node x gs i g : hc_inv x gs → gs !! i = Some g → is_node (hg_node g).
Proof.
  intros (O & P & B & g0 & H) Hi. apply (home_is_node co max _ i); [by apply (ho_bound _ _ _ _ _ _ H i g)|].
  by apply (ho_home _ _ _ _ _ _ H i g).
Qed.

(** The node at the end of a queue; the node before that of a thread. *)
Lemma hc_local_end x gs c :
  hc_inv x gs → home (hv_local x c) = Some c ∧ hc_cluster_id (hv_nodes x) (hv_local x c) = Z.of_nat c.
Proof.
  intros (O & P & B & g0 & H). rewrite (ho_local_end _ _ _ _ _ _ H c).
  destruct (hc_end_cases _ _ _ _ _ _ H c (in_local O P c)) as [[_ ->]|(l & k & g & _ & Hg & Ha & Hc & ->)]; [done|by split; apply H|].
  subst c. split; [by apply (ho_home _ _ _ _ _ _ H)|]. apply (ho_enrolled _ _ _ _ _ _ H k g Hg). unfold hc_enrolled, hc_ready. by rewrite Ha.
Qed.

Lemma hc_local_node x gs i g : hc_inv x gs → gs !! i = Some g → is_node (hv_local x (co i)).
Proof.
  intros HI Hi. pose proof (hc_local_end x gs (co i) HI) as [Hh _]. destruct HI as (O & P & B & g0 & H).
  apply (home_is_node co max _ i); [by apply (ho_bound _ _ _ _ _ _ H i g)|done].
Qed.

Lemma hc_pred_known x gs i g :
  hc_inv x gs → gs !! i = Some g → hc_active (hg_phase g) = true →
  home (hg_pred g) = Some (co i) ∧ hc_cluster_id (hv_nodes x) (hg_pred g) = Z.of_nat (co i) ∧
  (hc_wait (hv_nodes x) (hg_pred g) = 0 ∨ hc_wait (hv_nodes x) (hg_pred g) = 1).
Proof.
  intros (O & P & B & g0 & H) Hi Ha.
  destruct (hc_pred_cases _ _ _ _ _ _ H i g Hi Ha) as [->|(k & gk & Hk & Hak & Hc & ->)].
  - split; [apply H|]. split; [apply H|]. left. apply H.
  - rewrite <- Hc. split; [by apply (ho_home _ _ _ _ _ _ H)|]. split.
    + apply (ho_enrolled _ _ _ _ _ _ H k gk Hk). unfold hc_enrolled, hc_ready. by rewrite Hak.
    + right. apply (ho_armed _ _ _ _ _ _ H k gk Hk). unfold hc_armed. by rewrite Hak.
Qed.

(** The node that a thread in the queue of all clusters waits on, and the thread: when its flag is down, the thread is the first. *)
Lemma hc_waits_known x gs O P B g0 i g w :
  hc_ok x gs O P B g0 → gs !! i = Some g → i ∈ O → hc_waits_on g = Some w →
  is_node w ∧ (hc_wait (hv_nodes x) w = 1 ∨ ∃ r, O = i :: r).
Proof.
  intros H Hi HO Hw. apply list_elem_of_split in HO as (l & r & E). pose proof (ho_waits _ _ _ _ _ _ H) as Hl. rewrite E in Hl.
  rewrite (linked_at _ _ _ _ _ _ g w Hl Hi Hw). destruct (end_of_cases g0 gs l) as [[-> ->]|(l' & k & -> & ->)].
  - split; [|right; by exists r]. apply (ho_start _ _ _ _ _ _ H).
  - destruct (ho_in _ _ _ _ _ _ H 0%nat k) as (gk & Hk & Hak); [left; rewrite E; set_solver|]. rewrite (node_of_eq _ _ _ Hk).
    split; [by apply (hc_own_node x gs k); [do 4 eexists|]|]. left. apply (ho_armed _ _ _ _ _ _ H k gk Hk). unfold hc_armed. by rewrite Hak.
Qed.

Lemma hc_glob_end x gs : hc_inv x gs → is_node (hv_glob x).
Proof.
  intros HI. pose proof HI as (O & P & B & g0 & H). rewrite (ho_glob_end _ _ _ _ _ _ H).
  destruct (end_of_cases g0 gs O) as [[_ ->]|(l & k & E & ->)]; [apply (ho_start _ _ _ _ _ _ H)|].
  destruct (ho_in _ _ _ _ _ _ H 0%nat k) as (gk & Hk & _); [left; rewrite E; set_solver|]. rewrite (node_of_eq _ _ _ Hk).
  by apply (hc_own_node x gs k).
Qed.

(** A thread learns something. *)
Lemma hc_learn x gs O P B g0 i h h' n p :
  hc_ok x gs O P B g0 → gs !! i = Some (MkHcGhost h n p) →
  h ≠ HFreed → h' ≠ HFreed → (∀ lt w, h ≠ HGlob lt w) → (∀ lt w, h' ≠ HGlob lt w) →
  hc_active h' = hc_active h → (hc_local h' = true → hc_local h = true) →
  (∀ w, hc_waits_on (MkHcGhost h' n p) = Some w → hc_waits_on (MkHcGhost h n p) = Some w) →
  (hc_armed h' = true → hc_armed h = true) → (hc_clean h' = true → hc_clean h = true) →
  (hc_enrolled h' = true → hc_enrolled h = true) → (hc_ready h' = true → hc_ready h = true) →
  (hc_noted h' = true → hc_noted h = true) →
  phase_ok (hv_nodes x) gs O P (end_of (B (co i)) gs (in_glob O (co i))) i (MkHcGhost h' n p) →
  hc_inv x (<[i := MkHcGhost h' n p]> gs).
Proof.
  intros H Hi H1 H2 H3 H4 H5 H6 H7 H8 H9 H10 H11 H12 Hph. exists O, P, B, g0.
  apply (hc_go x x gs O P B g0 i _ h' H Hi); try done.
  - intros _. by apply (ho_thread _ _ _ _ _ _ H i _ Hi).
  - by left.
  - intros Ha. apply (ho_armed _ _ _ _ _ _ H i _ Hi); auto.
  - intros Ha. apply (ho_clean _ _ _ _ _ _ H i _ Hi); auto.
  - intros Ha. apply (ho_enrolled _ _ _ _ _ _ H i _ Hi); auto.
  - intros Ha. apply (ho_ready _ _ _ _ _ _ H i _ Hi); auto.
  - intros Ha. apply (ho_noted _ _ _ _ _ _ H i _ Hi); auto.
Qed.

(** The thread is the first that waits in its cluster, when the node before is no node of a thread, or is marked. *)
Lemma hc_is_first x gs O P B g0 i g :
  hc_ok x gs O P B g0 → gs !! i = Some g → hc_local (hg_phase g) = true →
  hc_previous (hv_nodes x) (hg_pred g) = 0 ∨ hc_splice (hv_nodes x) (hg_pred g) ≠ 0 → ∃ r, P (co i) = i :: r.
Proof.
  intros H Hi Hl Hs. assert (hc_active (hg_phase g) = true) as Ha by (by destruct (hg_phase g)).
  destruct (ho_active _ _ _ _ _ _ H i g Hi Ha) as [HO|HP].
  { destruct (ho_part _ _ _ _ _ _ H i g HO Hi Hl) as [? ?]. by destruct Hs. }
  apply list_elem_of_split in HP as (l & r & E). destruct l as [|j l _] using rev_ind; [by exists r|]. exfalso.
  pose proof (ho_pred _ _ _ _ _ _ H (co i)) as Hp. unfold in_local in Hp. rewrite E, app_assoc in Hp.
  pose proof (linked_at _ _ _ _ _ _ g _ Hp Hi eq_refl) as Ep. rewrite app_assoc, end_of_app in Ep. cbn in Ep.
  assert (j ∈ P (co i)) as Hj by (rewrite E; set_solver).
  destruct (ho_in _ _ _ _ _ _ H (co i) j (or_intror Hj)) as (gj & Hgj & Haj). rewrite (node_of_eq _ _ _ Hgj) in Ep. rewrite Ep in Hs.
  destruct Hs as [Hs|Hs].
  - apply (ho_ready _ _ _ _ _ _ H j gj Hgj); [|done]. unfold hc_ready. by rewrite Haj.
  - apply Hs, (ho_clean _ _ _ _ _ _ H j gj Hgj). right. by rewrite (ho_local_home _ _ _ _ _ _ H _ _ Hj).
Qed.

(** The mark of the node before is 1 when it is set; and it is when the thread has seen that its flag is down but is not in the
    queue of all clusters. *)
Lemma hc_marked x gs O P B g0 i g :
  hc_ok x gs O P B g0 → gs !! i = Some g → hc_local (hg_phase g) = true → hc_previous (hv_nodes x) (hg_pred g) ≠ 0 →
  hc_splice (hv_nodes x) (hg_pred g) ≠ 0 ∨ ((i ∉ O) ∧ hc_wait (hv_nodes x) (hg_pred g) = 0) →
  hc_splice (hv_nodes x) (hg_pred g) = 1.
Proof.
  intros H Hi Hl Hp Hs. assert (hc_active (hg_phase g) = true) as Ha by (by destruct (hg_phase g)).
  assert (∃ r, P (co i) = i :: r) as [r Er].
  { destruct Hs as [Hs|[HO Hw]]; [by eapply hc_is_first; [..|right]|].
    destruct (ho_active _ _ _ _ _ _ H i g Hi Ha) as [?|HP]; [done|].
    apply list_elem_of_split in HP as (l & r & E). destruct l as [|j l _] using rev_ind; [by exists r|]. exfalso.
    pose proof (ho_pred _ _ _ _ _ _ H (co i)) as Hq. unfold in_local in Hq. rewrite E, app_assoc in Hq.
    pose proof (linked_at _ _ _ _ _ _ g _ Hq Hi eq_refl) as Ep. rewrite app_assoc, end_of_app in Ep. cbn in Ep.
    assert (j ∈ P (co i)) as Hj by (rewrite E; set_solver).
    destruct (ho_in _ _ _ _ _ _ H (co i) j (or_intror Hj)) as (gj & Hgj & Haj). rewrite (node_of_eq _ _ _ Hgj) in Ep. rewrite Ep in Hw.
    assert (hc_wait (hv_nodes x) (hg_node gj) = 1); [|congruence]. apply (ho_armed _ _ _ _ _ _ H j gj Hgj). unfold hc_armed. by rewrite Haj. }
  pose proof (hc_first _ _ _ _ _ _ i g r H Hi Er) as Ep.
  destruct (ho_last _ _ _ _ _ _ H (co i)) as [E|[E|(j & gj & w & Hj & Hc & Ej)]]; rewrite <- Ep in *; [done|done|]. exfalso.
  pose proof (ho_phase _ _ _ _ _ _ H j gj Hj) as Hph. unfold phase_ok in Hph. rewrite Ej in Hph. destruct Hph as (HjO & _ & Hs0).
  destruct Hs as [?|[_ Hw]]; [done|].
  destruct (hc_last_cases _ _ _ _ _ _ H (co i)) as [[E2 _]|(k & gk & _ & Hgk & Hak & _ & E2)].
  - assert (j ∈ in_glob O (co i)) as Hin by (by apply in_glob_elem). rewrite E2 in Hin. by apply elem_of_nil in Hin.
  - rewrite <- Ep in E2. rewrite E2 in Hw.
    assert (hc_wait (hv_nodes x) (hg_node gk) = 1); [|congruence]. apply (ho_armed _ _ _ _ _ _ H k gk Hgk). unfold hc_armed. by rewrite Hak.
Qed.
End inv.

(** ** The operations *)

(** A thread that does nothing has a node, whichever. *)
Definition hc_rel (l : option hc_ghost) (g : hc_ghost) : Prop :=
  match l with None => hg_phase g = HOut | Some g' => g = g' end.

(** The invariant of the memory: it has the nodes of the threads and those that the queues start with, and the members
    of the nodes are functions of which the above holds. *)
Record hclh_agrees (x : hclh_lock) (v : hclh_view) : Prop := {
  ha_glob : hl_glob x = hv_glob v;
  ha_local : hl_local x = hv_local v;
  ha_threads : hl_threads x = hv_threads v;
  ha_nodes : mem_agrees (hl_nodes x) (hv_nodes v)
}.
Definition hclh_inv (co : nat → nat) (max : nat) (x : hclh_lock) (ls : list (option hc_ghost)) : Prop :=
  ∃ v gs, hclh_agrees x v ∧ (∀ p, is_node co max p → is_Some (hl_nodes x !! p)) ∧ Forall2 hc_rel ls gs ∧ hc_inv co max v gs.

Section operations.
Context (co : nat → nat) (max : nat) (R : list mark → list (option hc_ghost * bool) → Prop) (Rs : frame_stable R).
Abbreviation hclh_wp := (lock_wp (hclh_inv co max) R).
Abbreviation the_hclh := (the_lock (T := hclh_lock)).
Abbreviation nodes := (the_hclh →' hl_nodes_loc).
Abbreviation is_node := (is_node co max).

(** A step at the words of the lock. *)
Lemma hclh_step n i A (f : memory hclh_lock → outcome (A * memory hclh_lock)) (Q : A → option hc_ghost → Prop) l :
  (∀ gl lo m th tr v gs g, hc_inv co max (MkHclhView gl lo v th) gs → gs !! i = Some g → hc_rel l g →
     ∃ a gl' lo' th' l' g', f (MkHclhLock gl lo m th, tr) = Ret (a, (MkHclhLock gl' lo' m th', tr)) ∧
       hc_inv co max (MkHclhView gl' lo' v th') (<[i := g']> gs) ∧ hc_rel l' g' ∧ Q a l') →
  hclh_wp n (atomic f) i Q l.
Proof using Rs.
  intros H. apply outside_wp_atomic; [done|].
  intros [gl lo m th] tr ls ([gl0 lo0 v th0] & gs & [E1 E2 E3 Hm] & Hd & Hf & HI) Hi. cbn in E1, E2, E3, Hm, Hd. subst gl0 lo0 th0.
  destruct (Forall2_lookup_l _ _ _ _ _ Hf Hi) as (g & Hg & Hr).
  destruct (H gl lo m th tr v gs g HI Hg Hr) as (a & gl' & lo' & th' & l' & g' & E & HI' & Hr' & HQ).
  exists a, (MkHclhLock gl' lo' m th'), l'. split; [done|]. split; [|done].
  exists (MkHclhView gl' lo' v th'), (<[i := g']> gs). split; [by split|]. split; [done|].
  split; [by apply Forall2_insert|done].
Qed.

Lemma hclh_look n i A (h : Z → (nat → Z) → (nat → Z) → A) f (Q : A → option hc_ghost → Prop) g :
  (∀ x tr, f (x, tr) = Ret (h (hl_glob x) (hl_local x) (hl_threads x), (x, tr))) →
  (∀ x gs, hc_inv co max x gs → gs !! i = Some g →
     ∃ g', hc_inv co max x (<[i := g']> gs) ∧ Q (h (hv_glob x) (hv_local x) (hv_threads x)) (Some g')) →
  hclh_wp n (atomic f) i Q (Some g).
Proof using Rs.
  intros Hf H. apply hclh_step. intros gl lo m th tr v gs g0 HI Hi ->. destruct (H _ gs HI Hi) as (g' & HI' & HQ).
  exists (h gl lo th), gl, lo, th, (Some g'), g'. by rewrite Hf.
Qed.

Lemma hclh_look_same n i A (h : Z → (nat → Z) → (nat → Z) → A) f (Q : A → option hc_ghost → Prop) g :
  (∀ x tr, f (x, tr) = Ret (h (hl_glob x) (hl_local x) (hl_threads x), (x, tr))) →
  (∀ x gs, hc_inv co max x gs → gs !! i = Some g → Q (h (hv_glob x) (hv_local x) (hv_threads x)) (Some g)) →
  hclh_wp n (atomic f) i Q (Some g).
Proof using Rs. intros Hf H. apply (hclh_look _ _ _ h); [done|]. intros x gs HI Hi. exists g. rewrite list_insert_id by done. eauto. Qed.

(** A member of a node is read, or written. *)
Lemma hclh_get_any n i m vm `{!MemberView m vm} p (Q : Z → option hc_ghost → Prop) l :
  is_node p →
  (∀ x gs g, hc_inv co max x gs → gs !! i = Some g → hc_rel l g →
     ∃ l' g', hc_inv co max x (<[i := g']> gs) ∧ hc_rel l' g' ∧ Q (loc_get vm (hv_nodes x) p) l') →
  hclh_wp n (get_at nodes m p) i Q l.
Proof using Rs.
  intros Hp H. apply outside_wp_atomic; [done|]. intros x tr ls (v & gs & Ha & Hd & Hf & HI) Hi.
  destruct (Forall2_lookup_l _ _ _ _ _ Hf Hi) as (g & Hg & Hr).
  destruct (H v gs g HI Hg Hr) as (l' & g' & HI' & Hr' & HQ). rewrite <- (mv_get (m := m)) in HQ. eexists _, x, l'. split.
  { cbn. rewrite (agrees_deref (hl_nodes x) (hv_nodes v)); [reflexivity | apply Ha | by eapply is_node_pos | by apply Hd]. }
  split; [|exact HQ]. exists v, (<[i := g']> gs). split; [done|]. split; [done|]. split; [by apply Forall2_insert|done].
Qed.

Lemma hclh_get n i m vm `{!MemberView m vm} p (Q : Z → option hc_ghost → Prop) g :
  is_node p →
  (∀ x gs, hc_inv co max x gs → gs !! i = Some g →
     ∃ g', hc_inv co max x (<[i := g']> gs) ∧ Q (loc_get vm (hv_nodes x) p) (Some g')) →
  hclh_wp n (get_at nodes m p) i Q (Some g).
Proof using Rs.
  intros Hp H. apply (hclh_get_any _ _ _ vm); [done|]. intros x gs g0 HI Hi ->. destruct (H x gs HI Hi) as (g' & HI' & HQ).
  by exists (Some g'), g'.
Qed.

Lemma hclh_get_same n i m vm `{!MemberView m vm} p (Q : Z → option hc_ghost → Prop) g :
  is_node p →
  (∀ x gs, hc_inv co max x gs → gs !! i = Some g → Q (loc_get vm (hv_nodes x) p) (Some g)) →
  hclh_wp n (get_at nodes m p) i Q (Some g).
Proof using Rs.
  intros Hp H. apply (hclh_get _ _ _ vm); [done|]. intros x gs HI Hi. exists g. rewrite list_insert_id by done. eauto.
Qed.

Definition hv_set (vm : loc hclh_members (Z → Z)) (p y : Z) (x : hclh_view) : hclh_view :=
  MkHclhView (hv_glob x) (hv_local x) (loc_set vm (<[p := y]> (loc_get vm (hv_nodes x))) (hv_nodes x)) (hv_threads x).

Lemma hclh_put n i m vm `{!MemberView m vm} p y g g' :
  is_node p →
  (∀ x gs, hc_inv co max x gs → gs !! i = Some g → hc_inv co max (hv_set vm p y x) (<[i := g']> gs)) →
  hclh_wp n (put_at nodes m p y) i (λ _ l, l = Some g') (Some g).
Proof using Rs.
  intros Hp H. apply outside_wp_atomic; [done|]. intros x tr ls (v & gs & Ha & Hd & Hf & HI) Hi.
  destruct (Forall2_lookup_l _ _ _ _ _ Hf Hi) as (g0 & Hg & Hr). cbn in Hr. subst g0. eexists tt, _, (Some g'). split.
  { cbn. rewrite (agrees_deref (hl_nodes x) (hv_nodes v)); [reflexivity | apply Ha | by eapply is_node_pos | by apply Hd]. }
  split; [|done]. destruct Ha as [E1 E2 E3 Hm]. exists (hv_set vm p y v), (<[i := g']> gs).
  split; [by split; [done..|by apply agrees_put]|]. split; [|split; [by apply Forall2_insert|by apply H]].
  intros q Hq. cbn. apply lookup_insert_is_Some'. right. by apply Hd.
Qed.

(** A thread that is not in a queue, or notes the node before its own, writes to its node. *)
Lemma hclh_own n i m vm `{!MemberView m vm} v h h' nd p :
  is_node nd → h ≠ HFreed → h' ≠ HFreed → (∀ lt w, h ≠ HGlob lt w) → (∀ lt w, h' ≠ HGlob lt w) →
  hc_active h' = hc_active h → (hc_local h' = true → hc_local h = true) →
  (∀ w, hc_waits_on (MkHcGhost h' nd p) = Some w → hc_waits_on (MkHcGhost h nd p) = Some w) →
  (∀ x gs O P B g0, hc_ok co max x gs O P B g0 → gs !! i = Some (MkHcGhost h nd p) →
     let y := hv_nodes (hv_set vm nd v x) in
     (∀ q, q ≠ nd → keeps (hv_nodes x) y q ∧ hc_previous y q = hc_previous (hv_nodes x) q) ∧
     (hc_cluster_id y nd = hc_cluster_id (hv_nodes x) nd ∨ hc_cluster_id y nd = Z.of_nat (co i)) ∧
     (hc_active h' = true → keeps (hv_nodes x) y nd) ∧
     (hc_armed h' = true → hc_wait y nd = 1) ∧ (hc_clean h' = true → hc_splice y nd = 0) ∧
     (hc_enrolled h' = true → hc_cluster_id y nd = Z.of_nat (co i)) ∧ (hc_ready h' = true → hc_previous y nd ≠ 0) ∧
     (hc_noted h' = true → hc_previous y nd = p) ∧
     phase_ok co max y gs O P (end_of (B (co i)) gs (in_glob co O (co i))) i (MkHcGhost h' nd p)) →
  hclh_wp n (put_at nodes m nd v) i (λ _ l, l = Some (MkHcGhost h' nd p)) (Some (MkHcGhost h nd p)).
Proof using Rs.
  intros Hn H1 H2 H3 H4 H5 H6 H7 H. apply (hclh_put _ _ _ vm); [done|]. intros x gs (O & P & B & g0 & HO) Hi.
  destruct (H x gs O P B g0 HO Hi) as (A1 & A2 & A3 & A4 & A5 & A6 & A7 & A8 & A9). exists O, P, B, g0.
  apply (hc_go co max x _ gs O P B g0 i _ h' HO Hi); try done.
  intros _. by apply (ho_thread _ _ _ _ _ _ _ _ HO i _ Hi).
Qed.

Ltac store_simpl :=
  unfold hv_set, keeps;
  cbn [hv_nodes loc_get loc_set hc_wait_loc hc_splice_loc hc_cluster_id_loc hc_previous_loc hc_wait hc_splice hc_cluster_id hc_previous].
Ltac elsewhere := let q := fresh in let Hq := fresh in
  intros q Hq; store_simpl; rewrite ?fn_lookup_insert_ne by (exact (not_eq_sym Hq)); done.

(** *** Getting ready *)

Lemma hclh_arm_wp n i nd p :
  is_node nd → hclh_wp n (put_at nodes wait nd 1) i (λ _ l, l = Some (MkHcGhost HArm nd p)) (Some (MkHcGhost HOut nd p)).
Proof using Rs.
  intros Hn. apply (hclh_own _ _ _ hc_wait_loc); try done. intros x gs O P B g0 HO Hi y. split_and!; try done.
  - subst y. elsewhere.
  - by left.
  - intros _. subst y. store_simpl. by rewrite fn_lookup_insert.
Qed.

Lemma hclh_clean_wp n i nd p :
  is_node nd → hclh_wp n (put_at nodes splice nd 0) i (λ _ l, l = Some (MkHcGhost HClean nd p)) (Some (MkHcGhost HArm nd p)).
Proof using Rs.
  intros Hn. apply (hclh_own _ _ _ hc_splice_loc); try done. intros x gs O P B g0 HO Hi y. split_and!; try done.
  - subst y. elsewhere.
  - by left.
  - intros _. by apply (ho_armed _ _ _ _ _ _ _ _ HO i _ Hi).
  - intros _. subst y. store_simpl. by rewrite fn_lookup_insert.
Qed.

Lemma hclh_seen_wp n i nd p :
  hclh_wp n (ck_pr_load (the_hclh →' hl_local_loc (co i))) i
    (λ v l, is_node v ∧ l = Some (MkHcGhost (HSeen v) nd p)) (Some (MkHcGhost HClean nd p)).
Proof using Rs.
  apply (hclh_look _ _ _ (λ _ lo _, lo (co i))); [done|]. intros x gs HI Hi. destruct (hc_local_end co max x gs (co i) HI) as [Hh Hc].
  pose proof (hc_local_node co max x gs i _ HI Hi) as Hn.
  exists (MkHcGhost (HSeen (hv_local x (co i))) nd p). split; [|by split].
  destruct HI as (O & P & B & g0 & HO). by apply (hc_learn co max x gs O P B g0 i _ _ nd p HO Hi).
Qed.

Lemma hclh_cluster_wp n i v nd p :
  is_node v → hclh_wp n (get_at nodes cluster_id v) i
    (λ c l, c = Z.of_nat (co i) ∧ l = Some (MkHcGhost (HSeen v) nd p)) (Some (MkHcGhost (HSeen v) nd p)).
Proof using Rs.
  intros Hv. apply (hclh_get_same _ _ _ hc_cluster_id_loc); [done|]. intros x gs (O & P & B & g0 & HO) Hi.
  by destruct (ho_phase _ _ _ _ _ _ _ _ HO i _ Hi) as [_ E].
Qed.

Lemma hclh_enroll_wp n i v nd p :
  is_node nd → hclh_wp n (put_at nodes cluster_id nd (Z.of_nat (co i))) i
    (λ _ l, l = Some (MkHcGhost HEnrolled nd p)) (Some (MkHcGhost (HSeen v) nd p)).
Proof using Rs.
  intros Hn. apply (hclh_own _ _ _ hc_cluster_id_loc); try done. intros x gs O P B g0 HO Hi y. split_and!; try done.
  - subst y. elsewhere.
  - right. subst y. store_simpl. by rewrite fn_lookup_insert.
  - intros _. by apply (ho_armed _ _ _ _ _ _ _ _ HO i _ Hi).
  - intros _. apply (ho_clean _ _ _ _ _ _ _ _ HO i _ Hi). by left.
  - intros _. subst y. store_simpl. by rewrite fn_lookup_insert.
Qed.

Lemma hclh_end_wp n i g :
  hclh_wp n (ck_pr_load (the_hclh →' hl_local_loc (co i))) i (λ v l, is_node v ∧ l = Some g) (Some g).
Proof using Rs.
  apply (hclh_look_same _ _ _ (λ _ lo _, lo (co i))); [done|]. intros x gs HI Hi. split; [|done].
  by apply (hc_local_node co max x gs i g).
Qed.

Lemma hclh_ready_wp n i v nd p :
  is_node nd → is_node v → hclh_wp n (put_at nodes previous nd v) i
    (λ _ l, l = Some (MkHcGhost HReady nd p)) (Some (MkHcGhost HEnrolled nd p)).
Proof using Rs.
  intros Hn Hv. pose proof (is_node_pos _ _ _ Hv). apply (hclh_own _ _ _ hc_previous_loc); try done. intros x gs O P B g0 HO Hi y. split_and!; try done.
  - subst y. elsewhere.
  - by left.
  - intros _. by apply (ho_armed _ _ _ _ _ _ _ _ HO i _ Hi).
  - intros _. apply (ho_clean _ _ _ _ _ _ _ _ HO i _ Hi). by left.
  - intros _. by apply (ho_enrolled _ _ _ _ _ _ _ _ HO i _ Hi).
  - intros _. subst y. store_simpl. by rewrite fn_lookup_insert.
Qed.

(** *** Joining the queue of the cluster *)

Lemma hclh_join_wp n i nd p0 :
  hclh_wp n (ck_pr_fas (the_hclh →' hl_local_loc (co i)) nd) i
    (λ p l, is_node p ∧ l = Some (MkHcGhost HJoin nd p)) (Some (MkHcGhost HReady nd p0)).
Proof using Rs.
  apply hclh_step. intros gl lo m th tr v gs g HI Hi ->. pose proof (hc_local_node co max _ gs i _ HI Hi) as Hn.
  destruct HI as (O & P & B & g0 & HO).
  exists (lo (co i)), gl, (<[co i := nd]> lo), th, (Some (MkHcGhost HJoin nd (lo (co i)))), (MkHcGhost HJoin nd (lo (co i))).
  split; [done|]. split; [do 4 eexists; by apply (hc_join co max _ gs O P B g0 i nd p0 HO)|]. by split.
Qed.

Lemma hclh_note_wp n i nd p :
  is_node nd → is_node p → hclh_wp n (put_at nodes previous nd p) i
    (λ _ l, l = Some (MkHcGhost HLocal nd p)) (Some (MkHcGhost HJoin nd p)).
Proof using Rs.
  intros Hn Hp. pose proof (is_node_pos _ _ _ Hp). apply (hclh_own _ _ _ hc_previous_loc); try done. intros x gs O P B g0 HO Hi y.
  pose proof (ho_ready _ _ _ _ _ _ _ _ HO i _ Hi eq_refl) as Hr. cbn in Hr. split_and!; try done.
  - subst y. elsewhere.
  - by left.
  - intros _. subst y. store_simpl. rewrite fn_lookup_insert. by split_and!.
  - intros _. by apply (ho_armed _ _ _ _ _ _ _ _ HO i _ Hi).
  - intros _. by apply (ho_enrolled _ _ _ _ _ _ _ _ HO i _ Hi).
  - intros _. subst y. store_simpl. by rewrite fn_lookup_insert.
  - intros _. subst y. store_simpl. by rewrite fn_lookup_insert.
Qed.

Lemma hclh_first_wp n i nd p :
  is_node p → hclh_wp n (get_at nodes previous p) i
    (λ v l, l = Some (MkHcGhost (if v =? 0 then HFirst false else HChecked) nd p)) (Some (MkHcGhost HLocal nd p)).
Proof using Rs.
  intros Hp. apply (hclh_get _ _ _ hc_previous_loc); [done|]. intros x gs (O & P & B & g0 & HO) Hi. cbn.
  exists (MkHcGhost (if hc_previous (hv_nodes x) p =? 0 then HFirst false else HChecked) nd p). split; [|done].
  destruct (Z.eqb_spec (hc_previous (hv_nodes x) p) 0) as [E|E].
  - apply (hc_learn co max x gs O P B g0 i HLocal _ nd p HO Hi); try done. split; [|done].
    apply (hc_is_first co max x gs O P B g0 i _ HO Hi eq_refl). by left.
  - by apply (hc_learn co max x gs O P B g0 i HLocal _ nd p HO Hi).
Qed.

(** *** Waiting in it *)

(** The two nodes are of one cluster. *)
Lemma hclh_same_wp n i h nd p {A} (t1 t2 : prog (memory hclh_lock) A) (Q : A → option hc_ghost → Prop) :
  is_node nd → is_node p → hc_active h = true →
  hclh_wp n t1 i Q (Some (MkHcGhost h nd p)) →
  hclh_wp n (c ← get_at nodes cluster_id p; c' ← get_at nodes cluster_id nd;
             if c =? c' then t1 else t2) i Q (Some (MkHcGhost h nd p)).
Proof using Rs.
  intros Hn Hp Ha H. apply outside_wp_bind. apply (hclh_get_same _ _ _ hc_cluster_id_loc); [done|]. intros x gs HI Hi.
  destruct (hc_pred_known co max x gs i _ HI Hi Ha) as (_ & E & _).
  change (loc_get hc_cluster_id_loc (hv_nodes x) p = Z.of_nat (co i)) in E. rewrite E. clear x gs HI Hi E.
  apply outside_wp_bind. apply (hclh_get_same _ _ _ hc_cluster_id_loc); [done|]. intros x gs (O & P & B & g0 & HO) Hi.
  pose proof (ho_enrolled _ _ _ _ _ _ _ _ HO i _ Hi) as E.
  change (hc_enrolled h = true → loc_get hc_cluster_id_loc (hv_nodes x) nd = Z.of_nat (co i)) in E. rewrite E, Z.eqb_refl; [exact H|].
  unfold hc_enrolled, hc_ready. by rewrite Ha.
Qed.

(** The flag of the node before. *)
Lemma hclh_flag_wp n i nd p :
  is_node p → hclh_wp n (get_at nodes wait p) i
    (λ w l, l = Some (MkHcGhost (if w =? 1 then HChecked else HFree) nd p)) (Some (MkHcGhost HChecked nd p)).
Proof using Rs.
  intros Hp. apply (hclh_get _ _ _ hc_wait_loc); [done|]. intros x gs HI Hi. cbn.
  exists (MkHcGhost (if hc_wait (hv_nodes x) p =? 1 then HChecked else HFree) nd p). split; [|done].
  destruct (hc_pred_known co max x gs i _ HI Hi eq_refl) as (_ & _ & Hw). cbn in Hw.
  destruct (Z.eqb_spec (hc_wait (hv_nodes x) p) 1) as [E|E]; [by rewrite list_insert_id|].
  destruct HI as (O & P & B & g0 & HO). apply (hc_learn co max x gs O P B g0 i HChecked _ nd p HO Hi); try done.
  split; [by apply (ho_phase _ _ _ _ _ _ _ _ HO i _ Hi)|]. cbn. by destruct Hw.
Qed.

(** Its mark: the thread goes on waiting, or is the first that waits. *)
Lemma hclh_unmarked_wp n i nd p :
  is_node p → hclh_wp n (get_at nodes splice p) i
    (λ s l, l = Some (MkHcGhost (if s =? 0 then HChecked else HFirst true) nd p)) (Some (MkHcGhost HChecked nd p)).
Proof using Rs.
  intros Hp. apply (hclh_get _ _ _ hc_splice_loc); [done|]. intros x gs (O & P & B & g0 & HO) Hi. cbn.
  exists (MkHcGhost (if hc_splice (hv_nodes x) p =? 0 then HChecked else HFirst true) nd p). split; [|done].
  destruct (Z.eqb_spec (hc_splice (hv_nodes x) p) 0) as [E|E]; [rewrite list_insert_id by done; by do 4 eexists|].
  pose proof (ho_phase _ _ _ _ _ _ _ _ HO i _ Hi) as Hprev. cbn in Hprev.
  apply (hc_learn co max x gs O P B g0 i HChecked _ nd p HO Hi); try done. split.
  - apply (hc_is_first co max x gs O P B g0 i _ HO Hi eq_refl). by right.
  - apply (hc_marked co max x gs O P B g0 i _ HO Hi eq_refl Hprev). by left.
Qed.

(** Once it has seen the flag down: it has the lock, or is the first that waits. *)
Lemma hclh_taken_wp n i nd p h :
  is_node p → h = HFree ∨ h = HFirst true →
  hclh_wp n (s ← get_at nodes splice p; mret (s =? 0)) i
    (λ b l, l = Some (MkHcGhost (if (b : bool) then HHold else HFirst true) nd p)) (Some (MkHcGhost h nd p)).
Proof using Rs.
  intros Hp Hh. apply outside_wp_bind. apply (hclh_get _ _ _ hc_splice_loc); [done|]. intros x gs (O & P & B & g0 & HO) Hi. cbn.
  exists (MkHcGhost (if hc_splice (hv_nodes x) p =? 0 then HHold else HFirst true) nd p).
  split; [|apply outside_wp_ret; by destruct (_ =? 0)].
  pose proof (ho_phase _ _ _ _ _ _ _ _ HO i _ Hi) as Hph. destruct Hh as [->| ->].
  - destruct Hph as [Hprev Hw]. cbn in Hprev, Hw. destruct (Z.eqb_spec (hc_splice (hv_nodes x) p) 0) as [E|E].
    + apply (hc_learn co max x gs O P B g0 i HFree _ nd p HO Hi); try done. cbn.
      destruct (decide (i ∈ O)) as [HiO|HiO].
      * destruct (hc_waits_known co max x gs O P B g0 i _ p HO Hi HiO eq_refl) as [_ [Hw1|?]]; [congruence|done].
      * pose proof (hc_marked co max x gs O P B g0 i _ HO Hi eq_refl Hprev (or_intror (conj HiO Hw))) as E1. cbn in E1. congruence.
    + apply (hc_learn co max x gs O P B g0 i HFree _ nd p HO Hi); try done. split.
      * apply (hc_is_first co max x gs O P B g0 i _ HO Hi eq_refl). by right.
      * apply (hc_marked co max x gs O P B g0 i _ HO Hi eq_refl Hprev). by left.
  - destruct Hph as [Hf E]. cbn in E. rewrite E. cbn. rewrite list_insert_id by done. by do 4 eexists.
Qed.

Lemma hclh_wait_local_wp n i nd p :
  is_node nd → is_node p →
  hclh_wp n (hclh_wait_local nodes nd p) i
    (λ b l, l = Some (MkHcGhost (if (b : bool) then HHold else HFirst true) nd p)) (Some (MkHcGhost HChecked nd p)).
Proof using Rs.
  intros Hn Hp. apply outside_wp_bind. eapply outside_wp_mono.
  { apply (outside_wp_while _ _ _ _ _ _ (λ l, l = Some (MkHcGhost HChecked nd p)) _
      (λ _ l, ∃ h, (h = HFree ∨ h = HFirst true) ∧ l = Some (MkHcGhost h nd p))); [done|]. intros m l ->.
    apply outside_wp_bind. eapply outside_wp_mono; [by apply hclh_flag_wp|]. intros w l ->.
    destruct (w =? 1); cbn [negb]; [|apply outside_wp_ret; exists HFree; auto].
    apply outside_wp_bind. apply (hclh_get_same _ _ _ hc_cluster_id_loc); [done|]. intros x gs HI Hi.
    destruct (hc_pred_known co max x gs i _ HI Hi eq_refl) as (_ & E & _).
    change (loc_get hc_cluster_id_loc (hv_nodes x) p = Z.of_nat (co i)) in E. rewrite E. clear x gs HI Hi E.
    apply outside_wp_bind. apply (hclh_get_same _ _ _ hc_cluster_id_loc); [done|]. intros x gs (O & P & B & g0 & HO) Hi.
    pose proof (ho_enrolled _ _ _ _ _ _ _ _ HO i _ Hi eq_refl) as E.
    change (loc_get hc_cluster_id_loc (hv_nodes x) nd = Z.of_nat (co i)) in E. rewrite E, Z.eqb_refl. cbn [negb]. clear - Rs Hn Hp.
    apply outside_wp_bind. eapply outside_wp_mono; [by apply hclh_unmarked_wp|]. intros s l ->. apply outside_wp_ret.
    destruct (s =? 0); [by apply outside_wp_stall|]. exists (HFirst true). auto. }
  intros _ l (h & Hh & ->). apply hclh_same_wp; [done|done|by destruct Hh as [->| ->]|]. by apply hclh_taken_wp.
Qed.

(** *** Joining the queue of all clusters *)

Lemma hclh_tail_wp n i b nd p :
  hclh_wp n (ck_pr_load (the_hclh →' hl_local_loc (co i))) i
    (λ lt l, is_node lt ∧ l = Some (MkHcGhost (HLoaded lt) nd p)) (Some (MkHcGhost (HFirst b) nd p)).
Proof using Rs.
  apply (hclh_look _ _ _ (λ _ lo _, lo (co i))); [done|]. intros x gs HI Hi. destruct (hc_local_end co max x gs (co i) HI) as [Hh _].
  pose proof (hc_local_node co max x gs i _ HI Hi) as Hn.
  exists (MkHcGhost (HLoaded (hv_local x (co i))) nd p). split; [|by split].
  destruct HI as (O & P & B & g0 & HO). pose proof (ho_phase _ _ _ _ _ _ _ _ HO i _ Hi) as ([r Er] & Hb). cbn in Hb.
  apply (hc_learn co max x gs O P B g0 i (HFirst b) _ nd p HO Hi); try done. split; [by exists r|]. split; [|destruct b; auto].
  rewrite (ho_local_end _ _ _ _ _ _ _ _ HO (co i)). unfold in_local. rewrite end_of_app.
  destruct (end_of_cases (end_of (B (co i)) gs (in_glob co O (co i))) gs (P (co i))) as [[E _]|(l & k & E & ->)]; [congruence|].
  exists k. split; [|done]. rewrite E. set_solver.
Qed.

Lemma hclh_put_wp n i lt nd p :
  hclh_wp n (ck_pr_fas (the_hclh →' hl_glob_loc) lt) i
    (λ w l, is_node w ∧ l = Some (MkHcGhost (HGlob lt w) nd p)) (Some (MkHcGhost (HLoaded lt) nd p)).
Proof using Rs.
  apply hclh_step. intros gl lo m th tr v gs g HI Hi ->. pose proof (hc_glob_end co max _ gs HI) as Hg. cbn in Hg.
  destruct HI as (O & P & B & g0 & HO). destruct (hc_put co max _ gs O P B g0 i nd p lt HO Hi) as (O' & P' & HO').
  exists gl, lt, lo, th, (Some (MkHcGhost (HGlob lt gl) nd p)), (MkHcGhost (HGlob lt gl) nd p).
  split; [done|]. split; [by do 4 eexists|]. by split.
Qed.

Lemma hclh_mark_wp n i lt w nd p :
  is_node lt → hclh_wp n (put_at nodes splice lt 1) i
    (λ _ l, l = Some (MkHcGhost (HWait w) nd p)) (Some (MkHcGhost (HGlob lt w) nd p)).
Proof using Rs.
  intros Hlt. apply (hclh_put _ _ _ hc_splice_loc); [done|]. intros x gs (O & P & B & g0 & HO) Hi. exists O, P, B, g0.
  by apply (hc_mark co max x gs O P B g0 i nd p lt w).
Qed.

Lemma hclh_turn_wp n i w nd p :
  is_node w → hclh_wp n (get_at nodes wait w) i
    (λ v l, l = Some (MkHcGhost (if v =? 1 then HWait w else HHold) nd p)) (Some (MkHcGhost (HWait w) nd p)).
Proof using Rs.
  intros Hw. apply (hclh_get _ _ _ hc_wait_loc); [done|]. intros x gs (O & P & B & g0 & HO) Hi. cbn.
  exists (MkHcGhost (if hc_wait (hv_nodes x) w =? 1 then HWait w else HHold) nd p). split; [|done].
  pose proof (ho_phase _ _ _ _ _ _ _ _ HO i _ Hi) as HiO. cbn in HiO.
  destruct (Z.eqb_spec (hc_wait (hv_nodes x) w) 1) as [E|E]; [rewrite list_insert_id by done; by do 4 eexists|].
  apply (hc_learn co max x gs O P B g0 i (HWait w) _ nd p HO Hi); try done. cbn.
  by destruct (hc_waits_known co max x gs O P B g0 i _ w HO Hi HiO eq_refl) as [_ [?|?]].
Qed.

Lemma hclh_splice_local_wp n i b nd p :
  hclh_wp n (hclh_splice_local nodes (the_hclh →' hl_glob_loc) (the_hclh →' hl_local_loc (co i))) i
    (λ _ l, l = Some (MkHcGhost HHold nd p)) (Some (MkHcGhost (HFirst b) nd p)).
Proof using Rs.
  apply outside_wp_bind. eapply outside_wp_mono; [apply hclh_tail_wp|]. intros lt l [Hlt ->].
  apply outside_wp_bind. eapply outside_wp_mono; [apply hclh_put_wp|]. intros w l [Hw ->].
  apply outside_wp_bind. eapply outside_wp_mono; [by apply hclh_mark_wp|]. intros _ l ->.
  apply (outside_wp_while _ _ _ _ _ _ (λ l, l = Some (MkHcGhost (HWait w) nd p))); [done|]. intros m l ->.
  apply outside_wp_bind. eapply outside_wp_mono; [by apply hclh_turn_wp|]. intros v l ->. apply outside_wp_ret.
  by destruct (v =? 1); [apply outside_wp_stall|].
Qed.

(** *** The functions *)

Definition hclh_holds (l : option hc_ghost) : Prop := ∃ nd p, is_node nd ∧ is_node p ∧ l = Some (MkHcGhost HHold nd p).

Lemma hclh_lock_wp n i :
  hclh_wp n (thread ← ck_pr_load (the_hclh →' hl_thread_loc i);
             ck_spinlock_hclh_lock nodes (the_hclh →' hl_glob_loc) (the_hclh →' hl_local_loc (co i)) thread) i
    (λ _, hclh_holds) None.
Proof using Rs.
  apply outside_wp_bind. apply hclh_step. intros gl lo m th tr x gs [h nd p0] HI Hi Hr. cbn in Hr. subst h.
  pose proof (hc_own_node co max _ gs i _ HI Hi) as Hn. cbn in Hn.
  exists nd, gl, lo, th, (Some (MkHcGhost HOut nd p0)), (MkHcGhost HOut nd p0). split.
  { destruct HI as (O & P & B & g0 & HO). cbn. f_equal. f_equal. by apply (ho_thread _ _ _ _ _ _ _ _ HO i _ Hi). }
  rewrite list_insert_id by done. split; [done|]. split; [done|]. clear gl lo m th tr x gs HI Hi.
  apply outside_wp_bind. eapply outside_wp_mono; [by apply hclh_arm_wp|]. intros _ l ->.
  apply outside_wp_bind. eapply outside_wp_mono; [by apply hclh_clean_wp|]. intros _ l ->.
  apply outside_wp_bind. eapply outside_wp_mono; [apply hclh_seen_wp|]. intros v l [Hv ->].
  apply outside_wp_bind. eapply outside_wp_mono; [by apply hclh_cluster_wp|]. intros c l [-> ->].
  apply outside_wp_bind. eapply outside_wp_mono; [by apply hclh_enroll_wp|]. intros _ l ->.
  apply outside_wp_bind. eapply outside_wp_mono; [apply hclh_end_wp|]. intros v' l [Hv' ->].
  apply outside_wp_bind. eapply outside_wp_mono; [by apply hclh_ready_wp|]. intros _ l ->.
  apply outside_wp_bind. eapply outside_wp_mono; [apply hclh_join_wp|]. intros p l [Hp ->].
  apply outside_wp_bind. eapply outside_wp_mono; [by apply hclh_note_wp|]. intros _ l ->.
  apply outside_wp_bind. eapply outside_wp_mono; [by apply hclh_first_wp|]. intros q l ->.
  destruct (q =? 0); cbn [negb].
  - eapply outside_wp_mono; [apply hclh_splice_local_wp|]. intros _ l ->. by exists nd, p.
  - apply outside_wp_bind. eapply outside_wp_mono; [by apply hclh_wait_local_wp|]. intros [] l ->.
    + apply outside_wp_ret. by exists nd, p.
    + eapply outside_wp_mono; [apply hclh_splice_local_wp|]. intros _ l ->. by exists nd, p.
Qed.

(** The variable of a thread that has the lock. *)
Lemma hclh_var_wp n i nd p :
  hclh_wp n (ck_pr_load (the_hclh →' hl_thread_loc i)) i (λ v l, v = nd ∧ l = Some (MkHcGhost HHold nd p)) (Some (MkHcGhost HHold nd p)).
Proof using Rs.
  apply (hclh_look_same _ _ _ (λ _ _ th, th i)); [done|]. intros x gs (O & P & B & g0 & HO) Hi. split; [|done].
  by apply (ho_thread _ _ _ _ _ _ _ _ HO i _ Hi).
Qed.

Lemma hclh_unlock_wp n i l :
  hclh_holds l → hclh_wp n (ck_spinlock_hclh_unlock nodes (the_hclh →' hl_thread_loc i)) i (λ _ l, l = None) l.
Proof using Rs.
  intros (nd & p & Hn & Hp & ->).
  apply outside_wp_bind. eapply outside_wp_mono; [apply hclh_var_wp|]. intros v l' [-> ->].
  apply outside_wp_bind. apply (hclh_get_same _ _ _ hc_previous_loc); [done|]. intros x gs (O & P & B & g0 & HO) Hi.
  pose proof (ho_noted _ _ _ _ _ _ _ _ HO i _ Hi eq_refl) as E.
  change (loc_get hc_previous_loc (hv_nodes x) nd = p) in E. rewrite E. clear x gs O P B g0 HO Hi E.
  apply outside_wp_bind. eapply outside_wp_mono; [apply hclh_var_wp|]. intros v l' [-> ->].
  apply outside_wp_bind. eapply outside_wp_mono.
  { apply (hclh_put _ _ _ hc_wait_loc _ _ _ (MkHcGhost HFreed p p)); [done|]. intros x gs (O & P & B & g0 & HO) Hi.
    destruct (hc_free co max x gs O P B g0 i nd p HO Hi) as (O' & B' & HO'). by exists O', P, B', nd. }
  intros _ l' ->. apply hclh_step. intros gl lo m th tr v gs g (O & P & B & g0 & HO) Hi ->.
  exists tt, gl, lo, (<[i := p]> th), None, (MkHcGhost HOut p p).
  split; [done|]. split; [|done]. exists O, P, B, g0.
  apply (hc_go co max _ _ gs O P B g0 i _ HOut HO Hi); try done.
  - intros j Hj. cbn [hv_threads]. by rewrite fn_lookup_insert_ne.
  - intros _. cbn [hv_threads]. by rewrite fn_lookup_insert.
  - by left.
Qed.

Lemma hclh_locked_wp n i :
  hclh_wp n (ck_spinlock_hclh_locked nodes (the_hclh →' hl_glob_loc)) i (λ _ l, l = None) None.
Proof using Rs.
  apply outside_wp_bind. apply hclh_step. intros gl lo m th tr v gs g HI Hi Hr. exists gl, gl, lo, th, None, g.
  rewrite list_insert_id by done. split; [done|]. split; [done|]. split; [done|].
  pose proof (hc_glob_end co max _ gs HI) as Hg. cbn in Hg. clear lo m th tr v gs g HI Hi Hr.
  apply outside_wp_bind. apply (hclh_get_any _ _ _ hc_wait_loc); [done|]. intros x gs g HI Hi Hr. exists None, g.
  rewrite list_insert_id by done. split; [done|]. split; [done|]. by apply outside_wp_ret.
Qed.
End operations.

(** ** The laws *)

(** The members that the first memory has, whatever they are where it has no node. *)
Definition hclh_members_first (ns : list ck_spinlock_hclh) : hclh_members :=
  let f (m : ck_spinlock_hclh → Z) (p : Z) := default 0 (m <$> ns !! Z.to_nat (p - 1)) in
  MkHclhMembers (λ p, if p <? 0 then 0 else f hn_wait p) (λ p, if p <? 0 then 0 else f hn_splice p)
    (λ p, if p <? 0 then (if p =? glob_unowned then 0 else - p - 2) else f hn_cluster_id p)
    (λ p, if p <? 0 then 0 else f hn_previous p).

Lemma foldr_insert_lookup {A B} (f : A → Z) (g : A → B) (cs : list A) (m : gmap Z B) p n :
  foldr (λ c, <[f c := g c]>) m cs !! p = Some n → (∃ c, p = f c ∧ n = g c) ∨ m !! p = Some n.
Proof.
  induction cs as [|c cs IH]; cbn; [by right|]. intros [[<- <-]|[_ Hp]]%lookup_insert_Some; [left; by exists c|auto].
Qed.

Lemma foldr_insert_is_Some {A B} (f : A → Z) (g : A → B) (cs : list A) (m : gmap Z B) p :
  (∃ c, c ∈ cs ∧ p = f c) ∨ is_Some (m !! p) → is_Some (foldr (λ c, <[f c := g c]>) m cs !! p).
Proof.
  induction cs as [|c cs IH]; cbn; intros H.
  - by destruct H as [(c & ?%elem_of_nil & _)|?].
  - apply lookup_insert_is_Some'. destruct H as [(c' & [->|Hc]%elem_of_cons & ->)|?]; [by left|right; apply IH; left; by exists c'|right; auto].
Qed.

Lemma hclh_first_agrees clusters ns :
  hclh_agrees (hclh_first clusters ns) (MkHclhView glob_unowned local_unowned (hclh_members_first ns) own_node).
Proof.
  split; [done..|]. intros p n Hp. unfold node_at, hclh_members_of. cbn in Hp |- *.
  apply foldr_insert_lookup in Hp as [(c & -> & ->)|[[<- <-]|[_ Hp]]%lookup_insert_Some]; [|done|].
  - unfold local_unowned, glob_unowned. rewrite (proj2 (Z.ltb_lt _ _)), (proj2 (Z.eqb_neq _ _)) by lia. f_equal. lia.
  - apply lookup_map_seqZ_Some in Hp as [Hp E]. rewrite (proj2 (Z.ltb_ge _ _)), E by lia. by destruct n.
Qed.

(** It has the nodes that the threads reach. *)
Lemma hclh_first_there co clusters ns p :
  (∀ i, (i < length ns)%nat → (co i < clusters)%nat) → is_node co (length ns) p →
  is_Some (hl_nodes (hclh_first clusters ns) !! p).
Proof.
  intros Hco Hp. apply foldr_insert_is_Some. destruct Hp as [->|(i & Hi & [->| ->])].
  - right. apply lookup_insert_is_Some'. by left.
  - right. apply lookup_insert_is_Some'. right. apply lookup_map_seqZ_is_Some. unfold own_node. lia.
  - left. exists (co i). split; [|done]. apply elem_of_seq. specialize (Hco i Hi). lia.
Qed.

Lemma hc_inv_first co max n ns :
  (n ≤ max)%nat →
  hc_inv co max (MkHclhView glob_unowned local_unowned (hclh_members_first ns) own_node)
    ((λ i, MkHcGhost HOut (own_node i) 0) <$> seq 0 n).
Proof.
  intros Hmax.
  assert (∀ i g, ((λ i, MkHcGhost HOut (own_node i) 0) <$> seq 0 n) !! i = Some g → (i < n)%nat ∧ g = MkHcGhost HOut (own_node i) 0) as Hgs.
  { intros i g Hg. rewrite list_lookup_fmap in Hg. destruct (seq 0 n !! i) as [k|] eqn:E; [|done]. apply lookup_seq in E as [-> ?].
    by injection Hg as <-. }
  assert (∀ c, local_unowned c < 0 ∧ local_unowned c ≠ glob_unowned) as Hneg by (intros c; unfold local_unowned, glob_unowned; lia).
  exists [], (λ _, []), local_unowned, glob_unowned. split; cbn [hclh_members_first hv_nodes hv_glob hv_local hv_threads hc_wait hc_splice hc_cluster_id hc_previous].
  - apply NoDup_nil_2.
  - intros c. apply NoDup_nil_2.
  - by intros c i ?%elem_of_nil.
  - by intros c i ?%elem_of_nil.
  - by intros c i [?%elem_of_nil|?%elem_of_nil].
  - by intros i g [_ ->]%Hgs.
  - intros i g [Hi ->]%Hgs. cbn. unfold home, own_node, glob_unowned.
    rewrite (proj2 (Z.eqb_neq _ _)), (proj2 (Z.eqb_neq _ _)), (proj2 (Z.ltb_ge _ _)), (proj2 (Z.leb_le _ _)) by lia. do 2 f_equal. lia.
  - intros i j g g' [_ ->]%Hgs [_ ->]%Hgs. cbn. apply own_node_inj.
  - intros c. destruct (Hneg c). unfold home. rewrite (proj2 (Z.eqb_neq _ 0)), (proj2 (Z.eqb_neq _ glob_unowned)), (proj2 (Z.ltb_lt _ _)) by lia.
    f_equal. unfold local_unowned. lia.
  - intros i g [_ ->]%Hgs. cbn. unfold own_node, local_unowned. lia.
  - by left.
  - intros c. by rewrite (proj2 (Z.ltb_lt _ _)) by apply Hneg.
  - done.
  - intros c. destruct (Hneg c). rewrite (proj2 (Z.ltb_lt _ _)), (proj2 (Z.eqb_neq _ _)) by done. unfold local_unowned. lia.
  - by intros i g [_ ->]%Hgs.
  - intros i g [_ ->]%Hgs [?|?%elem_of_nil]; done.
  - by intros i g [_ ->]%Hgs.
  - by intros i g [_ ->]%Hgs.
  - by intros i g [_ ->]%Hgs.
  - done.
  - done.
  - done.
  - done.
  - by intros i g ?%elem_of_nil.
  - intros c. right; left. cbn. by rewrite (proj2 (Z.ltb_lt _ _)) by apply Hneg.
  - by intros i j g g' lt lt' w w' [_ ->]%Hgs.
  - by intros i g [_ ->]%Hgs.
  - by intros i g [_ ->]%Hgs.
  - intros i g [Hi _]%Hgs. lia.
Qed.

Lemma hclh_inv_init co clusters ns n :
  (∀ i, (i < length ns)%nat → (co i < clusters)%nat) → (n ≤ length ns)%nat →
  hclh_inv co (length ns) (hclh_first clusters ns) (replicate n None).
Proof.
  intros Hco Hn. eexists _, _. split; [apply hclh_first_agrees|]. split; [intros p; by apply hclh_first_there|].
  split; [|by apply hc_inv_first]. apply Forall2_same_length_lookup.
  split; [by rewrite length_replicate, length_fmap, length_seq|]. intros i l g [-> _]%lookup_replicate Hg.
  rewrite list_lookup_fmap in Hg. destruct (seq 0 n !! i); [|done]. by injection Hg as <-.
Qed.

(** With a node for each of the threads, and their clusters among those that have a queue. *)
Definition hclh_laws co clusters ns (there : ∀ i, (i < length ns)%nat → (co i < clusters)%nat) :
  @SpinlockLaws hclh_lock (hclh_spinlock co clusters ns) (length ns).
Proof.
  refine {| ghost := option hc_ghost; idle := None; holds := hclh_holds co (length ns); lock_inv := hclh_inv co (length ns) |}.
  - intros n. by apply hclh_inv_init.
  - intros x ls i j l l' (v & gs & _ & _ & Hf & O & P & B & g0 & HO) Hi Hj (n & p & _ & _ & ->) (n' & p' & _ & _ & ->).
    destruct (Forall2_lookup_l _ _ _ _ _ Hf Hi) as (g & Hg & ->), (Forall2_lookup_l _ _ _ _ _ Hf Hj) as (g' & Hg' & ->).
    destruct (ho_phase _ _ _ _ _ _ _ _ HO i _ Hg) as [r E], (ho_phase _ _ _ _ _ _ _ _ HO j _ Hg') as [r' E']. congruence.
  - intros R n i HR. by apply hclh_lock_wp.
  - done.
  - intros R n i HR. by apply hclh_locked_wp.
  - intros R n i g HR Hg. by apply (hclh_unlock_wp co (length ns) R HR).
Defined.

(** ** Initialising *)

(** The call for the queue of a cluster, which is what [hclh_first] has; the one for the queue of all clusters is the
    same. *)
Lemma ck_spinlock_hclh_init_runs x c p k n :
  p ≠ 0 → hl_nodes x !! p = Some n →
  runs (ck_spinlock_hclh_init hl_nodes_loc (hl_local_loc c) p k) x (λ _ y,
    hl_local y c = p ∧ hl_glob y = hl_glob x ∧ hl_nodes y = <[p := MkHclh 0 0 k 0]> (hl_nodes x)).
Proof.
  intros Hp Hn. destruct x as [gl lo m th]. cbn in Hn.
  assert (∀ (f : loc ck_spinlock_hclh Z) v a ns, ns !! p = Some a →
    ∀ Q, Q tt (MkHclhLock gl lo (<[p := loc_set f v a]> ns) th) → runs (put_at hl_nodes_loc f p v) (MkHclhLock gl lo ns th) Q) as Hput.
  { intros f v a ns Ha Q HQ. eapply runs_atomic; [|exact HQ]. cbn. by rewrite (deref_lookup _ _ _ Hp Ha). }
  unfold ck_spinlock_hclh_init. apply runs_bind, (Hput _ _ _ _ Hn).
  do 3 (apply runs_bind; eapply Hput; [apply lookup_insert_eq|]; rewrite insert_insert_eq).
  eapply runs_atomic; [reflexivity|]. cbn. split; [by rewrite fn_lookup_insert|]. done.
Qed.
