(* ===== verification/CkAnderson.v ===== *)
(** CkAnderson: Anderson's queue lock, include/aerospike/ck/spinlock/anderson.h: a thread takes the next slot
    of an array, as large as there are threads, and waits until the thread before it opens that slot. *)

From Stdlib Require Import ZArith Lia.
From stdpp Require Import base list.
From S2P Require Import Prelude Memory Concurrent CkPr CkMutex CkTicket.

#[local] Open Scope Z_scope.

(** [src: include/aerospike/ck/spinlock/anderson.h 41-44 ck_spinlock_anderson_thread] *)
Record ck_spinlock_anderson_thread : Type := MkSlot { slot_locked : Z; slot_position : Z }.

(** The slots are an array beside it.
    [src: include/aerospike/ck/spinlock/anderson.h 47-54 ck_spinlock_anderson] *)
Record ck_spinlock_anderson : Type := MkAnderson { an_count : Z; an_wrap : Z; an_mask : Z; an_next : Z }.

Definition an_count_loc : loc ck_spinlock_anderson Z :=
  MkLoc an_count (λ v s, MkAnderson v (an_wrap s) (an_mask s) (an_next s)).
Definition an_wrap_loc : loc ck_spinlock_anderson Z :=
  MkLoc an_wrap (λ v s, MkAnderson (an_count s) v (an_mask s) (an_next s)).
Definition an_mask_loc : loc ck_spinlock_anderson Z :=
  MkLoc an_mask (λ v s, MkAnderson (an_count s) (an_wrap s) v (an_next s)).
Definition an_next_loc : loc ck_spinlock_anderson Z :=
  MkLoc an_next (λ v s, MkAnderson (an_count s) (an_wrap s) (an_mask s) v).

Definition UINT_MAX : Z := 4294967295.

(** The loop over the slots. *)
Fixpoint anderson_slots (n : nat) (i : Z) (slots : list ck_spinlock_anderson_thread) :
    outcome (list ck_spinlock_anderson_thread) :=
  match n with
  | O => Ret slots
  | Datatypes.S n => slots ← arr_set slots i (MkSlot 1 i); anderson_slots n (i + 1) slots
  end.

(** [src: include/aerospike/ck/spinlock/anderson.h 57-88 ck_spinlock_anderson_init] *)
Definition ck_spinlock_anderson_init (slots : list ck_spinlock_anderson_thread) (count : Z) :
    outcome (ck_spinlock_anderson * list ck_spinlock_anderson_thread) :=
  slots ← arr_set slots 0 (MkSlot 0 0);
  slots ← anderson_slots (Z.to_nat (count - 1)) 1 slots;
  let wrap := if negb (Z.land count (uint_sub count 1) =? 0) then uint_add (UINT_MAX mod count) 1 else 0 in
  Ret (MkAnderson count wrap (uint_sub count 1) 0, slots).

Section anderson.
Context {S : Type} (lock : loc S ck_spinlock_anderson) (slots : loc S (list ck_spinlock_anderson_thread)).

(** [lock->slots[p].f], read and written. *)
Definition load_slot {A} (p : Z) (f : ck_spinlock_anderson_thread → A) : prog S A :=
  atomic (λ s, x ← arr_get (loc_get slots s) p; Ret (f x, s)).
Definition store_slot_locked (p v : Z) : prog S unit :=
  atomic (λ s, x ← arr_get (loc_get slots s) p;
               a ← arr_set (loc_get slots s) p (MkSlot v (slot_position x));
               Ret (tt, loc_set slots a s)).

(** [src: include/aerospike/ck/spinlock/anderson.h 90-100 ck_spinlock_anderson_locked] *)
Definition ck_spinlock_anderson_locked : prog S bool :=
  next ← ck_pr_load (lock →' an_next_loc);
  mask ← ck_pr_load (lock →' an_mask_loc);
  let position := Z.land next mask in
  r ← load_slot position slot_locked;
  mret (negb (r =? 0)).

(** The slot, in the variable of the caller, is its index.
    [src: include/aerospike/ck/spinlock/anderson.h 102-147 ck_spinlock_anderson_lock] *)
Definition ck_spinlock_anderson_lock (slot : loc S Z) : prog S unit :=
  count ← ck_pr_load (lock →' an_count_loc);
  wrap ← ck_pr_load (lock →' an_wrap_loc);
  position ←
    (if negb (wrap =? 0) then
       position ← ck_pr_load (lock →' an_next_loc);
       position ← loop (λ position,
         next ← (if position =? UINT_MAX then ck_pr_load (lock →' an_wrap_loc) else mret (uint_add position 1));
         '(b, position) ← ck_pr_cas_value (lock →' an_next_loc) position next;
         mret (if (b : bool) then inr position else inl position)) position;
       mret (position mod count)
     else
       position ← ck_pr_faa 32 (lock →' an_next_loc) 1;
       mask ← ck_pr_load (lock →' an_mask_loc);
       mret (Z.land position mask));
  while (v ← load_slot position slot_locked; mret (v =? 1)) stall;;
  store_slot_locked position 1;;
  ck_pr_store slot position.

(** [src: include/aerospike/ck/spinlock/anderson.h 149-165 ck_spinlock_anderson_unlock] *)
Definition ck_spinlock_anderson_unlock (slot : Z) : prog S unit :=
  wrap ← ck_pr_load (lock →' an_wrap_loc);
  position ←
    (if wrap =? 0 then
       p ← load_slot slot slot_position;
       mask ← ck_pr_load (lock →' an_mask_loc);
       mret (Z.land (uint_add p 1) mask)
     else
       p ← load_slot slot slot_position;
       count ← ck_pr_load (lock →' an_count_loc);
       mret (uint_add p 1 mod count));
  store_slot_locked position 0.
End anderson.

(** ** The lock of [count] threads, each with a variable for its slot *)

Record anderson_lock : Type :=
  MkAndersonLock { al_lock : ck_spinlock_anderson; al_slots : list ck_spinlock_anderson_thread; al_vars : list Z }.
Definition al_lock_loc : loc anderson_lock ck_spinlock_anderson :=
  MkLoc al_lock (λ v s, MkAndersonLock v (al_slots s) (al_vars s)).
Definition al_slots_loc : loc anderson_lock (list ck_spinlock_anderson_thread) :=
  MkLoc al_slots (λ v s, MkAndersonLock (al_lock s) v (al_vars s)).
Definition al_var_loc (i : nat) : loc anderson_lock Z :=
  MkLoc (λ s, al_vars s !!! i) (λ v s, MkAndersonLock (al_lock s) (al_slots s) (<[i := v]> (al_vars s))).

(** The lock after [ck_spinlock_anderson_init] on an array of [count] slots. *)
Definition anderson_first (count : nat) : anderson_lock :=
  match ck_spinlock_anderson_init (replicate count (MkSlot 0 0)) (Z.of_nat count) with
  | Ret (lock, slots) => MkAndersonLock lock slots (replicate count 0)
  | Fault _ => MkAndersonLock (MkAnderson 0 0 0 0) [] []
  end.

#[export] Instance anderson_spinlock (count : nat) : Spinlock anderson_lock := {
  spin_init := anderson_first count;
  spin_lock := λ S lock i,
    ck_spinlock_anderson_lock (lock →' al_lock_loc) (lock →' al_slots_loc) (lock →' al_var_loc i);
  spin_trylock := λ S, None;
  spin_locked := λ S lock i, ck_spinlock_anderson_locked (lock →' al_lock_loc) (lock →' al_slots_loc);
  spin_unlock := λ S lock i,
    slot ← ck_pr_load (lock →' al_var_loc i);
    ck_spinlock_anderson_unlock (lock →' al_lock_loc) (lock →' al_slots_loc) slot
}.

(** ** The counter *)

Lemma power_of_two c : 0 < c → Z.land c (c - 1) = 0 → c = 2 ^ Z.log2 c.
Proof.
  intros Hc Hl. pose proof (Z.log2_spec c Hc) as Hs. rewrite Z.pow_succ_r in Hs by apply Z.log2_nonneg.
  destruct (Z.eq_dec c (2 ^ Z.log2 c)) as [|Hne]; [done|]. exfalso.
  assert (Z.testbit (Z.land c (c - 1)) (Z.log2 c) = true) as E; [|by rewrite Hl, Z.bits_0 in E].
  rewrite Z.land_spec, Z.bit_log2 by lia. cbn [andb].
  assert (Z.log2 (c - 1) = Z.log2 c) as <-; [|apply Z.bit_log2; lia].
  apply Z.log2_unique; [apply Z.log2_nonneg|]. rewrite Z.pow_succ_r by apply Z.log2_nonneg. lia.
Qed.

Lemma land_le_r a b : 0 ≤ a → 0 ≤ b → Z.land a b ≤ b.
Proof.
  intros Ha Hb. rewrite <- (Z2N.id a), <- (Z2N.id b), <- N2Z.inj_land by done. apply N2Z.inj_le, N.land_le_r.
Qed.

Definition wrap_of (c : Z) : Z := if negb (Z.land c (c - 1) =? 0) then UINT_MAX mod c + 1 else 0.

Lemma wrap_of_cases c :
  0 < c < 4294967296 →
  wrap_of c = 0 ∧ (∃ k, 0 ≤ k < 32 ∧ c = 2 ^ k) ∨ wrap_of c ≠ 0 ∧ wrap_of c = UINT_MAX mod c + 1 ∧ wrap_of c < 4294967296.
Proof.
  intros Hc. unfold wrap_of. destruct (Z.eqb_spec (Z.land c (c - 1)) 0) as [E|_]; cbn [negb].
  - left. split; [done|]. apply power_of_two in E; [|lia]. exists (Z.log2 c). split; [|done].
    split; [apply Z.log2_nonneg|]. apply Z.log2_lt_pow2; lia.
  - right. pose proof (Z.mod_pos_bound UINT_MAX c ltac:(lia)). lia.
Qed.

(** The lock of [c] slots: the index of a ticket is what remains modulo [c]. *)
Record anderson_ok (c : Z) (x : ck_spinlock_anderson) : Prop := {
  ao_count : an_count x = c;
  ao_mask : an_mask x = c - 1;
  ao_wrap : an_wrap x = wrap_of c
}.

Lemma mask_mod c k x : 0 ≤ k → c = 2 ^ k → Z.land x (c - 1) = x mod c.
Proof. intros Hk ->. rewrite Z.sub_1_r, <- Z.ones_equiv. by apply Z.land_ones. Qed.

Lemma pow_divides c k x : 0 ≤ k < 32 → c = 2 ^ k → uwrap 32 x mod c = x mod c.
Proof.
  intros Hk ->. unfold uwrap. apply Z.mod_mod_divide. exists (2 ^ (32 - k)).
  rewrite <- Z.pow_add_r by lia. f_equal. lia.
Qed.

(** The counter after [v], in both cases. *)
Lemma next_mod c v :
  0 < c → 0 ≤ v < 4294967296 →
  (if v =? UINT_MAX then UINT_MAX mod c + 1 else uint_add v 1) mod c = (v + 1) mod c.
Proof.
  unfold UINT_MAX. intros Hc Hv. destruct (Z.eqb_spec v 4294967295) as [->|Hne]; [apply Zplus_mod_idemp_l|].
  by rewrite uint_add_small by lia.
Qed.

(** ** The threads that have a slot *)

(** A ticket, and how far its thread is: it waits, has closed its slot, or has put it into its variable. *)
Abbreviation anderson_ghost := (ticket_ghost * nat)%type.

Lemma ticket_of (gs : list anderson_ghost) i (t : ticket_ghost) s : gs !! i = Some (t, s) → gs.*1 !! i = Some t.
Proof. intros H. by rewrite list_lookup_fmap, H. Qed.

(** The first of the queue has closed its slot. *)
Definition first_closed (q : list nat) (gs : list anderson_ghost) : bool :=
  match q with
  | i :: _ => match gs !! i with Some (_, Datatypes.S _) => true | _ => false end
  | [] => false
  end.

Definition slots_ok (c p : Z) (closed : bool) (slots : list ck_spinlock_anderson_thread) : Prop :=
  ∀ k, 0 ≤ k < c →
    slots !! Z.to_nat k = Some (MkSlot (if (k =? p mod c) && negb closed then 0 else 1) k).

Definition anderson_inv (c : Z) (x : anderson_lock) (gs : list anderson_ghost) : Prop :=
  anderson_ok c (al_lock x) ∧ Z.of_nat (length gs) ≤ c ∧ length (al_slots x) = Z.to_nat c ∧
  (length gs ≤ length (al_vars x))%nat ∧
  ∃ p q, 0 ≤ an_next (al_lock x) < 4294967296 ∧
    an_next (al_lock x) mod c = (p + Z.of_nat (length q)) mod c ∧
    queue_ok p q gs.*1 ∧ slots_ok c p (first_closed q gs) (al_slots x) ∧
    (∀ i t s, gs !! i = Some (t, Datatypes.S s) → ∃ k, t = Some (k, true)) ∧
    (∀ i k s, gs !! i = Some (Some (k, true), s) → (2 ≤ s)%nat → al_vars x !! i = Some (k mod c)).

Section laws.
Context (c : Z) (Hc : 0 < c < 4294967296).
Context (R : list mark → list (anderson_ghost * bool) → Prop) (Rs : frame_stable R).
Abbreviation anderson_wp := (lock_wp (anderson_inv c) R).
Abbreviation lock := (the_lock →' al_lock_loc).
Abbreviation slots := (the_lock →' al_slots_loc).
Abbreviation var i := (the_lock →' al_var_loc i).

(** A member that does not change, or the counter. *)
Lemma anderson_load_wp n i (m : loc ck_spinlock_anderson Z) g (Q : Z → anderson_ghost → Prop) :
  (∀ x, anderson_ok c x → 0 ≤ an_next x < 4294967296 → Q (loc_get m x) g) →
  anderson_wp n (ck_pr_load (lock →' m)) i Q g.
Proof using Rs.
  intros HQ. apply outside_wp_atomic; [done|]. intros x tr gs HI Hi.
  eexists _, _, g. split; [reflexivity|]. rewrite list_insert_id by done. split; [done|].
  destruct HI as (Ho & _ & _ & _ & p & q & Hn & _). by apply HQ.
Qed.

Lemma first_closed_insert q gs i g g' :
  gs !! i = Some g → (snd g = 0%nat ↔ snd g' = 0%nat) → first_closed q (<[i := g']> gs) = first_closed q gs.
Proof using.
  intros Hi Hg. destruct q as [|j q]; [done|]. cbn. destruct (decide (i = j)) as [<-|].
  - rewrite list_lookup_insert_eq, Hi by (by eapply lookup_lt_Some). destruct Hg as [Ha Hb].
    destruct g as [? []], g' as [? []]; cbn in *; try done; [discriminate (Ha eq_refl)|discriminate (Hb eq_refl)].
  - by rewrite list_lookup_insert_ne.
Qed.

(** A thread without a ticket is no longer than [c - 1] others. *)
Lemma anderson_idle gs i p q :
  Z.of_nat (length gs) ≤ c → queue_ok p q gs.*1 → gs !! i = Some (None, 0%nat) → Z.of_nat (length q) < c.
Proof using.
  intros Hl Hq Hi. apply (queue_length_idle p q gs.*1 i) in Hq; [rewrite length_fmap in Hq; lia|].
  by eapply ticket_of.
Qed.

(** Fewer than [c] tickets apart, equal slots are equal tickets. *)
Lemma slot_inj p j : 0 ≤ j < c → (p + j) mod c = p mod c → j = 0.
Proof using.
  intros Hj E. assert (j mod c = 0) as E0; [|by rewrite Z.mod_small in E0].
  replace j with (p + j - p) by lia. by rewrite Zminus_mod, E, Z.sub_diag.
Qed.

(** A thread takes the next ticket. *)
Lemma anderson_take x gs i v :
  anderson_inv c x gs → gs !! i = Some (None, 0%nat) → 0 ≤ v < 4294967296 → v mod c = (an_next (al_lock x) + 1) mod c →
  ∃ k b, k mod c = an_next (al_lock x) mod c ∧
    anderson_inv c (MkAndersonLock (loc_set an_next_loc v (al_lock x)) (al_slots x) (al_vars x)) (<[i := (Some (k, b), 0%nat)]> gs).
Proof using Hc.
  intros (Ho & Hl & Hsl & Hvl & p & q & Hn & En & Hq & Hs & H1 & H2) Hi Hv Ev.
  exists (p + Z.of_nat (length q)), (bool_decide (q = [])). split; [done|].
  split; [by destruct Ho|]. rewrite !length_insert. split; [done|]. split; [done|]. split; [done|].
  exists p, (q ++ [i]). split; [done|]. split; [|split; [|split; [|split]]].
  - cbn. rewrite Ev, length_app, Nat2Z.inj_add, <- Zplus_mod_idemp_l, En, Zplus_mod_idemp_l. f_equal. cbn. lia.
  - rewrite list_fmap_insert. apply queue_join; [done|]. by eapply ticket_of.
  - cbn. assert (first_closed (q ++ [i]) (<[i:=(Some (p + Z.of_nat (length q), bool_decide (q = [])), 0%nat)]> gs)
                 = first_closed q gs) as ->; [|done].
    destruct q as [|j q]; [|by apply (first_closed_insert (j :: q) gs i (None, 0%nat))].
    cbn. by rewrite list_lookup_insert_eq by (by eapply lookup_lt_Some).
  - intros j t s Hj. destruct (decide (i = j)) as [<-|].
    + by rewrite list_lookup_insert_eq in Hj by (by eapply lookup_lt_Some).
    + rewrite list_lookup_insert_ne in Hj by done. by eapply H1.
  - intros j k s Hj Hs2. destruct (decide (i = j)) as [<-|].
    + rewrite list_lookup_insert_eq in Hj by (by eapply lookup_lt_Some). injection Hj as _ _ <-. lia.
    + rewrite list_lookup_insert_ne in Hj by done. by eapply H2.
Qed.

(** The index of a ticket of the queue. *)
Lemma ticket_in_queue p q (gs : list anderson_ghost) i k h s :
  queue_ok p q gs.*1 → gs !! i = Some (Some (k, h), s) →
  ∃ j, q !! j = Some i ∧ k = p + Z.of_nat j ∧ (h = true → j = 0%nat) ∧ (j < length gs)%nat.
Proof using.
  intros Hq Hi. pose proof (queue_length _ _ _ Hq) as Hlen. rewrite length_fmap in Hlen.
  destruct Hq as [_ H2]. destruct (H2 i k h) as (j & Hj & Ek & Hh); [by eapply ticket_of|].
  exists j. split_and!; try done. apply lookup_lt_Some in Hj. lia.
Qed.

(** A waiting thread finds its slot open only when it is the first. *)
Lemma anderson_see_wp n i k (Q : Z → anderson_ghost → Prop) :
  (∀ v, (v =? 1) = true → Q v (Some (k, false), 0%nat)) → (∀ v, (v =? 1) = false → Q v (Some (k, true), 0%nat)) →
  anderson_wp n (load_slot slots (k mod c) slot_locked) i Q (Some (k, false), 0%nat).
Proof using Hc Rs.
  intros Hno Hyes. apply outside_wp_atomic; [done|]. intros x tr gs HI Hi.
  destruct HI as (Ho & Hl & Hsl & Hvl & p & q & Hn & En & Hq & Hs & H1 & H2).
  pose proof (Z.mod_pos_bound k c ltac:(lia)) as Hk. pose proof (Hs _ Hk) as Hsk.
  destruct (ticket_in_queue _ _ _ _ _ _ _ Hq Hi) as (j & Hj & Ek & _ & Hjl).
  set (b := (k mod c =? p mod c) && negb (first_closed q gs)) in *.
  eexists _, x, (Some (k, b), 0%nat). split.
  { cbn. rewrite <- (Z2Nat.id (k mod c)) by lia. erewrite arr_get_lookup by exact Hsk. reflexivity. }
  split.
  - split; [done|]. rewrite length_insert. split; [done|]. split; [done|]. split; [done|].
    exists p, q. split; [done|]. split; [done|]. split; [|split; [|split]].
    + rewrite list_fmap_insert. apply (queue_served p q gs.*1 i k b Hq); [by eapply ticket_of|].
      unfold b. rewrite andb_true_iff, Z.eqb_eq, Ek. intros [E _]. apply slot_inj in E; lia.
    + rewrite (first_closed_insert q gs i _ (Some (k, b), 0%nat) Hi) by done. done.
    + intros j' t s Hj'. destruct (decide (i = j')) as [<-|].
      * by rewrite list_lookup_insert_eq in Hj' by (by eapply lookup_lt_Some).
      * rewrite list_lookup_insert_ne in Hj' by done. by eapply H1.
    + intros j' k' s Hj' Hs2. destruct (decide (i = j')) as [<-|].
      * rewrite list_lookup_insert_eq in Hj' by (by eapply lookup_lt_Some). injection Hj' as _ _ <-. lia.
      * rewrite list_lookup_insert_ne in Hj' by done. by eapply H2.
  - cbn. destruct b eqn:Eb; [by apply Hyes|by apply Hno].
Qed.

(** A thread that took the ticket that is served finds its slot open. *)
Lemma anderson_first_wp n i k (Q : Z → anderson_ghost → Prop) :
  Q 0 (Some (k, true), 0%nat) → anderson_wp n (load_slot slots (k mod c) slot_locked) i Q (Some (k, true), 0%nat).
Proof using Hc Rs.
  intros HQ. apply outside_wp_atomic; [done|]. intros x tr gs HI Hi.
  pose proof HI as (Ho & Hl & Hsl & Hvl & p & q & Hn & En & Hq & Hs & H1 & H2).
  pose proof (Z.mod_pos_bound k c ltac:(lia)) as Hk. pose proof (Hs _ Hk) as Hsk.
  destruct (ticket_in_queue _ _ _ _ _ _ _ Hq Hi) as (j & Hj & Ek & Hj0 & _). rewrite (Hj0 eq_refl) in Hj, Ek.
  destruct q as [|i' q]; [done|]. injection Hj as ->. rewrite Z.add_0_r in Ek. subst p.
  cbn [first_closed] in Hsk. rewrite Hi, Z.eqb_refl in Hsk.
  eexists _, _, _. split; [cbn; rewrite (arr_get_in _ _ _ (proj1 Hk) Hsk); reflexivity|].
  rewrite list_insert_id by done. split; [done|exact HQ].
Qed.

(** The first, which is still waiting, closes its slot. *)
Lemma anderson_close_wp n i k (Q : unit → anderson_ghost → Prop) :
  Q tt (Some (k, true), 1%nat) →
  anderson_wp n (store_slot_locked slots (k mod c) 1) i Q (Some (k, true), 0%nat).
Proof using Hc Rs.
  intros HQ. apply outside_wp_atomic; [done|]. intros x tr gs HI Hi.
  destruct HI as (Ho & Hl & Hsl & Hvl & p & q & Hn & En & Hq & Hs & H1 & H2).
  pose proof (Z.mod_pos_bound k c ltac:(lia)) as Hk. pose proof (Hs _ Hk) as Hsk.
  pose proof (lookup_lt_Some _ _ _ Hsk) as Hlt. pose proof (lookup_lt_Some _ _ _ Hi) as Hil.
  destruct (ticket_in_queue _ _ _ _ _ _ _ Hq Hi) as (j & Hj & Ek & Hj0 & _). rewrite (Hj0 eq_refl) in Hj, Ek.
  destruct q as [|i' q]; [done|]. injection Hj as ->. rewrite Z.add_0_r in Ek. subst p.
  eexists _, _, (Some (k, true), 1%nat). split.
  { cbn. rewrite <- (Z2Nat.id (k mod c)) by lia. erewrite arr_get_lookup by exact Hsk. cbn.
    rewrite arr_set_lt by done. reflexivity. }
  split; [|done]. split; [done|]. cbn. rewrite !length_insert. split; [done|]. split; [done|]. split; [done|].
  exists k, (i :: q). split; [done|]. split; [done|]. split; [|split; [|split]].
  - rewrite list_fmap_insert. cbn. rewrite list_insert_id; [done|]. by eapply ticket_of.
  - cbn. rewrite list_lookup_insert_eq by done. intros k' Hk'. rewrite andb_false_r.
    destruct (decide (k' = k mod c)) as [->|Hne].
    + by rewrite list_lookup_insert_eq.
    + rewrite list_lookup_insert_ne by lia. rewrite (Hs k' Hk'). apply Z.eqb_neq in Hne. by rewrite Hne.
  - intros j' t s Hj'. destruct (decide (i = j')) as [<-|].
    + rewrite list_lookup_insert_eq in Hj' by done. injection Hj' as <- <-. by exists k.
    + rewrite list_lookup_insert_ne in Hj' by done. by eapply H1.
  - intros j' k' s Hj' Hs2. destruct (decide (i = j')) as [<-|].
    + rewrite list_lookup_insert_eq in Hj' by done. injection Hj' as _ <-. lia.
    + rewrite list_lookup_insert_ne in Hj' by done. by eapply H2.
Qed.

(** It notes the slot in its variable. *)
Lemma anderson_note_wp n i k (Q : unit → anderson_ghost → Prop) :
  Q tt (Some (k, true), 2%nat) →
  anderson_wp n (ck_pr_store (var i) (k mod c)) i Q (Some (k, true), 1%nat).
Proof using Hc Rs.
  intros HQ. apply outside_wp_atomic; [done|]. intros x tr gs HI Hi.
  destruct HI as (Ho & Hl & Hsl & Hvl & p & q & Hn & En & Hq & Hs & H1 & H2).
  pose proof (lookup_lt_Some _ _ _ Hi) as Hil.
  eexists _, _, (Some (k, true), 2%nat). split; [reflexivity|]. split; [|done].
  split; [done|]. cbn. rewrite !length_insert. split; [done|]. split; [done|]. split; [done|].
  exists p, q. split; [done|]. split; [done|]. split; [|split; [|split]].
  - rewrite list_fmap_insert. cbn. rewrite list_insert_id; [done|]. by eapply ticket_of.
  - by rewrite (first_closed_insert q gs i _ (Some (k, true), 2%nat) Hi).
  - intros j' t s Hj'. destruct (decide (i = j')) as [<-|].
    + rewrite list_lookup_insert_eq in Hj' by done. injection Hj' as <- <-. by exists k.
    + rewrite list_lookup_insert_ne in Hj' by done. by eapply H1.
  - intros j' k' s Hj' Hs2. destruct (decide (i = j')) as [<-|].
    + rewrite list_lookup_insert_eq in Hj' by done. injection Hj' as <- <-. by rewrite list_lookup_insert_eq by lia.
    + rewrite list_lookup_insert_ne in Hj' by done. rewrite list_lookup_insert_ne by done. by eapply H2.
Qed.

(** A step that reads a slot, and leaves what the thread does. *)
Lemma anderson_slot_wp n i {A} (f : ck_spinlock_anderson_thread → A) a g (Q : A → anderson_ghost → Prop) :
  0 ≤ a < c → (∀ v, Q (f (MkSlot v a)) g) → anderson_wp n (load_slot slots a f) i Q g.
Proof using Hc Rs.
  intros Ha HQ. apply outside_wp_atomic; [done|]. intros x tr gs HI Hi.
  pose proof HI as (Ho & Hl & Hsl & Hvl & p & q & Hn & En & Hq & Hs & H1 & H2).
  eexists _, _, g. split; [cbn; rewrite (arr_get_in _ _ _ (proj1 Ha) (Hs a Ha)); reflexivity|].
  rewrite list_insert_id by done. split; [done|]. apply HQ.
Qed.

(** The first opens the slot of the next ticket. *)
Lemma anderson_open_wp n i k a s (Q : unit → anderson_ghost → Prop) :
  a = (k + 1) mod c → Q tt (None, 0%nat) →
  anderson_wp n (store_slot_locked slots a 0) i Q (Some (k, true), Datatypes.S s).
Proof using Hc Rs.
  intros -> HQ. apply outside_wp_atomic; [done|]. intros x tr gs HI Hi.
  destruct HI as (Ho & Hl & Hsl & Hvl & p & q & Hn & En & Hq & Hs & H1 & H2).
  pose proof (Z.mod_pos_bound (k + 1) c ltac:(lia)) as Hk. pose proof (Hs _ Hk) as Hsk.
  pose proof (lookup_lt_Some _ _ _ Hsk) as Hlt. pose proof (lookup_lt_Some _ _ _ Hi) as Hil.
  destruct (queue_leave p q gs.*1 i k Hq) as (q' & -> & Hq'); [by eapply ticket_of|].
  destruct (ticket_in_queue _ _ _ _ _ _ _ Hq Hi) as (j & _ & Ek & Hj0 & _). rewrite (Hj0 eq_refl), Z.add_0_r in Ek. subst p.
  assert (first_closed (i :: q') gs = true) as Hcl by (cbn; by rewrite Hi).
  assert (first_closed q' (<[i := (None, 0%nat)]> gs) = false) as Hcl'.
  { destruct q' as [|i' q']; [done|]. cbn. pose proof (queue_NoDup _ _ _ Hq) as Hnd.
    assert (i ≠ i') as Hne by (apply NoDup_cons in Hnd as [Hnd _]; intros ->; apply Hnd; left).
    rewrite list_lookup_insert_ne by done. destruct (gs !! i') as [[t [|s']]|] eqn:Ei'; try done. exfalso.
    destruct (H1 i' t s' Ei') as [k' ->]. destruct (ticket_in_queue _ _ _ _ _ _ _ Hq Ei') as (j' & Hj' & _ & E & _).
    rewrite (E eq_refl) in Hj'. by injection Hj' as ->. }
  eexists _, _, (None, 0%nat). split.
  { cbn. rewrite (arr_get_in _ _ _ (proj1 Hk) Hsk). cbn. rewrite arr_set_in by lia. reflexivity. }
  split; [|done]. split; [done|]. cbn. rewrite !length_insert. split; [done|]. split; [done|]. split; [done|].
  exists (k + 1), q'. split; [done|]. split; [rewrite En; f_equal; cbn; lia|]. split; [|split; [|split]].
  - rewrite list_fmap_insert. done.
  - replace (first_closed q' _) with false by (symmetry; exact Hcl'). intros k' Hk'. rewrite andb_true_r. rewrite Hcl, andb_false_r in Hsk. cbn [negb] in Hs.
    destruct (Z.eqb_spec k' ((k + 1) mod c)) as [->|Hne].
    + by rewrite list_lookup_insert_eq.
    + rewrite list_lookup_insert_ne by lia. rewrite (Hs k' Hk'), Hcl. by rewrite andb_false_r.
  - intros j' t s' Hj'. destruct (decide (i = j')) as [<-|].
    + by rewrite list_lookup_insert_eq in Hj' by done.
    + rewrite list_lookup_insert_ne in Hj' by done. by eapply H1.
  - intros j' k' s' Hj' Hs2. destruct (decide (i = j')) as [<-|].
    + by rewrite list_lookup_insert_eq in Hj' by done.
    + rewrite list_lookup_insert_ne in Hj' by done. by eapply H2.
Qed.

(** *** The functions *)

(** The counter moves on, and the thread has the ticket that it showed. *)
Lemma anderson_faa_wp n i (Q : Z → anderson_ghost → Prop) :
  (∃ k, 0 ≤ k < 32 ∧ c = 2 ^ k) →
  (∀ v k b, 0 ≤ v → k mod c = v mod c → Q v (Some (k, b), 0%nat)) →
  anderson_wp n (ck_pr_faa 32 (lock →' an_next_loc) 1) i Q (None, 0%nat).
Proof using Hc Rs.
  intros (e & He & Ec) HQ. apply outside_wp_atomic; [done|]. intros x tr gs HI Hi.
  assert (0 ≤ an_next (al_lock x) < 4294967296) as Hn by (by destruct HI as (_ & _ & _ & _ & p & q & Hn & _)).
  destruct (anderson_take x gs i (uwrap 32 (an_next (al_lock x) + 1)) HI Hi) as (k & b & Ek & HI').
  - apply Z.mod_pos_bound. lia.
  - by apply (pow_divides c e).
  - eexists _, _, (Some (k, b), 0%nat). split; [reflexivity|]. split; [exact HI'|]. apply HQ; [apply Hn|done].
Qed.

Lemma anderson_cas_wp n i v v' (Q : bool * Z → anderson_ghost → Prop) :
  0 ≤ v' < 4294967296 → (0 ≤ v < 4294967296 → v' mod c = (v + 1) mod c) →
  (∀ k b, k mod c = v mod c → Q (true, v) (Some (k, b), 0%nat)) →
  (∀ u, 0 ≤ u < 4294967296 → Q (false, u) (None, 0%nat)) →
  anderson_wp n (ck_pr_cas_value (lock →' an_next_loc) v v') i Q (None, 0%nat).
Proof using Hc Rs.
  intros Hv' Ev HQ1 HQ2. apply outside_wp_atomic; [done|]. intros x tr gs HI Hi.
  assert (0 ≤ an_next (al_lock x) < 4294967296) as Hn by (by destruct HI as (_ & _ & _ & _ & p & q & Hn & _)).
  destruct (Z.eqb_spec (an_next (al_lock x)) v) as [E|Hne].
  - destruct (anderson_take x gs i v' HI Hi) as (k & b & Ek & HI'); [done|rewrite E; apply Ev; lia|].
    eexists _, _, (Some (k, b), 0%nat). split; [reflexivity|]. cbn. rewrite E, Z.eqb_refl.
    split; [exact HI'|]. apply HQ1. by rewrite Ek, E.
  - eexists _, _, (None, 0%nat). split; [reflexivity|]. cbn. apply Z.eqb_neq in Hne as ->.
    rewrite list_insert_id by done. split; [by destruct x as [[]]|]. by apply HQ2.
Qed.

(** A thread that holds the lock. *)
Definition anderson_holds (g : anderson_ghost) : Prop := ∃ k, g = (Some (k, true), 2%nat).

(** The loop, also of a thread that took the ticket that is next. *)
Lemma anderson_wait_wp n i k b :
  anderson_wp n (while (v ← load_slot slots (k mod c) slot_locked; mret (v =? 1)) stall) i
    (λ _ g, g = (Some (k, true), 0%nat)) (Some (k, b), 0%nat).
Proof using Hc Rs.
  apply (outside_wp_while _ _ _ _ _ _ (λ g, ∃ b, g = (Some (k, b), 0%nat))); [by exists b|].
  clear b. intros m g [[] ->]; apply outside_wp_bind.
  - apply anderson_first_wp. by apply outside_wp_ret.
  - apply anderson_see_wp; intros v ->; apply outside_wp_ret; [|done]. apply outside_wp_stall. by exists false.
Qed.

Lemma anderson_enter_wp n i k b a :
  a = k mod c →
  anderson_wp n (while (v ← load_slot slots a slot_locked; mret (v =? 1)) stall;;
                 store_slot_locked slots a 1;; ck_pr_store (var i) a) i (λ _, anderson_holds) (Some (k, b), 0%nat).
Proof using Hc Rs.
  intros ->. apply outside_wp_bind. eapply outside_wp_mono; [apply anderson_wait_wp|]. intros [] g ->.
  apply outside_wp_bind, anderson_close_wp, anderson_note_wp. by exists k.
Qed.

Lemma anderson_lock_wp n i :
  anderson_wp n (ck_spinlock_anderson_lock lock slots (var i)) i (λ _, anderson_holds) (None, 0%nat).
Proof using Hc Rs.
  apply outside_wp_bind, anderson_load_wp. intros x Hx _. apply outside_wp_bind, anderson_load_wp. intros y Hy _.
  cbn [loc_get an_count_loc an_wrap_loc]. rewrite (ao_count _ _ Hx).
  apply outside_wp_bind.
  apply (outside_wp_mono _ _ _ _ _ _ _ (λ a g, ∃ k b, g = (Some (k, b), 0%nat) ∧ a = k mod c));
    [|intros a g (k & b & -> & ->); by apply anderson_enter_wp].
  rewrite (ao_wrap _ _ Hy). destruct (wrap_of_cases c Hc) as [[-> (e & He & Ec)]|(Hw & Ew & Hw')].
  - apply outside_wp_bind, anderson_faa_wp; [by exists e|]. intros v k b Hv Ek.
    apply outside_wp_bind, anderson_load_wp. intros z Hz _. apply outside_wp_ret. exists k, b. split; [done|].
    cbn [loc_get an_mask_loc]. rewrite (ao_mask _ _ Hz), (mask_mod c e) by (done || lia). done.
  - apply Z.eqb_neq in Hw. rewrite Hw. cbn [negb].
    apply outside_wp_bind, anderson_load_wp. intros z _ Hz. apply outside_wp_bind. cbn [loc_get an_next_loc].
    apply (wp_loop _ _ _ _ _ (λ v l, 0 ≤ v < 4294967296 ∧ l = ((None, 0%nat), false))); [done|].
    intros m v l [Hv ->].
    set (Q := λ (r : Z + Z) (g : anderson_ghost), match r with
                | inl v => 0 ≤ v < 4294967296 ∧ g = (None, 0%nat)
                | inr v => ∃ k b, g = (Some (k, b), 0%nat) ∧ k mod c = v mod c
                end).
    apply (wp_mono _ _ _ _ _ (λ r l, l.2 = false ∧ Q r l.1)).
    + apply (outside_wp_bind false (anderson_inv c) R m _ _ _ _ i Q).
      apply (outside_wp_mono _ _ _ _ _ _ _ (λ v' g, g = (None, 0%nat) ∧ 0 ≤ v' < 4294967296 ∧
        v' = (if v =? UINT_MAX then UINT_MAX mod c + 1 else uint_add v 1))).
      * destruct (v =? UINT_MAX); [|apply outside_wp_ret; split; [done|]; split; [apply (uwrap_range 32); lia|done]].
        apply anderson_load_wp. intros u Hu _. cbn [loc_get an_wrap_loc]. rewrite (ao_wrap _ _ Hu).
        split; [done|]. split; [|done]. pose proof (Z.mod_pos_bound UINT_MAX c). lia.
      * intros v' g (-> & Hv' & ->). apply outside_wp_bind, anderson_cas_wp; [done| | |].
        -- intros _. by apply next_mod; [lia|].
        -- intros k b Ek. apply outside_wp_ret. by exists k, b.
        -- intros u Hu. by apply outside_wp_ret.
    + intros [u|u] [g b]; cbn; intros [-> Hr].
      * by destruct Hr as [? ->].
      * destruct Hr as (k & b' & -> & Ek). split; [done|]. apply outside_wp_ret. by exists k, b'.
Qed.

Lemma anderson_unlock_wp n i g :
  anderson_holds g →
  anderson_wp n (slot ← ck_pr_load (var i); ck_spinlock_anderson_unlock lock slots slot) i
    (λ _ g, g = (None, 0%nat)) g.
Proof using Hc Rs.
  intros [k ->]. apply outside_wp_bind.
  apply (outside_wp_mono _ _ _ _ _ _ _ (λ a g, g = (Some (k, true), 2%nat) ∧ a = k mod c)).
  { apply outside_wp_atomic; [done|]. intros x tr gs HI Hi. eexists _, _, _. split; [reflexivity|].
    rewrite list_insert_id by done. split; [done|]. split; [done|].
    destruct HI as (_ & _ & _ & _ & p & q & _ & _ & _ & _ & _ & H2).
    cbn. apply list_lookup_total_correct. by eapply H2. }
  intros a g [-> ->]. pose proof (Z.mod_pos_bound k c ltac:(lia)) as Hk.
  assert ((k mod c + 1) mod c = (k + 1) mod c) as Ek by apply Zplus_mod_idemp_l.
  apply outside_wp_bind, anderson_load_wp. intros x Hx _. cbn [loc_get an_wrap_loc]. rewrite (ao_wrap _ _ Hx).
  apply outside_wp_bind.
  apply (outside_wp_mono _ _ _ _ _ _ _ (λ a g, g = (Some (k, true), 2%nat) ∧ a = (k + 1) mod c));
    [|intros a g [-> ->]; by apply anderson_open_wp].
  destruct (wrap_of_cases c Hc) as [[-> (e & He & Ec)]|(Hw & _)].
  - apply outside_wp_bind, anderson_slot_wp; [done|]. intros v. cbn [slot_position].
    apply outside_wp_bind, anderson_load_wp. intros y Hy _. apply outside_wp_ret. split; [done|].
    cbn [loc_get an_mask_loc]. rewrite (ao_mask _ _ Hy), (mask_mod c e) by (done || lia).
    by rewrite uint_add_small by lia.
  - apply Z.eqb_neq in Hw. rewrite Hw. apply outside_wp_bind, anderson_slot_wp; [done|]. intros v. cbn [slot_position].
    apply outside_wp_bind, anderson_load_wp. intros y Hy _. apply outside_wp_ret. split; [done|].
    cbn [loc_get an_count_loc]. rewrite (ao_count _ _ Hy). by rewrite uint_add_small by lia.
Qed.

(** Whatever it answers: the slot is one of the array. *)
Lemma anderson_locked_wp n i :
  anderson_wp n (ck_spinlock_anderson_locked lock slots) i (λ _ g, g = (None, 0%nat)) (None, 0%nat).
Proof using Hc Rs.
  apply outside_wp_bind, anderson_load_wp. intros x _ Hx. apply outside_wp_bind, anderson_load_wp. intros y Hy _.
  cbn [loc_get an_mask_loc an_next_loc]. rewrite (ao_mask _ _ Hy).
  apply outside_wp_bind, anderson_slot_wp; [|intros v; by apply outside_wp_ret].
  assert (0 ≤ Z.land (an_next x) (c - 1)) by (apply Z.land_nonneg; lia).
  pose proof (land_le_r (an_next x) (c - 1)). lia.
Qed.
End laws.

(** ** The lock satisfies the laws *)

Lemma anderson_slots_spec (n : nat) i slots :
  0 ≤ i → i + Z.of_nat n ≤ Z.of_nat (length slots) →
  ∃ slots', anderson_slots n i slots = Ret slots' ∧ length slots' = length slots ∧
    ∀ k, 0 ≤ k → slots' !! Z.to_nat k =
      if (i <=? k) && (k <? i + Z.of_nat n) then Some (MkSlot 1 k) else slots !! Z.to_nat k.
Proof.
  revert i slots. induction n as [|n IH]; intros i slots Hi Hl.
  - exists slots. split; [done|]. split; [done|]. intros k Hk.
    destruct (Z.leb_spec i k), (Z.ltb_spec k (i + Z.of_nat 0)); cbn [andb]; done || lia.
  - cbn [anderson_slots]. rewrite arr_set_in by lia. cbn [mbind outcome_bind].
    destruct (IH (i + 1) (<[Z.to_nat i := MkSlot 1 i]> slots)) as (slots' & -> & Hl' & Hs); [lia|rewrite length_insert; lia|].
    exists slots'. split; [done|]. rewrite length_insert in Hl'. split; [done|]. intros k Hk. rewrite Hs by done.
    destruct (Z.leb_spec (i + 1) k), (Z.leb_spec i k), (Z.ltb_spec k (i + 1 + Z.of_nat n)),
      (Z.ltb_spec k (i + Z.of_nat (Datatypes.S n))); cbn [andb]; try lia; try done;
      (rewrite list_lookup_insert_ne by lia; done) || (assert (i = k) as -> by lia; by rewrite list_lookup_insert_eq by lia).
Qed.

Lemma anderson_first_ok (count n : nat) :
  0 < Z.of_nat count < 4294967296 → (n ≤ count)%nat →
  anderson_inv (Z.of_nat count) (anderson_first count) (replicate n (None, 0%nat)).
Proof.
  intros Hc Hn. unfold anderson_first, ck_spinlock_anderson_init.
  rewrite arr_set_in by (rewrite length_replicate; lia). cbn [mbind outcome_bind].
  set (first := <[Z.to_nat 0 := MkSlot 0 0]> (replicate count (MkSlot 0 0))).
  assert (length first = count) as Hf by (unfold first; by rewrite length_insert, length_replicate).
  destruct (anderson_slots_spec (Z.to_nat (Z.of_nat count - 1)) 1 first) as (slots & -> & Hl & Hs); [lia|lia|].
  cbn [mbind outcome_bind]. rewrite uint_sub_small by lia.
  assert (uint_add (UINT_MAX mod Z.of_nat count) 1 = UINT_MAX mod Z.of_nat count + 1 ∨ wrap_of (Z.of_nat count) = 0) as Hw.
  { destruct (wrap_of_cases (Z.of_nat count) Hc) as [[-> _]|(_ & E & Hlt)]; [by right|]. left.
    pose proof (Z.mod_pos_bound UINT_MAX (Z.of_nat count)). apply uint_add_small. lia. }
  split; [split; [done|done|]|].
  { cbn. unfold wrap_of in *. destruct (negb _); [|done]. destruct Hw as [->|E]; [done|].
    pose proof (Z.mod_pos_bound UINT_MAX (Z.of_nat count)). lia. }
  cbn [al_lock al_slots al_vars]. rewrite !length_replicate. split; [lia|]. split; [lia|]. split; [lia|].
  exists 0, []. cbn [an_next]. split; [lia|]. split; [done|]. split; [|split; [|split]].
  - split; [done|]. intros i k h Hi. rewrite fmap_replicate in Hi. by apply lookup_replicate in Hi as [[=] _].
  - intros k Hk. rewrite Hs by lia. rewrite Zmod_0_l. cbn [first_closed negb]. rewrite andb_true_r.
    destruct (Z.eqb_spec k 0) as [->|Hne].
    + destruct (Z.leb_spec 1 0); [lia|]. cbn [andb]. unfold first. by rewrite list_lookup_insert_eq by (rewrite length_replicate; lia).
    + destruct (Z.leb_spec 1 k); [|lia]. by destruct (Z.ltb_spec k (1 + Z.of_nat (Z.to_nat (Z.of_nat count - 1)))); [|lia].
  - intros i t s Hi. by apply lookup_replicate in Hi as [[=] _].
  - intros i k s Hi. by apply lookup_replicate in Hi as [[=] _].
Qed.

Lemma anderson_inv_excl c s gs i j g g' :
  anderson_inv c s gs → gs !! i = Some g → gs !! j = Some g' → anderson_holds g → anderson_holds g' → i = j.
Proof.
  intros (_ & _ & _ & _ & p & q & _ & _ & Hq & _) Hi Hj [k ->] [k' ->].
  destruct (ticket_in_queue p q gs i k true 2 Hq Hi) as (a & Ha & _ & E & _).
  destruct (ticket_in_queue p q gs j k' true 2 Hq Hj) as (b & Hb & _ & E' & _).
  rewrite (E eq_refl) in Ha. rewrite (E' eq_refl) in Hb. congruence.
Qed.

Definition anderson_laws count :
  0 < Z.of_nat count < 4294967296 → @SpinlockLaws anderson_lock (anderson_spinlock count) count.
Proof.
  intros Hc.
  refine {| ghost := anderson_ghost; idle := (None, 0%nat); holds := anderson_holds; lock_inv := anderson_inv (Z.of_nat count) |}.
  - intros n Hn. by apply anderson_first_ok.
  - apply anderson_inv_excl.
  - intros R n i HR. by apply anderson_lock_wp.
  - done.
  - intros R n i HR. by apply anderson_locked_wp.
  - intros R n i g HR Hg. by apply anderson_unlock_wp.
Defined.
