(* ===== verification/CkRwlock.v ===== *)
(** CkRwlock: the reader-writer lock of Concurrency Kit, include/aerospike/ck/ck_rwlock.h: a word for the
    writer and a count of readers, and the invariant that its operations keep. *)

From Stdlib Require Import ZArith Lia.
From stdpp Require Import base list gmap.
From S2P Require Import Prelude Concurrent CkPr.

#[local] Open Scope Z_scope.

(** [src: include/aerospike/ck/ck_rwlock.h 35-39 ck_rwlock] *)
Record ck_rwlock : Type := MkRwlock { rw_writer : Z; rw_readers : Z }.
Definition rw_writer_loc : loc ck_rwlock Z := MkLoc rw_writer (λ v x, MkRwlock v (rw_readers x)).
Definition rw_readers_loc : loc ck_rwlock Z := MkLoc rw_readers (λ v x, MkRwlock (rw_writer x) v).

(** [src: include/aerospike/ck/ck_rwlock.h 43-51 ck_rwlock_init] *)
Definition ck_rwlock_init : ck_rwlock := MkRwlock 0 0.

Section rwlock.
Context {S : Type} (rw : loc S ck_rwlock).
Abbreviation writer := (rw →' rw_writer_loc).
Abbreviation n_readers := (rw →' rw_readers_loc).

(** [src: include/aerospike/ck/ck_rwlock.h 53-60 ck_rwlock_write_unlock] *)
Definition ck_rwlock_write_unlock : prog S unit := ck_pr_store writer 0.

(** [src: include/aerospike/ck/ck_rwlock.h 62-70 ck_rwlock_locked_writer] *)
Definition ck_rwlock_locked_writer : prog S bool :=
  r ← ck_pr_load writer; mret (negb (r =? 0)).

(** [src: include/aerospike/ck/ck_rwlock.h 72-79 ck_rwlock_write_downgrade] *)
Definition ck_rwlock_write_downgrade : prog S unit :=
  ck_pr_inc 32 n_readers;; ck_rwlock_write_unlock.

(** [src: include/aerospike/ck/ck_rwlock.h 81-90 ck_rwlock_locked] *)
Definition ck_rwlock_locked : prog S bool :=
  r ← ck_pr_load n_readers;
  w ← ck_pr_load writer;
  mret (negb (Z.lor r w =? 0)).

(** [src: include/aerospike/ck/ck_rwlock.h 92-108 ck_rwlock_write_trylock] *)
Definition ck_rwlock_write_trylock : prog S bool :=
  w ← ck_pr_fas writer 1;
  if negb (w =? 0) then mret false
  else
    r ← ck_pr_load n_readers;
    if negb (r =? 0) then ck_rwlock_write_unlock;; mret false
    else mret true.

(** [src: include/aerospike/ck/ck_rwlock.h 113-127 ck_rwlock_write_lock] *)
Definition ck_rwlock_write_lock : prog S unit :=
  while (w ← ck_pr_fas writer 1; mret (negb (w =? 0))) stall;;
  while (r ← ck_pr_load n_readers; mret (negb (r =? 0))) stall.

(** [src: include/aerospike/ck/ck_rwlock.h 133-155 ck_rwlock_read_trylock] *)
Definition ck_rwlock_read_trylock : prog S bool :=
  w ← ck_pr_load writer;
  if negb (w =? 0) then mret false
  else
    ck_pr_inc 32 n_readers;;
    w ← ck_pr_load writer;
    if w =? 0 then mret true
    else ck_pr_dec 32 n_readers;; mret false.

(** [src: include/aerospike/ck/ck_rwlock.h 160-185 ck_rwlock_read_lock] *)
Definition ck_rwlock_read_lock : prog S unit :=
  loop (λ _ : unit,
    while (w ← ck_pr_load writer; mret (negb (w =? 0))) stall;;
    ck_pr_inc 32 n_readers;;
    w ← ck_pr_load writer;
    if w =? 0 then mret (inr tt)
    else ck_pr_dec 32 n_readers;; mret (inl tt)) tt.

(** [src: include/aerospike/ck/ck_rwlock.h 187-193 ck_rwlock_locked_reader] *)
Definition ck_rwlock_locked_reader : prog S bool :=
  r ← ck_pr_load n_readers; mret (negb (r =? 0)).

(** [src: include/aerospike/ck/ck_rwlock.h 195-202 ck_rwlock_read_unlock] *)
Definition ck_rwlock_read_unlock : prog S unit := ck_pr_dec 32 n_readers.
End rwlock.

(** ** The recursive lock

    The writer is the identity of its thread, which must not be 0; the count [wc] of its locks is read and
    written by the writer alone. *)

(** [src: include/aerospike/ck/ck_rwlock.h 211-215 ck_rwlock_recursive] *)
Record ck_rwlock_recursive : Type := MkRecursive { rwr_rw : ck_rwlock; rwr_wc : Z }.
Definition rwr_rw_loc : loc ck_rwlock_recursive ck_rwlock :=
  MkLoc rwr_rw (λ v x, MkRecursive v (rwr_wc x)).
Definition rwr_wc_loc : loc ck_rwlock_recursive Z := MkLoc rwr_wc (λ v x, MkRecursive (rwr_rw x) v).

Section recursive.
Context {S : Type} (rw : loc S ck_rwlock_recursive).
Abbreviation inner := (rw →' rwr_rw_loc).
Abbreviation writer := (inner →' rw_writer_loc).
Abbreviation n_readers := (inner →' rw_readers_loc).

(** [rw->wc++]: a read and a write of a member that is not shared.
    [src: include/aerospike/ck/ck_rwlock.h 238-238 ck_rwlock_recursive_write_lock] *)
Definition recursive_count : prog S unit :=
  wc ← ck_pr_load (rw →' rwr_wc_loc);
  ck_pr_store (rw →' rwr_wc_loc) (uint_add wc 1).

(** [src: include/aerospike/ck/ck_rwlock.h 219-240 ck_rwlock_recursive_write_lock] *)
Definition ck_rwlock_recursive_write_lock (tid : Z) : prog S unit :=
  o ← ck_pr_load writer;
  (if o =? tid then mret tt
   else
     while (b ← ck_pr_cas writer 0 tid; mret (negb b)) stall;;
     while (r ← ck_pr_load n_readers; mret (negb (r =? 0))) stall);;
  recursive_count.

(** [src: include/aerospike/ck/ck_rwlock.h 242-265 ck_rwlock_recursive_write_trylock] *)
Definition ck_rwlock_recursive_write_trylock (tid : Z) : prog S bool :=
  o ← ck_pr_load writer;
  if o =? tid then recursive_count;; mret true
  else
    b ← ck_pr_cas writer 0 tid;
    if negb b then mret false
    else
      r ← ck_pr_load n_readers;
      if negb (r =? 0) then ck_pr_store writer 0;; mret false
      else recursive_count;; mret true.

(** [src: include/aerospike/ck/ck_rwlock.h 267-277 ck_rwlock_recursive_write_unlock] *)
Definition ck_rwlock_recursive_write_unlock : prog S unit :=
  wc ← ck_pr_load (rw →' rwr_wc_loc);
  ck_pr_store (rw →' rwr_wc_loc) (uint_sub wc 1);;
  if uint_sub wc 1 =? 0 then ck_pr_store writer 0 else mret tt.

(** [src: include/aerospike/ck/ck_rwlock.h 279-285 ck_rwlock_recursive_read_lock] *)
Definition ck_rwlock_recursive_read_lock : prog S unit := ck_rwlock_read_lock inner.

(** [src: include/aerospike/ck/ck_rwlock.h 287-292 ck_rwlock_recursive_read_trylock] *)
Definition ck_rwlock_recursive_read_trylock : prog S bool := ck_rwlock_read_trylock inner.

(** [src: include/aerospike/ck/ck_rwlock.h 294-300 ck_rwlock_recursive_read_unlock] *)
Definition ck_rwlock_recursive_read_unlock : prog S unit := ck_rwlock_read_unlock inner.
End recursive.

(** ** Clients

    A thread reads under the lock, writes under it, or writes and goes on as a reader: it counts as a reader
    from before it calls [ck_rwlock_write_downgrade]. *)

Inductive rw_mark : Type :=
  | ReadEnter (i : nat) | ReadLeave (i : nat) | WriteEnter (i : nat) | WriteLeave (i : nat)
  | Downgrade (i : nat).

Inductive rw_use : Type := UseRead | UseTryRead | UseWrite | UseTryWrite | UseDowngrade.

Definition rw_memory : Type := ck_rwlock * list rw_mark.
Definition the_rwlock : loc rw_memory ck_rwlock := MkLoc fst (λ (x : ck_rwlock) (m : rw_memory), (x, m.2)).
Definition rw_log (k : rw_mark) : prog rw_memory unit :=
  atomic (λ m : rw_memory, Ret (tt, (m.1, m.2 ++ [k]))).

Definition end_read (i : nat) : prog rw_memory unit :=
  rw_log (ReadLeave i);; ck_rwlock_read_unlock the_rwlock.

Definition read_section (i : nat) : prog rw_memory unit := rw_log (ReadEnter i);; end_read i.

Definition write_section (i : nat) : prog rw_memory unit :=
  rw_log (WriteEnter i);; rw_log (WriteLeave i);; ck_rwlock_write_unlock the_rwlock.

Definition downgrade_section (i : nat) : prog rw_memory unit :=
  rw_log (WriteEnter i);; rw_log (Downgrade i);; ck_rwlock_write_downgrade the_rwlock;; end_read i.

Definition rw_use_once (i : nat) (u : rw_use) : prog rw_memory unit :=
  match u with
  | UseRead => ck_rwlock_read_lock the_rwlock;; read_section i
  | UseTryRead => b ← ck_rwlock_read_trylock the_rwlock; if (b : bool) then read_section i else mret tt
  | UseWrite => ck_rwlock_write_lock the_rwlock;; write_section i
  | UseTryWrite => b ← ck_rwlock_write_trylock the_rwlock; if (b : bool) then write_section i else mret tt
  | UseDowngrade => ck_rwlock_write_lock the_rwlock;; downgrade_section i
  end.

Fixpoint rw_client (i : nat) (uses : list rw_use) : prog rw_memory unit :=
  match uses with
  | [] => mret tt
  | u :: uses => rw_use_once i u;; rw_client i uses
  end.

Definition rw_clients (uses : list (list rw_use)) : list (prog rw_memory unit) := imap rw_client uses.

(** Who reads and who writes after a log: [None] when a thread wrote while another read or wrote. *)
Definition rw_step (st : gset nat * option nat) (k : rw_mark) : option (gset nat * option nat) :=
  let '(rs, w) := st in
  match k with
  | ReadEnter i => if decide (w = None) then Some ({[i]} ∪ rs, w) else None
  | ReadLeave i => if decide (i ∈ rs) then Some (rs ∖ {[i]}, w) else None
  | WriteEnter i => if decide (w = None ∧ rs = ∅) then Some (rs, Some i) else None
  | WriteLeave i => if decide (w = Some i) then Some (rs, None) else None
  | Downgrade i => if decide (w = Some i) then Some ({[i]} ∪ rs, None) else None
  end.

Definition rw_occupants (tr : list rw_mark) : option (gset nat * option nat) :=
  foldl (λ st k, st ← st; rw_step st k) (Some (∅, None)) tr.

Definition rw_exclusive (tr : list rw_mark) : Prop := is_Some (rw_occupants tr).

Lemma rw_occupants_snoc tr k : rw_occupants (tr ++ [k]) = (st ← rw_occupants tr; rw_step st k).
Proof. unfold rw_occupants. by rewrite foldl_app. Qed.

(** ** The invariant *)

(** Where a thread is: not at the lock; counted as a reader, not yet let in; reading; it set the word of the
    writer; writing; writing, and counted as a reader. *)
Inductive rw_ghost : Type := RwIdle | RwCounted | RwRead | RwOwn | RwWrite | RwDown.

Definition counted (g : rw_ghost) : bool :=
  match g with RwCounted | RwRead | RwDown => true | _ => false end.
Definition owns (g : rw_ghost) : bool := match g with RwOwn | RwWrite | RwDown => true | _ => false end.
Definition writes (g : rw_ghost) : bool := match g with RwWrite | RwDown => true | _ => false end.

Abbreviation count := (tally counted).

(** The count of the readers; the word of the one thread that owns it; no thread reads while one writes. *)
Definition rw_inv (x : ck_rwlock) (gs : list rw_ghost) : Prop :=
  rw_readers x = count gs ∧
  (∃ o : option nat, rw_writer x = match o with Some _ => 1 | None => 0 end
     ∧ ∀ i g, gs !! i = Some g → owns g = true ↔ o = Some i) ∧
  (∀ i j g, gs !! i = Some g → writes g = true → gs !! j ≠ Some RwRead) ∧
  Z.of_nat (length gs) < 4294967296.

(** What a step of a thread from [g] to [g'] may do. *)
Definition writer_moves (w w' : Z) (g g' : rw_ghost) : Prop :=
  owns g' = owns g ∧ w' = w ∨ owns g = false ∧ owns g' = true ∧ w = 0 ∧ w' = 1
  ∨ owns g = true ∧ owns g' = false ∧ w' = 0.

Lemma rw_inv_writer x gs i g :
  rw_inv x gs → gs !! i = Some g → owns g = true → rw_writer x = 1.
Proof. intros (_ & (o & -> & H) & _) Hi Hg%(H i g Hi). by subst. Qed.

Lemma rw_inv_move x gs i g g' w' :
  rw_inv x gs → gs !! i = Some g →
  writer_moves (rw_writer x) w' g g' →
  (writes g' = true → writes g = true ∨ rw_readers x = 0) →
  (g' = RwRead → rw_writer x = 0 ∨ owns g = true) →
  rw_inv (MkRwlock w' (rw_readers x - Z.b2z (counted g) + Z.b2z (counted g'))) (<[i := g']> gs).
Proof.
  intros HI Hi Hw Hwrites Hread. pose proof (λ j y, rw_inv_writer x gs j y HI) as Hone.
  destruct HI as (Hr & (o & Ho & Hown) & Hex & Hlen).
  pose proof (lookup_lt_Some _ _ _ Hi) as Hlt.
  assert (∀ j y, <[i := g']> gs !! j = Some y → i = j ∧ y = g' ∨ i ≠ j ∧ gs !! j = Some y) as Hcase.
  { intros j y Hy. destruct (decide (i = j)) as [<-|]; [left|right]; split; try done.
    - rewrite list_lookup_insert_eq in Hy by done. congruence.
    - by rewrite list_lookup_insert_ne in Hy. }
  split; [|split; [|split]]; cbn [rw_readers rw_writer].
  - by rewrite (tally_insert _ _ _ _ _ Hi), Hr.
  - exists (if owns g' then Some i else if owns g then None else o). split.
    + destruct Hw as [[-> ->]|[(-> & -> & _ & ->)|(-> & -> & ->)]]; [|done|done].
      destruct (owns g) eqn:E; [|done]. rewrite Ho. apply (Hown i g Hi) in E as ->. done.
    + intros j y [[<- ->]|[Hne Hj]]%Hcase.
      * destruct (owns g'); [done|]. split; [done|]. destruct (owns g) eqn:E; [done|].
        intros ->. assert (owns g = true) by (by apply (Hown i g Hi)). congruence.
      * pose proof (Hown j y Hj) as Hy. rewrite Hy.
        destruct (owns g') eqn:E'; [|destruct (owns g) eqn:E].
        -- assert (o = None ∨ o = Some i) as [->| ->]; [|split; congruence..].
           destruct Hw as [[E _]|[(_ & _ & E & _)|(_ & E & _)]]; [| |congruence].
           ++ right. apply (Hown i g Hi). congruence.
           ++ left. rewrite Ho in E. by destruct o.
        -- apply (Hown i g Hi) in E as ->. split; congruence.
        -- done.
  - intros j k y [[<- ->]|[Hne Hj]]%Hcase Hy Hk.
    + apply Hcase in Hk as [[<- <-]|[_ Hk]]; [done|].
      destruct (Hwrites Hy) as [Hg|Hg]; [by apply (Hex i k g Hi Hg)|].
      pose proof (tally_pos counted gs k RwRead Hk eq_refl). lia.
    + assert (owns y = true) as Hoy by by destruct y.
      apply Hcase in Hk as [[<- <-]|[_ Hk]]; [|by apply (Hex j k y Hj Hy)].
      destruct (Hread eq_refl) as [E|E]; [by rewrite (Hone j y Hj Hoy) in E|].
      apply (Hown i g Hi) in E. apply (Hown j y Hj) in Hoy. congruence.
  - by rewrite length_insert.
Qed.

Lemma rw_readers_range x gs : rw_inv x gs → 0 ≤ rw_readers x < 4294967296.
Proof. intros (-> & _ & _ & H). pose proof (tally_range counted gs). lia. Qed.

(** * What the operations of the reader-writer lock do to the invariant, and that their clients exclude each other. *)

#[local] Set Warnings "-clear-no-such-hyp".

(** ** The operations *)

(** What a client does: it counts as a reader, or as a writer. *)
Inductive rw_flag : Type := Outside | Reading | Writing.

#[export] Instance rw_flag_eq_dec : EqDecision rw_flag.
Proof. solve_decision. Defined.

Section operations.
Context (R : list rw_mark → list (rw_ghost * rw_flag) → Prop) (Rs : outside_stable Outside R).
Abbreviation rw_wp := (outside_wp Outside rw_inv R).
Abbreviation writer := (the_rwlock →' rw_writer_loc).
Abbreviation n_readers := (the_rwlock →' rw_readers_loc).

(** Nothing is written. *)
Lemma rw_inv_ghost x gs i g g' :
  rw_inv x gs → gs !! i = Some g → counted g' = counted g → owns g' = owns g →
  (writes g' = true → writes g = true ∨ rw_readers x = 0) →
  (g' = RwRead → rw_writer x = 0 ∨ owns g = true) →
  rw_inv x (<[i := g']> gs).
Proof.
  intros HI Hi Hc Ho Hw Hr.
  pose proof (rw_inv_move x gs i g g' (rw_writer x) HI Hi (or_introl (conj Ho eq_refl)) Hw Hr) as H.
  rewrite Hc in H. destruct x as [w r]. cbn in H. by replace (r - Z.b2z (counted g) + Z.b2z (counted g)) with r in H by lia.
Qed.

Lemma rw_load_wp n (p : loc ck_rwlock Z) i (Q : Z → rw_ghost → Prop) g :
  (∀ v, Q v g) → rw_wp n (ck_pr_load (the_rwlock →' p)) i Q g.
Proof.
  intros HQ. apply outside_wp_atomic; [done|]. intros s tr gs HI Hi.
  eexists _, _, g. split; [reflexivity|]. by rewrite list_insert_id.
Qed.

(** A reader that is counted is let in when it finds no writer. *)
Lemma rw_admit_wp n i (Q : Z → rw_ghost → Prop) :
  Q 0 RwRead → (∀ v, v ≠ 0 → Q v RwCounted) → rw_wp n (ck_pr_load writer) i Q RwCounted.
Proof.
  intros H0 H1. apply outside_wp_atomic; [done|]. intros s tr gs HI Hi.
  destruct (Z.eq_dec (rw_writer s) 0) as [E|E].
  - eexists _, _, RwRead. split; [reflexivity|]. split; [|by cbn; rewrite E].
    apply (rw_inv_ghost s gs i RwCounted); auto; done.
  - eexists _, _, RwCounted. split; [reflexivity|]. rewrite list_insert_id by done. split; [done|].
    by apply H1.
Qed.

(** A writer that has the word is let in when it finds no reader. *)
Lemma rw_alone_wp n i (Q : Z → rw_ghost → Prop) :
  Q 0 RwWrite → (∀ v, v ≠ 0 → Q v RwOwn) → rw_wp n (ck_pr_load n_readers) i Q RwOwn.
Proof.
  intros H0 H1. apply outside_wp_atomic; [done|]. intros s tr gs HI Hi.
  destruct (Z.eq_dec (rw_readers s) 0) as [E|E].
  - eexists _, _, RwWrite. split; [reflexivity|]. split; [|by cbn; rewrite E].
    apply (rw_inv_ghost s gs i RwOwn); auto; done.
  - eexists _, _, RwOwn. split; [reflexivity|]. rewrite list_insert_id by done. split; [done|].
    by apply H1.
Qed.

Lemma rw_fas_wp n i (Q : Z → rw_ghost → Prop) :
  Q 0 RwOwn → (∀ v, v ≠ 0 → Q v RwIdle) → rw_wp n (ck_pr_fas writer 1) i Q RwIdle.
Proof.
  intros H0 H1. apply outside_wp_atomic; [done|]. intros [w r] tr gs HI Hi.
  pose proof HI as (_ & (o & Ho & _) & _). cbn in Ho. destruct o as [k|]; subst w.
  - eexists _, _, RwIdle. split; [reflexivity|]. rewrite list_insert_id by done. split; [done|]. by apply H1.
  - eexists _, _, RwOwn. split; [reflexivity|]. split; [|done].
    pose proof (rw_inv_move _ gs i RwIdle RwOwn 1 HI Hi) as H. cbn in H.
    replace (r - 0 + 0) with r in H by lia. apply H; unfold writer_moves; cbn; naive_solver.
Qed.

Lemma rw_inc_wp n i : rw_wp n (ck_pr_inc 32 n_readers) i (λ _ g, g = RwCounted) RwIdle.
Proof.
  apply outside_wp_atomic; [done|]. intros [w r] tr gs HI Hi.
  eexists _, _, RwCounted. split; [reflexivity|]. split; [|done].
  pose proof (rw_inv_move _ gs i RwIdle RwCounted w HI Hi) as H. cbn in H.
  replace (r - 0 + 1) with (r + 1) in H by lia.
  assert (rw_inv (MkRwlock w (r + 1)) (<[i := RwCounted]> gs)) as H'
    by (apply H; unfold writer_moves; cbn; naive_solver).
  pose proof (rw_readers_range _ _ H') as Hr. pose proof (rw_readers_range _ _ HI) as Hr'. cbn in Hr, Hr' |- *.
  by rewrite u32_small by lia.
Qed.

(** A reader goes, whether it was let in or not. *)
Lemma rw_dec_wp n i g :
  counted g = true → owns g = false → rw_wp n (ck_pr_dec 32 n_readers) i (λ _ g, g = RwIdle) g.
Proof.
  intros Hc Ho. apply outside_wp_atomic; [done|]. intros [w r] tr gs HI Hi.
  eexists _, _, RwIdle. split; [reflexivity|]. split; [|done].
  pose proof (rw_inv_move _ gs i g RwIdle w HI Hi) as H. rewrite Hc in H. cbn in H.
  replace (r - 1 + 0) with (r - 1) in H by lia.
  assert (rw_inv (MkRwlock w (r - 1)) (<[i := RwIdle]> gs)) as H'
    by (apply H; unfold writer_moves; cbn; naive_solver).
  pose proof (rw_readers_range _ _ H') as Hr. pose proof (rw_readers_range _ _ HI) as Hr'. cbn in Hr, Hr' |- *.
  by rewrite u32_small by lia.
Qed.

(** A writer goes, whether it was let in or not. *)
Lemma rw_write_unlock_wp n i g :
  counted g = false → owns g = true →
  rw_wp n (ck_rwlock_write_unlock the_rwlock) i (λ _ g, g = RwIdle) g.
Proof.
  intros Hc Ho. apply outside_wp_atomic; [done|]. intros [w r] tr gs HI Hi.
  eexists _, _, RwIdle. split; [reflexivity|]. split; [|done].
  pose proof (rw_inv_move _ gs i g RwIdle 0 HI Hi) as H. rewrite Hc in H. cbn in H.
  replace (r - 0 + 0) with r in H by lia. apply H; unfold writer_moves; cbn; naive_solver.
Qed.

Lemma rw_spin_wp n i (p : loc ck_rwlock Z) g :
  rw_wp n (while (v ← ck_pr_load (the_rwlock →' p); mret (negb (v =? 0))) stall) i (λ _ g', g' = g) g.
Proof.
  apply (outside_wp_while _ _ _ _ _ _ (λ g', g' = g)); [done|]. intros m g' ->.
  apply outside_wp_bind, rw_load_wp. intros v. apply outside_wp_ret.
  destruct (v =? 0); [done | by apply outside_wp_stall].
Qed.

Lemma rw_write_lock_wp n i :
  rw_wp n (ck_rwlock_write_lock the_rwlock) i (λ _ g, g = RwWrite) RwIdle.
Proof.
  apply outside_wp_bind. apply (outside_wp_while _ _ _ _ _ _ (λ g, g = RwIdle)); [done|].
  intros m g ->. apply outside_wp_bind, rw_fas_wp; [|intros v Hv]; apply outside_wp_ret.
  - apply (outside_wp_while _ _ _ _ _ _ (λ g, g = RwOwn)); [done|]. clear m.
    intros m g ->. apply outside_wp_bind, rw_alone_wp; [by apply outside_wp_ret|].
    intros v Hv. apply outside_wp_ret. apply Z.eqb_neq in Hv as ->. by apply outside_wp_stall.
  - apply Z.eqb_neq in Hv as ->. by apply outside_wp_stall.
Qed.

Lemma rw_write_trylock_wp n i :
  rw_wp n (ck_rwlock_write_trylock the_rwlock) i
    (λ b g, g = if (b : bool) then RwWrite else RwIdle) RwIdle.
Proof.
  apply outside_wp_bind, rw_fas_wp; [|intros v Hv]; cbn [Z.eqb negb].
  - apply outside_wp_bind, rw_alone_wp; [by apply outside_wp_ret|]. intros v Hv.
    apply Z.eqb_neq in Hv as ->. cbn [negb]. apply outside_wp_bind.
    eapply outside_wp_mono; [by apply rw_write_unlock_wp|]. intros _ g ->. by apply outside_wp_ret.
  - apply Z.eqb_neq in Hv as ->. by apply outside_wp_ret.
Qed.

(** A reader that is counted finds no writer, or goes again. *)
Lemma rw_enter_wp n i {A} (yes no : A) :
  rw_wp n (ck_pr_inc 32 n_readers;;
           w ← ck_pr_load writer;
           if w =? 0 then mret yes else ck_pr_dec 32 n_readers;; mret no) i
    (λ a g, a = yes ∧ g = RwRead ∨ a = no ∧ g = RwIdle) RwIdle.
Proof.
  apply outside_wp_bind. eapply outside_wp_mono; [apply rw_inc_wp|]. intros _ g ->.
  apply outside_wp_bind, rw_admit_wp; [by apply outside_wp_ret; left|]. intros v Hv.
  apply Z.eqb_neq in Hv as ->. apply outside_wp_bind.
  eapply outside_wp_mono; [by apply rw_dec_wp|]. intros _ g ->. by apply outside_wp_ret; right.
Qed.

Lemma rw_read_trylock_wp n i :
  rw_wp n (ck_rwlock_read_trylock the_rwlock) i
    (λ b g, g = if (b : bool) then RwRead else RwIdle) RwIdle.
Proof.
  apply outside_wp_bind, rw_load_wp. intros v. destruct (v =? 0); cbn [negb]; [|by apply outside_wp_ret].
  eapply outside_wp_mono; [apply rw_enter_wp|]. by intros b g [[-> ->]|[-> ->]].
Qed.

Lemma rw_read_lock_wp n i :
  rw_wp n (ck_rwlock_read_lock the_rwlock) i (λ _ g, g = RwRead) RwIdle.
Proof.
  apply (wp_loop _ _ _ _ _ (λ _ l, l = (RwIdle, Outside))); [done|]. clear n. intros n _ l ->.
  apply wp_bind. eapply wp_mono; [apply rw_spin_wp|]. intros _ [g f] [[= ->] [= ->]].
  eapply wp_mono; [apply rw_enter_wp|]. intros r [g f] [[= ->] [[-> E]|[-> E]]]; cbn in E; by subst.
Qed.
End operations.

(** ** The clients *)

(** The readers and the writer of the log are the threads with the flags, and those are let in. *)
Definition rw_log_inv (tr : list rw_mark) (ls : list (rw_ghost * rw_flag)) : Prop :=
  ∃ rs w, rw_occupants tr = Some (rs, w)
    ∧ (∀ i, i ∈ rs ↔ ∃ g, ls !! i = Some (g, Reading))
    ∧ (∀ i, w = Some i ↔ ∃ g, ls !! i = Some (g, Writing))
    ∧ (∀ i g, ls !! i = Some (g, Reading) → g = RwRead ∨ writes g = true)
    ∧ (∀ i g, ls !! i = Some (g, Writing) → g = RwWrite).

Lemma flag_insert (ls : list (rw_ghost * rw_flag)) i j x g f :
  ls !! i = Some x →
  (∃ y, <[i := (g, f)]> ls !! j = Some (y, f)) ↔ j = i ∨ ∃ y, ls !! j = Some (y, f).
Proof.
  intros Hi. destruct (decide (j = i)) as [->|Hne].
  - rewrite list_lookup_insert_eq by (by eapply lookup_lt_Some). naive_solver.
  - rewrite list_lookup_insert_ne by done. naive_solver.
Qed.

Lemma flag_insert_ne (ls : list (rw_ghost * rw_flag)) i j x g f f' :
  ls !! i = Some x → f ≠ f' →
  (∃ y, <[i := (g, f)]> ls !! j = Some (y, f')) ↔ j ≠ i ∧ ∃ y, ls !! j = Some (y, f').
Proof.
  intros Hi Hf. destruct (decide (j = i)) as [->|Hne].
  - rewrite list_lookup_insert_eq by (by eapply lookup_lt_Some). naive_solver.
  - rewrite list_lookup_insert_ne by done. naive_solver.
Qed.

Lemma rw_log_stable : outside_stable Outside rw_log_inv.
Proof.
  intros tr ls i g g' Hi (rs & w & Hrs & H1 & H2 & H3 & H4). exists rs, w. split; [done|].
  split; [|split; [|split]].
  - intros j. rewrite (flag_insert_ne _ _ _ _ _ _ _ Hi), H1 by done. naive_solver.
  - intros j. rewrite (flag_insert_ne _ _ _ _ _ _ _ Hi), H2 by done. naive_solver.
  - intros j y [[-> [=]]|[_ Hj]]%insert_case. eauto.
  - intros j y [[-> [=]]|[_ Hj]]%insert_case. eauto.
Qed.

Abbreviation rw_client_inv := (framed rw_inv rw_log_inv).

(** A line of the log, with the flag of the thread. *)
Lemma rw_log_wp n i k g f f' :
  (∀ s tr ls, rw_inv s ls.*1 → rw_log_inv tr ls → ls !! i = Some (g, f) →
     rw_log_inv (tr ++ [k]) (<[i := (g, f')]> ls)) →
  wp rw_client_inv n (rw_log k) i (λ _ l, l = (g, f')) (g, f).
Proof.
  intros H. apply wp_atomic. intros [s tr] ls [HI HR] Hl. cbn [fst snd] in *.
  exists tt, (s, tr ++ [k]), (g, f'). split; [done|]. split; [|done]. split; cbn [fst snd]; [|by eapply H].
  rewrite list_fmap_insert. cbn. rewrite list_insert_id; [done|]. by rewrite list_lookup_fmap, Hl.
Qed.

Lemma fst_lookup {A B} (ls : list (A * B)) i x y : ls !! i = Some (x, y) → ls.*1 !! i = Some x.
Proof. intros H. by rewrite list_lookup_fmap, H. Qed.

Lemma read_enter_wp n i :
  wp rw_client_inv n (rw_log (ReadEnter i)) i (λ _ l, l = (RwRead, Reading)) (RwRead, Outside).
Proof.
  apply rw_log_wp. intros s tr ls (_ & _ & Hex & _) (rs & w & Hrs & H1 & H2 & H3 & H4) Hi.
  assert (w = None) as ->.
  { destruct w as [j|]; [|done]. destruct (proj1 (H2 j) eq_refl) as [g Hj].
    pose proof (H4 j g Hj) as ->. exfalso.
    apply (Hex j i RwWrite); [by eapply fst_lookup | done | by eapply fst_lookup]. }
  exists ({[i]} ∪ rs), None. rewrite rw_occupants_snoc, Hrs. split; [done|].
  split; [|split; [|split]].
  - intros j. rewrite (flag_insert _ _ _ _ _ _ Hi), <- H1. set_solver.
  - intros j. rewrite (flag_insert_ne _ _ _ _ _ _ _ Hi), <- H2 by done. naive_solver.
  - intros j y [[-> [= ->]]|[_ Hj]]%insert_case; eauto.
  - intros j y [[-> [=]]|[_ Hj]]%insert_case; eauto.
Qed.

Lemma read_leave_wp n i :
  wp rw_client_inv n (rw_log (ReadLeave i)) i (λ _ l, l = (RwRead, Outside)) (RwRead, Reading).
Proof.
  apply rw_log_wp. intros s tr ls _ (rs & w & Hrs & H1 & H2 & H3 & H4) Hi.
  exists (rs ∖ {[i]}), w. rewrite rw_occupants_snoc, Hrs. cbn. rewrite decide_True by (apply H1; eauto).
  split; [done|]. split; [|split; [|split]].
  - intros j. rewrite (flag_insert_ne _ _ _ _ _ _ _ Hi), <- H1 by done. set_solver.
  - intros j. rewrite (flag_insert_ne _ _ _ _ _ _ _ Hi), H2 by done. naive_solver.
  - intros j y [[-> [=]]|[_ Hj]]%insert_case; eauto.
  - intros j y [[-> [=]]|[_ Hj]]%insert_case; eauto.
Qed.

(** A writer that is let in is alone. *)
Lemma rw_write_alone s ls i j g f :
  rw_inv s ls.*1 → ls !! i = Some (RwWrite, f) → ls !! j = Some (g, Reading) ∨ ls !! j = Some (g, Writing) →
  (g = RwRead ∨ writes g = true) → i = j.
Proof.
  intros (_ & (o & _ & Hown) & Hex & _) Hi%fst_lookup Hj Hg.
  assert (ls.*1 !! j = Some g) as Hj' by (by destruct Hj as [Hj|Hj]; eapply fst_lookup).
  destruct Hg as [->|Hg]; [by destruct (Hex i j RwWrite Hi eq_refl)|].
  assert (o = Some i) by (by apply (Hown i RwWrite)).
  assert (o = Some j) by (apply (Hown j g Hj'); by destruct g). congruence.
Qed.

Lemma write_enter_wp n i :
  wp rw_client_inv n (rw_log (WriteEnter i)) i (λ _ l, l = (RwWrite, Writing)) (RwWrite, Outside).
Proof.
  apply rw_log_wp. intros s tr ls HI (rs & w & Hrs & H1 & H2 & H3 & H4) Hi.
  assert (w = None) as ->.
  { destruct w as [j|]; [|done]. destruct (proj1 (H2 j) eq_refl) as [g Hj].
    assert (i = j) as <-; [|congruence].
    eapply (rw_write_alone s ls i j g); [done..| by right |]. right. by rewrite (H4 j g Hj). }
  assert (rs = ∅) as ->.
  { apply set_eq. intros j. split; [|set_solver]. intros [g Hj]%H1.
    assert (i = j) as <-; [|congruence]. eapply (rw_write_alone s ls i j g); eauto. }
  exists ∅, (Some i). rewrite rw_occupants_snoc, Hrs. cbn. rewrite decide_True by done. split; [done|].
  split; [|split; [|split]].
  - intros j. rewrite (flag_insert_ne _ _ _ _ _ _ _ Hi), <- H1 by done. set_solver.
  - intros j. rewrite (flag_insert _ _ _ _ _ _ Hi), <- H2. naive_solver.
  - intros j y [[-> [=]]|[_ Hj]]%insert_case; eauto.
  - intros j y [[-> [= ->]]|[_ Hj]]%insert_case; eauto.
Qed.

(** The only writer leaves, for good or to go on as a reader. *)
Lemma write_out tr ls i f' k rs' :
  rw_log_inv tr ls → ls !! i = Some (RwWrite, Writing) → f' ≠ Writing →
  (∀ rs, rw_step (rs, Some i) k = Some (rs' rs, None)) →
  (∀ rs j, j ∈ rs' rs ↔ j ∈ rs ∨ j = i ∧ f' = Reading) →
  rw_log_inv (tr ++ [k]) (<[i := (RwWrite, f')]> ls).
Proof.
  intros (rs & w & Hrs & H1 & H2 & H3 & H4) Hi Hf Hk Hrs'.
  assert (w = Some i) as -> by (apply H2; eauto).
  exists (rs' rs), None. rewrite rw_occupants_snoc, Hrs. cbn -[rw_step]. split; [apply Hk|].
  split; [|split; [|split]].
  - intros j. rewrite Hrs', H1. destruct (decide (f' = Reading)) as [->|Hne].
    + rewrite (flag_insert _ _ _ _ _ _ Hi). naive_solver.
    + rewrite (flag_insert_ne _ _ _ _ _ _ _ Hi) by done. naive_solver.
  - intros j. rewrite (flag_insert_ne _ _ _ _ _ _ _ Hi), <- H2 by done. naive_solver.
  - intros j y [[-> [= -> <-]]|[_ Hj]]%insert_case; eauto.
  - intros j y [[-> [= -> <-]]|[_ Hj]]%insert_case; eauto; done.
Qed.

Lemma write_leave_wp n i :
  wp rw_client_inv n (rw_log (WriteLeave i)) i (λ _ l, l = (RwWrite, Outside)) (RwWrite, Writing).
Proof.
  apply rw_log_wp. intros s tr ls _ HR Hi. apply (write_out tr ls i Outside _ id); [done..| |].
  - intros rs. cbn. by rewrite decide_True.
  - cbn. naive_solver.
Qed.

Lemma downgrade_log_wp n i :
  wp rw_client_inv n (rw_log (Downgrade i)) i (λ _ l, l = (RwWrite, Reading)) (RwWrite, Writing).
Proof.
  apply rw_log_wp. intros s tr ls _ HR Hi. apply (write_out tr ls i Reading _ (λ rs, {[i]} ∪ rs)); [done..| |].
  - intros rs. cbn. by rewrite decide_True.
  - set_solver.
Qed.

(** While it counts as a reader, a thread may move from writing to reading. *)
Lemma rw_log_reading tr ls i g g' :
  rw_log_inv tr ls → ls !! i = Some (g, Reading) → g' = RwRead ∨ writes g' = true →
  rw_log_inv tr (<[i := (g', Reading)]> ls).
Proof.
  intros (rs & w & Hrs & H1 & H2 & H3 & H4) Hi Hg. exists rs, w. split; [done|].
  split; [|split; [|split]].
  - intros j. rewrite (flag_insert _ _ _ _ _ _ Hi), H1. naive_solver.
  - intros j. rewrite (flag_insert_ne _ _ _ _ _ _ _ Hi), H2 by done. naive_solver.
  - intros j y [[-> [= ->]]|[_ Hj]]%insert_case; eauto.
  - intros j y [[-> [=]]|[_ Hj]]%insert_case; eauto.
Qed.

Lemma write_downgrade_wp n i :
  wp rw_client_inv n (ck_rwlock_write_downgrade the_rwlock) i (λ _ l, l = (RwRead, Reading)) (RwWrite, Reading).
Proof.
  apply wp_bind, wp_atomic. intros [[w r] tr] ls [HI HR] Hl. cbn [fst snd] in *.
  pose proof (fst_lookup _ _ _ _ Hl) as Hi.
  assert (rw_inv (MkRwlock w (r + 1)) (<[i := RwDown]> ls.*1)) as H'.
  { replace (r + 1) with (r - Z.b2z (counted RwWrite) + Z.b2z (counted RwDown)) by (cbn; lia).
    apply (rw_inv_move (MkRwlock w r)); [done..| | |]; unfold writer_moves; cbn; naive_solver. }
  pose proof (rw_readers_range _ _ H') as Hr. pose proof (rw_readers_range _ _ HI) as Hr'. cbn in Hr, Hr'.
  eexists _, _, (RwDown, Reading). split; [reflexivity|]. split.
  { split; cbn [fst snd]; [|eapply rw_log_reading; eauto]. rewrite list_fmap_insert. cbn.
    by rewrite u32_small by lia. }
  clear -n. apply wp_atomic. intros [[w r] tr] ls [HI HR] Hl. cbn [fst snd] in *.
  pose proof (fst_lookup _ _ _ _ Hl) as Hi.
  eexists _, _, (RwRead, Reading). split; [reflexivity|]. split; [|done].
  split; cbn [fst snd]; [|eapply rw_log_reading; eauto]. rewrite list_fmap_insert. cbn.
  pose proof (rw_inv_move (MkRwlock w r) _ i RwDown RwRead 0 HI Hi) as H. cbn in H.
  replace (r - 1 + 1) with r in H by lia. apply H; unfold writer_moves; cbn; naive_solver.
Qed.

Lemma end_read_wp n i :
  wp rw_client_inv n (end_read i) i (λ _ l, l = (RwIdle, Outside)) (RwRead, Reading).
Proof.
  apply wp_bind. eapply wp_mono; [apply read_leave_wp|]. intros _ l ->.
  eapply wp_mono; [by apply rw_dec_wp; [apply rw_log_stable|..]|]. by intros _ [g f] [[= ->] [= ->]].
Qed.

Lemma read_section_wp n i :
  wp rw_client_inv n (read_section i) i (λ _ l, l = (RwIdle, Outside)) (RwRead, Outside).
Proof.
  apply wp_bind. eapply wp_mono; [apply read_enter_wp|]. intros _ l ->. apply end_read_wp.
Qed.

Lemma write_section_wp n i :
  wp rw_client_inv n (write_section i) i (λ _ l, l = (RwIdle, Outside)) (RwWrite, Outside).
Proof.
  apply wp_bind. eapply wp_mono; [apply write_enter_wp|]. intros _ l ->.
  apply wp_bind. eapply wp_mono; [apply write_leave_wp|]. intros _ l ->.
  eapply wp_mono; [by apply rw_write_unlock_wp; [apply rw_log_stable|..]|].
  by intros _ [g f] [[= ->] [= ->]].
Qed.

Lemma downgrade_section_wp n i :
  wp rw_client_inv n (downgrade_section i) i (λ _ l, l = (RwIdle, Outside)) (RwWrite, Outside).
Proof.
  apply wp_bind. eapply wp_mono; [apply write_enter_wp|]. intros _ l ->.
  apply wp_bind. eapply wp_mono; [apply downgrade_log_wp|]. intros _ l ->.
  apply wp_bind. eapply wp_mono; [apply write_downgrade_wp|]. intros _ l ->. apply end_read_wp.
Qed.

Lemma rw_use_once_wp n i u :
  wp rw_client_inv n (rw_use_once i u) i (λ _ l, l = (RwIdle, Outside)) (RwIdle, Outside).
Proof.
  destruct u; apply wp_bind.
  - eapply wp_mono; [apply rw_read_lock_wp, rw_log_stable|]. intros _ [g f] [[= ->] [= ->]].
    apply read_section_wp.
  - eapply wp_mono; [apply rw_read_trylock_wp, rw_log_stable|]. intros b [g f] [[= ->] Hg]. cbn in Hg. subst.
    destruct b; [apply read_section_wp | by apply wp_ret].
  - eapply wp_mono; [apply rw_write_lock_wp, rw_log_stable|]. intros _ [g f] [[= ->] [= ->]].
    apply write_section_wp.
  - eapply wp_mono; [apply rw_write_trylock_wp, rw_log_stable|]. intros b [g f] [[= ->] Hg]. cbn in Hg. subst.
    destruct b; [apply write_section_wp | by apply wp_ret].
  - eapply wp_mono; [apply rw_write_lock_wp, rw_log_stable|]. intros _ [g f] [[= ->] [= ->]].
    apply downgrade_section_wp.
Qed.

Lemma rw_client_wp n i uses :
  wp rw_client_inv n (rw_client i uses) i (λ _ l, l = (RwIdle, Outside)) (RwIdle, Outside).
Proof.
  revert n. induction uses as [|u uses IH]; intros n; cbn [rw_client]; [by apply wp_ret|].
  apply wp_bind. eapply wp_mono; [apply rw_use_once_wp|]. intros _ l ->. apply IH.
Qed.

(** Whatever the threads do with the lock and however their steps interleave, no thread faults, and no thread
    writes while another reads or writes. *)
Lemma rwlock_exclusive uses s tr ts :
  Z.of_nat (length uses) < 4294967296 →
  reaches (ck_rwlock_init, []) (rw_clients uses) (s, tr) ts →
  rw_exclusive tr ∧ ¬ pool_faults (s, tr, ts).
Proof.
  intros Hlen Hr.
  destruct (wp_sound rw_client_inv (ck_rwlock_init, []) (rw_clients uses)
    (replicate (length uses) (RwIdle, Outside)) (s, tr) ts)
    as [(ls & _ & _ & (rs & w & Hc & _)) Hf]; [| | | exact Hr | split; [by exists (rs, w) | done]].
  - unfold rw_clients. by rewrite length_imap, length_replicate.
  - assert (∀ i g f, replicate (length uses) (RwIdle, Outside) !! i = Some (g, f) → g = RwIdle ∧ f = Outside) as Hrep.
    { intros i g f Hi. apply lookup_replicate in Hi as [[= -> ->] _]. done. }
    split; cbn [fst snd].
    + rewrite fmap_replicate. cbn. split; [by rewrite tally_none|]. split; [|split].
      * exists None. split; [done|]. intros i g Hi. by apply lookup_replicate in Hi as [-> _].
      * intros i j g Hi Hg. by apply lookup_replicate in Hi as [-> _].
      * by rewrite length_replicate.
    + exists ∅, None. split; [done|]. split; [|split; [|split]]; [set_solver|..];
        [split; [done|] | |]; intros; repeat match goal with H : ∃ _, _ |- _ => destruct H end;
        match goal with H : _ !! _ = Some _ |- _ => by apply Hrep in H as [-> ?] end.
  - intros i t l n Ht Hl. apply lookup_replicate in Hl as [-> _].
    unfold rw_clients in Ht. rewrite list_lookup_imap in Ht.
    destruct (uses !! i) as [us|]; [|done]. injection Ht as <-.
    eapply wp_mono; [apply rw_client_wp | done].
Qed.
