(* ===== verification/CkRwMutex.v ===== *)
(** CkRwMutex: what the reader-writer locks of Concurrency Kit promise to the threads that use them: an interface with
    its laws, and that clients of any lock that satisfies them exclude each other.

    A lock may have several ways to be taken: some that wait, some that only try, and some locks let only one
    thread write.  The marks of the log, and what they exclude, are those of CkRwlock. *)

From Stdlib Require Import ZArith Lia.
From stdpp Require Import base list gmap sets.
From S2P Require Import Prelude Concurrent CkRwlock.

#[local] Set Warnings "-clear-no-such-hyp".

(** ** Locks *)

(** A way to take the lock as a writer, to leave it, and, where there is one, to go on as a reader.  What takes the
    lock returns whether it did. *)
Record write_way (S T : Type) : Type := MkWay {
  ww_lock : loc S T → prog S bool;
  ww_unlock : loc S T → prog S unit;
  ww_downgrade : option (loc S T → prog S unit)
}.
Arguments MkWay {S T} _ _ _.
Arguments ww_lock {S T} _ _.
Arguments ww_unlock {S T} _ _.
Arguments ww_downgrade {S T} _.

(** Waiting for the lock is taking it. *)
Definition waits {S T} (f : loc S T → prog S unit) (l : loc S T) : prog S bool := f l;; mret true.

(** Some operations are given which thread it is that calls them. *)
Class RwSpinlock (T : Type) := {
  rws_init : T;
  rws_reads {S} : nat → list (loc S T → prog S bool);
  rws_read_unlock {S} : nat → loc S T → prog S unit;
  rws_writes {S} : nat → list (write_way S T);
  rws_may_write : nat → bool
}.

(** ** Clients *)

(** What a thread does: read, or write, after taking the lock in the [k]-th way; write and then read. *)
Inductive rws_use : Type := RwsRead (k : nat) | RwsWrite (k : nat) | RwsDowngrade (k : nat).

Section client.
Context {T : Type} `{!RwSpinlock T}.

Definition rws_memory : Type := T * list rw_mark.
Definition the_rws : loc rws_memory T := MkLoc fst (λ (x : T) (m : rws_memory), (x, m.2)).
Definition rws_log (k : rw_mark) : prog rws_memory unit := atomic (λ m : rws_memory, Ret (tt, (m.1, m.2 ++ [k]))).

Definition rws_read_section (i : nat) : prog rws_memory unit :=
  rws_log (ReadEnter i);; rws_log (ReadLeave i);; rws_read_unlock i the_rws.

Definition rws_use_once (i : nat) (u : rws_use) : prog rws_memory unit :=
  match u with
  | RwsRead k =>
      match rws_reads i !! k with
      | Some f => b ← f the_rws; if (b : bool) then rws_read_section i else mret tt
      | None => mret tt
      end
  | RwsWrite k =>
      match rws_writes i !! k, rws_may_write i with
      | Some w, true =>
          b ← ww_lock w the_rws;
          if (b : bool) then rws_log (WriteEnter i);; rws_log (WriteLeave i);; ww_unlock w the_rws else mret tt
      | _, _ => mret tt
      end
  | RwsDowngrade k =>
      match rws_writes i !! k, rws_may_write i with
      | Some w, true =>
          match ww_downgrade w with
          | Some d =>
              b ← ww_lock w the_rws;
              if (b : bool) then rws_log (WriteEnter i);; rws_log (WriteLeave i);; d the_rws;; rws_read_section i
              else mret tt
          | None => mret tt
          end
      | _, _ => mret tt
      end
  end.

Fixpoint rws_client (i : nat) (uses : list rws_use) : prog rws_memory unit :=
  match uses with
  | [] => mret tt
  | u :: uses => rws_use_once i u;; rws_client i uses
  end.

Definition rws_clients (uses : list (list rws_use)) : list (prog rws_memory unit) := imap rws_client uses.
End client.
Arguments rws_memory : clear implicits.

(** ** The laws *)

(** What a client does itself: nothing, read, or write. *)
Inductive rw_role : Type := RoleOut | RoleReads | RoleWrites.

Abbreviation rws_stable := (outside_stable RoleOut).
Abbreviation rws_wp := (outside_wp RoleOut).

(** [n] threads at most: the invariant relates the state of the lock to a ghost state per thread, which is at
    rest, reads, or writes in some way; no thread writes while another reads or writes. *)
Class RwSpinlockLaws (T : Type) `{!RwSpinlock T} (max : nat) := {
  rwg : Type;
  rwg_idle : rwg;
  rests : rwg → Prop;
  reading : rwg → Prop;
  writing : nat → rwg → Prop;
  rws_inv : T → list rwg → Prop;
  rests_idle : rests rwg_idle;
  rws_inv_init n : (n ≤ max)%nat → rws_inv rws_init (replicate n rwg_idle);
  rws_inv_excl s gs i j g g' k :
    rws_inv s gs → gs !! i = Some g → gs !! j = Some g' → writing k g →
    (reading g' → False) ∧ ∀ k', writing k' g' → i = j;
  rws_read_wp R n i k (f : loc (rws_memory T) T → prog (rws_memory T) bool) g : rws_stable R → rws_reads i !! k = Some f → rests g →
    rws_wp rws_inv R n (f the_rws) i (λ b g', if b then reading g' else rests g') g;
  rws_read_unlock_wp R n i g : rws_stable R → reading g →
    rws_wp rws_inv R n (rws_read_unlock i the_rws) i (λ _, rests) g;
  rws_write_wp R n i k (w : write_way (rws_memory T) T) g : rws_stable R → rws_writes i !! k = Some w → rws_may_write i = true → rests g →
    rws_wp rws_inv R n (ww_lock w the_rws) i (λ b g', if b then writing k g' else rests g') g;
  rws_write_unlock_wp R n i k (w : write_way (rws_memory T) T) g : rws_stable R → rws_writes i !! k = Some w → rws_may_write i = true → writing k g →
    rws_wp rws_inv R n (ww_unlock w the_rws) i (λ _, rests) g;
  rws_downgrade_wp R n i k (w : write_way (rws_memory T) T) d g : rws_stable R → rws_writes i !! k = Some w → ww_downgrade w = Some d →
    rws_may_write i = true → writing k g →
    rws_wp rws_inv R n (d the_rws) i (λ _, reading) g
}.

(** ** The clients exclude each other *)

Section exclusion.
Context {T : Type} {max : nat} `{!RwSpinlock T} `{!RwSpinlockLaws T max}.

Record role_log (rs : gset nat) (w : option nat) (ls : list (rwg * rw_role)) : Prop := {
  rl_reads i : i ∈ rs ↔ ∃ g, ls !! i = Some (g, RoleReads);
  rl_writes i : w = Some i ↔ ∃ g, ls !! i = Some (g, RoleWrites);
  rl_reading i g : ls !! i = Some (g, RoleReads) → reading g;
  rl_writing i g : ls !! i = Some (g, RoleWrites) → ∃ k, writing k g
}.

Definition role_inv (tr : list rw_mark) (ls : list (rwg * rw_role)) : Prop :=
  ∃ rs w, rw_occupants tr = Some (rs, w) ∧ role_log rs w ls.

Lemma role_log_set rs w rs' w' ls i g g' r r' :
  role_log rs w ls → ls !! i = Some (g, r) →
  (∀ j, j ∈ rs' ↔ j = i ∧ r' = RoleReads ∨ j ≠ i ∧ j ∈ rs) →
  (∀ j, w' = Some j ↔ j = i ∧ r' = RoleWrites ∨ j ≠ i ∧ w = Some j) →
  (r' = RoleReads → reading g') → (r' = RoleWrites → ∃ k, writing k g') →
  role_log rs' w' (<[i := (g', r')]> ls).
Proof.
  intros [H1 H2 H3 H4] Hi Hrs Hw Hr Hwr. pose proof (lookup_lt_Some _ _ _ Hi) as Hlt.
  assert (∀ j y, <[i := (g', r')]> ls !! j = Some y ↔ j = i ∧ y = (g', r') ∨ j ≠ i ∧ ls !! j = Some y) as Hj.
  { intros j y. destruct (decide (j = i)) as [->|].
    - rewrite list_lookup_insert_eq by done. naive_solver.
    - rewrite list_lookup_insert_ne by done. naive_solver. }
  split; setoid_rewrite Hj.
  - intros j. rewrite Hrs, H1. naive_solver.
  - intros j. rewrite Hw, H2. naive_solver.
  - intros j y [[-> [= -> <-]]|[_ ?]]; [by apply Hr | by eapply H3].
  - intros j y [[-> [= -> <-]]|[_ ?]]; [by apply Hwr | by eapply H4].
Qed.

Lemma role_inv_stable : rws_stable role_inv.
Proof.
  intros tr ls i g g' Hi (rs & w & Ho & Hl). exists rs, w. split; [done|].
  eapply role_log_set; [exact Hl|exact Hi| | |done|done].
  - intros j. split; [|by intros [[_ ?]|[_ ?]]]. intros Hj. right. split; [|done]. intros ->.
    apply (rl_reads _ _ _ Hl) in Hj as [? Hj]. congruence.
  - intros j. split; [|by intros [[_ ?]|[_ ?]]]. intros Hj. right. split; [|done]. intros ->.
    apply (rl_writes _ _ _ Hl) in Hj as [? Hj]. congruence.
Qed.

Abbreviation role_wp := (wp (framed rws_inv role_inv)).

(** A mark: the role of the thread becomes [r']. *)
Lemma role_mark_wp n i g r r' k :
  (∀ s rs w (ls : list (rwg * rw_role)), rws_inv s ls.*1 → role_log rs w ls → ls !! i = Some (g, r) →
     ∃ rs' w', rw_step (rs, w) k = Some (rs', w') ∧
       (∀ j, j ∈ rs' ↔ j = i ∧ r' = RoleReads ∨ j ≠ i ∧ j ∈ rs) ∧
       (∀ j, w' = Some j ↔ j = i ∧ r' = RoleWrites ∨ j ≠ i ∧ w = Some j)) →
  (r' = RoleReads → reading g) → (r' = RoleWrites → ∃ k, writing k g) →
  role_wp n (rws_log k) i (λ _ l, l = (g, r')) (g, r).
Proof.
  intros H Hr Hw. apply wp_atomic. intros [s tr] ls [HI (rs & w & Ho & Hl)] Hi. cbn [fst snd] in *.
  destruct (H s rs w ls HI Hl Hi) as (rs' & w' & Hs & Hrs & Hws).
  exists tt, (s, tr ++ [k]), (g, r'). split; [done|]. split; [|done]. split; cbn [fst snd].
  - rewrite list_fmap_insert, list_insert_id; [done|]. by rewrite list_lookup_fmap, Hi.
  - exists rs', w'. rewrite rw_occupants_snoc, Ho. split; [done|]. by eapply role_log_set.
Qed.

(** What another thread does, when this one reads or writes. *)
Lemma role_others s rs w ls i j g g' r :
  rws_inv s ls.*1 → role_log rs w ls → ls !! i = Some (g, RoleOut) → ls !! j = Some (g', r) →
  (∃ k, writing k g) → r = RoleOut.
Proof.
  intros HI [_ _ H3 H4] Hi Hj [k Hw].
  assert (ls.*1 !! i = Some g) as Hi' by (by rewrite list_lookup_fmap, Hi).
  assert (ls.*1 !! j = Some g') as Hj' by (by rewrite list_lookup_fmap, Hj).
  destruct (rws_inv_excl s ls.*1 i j g g' k HI Hi' Hj' Hw) as [Hr He]. destruct r; [done| |].
  - by destruct (Hr (H3 j g' Hj)).
  - destruct (H4 j g' Hj) as [k' Hk']. specialize (He k' Hk'). congruence.
Qed.

Lemma read_mark_wp n i g : reading g → role_wp n (rws_log (ReadEnter i)) i (λ _ l, l = (g, RoleReads)) (g, RoleOut).
Proof.
  intros Hg. apply role_mark_wp; [|done|done]. intros s rs w ls HI Hl Hi.
  assert (w = None) as ->.
  { destruct w as [j|]; [|done]. destruct (proj1 (rl_writes _ _ _ Hl j) eq_refl) as [g' Hj].
    destruct (rl_writing _ _ _ Hl j g' Hj) as [k Hk].
    destruct (rws_inv_excl s ls.*1 j i g' g k HI) as [Hr _]; [by rewrite list_lookup_fmap, Hj|by rewrite list_lookup_fmap, Hi|done|].
    by destruct (Hr Hg). }
  exists ({[i]} ∪ rs), None. split; [done|]. split; [|naive_solver]. intros j. destruct (decide (j = i)); set_solver.
Qed.

Lemma read_end_mark_wp n i g : role_wp n (rws_log (ReadLeave i)) i (λ _ l, l = (g, RoleOut)) (g, RoleReads).
Proof.
  apply role_mark_wp; [|done|done]. intros s rs w ls HI Hl Hi.
  assert (i ∈ rs) as Hin by (apply (rl_reads _ _ _ Hl); by exists g).
  exists (rs ∖ {[i]}), w. cbn. rewrite decide_True by done. split; [done|]. split; [set_solver|].
  intros j. split; [|naive_solver]. intros Hj. right. split; [|done]. intros ->.
  apply (rl_writes _ _ _ Hl) in Hj as [? Hj]. congruence.
Qed.

Lemma write_mark_wp n i g : (∃ k, writing k g) → role_wp n (rws_log (WriteEnter i)) i (λ _ l, l = (g, RoleWrites)) (g, RoleOut).
Proof.
  intros Hg. apply role_mark_wp; [|done|done]. intros s rs w ls HI Hl Hi.
  assert (w = None) as ->.
  { destruct w as [j|]; [|done]. destruct (proj1 (rl_writes _ _ _ Hl j) eq_refl) as [g' Hj].
    by pose proof (role_others s rs _ ls i j g g' _ HI Hl Hi Hj Hg). }
  assert (rs = ∅) as ->.
  { apply elem_of_equiv_empty_L. intros j [g' Hj]%(rl_reads _ _ _ Hl).
    by pose proof (role_others s rs _ ls i j g g' _ HI Hl Hi Hj Hg). }
  exists ∅, (Some i). split; [done|]. split; [set_solver|]. naive_solver.
Qed.

Lemma write_end_mark_wp n i g : role_wp n (rws_log (WriteLeave i)) i (λ _ l, l = (g, RoleOut)) (g, RoleWrites).
Proof.
  apply role_mark_wp; [|done|done]. intros s rs w ls HI Hl Hi.
  assert (w = Some i) as -> by (apply (rl_writes _ _ _ Hl); by exists g).
  exists rs, None. cbn. rewrite decide_True by done. split; [done|]. split; [|naive_solver].
  intros j. split; [|naive_solver]. intros Hj. right. split; [|done]. intros ->.
  apply (rl_reads _ _ _ Hl) in Hj as [? Hj]. congruence.
Qed.

(** A thread that is not in a section. *)
Definition rw_outside (l : rwg * rw_role) : Prop := rests l.1 ∧ l.2 = RoleOut.

(** The steps of the lock, for the clients. *)
Lemma role_of_rws n {A} (t : prog (rws_memory T) A) i (Q : A → rwg → Prop) (Q' : A → rwg * rw_role → Prop) g :
  rws_wp rws_inv role_inv n t i Q g → (∀ a g', Q a g' → Q' a (g', RoleOut)) → role_wp n t i Q' (g, RoleOut).
Proof. intros H HQ. eapply wp_mono; [exact H|]. intros a [g' r] [[= ->] Hg]. by apply HQ. Qed.

Lemma read_section_rws_wp n i g : reading g → role_wp n (rws_read_section i) i (λ _, rw_outside) (g, RoleOut).
Proof.
  intros Hg. apply wp_bind. eapply wp_mono; [by apply read_mark_wp|]. intros _ l ->.
  apply wp_bind. eapply wp_mono; [apply read_end_mark_wp|]. intros _ l ->.
  eapply role_of_rws; [by apply rws_read_unlock_wp, Hg; apply role_inv_stable|]. by intros [] g' Hg'.
Qed.

Lemma rws_use_wp n i u l : rw_outside l → role_wp n (rws_use_once i u) i (λ _, rw_outside) l.
Proof.
  destruct l as [g r]. intros [Hg Hr]. cbn in Hg, Hr. subst r. pose proof role_inv_stable as Hs.
  destruct u as [k|k|k]; cbn [rws_use_once].
  - destruct (rws_reads i !! k) as [f|] eqn:Ek; [|by apply wp_ret]. apply wp_bind.
    eapply role_of_rws; [by eapply rws_read_wp|]. intros [] g' Hg'; [by apply read_section_rws_wp | by apply wp_ret].
  - destruct (rws_writes i !! k) as [w|] eqn:Ek; [|by apply wp_ret].
    destruct (rws_may_write i) eqn:Em; [|by apply wp_ret]. apply wp_bind.
    eapply role_of_rws; [by eapply rws_write_wp|]. intros [] g' Hg'; [|by apply wp_ret].
    apply wp_bind. eapply wp_mono; [apply write_mark_wp; by eexists|]. intros _ l ->.
    apply wp_bind. eapply wp_mono; [apply write_end_mark_wp|]. intros _ l ->.
    eapply role_of_rws; [by eapply rws_write_unlock_wp|]. by intros [] g2 Hg2.
  - destruct (rws_writes i !! k) as [w|] eqn:Ek; [|by apply wp_ret].
    destruct (rws_may_write i) eqn:Em; [|by apply wp_ret].
    destruct (ww_downgrade w) as [d|] eqn:Ed; [|by apply wp_ret]. apply wp_bind.
    eapply role_of_rws; [by eapply rws_write_wp|]. intros [] g' Hg'; [|by apply wp_ret].
    apply wp_bind. eapply wp_mono; [apply write_mark_wp; by eexists|]. intros _ l ->.
    apply wp_bind. eapply wp_mono; [apply write_end_mark_wp|]. intros _ l ->.
    apply wp_bind. eapply role_of_rws; [by eapply rws_downgrade_wp|]. intros [] g2 Hg2. by apply read_section_rws_wp.
Qed.

Lemma rws_client_wp n i uses l : rw_outside l → role_wp n (rws_client i uses) i (λ _, rw_outside) l.
Proof.
  revert n l. induction uses as [|u uses IH]; intros n l Hl; cbn [rws_client]; [by apply wp_ret|].
  apply wp_bind. eapply wp_mono; [by apply rws_use_wp|]. intros [] l' Hl'. by apply IH.
Qed.

(** Whatever the threads do with the lock and however their steps interleave, no thread faults, and none writes while
    another reads or writes. *)
Lemma rws_exclusive uses s tr ts :
  (length uses ≤ max)%nat →
  reaches (rws_init, []) (rws_clients uses) (s, tr) ts →
  rw_exclusive tr ∧ ¬ pool_faults (s, tr, ts).
Proof.
  intros Hlen Hr.
  destruct (wp_sound (framed rws_inv role_inv) (rws_init, []) (rws_clients uses)
    (replicate (length uses) (rwg_idle, RoleOut)) (s, tr) ts) as [(ls & _ & _ & (rs & w & Ho & _)) Hf];
    [| | | exact Hr | by split; [exists (rs, w)|]].
  - unfold rws_clients. by rewrite length_imap, length_replicate.
  - split; cbn [fst snd].
    + rewrite fmap_replicate. by apply rws_inv_init.
    + exists ∅, None. split; [done|]. split.
      * intros i. split; [set_solver|]. by intros [g [[=] _]%lookup_replicate].
      * intros i. split; [done|]. by intros [g [[=] _]%lookup_replicate].
      * by intros i g [[=] _]%lookup_replicate.
      * by intros i g [[=] _]%lookup_replicate.
  - intros i t l n Ht Hl. apply lookup_replicate in Hl as [-> _].
    unfold rws_clients in Ht. rewrite list_lookup_imap in Ht.
    destruct (uses !! i) as [us|]; [|done]. injection Ht as <-.
    eapply wp_mono; [apply rws_client_wp|done]. split; [apply rests_idle | done].
Qed.
End exclusion.
