(* ===== verification/CkSwlock.v ===== *)
(** CkSwlock: the single-writer lock of Concurrency Kit, include/aerospike/ck/ck_swlock.h: one word with a bit that the
    writer wants or has the lock, a latch bit, and the number of readers.  It satisfies the laws of CkRwMutex when
    only one thread writes.

    The functions with lock elision that the headers make of these are left out. *)

From Stdlib Require Import ZArith Lia.
From stdpp Require Import base list.
From S2P Require Import Prelude Concurrent CkPr CkRwlock CkRwMutex.

#[local] Open Scope Z_scope.
#[local] Set Warnings "-clear-no-such-hyp".

(** [src: include/aerospike/ck/ck_swlock.h 37-39 ck_swlock] *)
Record ck_swlock : Type := MkSwlock { sw_value : Z }.
Definition sw_value_loc : loc ck_swlock Z := MkLoc sw_value (λ v _, MkSwlock v).

(** [src: include/aerospike/ck/ck_swlock.h 42-42 CK_SWLOCK_INITIALIZER] *)
Definition CK_SWLOCK_INITIALIZER : ck_swlock := MkSwlock 0.
(** [src: include/aerospike/ck/ck_swlock.h 43-43 CK_SWLOCK_WRITER_BIT] *)
Definition CK_SWLOCK_WRITER_BIT : Z := Z.shiftl 1 31.
(** [src: include/aerospike/ck/ck_swlock.h 44-44 CK_SWLOCK_LATCH_BIT] *)
Definition CK_SWLOCK_LATCH_BIT : Z := Z.shiftl 1 30.
(** [src: include/aerospike/ck/ck_swlock.h 45-45 CK_SWLOCK_WRITER_MASK] *)
Definition CK_SWLOCK_WRITER_MASK : Z := Z.lor CK_SWLOCK_LATCH_BIT CK_SWLOCK_WRITER_BIT.
(** [src: include/aerospike/ck/ck_swlock.h 46-46 CK_SWLOCK_READER_MASK] *)
Definition CK_SWLOCK_READER_MASK : Z := Z.lxor 4294967295 CK_SWLOCK_WRITER_MASK.

Section ops.
Context {S : Type} (rw : loc S ck_swlock).
Abbreviation value := (rw →' sw_value_loc).

(** [src: include/aerospike/ck/ck_swlock.h 48-55 ck_swlock_init] *)
Definition ck_swlock_init : prog S unit := ck_pr_store value 0.

(** [src: include/aerospike/ck/ck_swlock.h 57-64 ck_swlock_write_unlock] *)
Definition ck_swlock_write_unlock : prog S unit := ck_pr_and value CK_SWLOCK_READER_MASK.

(** [src: include/aerospike/ck/ck_swlock.h 66-74 ck_swlock_locked_writer] *)
Definition ck_swlock_locked_writer : prog S bool :=
  v ← ck_pr_load value; mret (negb (Z.land v CK_SWLOCK_WRITER_BIT =? 0)).

(** [src: include/aerospike/ck/ck_swlock.h 76-83 ck_swlock_write_downgrade] *)
Definition ck_swlock_write_downgrade : prog S unit := ck_pr_inc 32 value;; ck_swlock_write_unlock.

(** [src: include/aerospike/ck/ck_swlock.h 85-93 ck_swlock_locked] *)
Definition ck_swlock_locked : prog S bool := v ← ck_pr_load value; mret (negb (v =? 0)).

(** [src: include/aerospike/ck/ck_swlock.h 95-103 ck_swlock_write_trylock] *)
Definition ck_swlock_write_trylock : prog S bool := ck_pr_cas value 0 CK_SWLOCK_WRITER_BIT.

(** [src: include/aerospike/ck/ck_swlock.h 108-118 ck_swlock_write_lock] *)
Definition ck_swlock_write_lock : prog S unit :=
  ck_pr_or value CK_SWLOCK_WRITER_BIT;;
  while (v ← ck_pr_load value; mret (negb (Z.land v CK_SWLOCK_READER_MASK =? 0))) stall.

(** [src: include/aerospike/ck/ck_swlock.h 120-137 ck_swlock_write_latch] *)
Definition ck_swlock_write_latch : prog S unit :=
  ck_pr_or value CK_SWLOCK_WRITER_BIT;;
  while (b ← ck_pr_cas value CK_SWLOCK_WRITER_BIT CK_SWLOCK_WRITER_MASK; mret (negb b))
    (loop (λ _ : unit,
      stall;;
      v ← ck_pr_load value;
      mret (if negb (v =? CK_SWLOCK_WRITER_BIT) then inl tt else inr tt)) tt).

(** [src: include/aerospike/ck/ck_swlock.h 139-146 ck_swlock_write_unlatch] *)
Definition ck_swlock_write_unlatch : prog S unit := ck_pr_store value 0.

(** [src: include/aerospike/ck/ck_swlock.h 155-169 ck_swlock_read_trylock] *)
Definition ck_swlock_read_trylock : prog S bool :=
  l ← ck_pr_load value;
  if negb (Z.land l CK_SWLOCK_WRITER_BIT =? 0) then mret false
  else
    l ← ck_pr_faa 32 value 1;
    let l := Z.land l CK_SWLOCK_WRITER_MASK in
    (if l =? CK_SWLOCK_WRITER_BIT then ck_pr_dec 32 value else mret tt);;
    mret (l =? 0).

(** [src: include/aerospike/ck/ck_swlock.h 171-195 ck_swlock_read_lock] *)
Definition ck_swlock_read_lock : prog S unit :=
  loop (λ _ : unit,
    while (v ← ck_pr_load value; mret (negb (Z.land v CK_SWLOCK_WRITER_BIT =? 0))) stall;;
    l ← ck_pr_faa 32 value 1;
    let l := Z.land l CK_SWLOCK_WRITER_MASK in
    if l =? 0 then mret (inr tt)
    else
      (if l =? CK_SWLOCK_WRITER_BIT then ck_pr_dec 32 value else mret tt);;
      mret (inl tt)) tt.

(** [src: include/aerospike/ck/ck_swlock.h 197-203 ck_swlock_locked_reader] *)
Definition ck_swlock_locked_reader : prog S bool :=
  v ← ck_pr_load value; mret (negb (Z.land v CK_SWLOCK_READER_MASK =? 0)).

(** [src: include/aerospike/ck/ck_swlock.h 205-212 ck_swlock_read_unlock] *)
Definition ck_swlock_read_unlock : prog S unit := ck_pr_dec 32 value.
End ops.

(** The thread 0 is the writer. *)
#[export] Instance ck_swlock_rw : RwSpinlock ck_swlock := {
  rws_init := CK_SWLOCK_INITIALIZER;
  rws_reads S _ := [waits ck_swlock_read_lock; ck_swlock_read_trylock];
  rws_read_unlock S _ := ck_swlock_read_unlock;
  rws_writes S _ :=
    [MkWay (waits ck_swlock_write_lock) ck_swlock_write_unlock (Some ck_swlock_write_downgrade);
     MkWay ck_swlock_write_trylock ck_swlock_write_unlock (Some ck_swlock_write_downgrade);
     MkWay (waits ck_swlock_write_latch) ck_swlock_write_unlatch None];
  rws_may_write i := (i =? 0)%nat
}.

(** ** The word *)

Definition sw_word (w l : bool) (c : Z) : Z := Z.b2z w * 2147483648 + Z.b2z l * 1073741824 + c.

Section word.
Context (w l : bool) (c : Z) (Hc : 0 ≤ c < 1073741824).

Lemma sw_word_readers : Z.land (sw_word w l c) CK_SWLOCK_READER_MASK = c.
Proof using Hc.
  change CK_SWLOCK_READER_MASK with (Z.ones 30). rewrite Z.land_ones by done. change (2 ^ 30) with 1073741824.
  unfold sw_word. destruct w, l; cbn [Z.b2z]; div_lia.
Qed.

Lemma sw_word_writer : Z.land (sw_word w l c) CK_SWLOCK_WRITER_BIT = Z.b2z w * 2147483648.
Proof using Hc.
  unfold CK_SWLOCK_WRITER_BIT. rewrite land_shiftl, Z.shiftr_div_pow2, Z.shiftl_mul_pow2 by done.
  change 1 with (Z.ones 1). rewrite Z.land_ones by done. change (2 ^ 31) with 2147483648. change (2 ^ 1) with 2.
  unfold sw_word. destruct w, l; cbn [Z.b2z]; div_lia.
Qed.

Lemma sw_word_mask : Z.land (sw_word w l c) CK_SWLOCK_WRITER_MASK = Z.b2z w * 2147483648 + Z.b2z l * 1073741824.
Proof using Hc.
  change CK_SWLOCK_WRITER_MASK with (Z.shiftl (Z.ones 2) 30).
  rewrite land_shiftl, Z.shiftr_div_pow2, Z.shiftl_mul_pow2, Z.land_ones by done. change (2 ^ 30) with 1073741824.
  change (2 ^ 2) with 4. unfold sw_word. destruct w, l; cbn [Z.b2z]; div_lia.
Qed.
End word.

Lemma sw_word_or l c : 0 ≤ c < 1073741824 → Z.lor (sw_word false l c) CK_SWLOCK_WRITER_BIT = sw_word true l c.
Proof.
  intros Hc. rewrite <- Z.add_nocarry_lor by (by rewrite sw_word_writer). unfold sw_word.
  change CK_SWLOCK_WRITER_BIT with 2147483648. cbn [Z.b2z]. lia.
Qed.

(** ** The invariant *)

(** Where a thread is: not at the lock; counted while the writer wants the lock, to be taken back; reading; counted
    while the lock was latched for the [e]-th time, a count that is lost.  The writer: it set its bit; writes;
    has latched the lock; writes, and is counted as a reader. *)
Inductive sw_ghost : Type :=
  | SwIdle | SwCounted | SwRead | SwLost (e : nat) | SwBit | SwWrite | SwLatched | SwDown.

#[export] Instance sw_ghost_eq_dec : EqDecision sw_ghost.
Proof. solve_decision. Defined.

Definition sw_w (g : sw_ghost) : bool := match g with SwBit | SwWrite | SwLatched | SwDown => true | _ => false end.
Definition sw_l (g : sw_ghost) : bool := match g with SwLatched => true | _ => false end.
Definition sw_excl (g : sw_ghost) : bool := match g with SwWrite | SwLatched | SwDown => true | _ => false end.
Definition sw_counted (e : nat) (g : sw_ghost) : bool :=
  match g with SwCounted | SwRead | SwDown => true | SwLost e' => bool_decide (e' = e) | _ => false end.

(** What the writer does. *)
Definition sw_head (gs : list sw_ghost) : sw_ghost := default SwIdle (gs !! 0%nat).

Record sw_state (v : Z) (gs : list sw_ghost) (e : nat) : Prop := {
  sw_val : v = sw_word (sw_w (sw_head gs)) (sw_l (sw_head gs)) (tally (sw_counted e) gs);
  sw_one i g : gs !! i = Some g → sw_w g = true → i = 0%nat;
  sw_lost i e' : gs !! i = Some (SwLost e') → i ≠ 0%nat ∧ (e' ≤ e)%nat ∧ (e' = e → sw_l (sw_head gs) = true);
  sw_alone : sw_excl (sw_head gs) = true → ∀ i, gs !! i ≠ Some SwRead;
  sw_latch : sw_l (sw_head gs) = true → ∀ i, gs !! i ≠ Some SwCounted;
  sw_len : Z.of_nat (length gs) < 1073741824
}.

Definition sw_inv (x : ck_swlock) (gs : list sw_ghost) : Prop := ∃ e, sw_state (sw_value x) gs e.

Lemma sw_head_insert gs i g g' :
  gs !! i = Some g → sw_head (<[i := g']> gs) = if decide (i = 0%nat) then g' else sw_head gs.
Proof.
  intros Hi. unfold sw_head. case_decide as E.
  - subst. by rewrite list_lookup_insert_eq by (by eapply lookup_lt_Some).
  - by rewrite list_lookup_insert_ne.
Qed.

Lemma sw_count_range e gs : Z.of_nat (length gs) < 1073741824 → 0 ≤ tally (sw_counted e) gs < 1073741824.
Proof. intros H. pose proof (tally_range (sw_counted e) gs). lia. Qed.

(** A thread goes on, in the same latching. *)
Lemma sw_move v v' gs e i g g' :
  sw_state v gs e → gs !! i = Some g → g ≠ SwLatched →
  (sw_w g' = true → i = 0%nat) →
  (∀ e', g' = SwLost e' → i ≠ 0%nat ∧ e' = e ∧ sw_l (sw_head gs) = true) →
  (sw_excl g' = true → sw_excl g = true ∨ ∀ j, gs !! j ≠ Some SwRead) →
  (g' = SwRead → i = 0%nat ∨ sw_excl (sw_head gs) = false) →
  (sw_l g' = true → ∀ j, gs !! j ≠ Some SwCounted) →
  (g' = SwCounted → i ≠ 0%nat ∧ sw_l (sw_head gs) = false) →
  let h := if decide (i = 0%nat) then g' else sw_head gs in
  v' = sw_word (sw_w h) (sw_l h) (tally (sw_counted e) gs - Z.b2z (sw_counted e g) + Z.b2z (sw_counted e g')) →
  sw_state v' (<[i := g']> gs) e.
Proof.
  intros [Hv Hone Hlost Halone Hlatch Hlen] Hi Hg H1 H2 H3 H4 H5 H6 h ->.
  pose proof (lookup_lt_Some _ _ _ Hi) as Hlt.
  assert (i = 0%nat → sw_head gs = g) as Hh by (intros ->; unfold sw_head; by rewrite Hi).
  assert (∀ j y, <[i := g']> gs !! j = Some y → i = j ∧ y = g' ∨ i ≠ j ∧ gs !! j = Some y) as Hcase.
  { intros j y Hy. destruct (decide (i = j)) as [<-|]; [left|right]; split; try done.
    - rewrite list_lookup_insert_eq in Hy by done. congruence.
    - by rewrite list_lookup_insert_ne in Hy. }
  split; rewrite ?(sw_head_insert gs i g g' Hi); fold h.
  - by rewrite (tally_insert _ _ _ _ _ Hi).
  - intros j y [[<- ->]|[_ Hj]]%Hcase Hy; [by apply H1|by eapply Hone].
  - intros j e' [[<- E]|[Hne Hj]]%Hcase.
    + destruct (H2 e' (eq_sym E)) as (? & -> & Hl). split; [done|]. split; [done|]. intros _. unfold h. by rewrite decide_False.
    + destruct (Hlost j e' Hj) as (? & ? & Hl). split; [done|]. split; [done|]. intros ->. specialize (Hl eq_refl).
      unfold h. case_decide as E; [|done]. rewrite (Hh E) in Hl. by destruct g.
  - intros Hex j Hj. unfold h in Hex. apply Hcase in Hj as [[<- E]|[Hne Hj]].
    + subst g'. case_decide; [done|]. destruct (H4 eq_refl); [done|congruence].
    + case_decide as E; [|by apply (Halone Hex j)]. destruct (H3 Hex) as [Hgx|Hn]; [|by apply (Hn j)].
      rewrite <- (Hh E) in Hgx. by apply (Halone Hgx j).
  - intros Hl j Hj. unfold h in Hl. apply Hcase in Hj as [[<- E]|[Hne Hj]].
    + subst g'. destruct (H6 eq_refl) as [Hi0 Hl0]. rewrite decide_False in Hl by done. congruence.
    + case_decide as E; [by apply (H5 Hl j)|by apply (Hlatch Hl j)].
  - by rewrite length_insert.
Qed.

(** ** The operations *)

(** The bit of the writer, seen in the word. *)
Lemma sw_sees_writer v gs e :
  sw_state v gs e → (Z.land v CK_SWLOCK_WRITER_BIT =? 0) = negb (sw_w (sw_head gs)).
Proof.
  intros HI. pose proof (sw_count_range e gs (sw_len _ _ _ HI)).
  rewrite (sw_val _ _ _ HI), sw_word_writer by done. by destruct (sw_w _).
Qed.

Lemma sw_sees_mask v gs e :
  sw_state v gs e →
  Z.land v CK_SWLOCK_WRITER_MASK = Z.b2z (sw_w (sw_head gs)) * 2147483648 + Z.b2z (sw_l (sw_head gs)) * 1073741824.
Proof.
  intros HI. pose proof (sw_count_range e gs (sw_len _ _ _ HI)).
  by rewrite (sw_val _ _ _ HI), sw_word_mask by done.
Qed.

Lemma sw_sees_readers v gs e : sw_state v gs e → Z.land v CK_SWLOCK_READER_MASK = tally (sw_counted e) gs.
Proof.
  intros HI. pose proof (sw_count_range e gs (sw_len _ _ _ HI)). by rewrite (sw_val _ _ _ HI), sw_word_readers by done.
Qed.

(** A thread of another index than the writer's, and what it sees of it. *)
Lemma sw_head_eq gs g : gs !! 0%nat = Some g → sw_head gs = g.
Proof. unfold sw_head. by intros ->. Qed.

Lemma sw_not_counted e gs : tally (sw_counted e) gs = 0 → ∀ j g, gs !! j = Some g → sw_counted e g = false.
Proof.
  intros H j g Hj. destruct (sw_counted e g) eqn:E; [|done]. pose proof (tally_pos _ _ _ _ Hj E). lia.
Qed.

Definition sw_at_rest (g : sw_ghost) : Prop := match g with SwIdle | SwLost _ => True | _ => False end.

Section operations.
Context (R : list rw_mark → list (sw_ghost * rw_role) → Prop) (Rs : rws_stable R).
Abbreviation sw_wp := (rws_wp sw_inv R).
Abbreviation the_lock := (the_rws (T := ck_swlock)).
Abbreviation value := (the_lock →' sw_value_loc).

(** One step on the word. *)
Lemma sw_step_wp n i A (f : rws_memory ck_swlock → outcome (A * rws_memory ck_swlock)) (r : Z → A) (u : Z → Z)
    (Q : A → sw_ghost → Prop) g :
  (∀ x t, f (x, t) = Ret (r (sw_value x), (MkSwlock (u (sw_value x)), t))) →
  (∀ v gs e, sw_state v gs e → gs !! i = Some g → ∃ g' e', sw_state (u v) (<[i := g']> gs) e' ∧ Q (r v) g') →
  sw_wp n (atomic f) i Q g.
Proof using Rs.
  intros Hf H. apply outside_wp_atomic; [done|]. intros x tr gs [e HI] Hi.
  destruct (H _ gs e HI Hi) as (g' & e' & HI' & HQ). exists (r (sw_value x)), (MkSwlock (u (sw_value x))), g'.
  split; [apply Hf|]. split; [|done]. by exists e'.
Qed.

Lemma sw_load_wp n i (Q : Z → sw_ghost → Prop) g :
  (∀ v gs e, sw_state v gs e → gs !! i = Some g → Q v g) → sw_wp n (ck_pr_load value) i Q g.
Proof using Rs.
  intros H. apply (sw_step_wp _ _ _ _ id id); [by intros [v] t|]. intros v gs e HI Hi.
  exists g, e. rewrite list_insert_id by done. split; [done|]. by eapply H.
Qed.

(** A reader that is let in, is to take its count back, or has lost it. *)
Definition sw_entered (m : Z) (g : sw_ghost) : Prop :=
  m = 0 ∧ g = SwRead ∨ m = CK_SWLOCK_WRITER_BIT ∧ g = SwCounted ∨ m = CK_SWLOCK_WRITER_MASK ∧ ∃ e, g = SwLost e.

(** A thread that has lost its count, and sees no writer, starts afresh. *)
Lemma sw_look_wp n i g :
  sw_at_rest g →
  sw_wp n (ck_pr_load value) i
    (λ v g', if Z.land v CK_SWLOCK_WRITER_BIT =? 0 then g' = SwIdle else sw_at_rest g') g.
Proof using Rs.
  intros Hg. apply (sw_step_wp _ _ _ _ id id); [by intros [v] t|]. intros v gs e HI Hi. unfold id.
  rewrite (sw_sees_writer v gs e HI). destruct (sw_w (sw_head gs)) eqn:Ew.
  - exists g, e. by rewrite list_insert_id.
  - exists SwIdle, e. split; [|done].
    assert (sw_counted e g = false) as Hc.
    { destruct g as [| | |e'| | | |]; try done. cbn. apply bool_decide_false. intros ->.
      destruct (sw_lost _ _ _ HI i e Hi) as (_ & _ & Hl). specialize (Hl eq_refl). by destruct (sw_head gs). }
    eapply sw_move; [done|exact Hi|by destruct g|done..|]. cbn. rewrite Hc, (sw_val _ _ _ HI). cbn [Z.b2z].
    case_decide as E; [|f_equal; lia]. subst i. rewrite (sw_head_eq _ _ Hi). destruct g; try done; cbn [sw_w sw_l]; f_equal; lia.
Qed.

Lemma sw_enter_wp n i : sw_wp n (ck_pr_faa 32 value 1) i (λ v, sw_entered (Z.land v CK_SWLOCK_WRITER_MASK)) SwIdle.
Proof using Rs.
  apply (sw_step_wp _ _ _ _ id (λ v, uwrap 32 (v + 1))); [by intros [v] t|]. intros v gs e HI Hi. unfold id, sw_entered.
  set (h := sw_head gs). set (g' := if sw_l h then SwLost e else if sw_w h then SwCounted else SwRead).
  exists g', e. split.
  - assert (i = 0%nat → sw_l h = false ∧ sw_w h = false) as H0.
    { intros ->. unfold h. by rewrite (sw_head_eq _ _ Hi). }
    assert (sw_excl h = true → sw_w h = true) as H1 by (by destruct h).
    assert (sw_counted e g' = true) as Hc.
    { unfold g'. destruct (sw_l h); cbn; [by apply bool_decide_true|]. by destruct (sw_w h). }
    pose proof (sw_count_range e (<[i := g']> gs)) as Hr. rewrite length_insert, (tally_insert _ _ _ _ _ Hi), Hc in Hr.
    specialize (Hr (sw_len _ _ _ HI)). pose proof (sw_count_range e gs (sw_len _ _ _ HI)) as Hr'. cbn in Hr.
    eapply sw_move; [done|exact Hi|done|..].
    + intros E. exfalso. revert E. unfold g'. destruct (sw_l h), (sw_w h); discriminate.
    + unfold g'. intros e' E. destruct (sw_l h) eqn:El; [|by destruct (sw_w h)]. injection E as ->. split; [|done].
      intros ->. by destruct (H0 eq_refl).
    + unfold g'. destruct (sw_l h), (sw_w h); done.
    + unfold g'. intros E. right. fold h. destruct (sw_l h), (sw_w h), (sw_excl h); naive_solver.
    + unfold g'. destruct (sw_l h), (sw_w h); done.
    + unfold g'. fold h. intros E. destruct (sw_l h) eqn:El; [done|]. split; [|done]. intros ->.
      destruct (H0 eq_refl) as [_ Hw]. by rewrite Hw in E.
    + rewrite Hc. fold h. cbn [Z.b2z sw_counted].
      assert ((if decide (i = 0%nat) then g' else h) = g' ∧ sw_w h = false ∧ sw_l h = false ∧ g' = SwRead ∨
        (if decide (i = 0%nat) then g' else h) = h) as [(-> & E1 & E2 & E3)| ->].
      { case_decide as E; [|by right]. left. destruct (H0 E) as [E1 E2]. split; [done|].
        unfold g'. by rewrite E1, E2. }
      * rewrite (sw_val _ _ _ HI). fold h. rewrite E1, E2, E3. unfold sw_word. cbn [Z.b2z sw_w sw_l].
        rewrite u32_small by lia. lia.
      * rewrite (sw_val _ _ _ HI). fold h. unfold sw_word. rewrite u32_small; [lia|].
        destruct (sw_w h), (sw_l h); cbn [Z.b2z]; lia.
  - rewrite (sw_sees_mask v gs e HI). fold h. unfold g'. assert (sw_l h = true → sw_w h = true) by (by destruct h).
    change CK_SWLOCK_WRITER_BIT with 2147483648. change CK_SWLOCK_WRITER_MASK with 3221225472.
    destruct (sw_l h), (sw_w h); cbn [Z.b2z]; naive_solver.
Qed.

(** A count is taken back. *)
Lemma sw_dec_wp n i g :
  g = SwRead ∨ g = SwCounted → sw_wp n (ck_pr_dec 32 value) i (λ _ g, g = SwIdle) g.
Proof using Rs.
  intros Hg. apply (sw_step_wp _ _ _ _ (λ _, tt) (λ v, uwrap 32 (v - 1))); [by intros [v] t|]. intros v gs e HI Hi.
  exists SwIdle, e. split; [|done].
  assert (sw_counted e g = true) as Hc by (by destruct Hg as [->| ->]).
  pose proof (tally_pos _ _ _ _ Hi Hc). pose proof (sw_count_range e gs (sw_len _ _ _ HI)).
  eapply sw_move; [done|exact Hi|by destruct Hg as [->| ->]|done..|]. rewrite Hc, (sw_val _ _ _ HI).
  assert (i = 0%nat → sw_w (sw_head gs) = false ∧ sw_l (sw_head gs) = false) as Hz.
  { intros ->. rewrite (sw_head_eq _ _ Hi). by destruct Hg as [->| ->]. }
  unfold sw_word. rewrite u32_small by (destruct (sw_w _), (sw_l _); cbn [Z.b2z]; lia).
  case_decide as E; [|cbn [Z.b2z sw_counted]; lia]. destruct (Hz E) as [-> ->]. cbn [sw_w sw_l Z.b2z sw_counted]. lia.
Qed.

(** The writer sets its bit. *)
Lemma sw_or_wp n g : sw_at_rest g → sw_wp n (ck_pr_or value CK_SWLOCK_WRITER_BIT) 0 (λ _ g, g = SwBit) g.
Proof using Rs.
  intros Hg. apply (sw_step_wp _ _ _ _ (λ _, tt) (λ v, Z.lor v CK_SWLOCK_WRITER_BIT)); [by intros [v] t|].
  intros v gs e HI Hi. exists SwBit, e. split; [|done].
  assert (g = SwIdle) as ->.
  { destruct g as [| | |e'| | | |]; try done. by destruct (sw_lost _ _ _ HI _ _ Hi). }
  eapply sw_move; [done|exact Hi|done..|]. rewrite (sw_val _ _ _ HI), (sw_head_eq _ _ Hi).
  rewrite sw_word_or by (apply sw_count_range, HI). cbn. f_equal. lia.
Qed.

(** It writes when it sees no reader. *)
Lemma sw_alone_wp n :
  sw_wp n (ck_pr_load value) 0
    (λ v g, g = if Z.land v CK_SWLOCK_READER_MASK =? 0 then SwWrite else SwBit) SwBit.
Proof using Rs.
  apply (sw_step_wp _ _ _ _ id id); [by intros [v] t|]. intros v gs e HI Hi. unfold id.
  rewrite (sw_sees_readers v gs e HI). destruct (Z.eqb_spec (tally (sw_counted e) gs) 0) as [E|E].
  - exists SwWrite, e. split; [|done]. pose proof (sw_not_counted _ _ E) as Hn.
    eapply sw_move; [done|exact Hi|done..| | | | |].
    + intros _. right. intros j Hj. by specialize (Hn j _ Hj).
    + done.
    + done.
    + done.
    + rewrite (sw_val _ _ _ HI), (sw_head_eq _ _ Hi). cbn. f_equal. lia.
  - exists SwBit, e. by rewrite list_insert_id.
Qed.

(** It latches the lock when there is no reader, or one that goes. *)
Lemma sw_latch_wp n :
  sw_wp n (ck_pr_cas value CK_SWLOCK_WRITER_BIT CK_SWLOCK_WRITER_MASK) 0
    (λ b g, g = if (b : bool) then SwLatched else SwBit) SwBit.
Proof using Rs.
  apply (sw_step_wp _ _ _ _ (λ v, v =? CK_SWLOCK_WRITER_BIT)
    (λ v, if v =? CK_SWLOCK_WRITER_BIT then CK_SWLOCK_WRITER_MASK else v)); [by intros [v] t|].
  intros v gs e HI Hi. pose proof (sw_count_range e gs (sw_len _ _ _ HI)) as Hr. pose proof (sw_val _ _ _ HI) as Hv.
  rewrite (sw_head_eq _ _ Hi) in Hv. unfold sw_word in Hv. cbn [Z.b2z sw_w sw_l] in Hv.
  change CK_SWLOCK_WRITER_BIT with 2147483648. destruct (Z.eqb_spec v 2147483648) as [E|E].
  - exists SwLatched, e. split; [|done]. assert (tally (sw_counted e) gs = 0) as E0 by lia.
    pose proof (sw_not_counted _ _ E0) as Hn.
    eapply sw_move; [done|exact Hi|done..| | | | |].
    + intros _. right. intros j Hj. by specialize (Hn j _ Hj).
    + done.
    + intros _ j Hj. by specialize (Hn j _ Hj).
    + done.
    + rewrite E0. by vm_compute.
  - exists SwBit, e. by rewrite list_insert_id.
Qed.

Lemma sw_spin_latch_wp n (Q : Z → sw_ghost → Prop) : (∀ v, Q v SwBit) → sw_wp n (ck_pr_load value) 0 Q SwBit.
Proof using Rs. intros H. by apply sw_load_wp. Qed.

(** The latched lock is left: what was counted meanwhile is lost. *)
Lemma sw_unlatch_wp n : sw_wp n (ck_pr_store value 0) 0 (λ _ g, g = SwIdle) SwLatched.
Proof using Rs.
  apply (sw_step_wp _ _ _ _ (λ _, tt) (λ _, 0)); [by intros [v] t|]. intros v gs e HI Hi.
  exists SwIdle, (S e). split; [|done]. destruct HI as [Hv Hone Hlost Halone Hlatch Hlen].
  rewrite (sw_head_eq _ _ Hi) in Halone, Hlatch. pose proof (lookup_lt_Some _ _ _ Hi) as Hlt.
  assert (∀ j y, <[0%nat := SwIdle]> gs !! j = Some y → y = SwIdle ∨ j ≠ 0%nat ∧ gs !! j = Some y) as Hcase.
  { intros [|j] y Hy; [rewrite list_lookup_insert_eq in Hy by done; injection Hy as <-; by left|].
    rewrite list_lookup_insert_ne in Hy by done. by right. }
  assert (sw_head (<[0%nat := SwIdle]> gs) = SwIdle) as Hh by (by rewrite (sw_head_insert _ _ _ _ Hi)).
  split; rewrite ?Hh, ?length_insert; try done.
  - rewrite tally_zero; [done|]. intros j g [->|[Hj Hg]]%Hcase; [done|].
    destruct g as [| | |e'| | | |]; cbn; try done.
    + by destruct (Hlatch eq_refl j).
    + by destruct (Halone eq_refl j).
    + apply bool_decide_false. intros ->. destruct (Hlost _ _ Hg) as (_ & ? & _). lia.
    + by destruct (Hj (Hone _ _ Hg eq_refl)).
  - intros j g [->|[Hj Hg]]%Hcase Hw; [done|by eapply Hone].
  - intros j e' [?|[Hj Hg]]%Hcase; [done|]. destruct (Hlost _ _ Hg) as (? & ? & _). split; [done|]. split; [lia|]. intros ->. lia.
Qed.

Lemma sw_try_wp n g :
  sw_at_rest g →
  sw_wp n (ck_pr_cas value 0 CK_SWLOCK_WRITER_BIT) 0 (λ b g', if (b : bool) then g' = SwWrite else sw_at_rest g') g.
Proof using Rs.
  intros Hg. apply (sw_step_wp _ _ _ _ (λ v, v =? 0) (λ v, if v =? 0 then CK_SWLOCK_WRITER_BIT else v)); [by intros [v] t|].
  intros v gs e HI Hi. pose proof (sw_count_range e gs (sw_len _ _ _ HI)) as Hr.
  assert (g = SwIdle) as ->.
  { destruct g as [| | |e'| | | |]; try done. by destruct (sw_lost _ _ _ HI _ _ Hi). }
  pose proof (sw_val _ _ _ HI) as Hv. rewrite (sw_head_eq _ _ Hi) in Hv. unfold sw_word in Hv. cbn [Z.b2z sw_w sw_l] in Hv.
  destruct (Z.eqb_spec v 0) as [E|E].
  - exists SwWrite, e. split; [|done]. assert (tally (sw_counted e) gs = 0) as E0 by lia.
    pose proof (sw_not_counted _ _ E0) as Hn.
    eapply sw_move; [done|exact Hi|done..| | | | |].
    + intros _. right. intros j Hj. by specialize (Hn j _ Hj).
    + done.
    + done.
    + done.
    + rewrite E0. by vm_compute.
  - exists SwIdle, e. by rewrite list_insert_id.
Qed.

(** The writer leaves its bit. *)
Lemma sw_and_wp n g :
  g = SwWrite ∨ g = SwDown →
  sw_wp n (ck_swlock_write_unlock the_lock) 0 (λ _ g', g' = if sw_counted 0 g then SwRead else SwIdle) g.
Proof using Rs.
  intros Hg. apply (sw_step_wp _ _ _ _ (λ _, tt) (λ v, Z.land v CK_SWLOCK_READER_MASK)); [by intros [v] t|].
  intros v gs e HI Hi. eexists _, e. split; [|done].
  rewrite (sw_sees_readers v gs e HI).
  destruct Hg as [->| ->]; (eapply sw_move; [done|exact Hi|done..| | | | |]; try done); try (by left);
    rewrite ?decide_True by done; unfold sw_word; cbn; lia.
Qed.

(** It counts itself before that, to go on as a reader. *)
Lemma sw_inc_wp n : sw_wp n (ck_pr_inc 32 value) 0 (λ _ g, g = SwDown) SwWrite.
Proof using Rs.
  apply (sw_step_wp _ _ _ _ (λ _, tt) (λ v, uwrap 32 (v + 1))); [by intros [v] t|].
  intros v gs e HI Hi. exists SwDown, e. split; [|done]. pose proof (sw_count_range e gs (sw_len _ _ _ HI)) as Hr.
  eapply sw_move; [done|exact Hi|done..| | | | |]; try done; [by intros _; left|].
  rewrite decide_True, (sw_val _ _ _ HI), (sw_head_eq _ _ Hi) by done. unfold sw_word. cbn. rewrite u32_small by lia. lia.
Qed.

(** *** What the functions do *)

Lemma sw_read_trylock_wp n i g :
  sw_at_rest g →
  sw_wp n (ck_swlock_read_trylock the_lock) i (λ b g', if (b : bool) then g' = SwRead else sw_at_rest g') g.
Proof using Rs.
  intros Hg. apply outside_wp_bind. eapply outside_wp_mono; [by apply sw_look_wp|]. cbv beta. intros v g'.
  destruct (Z.land v CK_SWLOCK_WRITER_BIT =? 0); cbn [negb]; [intros ->|by intros; apply outside_wp_ret].
  apply outside_wp_bind. eapply outside_wp_mono; [apply sw_enter_wp|]. cbv beta. intros w g' [[-> ->]|[[-> ->]|[-> [e ->]]]].
  - by apply outside_wp_bind, outside_wp_ret, outside_wp_ret.
  - apply outside_wp_bind. eapply outside_wp_mono; [by apply sw_dec_wp; right|]. intros _ g' ->. by apply outside_wp_ret.
  - apply outside_wp_bind, outside_wp_ret, outside_wp_ret. done.
Qed.

Lemma sw_read_lock_wp n i g : sw_at_rest g → sw_wp n (ck_swlock_read_lock the_lock) i (λ _ g', g' = SwRead) g.
Proof using Rs.
  intros Hg. apply (wp_loop _ _ _ _ _ (λ _ l, l.2 = RoleOut ∧ sw_at_rest l.1)); [done|]. clear g Hg n.
  intros n _ [g r] [[= ->] Hg]. cbn in Hg. apply wp_bind.
  eapply wp_mono.
  { apply (outside_wp_while _ _ _ _ _ _ sw_at_rest _ (λ _ g, g = SwIdle)); [done|]. intros m g' Hg'.
    apply outside_wp_bind. eapply outside_wp_mono; [by apply sw_look_wp|]. cbv beta. intros v g2.
    destruct (_ =? 0); intros H; apply outside_wp_ret; [done|by apply outside_wp_stall]. }
  intros _ [g' r] [[= ->] [= ->]]. apply wp_bind. eapply wp_mono; [apply sw_enter_wp|].
  intros v [g' r] [[= ->] [[-> [= ->]]|[[-> [= ->]]|[-> [e [= ->]]]]]].
  - by apply wp_ret.
  - apply wp_bind. eapply wp_mono; [by apply sw_dec_wp; right|]. intros _ [g' r] [[= ->] [= ->]]. by apply wp_ret.
  - by apply wp_bind, wp_ret, wp_ret.
Qed.

Lemma sw_write_lock_wp n g : sw_at_rest g → sw_wp n (ck_swlock_write_lock the_lock) 0 (λ _ g', g' = SwWrite) g.
Proof using Rs.
  intros Hg. apply outside_wp_bind. eapply outside_wp_mono; [by apply sw_or_wp|]. intros _ g' ->.
  apply (outside_wp_while _ _ _ _ _ _ (λ g, g = SwBit)); [done|]. intros m g' ->. apply outside_wp_bind.
  eapply outside_wp_mono; [apply sw_alone_wp|]. intros v g' ->. apply outside_wp_ret.
  destruct (_ =? 0); [done|by apply outside_wp_stall].
Qed.

Lemma sw_write_latch_wp n g : sw_at_rest g → sw_wp n (ck_swlock_write_latch the_lock) 0 (λ _ g', g' = SwLatched) g.
Proof using Rs.
  intros Hg. apply outside_wp_bind. eapply outside_wp_mono; [by apply sw_or_wp|]. intros _ g' ->.
  apply (outside_wp_while _ _ _ _ _ _ (λ g, g = SwBit)); [done|]. intros m g' ->. apply outside_wp_bind.
  eapply outside_wp_mono; [apply sw_latch_wp|]. intros [] g' ->; apply outside_wp_ret; [done|].
  apply (wp_loop _ _ _ _ _ (λ _ l, l = (SwBit, RoleOut))); [done|]. clear n. intros n _ l ->.
  apply wp_bind, wp_stall, wp_bind. eapply wp_mono; [by apply (sw_load_wp n 0 (λ _ g, g = SwBit))|].
  intros v [g' r] [[= ->] [= ->]]. apply wp_ret. by destruct (_ =? _).
Qed.

Lemma sw_downgrade_wp n : sw_wp n (ck_swlock_write_downgrade the_lock) 0 (λ _ g', g' = SwRead) SwWrite.
Proof using Rs.
  apply outside_wp_bind. eapply outside_wp_mono; [apply sw_inc_wp|]. intros _ g ->.
  eapply outside_wp_mono; [by apply sw_and_wp; right|]. done.
Qed.
End operations.

(** ** The laws *)

Lemma sw_inv_init n : Z.of_nat n < 1073741824 → sw_inv CK_SWLOCK_INITIALIZER (replicate n SwIdle).
Proof.
  intros Hn. exists 0%nat.
  assert (sw_head (replicate n SwIdle) = SwIdle) as Hh by (unfold sw_head; by destruct n).
  split; rewrite ?Hh, ?length_replicate; try done.
  - rewrite tally_zero; [done|]. by intros i g [-> _]%lookup_replicate.
  - by intros i g [-> _]%lookup_replicate.
  - by intros i e [[=] _]%lookup_replicate.
Qed.

#[export] Program Instance ck_swlock_laws : RwSpinlockLaws ck_swlock (Z.to_nat 1073741823) := {
  rwg := sw_ghost;
  rwg_idle := SwIdle;
  rests := sw_at_rest;
  reading := λ g, g = SwRead;
  writing := λ k g, g = if (k =? 2)%nat then SwLatched else SwWrite;
  rws_inv := sw_inv
}.
Next Obligation. done. Qed.
Next Obligation. intros n Hn. apply sw_inv_init. lia. Qed.
Next Obligation.
  intros s gs i j g g' k [e HI] Hi Hj ->.
  assert (∀ k, sw_w (if (k =? 2)%nat then SwLatched else SwWrite) = true) as Hw by (by intros []; [|]; repeat case_match).
  pose proof (sw_one _ _ _ HI _ _ Hi (Hw k)) as ->. split.
  - intros ->. refine (sw_alone _ _ _ HI _ j Hj). rewrite (sw_head_eq _ _ Hi). by case_match.
  - intros k' ->. symmetry. exact (sw_one _ _ _ HI _ _ Hj (Hw k')).
Qed.
Next Obligation.
  intros R n i k f g HR Hk Hg. destruct k as [|[|k]]; [| |done]; injection Hk as <-.
  - apply outside_wp_bind. eapply outside_wp_mono; [by apply sw_read_lock_wp|]. intros _ g' ->. by apply outside_wp_ret.
  - by apply sw_read_trylock_wp.
Qed.
Next Obligation.
  intros R n i g HR ->. eapply outside_wp_mono; [by apply sw_dec_wp; [|left]|]. by intros _ g ->.
Qed.
Next Obligation.
  intros R n i k w g HR Hk Hi Hg. apply Nat.eqb_eq in Hi as ->. destruct k as [|[|[|k]]]; [| | |done]; injection Hk as <-.
  - apply outside_wp_bind. eapply outside_wp_mono; [by apply sw_write_lock_wp|]. intros _ g' ->. by apply outside_wp_ret.
  - by apply sw_try_wp.
  - apply outside_wp_bind. eapply outside_wp_mono; [by apply sw_write_latch_wp|]. intros _ g' ->. by apply outside_wp_ret.
Qed.
Next Obligation.
  intros R n i k w g HR Hk Hi ->. apply Nat.eqb_eq in Hi as ->. destruct k as [|[|[|k]]]; [| | |done]; injection Hk as <-.
  - eapply outside_wp_mono; [by apply sw_and_wp; [|left]|]. by intros _ g ->.
  - eapply outside_wp_mono; [by apply sw_and_wp; [|left]|]. by intros _ g ->.
  - eapply outside_wp_mono; [by apply sw_unlatch_wp|]. by intros _ g ->.
Qed.
Next Obligation.
  intros R n i k w d g HR Hk Hd Hi ->. apply Nat.eqb_eq in Hi as ->. destruct k as [|[|[|k]]]; try done; injection Hk as <-; try done;
    injection Hd as <-; by apply sw_downgrade_wp.
Qed.
