(* ===== verification/CkPflock.v ===== *)
(** CkPflock: the phase-fair reader-writer lock of Concurrency Kit, include/aerospike/ck/ck_pflock.h: readers count
    themselves in on one word and out on another, with bits for the writer in the first; writers queue by tickets.  It
    satisfies the laws of CkRwMutex. *)

From Stdlib Require Import ZArith Lia.
From stdpp Require Import base list.
From S2P Require Import Prelude Concurrent CkPr CkRwlock CkRwMutex.

#[local] Open Scope Z_scope.
#[local] Set Warnings "-clear-no-such-hyp".

(** [src: include/aerospike/ck/ck_pflock.h 41-46 ck_pflock] *)
Record ck_pflock : Type := MkPflock { pf_rin : Z; pf_rout : Z; pf_win : Z; pf_wout : Z }.
Definition pf_rin_loc : loc ck_pflock Z := MkLoc pf_rin (λ v x, MkPflock v (pf_rout x) (pf_win x) (pf_wout x)).
Definition pf_rout_loc : loc ck_pflock Z := MkLoc pf_rout (λ v x, MkPflock (pf_rin x) v (pf_win x) (pf_wout x)).
Definition pf_win_loc : loc ck_pflock Z := MkLoc pf_win (λ v x, MkPflock (pf_rin x) (pf_rout x) v (pf_wout x)).
Definition pf_wout_loc : loc ck_pflock Z := MkLoc pf_wout (λ v x, MkPflock (pf_rin x) (pf_rout x) (pf_win x) v).

(** [src: include/aerospike/ck/ck_pflock.h 49-49 CK_PFLOCK_LSB] *)
Definition CK_PFLOCK_LSB : Z := 4294967280.
(** [src: include/aerospike/ck/ck_pflock.h 50-50 CK_PFLOCK_RINC] *)
Definition CK_PFLOCK_RINC : Z := 256.
(** [src: include/aerospike/ck/ck_pflock.h 51-51 CK_PFLOCK_WBITS] *)
Definition CK_PFLOCK_WBITS : Z := 3.
(** [src: include/aerospike/ck/ck_pflock.h 52-52 CK_PFLOCK_PRES] *)
Definition CK_PFLOCK_PRES : Z := 2.
(** [src: include/aerospike/ck/ck_pflock.h 53-53 CK_PFLOCK_PHID] *)
Definition CK_PFLOCK_PHID : Z := 1.
(** [src: include/aerospike/ck/ck_pflock.h 55-55 CK_PFLOCK_INITIALIZER] *)
Definition CK_PFLOCK_INITIALIZER : ck_pflock := MkPflock 0 0 0 0.

Section ops.
Context {S : Type} (pf : loc S ck_pflock).
Abbreviation rin := (pf →' pf_rin_loc).
Abbreviation rout := (pf →' pf_rout_loc).
Abbreviation win := (pf →' pf_win_loc).
Abbreviation wout := (pf →' pf_wout_loc).

(** [src: include/aerospike/ck/ck_pflock.h 57-68 ck_pflock_init] *)
Definition ck_pflock_init : prog S unit :=
  ck_pr_store rin 0;; ck_pr_store rout 0;; ck_pr_store win 0;; ck_pr_store wout 0.

(** [src: include/aerospike/ck/ck_pflock.h 70-82 ck_pflock_write_unlock] *)
Definition ck_pflock_write_unlock : prog S unit :=
  ck_pr_and rin CK_PFLOCK_LSB;;
  _ ← ck_pr_faa 32 wout 1;
  mret tt.

(** [src: include/aerospike/ck/ck_pflock.h 84-108 ck_pflock_write_lock] *)
Definition ck_pflock_write_lock : prog S unit :=
  ticket ← ck_pr_faa 32 win 1;
  while (v ← ck_pr_load wout; mret (negb (v =? ticket))) stall;;
  ticket ← ck_pr_faa 32 rin (Z.lor (Z.land ticket CK_PFLOCK_PHID) CK_PFLOCK_PRES);
  while (v ← ck_pr_load rout; mret (negb (v =? ticket))) stall.

(** [src: include/aerospike/ck/ck_pflock.h 110-117 ck_pflock_read_unlock] *)
Definition ck_pflock_read_unlock : prog S unit := _ ← ck_pr_faa 32 rout CK_PFLOCK_RINC; mret tt.

(** [src: include/aerospike/ck/ck_pflock.h 119-140 ck_pflock_read_lock] *)
Definition ck_pflock_read_lock : prog S unit :=
  w ← ck_pr_faa 32 rin CK_PFLOCK_RINC;
  let w := Z.land w CK_PFLOCK_WBITS in
  if w =? 0 then mret tt
  else while (v ← ck_pr_load rin; mret (Z.land v CK_PFLOCK_WBITS =? w)) stall.
End ops.

#[export] Instance ck_pflock_rw : RwSpinlock ck_pflock := {
  rws_init := CK_PFLOCK_INITIALIZER;
  rws_reads S _ := [waits ck_pflock_read_lock];
  rws_read_unlock S _ := ck_pflock_read_unlock;
  rws_writes S _ := [MkWay (waits ck_pflock_write_lock) ck_pflock_write_unlock None];
  rws_may_write i := true
}.

(** ** The invariant *)

(** Where a thread is: a reader counts itself in, and waits while the writer with the ticket [t] is there, or
    reads; a writer has the ticket [t]; it is the first; it has raised its bits when [m] readers had come, and
    waits for those that have not gone; it writes; it has lowered its bits. *)
Inductive pf_ghost : Type :=
  | PfIdle | PfWait (t : Z) | PfRead
  | PfQueue (t : Z) | PfOwn (t : Z) | PfPend (t m : Z) | PfWrite (t m : Z) | PfLeave (t : Z).

(** The bits of the writer: not raised yet, raised when [m] readers had come, lowered. *)
Inductive pf_phase : Type := PfNone | PfRaised (m : Z) | PfLowered.

Definition pf_reads (g : pf_ghost) : bool := match g with PfWait _ | PfRead => true | _ => false end.

(** The readers that the writer with the ticket [wo] waits for. *)
Definition pf_old (wo : Z) (g : pf_ghost) : bool := match g with PfWait t => negb (t =? wo) | PfRead => true | _ => false end.

Definition pf_ticket (g : pf_ghost) : option Z :=
  match g with
  | PfQueue t | PfOwn t | PfPend t _ | PfWrite t _ | PfLeave t => Some t
  | _ => None
  end.
Definition pf_writes (g : pf_ghost) : bool := match pf_ticket g with Some _ => true | None => false end.

Definition pf_stage (g : pf_ghost) : option pf_phase :=
  match g with
  | PfOwn _ => Some PfNone
  | PfPend _ m | PfWrite _ m => Some (PfRaised m)
  | PfLeave _ => Some PfLowered
  | _ => None
  end.

(** [ni] readers have come and [no] gone; [wi] writers have come and [wo] gone. *)
Record pf_rel (gs : list pf_ghost) (ni no wi wo : Z) (ph : pf_phase) : Prop := {
  pf_readers : tally pf_reads gs = ni - no;
  pf_writers : tally pf_writes gs = wi - wo;
  pf_range i g t : gs !! i = Some g → pf_ticket g = Some t → wo ≤ t < wi;
  pf_one i j g g' t : gs !! i = Some g → gs !! j = Some g' → pf_ticket g = Some t → pf_ticket g' = Some t → i = j;
  pf_first i g s : gs !! i = Some g → pf_stage g = Some s → pf_ticket g = Some wo ∧ s = ph;
  pf_present : ph ≠ PfNone → ∃ i g, gs !! i = Some g ∧ pf_ticket g = Some wo ∧ pf_stage g = Some ph;
  pf_waits i t : gs !! i = Some (PfWait t) → t ≤ wo ∧ (t = wo → ph ≠ PfNone);
  pf_pending m : ph = PfRaised m → tally (pf_old wo) gs = m - no;
  pf_alone i t m : gs !! i = Some (PfWrite t m) → m = no;
  pf_len : Z.of_nat (length gs) < 16777216
}.

Definition pf_bits (ph : pf_phase) (wo : Z) : Z := match ph with PfRaised _ => 2 + wo mod 2 | _ => 0 end.

Definition pf_count (n : Z) : Z := n mod 16777216 * 256.

Definition pf_words (x : ck_pflock) (ni no wi wo : Z) (ph : pf_phase) : Prop :=
  x = MkPflock (pf_count ni + pf_bits ph wo) (pf_count no) (wi mod 4294967296) (wo mod 4294967296).

Definition pf_inv (x : ck_pflock) (gs : list pf_ghost) : Prop :=
  ∃ ni no wi wo ph, pf_words x ni no wi wo ph ∧ pf_rel gs ni no wi wo ph.

(** *** The words *)

Lemma pf_bits_range ph wo : 0 ≤ pf_bits ph wo < 4.
Proof. pose proof (Z.mod_pos_bound wo 2). destruct ph; cbn; lia. Qed.

Lemma pf_count_next n b : 0 ≤ b < 256 → u32 (pf_count n + b + 256) = pf_count (n + 1) + b.
Proof. intros Hb. unfold pf_count, uwrap. change (2 ^ 32) with 4294967296. div_lia. Qed.

Lemma pf_count_inj m n : 0 ≤ m - n < 16777216 → pf_count n = pf_count m → m = n.
Proof. unfold pf_count. intros H E. div_lia. Qed.

Lemma pf_word_bits n ph wo : Z.land (pf_count n + pf_bits ph wo) CK_PFLOCK_WBITS = pf_bits ph wo.
Proof.
  pose proof (pf_bits_range ph wo). change CK_PFLOCK_WBITS with (Z.ones 2). rewrite Z.land_ones by done.
  unfold pf_count. change (2 ^ 2) with 4. div_lia.
Qed.

Lemma pf_word_lower n ph wo : Z.land (pf_count n + pf_bits ph wo) CK_PFLOCK_LSB = pf_count n.
Proof.
  pose proof (pf_bits_range ph wo). change CK_PFLOCK_LSB with (Z.shiftl (Z.ones 28) 4).
  rewrite land_field by done. unfold pf_count. change (2 ^ 4) with 16. change (2 ^ 28) with 268435456. div_lia.
Qed.

(** What the writer with the ticket [t] adds. *)
Lemma pf_raise t : Z.lor (Z.land (t mod 4294967296) CK_PFLOCK_PHID) CK_PFLOCK_PRES = 2 + t mod 2.
Proof.
  change CK_PFLOCK_PHID with (Z.ones 1). rewrite Z.land_ones by done. change (2 ^ 1) with 2.
  replace ((t mod 4294967296) mod 2) with (t mod 2) by div_lia.
  pose proof (Z.mod_pos_bound t 2). assert (t mod 2 = 0 ∨ t mod 2 = 1) as [-> | ->] by lia; done.
Qed.

Lemma pf_raise_word n t m : u32 (pf_count n + pf_bits PfNone t + (2 + t mod 2)) = pf_count n + pf_bits (PfRaised m) t.
Proof.
  pose proof (Z.mod_pos_bound t 2). cbn [pf_bits]. rewrite u32_small; [lia|]. unfold pf_count.
  pose proof (Z.mod_pos_bound n 16777216). lia.
Qed.

Lemma ticket_next t : u32 (t mod 4294967296 + 1) = (t + 1) mod 4294967296.
Proof. unfold uwrap. change (2 ^ 32) with 4294967296. by rewrite Zplus_mod_idemp_l. Qed.

(** *** The moves of the threads *)

#[export] Instance pf_phase_eq_dec : EqDecision pf_phase.
Proof. solve_decision. Defined.

#[local] Ltac pf_cases :=
  repeat match goal with H : <[_ := _]> _ !! _ = Some _ |- _ => apply insert_case in H as [[-> H]|[? H]]; [try match type of H with ?x = _ => is_var x; subst x end|] end.

Section moves.
Context (gs : list pf_ghost) (ni no wi wo : Z) (ph : pf_phase) (HR : pf_rel gs ni no wi wo ph).

(** Two writers with the ticket that is served are one. *)
Lemma pf_stage_one i j g g' s :
  gs !! i = Some g → gs !! j = Some g' → pf_ticket g = Some wo → pf_stage g' = Some s → i = j.
Proof using HR.
  intros Hi Hj Ht Hs. destruct (pf_first _ _ _ _ _ _ HR j g' s Hj Hs) as [Ht' _].
  exact (pf_one _ _ _ _ _ _ HR _ _ _ _ _ Hi Hj Ht Ht').
Qed.

(** A thread goes on, while the writer that is served stays where it is. *)
Lemma pf_move ni' no' wi' i g g' :
  gs !! i = Some g →
  Z.b2z (pf_reads g') - Z.b2z (pf_reads g) = (ni' - no') - (ni - no) →
  (pf_ticket g' = pf_ticket g ∧ wi' = wi ∨ pf_ticket g = None ∧ pf_ticket g' = Some wi ∧ wi' = wi + 1) →
  (∀ s, pf_stage g' = Some s → pf_ticket g' = Some wo ∧ s = ph) →
  (∀ s, pf_stage g = Some s → pf_stage g' = Some s ∧ pf_ticket g' = pf_ticket g) →
  (∀ t, g' = PfWait t → t ≤ wo ∧ (t = wo → ph ≠ PfNone)) →
  (∀ m, ph = PfRaised m → Z.b2z (pf_old wo g') - Z.b2z (pf_old wo g) = no - no') →
  (∀ t m, g' = PfWrite t m → m = no') →
  (no' = no ∨ ∀ j t m, gs !! j ≠ Some (PfWrite t m)) →
  pf_rel (<[i := g']> gs) ni' no' wi' wo ph.
Proof using HR.
  intros Hi Hr Hw Hs Hs' Hp Ho Ha Hn. destruct HR as [H1 H2 H3 H4 H5 H6 H7 H8 H9 H10].
  pose proof (tally_range pf_writes gs) as Hwr.
  assert (wi ≤ wi') as Hle by (destruct Hw; lia).
  assert (∀ j g0 t, <[i := g']> gs !! j = Some g0 → pf_ticket g0 = Some t → j = i ∧ t = wi ∧ pf_ticket g = None ∧ wi' = wi + 1 ∨
    ∃ g1, gs !! j = Some g1 ∧ pf_ticket g1 = Some t) as Hold.
  { intros j g0 t Hj Ht. pf_cases; [|eauto]. destruct Hw as [[E _]|(? & E & ?)]; [right; exists g; by rewrite <- E|].
    left. rewrite E in Ht. by injection Ht as <-. }
  split; rewrite ?(tally_insert _ _ _ _ _ Hi), ?length_insert; try done; try lia.
  - unfold pf_writes at 2 3. destruct Hw as [[-> ?]|(-> & -> & ?)]; cbn; lia.
  - intros j g0 t Hj Ht. destruct (Hold j g0 t Hj Ht) as [(_ & -> & _ & ?)|(g1 & Hj1 & Ht1)]; [lia|].
    specialize (H3 _ _ _ Hj1 Ht1). lia.
  - intros j k g1 g2 t Hj Hk Ht1 Ht2.
    destruct (Hold j g1 t Hj Ht1) as [(-> & E' & ? & ?)|(g3 & Hj3 & Ht3)],
      (Hold k g2 t Hk Ht2) as [(-> & E & ? & ?)|(g4 & Hj4 & Ht4)]; [done| | |by eauto].
    + specialize (H3 _ _ _ Hj4 Ht4). lia.
    + specialize (H3 _ _ _ Hj3 Ht3). lia.
  - intros j g0 s Hj Hst. pf_cases; [by apply Hs|by eapply H5].
  - intros Hph. destruct (H6 Hph) as (j & g0 & Hj & Ht & Hst). destruct (decide (j = i)) as [->|Hne].
    + exists i, g'. rewrite list_lookup_insert_eq by (by eapply lookup_lt_Some). rewrite Hi in Hj. injection Hj as <-.
      destruct (Hs' _ Hst) as [? ->]. done.
    + exists j, g0. by rewrite list_lookup_insert_ne.
  - intros j t Hj. pf_cases; [by apply Hp|by eapply H7].
  - intros m Hm. rewrite (H8 m Hm). specialize (Ho m Hm). lia.
  - intros j t m Hj. pf_cases; [by eapply Ha|]. destruct Hn as [->|Hn]; [by eapply H9|by destruct (Hn j t m)].
Qed.

(** A reader comes. *)
Lemma pf_come i :
  gs !! i = Some PfIdle →
  pf_rel (<[i := match ph with PfRaised _ => PfWait wo | _ => PfRead end]> gs) (ni + 1) no wi wo ph.
Proof using HR.
  intros Hi. eapply pf_move; [exact Hi|..]; try (by left); destruct ph as [|m|] eqn:Ep; cbn; try done; try lia;
    try (by left).
  - by intros t [= <-].
  - intros m' _. rewrite Z.eqb_refl. cbn. lia.
Qed.

(** One that waited sees that the writer has gone. *)
Lemma pf_admit i t :
  gs !! i = Some (PfWait t) → (∀ m, ph = PfRaised m → t ≠ wo) → pf_rel (<[i := PfRead]> gs) ni no wi wo ph.
Proof using HR.
  intros Hi Hne. eapply pf_move; [exact Hi|..]; try done; cbn; try lia; try (by left).
  intros m Hm. specialize (Hne m Hm). rewrite (proj2 (Z.eqb_neq t wo)) by done. cbn. lia.
Qed.

(** It goes. *)
Lemma pf_go i : gs !! i = Some PfRead → pf_rel (<[i := PfIdle]> gs) ni (no + 1) wi wo ph.
Proof using HR.
  intros Hi. eapply pf_move; [exact Hi|..]; try done; cbn; try lia; try (by left).
  right. intros j u m Hj. destruct (pf_first _ _ _ _ _ _ HR j _ _ Hj eq_refl) as [_ E].
  pose proof (pf_pending _ _ _ _ _ _ HR m (eq_sym E)). pose proof (pf_alone _ _ _ _ _ _ HR _ _ _ Hj).
  pose proof (tally_pos (pf_old wo) gs i PfRead Hi eq_refl). lia.
Qed.

(** A writer takes a ticket. *)
Lemma pf_join i : gs !! i = Some PfIdle → pf_rel (<[i := PfQueue wi]> gs) ni no (wi + 1) wo ph.
Proof using HR.
  intros Hi. eapply pf_move; [exact Hi|..]; try done; cbn; try lia; try (by left); try (by right).
Qed.

(** It is served when the writer before has gone. *)
Lemma pf_serve i : gs !! i = Some (PfQueue wo) → pf_rel (<[i := PfOwn wo]> gs) ni no wi wo ph.
Proof using HR.
  intros Hi. assert (ph = PfNone) as E.
  { destruct (decide (ph = PfNone)) as [|Hne]; [done|]. destruct (pf_present _ _ _ _ _ _ HR Hne) as (j & g & Hj & _ & Hs).
    pose proof (pf_stage_one _ _ _ _ _ Hi Hj eq_refl Hs) as <-. rewrite Hi in Hj. by injection Hj as <-. }
  eapply pf_move; [exact Hi|..]; try done; cbn; try lia; try (by left). by intros s [= <-].
Qed.

(** It writes when the readers that came before have gone. *)
Lemma pf_enter i t : gs !! i = Some (PfPend t no) → pf_rel (<[i := PfWrite t no]> gs) ni no wi wo ph.
Proof using HR.
  intros Hi. pose proof (pf_first _ _ _ _ _ _ HR _ _ _ Hi eq_refl) as [Ht Hp].
  eapply pf_move; [exact Hi|..]; try done; cbn; try lia; try (by left); [by intros s [= <-]|naive_solver].
Qed.

(** The writer that is served goes from one phase to the next. *)
Lemma pf_change ph' i g g' s :
  gs !! i = Some g → pf_stage g = Some s → pf_reads g' = false → pf_old wo g' = false →
  pf_ticket g' = Some wo → pf_stage g' = Some ph' → (∀ t m, g' ≠ PfWrite t m) → (ph = PfNone ∨ ph' ≠ PfNone) →
  (∀ m, ph' = PfRaised m → tally (pf_old wo) gs = m - no) →
  pf_rel (<[i := g']> gs) ni no wi wo ph'.
Proof using HR.
  intros Hi Hs Hr Ho Ht Hs' Hnw Hne Hp. destruct (pf_first _ _ _ _ _ _ HR _ _ _ Hi Hs) as [Htg _].
  assert (∀ j g0 s0, i ≠ j → gs !! j = Some g0 → pf_stage g0 = Some s0 → False) as Hone.
  { intros j g0 s0 Hij Hj Hs0. apply Hij. by eapply pf_stage_one. }
  assert (pf_reads g = false ∧ pf_old wo g = false ∧ pf_writes g = true ∧ pf_writes g' = true) as (E1 & E2 & E3 & E4).
  { unfold pf_writes. rewrite Htg, Ht. by destruct g. }
  assert (∀ j g0 t, <[i := g']> gs !! j = Some g0 → pf_ticket g0 = Some t → ∃ g1, gs !! j = Some g1 ∧ pf_ticket g1 = Some t) as Hold.
  { intros j g0 t Hj Ht0. pf_cases; [|eauto]. exists g. split; [done|congruence]. }
  destruct HR as [H1 H2 H3 H4 H5 H6 H7 H8 H9 H10].
  split; rewrite ?(tally_insert _ _ _ _ _ Hi), ?length_insert, ?E1, ?E3, ?E4, ?Hr; cbn [Z.b2z]; try done; try lia.
  - intros j g0 t Hj Ht0. destruct (Hold _ _ _ Hj Ht0) as (g1 & ? & ?). eauto.
  - intros j k g1 g2 t Hj Hk Ht1 Ht2. destruct (Hold _ _ _ Hj Ht1) as (? & ? & ?), (Hold _ _ _ Hk Ht2) as (? & ? & ?). eauto.
  - intros j g0 s0 Hj Hs0. pf_cases; [|exfalso; by eapply (Hone j)]. split; [done|congruence].
  - intros _. exists i, g'. by rewrite list_lookup_insert_eq by (by eapply lookup_lt_Some).
  - intros j t Hj. pf_cases; [by rewrite <- Hj in Hr|]. destruct (H7 j t Hj) as [? Hp']. split; [done|]. intros Et.
    destruct Hne as [->|]; [by destruct (Hp' Et)|done].
  - intros m Hm. rewrite E2, Ho, (Hp m Hm). cbn. lia.
  - intros j t m Hj. pf_cases; [by destruct (Hnw t m)|]. exfalso. by eapply (Hone j).
Qed.

(** It raises its bits: every reader that is there came before. *)
Lemma pf_raised i t : gs !! i = Some (PfOwn t) → t = wo ∧ ph = PfNone ∧ pf_rel (<[i := PfPend t ni]> gs) ni no wi wo (PfRaised ni).
Proof using HR.
  intros Hi. pose proof (pf_first _ _ _ _ _ _ HR _ _ _ Hi eq_refl) as [[= ->] Hp]. split; [done|]. split; [done|].
  eapply pf_change; try done; [by left|]. intros m [= <-]. rewrite <- (pf_readers _ _ _ _ _ _ HR). apply tally_ext.
  intros j g Hj. destruct g as [|u| | | | | |]; try done. destruct (pf_waits _ _ _ _ _ _ HR _ _ Hj) as [? Hn]. cbn.
  rewrite (proj2 (Z.eqb_neq u wo)); [done|]. naive_solver.
Qed.

Lemma pf_lower i t m : gs !! i = Some (PfWrite t m) → pf_rel (<[i := PfLeave t]> gs) ni no wi wo PfLowered.
Proof using HR.
  intros Hi. pose proof (pf_first _ _ _ _ _ _ HR _ _ _ Hi eq_refl) as [[= ->] Hp].
  eapply pf_change; try done. by right.
Qed.

(** The writer leaves: the next ticket is served. *)
Lemma pf_leave i t : gs !! i = Some (PfLeave t) → t = wo ∧ pf_rel (<[i := PfIdle]> gs) ni no wi (wo + 1) PfNone.
Proof using HR.
  intros Hi. pose proof (pf_first _ _ _ _ _ _ HR _ _ _ Hi eq_refl) as [[= ->] Hp]. split; [done|].
  assert (∀ j g0 t, <[i := PfIdle]> gs !! j = Some g0 → pf_ticket g0 = Some t → gs !! j = Some g0 ∧ t ≠ wo) as Hold.
  { intros j g0 t Hj Ht. pf_cases; [done|]. split; [done|]. intros ->.
    by pose proof (pf_one _ _ _ _ _ _ HR i j _ _ wo Hi ltac:(done) eq_refl Ht). }
  assert (∀ j g0 s0, <[i := PfIdle]> gs !! j = Some g0 → pf_stage g0 = Some s0 → False) as Hone.
  { intros j g0 s0 Hj Hs0. pf_cases; [done|]. by pose proof (pf_stage_one i j _ _ _ Hi ltac:(done) eq_refl Hs0). }
  destruct HR as [H1 H2 H3 H4 H5 H6 H7 H8 H9 H10].
  split; rewrite ?(tally_insert _ _ _ _ _ Hi), ?length_insert; cbn [Z.b2z pf_reads pf_writes pf_ticket]; try done; try lia.
  - intros j g t Hj Ht. destruct (Hold _ _ _ Hj Ht) as [Hj' Hne]. specialize (H3 _ _ _ Hj' Ht). lia.
  - intros j k g g2 t Hj Hk Ht Ht2. destruct (Hold _ _ _ Hj Ht), (Hold _ _ _ Hk Ht2). eauto.
  - intros j g s Hj Hs. destruct (Hone _ _ _ Hj Hs).
  - intros j t Hj. pf_cases; [done|]. destruct (H7 j t ltac:(done)). split; lia.
  - intros j t m Hj. destruct (Hone _ _ _ Hj eq_refl).
Qed.
End moves.

(** ** The operations *)

Section operations.
Context (R : list rw_mark → list (pf_ghost * rw_role) → Prop) (Rs : rws_stable R).
Abbreviation pf_wp := (rws_wp pf_inv R).
Abbreviation the_lock := (the_rws (T := ck_pflock)).

(** One step on the lock. *)
Lemma pf_step_wp n i A (f : rws_memory ck_pflock → outcome (A * rws_memory ck_pflock)) (r : ck_pflock → A)
    (u : ck_pflock → ck_pflock) (Q : A → pf_ghost → Prop) g :
  (∀ x t, f (x, t) = Ret (r x, (u x, t))) →
  (∀ x gs ni no wi wo ph, pf_words x ni no wi wo ph → pf_rel gs ni no wi wo ph → gs !! i = Some g →
     ∃ g' ni' no' wi' wo' ph', pf_words (u x) ni' no' wi' wo' ph' ∧ pf_rel (<[i := g']> gs) ni' no' wi' wo' ph' ∧ Q (r x) g') →
  pf_wp n (atomic f) i Q g.
Proof using Rs.
  intros Hf H. apply outside_wp_atomic; [done|]. intros x tr gs (ni & no & wi & wo & ph & HW & HR) Hi.
  destruct (H x gs _ _ _ _ _ HW HR Hi) as (g' & ni' & no' & wi' & wo' & ph' & HW' & HR' & HQ).
  exists (r x), (u x), g'. split; [apply Hf|]. split; [|done]. by exists ni', no', wi', wo', ph'.
Qed.

(** What a reader that waits compares. *)
Definition pf_came (w : Z) (g : pf_ghost) : Prop := w = 0 ∧ g = PfRead ∨ ∃ t, w = 2 + t mod 2 ∧ g = PfWait t.

Lemma pf_come_wp n i :
  pf_wp n (ck_pr_faa 32 (the_lock →' pf_rin_loc) CK_PFLOCK_RINC) i (λ w, pf_came (Z.land w CK_PFLOCK_WBITS)) PfIdle.
Proof using Rs.
  apply (pf_step_wp _ _ _ _ pf_rin (λ x, loc_set pf_rin_loc (u32 (pf_rin x + 256)) x)); [by intros [????] t|].
  intros x gs ni no wi wo ph -> HR Hi.
  eexists _, (ni + 1), no, wi, wo, ph. split; [|split; [by apply pf_come|]].
  - unfold pf_words. cbn. rewrite pf_count_next by (pose proof (pf_bits_range ph wo); lia). done.
  - cbn. rewrite pf_word_bits. unfold pf_came. destruct ph as [|m|]; cbn [pf_bits]; [by left|right; by exists wo|by left].
Qed.

Lemma pf_admit_wp n i t :
  pf_wp n (ck_pr_load (the_lock →' pf_rin_loc)) i
    (λ v g, g = if Z.land v CK_PFLOCK_WBITS =? 2 + t mod 2 then PfWait t else PfRead) (PfWait t).
Proof using Rs.
  apply (pf_step_wp _ _ _ _ pf_rin id); [by intros [????] u|]. intros x gs ni no wi wo ph -> HR Hi. cbn [pf_rin].
  rewrite pf_word_bits. destruct (Z.eqb_spec (pf_bits ph wo) (2 + t mod 2)) as [E|E].
  - eexists (PfWait t), ni, no, wi, wo, ph. by rewrite list_insert_id.
  - eexists PfRead, ni, no, wi, wo, ph. split; [done|]. split; [|done]. eapply pf_admit; [done|done|].
    intros m -> ->. by apply E.
Qed.

Lemma pf_go_wp n i : pf_wp n (ck_pflock_read_unlock the_lock) i (λ _ g, g = PfIdle) PfRead.
Proof using Rs.
  apply outside_wp_bind. eapply outside_wp_mono; [|intros a g H; apply outside_wp_ret; exact H].
  apply (pf_step_wp _ _ _ _ pf_rout (λ x, loc_set pf_rout_loc (u32 (pf_rout x + 256)) x)); [by intros [????] t|].
  intros x gs ni no wi wo ph -> HR Hi. eexists PfIdle, ni, (no + 1), wi, wo, ph. split; [|split; [by eapply pf_go|done]].
  unfold pf_words. cbn. rewrite <- (Z.add_0_r (pf_count no)), pf_count_next by done. by rewrite Z.add_0_r.
Qed.

Lemma pf_join_wp n i :
  pf_wp n (ck_pr_faa 32 (the_lock →' pf_win_loc) 1) i (λ v g, ∃ t, v = t mod 4294967296 ∧ g = PfQueue t) PfIdle.
Proof using Rs.
  apply (pf_step_wp _ _ _ _ pf_win (λ x, loc_set pf_win_loc (u32 (pf_win x + 1)) x)); [by intros [????] t|].
  intros x gs ni no wi wo ph -> HR Hi. eexists _, ni, no, (wi + 1), wo, ph.
  split; [|split; [by apply pf_join|by exists wi]]. unfold pf_words. cbn. by rewrite ticket_next.
Qed.

Lemma pf_serve_wp n i t :
  pf_wp n (ck_pr_load (the_lock →' pf_wout_loc)) i
    (λ v g, g = if v =? t mod 4294967296 then PfOwn t else PfQueue t) (PfQueue t).
Proof using Rs.
  apply (pf_step_wp _ _ _ _ pf_wout id); [by intros [????] u|]. intros x gs ni no wi wo ph -> HR Hi. cbn [pf_wout].
  destruct (Z.eqb_spec (wo mod 4294967296) (t mod 4294967296)) as [E|E].
  - pose proof (pf_range _ _ _ _ _ _ HR _ _ _ Hi eq_refl) as Ht. pose proof (pf_writers _ _ _ _ _ _ HR) as Hw.
    pose proof (tally_range pf_writes gs). pose proof (pf_len _ _ _ _ _ _ HR). assert (t = wo) as -> by div_lia.
    eexists (PfOwn wo), ni, no, wi, wo, ph. split; [done|]. split; [by apply pf_serve|done].
  - eexists (PfQueue t), ni, no, wi, wo, ph. by rewrite list_insert_id.
Qed.

Lemma pf_raise_wp n i t :
  pf_wp n (ck_pr_faa 32 (the_lock →' pf_rin_loc) (2 + t mod 2)) i
    (λ v g, ∃ m, v = pf_count m ∧ g = PfPend t m) (PfOwn t).
Proof using Rs.
  apply (pf_step_wp _ _ _ _ pf_rin (λ x, loc_set pf_rin_loc (u32 (pf_rin x + (2 + t mod 2))) x)); [by intros [????] u|].
  intros x gs ni no wi wo ph -> HR Hi. destruct (pf_raised _ _ _ _ _ _ HR _ _ Hi) as (-> & -> & HR').
  eexists _, ni, no, wi, wo, _. split; [|split; [exact HR'|]].
  - unfold pf_words. cbn -[pf_bits]. by rewrite (pf_raise_word ni wo ni).
  - exists ni. cbn. by rewrite Z.add_0_r.
Qed.

Lemma pf_enter_wp n i t m :
  pf_wp n (ck_pr_load (the_lock →' pf_rout_loc)) i
    (λ v g, g = if v =? pf_count m then PfWrite t m else PfPend t m) (PfPend t m).
Proof using Rs.
  apply (pf_step_wp _ _ _ _ pf_rout id); [by intros [????] u|]. intros x gs ni no wi wo ph -> HR Hi. cbn [pf_rout].
  destruct (Z.eqb_spec (pf_count no) (pf_count m)) as [E|E].
  - pose proof (pf_first _ _ _ _ _ _ HR _ _ _ Hi eq_refl) as [_ Hp].
    pose proof (pf_pending _ _ _ _ _ _ HR m (eq_sym Hp)). pose proof (tally_range (pf_old wo) gs).
    pose proof (pf_len _ _ _ _ _ _ HR). assert (m = no) as -> by (apply pf_count_inj; [lia|done]).
    eexists (PfWrite t no), ni, no, wi, wo, ph. split; [done|]. split; [by apply pf_enter|done].
  - eexists (PfPend t m), ni, no, wi, wo, ph. by rewrite list_insert_id.
Qed.

Lemma pf_write_unlock_wp n i t m : pf_wp n (ck_pflock_write_unlock the_lock) i (λ _ g, g = PfIdle) (PfWrite t m).
Proof using Rs.
  apply outside_wp_bind. apply (outside_wp_mono _ _ _ _ _ _ _ (λ _ g, g = PfLeave t)).
  { apply (pf_step_wp _ _ _ _ (λ _, tt) (λ x, loc_set pf_rin_loc (Z.land (pf_rin x) CK_PFLOCK_LSB) x)); [by intros [????] u|].
    intros x gs ni no wi wo ph -> HR Hi. eexists _, ni, no, wi, wo, PfLowered.
    split; [|split; [by eapply pf_lower|done]]. unfold pf_words. cbn -[pf_bits]. by rewrite pf_word_lower, Z.add_0_r. }
  intros _ g ->. apply outside_wp_bind. eapply outside_wp_mono; [|intros a g H; apply outside_wp_ret; exact H].
  apply (pf_step_wp _ _ _ _ pf_wout (λ x, loc_set pf_wout_loc (u32 (pf_wout x + 1)) x)); [by intros [????] u|].
  intros x gs ni no wi wo ph -> HR Hi. destruct (pf_leave _ _ _ _ _ _ HR _ _ Hi) as [-> HR'].
  pose proof (pf_first _ _ _ _ _ _ HR _ _ _ Hi eq_refl) as [_ <-].
  eexists PfIdle, ni, no, wi, (wo + 1), PfNone. split; [|done]. unfold pf_words. cbn. by rewrite ticket_next.
Qed.

Lemma pf_read_lock_wp n i : pf_wp n (ck_pflock_read_lock the_lock) i (λ _ g, g = PfRead) PfIdle.
Proof using Rs.
  apply outside_wp_bind. eapply outside_wp_mono; [apply pf_come_wp|]. cbv beta. intros w g [[-> ->]|(t & -> & ->)].
  - by apply outside_wp_ret.
  - cbv zeta. rewrite (proj2 (Z.eqb_neq (2 + t mod 2) 0)) by div_lia.
    apply (outside_wp_while _ _ _ _ _ _ (λ g, g = PfWait t)); [done|]. intros k g ->. apply outside_wp_bind.
    eapply outside_wp_mono; [apply pf_admit_wp|]. intros v g ->. apply outside_wp_ret.
    destruct (_ =? _); [by apply outside_wp_stall|done].
Qed.

Lemma pf_write_lock_wp n i : pf_wp n (ck_pflock_write_lock the_lock) i (λ _ g, ∃ t m, g = PfWrite t m) PfIdle.
Proof using Rs.
  apply outside_wp_bind. eapply outside_wp_mono; [apply pf_join_wp|]. intros w g (t & -> & ->).
  apply outside_wp_bind. apply (outside_wp_mono _ _ _ _ _ _ _ (λ _ g, g = PfOwn t)).
  { apply (outside_wp_while _ _ _ _ _ _ (λ g, g = PfQueue t)); [done|]. intros k g ->. apply outside_wp_bind.
    eapply outside_wp_mono; [apply pf_serve_wp|]. intros v g ->. apply outside_wp_ret.
    destruct (_ =? _); [done|by apply outside_wp_stall]. }
  intros _ g ->. rewrite pf_raise. apply outside_wp_bind. eapply outside_wp_mono; [apply pf_raise_wp|]. intros v g (m & -> & ->).
  apply (outside_wp_while _ _ _ _ _ _ (λ g, g = PfPend t m)); [done|]. intros k g ->. apply outside_wp_bind.
  eapply outside_wp_mono; [apply pf_enter_wp|]. intros v g ->. apply outside_wp_ret.
  destruct (_ =? _); [by exists t, m|by apply outside_wp_stall].
Qed.
End operations.

(** ** The laws *)

Lemma pf_inv_init n : Z.of_nat n < 16777216 → pf_inv CK_PFLOCK_INITIALIZER (replicate n PfIdle).
Proof.
  intros Hn. exists 0, 0, 0, 0, PfNone. split; [done|].
  split; rewrite ?length_replicate, ?tally_none by done; try done; try by intros i g t [-> _]%lookup_replicate.
  - by intros i j g g' t [-> _]%lookup_replicate.
  - by intros i t [[=] _]%lookup_replicate.
  - by intros i t m [[=] _]%lookup_replicate.
Qed.

#[export] Program Instance ck_pflock_laws : RwSpinlockLaws ck_pflock (Z.to_nat 16777215) := {
  rwg := pf_ghost;
  rwg_idle := PfIdle;
  rests := λ g, g = PfIdle;
  reading := λ g, g = PfRead;
  writing := λ _ g, ∃ t m, g = PfWrite t m;
  rws_inv := pf_inv
}.
Next Obligation. done. Qed.
Next Obligation. intros n Hn. apply pf_inv_init. lia. Qed.
Next Obligation.
  intros s gs i j g g' k (ni & no & wi & wo & ph & _ & HR) Hi Hj (t & m & ->).
  pose proof (pf_first _ _ _ _ _ _ HR _ _ _ Hi eq_refl) as [Ht Hp]. split.
  - intros ->. pose proof (pf_pending _ _ _ _ _ _ HR m (eq_sym Hp)). pose proof (pf_alone _ _ _ _ _ _ HR _ _ _ Hi).
    pose proof (tally_pos (pf_old wo) gs j PfRead Hj eq_refl). lia.
  - intros _ (t' & m' & ->). by eapply pf_stage_one.
Qed.
Next Obligation.
  intros R n i k f g HR Hk ->. destruct k as [|k]; [|done]. injection Hk as <-. apply outside_wp_bind.
  eapply outside_wp_mono; [by apply pf_read_lock_wp|]. intros _ g' ->. by apply outside_wp_ret.
Qed.
Next Obligation. intros R n i g HR ->. by apply pf_go_wp. Qed.
Next Obligation.
  intros R n i k w g HR Hk ? ->. destruct k as [|k]; [|done]. injection Hk as <-. apply outside_wp_bind.
  eapply outside_wp_mono; [by apply pf_write_lock_wp|]. intros [] g' Hg. by apply outside_wp_ret.
Qed.
Next Obligation.
  intros R n i k w g HR Hk ? (t & m & ->). destruct k as [|k]; [|done]. injection Hk as <-. by apply pf_write_unlock_wp.
Qed.
Next Obligation. intros R n i k w d g HR Hk Hd. destruct k as [|k]; [|done]. by injection Hk as <-. Qed.
