(* ===== verification/CkTflock.v ===== *)
(** CkTflock: the task-fair reader-writer lock of Concurrency Kit, include/aerospike/ck/ck_tflock.h: a word that counts
    the readers and the writers that came, and one that counts those that went.  It satisfies the laws of
    CkRwMutex. *)

From Stdlib Require Import ZArith Lia.
From stdpp Require Import base list.
From S2P Require Import Prelude Concurrent CkPr CkRwlock CkRwMutex.

#[local] Open Scope Z_scope.
#[local] Set Warnings "-clear-no-such-hyp".

(** [src: include/aerospike/ck/ck_tflock.h 41-44 ck_tflock_ticket] *)
Record ck_tflock_ticket : Type := MkTflock { tf_request : Z; tf_completion : Z }.
Definition tf_request_loc : loc ck_tflock_ticket Z := MkLoc tf_request (λ v x, MkTflock v (tf_completion x)).
Definition tf_completion_loc : loc ck_tflock_ticket Z := MkLoc tf_completion (λ v x, MkTflock (tf_request x) v).

(** [src: include/aerospike/ck/ck_tflock.h 47-47 CK_TFLOCK_TICKET_INITIALIZER] *)
Definition CK_TFLOCK_TICKET_INITIALIZER : ck_tflock_ticket := MkTflock 0 0.
(** [src: include/aerospike/ck/ck_tflock.h 49-49 CK_TFLOCK_TICKET_RC_INCR] *)
Definition CK_TFLOCK_TICKET_RC_INCR : Z := 65536.
(** [src: include/aerospike/ck/ck_tflock.h 50-50 CK_TFLOCK_TICKET_WC_INCR] *)
Definition CK_TFLOCK_TICKET_WC_INCR : Z := 1.
(** [src: include/aerospike/ck/ck_tflock.h 51-51 CK_TFLOCK_TICKET_W_MASK] *)
Definition CK_TFLOCK_TICKET_W_MASK : Z := 65535.
(** [src: include/aerospike/ck/ck_tflock.h 52-52 CK_TFLOCK_TICKET_WC_TOPMSK] *)
Definition CK_TFLOCK_TICKET_WC_TOPMSK : Z := 32768.
(** [src: include/aerospike/ck/ck_tflock.h 53-53 CK_TFLOCK_TICKET_RC_TOPMSK] *)
Definition CK_TFLOCK_TICKET_RC_TOPMSK : Z := 2147483648.

(** [(snapshot & ~mask) + delta].
    [src: include/aerospike/ck/ck_tflock.h 62-62 ck_tflock_ticket_fca_32] *)
Definition fca_goal (mask delta snapshot : Z) : Z := u32 (Z.land snapshot (u32 (Z.lnot mask)) + delta).

Section ops.
Context {S : Type}.

(** [src: include/aerospike/ck/ck_tflock.h 55-70 ck_tflock_ticket_fca_32] *)
Definition ck_tflock_ticket_fca_32 (target : loc S Z) (mask delta : Z) : prog S Z :=
  snapshot ← ck_pr_load target;
  loop (λ snapshot,
    let goal := fca_goal mask delta snapshot in
    r ← ck_pr_cas_value target snapshot goal;
    let '(b, snapshot) := r in
    if (b : bool) then mret (inr snapshot) else stall;; mret (inl snapshot)) snapshot.

Context (lock : loc S ck_tflock_ticket).
Abbreviation request := (lock →' tf_request_loc).
Abbreviation completion := (lock →' tf_completion_loc).

(** [src: include/aerospike/ck/ck_tflock.h 72-79 ck_tflock_ticket_init] *)
Definition ck_tflock_ticket_init : prog S unit := ck_pr_store completion 0;; ck_pr_store request 0.

(** [src: include/aerospike/ck/ck_tflock.h 81-94 ck_tflock_ticket_write_lock] *)
Definition ck_tflock_ticket_write_lock : prog S unit :=
  previous ← ck_tflock_ticket_fca_32 request CK_TFLOCK_TICKET_WC_TOPMSK CK_TFLOCK_TICKET_WC_INCR;
  while (v ← ck_pr_load completion; mret (negb (v =? previous))) stall.

(** [src: include/aerospike/ck/ck_tflock.h 96-104 ck_tflock_ticket_write_unlock] *)
Definition ck_tflock_ticket_write_unlock : prog S unit :=
  _ ← ck_tflock_ticket_fca_32 completion CK_TFLOCK_TICKET_WC_TOPMSK CK_TFLOCK_TICKET_WC_INCR;
  mret tt.

(** [src: include/aerospike/ck/ck_tflock.h 106-124 ck_tflock_ticket_read_lock] *)
Definition ck_tflock_ticket_read_lock : prog S unit :=
  previous ← ck_tflock_ticket_fca_32 request CK_TFLOCK_TICKET_RC_TOPMSK CK_TFLOCK_TICKET_RC_INCR;
  let previous := Z.land previous CK_TFLOCK_TICKET_W_MASK in
  while (v ← ck_pr_load completion; mret (negb (Z.land v CK_TFLOCK_TICKET_W_MASK =? previous))) stall.

(** [src: include/aerospike/ck/ck_tflock.h 126-134 ck_tflock_ticket_read_unlock] *)
Definition ck_tflock_ticket_read_unlock : prog S unit :=
  _ ← ck_tflock_ticket_fca_32 completion CK_TFLOCK_TICKET_RC_TOPMSK CK_TFLOCK_TICKET_RC_INCR;
  mret tt.
End ops.

#[export] Instance ck_tflock_rw : RwSpinlock ck_tflock_ticket := {
  rws_init := CK_TFLOCK_TICKET_INITIALIZER;
  rws_reads S _ := [waits ck_tflock_ticket_read_lock];
  rws_read_unlock S _ := ck_tflock_ticket_read_unlock;
  rws_writes S _ := [MkWay (waits ck_tflock_ticket_write_lock) ck_tflock_ticket_write_unlock None];
  rws_may_write i := true
}.

(** ** The words *)

(** What a half of a word is when [n] threads were counted: 0, and then 1 to 32768 over and over. *)
Definition tf_half (n : Z) : Z := if n =? 0 then 0 else (n - 1) mod 32768 + 1.

Definition tf_word (r w : Z) : Z := tf_half r * 65536 + tf_half w.

Lemma tf_half_range n : 0 ≤ tf_half n ≤ 32768.
Proof. unfold tf_half. case_match; [lia|]. pose proof (Z.mod_pos_bound (n - 1) 32768). lia. Qed.

Lemma tf_half_next n : 0 ≤ n → tf_half (n + 1) = tf_half n - tf_half n / 32768 * 32768 + 1.
Proof.
  intros Hn. unfold tf_half. rewrite (proj2 (Z.eqb_neq (n + 1) 0)) by lia.
  destruct (Z.eqb_spec n 0) as [->|]; [done|]. div_lia.
Qed.

Lemma tf_half_inj m n : 0 ≤ n → 0 ≤ m - n < 32768 → tf_half n = tf_half m → m = n.
Proof. intros Hn Hd. unfold tf_half. destruct (Z.eqb_spec n 0), (Z.eqb_spec m 0); intros E; try lia; div_lia. Qed.

Lemma tf_word_inj r w r' w' : tf_word r w = tf_word r' w' → tf_half r = tf_half r' ∧ tf_half w = tf_half w'.
Proof.
  unfold tf_word. pose proof (tf_half_range r). pose proof (tf_half_range w).
  pose proof (tf_half_range r'). pose proof (tf_half_range w'). lia.
Qed.

Lemma tf_word_low r w : Z.land (tf_word r w) CK_TFLOCK_TICKET_W_MASK = tf_half w.
Proof.
  change CK_TFLOCK_TICKET_W_MASK with (Z.ones 16). rewrite Z.land_ones by done. change (2 ^ 16) with 65536.
  unfold tf_word. pose proof (tf_half_range w). div_lia.
Qed.

(** The word with a writer more, or a reader more. *)
Definition tf_more (writer : bool) (v : Z) : Z :=
  if writer then fca_goal CK_TFLOCK_TICKET_WC_TOPMSK CK_TFLOCK_TICKET_WC_INCR v
  else fca_goal CK_TFLOCK_TICKET_RC_TOPMSK CK_TFLOCK_TICKET_RC_INCR v.

Lemma tf_word_range r w : 0 ≤ tf_word r w < 4294967296.
Proof. unfold tf_word. pose proof (tf_half_range r). pose proof (tf_half_range w). lia. Qed.

Lemma tf_word_writer r w : 0 ≤ w → tf_more true (tf_word r w) = tf_word r (w + 1).
Proof.
  intros Hw. unfold tf_more, fca_goal. rewrite land_complement by (done || apply tf_word_range).
  change CK_TFLOCK_TICKET_WC_TOPMSK with (Z.shiftl (Z.ones 1) 15). rewrite land_field by done.
  pose proof (tf_half_range r). pose proof (tf_half_range w). pose proof (tf_half_next w Hw).
  change (2 ^ 15) with 32768. change (2 ^ 1) with 2. change CK_TFLOCK_TICKET_WC_INCR with 1.
  assert (tf_word r w / 32768 mod 2 = tf_half w / 32768) as -> by (unfold tf_word; div_lia).
  rewrite u32_small; unfold tf_word; div_lia.
Qed.

Lemma tf_word_reader r w : 0 ≤ r → tf_more false (tf_word r w) = tf_word (r + 1) w.
Proof.
  intros Hr. unfold tf_more, fca_goal. rewrite land_complement by (done || apply tf_word_range).
  change CK_TFLOCK_TICKET_RC_TOPMSK with (Z.shiftl (Z.ones 1) 31). rewrite land_field by done.
  pose proof (tf_half_range r). pose proof (tf_half_range w). pose proof (tf_half_next r Hr).
  change (2 ^ 31) with 2147483648. change (2 ^ 1) with 2. change CK_TFLOCK_TICKET_RC_INCR with 65536.
  assert (tf_word r w / 2147483648 mod 2 = tf_half r / 32768) as -> by (unfold tf_word; div_lia).
  rewrite u32_small; unfold tf_word; div_lia.
Qed.

(** ** The invariant *)

(** Where a thread is: a reader came when [w] writers had, and waits for them, or reads; a writer came when [r]
    readers and [w] writers had, and waits for them, or writes. *)
Inductive tf_ghost : Type := TfIdle | TfRWait (w : Z) | TfRead (w : Z) | TfWWait (r w : Z) | TfWrite (r w : Z).

Definition tf_reader (g : tf_ghost) : option Z := match g with TfRWait w | TfRead w => Some w | _ => None end.
Definition tf_writer (g : tf_ghost) : option (Z * Z) := match g with TfWWait r w | TfWrite r w => Some (r, w) | _ => None end.
Definition tf_reads (g : tf_ghost) : bool := bool_decide (is_Some (tf_reader g)).
Definition tf_writes (g : tf_ghost) : bool := bool_decide (is_Some (tf_writer g)).

(** The readers that came before a writer that came when [w] others had. *)
Definition tf_before (w : Z) (g : tf_ghost) : bool := match tf_reader g with Some w' => w' <=? w | None => false end.

(** [rq] readers and [wq] writers have come; [rc] and [wc] have gone. *)
Record tf_rel (gs : list tf_ghost) (rq wq rc wc : Z) : Prop := {
  tf_readers : tally tf_reads gs = rq - rc;
  tf_writers : tally tf_writes gs = wq - wc;
  tf_counts : 0 ≤ rc ∧ 0 ≤ wc;
  tf_rrange i g w : gs !! i = Some g → tf_reader g = Some w → wc ≤ w ≤ wq;
  tf_reading i w : gs !! i = Some (TfRead w) → w = wc;
  tf_wrange i g r w : gs !! i = Some g → tf_writer g = Some (r, w) → wc ≤ w < wq;
  tf_one i j g g' r r' w : gs !! i = Some g → gs !! j = Some g' →
    tf_writer g = Some (r, w) → tf_writer g' = Some (r', w) → i = j;
  tf_pending i g r w : gs !! i = Some g → tf_writer g = Some (r, w) → tally (tf_before w) gs = r - rc;
  tf_writing i r w : gs !! i = Some (TfWrite r w) → r = rc ∧ w = wc;
  tf_len : Z.of_nat (length gs) < 32768
}.

Definition tf_words (x : ck_tflock_ticket) (rq wq rc wc : Z) : Prop := x = MkTflock (tf_word rq wq) (tf_word rc wc).

Definition tf_inv (x : ck_tflock_ticket) (gs : list tf_ghost) : Prop :=
  ∃ rq wq rc wc, tf_words x rq wq rc wc ∧ tf_rel gs rq wq rc wc.

(** *** The moves of the threads *)

#[local] Ltac tf_cases :=
  repeat match goal with H : <[_ := _]> _ !! _ = Some _ |- _ =>
    apply insert_case in H as [[-> H]|[? H]]; [try match type of H with ?x = _ => is_var x; subst x end|] end.

Section moves.
Context (gs : list tf_ghost) (rq wq rc wc : Z) (HR : tf_rel gs rq wq rc wc).

(** Who writes is alone. *)
Lemma tf_alone i r w : gs !! i = Some (TfWrite r w) → ∀ j w', gs !! j ≠ Some (TfRead w').
Proof using HR.
  intros Hi j w' Hj. destruct (tf_writing _ _ _ _ _ HR _ _ _ Hi) as [-> ->].
  pose proof (tf_reading _ _ _ _ _ HR _ _ Hj) as ->. pose proof (tf_pending _ _ _ _ _ HR _ _ _ _ Hi eq_refl).
  pose proof (tally_pos (tf_before wc) gs j _ Hj) as H'. cbn in H'. specialize (H' (Z.leb_refl wc)). lia.
Qed.

Lemma tf_single i j r w r' w' : gs !! i = Some (TfWrite r w) → gs !! j = Some (TfWrite r' w') → i = j.
Proof using HR.
  intros Hi Hj. destruct (tf_writing _ _ _ _ _ HR _ _ _ Hi) as [-> ->], (tf_writing _ _ _ _ _ HR _ _ _ Hj) as [-> ->].
  exact (tf_one _ _ _ _ _ HR _ _ _ _ _ _ _ Hi Hj eq_refl eq_refl).
Qed.

(** A thread is let in. *)
Lemma tf_let_in i g g' :
  gs !! i = Some g → tf_reader g' = tf_reader g → tf_writer g' = tf_writer g →
  (∀ w, g' = TfRead w → w = wc) → (∀ r w, g' = TfWrite r w → r = rc ∧ w = wc) →
  tf_rel (<[i := g']> gs) rq wq rc wc.
Proof using HR.
  intros Hi Er Ew Hr Hw.
  assert (∀ (p : option Z → option (Z * Z) → bool),
    tally (λ g, p (tf_reader g) (tf_writer g)) (<[i := g']> gs) = tally (λ g, p (tf_reader g) (tf_writer g)) gs) as Ht.
  { intros p. rewrite (tally_insert _ _ _ _ _ Hi), Er, Ew. lia. }
  assert (∀ j g0, <[i := g']> gs !! j = Some g0 → ∃ g1, gs !! j = Some g1 ∧ tf_reader g0 = tf_reader g1 ∧ tf_writer g0 = tf_writer g1) as Hold.
  { intros j g0 Hj. tf_cases; [by exists g|by exists g0]. }
  destruct HR as [H1 H2 H3 H4 H5 H6 H7 H8 H9 H10]. split; rewrite ?length_insert; try done.
  - rewrite <- H1. exact (Ht (λ r _, bool_decide (is_Some r))).
  - rewrite <- H2. exact (Ht (λ _ w, bool_decide (is_Some w))).
  - intros j g0 w Hj. destruct (Hold _ _ Hj) as (g1 & Hj1 & -> & _). by eapply H4.
  - intros j w Hj. tf_cases; [by apply Hr|by eapply H5].
  - intros j g0 r w Hj. destruct (Hold _ _ Hj) as (g1 & Hj1 & _ & ->). by eapply H6.
  - intros j k g0 g2 r r' w Hj Hk. destruct (Hold _ _ Hj) as (g1 & Hj1 & _ & ->), (Hold _ _ Hk) as (g3 & Hk1 & _ & ->). by eapply H7.
  - intros j g0 r w Hj. destruct (Hold _ _ Hj) as (g1 & Hj1 & _ & ->). intros E. rewrite <- (H8 _ _ _ _ Hj1 E).
    exact (Ht (λ r _, match r with Some w' => w' <=? w | None => false end)).
  - intros j r w Hj. tf_cases; [by apply Hw|by eapply H9].
Qed.

(** A reader comes. *)
Lemma tf_read_come i : gs !! i = Some TfIdle → tf_rel (<[i := TfRWait wq]> gs) (rq + 1) wq rc wc.
Proof using HR.
  intros Hi. pose proof (tally_range tf_writes gs). destruct HR as [H1 H2 H3 H4 H5 H6 H7 H8 H9 H10].
  split; rewrite ?(tally_insert _ _ _ _ _ Hi), ?length_insert; cbn [Z.b2z tf_reads tf_writes tf_reader tf_writer]; try done.
  - unfold tf_reads at 2 3. cbn. lia.
  - unfold tf_writes at 2 3. cbn. lia.
  - intros j g w Hj E. tf_cases; [injection E as <-; lia|by eapply H4].
  - intros j w Hj. tf_cases; [done|by eapply H5].
  - intros j g r w Hj E. tf_cases; [done|by eapply H6].
  - intros j k g g' r r' w Hj Hk E E'. tf_cases; [done..|by eapply H7].
  - intros j g r w Hj E. tf_cases; [done|]. rewrite (tally_insert _ _ _ _ _ Hi), (H8 _ _ _ _ ltac:(done) E).
    assert (wc ≤ w < wq) by (by eapply H6). unfold tf_before. cbn. rewrite (proj2 (Z.leb_gt wq w)) by lia. cbn. lia.
  - intros j r w Hj. tf_cases; [done|by eapply H9].
Qed.

(** A reader goes: every writer waits for it. *)
Lemma tf_read_go i w : gs !! i = Some (TfRead w) → tf_rel (<[i := TfIdle]> gs) rq wq (rc + 1) wc.
Proof using HR.
  intros Hi. pose proof (λ j r w', tf_alone j r w') as Hal. destruct HR as [H1 H2 H3 H4 H5 H6 H7 H8 H9 H10].
  pose proof (H5 _ _ Hi) as ->.
  split; rewrite ?(tally_insert _ _ _ _ _ Hi), ?length_insert; cbn [Z.b2z tf_reads tf_writes tf_reader tf_writer]; try done.
  - unfold tf_reads at 2 3. cbn. lia.
  - unfold tf_writes at 2 3. cbn. lia.
  - lia.
  - intros j g w Hj E. tf_cases; [done|by eapply H4].
  - intros j w Hj. tf_cases; [done|by eapply H5].
  - intros j g r w Hj E. tf_cases; [done|by eapply H6].
  - intros j k g g' r r' w Hj Hk E E'. tf_cases; [done..|by eapply H7].
  - intros j g r w Hj E. tf_cases; [done|]. rewrite (tally_insert _ _ _ _ _ Hi), (H8 _ _ _ _ ltac:(done) E).
    assert (wc ≤ w < wq) by (by eapply H6). unfold tf_before. cbn. rewrite (proj2 (Z.leb_le wc w)) by lia. cbn. lia.
  - intros j r w Hj. tf_cases; [done|]. by destruct (Hal j r w ltac:(done) i wc).
Qed.

(** A writer comes: every reader that is there came before. *)
Lemma tf_write_come i : gs !! i = Some TfIdle → tf_rel (<[i := TfWWait rq wq]> gs) rq (wq + 1) rc wc.
Proof using HR.
  intros Hi. pose proof (tally_range tf_writes gs). destruct HR as [H1 H2 H3 H4 H5 H6 H7 H8 H9 H10].
  split; rewrite ?(tally_insert _ _ _ _ _ Hi), ?length_insert; cbn [Z.b2z tf_reads tf_writes tf_reader tf_writer]; try done.
  - unfold tf_reads at 2 3. cbn. lia.
  - unfold tf_writes at 2 3. cbn. lia.
  - intros j g w Hj E. tf_cases; [done|]. specialize (H4 _ _ _ ltac:(done) E). lia.
  - intros j w Hj. tf_cases; [done|by eapply H5].
  - intros j g r w Hj E. tf_cases; [injection E as <- <-; lia|]. specialize (H6 _ _ _ _ ltac:(done) E). lia.
  - intros j k g g' r r' w Hj Hk E E'. tf_cases; [done| | |by eapply H7].
    + injection E' as <- <-. specialize (H6 _ _ _ _ ltac:(done) E). lia.
    + injection E as <- <-. specialize (H6 _ _ _ _ ltac:(done) E'). lia.
  - intros j g r w Hj E. rewrite (tally_insert _ _ _ _ _ Hi). unfold tf_before at 2 3. cbn. tf_cases.
    + injection E as <- <-. assert (tally (tf_before wq) gs = tally tf_reads gs) as ->; [|lia].
      apply tally_ext. intros j g Hj. unfold tf_before, tf_reads. destruct (tf_reader g) as [w|] eqn:E; [|done].
      rewrite bool_decide_true by done. apply Z.leb_le. by eapply H4.
    + rewrite (H8 _ _ _ _ ltac:(done) E). lia.
  - intros j r w Hj. tf_cases; [done|by eapply H9].
Qed.

(** A writer goes: who is there came after. *)
Lemma tf_write_go i r w : gs !! i = Some (TfWrite r w) → tf_rel (<[i := TfIdle]> gs) rq wq rc (wc + 1).
Proof using HR.
  intros Hi. pose proof (tf_alone _ _ _ Hi) as Hal. pose proof (λ j r' w', tf_single i j r w r' w') as Hs.
  destruct (tf_writing _ _ _ _ _ HR _ _ _ Hi) as [-> ->].
  destruct HR as [H1 H2 H3 H4 H5 H6 H7 H8 H9 H10]. pose proof (H8 _ _ _ _ Hi eq_refl) as H0. rewrite Z.sub_diag in H0.
  assert (∀ j g w, gs !! j = Some g → tf_reader g = Some w → wc + 1 ≤ w ≤ wq) as H4'.
  { intros j g w Hj E. specialize (H4 _ _ _ Hj E). destruct (Z.leb_spec w wc); [|lia].
    pose proof (tally_pos (tf_before wc) gs j g Hj) as H'. unfold tf_before at 1 in H'. rewrite E in H'.
    specialize (H' (proj2 (Z.leb_le w wc) ltac:(done))). lia. }
  assert (∀ j g r w, j ≠ i → gs !! j = Some g → tf_writer g = Some (r, w) → wc + 1 ≤ w < wq) as H6'.
  { intros j g r w Hne Hj E. specialize (H6 _ _ _ _ Hj E). destruct (Z.eq_dec w wc) as [->|]; [|lia].
    by destruct (Hne (H7 _ _ _ _ _ _ _ Hj Hi E eq_refl)). }
  split; rewrite ?(tally_insert _ _ _ _ _ Hi), ?length_insert; cbn [Z.b2z tf_reads tf_writes tf_reader tf_writer]; try done.
  - unfold tf_reads at 2 3. cbn. lia.
  - unfold tf_writes at 2 3. cbn. lia.
  - lia.
  - intros j g w Hj E. tf_cases; [done|by eapply H4'].
  - intros j w Hj. tf_cases; [done|by destruct (Hal j w)].
  - intros j g r w Hj E. tf_cases; [done|by eapply H6'].
  - intros j k g g' r r' w Hj Hk E E'. tf_cases; [done..|by eapply H7].
  - intros j g r w Hj E. tf_cases; [done|]. rewrite (tally_insert _ _ _ _ _ Hi), (H8 _ _ _ _ ltac:(done) E).
    unfold tf_before. cbn. lia.
  - intros j r w Hj. tf_cases; [done|]. by destruct (Hs j r w Hi).
Qed.
End moves.

(** ** The operations *)

Section operations.
Context (R : list rw_mark → list (tf_ghost * rw_role) → Prop) (Rs : rws_stable R).
Abbreviation tf_wp := (rws_wp tf_inv R).
Abbreviation the_lock := (the_rws (T := ck_tflock_ticket)).

(** A word is read. *)
Lemma tf_load_wp n i (p : loc ck_tflock_ticket Z) (Q : Z → tf_ghost → Prop) g :
  (∀ x gs rq wq rc wc, tf_words x rq wq rc wc → tf_rel gs rq wq rc wc → gs !! i = Some g →
     ∃ g', tf_rel (<[i := g']> gs) rq wq rc wc ∧ Q (loc_get p x) g') →
  tf_wp n (ck_pr_load (the_lock →' p)) i Q g.
Proof using Rs.
  intros H. apply outside_wp_atomic; [done|]. intros x tr gs (rq & wq & rc & wc & HW & HR) Hi.
  destruct (H x gs _ _ _ _ HW HR Hi) as (g' & HR' & HQ). eexists _, x, g'. split; [reflexivity|]. split; [|done].
  by exists rq, wq, rc, wc.
Qed.

Lemma tf_look_wp n i (p : loc ck_tflock_ticket Z) (Q : Z → tf_ghost → Prop) g :
  (∀ v, Q v g) → tf_wp n (ck_pr_load (the_lock →' p)) i Q g.
Proof using Rs. intros H. apply tf_load_wp. intros x gs rq wq rc wc HW HR Hi. exists g. by rewrite list_insert_id. Qed.

(** Fetching a word, clearing a bit and adding is one step, however often it is tried. *)
Lemma tf_fca_wp n i (p : loc ck_tflock_ticket Z) mask delta (Q : Z → tf_ghost → Prop) g :
  (∀ x gs, tf_inv x gs → gs !! i = Some g →
     ∃ g', tf_inv (loc_set p (fca_goal mask delta (loc_get p x)) x) (<[i := g']> gs) ∧ Q (loc_get p x) g') →
  (∀ x, loc_set p (loc_get p x) x = x) →
  tf_wp n (ck_tflock_ticket_fca_32 (the_lock →' p) mask delta) i Q g.
Proof using Rs.
  intros H Hp. apply outside_wp_bind, tf_look_wp. intros v.
  apply (wp_loop _ _ _ _ _ (λ _ l, l = (g, RoleOut))); [done|]. clear n v. intros n v l ->.
  apply wp_bind. eapply wp_mono.
  { assert (tf_wp n (ck_pr_cas_value (the_lock →' p) v (fca_goal mask delta v)) i
      (λ r g', if r.1 : bool then Q r.2 g' else g' = g) g) as Hc; [|exact Hc].
    apply outside_wp_atomic; [done|].
    intros x tr gs HI Hi. cbn [loc_get loc_member the_rws fst]. destruct (Z.eqb_spec (loc_get p x) v) as [<-|Hne].
    - destruct (H x gs HI Hi) as (g' & HI' & HQ). eexists _, _, g'. split; [reflexivity|]. done.
    - eexists _, x, g. split; [cbn; by rewrite Hp|].
      by rewrite list_insert_id. }
  intros [b v'] [g' r] [[= ->] HQ]. cbn in HQ. destruct b; [by apply wp_ret|]. subst g'.
  by apply wp_bind, wp_stall, wp_ret.
Qed.

Lemma tf_read_come_wp n i :
  tf_wp n (ck_tflock_ticket_fca_32 (the_lock →' tf_request_loc) CK_TFLOCK_TICKET_RC_TOPMSK CK_TFLOCK_TICKET_RC_INCR) i
    (λ v g, ∃ w, Z.land v CK_TFLOCK_TICKET_W_MASK = tf_half w ∧ g = TfRWait w) TfIdle.
Proof using Rs.
  apply tf_fca_wp; [|by intros []]. intros x gs (rq & wq & rc & wc & -> & HR) Hi. exists (TfRWait wq). cbn. split.
  - exists (rq + 1), wq, rc, wc. split; [|by apply tf_read_come]. unfold tf_words. f_equal. apply (tf_word_reader rq wq).
    pose proof (tf_readers _ _ _ _ _ HR). pose proof (tally_range tf_reads gs). destruct (tf_counts _ _ _ _ _ HR). lia.
  - exists wq. by rewrite tf_word_low.
Qed.

Lemma tf_read_go_wp n i w : tf_wp n (ck_tflock_ticket_read_unlock the_lock) i (λ _ g, g = TfIdle) (TfRead w).
Proof using Rs.
  apply outside_wp_bind. eapply outside_wp_mono; [|intros a g H; apply outside_wp_ret; exact H].
  apply tf_fca_wp; [|by intros []]. intros x gs (rq & wq & rc & wc & -> & HR) Hi. exists TfIdle. cbn. split; [|done].
  exists rq, wq, (rc + 1), wc. split; [|by eapply tf_read_go]. unfold tf_words. f_equal. apply (tf_word_reader rc wc).
  by destruct (tf_counts _ _ _ _ _ HR).
Qed.

Lemma tf_write_come_wp n i :
  tf_wp n (ck_tflock_ticket_fca_32 (the_lock →' tf_request_loc) CK_TFLOCK_TICKET_WC_TOPMSK CK_TFLOCK_TICKET_WC_INCR) i
    (λ v g, ∃ r w, v = tf_word r w ∧ g = TfWWait r w) TfIdle.
Proof using Rs.
  apply tf_fca_wp; [|by intros []]. intros x gs (rq & wq & rc & wc & -> & HR) Hi. exists (TfWWait rq wq). cbn. split.
  - exists rq, (wq + 1), rc, wc. split; [|by apply tf_write_come]. unfold tf_words. f_equal. apply (tf_word_writer rq wq).
    pose proof (tf_writers _ _ _ _ _ HR). pose proof (tally_range tf_writes gs). destruct (tf_counts _ _ _ _ _ HR). lia.
  - by exists rq, wq.
Qed.

Lemma tf_write_go_wp n i r w : tf_wp n (ck_tflock_ticket_write_unlock the_lock) i (λ _ g, g = TfIdle) (TfWrite r w).
Proof using Rs.
  apply outside_wp_bind. eapply outside_wp_mono; [|intros a g H; apply outside_wp_ret; exact H].
  apply tf_fca_wp; [|by intros []]. intros x gs (rq & wq & rc & wc & -> & HR) Hi. exists TfIdle. cbn. split; [|done].
  exists rq, wq, rc, (wc + 1). split; [|by eapply tf_write_go]. unfold tf_words. f_equal. apply (tf_word_writer rc wc).
  by destruct (tf_counts _ _ _ _ _ HR).
Qed.

(** A reader is let in when the writers that came before it have gone. *)
Lemma tf_read_lock_wp n i : tf_wp n (ck_tflock_ticket_read_lock the_lock) i (λ _ g, ∃ w, g = TfRead w) TfIdle.
Proof using Rs.
  apply outside_wp_bind. eapply outside_wp_mono; [apply tf_read_come_wp|]. cbv beta. intros v g (w & -> & ->). cbv zeta.
  apply (outside_wp_while _ _ _ _ _ _ (λ g, g = TfRWait w)); [done|]. intros k g ->.
  apply outside_wp_bind, tf_load_wp. intros x gs rq wq rc wc -> HR Hi. cbn [loc_get tf_completion_loc tf_completion].
  rewrite tf_word_low. destruct (Z.eqb_spec (tf_half wc) (tf_half w)) as [E|E]; cbn [negb].
  - pose proof (tf_rrange _ _ _ _ _ HR _ _ _ Hi eq_refl). pose proof (tf_writers _ _ _ _ _ HR).
    pose proof (tally_range tf_writes gs). pose proof (tf_len _ _ _ _ _ HR). destruct (tf_counts _ _ _ _ _ HR).
    assert (w = wc) as -> by (apply tf_half_inj; [done|lia|done]).
    exists (TfRead wc). split; [by eapply tf_let_in; [done|exact Hi|..]; naive_solver|]. apply outside_wp_ret. by exists wc.
  - exists (TfRWait w). rewrite list_insert_id by done. split; [done|]. by apply outside_wp_ret, outside_wp_stall.
Qed.

(** A writer is let in when everyone that came before it has gone. *)
Lemma tf_write_lock_wp n i : tf_wp n (ck_tflock_ticket_write_lock the_lock) i (λ _ g, ∃ r w, g = TfWrite r w) TfIdle.
Proof using Rs.
  apply outside_wp_bind. eapply outside_wp_mono; [apply tf_write_come_wp|]. cbv beta. intros v g (r & w & -> & ->).
  apply (outside_wp_while _ _ _ _ _ _ (λ g, g = TfWWait r w)); [done|]. intros k g ->.
  apply outside_wp_bind, tf_load_wp. intros x gs rq wq rc wc -> HR Hi. cbn [loc_get tf_completion_loc tf_completion].
  destruct (Z.eqb_spec (tf_word rc wc) (tf_word r w)) as [E|E]; cbn [negb].
  - apply tf_word_inj in E as [Er Ew].
    pose proof (tf_wrange _ _ _ _ _ HR _ _ _ _ Hi eq_refl). pose proof (tf_writers _ _ _ _ _ HR).
    pose proof (tally_range tf_writes gs). pose proof (tf_len _ _ _ _ _ HR). destruct (tf_counts _ _ _ _ _ HR).
    pose proof (tf_pending _ _ _ _ _ HR _ _ _ _ Hi eq_refl). pose proof (tally_range (tf_before w) gs).
    assert (w = wc) as -> by (apply tf_half_inj; [done|lia|done]).
    assert (r = rc) as -> by (apply tf_half_inj; [done|lia|done]).
    exists (TfWrite rc wc). split; [by eapply tf_let_in; [done|exact Hi|..]; naive_solver|].
    apply outside_wp_ret. by exists rc, wc.
  - exists (TfWWait r w). rewrite list_insert_id by done. split; [done|]. by apply outside_wp_ret, outside_wp_stall.
Qed.
End operations.

(** ** The laws *)

Lemma tf_inv_init n : Z.of_nat n < 32768 → tf_inv CK_TFLOCK_TICKET_INITIALIZER (replicate n TfIdle).
Proof.
  intros Hn. exists 0, 0, 0, 0. split; [done|].
  split; rewrite ?length_replicate, ?tally_none by done; try done; try by intros i g w [-> _]%lookup_replicate.
  - by intros i w [[=] _]%lookup_replicate.
  - by intros i g r w [-> _]%lookup_replicate.
  - by intros i j g g' r r' w [-> _]%lookup_replicate.
  - by intros i g r w [-> _]%lookup_replicate.
  - by intros i r w [[=] _]%lookup_replicate.
Qed.

#[export] Program Instance ck_tflock_laws : RwSpinlockLaws ck_tflock_ticket (Z.to_nat 32767) := {
  rwg := tf_ghost;
  rwg_idle := TfIdle;
  rests := λ g, g = TfIdle;
  reading := λ g, ∃ w, g = TfRead w;
  writing := λ _ g, ∃ r w, g = TfWrite r w;
  rws_inv := tf_inv
}.
Next Obligation. done. Qed.
Next Obligation. intros n Hn. apply tf_inv_init. lia. Qed.
Next Obligation.
  intros s gs i j g g' k (rq & wq & rc & wc & _ & HR) Hi Hj (r & w & ->). split.
  - intros [w' ->]. by eapply tf_alone.
  - intros _ (r' & w' & ->). by eapply tf_single.
Qed.
Next Obligation.
  intros R n i k f g HR Hk ->. destruct k as [|k]; [|done]. injection Hk as <-. apply outside_wp_bind.
  eapply outside_wp_mono; [by apply tf_read_lock_wp|]. intros [] g' Hg. by apply outside_wp_ret.
Qed.
Next Obligation. intros R n i g HR [w ->]. by apply tf_read_go_wp. Qed.
Next Obligation.
  intros R n i k w g HR Hk ? ->. destruct k as [|k]; [|done]. injection Hk as <-. apply outside_wp_bind.
  eapply outside_wp_mono; [by apply tf_write_lock_wp|]. intros [] g' Hg. by apply outside_wp_ret.
Qed.
Next Obligation.
  intros R n i k w g HR Hk ? (r & m & ->). destruct k as [|k]; [|done]. injection Hk as <-. by apply tf_write_go_wp.
Qed.
Next Obligation. intros R n i k w d g HR Hk Hd. destruct k as [|k]; [|done]. by injection Hk as <-. Qed.
