(* ===== verification/CkBytelock.v ===== *)
(** CkBytelock: the reader-writer lock with a byte per reader, include/aerospike/ck/ck_bytelock.h: threads with a slot
    publish that they read in a byte of their own, the others share a counter.  It satisfies the laws of CkRwMutex for
    any number of threads, of which those with a slot may write; two threads without one that write break it. *)

From Stdlib Require Import ZArith Lia.
From stdpp Require Import base list.
From S2P Require Import Prelude Memory Concurrent CkPr CkRwlock CkRwMutex.

#[local] Open Scope Z_scope.
#[local] Set Warnings "-clear-no-such-hyp".

(** [src: include/aerospike/ck/ck_bytelock.h 46-50 ck_bytelock] *)
Record ck_bytelock : Type := MkBytelock { bt_owner : Z; bt_n_readers : Z; bt_readers : list Z }.
Definition bt_owner_loc : loc ck_bytelock Z := MkLoc bt_owner (λ v x, MkBytelock v (bt_n_readers x) (bt_readers x)).
Definition bt_n_readers_loc : loc ck_bytelock Z := MkLoc bt_n_readers (λ v x, MkBytelock (bt_owner x) v (bt_readers x)).
Definition bt_readers_loc : loc ck_bytelock (list Z) := MkLoc bt_readers (λ v x, MkBytelock (bt_owner x) (bt_n_readers x) v).

(** [sizeof bytelock->readers], with the cache lines of 64 bytes of x86_64.
    [src: include/aerospike/ck/ck_bytelock.h 49-49 readers] *)
Definition sizeof_readers : Z := 64 - 4 * 2.

(** [src: include/aerospike/ck/ck_bytelock.h 53-53 CK_BYTELOCK_INITIALIZER] *)
Definition CK_BYTELOCK_INITIALIZER : ck_bytelock := MkBytelock 0 0 (replicate (Z.to_nat sizeof_readers) 0).
(** [src: include/aerospike/ck/ck_bytelock.h 54-54 CK_BYTELOCK_UNSLOTTED] *)
Definition CK_BYTELOCK_UNSLOTTED : Z := 4294967295.
(** [src: include/aerospike/ck/ck_bytelock.h 72-72 CK_BYTELOCK_LENGTH] *)
Definition CK_BYTELOCK_LENGTH : Z := 8.

Section ops.
Context {S : Type} (bytelock : loc S ck_bytelock).
Abbreviation owner := (bytelock →' bt_owner_loc).
Abbreviation n_readers := (bytelock →' bt_n_readers_loc).
Abbreviation readers := (bytelock →' bt_readers_loc).

(** [ck_pr_store_8(&bytelock->readers[i], v)]. *)
Definition store_byte (i v : Z) : prog S unit :=
  atomic (λ s, r ← arr_set (loc_get readers s) i v; Ret (tt, loc_set readers r s)).

(** [ck_pr_fas_8(&bytelock->readers[i], v)]. *)
Definition fas_byte (i v : Z) : prog S Z :=
  atomic (λ s, x ← arr_get (loc_get readers s) i; r ← arr_set (loc_get readers s) i v; Ret (x, loc_set readers r s)).

(** Eight bytes at once.
    [src: include/aerospike/ck/ck_bytelock.h 73-73 CK_BYTELOCK_LOAD] *)
Definition CK_BYTELOCK_LOAD (i : Z) : prog S Z :=
  atomic (λ s, w ← arr_slice (loc_get readers s) (CK_BYTELOCK_LENGTH * i) CK_BYTELOCK_LENGTH; Ret (le_value w, s)).

(** [for (i = 0; i < n; i++) body]. *)
Definition for_below (n : Z) (body : Z → prog S unit) : prog S unit :=
  loop (λ i, if i <? n then body i;; mret (inl (i + 1)) else mret (inr tt)) 0.

(** [src: include/aerospike/ck/ck_bytelock.h 57-69 ck_bytelock_init] *)
Definition ck_bytelock_init : prog S unit :=
  ck_pr_store owner 0;;
  ck_pr_store n_readers 0;;
  for_below sizeof_readers (λ i, store_byte i 0).

(** [src: include/aerospike/ck/ck_bytelock.h 83-115 ck_bytelock_write_lock] *)
Definition ck_bytelock_write_lock (slot : Z) : prog S unit :=
  while (b ← ck_pr_cas owner 0 slot; mret (negb b)) stall;;
  (if slot <=? sizeof_readers then store_byte (uint_sub slot 1) 0 else mret tt);;
  for_below (sizeof_readers / CK_BYTELOCK_LENGTH) (λ i,
    while (v ← CK_BYTELOCK_LOAD i; mret (negb (v =? 0))) stall);;
  while (v ← ck_pr_load n_readers; mret (negb (v =? 0))) stall.

(** [src: include/aerospike/ck/ck_bytelock.h 121-128 ck_bytelock_write_unlock] *)
Definition ck_bytelock_write_unlock : prog S unit := ck_pr_store owner 0.

(** [while (ck_pr_load_uint(&bytelock->owner) != 0) ck_pr_stall()]. *)
Definition while_owned : prog S unit := while (o ← ck_pr_load owner; mret (negb (o =? 0))) stall.

(** [src: include/aerospike/ck/ck_bytelock.h 130-181 ck_bytelock_read_lock] *)
Definition ck_bytelock_read_lock (slot : Z) : prog S unit :=
  o ← ck_pr_load owner;
  if o =? slot then
    store_byte (uint_sub slot 1) 1;;
    ck_pr_store owner 0
  else if sizeof_readers <? slot then
    loop (λ _ : unit,
      ck_pr_inc 32 n_readers;;
      o ← ck_pr_load owner;
      if o =? 0 then mret (inr tt)
      else
        ck_pr_dec 32 n_readers;;
        while_owned;;
        mret (inl tt)) tt
  else
    let slot := uint_sub slot 1 in
    loop (λ _ : unit,
      fas_byte slot 1;;
      o ← ck_pr_load owner;
      if o =? 0 then mret (inr tt)
      else
        store_byte slot 0;;
        while_owned;;
        mret (inl tt)) tt.

(** [src: include/aerospike/ck/ck_bytelock.h 183-194 ck_bytelock_read_unlock] *)
Definition ck_bytelock_read_unlock (slot : Z) : prog S unit :=
  if sizeof_readers <? slot then ck_pr_dec 32 n_readers
  else store_byte (uint_sub slot 1) 0.
End ops.

(** The first threads have a slot. *)
Definition bt_slotted (i : nat) : bool := (i <? Z.to_nat sizeof_readers)%nat.
Definition bt_slot (i : nat) : Z := if bt_slotted i then Z.of_nat i + 1 else CK_BYTELOCK_UNSLOTTED.

(** They may write. *)
#[export] Instance ck_bytelock_rw : RwSpinlock ck_bytelock := {
  rws_init := CK_BYTELOCK_INITIALIZER;
  rws_reads S i := [waits (λ l, ck_bytelock_read_lock l (bt_slot i))];
  rws_read_unlock S i := λ l, ck_bytelock_read_unlock l (bt_slot i);
  rws_writes S i := [MkWay (waits (λ l, ck_bytelock_write_lock l (bt_slot i))) ck_bytelock_write_unlock
    (Some (λ l, ck_bytelock_read_lock l (bt_slot i)))];
  rws_may_write := bt_slotted
}.

(** ** The invariant *)

(** Where a thread is: not at the lock; has published that it reads, in its byte or in the counter, to see whether
    there is an owner; reads; owns the lock, and has seen [k] words without a reader; writes; owns it, and has published
    that it reads. *)
Inductive bt_ghost : Type :=
  | BtIdle | BtSet | BtRead | BtInc | BtCount | BtOwn (k : nat) | BtWrite | BtDown.

Definition bt_flag (g : bt_ghost) : bool := match g with BtSet | BtRead | BtDown => true | _ => false end.
Definition bt_counted (g : bt_ghost) : bool := match g with BtInc | BtCount => true | _ => false end.
Definition bt_owns (g : bt_ghost) : bool := match g with BtOwn _ | BtWrite | BtDown => true | _ => false end.
Definition bt_reads (g : bt_ghost) : bool := match g with BtRead | BtCount => true | _ => false end.
Definition bt_alone (g : bt_ghost) : bool := match g with BtWrite | BtDown => true | _ => false end.

Definition bt_byte (gs : list bt_ghost) (k : nat) : Z :=
  match gs !! k with Some g => Z.b2z (bt_flag g) | None => 0 end.

Record bt_inv (x : ck_bytelock) (gs : list bt_ghost) : Prop := {
  bi_len : length (bt_readers x) = Z.to_nat sizeof_readers;
  bi_byte k : bt_slotted k = true → bt_readers x !! k = Some (bt_byte gs k);
  bi_slotted i g : gs !! i = Some g → bt_flag g = true ∨ bt_owns g = true → bt_slotted i = true;
  bi_counted i g : gs !! i = Some g → bt_counted g = true → bt_slotted i = false;
  bi_count : bt_n_readers x = tally bt_counted gs;
  bi_owner_is i g : gs !! i = Some g → bt_owns g = true → bt_owner x = Z.of_nat i + 1;
  bi_owner : bt_owner x = 0 ∨ ∃ i g, gs !! i = Some g ∧ bt_owns g = true ∧ bt_owner x = Z.of_nat i + 1;
  bi_seen i k : gs !! i = Some (BtOwn k) → ∀ j, (j < 8 * k)%nat → gs !! j ≠ Some BtRead;
  bi_alone i g : gs !! i = Some g → bt_alone g = true → ∀ j g', gs !! j = Some g' → bt_reads g' = false;
  bi_max : Z.of_nat (length gs) < 4294967296
}.

(** A thread goes on. *)
Lemma bt_move o n r o' n' r' gs i g g' :
  bt_inv (MkBytelock o n r) gs → gs !! i = Some g →
  (bt_flag g' = true ∨ bt_owns g' = true → bt_slotted i = true) → (bt_counted g' = true → bt_slotted i = false) →
  (o' = o ∧ bt_owns g' = bt_owns g ∨ o = 0 ∧ o' = Z.of_nat i + 1 ∧ bt_owns g' = true
    ∨ o' = 0 ∧ bt_owns g = true ∧ bt_owns g' = false) →
  n' = n - Z.b2z (bt_counted g) + Z.b2z (bt_counted g') →
  r' = <[i := Z.b2z (bt_flag g')]> r →
  (∀ k, g' = BtOwn k → ∀ j, (j < 8 * k)%nat → gs !! j ≠ Some BtRead) →
  (bt_alone g' = true → ∀ j g'', gs !! j = Some g'' → j ≠ i → bt_reads g'' = false) →
  (bt_reads g' = true → o' = 0) →
  bt_inv (MkBytelock o' n' r') (<[i := g']> gs).
Proof.
  intros [Hlen Hbyte Hslot Hcs Hcount Hois Ho Hseen Halone Hmax] Hi Hs Hcs' Hown -> -> H1 H2 H3. cbn [bt_owner bt_n_readers bt_readers] in *.
  pose proof (lookup_lt_Some _ _ _ Hi) as Hlt.
  assert (o' = 0 → ∀ j y, j ≠ i → gs !! j = Some y → bt_owns y = false) as Hfree.
  { intros E j y Hne Hj. destruct (bt_owns y) eqn:Ey; [|done]. pose proof (Hois j y Hj Ey) as Eo. exfalso.
    destruct Hown as [[Eo' _]|[[_ [Eo' _]]|[_ [Eg _]]]]; [lia|lia|]. pose proof (Hois i g Hi Eg). lia. }
  split; cbn [bt_owner bt_n_readers bt_readers].
  - by rewrite length_insert.
  - intros k Hk. pose proof Hk as Hk'%Nat.ltb_lt. unfold bt_byte. destruct (decide (i = k)) as [<-|Hne].
    + rewrite !list_lookup_insert_eq; [done|done|]. by rewrite Hlen.
    + rewrite !list_lookup_insert_ne by done. by apply Hbyte.
  - intros j y [[-> ->]|[Hne Hj]]%insert_case Hy; [by apply Hs|by eapply Hslot].
  - intros j y [[-> ->]|[Hne Hj]]%insert_case Hy; [by apply Hcs'|by eapply Hcs].
  - by rewrite (tally_insert _ _ _ _ _ Hi), Hcount.
  - intros j y [[-> ->]|[Hne Hj]]%insert_case Hy.
    + destruct Hown as [[-> E]|[[_ [-> _]]|[_ [_ E]]]]; [|done|congruence]. apply (Hois _ g Hi). congruence.
    + pose proof (Hois j y Hj Hy) as Eo. destruct Hown as [[-> E]|[[E _]|[_ [Eg _]]]]; [done|lia|].
      pose proof (Hois i g Hi Eg). lia.
  - destruct Hown as [[-> E]|[[_ [-> E]]|[-> _]]]; [|right; exists i, g'; by rewrite list_lookup_insert_eq|by left].
    destruct Ho as [Ho|(j & y & Hj & Hy & Ey)]; [by left|right]. destruct (decide (i = j)) as [<-|Hne].
    + exists i, g'. rewrite list_lookup_insert_eq by done. split; [done|]. split; [congruence|done].
    + exists j, y. by rewrite list_lookup_insert_ne.
  - intros j k [[E0 E]|[Hne Hj]]%insert_case j' Hlt' [[E1 Ej]|[Hne' Hj']]%insert_case.
    + by subst g'.
    + by eapply H1.
    + subst g'. by specialize (Hfree (H3 eq_refl) j _ Hne Hj).
    + by eapply Hseen.
  - intros j y [[E0 E]|[Hne Hj]]%insert_case Hy j' y' [[E1 Ej]|[Hne' Hj']]%insert_case.
    + subst y y'. by destruct g'.
    + subst y. by apply (H2 Hy j').
    + subst y'. destruct (bt_reads g') eqn:Er; [|done]. specialize (Hfree (H3 eq_refl) j _ Hne Hj). by destruct y.
    + exact (Halone j y Hj Hy j' y' Hj').
  - by rewrite length_insert.
Qed.

Lemma bt_same_bytes x gs i g : bt_inv x gs → gs !! i = Some g → <[i := Z.b2z (bt_flag g)]> (bt_readers x) = bt_readers x.
Proof.
  intros HI Hi. destruct (bt_slotted i) eqn:Es.
  - apply list_insert_id. rewrite (bi_byte _ _ HI i Es). unfold bt_byte. by rewrite Hi.
  - apply list_insert_ge. rewrite (bi_len _ _ HI). by apply Nat.ltb_ge in Es.
Qed.

Lemma bt_not_reading x gs j : bt_inv x gs → bt_byte gs j = 0 → gs !! j ≠ Some BtRead.
Proof. intros HI H Hj. unfold bt_byte in H. by rewrite Hj in H. Qed.

Lemma bt_free x gs i g : bt_inv x gs → gs !! i = Some g → bt_owns g = false → bt_owner x ≠ Z.of_nat i + 1.
Proof.
  intros HI Hi Hg E. destruct (bi_owner _ _ HI) as [E0|(j & y & Hj & Hy & Ej)]; [lia|].
  assert (i = j) as -> by lia. congruence.
Qed.

(** The owner's slot is one of the bytes. *)
Lemma bt_owner_le x gs : bt_inv x gs → bt_owner x ≤ sizeof_readers.
Proof.
  intros HI. destruct (bi_owner _ _ HI) as [->|(j & y & Hj & Hy & ->)]; [done|].
  pose proof (bi_slotted _ _ HI j y Hj (or_intror Hy)) as Hs%Nat.ltb_lt. lia.
Qed.

Lemma le_value_zero bs : Forall (λ b, 0 ≤ b) bs → le_value bs = 0 → Forall (λ b, b = 0) bs.
Proof.
  induction 1 as [|b bs Hb Hbs IH]; cbn [le_value]; intros E; [done|].
  assert (0 ≤ le_value bs) as Hp by (clear -Hbs; induction Hbs; cbn [le_value]; lia).
  constructor; [lia|]. apply IH. lia.
Qed.

(** Eight bytes that are zero. *)
Lemma bt_word x gs (k : nat) :
  bt_inv x gs → (k < 7)%nat →
  ∃ w, arr_slice (bt_readers x) (CK_BYTELOCK_LENGTH * Z.of_nat k) CK_BYTELOCK_LENGTH = Ret w ∧
    (le_value w = 0 → ∀ j, (8 * k <= j < 8 * S k)%nat → gs !! j ≠ Some BtRead).
Proof.
  intros HI Hk. pose proof (bi_len _ _ HI) as Hlen. change (Z.to_nat sizeof_readers) with 56%nat in Hlen.
  exists (take 8 (drop (8 * k) (bt_readers x))). split.
  - rewrite <- (arr_slice_ok _ (8 * k) 8) by lia. f_equal; unfold CK_BYTELOCK_LENGTH; lia.
  - intros E j Hj. assert (bt_slotted j = true) as Hs by (apply Nat.ltb_lt; change (Z.to_nat sizeof_readers) with 56%nat; lia).
    eapply bt_not_reading; [done|].
    assert (take 8 (drop (8 * k) (bt_readers x)) !! (j - 8 * k)%nat = Some (bt_byte gs j)) as Hw.
    { rewrite lookup_take, decide_True, lookup_drop by lia. replace (8 * k + (j - 8 * k))%nat with j by lia. by apply bi_byte. }
    refine (proj1 (Forall_lookup _ _) (le_value_zero _ _ E) _ _ Hw). apply Forall_lookup. intros m b Hb.
    apply lookup_take_Some in Hb as [Hb Hm]. rewrite lookup_drop in Hb.
    assert (bt_slotted (8 * k + m) = true) as Hs' by (apply Nat.ltb_lt; change (Z.to_nat sizeof_readers) with 56%nat; lia).
    rewrite (bi_byte _ _ HI _ Hs') in Hb. injection Hb as <-. unfold bt_byte. destruct (gs !! _) as [g|]; [|done].
    by destruct (bt_flag g).
Qed.

(** ** The operations *)

Section operations.
Context (R : list rw_mark → list (bt_ghost * rw_role) → Prop) (Rs : rws_stable R).
Abbreviation bt_wp := (rws_wp bt_inv R).
Abbreviation the_lock := (the_rws (T := ck_bytelock)).

Lemma bt_atomic n i A (f : rws_memory ck_bytelock → outcome (A * rws_memory ck_bytelock)) (Q : A → bt_ghost → Prop) g :
  (∀ o c r tr gs, bt_inv (MkBytelock o c r) gs → gs !! i = Some g →
     ∃ a x' g', f (MkBytelock o c r, tr) = Ret (a, (x', tr)) ∧ bt_inv x' (<[i := g']> gs) ∧ Q a g') →
  bt_wp n (atomic f) i Q g.
Proof using Rs. intros H. apply outside_wp_atomic; [done|]. intros [o c r] tr gs. apply H. Qed.

Lemma bt_load_owner_wp n i (Q : Z → bt_ghost → Prop) g :
  (∀ o c r gs, bt_inv (MkBytelock o c r) gs → gs !! i = Some g → Q o g) → bt_wp n (ck_pr_load (the_lock →' bt_owner_loc)) i Q g.
Proof using Rs.
  intros H. apply bt_atomic. intros o c r tr gs HI Hi. exists o, (MkBytelock o c r), g.
  rewrite list_insert_id by done. split; [done|]. split; [done|]. by eapply H.
Qed.

Lemma bt_slot_of i : bt_slotted i = true → bt_slot i = Z.of_nat i + 1 ∧ (i < 56)%nat.
Proof. intros E. unfold bt_slot. rewrite E. split; [done|]. by apply Nat.ltb_lt in E. Qed.

(** A store to the byte of the thread. *)
Lemma bt_store_wp n i b (g g' : bt_ghost) :
  bt_slotted i = true → b = Z.b2z (bt_flag g') → bt_owns g' = bt_owns g → bt_counted g = false → bt_counted g' = false →
  (∀ k, g' = BtOwn k → k = 0%nat) → (bt_alone g' = true → bt_alone g = true) → bt_reads g' = false →
  bt_wp n (store_byte the_lock (uint_sub (bt_slot i) 1) b) i (λ _ y, y = g') g.
Proof using Rs.
  intros Hs -> Ho Hc Hc' Hk Ha Hr. apply bt_atomic. intros o c r tr gs HI Hi.
  pose proof (bi_len _ _ HI) as Hlen. cbn in Hlen. destruct (bt_slot_of i Hs) as [-> Hi56].
  assert (uint_sub (Z.of_nat i + 1) 1 = Z.of_nat i) as -> by (unfold uint_sub; rewrite u32_small; lia).
  eexists tt, _, g'. cbn. rewrite arr_set_lt by (rewrite Hlen; exact Hi56). split; [reflexivity|]. split; [|done].
  eapply bt_move; [exact HI|exact Hi|by intros _|by rewrite Hc'|by left|rewrite Hc, Hc'; lia|done| | |by rewrite Hr].
  - intros k E j Hj. rewrite (Hk k E) in Hj. lia.
  - intros E j y Hj _. exact (bi_alone _ _ HI i g Hi (Ha E) j y Hj).
Qed.

Lemma bt_fas_wp n i :
  bt_slotted i = true → bt_wp n (fas_byte the_lock (uint_sub (bt_slot i) 1) 1) i (λ _ y, y = BtSet) BtIdle.
Proof using Rs.
  intros Hs. apply bt_atomic. intros o c r tr gs HI Hi.
  pose proof (bi_len _ _ HI) as Hlen. pose proof (bi_byte _ _ HI i Hs) as Hb. cbn in Hlen, Hb.
  destruct (bt_slot_of i Hs) as [-> Hi56].
  assert (uint_sub (Z.of_nat i + 1) 1 = Z.of_nat i) as -> by (unfold uint_sub; rewrite u32_small; lia).
  eexists _, _, BtSet. cbn. rewrite (arr_get_lookup _ _ _ Hb). cbn. rewrite arr_set_lt by (rewrite Hlen; exact Hi56).
  split; [reflexivity|]. split; [|done].
  eapply bt_move; [exact HI|exact Hi|done|done|by left|cbn; lia|done|done|done|done].
Qed.

(** The thread takes the lock. *)
Lemma bt_cas_wp n i :
  bt_slotted i = true →
  bt_wp n (ck_pr_cas (the_lock →' bt_owner_loc) 0 (bt_slot i)) i (λ b y, y = if (b : bool) then BtOwn 0 else BtIdle) BtIdle.
Proof using Rs.
  intros Hs. apply bt_atomic. intros o c r tr gs HI Hi. destruct (bt_slot_of i Hs) as [-> _].
  exists (o =? 0), (MkBytelock (if o =? 0 then Z.of_nat i + 1 else o) c r), (if o =? 0 then BtOwn 0 else BtIdle).
  split; [done|]. split; [|done]. destruct (Z.eqb_spec o 0) as [->|Ho]; [|by rewrite list_insert_id].
  eapply bt_move; [exact HI|exact Hi|done|done|by right; left|cbn; lia|exact (eq_sym (bt_same_bytes _ _ _ _ HI Hi))| |done|done].
  intros k [= <-] j Hj. lia.
Qed.

(** It sees the [k]-th word. *)
Lemma bt_word_wp n i k :
  (k < 7)%nat →
  bt_wp n (CK_BYTELOCK_LOAD the_lock (Z.of_nat k)) i (λ v y, y = BtOwn (if v =? 0 then S k else k)) (BtOwn k).
Proof using Rs.
  intros Hk. apply bt_atomic. intros o c r tr gs HI Hi. destruct (bt_word _ _ k HI Hk) as (w & Ew & Hw). cbn in Ew.
  exists (le_value w), (MkBytelock o c r), (BtOwn (if le_value w =? 0 then S k else k)).
  split; [cbn; by rewrite Ew|]. split; [|done]. destruct (Z.eqb_spec (le_value w) 0) as [E|E]; [|by rewrite list_insert_id].
  eapply bt_move; [exact HI|exact Hi|by intros _; apply (bi_slotted _ _ HI i _ Hi); right|done|by left|cbn; lia|
    exact (eq_sym (bt_same_bytes _ _ _ _ HI Hi))| |done|done].
  intros k' [= <-] j Hj. destruct (decide (j < 8 * k)%nat) as [Hlt|Hge]; [by apply (bi_seen _ _ HI i k Hi)|].
  apply (Hw E). lia.
Qed.

Lemma bt_reader_slotted x gs j : bt_inv x gs → gs !! j = Some BtRead → (j < 56)%nat.
Proof. intros HI Hj. pose proof (bi_slotted _ _ HI j _ Hj (or_introl eq_refl)) as Hs. by apply Nat.ltb_lt in Hs. Qed.

(** It has seen no word with a reader, and sees that the counter is zero. *)
Lemma bt_counter_wp n i :
  bt_wp n (ck_pr_load (the_lock →' bt_n_readers_loc)) i (λ v y, y = if v =? 0 then BtWrite else BtOwn 7) (BtOwn 7).
Proof using Rs.
  apply bt_atomic. intros o c r tr gs HI Hi.
  exists c, (MkBytelock o c r), (if c =? 0 then BtWrite else BtOwn 7).
  split; [done|]. split; [|done]. destruct (Z.eqb_spec c 0) as [E|E]; [|by rewrite list_insert_id].
  pose proof (bi_count _ _ HI) as Hc. cbn in Hc.
  eapply bt_move; [exact HI|exact Hi|by intros _; apply (bi_slotted _ _ HI i _ Hi); right|done|by left|cbn; lia|
    exact (eq_sym (bt_same_bytes _ _ _ _ HI Hi))|done| |done].
  intros _ j y Hj Hne. destruct y; try done.
  - destruct (bi_seen _ _ HI i 7 Hi j); [|done]. by apply (bt_reader_slotted _ _ _ HI).
  - pose proof (tally_pos bt_counted gs j _ Hj eq_refl). lia.
Qed.

(** The lock is left. *)
Lemma bt_leave_wp n i g :
  bt_owns g = true →
  bt_wp n (ck_pr_store (the_lock →' bt_owner_loc) 0) i (λ _ y, y = if bt_flag g then BtRead else BtIdle) g.
Proof using Rs.
  intros Hg. apply bt_atomic. intros o c r tr gs HI Hi.
  exists tt, (MkBytelock 0 c r), (if bt_flag g then BtRead else BtIdle). split; [done|]. split; [|done].
  assert (bt_counted g = false) as Hc by (by destruct g).
  eapply bt_move; [exact HI|exact Hi|by intros _; apply (bi_slotted _ _ HI i _ Hi); right|by destruct (bt_flag g)|right; right; by destruct g|
    rewrite Hc; destruct g; cbn; lia| |by destruct g|by destruct g|done].
  rewrite <- (bt_same_bytes _ _ _ _ HI Hi) at 1. by destruct g.
Qed.

(** The counter of the threads without a slot. *)
Lemma bt_inc_wp n i : bt_slotted i = false → bt_wp n (ck_pr_inc 32 (the_lock →' bt_n_readers_loc)) i (λ _ y, y = BtInc) BtIdle.
Proof using Rs.
  intros Hs. apply bt_atomic. intros o c r tr gs HI Hi. exists tt, (MkBytelock o (uwrap 32 (c + 1)) r), BtInc.
  split; [done|]. split; [|done]. pose proof (bi_count _ _ HI) as Hc. cbn in Hc.
  pose proof (tally_range bt_counted gs). pose proof (tally_other bt_counted gs i _ Hi eq_refl). pose proof (bi_max _ _ HI).
  eapply bt_move; [exact HI|exact Hi|by intros [|]|done|by left|cbn; rewrite u32_small; lia|
    exact (eq_sym (bt_same_bytes _ _ _ _ HI Hi))|done|done|done].
Qed.

Lemma bt_dec_wp n i g :
  bt_counted g = true → bt_wp n (ck_pr_dec 32 (the_lock →' bt_n_readers_loc)) i (λ _ y, y = BtIdle) g.
Proof using Rs.
  intros Hg. apply bt_atomic. intros o c r tr gs HI Hi. exists tt, (MkBytelock o (uwrap 32 (c - 1)) r), BtIdle.
  split; [done|]. split; [|done]. pose proof (bi_count _ _ HI) as Hc. cbn in Hc.
  pose proof (tally_range bt_counted gs). pose proof (tally_pos bt_counted gs i _ Hi Hg). pose proof (bi_max _ _ HI).
  assert (bt_flag g = false ∧ bt_owns g = false) as [Hf Ho] by (by destruct g).
  eapply bt_move; [exact HI|exact Hi|by intros [|]|done|by left|rewrite Hg; cbn; rewrite u32_small; lia| |done|done|done].
  rewrite <- (bt_same_bytes _ _ _ _ HI Hi) at 1. by rewrite Hf.
Qed.

(** What was published, and that there is no owner. *)
Lemma bt_check_wp n i g g' :
  g = BtSet ∧ g' = BtRead ∨ g = BtInc ∧ g' = BtCount →
  bt_wp n (ck_pr_load (the_lock →' bt_owner_loc)) i (λ o y, y = if o =? 0 then g' else g) g.
Proof using Rs.
  intros Hg. apply bt_atomic. intros o c r tr gs HI Hi. exists o, (MkBytelock o c r), (if o =? 0 then g' else g).
  split; [done|]. split; [|done]. destruct (Z.eqb_spec o 0) as [->|Ho]; [|by rewrite list_insert_id].
  pose proof (bt_same_bytes _ _ _ _ HI Hi) as Hsame. cbn in Hsame.
  destruct Hg as [[-> ->]|[-> ->]]; (eapply bt_move; [exact HI|exact Hi| | |by left|cbn; lia|exact (eq_sym Hsame)|done|done|done]).
  - intros _. by apply (bi_slotted _ _ HI i _ Hi); left.
  - done.
  - by intros [|].
  - intros _. by apply (bi_counted _ _ HI i _ Hi).
Qed.

(** *** What the functions do *)

Lemma bt_while_owned_wp n i : bt_wp n (while_owned the_lock) i (λ _ y, y = BtIdle) BtIdle.
Proof using Rs.
  apply (outside_wp_while _ _ _ _ _ _ (λ y, y = BtIdle)); [done|]. intros m y ->. apply outside_wp_bind.
  apply bt_load_owner_wp. intros o c r gs _ _. apply outside_wp_ret. by destruct (o =? 0); [|apply outside_wp_stall].
Qed.

(** The slot of a thread that does not own the lock is not in it. *)
Lemma bt_ask_owner_wp n i :
  bt_wp n (ck_pr_load (the_lock →' bt_owner_loc)) i (λ o y, y = BtIdle ∧ (o =? bt_slot i) = false) BtIdle.
Proof using Rs.
  apply bt_load_owner_wp. intros o c r gs HI Hi. split; [done|]. apply Z.eqb_neq. intros ->.
  pose proof (bt_owner_le _ _ HI) as Hle. pose proof (bt_free _ _ i _ HI Hi eq_refl) as Hf. cbn in Hle, Hf.
  destruct (bt_slotted i) eqn:Es; [by rewrite (proj1 (bt_slot_of i Es)) in Hf|]. unfold bt_slot in Hle. rewrite Es in Hle. done.
Qed.

Lemma bt_unslotted i : (sizeof_readers <? bt_slot i) = negb (bt_slotted i).
Proof.
  unfold bt_slot. destruct (bt_slotted i) eqn:Es; [|done]. apply Z.ltb_ge. apply Nat.ltb_lt in Es. lia.
Qed.

Lemma bt_read_lock_wp n i :
  bt_wp n (ck_bytelock_read_lock the_lock (bt_slot i)) i (λ _ y, bt_reads y = true) BtIdle.
Proof using Rs.
  apply outside_wp_bind. eapply outside_wp_mono; [apply bt_ask_owner_wp|]. intros o y [-> Eo]. rewrite Eo, bt_unslotted.
  destruct (bt_slotted i) eqn:Es; cbn [negb].
  - apply (outside_wp_loop _ _ _ _ _ _ _ (λ _ y, y = BtIdle)); [done|]. intros m _ y ->. apply outside_wp_bind.
    eapply outside_wp_mono; [by apply bt_fas_wp|]. intros _ y ->. apply outside_wp_bind.
    eapply outside_wp_mono; [apply bt_check_wp; by left|]. intros v y ->. destruct (v =? 0); [by apply outside_wp_ret|].
    apply outside_wp_bind. eapply outside_wp_mono; [by apply (bt_store_wp _ _ _ _ BtIdle)|]. intros _ y ->.
    apply outside_wp_bind. eapply outside_wp_mono; [apply bt_while_owned_wp|]. intros _ y ->. by apply outside_wp_ret.
  - apply (outside_wp_loop _ _ _ _ _ _ _ (λ _ y, y = BtIdle)); [done|]. intros m _ y ->. apply outside_wp_bind.
    eapply outside_wp_mono; [by apply bt_inc_wp|]. intros _ y ->. apply outside_wp_bind.
    eapply outside_wp_mono; [apply bt_check_wp; by right|]. intros v y ->. destruct (v =? 0); [by apply outside_wp_ret|].
    apply outside_wp_bind. eapply outside_wp_mono; [by apply bt_dec_wp|]. intros _ y ->.
    apply outside_wp_bind. eapply outside_wp_mono; [apply bt_while_owned_wp|]. intros _ y ->. by apply outside_wp_ret.
Qed.

(** A writer goes on as a reader. *)
Lemma bt_downgrade_wp n i :
  bt_slotted i = true → bt_wp n (ck_bytelock_read_lock the_lock (bt_slot i)) i (λ _ y, y = BtRead) BtWrite.
Proof using Rs.
  intros Hs. apply outside_wp_bind. apply bt_load_owner_wp. intros o c r gs HI Hi.
  pose proof (bi_owner_is _ _ HI i _ Hi eq_refl) as Eo. cbn in Eo. rewrite Eo, (proj1 (bt_slot_of i Hs)), Z.eqb_refl.
  apply outside_wp_bind. rewrite <- (proj1 (bt_slot_of i Hs)).
  eapply outside_wp_mono; [by apply (bt_store_wp _ _ _ _ BtDown)|]. intros _ y ->.
  eapply outside_wp_mono; [by apply bt_leave_wp|]. by intros _ y ->.
Qed.

Lemma bt_write_lock_wp n i :
  bt_slotted i = true → bt_wp n (ck_bytelock_write_lock the_lock (bt_slot i)) i (λ _ y, y = BtWrite) BtIdle.
Proof using Rs.
  intros Hs. apply outside_wp_bind. eapply outside_wp_mono.
  { apply (outside_wp_while _ _ _ _ _ _ (λ y, y = BtIdle) _ (λ _ y, y = BtOwn 0)); [done|]. intros m y ->. apply outside_wp_bind.
    eapply outside_wp_mono; [by apply bt_cas_wp|]. intros b y ->. apply outside_wp_ret.
    by destruct b; [|apply outside_wp_stall]. }
  intros _ y ->. apply outside_wp_bind. rewrite Z.leb_antisym, bt_unslotted, Hs. cbn [negb].
  eapply outside_wp_mono; [apply (bt_store_wp _ _ _ _ (BtOwn 0)); try done; by intros k [= <-]|]. intros _ y ->.
  apply outside_wp_bind. eapply outside_wp_mono.
  { apply (outside_wp_loop _ _ _ _ _ _ _ (λ j y, ∃ k, j = Z.of_nat k ∧ (k ≤ 7)%nat ∧ y = BtOwn k) _ (λ _ y, y = BtOwn 7)).
    - exists 0%nat. split; [done|]. split; [lia|done].
    - intros m j y (k & -> & Hk & ->). change (sizeof_readers / CK_BYTELOCK_LENGTH) with 7.
      destruct (Z.ltb_spec (Z.of_nat k) 7) as [Hlt|Hge]; [|apply outside_wp_ret; f_equal; lia].
      apply outside_wp_bind. eapply outside_wp_mono.
      { apply (outside_wp_while _ _ _ _ _ _ (λ y, y = BtOwn k) _ (λ _ y, y = BtOwn (S k))); [done|]. intros m' y ->.
        apply outside_wp_bind. eapply outside_wp_mono; [apply bt_word_wp; lia|]. intros v y ->. apply outside_wp_ret.
        by destruct (v =? 0); [|apply outside_wp_stall]. }
      intros _ y ->. apply outside_wp_ret. exists (S k). split; [lia|]. split; [lia|done]. }
  intros _ y ->. apply (outside_wp_while _ _ _ _ _ _ (λ y, y = BtOwn 7)); [done|]. intros m y ->. apply outside_wp_bind.
  eapply outside_wp_mono; [apply bt_counter_wp|]. intros v y ->. apply outside_wp_ret.
  by destruct (v =? 0); [|apply outside_wp_stall].
Qed.

Lemma bt_read_unlock_wp n i g :
  bt_reads g = true → bt_wp n (ck_bytelock_read_unlock the_lock (bt_slot i)) i (λ _ y, y = BtIdle) g.
Proof using Rs.
  intros Hg. unfold ck_bytelock_read_unlock. rewrite bt_unslotted. destruct (bt_slotted i) eqn:Es, g; try done; cbn [negb].
  - by apply (bt_store_wp _ _ _ _ BtIdle).
  - apply bt_atomic. intros o c r tr gs HI Hi. pose proof (bi_counted _ _ HI i _ Hi eq_refl). congruence.
  - apply bt_atomic. intros o c r tr gs HI Hi. pose proof (bi_slotted _ _ HI i _ Hi (or_introl eq_refl)). congruence.
  - by apply bt_dec_wp.
Qed.
End operations.

(** ** The laws *)

Lemma bt_inv_init n : Z.of_nat n < 4294967296 → bt_inv CK_BYTELOCK_INITIALIZER (replicate n BtIdle).
Proof.
  intros Hn. split; rewrite ?length_replicate; try done; try (intros i g [-> _]%lookup_replicate; by intuition).
  - intros k Hk%Nat.ltb_lt. cbn [bt_readers CK_BYTELOCK_INITIALIZER]. rewrite lookup_replicate_2 by done. f_equal.
    unfold bt_byte. destruct (replicate n BtIdle !! k) as [g|] eqn:Eg; [|done]. by apply lookup_replicate in Eg as [-> _].
  - cbn. rewrite tally_zero; [done|]. by intros i g [-> _]%lookup_replicate.
  - by left.
  - by intros i k [[=] _]%lookup_replicate.
Qed.

#[export] Program Instance ck_bytelock_laws : RwSpinlockLaws ck_bytelock (Z.to_nat 4294967295) := {
  rwg := bt_ghost;
  rwg_idle := BtIdle;
  rests := λ g, g = BtIdle;
  reading := λ g, bt_reads g = true;
  writing := λ _ g, g = BtWrite;
  rws_inv := bt_inv
}.
Next Obligation. done. Qed.
Next Obligation. intros n Hn. apply bt_inv_init. lia. Qed.
Next Obligation.
  intros x gs i j g g' k HI Hi Hj ->. split.
  - intros Hr. pose proof (bi_alone _ _ HI i _ Hi eq_refl j g' Hj). congruence.
  - intros _ ->. pose proof (bi_owner_is _ _ HI i _ Hi eq_refl). pose proof (bi_owner_is _ _ HI j _ Hj eq_refl). lia.
Qed.
Next Obligation.
  intros R n i k f g HR Hk ->. destruct k as [|k]; [|done]. injection Hk as <-. apply outside_wp_bind.
  eapply outside_wp_mono; [by apply bt_read_lock_wp|]. intros [] g' Hg. by apply outside_wp_ret.
Qed.
Next Obligation. intros R n i g HR Hg. by apply bt_read_unlock_wp. Qed.
Next Obligation.
  intros R n i k w g HR Hk Hs ->. destruct k as [|k]; [|done]. injection Hk as <-. apply outside_wp_bind.
  eapply outside_wp_mono; [by apply bt_write_lock_wp|]. intros [] g' Hg. by apply outside_wp_ret.
Qed.
Next Obligation.
  intros R n i k w g HR Hk Hs ->. destruct k as [|k]; [|done]. injection Hk as <-.
  eapply outside_wp_mono; [by apply bt_leave_wp|]. by intros _ g ->.
Qed.
Next Obligation.
  intros R n i k w d g HR Hk Hd Hs ->. destruct k as [|k]; [|done]. injection Hk as <-. injection Hd as <-.
  eapply outside_wp_mono; [by apply bt_downgrade_wp|]. by intros _ g ->.
Qed.

(** ** Initialising, and threads without a slot that write *)

Lemma for_below_runs {S} n (body : Z → prog S unit) (P : Z → S → Prop) s :
  0 ≤ n → P 0 s → (∀ i s, 0 ≤ i < n → P i s → runs (body i) s (λ _ s', P (i + 1) s')) → runs (for_below n body) s (λ _ s', P n s').
Proof.
  intros Hn H0 Hb. unfold for_below. assert (∀ k i s, 0 ≤ i → i + Z.of_nat k = n → P i s →
    runs (loop (λ i, if i <? n then body i;; mret (inl (i + 1)) else mret (inr tt)) i) s (λ _ s', P n s')) as H.
  { clear s H0. induction k as [|k IH]; intros i s Hi Hk HP; apply runs_loop.
    - rewrite (proj2 (Z.ltb_ge i n)) by lia. apply runs_ret. by replace n with i by lia.
    - rewrite (proj2 (Z.ltb_lt i n)) by lia. apply runs_bind. eapply runs_mono; [apply Hb; [lia|done]|].
      intros [] s' HP'. apply runs_ret. apply IH; [lia|lia|done]. }
  apply (H (Z.to_nat n) 0); [done|lia|done].
Qed.

Lemma ck_bytelock_init_runs x :
  length (bt_readers x) = Z.to_nat sizeof_readers → runs (ck_bytelock_init loc_whole) x (λ _ y, y = CK_BYTELOCK_INITIALIZER).
Proof.
  intros Hlen. destruct x as [o c r]. cbn in Hlen. apply runs_bind. eapply runs_atomic; [reflexivity|].
  apply runs_bind. eapply runs_atomic; [reflexivity|]. cbn. eapply runs_mono.
  { apply (for_below_runs _ _ (λ i y, ∃ r, length r = 56%nat ∧ y = MkBytelock 0 0 (replicate (Z.to_nat i) 0 ++ drop (Z.to_nat i) r))); [done|by exists r|].
    intros i y Hi (r' & Hr & ->). eapply runs_atomic.
    - cbn. rewrite arr_set_in; [reflexivity|].
      change sizeof_readers with 56 in Hi. rewrite length_app, length_replicate, length_drop. lia.
    - exists r'. split; [done|]. f_equal. rewrite insert_app_r_alt, length_replicate, Nat.sub_diag by (by rewrite length_replicate).
      change sizeof_readers with 56 in Hi. destruct (drop (Z.to_nat i) r') as [|b r''] eqn:Ed.
      { apply (f_equal length) in Ed. rewrite length_drop in Ed. cbn in Ed. lia. }
      assert (drop (Z.to_nat (i + 1)) r' = r'') as ->.
      { replace (Z.to_nat (i + 1)) with (Z.to_nat i + 1)%nat by lia. by rewrite <- drop_drop, Ed. }
      replace (Z.to_nat (i + 1)) with (Z.to_nat i + 1)%nat by lia. rewrite replicate_add, <- app_assoc. done. }
  intros _ y (r' & Hr & ->). unfold CK_BYTELOCK_INITIALIZER. f_equal. change (Z.to_nat sizeof_readers) with 56%nat.
  by rewrite (drop_ge r'), app_nil_r by lia.
Qed.

(** [ck_bytelock_write_lock] lets a thread without a slot write; but when another without one then reads, it takes
    itself for the owner, because they have the same number, and writes to a byte that the lock does not have. *)
Theorem bytelock_unslotted_writer_faults :
  let threads := [ck_bytelock_write_lock loc_whole CK_BYTELOCK_UNSLOTTED; ck_bytelock_read_lock loc_whole CK_BYTELOCK_UNSLOTTED] in
  ∃ s pool, reaches CK_BYTELOCK_INITIALIZER threads s pool ∧ pool_faults (s, pool).
Proof.
  intros threads. pose (c := schedule (replicate 40 0%nat ++ [1%nat]) (CK_BYTELOCK_INITIALIZER, threads)).
  exists c.1, c.2. split; [apply schedule_sound|]. rewrite <- surjective_pairing. apply (thread_faults_sound 1).
  by vm_compute.
Qed.
