(* ===== verification/CkBrlock.v ===== *)
(** CkBrlock: the big-reader lock of Concurrency Kit, include/aerospike/ck/ck_brlock.h: every reader has a count of its
    own, in a list that the writer goes over; a reader joins the list and leaves it under the writer's flag.  It
    satisfies the laws of CkRwMutex.

    The readers are nodes of a memory of their own, as in CkMcs: a step at an address without a reader is undefined. *)

From Stdlib Require Import ZArith Lia.
From stdpp Require Import functions base list gmap sets.
From S2P Require Import Prelude Concurrent CkPr CkRwlock CkRwMutex.

#[local] Open Scope Z_scope.
#[local] Set Warnings "-clear-no-such-hyp".

(** [src: include/aerospike/ck/ck_brlock.h 47-51 ck_brlock_reader] *)
Record ck_brlock_reader : Type := MkReader { rd_n_readers : Z; rd_previous : Z; rd_next : Z }.
Definition n_readers : loc ck_brlock_reader Z := MkLoc rd_n_readers (λ v x, MkReader v (rd_previous x) (rd_next x)).
Definition previous : loc ck_brlock_reader Z := MkLoc rd_previous (λ v x, MkReader (rd_n_readers x) v (rd_next x)).
Definition next : loc ck_brlock_reader Z := MkLoc rd_next (λ v x, MkReader (rd_n_readers x) (rd_previous x) v).

(** With the memory of the readers.
    [src: include/aerospike/ck/ck_brlock.h 56-59 ck_brlock] *)
Record ck_brlock : Type := MkBrlock { br_readers : Z; br_writer : Z; br_nodes : gmap Z ck_brlock_reader }.
Definition br_readers_loc : loc ck_brlock Z := MkLoc br_readers (λ v x, MkBrlock v (br_writer x) (br_nodes x)).
Definition br_writer_loc : loc ck_brlock Z := MkLoc br_writer (λ v x, MkBrlock (br_readers x) v (br_nodes x)).
Definition br_nodes_loc : loc ck_brlock (gmap Z ck_brlock_reader) := MkLoc br_nodes (λ v x, MkBrlock (br_readers x) (br_writer x) v).

(** [src: include/aerospike/ck/ck_brlock.h 64-72 ck_brlock_init] *)
Definition ck_brlock_init (nodes : gmap Z ck_brlock_reader) : ck_brlock := MkBrlock 0 0 nodes.

Section ops.
Context {S : Type} (br : loc S ck_brlock).
Abbreviation readers := (br →' br_readers_loc).
Abbreviation writer := (br →' br_writer_loc).
Abbreviation nodes := (br →' br_nodes_loc).

(** [for (cursor = …; cursor != NULL; cursor = cursor->next) while (cursor->n_readers != 0) ck_pr_stall()].
    [src: include/aerospike/ck/ck_brlock.h 89-92 ck_brlock_write_lock] *)
Definition wait_readers : Z → prog S unit :=
  loop (λ cursor,
    if cursor =? 0 then mret (inr tt)
    else
      while (n ← get_at nodes n_readers cursor; mret (negb (n =? 0))) stall;;
      c ← get_at nodes next cursor; mret (inl c)).

(** [src: include/aerospike/ck/ck_brlock.h 74-96 ck_brlock_write_lock] *)
Definition ck_brlock_write_lock : prog S unit :=
  while (v ← ck_pr_fas writer 1; mret (v =? 1)) stall;;
  c ← ck_pr_load readers;
  wait_readers c.

(** [src: include/aerospike/ck/ck_brlock.h 98-105 ck_brlock_write_unlock] *)
Definition ck_brlock_write_unlock : prog S unit := ck_pr_store writer 0.

(** What is left of the steps when the loop [while (c)] ends, [None] when there were [factor] of them.
    [src: include/aerospike/ck/ck_brlock.h 113-118 ck_brlock_write_trylock] *)
Definition try_while (factor : Z) (c : prog S bool) : Z → prog S (option Z) :=
  loop (λ steps,
    b ← c;
    if (b : bool) then
      let steps := u32 (steps + 1) in
      if factor <=? steps then mret (inr None) else stall;; mret (inl steps)
    else mret (inr (Some steps))).

(** [src: include/aerospike/ck/ck_brlock.h 126-135 ck_brlock_write_trylock] *)
Definition try_readers (factor : Z) : Z * Z → prog S bool :=
  loop (λ '(cursor, steps),
    if cursor =? 0 then mret (inr true)
    else
      r ← try_while factor (n ← get_at nodes n_readers cursor; mret (negb (n =? 0))) steps;
      match r with
      | None => ck_brlock_write_unlock;; mret (inr false)
      | Some steps => c ← get_at nodes next cursor; mret (inl (c, steps))
      end).

(** [src: include/aerospike/ck/ck_brlock.h 107-139 ck_brlock_write_trylock] *)
Definition ck_brlock_write_trylock (factor : Z) : prog S bool :=
  r ← try_while factor (v ← ck_pr_fas writer 1; mret (v =? 1)) 0;
  match r with
  | None => mret false
  | Some steps => c ← ck_pr_load readers; try_readers factor (c, steps)
  end.

(** [src: include/aerospike/ck/ck_brlock.h 141-158 ck_brlock_read_register] *)
Definition ck_brlock_read_register (reader : Z) : prog S unit :=
  put_at nodes n_readers reader 0;;
  put_at nodes previous reader 0;;
  ck_brlock_write_lock;;
  f ← ck_pr_load readers; put_at nodes next reader f;;
  n ← get_at nodes next reader;
  (if negb (n =? 0) then n ← get_at nodes next reader; put_at nodes previous n reader else mret tt);;
  ck_pr_store readers reader;;
  ck_brlock_write_unlock.

(** [src: include/aerospike/ck/ck_brlock.h 160-176 ck_brlock_read_unregister] *)
Definition ck_brlock_read_unregister (reader : Z) : prog S unit :=
  ck_brlock_write_lock;;
  n ← get_at nodes next reader;
  (if negb (n =? 0) then n ← get_at nodes next reader; p ← get_at nodes previous reader; put_at nodes previous n p else mret tt);;
  p ← get_at nodes previous reader;
  (if negb (p =? 0) then p ← get_at nodes previous reader; n ← get_at nodes next reader; put_at nodes next p n
   else n ← get_at nodes next reader; ck_pr_store readers n);;
  ck_brlock_write_unlock.

(** [src: include/aerospike/ck/ck_brlock.h 178-217 ck_brlock_read_lock] *)
Definition ck_brlock_read_lock (reader : Z) : prog S unit :=
  n ← get_at nodes n_readers reader;
  if 1 <=? n then n ← get_at nodes n_readers reader; put_at nodes n_readers reader (u32 (n + 1))
  else
    loop (λ _ : unit,
      while (v ← ck_pr_load writer; mret (v =? 1)) stall;;
      fas_at nodes n_readers reader 1;;
      v ← ck_pr_load writer;
      if v =? 0 then mret (inr tt)
      else put_at nodes n_readers reader 0;; mret (inl tt)) tt.

(** [src: include/aerospike/ck/ck_brlock.h 219-268 ck_brlock_read_trylock] *)
Definition ck_brlock_read_trylock (reader factor : Z) : prog S bool :=
  n ← get_at nodes n_readers reader;
  if 1 <=? n then n ← get_at nodes n_readers reader; put_at nodes n_readers reader (u32 (n + 1));; mret true
  else
    loop (λ steps : Z,
      r ← try_while factor (v ← ck_pr_load writer; mret (v =? 1)) steps;
      match r with
      | None => mret (inr false)
      | Some steps =>
          fas_at nodes n_readers reader 1;;
          v ← ck_pr_load writer;
          if v =? 0 then mret (inr true)
          else
            put_at nodes n_readers reader 0;;
            let steps := u32 (steps + 1) in
            mret (if factor <=? steps then inr false else inl steps)
      end) 0.

(** [src: include/aerospike/ck/ck_brlock.h 270-277 ck_brlock_read_unlock] *)
Definition ck_brlock_read_unlock (reader : Z) : prog S unit :=
  n ← get_at nodes n_readers reader; put_at nodes n_readers reader (u32 (n - 1)).
End ops.

(** ** As a lock of threads that each have a reader *)

(** A thread that reads joins the list first, and leaves it when it cannot read; it may also take the lock again
    while it has it.  [factor] is what the functions that only try are given. *)
Definition brlock_rw (nodes : gmap Z ck_brlock_reader) (factor : Z) : RwSpinlock ck_brlock := {|
  rws_init := ck_brlock_init nodes;
  rws_reads S i := let me := own_node i in
    [λ l, ck_brlock_read_register l me;; ck_brlock_read_lock l me;; mret true;
     λ l, ck_brlock_read_register l me;; b ← ck_brlock_read_trylock l me factor;
          if (b : bool) then mret true else ck_brlock_read_unregister l me;; mret false;
     λ l, ck_brlock_read_register l me;; ck_brlock_read_lock l me;; ck_brlock_read_lock l me;;
          ck_brlock_read_unlock l me;; mret true;
     λ l, ck_brlock_read_register l me;; ck_brlock_read_lock l me;; ck_brlock_read_trylock l me factor;;
          ck_brlock_read_unlock l me;; mret true];
  rws_read_unlock S i := λ l, ck_brlock_read_unlock l (own_node i);; ck_brlock_read_unregister l (own_node i);
  rws_writes S i :=
    [MkWay (waits ck_brlock_write_lock) ck_brlock_write_unlock None;
     MkWay (λ l, ck_brlock_write_trylock l factor) ck_brlock_write_unlock None];
  rws_may_write i := true
|}.

(** ** The invariant *)

(** What it speaks of: the lock, and the members of the readers as functions. *)
Record br_members : Type := MkMembers { bn_n_readers : Z → Z; bn_previous : Z → Z; bn_next : Z → Z }.
Definition bn_n_readers_loc : loc br_members (Z → Z) := MkLoc bn_n_readers (λ v x, MkMembers v (bn_previous x) (bn_next x)).
Definition bn_previous_loc : loc br_members (Z → Z) := MkLoc bn_previous (λ v x, MkMembers (bn_n_readers x) v (bn_next x)).
Definition bn_next_loc : loc br_members (Z → Z) := MkLoc bn_next (λ v x, MkMembers (bn_n_readers x) (bn_previous x) v).

#[export] Instance br_members_of : MembersOf br_members ck_brlock_reader :=
  λ v p, MkReader (bn_n_readers v p) (bn_previous v p) (bn_next v p).
#[export] Instance n_readers_view : MemberView n_readers bn_n_readers_loc.
Proof. solve_member_view br_members_of. Qed.
#[export] Instance previous_view : MemberView previous bn_previous_loc.
Proof. solve_member_view br_members_of. Qed.
#[export] Instance next_view : MemberView next bn_next_loc.
Proof. solve_member_view br_members_of. Qed.

Record br_view : Type := MkView { bv_readers : Z; bv_writer : Z; bv_nodes : br_members }.

(** What a thread that takes the writer's flag was before. *)
Inductive br_base : Type := BaseOut | BaseNew | BaseIn.

(** What it does with the flag: it has seen that the readers in [l] do not read, and those in [r] are left; it puts
    itself in front of [ns], its own pointer first; it takes itself out from between [l] and [r]. *)
Inductive br_phase : Type :=
  | PhScan (l r : list nat) | PhLink (ns : list nat) | PhLinked (ns : list nat) | PhUnlinked (l r : list nat).

(** A thread: without its reader in the list; the same, with its count zero, and its previous too; in the list; has
    published that it reads, to see whether there is a writer; reads, [c] times more than once; has the flag. *)
Inductive br_ghost : Type :=
  | BrOut | BrZero | BrNew | BrIn | BrSet | BrRead (c : nat) | BrHold (b : br_base) (ph : br_phase).

Definition br_rest (b : br_base) : br_ghost := match b with BaseOut => BrOut | BaseNew => BrNew | BaseIn => BrIn end.

(** The count of its reader. *)
Definition br_count (g : br_ghost) : option Z :=
  match g with
  | BrOut | BrHold BaseOut _ => None
  | BrZero | BrNew | BrIn | BrHold _ _ => Some 0
  | BrSet => Some 1
  | BrRead c => Some (Z.of_nat c + 1)
  end.
Definition br_new (g : br_ghost) : bool := match g with BrNew | BrHold BaseNew _ => true | _ => false end.
Definition br_member (g : br_ghost) : bool := match g with BrIn | BrSet | BrRead _ | BrHold BaseIn _ => true | _ => false end.
Definition br_holds (g : br_ghost) : bool := match g with BrHold _ _ => true | _ => false end.
Definition br_reads (g : br_ghost) : bool := match g with BrRead _ => true | _ => false end.

(** The address of the first of the readers [ns], [b] when there is none; of the last. *)
Definition br_head (b : Z) (ns : list nat) : Z := match ns with [] => b | j :: _ => own_node j end.
Fixpoint br_last (a : Z) (ns : list nat) : Z := match ns with [] => a | j :: ns => br_last (own_node j) ns end.

(** A part of the list, between the nodes [a] and [b]. *)
Fixpoint br_seg (m : br_members) (a : Z) (ns : list nat) (b : Z) : Prop :=
  match ns with
  | [] => True
  | j :: ns => bn_previous m (own_node j) = a ∧ bn_next m (own_node j) = br_head b ns ∧ br_seg m (own_node j) ns b
  end.

(** The readers in the list, in each phase of the thread [i], and the memory. *)
Definition ph_readers (i : nat) (ph : br_phase) : list nat :=
  match ph with PhScan l r => l ++ r | PhLink ns | PhLinked ns => ns | PhUnlinked l r => l ++ i :: r end.
Definition ph_seen (i : nat) (ph : br_phase) : list nat :=
  match ph with PhScan l _ => l | _ => ph_readers i ph end.
Definition ph_shape (m : br_members) (i : nat) (ph : br_phase) : Prop :=
  match ph with
  | PhScan l r => br_seg m 0 (l ++ r) 0
  | PhLink ns => br_seg m 0 ns 0 ∧ bn_next m (own_node i) = br_head 0 ns
  | PhLinked ns => br_seg m (own_node i) ns 0 ∧ bn_next m (own_node i) = br_head 0 ns
  | PhUnlinked l r => br_seg m 0 l (own_node i) ∧ bn_next m (own_node i) = br_head 0 r ∧
      bn_previous m (own_node i) = br_last 0 l ∧ br_seg m (br_last 0 l) r 0
  end.

(** [h] is the thread with the flag, and what it does. *)
Record br_ok (x : br_view) (gs : list br_ghost) (ns : list nat) (h : option (nat * br_phase)) : Prop := {
  bo_nodup : NoDup ns;
  bo_member i : i ∈ ns ↔ ∃ g, gs !! i = Some g ∧ br_member g = true;
  bo_count i g c : gs !! i = Some g → br_count g = Some c → bn_n_readers (bv_nodes x) (own_node i) = c;
  bo_new i g : gs !! i = Some g → br_new g = true → bn_previous (bv_nodes x) (own_node i) = 0;
  bo_head : bv_readers x = br_head 0 ns;
  bo_writer : bv_writer x = match h with Some _ => 1 | None => 0 end;
  bo_holder i g : gs !! i = Some g → br_holds g = true → ∃ b ph, g = BrHold b ph ∧ h = Some (i, ph);
  bo_held i ph : h = Some (i, ph) → ∃ b, gs !! i = Some (BrHold b ph);
  bo_shape : match h with
    | None => br_seg (bv_nodes x) 0 ns 0
    | Some (i, ph) => ns = ph_readers i ph ∧ ph_shape (bv_nodes x) i ph ∧
        ∀ j g, j ∈ ph_seen i ph → gs !! j = Some g → br_reads g = false
    end
}.
Definition br_inv (x : br_view) (gs : list br_ghost) : Prop := ∃ ns h, br_ok x gs ns h.

(** *** Parts of the list *)

Lemma br_head_0 ns : br_head 0 ns = 0 ↔ ns = [].
Proof. destruct ns as [|j ns]; [done|]. split; [|done]. intros H. by destruct (own_node_pos j). Qed.

Lemma br_head_eqb ns : (br_head 0 ns =? 0) = match ns with [] => true | _ => false end.
Proof. destruct ns as [|j ns]; [done|]. apply Z.eqb_neq, own_node_pos. Qed.

Lemma br_head_app b l r : br_head b (l ++ r) = br_head (br_head b r) l.
Proof. by destruct l. Qed.

Lemma br_last_snoc a l j : br_last a (l ++ [j]) = own_node j.
Proof. revert a. induction l as [|k l IH]; intros a; [done|]. apply IH. Qed.

Lemma br_last_cases l : l = [] ∧ br_last 0 l = 0 ∨ ∃ l' j, l = l' ++ [j] ∧ br_last 0 l = own_node j.
Proof. destruct l as [|j l _] using rev_ind; [by left|]. right. exists l, j. by rewrite br_last_snoc. Qed.

Lemma br_seg_app m a l r b : br_seg m a (l ++ r) b ↔ br_seg m a l (br_head b r) ∧ br_seg m (br_last a l) r b.
Proof.
  revert a. induction l as [|j l IH]; intros a; cbn; [by intuition|]. rewrite IH, br_head_app. by intuition.
Qed.

(** A part is what the nodes in it are. *)
Lemma br_seg_frame m m' a ns b :
  (∀ j, j ∈ ns → bn_previous m' (own_node j) = bn_previous m (own_node j) ∧ bn_next m' (own_node j) = bn_next m (own_node j)) →
  br_seg m a ns b → br_seg m' a ns b.
Proof.
  revert a. induction ns as [|j ns IH]; intros a H; [done|]. intros (H1 & H2 & H3).
  destruct (H j) as [E1 E2]; [by left|]. split; [congruence|]. split; [congruence|]. apply IH; [|done]. intros k Hk. apply H. by right.
Qed.

Lemma ph_shape_frame m m' i ph :
  (∀ j, j = i ∨ j ∈ ph_readers i ph →
     bn_previous m' (own_node j) = bn_previous m (own_node j) ∧ bn_next m' (own_node j) = bn_next m (own_node j)) →
  ph_shape m i ph → ph_shape m' i ph.
Proof.
  intros H. destruct (H i) as [Hp Hn]; [by left|].
  destruct ph as [l r|ns|ns|l r]; cbn in *; rewrite ?Hp, ?Hn.
  - apply br_seg_frame. intros j Hj. apply H. by right.
  - intros [Hs ?]. split; [|done]. eapply br_seg_frame; [|exact Hs]. intros j Hj. apply H. by right.
  - intros [Hs ?]. split; [|done]. eapply br_seg_frame; [|exact Hs]. intros j Hj. apply H. by right.
  - intros (H1 & ? & ? & H2). split; [|split; [done|split; [done|]]].
    + eapply br_seg_frame; [|exact H1]. intros j Hj. apply H. right. set_solver.
    + eapply br_seg_frame; [|exact H2]. intros j Hj. apply H. right. set_solver.
Qed.

Lemma set_own_eq p (v : Z) (f : Z → Z) : <[p := v]> f p = v.
Proof. by rewrite fn_lookup_insert. Qed.
Lemma set_own_ne i j (v : Z) (f : Z → Z) : i ≠ j → <[own_node i := v]> f (own_node j) = f (own_node j).
Proof. intros H. rewrite fn_lookup_insert_ne; [done|]. by intros ?%own_node_inj. Qed.

(** *** A thread goes on *)

(** What a step of the thread [i], from [g] to [g'], leaves to show: what changes elsewhere than in its own reader is the
    pointers of readers in the list, under the flag. *)
Lemma br_go x x' gs ns ns' h h' i g g' :
  br_ok x gs ns h → gs !! i = Some g →
  NoDup ns' →
  (∀ j, j ∈ ns' ↔ j = i ∧ br_member g' = true ∨ j ≠ i ∧ j ∈ ns) →
  (∀ j, j ≠ i → bn_n_readers (bv_nodes x') (own_node j) = bn_n_readers (bv_nodes x) (own_node j)) →
  (∀ c, br_count g' = Some c → bn_n_readers (bv_nodes x') (own_node i) = c) →
  (∀ j, j ≠ i → j ∉ ns → bn_previous (bv_nodes x') (own_node j) = bn_previous (bv_nodes x) (own_node j)) →
  (br_new g' = true → bn_previous (bv_nodes x') (own_node i) = 0) →
  bv_readers x' = br_head 0 ns' →
  bv_writer x' = match h' with Some _ => 1 | None => 0 end →
  match g' with
  | BrHold _ ph => h' = Some (i, ph) ∧ (br_holds g = true ∨ h = None)
  | _ => h' = if br_holds g then None else h
  end →
  match h' with
  | None => br_seg (bv_nodes x') 0 ns' 0
  | Some (k, ph) => ns' = ph_readers k ph ∧ ph_shape (bv_nodes x') k ph ∧
      ∀ j y, j ∈ ph_seen k ph → <[i := g']> gs !! j = Some y → br_reads y = false
  end →
  br_ok x' (<[i := g']> gs) ns' h'.
Proof.
  intros HO Hi Hnd Hmem Hnr Hc Hpv Hnew Hhd Hw Hh Hs. pose proof (lookup_lt_Some _ _ _ Hi) as Hlt.
  assert (∀ j y, j ≠ i → gs !! j = Some y → br_holds y = true → br_holds g = false ∧ h ≠ None) as Hother.
  { intros j y Hne Hj Hy. destruct (bo_holder _ _ _ _ HO j y Hj Hy) as (b & ph & -> & ->). split; [|done].
    destruct (br_holds g) eqn:Eg; [|done]. destruct (bo_holder _ _ _ _ HO i g Hi Eg) as (b' & ph' & _ & [= E _]). congruence. }
  split; try done.
  - intros j. rewrite Hmem. split.
    + intros [[-> Hg]|[Hne Hj]]; [exists g'; by rewrite list_lookup_insert_eq|].
      rewrite list_lookup_insert_ne by done. by apply (bo_member _ _ _ _ HO).
    + intros (y & [[-> ->]|[Hne Hj]]%insert_case & Hy); [by left|right]. split; [done|].
      apply (bo_member _ _ _ _ HO). by exists y.
  - intros j y c [[-> ->]|[Hne Hj]]%insert_case Hy; [by apply Hc|]. rewrite Hnr by done. by apply (bo_count _ _ _ _ HO j y).
  - intros j y [[-> ->]|[Hne Hj]]%insert_case Hy; [by apply Hnew|]. rewrite Hpv; [by apply (bo_new _ _ _ _ HO j y)|done|].
    intros (y' & Hj' & Hm)%(bo_member _ _ _ _ HO). rewrite Hj in Hj'. injection Hj' as <-.
    destruct y as [| | | | | |[] ?]; done.
  - intros j y [[-> ->]|[Hne Hj]]%insert_case Hy.
    + destruct g' as [| | | | | |b ph]; try done. destruct Hh as [-> _]. by exists b, ph.
    + destruct (Hother j y Hne Hj Hy) as [Eg Eh]. destruct (bo_holder _ _ _ _ HO j y Hj Hy) as (b & ph & -> & ->).
      exists b, ph. split; [done|]. destruct g' as [| | | | | |b' ph']; try (by rewrite Hh, Eg).
      destruct Hh as [_ [?|?]]; congruence.
  - intros j ph ->. destruct (decide (j = i)) as [->|Hne].
    + rewrite list_lookup_insert_eq by done.
      assert (h = Some (i, ph) → br_holds g = false → False) as Hno.
      { intros E Eg. destruct (bo_held _ _ _ _ HO i ph E) as [b Hb]. rewrite Hi in Hb. injection Hb as ->. done. }
      destruct g' as [| | | | | |b' ph']; try (by destruct (br_holds g); [|destruct Hno]).
      destruct Hh as [[= ->] _]. by exists b'.
    + rewrite list_lookup_insert_ne by done. apply (bo_held _ _ _ _ HO).
      destruct g' as [| | | | | |b' ph']; try (by destruct (br_holds g)). destruct Hh as [[= E _] _]. congruence.
Qed.

(** A thread that does not have the flag changes its own reader: the count, and the previous when it is not in the list. *)
Lemma br_own x gs ns h i g g' nr pv :
  br_ok x gs ns h → gs !! i = Some g →
  br_holds g = false → br_holds g' = false → br_member g' = br_member g →
  (∀ j, j ≠ i → nr (own_node j) = bn_n_readers (bv_nodes x) (own_node j)) →
  (∀ c, br_count g' = Some c → nr (own_node i) = c) →
  (∀ j, j ≠ i ∨ br_member g = true → pv (own_node j) = bn_previous (bv_nodes x) (own_node j)) →
  (br_new g' = true → pv (own_node i) = 0) →
  (br_reads g' = true → br_reads g = true ∨ bv_writer x = 0) →
  br_ok (MkView (bv_readers x) (bv_writer x) (MkMembers nr pv (bn_next (bv_nodes x)))) (<[i := g']> gs) ns h.
Proof.
  intros HO Hi Hg Hg' Hm Hnr Hc Hpv Hnew Hr.
  assert (i ∈ ns ↔ br_member g = true) as Hin.
  { rewrite (bo_member _ _ _ _ HO). split; [|by exists g]. intros (y & Hy & ?). rewrite Hi in Hy. by injection Hy as <-. }
  eapply (br_go x _ gs ns ns h h i g g' HO Hi); cbn.
  - apply (bo_nodup _ _ _ _ HO).
  - intros j. destruct (decide (j = i)) as [->|Hne]; [rewrite Hin, Hm|]; naive_solver.
  - exact Hnr.
  - exact Hc.
  - intros j Hne _. apply Hpv. by left.
  - exact Hnew.
  - apply (bo_head _ _ _ _ HO).
  - apply (bo_writer _ _ _ _ HO).
  - rewrite Hg. by destruct g'.
  - pose proof (bo_shape _ _ _ _ HO) as Hs. pose proof (bo_writer _ _ _ _ HO) as Hw.
    assert (∀ j, j ≠ i ∨ j ∈ ns → pv (own_node j) = bn_previous (bv_nodes x) (own_node j)) as Hpv'.
    { intros j Hj. apply Hpv. destruct (decide (j = i)) as [->|]; [right|by left]. apply Hin. by destruct Hj. }
    destruct h as [[k ph]|].
    + destruct Hs as (-> & Hs & Hq). split; [done|]. split.
      * eapply ph_shape_frame; [|exact Hs]. intros j Hj. cbn. split; [|done]. apply Hpv'.
        destruct Hj as [->|?]; [left|by right]. intros ->. destruct (bo_held _ _ _ _ HO i ph eq_refl) as [b Hb].
        rewrite Hi in Hb. injection Hb as ->. done.
      * intros j y Hj [[-> ->]|[Hne Hy]]%insert_case; [|by apply (Hq j)].
        destruct (br_reads g') eqn:Er; [|done]. destruct (Hr eq_refl) as [Er'|?]; [|congruence].
        rewrite (Hq i g Hj Hi) in Er'. done.
    + eapply br_seg_frame; [|exact Hs]. intros j Hj. cbn. split; [|done]. apply Hpv'. by right.
Qed.

(** The thread with the flag changes the pointers: of readers in the list, and its own. *)
Lemma br_held_go x gs i b ph b' ph' hd pv nx :
  br_ok x gs (ph_readers i ph) (Some (i, ph)) → gs !! i = Some (BrHold b ph) →
  NoDup (ph_readers i ph') →
  (∀ j, j ∈ ph_readers i ph' ↔ j = i ∧ br_member (BrHold b' ph') = true ∨ j ≠ i ∧ j ∈ ph_readers i ph) →
  (b' = BaseOut ∨ b ≠ BaseOut) →
  (∀ j, j ≠ i → j ∉ ph_readers i ph → pv (own_node j) = bn_previous (bv_nodes x) (own_node j)) →
  (b' = BaseNew → pv (own_node i) = 0) →
  hd = br_head 0 (ph_readers i ph') →
  ph_shape (MkMembers (bn_n_readers (bv_nodes x)) pv nx) i ph' →
  (∀ j y, j ∈ ph_seen i ph' → j ≠ i → gs !! j = Some y → br_reads y = false) →
  br_inv (MkView hd (bv_writer x) (MkMembers (bn_n_readers (bv_nodes x)) pv nx)) (<[i := BrHold b' ph']> gs).
Proof.
  intros HO Hi Hnd Hm Hb Hpv Hnew Hhd Hs Hq. exists (ph_readers i ph'), (Some (i, ph')).
  eapply (br_go x _ gs (ph_readers i ph) _ (Some (i, ph)) _ i _ _ HO Hi); cbn.
  - done.
  - exact Hm.
  - done.
  - intros c Hc. apply (bo_count _ _ _ _ HO i _ c Hi). destruct b, b'; cbn in *; naive_solver.
  - exact Hpv.
  - intros Hn. apply Hnew. by destruct b'.
  - exact Hhd.
  - apply (bo_writer _ _ _ _ HO).
  - split; [done|by left].
  - split; [done|]. split; [exact Hs|]. intros j y Hj [[-> ->]|[Hne Hy]]%insert_case; [done|by apply (Hq j)].
Qed.

Lemma br_hold x gs i b ph :
  br_inv x gs → gs !! i = Some (BrHold b ph) → br_ok x gs (ph_readers i ph) (Some (i, ph)).
Proof.
  intros (ns & h & HO) Hi. destruct (bo_holder _ _ _ _ HO i _ Hi eq_refl) as (b' & ph' & [= <- <-] & ->).
  pose proof (bo_shape _ _ _ _ HO) as (-> & _). exact HO.
Qed.

Lemma br_hold_shape x gs i b ph :
  br_inv x gs → gs !! i = Some (BrHold b ph) → ph_shape (bv_nodes x) i ph.
Proof. intros HI Hi. by destruct (bo_shape _ _ _ _ (br_hold _ _ _ _ _ HI Hi)) as (_ & H & _). Qed.

Lemma br_in_list x gs i b ph :
  br_inv x gs → gs !! i = Some (BrHold b ph) → i ∈ ph_readers i ph ↔ b = BaseIn.
Proof.
  intros HI Hi. rewrite (bo_member _ _ _ _ (br_hold _ _ _ _ _ HI Hi)). split; [|intros ->; by eexists].
  intros (y & Hy & Hm). rewrite Hi in Hy. injection Hy as <-. by destruct b.
Qed.

(** The flag is taken. *)
Lemma br_take x gs i b :
  br_inv x gs → gs !! i = Some (br_rest b) → bv_writer x ≠ 1 →
  bv_writer x = 0 ∧ ∃ ns, br_inv (MkView (bv_readers x) 1 (bv_nodes x)) (<[i := BrHold b (PhScan [] ns)]> gs).
Proof.
  intros (ns & h & HO) Hi Hw. pose proof (bo_writer _ _ _ _ HO) as Hw'. destruct h as [p|]; [done|]. split; [done|].
  exists ns, ns, (Some (i, PhScan [] ns)).
  eapply (br_go x _ gs ns ns None _ i _ _ HO Hi); cbn; try done.
  - apply (bo_nodup _ _ _ _ HO).
  - intros j. destruct (decide (j = i)) as [->|Hne]; [|naive_solver]. rewrite (bo_member _ _ _ _ HO), Hi.
    destruct b; cbn; naive_solver.
  - intros c Hc. apply (bo_count _ _ _ _ HO i _ c Hi). by destruct b.
  - intros Hn. apply (bo_new _ _ _ _ HO i _ Hi). by destruct b.
  - apply (bo_head _ _ _ _ HO).
  - split; [done|by right].
  - split; [done|]. split; [apply (bo_shape _ _ _ _ HO)|]. intros j y Hj. by apply elem_of_nil in Hj.
Qed.

(** It is left. *)
Lemma br_leave x gs i b l r :
  br_inv x gs → gs !! i = Some (BrHold b (PhScan l r)) →
  br_inv (MkView (bv_readers x) 0 (bv_nodes x)) (<[i := br_rest b]> gs).
Proof.
  intros HI Hi. pose proof (br_hold _ _ _ _ _ HI Hi) as HO. exists (l ++ r), None.
  eapply (br_go x _ gs (l ++ r) _ _ None i _ _ HO Hi); cbn; try done.
  - apply (bo_nodup _ _ _ _ HO).
  - intros j. destruct (decide (j = i)) as [->|Hne]; [|naive_solver].
    pose proof (br_in_list _ _ _ _ _ HI Hi) as H. cbn in H. rewrite H. destruct b; cbn; naive_solver.
  - intros c Hc. apply (bo_count _ _ _ _ HO i _ c Hi). by destruct b.
  - intros Hn. apply (bo_new _ _ _ _ HO i _ Hi). by destruct b.
  - apply (bo_head _ _ _ _ HO).
  - by destruct b.
  - apply (br_hold_shape _ _ _ _ _ HI Hi).
Qed.

(** The next reader does not read. *)
Lemma br_seen_one x gs i b l j r :
  br_inv x gs → gs !! i = Some (BrHold b (PhScan l (j :: r))) → bn_n_readers (bv_nodes x) (own_node j) = 0 →
  br_inv x (<[i := BrHold b (PhScan (l ++ [j]) r)]> gs).
Proof.
  intros HI Hi H0. pose proof (br_hold _ _ _ _ _ HI Hi) as HO. destruct x as [hd w [nr pv nx]].
  assert (ph_readers i (PhScan (l ++ [j]) r) = ph_readers i (PhScan l (j :: r))) as E by (cbn; by rewrite <- app_assoc).
  apply (br_held_go (MkView hd w (MkMembers nr pv nx)) gs i b (PhScan l (j :: r)) b _ hd pv nx HO Hi); rewrite ?E.
  - apply (bo_nodup _ _ _ _ HO).
  - intros k. destruct (decide (k = i)) as [->|Hne]; [|naive_solver].
    rewrite (br_in_list _ _ _ _ _ HI Hi). destruct b; cbn; naive_solver.
  - by destruct b; [left|right|right].
  - done.
  - intros ->. by apply (bo_new _ _ _ _ HO i _ Hi).
  - apply (bo_head _ _ _ _ HO).
  - pose proof (br_hold_shape _ _ _ _ _ HI Hi) as Hs. cbn in *. by rewrite <- app_assoc.
  - intros k y [Hk| ->%list_elem_of_singleton]%elem_of_app Hne Hy.
    + destruct (bo_shape _ _ _ _ HO) as (_ & _ & Hq). by apply (Hq k).
    + destruct y; try done. pose proof (bo_count _ _ _ _ HO j _ _ Hy eq_refl). cbn in *. lia.
Qed.

(** *** Joining the list, and leaving it *)

Lemma br_quiet x gs i b ph :
  br_inv x gs → gs !! i = Some (BrHold b ph) → ∀ j y, j ∈ ph_seen i ph → gs !! j = Some y → br_reads y = false.
Proof. intros HI Hi. by destruct (bo_shape _ _ _ _ (br_hold _ _ _ _ _ HI Hi)) as (_ & _ & Hq). Qed.

Lemma br_not_in x gs i b ph : br_inv x gs → gs !! i = Some (BrHold b ph) → b ≠ BaseIn → i ∉ ph_readers i ph.
Proof. intros HI Hi Hb Hin. by apply Hb, (br_in_list _ _ _ _ _ HI Hi). Qed.

(** A step that leaves the list and its order as they are. *)
Lemma br_same_list x gs i b ph ph' pv nx :
  br_inv x gs → gs !! i = Some (BrHold b ph) → ph_readers i ph' = ph_readers i ph → ph_seen i ph = ph_readers i ph →
  (∀ j, j ≠ i → j ∉ ph_readers i ph → pv (own_node j) = bn_previous (bv_nodes x) (own_node j)) →
  (b = BaseNew → pv (own_node i) = 0) →
  ph_shape (MkMembers (bn_n_readers (bv_nodes x)) pv nx) i ph' →
  br_inv (MkView (bv_readers x) (bv_writer x) (MkMembers (bn_n_readers (bv_nodes x)) pv nx)) (<[i := BrHold b ph']> gs).
Proof.
  intros HI Hi E Es Hpv Hnew Hs. pose proof (br_hold _ _ _ _ _ HI Hi) as HO.
  apply (br_held_go x gs i b ph b ph' (bv_readers x) pv nx HO Hi); try rewrite E.
  - apply (bo_nodup _ _ _ _ HO).
  - intros k. destruct (decide (k = i)) as [->|Hne]; [|naive_solver].
    rewrite (br_in_list _ _ _ _ _ HI Hi). destruct b; cbn; naive_solver.
  - by destruct b; [left|right|right].
  - exact Hpv.
  - exact Hnew.
  - apply (bo_head _ _ _ _ HO).
  - exact Hs.
  - intros j y Hj _ Hy. apply (br_quiet _ _ _ _ _ HI Hi j y); [|done]. rewrite Es, <- E. destruct ph'; cbn in *; set_solver.
Qed.

Lemma br_link x gs i ns :
  br_inv x gs → gs !! i = Some (BrHold BaseNew (PhScan ns [])) →
  br_inv (MkView (bv_readers x) (bv_writer x) (MkMembers (bn_n_readers (bv_nodes x)) (bn_previous (bv_nodes x))
    (<[(own_node i) := (br_head 0 ns)]> (bn_next (bv_nodes x))))) (<[i := BrHold BaseNew (PhLink ns)]> gs).
Proof.
  intros HI Hi. pose proof (br_hold _ _ _ _ _ HI Hi) as HO. pose proof (br_hold_shape _ _ _ _ _ HI Hi) as Hs.
  assert (i ∉ ns) as Hn by (pose proof (br_not_in _ _ _ _ _ HI Hi) as H; cbn in H; rewrite app_nil_r in H; by apply H).
  eapply br_same_list; [exact HI|exact Hi|by cbn; rewrite app_nil_r|by cbn; rewrite app_nil_r|done| |].
  - intros _. by apply (bo_new _ _ _ _ HO i _ Hi).
  - cbn in Hs |- *. rewrite app_nil_r in Hs. split; [|apply set_own_eq]. eapply br_seg_frame; [|exact Hs].
    intros j Hj. cbn. split; [done|]. apply set_own_ne. by intros ->.
Qed.

Lemma br_linked_nil x gs i :
  br_inv x gs → gs !! i = Some (BrHold BaseNew (PhLink [])) → br_inv x (<[i := BrHold BaseNew (PhLinked [])]> gs).
Proof.
  intros HI Hi. pose proof (br_hold _ _ _ _ _ HI Hi) as HO. pose proof (br_hold_shape _ _ _ _ _ HI Hi) as Hs.
  destruct x as [hd w [nr pv nx]]. eapply (br_same_list (MkView hd w (MkMembers nr pv nx))); try done.
  intros _. by apply (bo_new _ _ _ _ HO i _ Hi).
Qed.

Lemma br_linked x gs i j ns :
  br_inv x gs → gs !! i = Some (BrHold BaseNew (PhLink (j :: ns))) →
  br_inv (MkView (bv_readers x) (bv_writer x) (MkMembers (bn_n_readers (bv_nodes x))
    (<[(own_node j) := (own_node i)]> (bn_previous (bv_nodes x))) (bn_next (bv_nodes x))))
    (<[i := BrHold BaseNew (PhLinked (j :: ns))]> gs).
Proof.
  intros HI Hi. pose proof (br_hold _ _ _ _ _ HI Hi) as HO. pose proof (br_hold_shape _ _ _ _ _ HI Hi) as Hs.
  pose proof (bo_nodup _ _ _ _ HO) as Hnd. apply NoDup_cons in Hnd as [Hj _].
  assert (j ≠ i) as Hne by (intros ->; apply (br_not_in _ _ _ _ _ HI Hi); [done|by left]).
  eapply br_same_list; [exact HI|exact Hi|done|done| | |].
  - intros k Hk Hn. apply set_own_ne. intros ->. apply Hn. by left.
  - intros _. rewrite set_own_ne by done. by apply (bo_new _ _ _ _ HO i _ Hi).
  - cbn in Hs |- *. destruct Hs as [(_ & H2 & H3) H4]. split; [|done]. split; [apply set_own_eq|]. split; [done|].
    eapply br_seg_frame; [|exact H3]. intros k Hk. cbn. split; [|done]. apply set_own_ne. by intros ->.
Qed.

Lemma br_joined x gs i ns :
  br_inv x gs → gs !! i = Some (BrHold BaseNew (PhLinked ns)) →
  br_inv (MkView (own_node i) (bv_writer x) (bv_nodes x)) (<[i := BrHold BaseIn (PhScan (i :: ns) [])]> gs).
Proof.
  intros HI Hi. pose proof (br_hold _ _ _ _ _ HI Hi) as HO. pose proof (br_hold_shape _ _ _ _ _ HI Hi) as Hs.
  destruct x as [hd w [nr pv nx]].
  assert (i ∉ ns) as Hn by (by apply (br_not_in _ _ _ _ _ HI Hi)).
  apply (br_held_go (MkView hd w (MkMembers nr pv nx)) gs i _ _ BaseIn _ _ pv nx HO Hi); cbn; rewrite ?app_nil_r; try done.
  - apply NoDup_cons. split; [done|]. apply (bo_nodup _ _ _ _ HO).
  - intros k. rewrite elem_of_cons. destruct (decide (k = i)); naive_solver.
  - by right.
  - cbn in Hs. destruct Hs as [H1 H2]. split; [|done]. by apply (bo_new _ _ _ _ HO i _ Hi).
  - intros k y [->|Hk]%elem_of_cons Hne Hy; [done|]. by apply (br_quiet _ _ _ _ _ HI Hi k).
Qed.

(** Where a reader is in the list. *)
Lemma br_found x gs i ns :
  br_inv x gs → gs !! i = Some (BrHold BaseIn (PhScan ns [])) →
  ∃ l r, ns = l ++ i :: r ∧ bn_next (bv_nodes x) (own_node i) = br_head 0 r ∧ bn_previous (bv_nodes x) (own_node i) = br_last 0 l.
Proof.
  intros HI Hi. pose proof (br_hold_shape _ _ _ _ _ HI Hi) as Hs. cbn in Hs. rewrite app_nil_r in Hs.
  assert (i ∈ ns) as Hin.
  { pose proof (proj2 (br_in_list _ _ _ _ _ HI Hi) eq_refl) as H. cbn in H. by rewrite app_nil_r in H. }
  apply list_elem_of_split in Hin as (l & r & ->). exists l, r. apply br_seg_app in Hs as (_ & H1 & H2 & _). done.
Qed.

Lemma br_unlinked_nil x gs i l :
  br_inv x gs → gs !! i = Some (BrHold BaseIn (PhScan (l ++ [i]) [])) → br_inv x (<[i := BrHold BaseIn (PhUnlinked l [])]> gs).
Proof.
  intros HI Hi. pose proof (br_hold _ _ _ _ _ HI Hi) as HO. pose proof (br_hold_shape _ _ _ _ _ HI Hi) as Hs.
  destruct x as [hd w [nr pv nx]]. eapply (br_same_list (MkView hd w (MkMembers nr pv nx))); try done.
  - cbn. by rewrite app_nil_r.
  - cbn. by rewrite app_nil_r.
  - cbn in *. rewrite app_nil_r in Hs. apply br_seg_app in Hs as (H1 & H2 & H3 & _). done.
Qed.

Lemma br_unlinked x gs i l j r :
  br_inv x gs → gs !! i = Some (BrHold BaseIn (PhScan (l ++ i :: j :: r) [])) →
  br_inv (MkView (bv_readers x) (bv_writer x) (MkMembers (bn_n_readers (bv_nodes x))
    (<[(own_node j) := (br_last 0 l)]> (bn_previous (bv_nodes x))) (bn_next (bv_nodes x))))
    (<[i := BrHold BaseIn (PhUnlinked l (j :: r))]> gs).
Proof.
  intros HI Hi. pose proof (br_hold _ _ _ _ _ HI Hi) as HO. pose proof (br_hold_shape _ _ _ _ _ HI Hi) as Hs.
  pose proof (bo_nodup _ _ _ _ HO) as Hnd. cbn in Hnd, Hs. rewrite app_nil_r in Hnd, Hs.
  eapply br_same_list; [exact HI|exact Hi|by cbn; rewrite app_nil_r|by cbn; rewrite app_nil_r| |done|].
  - intros k Hk Hn. apply set_own_ne. intros ->. apply Hn. cbn. set_solver.
  - apply NoDup_app in Hnd as (_ & Hl & Hnd). apply NoDup_cons in Hnd as [Hij Hnd]. apply NoDup_cons in Hnd as [Hj _].
    apply br_seg_app in Hs as (H1 & H2 & H3 & H4 & H5 & H6). cbn [ph_shape]. split; [|split; [done|split]].
    + eapply br_seg_frame; [|exact H1]. intros k Hk. cbn. split; [|done]. apply set_own_ne. intros ->.
      apply (Hl k Hk). set_solver.
    + cbn. rewrite set_own_ne; [done|]. intros ->. apply Hij. by left.
    + cbn. split; [apply set_own_eq|]. split; [done|]. eapply br_seg_frame; [|exact H6]. intros k Hk. cbn.
      split; [|done]. apply set_own_ne. by intros ->.
Qed.

(** The thread takes itself out: its reader is no longer in the list. *)
Lemma br_left x gs i l r hd nx :
  br_inv x gs → gs !! i = Some (BrHold BaseIn (PhUnlinked l r)) →
  hd = br_head 0 (l ++ r) → br_seg (MkMembers (bn_n_readers (bv_nodes x)) (bn_previous (bv_nodes x)) nx) 0 (l ++ r) 0 →
  br_inv (MkView hd (bv_writer x) (MkMembers (bn_n_readers (bv_nodes x)) (bn_previous (bv_nodes x)) nx))
    (<[i := BrHold BaseOut (PhScan (l ++ r) [])]> gs).
Proof.
  intros HI Hi Hhd Hs. pose proof (br_hold _ _ _ _ _ HI Hi) as HO. pose proof (bo_nodup _ _ _ _ HO) as Hnd. cbn in Hnd.
  rewrite <- Permutation_middle in Hnd. apply NoDup_cons in Hnd as [Hn Hnd].
  apply (br_held_go x gs i _ _ BaseOut _ _ _ nx HO Hi); cbn; rewrite ?app_nil_r; try done.
  - intros k. destruct (decide (k = i)) as [->|Hne]; [naive_solver|]. rewrite !elem_of_app, elem_of_cons. naive_solver.
  - by left.
  - intros k y Hk Hne Hy. apply (br_quiet _ _ _ _ _ HI Hi k); [|done]. cbn. set_solver.
Qed.

Lemma br_left_head x gs i r :
  br_inv x gs → gs !! i = Some (BrHold BaseIn (PhUnlinked [] r)) →
  br_inv (MkView (br_head 0 r) (bv_writer x) (bv_nodes x)) (<[i := BrHold BaseOut (PhScan r [])]> gs).
Proof.
  intros HI Hi. destruct (br_hold_shape _ _ _ _ _ HI Hi) as (_ & _ & _ & Hs). destruct x as [hd w [nr pv nx]].
  by apply (br_left (MkView hd w (MkMembers nr pv nx)) gs i [] r).
Qed.

Lemma br_left_next x gs i l j r :
  br_inv x gs → gs !! i = Some (BrHold BaseIn (PhUnlinked (l ++ [j]) r)) →
  br_inv (MkView (bv_readers x) (bv_writer x) (MkMembers (bn_n_readers (bv_nodes x)) (bn_previous (bv_nodes x))
    (<[(own_node j) := (br_head 0 r)]> (bn_next (bv_nodes x))))) (<[i := BrHold BaseOut (PhScan (l ++ j :: r) [])]> gs).
Proof.
  intros HI Hi. pose proof (br_hold _ _ _ _ _ HI Hi) as HO. pose proof (bo_nodup _ _ _ _ HO) as Hnd.
  destruct (br_hold_shape _ _ _ _ _ HI Hi) as (H1 & H2 & H3 & H4). rewrite br_last_snoc in H4.
  assert (l ++ j :: r = (l ++ [j]) ++ r) as E by (by rewrite <- app_assoc). rewrite E.
  apply (br_left x gs i (l ++ [j]) r); [done|done| |].
  - rewrite (bo_head _ _ _ _ HO). cbn. by destruct l.
  - cbn in Hnd. rewrite <- app_assoc in Hnd |- *. apply NoDup_app in Hnd as (Hl0 & Hl & Hnd). apply NoDup_cons in Hnd as [Hj Hnd].
    apply br_seg_app in H1 as (H1 & H5 & H6 & _). apply br_seg_app. split.
    + eapply br_seg_frame; [|exact H1]. intros k Hk. cbn. split; [done|]. apply set_own_ne. intros ->. apply (Hl k Hk). by left.
    + cbn. split; [done|]. split; [apply set_own_eq|]. eapply br_seg_frame; [|exact H4]. intros k Hk. cbn. split; [done|].
      apply set_own_ne. intros ->. apply Hj. set_solver.
Qed.

(** ** The operations *)

(** The invariant of the memory: it has the reader of every thread, and the members of the readers are functions of
    which the above holds. *)
Record br_agrees (x : ck_brlock) (v : br_view) : Prop := {
  ba_readers : br_readers x = bv_readers v;
  ba_writer : br_writer x = bv_writer v;
  ba_nodes : mem_agrees (br_nodes x) (bv_nodes v)
}.
Definition br_memory_inv (x : ck_brlock) (gs : list br_ghost) : Prop :=
  ∃ v, br_agrees x v ∧ (∀ i, (i < length gs)%nat → is_Some (br_nodes x !! own_node i)) ∧ br_inv v gs.

(** The thread [i], which is as [g] says, knows of the thread [j]. *)
Definition br_knows (i : nat) (g : br_ghost) (j : nat) : Prop :=
  ∀ v gs, br_inv v gs → gs !! i = Some g → (j < length gs)%nat.

Lemma br_knows_own i g : br_knows i g i.
Proof. intros v gs _ Hi. by eapply lookup_lt_Some. Qed.

Lemma br_knows_listed i b ph j : j ∈ ph_readers i ph → br_knows i (BrHold b ph) j.
Proof.
  intros Hj v gs HI Hi. apply (bo_member _ _ _ _ (br_hold _ _ _ _ _ HI Hi)) in Hj as (g & Hg & _). by eapply lookup_lt_Some.
Qed.

Section operations.
Context (R : list rw_mark → list (br_ghost * rw_role) → Prop) (Rs : rws_stable R).
Abbreviation br_wp := (rws_wp br_memory_inv R).
Abbreviation the_lock := (the_rws (T := ck_brlock)).
Abbreviation my_nodes := (the_lock →' br_nodes_loc).

(** A step at the words of the lock. *)
Lemma br_atomic n i A (f : rws_memory ck_brlock → outcome (A * rws_memory ck_brlock)) (Q : A → br_ghost → Prop) g :
  (∀ hd w m tr v gs, br_inv (MkView hd w v) gs → gs !! i = Some g →
     ∃ a hd' w' g', f (MkBrlock hd w m, tr) = Ret (a, (MkBrlock hd' w' m, tr)) ∧
       br_inv (MkView hd' w' v) (<[i := g']> gs) ∧ Q a g') →
  br_wp n (atomic f) i Q g.
Proof using Rs.
  intros H. apply outside_wp_atomic; [done|]. intros [hd w m] tr gs ([hd0 w0 v] & [E1 E2 Hm] & Hd & HI) Hi.
  cbn in E1, E2, Hm, Hd. subst hd0 w0. destruct (H hd w m tr v gs HI Hi) as (a & hd' & w' & g' & E & HI' & HQ).
  exists a, (MkBrlock hd' w' m), g'. split; [done|]. split; [|done].
  exists (MkView hd' w' v). split; [by split|]. split; [|done]. by rewrite length_insert.
Qed.

(** What a thread reads of them, and where that takes it. *)
Lemma br_look n i A (h : Z → Z → A) f (Q : A → br_ghost → Prop) g :
  (∀ x tr, f (x, tr) = Ret (h (br_readers x) (br_writer x), (x, tr))) →
  (∀ v gs, br_inv v gs → gs !! i = Some g → ∃ g', br_inv v (<[i := g']> gs) ∧ Q (h (bv_readers v) (bv_writer v)) g') →
  br_wp n (atomic f) i Q g.
Proof using Rs.
  intros Hf H. apply br_atomic. intros hd w m tr v gs HI Hi. destruct (H _ _ HI Hi) as (g' & HI' & HQ).
  exists (h hd w), hd, w, g'. by rewrite Hf.
Qed.

Lemma br_look_same n i A (h : Z → Z → A) f (Q : A → br_ghost → Prop) g :
  (∀ x tr, f (x, tr) = Ret (h (br_readers x) (br_writer x), (x, tr))) →
  (∀ v gs, br_inv v gs → gs !! i = Some g → Q (h (bv_readers v) (bv_writer v)) g) →
  br_wp n (atomic f) i Q g.
Proof using Rs. intros Hf H. apply (br_look _ _ _ h); [done|]. intros v gs HI Hi. exists g. rewrite list_insert_id by done. eauto. Qed.

(** A member of the reader of a thread is read; is written. *)
Lemma br_get_wp n i m vm `{!MemberView m vm} j (Q : Z → br_ghost → Prop) g :
  br_knows i g j →
  (∀ v gs, br_inv v gs → gs !! i = Some g → ∃ g', br_inv v (<[i := g']> gs) ∧ Q (loc_get vm (bv_nodes v) (own_node j)) g') →
  br_wp n (get_at my_nodes m (own_node j)) i Q g.
Proof using Rs.
  intros Hj H. apply outside_wp_atomic; [done|]. intros x tr gs (v & Ha & Hd & HI) Hi.
  destruct (H v gs HI Hi) as (g' & HI' & HQ). rewrite <- (mv_get (m := m)) in HQ.
  eexists _, x, g'. split.
  { cbn. rewrite (agrees_deref (br_nodes x) (bv_nodes v));
      [reflexivity | apply Ha | apply own_node_pos | by apply Hd, (Hj v gs)]. }
  split; [|exact HQ]. exists v. split; [done|]. split; [by rewrite length_insert|done].
Qed.

Lemma br_get_same_wp n i m vm `{!MemberView m vm} j (Q : Z → br_ghost → Prop) g :
  br_knows i g j →
  (∀ v gs, br_inv v gs → gs !! i = Some g → Q (loc_get vm (bv_nodes v) (own_node j)) g) →
  br_wp n (get_at my_nodes m (own_node j)) i Q g.
Proof using Rs.
  intros Hj H. apply (br_get_wp _ _ _ vm); [done|]. intros v gs HI Hi. exists g. rewrite list_insert_id by done. eauto.
Qed.

Definition br_set (vm : loc br_members (Z → Z)) (p x : Z) (v : br_view) : br_view :=
  MkView (bv_readers v) (bv_writer v) (loc_set vm (<[p := x]> (loc_get vm (bv_nodes v))) (bv_nodes v)).

(** The memory after a store agrees with the functions after it, and has the same readers. *)
Lemma br_store_inv m vm `{!MemberView m vm} x v (gs gs' : list br_ghost) p y :
  br_agrees x v → (∀ i, (i < length gs)%nat → is_Some (br_nodes x !! own_node i)) → length gs' = length gs →
  br_inv (br_set vm p y v) gs' →
  br_memory_inv (MkBrlock (br_readers x) (br_writer x) (<[p := loc_set m y (node_at (bv_nodes v) p)]> (br_nodes x))) gs'.
Proof.
  intros [E1 E2 Hm] Hd El HI. exists (br_set vm p y v). split; [split; [done..|by apply agrees_put]|]. split; [|done].
  intros i Hi. cbn. apply lookup_insert_is_Some'. right. apply Hd. by rewrite <- El.
Qed.

Lemma br_put_wp n i m vm `{!MemberView m vm} j y g g' :
  br_knows i g j →
  (∀ v gs, br_inv v gs → gs !! i = Some g → br_inv (br_set vm (own_node j) y v) (<[i := g']> gs)) →
  br_wp n (put_at my_nodes m (own_node j) y) i (λ _ z, z = g') g.
Proof using Rs.
  intros Hj H. apply outside_wp_atomic; [done|]. intros x tr gs (v & Ha & Hd & HI) Hi.
  eexists tt, _, g'. split.
  { cbn. rewrite (agrees_deref (br_nodes x) (bv_nodes v));
      [reflexivity | apply Ha | apply own_node_pos | by apply Hd, (Hj v gs)]. }
  split; [|done]. apply (br_store_inv m vm x v gs); [done|done|by rewrite length_insert|by apply H].
Qed.

Lemma br_fas_wp n i m vm `{!MemberView m vm} j y g g' :
  br_knows i g j →
  (∀ v gs, br_inv v gs → gs !! i = Some g → br_inv (br_set vm (own_node j) y v) (<[i := g']> gs)) →
  br_wp n (fas_at my_nodes m (own_node j) y) i (λ _ z, z = g') g.
Proof using Rs.
  intros Hj H. apply outside_wp_atomic; [done|]. intros x tr gs (v & Ha & Hd & HI) Hi.
  eexists _, _, g'. split.
  { cbn. rewrite (agrees_deref (br_nodes x) (bv_nodes v));
      [reflexivity | apply Ha | apply own_node_pos | by apply Hd, (Hj v gs)]. }
  split; [|done]. apply (br_store_inv m vm x v gs); [done|done|by rewrite length_insert|by apply H].
Qed.

(** *** The flag *)

Lemma br_swap_wp n i b :
  br_wp n (ck_pr_fas (the_lock →' br_writer_loc) 1) i
    (λ v y, if v =? 1 then y = br_rest b else ∃ ns, y = BrHold b (PhScan [] ns)) (br_rest b).
Proof using Rs.
  apply br_atomic. intros hd w m tr v gs HI Hi. destruct (Z.eqb_spec w 1) as [->|Hw].
  - exists 1, hd, 1, (br_rest b). by rewrite list_insert_id.
  - destruct (br_take _ _ _ _ HI Hi Hw) as (E & ns & HI'). cbn in E. subst w.
    exists 0, hd, 1, (BrHold b (PhScan [] ns)). split; [done|]. split; [done|]. by exists ns.
Qed.

Lemma br_head_wp n i b ph :
  br_wp n (ck_pr_load (the_lock →' br_readers_loc)) i (λ v y, v = br_head 0 (ph_readers i ph) ∧ y = BrHold b ph) (BrHold b ph).
Proof using Rs.
  apply (br_look_same _ _ _ (λ hd _, hd)); [done|]. intros x gs HI Hi. split; [|done]. apply (bo_head _ _ _ _ (br_hold _ _ _ _ _ HI Hi)).
Qed.

Lemma br_see_wp n i b l j r :
  br_wp n (v ← get_at my_nodes n_readers (own_node j); mret (negb (v =? 0))) i
    (λ c y, y = if (c : bool) then BrHold b (PhScan l (j :: r)) else BrHold b (PhScan (l ++ [j]) r)) (BrHold b (PhScan l (j :: r))).
Proof using Rs.
  apply outside_wp_bind, (br_get_wp _ _ _ bn_n_readers_loc); [apply br_knows_listed; set_solver|]. intros x gs HI Hi. cbn.
  destruct (Z.eqb_spec (bn_n_readers (bv_nodes x) (own_node j)) 0) as [E|E].
  - exists (BrHold b (PhScan (l ++ [j]) r)). split; [by apply br_seen_one|]. by apply outside_wp_ret.
  - exists (BrHold b (PhScan l (j :: r))). rewrite list_insert_id by done. split; [done|]. by apply outside_wp_ret.
Qed.

Lemma br_next_wp n i b l j r :
  br_wp n (get_at my_nodes next (own_node j)) i (λ v y, v = br_head 0 r ∧ y = BrHold b (PhScan (l ++ [j]) r)) (BrHold b (PhScan (l ++ [j]) r)).
Proof using Rs.
  apply (br_get_same_wp _ _ _ bn_next_loc); [apply br_knows_listed; set_solver|]. intros x gs HI Hi. split; [|done].
  pose proof (br_hold_shape _ _ _ _ _ HI Hi) as Hs. cbn in Hs. rewrite <- app_assoc in Hs.
  by apply br_seg_app in Hs as (_ & _ & H & _).
Qed.

Lemma br_write_unlock_wp n i b l r :
  br_wp n (ck_brlock_write_unlock the_lock) i (λ _ y, y = br_rest b) (BrHold b (PhScan l r)).
Proof using Rs.
  apply br_atomic. intros hd w m tr v gs HI Hi. exists tt, hd, 0, (br_rest b).
  split; [done|]. split; [|done]. by apply (br_leave _ _ _ _ _ _ HI Hi).
Qed.

(** The thread has the flag, and nobody reads. *)
Definition br_alone (b : br_base) (g : br_ghost) : Prop := ∃ ns, g = BrHold b (PhScan ns []).

Lemma br_wait_wp n i b l r :
  br_wp n (wait_readers the_lock (br_head 0 r)) i (λ _, br_alone b) (BrHold b (PhScan l r)).
Proof using Rs.
  apply (outside_wp_loop _ _ _ _ _ _ _ (λ c y, ∃ l r, c = br_head 0 r ∧ y = BrHold b (PhScan l r))); [by exists l, r|].
  clear l r. intros m c y (l & r & -> & ->). rewrite br_head_eqb. destruct r as [|j r]; [apply outside_wp_ret; by exists l|].
  apply outside_wp_bind. eapply outside_wp_mono.
  { apply (outside_wp_while _ _ _ _ _ _ (λ y, y = BrHold b (PhScan l (j :: r))) _ (λ _ y, y = BrHold b (PhScan (l ++ [j]) r))); [done|].
    intros m' y ->. eapply outside_wp_mono; [apply br_see_wp|]. intros [] y ->; [by apply outside_wp_stall|done]. }
  intros _ y ->. apply outside_wp_bind. eapply outside_wp_mono; [apply br_next_wp|]. intros v y [-> ->].
  apply outside_wp_ret. by exists (l ++ [j]), r.
Qed.

Lemma br_write_lock_wp n i b : br_wp n (ck_brlock_write_lock the_lock) i (λ _, br_alone b) (br_rest b).
Proof using Rs.
  apply outside_wp_bind. eapply outside_wp_mono.
  { apply (outside_wp_while _ _ _ _ _ _ (λ y, y = br_rest b) _ (λ _ y, ∃ ns, y = BrHold b (PhScan [] ns))); [done|].
    intros m y ->. apply outside_wp_bind. eapply outside_wp_mono; [apply br_swap_wp|]. intros v y Hy.
    apply outside_wp_ret. cbv beta in Hy. by destruct (v =? 1); [apply outside_wp_stall|]. }
  intros _ y [ns ->]. apply outside_wp_bind. eapply outside_wp_mono; [apply br_head_wp|]. intros v y [-> ->].
  apply br_wait_wp.
Qed.

(** *** Trying *)

Lemma br_try_while_wp n i factor c (P : br_ghost → Prop) (Q : option Z → br_ghost → Prop) steps g :
  P g → (∀ m g, P g → br_wp m c i (λ b g', if (b : bool) then P g' else ∀ s, Q (Some s) g') g) → (∀ g, P g → Q None g) →
  br_wp n (try_while factor c steps) i Q g.
Proof using Rs.
  intros HP Hc HQ. apply (outside_wp_loop _ _ _ _ _ _ _ (λ _, P)); [done|]. intros m s y Hy.
  apply outside_wp_bind. eapply outside_wp_mono; [by apply Hc|]. intros [] y' Hy'; [|by apply outside_wp_ret].
  cbn. destruct (factor <=? _); [apply outside_wp_ret; by apply HQ|]. apply outside_wp_bind, outside_wp_stall.
  by apply outside_wp_ret.
Qed.

Lemma br_try_readers_wp n i factor b l r steps :
  br_wp n (try_readers the_lock factor (br_head 0 r, steps)) i
    (λ ok y, if (ok : bool) then br_alone b y else y = br_rest b) (BrHold b (PhScan l r)).
Proof using Rs.
  apply (outside_wp_loop _ _ _ _ _ _ _ (λ c y, ∃ l r, c.1 = br_head 0 r ∧ y = BrHold b (PhScan l r))); [by exists l, r|].
  clear l r steps. intros m [c steps] y (l & r & E & ->). cbn in E. subst c. rewrite br_head_eqb.
  destruct r as [|j r]; [apply outside_wp_ret; by exists l|].
  apply outside_wp_bind. eapply outside_wp_mono.
  { apply (br_try_while_wp _ _ _ _ (λ y, y = BrHold b (PhScan l (j :: r)))
      (λ o y, y = match o with Some _ => BrHold b (PhScan (l ++ [j]) r) | None => BrHold b (PhScan l (j :: r)) end)); [done| |by intros g ->].
    intros m' y ->. eapply outside_wp_mono; [apply br_see_wp|]. by intros [] y ->. }
  intros [s|] y ->.
  - apply outside_wp_bind. eapply outside_wp_mono; [apply br_next_wp|]. intros v y [-> ->].
    apply outside_wp_ret. by exists (l ++ [j]), r.
  - apply outside_wp_bind. eapply outside_wp_mono; [apply br_write_unlock_wp|]. intros _ y ->. by apply outside_wp_ret.
Qed.

Lemma br_write_trylock_wp n i factor b :
  br_wp n (ck_brlock_write_trylock the_lock factor) i (λ ok y, if (ok : bool) then br_alone b y else y = br_rest b) (br_rest b).
Proof using Rs.
  apply outside_wp_bind. eapply outside_wp_mono.
  { apply (br_try_while_wp _ _ _ _ (λ y, y = br_rest b)
      (λ o y, match o with Some _ => ∃ ns, y = BrHold b (PhScan [] ns) | None => y = br_rest b end)); [done| |done].
    intros m y ->. apply outside_wp_bind. eapply outside_wp_mono; [apply br_swap_wp|]. intros v y Hy.
    apply outside_wp_ret. cbv beta in Hy. by destruct (v =? 1). }
  intros [s|] y Hy; [|by apply outside_wp_ret]. destruct Hy as [ns ->].
  apply outside_wp_bind. eapply outside_wp_mono; [apply br_head_wp|]. intros v y [-> ->]. apply br_try_readers_wp.
Qed.

(** *** The list *)

(** A change of the thread's own reader, outside the list or of its count. *)
Lemma br_own_put_wp n i m vm `{!MemberView m vm} v g g' :
  (∀ x gs ns h, br_ok x gs ns h → gs !! i = Some g → br_ok (br_set vm (own_node i) v x) (<[i := g']> gs) ns h) →
  br_wp n (put_at my_nodes m (own_node i) v) i (λ _ y, y = g') g.
Proof using Rs. intros H. apply (br_put_wp _ _ _ vm); [apply br_knows_own|]. intros x gs (ns & h & HO) Hi. exists ns, h. by apply H. Qed.

(** The thread sets its count. *)
Lemma br_count_ok x gs ns h i g g' v :
  br_ok x gs ns h → gs !! i = Some g → br_holds g = false → br_holds g' = false → br_member g' = br_member g →
  br_new g' = false → (∀ c, br_count g' = Some c → c = v) → (br_reads g' = true → br_reads g = true) →
  br_ok (br_set bn_n_readers_loc (own_node i) v x) (<[i := g']> gs) ns h.
Proof.
  intros HO Hi H1 H2 H3 H4 H5 H6. eapply br_own; [exact HO|exact Hi|done|done|done| | |done|congruence|by left; auto].
  - intros j Hne. by apply set_own_ne.
  - intros c Hc. cbn. rewrite set_own_eq. symmetry. by apply H5.
Qed.

Lemma br_clear_wp n i : br_wp n (put_at my_nodes n_readers (own_node i) 0) i (λ _ y, y = BrZero) BrOut.
Proof using Rs. apply (br_own_put_wp _ _ _ bn_n_readers_loc). intros x gs ns h HO Hi. by eapply br_count_ok; [exact HO|exact Hi|..]; try naive_solver. Qed.

Lemma br_clear_previous_wp n i : br_wp n (put_at my_nodes previous (own_node i) 0) i (λ _ y, y = BrNew) BrZero.
Proof using Rs.
  apply (br_own_put_wp _ _ _ bn_previous_loc). intros x gs ns h HO Hi. eapply br_own; [exact HO|exact Hi|done..| | | |done].
  - intros c [= <-]. by apply (bo_count _ _ _ _ HO i _ _ Hi).
  - intros j [Hne|?]; [by apply set_own_ne|done].
  - intros _. apply set_own_eq.
Qed.

Lemma br_read_register_wp n i : br_wp n (ck_brlock_read_register the_lock (own_node i)) i (λ _ y, y = BrIn) BrOut.
Proof using Rs.
  apply outside_wp_bind. eapply outside_wp_mono; [apply br_clear_wp|]. intros _ y ->.
  apply outside_wp_bind. eapply outside_wp_mono; [apply br_clear_previous_wp|]. intros _ y ->.
  apply outside_wp_bind. eapply outside_wp_mono; [apply (br_write_lock_wp _ _ BaseNew)|]. intros _ y [ns ->].
  apply outside_wp_bind. eapply outside_wp_mono; [apply br_head_wp|]. intros f y [Ef ->]. cbn in Ef.
  rewrite app_nil_r in Ef. subst f.
  apply outside_wp_bind. eapply outside_wp_mono.
  { apply (br_put_wp _ _ _ bn_next_loc _ _ _ (BrHold BaseNew (PhLink ns))); [apply br_knows_own|]. intros x gs HI Hi. by apply br_link. }
  intros _ y ->. apply outside_wp_bind.
  apply (outside_wp_mono _ _ _ _ _ _ _ (λ v y, v = br_head 0 ns ∧ y = BrHold BaseNew (match ns with [] => PhLinked [] | _ => PhLink ns end))).
  { apply (br_get_wp _ _ _ bn_next_loc); [apply br_knows_own|]. intros x gs HI Hi.
    destruct (br_hold_shape _ _ _ _ _ HI Hi) as [_ Hn]. destruct ns as [|j ns].
    - eexists. split; [by apply br_linked_nil|]. done.
    - eexists. rewrite list_insert_id by exact Hi. by split. }
  intros v y [-> ->]. rewrite br_head_eqb. apply outside_wp_bind.
  apply (outside_wp_mono _ _ _ _ _ _ _ (λ _ y, y = BrHold BaseNew (PhLinked ns))).
  { destruct ns as [|j ns]; cbn [negb]; [by apply outside_wp_ret|]. apply outside_wp_bind, (br_get_same_wp _ _ _ bn_next_loc); [apply br_knows_own|].
    intros x gs HI Hi. destruct (br_hold_shape _ _ _ _ _ HI Hi) as [_ Hn]. change (loc_get bn_next_loc (bv_nodes x) (own_node i) = own_node j) in Hn. rewrite Hn.
    apply (br_put_wp _ _ _ bn_previous_loc); [apply br_knows_listed; by left|]. intros x' gs' HI' Hi'. by apply br_linked. }
  intros _ y ->. apply outside_wp_bind.
  apply (outside_wp_mono _ _ _ _ _ _ _ (λ _ y, y = BrHold BaseIn (PhScan (i :: ns) []))).
  { apply br_atomic. intros hd w m tr v gs HI Hi. eexists tt, (own_node i), w, _.
    split; [done|]. split; [|done]. by apply (br_joined _ _ _ _ HI Hi). }
  intros _ y ->. eapply outside_wp_mono; [apply br_write_unlock_wp|]. by intros _ y ->.
Qed.

(** Its place in the list, found at the first reading. *)
Definition br_found_at (i : nat) (v : Z) (g : br_ghost) (l r : list nat) : Prop :=
  v = br_head 0 r ∧ g = BrHold BaseIn (match r with [] => PhUnlinked l [] | _ => PhScan (l ++ i :: r) [] end).

Lemma br_find_wp n i ns :
  br_wp n (get_at my_nodes next (own_node i)) i (λ v y, ∃ l r, br_found_at i v y l r) (BrHold BaseIn (PhScan ns [])).
Proof using Rs.
  apply (br_get_wp _ _ _ bn_next_loc); [apply br_knows_own|]. intros x gs HI Hi. destruct (br_found _ _ _ _ HI Hi) as (l & r & -> & Hn & _). destruct r as [|j r].
  - eexists. split; [by apply br_unlinked_nil|]. by exists l, [].
  - exists (BrHold BaseIn (PhScan (l ++ i :: j :: r) [])). rewrite list_insert_id by exact Hi. split; [done|]. by exists l, (j :: r).
Qed.

(** The next reader no longer points to it. *)
Lemma br_unlink_next_wp n i v g l r :
  br_found_at i v g l r →
  br_wp n (if negb (v =? 0) then n ← get_at my_nodes next (own_node i); p ← get_at my_nodes previous (own_node i); put_at my_nodes previous n p
           else mret tt) i (λ _ y, y = BrHold BaseIn (PhUnlinked l r)) g.
Proof using Rs.
  intros [-> ->]. rewrite br_head_eqb. destruct r as [|j r]; cbn [negb]; [by apply outside_wp_ret|].
  assert (∀ x gs, br_inv x gs → gs !! i = Some (BrHold BaseIn (PhScan (l ++ i :: j :: r) [])) →
    loc_get bn_next_loc (bv_nodes x) (own_node i) = own_node j ∧ loc_get bn_previous_loc (bv_nodes x) (own_node i) = br_last 0 l) as Hat.
  { intros x gs HI Hi. pose proof (br_hold_shape _ _ _ _ _ HI Hi) as Hs. cbn in Hs. rewrite app_nil_r in Hs.
    by apply br_seg_app in Hs as (_ & H1 & H2 & _). }
  apply outside_wp_bind, (br_get_same_wp _ _ _ bn_next_loc); [apply br_knows_own|]. intros x gs HI Hi.
  destruct (Hat _ _ HI Hi) as [E _]. rewrite E. clear x gs HI Hi E.
  apply outside_wp_bind, (br_get_same_wp _ _ _ bn_previous_loc); [apply br_knows_own|]. intros x gs HI Hi.
  destruct (Hat _ _ HI Hi) as [_ E]. rewrite E. clear x gs HI Hi E.
  apply (br_put_wp _ _ _ bn_previous_loc); [apply br_knows_listed; cbn; set_solver|]. intros x gs HI Hi. by apply br_unlinked.
Qed.

(** Nor does the previous, or the lock. *)
Lemma br_unlinked_reads x gs i b l r :
  br_inv x gs → gs !! i = Some (BrHold b (PhUnlinked l r)) →
  loc_get bn_next_loc (bv_nodes x) (own_node i) = br_head 0 r ∧ loc_get bn_previous_loc (bv_nodes x) (own_node i) = br_last 0 l.
Proof. intros HI Hi. by destruct (br_hold_shape _ _ _ _ _ HI Hi) as (_ & H1 & H2 & _). Qed.

Lemma br_unlink_previous_wp n i l r :
  br_wp n (if negb (br_last 0 l =? 0)
           then p ← get_at my_nodes previous (own_node i); n ← get_at my_nodes next (own_node i); put_at my_nodes next p n
           else n ← get_at my_nodes next (own_node i); ck_pr_store (the_lock →' br_readers_loc) n) i
    (λ _, br_alone BaseOut) (BrHold BaseIn (PhUnlinked l r)).
Proof using Rs.
  destruct (br_last_cases l) as [[-> E]|(l' & j & -> & E)]; rewrite E.
  - change (0 =? 0) with true. cbn [negb]. apply outside_wp_bind, (br_get_same_wp _ _ _ bn_next_loc); [apply br_knows_own|].
    intros x gs HI Hi. rewrite (proj1 (br_unlinked_reads _ _ _ _ _ _ HI Hi)). clear x gs HI Hi.
    apply br_atomic. intros hd w m tr v gs HI Hi. exists tt, (br_head 0 r), w, (BrHold BaseOut (PhScan r [])).
    split; [done|]. split; [by apply (br_left_head _ _ _ _ HI Hi)|]. by exists r.
  - rewrite (proj2 (Z.eqb_neq _ _) (own_node_pos j)). cbn [negb].
    apply outside_wp_bind, (br_get_same_wp _ _ _ bn_previous_loc); [apply br_knows_own|]. intros x gs HI Hi.
    rewrite (proj2 (br_unlinked_reads _ _ _ _ _ _ HI Hi)), E.
    clear x gs HI Hi. apply outside_wp_bind, (br_get_same_wp _ _ _ bn_next_loc); [apply br_knows_own|]. intros x gs HI Hi.
    rewrite (proj1 (br_unlinked_reads _ _ _ _ _ _ HI Hi)). clear x gs HI Hi. eapply outside_wp_mono.
    { apply (br_put_wp _ _ _ bn_next_loc); [apply br_knows_listed; cbn; set_solver|]. intros x gs HI Hi. by apply br_left_next. }
    intros _ y ->. by eexists.
Qed.

Lemma br_read_unregister_wp n i : br_wp n (ck_brlock_read_unregister the_lock (own_node i)) i (λ _ y, y = BrOut) BrIn.
Proof using Rs.
  apply outside_wp_bind. eapply outside_wp_mono; [apply (br_write_lock_wp _ _ BaseIn)|]. intros _ y [ns ->].
  apply outside_wp_bind. eapply outside_wp_mono; [apply br_find_wp|]. intros v y (l & r & Hf).
  apply outside_wp_bind. eapply outside_wp_mono; [by apply br_unlink_next_wp|]. intros _ y' ->.
  apply outside_wp_bind, (br_get_same_wp _ _ _ bn_previous_loc); [apply br_knows_own|]. intros x gs HI Hi.
  rewrite (proj2 (br_unlinked_reads _ _ _ _ _ _ HI Hi)). clear x gs HI Hi. apply outside_wp_bind. eapply outside_wp_mono; [apply br_unlink_previous_wp|].
  intros _ y2 [ns' ->]. eapply outside_wp_mono; [apply br_write_unlock_wp|]. by intros _ y3 ->.
Qed.

(** *** Reading *)

Lemma br_get_count_wp n i c g :
  br_count g = Some c → br_wp n (get_at my_nodes n_readers (own_node i)) i (λ v y, v = c ∧ y = g) g.
Proof using Rs.
  intros Hc. apply (br_get_same_wp _ _ _ bn_n_readers_loc); [apply br_knows_own|]. intros x gs (ns & h & HO) Hi. split; [|done].
  by apply (bo_count _ _ _ _ HO i g).
Qed.

Lemma br_put_count_wp n i g g' v :
  br_holds g = false → br_holds g' = false → br_member g' = br_member g → br_new g' = false →
  (∀ c, br_count g' = Some c → c = v) → (br_reads g' = true → br_reads g = true) →
  br_wp n (put_at my_nodes n_readers (own_node i) v) i (λ _ y, y = g') g.
Proof using Rs. intros. apply (br_own_put_wp _ _ _ bn_n_readers_loc). intros x gs ns h HO Hi. by eapply br_count_ok. Qed.

(** It has published that it reads; it sees whether there is a writer. *)
Lemma br_publish_wp n i : br_wp n (fas_at my_nodes n_readers (own_node i) 1) i (λ _ y, y = BrSet) BrIn.
Proof using Rs.
  apply (br_fas_wp _ _ _ bn_n_readers_loc); [apply br_knows_own|]. intros x gs (ns & h & HO) Hi. exists ns, h.
  by eapply br_count_ok; [exact HO|exact Hi|..]; try naive_solver.
Qed.

Lemma br_check_wp n i :
  br_wp n (ck_pr_load (the_lock →' br_writer_loc)) i (λ v y, y = if v =? 0 then BrRead 0 else BrSet) BrSet.
Proof using Rs.
  apply (br_look _ _ _ (λ _ w, w)); [done|]. intros [hd w [nr pv nx]] gs (ns & h & HO) Hi. cbn. destruct (Z.eqb_spec w 0) as [->|Hw].
  - exists (BrRead 0). split; [|done]. exists ns, h.
    apply (br_own (MkView hd 0 (MkMembers nr pv nx)) _ _ _ _ _ _ nr pv HO Hi); try done.
    + intros c [= <-]. by apply (bo_count _ _ _ _ HO i _ _ Hi).
    + intros _. by right.
  - exists BrSet. rewrite list_insert_id by done. split; [by exists ns, h|done].
Qed.

Lemma br_writer_wp n i g : br_wp n (v ← ck_pr_load (the_lock →' br_writer_loc); mret (v =? 1)) i (λ _ y, y = g) g.
Proof using Rs. apply outside_wp_bind, (br_look_same _ _ _ (λ _ w, w)); [done|]. intros x gs HI Hi. by apply outside_wp_ret. Qed.

Lemma br_read_lock_wp n i : br_wp n (ck_brlock_read_lock the_lock (own_node i)) i (λ _ y, y = BrRead 0) BrIn.
Proof using Rs.
  apply outside_wp_bind. eapply outside_wp_mono; [by apply br_get_count_wp|]. intros v y [-> ->].
  change (1 <=? 0) with false. cbv iota. apply (outside_wp_loop _ _ _ _ _ _ _ (λ _ y, y = BrIn)); [done|]. intros m _ y ->.
  apply outside_wp_bind. eapply outside_wp_mono.
  { apply (outside_wp_while _ _ _ _ _ _ (λ y, y = BrIn) _ (λ _ y, y = BrIn)); [done|]. intros m' y ->.
    eapply outside_wp_mono; [apply br_writer_wp|]. intros [] y ->; [by apply outside_wp_stall|done]. }
  intros _ y ->. apply outside_wp_bind. eapply outside_wp_mono; [apply br_publish_wp|]. intros _ y ->.
  apply outside_wp_bind. eapply outside_wp_mono; [apply br_check_wp|]. intros v y ->.
  destruct (v =? 0); [by apply outside_wp_ret|]. apply outside_wp_bind.
  eapply outside_wp_mono; [apply (br_put_count_wp _ _ _ BrIn); naive_solver|]. intros _ y ->. by apply outside_wp_ret.
Qed.

Lemma br_read_trylock_wp n i factor :
  br_wp n (ck_brlock_read_trylock the_lock (own_node i) factor) i (λ ok y, y = if (ok : bool) then BrRead 0 else BrIn) BrIn.
Proof using Rs.
  apply outside_wp_bind. eapply outside_wp_mono; [by apply br_get_count_wp|]. intros v y [-> ->].
  change (1 <=? 0) with false. cbv iota. apply (outside_wp_loop _ _ _ _ _ _ _ (λ _ y, y = BrIn)); [done|]. intros m steps y ->.
  apply outside_wp_bind. eapply outside_wp_mono.
  { apply (br_try_while_wp _ _ _ _ (λ y, y = BrIn) (λ _ y, y = BrIn)); [done| |done]. intros m' y ->.
    eapply outside_wp_mono; [apply br_writer_wp|]. by intros [] y ->. }
  intros [s|] y ->; [|by apply outside_wp_ret]. apply outside_wp_bind.
  eapply outside_wp_mono; [apply br_publish_wp|]. intros _ y ->.
  apply outside_wp_bind. eapply outside_wp_mono; [apply br_check_wp|]. intros v y ->.
  destruct (v =? 0); [by apply outside_wp_ret|]. apply outside_wp_bind.
  eapply outside_wp_mono; [apply (br_put_count_wp _ _ _ BrIn); naive_solver|]. intros _ y ->. apply outside_wp_ret.
  by destruct (factor <=? _).
Qed.

(** Once more, and once less. *)
Lemma br_again_wp n i {A} (k : prog (rws_memory ck_brlock) A) (Q : A → br_ghost → Prop) :
  (br_wp n k i Q (BrRead 1)) →
  br_wp n (n ← get_at my_nodes n_readers (own_node i); put_at my_nodes n_readers (own_node i) (u32 (n + 1));; k) i Q (BrRead 0).
Proof using Rs.
  intros Hk. apply outside_wp_bind. eapply outside_wp_mono; [by apply br_get_count_wp|]. intros v y [-> ->].
  apply outside_wp_bind. eapply outside_wp_mono; [apply (br_put_count_wp _ _ _ (BrRead 1)); try done; by intros c [= <-]|].
  by intros _ y ->.
Qed.

Lemma br_read_lock_again_wp n i : br_wp n (ck_brlock_read_lock the_lock (own_node i)) i (λ _ y, y = BrRead 1) (BrRead 0).
Proof using Rs.
  apply outside_wp_bind. eapply outside_wp_mono; [by apply br_get_count_wp|]. intros v y [-> ->].
  change (1 <=? Z.of_nat 0 + 1) with true. cbv iota.
  apply outside_wp_bind. eapply outside_wp_mono; [by apply br_get_count_wp|]. intros v y [-> ->].
  apply br_put_count_wp; try done. by intros c [= <-].
Qed.

Lemma br_read_trylock_again_wp n i factor :
  br_wp n (ck_brlock_read_trylock the_lock (own_node i) factor) i (λ ok y, y = BrRead 1) (BrRead 0).
Proof using Rs.
  apply outside_wp_bind. eapply outside_wp_mono; [by apply br_get_count_wp|]. intros v y [-> ->].
  change (1 <=? Z.of_nat 0 + 1) with true. cbv iota. apply br_again_wp. by apply outside_wp_ret.
Qed.

Lemma br_read_unlock_wp n i c :
  (c ≤ 1)%nat →
  br_wp n (ck_brlock_read_unlock the_lock (own_node i)) i (λ _ y, y = match c with O => BrIn | S c => BrRead c end) (BrRead c).
Proof using Rs.
  intros Hc. apply outside_wp_bind. eapply outside_wp_mono; [by apply br_get_count_wp|]. intros v y [-> ->].
  destruct c as [|[|c]]; [| |lia]; apply br_put_count_wp; try done; by intros ? [= <-].
Qed.
End operations.

(** ** The laws *)

(** The members that are in the memory, whatever they are elsewhere. *)
Definition br_members_in (ns : gmap Z ck_brlock_reader) : br_members :=
  let f (m : ck_brlock_reader → Z) (p : Z) := default 0 (m <$> ns !! p) in MkMembers (f rd_n_readers) (f rd_previous) (f rd_next).

Lemma br_members_in_agree ns : mem_agrees ns (br_members_in ns).
Proof. intros p [a b c] E. unfold node_at, br_members_of. cbn. by rewrite E. Qed.

Lemma br_inv_init nodes n :
  (∀ i, (i < n)%nat → is_Some (nodes !! own_node i)) → br_memory_inv (ck_brlock_init nodes) (replicate n BrOut).
Proof.
  intros Hd. exists (MkView 0 0 (br_members_in nodes)). split; [split; [done..|apply br_members_in_agree]|].
  split; [by rewrite length_replicate|]. exists [], None. split; try done; try (by intros i g [-> _]%lookup_replicate).
  - apply NoDup_nil_2.
  - intros i. split; [by intros ?%elem_of_nil|]. by intros (g & [-> _]%lookup_replicate & ?).
  - by intros i g c [-> _]%lookup_replicate.
Qed.

(** In a memory that has the readers of the threads, whatever is in them. *)
#[export] Program Instance brlock_laws nodes factor max (there : ∀ i, (i < max)%nat → is_Some (nodes !! own_node i)) :
    @RwSpinlockLaws ck_brlock (brlock_rw nodes factor) max := {|
  rwg := br_ghost;
  rwg_idle := BrOut;
  rests := λ g, g = BrOut;
  reading := λ g, g = BrRead 0;
  writing := λ _ g, br_alone BaseOut g;
  rws_inv := br_memory_inv
|}.
Next Obligation. done. Qed.
Next Obligation. intros nodes factor max there n Hn. apply br_inv_init. intros i Hi. apply there. lia. Qed.
Next Obligation.
  intros nodes factor max there x gs i j g g' k (v & _ & _ & HI) Hi Hj [ns ->]. pose proof (br_hold _ _ _ _ _ HI Hi) as HO. split.
  - intros ->. assert (j ∈ ns) as Hin.
    { pose proof (proj2 (bo_member _ _ _ _ HO j) (ex_intro _ _ (conj Hj eq_refl))) as H. cbn in H. by rewrite app_nil_r in H. }
    by pose proof (br_quiet _ _ _ _ _ HI Hi j _ Hin Hj).
  - intros _ [ns' ->]. by destruct (bo_holder _ _ _ _ HO j _ Hj eq_refl) as (b & ph & _ & [= -> _]).
Qed.
Next Obligation.
  intros nodes factor max there R n i k f g HR Hk ->. cbn in Hk.
  destruct k as [|[|[|[|k]]]]; [| | | |done]; injection Hk as <-; apply outside_wp_bind;
    (eapply outside_wp_mono; [by apply br_read_register_wp|]); intros _ y ->; apply outside_wp_bind.
  - eapply outside_wp_mono; [by apply br_read_lock_wp|]. intros _ y ->. by apply outside_wp_ret.
  - eapply outside_wp_mono; [by apply br_read_trylock_wp|]. intros [] y ->; [by apply outside_wp_ret|]. apply outside_wp_bind.
    eapply outside_wp_mono; [by apply br_read_unregister_wp|]. intros _ y ->. by apply outside_wp_ret.
  - eapply outside_wp_mono; [by apply br_read_lock_wp|]. intros _ y ->. apply outside_wp_bind.
    eapply outside_wp_mono; [by apply br_read_lock_again_wp|]. intros _ y ->. apply outside_wp_bind.
    eapply outside_wp_mono; [by apply (br_read_unlock_wp _ HR _ _ 1)|]. intros _ y ->. by apply outside_wp_ret.
  - eapply outside_wp_mono; [by apply br_read_lock_wp|]. intros _ y ->. apply outside_wp_bind.
    eapply outside_wp_mono; [by apply br_read_trylock_again_wp|]. intros _ y ->. apply outside_wp_bind.
    eapply outside_wp_mono; [by apply (br_read_unlock_wp _ HR _ _ 1)|]. intros _ y ->. by apply outside_wp_ret.
Qed.
Next Obligation.
  intros nodes factor max there R n i g HR ->. apply outside_wp_bind.
  eapply outside_wp_mono; [apply (br_read_unlock_wp _ HR _ _ 0); lia|]. intros _ y ->.
  eapply outside_wp_mono; [by apply br_read_unregister_wp|]. by intros _ y ->.
Qed.
Next Obligation.
  intros nodes factor max there R n i k w g HR Hk _ ->. cbn in Hk. destruct k as [|[|k]]; [| |done]; injection Hk as <-.
  - apply outside_wp_bind. eapply outside_wp_mono; [by apply (br_write_lock_wp _ HR _ _ BaseOut)|]. intros ? y Hy. by apply outside_wp_ret.
  - eapply outside_wp_mono; [by apply (br_write_trylock_wp _ HR _ _ _ BaseOut)|]. by intros [] y Hy.
Qed.
Next Obligation.
  intros nodes factor max there R n i k w g HR Hk _ [ns ->]. cbn in Hk. destruct k as [|[|k]]; [| |done]; injection Hk as <-;
    (eapply outside_wp_mono; [by apply (br_write_unlock_wp _ HR _ _ BaseOut)|]); by intros _ y ->.
Qed.
Next Obligation.
  intros nodes factor max there R n i k w d g HR Hk Hd _ [ns ->]. cbn in Hk.
  destruct k as [|[|k]]; [| |done]; injection Hk as <-; done.
Qed.
