(* ===== verification/CkCohort.v ===== *)
(** CkCohort: the cohort locks of Concurrency Kit, include/aerospike/ck/ck_cohort.h: a global lock and, for each
    cohort of threads, a local one; a thread that leaves may pass both to another of its cohort.

    The macro makes the functions from those of two locks, which are instances of [Spinlock] here.  With fas.h for
    both, the cohort lock satisfies the laws of [Spinlock] itself.  The pointers [global_lock] and [local_lock] of a
    cohort are the places that its functions are given. *)

From Stdlib Require Import ZArith Lia.
From stdpp Require Import base list.
From S2P Require Import Prelude Concurrent CkPr CkMutex.

#[local] Open Scope Z_scope.
#[local] Set Warnings "-clear-no-such-hyp".

(** [src: include/aerospike/ck/ck_cohort.h 41-44 ck_cohort_state] *)
Definition CK_COHORT_STATE_GLOBAL : Z := 0.
(** [src: include/aerospike/ck/ck_cohort.h 41-44 ck_cohort_state] *)
Definition CK_COHORT_STATE_LOCAL : Z := 1.

(** [src: include/aerospike/ck/ck_cohort.h 46-46 CK_COHORT_DEFAULT_LOCAL_PASS_LIMIT] *)
Definition CK_COHORT_DEFAULT_LOCAL_PASS_LIMIT : Z := 10.

(** [src: include/aerospike/ck/ck_cohort.h 57-64 CK_COHORT_INSTANCE] *)
Record ck_cohort : Type := MkCohort {
  co_release_state : Z; co_waiting_threads : Z; co_acquire_count : Z; co_local_pass_limit : Z
}.
Definition co_release_state_loc : loc ck_cohort Z :=
  MkLoc co_release_state (λ v x, MkCohort v (co_waiting_threads x) (co_acquire_count x) (co_local_pass_limit x)).
Definition co_waiting_threads_loc : loc ck_cohort Z :=
  MkLoc co_waiting_threads (λ v x, MkCohort (co_release_state x) v (co_acquire_count x) (co_local_pass_limit x)).
Definition co_acquire_count_loc : loc ck_cohort Z :=
  MkLoc co_acquire_count (λ v x, MkCohort (co_release_state x) (co_waiting_threads x) v (co_local_pass_limit x)).
Definition co_local_pass_limit_loc : loc ck_cohort Z :=
  MkLoc co_local_pass_limit (λ v x, MkCohort (co_release_state x) (co_waiting_threads x) (co_acquire_count x) v).

(** [src: include/aerospike/ck/ck_cohort.h 66-78 ck_cohort_##N##_init] *)
Definition ck_cohort_init (pass_limit : Z) : ck_cohort := MkCohort CK_COHORT_STATE_GLOBAL 0 0 pass_limit.

(** [src: include/aerospike/ck/ck_cohort.h 152-159 CK_COHORT_INITIALIZER] *)
Definition CK_COHORT_INITIALIZER : ck_cohort := ck_cohort_init CK_COHORT_DEFAULT_LOCAL_PASS_LIMIT.

Section cohort.
Context {T : Type} (Global Local : Spinlock T).
Context {S : Type} (cohort : loc S ck_cohort) (global_lock local_lock : loc S T).
Abbreviation release_state := (cohort →' co_release_state_loc).
Abbreviation waiting_threads := (cohort →' co_waiting_threads_loc).
Abbreviation acquire_count := (cohort →' co_acquire_count_loc).
Abbreviation local_pass_limit := (cohort →' co_local_pass_limit_loc).
Context (global_context local_context : nat).

(** [++cohort->acquire_count].
    [src: include/aerospike/ck/ck_cohort.h 93-93 ck_cohort_##N##_lock] *)
Definition count_acquire : prog S unit := n ← ck_pr_load acquire_count; ck_pr_store acquire_count (u32 (n + 1)).

(** [src: include/aerospike/ck/ck_cohort.h 80-95 ck_cohort_##N##_lock] *)
Definition ck_cohort_lock : prog S unit :=
  ck_pr_inc 32 waiting_threads;;
  spin_lock (Spinlock := Local) local_lock local_context;;
  ck_pr_dec 32 waiting_threads;;
  s ← ck_pr_load release_state;
  (if s =? CK_COHORT_STATE_GLOBAL then spin_lock (Spinlock := Global) global_lock global_context else mret tt);;
  count_acquire.

(** [src: include/aerospike/ck/ck_cohort.h 97-115 ck_cohort_##N##_unlock] *)
Definition ck_cohort_unlock : prog S unit :=
  w ← ck_pr_load waiting_threads;
  b ← (if 0 <? w then
         n ← ck_pr_load acquire_count; m ← ck_pr_load local_pass_limit; mret (n <? m)
       else mret false);
  (if (b : bool) then ck_pr_store release_state CK_COHORT_STATE_LOCAL
   else
     spin_unlock (Spinlock := Global) global_lock global_context;;
     ck_pr_store release_state CK_COHORT_STATE_GLOBAL;;
     ck_pr_store acquire_count 0);;
  spin_unlock (Spinlock := Local) local_lock local_context.

(** [GI] is that of the global lock, and is asked for the local one, and so the other way round.
    [src: include/aerospike/ck/ck_cohort.h 117-123 ck_cohort_##N##_locked] *)
Definition ck_cohort_locked : prog S bool :=
  b ← spin_locked (Spinlock := Global) local_lock local_context;
  if (b : bool) then mret true else spin_locked (Spinlock := Local) global_lock global_context.

(** [src: include/aerospike/ck/ck_cohort.h 127-150 ck_cohort_##N##_trylock] *)
Definition ck_cohort_trylock (GTL LTL : loc S T → nat → prog S bool) (local_unlock_context : nat) : prog S bool :=
  ck_pr_inc 32 waiting_threads;;
  trylock_result ← LTL local_lock local_context;
  ck_pr_dec 32 waiting_threads;;
  if negb trylock_result then mret false
  else
    s ← ck_pr_load release_state;
    b ← (if s =? CK_COHORT_STATE_GLOBAL then GTL global_lock global_context else mret true);
    if negb b then spin_unlock (Spinlock := Local) local_lock local_unlock_context;; mret false
    else count_acquire;; mret true.
End cohort.

(** ** The locks of all cohorts *)

(** The global lock, and the local lock and the cohort of each number. *)
Record cohort_memory : Type := MkCm { cm_global : ck_spinlock_fas; cm_local : nat → ck_spinlock_fas; cm_cohort : nat → ck_cohort }.

Definition fn_set {A} (c : nat) (v : A) (f : nat → A) (d : nat) : A := if decide (d = c) then v else f d.

Definition cm_global_loc : loc cohort_memory ck_spinlock_fas := MkLoc cm_global (λ v m, MkCm v (cm_local m) (cm_cohort m)).
Definition cm_local_loc (c : nat) : loc cohort_memory ck_spinlock_fas :=
  MkLoc (λ m, cm_local m c) (λ v m, MkCm (cm_global m) (fn_set c v (cm_local m)) (cm_cohort m)).
Definition cm_cohort_loc (c : nat) : loc cohort_memory ck_cohort :=
  MkLoc (λ m, cm_cohort m c) (λ v m, MkCm (cm_global m) (cm_local m) (fn_set c v (cm_cohort m))).

Definition cohorts_init (pass_limit : Z) : cohort_memory :=
  MkCm ck_spinlock_fas_init (λ _, ck_spinlock_fas_init) (λ _, ck_cohort_init pass_limit).

(** The thread [i] is in the cohort [co i]. *)
Section clients.
Context (co : nat → nat) {S : Type} (l : loc S cohort_memory).

Definition cohort_lock (i : nat) : prog S unit :=
  ck_cohort_lock fas_spinlock fas_spinlock (l →' cm_cohort_loc (co i)) (l →' cm_global_loc) (l →' cm_local_loc (co i)) i i.
Definition cohort_unlock (i : nat) : prog S unit :=
  ck_cohort_unlock fas_spinlock fas_spinlock (l →' cm_cohort_loc (co i)) (l →' cm_global_loc) (l →' cm_local_loc (co i)) i i.
Definition cohort_locked (i : nat) : prog S bool :=
  ck_cohort_locked fas_spinlock fas_spinlock (l →' cm_global_loc) (l →' cm_local_loc (co i)) i i.
Definition cohort_trylock (i : nat) : prog S bool :=
  ck_cohort_trylock fas_spinlock (l →' cm_cohort_loc (co i)) (l →' cm_global_loc) (l →' cm_local_loc (co i)) i i
    (λ lock _, ck_spinlock_fas_trylock lock) (λ lock _, ck_spinlock_fas_trylock lock) i.
End clients.

Definition cohort_spinlock (co : nat → nat) (pass_limit : Z) : Spinlock cohort_memory := {|
  spin_init := cohorts_init pass_limit;
  spin_lock := λ S, cohort_lock co;
  spin_trylock := λ S, Some (cohort_trylock co);
  spin_locked := λ S, cohort_locked co;
  spin_unlock := λ S, cohort_unlock co
|}.

(** ** The invariant *)

(** Where a thread is: it has nothing; the local lock; both locks; the local lock, and has left the global one. *)
Inductive co_ghost : Type := CoOut | CoLocal | CoHold | CoLeft.

#[export] Instance co_ghost_eq_dec : EqDecision co_ghost.
Proof. solve_decision. Defined.

Section invariant.
Context (co : nat → nat).

(** The cohort [owner] has the global lock. *)
Record co_state (owner : option nat) (m : cohort_memory) (gs : list co_ghost) : Prop := {
  cs_global : fas_value (cm_global m) = match owner with Some _ => 1 | None => 0 end;
  cs_local i g : gs !! i = Some g → g ≠ CoOut → fas_value (cm_local m (co i)) = 1;
  cs_bit c : fas_value (cm_local m c) = 0 ∨ fas_value (cm_local m c) = 1;
  cs_one i j g g' : gs !! i = Some g → gs !! j = Some g' → g ≠ CoOut → g' ≠ CoOut → co i = co j → i = j;
  cs_hold i : gs !! i = Some CoHold → owner = Some (co i);
  cs_left i : gs !! i = Some CoLeft → owner ≠ Some (co i);
  cs_rest c : (∀ i g, gs !! i = Some g → co i = c → g = CoOut ∨ g = CoLocal) →
    (co_release_state (cm_cohort m c) ≠ 0 ↔ owner = Some c)
}.

Definition co_inv (m : cohort_memory) (gs : list co_ghost) : Prop := ∃ owner, co_state owner m gs.

(** The thread [i] makes a step, which the other cohorts do not see. *)
Lemma co_move owner owner' m m' gs i g g' :
  co_state owner m gs → gs !! i = Some g →
  (∀ j y, gs !! j = Some y → j ≠ i → co j = co i → y = CoOut) →
  fas_value (cm_global m') = match owner' with Some _ => 1 | None => 0 end →
  (∀ c, c ≠ co i → cm_local m' c = cm_local m c ∧ co_release_state (cm_cohort m' c) = co_release_state (cm_cohort m c)
    ∧ (owner' = Some c ↔ owner = Some c)) →
  fas_value (cm_local m' (co i)) = (if decide (g' = CoOut) then 0 else 1) →
  (g' = CoHold → owner' = Some (co i)) → (g' = CoLeft → owner' ≠ Some (co i)) →
  (g' = CoOut ∨ g' = CoLocal → (co_release_state (cm_cohort m' (co i)) ≠ 0 ↔ owner' = Some (co i))) →
  co_state owner' m' (<[i := g']> gs).
Proof.
  intros [H1 H2 H3 H4 H5 H6 H7] Hi Hothers Hg Hc Hl Hhold Hleft Hrest. pose proof (lookup_lt_Some _ _ _ Hi) as Hlt.
  assert (∀ j y, gs !! j = Some y → j ≠ i → y ≠ CoOut → co j ≠ co i) as Hne.
  { intros j y Hj Hji Hy E. by apply Hy, (Hothers j y Hj). }
  split; [done|..].
  - intros j y [[-> ->]|[Hji Hj]]%insert_case Hy; [by rewrite Hl, decide_False|].
    rewrite (proj1 (Hc _ (Hne j y Hj Hji Hy))). by eapply H2.
  - intros c. destruct (decide (c = co i)) as [->|Hci]; [rewrite Hl; case_decide; auto|].
    rewrite (proj1 (Hc c Hci)). apply H3.
  - intros j k y z [[-> ->]|[Hji Hj]]%insert_case [[-> ->]|[Hki Hk]]%insert_case Hy Hz E; [done| | |by eapply H4].
    + by destruct (Hne k z Hk Hki Hz).
    + by destruct (Hne j y Hj Hji Hy).
  - intros j [[-> E]|[Hji Hj]]%insert_case; [by apply Hhold|]. apply (Hc (co j)); [by eapply Hne|]. by apply H5.
  - intros j [[-> E]|[Hji Hj]]%insert_case; [by apply Hleft|]. rewrite (proj2 (proj2 (Hc (co j) (Hne j _ Hj Hji ltac:(done))))). by apply H6.
  - intros c Hc'. destruct (decide (c = co i)) as [->|Hci].
    + apply Hrest. apply (Hc' i); [by apply list_lookup_insert_eq|done].
    + destruct (Hc c Hci) as (_ & -> & ->). apply H7. intros j y Hj E. apply (Hc' j); [|done].
      rewrite list_lookup_insert_ne; [done|]. intros <-. by apply Hci.
Qed.

(** The counts of a cohort, and its limit, are left to it. *)
Lemma co_counts owner m m' gs :
  co_state owner m gs → cm_global m' = cm_global m → cm_local m' = cm_local m →
  (∀ c, co_release_state (cm_cohort m' c) = co_release_state (cm_cohort m c)) → co_state owner m' gs.
Proof.
  intros [H1 H2 H3 H4 H5 H6 H7] Eg El Er. split; rewrite ?Eg, ?El; try done. intros c. rewrite Er. apply H7.
Qed.

Lemma co_others owner m gs i g : co_state owner m gs → gs !! i = Some g → g ≠ CoOut →
  ∀ j y, gs !! j = Some y → j ≠ i → co j = co i → y = CoOut.
Proof.
  intros HI Hi Hg j y Hj Hne E. destruct (decide (y = CoOut)) as [|Hy]; [done|]. destruct Hne. by eapply cs_one.
Qed.

(** The cohort's state, when the thread has its local lock and does not know of the other. *)
Lemma co_known owner m gs i : co_state owner m gs → gs !! i = Some CoLocal →
  co_release_state (cm_cohort m (co i)) ≠ 0 ↔ owner = Some (co i).
Proof.
  intros HI Hi. apply (cs_rest _ _ _ HI). intros j y Hj E. destruct (decide (j = i)) as [->|Hne]; [right; congruence|left].
  by refine (co_others _ _ _ _ _ HI Hi _ j y Hj Hne E).
Qed.
End invariant.

(** ** The steps *)

Section steps.
Context (co : nat → nat) {S L : Type} {I : S → list L → Prop} {l : loc S cohort_memory}.
Context {gh : L → co_ghost} {up : co_ghost → L → L} {ok : L → Prop} (V : view I l (co_inv co) gh up ok).
Abbreviation co_wp := (view_wp I gh up ok).
Abbreviation local i := (l →' cm_local_loc (co i)).
Abbreviation global := (l →' cm_global_loc).
Abbreviation cohort i := (l →' cm_cohort_loc (co i)).

#[local] Ltac v_bind := apply (view_wp_bind _ _ _ _ _ _ V).
#[local] Ltac v_ret := apply (view_wp_ret _ _ _ _ _ _ V).
#[local] Ltac v_stall := apply (view_wp_stall _ _ _ _ _ _ V).

Lemma fn_set_eq {A} c (v : A) f : fn_set c v f c = v.
Proof. unfold fn_set. by rewrite decide_True. Qed.
Lemma fn_set_ne {A} c d (v : A) f : d ≠ c → fn_set c v f d = f d.
Proof. unfold fn_set. intros H. by rewrite decide_False. Qed.

(** A look at the memory. *)
Lemma co_look_wp n i A (f : S → outcome (A * S)) (r : cohort_memory → A) g :
  (∀ s, f s = Ret (r (loc_get l s), s)) → co_wp n (atomic f) i (λ _ g', g' = g) g.
Proof using V.
  intros Hf. apply (view_wp_look _ _ _ _ _ _ V _ _ _ r); [done|]. intros t gs HI Hi. exists g. by rewrite list_insert_id.
Qed.

(** A step that changes the counts of the thread's cohort. *)
Lemma co_counts_wp n i A (f : S → outcome (A * S)) (r : cohort_memory → A) (u : ck_cohort → ck_cohort) g :
  (∀ s, f s = Ret (r (loc_get l s), loc_set (cohort i) (u (loc_get (cohort i) s)) s)) →
  (∀ x, co_release_state (u x) = co_release_state x) →
  co_wp n (atomic f) i (λ _ g', g' = g) g.
Proof using V.
  intros Hf Hu. apply (view_wp_step _ _ _ _ _ _ V _ _ _ r
    (λ m, MkCm (cm_global m) (cm_local m) (fn_set (co i) (u (cm_cohort m (co i))) (cm_cohort m)))); [done|].
  intros m gs [owner HI] Hi. exists g. rewrite list_insert_id by done. split; [|done]. exists owner.
  eapply co_counts; [done|done|done|]. intros c. cbn. destruct (decide (c = co i)) as [->|Hne]; [by rewrite fn_set_eq, Hu|by rewrite fn_set_ne].
Qed.

(** The local lock is tried, and taken when it is free. *)
Lemma co_fas_local_wp n i :
  co_wp n (ck_pr_fas (local i →' fas_value_loc) 1) i (λ v g, (v = 0 ∧ g = CoLocal) ∨ (v = 1 ∧ g = CoOut)) CoOut.
Proof using V.
  apply (view_wp_step _ _ _ _ _ _ V _ _ _ (λ m, fas_value (cm_local m (co i)))
    (λ m, MkCm (cm_global m) (fn_set (co i) (MkFas 1) (cm_local m)) (cm_cohort m))); [done|].
  intros m gs [owner HI] Hi. destruct (cs_bit _ _ _ _ HI (co i)) as [E|E].
  - assert (∀ j y, gs !! j = Some y → j ≠ i → co j = co i → y = CoOut) as Ho.
    { intros j y Hj Hne Ec. destruct (decide (y = CoOut)) as [|Hy]; [done|].
      pose proof (cs_local _ _ _ _ HI j y Hj Hy) as E'. rewrite Ec in E'. lia. }
    exists CoLocal. split; [|by left]. exists owner. eapply co_move; [done|exact Hi|exact Ho|apply (cs_global _ _ _ _ HI)| | |done|done|].
    + intros c Hc. cbn. by rewrite fn_set_ne.
    + cbn. by rewrite fn_set_eq.
    + intros _. apply (cs_rest _ _ _ _ HI). intros j y Hj Ec. left. destruct (decide (j = i)) as [->|Hne]; [congruence|by eapply Ho].
  - exists CoOut. rewrite list_insert_id by done. split; [|by right]. exists owner.
    assert (∀ c, fas_value (fn_set (co i) (MkFas 1) (cm_local m) c) = fas_value (cm_local m c)) as Ef.
    { intros c. destruct (decide (c = co i)) as [->|Hne]; [by rewrite fn_set_eq|by rewrite fn_set_ne]. }
    destruct HI as [H1 H2 H3 H4 H5 H6 H7]. split; cbn; try done; intros; rewrite Ef; eauto.
Qed.

Lemma co_unlock_local_wp n i : co_wp n (ck_pr_store (local i →' fas_value_loc) 0) i (λ _ g, g = CoOut) CoLocal.
Proof using V.
  apply (view_wp_step _ _ _ _ _ _ V _ _ _ (λ m, tt)
    (λ m, MkCm (cm_global m) (fn_set (co i) (MkFas 0) (cm_local m)) (cm_cohort m))); [done|].
  intros m gs [owner HI] Hi. exists CoOut. split; [|done]. exists owner.
  eapply co_move; [done|exact Hi|by apply (co_others _ _ _ _ _ _ HI Hi)|apply (cs_global _ _ _ _ HI)| | |done|done|].
  - intros c Hc. cbn. by rewrite fn_set_ne.
  - cbn. by rewrite fn_set_eq.
  - intros _. apply (co_known _ _ _ _ _ HI Hi).
Qed.

(** It is known whether the cohort has the global lock. *)
Lemma co_state_wp n i :
  co_wp n (ck_pr_load (cohort i →' co_release_state_loc)) i (λ v g, g = if v =? 0 then CoLocal else CoHold) CoLocal.
Proof using V.
  apply (view_wp_look _ _ _ _ _ _ V _ _ _ (λ m, co_release_state (cm_cohort m (co i)))); [done|].
  intros m gs [owner HI] Hi. eexists. split; [|done]. exists owner. pose proof (co_known _ _ _ _ _ HI Hi) as Hk.
  destruct (Z.eqb_spec (co_release_state (cm_cohort m (co i))) 0) as [E|E]; [by rewrite list_insert_id|].
  eapply co_move; [done|exact Hi|by apply (co_others _ _ _ _ _ _ HI Hi)|apply (cs_global _ _ _ _ HI)|done| |by rewrite <- Hk|done|by intros [|]].
  by apply (cs_local _ _ _ _ HI i _ Hi).
Qed.

(** The global lock is tried, and taken when it is free. *)
Lemma co_fas_global_wp n i :
  co_wp n (ck_pr_fas (global →' fas_value_loc) 1) i (λ v g, (v = 0 ∧ g = CoHold) ∨ (v = 1 ∧ g = CoLocal)) CoLocal.
Proof using V.
  apply (view_wp_step _ _ _ _ _ _ V _ _ _ (λ m, fas_value (cm_global m)) (λ m, MkCm (MkFas 1) (cm_local m) (cm_cohort m))); [done|].
  intros m gs [owner HI] Hi. pose proof (cs_global _ _ _ _ HI) as Eg. destruct owner as [c|].
  - exists CoLocal. rewrite list_insert_id by done. split; [|by right]. exists (Some c).
    destruct HI as [H1 H2 H3 H4 H5 H6 H7]. by split.
  - exists CoHold. split; [|by left]. exists (Some (co i)).
    eapply co_move; [done|exact Hi|by apply (co_others _ _ _ _ _ _ HI Hi)|done| | |done|done|by intros [|]].
    + intros c Hc. cbn. repeat split; [congruence|done].
    + cbn. by apply (cs_local _ _ _ _ HI i _ Hi).
Qed.

Lemma co_unlock_global_wp n i : co_wp n (ck_pr_store (global →' fas_value_loc) 0) i (λ _ g, g = CoLeft) CoHold.
Proof using V.
  apply (view_wp_step _ _ _ _ _ _ V _ _ _ (λ m, tt) (λ m, MkCm (MkFas 0) (cm_local m) (cm_cohort m))); [done|].
  intros m gs [owner HI] Hi. exists CoLeft. split; [|done]. exists None. pose proof (cs_hold _ _ _ _ HI i Hi) as ->.
  eapply co_move; [done|exact Hi|by apply (co_others _ _ _ _ _ _ HI Hi)|done| | |done|done|by intros [|]].
  - intros c Hc. cbn. repeat split; [done|congruence].
  - cbn. by apply (cs_local _ _ _ _ HI i _ Hi).
Qed.

(** It is noted whether the cohort has it. *)
Lemma co_note_wp n i v g :
  v = 1 ∧ g = CoHold ∨ v = 0 ∧ g = CoLeft →
  co_wp n (ck_pr_store (cohort i →' co_release_state_loc) v) i (λ _ g, g = CoLocal) g.
Proof using V.
  intros Hg. apply (view_wp_step _ _ _ _ _ _ V _ _ _ (λ m, tt)
    (λ m, MkCm (cm_global m) (cm_local m) (fn_set (co i) (loc_set co_release_state_loc v (cm_cohort m (co i))) (cm_cohort m)))); [done|].
  intros m gs [owner HI] Hi. exists CoLocal. split; [|done]. exists owner.
  assert (g ≠ CoOut) as Hne by (by destruct Hg as [[_ ->]|[_ ->]]).
  eapply co_move; [done|exact Hi|by apply (co_others _ _ _ _ _ _ HI Hi)|apply (cs_global _ _ _ _ HI)| | |done|done|].
  - intros c Hc. cbn. by rewrite fn_set_ne.
  - cbn. by apply (cs_local _ _ _ _ HI i _ Hi).
  - intros _. cbn. rewrite fn_set_eq. cbn. destruct Hg as [[-> ->]|[-> ->]].
    + rewrite (cs_hold _ _ _ _ HI i Hi). by split.
    + pose proof (cs_left _ _ _ _ HI i Hi). by split.
Qed.

(** *** The functions *)

Lemma co_fas_lock_wp n i (lock : loc S ck_spinlock_fas) g g' :
  (∀ n, co_wp n (ck_pr_fas (lock →' fas_value_loc) 1) i (λ v y, (v = 0 ∧ y = g') ∨ (v = 1 ∧ y = g)) g) →
  (∀ n, co_wp n (ck_pr_load (lock →' fas_value_loc)) i (λ _ y, y = g) g) →
  co_wp n (ck_spinlock_fas_lock lock) i (λ _ y, y = g') g.
Proof using V.
  intros Hf Hl. apply (view_wp_while _ _ _ _ _ _ V _ _ _ (λ y, y = g)); [done|]. intros m y ->.
  v_bind. eapply view_wp_mono; [apply Hf|]. intros v y [[-> ->]|[-> ->]]; v_ret; [done|].
  cbn [Z.eqb]. apply (view_wp_while _ _ _ _ _ _ V _ _ _ (λ y, y = g)); [done|]. intros m' y ->.
  v_bind. eapply view_wp_mono; [apply Hl|]. intros v y ->. v_ret.
  destruct (v =? 1); [by v_stall|done].
Qed.

Lemma co_inc_wp n i g : co_wp n (ck_pr_inc 32 (cohort i →' co_waiting_threads_loc)) i (λ _ y, y = g) g.
Proof using V.
  by apply (co_counts_wp _ _ _ _ (λ _, tt) (λ x, loc_set co_waiting_threads_loc (uwrap 32 (co_waiting_threads x + 1)) x)).
Qed.

Lemma co_dec_wp n i g : co_wp n (ck_pr_dec 32 (cohort i →' co_waiting_threads_loc)) i (λ _ y, y = g) g.
Proof using V.
  by apply (co_counts_wp _ _ _ _ (λ _, tt) (λ x, loc_set co_waiting_threads_loc (uwrap 32 (co_waiting_threads x - 1)) x)).
Qed.

Lemma co_store_count_wp n i v g : co_wp n (ck_pr_store (cohort i →' co_acquire_count_loc) v) i (λ _ y, y = g) g.
Proof using V. by apply (co_counts_wp _ _ _ _ (λ _, tt) (loc_set co_acquire_count_loc v)). Qed.

Lemma co_load_wp n i (x : loc cohort_memory Z) g : co_wp n (ck_pr_load (l →' x)) i (λ _ y, y = g) g.
Proof using V. by apply (co_look_wp _ _ _ _ (loc_get x)). Qed.

Lemma co_count_acquire_wp n i g : co_wp n (count_acquire (cohort i)) i (λ _ y, y = g) g.
Proof using V.
  v_bind. eapply view_wp_mono; [apply (co_load_wp n i (cm_cohort_loc (co i) →' co_acquire_count_loc))|].
  intros v y ->. apply co_store_count_wp.
Qed.

Lemma cohort_lock_wp n i : co_wp n (cohort_lock co l i) i (λ _ y, y = CoHold) CoOut.
Proof using V.
  v_bind. eapply view_wp_mono; [apply co_inc_wp|]. intros _ y ->.
  v_bind. eapply view_wp_mono.
  { apply (co_fas_lock_wp _ _ (local i) _ CoLocal); intros; [apply co_fas_local_wp|].
    apply (co_load_wp _ _ (cm_local_loc (co i) →' fas_value_loc)). }
  intros _ y ->. v_bind. eapply view_wp_mono; [apply co_dec_wp|]. intros _ y ->.
  v_bind. eapply view_wp_mono; [apply co_state_wp|]. intros v y ->. v_bind.
  apply (view_wp_mono _ _ _ _ _ _ _ _ (λ _ y, y = CoHold)); [|intros _ y ->; apply co_count_acquire_wp].
  change CK_COHORT_STATE_GLOBAL with 0. destruct (v =? 0); [|by v_ret].
  apply (co_fas_lock_wp _ _ global); intros; [apply co_fas_global_wp|]. apply (co_load_wp _ _ (cm_global_loc →' fas_value_loc)).
Qed.

(** What comes after the first look at [waiting_threads]. *)
Lemma cohort_unlock_rest_wp n i (w : Z) :
  co_wp n (b ← (if 0 <? w then
         n ← ck_pr_load (cohort i →' co_acquire_count_loc); m ← ck_pr_load (cohort i →' co_local_pass_limit_loc); mret (n <? m)
       else mret false);
    (if (b : bool) then ck_pr_store (cohort i →' co_release_state_loc) CK_COHORT_STATE_LOCAL
     else
       ck_spinlock_fas_unlock global;;
       ck_pr_store (cohort i →' co_release_state_loc) CK_COHORT_STATE_GLOBAL;;
       ck_pr_store (cohort i →' co_acquire_count_loc) 0);;
    ck_spinlock_fas_unlock (local i)) i (λ _ y, y = CoOut) CoHold.
Proof using V.
  v_bind. apply (view_wp_mono _ _ _ _ _ _ _ _ (λ _ y, y = CoHold)).
  { destruct (0 <? w); [|by v_ret]. v_bind.
    eapply view_wp_mono; [apply (co_load_wp n i (cm_cohort_loc (co i) →' co_acquire_count_loc))|]. intros a y ->. v_bind.
    eapply view_wp_mono; [apply (co_load_wp n i (cm_cohort_loc (co i) →' co_local_pass_limit_loc))|]. intros b y ->. by v_ret. }
  intros b y ->. v_bind. apply (view_wp_mono _ _ _ _ _ _ _ _ (λ _ y, y = CoLocal)); [|intros _ y ->; apply co_unlock_local_wp].
  destruct b; [by apply co_note_wp; left|]. v_bind. eapply view_wp_mono; [apply co_unlock_global_wp|]. intros _ y ->.
  v_bind. eapply view_wp_mono; [by apply co_note_wp; right|]. intros _ y ->. apply co_store_count_wp.
Qed.

Lemma cohort_unlock_wp n i : co_wp n (cohort_unlock co l i) i (λ _ y, y = CoOut) CoHold.
Proof using V.
  v_bind. eapply view_wp_mono; [apply (co_load_wp n i (cm_cohort_loc (co i) →' co_waiting_threads_loc))|]. intros w y ->.
  apply cohort_unlock_rest_wp.
Qed.

Lemma cohort_locked_wp n i g : co_wp n (cohort_locked co l i) i (λ _ y, y = g) g.
Proof using V.
  v_bind. eapply view_wp_mono.
  { v_bind. eapply view_wp_mono; [apply (co_load_wp n i (cm_local_loc (co i) →' fas_value_loc))|]. intros v y ->.
    by apply (view_wp_ret _ _ _ _ _ _ V n _ (negb (v =? 0)) i (λ _ y, y = g)). }
  intros b y ->. destruct b; [by v_ret|]. v_bind.
  eapply view_wp_mono; [apply (co_load_wp n i (cm_global_loc →' fas_value_loc))|]. intros v y ->. by v_ret.
Qed.

Lemma cohort_trylock_wp n i : co_wp n (cohort_trylock co l i) i (λ b y, y = if (b : bool) then CoHold else CoOut) CoOut.
Proof using V.
  v_bind. eapply view_wp_mono; [apply co_inc_wp|]. intros _ y ->. v_bind. eapply view_wp_mono.
  { v_bind. eapply view_wp_mono; [apply co_fas_local_wp|]. intros v y Hv.
    apply (view_wp_ret _ _ _ _ _ _ V n _ (v =? 0) i (λ b y, y = if (b : bool) then CoLocal else CoOut)).
    by destruct Hv as [[-> ->]|[-> ->]]. }
  intros b y ->. v_bind. eapply view_wp_mono; [apply co_dec_wp|]. intros _ y ->. destruct b; cbn [negb]; [|by v_ret].
  v_bind. eapply view_wp_mono; [apply co_state_wp|]. intros v y ->. v_bind.
  apply (view_wp_mono _ _ _ _ _ _ _ _ (λ (b : bool) y, y = if b then CoHold else CoLocal)).
  - change CK_COHORT_STATE_GLOBAL with 0. destruct (v =? 0); [|by v_ret]. v_bind.
    eapply view_wp_mono; [apply co_fas_global_wp|]. intros w y Hw. v_ret. by destruct Hw as [[-> ->]|[-> ->]].
  - intros [] y ->; cbn [negb]; v_bind.
    + eapply view_wp_mono; [apply co_count_acquire_wp|]. intros _ y ->. by v_ret.
    + eapply view_wp_mono; [apply co_unlock_local_wp|]. intros _ y ->. by v_ret.
Qed.
End steps.

(** ** The laws of a spin lock *)

Lemma co_inv_init co pass_limit n : co_inv co (cohorts_init pass_limit) (replicate n CoOut).
Proof.
  exists None. split; try done; try (intros i g [-> _]%lookup_replicate; done); try by intros i [[=] _]%lookup_replicate.
  - intros c. by left.
  - by intros i j g g' [-> _]%lookup_replicate.
Qed.

Lemma co_inv_excl co m gs i j : co_inv co m gs → gs !! i = Some CoHold → gs !! j = Some CoHold → i = j.
Proof.
  intros [owner HI] Hi Hj. eapply (cs_one _ _ _ _ HI); [exact Hi|exact Hj|done|done|].
  pose proof (cs_hold _ _ _ _ HI i Hi). pose proof (cs_hold _ _ _ _ HI j Hj). congruence.
Qed.

(** The cohort lock in the memory of the clients of CkMutex. *)
Lemma framed_view {T U G F} (out : F) (inv : T → list G → Prop) (R : U → list (G * F) → Prop) :
  outside_stable out R →
  view (framed inv R) (MkLoc fst (λ (x : T) (m : T * U), (x, m.2))) inv fst (λ g x, (g, x.2)) (λ x, x.2 = out).
Proof.
  intros HR. split; try done.
  - by intros s ls [HI _].
  - intros [s u] ls i [g f] t g' [HI HU] Hi Hf Ht. cbn in Hf. subst f. split; cbn in *; [by rewrite list_fmap_insert|].
    by eapply HR.
  - by intros [].
  - by intros [].
Qed.

Lemma view_outside_wp {T U G F} (out : F) (inv : T → list G → Prop) (R : U → list (G * F) → Prop) n {A}
    (t : prog (T * U) A) i (Q : A → G → Prop) g :
  view_wp (framed inv R) fst (λ g x, (g, x.2)) (λ x, x.2 = out) n t i Q g → outside_wp out inv R n t i Q g.
Proof. intros H. eapply wp_mono; [by apply H|]. by intros a y (g' & -> & HQ). Qed.

Section laws.
Context (co : nat → nat) (pass_limit : Z) (max : nat).

#[export] Program Instance cohort_spinlock_laws :
  @SpinlockLaws cohort_memory (cohort_spinlock co pass_limit) max := {|
  ghost := co_ghost;
  idle := CoOut;
  holds := λ g, g = CoHold;
  lock_inv := co_inv co
|}.
Next Obligation. intros n _. apply co_inv_init. Qed.
Next Obligation. intros s gs i j g g' HI Hi Hj -> ->. by eapply co_inv_excl. Qed.
Next Obligation. intros R n i HR. apply view_outside_wp. by apply cohort_lock_wp, framed_view. Qed.
Next Obligation.
  intros R n i trylock HR [= <-]. apply view_outside_wp. eapply view_wp_mono; [by apply cohort_trylock_wp, framed_view|].
  by intros [] g ->.
Qed.
Next Obligation. intros R n i HR. apply view_outside_wp. by apply cohort_locked_wp, framed_view. Qed.
Next Obligation. intros R n i g HR ->. apply view_outside_wp. by apply cohort_unlock_wp, framed_view. Qed.
End laws.

(** ** A thread that tries, and a global lock that nobody holds *)

(** The threads 0 and 1 are in one cohort, the thread 2 in another. *)
Definition two_cohorts (i : nat) : nat := if (i =? 2)%nat then 1%nat else 0%nat.

Definition stranding : list (prog cohort_memory unit) :=
  [cohort_lock two_cohorts loc_whole 0;; cohort_unlock two_cohorts loc_whole 0;
   b ← cohort_trylock two_cohorts loc_whole 1; if (b : bool) then cohort_unlock two_cohorts loc_whole 1 else mret tt;
   cohort_lock two_cohorts loc_whole 2].

(** Thread 1 has said that it waits when thread 0 leaves. *)
Definition stranding_turns : list nat := replicate 7 0%nat ++ replicate 2 1%nat ++ replicate 60 0%nat ++ replicate 60 1%nat.
Definition stranded : cohort_memory * list (prog cohort_memory unit) := schedule stranding_turns (cohorts_init 10, stranding).

(** The global lock is taken, and the other cohort does not have it. *)
Definition strands (m : cohort_memory) (gs : list unit) : Prop :=
  fas_value (cm_global m) = 1 ∧ co_release_state (cm_cohort m 1) = 0.

Lemma strands_step n {A} (f : cohort_memory → outcome (A * cohort_memory)) i (Q : A → unit → Prop) :
  (∀ m, strands m [] → ∃ a m', f m = Ret (a, m') ∧ strands m' [] ∧ Q a tt) → wp strands n (atomic f) i Q tt.
Proof.
  intros H. apply wp_atomic. intros m gs Hm _. destruct (H m Hm) as (a & m' & E & Hm' & HQ). by exists a, m', tt.
Qed.

Lemma stranded_lock n : wp strands n (cohort_lock two_cohorts loc_whole 2) 2 (λ _ _, False) tt.
Proof.
  apply wp_bind, strands_step. intros m [Hg Hr]. eexists tt, _. split; [reflexivity|]. split; [by split|].
  apply wp_bind. eapply (wp_mono _ _ _ _ _ (λ _ _, True)).
  { apply (wp_while _ _ _ _ (λ _, True)); [done|]. intros n' [] _. apply wp_bind, strands_step. intros m' [Hg' Hr'].
    eexists _, _. split; [reflexivity|]. split; [by split|]. apply wp_ret. case_match; [|done].
    apply (wp_while _ _ _ _ (λ _, True)); [done|]. intros n'' [] _. apply wp_bind, strands_step. intros m'' [Hg'' Hr''].
    eexists _, _. split; [reflexivity|]. split; [by split|]. apply wp_ret. case_match; [by apply wp_stall|done]. }
  intros _ [] _. apply wp_bind, strands_step. intros m2 [Hg2 Hr2]. eexists tt, _. split; [reflexivity|]. split; [by split|].
  apply wp_bind, strands_step. intros m3 [Hg3 Hr3]. exists 0, m3. split; [cbn; by rewrite Hr3|]. split; [by split|].
  cbn [Z.eqb CK_COHORT_STATE_GLOBAL]. apply wp_bind. eapply (wp_mono _ _ _ _ _ (λ _ _, False)); [|done].
  apply (wp_while _ _ _ _ (λ _, True)); [done|]. intros n' [] _. apply wp_bind, strands_step. intros m4 [Hg4 Hr4].
  exists 1, (MkCm (MkFas 1) (cm_local m4) (cm_cohort m4)). split; [cbn; unfold id; by rewrite Hg4|]. split; [by split|]. apply wp_ret.
  cbn [Z.eqb]. apply (wp_while _ _ _ _ (λ _, True)); [done|]. intros n'' [] _. apply wp_bind, strands_step. intros m5 [Hg5 Hr5].
  eexists _, _. split; [reflexivity|]. split; [by split|]. apply wp_ret. case_match; [by apply wp_stall|done].
Qed.

Lemma stranded_never m pool m' pool' :
  strands m [] → length pool = 3%nat → ended <$> pool !! 0%nat = Some true → ended <$> pool !! 1%nat = Some true →
  pool !! 2%nat = Some (cohort_lock two_cohorts loc_whole 2) → reaches m pool m' pool' → ended <$> pool' !! 2%nat = Some false.
Proof.
  intros Hs Hlen H0 H1 H2 Hr.
  destruct (wp_reaches strands (λ i _ _, i ≠ 2%nat) m pool [tt; tt; tt] m' pool' Hlen Hs) as (ls & Hl1 & Hl2 & _ & Hw); [|done|].
  - intros i t [] n Hi Hl. destruct i as [|[|[|i]]].
    + rewrite Hi in H0. injection H0 as H0. by apply wp_of_ended.
    + rewrite Hi in H1. injection H1 as H1. by apply wp_of_ended.
    + rewrite H2 in Hi. injection Hi as <-. eapply wp_mono; [apply stranded_lock|done].
    + done.
  - cbn in Hl1. destruct (lookup_lt_is_Some_2 pool' 2) as [t Ht]; [lia|]. rewrite Ht. cbn. f_equal.
    destruct (ended t) eqn:E; [|done]. destruct (lookup_lt_is_Some_2 ls 2) as [x Hx]; [lia|].
    destruct (wp_ended _ _ _ _ _ _ (Hw 2%nat t x Ht Hx) E) as [_ []]. done.
Qed.

(** C32 (liveness). [ck_cohort_trylock] counts itself in [waiting_threads] and may yet fail: a thread that leaves meanwhile passes the
    global lock on in its cohort, where nobody waits.  Here two threads of a cohort have ended, no thread holds
    either lock, and the lock of a thread in another cohort never ends. *)
Theorem cohort_trylock_strands :
  ∃ m pool, reaches (cohorts_init 10) stranding m pool ∧
    ended <$> pool !! 0%nat = Some true ∧ ended <$> pool !! 1%nat = Some true ∧
    ∀ m' pool', reaches m pool m' pool' → ended <$> pool' !! 2%nat = Some false.
Proof.
  pose proof (schedule_sound stranding_turns (cohorts_init 10) stranding) as Hr. change (schedule _ _) with stranded in Hr.
  assert (ended <$> stranded.2 !! 0%nat = Some true) as H0 by (vm_compute; reflexivity).
  assert (ended <$> stranded.2 !! 1%nat = Some true) as H1 by (vm_compute; reflexivity).
  assert (length stranded.2 = 3%nat) as Hlen by (vm_compute; reflexivity).
  assert (stranded.2 !! 2%nat = Some (cohort_lock two_cohorts loc_whole 2)) as H2.
  { unfold stranded. rewrite schedule_other; [done|]. by apply (bool_decide_unpack _). }
  assert (fas_value (cm_global stranded.1) = 1 ∧ co_release_state (cm_cohort stranded.1 1) = 0) as Hs.
  { split; vm_compute; reflexivity. }
  exists stranded.1, stranded.2. split; [exact Hr|]. split; [exact H0|]. split; [exact H1|].
  intros m' pool'. by apply stranded_never.
Qed.
