(* ===== verification/CkRwcohort.v ===== *)
(** CkRwcohort: the reader-writer cohort locks of Concurrency Kit, include/aerospike/ck/ck_rwcohort.h, which prefer
    writers (WP) or readers (RP), or neither (NEUTRAL): a count of readers beside the cohort locks of CkCohort.  They
    satisfy the laws of CkRwMutex. *)

From Stdlib Require Import ZArith Lia.
From stdpp Require Import base list.
From S2P Require Import Prelude Concurrent CkPr CkMutex CkCohort CkRwlock CkRwMutex.

#[local] Open Scope Z_scope.
#[local] Set Warnings "-clear-no-such-hyp".

(** ** Preferring writers *)

(** [src: include/aerospike/ck/ck_rwcohort.h 56-60 CK_RWCOHORT_WP_INSTANCE] *)
Record ck_rwcohort_wp : Type := MkWp { wp_read_counter : Z; wp_write_barrier : Z; wp_wait_limit : Z }.
Definition wp_read_counter_loc : loc ck_rwcohort_wp Z := MkLoc wp_read_counter (λ v x, MkWp v (wp_write_barrier x) (wp_wait_limit x)).
Definition wp_write_barrier_loc : loc ck_rwcohort_wp Z := MkLoc wp_write_barrier (λ v x, MkWp (wp_read_counter x) v (wp_wait_limit x)).
Definition wp_wait_limit_loc : loc ck_rwcohort_wp Z := MkLoc wp_wait_limit (λ v x, MkWp (wp_read_counter x) (wp_write_barrier x) v).

(** [src: include/aerospike/ck/ck_rwcohort.h 61-71 ck_rwcohort_wp_##N##_init] *)
Definition ck_rwcohort_wp_init (wait_limit : Z) : ck_rwcohort_wp := MkWp 0 0 wait_limit.

(** [src: include/aerospike/ck/ck_rwcohort.h 53-53 CK_RWCOHORT_WP_DEFAULT_WAIT_LIMIT] *)
Definition CK_RWCOHORT_WP_DEFAULT_WAIT_LIMIT : Z := 1000.

(** [src: include/aerospike/ck/ck_rwcohort.h 140-144 CK_RWCOHORT_WP_INITIALIZER] *)
Definition CK_RWCOHORT_WP_INITIALIZER : ck_rwcohort_wp := MkWp 0 0 0.

(** [while (ck_pr_load_uint(x) > 0) ck_pr_stall()]. *)
Definition while_positive {S} (x : loc S Z) : prog S unit := while (v ← ck_pr_load x; mret (0 <? v)) stall.

(** What a thread counts while it waits: [if (++wait_count > wait_limit && raised == false)], the barrier is raised. *)
Definition raise_after {S} (wait_limit barrier : loc S Z) (c : Z * bool) : prog S (Z * bool) :=
  let wait_count := u32 (c.1 + 1) in
  l ← ck_pr_load wait_limit;
  if (l <? wait_count) && negb c.2 then ck_pr_inc 32 barrier;; mret (wait_count, true)
  else mret (wait_count, c.2).

(** [while (cond) { ck_pr_stall(); … }]. *)
Definition wait_raising {S} (cond : prog S bool) (wait_limit barrier : loc S Z) : Z * bool → prog S (Z * bool) :=
  loop (λ c, b ← cond; if (b : bool) then stall;; c ← raise_after wait_limit barrier c; mret (inl c) else mret (inr c)).

Section wp.
Context (co : nat → nat) {S : Type} (cm : loc S cohort_memory) (rw_cohort : loc S ck_rwcohort_wp) (i : nat).
Abbreviation read_counter := (rw_cohort →' wp_read_counter_loc).
Abbreviation write_barrier := (rw_cohort →' wp_write_barrier_loc).
Abbreviation wait_limit := (rw_cohort →' wp_wait_limit_loc).

(** [src: include/aerospike/ck/ck_rwcohort.h 72-87 ck_rwcohort_wp_##N##_write_lock] *)
Definition ck_rwcohort_wp_write_lock : prog S unit :=
  while_positive write_barrier;;
  cohort_lock co cm i;;
  while_positive read_counter.

(** [src: include/aerospike/ck/ck_rwcohort.h 88-97 ck_rwcohort_wp_##N##_write_unlock] *)
Definition ck_rwcohort_wp_write_unlock : prog S unit := cohort_unlock co cm i.

(** [src: include/aerospike/ck/ck_rwcohort.h 98-130 ck_rwcohort_wp_##N##_read_lock] *)
Definition ck_rwcohort_wp_read_lock : prog S unit :=
  raised ← loop (λ c : Z * bool,
    ck_pr_inc 32 read_counter;;
    b ← cohort_locked co cm i;
    if negb b then mret (inr c.2)
    else
      ck_pr_dec 32 read_counter;;
      c ← wait_raising (cohort_locked co cm i) wait_limit write_barrier c;
      mret (inl c)) (0, false);
  if (raised : bool) then ck_pr_dec 32 write_barrier else mret tt.

(** [src: include/aerospike/ck/ck_rwcohort.h 131-138 ck_rwcohort_wp_##N##_read_unlock] *)
Definition ck_rwcohort_wp_read_unlock : prog S unit := ck_pr_dec 32 read_counter.
End wp.

(** ** Preferring readers *)

(** [src: include/aerospike/ck/ck_rwcohort.h 160-164 CK_RWCOHORT_RP_INSTANCE] *)
Record ck_rwcohort_rp : Type := MkRp { rp_read_counter : Z; rp_read_barrier : Z; rp_wait_limit : Z }.
Definition rp_read_counter_loc : loc ck_rwcohort_rp Z := MkLoc rp_read_counter (λ v x, MkRp v (rp_read_barrier x) (rp_wait_limit x)).
Definition rp_read_barrier_loc : loc ck_rwcohort_rp Z := MkLoc rp_read_barrier (λ v x, MkRp (rp_read_counter x) v (rp_wait_limit x)).
Definition rp_wait_limit_loc : loc ck_rwcohort_rp Z := MkLoc rp_wait_limit (λ v x, MkRp (rp_read_counter x) (rp_read_barrier x) v).

(** [src: include/aerospike/ck/ck_rwcohort.h 165-175 ck_rwcohort_rp_##N##_init] *)
Definition ck_rwcohort_rp_init (wait_limit : Z) : ck_rwcohort_rp := MkRp 0 0 wait_limit.

(** [src: include/aerospike/ck/ck_rwcohort.h 157-157 CK_RWCOHORT_RP_DEFAULT_WAIT_LIMIT] *)
Definition CK_RWCOHORT_RP_DEFAULT_WAIT_LIMIT : Z := 1000.

(** [src: include/aerospike/ck/ck_rwcohort.h 241-245 CK_RWCOHORT_RP_INITIALIZER] *)
Definition CK_RWCOHORT_RP_INITIALIZER : ck_rwcohort_rp := MkRp 0 0 0.

Section rp.
Context (co : nat → nat) {S : Type} (cm : loc S cohort_memory) (rw_cohort : loc S ck_rwcohort_rp) (i : nat).
Abbreviation read_counter := (rw_cohort →' rp_read_counter_loc).
Abbreviation read_barrier := (rw_cohort →' rp_read_barrier_loc).
Abbreviation wait_limit := (rw_cohort →' rp_wait_limit_loc).

(** [src: include/aerospike/ck/ck_rwcohort.h 176-204 ck_rwcohort_rp_##N##_write_lock] *)
Definition ck_rwcohort_rp_write_lock : prog S unit :=
  raised ← loop (λ c : Z * bool,
    cohort_lock co cm i;;
    n ← ck_pr_load read_counter;
    if n =? 0 then mret (inr c.2)
    else
      cohort_unlock co cm i;;
      c ← wait_raising (v ← ck_pr_load read_counter; mret (0 <? v)) wait_limit read_barrier c;
      mret (inl c)) (0, false);
  if (raised : bool) then ck_pr_dec 32 read_barrier else mret tt.

(** [src: include/aerospike/ck/ck_rwcohort.h 205-213 ck_rwcohort_rp_##N##_write_unlock] *)
Definition ck_rwcohort_rp_write_unlock : prog S unit := cohort_unlock co cm i.

(** [src: include/aerospike/ck/ck_rwcohort.h 214-231 ck_rwcohort_rp_##N##_read_lock] *)
Definition ck_rwcohort_rp_read_lock : prog S unit :=
  while_positive read_barrier;;
  ck_pr_inc 32 read_counter;;
  while (cohort_locked co cm i) stall.

(** [src: include/aerospike/ck/ck_rwcohort.h 232-239 ck_rwcohort_rp_##N##_read_unlock] *)
Definition ck_rwcohort_rp_read_unlock : prog S unit := ck_pr_dec 32 read_counter.
End rp.

(** ** Neither *)

(** [src: include/aerospike/ck/ck_rwcohort.h 261-263 CK_RWCOHORT_NEUTRAL_INSTANCE] *)
Record ck_rwcohort_neutral : Type := MkNeutral { ne_read_counter : Z }.
Definition ne_read_counter_loc : loc ck_rwcohort_neutral Z := MkLoc ne_read_counter (λ v _, MkNeutral v).

(** [src: include/aerospike/ck/ck_rwcohort.h 264-271 ck_rwcohort_neutral_##N##_init] *)
Definition ck_rwcohort_neutral_init : ck_rwcohort_neutral := MkNeutral 0.

(** [src: include/aerospike/ck/ck_rwcohort.h 313-315 CK_RWCOHORT_NEUTRAL_INITIALIZER] *)
Definition CK_RWCOHORT_NEUTRAL_INITIALIZER : ck_rwcohort_neutral := MkNeutral 0.

(** [src: include/aerospike/ck/ck_rwcohort.h 258-258 CK_RWCOHORT_NEUTRAL_DEFAULT_WAIT_LIMIT] *)
Definition CK_RWCOHORT_NEUTRAL_DEFAULT_WAIT_LIMIT : Z := 1000.

Section neutral.
Context (co : nat → nat) {S : Type} (cm : loc S cohort_memory) (rw_cohort : loc S ck_rwcohort_neutral) (i : nat).
Abbreviation read_counter := (rw_cohort →' ne_read_counter_loc).

(** [src: include/aerospike/ck/ck_rwcohort.h 272-283 ck_rwcohort_neutral_##N##_write_lock] *)
Definition ck_rwcohort_neutral_write_lock : prog S unit := cohort_lock co cm i;; while_positive read_counter.

(** [src: include/aerospike/ck/ck_rwcohort.h 284-292 ck_rwcohort_neutral_##N##_write_unlock] *)
Definition ck_rwcohort_neutral_write_unlock : prog S unit := cohort_unlock co cm i.

(** [src: include/aerospike/ck/ck_rwcohort.h 293-303 ck_rwcohort_neutral_##N##_read_lock] *)
Definition ck_rwcohort_neutral_read_lock : prog S unit :=
  cohort_lock co cm i;;
  ck_pr_inc 32 read_counter;;
  cohort_unlock co cm i.

(** [src: include/aerospike/ck/ck_rwcohort.h 304-311 ck_rwcohort_neutral_##N##_read_unlock] *)
Definition ck_rwcohort_neutral_read_unlock : prog S unit := ck_pr_dec 32 read_counter.
End neutral.

(** ** As locks of CkRwMutex *)

(** The cohorts, and the reader-writer lock. *)
Definition rc_cohorts {X} : loc (cohort_memory * X) cohort_memory := MkLoc fst (λ v x, (v, x.2)).
Definition rc_lock {X} : loc (cohort_memory * X) X := MkLoc snd (λ v x, (x.1, v)).

Section instances.
Context (co : nat → nat) (pass_limit wait_limit : Z).

Definition rwcohort_wp : RwSpinlock (cohort_memory * ck_rwcohort_wp) := {|
  rws_init := (cohorts_init pass_limit, ck_rwcohort_wp_init wait_limit);
  rws_reads S i := [waits (λ l, ck_rwcohort_wp_read_lock co (l →' rc_cohorts) (l →' rc_lock) i)];
  rws_read_unlock S i := λ l, ck_rwcohort_wp_read_unlock (l →' rc_lock);
  rws_writes S i := [MkWay (waits (λ l, ck_rwcohort_wp_write_lock co (l →' rc_cohorts) (l →' rc_lock) i))
    (λ l, ck_rwcohort_wp_write_unlock co (l →' rc_cohorts) i) None];
  rws_may_write i := true
|}.

Definition rwcohort_rp : RwSpinlock (cohort_memory * ck_rwcohort_rp) := {|
  rws_init := (cohorts_init pass_limit, ck_rwcohort_rp_init wait_limit);
  rws_reads S i := [waits (λ l, ck_rwcohort_rp_read_lock co (l →' rc_cohorts) (l →' rc_lock) i)];
  rws_read_unlock S i := λ l, ck_rwcohort_rp_read_unlock (l →' rc_lock);
  rws_writes S i := [MkWay (waits (λ l, ck_rwcohort_rp_write_lock co (l →' rc_cohorts) (l →' rc_lock) i))
    (λ l, ck_rwcohort_rp_write_unlock co (l →' rc_cohorts) i) None];
  rws_may_write i := true
|}.

Definition rwcohort_neutral : RwSpinlock (cohort_memory * ck_rwcohort_neutral) := {|
  rws_init := (cohorts_init pass_limit, ck_rwcohort_neutral_init);
  rws_reads S i := [waits (λ l, ck_rwcohort_neutral_read_lock co (l →' rc_cohorts) (l →' rc_lock) i)];
  rws_read_unlock S i := λ l, ck_rwcohort_neutral_read_unlock (l →' rc_lock);
  rws_writes S i := [MkWay (waits (λ l, ck_rwcohort_neutral_write_lock co (l →' rc_cohorts) (l →' rc_lock) i))
    (λ l, ck_rwcohort_neutral_write_unlock co (l →' rc_cohorts) i) None];
  rws_may_write i := true
|}.
End instances.

(** ** The invariant *)

(** What a thread does with the count of readers: nothing; it is counted; it reads, and is counted; it writes. *)
Inductive rc_role : Type := RcOut | RcCounted | RcReads | RcWrites.
Definition rc_counted (g : co_ghost * rc_role) : bool := match g.2 with RcCounted | RcReads => true | _ => false end.

Section invariant.
Context (co : nat → nat) {X : Type} (count : loc X Z).
Abbreviation rc_ghost := (co_ghost * rc_role)%type.

Record rc_inv (t : cohort_memory * X) (gs : list rc_ghost) : Prop := {
  rc_co : co_inv co t.1 gs.*1;
  rc_count : loc_get count t.2 = tally rc_counted gs;
  rc_writes i g : gs !! i = Some (g, RcWrites) → g = CoHold ∧ ∀ j g', gs !! j ≠ Some (g', RcReads);
  rc_max : Z.of_nat (length gs) < 4294967296
}.

(** The thread goes on: it writes only with the lock, and not while another reads. *)
Lemma rc_move m x x' m' gs i g g' :
  rc_inv (m, x) gs → gs !! i = Some g → co_inv co m' (<[i := g'.1]> gs.*1) →
  loc_get count x' = loc_get count x - Z.b2z (rc_counted g) + Z.b2z (rc_counted g') →
  (g'.2 = RcWrites → g'.1 = CoHold ∧ ∀ j y, gs !! j = Some y → y.2 ≠ RcReads) →
  (g'.2 = RcReads → g.2 = RcReads ∨ ∀ j y, gs !! j = Some y → y.2 ≠ RcWrites) →
  rc_inv (m', x') (<[i := g']> gs).
Proof.
  intros [HC Hn Hw Hmax] Hi HC' Hx Hwr Hrd. cbn [fst snd] in *. split; cbn [fst snd].
  - by rewrite list_fmap_insert.
  - by rewrite Hx, (tally_insert _ _ _ _ _ Hi), Hn.
  - intros j y [[-> E]|[Hne Hj]]%insert_case.
    + subst g'. destruct (Hwr eq_refl) as [H1 H2]. split; [done|]. intros k z [[-> E]|[Hk Hz]]%insert_case; [done|].
      by apply (H2 k _ Hz).
    + destruct (Hw j y Hj) as [H1 H2]. split; [done|]. intros k z [[-> E]|[Hk Hz]]%insert_case; [|by eapply H2].
      subst g'. destruct (Hrd eq_refl) as [Er|Hno]; [|by apply (Hno j _ Hj)]. destruct g as [g r]. cbn in Er. subst r.
      by apply (H2 i g).
  - by rewrite length_insert.
Qed.

(** A thread that writes, or has the lock and no one reads, is alone with it. *)
Lemma rc_holder t gs i j g y :
  rc_inv t gs → gs !! i = Some (CoHold, g) → gs !! j = Some (y, RcWrites) → i = j.
Proof.
  intros HI Hi Hj. destruct (rc_writes _ _ HI j y Hj) as [-> _]. eapply (co_inv_excl co _ _ _ _ (rc_co _ _ HI));
    rewrite list_lookup_fmap; [by rewrite Hi|by rewrite Hj].
Qed.

Lemma rc_excl t gs i j g g' :
  rc_inv t gs → gs !! i = Some g → gs !! j = Some g' → g.2 = RcWrites → g'.2 ≠ RcReads ∧ (g'.2 = RcWrites → i = j).
Proof.
  intros HI Hi Hj Hg. destruct g as [g r], g' as [g' r']. cbn in *. subst r. destruct (rc_writes _ _ HI i g Hi) as [-> Hn].
  split; [intros ->; by apply (Hn j g')|]. intros ->. by eapply rc_holder.
Qed.

Lemma rc_inv_init pass_limit x n :
  loc_get count x = 0 → Z.of_nat n < 4294967296 → rc_inv (cohorts_init pass_limit, x) (replicate n (CoOut, RcOut)).
Proof.
  intros Hx Hn. split; cbn.
  - rewrite fmap_replicate. apply co_inv_init.
  - rewrite Hx, tally_zero; [done|]. by intros i g [-> _]%lookup_replicate.
  - by intros i g [[=] _]%lookup_replicate.
  - by rewrite length_replicate.
Qed.
End invariant.

(** ** The steps *)

Section steps.
Context (co : nat → nat) {X : Type} (count : loc X Z) (Hcount : ∀ v x, loc_get count (loc_set count v x) = v).
Abbreviation T := (cohort_memory * X)%type.
Abbreviation rc_ghost := (co_ghost * rc_role)%type.
Context (R : list rw_mark → list (rc_ghost * rw_role) → Prop) (Rs : rws_stable R).
Abbreviation rc_wp := (rws_wp (rc_inv co count) R).
Abbreviation the_rc := (MkLoc fst (λ (x : T) (m : T * list rw_mark), (x, m.2))).
Abbreviation cm := (the_rc →' rc_cohorts).
Abbreviation counter := (the_rc →' rc_lock →' count).

(** The steps of the cohort lock, in the memory of the clients. *)
Lemma rc_view :
  view (framed (rc_inv co count) R) cm (co_inv co) (λ x : rc_ghost * rw_role, x.1.1) (λ g x, ((g, x.1.2), x.2))
    (λ x, x.1.2 ≠ RcWrites ∧ x.2 = RoleOut).
Proof using Rs.
  split.
  - intros [[m x] tr] ls [HI _]. pose proof (rc_co _ _ _ _ HI) as HC. by rewrite <- list_fmap_compose in HC.
  - intros [[m x] tr] ls i [[g r] f] m' g' [HI HU] Hi [Hr Hf] HC. cbn in *. subst f. split; cbn [fst snd].
    + rewrite list_fmap_insert. cbn. eapply rc_move; [exact HI|by rewrite list_lookup_fmap, Hi| | | |].
      * by rewrite <- list_fmap_compose.
      * cbn. by destruct r; cbn; lia.
      * done.
      * cbn. intros ->. by left.
    + by eapply Rs.
  - by intros [[m x] tr].
  - done.
  - done.
  - done.
  - by intros [[g r] f].
Qed.

Lemma rc_cohort_wp n {A} (t : prog (T * list rw_mark) A) i (Q : A → co_ghost → Prop) g r :
  view_wp (framed (rc_inv co count) R) (λ x : rc_ghost * rw_role, x.1.1) (λ g x, ((g, x.1.2), x.2))
    (λ x, x.1.2 ≠ RcWrites ∧ x.2 = RoleOut) n t i Q g →
  r ≠ RcWrites → rc_wp n t i (λ a y, ∃ g', y = (g', r) ∧ Q a g') (g, r).
Proof.
  intros H Hr. eapply wp_mono; [by apply H|]. intros a y (g' & -> & HQ). split; [done|]. by exists g'.
Qed.

(** A step on the reader-writer lock, or a look at the whole. *)
Lemma rc_step_wp n i {A} (f : T * list rw_mark → outcome (A * (T * list rw_mark))) (a : T → A) (u : X → X) (Q : A → rc_ghost → Prop) g :
  (∀ m x tr, f (m, x, tr) = Ret (a (m, x), (m, u x, tr))) →
  (∀ m x gs, rc_inv co count (m, x) gs → gs !! i = Some g →
     ∃ r, let g' := (g.1, r) in
       loc_get count (u x) = loc_get count x - Z.b2z (rc_counted g) + Z.b2z (rc_counted g') ∧
       (r = RcWrites → g.1 = CoHold ∧ ∀ j y, gs !! j = Some y → y.2 ≠ RcReads) ∧
       (r = RcReads → g.2 = RcReads ∨ ∀ j y, gs !! j = Some y → y.2 ≠ RcWrites) ∧
       Q (a (m, x)) g') →
  rc_wp n (atomic f) i Q g.
Proof using Rs.
  intros Hf H. apply outside_wp_atomic; [done|]. intros [m x] tr gs HI Hi. destruct (H m x gs HI Hi) as (r & Hx & Hw & Hr & HQ).
  exists (a (m, x)), (m, u x), (g.1, r). split; [apply Hf|]. split; [|done]. eapply rc_move; [done|exact Hi| |done|done|done].
  rewrite list_insert_id; [apply (rc_co _ _ _ _ HI)|]. by rewrite list_lookup_fmap, Hi.
Qed.

(** The other members. *)
Lemma rc_look_wp n i {A} (f : T * list rw_mark → outcome (A * (T * list rw_mark))) (a : T → A) (u : X → X) g :
  (∀ m x tr, f (m, x, tr) = Ret (a (m, x), (m, u x, tr))) → (∀ x, loc_get count (u x) = loc_get count x) → rc_wp n (atomic f) i (λ _ y, y = g) g.
Proof using Rs.
  intros Hf Hu. apply (rc_step_wp _ _ _ a u); [done|]. intros m x gs HI Hi. exists g.2. rewrite Hu. destruct g as [g r]. cbn in *.
  split; [destruct r; cbn; lia|]. split; [|split; [by left|done]]. intros ->. destruct (rc_writes _ _ _ _ HI i g Hi) as [Hg Hn].
  split; [done|]. intros j [y r] Hj Hy. cbn in Hy. subst r. by apply (Hn j y).
Qed.

Lemma rc_count_room x m gs i g : rc_inv co count (m, x) gs → gs !! i = Some g → rc_counted g = false →
  0 ≤ loc_get count x ∧ loc_get count x + 1 < 4294967296.
Proof.
  intros HI Hi Hg. pose proof (rc_count _ _ _ _ HI) as E. cbn in E. pose proof (tally_range rc_counted gs).
  pose proof (tally_other rc_counted gs i g Hi Hg). pose proof (rc_max _ _ _ _ HI). lia.
Qed.

(** The thread is counted; one that holds the lock reads at once. *)
Lemma rc_inc_wp n i g :
  rc_wp n (ck_pr_inc 32 counter) i (λ _ y, y = (g, if decide (g = CoHold) then RcReads else RcCounted)) (g, RcOut).
Proof using Rs Hcount.
  apply (rc_step_wp _ _ _ (λ _, tt) (λ x, loc_set count (uwrap 32 (loc_get count x + 1)) x)); [done|].
  intros m x gs HI Hi. exists (if decide (g = CoHold) then RcReads else RcCounted). cbn.
  pose proof (rc_count_room _ _ _ _ _ HI Hi eq_refl). rewrite Hcount, u32_small by lia.
  split; [case_decide; cbn; lia|]. split; [by case_decide|]. split; [|done]. case_decide as Eg; [|done]. intros _. right. subst g.
  intros j [y r] Hj Hy. cbn in Hy. subst r. pose proof (rc_holder _ _ _ _ _ _ _ _ HI Hi Hj) as ->. congruence.
Qed.

Lemma rc_dec_wp n i g : rc_counted g = true → rc_wp n (ck_pr_dec 32 counter) i (λ _ y, y = (g.1, RcOut)) g.
Proof using Rs Hcount.
  intros Hg. apply (rc_step_wp _ _ _ (λ _, tt) (λ x, loc_set count (uwrap 32 (loc_get count x - 1)) x)); [done|].
  intros m x gs HI Hi. exists RcOut. cbn. pose proof (rc_count _ _ _ _ HI) as E. cbn in E.
  pose proof (tally_range rc_counted gs). pose proof (tally_pos rc_counted gs i g Hi Hg). pose proof (rc_max _ _ _ _ HI).
  rewrite Hcount, u32_small, Hg by lia. cbn. by repeat split; [lia|..].
Qed.

(** The holder of the lock writes when it sees that nobody is counted. *)
Lemma rc_see_none_wp n i :
  rc_wp n (ck_pr_load counter) i (λ v y, 0 ≤ v ∧ y = (CoHold, if v =? 0 then RcWrites else RcOut)) (CoHold, RcOut).
Proof using Rs.
  apply (rc_step_wp _ _ _ (λ t, loc_get count t.2) id); [done|]. intros m x gs HI Hi. cbn. unfold id.
  pose proof (rc_count _ _ _ _ HI) as E. cbn in E. pose proof (tally_range rc_counted gs).
  exists (if loc_get count x =? 0 then RcWrites else RcOut). destruct (Z.eqb_spec (loc_get count x) 0) as [E0|E0]; cbn.
  - split; [lia|]. split; [|split; [done|split; [lia|done]]]. intros _. split; [done|]. intros j y Hj Hy.
    assert (rc_counted y = true) as Hc by (unfold rc_counted; by rewrite Hy). pose proof (tally_pos rc_counted gs j y Hj Hc). lia.
  - repeat split; try done; lia.
Qed.

(** A thread that is counted reads when it sees that the global lock is free. *)
Lemma rc_see_free_wp n i :
  rc_wp n (ck_pr_load (cm →' cm_global_loc →' fas_value_loc)) i (λ v y, y = (CoOut, if v =? 0 then RcReads else RcCounted)) (CoOut, RcCounted).
Proof using Rs.
  apply (rc_step_wp _ _ _ (λ t, fas_value (cm_global t.1)) id); [done|]. intros m x gs HI Hi. cbn. unfold id.
  exists (if fas_value (cm_global m) =? 0 then RcReads else RcCounted).
  destruct (Z.eqb_spec (fas_value (cm_global m)) 0) as [E0|E0]; cbn; [|repeat split; (done || lia)].
  split; [lia|]. split; [done|]. split; [|done]. intros _. right. intros j [y r] Hj Hy. cbn in Hy. subst r.
  destruct (rc_writes _ _ _ _ HI j y Hj) as [-> _]. destruct (rc_co _ _ _ _ HI) as [owner HC].
  assert (gs.*1 !! j = Some CoHold) as Hj' by (by rewrite list_lookup_fmap, Hj).
  pose proof (cs_hold _ _ _ _ HC j Hj') as Ho. pose proof (cs_global _ _ _ _ HC) as Eg. cbn in Eg. rewrite Ho in Eg. lia.
Qed.

(** *** The cohort lock *)

Lemma rc_lock_wp n i r : r ≠ RcWrites → rc_wp n (cohort_lock co cm i) i (λ _ y, y = (CoHold, r)) (CoOut, r).
Proof using Rs.
  intros Hr. eapply outside_wp_mono; [apply rc_cohort_wp; [apply (cohort_lock_wp co rc_view)|done]|]. by intros _ y (g & -> & ->).
Qed.

Lemma rc_unlock_wp n i r : r ≠ RcWrites → rc_wp n (cohort_unlock co cm i) i (λ _ y, y = (CoOut, r)) (CoHold, r).
Proof using Rs.
  intros Hr. eapply outside_wp_mono; [apply rc_cohort_wp; [apply (cohort_unlock_wp co rc_view)|done]|]. by intros _ y (g & -> & ->).
Qed.

(** The writer leaves: it writes no more when it looks at what waits. *)
Lemma rc_write_unlock_wp n i : rc_wp n (cohort_unlock co cm i) i (λ _ y, y = (CoOut, RcOut)) (CoHold, RcWrites).
Proof using Rs.
  apply outside_wp_bind. eapply (outside_wp_mono _ _ _ _ _ _ _ (λ _ y, y = (CoHold, RcOut))).
  - apply (rc_step_wp _ _ _ (λ t, co_waiting_threads (cm_cohort t.1 (co i))) id); [done|]. intros m x gs HI Hi. exists RcOut. cbn.
    unfold id. repeat split; (done || lia).
  - intros w y ->. eapply outside_wp_mono; [apply rc_cohort_wp; [apply (cohort_unlock_rest_wp co rc_view)|done]|].
    by intros _ y (g & -> & ->).
Qed.

Lemma rc_locked_out_wp n i : rc_wp n (cohort_locked co cm i) i (λ _ y, y = (CoOut, RcOut)) (CoOut, RcOut).
Proof using Rs.
  eapply outside_wp_mono; [apply rc_cohort_wp; [apply (cohort_locked_wp co rc_view)|done]|]. by intros _ y (g & -> & ->).
Qed.

(** A thread that is counted asks whether the cohort lock is taken. *)
Lemma rc_locked_wp n i :
  rc_wp n (cohort_locked co cm i) i (λ b y, y = (CoOut, if (b : bool) then RcCounted else RcReads)) (CoOut, RcCounted).
Proof using Rs.
  apply outside_wp_bind. eapply (outside_wp_mono _ _ _ _ _ _ _ (λ _ y, y = (CoOut, RcCounted))).
  - apply outside_wp_bind. eapply outside_wp_mono.
    + apply (rc_look_wp _ _ _ (λ t, fas_value (cm_local t.1 (co i))) id); done.
    + intros v y ->. by apply outside_wp_ret.
  - intros [] y ->; [by apply outside_wp_ret|]. apply outside_wp_bind. eapply outside_wp_mono; [apply rc_see_free_wp|].
    intros v y ->. apply outside_wp_ret. by destruct (v =? 0).
Qed.

(** *** Waiting *)

Lemma rc_load_wp n i (x : loc X Z) g : rc_wp n (ck_pr_load (the_rc →' rc_lock →' x)) i (λ _ y, y = g) g.
Proof using Rs. by apply (rc_look_wp _ _ _ (λ t, loc_get x t.2) id). Qed.

Lemma rc_while_positive_wp n i (x : loc X Z) g : rc_wp n (while_positive (the_rc →' rc_lock →' x)) i (λ _ y, y = g) g.
Proof using Rs.
  apply (outside_wp_while _ _ _ _ _ _ (λ y, y = g)); [done|]. intros m y ->. apply outside_wp_bind.
  eapply outside_wp_mono; [by apply rc_load_wp|]. intros v y ->. apply outside_wp_ret. by destruct (0 <? v); [apply outside_wp_stall|].
Qed.

Lemma rc_wait_readers_wp n i : rc_wp n (while_positive counter) i (λ _ y, y = (CoHold, RcWrites)) (CoHold, RcOut).
Proof using Rs.
  apply (outside_wp_while _ _ _ _ _ _ (λ y, y = (CoHold, RcOut))); [done|]. intros m y ->. apply outside_wp_bind.
  eapply outside_wp_mono; [apply rc_see_none_wp|]. intros v y [Hv ->]. apply outside_wp_ret.
  destruct (Z.eqb_spec v 0) as [->|Hne]; [done|]. rewrite (proj2 (Z.ltb_lt 0 v)) by lia. by apply outside_wp_stall.
Qed.

Section raising.
Context (limit barrier : loc X Z) (Hb : ∀ v x, loc_get count (loc_set barrier v x) = loc_get count x).

Lemma rc_inc_barrier_wp n i g : rc_wp n (ck_pr_inc 32 (the_rc →' rc_lock →' barrier)) i (λ _ y, y = g) g.
Proof using Rs Hb.
  apply (rc_look_wp _ _ _ (λ _, tt) (λ x, loc_set barrier (uwrap 32 (loc_get barrier x + 1)) x)); [done|intros; apply Hb].
Qed.

Lemma rc_dec_barrier_wp n i g : rc_wp n (ck_pr_dec 32 (the_rc →' rc_lock →' barrier)) i (λ _ y, y = g) g.
Proof using Rs Hb.
  apply (rc_look_wp _ _ _ (λ _, tt) (λ x, loc_set barrier (uwrap 32 (loc_get barrier x - 1)) x)); [done|intros; apply Hb].
Qed.

Lemma rc_wait_raising_wp n i (cond : prog (T * list rw_mark) bool) c g :
  (∀ n, rc_wp n cond i (λ _ y, y = g) g) →
  rc_wp n (wait_raising cond (the_rc →' rc_lock →' limit) (the_rc →' rc_lock →' barrier) c) i (λ _ y, y = g) g.
Proof using Rs Hb.
  intros Hc. apply (outside_wp_loop _ _ _ _ _ _ _ (λ _ y, y = g)); [done|]. clear c. intros m c y ->. apply outside_wp_bind.
  eapply outside_wp_mono; [apply Hc|]. intros [] y ->; [|by apply outside_wp_ret]. apply outside_wp_bind, outside_wp_stall.
  apply outside_wp_bind. eapply (outside_wp_mono _ _ _ _ _ _ _ (λ _ y, y = g)); [|intros d y ->; by apply outside_wp_ret].
  apply outside_wp_bind. eapply outside_wp_mono; [by apply rc_load_wp|]. intros v y ->.
  destruct (_ && _); [|by apply outside_wp_ret]. apply outside_wp_bind.
  eapply outside_wp_mono; [by apply rc_inc_barrier_wp|]. intros _ y ->. by apply outside_wp_ret.
Qed.
End raising.
End steps.

(** ** The laws *)

(** A lock that is a count beside the cohorts. *)
Abbreviation rc_at_rest := (λ g : co_ghost * rc_role, g = (CoOut, RcOut)).
Abbreviation rc_reading := (λ g : co_ghost * rc_role, g = (CoOut, RcReads)).
Abbreviation rc_writing := (λ g : co_ghost * rc_role, g = (CoHold, RcWrites)).

Lemma rc_laws_excl co {X} (count : loc X Z) s gs i j (g g' : co_ghost * rc_role) :
  rc_inv co count s gs → gs !! i = Some g → gs !! j = Some g' → rc_writing g →
  (rc_reading g' → False) ∧ (rc_writing g' → i = j).
Proof.
  intros HI Hi Hj ->. destruct (rc_excl _ _ _ _ _ _ _ _ HI Hi Hj eq_refl) as [H1 H2]. split; [by intros ->|]. intros ->. by apply H2.
Qed.

Section laws.
Context (co : nat → nat) (pass_limit wait_limit : Z).

#[export] Program Instance rwcohort_wp_laws :
  @RwSpinlockLaws (cohort_memory * ck_rwcohort_wp) (rwcohort_wp co pass_limit wait_limit) (Z.to_nat 4294967295) := {|
  rwg := co_ghost * rc_role; rwg_idle := (CoOut, RcOut); rests := rc_at_rest; reading := rc_reading; writing := λ _, rc_writing;
  rws_inv := rc_inv co wp_read_counter_loc
|}.
Next Obligation. done. Qed.
Next Obligation. intros n Hn. apply rc_inv_init; [done|lia]. Qed.
Next Obligation. intros s gs i j g g' k HI Hi Hj Hg. destruct (rc_laws_excl _ _ _ _ _ _ _ _ HI Hi Hj Hg). by split; [|intros _]. Qed.
Next Obligation.
  intros R n i k f g HR Hk ->. destruct k as [|k]; [|done]. injection Hk as <-. apply outside_wp_bind.
  eapply (outside_wp_mono _ _ _ _ _ _ _ (λ _, rc_reading)); [|intros _ y ->; by apply outside_wp_ret]. apply outside_wp_bind.
  eapply (outside_wp_mono _ _ _ _ _ _ _ (λ _, rc_reading)).
  - apply (outside_wp_loop _ _ _ _ _ _ _ (λ _, rc_at_rest)); [done|]. intros m c y ->. apply outside_wp_bind.
    eapply outside_wp_mono; [by apply rc_inc_wp|]. intros _ y ->. rewrite decide_False by done. apply outside_wp_bind.
    eapply outside_wp_mono; [by apply rc_locked_wp|]. intros [] y ->; cbn [negb]; [|by apply outside_wp_ret]. apply outside_wp_bind.
    eapply outside_wp_mono; [by apply rc_dec_wp|]. intros _ y ->. apply outside_wp_bind.
    eapply outside_wp_mono; [apply (rc_wait_raising_wp co _ R HR wp_wait_limit_loc wp_write_barrier_loc); [done|]|].
    + intros n'. by apply rc_locked_out_wp.
    + intros d y ->. by apply outside_wp_ret.
  - intros raised y ->. destruct raised; [|by apply outside_wp_ret]. by apply (rc_dec_barrier_wp co _ R HR wp_write_barrier_loc).
Qed.
Next Obligation. intros R n i g HR ->. eapply outside_wp_mono; [by apply rc_dec_wp|]. by intros _ y ->. Qed.
Next Obligation.
  intros R n i k w g HR Hk _ ->. destruct k as [|k]; [|done]. injection Hk as <-. apply outside_wp_bind.
  eapply (outside_wp_mono _ _ _ _ _ _ _ (λ _, rc_writing)); [|intros _ y ->; by apply outside_wp_ret]. apply outside_wp_bind.
  eapply outside_wp_mono; [by apply (rc_while_positive_wp co _ R HR _ _ wp_write_barrier_loc)|]. intros _ y ->. apply outside_wp_bind.
  eapply outside_wp_mono; [by apply rc_lock_wp|]. intros _ y ->. by apply rc_wait_readers_wp.
Qed.
Next Obligation. intros R n i k w g HR Hk _ ->. destruct k as [|k]; [|done]. injection Hk as <-. by apply rc_write_unlock_wp. Qed.
Next Obligation. intros R n i k w d g HR Hk Hd. destruct k as [|k]; [|done]. by injection Hk as <-. Qed.

#[export] Program Instance rwcohort_rp_laws :
  @RwSpinlockLaws (cohort_memory * ck_rwcohort_rp) (rwcohort_rp co pass_limit wait_limit) (Z.to_nat 4294967295) := {|
  rwg := co_ghost * rc_role; rwg_idle := (CoOut, RcOut); rests := rc_at_rest; reading := rc_reading; writing := λ _, rc_writing;
  rws_inv := rc_inv co rp_read_counter_loc
|}.
Next Obligation. done. Qed.
Next Obligation. intros n Hn. apply rc_inv_init; [done|lia]. Qed.
Next Obligation. intros s gs i j g g' k HI Hi Hj Hg. destruct (rc_laws_excl _ _ _ _ _ _ _ _ HI Hi Hj Hg). by split; [|intros _]. Qed.
Next Obligation.
  intros R n i k f g HR Hk ->. destruct k as [|k]; [|done]. injection Hk as <-. apply outside_wp_bind.
  eapply (outside_wp_mono _ _ _ _ _ _ _ (λ _, rc_reading)); [|intros _ y ->; by apply outside_wp_ret]. apply outside_wp_bind.
  eapply outside_wp_mono; [by apply (rc_while_positive_wp co _ R HR _ _ rp_read_barrier_loc)|]. intros _ y ->. apply outside_wp_bind.
  eapply outside_wp_mono; [by apply rc_inc_wp|]. intros _ y ->. rewrite decide_False by done.
  apply (outside_wp_while _ _ _ _ _ _ (λ y, y = (CoOut, RcCounted))); [done|]. intros m y ->.
  eapply outside_wp_mono; [by apply rc_locked_wp|]. by intros [] y ->; [apply outside_wp_stall|].
Qed.
Next Obligation. intros R n i g HR ->. eapply outside_wp_mono; [by apply rc_dec_wp|]. by intros _ y ->. Qed.
Next Obligation.
  intros R n i k w g HR Hk _ ->. destruct k as [|k]; [|done]. injection Hk as <-. apply outside_wp_bind.
  eapply (outside_wp_mono _ _ _ _ _ _ _ (λ _, rc_writing)); [|intros _ y ->; by apply outside_wp_ret]. apply outside_wp_bind.
  eapply (outside_wp_mono _ _ _ _ _ _ _ (λ _, rc_writing)).
  - apply (outside_wp_loop _ _ _ _ _ _ _ (λ _, rc_at_rest)); [done|]. intros m c y ->. apply outside_wp_bind.
    eapply outside_wp_mono; [by apply rc_lock_wp|]. intros _ y ->. apply outside_wp_bind.
    eapply outside_wp_mono; [by apply rc_see_none_wp|]. intros v y [Hv ->]. destruct (v =? 0); [by apply outside_wp_ret|].
    apply outside_wp_bind. eapply outside_wp_mono; [by apply rc_unlock_wp|]. intros _ y ->. apply outside_wp_bind.
    eapply outside_wp_mono; [apply (rc_wait_raising_wp co _ R HR rp_wait_limit_loc rp_read_barrier_loc); [done|]|].
    + intros n'. apply outside_wp_bind. eapply outside_wp_mono; [by apply (rc_load_wp co _ R HR _ _ rp_read_counter_loc)|].
      intros w y ->. by apply outside_wp_ret.
    + intros d y ->. by apply outside_wp_ret.
  - intros raised y ->. destruct raised; [|by apply outside_wp_ret]. by apply (rc_dec_barrier_wp co _ R HR rp_read_barrier_loc).
Qed.
Next Obligation. intros R n i k w g HR Hk _ ->. destruct k as [|k]; [|done]. injection Hk as <-. by apply rc_write_unlock_wp. Qed.
Next Obligation. intros R n i k w d g HR Hk Hd. destruct k as [|k]; [|done]. by injection Hk as <-. Qed.

#[export] Program Instance rwcohort_neutral_laws :
  @RwSpinlockLaws (cohort_memory * ck_rwcohort_neutral) (rwcohort_neutral co pass_limit) (Z.to_nat 4294967295) := {|
  rwg := co_ghost * rc_role; rwg_idle := (CoOut, RcOut); rests := rc_at_rest; reading := rc_reading; writing := λ _, rc_writing;
  rws_inv := rc_inv co ne_read_counter_loc
|}.
Next Obligation. done. Qed.
Next Obligation. intros n Hn. apply rc_inv_init; [done|lia]. Qed.
Next Obligation. intros s gs i j g g' k HI Hi Hj Hg. destruct (rc_laws_excl _ _ _ _ _ _ _ _ HI Hi Hj Hg). by split; [|intros _]. Qed.
Next Obligation.
  intros R n i k f g HR Hk ->. destruct k as [|k]; [|done]. injection Hk as <-. apply outside_wp_bind.
  eapply (outside_wp_mono _ _ _ _ _ _ _ (λ _, rc_reading)); [|intros _ y ->; by apply outside_wp_ret]. apply outside_wp_bind.
  eapply outside_wp_mono; [by apply rc_lock_wp|]. intros _ y ->. apply outside_wp_bind.
  eapply outside_wp_mono; [by apply rc_inc_wp|]. intros _ y ->. rewrite decide_True by done. by apply rc_unlock_wp.
Qed.
Next Obligation. intros R n i g HR ->. eapply outside_wp_mono; [by apply rc_dec_wp|]. by intros _ y ->. Qed.
Next Obligation.
  intros R n i k w g HR Hk _ ->. destruct k as [|k]; [|done]. injection Hk as <-. apply outside_wp_bind.
  eapply (outside_wp_mono _ _ _ _ _ _ _ (λ _, rc_writing)); [|intros _ y ->; by apply outside_wp_ret]. apply outside_wp_bind.
  eapply outside_wp_mono; [by apply rc_lock_wp|]. intros _ y ->. by apply rc_wait_readers_wp.
Qed.
Next Obligation. intros R n i k w g HR Hk _ ->. destruct k as [|k]; [|done]. injection Hk as <-. by apply rc_write_unlock_wp. Qed.
Next Obligation. intros R n i k w d g HR Hk Hd. destruct k as [|k]; [|done]. by injection Hk as <-. Qed.
End laws.
