(* ===== verification/CkRing.v ===== *)
(** CkRing: the concurrent ring buffer of Concurrency Kit, include/aerospike/ck/ck_ring.h.

    The buffer is an array of bytes, apart from the ring; an entry is [ts] bytes.  [memcpy] is one step per
    byte, in the order of the addresses, so another thread can see an entry half copied.  A function that
    returns a [bool] and writes through a pointer returns both. *)

From Stdlib Require Import ZArith Lia.
From stdpp Require Import base list.
From S2P Require Import Prelude Memory Concurrent CkPr.

#[local] Open Scope Z_scope.

(** [src: include/aerospike/ck/ck_ring.h 40-49 ck_ring] *)
Record ck_ring : Type := MkRing {
  rg_c_head : Z;
  rg_p_tail : Z;
  rg_p_head : Z;
  rg_size : Z;
  rg_mask : Z
}.

Definition c_head_loc : loc ck_ring Z :=
  MkLoc rg_c_head (λ v r, MkRing v (rg_p_tail r) (rg_p_head r) (rg_size r) (rg_mask r)).
Definition p_tail_loc : loc ck_ring Z :=
  MkLoc rg_p_tail (λ v r, MkRing (rg_c_head r) v (rg_p_head r) (rg_size r) (rg_mask r)).
Definition p_head_loc : loc ck_ring Z :=
  MkLoc rg_p_head (λ v r, MkRing (rg_c_head r) (rg_p_tail r) v (rg_size r) (rg_mask r)).
Definition mask_loc : loc ck_ring Z :=
  MkLoc rg_mask (λ v r, MkRing (rg_c_head r) (rg_p_tail r) (rg_p_head r) (rg_size r) v).
Definition size_loc : loc ck_ring Z :=
  MkLoc rg_size (λ v r, MkRing (rg_c_head r) (rg_p_tail r) (rg_p_head r) v (rg_mask r)).

(** [src: include/aerospike/ck/ck_ring.h 72-82 ck_ring_init] *)
Definition ck_ring_init (size : Z) : ck_ring := MkRing 0 0 0 size (uint_sub size 1).

Section ring.
Context {S : Type} (ring : loc S ck_ring) (buffer : loc S bytes).
Abbreviation c_head := (ring →' c_head_loc).
Abbreviation p_tail := (ring →' p_tail_loc).
Abbreviation p_head := (ring →' p_head_loc).

(** [memcpy] into the buffer and out of it, from the byte [off] on. *)
Fixpoint memcpy_to (off : Z) (entry : bytes) : prog S unit :=
  match entry with
  | [] => mret tt
  | x :: entry =>
      atomic (λ s, b ← arr_set (loc_get buffer s) off x; Ret (tt, loc_set buffer b s));;
      memcpy_to (off + 1) entry
  end.

Fixpoint memcpy_from (off : Z) (n : nat) : prog S bytes :=
  match n with
  | O => mret []
  | Datatypes.S n =>
      x ← atomic (λ s, x ← arr_get (loc_get buffer s) off; Ret (x, s));
      xs ← memcpy_from (off + 1) n;
      mret (x :: xs)
  end.

(** [src: include/aerospike/ck/ck_ring.h 56-64 ck_ring_size] *)
Definition ck_ring_size : prog S Z :=
  c ← ck_pr_load c_head;
  p ← ck_pr_load p_tail;
  mask ← ck_pr_load (ring →' mask_loc);
  mret (Z.land (uint_sub p c) mask).

(** [src: include/aerospike/ck/ck_ring.h 66-70 ck_ring_capacity] *)
Definition ck_ring_capacity : prog S Z := ck_pr_load (ring →' size_loc).

(** The result, and the size that is written when the caller asks for it.
    [src: include/aerospike/ck/ck_ring.h 87-116 _ck_ring_enqueue_sp] *)
Definition _ck_ring_enqueue_sp (entry : bytes) (ts : Z) : prog S (bool * Z) :=
  mask ← ck_pr_load (ring →' mask_loc);
  consumer ← ck_pr_load c_head;
  producer ← ck_pr_load p_tail;
  let delta := uint_add producer 1 in
  let size := Z.land (uint_sub producer consumer) mask in
  if Z.land delta mask =? Z.land consumer mask then mret (false, size)
  else
    memcpy_to (uint_mul ts (Z.land producer mask)) entry;;
    ck_pr_store p_tail delta;;
    mret (true, size).

(** [src: include/aerospike/ck/ck_ring.h 118-131 _ck_ring_enqueue_sp_size] *)
Definition _ck_ring_enqueue_sp_size (entry : bytes) (ts : Z) : prog S (bool * Z) :=
  _ck_ring_enqueue_sp entry ts.

(** The entry, when the result is [true].
    [src: include/aerospike/ck/ck_ring.h 133-164 _ck_ring_dequeue_sc] *)
Definition _ck_ring_dequeue_sc (size : nat) : prog S (option bytes) :=
  mask ← ck_pr_load (ring →' mask_loc);
  consumer ← ck_pr_load c_head;
  producer ← ck_pr_load p_tail;
  if consumer =? producer then mret None
  else
    target ← memcpy_from (uint_mul (Z.of_nat size) (Z.land consumer mask)) size;
    ck_pr_store c_head (uint_add consumer 1);;
    mret (Some target).

(** The loop of [_ck_ring_enqueue_mp]: whether a slot was reserved, with the last snapshots.
    [src: include/aerospike/ck/ck_ring.h 178-225 _ck_ring_enqueue_mp] *)
Definition enqueue_mp_reserve (mask producer : Z) : prog S (bool * Z * Z) :=
  loop (λ producer,
    consumer ← ck_pr_load c_head;
    let delta := uint_add producer 1 in
    if uint_sub producer consumer <? mask then
      '(r, v) ← ck_pr_cas_value p_head producer delta;
      mret (if (r : bool) then inr (true, v, consumer) else inl v)
    else
      new_producer ← ck_pr_load p_head;
      mret (if producer =? new_producer then inr (false, producer, consumer) else inl new_producer))
    producer.

(** [src: include/aerospike/ck/ck_ring.h 166-250 _ck_ring_enqueue_mp] *)
Definition _ck_ring_enqueue_mp (entry : bytes) (ts : Z) : prog S (bool * Z) :=
  mask ← ck_pr_load (ring →' mask_loc);
  producer ← ck_pr_load p_head;
  '(r, producer, consumer) ← enqueue_mp_reserve mask producer;
  (if (r : bool) then
     memcpy_to (uint_mul ts (Z.land producer mask)) entry;;
     while (p ← ck_pr_load p_tail; mret (negb (p =? producer))) stall;;
     ck_pr_store p_tail (uint_add producer 1)
   else mret tt);;
  mret (r, Z.land (uint_sub producer consumer) mask).

(** [src: include/aerospike/ck/ck_ring.h 252-265 _ck_ring_enqueue_mp_size] *)
Definition _ck_ring_enqueue_mp_size (entry : bytes) (ts : Z) : prog S (bool * Z) :=
  _ck_ring_enqueue_mp entry ts.

(** The result, and what is in [data]: it is written even when another consumer was first.
    [src: include/aerospike/ck/ck_ring.h 267-290 _ck_ring_trydequeue_mc] *)
Definition _ck_ring_trydequeue_mc (data : bytes) (size : nat) : prog S (bool * bytes) :=
  mask ← ck_pr_load (ring →' mask_loc);
  consumer ← ck_pr_load c_head;
  producer ← ck_pr_load p_tail;
  if consumer =? producer then mret (false, data)
  else
    data ← memcpy_from (uint_mul (Z.of_nat size) (Z.land consumer mask)) size;
    r ← ck_pr_cas c_head consumer (uint_add consumer 1);
    mret (r, data).

(** [src: include/aerospike/ck/ck_ring.h 292-329 _ck_ring_dequeue_mc] *)
Definition _ck_ring_dequeue_mc (data : bytes) (ts : nat) : prog S (bool * bytes) :=
  mask ← ck_pr_load (ring →' mask_loc);
  consumer ← ck_pr_load c_head;
  loop (λ '(consumer, data),
    producer ← ck_pr_load p_tail;
    if consumer =? producer then mret (inr (false, data))
    else
      data ← memcpy_from (uint_mul (Z.of_nat ts) (Z.land consumer mask)) ts;
      '(r, v) ← ck_pr_cas_value c_head consumer (uint_add consumer 1);
      mret (if (r : bool) then inr (true, data) else inl (v, data))) (consumer, data).

(** ** Rings of pointers

    An entry is a pointer: its eight bytes. *)

(** [src: include/aerospike/ck/ck_ring.h 336-345 ck_ring_enqueue_spsc_size] *)
Definition ck_ring_enqueue_spsc_size (entry : Z) : prog S (bool * Z) :=
  _ck_ring_enqueue_sp_size (le_bytes 8 entry) 8.

(** [src: include/aerospike/ck/ck_ring.h 347-355 ck_ring_enqueue_spsc] *)
Definition ck_ring_enqueue_spsc (entry : Z) : prog S bool :=
  r ← _ck_ring_enqueue_sp (le_bytes 8 entry) 8; mret r.1.

(** [src: include/aerospike/ck/ck_ring.h 357-365 ck_ring_dequeue_spsc] *)
Definition ck_ring_dequeue_spsc : prog S (option Z) :=
  r ← _ck_ring_dequeue_sc 8; mret (le_value <$> r).

(** [src: include/aerospike/ck/ck_ring.h 372-380 ck_ring_enqueue_mpmc] *)
Definition ck_ring_enqueue_mpmc (entry : Z) : prog S bool :=
  r ← _ck_ring_enqueue_mp (le_bytes 8 entry) 8; mret r.1.

(** [src: include/aerospike/ck/ck_ring.h 382-391 ck_ring_enqueue_mpmc_size] *)
Definition ck_ring_enqueue_mpmc_size (entry : Z) : prog S (bool * Z) :=
  _ck_ring_enqueue_mp_size (le_bytes 8 entry) 8.

(** [src: include/aerospike/ck/ck_ring.h 393-401 ck_ring_trydequeue_mpmc] *)
Definition ck_ring_trydequeue_mpmc (data : bytes) : prog S (bool * bytes) := _ck_ring_trydequeue_mc data 8.

(** [src: include/aerospike/ck/ck_ring.h 403-411 ck_ring_dequeue_mpmc] *)
Definition ck_ring_dequeue_mpmc (data : bytes) : prog S (bool * bytes) := _ck_ring_dequeue_mc data 8.

(** [src: include/aerospike/ck/ck_ring.h 418-427 ck_ring_enqueue_spmc_size] *)
Definition ck_ring_enqueue_spmc_size (entry : Z) : prog S (bool * Z) :=
  _ck_ring_enqueue_sp_size (le_bytes 8 entry) 8.

(** [src: include/aerospike/ck/ck_ring.h 429-437 ck_ring_enqueue_spmc] *)
Definition ck_ring_enqueue_spmc (entry : Z) : prog S bool :=
  r ← _ck_ring_enqueue_sp (le_bytes 8 entry) 8; mret r.1.

(** [src: include/aerospike/ck/ck_ring.h 439-446 ck_ring_trydequeue_spmc] *)
Definition ck_ring_trydequeue_spmc (data : bytes) : prog S (bool * bytes) := _ck_ring_trydequeue_mc data 8.

(** [src: include/aerospike/ck/ck_ring.h 448-455 ck_ring_dequeue_spmc] *)
Definition ck_ring_dequeue_spmc (data : bytes) : prog S (bool * bytes) := _ck_ring_dequeue_mc data 8.

(** [src: include/aerospike/ck/ck_ring.h 462-470 ck_ring_enqueue_mpsc] *)
Definition ck_ring_enqueue_mpsc (entry : Z) : prog S bool :=
  r ← _ck_ring_enqueue_mp (le_bytes 8 entry) 8; mret r.1.

(** [src: include/aerospike/ck/ck_ring.h 472-481 ck_ring_enqueue_mpsc_size] *)
Definition ck_ring_enqueue_mpsc_size (entry : Z) : prog S (bool * Z) :=
  _ck_ring_enqueue_mp_size (le_bytes 8 entry) 8.

(** [src: include/aerospike/ck/ck_ring.h 483-491 ck_ring_dequeue_mpsc] *)
Definition ck_ring_dequeue_mpsc : prog S (option Z) :=
  r ← _ck_ring_dequeue_sc 8; mret (le_value <$> r).
End ring.

(** * One producer and one consumer of a ring: what the consumer takes is what the producer put, in its order, and no entry is seen half copied. *)

(** ** Clients

    The memory: the ring, its buffer, and the log of what the consumer took. *)

Definition ring_memory (E : Type) : Type := (ck_ring * bytes) * list E.
Definition the_ring {E} : loc (ring_memory E) ck_ring :=
  MkLoc (λ m : ring_memory E, m.1.1) (λ (x : ck_ring) (m : ring_memory E), ((x, m.1.2), m.2)).
Definition the_buffer {E} : loc (ring_memory E) bytes :=
  MkLoc (λ m : ring_memory E, m.1.2) (λ (x : bytes) (m : ring_memory E), ((m.1.1, x), m.2)).
Definition took {E} (e : E) : prog (ring_memory E) unit :=
  atomic (λ m : ring_memory E, Ret (tt, (m.1, m.2 ++ [e]))).

(** The producer puts the entries one after the other, trying again while the ring is full. *)
Definition send (ts : nat) (e : bytes) : prog (ring_memory bytes) unit :=
  while (r ← _ck_ring_enqueue_sp the_ring the_buffer e (Z.of_nat ts); mret (negb r.1)) stall.

Fixpoint producer (ts : nat) (es : list bytes) : prog (ring_memory bytes) unit :=
  match es with
  | [] => mret tt
  | e :: es => send ts e;; producer ts es
  end.

(** The consumer takes entries for ever. *)
Definition consumer (ts : nat) : prog (ring_memory bytes) unit :=
  loop (λ _ : unit,
    r ← _ck_ring_dequeue_sc the_ring the_buffer ts;
    match r with
    | Some e => took e;; mret (inl tt)
    | None => mret (inl tt)
    end) tt.

(** ** Positions in the ring *)

Lemma pow2_divide (a b : Z) : 0 ≤ a ≤ b → (2 ^ a | 2 ^ b).
Proof. intros H. exists (2 ^ (b - a)). rewrite <- Z.pow_add_r by lia. f_equal. lia. Qed.

Lemma of_nat_pow2 (k : nat) : Z.of_nat (2 ^ k) = 2 ^ Z.of_nat k.
Proof. by rewrite Nat2Z.inj_pow. Qed.

(** An index that wraps at 2^32, reduced to the ring. *)
Lemma land_mask (k x : nat) :
  (k ≤ 31)%nat → Z.land (u32 (Z.of_nat x)) (2 ^ Z.of_nat k - 1) = Z.of_nat (x mod 2 ^ k).
Proof.
  intros Hk. replace (2 ^ Z.of_nat k - 1) with (Z.ones (Z.of_nat k)) by (by rewrite Z.ones_equiv, Z.sub_1_r).
  rewrite Z.land_ones by lia. unfold uwrap.
  rewrite Z.mod_mod_divide by (apply pow2_divide; lia).
  by rewrite Nat2Z.inj_mod, of_nat_pow2.
Qed.

Lemma uint_succ (x : nat) : uint_add (u32 (Z.of_nat x)) 1 = u32 (Z.of_nat (x + 1)).
Proof. unfold uint_add. rewrite uwrap_add_l. f_equal. lia. Qed.

Lemma mod_ne (n j m : nat) : (j < m < j + n)%nat → (j mod n ≠ m mod n)%nat.
Proof.
  intros H E. pose proof (Nat.div_mod_eq j n) as Hj. pose proof (Nat.div_mod_eq m n) as Hm.
  rewrite E in Hj. generalize dependent (m mod n)%nat. intros r _ Hj Hm.
  assert (m - j = n * (m / n - j / n))%nat by nia. nia.
Qed.

Lemma pow_pos (k : nat) : (0 < 2 ^ k)%nat.
Proof. pose proof (Nat.pow_nonzero 2 k). lia. Qed.

(** ** The invariant *)

(** What the producer has put, and how many bytes of the next entry; what the consumer has logged and taken,
    and whether it knows of one more. *)
Inductive side : Type :=
  | Producer (m : nat) (w : option nat)
  | Consumer (l c : nat) (t : bool).

Section spsc.
Context (k ts : nat) (entries : list bytes).
Context (Hk : (k ≤ 31)%nat) (Hts : Z.of_nat (ts * 2 ^ k) ≤ 4294967296).
Context (Hentries : Forall (λ e, length e = ts) entries).

Definition slot (j : nat) : nat := (ts * (j mod 2 ^ k))%nat.

(** The first [n] bytes of the entry [j] are in its slot. *)
Definition in_slot (b : bytes) (j n : nat) : Prop :=
  ∀ e x v, entries !! j = Some e → (x < n)%nat → e !! x = Some v → b !! (slot j + x)%nat = Some v.

Record ring_ok (r : ck_ring) (b : bytes) (m : nat) (w : option nat) (c : nat) (t : bool) : Prop := {
  ok_mask : rg_mask r = 2 ^ Z.of_nat k - 1;
  ok_head : rg_c_head r = u32 (Z.of_nat c);
  ok_tail : rg_p_tail r = u32 (Z.of_nat m);
  ok_order : (c ≤ m < c + 2 ^ k)%nat;
  ok_put : (m ≤ length entries)%nat;
  ok_length : length b = (ts * 2 ^ k)%nat;
  ok_live j : (c ≤ j < m)%nat → in_slot b j ts;
  ok_writing n : w = Some n → (m + 1 < c + 2 ^ k)%nat ∧ in_slot b m n;
  ok_taking : t = true → (c < m)%nat
}.

Definition spsc_inv (s : ring_memory bytes) (ls : list side) : Prop :=
  ∃ m w l c t, ls = [Producer m w; Consumer l c t] ∧ ring_ok s.1.1 s.1.2 m w c t
    ∧ (l ≤ c)%nat ∧ s.2 = take l entries.

Lemma slot_lt j x : (x < ts)%nat → (slot j + x < ts * 2 ^ k)%nat.
Proof. intros H. unfold slot. pose proof (Nat.mod_upper_bound j (2 ^ k)). pose proof (pow_pos k). nia. Qed.

Lemma slot_ne j m x y :
  (j < m < j + 2 ^ k)%nat → (x < ts)%nat → (y < ts)%nat → (slot j + x ≠ slot m + y)%nat.
Proof.
  intros H Hx Hy. unfold slot. pose proof (mod_ne _ _ _ H) as Hne.
  set (a := (j mod 2 ^ k)%nat) in *. set (b := (m mod 2 ^ k)%nat) in *. clearbody a b. nia.
Qed.

Lemma slot_offset j : uint_mul (Z.of_nat ts) (Z.land (u32 (Z.of_nat j)) (2 ^ Z.of_nat k - 1)) = Z.of_nat (slot j).
Proof.
  rewrite (land_mask k j Hk). unfold slot. rewrite uint_mul_small; [lia|].
  pose proof (Nat.mod_upper_bound j (2 ^ k)). pose proof (pow_pos k). nia.
Qed.

Lemma entry_length j e : entries !! j = Some e → length e = ts.
Proof. intros H. by eapply Forall_lookup in Hentries. Qed.

(** A step of the producer, and one of the consumer. *)
Lemma producer_step n A (f : ring_memory bytes → outcome (A * ring_memory bytes)) m w (Q : A → side → Prop) :
  (∀ r b tr c t, ring_ok r b m w c t →
     ∃ a r' b' m' w', f (r, b, tr) = Ret (a, (r', b', tr)) ∧ ring_ok r' b' m' w' c t ∧ Q a (Producer m' w')) →
  wp spsc_inv n (atomic f) 0 Q (Producer m w).
Proof.
  intros H. apply wp_atomic. intros [[r b] tr] ls (m0 & w0 & l & c & t & -> & Hok & Hl & Htr) [= -> ->].
  cbn in Hok, Htr. destruct (H r b tr c t Hok) as (a & r' & b' & m' & w' & E & Hok' & HQ).
  exists a, (r', b', tr), (Producer m' w'). split; [done|]. split; [|done].
  by exists m', w', l, c, t.
Qed.

Lemma consumer_step n A (f : ring_memory bytes → outcome (A * ring_memory bytes)) l c t (Q : A → side → Prop) :
  (∀ r b tr m w, ring_ok r b m w c t → (l ≤ c)%nat → tr = take l entries →
     ∃ a r' b' tr' l' c' t', f (r, b, tr) = Ret (a, (r', b', tr')) ∧ ring_ok r' b' m w c' t'
       ∧ (l' ≤ c')%nat ∧ tr' = take l' entries ∧ Q a (Consumer l' c' t')) →
  wp spsc_inv n (atomic f) 1 Q (Consumer l c t).
Proof.
  intros H. apply wp_atomic. intros [[r b] tr] ls (m & w & l0 & c0 & t0 & -> & Hok & Hl & Htr) [= -> -> ->].
  cbn in Hok, Htr. destruct (H r b tr m w Hok Hl Htr) as (a & r' & b' & tr' & l' & c' & t' & E & Hok' & Hl' & Htr' & HQ).
  exists a, (r', b', tr'), (Consumer l' c' t'). split; [done|]. split; [|done].
  by exists m, w, l', c', t'.
Qed.
(** ** The producer *)

Abbreviation spsc_wp := (wp spsc_inv).

Lemma load_mask_wp n i (Q : Z → side → Prop) g :
  Q (2 ^ Z.of_nat k - 1) g → spsc_wp n (ck_pr_load (the_ring →' mask_loc)) i Q g.
Proof.
  intros HQ. apply wp_atomic. intros [[r b] tr] ls HI Hi.
  eexists _, _, g. split; [reflexivity|]. rewrite list_insert_id by done. split; [done|].
  destruct HI as (m & w & l & c & t & _ & Hok & _). cbn in *.
  by rewrite (ok_mask _ _ _ _ _ _ Hok).
Qed.

(** The ring is full exactly when the next index is that of the consumer. *)
Lemma full_check m c :
  (c ≤ m < c + 2 ^ k)%nat →
  (Z.land (uint_add (u32 (Z.of_nat m)) 1) (2 ^ Z.of_nat k - 1)
     =? Z.land (u32 (Z.of_nat c)) (2 ^ Z.of_nat k - 1)) = bool_decide (m + 1 = c + 2 ^ k)%nat.
Proof.
  intros H. rewrite uint_succ, !land_mask by done. apply Bool.eq_iff_eq_true.
  rewrite Z.eqb_eq, bool_decide_eq_true. split.
  - intros E%Nat2Z.inj. destruct (decide (m + 1 = c + 2 ^ k)%nat) as [|Hne]; [done|].
    exfalso. destruct (decide (k = 0)%nat) as [->|]; [cbn in *; lia|].
    apply (mod_ne (2 ^ k) c (m + 1)); [lia | done].
  - intros ->. rewrite <- (Nat.mul_1_l (2 ^ k)) at 1. by rewrite Nat.Div0.mod_add.
Qed.

Lemma ring_ok_w r b m w w' c t :
  ring_ok r b m w c t → (∀ n, w' = Some n → (m + 1 < c + 2 ^ k)%nat ∧ in_slot b m n) → ring_ok r b m w' c t.
Proof. intros [] H. by split. Qed.

Lemma ring_ok_t r b m w c t t' :
  ring_ok r b m w c t → (t' = true → (c < m)%nat) → ring_ok r b m w c t'.
Proof. intros [] H. by split. Qed.

(** The producer reads the consumer's index, and has room or not. *)
Lemma load_head_wp n m (Q : Z → side → Prop) :
  (∀ c, (c ≤ m < c + 2 ^ k)%nat →
     Q (u32 (Z.of_nat c)) (Producer m (if decide (m + 1 = c + 2 ^ k)%nat then None else Some 0%nat))) →
  spsc_wp n (ck_pr_load (the_ring →' c_head_loc)) 0 Q (Producer m None).
Proof.
  intros HQ. apply producer_step. intros r b tr c t Hok. pose proof (ok_order _ _ _ _ _ _ Hok) as Ho.
  eexists _, r, b, m, _. split; [reflexivity|]. split; [|cbn; rewrite (ok_head _ _ _ _ _ _ Hok); by apply HQ].
  eapply ring_ok_w; [done|]. intros x Hx. case_decide; [done|]. injection Hx as <-.
  split; [lia|]. intros e y v _ Hy. lia.
Qed.

Lemma load_own_tail_wp n m w (Q : Z → side → Prop) :
  Q (u32 (Z.of_nat m)) (Producer m w) →
  spsc_wp n (ck_pr_load (the_ring →' p_tail_loc)) 0 Q (Producer m w).
Proof.
  intros HQ. apply producer_step. intros r b tr c t Hok.
  eexists _, r, b, m, w. split; [reflexivity|]. split; [done|]. cbn. by rewrite (ok_tail _ _ _ _ _ _ Hok).
Qed.

(** A byte of the next entry goes into its slot, which is none of those that hold an entry. *)
Lemma ring_ok_write r b m c t e x v :
  ring_ok r b m (Some x) c t → entries !! m = Some e → e !! x = Some v →
  ring_ok r (<[(slot m + x)%nat := v]> b) m (Some (x + 1)%nat) c t ∧ (slot m + x < length b)%nat.
Proof.
  intros Hok He Hv. pose proof (entry_length _ _ He) as Hl. pose proof (lookup_lt_Some _ _ _ Hv) as Hx.
  destruct Hok as [? ? ? Ho ? Hb Hlive Hw ?]. destruct (Hw x eq_refl) as [Hroom Hin].
  assert (slot m + x < length b)%nat as Hlt by (rewrite Hb; apply slot_lt; lia).
  split; [|done]. split; try done.
  - by rewrite length_insert.
  - intros j Hj e' y u He' Hy Hu.
    rewrite list_lookup_insert_ne by (apply not_eq_sym, slot_ne; lia). by eapply Hlive.
  - intros n [= <-]. split; [done|]. intros e' y u He' Hy Hu.
    destruct (decide (y = x)) as [->|Hne].
    + rewrite list_lookup_insert_eq by done. congruence.
    + rewrite list_lookup_insert_ne by lia. apply (Hin e' y u He'); [lia | done].
Qed.

Lemma memcpy_to_wp n m e rest x :
  entries !! m = Some e → rest = drop x e → (x ≤ ts)%nat →
  spsc_wp n (memcpy_to the_buffer (Z.of_nat (slot m + x)) rest) 0
    (λ _ g, g = Producer m (Some ts)) (Producer m (Some x)).
Proof.
  intros He. pose proof (entry_length _ _ He) as Hl.
  revert x n. induction rest as [|v rest IH]; intros x n Hrest Hx; cbn [memcpy_to].
  - apply wp_ret. assert (length (drop x e) = 0%nat) as Hd by (by rewrite <- Hrest).
    rewrite length_drop in Hd. by replace x with ts by lia.
  - assert (e !! x = Some v) as Hv.
    { rewrite <- (Nat.add_0_r x), <- lookup_drop, <- Hrest. done. }
    pose proof (lookup_lt_Some _ _ _ Hv).
    apply wp_bind. eapply wp_mono with (Q := λ _ g, g = Producer m (Some (x + 1)%nat)).
    + apply producer_step. intros r b tr c t Hok.
      destruct (ring_ok_write _ _ _ _ _ _ _ _ Hok He Hv) as [Hok' Hlt].
      eexists _, r, _, m, _. split; [|split; [exact Hok' | done]]. cbn.
      by rewrite arr_set_lt by done.
    + intros [] g ->. replace (Z.of_nat (slot m + x) + 1) with (Z.of_nat (slot m + (x + 1))) by lia.
      apply IH; [|lia]. rewrite <- drop_drop, <- Hrest. done.
Qed.

(** The entry is published. *)
Lemma store_tail_wp n m e :
  entries !! m = Some e →
  spsc_wp n (ck_pr_store (the_ring →' p_tail_loc) (uint_add (u32 (Z.of_nat m)) 1)) 0
    (λ _ g, g = Producer (m + 1) None) (Producer m (Some ts)).
Proof.
  intros He. pose proof (lookup_lt_Some _ _ _ He). apply producer_step. intros r b tr c t Hok.
  eexists _, _, b, (m + 1)%nat, None. split; [reflexivity|]. split; [|done]. cbn.
  destruct Hok as [? ? ? Ho ? ? Hlive Hw Ht]. destruct (Hw ts eq_refl) as [Hroom Hin].
  split; cbn; try done; [apply uint_succ | lia | lia | | intros E; specialize (Ht E); lia].
  intros j Hj. destruct (decide (j = m)) as [->|]; [done|]. apply Hlive. lia.
Qed.

Lemma enqueue_sp_wp n m e :
  entries !! m = Some e →
  spsc_wp n (_ck_ring_enqueue_sp the_ring the_buffer e (Z.of_nat ts)) 0
    (λ r g, g = Producer (if r.1 then m + 1 else m)%nat None) (Producer m None).
Proof.
  intros He. apply wp_bind, load_mask_wp.
  apply wp_bind, load_head_wp. intros c Hc. apply wp_bind, load_own_tail_wp. cbv zeta.
  rewrite full_check by done. case_decide as E.
  - rewrite bool_decide_eq_true_2 by done. by apply wp_ret.
  - rewrite bool_decide_eq_false_2 by done. rewrite slot_offset.
    apply wp_bind. eapply wp_mono.
    + rewrite <- (Nat.add_0_r (slot m)). apply (memcpy_to_wp n m e e 0 He); [done | lia].
    + intros [] g ->. apply wp_bind. eapply wp_mono; [by apply (store_tail_wp n m e)|].
      intros [] g ->. by apply wp_ret.
Qed.

Lemma send_wp n m e :
  entries !! m = Some e →
  spsc_wp n (send ts e) 0 (λ _ g, g = Producer (m + 1) None) (Producer m None).
Proof.
  intros He. apply (wp_while _ _ _ _ (λ g, g = Producer m None)); [done|]. clear n.
  intros n g ->. apply wp_bind. eapply wp_mono; [by apply enqueue_sp_wp|].
  intros [[] z] g ->; cbn [fst negb]; apply wp_ret; [done | by apply wp_stall].
Qed.

Lemma producer_wp n m es :
  es = drop m entries → spsc_wp n (producer ts es) 0 (λ _ _, True) (Producer m None).
Proof.
  revert m n. induction es as [|e es IH]; intros m n Hes; cbn [producer]; [by apply wp_ret|].
  assert (entries !! m = Some e) as He by (by rewrite <- (Nat.add_0_r m), <- lookup_drop, <- Hes).
  apply wp_bind. eapply wp_mono; [by apply send_wp|]. intros [] g ->. apply IH.
  by rewrite <- drop_drop, <- Hes.
Qed.

(** ** The consumer *)

Lemma load_own_head_wp n l c t (Q : Z → side → Prop) :
  Q (u32 (Z.of_nat c)) (Consumer l c t) →
  spsc_wp n (ck_pr_load (the_ring →' c_head_loc)) 1 Q (Consumer l c t).
Proof.
  intros HQ. apply consumer_step. intros r b tr m w Hok Hl Htr.
  eexists _, r, b, tr, l, c, t. split; [reflexivity|]. split; [done|]. split; [done|]. split; [done|].
  cbn. by rewrite (ok_head _ _ _ _ _ _ Hok).
Qed.

Lemma load_tail_wp n l c (Q : Z → side → Prop) :
  (∀ m, (c ≤ m < c + 2 ^ k)%nat → (m ≤ length entries)%nat →
     Q (u32 (Z.of_nat m)) (Consumer l c (bool_decide (c < m)%nat))) →
  spsc_wp n (ck_pr_load (the_ring →' p_tail_loc)) 1 Q (Consumer l c false).
Proof.
  intros HQ. apply consumer_step. intros r b tr m w Hok Hl Htr.
  pose proof (ok_order _ _ _ _ _ _ Hok) as Ho.
  eexists _, r, b, tr, l, c, _. split; [reflexivity|]. split; [|split; [done|split; [done|]]].
  - eapply ring_ok_t; [done|]. intros E. by apply bool_decide_eq_true in E.
  - cbn. rewrite (ok_tail _ _ _ _ _ _ Hok). apply HQ; [done|]. apply (ok_put _ _ _ _ _ _ Hok).
Qed.

(** The two indices are equal exactly when the ring is empty. *)
Lemma empty_check c m :
  (c ≤ m < c + 2 ^ k)%nat →
  (u32 (Z.of_nat c) =? u32 (Z.of_nat m)) = negb (bool_decide (c < m)%nat).
Proof.
  intros H. assert (2 ^ k ≤ 2 ^ 31)%nat as Hp by (apply Nat.pow_le_mono_r; lia).
  assert (Z.of_nat (2 ^ k) ≤ 2147483648) by (etransitivity; [by apply inj_le|]; by rewrite of_nat_pow2).
  apply Bool.eq_iff_eq_true. rewrite Z.eqb_eq, negb_true_iff, bool_decide_eq_false. split.
  - unfold uwrap. change (2 ^ 32) with 4294967296. intros E. div_lia.
  - intros E. by replace m with c by lia.
Qed.

Lemma memcpy_from_wp n l c e j x :
  entries !! c = Some e → (x + j = ts)%nat →
  spsc_wp n (memcpy_from the_buffer (Z.of_nat (slot c + x)) j) 1
    (λ d g, d = drop x e ∧ g = Consumer l c true) (Consumer l c true).
Proof.
  intros He. pose proof (entry_length _ _ He) as Hlen.
  revert x n. induction j as [|j IH]; intros x n Hx; cbn [memcpy_from].
  - apply wp_ret. split; [|done]. symmetry. apply drop_ge. lia.
  - destruct (lookup_lt_is_Some_2 e x) as [v Hv]; [lia|].
    apply wp_bind. eapply wp_mono with (Q := λ a g, a = v ∧ g = Consumer l c true).
    + apply consumer_step. intros r b tr m w Hok Hl Htr.
      assert (b !! (slot c + x)%nat = Some v) as Hb.
      { eapply (ok_live _ _ _ _ _ _ Hok c); [|done|lia|done].
        pose proof (ok_order _ _ _ _ _ _ Hok). pose proof (ok_taking _ _ _ _ _ _ Hok eq_refl). lia. }
      eexists _, r, b, tr, l, c, true. split; [cbn; by rewrite (arr_get_lookup _ _ _ Hb)|]. done.
    + intros a g [-> ->]. apply wp_bind.
      replace (Z.of_nat (slot c + x) + 1) with (Z.of_nat (slot c + (x + 1))) by lia.
      eapply wp_mono; [apply (IH (x + 1)%nat); lia|]. intros d g [-> ->]. apply wp_ret. split; [|done].
      rewrite Nat.add_1_r. by symmetry; apply drop_S.
Qed.

Lemma store_head_wp n c :
  spsc_wp n (ck_pr_store (the_ring →' c_head_loc) (uint_add (u32 (Z.of_nat c)) 1)) 1
    (λ _ g, g = Consumer c (c + 1) false) (Consumer c c true).
Proof.
  apply consumer_step. intros r b tr m w Hok Hl Htr.
  eexists _, _, b, tr, c, (c + 1)%nat, false. split; [reflexivity|].
  split; [|split; [lia|split; [done|done]]].
  destruct Hok as [? ? ? Ho ? ? Hlive Hw Ht]. specialize (Ht eq_refl).
  split; cbn; try done; [apply uint_succ | lia | |].
  - intros j Hj. apply Hlive. lia.
  - intros n' E. destruct (Hw n' E) as [? ?]. split; [lia | done].
Qed.

Lemma dequeue_sc_wp n c :
  spsc_wp n (_ck_ring_dequeue_sc the_ring the_buffer ts) 1
    (λ r g, match r with
            | Some e => entries !! c = Some e ∧ g = Consumer c (c + 1) false
            | None => g = Consumer c c false
            end) (Consumer c c false).
Proof.
  apply wp_bind, load_mask_wp. apply wp_bind, load_own_head_wp. apply wp_bind, load_tail_wp.
  intros m Hm Hput. rewrite empty_check by done. case_bool_decide as E; cbn [negb]; [|by apply wp_ret].
  rewrite slot_offset. apply wp_bind. destruct (lookup_lt_is_Some_2 entries c) as [e He]; [lia|].
  rewrite <- (Nat.add_0_r (slot c)). eapply wp_mono; [by apply (memcpy_from_wp n c c e ts 0 He)|].
  intros d g [-> ->]. apply wp_bind. eapply wp_mono; [apply store_head_wp|]. intros [] g ->. by apply wp_ret.
Qed.

Lemma took_wp n c e :
  entries !! c = Some e →
  spsc_wp n (took e) 1 (λ _ g, g = Consumer (c + 1) (c + 1) false) (Consumer c (c + 1) false).
Proof.
  intros He. apply consumer_step. intros r b tr m w Hok Hl ->.
  eexists _, r, b, _, (c + 1)%nat, (c + 1)%nat, false. split; [reflexivity|].
  split; [done|]. split; [done|]. split; [|done]. cbn. rewrite Nat.add_1_r. by symmetry; apply take_S_r.
Qed.

Lemma consumer_wp n : spsc_wp n (consumer ts) 1 (λ _ _, True) (Consumer 0 0 false).
Proof.
  apply (wp_loop _ _ _ _ _ (λ _ g, ∃ c, g = Consumer c c false)); [by exists 0%nat|]. clear n.
  intros n [] g [c ->]. apply wp_bind. eapply wp_mono; [apply dequeue_sc_wp|].
  intros [e|] g; [intros [He ->]|intros ->].
  - apply wp_bind. eapply wp_mono; [by apply took_wp|]. intros [] g ->. apply wp_ret. by exists (c + 1)%nat.
  - apply wp_ret. by exists c.
Qed.

(** Whatever the interleaving, the consumer takes the entries whole and in order, and no access is out of
    bounds. *)
Lemma spsc_fifo b s tr pool :
  length b = (ts * 2 ^ k)%nat →
  reaches ((ck_ring_init (2 ^ Z.of_nat k), b), []) [producer ts entries; consumer ts] (s, tr) pool →
  tr `prefix_of` entries ∧ ¬ pool_faults ((s, tr), pool).
Proof.
  intros Hb Hr.
  destruct (wp_sound spsc_inv (ck_ring_init (2 ^ Z.of_nat k), b, []) [producer ts entries; consumer ts]
    [Producer 0 None; Consumer 0 0 false] (s, tr) pool) as [(ls & _ & HI) Hf]; [done| | | exact Hr|].
  - exists 0%nat, None, 0%nat, 0%nat, false. split; [done|]. split; [|done].
    assert (0 < 2 ^ Z.of_nat k) by lia.
    assert (2 ^ Z.of_nat k ≤ 2 ^ 31) by (apply Z.pow_le_mono_r; lia).
    pose proof (pow_pos k). split; try done; cbn; try (intros; lia).
    apply uint_sub_small. change (2 ^ 31) with 2147483648 in *. lia.
  - intros [|[|i]] t l n [= <-] [= <-]; [by apply producer_wp | apply consumer_wp].
  - split; [|done]. destruct HI as (m & w & l & c & t & _ & _ & _ & E). cbn in E. subst. apply prefix_take.
Qed.
End spsc.
