(* ===== verification/CkRingMany.v ===== *)
(** CkRingMany: any number of producers and consumers of a ring: there is one order of the entries that were
    put, in which every thread's puts keep their order, each entry is taken at most once, and what a
    thread takes comes in that order. *)

From Stdlib Require Import ZArith Lia Sorting.Sorted.
From stdpp Require Import base list sorting.
From S2P Require Import Prelude Memory Concurrent CkPr CkRing.

#[local] Open Scope Z_scope.

(** ** Clients *)

(** What a thread does: put an entry, trying again while the ring is full; try once; take an entry, or
    try to. *)
Inductive ring_use : Type := Put (e : bytes) | TryPut (e : bytes) | Take | TryTake.

Abbreviation many_memory := (ring_memory (nat * bytes)).

Definition took_some (i : nat) (r : bool * bytes) : prog many_memory unit :=
  if r.1 then took (i, r.2) else mret tt.

Definition ring_use_once (ts i : nat) (u : ring_use) : prog many_memory unit :=
  match u with
  | Put e =>
      while (r ← _ck_ring_enqueue_mp the_ring the_buffer e (Z.of_nat ts); mret (negb r.1)) stall
  | TryPut e => _ck_ring_enqueue_mp the_ring the_buffer e (Z.of_nat ts);; mret tt
  | Take => r ← _ck_ring_dequeue_mc the_ring the_buffer [] ts; took_some i r
  | TryTake => r ← _ck_ring_trydequeue_mc the_ring the_buffer [] ts; took_some i r
  end.

Fixpoint ring_client (ts i : nat) (uses : list ring_use) : prog many_memory unit :=
  match uses with
  | [] => mret tt
  | u :: uses => ring_use_once ts i u;; ring_client ts i uses
  end.

Definition ring_clients (ts : nat) (uses : list (list ring_use)) : list (prog many_memory unit) :=
  imap (ring_client ts) uses.

(** The entries that a thread puts. *)
Definition puts (uses : list ring_use) : list bytes :=
  omap (λ u, match u with Put e | TryPut e => Some e | _ => None end) uses.

Definition queue_history (uses : list (list ring_use)) (tr : list (nat * bytes)) : Prop :=
  ∃ q tk, (∀ i us, uses !! i = Some us → of_thread i q `sublist_of` puts us) ∧ taken_from q tk tr
    ∧ Forall (λ x, (x.1 < length uses)%nat) q.

(** ** Ghost states *)

(** What a thread is doing: nothing; it has read an index [c] of the consumers; it puts the entry [e]
    at the index [j], of which [x] bytes are written; all are, and those before are published; it reads the entry
    [c], and has [d]; it has taken it. *)
Inductive action : Type :=
  | Idle | Snapshot (c : nat) | Writing (j : nat) (e : bytes) (x : nat) | Publishing (j : nat)
  | Reading (c : nat) (d : bytes) | Taken (c : nat) (e : bytes).

(** What it has still to put, the indices of what it took are less than [seen], what it is doing. *)
Record party : Type := Party { rest : list bytes; seen : nat; act : action }.

(** The entries put and their threads; the threads that took the first of them; how many are published; the
    log of takes. *)
Record history : Type := History { h_q : list (nat * bytes); h_o : list nat; h_t : nat; h_k : list (nat * nat) }.

(** What is still to put, of all threads. *)
Abbreviation remaining := (total (λ l, length (rest l))).

(** ** The invariant *)

Section many.
Context (k ts : nat) (uses : list (list ring_use)) (bound : nat).
Context (Hk : (k ≤ 31)%nat) (Hts : Z.of_nat (ts * 2 ^ k) ≤ 4294967296).
Context (Htotal : Z.of_nat bound < 4294967296).

Abbreviation slot := (slot k ts).

(** The first [x] bytes of [e] are in the slot [j]. *)
Definition slot_has (b : bytes) (j : nat) (e : bytes) (x : nat) : Prop :=
  ∀ y v, (y < x)%nat → e !! y = Some v → b !! (slot j + y)%nat = Some v.

Definition action_ok (b : bytes) (h : history) (i : nat) (p : party) : Prop :=
  match act p with
  | Idle => True
  | Snapshot c => (seen p ≤ c ≤ length (h_o h))%nat
  | Writing j e x => (h_t h ≤ j)%nat ∧ h_q h !! j = Some (i, e) ∧ slot_has b j e x
  | Publishing j => h_t h = j ∧ ∃ e, h_q h !! j = Some (i, e) ∧ slot_has b j e ts
  | Reading c d => (seen p ≤ c ≤ length (h_o h))%nat ∧
      (c = length (h_o h) → (c < h_t h)%nat ∧ ∃ i' e, h_q h !! c = Some (i', e) ∧ d = take (length d) e)
  | Taken c e => (seen p ≤ c)%nat ∧ h_o h !! c = Some i ∧ ∃ i', h_q h !! c = Some (i', e)
  end.

Record party_ok (b : bytes) (h : history) (i : nat) (p : party) : Prop := {
  ok_act : action_ok b h i p;
  ok_seen : (seen p ≤ length (h_o h))%nat;
  ok_sorted : StronglySorted lt (of_thread i (h_k h)) ∧ Forall (λ n, (n < seen p)%nat) (of_thread i (h_k h));
  ok_rest : ∃ us before, uses !! i = Some us ∧ puts us = before ++ rest p ∧ of_thread i (h_q h) `sublist_of` before
}.

Record ring_state (r : ck_ring) (b : bytes) (h : history) (tr : list (nat * bytes)) : Prop := {
  st_mask : rg_mask r = 2 ^ Z.of_nat k - 1;
  st_c_head : rg_c_head r = Z.of_nat (length (h_o h));
  st_p_tail : rg_p_tail r = Z.of_nat (h_t h);
  st_p_head : rg_p_head r = Z.of_nat (length (h_q h));
  st_order : (length (h_o h) ≤ h_t h ≤ length (h_q h))%nat ∧ (length (h_q h) < length (h_o h) + 2 ^ k)%nat;
  st_length : length b = (ts * 2 ^ k)%nat;
  st_marks : Forall (λ x, (x.1 < length uses)%nat ∧ length x.2 = ts) (h_q h);
  st_live j i e : (length (h_o h) ≤ j < h_t h)%nat → h_q h !! j = Some (i, e) → slot_has b j e ts;
  st_takers i n : (i, n) ∈ h_k h → h_o h !! n = Some i;
  st_threads : Forall (λ i, (i < length uses)%nat) (h_o h);
  st_once : NoDup (h_k h).*2;
  st_log : Forall2 (λ x y, x.1 = y.1 ∧ snd <$> h_q h !! y.2 = Some x.2) tr (h_k h)
}.

Definition many_inv (s : many_memory) (ls : list party) : Prop :=
  ∃ h, ring_state s.1.1 s.1.2 h s.2 ∧ (length (h_q h) + remaining ls ≤ bound)%nat
    ∧ ∀ i p, ls !! i = Some p → party_ok s.1.2 h i p.

Abbreviation many_wp := (wp many_inv).

(** A step of the thread [i], which leaves the others as they are. *)
Lemma party_step n A (f : many_memory → outcome (A * many_memory)) i p (Q : A → party → Prop) :
  (∀ r b tr h, ring_state r b h tr → party_ok b h i p → (length (h_q h) + length (rest p) ≤ bound)%nat →
     ∃ a r' b' tr' h' p', f (r, b, tr) = Ret (a, (r', b', tr')) ∧ ring_state r' b' h' tr' ∧ party_ok b' h' i p'
       ∧ (length (h_q h') + length (rest p') ≤ length (h_q h) + length (rest p))%nat
       ∧ (∀ j q, j ≠ i → party_ok b h j q → party_ok b' h' j q) ∧ Q a p') →
  many_wp n (atomic f) i Q p.
Proof.
  intros H. apply wp_atomic. intros [[r b] tr] ls (h & Hst & Hrem & Hls) Hi. cbn in Hst, Hls.
  pose proof (total_lookup (λ l, length (rest l)) _ _ _ Hi).
  destruct (H r b tr h Hst (Hls i p Hi)) as (a & r' & b' & tr' & h' & p' & E & Hst' & Hp' & Hrem' & Hoth & HQ);
    [lia|].
  exists a, (r', b', tr'), p'. split; [done|]. split; [|done]. exists h'. split; [done|]. split.
  - pose proof (total_insert (λ l, length (rest l)) ls i p p' Hi). lia.
  - cbn. intros j q Hj. destruct (decide (i = j)) as [<-|Hne].
    + rewrite list_lookup_insert_eq in Hj by (by eapply lookup_lt_Some). by injection Hj as <-.
    + rewrite list_lookup_insert_ne in Hj by done. apply Hoth; [done|]. by apply Hls.
Qed.

(** A step that only looks at the memory. *)
Lemma look_step n A (g : many_memory → A) i p (Q : A → party → Prop) :
  (∀ r b tr h, ring_state r b h tr → party_ok b h i p → (length (h_q h) + length (rest p) ≤ bound)%nat →
     ∃ a, action_ok b h i (Party (rest p) (seen p) a) ∧ Q (g (r, b, tr)) (Party (rest p) (seen p) a)) →
  many_wp n (atomic (λ s, Ret (g s, s))) i Q p.
Proof.
  intros H. apply party_step. intros r b tr h Hst Hp Hn. destruct (H r b tr h Hst Hp Hn) as (a & Ha & HQ).
  eexists _, r, b, tr, h, _. split; [reflexivity|]. split; [done|]. split; [|by split; [|split; [|exact HQ]]].
  destruct Hp. by split.
Qed.

(** *** Moves of the history that the other threads do not notice *)

Lemma slot_has_le b j e x y : (y ≤ x)%nat → slot_has b j e x → slot_has b j e y.
Proof. intros Hy H z v Hz. apply H. lia. Qed.

(** A byte written into the slot of an entry that is not published. *)
Lemma slot_has_write r b h tr j j' x e z v :
  ring_state r b h tr → (length (h_o h) ≤ j < length (h_q h))%nat → (length (h_o h) ≤ j' < length (h_q h))%nat →
  j ≠ j' → (x ≤ ts)%nat → (z < ts)%nat →
  slot_has b j' e x → slot_has (<[(slot j + z)%nat := v]> b) j' e x.
Proof.
  intros Hst Hj Hj' Hne Hx Hz H y u Hy Hu. destruct (st_order _ _ _ _ Hst) as [_ Ho].
  rewrite list_lookup_insert_ne; [by apply H|].
  destruct (decide (j < j')%nat); [|apply not_eq_sym]; apply (slot_ne k ts); lia.
Qed.

Definition put_entry (h : history) (x : nat * bytes) : history := History (h_q h ++ [x]) (h_o h) (h_t h) (h_k h).
Definition publish (h : history) : history := History (h_q h) (h_o h) (h_t h + 1) (h_k h).
Definition take_entry (h : history) (i : nat) : history := History (h_q h) (h_o h ++ [i]) (h_t h) (h_k h).
Definition log_take (h : history) (x : nat * nat) : history := History (h_q h) (h_o h) (h_t h) (h_k h ++ [x]).

Lemma action_put b h x i p : action_ok b h i p → action_ok b (put_entry h x) i p.
Proof.
  unfold action_ok. destruct (act p) as [|c|j e y|j|c d|c e]; cbn; try done.
  - intros (Hj & He & Hs). split; [done|]. split; [by apply lookup_app_l_Some | done].
  - intros (Hj & e & He & Hs). split; [done|]. exists e. split; [by apply lookup_app_l_Some | done].
  - intros [Hc H]. split; [done|]. intros E. destruct (H E) as (Ht & i' & e & He & Hd).
    split; [done|]. exists i', e. split; [by apply lookup_app_l_Some | done].
  - intros (Hc & Ho & i' & He). split; [done|]. split; [done|]. exists i'. by apply lookup_app_l_Some.
Qed.

Lemma party_put b h i e j p : j ≠ i → party_ok b h j p → party_ok b (put_entry h (i, e)) j p.
Proof.
  intros Hne [Ha Hs Hk' (us & before & Hu & Hp & Hq)]. split; cbn; try done; [by apply action_put|].
  exists us, before. split; [done|]. split; [done|]. by rewrite of_thread_snoc, decide_False, app_nil_r.
Qed.

Lemma party_write r b h tr i j e z v i' p :
  ring_state r b h tr → (h_t h ≤ j)%nat → h_q h !! j = Some (i, e) → (z < ts)%nat → i' ≠ i →
  party_ok b h i' p → party_ok (<[(slot j + z)%nat := v]> b) h i' p.
Proof.
  intros Hst Hj Hq Hz Hne [Ha Hs Hk' Hr]. split; try done.
  pose proof (lookup_lt_Some _ _ _ Hq) as Hlt. destruct (st_order _ _ _ _ Hst) as [Ho _].
  unfold action_ok in *. destruct (act p) as [|c|j' e' y|j'|c d|c e']; try done.
  - destruct Ha as (Hj' & He' & Hh). split; [done|]. split; [done|].
    pose proof (lookup_lt_Some _ _ _ He'). intros y' v' Hy' Hv'.
    destruct (decide (y' < ts)%nat) as [Hlt'|Hge].
    + apply (slot_has_write r b h tr j j' (S y') e' z v Hst); try lia; try done.
      * intros <-. congruence.
      * eapply slot_has_le; [|exact Hh]. lia.
    + exfalso. apply lookup_lt_Some in Hv'.
      pose proof (st_marks _ _ _ _ Hst) as Hm. eapply Forall_lookup in Hm as [_ Hm]; [|exact He']. cbn in Hm. lia.
  - destruct Ha as (Hj' & e' & He' & Hh). split; [done|]. exists e'. split; [done|].
    pose proof (lookup_lt_Some _ _ _ He'). eapply slot_has_write; try done; try lia. intros <-. congruence.
Qed.

Lemma party_publish b h i e j p :
  h_q h !! h_t h = Some (i, e) → j ≠ i → party_ok b h j p → party_ok b (publish h) j p.
Proof.
  intros Hq Hne [Ha Hs Hk' Hr]. split; try done.
  unfold action_ok in *. destruct (act p) as [|c|j' e' y|j'|c d|c e']; cbn; try done.
  - destruct Ha as (Hj' & He' & Hh). split; [|done].
    destruct (decide (j' = h_t h)) as [->|]; [congruence|lia].
  - destruct Ha as (<- & e' & He' & _). congruence.
  - destruct Ha as [Hc H]. split; [done|]. intros E. destruct (H E) as [Ht H']. split; [lia|done].
Qed.

Lemma party_take b h i j p : j ≠ i → party_ok b h j p → party_ok b (take_entry h i) j p.
Proof.
  intros Hne [Ha Hs Hk' Hr]. split; try done; [|cbn; rewrite length_app; cbn; lia].
  unfold action_ok in *. destruct (act p) as [|c|j' e' y|j'|c d|c e']; cbn; try done; rewrite ?length_app; cbn.
  - lia.
  - destruct Ha as [Hc H]. split; lia.
  - destruct Ha as (Hc & Ho & H). split; [done|]. split; [by apply lookup_app_l_Some|done].
Qed.

Lemma party_log b h i n j p : j ≠ i → party_ok b h j p → party_ok b (log_take h (i, n)) j p.
Proof.
  intros Hne [Ha Hs Hk' Hr]. split; try done. cbn. by rewrite of_thread_snoc, decide_False, app_nil_r.
Qed.

(** *** The indices *)

Abbreviation act_is p a := (Party (rest p) (seen p) a).

Lemma indices r b h tr :
  ring_state r b h tr → (length (h_q h) ≤ bound)%nat →
  (length (h_o h) ≤ h_t h ≤ length (h_q h))%nat ∧ Z.of_nat (length (h_q h)) < 4294967296.
Proof. intros Hst Hn. split; [apply (st_order _ _ _ _ Hst) | lia]. Qed.

Lemma uint_of_nat (j : nat) : Z.of_nat j < 4294967296 → u32 (Z.of_nat j) = Z.of_nat j.
Proof. intros H. apply uwrap_small. change (2 ^ 32) with 4294967296. lia. Qed.

Lemma index_next (j : nat) : Z.of_nat (j + 1) < 4294967296 → uint_add (Z.of_nat j) 1 = Z.of_nat (j + 1).
Proof. intros H. rewrite <- (uint_of_nat j), uint_succ by lia. by apply uint_of_nat. Qed.

Lemma index_slot (j : nat) :
  Z.of_nat j < 4294967296 →
  uint_mul (Z.of_nat ts) (Z.land (Z.of_nat j) (2 ^ Z.of_nat k - 1)) = Z.of_nat (slot j).
Proof. intros H. rewrite <- (uint_of_nat j H) at 1. by apply slot_offset. Qed.

(** *** Looking at the ring *)

Lemma mask_wp n i p (Q : Z → party → Prop) :
  Q (2 ^ Z.of_nat k - 1) p → many_wp n (ck_pr_load (the_ring →' mask_loc)) i Q p.
Proof.
  intros HQ. apply look_step. intros r b tr h Hst Hp _. exists (act p).
  destruct p as [re se a]. cbn. rewrite (st_mask _ _ _ _ Hst). split; [apply (ok_act _ _ _ _ Hp) | done].
Qed.

Lemma p_head_wp n i p (Q : Z → party → Prop) :
  (∀ v, Q v p) → many_wp n (ck_pr_load (the_ring →' p_head_loc)) i Q p.
Proof.
  intros HQ. apply look_step. intros r b tr h Hst Hp _. exists (act p).
  destruct p as [re se a]. split; [apply (ok_act _ _ _ _ Hp) | apply HQ].
Qed.

(** The index of the consumers, which the thread remembers. *)
Lemma c_head_wp n i p (Q : Z → party → Prop) :
  (∀ c : nat, Z.of_nat c < 4294967296 → Q (Z.of_nat c) (act_is p (Snapshot c))) →
  many_wp n (ck_pr_load (the_ring →' c_head_loc)) i Q p.
Proof.
  intros HQ. apply look_step. intros r b tr h Hst Hp Hn. exists (Snapshot (length (h_o h))).
  destruct (indices _ _ _ _ Hst); [lia|]. split.
  - split; cbn; [apply (ok_seen _ _ _ _ Hp) | lia].
  - cbn. rewrite (st_c_head _ _ _ _ Hst). apply HQ. lia.
Qed.

(** A consumer sees whether there is an entry, where the consumers were. *)
Lemma p_tail_wp n i p c (Q : Z → party → Prop) :
  act p = Snapshot c →
  (∀ v, Q v (act_is p (if Z.of_nat c =? v then Idle else Reading c []))) →
  many_wp n (ck_pr_load (the_ring →' p_tail_loc)) i Q p.
Proof.
  intros Ha HQ. apply look_step. intros r b tr h Hst Hp Hn.
  exists (if Z.of_nat c =? Z.of_nat (h_t h) then Idle else Reading c []).
  split; [|cbn; rewrite (st_p_tail _ _ _ _ Hst); apply HQ].
  destruct (Z.eqb_spec (Z.of_nat c) (Z.of_nat (h_t h))) as [|Hne]; [done|].
  pose proof (ok_act _ _ _ _ Hp) as Hc. unfold action_ok in Hc. rewrite Ha in Hc. split; [done|].
  intros ->. destruct (indices _ _ _ _ Hst); [lia|]. split; [lia|].
  destruct (lookup_lt_is_Some_2 (h_q h) (length (h_o h))) as [[i' e] He]; [lia|]. by exists i', e.
Qed.

(** A producer waits for those before it. *)
Lemma wait_tail_wp n i p j e (Q : Z → party → Prop) :
  act p = Writing j e ts →
  (∀ v, Q v (act_is p (if v =? Z.of_nat j then Publishing j else Writing j e ts))) →
  many_wp n (ck_pr_load (the_ring →' p_tail_loc)) i Q p.
Proof.
  intros Ha HQ. apply look_step. intros r b tr h Hst Hp Hn.
  exists (if Z.of_nat (h_t h) =? Z.of_nat j then Publishing j else Writing j e ts).
  split; [|cbn; rewrite (st_p_tail _ _ _ _ Hst); apply HQ].
  pose proof (ok_act _ _ _ _ Hp) as Hc. unfold action_ok in Hc. rewrite Ha in Hc.
  destruct (Z.eqb_spec (Z.of_nat (h_t h)) (Z.of_nat j)) as [E|Hne]; [|done].
  destruct Hc as [_ Hc]. split; cbn; [lia | by exists e].
Qed.

(** *** Putting *)

Lemma state_put r b h tr i e :
  ring_state r b h tr → (length (h_q h) + 1 < length (h_o h) + 2 ^ k)%nat → (i < length uses)%nat → length e = ts →
  ring_state (loc_set p_head_loc (Z.of_nat (length (h_q h) + 1)) r) b (put_entry h (i, e)) tr.
Proof.
  intros [] Hroom Hi He. split; cbn; rewrite ?length_app; cbn; try done; try lia.
  - apply Forall_app. split; [done|]. by repeat constructor.
  - intros j i' e' Hj. rewrite lookup_app_l by lia. by apply st_live0.
  - eapply Forall2_impl; [done|]. intros [i1 e1] [i2 n] [Hi' E]. split; [done|]. cbn in *.
    destruct (h_q h !! n) as [x|] eqn:Hx; [|done]. by rewrite (lookup_app_l_Some _ _ _ _ Hx).
Qed.

Lemma rest_put b h i p sk e re :
  party_ok b h i p → rest p = sk ++ e :: re →
  ∃ us before, uses !! i = Some us ∧ puts us = before ++ re
    ∧ of_thread i (h_q h ++ [(i, e)]) `sublist_of` before.
Proof.
  intros Hp Hre. destruct (ok_rest _ _ _ _ Hp) as (us & before & Hu & Hpu & Hq).
  exists us, (before ++ sk ++ [e]). rewrite Hre in Hpu. split; [done|].
  split; [by rewrite <- !app_assoc|]. rewrite of_thread_snoc, decide_True by done.
  apply sublist_app; [done|]. by apply sublist_inserts_l.
Qed.

(** The index of the producers moves on: the slot is the thread's. *)
Lemma reserve_wp n i sk e re se c producer (Q : bool * Z → party → Prop) :
  length e = ts → uint_sub producer (Z.of_nat c) < 2 ^ Z.of_nat k - 1 →
  (∀ j : nat, Z.of_nat j < 4294967296 → producer = Z.of_nat j →
     Q (true, Z.of_nat j) (Party re se (Writing j e 0))) →
  (∀ v, Q (false, v) (Party (sk ++ e :: re) se (Snapshot c))) →
  many_wp n (ck_pr_cas_value (the_ring →' p_head_loc) producer (uint_add producer 1)) i Q
    (Party (sk ++ e :: re) se (Snapshot c)).
Proof.
  intros He Hsub HQ1 HQ2. apply party_step. intros r b tr h Hst Hp Hn. cbn in Hn. rewrite length_app in Hn. cbn in Hn.
  destruct (indices _ _ _ _ Hst) as [Ho Hb]; [lia|].
  cbn. rewrite (st_p_head _ _ _ _ Hst). destruct (Z.eqb_spec (Z.of_nat (length (h_q h))) producer) as [<-|Hne].
  - pose proof (ok_act _ _ _ _ Hp) as Hc. cbn in Hc. rewrite uint_sub_small in Hsub by lia.
    destruct (ok_rest _ _ _ _ Hp) as (us & _ & Hu & _).
    eexists _, _, b, tr, (put_entry h (i, e)), _. split; [reflexivity|].
    rewrite index_next by lia. pose proof (of_nat_pow2 k). split.
    { apply state_put; [done | lia | by eapply lookup_lt_Some | done]. }
    split; [|split; [|split; [|apply HQ1; [lia|done]]]].
    + split; cbn; try apply Hp; [|by eapply rest_put].
      split; [lia|]. split; [by apply list_lookup_middle | intros y v Hy; lia].
    + cbn. rewrite !length_app. cbn. lia.
    + intros j q Hne. by apply party_put.
  - eexists _, r, b, tr, h, _. split; [by rewrite <- (st_p_head _ _ _ _ Hst); destruct r|]. split; [exact Hst|].
    split; [exact Hp|]. split; [done|]. split; [done|]. apply HQ2.
Qed.

Lemma state_write r b h tr j e i z v :
  ring_state r b h tr → (h_t h ≤ j)%nat → h_q h !! j = Some (i, e) → (z < ts)%nat →
  ring_state r (<[(slot j + z)%nat := v]> b) h tr.
Proof.
  intros Hst Hj Hq Hz. pose proof (lookup_lt_Some _ _ _ Hq). pose proof Hst as [? ? ? ? Ho ? Hm Hl ? ? ? ?].
  split; try done; [by rewrite length_insert|]. intros j' i' e' Hj' He'. destruct Ho as [Ho _].
  apply (slot_has_write _ _ _ _ _ _ _ _ _ _ Hst); try lia; try done. by eapply Hl.
Qed.

Lemma memcpy_to_many_wp n i re se j e left x :
  length e = ts → left = drop x e → (x ≤ ts)%nat →
  many_wp n (memcpy_to the_buffer (Z.of_nat (slot j + x)) left) i
    (λ _ g, g = Party re se (Writing j e ts)) (Party re se (Writing j e x)).
Proof.
  intros Hl. revert x n. induction left as [|v left IH]; intros x n Hleft Hx; cbn [memcpy_to].
  - apply wp_ret. assert (length (drop x e) = 0%nat) as Hd by (by rewrite <- Hleft).
    rewrite length_drop in Hd. by replace x with ts by lia.
  - assert (e !! x = Some v) as Hv by (by rewrite <- (Nat.add_0_r x), <- lookup_drop, <- Hleft).
    pose proof (lookup_lt_Some _ _ _ Hv).
    apply wp_bind. apply wp_mono with (Q := λ _ g, g = Party re se (Writing j e (x + 1))).
    + apply party_step. intros r b tr h Hst Hp Hn. pose proof (ok_act _ _ _ _ Hp) as (Hj & Hq & Hh).
      assert (slot j + x < length b)%nat as Hlt by (rewrite (st_length _ _ _ _ Hst); apply slot_lt; lia).
      eexists _, r, _, tr, h, _. split; [cbn; by rewrite arr_set_lt by done|].
      split; [eapply state_write; try done; lia|]. split; [|split; [|split; [|done]]]; [| |].
      * destruct Hp as [_ ? ? ?]. split; try done. split; [done|]. split; [done|]. intros y u Hy Hu.
        destruct (decide (y = x)) as [->|Hne].
        -- rewrite list_lookup_insert_eq by done. congruence.
        -- rewrite list_lookup_insert_ne by lia. apply Hh; [lia | done].
      * done.
      * intros i' q Hne. eapply party_write; try done; lia.
    + intros [] g ->. replace (Z.of_nat (slot j + x) + 1) with (Z.of_nat (slot j + (x + 1))) by lia.
      apply IH; [|lia]. rewrite <- drop_drop, <- Hleft. done.
Qed.

(** The entry is published: those before it are. *)
Lemma publish_wp n i re se (j : nat) (Q : unit → party → Prop) :
  Q tt (Party re se Idle) →
  many_wp n (ck_pr_store (the_ring →' p_tail_loc) (uint_add (Z.of_nat j) 1)) i Q
    (Party re se (Publishing j)).
Proof.
  intros HQ. apply party_step. intros r b tr h Hst Hp Hn. pose proof (ok_act _ _ _ _ Hp) as (<- & e & Hq & Hh).
  destruct (indices _ _ _ _ Hst) as [Ho Hb]; [cbn in Hn; lia|]. pose proof (lookup_lt_Some _ _ _ Hq).
  eexists _, _, b, tr, (publish h), _. split; [reflexivity|].
  split; [|split; [|split; [|split; [|exact HQ]]]].
  - destruct Hst as [? ? ? ? [Ho' ?] ? ? Hl ? ? ? ?]. split; cbn; try done; [by apply index_next; lia | lia |].
    intros j i' e' Hj He'. destruct (decide (j = h_t h)) as [->|]; [rewrite Hq in He'; by injection He' as <- <-|]. apply (Hl j i' e'); [lia | done].
  - destruct Hp as [_ ? ? ?]. by split.
  - done.
  - intros i' q Hne. by eapply party_publish.
Qed.

(** *** Taking *)

(** A byte of the entry, when no other consumer has taken it. *)
Lemma memcpy_from_many_wp n i re se (c : nat) j d :
  (length d + j = ts)%nat →
  many_wp n (memcpy_from the_buffer (Z.of_nat (slot c + length d)) j) i
    (λ d' g, length (d ++ d') = ts ∧ g = Party re se (Reading c (d ++ d'))) (Party re se (Reading c d)).
Proof.
  revert d n. induction j as [|j IH]; intros d n Hd; cbn [memcpy_from].
  - apply wp_ret. rewrite app_nil_r. split; [lia | done].
  - apply wp_bind.
    apply wp_mono with (Q := λ v g, g = Party re se (Reading c (d ++ [v]))).
    + apply party_step. intros r b tr h Hst Hp Hn. pose proof (ok_act _ _ _ _ Hp) as [Hc Ha].
      assert (slot c + length d < length b)%nat as [v Hv]%lookup_lt_is_Some_2
        by (rewrite (st_length _ _ _ _ Hst); apply slot_lt; lia).
      exists v, r, b, tr, h, (Party re se (Reading c (d ++ [v]))). split; [cbn; by rewrite (arr_get_lookup _ _ _ Hv)|].
      split; [done|]. split; [|split; [done|split; [intros ? ? ?; done|done]]]. destruct Hp as [_ ? ? ?]. split; try done.
      split; [done|]. intros E. destruct (Ha E) as (Ht & i' & e & He & Hde). split; [done|].
      exists i', e. split; [done|]. rewrite length_app. cbn. rewrite Nat.add_1_r.
      assert (e !! length d = Some v) as Hev.
      { pose proof (st_marks _ _ _ _ Hst) as Hm. eapply Forall_lookup in Hm as [_ Hm]; [|exact He]. cbn in Hm.
        destruct (lookup_lt_is_Some_2 e (length d)) as [u Hu]; [lia|].
        assert (b !! (slot c + length d)%nat = Some u) by (eapply (st_live _ _ _ _ Hst c); [lia|done|lia|done]).
        congruence. }
      rewrite (take_S_r _ _ _ Hev). by rewrite <- Hde.
    + intros v g ->. apply wp_bind.
      replace (Z.of_nat (slot c + length d) + 1) with (Z.of_nat (slot c + length (d ++ [v])))
        by (rewrite length_app; cbn; lia).
      eapply wp_mono; [apply IH; rewrite length_app; cbn; lia|]. intros d' g [Hl ->].
      apply wp_ret. by rewrite <- app_assoc in *.
Qed.

Lemma state_take r b h tr i :
  ring_state r b h tr → (length (h_o h) < h_t h)%nat → (i < length uses)%nat →
  ring_state (loc_set c_head_loc (Z.of_nat (length (h_o h) + 1)) r) b (take_entry h i) tr.
Proof.
  intros [? ? ? ? Ho ? ? Hl Hk' ? ? ?] Ht Hi. split; cbn; rewrite ?length_app; cbn; try done; try lia.
  - intros j i' e' Hj. apply Hl. lia.
  - intros i' n Hn. by apply lookup_app_l_Some, Hk'.
  - apply Forall_app. split; [done|]. by repeat constructor.
Qed.

(** The index of the consumers moves on from [c], or another consumer was first. *)
Lemma claim_wp n A (g : Z → A) i re se (c : nat) d (Q : A → party → Prop) :
  length d = ts →
  Q (g (Z.of_nat c)) (Party re se (Taken c d)) →
  (∀ c' : nat, Z.of_nat c' < 4294967296 → c' ≠ c → Q (g (Z.of_nat c')) (Party re se (Snapshot c'))) →
  many_wp n (rmw (the_ring →' c_head_loc) g
    (λ v, if v =? Z.of_nat c then uint_add (Z.of_nat c) 1 else v)) i Q (Party re se (Reading c d)).
Proof.
  intros Hd HQ1 HQ2. apply party_step. intros r b tr h Hst Hp Hn. pose proof (ok_act _ _ _ _ Hp) as [Hc Ha].
  destruct (indices _ _ _ _ Hst) as [Ho Hb]; [lia|]. cbn. rewrite (st_c_head _ _ _ _ Hst).
  destruct (Z.eqb_spec (Z.of_nat (length (h_o h))) (Z.of_nat c)) as [E%Nat2Z.inj|Hne].
  - destruct (Ha (eq_sym E)) as (Ht & i' & e & He & Hde).
    assert (d = e) as <-.
    { pose proof (st_marks _ _ _ _ Hst) as Hm. eapply Forall_lookup in Hm as [_ Hm]; [|exact He]. cbn in Hm.
      rewrite Hde. apply take_ge. lia. }
    exists (g (Z.of_nat c)), (loc_set c_head_loc (Z.of_nat (c + 1)) r), b, tr, (take_entry h i),
      (Party re se (Taken c d)).
    split; [by rewrite index_next, E by lia|]. split.
    { destruct (ok_rest _ _ _ _ Hp) as (us & _ & Hu & _). apply lookup_lt_Some in Hu.
      rewrite <- E in *. by apply state_take. }
    split; [|split; [done|split; [|done]]].
    + destruct Hp as [_ ? ? ?]. split; try done; [|cbn in *; rewrite length_app; cbn; lia].
      split; [apply Hc|]. split; [by apply list_lookup_middle | by exists i'].
    + intros j q Hne. by apply party_take.
  - exists (g (Z.of_nat (length (h_o h)))), r, b, tr, h, (Party re se (Snapshot (length (h_o h)))).
    split; [by rewrite <- (st_c_head _ _ _ _ Hst); destruct r|]. split; [exact Hst|].
    split; [|split; [done|split; [done|apply HQ2; lia]]].
    destruct Hp as [_ Hs ? ?]. split; try done.
Qed.

(** What a thread takes comes after what it took. *)
Lemma took_many_wp n i re se c d :
  many_wp n (took (i, d)) i (λ _ g, rest g = re) (Party re se (Taken c d)).
Proof.
  apply party_step. intros r b tr h Hst Hp Hn. pose proof (ok_act _ _ _ _ Hp) as (Hc & Ho & i' & Hq). cbn in Hc.
  destruct (ok_sorted _ _ _ _ Hp) as [Hs Hlt]. cbn in Hlt. pose proof (lookup_lt_Some _ _ _ Ho).
  exists tt, r, b, (tr ++ [(i, d)]), (log_take h (i, c)), (Party re (c + 1) Idle).
  split; [done|]. split; [|split; [|split; [done|split; [|done]]]].
  - destruct Hst as [? ? ? ? ? ? ? ? Hto ? Honce Hlog]. split; try done.
    + cbn. intros j m [Hm|[= -> ->]%list_elem_of_singleton]%elem_of_app; [by apply Hto | done].
    + cbn. rewrite fmap_app. apply NoDup_app. split; [done|]. split; [|apply NoDup_singleton].
      intros m Hm ->%list_elem_of_singleton. cbn in Hm.
      apply list_elem_of_fmap in Hm as ([j m] & -> & Hm). cbn in *.
      pose proof (Hto j m Hm) as E. assert (j = i) as -> by congruence.
      apply elem_of_of_thread in Hm. rewrite Forall_forall in Hlt. specialize (Hlt m Hm). lia.
    + cbn. apply Forall2_app; [done|]. constructor; [|done]. cbn. by rewrite Hq.
  - split; cbn; [done | lia | | apply Hp]. rewrite of_thread_snoc, decide_True by done. split.
    + apply sorted_snoc; [done|]. eapply Forall_impl; [exact Hlt|]. cbn. lia.
    + apply Forall_app. split; [eapply Forall_impl; [exact Hlt|]; cbn; lia | constructor; [lia|done]].
  - intros j q Hne. by apply party_log.
Qed.

(** ** The operations *)

Lemma wait_wp n i re se j e :
  many_wp n (while (p ← ck_pr_load (the_ring →' p_tail_loc); mret (negb (p =? Z.of_nat j))) stall) i
    (λ _ g, g = Party re se (Publishing j)) (Party re se (Writing j e ts)).
Proof.
  apply (wp_while _ _ _ _ (λ g, g = Party re se (Writing j e ts))); [done|]. intros m g ->.
  apply wp_bind, (wait_tail_wp m i (Party re se (Writing j e ts)) j e); [done|]. intros v. apply wp_ret.
  destruct (v =? Z.of_nat j); [done|]. by apply wp_stall.
Qed.

Lemma reserve_loop_wp n i sk e re se a producer :
  length e = ts →
  many_wp n (enqueue_mp_reserve the_ring (2 ^ Z.of_nat k - 1) producer) i
    (λ r g, match r with
            | (true, v, _) => ∃ j : nat, v = Z.of_nat j ∧ Z.of_nat j < 4294967296 ∧ g = Party re se (Writing j e 0)
            | (false, _, _) => rest g = sk ++ e :: re
            end) (Party (sk ++ e :: re) se a).
Proof.
  intros He. apply (wp_loop _ _ _ _ _ (λ _ g, ∃ a, g = Party (sk ++ e :: re) se a)); [by exists a|]. clear a producer n.
  intros n producer g [a ->]. apply wp_bind, c_head_wp. intros c Hc. cbn [rest seen].
  destruct (Z.ltb_spec (uint_sub producer (Z.of_nat c)) (2 ^ Z.of_nat k - 1)) as [Hlt|_].
  - apply wp_bind. apply reserve_wp; [done|done| |].
    + intros j Hj _. apply wp_ret. by exists j.
    + intros v. apply wp_ret. by eexists.
  - apply wp_bind, p_head_wp. intros v. apply wp_ret. destruct (producer =? v); [done|]. by eexists.
Qed.

Lemma enqueue_mp_wp n i sk e re se a :
  length e = ts →
  many_wp n (_ck_ring_enqueue_mp the_ring the_buffer e (Z.of_nat ts)) i
    (λ r g, rest g = if (r.1 : bool) then re else sk ++ e :: re) (Party (sk ++ e :: re) se a).
Proof.
  intros He. apply wp_bind, mask_wp, wp_bind, p_head_wp. intros producer.
  apply wp_bind. eapply wp_mono; [by apply (reserve_loop_wp n i sk e re se a)|].
  intros [[[] v] consumer] g; cbn [fst].
  - intros (j & -> & Hj & ->). apply wp_bind, wp_bind. rewrite index_slot by done.
    rewrite <- (Nat.add_0_r (slot j)). eapply wp_mono; [by apply (memcpy_to_many_wp n i re se j e e 0); [done|done|lia]|].
    intros [] g ->. apply wp_bind. eapply wp_mono; [apply wait_wp|]. intros [] g ->.
    apply publish_wp. by apply wp_ret.
  - intros Hg. apply wp_bind, wp_ret. by apply wp_ret.
Qed.

Lemma dequeue_mc_wp n i p :
  many_wp n (_ck_ring_dequeue_mc the_ring the_buffer [] ts) i
    (λ r g, rest g = rest p ∧ (r.1 = true → ∃ c, act g = Taken c r.2)) p.
Proof.
  apply wp_bind, mask_wp, wp_bind, c_head_wp. intros c Hc.
  apply (wp_loop _ _ _ _ _ (λ '(v, _) g, ∃ c : nat, v = Z.of_nat c ∧ Z.of_nat c < 4294967296
    ∧ g = act_is p (Snapshot c))); [by exists c|]. clear n c Hc.
  intros n [v data] g (c & -> & Hc & ->). apply wp_bind, (p_tail_wp n i (act_is p (Snapshot c)) c); [done|].
  intros v. destruct (Z.of_nat c =? v); [by apply wp_ret|]. cbn [rest seen]. apply wp_bind.
  rewrite index_slot by done. pose proof (memcpy_from_many_wp n i (rest p) (seen p) c ts [] eq_refl) as Hm.
  rewrite Nat.add_0_r in Hm. eapply wp_mono; [exact Hm|]. intros d g [Hd ->]. cbn in Hd. cbn [app].
  apply wp_bind. apply claim_wp; [done| |].
  - rewrite Z.eqb_refl. apply wp_ret. split; [done|]. by exists c.
  - intros c' Hc' Hne. assert ((Z.of_nat c' =? Z.of_nat c) = false) as -> by (apply Z.eqb_neq; lia).
    apply wp_ret. by exists c'.
Qed.

Lemma trydequeue_mc_wp n i p :
  many_wp n (_ck_ring_trydequeue_mc the_ring the_buffer [] ts) i
    (λ r g, rest g = rest p ∧ (r.1 = true → ∃ c, act g = Taken c r.2)) p.
Proof.
  apply wp_bind, mask_wp, wp_bind, c_head_wp. intros c Hc.
  apply wp_bind, (p_tail_wp n i (act_is p (Snapshot c)) c); [done|].
  intros v. destruct (Z.of_nat c =? v); [by apply wp_ret|]. cbn [rest seen]. apply wp_bind.
  rewrite index_slot by done. pose proof (memcpy_from_many_wp n i (rest p) (seen p) c ts [] eq_refl) as Hm.
  rewrite Nat.add_0_r in Hm. eapply wp_mono; [exact Hm|]. intros d g [Hd ->]. cbn in Hd. cbn [app].
  apply wp_bind. apply claim_wp; [done| |].
  - rewrite Z.eqb_refl. apply wp_ret. split; [done|]. by exists c.
  - intros c' Hc' Hne. assert ((Z.of_nat c' =? Z.of_nat c) = false) as -> by (apply Z.eqb_neq; lia).
    by apply wp_ret.
Qed.

Lemma took_some_wp n i r p :
  (r.1 = true → ∃ c, act p = Taken c r.2) → many_wp n (took_some i r) i (λ _ g, rest g = rest p) p.
Proof.
  intros Hr. unfold took_some. destruct r as [[] d]; cbn in *; [|by apply wp_ret].
  destruct (Hr eq_refl) as [c Hc]. destruct p as [re se a]. cbn in *. subst a. apply took_many_wp.
Qed.

(** What is left to put: perhaps entries that were not put when there was no room, and those to come. *)
Definition to_put (us : list ring_use) (g : party) : Prop := ∃ skipped, rest g = skipped ++ puts us.

Lemma ring_use_wp n i u us p :
  Forall (λ e, length e = ts) (puts (u :: us)) → to_put (u :: us) p →
  many_wp n (ring_use_once ts i u) i (λ _ g, to_put us g) p.
Proof.
  intros Hl [sk Hre]. destruct p as [re se a]. cbn in Hre. destruct u as [e|e| |]; cbn [ring_use_once].
  - apply (wp_while _ _ _ _ (λ g, rest g = sk ++ e :: puts us)); [done|]. clear n se a Hre.
    intros n [re' se a] Hre. cbn in Hre. subst re'. apply wp_bind.
    eapply wp_mono; [apply enqueue_mp_wp; by inversion Hl|].
    intros [[] z] g Hg; cbn [fst negb]; apply wp_ret; [by exists [] | by apply wp_stall].
  - cbn in Hre. subst re. apply wp_bind. eapply wp_mono; [apply enqueue_mp_wp; by inversion Hl|].
    intros [[] z] g Hg; cbn [fst] in Hg; apply wp_ret; [by exists []|].
    exists (sk ++ [e]). by rewrite Hg, <- app_assoc.
  - apply wp_bind. eapply wp_mono; [apply dequeue_mc_wp|]. intros r g [Hg Hr].
    eapply wp_mono with (Q := λ _ g', rest g' = rest g); [by apply took_some_wp|]. intros _ g' E'. exists sk. by rewrite E', Hg; cbn; rewrite Hre.
  - apply wp_bind. eapply wp_mono; [apply trydequeue_mc_wp|]. intros r g [Hg Hr].
    eapply wp_mono with (Q := λ _ g', rest g' = rest g); [by apply took_some_wp|]. intros _ g' E'. exists sk. by rewrite E', Hg; cbn; rewrite Hre.
Qed.

Lemma ring_client_wp n i us p :
  Forall (λ e, length e = ts) (puts us) → to_put us p →
  many_wp n (ring_client ts i us) i (λ _ _, True) p.
Proof.
  revert n p. induction us as [|u us IH]; intros n p Hl Hp; cbn [ring_client]; [by apply wp_ret|].
  apply wp_bind. eapply wp_mono; [by apply ring_use_wp|]. intros a g Hg. apply IH; [|done].
  destruct u; cbn in Hl; [by inversion Hl..|done|done].
Qed.
End many.

Definition parties (uses : list (list ring_use)) : list party := (λ us, Party (puts us) 0 Idle) <$> uses.

Lemma remaining_parties uses : remaining (parties uses) = length (concat (map puts uses)).
Proof.
  induction uses as [|us uses IH]; [done|].
  change (remaining (parties (us :: uses))) with (length (puts us) + remaining (parties uses))%nat.
  by rewrite IH, <- length_app.
Qed.

(** Whatever the interleaving, what is logged comes from one queue of what was put, and no access is out of
    bounds. *)
Lemma mpmc_history k ts uses b s tr pool :
  (k ≤ 31)%nat → Z.of_nat (ts * 2 ^ k) ≤ 4294967296 →
  Z.of_nat (length (concat (map puts uses))) < 4294967296 →
  Forall (λ us, Forall (λ e, length e = ts) (puts us)) uses → length b = (ts * 2 ^ k)%nat →
  reaches ((ck_ring_init (2 ^ Z.of_nat k), b), []) (ring_clients ts uses) (s, tr) pool →
  queue_history uses tr ∧ ¬ pool_faults ((s, tr), pool).
Proof.
  intros Hk Hts Hn Hl Hb Hr.
  destruct (wp_sound (many_inv k ts uses (length (concat (map puts uses))))
    (ck_ring_init (2 ^ Z.of_nat k), b, []) (ring_clients ts uses) (parties uses) (s, tr) pool)
    as [(ls & Hlen & HI) Hf]; [| | | exact Hr|].
  - unfold ring_clients, parties. by rewrite length_imap, length_fmap.
  - exists (History [] [] 0 []). split; [|split].
    + assert (0 < 2 ^ Z.of_nat k) by lia.
      assert (2 ^ Z.of_nat k ≤ 2 ^ 31) by (apply Z.pow_le_mono_r; lia).
      pose proof (pow_pos k). split; cbn; try done; try constructor; try lia.
      * apply uint_sub_small. change (2 ^ 31) with 2147483648 in *. lia.
      * intros i' m Hm. by apply not_elem_of_nil in Hm.
    + cbn. by rewrite remaining_parties.
    + intros i p Hp. unfold parties in Hp. rewrite list_lookup_fmap in Hp.
      destruct (uses !! i) as [us|] eqn:Hu; [|done]. injection Hp as <-. split; cbn; try done; [split; constructor|].
      exists us, []. split; [done|]. split; [done|]. apply sublist_nil_l.
  - intros i t p n Ht Hp. unfold ring_clients, parties in *. rewrite list_lookup_imap in Ht.
    rewrite list_lookup_fmap in Hp. destruct (uses !! i) as [us|] eqn:Hu; [|done].
    injection Ht as <-. injection Hp as <-. apply ring_client_wp; try done; [|by exists []].
    by eapply Forall_lookup in Hl.
  - split; [|done]. destruct HI as (h & Hst & _ & Hls). cbn in Hst.
    exists (h_q h), (h_k h). split; [|split; [split; [|split]|]].
    + intros i us Hu. destruct (lookup_lt_is_Some_2 ls i) as [p Hp].
      { rewrite Hlen. unfold parties. rewrite length_fmap. by eapply lookup_lt_Some. }
      destruct (ok_rest _ _ _ _ _ _ _ (Hls i p Hp)) as (us' & before & Hu' & Hpu & Hq).
      assert (us = us') as <- by congruence. rewrite Hpu. by apply sublist_inserts_r.
    + apply (st_log _ _ _ _ _ _ _ Hst).
    + apply (st_once _ _ _ _ _ _ _ Hst).
    + intros i. destruct (decide (i < length uses)%nat) as [Hi|Hi].
      * destruct (lookup_lt_is_Some_2 ls i) as [p Hp]; [rewrite Hlen; unfold parties; by rewrite length_fmap|].
        apply (ok_sorted _ _ _ _ _ _ _ (Hls i p Hp)).
      * replace (of_thread i (h_k h)) with (@nil nat); [constructor|]. symmetry. apply elem_of_nil_inv.
        intros m Hm%elem_of_of_thread. apply (st_takers _ _ _ _ _ _ _ Hst) in Hm.
        pose proof (st_threads _ _ _ _ _ _ _ Hst) as Ht. eapply Forall_lookup in Ht; [|exact Hm]. lia.
    + eapply Forall_impl; [apply (st_marks _ _ _ _ _ _ _ Hst)|]. by intros x [? _].
Qed.
