(* ===== verification/CkSequence.v ===== *)
(** CkSequence: the sequence lock of Concurrency Kit, include/aerospike/ck/ck_sequence.h: readers that
    overlap a write try again, so what they return was written by one write. *)

From Stdlib Require Import ZArith Lia.
From stdpp Require Import base list.
From S2P Require Import Prelude Memory Concurrent CkPr.

#[local] Open Scope Z_scope.

(** [src: include/aerospike/ck/ck_sequence.h 34-37 ck_sequence] *)
Record ck_sequence : Type := MkSequence { sq_sequence : Z }.
Definition sq_sequence_loc : loc ck_sequence Z := MkLoc sq_sequence (λ v _, MkSequence v).

Section sequence.
Context {S : Type} (sq : loc S ck_sequence).
Abbreviation sequence := (sq →' sq_sequence_loc).

(** [src: include/aerospike/ck/ck_sequence.h 41-47 ck_sequence_init] *)
Definition ck_sequence_init : prog S unit := ck_pr_store sequence 0.

(** [src: include/aerospike/ck/ck_sequence.h 49-74 ck_sequence_read_begin] *)
Definition ck_sequence_read_begin : prog S Z :=
  loop (λ _ : unit,
    version ← ck_pr_load sequence;
    if Z.land version 1 =? 0 then mret (inr version)
    else stall;; mret (inl tt)) tt.

(** [src: include/aerospike/ck/ck_sequence.h 76-86 ck_sequence_read_retry] *)
Definition ck_sequence_read_retry (version : Z) : prog S bool :=
  v ← ck_pr_load sequence;
  mret (negb (v =? version)).

(** The macro, around a body with a result: that of its last round.
    [src: include/aerospike/ck/ck_sequence.h 88-91 CK_SEQUENCE_READ] *)
Definition CK_SEQUENCE_READ {A} (body : prog S A) (a : A) : prog S A :=
  loop (λ '(version, a),
    if version =? 0 then mret (inr a)
    else
      version ← ck_sequence_read_begin;
      a ← body;
      r ← ck_sequence_read_retry version;
      mret (inl (Z.b2z r, a))) (1, a).

(** The operand [sq->sequence] is read first.
    [src: include/aerospike/ck/ck_sequence.h 96-107 ck_sequence_write_begin] *)
Definition ck_sequence_write_begin : prog S unit :=
  v ← ck_pr_load sequence;
  ck_pr_store sequence (uint_add v 1).

(** [src: include/aerospike/ck/ck_sequence.h 112-123 ck_sequence_write_end] *)
Definition ck_sequence_write_end : prog S unit :=
  v ← ck_pr_load sequence;
  ck_pr_store sequence (uint_add v 1).
End sequence.

(** ** Clients

    The memory: the lock, the words it protects, and the log of what readers returned. *)

Definition sq_memory : Type := (ck_sequence * list Z) * list (list Z).
Definition the_sequence : loc sq_memory ck_sequence :=
  MkLoc (λ m : sq_memory, m.1.1) (λ (x : ck_sequence) (m : sq_memory), ((x, m.1.2), m.2)).
Definition returned (d : list Z) : prog sq_memory unit := atomic (λ m : sq_memory, Ret (tt, (m.1, m.2 ++ [d]))).

(** The words are written, and read, one by one. *)
Definition write_word (j v : Z) : prog sq_memory unit :=
  atomic (λ m : sq_memory, d ← arr_set m.1.2 j v; Ret (tt, ((m.1.1, d), m.2))).
Definition read_word (j : Z) : prog sq_memory Z :=
  atomic (λ m : sq_memory, v ← arr_get m.1.2 j; Ret (v, m)).

Fixpoint write_words (j : Z) (vs : list Z) : prog sq_memory unit :=
  match vs with [] => mret tt | v :: vs => write_word j v;; write_words (j + 1) vs end.

Fixpoint read_words (j : Z) (n : nat) : prog sq_memory (list Z) :=
  match n with
  | O => mret []
  | Datatypes.S n => v ← read_word j; vs ← read_words (j + 1) n; mret (v :: vs)
  end.

Fixpoint writer (values : list (list Z)) : prog sq_memory unit :=
  match values with
  | [] => mret tt
  | v :: values =>
      ck_sequence_write_begin the_sequence;; write_words 0 v;; ck_sequence_write_end the_sequence;;
      writer values
  end.

(** A reader reads for ever. *)
Definition reader (size : nat) : prog sq_memory unit :=
  loop (λ _ : unit,
    d ← CK_SEQUENCE_READ the_sequence (read_words 0 size) [];
    returned d;; mret (inl tt)) tt.

(** ** The invariant *)

(** The writer has made [w] writes, and [x] words of the next one; a reader is elsewhere, has words read
    under the version of the write [w], or has what a write left. *)
Inductive sq_ghost : Type :=
  | Writer (w : nat) (x : option nat)
  | Outside
  | Reads (w : nat) (d : list Z)
  | Snapshot (d : list Z).

Section snapshots.
Context (size : nat) (values : list (list Z)).
Context (Hsize : Forall (λ v, length v = size) values) (Hn : Z.of_nat (length values) ≤ 2147483648).

Definition version (w : nat) (x : option nat) : Z := 2 * Z.of_nat w + match x with Some _ => 1 | None => 0 end.

Definition reader_ok (w : nat) (x : option nat) (g : sq_ghost) : Prop :=
  match g with
  | Reads w0 d => (w0 ≤ w)%nat ∧ (w0 = w → x = None → ∃ v, values !! w = Some v ∧ d = take (length d) v)
  | Snapshot d => d ∈ values
  | _ => True
  end.

(** The words: those of the next write up to where it has come, then those of the last. *)
Definition words_ok (w : nat) (x : option nat) (d : list Z) : Prop :=
  length d = size ∧ ∃ v, values !! w = Some v ∧
  match x with
  | None => d = v
  | Some x => ∃ v', values !! (w + 1)%nat = Some v' ∧ (x ≤ size)%nat ∧ d = take x v' ++ drop x v
  end.

Definition sq_inv (s : sq_memory) (ls : list sq_ghost) : Prop :=
  ∃ w x, ls !! 0%nat = Some (Writer w x) ∧ sq_sequence s.1.1 = version w x ∧ words_ok w x s.1.2
    ∧ (∀ i g, ls !! i = Some g → i ≠ 0%nat → reader_ok w x g)
    ∧ Forall (λ d, d ∈ values) s.2.

Abbreviation sq_wp := (wp sq_inv).

Lemma reader_ok_later w x w' x' g :
  (w ≤ w')%nat → x' ≠ None ∨ (w < w')%nat → reader_ok w x g → reader_ok w' x' g.
Proof.
  intros Hw Hx. destruct g as [| |w0 d|d]; try done. intros [H0 H]. split; [lia|].
  intros -> ->. destruct Hx; [done|lia].
Qed.

Lemma writer_step n A (f : sq_memory → outcome (A * sq_memory)) w x (Q : A → sq_ghost → Prop) :
  (∀ s d tr, sq_sequence s = version w x → words_ok w x d →
     ∃ a s' d' w' x', f (s, d, tr) = Ret (a, (s', d', tr)) ∧ sq_sequence s' = version w' x' ∧ words_ok w' x' d'
       ∧ (∀ g, reader_ok w x g → reader_ok w' x' g) ∧ Q a (Writer w' x')) →
  sq_wp n (atomic f) 0 Q (Writer w x).
Proof.
  intros H. apply wp_atomic. intros [[s d] tr] ls (w0 & x0 & H0 & Hs & Hd & Hr & Htr) Hl. cbn in *.
  assert (w0 = w ∧ x0 = x) as [-> ->] by (rewrite H0 in Hl; by injection Hl).
  destruct (H s d tr Hs Hd) as (a & s' & d' & w' & x' & E & Hs' & Hd' & Hr' & HQ).
  exists a, (s', d', tr), (Writer w' x'). split; [done|]. split; [|done].
  exists w', x'. split; [apply list_lookup_insert_eq; by eapply lookup_lt_Some|].
  split; [done|]. split; [done|]. split; [|done]. intros i g Hi Hne.
  rewrite list_lookup_insert_ne in Hi by done. eauto.
Qed.

Lemma reader_step n A (f : sq_memory → outcome (A * sq_memory)) i g (Q : A → sq_ghost → Prop) :
  i ≠ 0%nat →
  (∀ s d tr w x, sq_sequence s = version w x → words_ok w x d → reader_ok w x g →
     ∃ a tr' g', f (s, d, tr) = Ret (a, (s, d, tr ++ tr')) ∧ reader_ok w x g' ∧ Forall (λ d, d ∈ values) tr'
       ∧ Q a g') →
  sq_wp n (atomic f) i Q g.
Proof.
  intros Hne H. apply wp_atomic. intros [[s d] tr] ls (w & x & H0 & Hs & Hd & Hr & Htr) Hl. cbn in *.
  destruct (H s d tr w x Hs Hd (Hr i g Hl Hne)) as (a & tr' & g' & E & Hg' & Htr' & HQ).
  exists a, (s, d, tr ++ tr'), g'. split; [done|]. split; [|done].
  exists w, x. split; [by rewrite list_lookup_insert_ne|].
  split; [done|]. split; [done|]. split; [|by apply Forall_app]. intros j q Hj Hne'.
  destruct (decide (i = j)) as [<-|].
  - rewrite list_lookup_insert_eq in Hj by (by eapply lookup_lt_Some). by injection Hj as <-.
  - rewrite list_lookup_insert_ne in Hj by done. eauto.
Qed.

(** *** The writer *)

Lemma own_sequence_wp n w x (Q : Z → sq_ghost → Prop) :
  Q (version w x) (Writer w x) → sq_wp n (ck_pr_load (the_sequence →' sq_sequence_loc)) 0 Q (Writer w x).
Proof.
  intros HQ. apply writer_step. intros s d tr Hs Hd. exists (version w x), s, d, w, x.
  split; [cbn; by rewrite Hs|]. done.
Qed.

Lemma version_next w x :
  is_Some (values !! (w + 1)%nat) →
  uint_add (version w x) 1 = match x with None => version w (Some 0%nat) | Some _ => version (w + 1) None end.
Proof.
  intros [v Hv]. apply lookup_lt_Some in Hv. unfold uint_add, version.
  rewrite uwrap_small; [destruct x; lia|]. change (2 ^ 32) with 4294967296. destruct x; lia.
Qed.

Lemma write_begin_wp n w :
  is_Some (values !! (w + 1)%nat) →
  sq_wp n (ck_sequence_write_begin the_sequence) 0 (λ _ g, g = Writer w (Some 0%nat)) (Writer w None).
Proof.
  intros Hw. apply wp_bind, own_sequence_wp. rewrite version_next by done.
  apply writer_step. intros s d tr Hs (Hl & v & Hv & ->). destruct Hw as [v' Hv'].
  eexists tt, _, v, w, (Some 0%nat). split; [reflexivity|]. split; [done|]. split; [|split; [|done]].
  - split; [done|]. exists v. split; [done|]. exists v'. split; [done|]. split; [lia | done].
  - intros g. apply reader_ok_later; [lia | by left].
Qed.

Lemma write_words_wp n w v left x :
  values !! (w + 1)%nat = Some v → left = drop x v → (x ≤ size)%nat →
  sq_wp n (write_words (Z.of_nat x) left) 0 (λ _ g, g = Writer w (Some size)) (Writer w (Some x)).
Proof.
  intros Hv. assert (length v = size) as Hlv by by eapply Forall_lookup in Hsize.
  revert x n. induction left as [|u left IH]; intros x n Hleft Hx; cbn [write_words].
  - apply wp_ret. assert (length (drop x v) = 0%nat) as Hd by (by rewrite <- Hleft).
    rewrite length_drop in Hd. by replace x with size by lia.
  - assert (v !! x = Some u) as Hu by (by rewrite <- (Nat.add_0_r x), <- lookup_drop, <- Hleft).
    pose proof (lookup_lt_Some _ _ _ Hu). apply wp_bind.
    apply wp_mono with (Q := λ _ g, g = Writer w (Some (x + 1)%nat)).
    + apply writer_step. intros s d tr Hs (Hl & v0 & Hv0 & v' & Hv' & _ & ->).
      assert (v' = v) as -> by congruence.
      assert (length v0 = size) as Hl0 by by eapply Forall_lookup in Hsize.
      eexists tt, s, _, w, (Some (x + 1)%nat).
      split; [cbn; by rewrite arr_set_lt by (rewrite Hl; lia)|]. split; [done|]. split; [|split; [|done]].
      * split; [by rewrite length_insert|]. exists v0. split; [done|]. exists v. split; [done|]. split; [lia|].
        rewrite Nat.add_1_r, (take_S_r _ _ _ Hu), <- app_assoc.
        rewrite insert_app_r_alt by (rewrite length_take; lia).
        replace (x - length (take x v))%nat with 0%nat by (rewrite length_take; lia).
        destruct (lookup_lt_is_Some_2 v0 x) as [u0 Hu0]; [lia|]. by rewrite (drop_S _ _ _ Hu0).
      * intros g. apply reader_ok_later; [lia | by left].
    + intros [] g ->. replace (Z.of_nat x + 1) with (Z.of_nat (x + 1)) by lia.
      apply IH; [by rewrite <- drop_drop, <- Hleft | lia].
Qed.

Lemma write_end_wp n w :
  is_Some (values !! (w + 1)%nat) →
  sq_wp n (ck_sequence_write_end the_sequence) 0 (λ _ g, g = Writer (w + 1) None) (Writer w (Some size)).
Proof.
  intros Hw. apply wp_bind, own_sequence_wp. rewrite version_next by done.
  apply writer_step. intros s d tr Hs (Hl & v & Hv & v' & Hv' & _ & ->).
  assert (length v = size ∧ length v' = size) as [Hlv Hlv'] by (split; by eapply Forall_lookup in Hsize).
  eexists tt, _, _, (w + 1)%nat, None. split; [reflexivity|]. split; [done|]. split; [|split; [|done]].
  - split; [done|]. exists v'. split; [done|]. rewrite take_ge, drop_ge by lia. by rewrite app_nil_r.
  - intros g. apply reader_ok_later; [lia | right; lia].
Qed.

Lemma writer_wp n w left :
  left = drop (w + 1) values → sq_wp n (writer left) 0 (λ _ _, True) (Writer w None).
Proof.
  revert w n. induction left as [|v left IH]; intros w n Hleft; cbn [writer]; [by apply wp_ret|].
  assert (values !! (w + 1)%nat = Some v) as Hv by (by rewrite <- (Nat.add_0_r (w + 1)), <- lookup_drop, <- Hleft).
  apply wp_bind. eapply wp_mono; [by apply write_begin_wp; exists v|]. intros [] g ->.
  apply wp_bind. eapply wp_mono; [by apply (write_words_wp n w v v 0); [|done|lia]|]. intros [] g ->.
  apply wp_bind. eapply wp_mono; [by apply write_end_wp; exists v|]. intros [] g ->.
  apply IH. by rewrite <- drop_drop, <- Hleft.
Qed.

(** *** The readers *)

Lemma version_even w x : (Z.land (version w x) 1 =? 0) = match x with None => true | Some _ => false end.
Proof.
  change 1 with (Z.ones 1). rewrite Z.land_ones by lia. unfold version. change (2 ^ 1) with 2.
  rewrite Z.add_comm, Z.mul_comm, Z.mod_add by lia. by destruct x.
Qed.

(** A reader starts while no write is under way. *)
Lemma read_begin_wp n i g :
  i ≠ 0%nat →
  sq_wp n (ck_sequence_read_begin the_sequence) i (λ v g, ∃ w, v = version w None ∧ g = Reads w []) g.
Proof.
  intros Hi. apply (wp_loop _ _ _ _ _ (λ _ _, True)); [done|]. clear n g. intros n _ g _.
  apply wp_bind, reader_step; [done|]. intros s d tr w x Hs (_ & v & Hv & _) Hg.
  exists (version w x), [], match x with Some _ => Outside | None => Reads w [] end. rewrite app_nil_r.
  split; [cbn; by rewrite Hs|]. split; [|split; [done|]].
  - destruct x; [done|]. split; [done|]. intros _ _. by exists v.
  - rewrite version_even. destruct x; [|by apply wp_ret; exists w].
    apply wp_bind, wp_stall. by apply wp_ret.
Qed.

Lemma read_words_wp n i w0 d j :
  i ≠ 0%nat → (length d + j = size)%nat →
  sq_wp n (read_words (Z.of_nat (length d)) j) i
    (λ d' g, length (d ++ d') = size ∧ g = Reads w0 (d ++ d')) (Reads w0 d).
Proof.
  intros Hi. revert d n. induction j as [|j IH]; intros d n Hd; cbn [read_words].
  - apply wp_ret. rewrite app_nil_r. split; [lia | done].
  - apply wp_bind. apply wp_mono with (Q := λ v g, g = Reads w0 (d ++ [v])).
    + apply reader_step; [done|]. intros s m tr w x Hs [Hl (v & Hv & Hx)] [Hw Hg].
      destruct (lookup_lt_is_Some_2 m (length d)) as [u Hu]; [lia|].
      exists u, [], (Reads w0 (d ++ [u])). rewrite app_nil_r.
      split; [cbn; by rewrite (arr_get_lookup _ _ _ Hu)|]. split; [|done]. split; [done|].
      intros E Ex. subst x m. destruct (Hg E eq_refl) as (v' & Hv' & Hdv). exists v'. split; [done|].
      assert (v' = v) as -> by congruence. rewrite length_app. cbn.
      rewrite Nat.add_1_r, (take_S_r _ _ _ Hu). by rewrite <- Hdv.
    + intros v g ->. apply wp_bind.
      replace (Z.of_nat (length d) + 1) with (Z.of_nat (length (d ++ [v]))) by (rewrite length_app; cbn; lia).
      eapply wp_mono; [apply IH; rewrite length_app; cbn; lia|]. intros d' g [Hl ->].
      apply wp_ret. by rewrite <- app_assoc in *.
Qed.

(** When the version is the same, the words are those of the write. *)
Lemma read_retry_wp n i w0 d :
  i ≠ 0%nat → length d = size →
  sq_wp n (ck_sequence_read_retry the_sequence (version w0 None)) i
    (λ r g, r = false → g = Snapshot d) (Reads w0 d).
Proof.
  intros Hi Hd. apply wp_bind, reader_step; [done|]. intros s m tr w x Hs (_ & v & Hv & _) [Hw Hg].
  exists (version w x), [], (if version w x =? version w0 None then Snapshot d else Outside). rewrite app_nil_r.
  split; [cbn; by rewrite Hs|]. split; [|split; [done|]].
  - destruct (Z.eqb_spec (version w x) (version w0 None)) as [E|_]; [|done].
    unfold version in E. assert (w0 = w ∧ x = None) as [-> ->] by (destruct x; [|split; [|done]]; lia).
    destruct (Hg eq_refl eq_refl) as (v' & Hv' & Hdv).
    assert (length v' = size) as Hl by by eapply Forall_lookup in Hsize.
    assert (d = v') as -> by (rewrite Hdv; apply take_ge; lia). by eapply list_elem_of_lookup_2.
  - apply wp_ret. destruct (version w x =? version w0 None); cbn; [done|]. intros [=].
Qed.

Lemma sequence_read_wp n i g :
  i ≠ 0%nat →
  sq_wp n (CK_SEQUENCE_READ the_sequence (read_words 0 size) []) i (λ d g, g = Snapshot d) g.
Proof.
  intros Hi. apply (wp_loop _ _ _ _ _ (λ '(v, d) g, v = 0 → g = Snapshot d)); [done|]. clear n g.
  intros n [v d] g Hg. destruct (Z.eqb_spec v 0) as [->|_]; [apply wp_ret; auto|].
  apply wp_bind. eapply wp_mono; [by apply read_begin_wp|]. intros v' g' (w & -> & ->).
  apply wp_bind. eapply wp_mono; [by apply (read_words_wp n i w [] size)|]. intros d' g' [Hd ->]. cbn in *.
  apply wp_bind. eapply wp_mono; [by apply read_retry_wp|]. intros r g' Hr. apply wp_ret.
  destruct r; [intros [=] | auto].
Qed.

Lemma reader_wp n i g : i ≠ 0%nat → sq_wp n (reader size) i (λ _ _, True) g.
Proof.
  intros Hi. apply (wp_loop _ _ _ _ _ (λ _ _, True)); [done|]. clear n g. intros n _ g _.
  apply wp_bind. eapply wp_mono; [by apply sequence_read_wp|]. intros d g' ->.
  apply wp_bind, reader_step; [done|]. intros s m tr w x Hs Hm Hd.
  exists tt, [d], Outside. split; [done|]. split; [done|]. split; [by constructor|]. by apply wp_ret.
Qed.
End snapshots.

(** Whatever the interleaving, a reader returns words that one write left together. *)
Lemma snapshots_consistent size v0 vs readers s tr pool :
  Forall (λ v, length v = size) (v0 :: vs) → Z.of_nat (length vs) < 2147483648 →
  reaches ((MkSequence 0, v0), []) (writer vs :: replicate readers (reader size)) (s, tr) pool →
  Forall (λ d, d ∈ v0 :: vs) tr ∧ ¬ pool_faults ((s, tr), pool).
Proof.
  intros Hs Hn Hr. assert (Z.of_nat (length (v0 :: vs)) ≤ 2147483648) as Hn' by (cbn; lia).
  destruct (wp_sound (sq_inv size (v0 :: vs)) (MkSequence 0, v0, []) (writer vs :: replicate readers (reader size))
    (Writer 0 None :: replicate readers Outside) (s, tr) pool)
    as [(ls & _ & w & x & _ & _ & _ & _ & Htr) Hf]; [| | |exact Hr|done].
  - cbn. by rewrite !length_replicate.
  - exists 0%nat, None. split; [done|]. split; [done|]. split; [|split; [|constructor]].
    + split; [by inversion Hs|]. by exists v0.
    + intros [|i] g Hg Hne; [done|]. cbn in Hg. by apply lookup_replicate in Hg as [-> _].
  - intros [|i] t l n Ht Hl; cbn in Ht, Hl.
    + injection Ht as <-. injection Hl as <-. by apply writer_wp.
    + apply lookup_replicate in Ht as [-> _]. by apply reader_wp.
Qed.
