(* ===== verification/CkStack.v ===== *)
(** CkStack: the concurrent stack of Concurrency Kit, include/aerospike/ck/ck_stack.h.

    An entry is its address, and [NULL] is 0; the memory has, beside the stack, the member [next] of every
    entry that is allocated.  An entry that was popped may still be read: the program does not free it. *)

From Stdlib Require Import ZArith Lia.
From stdpp Require Import base list gmap.
From S2P Require Import Prelude Concurrent CkPr.

#[local] Open Scope Z_scope.

(** The entries, each with its member [next]. *)
Abbreviation ck_stack_entries := (gmap Z Z).

(** [src: include/aerospike/ck/ck_stack.h 40-44 ck_stack] *)
Record ck_stack : Type := MkStack { st_head : Z; st_generation : Z }.
Definition st_head_loc : loc ck_stack Z := MkLoc st_head (λ v s, MkStack v (st_generation s)).
Definition st_generation_loc : loc ck_stack Z := MkLoc st_generation (λ v s, MkStack (st_head s) v).

#[export] Instance ck_stack_eq_dec : EqDecision ck_stack.
Proof. solve_decision. Defined.

(** [src: include/aerospike/ck/ck_stack.h 46-46 CK_STACK_INITIALIZER] *)
Definition CK_STACK_INITIALIZER : ck_stack := MkStack 0 0.

Definition NULL : Z := 0.

Section stack.
Context {S : Type} (target : loc S ck_stack) (entries : loc S ck_stack_entries).
Abbreviation head := (target →' st_head_loc).
Abbreviation generation := (target →' st_generation_loc).

(** [entry->next], read and written. *)
Definition next_of (nx : ck_stack_entries) (entry : Z) : outcome Z :=
  if entry =? NULL then Fault NullDeref
  else match nx !! entry with Some n => Ret n | None => Fault OutOfBounds end.

Definition load_next (entry : Z) : prog S Z :=
  atomic (λ s, n ← next_of (loc_get entries s) entry; Ret (n, s)).

Definition store_next (entry next : Z) : prog S unit :=
  atomic (λ s, _ ← next_of (loc_get entries s) entry;
               Ret (tt, loc_set entries (<[entry := next]> (loc_get entries s)) s)).

(** [src: include/aerospike/ck/ck_stack.h 53-68 ck_stack_push_upmc] *)
Definition ck_stack_push_upmc (entry : Z) : prog S unit :=
  stack ← ck_pr_load head;
  store_next entry stack;;
  loop (λ stack,
    '(r, stack) ← ck_pr_cas_value head stack entry;
    if (r : bool) then mret (inr tt)
    else store_next entry stack;; mret (inl stack)) stack.

(** [src: include/aerospike/ck/ck_stack.h 77-87 ck_stack_trypush_upmc] *)
Definition ck_stack_trypush_upmc (entry : Z) : prog S bool :=
  stack ← ck_pr_load head;
  store_next entry stack;;
  ck_pr_cas head stack entry.

(** [src: include/aerospike/ck/ck_stack.h 95-115 ck_stack_pop_upmc] *)
Definition ck_stack_pop_upmc : prog S Z :=
  entry ← ck_pr_load head;
  if entry =? NULL then mret NULL
  else
    next ← load_next entry;
    loop (λ '(entry, next),
      '(r, entry) ← ck_pr_cas_value head entry next;
      if (r : bool) then mret (inr entry)
      else if entry =? NULL then mret (inr entry)
      else next ← load_next entry; mret (inl (entry, next))) (entry, next).

(** The entry, when the result is [true].
    [src: include/aerospike/ck/ck_stack.h 126-142 ck_stack_trypop_upmc] *)
Definition ck_stack_trypop_upmc : prog S (option Z) :=
  entry ← ck_pr_load head;
  if entry =? NULL then mret None
  else
    next ← load_next entry;
    b ← ck_pr_cas head entry next;
    mret (if (b : bool) then Some entry else None).

(** [src: include/aerospike/ck/ck_stack.h 150-158 ck_stack_batch_pop_upmc] *)
Definition ck_stack_batch_pop_upmc : prog S Z := ck_pr_fas head NULL.

(** [src: include/aerospike/ck/ck_stack.h 166-172 ck_stack_push_mpmc] *)
Definition ck_stack_push_mpmc (entry : Z) : prog S unit := ck_stack_push_upmc entry.

(** [src: include/aerospike/ck/ck_stack.h 180-185 ck_stack_trypush_mpmc] *)
Definition ck_stack_trypush_mpmc (entry : Z) : prog S bool := ck_stack_trypush_upmc entry.

(** [src: include/aerospike/ck/ck_stack.h 194-223 ck_stack_pop_mpmc] *)
Definition ck_stack_pop_mpmc : prog S Z :=
  original_generation ← ck_pr_load generation;
  original_head ← ck_pr_load head;
  if original_head =? NULL then mret NULL
  else
    next ← load_next original_head;
    loop (λ '(original, update),
      '(r, original) ← ck_pr_cas_ptr_2_value target original update;
      if (r : bool) then mret (inr (st_head original))
      else if st_head original =? NULL then mret (inr NULL)
      else
        next ← load_next (st_head original);
        mret (inl (original, MkStack next (u64 (st_generation original + 1)))))
      (MkStack original_head original_generation, MkStack next (u64 (original_generation + 1))).

(** The entry, when the result is [true].
    [src: include/aerospike/ck/ck_stack.h 228-249 ck_stack_trypop_mpmc] *)
Definition ck_stack_trypop_mpmc : prog S (option Z) :=
  original_generation ← ck_pr_load generation;
  original_head ← ck_pr_load head;
  if original_head =? NULL then mret None
  else
    next ← load_next original_head;
    '(r, original) ← ck_pr_cas_ptr_2_value target
      (MkStack original_head original_generation) (MkStack next (u64 (original_generation + 1)));
    mret (if (r : bool) then Some (st_head original) else None).

(** [src: include/aerospike/ck/ck_stack.h 259-264 ck_stack_batch_pop_mpmc] *)
Definition ck_stack_batch_pop_mpmc : prog S Z := ck_stack_batch_pop_upmc.

(** [src: include/aerospike/ck/ck_stack.h 272-284 ck_stack_push_mpnc] *)
Definition ck_stack_push_mpnc (entry : Z) : prog S unit :=
  store_next entry NULL;;
  stack ← ck_pr_fas head entry;
  store_next entry stack.

(** [src: include/aerospike/ck/ck_stack.h 290-297 ck_stack_push_spnc] *)
Definition ck_stack_push_spnc (entry : Z) : prog S unit :=
  h ← ck_pr_load head;
  store_next entry h;;
  ck_pr_store head entry.

(** [src: include/aerospike/ck/ck_stack.h 302-314 ck_stack_pop_npsc] *)
Definition ck_stack_pop_npsc : prog S Z :=
  h ← ck_pr_load head;
  if h =? NULL then mret NULL
  else
    n ← ck_pr_load head;
    next ← load_next n;
    ck_pr_store head next;;
    mret n.

(** [src: include/aerospike/ck/ck_stack.h 319-328 ck_stack_batch_pop_npsc] *)
Definition ck_stack_batch_pop_npsc : prog S Z :=
  n ← ck_pr_load head;
  ck_pr_store head NULL;;
  mret n.

(** [src: include/aerospike/ck/ck_stack.h 333-340 ck_stack_init] *)
Definition ck_stack_init : prog S unit :=
  ck_pr_store head NULL;;
  ck_pr_store generation NULL.

(** [src: include/aerospike/ck/ck_stack.h 345-345 CK_STACK_ISEMPTY] *)
Definition CK_STACK_ISEMPTY : prog S bool := h ← ck_pr_load head; mret (h =? NULL).

(** [src: include/aerospike/ck/ck_stack.h 346-346 CK_STACK_FIRST] *)
Definition CK_STACK_FIRST : prog S Z := ck_pr_load head.

(** [src: include/aerospike/ck/ck_stack.h 347-347 CK_STACK_NEXT] *)
Definition CK_STACK_NEXT (m : Z) : prog S Z := load_next m.

(** The loop over the entries, with the variable that it leaves.
    [src: include/aerospike/ck/ck_stack.h 348-351 CK_STACK_FOREACH] *)
Definition CK_STACK_FOREACH (body : Z → prog S unit) : prog S unit :=
  entry ← CK_STACK_FIRST;
  loop (λ entry,
    if entry =? NULL then mret (inr tt)
    else body entry;; next ← CK_STACK_NEXT entry; mret (inl next)) entry.

(** The next entry is read before the body.
    [src: include/aerospike/ck/ck_stack.h 352-355 CK_STACK_FOREACH_SAFE] *)
Definition CK_STACK_FOREACH_SAFE (body : Z → prog S unit) : prog S unit :=
  entry ← CK_STACK_FIRST;
  loop (λ entry,
    if entry =? NULL then mret (inr tt)
    else T ← CK_STACK_NEXT entry; body entry;; mret (inl T)) entry.
End stack.

(** ** Clients

    A thread pushes entries that it owns, and owns what it pops.  It logs that it gives an entry away
    before it pushes it, and that it got one after it popped it. *)

Inductive stack_mark : Type := Give (i : nat) (e : Z) | Get (i : nat) (e : Z).

#[export] Instance stack_mark_eq_dec : EqDecision stack_mark.
Proof. solve_decision. Defined.

Definition stack_memory : Type := (ck_stack * ck_stack_entries) * list stack_mark.
Definition the_stack : loc stack_memory ck_stack :=
  MkLoc (λ m : stack_memory, m.1.1) (λ (x : ck_stack) (m : stack_memory), ((x, m.1.2), m.2)).
Definition the_entries : loc stack_memory ck_stack_entries :=
  MkLoc (λ m : stack_memory, m.1.2) (λ (x : ck_stack_entries) (m : stack_memory), ((m.1.1, x), m.2)).
Definition stack_log (k : stack_mark) : prog stack_memory unit :=
  atomic (λ m : stack_memory, Ret (tt, (m.1, m.2 ++ [k]))).

Inductive stack_use : Type := UsePush | UseTryPush | UsePop | UseTryPop | UseBatchPop.

#[export] Instance stack_use_eq_dec : EqDecision stack_use.
Proof. solve_decision. Defined.

(** What a thread owns after one use; it pushes the first entry it owns. *)
Definition stack_use_once (i : nat) (held : list Z) (u : stack_use) : prog stack_memory (list Z) :=
  match u, held with
  | UsePush, e :: held =>
      stack_log (Give i e);; ck_stack_push_mpmc the_stack the_entries e;; mret held
  | UseTryPush, e :: held =>
      stack_log (Give i e);;
      b ← ck_stack_trypush_mpmc the_stack the_entries e;
      if (b : bool) then mret held else stack_log (Get i e);; mret (e :: held)
  | UsePop, held =>
      r ← ck_stack_pop_mpmc the_stack the_entries;
      if r =? NULL then mret held else stack_log (Get i r);; mret (r :: held)
  | UseTryPop, held =>
      r ← ck_stack_trypop_mpmc the_stack the_entries;
      match r with None => mret held | Some e => stack_log (Get i e);; mret (e :: held) end
  | UseBatchPop, held =>
      r ← ck_stack_batch_pop_mpmc the_stack;
      (* the thread owns the entries of the list *)
      got ← loop (λ '(e, got),
        if e =? NULL then mret (inr got)
        else stack_log (Get i e);; n ← load_next the_entries e; mret (inl (n, got ++ [e]))) (r, []);
      mret (got ++ held)
  | _, held => mret held
  end.

Fixpoint stack_client (i : nat) (held : list Z) (uses : list stack_use) : prog stack_memory unit :=
  match uses with
  | [] => mret tt
  | u :: uses => held ← stack_use_once i held u; stack_client i held uses
  end.

(** Each thread with what it owns at the start, and its uses. *)
Definition stack_clients (threads : list (list Z * list stack_use)) : list (prog stack_memory unit) :=
  imap (λ i '(held, uses), stack_client i held uses) threads.

(** Who owns what after a log: [None] when an entry was given by one who did not own it, or got while
    another owned it. *)
Definition owner_step (o : gmap Z nat) (k : stack_mark) : option (gmap Z nat) :=
  match k with
  | Give i e => if decide (o !! e = Some i) then Some (delete e o) else None
  | Get i e => if decide (o !! e = None) then Some (<[e := i]> o) else None
  end.

Definition owners (o : gmap Z nat) (tr : list stack_mark) : option (gmap Z nat) :=
  foldl (λ o k, o ← o; owner_step o k) (Some o) tr.

(** Who owns what at the start. *)
Definition first_owners (threads : list (list Z * list stack_use)) : gmap Z nat :=
  list_to_map (concat (imap (λ i x, (λ e, (e, i)) <$> x.1) threads)).

(** * Threads that push, and pop one entry at a time: an entry has one owner at a time, although it is pushed again and again, as long as fewer than 2^64 entries are popped. *)

(** ** Ghost states *)

(** What a thread is doing: nothing; it has an entry to push, and what it wrote into [next]; it has read
    the generation after [g] pops; also the head; also its [next]; it has popped an entry. *)
Inductive deed : Type :=
  | Rest
  | Offers (e : Z)
  | Linked (e n : Z)
  | Counted (g : nat)
  | Peeked (g : nat) (h : Z)
  | Armed (g : nat) (h n : Z)
  | Popped (e : Z).

(** The entries that it owns by the log, how often it may still pop, what it is doing. *)
Record member : Type := Member { held : list Z; pops : nat; deed_of : deed }.

(** The entries in the hands of a thread. *)
Definition in_hand (d : deed) : list Z :=
  match d with Offers e | Linked e _ | Popped e => [e] | _ => [] end.
Definition hands (m : member) : list Z := in_hand (deed_of m) ++ held m.

(** The entries from the head on. *)
Fixpoint chain (nx : ck_stack_entries) (h : Z) (st : list Z) : Prop :=
  match st with
  | [] => h = NULL
  | e :: st => h = e ∧ e ≠ NULL ∧ ∃ n, nx !! e = Some n ∧ chain nx n st
  end.

Lemma chain_insert nx h st e n : e ∉ st → chain nx h st → chain (<[e := n]> nx) h st.
Proof.
  revert h. induction st as [|x st IH]; intros h He H; cbn in *; [done|].
  destruct H as (-> & Hx & m & Hm & Hc). split; [done|]. split; [done|]. exists m.
  rewrite not_elem_of_cons in He. destruct He as [Hne He]. split; [by rewrite lookup_insert_ne | by apply IH].
Qed.

(** Where every entry is: in the stack, or with a thread. *)
Inductive place : Type := InStack | With (i : nat).

Section members.
Context (first : gmap Z nat) (bound : nat) (Hbound : Z.of_nat bound < 18446744073709551616).

(** The entries of the stack, and how often one was popped. *)
Record shape : Type := Shape { sh_st : list Z; sh_w : gmap Z place; sh_g : nat }.

Definition deed_ok (nx : ck_stack_entries) (h : shape) (d : deed) : Prop :=
  match d with
  | Linked e n => nx !! e = Some n
  | Counted g => (g ≤ sh_g h)%nat
  | Peeked g e => (g ≤ sh_g h)%nat ∧ e ≠ NULL ∧ is_Some (sh_w h !! e) ∧ (g = sh_g h → e ∈ sh_st h)
  | Armed g e n => (g ≤ sh_g h)%nat ∧ e ≠ NULL ∧ is_Some (sh_w h !! e) ∧ (g = sh_g h → e ∈ sh_st h ∧ nx !! e = Some n)
  | _ => True
  end.

Record member_ok (nx : ck_stack_entries) (h : shape) (o : gmap Z nat) (i : nat) (m : member) : Prop := {
  mo_deed : deed_ok nx h (deed_of m);
  mo_hands e : e ∈ hands m → sh_w h !! e = Some (With i);
  mo_nodup : NoDup (hands m);
  mo_held e : e ∈ held m ↔ o !! e = Some i
}.

Record stack_ok (s : ck_stack) (nx : ck_stack_entries) (h : shape) (o : gmap Z nat) (tr : list stack_mark) : Prop := {
  so_generation : st_generation s = Z.of_nat (sh_g h);
  so_chain : chain nx (st_head s) (sh_st h);
  so_stack e : e ∈ sh_st h ↔ sh_w h !! e = Some InStack;
  so_nodup : NoDup (sh_st h);
  so_entries e : is_Some (sh_w h !! e) → e ≠ NULL ∧ is_Some (nx !! e);
  so_owned e i : o !! e = Some i → sh_w h !! e = Some (With i);
  so_log : owners first tr = Some o
}.

Definition members_inv (s : stack_memory) (ls : list member) : Prop :=
  ∃ h o, stack_ok s.1.1 s.1.2 h o s.2 ∧ (sh_g h + total pops ls ≤ bound)%nat
    ∧ ∀ i m, ls !! i = Some m → member_ok s.1.2 h o i m.

Abbreviation stack_wp := (wp members_inv).

(** A step of the thread [i], which leaves the others as they are. *)
Lemma member_step n A (f : stack_memory → outcome (A * stack_memory)) i m (Q : A → member → Prop) :
  (∀ s nx tr h o, stack_ok s nx h o tr → member_ok nx h o i m → (sh_g h + pops m ≤ bound)%nat →
     ∃ a s' nx' tr' h' o' m', f (s, nx, tr) = Ret (a, (s', nx', tr')) ∧ stack_ok s' nx' h' o' tr'
       ∧ member_ok nx' h' o' i m' ∧ (sh_g h' + pops m' ≤ sh_g h + pops m)%nat
       ∧ (∀ j q, j ≠ i → member_ok nx h o j q → member_ok nx' h' o' j q) ∧ Q a m') →
  stack_wp n (atomic f) i Q m.
Proof.
  intros H. apply wp_atomic. intros [[s nx] tr] ls (h & o & Hst & Hn & Hls) Hi. cbn in Hst, Hls.
  pose proof (total_lookup pops _ _ _ Hi).
  destruct (H s nx tr h o Hst (Hls i m Hi)) as (a & s' & nx' & tr' & h' & o' & m' & E & Hst' & Hm' & Hn' & Hoth & HQ);
    [lia|].
  exists a, (s', nx', tr'), m'. split; [done|]. split; [|done]. exists h', o'. split; [done|]. split.
  - pose proof (total_insert pops ls i m m' Hi). lia.
  - cbn. intros j q Hj. destruct (decide (i = j)) as [<-|Hne].
    + rewrite list_lookup_insert_eq in Hj by (by eapply lookup_lt_Some). by injection Hj as <-.
    + rewrite list_lookup_insert_ne in Hj by done. apply Hoth; [done|]. by apply Hls.
Qed.

(** A step that only looks: the thread knows more, and has the same in its hands. *)
Lemma peek_step n A (g : stack_memory → outcome A) i m (Q : A → member → Prop) :
  (∀ s nx tr h o, stack_ok s nx h o tr → member_ok nx h o i m →
     ∃ a d, g (s, nx, tr) = Ret a ∧ deed_ok nx h d ∧ in_hand d = in_hand (deed_of m)
       ∧ Q a (Member (held m) (pops m) d)) →
  stack_wp n (atomic (λ s, a ← g s; Ret (a, s))) i Q m.
Proof.
  intros H. apply member_step. intros s nx tr h o Hst Hm Hn.
  destruct (H s nx tr h o Hst Hm) as (a & d & E & Hd & Hh & HQ).
  exists a, s, nx, tr, h, o, (Member (held m) (pops m) d). rewrite E.
  split; [done|]. split; [done|]. split; [|done].
  destruct Hm as [_ ? ? ?]. unfold hands in *. split; cbn; unfold hands; cbn; rewrite ?Hh; done.
Qed.

(** *** Moves that the other threads do not notice *)

Lemma next_of_entry s nx h o tr e :
  stack_ok s nx h o tr → is_Some (sh_w h !! e) → ∃ n, nx !! e = Some n ∧ next_of nx e = Ret n.
Proof.
  intros Hst Hw. destruct (so_entries _ _ _ _ _ Hst e Hw) as [Hne [n Hn]]. exists n. split; [done|].
  unfold next_of. apply Z.eqb_neq in Hne. by rewrite Hne, Hn.
Qed.

Lemma others_store s nx h o tr i e v j m :
  stack_ok s nx h o tr → sh_w h !! e = Some (With i) → j ≠ i →
  member_ok nx h o j m → member_ok (<[e := v]> nx) h o j m.
Proof.
  intros Hst He Hne [Hd Hh ? ?]. split; try done.
  assert (e ∉ sh_st h) as Hst' by (intros H%(so_stack _ _ _ _ _ Hst); congruence).
  unfold deed_ok in *. destruct (deed_of m) as [|e'|e' n|g|g e'|g e' n|e'] eqn:E; try done.
  - rewrite lookup_insert_ne; [done|]. intros <-. assert (e ∈ hands m) as He' by (unfold hands; rewrite E; left).
    apply Hh in He'. congruence.
  - destruct Hd as (Hg & Hn & Hw & H). split; [done|]. split; [done|]. split; [done|]. intros Eg.
    destruct (H Eg) as [Hin Hnx]. split; [done|]. rewrite lookup_insert_ne; [done|]. by intros <-.
Qed.

Lemma others_push nx h o i e j m :
  sh_w h !! e = Some (With i) → j ≠ i → member_ok nx h o j m →
  member_ok nx (Shape (e :: sh_st h) (<[e := InStack]> (sh_w h)) (sh_g h)) o j m.
Proof.
  intros He Hne [Hd Hh ? ?]. split; try done.
  - unfold deed_ok in *. destruct (deed_of m) as [|e'|e' n|g|g e'|g e' n|e']; try done; cbn.
    + destruct Hd as (Hg & Hn & Hw & H). split; [done|]. split; [done|].
      split; [by apply lookup_insert_is_Some; destruct (decide (e = e')); auto|]. intros E. right. auto.
    + destruct Hd as (Hg & Hn & Hw & H). split; [done|]. split; [done|].
      split; [by apply lookup_insert_is_Some; destruct (decide (e = e')); auto|]. intros E.
      destruct (H E). split; [by right | done].
  - cbn. intros e' He'%Hh. rewrite lookup_insert_ne; [done|]. congruence.
Qed.

Lemma others_pop nx h o i e st j m :
  sh_w h !! e = Some InStack → j ≠ i → member_ok nx h o j m →
  member_ok nx (Shape st (<[e := With i]> (sh_w h)) (sh_g h + 1)) o j m.
Proof.
  intros He Hne [Hd Hh ? ?]. split; try done.
  - unfold deed_ok in *. destruct (deed_of m) as [|e'|e' n|g|g e'|g e' n|e']; try done; cbn; [lia|..];
      destruct Hd as (Hg & Hn & Hw & H); (split; [lia|]); (split; [done|]);
      (split; [by apply lookup_insert_is_Some; destruct (decide (e = e')); auto | lia]).
  - cbn. intros e' He'%Hh. rewrite lookup_insert_ne; [done|]. congruence.
Qed.

Lemma others_give nx h o i e j m :
  o !! e = Some i → j ≠ i → member_ok nx h o j m → member_ok nx h (delete e o) j m.
Proof.
  intros He Hne [? ? ? Ho]. split; try done. intros e'. rewrite Ho. destruct (decide (e = e')) as [<-|].
  - rewrite lookup_delete_eq. split; congruence.
  - by rewrite lookup_delete_ne.
Qed.

Lemma others_get nx h o i e j m :
  o !! e = None → j ≠ i → member_ok nx h o j m → member_ok nx h (<[e := i]> o) j m.
Proof.
  intros He Hne [? ? ? Ho]. split; try done. intros e'. rewrite Ho. destruct (decide (e = e')) as [<-|].
  - rewrite lookup_insert_eq. split; congruence.
  - by rewrite lookup_insert_ne.
Qed.

(** *** Looking at the stack *)

Abbreviation head := (the_stack →' st_head_loc).

Lemma load_generation_wp n i l p d (Q : Z → member → Prop) :
  in_hand d = [] → (∀ g : nat, Q (Z.of_nat g) (Member l p (Counted g))) →
  stack_wp n (ck_pr_load (the_stack →' st_generation_loc)) i Q (Member l p d).
Proof.
  intros Hd HQ. apply (peek_step n _ (λ m, Ret (st_generation m.1.1))). intros s nx tr h o Hst Hm.
  exists (Z.of_nat (sh_g h)), (Counted (sh_g h)). cbn. rewrite (so_generation _ _ _ _ _ Hst).
  split; [done|]. split; [cbn; lia|]. by rewrite Hd.
Qed.

Lemma stack_head_wp n i m (Q : Z → member → Prop) :
  (∀ v, Q v m) → stack_wp n (ck_pr_load head) i Q m.
Proof.
  intros HQ. apply (peek_step n _ (λ m, Ret (st_head m.1.1))). intros s nx tr h o Hst Hm.
  exists (st_head s), (deed_of m). destruct m. split; [done|]. split; [apply Hm|]. split; [done | apply HQ].
Qed.

(** The head, if there is one, is in the stack. *)
Lemma head_in s nx h o tr :
  stack_ok s nx h o tr → st_head s ≠ NULL → st_head s ∈ sh_st h ∧ is_Some (sh_w h !! st_head s).
Proof.
  intros Hst Hne. pose proof (so_chain _ _ _ _ _ Hst) as Hc.
  assert (st_head s ∈ sh_st h) as Hin.
  { destruct (sh_st h) as [|e st]; cbn in Hc; [done|]. destruct Hc as (-> & _). left. }
  split; [done|]. apply (so_stack _ _ _ _ _ Hst) in Hin as ->. by eexists.
Qed.

Definition peeked (g : nat) (v : Z) : deed := if v =? NULL then Rest else Peeked g v.

Lemma peek_head_wp n i l p g (Q : Z → member → Prop) :
  (∀ v, Q v (Member l p (peeked g v))) → stack_wp n (ck_pr_load head) i Q (Member l p (Counted g)).
Proof.
  intros HQ. apply (peek_step n _ (λ m, Ret (st_head m.1.1))). intros s nx tr h o Hst Hm.
  exists (st_head s), (peeked g (st_head s)). split; [done|]. unfold peeked.
  destruct (Z.eqb_spec (st_head s) NULL) as [E|Hne].
  - split; [done|]. split; [done|]. specialize (HQ (st_head s)). unfold peeked in HQ. by rewrite E in HQ |- *.
  - destruct (head_in _ _ _ _ _ Hst Hne). split; [|split; [done|]].
    + split; [apply (mo_deed _ _ _ _ _ Hm)|]. by split; [|split].
    + specialize (HQ (st_head s)). unfold peeked in HQ. by apply Z.eqb_neq in Hne as E; rewrite E in HQ.
Qed.

Lemma load_next_wp n i l p g e (Q : Z → member → Prop) :
  (∀ v, Q v (Member l p (Armed g e v))) →
  stack_wp n (load_next the_entries e) i Q (Member l p (Peeked g e)).
Proof.
  intros HQ. apply (peek_step n _ (λ m, next_of m.1.2 e)). intros s nx tr h o Hst Hm.
  destruct (mo_deed _ _ _ _ _ Hm) as (Hg & Hne & Hw & H). destruct (next_of_entry _ _ _ _ _ _ Hst Hw) as (v & Hv & E).
  exists v, (Armed g e v). split; [done|]. split; [|by split]. split; [done|]. split; [done|]. split; [done|]. auto.
Qed.

(** *** Pushing *)

(** The thread writes [next] of an entry in its hands. *)
Lemma store_next_wp n i l p d e v (Q : unit → member → Prop) :
  d = Offers e ∨ (∃ v', d = Linked e v') →
  Q tt (Member l p (Linked e v)) → stack_wp n (store_next the_entries e v) i Q (Member l p d).
Proof.
  intros Hd HQ. apply member_step. intros s nx tr h o Hst Hm Hn.
  assert (in_hand d = [e]) as Hin by by destruct Hd as [->|[v' ->]].
  assert (sh_w h !! e = Some (With i)) as Hw.
  { apply (mo_hands _ _ _ _ _ Hm). unfold hands. cbn. rewrite Hin. left. }
  destruct (next_of_entry _ _ _ _ _ e Hst) as (v' & Hv' & E); [by rewrite Hw|].
  exists tt, s, (<[e := v]> nx), tr, h, o, (Member l p (Linked e v)). split; [cbn; by rewrite E|].
  assert (e ∉ sh_st h) by (intros H%(so_stack _ _ _ _ _ Hst); congruence).
  split; [|split; [|split; [done|split; [|done]]]].
  - destruct Hst as [? ? ? ? Hen ? ?]. split; try done; [by apply chain_insert|]. intros e' He'.
    destruct (Hen e' He') as [? ?]. split; [done|]. apply lookup_insert_is_Some. destruct (decide (e = e')); auto.
  - destruct Hm as [_ Hh Hnd Ho]. unfold hands in *. cbn in *. rewrite Hin in *. split; try done. cbn. by rewrite lookup_insert_eq.
  - intros j q Hne. by eapply others_store.
Qed.

Lemma hands_put nx h o i l p d e :
  member_ok nx h o i (Member l p d) → in_hand d = [e] →
  sh_w h !! e = Some (With i) ∧ (e ∉ l) ∧ NoDup l ∧ (∀ x, x ∈ l → x ≠ e ∧ sh_w h !! x = Some (With i)).
Proof.
  intros [_ Hh Hnd _] Hd. unfold hands in *. cbn in *. rewrite Hd in *. cbn in *. inversion Hnd; subst.
  split; [apply Hh; left|]. split; [done|]. split; [done|]. intros x Hx. split; [by intros -> | apply Hh; by right].
Qed.

(** The head becomes the entry, or is not what [next] has. *)
Lemma push_wp n A (g : Z → A) i l p e v (Q : A → member → Prop) :
  Q (g v) (Member l p Rest) → (∀ v', v' ≠ v → Q (g v') (Member l p (Linked e v))) →
  stack_wp n (rmw head g (λ v', if v' =? v then e else v')) i Q (Member l p (Linked e v)).
Proof.
  intros HQ1 HQ2. apply member_step. intros s nx tr h o Hst Hm Hn.
  destruct (hands_put _ _ _ _ _ _ _ e Hm eq_refl) as (Hw & Hel & Hnd & Hl). cbn.
  destruct (Z.eqb_spec (st_head s) v) as [Ev|Hne].
  - exists (g v), (MkStack e (st_generation s)), nx, tr,
      (Shape (e :: sh_st h) (<[e := InStack]> (sh_w h)) (sh_g h)), o, (Member l p Rest).
    split; [by rewrite Ev|]. split; [|split; [|split; [done|split; [|done]]]].
    + destruct (so_entries _ _ _ _ _ Hst e) as [He _]; [by rewrite Hw|].
      assert (e ∉ sh_st h) as Hes by (intros H%(so_stack _ _ _ _ _ Hst); congruence).
      pose proof (mo_deed _ _ _ _ _ Hm) as Hnx. cbn in Hnx.
      destruct Hst as [? ? Hs ? Hen Ho ?]. split; cbn; try done.
      * split; [done|]. split; [done|]. exists v. split; [done|]. by rewrite <- Ev.
      * intros x. rewrite elem_of_cons. destruct (decide (e = x)) as [<-|Hx].
        -- rewrite lookup_insert_eq. split; [done | by left].
        -- rewrite lookup_insert_ne, <- Hs by done. split; [by intros [->|] | by right].
      * by constructor.
      * intros x Hx%lookup_insert_is_Some'. apply Hen. destruct Hx as [<-|]; [by rewrite Hw | done].
      * intros x j Hx. rewrite lookup_insert_ne; [by apply Ho|]. intros <-.
        apply Ho in Hx as Hx'. assert (j = i) as -> by congruence.
        by apply (mo_held _ _ _ _ _ Hm) in Hx.
    + destruct Hm as [_ _ _ Ho]. split; cbn; try done. intros x Hx. destruct (Hl x Hx).
      by rewrite lookup_insert_ne.
    + intros j q Hj. by eapply others_push.
  - exists (g (st_head s)), s, nx, tr, h, o, (Member l p (Linked e v)). split; [by destruct s|].
    split; [done|]. split; [done|]. split; [done|]. split; [done|]. by apply HQ2.
Qed.

(** *** Popping *)

(** Head and generation move on, or are not what they were. *)
Lemma pop_wp n i l p g e nx' (Q : bool * ck_stack → member → Prop) :
  Q (true, MkStack e (Z.of_nat g)) (Member l p (Popped e)) →
  (∀ g' v, Q (false, MkStack v (Z.of_nat g')) (Member l (S p) (peeked g' v))) →
  stack_wp n (ck_pr_cas_ptr_2_value the_stack (MkStack e (Z.of_nat g)) (MkStack nx' (u64 (Z.of_nat g + 1)))) i Q
    (Member l (S p) (Armed g e nx')).
Proof.
  intros HQ1 HQ2. apply member_step. intros s nx tr h o Hst Hm Hn. cbn in Hn.
  destruct (mo_deed _ _ _ _ _ Hm) as (Hg & Hne & Hwe & H). cbn [deed_of] in *.
  cbn. destruct (decide (s = MkStack e (Z.of_nat g))) as [->|Hs].
  - pose proof (so_generation _ _ _ _ _ Hst) as E. cbn in E. apply Nat2Z.inj in E.
    destruct (H E) as [Hin Hnx]. pose proof (so_chain _ _ _ _ _ Hst) as Hc. cbn in Hc.
    destruct (sh_st h) as [|e' st] eqn:Est; [by apply not_elem_of_nil in Hin|]. cbn in Hc.
    destruct Hc as (<- & _ & n' & Hn' & Hc). assert (n' = nx') as -> by congruence.
    assert (sh_w h !! e = Some InStack) as Hw by (apply (so_stack _ _ _ _ _ Hst); rewrite Est; left).
    pose proof (so_nodup _ _ _ _ _ Hst) as Hnd. rewrite Est in Hnd. inversion Hnd as [|? ? Hest Hndst]; subst.
    exists (true, MkStack e (Z.of_nat (sh_g h))), (MkStack nx' (Z.of_nat (sh_g h + 1))), nx, tr,
      (Shape st (<[e := With i]> (sh_w h)) (sh_g h + 1)), o, (Member l p (Popped e)).
    split.
    { rewrite bool_decide_eq_true_2 by done. rewrite uwrap_small by (change (2 ^ 64) with 18446744073709551616; lia).
      by replace (Z.of_nat (sh_g h) + 1) with (Z.of_nat (sh_g h + 1)) by lia. }
    assert (e ∉ l) as Hel.
    { intros Hl. assert (e ∈ hands (Member l (S p) (Armed (sh_g h) e nx'))) as Hh by done.
      apply (mo_hands _ _ _ _ _ Hm) in Hh. congruence. }
    split; [|split; [|split; [cbn; lia|split; [|done]]]].
    + destruct Hst as [? ? Hs ? Hen Ho ?]. split; cbn; try done.
      * intros x. destruct (decide (e = x)) as [<-|Hx].
        -- rewrite lookup_insert_eq. by split.
        -- rewrite lookup_insert_ne, <- Hs, Est, elem_of_cons by done. split; [by right | by intros [->|]].
      * intros x Hx%lookup_insert_is_Some'. apply Hen. destruct Hx as [<-|]; [by rewrite Hw | done].
      * intros x j Hx. rewrite lookup_insert_ne; [by apply Ho|]. intros <-. apply Ho in Hx. congruence.
    + destruct Hm as [_ Hh Hnd' Ho]. unfold hands in *. cbn in *. split; cbn; try done.
      * intros x [->|Hx]%elem_of_cons; [by rewrite lookup_insert_eq|].
        rewrite lookup_insert_ne; [by apply Hh|]. by intros <-.
      * by constructor.
    + intros j q Hj. by apply (others_pop nx h o i e st).
  - exists (false, MkStack (st_head s) (Z.of_nat (sh_g h))), s, nx, tr, h, o,
      (Member l (S p) (peeked (sh_g h) (st_head s))).
    split.
    { rewrite bool_decide_eq_false_2 by done. rewrite <- (so_generation _ _ _ _ _ Hst). by destruct s. }
    split; [done|]. split; [|split; [done|split; [done|apply HQ2]]].
    destruct Hm as [_ ? ? ?]. unfold hands in *. unfold peeked.
    destruct (Z.eqb_spec (st_head s) NULL) as [|Hnz]; split; try done.
    destruct (head_in _ _ _ _ _ Hst Hnz). by split; [|split; [|split]].
Qed.

(** *** The log *)

Lemma owners_snoc o tr k : owners o (tr ++ [k]) = (o' ← owners o tr; owner_step o' k).
Proof. unfold owners. by rewrite foldl_app. Qed.

Lemma give_wp n i l p d e :
  in_hand d = [] →
  stack_wp n (stack_log (Give i e)) i (λ _ m, m = Member l p (Offers e)) (Member (e :: l) p d).
Proof.
  intros Hd. apply member_step. intros s nx tr h o Hst Hm Hn.
  assert (o !! e = Some i) as He by (apply (mo_held _ _ _ _ _ Hm); left).
  pose proof (mo_nodup _ _ _ _ _ Hm) as Hnd. unfold hands in Hnd. cbn in Hnd. rewrite Hd in Hnd. cbn in Hnd.
  inversion Hnd as [|? ? Hel Hndl]; subst.
  exists tt, s, nx, (tr ++ [Give i e]), h, (delete e o), (Member l p (Offers e)). split; [done|].
  split; [|split; [|split; [done|split; [|done]]]].
  - destruct Hst as [? ? ? ? ? Ho Hlog]. split; try done.
    + intros x j [_ Hx]%lookup_delete_Some. by apply Ho.
    + rewrite owners_snoc, Hlog. cbn. by rewrite decide_True.
  - destruct Hm as [_ Hh _ Ho]. unfold hands in *. cbn in *. rewrite Hd in *. split; try done.
    cbn. intros x. destruct (decide (e = x)) as [<-|Hx].
    + rewrite lookup_delete_eq. split; [done|]. intros [=].
    + rewrite lookup_delete_ne, <- Ho, elem_of_cons by done. split; [by right | by intros [->|]].
  - intros j q Hj. by eapply others_give.
Qed.

Lemma get_wp n i l p d e :
  in_hand d = [e] →
  stack_wp n (stack_log (Get i e)) i (λ _ m, m = Member (e :: l) p Rest) (Member l p d).
Proof.
  intros Hd. apply member_step. intros s nx tr h o Hst Hm Hn.
  destruct (hands_put _ _ _ _ _ _ _ e Hm Hd) as (Hw & Hel & Hnd & Hl).
  assert (o !! e = None) as He.
  { destruct (o !! e) as [j|] eqn:Ej; [|done]. exfalso.
    pose proof (so_owned _ _ _ _ _ Hst e j Ej) as Hj. assert (j = i) as -> by congruence.
    by apply (mo_held _ _ _ _ _ Hm) in Ej. }
  exists tt, s, nx, (tr ++ [Get i e]), h, (<[e := i]> o), (Member (e :: l) p Rest). split; [done|].
  split; [|split; [|split; [done|split; [|done]]]].
  - destruct Hst as [? ? ? ? ? Ho Hlog]. split; try done.
    + intros x j [[-> ->]|[_ Hx]]%lookup_insert_Some; [done | by apply Ho].
    + rewrite owners_snoc, Hlog. cbn. by rewrite decide_True.
  - destruct Hm as [_ Hh Hnd' Ho]. unfold hands in *. cbn in *. rewrite Hd in *. split; try done.
    cbn. intros x. rewrite elem_of_cons. destruct (decide (e = x)) as [<-|Hx].
    + rewrite lookup_insert_eq. split; [done | by left].
    + rewrite lookup_insert_ne, <- Ho by done. split; [by intros [->|] | by right].
  - intros j q Hj. by eapply others_get.
Qed.

(** ** The operations *)

Lemma push_mpmc_wp n i l p e :
  stack_wp n (ck_stack_push_mpmc the_stack the_entries e) i (λ _ m, m = Member l p Rest) (Member l p (Offers e)).
Proof.
  apply wp_bind, stack_head_wp. intros v. apply wp_bind, store_next_wp; [by left|].
  apply (wp_loop _ _ _ _ _ (λ v m, m = Member l p (Linked e v))); [done|]. clear n v. intros n v m ->.
  apply wp_bind, push_wp; cbn.
  - rewrite Z.eqb_refl. by apply wp_ret.
  - intros v' Hv'. apply Z.eqb_neq in Hv' as ->. apply wp_bind, store_next_wp; [right; by eexists|].
    by apply wp_ret.
Qed.

Lemma trypush_mpmc_wp n i l p e :
  stack_wp n (ck_stack_trypush_mpmc the_stack the_entries e) i
    (λ b m, if (b : bool) then m = Member l p Rest else ∃ v, m = Member l p (Linked e v)) (Member l p (Offers e)).
Proof.
  apply wp_bind, stack_head_wp. intros v. apply wp_bind, store_next_wp; [by left|].
  apply push_wp; [by rewrite Z.eqb_refl|]. intros v' Hv'. apply Z.eqb_neq in Hv' as ->. by exists v.
Qed.

(** What a pop leaves: the entry in the thread's hands, or nothing. *)
Definition pop_post (l : list Z) (p : nat) (r : option Z) (m : member) : Prop :=
  held m = l ∧ (p ≤ pops m)%nat ∧
  match r with Some e => deed_of m = Popped e | None => in_hand (deed_of m) = [] end.

Lemma pop_mpmc_wp n i l p d :
  in_hand d = [] →
  stack_wp n (ck_stack_pop_mpmc the_stack the_entries) i
    (λ r m, ∃ r', pop_post l p r' m ∧ r = default NULL r' ∧ r' ≠ Some NULL) (Member l (S p) d).
Proof.
  intros Hd. apply wp_bind, load_generation_wp; [done|]. intros g. apply wp_bind, peek_head_wp. intros v.
  unfold peeked. destruct (Z.eqb_spec v NULL) as [->|Hv].
  { apply wp_ret. exists None. split; [|done]. split; [done|]. split; [cbn; lia | done]. }
  apply wp_bind, load_next_wp. intros nx.
  apply (wp_loop _ _ _ _ _ (λ '(original, update) m, ∃ g e v, e ≠ NULL ∧ original = MkStack e (Z.of_nat g)
    ∧ update = MkStack v (u64 (Z.of_nat g + 1)) ∧ m = Member l (S p) (Armed g e v))); [by exists g, v, nx|].
  clear n g v nx Hv. intros n [original update] m (g & e & v & He & -> & -> & ->).
  apply wp_bind, pop_wp.
  - apply wp_ret. exists (Some e). split; [done|]. split; [done|]. congruence.
  - intros g' v'. cbn [st_head st_generation]. unfold peeked. destruct (Z.eqb_spec v' NULL) as [->|Hv'].
    + apply wp_ret. exists None. split; [|done]. split; [done|]. split; [cbn; lia | done].
    + apply wp_bind, load_next_wp. intros v''. apply wp_ret. by exists g', v', v''.
Qed.

Lemma trypop_mpmc_wp n i l p d :
  in_hand d = [] →
  stack_wp n (ck_stack_trypop_mpmc the_stack the_entries) i (pop_post l p) (Member l (S p) d).
Proof.
  intros Hd. apply wp_bind, load_generation_wp; [done|]. intros g. apply wp_bind, peek_head_wp. intros v.
  unfold peeked. destruct (Z.eqb_spec v NULL) as [->|Hv].
  { apply wp_ret. split; [done|]. split; [cbn; lia | done]. }
  apply wp_bind, load_next_wp. intros nx. apply wp_bind, pop_wp.
  - by apply wp_ret.
  - intros g' v'. apply wp_ret. split; [done|]. split; [cbn; lia|]. cbn. unfold peeked. by destruct (v' =? NULL).
Qed.

(** ** The clients *)

Definition is_pop (u : stack_use) : bool := match u with UsePop | UseTryPop => true | _ => false end.
Definition pops_in (uses : list stack_use) : nat := length (filter (λ u, is_pop u) uses).

(** Between two uses. *)
Definition ready (l : list Z) (p : nat) (m : member) : Prop :=
  held m = l ∧ (p ≤ pops m)%nat ∧ in_hand (deed_of m) = [].

Lemma got_wp n i l p e m :
  held m = l → (p ≤ pops m)%nat → in_hand (deed_of m) = [e] →
  stack_wp n (stack_log (Get i e);; mret (e :: l)) i (λ l' m, ready l' p m) m.
Proof.
  destruct m as [l' q d]. cbn. intros -> Hp Hd. apply wp_bind. eapply wp_mono; [by apply get_wp|].
  intros [] m ->. apply wp_ret. by split; [|split].
Qed.

Lemma stack_use_wp n i l u uses m :
  u ≠ UseBatchPop → ready l (pops_in (u :: uses)) m →
  stack_wp n (stack_use_once i l u) i (λ l' m, ready l' (pops_in uses) m) m.
Proof.
  destruct m as [l' q d]. intros Hu (E & Hp & Hd). cbn in E, Hp, Hd. subst l'.
  destruct u; cbn [stack_use_once]; try done.
  - destruct l as [|e l]; [by apply wp_ret|]. apply wp_bind. eapply wp_mono; [by apply give_wp|]. intros [] m ->.
    apply wp_bind. eapply wp_mono; [apply push_mpmc_wp|]. intros [] m ->. by apply wp_ret.
  - destruct l as [|e l]; [by apply wp_ret|]. apply wp_bind. eapply wp_mono; [by apply give_wp|]. intros [] m ->.
    apply wp_bind. eapply wp_mono; [apply trypush_mpmc_wp|]. intros [] m; [intros ->; by apply wp_ret|].
    intros [v ->]. by apply got_wp.
  - assert (S (pops_in uses) ≤ q)%nat as Hp' by exact Hp. destruct q as [|q]; [lia|].
    assert (stack_wp n (r ← ck_stack_pop_mpmc the_stack the_entries;
      if r =? NULL then mret l else stack_log (Get i r);; mret (r :: l)) i
      (λ l' m, ready l' (pops_in uses) m) (Member l (S q) d)) as Hw; [|by destruct l].
    apply wp_bind. eapply wp_mono; [by apply pop_mpmc_wp|]. intros r m ([e|] & (Hl & Hq & Hm) & -> & He); cbn [default id].
    + destruct (Z.eqb_spec e NULL); [congruence|]. apply got_wp; [done | lia | by rewrite Hm].
    + apply wp_ret. split; [done|]. split; [lia | done].
  - assert (S (pops_in uses) ≤ q)%nat as Hp' by exact Hp. destruct q as [|q]; [lia|].
    assert (stack_wp n (r ← ck_stack_trypop_mpmc the_stack the_entries;
      match r with None => mret l | Some e => stack_log (Get i e);; mret (e :: l) end) i
      (λ l' m, ready l' (pops_in uses) m) (Member l (S q) d)) as Hw; [|by destruct l].
    apply wp_bind. eapply wp_mono; [by apply trypop_mpmc_wp|]. intros [e|] m (Hl & Hq & Hm).
    + apply got_wp; [done | lia | by rewrite Hm].
    + apply wp_ret. split; [done|]. split; [lia | done].
Qed.

Lemma stack_client_wp n i l uses m :
  UseBatchPop ∉ uses → ready l (pops_in uses) m → stack_wp n (stack_client i l uses) i (λ _ _, True) m.
Proof.
  revert n l m. induction uses as [|u uses IH]; intros n l m Hu Hm; cbn [stack_client]; [by apply wp_ret|].
  rewrite not_elem_of_cons in Hu. destruct Hu as [Hu Huses].
  apply wp_bind. eapply wp_mono; [by apply (stack_use_wp n i l u uses)|]. intros l' m' Hm'. by apply IH.
Qed.
End members.

(** ** The start *)

Abbreviation stack_thread := (list Z * list stack_use)%type.

Lemma elem_of_concat {A} (x : A) ls : x ∈ concat ls ↔ ∃ l, l ∈ ls ∧ x ∈ l.
Proof.
  induction ls as [|l ls IH]; cbn [concat].
  - split; [by intros ?%not_elem_of_nil | by intros (l & ?%not_elem_of_nil & _)].
  - rewrite elem_of_app, IH. split.
    + intros [H|(l' & Hl & Hx)]; [exists l | exists l']; (split; [|done]); [left | by right].
    + intros (l' & [->|Hl]%elem_of_cons & Hx); [by left | right; by exists l'].
Qed.

Lemma marked_keys (f : nat → nat) (threads : list stack_thread) :
  (concat (imap (λ i x, (λ e, (e, f i)) <$> x.1) threads)).*1 = concat threads.*1.
Proof.
  revert f. induction threads as [|[l us] threads IH]; intros f; [done|].
  rewrite imap_cons, fmap_cons. cbn [concat fst]. rewrite fmap_app, <- list_fmap_compose. f_equal.
  - cbn. by rewrite list_fmap_id.
  - apply (IH (f ∘ S)).
Qed.

Lemma first_owners_lookup (threads : list stack_thread) e i :
  NoDup (concat threads.*1) →
  first_owners threads !! e = Some i ↔ ∃ x, threads !! i = Some x ∧ e ∈ x.1.
Proof.
  intros Hnd. unfold first_owners. rewrite <- elem_of_list_to_map by by rewrite (marked_keys id).
  rewrite elem_of_concat. split.
  - intros (l & (j & x & -> & Hx)%elem_of_lookup_imap_1 & (e' & [= <- <-] & He)%list_elem_of_fmap). by exists x.
  - intros (x & Hx & He). eexists. split; [by apply elem_of_lookup_imap; exists i, x|].
    apply list_elem_of_fmap. by exists e.
Qed.

Definition members (threads : list stack_thread) : list member :=
  (λ x, Member x.1 (pops_in x.2) Rest) <$> threads.

Lemma members_pops threads : total pops (members threads) = total (λ x, pops_in x.2) threads.
Proof. unfold members. induction threads as [|x threads IH]; [done|]. cbn [total fmap list_fmap]. by rewrite <- IH. Qed.

(** Whatever the interleaving of pushes and pops, no entry is given by one that does not own it, or got while
    another owns it, and no step is undefined. *)
Lemma stack_owners_exclusive (threads : list stack_thread) (nx : ck_stack_entries) s tr ts :
  NoDup (concat threads.*1) → (∀ e, e ∈ concat threads.*1 → e ≠ NULL ∧ is_Some (nx !! e)) →
  Forall (λ x, UseBatchPop ∉ x.2) threads →
  Z.of_nat (total (λ x, pops_in x.2) threads) < 18446744073709551616 →
  reaches ((CK_STACK_INITIALIZER, nx), []) (stack_clients threads) (s, tr) ts →
  is_Some (owners (first_owners threads) tr) ∧ ¬ pool_faults ((s, tr), ts).
Proof.
  intros Hnd Hnx Huses Hn Hr.
  destruct (wp_sound (members_inv (first_owners threads) (total (λ x, pops_in x.2) threads))
    (CK_STACK_INITIALIZER, nx, []) (stack_clients threads) (members threads) (s, tr) ts)
    as [(ls & _ & h & o & Hst & _) Hf]; [| | |exact Hr|split; [exists o; apply (so_log _ _ _ _ _ _ Hst)|done]].
  - unfold stack_clients, members. by rewrite length_imap, length_fmap.
  - exists (Shape [] (With <$> first_owners threads) 0), (first_owners threads).
    split; [|split; [cbn; by rewrite members_pops|]].
    + split; cbn; try done.
      * intros e. rewrite lookup_fmap. split; [by intros ?%not_elem_of_nil|].
        destruct (first_owners threads !! e); intros [=].
      * constructor.
      * intros e. rewrite lookup_fmap. destruct (first_owners threads !! e) as [i|] eqn:E; [|by intros [? [=]]].
        intros _. apply Hnx. apply first_owners_lookup in E as (x & Hx & He); [|done].
        apply elem_of_concat. exists x.1. split; [|done]. apply list_elem_of_fmap. exists x.
        split; [done|]. by eapply list_elem_of_lookup_2.
      * intros e i E. by rewrite lookup_fmap, E.
    + intros i m Hm. unfold members in Hm. rewrite list_lookup_fmap in Hm.
      destruct (threads !! i) as [x|] eqn:Hx; [|done]. injection Hm as <-.
      assert (∀ e, e ∈ x.1 ↔ first_owners threads !! e = Some i) as Ho.
      { intros e. rewrite first_owners_lookup by done. split; [by exists x|].
        intros (x' & Hx' & He). by assert (x = x') as -> by congruence. }
      split; try done.
      * cbn. unfold hands. cbn. intros e He%Ho. by rewrite lookup_fmap, He.
      * unfold hands. cbn. clear -Hnd Hx. revert i Hx. induction threads as [|y threads IH]; intros i Hx; [done|].
        cbn [fmap list_fmap concat] in Hnd. apply NoDup_app in Hnd as (Hy & _ & Hnd).
        destruct i as [|i]; [by injection Hx as ->|]. by eapply IH.
  - intros i t m n Ht Hm. unfold stack_clients, members in *. rewrite list_lookup_imap in Ht.
    rewrite list_lookup_fmap in Hm. destruct (threads !! i) as [[l us]|] eqn:Hx; [|done].
    injection Ht as <-. injection Hm as <-. cbn. apply stack_client_wp; [done| |].
    + by eapply Forall_lookup in Huses as Hu; [|exact Hx].
    + by split; [|split].
Qed.
