(* ===== verification/CkFifo.v ===== *)
(** CkFifo: the queues of linked entries of Concurrency Kit, include/aerospike/ck/ck_fifo.h: one for a producer
    and a consumer, which gives the entries back to the producer, and one for any number of threads.

    An entry is its address, and [NULL] is 0.  The first entry is a stub: its value was taken. *)

From Stdlib Require Import ZArith Lia.
From stdpp Require Import base list gmap.
From S2P Require Import Prelude Concurrent CkPr CkMutex.

#[local] Open Scope Z_scope.

(** ** One producer and one consumer *)

(** [src: include/aerospike/ck/ck_fifo.h 39-42 ck_fifo_spsc_entry] *)
Record ck_fifo_spsc_entry : Type := MkSpscEntry { se_value : Z; se_next : Z }.
Definition set_se_value (v : Z) (e : ck_fifo_spsc_entry) : ck_fifo_spsc_entry := MkSpscEntry v (se_next e).
Definition set_se_next (v : Z) (e : ck_fifo_spsc_entry) : ck_fifo_spsc_entry := MkSpscEntry (se_value e) v.

(** [src: include/aerospike/ck/ck_fifo.h 45-53 ck_fifo_spsc] *)
Record ck_fifo_spsc : Type := MkSpsc {
  sf_m_head : ck_spinlock_fas; sf_head : Z;
  sf_m_tail : ck_spinlock_fas; sf_tail : Z; sf_head_snapshot : Z; sf_garbage : Z
}.
Definition sf_m_head_loc : loc ck_fifo_spsc ck_spinlock_fas :=
  MkLoc sf_m_head (λ v s, MkSpsc v (sf_head s) (sf_m_tail s) (sf_tail s) (sf_head_snapshot s) (sf_garbage s)).
Definition sf_head_loc : loc ck_fifo_spsc Z :=
  MkLoc sf_head (λ v s, MkSpsc (sf_m_head s) v (sf_m_tail s) (sf_tail s) (sf_head_snapshot s) (sf_garbage s)).
Definition sf_m_tail_loc : loc ck_fifo_spsc ck_spinlock_fas :=
  MkLoc sf_m_tail (λ v s, MkSpsc (sf_m_head s) (sf_head s) v (sf_tail s) (sf_head_snapshot s) (sf_garbage s)).
Definition sf_tail_loc : loc ck_fifo_spsc Z :=
  MkLoc sf_tail (λ v s, MkSpsc (sf_m_head s) (sf_head s) (sf_m_tail s) v (sf_head_snapshot s) (sf_garbage s)).
Definition sf_head_snapshot_loc : loc ck_fifo_spsc Z :=
  MkLoc sf_head_snapshot (λ v s, MkSpsc (sf_m_head s) (sf_head s) (sf_m_tail s) (sf_tail s) v (sf_garbage s)).
Definition sf_garbage_loc : loc ck_fifo_spsc Z :=
  MkLoc sf_garbage (λ v s, MkSpsc (sf_m_head s) (sf_head s) (sf_m_tail s) (sf_tail s) (sf_head_snapshot s) v).

Section spsc.
Context {S : Type} (fifo : loc S ck_fifo_spsc) (entries : loc S (gmap Z ck_fifo_spsc_entry)).

(** [src: include/aerospike/ck/ck_fifo.h 56-61 ck_fifo_spsc_enqueue_trylock] *)
Definition ck_fifo_spsc_enqueue_trylock : prog S bool := ck_spinlock_fas_trylock (fifo →' sf_m_tail_loc).

(** [src: include/aerospike/ck/ck_fifo.h 63-69 ck_fifo_spsc_enqueue_lock] *)
Definition ck_fifo_spsc_enqueue_lock : prog S unit := ck_spinlock_fas_lock (fifo →' sf_m_tail_loc).

(** [src: include/aerospike/ck/ck_fifo.h 71-77 ck_fifo_spsc_enqueue_unlock] *)
Definition ck_fifo_spsc_enqueue_unlock : prog S unit := ck_spinlock_fas_unlock (fifo →' sf_m_tail_loc).

(** [src: include/aerospike/ck/ck_fifo.h 79-84 ck_fifo_spsc_dequeue_trylock] *)
Definition ck_fifo_spsc_dequeue_trylock : prog S bool := ck_spinlock_fas_trylock (fifo →' sf_m_head_loc).

(** [src: include/aerospike/ck/ck_fifo.h 86-92 ck_fifo_spsc_dequeue_lock] *)
Definition ck_fifo_spsc_dequeue_lock : prog S unit := ck_spinlock_fas_lock (fifo →' sf_m_head_loc).

(** [src: include/aerospike/ck/ck_fifo.h 94-100 ck_fifo_spsc_dequeue_unlock] *)
Definition ck_fifo_spsc_dequeue_unlock : prog S unit := ck_spinlock_fas_unlock (fifo →' sf_m_head_loc).

(** [src: include/aerospike/ck/ck_fifo.h 102-112 ck_fifo_spsc_init] *)
Definition ck_fifo_spsc_init (stub : Z) : prog S unit :=
  ck_pr_store (fifo →' sf_m_head_loc →' fas_value_loc) 0;;
  ck_pr_store (fifo →' sf_m_tail_loc →' fas_value_loc) 0;;
  store_member entries stub (set_se_next 0);;
  ck_pr_store (fifo →' sf_garbage_loc) stub;;
  ck_pr_store (fifo →' sf_head_snapshot_loc) stub;;
  ck_pr_store (fifo →' sf_tail_loc) stub;;
  ck_pr_store (fifo →' sf_head_loc) stub.

(** What is left in [*garbage].
    [src: include/aerospike/ck/ck_fifo.h 114-121 ck_fifo_spsc_deinit] *)
Definition ck_fifo_spsc_deinit : prog S Z :=
  garbage ← ck_pr_load (fifo →' sf_head_loc);
  ck_pr_store (fifo →' sf_tail_loc) 0;;
  ck_pr_store (fifo →' sf_head_loc) 0;;
  mret garbage.

(** [src: include/aerospike/ck/ck_fifo.h 123-137 ck_fifo_spsc_enqueue] *)
Definition ck_fifo_spsc_enqueue (entry value : Z) : prog S unit :=
  store_member entries entry (set_se_value value);;
  store_member entries entry (set_se_next 0);;
  tail ← ck_pr_load (fifo →' sf_tail_loc);
  store_member entries tail (set_se_next entry);;
  ck_pr_store (fifo →' sf_tail_loc) entry.

(** The value, when the result is [true].
    [src: include/aerospike/ck/ck_fifo.h 139-158 ck_fifo_spsc_dequeue] *)
Definition ck_fifo_spsc_dequeue : prog S (option Z) :=
  head ← ck_pr_load (fifo →' sf_head_loc);
  entry ← load_member entries head se_next;
  if entry =? 0 then mret None
  else
    value ← load_member entries entry se_value;
    ck_pr_store (fifo →' sf_head_loc) entry;;
    mret (Some value).

(** [src: include/aerospike/ck/ck_fifo.h 164-178 ck_fifo_spsc_recycle] *)
Definition ck_fifo_spsc_recycle : prog S Z :=
  head_snapshot ← ck_pr_load (fifo →' sf_head_snapshot_loc);
  garbage ← ck_pr_load (fifo →' sf_garbage_loc);
  none ← (if head_snapshot =? garbage then
            head ← ck_pr_load (fifo →' sf_head_loc);
            ck_pr_store (fifo →' sf_head_snapshot_loc) head;;
            head_snapshot ← ck_pr_load (fifo →' sf_head_snapshot_loc);
            garbage ← ck_pr_load (fifo →' sf_garbage_loc);
            mret (head_snapshot =? garbage)
          else mret false);
  if (none : bool) then mret 0
  else
    garbage ← ck_pr_load (fifo →' sf_garbage_loc);
    next ← load_member entries garbage se_next;
    ck_pr_store (fifo →' sf_garbage_loc) next;;
    mret garbage.

(** [src: include/aerospike/ck/ck_fifo.h 180-185 ck_fifo_spsc_isempty] *)
Definition ck_fifo_spsc_isempty : prog S bool :=
  head ← ck_pr_load (fifo →' sf_head_loc);
  next ← load_member entries head se_next;
  mret (next =? 0).

(** [src: include/aerospike/ck/ck_fifo.h 187-187 CK_FIFO_SPSC_ISEMPTY] *)
Definition CK_FIFO_SPSC_ISEMPTY : prog S bool :=
  head ← ck_pr_load (fifo →' sf_head_loc);
  next ← load_member entries head se_next;
  mret (next =? 0).

(** [src: include/aerospike/ck/ck_fifo.h 188-188 CK_FIFO_SPSC_FIRST] *)
Definition CK_FIFO_SPSC_FIRST : prog S Z :=
  head ← ck_pr_load (fifo →' sf_head_loc);
  load_member entries head se_next.

(** [src: include/aerospike/ck/ck_fifo.h 189-189 CK_FIFO_SPSC_NEXT] *)
Definition CK_FIFO_SPSC_NEXT (m : Z) : prog S Z := load_member entries m se_next.

(** [src: include/aerospike/ck/ck_fifo.h 190-190 CK_FIFO_SPSC_SPARE] *)
Definition CK_FIFO_SPSC_SPARE : prog S Z := ck_pr_load (fifo →' sf_head_loc).

(** [src: include/aerospike/ck/ck_fifo.h 191-194 CK_FIFO_SPSC_FOREACH] *)
Definition CK_FIFO_SPSC_FOREACH (body : Z → prog S unit) : prog S unit :=
  entry ← CK_FIFO_SPSC_FIRST;
  loop (λ entry,
    if entry =? 0 then mret (inr tt)
    else body entry;; next ← CK_FIFO_SPSC_NEXT entry; mret (inl next)) entry.

(** The next entry is read before the body.
    [src: include/aerospike/ck/ck_fifo.h 195-198 CK_FIFO_SPSC_FOREACH_SAFE] *)
Definition CK_FIFO_SPSC_FOREACH_SAFE (body : Z → prog S unit) : prog S unit :=
  entry ← CK_FIFO_SPSC_FIRST;
  loop (λ entry,
    if entry =? 0 then mret (inr tt)
    else T ← load_member entries entry se_next; body entry;; mret (inl T)) entry.
End spsc.

(** ** Any number of threads *)

(** An address, with the number of times that the place that holds it was changed.
    [src: include/aerospike/ck/ck_fifo.h 206-209 ck_fifo_mpmc_pointer] *)
Record ck_fifo_mpmc_pointer : Type := MkPointer { pointer : Z; generation : Z }.

#[export] Instance ck_fifo_mpmc_pointer_eq_dec : EqDecision ck_fifo_mpmc_pointer.
Proof. solve_decision. Defined.

Definition pointer_loc : loc ck_fifo_mpmc_pointer Z := MkLoc pointer (λ v p, MkPointer v (generation p)).
Definition generation_loc : loc ck_fifo_mpmc_pointer Z := MkLoc generation (λ v p, MkPointer (pointer p) v).

(** [src: include/aerospike/ck/ck_fifo.h 211-214 ck_fifo_mpmc_entry] *)
Record ck_fifo_mpmc_entry : Type := MkMpmcEntry { me_value : Z; me_next : ck_fifo_mpmc_pointer }.
Definition set_me_value (v : Z) (e : ck_fifo_mpmc_entry) : ck_fifo_mpmc_entry := MkMpmcEntry v (me_next e).
Definition me_next_loc : loc ck_fifo_mpmc_entry ck_fifo_mpmc_pointer :=
  MkLoc me_next (λ p e, MkMpmcEntry (me_value e) p).

(** [src: include/aerospike/ck/ck_fifo.h 217-221 ck_fifo_mpmc] *)
Record ck_fifo_mpmc : Type := MkMpmc { mf_head : ck_fifo_mpmc_pointer; mf_tail : ck_fifo_mpmc_pointer }.
Definition mf_head_loc : loc ck_fifo_mpmc ck_fifo_mpmc_pointer := MkLoc mf_head (λ v s, MkMpmc v (mf_tail s)).
Definition mf_tail_loc : loc ck_fifo_mpmc ck_fifo_mpmc_pointer := MkLoc mf_tail (λ v s, MkMpmc (mf_head s) v).

Section mpmc.
Context {S : Type} (fifo : loc S ck_fifo_mpmc) (entries : loc S (gmap Z ck_fifo_mpmc_entry)).
Abbreviation head := (fifo →' mf_head_loc).
Abbreviation tail := (fifo →' mf_tail_loc).

(** A member of [entry->next], written. *)
Definition store_next_member (entry : Z) (m : loc ck_fifo_mpmc_pointer Z) (v : Z) : prog S unit :=
  store_member entries entry (λ e, loc_set (me_next_loc →' m) v e).

(** [generation + 1] of a pointer to [char]. *)
Definition next_generation (g : Z) : Z := u64 (g + 1).

(** [src: include/aerospike/ck/ck_fifo.h 224-233 ck_fifo_mpmc_init] *)
Definition ck_fifo_mpmc_init (stub : Z) : prog S unit :=
  store_next_member stub pointer_loc 0;;
  store_next_member stub generation_loc 0;;
  ck_pr_store (tail →' pointer_loc) stub;;
  ck_pr_store (head →' pointer_loc) stub;;
  ck_pr_store (tail →' generation_loc) 0;;
  ck_pr_store (head →' generation_loc) 0.

(** What is left in [*garbage].
    [src: include/aerospike/ck/ck_fifo.h 235-242 ck_fifo_mpmc_deinit] *)
Definition ck_fifo_mpmc_deinit : prog S Z :=
  garbage ← ck_pr_load (head →' pointer_loc);
  ck_pr_store (tail →' pointer_loc) 0;;
  ck_pr_store (head →' pointer_loc) 0;;
  mret garbage.

(** The entry before it is published. *)
Definition prepare_entry (entry value : Z) : prog S unit :=
  store_member entries entry (set_me_value value);;
  store_next_member entry pointer_loc 0;;
  store_next_member entry generation_loc 0.

(** [p->next], one member after the other. *)
Definition load_next_pointer (p : Z) : prog S ck_fifo_mpmc_pointer :=
  g ← load_member entries p (λ e, generation (me_next e));
  n ← load_member entries p (λ e, pointer (me_next e));
  mret (MkPointer n g).

(** [fifo->head] or [fifo->tail], likewise. *)
Definition load_pointer (target : loc S ck_fifo_mpmc_pointer) : prog S ck_fifo_mpmc_pointer :=
  g ← ck_pr_load (target →' generation_loc);
  p ← ck_pr_load (target →' pointer_loc);
  mret (MkPointer p g).

(** [src: include/aerospike/ck/ck_fifo.h 244-299 ck_fifo_mpmc_enqueue] *)
Definition ck_fifo_mpmc_enqueue (entry value : Z) : prog S unit :=
  prepare_entry entry value;;
  t ← loop (λ _ : unit,
    t ← load_pointer tail;
    next ← load_next_pointer (pointer t);
    g ← ck_pr_load (tail →' generation_loc);
    if negb (g =? generation t) then mret (inl tt)
    else if negb (pointer next =? 0) then
      ck_pr_cas_ptr_2 tail t (MkPointer (pointer next) (next_generation (generation t)));;
      mret (inl tt)
    else
      b ← cas_member entries (pointer t) me_next_loc next (MkPointer entry (next_generation (generation next)));
      mret (if (b : bool) then inr t else inl tt)) tt;
  ck_pr_cas_ptr_2 tail t (MkPointer entry (next_generation (generation t)));;
  mret tt.

(** [src: include/aerospike/ck/ck_fifo.h 301-352 ck_fifo_mpmc_tryenqueue] *)
Definition ck_fifo_mpmc_tryenqueue (entry value : Z) : prog S bool :=
  prepare_entry entry value;;
  t ← load_pointer tail;
  next ← load_next_pointer (pointer t);
  g ← ck_pr_load (tail →' generation_loc);
  if negb (g =? generation t) then mret false
  else if negb (pointer next =? 0) then
    ck_pr_cas_ptr_2 tail t (MkPointer (pointer next) (next_generation (generation t)));;
    mret false
  else
    b ← cas_member entries (pointer t) me_next_loc next (MkPointer entry (next_generation (generation next)));
    if negb b then mret false
    else
      ck_pr_cas_ptr_2 tail t (MkPointer entry (next_generation (generation t)));;
      mret true.

(** The value and the entry for [*garbage], when the result is [true].
    [src: include/aerospike/ck/ck_fifo.h 354-407 ck_fifo_mpmc_dequeue] *)
Definition ck_fifo_mpmc_dequeue : prog S (option (Z * Z)) :=
  loop (λ _ : unit,
    h ← load_pointer head;
    t ← load_pointer tail;
    next ← load_next_pointer (pointer h);
    if pointer h =? pointer t then
      if pointer next =? 0 then mret (inr None)
      else
        ck_pr_cas_ptr_2 tail t (MkPointer (pointer next) (next_generation (generation t)));;
        mret (inl tt)
    else if pointer next =? 0 then mret (inl tt)
    else
      value ← load_member entries (pointer next) me_value;
      b ← ck_pr_cas_ptr_2 head h (MkPointer (pointer next) (next_generation (generation h)));
      mret (if (b : bool) then inr (Some (value, pointer h)) else inl tt)) tt.

(** [src: include/aerospike/ck/ck_fifo.h 409-461 ck_fifo_mpmc_trydequeue] *)
Definition ck_fifo_mpmc_trydequeue : prog S (option (Z * Z)) :=
  h ← load_pointer head;
  t ← load_pointer tail;
  next ← load_next_pointer (pointer h);
  if pointer h =? pointer t then
    if pointer next =? 0 then mret None
    else
      ck_pr_cas_ptr_2 tail t (MkPointer (pointer next) (next_generation (generation t)));;
      mret None
  else if pointer next =? 0 then mret None
  else
    value ← load_member entries (pointer next) me_value;
    b ← ck_pr_cas_ptr_2 head h (MkPointer (pointer next) (next_generation (generation h)));
    mret (if (b : bool) then Some (value, pointer h) else None).

(** [src: include/aerospike/ck/ck_fifo.h 464-464 CK_FIFO_MPMC_FIRST] *)
Definition CK_FIFO_MPMC_FIRST : prog S Z :=
  h ← ck_pr_load (head →' pointer_loc);
  load_member entries h (λ e, pointer (me_next e)).

(** [src: include/aerospike/ck/ck_fifo.h 463-463 CK_FIFO_MPMC_ISEMPTY] *)
Definition CK_FIFO_MPMC_ISEMPTY : prog S bool :=
  h ← ck_pr_load (head →' pointer_loc);
  n ← load_member entries h (λ e, pointer (me_next e));
  mret (n =? 0).

(** [src: include/aerospike/ck/ck_fifo.h 465-465 CK_FIFO_MPMC_NEXT] *)
Definition CK_FIFO_MPMC_NEXT (m : Z) : prog S Z := load_member entries m (λ e, pointer (me_next e)).

(** [src: include/aerospike/ck/ck_fifo.h 466-469 CK_FIFO_MPMC_FOREACH] *)
Definition CK_FIFO_MPMC_FOREACH (body : Z → prog S unit) : prog S unit :=
  entry ← CK_FIFO_MPMC_FIRST;
  loop (λ entry,
    if entry =? 0 then mret (inr tt)
    else body entry;; next ← CK_FIFO_MPMC_NEXT entry; mret (inl next)) entry.

(** [src: include/aerospike/ck/ck_fifo.h 470-473 CK_FIFO_MPMC_FOREACH_SAFE] *)
Definition CK_FIFO_MPMC_FOREACH_SAFE (body : Z → prog S unit) : prog S unit :=
  entry ← CK_FIFO_MPMC_FIRST;
  loop (λ entry,
    if entry =? 0 then mret (inr tt)
    else T ← CK_FIFO_MPMC_NEXT entry; body entry;; mret (inl T)) entry.
End mpmc.
