(* ===== verification/CkFifoMany.v ===== *)
(** CkFifoMany: any number of threads that share the queue of linked entries: as long as no entry is used again,
    there is one queue of what was put, and nothing is lost. *)

From Stdlib Require Import ZArith Lia Sorting.Sorted.
From stdpp Require Import base list gmap sorting.
From S2P Require Import Prelude Concurrent CkPr CkFifo.

#[local] Open Scope Z_scope.

(** ** Clients *)

(** What a thread does: put a value with an entry, or try to; take a value, or try to. *)
Inductive fifo_use : Type := FifoPut (e v : Z) | FifoTryPut (e v : Z) | FifoTake | FifoTryTake.

(** What it logs: that it put a value, that it took one, that it found none. *)
Inductive fifo_mark : Type := FPut (i : nat) (v : Z) | FTook (i : nat) (v : Z) | FEmpty (i : nat).

#[export] Instance fifo_mark_eq_dec : EqDecision fifo_mark.
Proof. solve_decision. Defined.

Definition fifo_memory : Type := (ck_fifo_mpmc * gmap Z ck_fifo_mpmc_entry) * list fifo_mark.
Definition the_fifo : loc fifo_memory ck_fifo_mpmc :=
  MkLoc (λ m : fifo_memory, m.1.1) (λ (x : ck_fifo_mpmc) (m : fifo_memory), ((x, m.1.2), m.2)).
Definition the_fentries : loc fifo_memory (gmap Z ck_fifo_mpmc_entry) :=
  MkLoc (λ m : fifo_memory, m.1.2) (λ (x : gmap Z ck_fifo_mpmc_entry) (m : fifo_memory), ((m.1.1, x), m.2)).
Definition fifo_log (k : fifo_mark) : prog fifo_memory unit :=
  atomic (λ m : fifo_memory, Ret (tt, (m.1, m.2 ++ [k]))).

Definition fifo_use_once (i : nat) (u : fifo_use) : prog fifo_memory unit :=
  match u with
  | FifoPut e v => ck_fifo_mpmc_enqueue the_fifo the_fentries e v;; fifo_log (FPut i v)
  | FifoTryPut e v =>
      b ← ck_fifo_mpmc_tryenqueue the_fifo the_fentries e v;
      if (b : bool) then fifo_log (FPut i v) else mret tt
  | FifoTake =>
      r ← ck_fifo_mpmc_dequeue the_fifo the_fentries;
      match r with Some (v, _) => fifo_log (FTook i v) | None => fifo_log (FEmpty i) end
  | FifoTryTake =>
      r ← ck_fifo_mpmc_trydequeue the_fifo the_fentries;
      match r with Some (v, _) => fifo_log (FTook i v) | None => mret tt end
  end.

Fixpoint fifo_client (i : nat) (uses : list fifo_use) : prog fifo_memory unit :=
  match uses with
  | [] => mret tt
  | u :: uses => fifo_use_once i u;; fifo_client i uses
  end.

Definition fifo_clients (uses : list (list fifo_use)) : list (prog fifo_memory unit) := imap fifo_client uses.

(** The entries with their values that a thread puts. *)
Definition fifo_puts (uses : list fifo_use) : list (Z * Z) :=
  omap (λ u, match u with FifoPut e v | FifoTryPut e v => Some (e, v) | _ => None end) uses.

(** What the log says was put, and was taken. *)
Definition put_log (tr : list fifo_mark) : list (nat * Z) :=
  omap (λ k, match k with FPut i v => Some (i, v) | _ => None end) tr.
Definition took_log (tr : list fifo_mark) : list (nat * Z) :=
  omap (λ k, match k with FTook i v => Some (i, v) | _ => None end) tr.

(** The values of the entries from [p] on. *)
Fixpoint linked (ents : gmap Z ck_fifo_mpmc_entry) (p : Z) (vs : list Z) : Prop :=
  match vs with
  | [] => p = 0
  | v :: vs => p ≠ 0 ∧ ∃ e, ents !! p = Some e ∧ me_value e = v ∧ linked ents (pointer (me_next e)) vs
  end.

(** ** Ghost states *)

(** What a thread is doing: nothing; it has made [s] of the stores into the entry that it offers; it has read the
    tail, at the place [j]; also the pointer after it; it has linked its entry behind, and then is done; it has read
    the head, at [a]; also the tail, at [b]; also the pointer after the head; also the value there; it has
    taken it. *)
Inductive fifo_act : Type :=
  | FaIdle
  | FaPrep (e v : Z) (s : nat)
  | FaAt (e v : Z) (j : nat) (x : Z)
  | FaNext (e v : Z) (j : nat) (x n : Z)
  | FaLinked (e v : Z) (j : nat) (x : Z)
  | FaPut (v : Z)
  | FaHead (a : nat) (x : Z)
  | FaPair (a : nat) (x : Z) (b : nat) (t : Z)
  | FaPairNext (a : nat) (x : Z) (b : nat) (t n : Z)
  | FaValue (a : nat) (x : Z) (b : nat) (t n v : Z)
  | FaTaken (a : nat) (v : Z).

(** What it has still to put, the indices of what it took are less than [fp_seen], what it is doing. *)
Record fifo_party : Type := FParty { fp_todo : list (Z * Z); fp_seen : nat; fp_act : fifo_act }.

(** The entry it offers, and what it has linked but not logged. *)
Definition offered (a : fifo_act) : list (Z * Z) :=
  match a with FaPrep e v _ | FaAt e v _ _ | FaNext e v _ _ _ => [(e, v)] | _ => [] end.
Definition unlogged (a : fifo_act) : list Z :=
  match a with FaLinked _ v _ _ | FaPut v => [v] | _ => [] end.

(** It has nothing to log. *)
Definition quiet (a : fifo_act) : Prop :=
  match a with FaLinked _ _ _ _ | FaPut _ | FaTaken _ _ => False | _ => True end.

(** All entries that were ever in the queue, from the first stub on; what they were put for, by whom; who took
    the first of them; where the tail is; the log of takes. *)
Record fifo_history : Type := FHistory {
  fh_n : list Z; fh_q : list (nat * Z); fh_o : list nat; fh_t : nat; fh_k : list (nat * nat)
}.

(** ** The invariant *)

Section many.
Context (uses : list (list fifo_use)).
Context (Huses : NoDup (concat ((λ us, (fifo_puts us).*1) <$> uses))).

(** The entry [e] is prepared for [v]. *)
Definition fifo_ready (ents : gmap Z ck_fifo_mpmc_entry) (e v : Z) (s : nat) : Prop :=
  ((1 ≤ s)%nat → me_value <$> ents !! e = Some v) ∧ ((2 ≤ s)%nat → (λ n, pointer (me_next n)) <$> ents !! e = Some 0).

Definition fifo_behind (N : list Z) (j : nat) (n : Z) : Prop := n ≠ 0 → N !! S j = Some n.

Definition fifo_act_ok (ents : gmap Z ck_fifo_mpmc_entry) (h : fifo_history) (i : nat) (p : fifo_party) : Prop :=
  let N := fh_n h in
  match fp_act p with
  | FaIdle | FaPut _ => True
  | FaPrep e v s => fifo_ready ents e v s
  | FaAt e v j x => fifo_ready ents e v 3 ∧ N !! j = Some x
  | FaNext e v j x n => fifo_ready ents e v 3 ∧ N !! j = Some x ∧ fifo_behind N j n
  | FaLinked e v j x => N !! j = Some x ∧ N !! S j = Some e
  | FaHead a x => N !! a = Some x ∧ (fp_seen p ≤ a ≤ length (fh_o h))%nat
  | FaPair a x b t => (N !! a = Some x ∧ (fp_seen p ≤ a ≤ length (fh_o h))%nat) ∧ N !! b = Some t ∧ (a ≤ b ≤ fh_t h)%nat
  | FaPairNext a x b t n =>
      (N !! a = Some x ∧ (fp_seen p ≤ a ≤ length (fh_o h))%nat) ∧ (N !! b = Some t ∧ (a ≤ b ≤ fh_t h)%nat) ∧ fifo_behind N a n
  | FaValue a x b t n v =>
      (N !! a = Some x ∧ (fp_seen p ≤ a ≤ length (fh_o h))%nat) ∧ (N !! b = Some t ∧ (a < b ≤ fh_t h)%nat)
      ∧ N !! S a = Some n ∧ ∃ i', fh_q h !! a = Some (i', v)
  | FaTaken a v => (fp_seen p ≤ a)%nat ∧ fh_o h !! a = Some i ∧ ∃ i', fh_q h !! a = Some (i', v)
  end.

Record fifo_party_ok (ents : gmap Z ck_fifo_mpmc_entry) (h : fifo_history) (tr : list fifo_mark) (i : nat) (p : fifo_party) : Prop := {
  fo_act : fifo_act_ok ents h i p;
  fo_seen : (fp_seen p ≤ length (fh_o h))%nat;
  fo_sorted : StronglySorted lt (of_thread i (fh_k h)) ∧ Forall (λ n, (n < fp_seen p)%nat) (of_thread i (fh_k h));
  fo_todo : ∃ us before, uses !! i = Some us ∧ fifo_puts us = before ++ offered (fp_act p) ++ fp_todo p
              ∧ of_thread i (fh_q h) `sublist_of` before.*2;
  fo_hands e : e ∈ (offered (fp_act p) ++ fp_todo p).*1 → (e ∉ fh_n h) ∧ e ≠ 0 ∧ is_Some (ents !! e);
  fo_puts : of_thread i (fh_q h) = of_thread i (put_log tr) ++ unlogged (fp_act p);
  fo_takes n : fh_o h !! n = Some i → (i, n) ∈ fh_k h ∨ ∃ v, fp_act p = FaTaken n v
}.

Record fifo_state (f : ck_fifo_mpmc) (ents : gmap Z ck_fifo_mpmc_entry) (h : fifo_history) (tr : list fifo_mark) : Prop := {
  fs_length : length (fh_n h) = S (length (fh_q h));
  fs_nodup : NoDup (fh_n h);
  fs_head : fh_n h !! length (fh_o h) = Some (pointer (mf_head f));
  fs_tail : fh_n h !! fh_t h = Some (pointer (mf_tail f));
  fs_order : (length (fh_o h) ≤ fh_t h ≤ length (fh_q h))%nat;
  fs_chain j x : fh_n h !! j = Some x →
    x ≠ 0 ∧ ∃ e, ents !! x = Some e ∧ pointer (me_next e) = default 0 (fh_n h !! S j);
  fs_values j x i v : fh_n h !! S j = Some x → fh_q h !! j = Some (i, v) → me_value <$> ents !! x = Some v;
  fs_marks : Forall (λ x, (x.1 < length uses)%nat) (fh_q h);
  fs_takers i n : (i, n) ∈ fh_k h → fh_o h !! n = Some i;
  fs_threads : Forall (λ i, (i < length uses)%nat) (fh_o h);
  fs_once : NoDup (fh_k h).*2;
  fs_putters : Forall (λ x, (x.1 < length uses)%nat) (put_log tr);
  fs_log : Forall2 (λ x y, x.1 = y.1 ∧ snd <$> fh_q h !! y.2 = Some x.2) (took_log tr) (fh_k h)
}.

Definition fifo_inv (s : fifo_memory) (ls : list fifo_party) : Prop :=
  ∃ h, fifo_state s.1.1 s.1.2 h s.2 ∧ ∀ i p, ls !! i = Some p → fifo_party_ok s.1.2 h s.2 i p.

Abbreviation fifo_wp := (wp fifo_inv).

(** A step of the thread [i], which leaves the others as they are. *)
Lemma fifo_step n A (f : fifo_memory → outcome (A * fifo_memory)) i p (Q : A → fifo_party → Prop) :
  (∀ q ents tr h, fifo_state q ents h tr → fifo_party_ok ents h tr i p →
     ∃ a q' ents' tr' h' p', f (q, ents, tr) = Ret (a, (q', ents', tr')) ∧ fifo_state q' ents' h' tr'
       ∧ fifo_party_ok ents' h' tr' i p'
       ∧ (∀ j r, j ≠ i → fifo_party_ok ents h tr j r → fifo_party_ok ents' h' tr' j r) ∧ Q a p') →
  fifo_wp n (atomic f) i Q p.
Proof using.
  intros H. apply wp_atomic. intros [[q ents] tr] ls (h & Hst & Hls) Hi. cbn in Hst, Hls.
  destruct (H q ents tr h Hst (Hls i p Hi)) as (a & q' & ents' & tr' & h' & p' & E & Hst' & Hp' & Hoth & HQ).
  exists a, (q', ents', tr'), p'. split; [done|]. split; [|done]. exists h'. split; [done|].
  cbn. intros j r Hj. destruct (decide (i = j)) as [<-|Hne].
  - rewrite list_lookup_insert_eq in Hj by (by eapply lookup_lt_Some). by injection Hj as <-.
  - rewrite list_lookup_insert_ne in Hj by done. apply Hoth; [done|]. by apply Hls.
Qed.

(** A step that only looks: the thread knows more; it may drop what it offers. *)
Lemma fifo_look n A (f : fifo_memory → outcome (A * fifo_memory)) i td se a (Q : A → fifo_party → Prop) :
  quiet a →
  (∀ q ents tr h, fifo_state q ents h tr → fifo_party_ok ents h tr i (FParty td se a) →
     ∃ v d, f (q, ents, tr) = Ret (v, (q, ents, tr)) ∧ fifo_act_ok ents h i (FParty td se d)
       ∧ quiet d ∧ (offered d = offered a ∨ offered d = []) ∧ Q v (FParty td se d)) →
  fifo_wp n (atomic f) i Q (FParty td se a).
Proof using.
  intros Ha H. apply fifo_step. intros q ents tr h Hst Hp.
  destruct (H q ents tr h Hst Hp) as (v & d & E & Hd & Hqd & Ho & HQ).
  exists v, q, ents, tr, h, (FParty td se d). split; [done|]. split; [done|]. split; [|done].
  assert (unlogged d = unlogged a) as Hu by (by destruct a, d).
  destruct Hp as [_ Hs Hk (us & before & Hus & Hb & Hq) Hh Hpu Ht]. cbn in *. split; cbn; try done.
  - destruct Ho as [-> | ->]; [by exists us, before|]. exists us, (before ++ offered a).
    split; [done|]. split; [by rewrite <- app_assoc|]. rewrite fmap_app. by apply sublist_inserts_r.
  - destruct Ho as [-> | ->]; [done|]. intros e He. apply Hh. rewrite fmap_app. by apply elem_of_app; right.
  - by rewrite Hu.
  - intros m Hm. destruct (Ht m Hm) as [|[v' ->]]; [by left|done].
Qed.

(** *** Moves of a thread that the others do not notice *)

(** The history goes on by what the thread [i] does. *)
Record fifo_grows (ents ents' : gmap Z ck_fifo_mpmc_entry) (h h' : fifo_history) (tr tr' : list fifo_mark) (i : nat) : Prop := {
  gr_n : fh_n h `prefix_of` fh_n h';
  gr_q : fh_q h `prefix_of` fh_q h';
  gr_o : fh_o h `prefix_of` fh_o h';
  gr_t : (fh_t h ≤ fh_t h')%nat;
  gr_mine j n : j ≠ i → fh_o h' !! n = Some j → fh_o h !! n = Some j;
  gr_puts j : j ≠ i → of_thread j (fh_q h') = of_thread j (fh_q h);
  gr_takes j : j ≠ i → of_thread j (fh_k h') = of_thread j (fh_k h);
  gr_log j : j ≠ i → of_thread j (put_log tr') = of_thread j (put_log tr);
  gr_some e : is_Some (ents !! e) → is_Some (ents' !! e)
}.

Lemma behind_grows N N' j n : N `prefix_of` N' → fifo_behind N j n → fifo_behind N' j n.
Proof using. intros HN H Hn. by eapply prefix_lookup_Some; [apply H|]. Qed.

Lemma act_grows ents ents' h h' tr tr' i k p :
  fifo_grows ents ents' h h' tr tr' k →
  (∀ e v, offered (fp_act p) = [(e, v)] → ents' !! e = ents !! e) →
  fifo_act_ok ents h i p → fifo_act_ok ents' h' i p.
Proof using.
  intros [HN Hq Ho Ht _ _ _ _ _] He Ha.
  assert (∀ j x, fh_n h !! j = Some x → fh_n h' !! j = Some x) as HN' by (intros; by eapply prefix_lookup_Some).
  assert (∀ j x, fh_q h !! j = Some x → fh_q h' !! j = Some x) as Hq' by (intros; by eapply prefix_lookup_Some).
  assert (∀ j x, fh_o h !! j = Some x → fh_o h' !! j = Some x) as Ho' by (intros; by eapply prefix_lookup_Some).
  apply prefix_length in Ho. pose proof (λ j n, behind_grows _ _ j n HN) as HB.
  assert (∀ e v s, offered (fp_act p) = [(e, v)] → fifo_ready ents e v s → fifo_ready ents' e v s) as Hr.
  { intros e v s E. unfold fifo_ready. by rewrite (He e v E). }
  unfold fifo_act_ok in *. destruct (fp_act p) as [|e v s|e v j x|e v j x n|e v j x|v|a x|a x b t|a x b t n|a x b t n v|a v];
    try done; try (by destruct_and?; split_and?; eauto; lia).
  - destruct Ha as ((? & ?) & (? & ?) & ? & i' & ?). split_and?; eauto; lia.
  - destruct Ha as (? & ? & i' & ?). split_and?; eauto.
Qed.

Lemma party_grows ents ents' h h' tr tr' i j p :
  fifo_grows ents ents' h h' tr tr' i → j ≠ i →
  (∀ e, e ∈ (offered (fp_act p) ++ fp_todo p).*1 → ents' !! e = ents !! e ∧ (e ∉ fh_n h')) →
  fifo_party_ok ents h tr j p → fifo_party_ok ents' h' tr' j p.
Proof using.
  intros Hg Hne He [Ha Hs Hk Hr Hh Hp Ht]. pose proof Hg as [HN Hq Ho Htl Hm Hgq Hgk Hgl Hsome].
  assert (∀ e v, offered (fp_act p) = [(e, v)] → ents' !! e = ents !! e) as He'.
  { intros e v E. apply He. rewrite E. by left. }
  split.
  - by eapply act_grows.
  - apply prefix_length in Ho. lia.
  - by rewrite Hgk.
  - by rewrite Hgq.
  - intros e Hin. destruct (He e Hin) as [_ HnN]. destruct (Hh e Hin) as (_ & Hn0 & Hse). auto.
  - by rewrite Hgq, Hgl.
  - intros n Hn. apply Hm in Hn; [|done]. destruct (Ht n Hn) as [Hin|]; [left|by right].
    apply elem_of_of_thread. rewrite Hgk by done. by apply elem_of_of_thread.
Qed.

(** The entries of different threads are different. *)
Lemma nodup_concat_apart {A} (ls : list (list A)) i j a b x :
  NoDup (concat ls) → ls !! i = Some a → ls !! j = Some b → i ≠ j → x ∈ a → x ∉ b.
Proof using.
  clear. assert (∀ (ls : list (list A)) k c y, ls !! k = Some c → y ∈ c → y ∈ concat ls) as Hin.
  { intros l k c y Hk Hy. rewrite list_elem_of_In, in_concat. exists c.
    split; apply list_elem_of_In; [by eapply list_elem_of_lookup_2 | done]. }
  revert i j. induction ls as [|l ls IH]; intros i j HN Hi Hj Hne Ha Hb; [done|]. cbn in HN.
  apply NoDup_app in HN as (_ & Hd & HN). destruct i as [|i], j as [|j]; [done | | |by eapply (IH i j); [..|congruence| |]].
  - injection Hi as ->. by apply (Hd x Ha), (Hin ls j b).
  - injection Hj as ->. by apply (Hd x Hb), (Hin ls i a).
Qed.

Lemma hands_apart ents h tr i j p r e :
  fifo_party_ok ents h tr i p → fifo_party_ok ents h tr j r → i ≠ j →
  e ∈ (offered (fp_act p) ++ fp_todo p).*1 → e ∉ (offered (fp_act r) ++ fp_todo r).*1.
Proof using Huses.
  assert (∀ i p, fifo_party_ok ents h tr i p → ∃ l, ((λ us, (fifo_puts us).*1) <$> uses) !! i = Some l
    ∧ ∀ e, e ∈ (offered (fp_act p) ++ fp_todo p).*1 → e ∈ l) as H.
  { intros i' p' [_ _ _ (us & before & Hu & Hb & _) _ _ _]. exists (fifo_puts us).*1.
    split; [by rewrite list_lookup_fmap, Hu|]. intros e' He'. rewrite Hb, (fmap_app fst before). apply elem_of_app. by right. }
  intros Hp Hr Hne He He'. destruct (H _ _ Hp) as (a & Ha & Hia), (H _ _ Hr) as (b & Hb & Hib).
  by eapply (nodup_concat_apart _ i j a b e Huses Ha Hb Hne); [apply Hia | apply Hib].
Qed.

(** A store into an entry that the thread offers. *)
Lemma state_own f ents h tr e n :
  e ∉ fh_n h → fifo_state f ents h tr → fifo_state f (<[e := n]> ents) h tr.
Proof using.
  intros He Hst. pose proof Hst as [? ? ? ? ? Hc Hv ? ? ? ? ? ?]. split; try done.
  - intros j x Hx. destruct (Hc j x Hx) as (Hn0 & n' & Hl & Hp). split; [done|]. exists n'. split; [|done].
    rewrite lookup_insert_ne; [done|]. intros ->. by apply He, (list_elem_of_lookup_2 _ j).
  - intros j x i v Hx Hq. rewrite lookup_insert_ne; [by eapply Hv|]. intros ->. by apply He, (list_elem_of_lookup_2 _ (S j)).
Qed.

Lemma grows_own ents h tr e n i : fifo_grows ents (<[e := n]> ents) h h tr tr i.
Proof using. split; try done. intros x. rewrite lookup_insert_is_Some. destruct (decide (e = x)); auto. Qed.

(** A store into the entry [e] that the thread puts, after [s] such stores. *)
Lemma own_store_wp n i e v s td se d (u : ck_fifo_mpmc_entry → ck_fifo_mpmc_entry) p (Q : unit → fifo_party → Prop) :
  p = FParty ((e, v) :: td) se d ∧ quiet d ∨ p = FParty td se (FaPrep e v s) →
  (∀ ents x, ents !! e = Some x → (p = FParty td se (FaPrep e v s) → fifo_ready ents e v s) →
     fifo_ready (<[e := u x]> ents) e v (S s)) →
  Q tt (FParty td se (FaPrep e v (S s))) →
  fifo_wp n (store_member the_fentries e u) i Q p.
Proof using Huses.
  intros Hd Hu HQ. apply fifo_step. intros q ents tr h Hst Hp.
  assert (e ∈ (offered (fp_act p) ++ fp_todo p).*1) as Hin.
  { destruct Hd as [[-> _]| ->]; [rewrite fmap_app; apply elem_of_app; right; by left | by left]. }
  destruct (fo_hands _ _ _ _ _ Hp e Hin) as (HN & H0 & x & Hx).
  exists tt, q, (<[e := u x]> ents), tr, h, (FParty td se (FaPrep e v (S s))).
  split; [unfold the_fentries; cbn; by rewrite (deref_lookup _ _ x) by done|]. split; [by apply state_own|].
  split; [|split; [|done]].
  - pose proof Hp as [Ha Hs Hk (us & before & Hus & Hb & Hq) Hh Hpu Ht].
    split.
    + apply Hu; [done|]. intros ->. apply Ha.
    + destruct Hd as [[-> _]| ->]; done.
    + destruct Hd as [[-> _]| ->]; done.
    + destruct Hd as [[-> _]| ->]; [|by exists us, before]. exists us, (before ++ offered d).
      split; [done|]. split; [cbn in *; by rewrite Hb, <- app_assoc|]. rewrite fmap_app. by apply sublist_inserts_r.
    + intros e' He'. assert (e' ∈ (offered (fp_act p) ++ fp_todo p).*1) as (? & ? & ?)%Hh.
      { destruct Hd as [[-> _]| ->]; [rewrite fmap_app; apply elem_of_app; by right | done]. }
      split; [done|]. split; [done|]. rewrite lookup_insert_is_Some. destruct (decide (e = e')); auto.
    + destruct Hd as [[-> Hqd]| ->]; [|done]. cbn in *. by destruct d.
    + intros m Hm. destruct (Ht m Hm) as [|[v' E]]; [by left|]. destruct Hd as [[-> Hqd]| ->]; [by destruct d | done].
  - intros j r Hne Hr. eapply party_grows; [by apply grows_own | done | | done]. intros e' He'.
    split; [|by apply (fo_hands _ _ _ _ _ Hr)]. apply lookup_insert_ne. intros <-.
    by eapply (hands_apart ents h tr i j p r e); [..|congruence| |].
Qed.

Lemma prepare_wp n i e v td se d :
  quiet d →
  fifo_wp n (prepare_entry the_fentries e v) i (λ _ g, g = FParty td se (FaPrep e v 3)) (FParty ((e, v) :: td) se d).
Proof using Huses.
  intros Hd. apply wp_bind, (own_store_wp _ i e v 0 td se d); [by left| |].
  { intros ents x _ _. split; [|lia]. by rewrite lookup_insert_eq. }
  apply wp_bind, (own_store_wp _ i e v 1 td se d); [by right| |].
  { intros ents x Hx Hr. destruct (Hr eq_refl) as [Hv _]. specialize (Hv ltac:(lia)). rewrite Hx in Hv.
    split; by rewrite lookup_insert_eq. }
  apply (own_store_wp _ i e v 2 td se d); [by right| |done].
  intros ents x Hx Hr. destruct (Hr eq_refl) as [Hv Hn]. specialize (Hv ltac:(lia)). specialize (Hn ltac:(lia)).
  rewrite Hx in Hv, Hn. by split; rewrite lookup_insert_eq.
Qed.

(** *** Looking at the queue *)

(** The thread has prepared [e] for [v]. *)
Definition offering (e v : Z) (a : fifo_act) : Prop :=
  match a with FaPrep e' v' s => e' = e ∧ v' = v ∧ s = 3%nat | FaAt e' v' _ _ | FaNext e' v' _ _ _ => e' = e ∧ v' = v | _ => False end.

Lemma offering_ready ents h i td se a e v :
  offering e v a → fifo_act_ok ents h i (FParty td se a) → fifo_ready ents e v 3 ∧ offered a = [(e, v)] ∧ quiet a.
Proof using. destruct a; cbn; try done; [intros (-> & -> & ->) Ha | intros (-> & ->) [Ha _].. ]; done. Qed.

Lemma fifo_skip_wp n A (g : fifo_memory → A) i td se a (Q : A → fifo_party → Prop) :
  quiet a → (∀ v, Q v (FParty td se a)) → fifo_wp n (atomic (λ s, Ret (g s, s))) i Q (FParty td se a).
Proof using.
  intros Ha HQ. apply fifo_look; [done|]. intros q ents tr h Hst Hp. eexists _, a. split; [done|].
  split; [apply Hp|]. auto.
Qed.

Lemma tail_wp n i td se a e v :
  offering e v a →
  fifo_wp n (load_pointer (the_fifo →' mf_tail_loc)) i
    (λ r g, ∃ j, g = FParty td se (FaAt e v j (pointer r))) (FParty td se a).
Proof using.
  intros Ho. assert (quiet a) as Hqa by (by destruct a).
  apply wp_bind, fifo_skip_wp; [done|]. intros g. apply wp_bind, fifo_look; [done|].
  intros q ents tr h Hst Hp. eexists _, (FaAt e v (fh_t h) (pointer (mf_tail q))). split; [done|].
  destruct (offering_ready _ _ _ _ _ _ _ _ Ho (fo_act _ _ _ _ _ Hp)) as (Hr & -> & _).
  split; [split; [done | apply (fs_tail _ _ _ _ Hst)]|]. split; [done|]. split; [by left|].
  apply wp_ret. by exists (fh_t h).
Qed.


(** What an entry of the queue holds. *)
Lemma entry_at q ents tr h j x :
  fifo_state q ents h tr → fh_n h !! j = Some x →
  ∃ y, ents !! x = Some y ∧ deref ents x = Ret y ∧ fifo_behind (fh_n h) j (pointer (me_next y))
    ∧ (∀ n, fh_n h !! S j = Some n → pointer (me_next y) = n).
Proof using.
  intros Hst Hx. destruct (fs_chain _ _ _ _ Hst j x Hx) as (H0 & y & Hy & Hp). exists y.
  split; [done|]. split; [by apply deref_lookup|]. rewrite Hp. split; [|by intros n ->].
  intros Hn. by destruct (fh_n h !! S j).
Qed.

Lemma next_wp n i td se e v j x :
  fifo_wp n (load_next_pointer the_fentries x) i
    (λ r g, g = FParty td se (FaNext e v j x (pointer r))) (FParty td se (FaAt e v j x)).
Proof using.
  apply wp_bind, fifo_look; [done|]. intros q ents tr h Hst Hp.
  pose proof (fo_act _ _ _ _ _ Hp) as [Hr Hx]. destruct (entry_at _ _ _ _ _ _ Hst Hx) as (y & _ & Hy & _).
  eexists _, (FaAt e v j x). split; [cbn; by rewrite Hy|]. split; [done|]. split; [done|]. split; [by left|].
  clear -uses. apply wp_bind, fifo_look; [done|]. intros q ents tr h Hst Hp.
  pose proof (fo_act _ _ _ _ _ Hp) as [Hr Hx]. destruct (entry_at _ _ _ _ _ _ Hst Hx) as (y' & _ & Hy & Hb & _).
  eexists _, (FaNext e v j x _). split; [cbn; by rewrite Hy|]. split; [done|]. split; [done|].
  split; [by left|]. by apply wp_ret.
Qed.

(** *** The tail moves on *)

Definition with_tail (h : fifo_history) (t : nat) : fifo_history := FHistory (fh_n h) (fh_q h) (fh_o h) t (fh_k h).

(** [n] is behind the tail [t], which the thread knows: it moves the tail, unless another has. *)
Lemma tail_cas_wp n i td se a a' t m (Q : bool → fifo_party → Prop) :
  (∀ ents h, fifo_act_ok ents h i (FParty td se a) →
     fifo_act_ok ents h i (FParty td se a') ∧ ∃ j, fh_n h !! j = Some (pointer t) ∧ fh_n h !! S j = Some (pointer m)) →
  offered a' = offered a → unlogged a' = unlogged a → (∀ n v, a ≠ FaTaken n v) →
  (∀ b, Q b (FParty td se a')) →
  fifo_wp n (ck_pr_cas_ptr_2 (the_fifo →' mf_tail_loc) t m) i Q (FParty td se a).
Proof using.
  intros Ha Ho Hu Hk HQ. apply fifo_step. intros q ents tr h Hst Hp.
  destruct (Ha ents h (fo_act _ _ _ _ _ Hp)) as [Ha' (j & Hj & Hm)]. destruct q as [hd tl]. cbn.
  set (ht := if decide (tl = t) then S j else fh_t h).
  assert (fh_t h ≤ ht)%nat as Hle.
  { unfold ht. case_decide; [|done]. subst tl. pose proof (fs_tail _ _ _ _ Hst) as Ht. cbn in Ht.
    rewrite (NoDup_lookup _ _ _ _ (fs_nodup _ _ _ _ Hst) Ht Hj). lia. }
  exists (bool_decide (tl = t)), (MkMpmc hd (if decide (tl = t) then m else tl)), ents, tr, (with_tail h ht), (FParty td se a').
  assert (fifo_grows ents ents h (with_tail h ht) tr tr i) as Hg by (by split).
  split; [done|]. split; [|split; [|split; [|done]]].
  - pose proof Hst as [Hl ? ? Ht [Ho1 Ho2] ? ? ? ? ? ? ? ?]. split; try done; cbn.
    + unfold ht. by case_decide.
    + split; [lia|]. unfold ht. case_decide; [|done]. apply lookup_lt_Some in Hm. lia.
  - destruct Hp as [_ Hs Hks Hr Hh Hpu Htk]. cbn in *. split; cbn; rewrite ?Ho, ?Hu; try done.
    + by apply (act_grows ents ents h (with_tail h ht) tr tr i i).
    + intros m' Hm'. destruct (Htk m' Hm') as [|[v E]]; [by left|]. by apply Hk in E.
  - intros j' r Hne Hr. eapply party_grows; [exact Hg|done| |done]. intros e He. split; [done|].
    by apply (fo_hands _ _ _ _ _ Hr).
Qed.

(** *** The entry is linked behind the last *)

Lemma hands_nodup ents h tr i p : fifo_party_ok ents h tr i p → NoDup (offered (fp_act p) ++ fp_todo p).*1.
Proof using Huses.
  intros [_ _ _ (us & before & Hu & Hb & _) _ _ _].
  assert (∀ (ls : list (list Z)) l, NoDup (concat ls) → l ∈ ls → NoDup l) as Hin.
  { clear. induction ls as [|l' ls IH]; intros l HN Hl; [by apply not_elem_of_nil in Hl|].
    cbn in HN. apply NoDup_app in HN as (? & _ & ?). apply elem_of_cons in Hl as [-> |]; eauto. }
  assert (NoDup (fifo_puts us).*1) as HN.
  { eapply Hin; [exact Huses|]. apply list_elem_of_fmap. exists us. split; [done|]. by eapply list_elem_of_lookup_2. }
  rewrite Hb, (fmap_app fst before) in HN. by apply NoDup_app in HN as (_ & _ & ?).
Qed.

Definition link_entry (h : fifo_history) (i : nat) (e v : Z) : fifo_history :=
  FHistory (fh_n h ++ [e]) (fh_q h ++ [(i, v)]) (fh_o h) (fh_t h) (fh_k h).

Section link.
Context (f : ck_fifo_mpmc) (ents : gmap Z ck_fifo_mpmc_entry) (h : fifo_history) (tr : list fifo_mark).
Context (i j : nat) (e v x g : Z) (y : ck_fifo_mpmc_entry).
Context (Hst : fifo_state f ents h tr) (Hi : (i < length uses)%nat) (He : e ∉ fh_n h) (He0 : e ≠ 0).
Context (Hr : fifo_ready ents e v 3) (Hx : fh_n h !! j = Some x) (Hy : ents !! x = Some y).
Context (Hlast : pointer (me_next y) = 0).

Abbreviation ents' := (<[x := MkMpmcEntry (me_value y) (MkPointer e g)]> ents).

Lemma link_last : length (fh_n h) = S j.
Proof using Hst Hi Hx Hy Hlast.
  destruct (fh_n h !! S j) as [z|] eqn:E.
  - destruct (fs_chain _ _ _ _ Hst j x Hx) as (_ & y' & Hy' & Hp). rewrite E in Hp. cbn in Hp.
    assert (y = y') as <- by congruence. destruct (fs_chain _ _ _ _ Hst (S j) z E) as (Hz & _). congruence.
  - apply lookup_ge_None in E. apply lookup_lt_Some in Hx. lia.
Qed.

Lemma link_chain j' x' :
  (fh_n h ++ [e]) !! j' = Some x' →
  x' ≠ 0 ∧ ∃ y', ents' !! x' = Some y' ∧ pointer (me_next y') = default 0 ((fh_n h ++ [e]) !! S j').
Proof using Hst Hi He He0 Hr Hx Hy Hlast.
  pose proof link_last as Hl. intros [Hx'|[Hge Hx']]%lookup_app_Some.
  - destruct (fs_chain _ _ _ _ Hst j' x' Hx') as (H0 & y' & Hy' & Hp). split; [done|].
    pose proof (lookup_lt_Some _ _ _ Hx') as Hlt.
    destruct (decide (x' = x)) as [->|Hne].
    + rewrite (NoDup_lookup _ _ _ _ (fs_nodup _ _ _ _ Hst) Hx' Hx). rewrite lookup_insert_eq.
      eexists. split; [done|]. cbn. rewrite <- Hl. by rewrite list_lookup_middle.
    + rewrite lookup_insert_ne by done. exists y'. split; [done|]. rewrite lookup_app_l; [done|].
      assert (j' ≠ j) by (intros ->; congruence). lia.
  - apply list_lookup_singleton_Some in Hx' as [Hj <-]. split; [done|].
    assert (x ≠ e) by (intros ->; by apply He, (list_elem_of_lookup_2 _ j)).
    rewrite lookup_insert_ne by done. destruct Hr as [_ Hn]. specialize (Hn ltac:(lia)).
    destruct (ents !! e) as [y'|]; [|done]. injection Hn as Hn. exists y'. split; [done|].
    rewrite lookup_ge_None_2 by (rewrite length_app; cbn; lia). done.
Qed.

Lemma link_values j' x' i' v' :
  (fh_n h ++ [e]) !! S j' = Some x' → (fh_q h ++ [(i, v)]) !! j' = Some (i', v') → me_value <$> ents' !! x' = Some v'.
Proof using Hst Hi He Hr Hx Hy.
  pose proof (fs_length _ _ _ _ Hst) as Hlen. intros Hx' [Hq|[Hge Hq]]%lookup_app_Some.
  - rewrite lookup_app_l in Hx' by (apply lookup_lt_Some in Hq; lia).
    pose proof (fs_values _ _ _ _ Hst _ _ _ _ Hx' Hq) as Hv. destruct (decide (x' = x)) as [->|Hne].
    + rewrite lookup_insert_eq. rewrite Hy in Hv. done.
    + by rewrite lookup_insert_ne.
  - apply list_lookup_singleton_Some in Hq as [Hj [= -> ->]].
    rewrite lookup_app_r in Hx' by lia. apply list_lookup_singleton_Some in Hx' as [_ <-].
    assert (x ≠ e) by (intros ->; by apply He, (list_elem_of_lookup_2 _ j)).
    rewrite lookup_insert_ne by done. destruct Hr as [Hv _]. apply Hv. lia.
Qed.

Lemma state_link : fifo_state f ents' (link_entry h i e v) tr.
Proof using Hst Hi He He0 Hr Hx Hy Hlast.
  pose proof Hst as [Hl Hnd ? ? Ho ? ? ? ? ? ? ? Hlog]. split; cbn; try done.
  - rewrite !length_app. cbn. lia.
  - apply NoDup_app. split; [done|]. split; [|apply NoDup_singleton]. by intros z Hz ->%list_elem_of_singleton.
  - by apply lookup_app_l_Some.
  - by apply lookup_app_l_Some.
  - rewrite length_app. cbn. lia.
  - apply link_chain.
  - apply link_values.
  - apply Forall_app. split; [done|]. by constructor.
  - eapply Forall2_impl; [exact Hlog|]. intros a b [? Hq]. split; [done|].
    destruct (fh_q h !! b.2) eqn:E; [|done]. by rewrite (lookup_app_l_Some _ _ _ _ E).
Qed.

Lemma grows_link : fifo_grows ents ents' h (link_entry h i e v) tr tr i.
Proof using.
  split; cbn; try done; [by apply prefix_app_r .. | |].
  - intros k Hk. by rewrite of_thread_snoc, decide_False, app_nil_r.
  - intros z. rewrite lookup_insert_is_Some. destruct (decide (x = z)); auto.
Qed.
End link.

Lemma link_wp n i td se e v j x next g (Q : bool → fifo_party → Prop) :
  pointer next = 0 →
  Q true (FParty td se (FaLinked e v j x)) → Q false (FParty td se (FaNext e v j x (pointer next))) →
  fifo_wp n (cas_member the_fentries x me_next_loc next (MkPointer e g)) i Q (FParty td se (FaNext e v j x (pointer next))).
Proof using Huses.
  intros Hn HQ1 HQ2. apply fifo_step. intros q ents tr h Hst Hp. pose proof (fo_act _ _ _ _ _ Hp) as (Hr & Hx & _).
  destruct (entry_at _ _ _ _ _ _ Hst Hx) as (y & Hy & Hd & _). unfold the_fentries at 1. cbn. rewrite Hd. cbn.
  case_decide as E.
  - pose proof Hp as [_ Hs Hk (us & before & Hu & Hb & Hq) Hh Hpu Htk].
    destruct (Hh e) as (HeN & He0 & _); [by left|].
    assert (pointer (me_next y) = 0) as Hlast by (by rewrite E).
    assert (i < length uses)%nat as Hi by (by eapply lookup_lt_Some).
    exists true, q, (<[x := MkMpmcEntry (me_value y) (MkPointer e g)]> ents), tr, (link_entry h i e v),
      (FParty td se (FaLinked e v j x)).
    split; [by rewrite bool_decide_eq_true_2|]. split; [by eapply state_link|].
    pose proof (hands_nodup _ _ _ _ _ Hp) as Hnd. cbn in Hnd. apply NoDup_cons in Hnd as [Hne Hnd].
    split; [|split; [|done]].
    + split; cbn; try done.
      * split; [by apply lookup_app_l_Some|]. rewrite <- (link_last q ents h tr i j x y) by done. by apply list_lookup_middle.
      * exists us, (before ++ [(e, v)]). split; [done|]. split; [by rewrite Hb, <- app_assoc|].
        rewrite of_thread_snoc, decide_True, fmap_app by done. by apply sublist_app.
      * intros e' He'. destruct (Hh e') as (HN & ? & ?); [by right|]. split; [|split; [done|]].
        -- intros [?| ->%list_elem_of_singleton]%elem_of_app; done.
        -- rewrite lookup_insert_is_Some. destruct (decide (x = e')); auto.
      * rewrite of_thread_snoc, decide_True by done. cbn in Hpu. by rewrite Hpu, app_nil_r.
      * intros m Hm. destruct (Htk m Hm) as [|[v' ?]]; [by left|done].
    + intros k r Hki Hkr. eapply party_grows; [by apply grows_link|done| |done]. intros e' He'.
      destruct (fo_hands _ _ _ _ _ Hkr e' He') as (HN & _). split.
      * apply lookup_insert_ne. intros <-. by apply HN, (list_elem_of_lookup_2 _ j).
      * intros [?| ->%list_elem_of_singleton]%elem_of_app; [done|].
        eapply (hands_apart ents h tr i k _ r e Hp Hkr); [congruence|by left|done].
  - exists false, q, ents, tr, h, (FParty td se (FaNext e v j x (pointer next))).
    split; [|done]. rewrite bool_decide_eq_false_2 by done.
    by destruct y as [vy ny]; rewrite insert_id by exact Hy.
Qed.

(** *** A consumer looks at the queue *)

Lemma head_wp n i td se a :
  quiet a →
  fifo_wp n (load_pointer (the_fifo →' mf_head_loc)) i
    (λ r g, ∃ k, g = FParty td se (FaHead k (pointer r))) (FParty td se a).
Proof using.
  intros Ha. apply wp_bind, fifo_skip_wp; [done|]. intros g. apply wp_bind, fifo_look; [done|].
  intros q ents tr h Hst Hp. eexists _, (FaHead (length (fh_o h)) (pointer (mf_head q))). split; [done|].
  pose proof (fo_seen _ _ _ _ _ Hp) as Hse. cbn in Hse.
  split; [split; [apply (fs_head _ _ _ _ Hst) | cbn; lia]|]. split; [done|]. split; [by right|].
  apply wp_ret. by exists (length (fh_o h)).
Qed.

Lemma tail_after_wp n i td se k x :
  fifo_wp n (load_pointer (the_fifo →' mf_tail_loc)) i
    (λ r g, ∃ b, g = FParty td se (FaPair k x b (pointer r))) (FParty td se (FaHead k x)).
Proof using.
  apply wp_bind, fifo_skip_wp; [done|]. intros g. apply wp_bind, fifo_look; [done|].
  intros q ents tr h Hst Hp. pose proof (fo_act _ _ _ _ _ Hp) as Hk. pose proof (fs_order _ _ _ _ Hst).
  eexists _, (FaPair k x (fh_t h) (pointer (mf_tail q))). split; [done|].
  split; [split; [exact Hk|]; split; [apply (fs_tail _ _ _ _ Hst) | destruct Hk as [_ Hk]; cbn in Hk; lia]|].
  split; [done|]. split; [by left|]. apply wp_ret. by exists (fh_t h).
Qed.

Lemma next_after_wp n i td se k x b t :
  fifo_wp n (load_next_pointer the_fentries x) i
    (λ r g, g = FParty td se (FaPairNext k x b t (pointer r))) (FParty td se (FaPair k x b t)).
Proof using.
  apply wp_bind, fifo_look; [done|]. intros q ents tr h Hst Hp.
  pose proof (fo_act _ _ _ _ _ Hp) as ((Hx & Hk) & Hb). destruct (entry_at _ _ _ _ _ _ Hst Hx) as (y & _ & Hy & _).
  eexists _, (FaPair k x b t). split; [cbn; by rewrite Hy|]. split; [done|]. split; [done|]. split; [by left|].
  clear -uses. apply wp_bind, fifo_look; [done|]. intros q ents tr h Hst Hp.
  pose proof (fo_act _ _ _ _ _ Hp) as ((Hx & Hk) & Hb). destruct (entry_at _ _ _ _ _ _ Hst Hx) as (y' & _ & Hy & Hn & _).
  eexists _, (FaPairNext k x b t _). split; [cbn; by rewrite Hy|]. split; [done|]. split; [done|].
  split; [by left|]. by apply wp_ret.
Qed.

Lemma value_wp n i td se k x b t m (Q : Z → fifo_party → Prop) :
  x ≠ t → m ≠ 0 → (∀ v, Q v (FParty td se (FaValue k x b t m v))) →
  fifo_wp n (load_member the_fentries m me_value) i Q (FParty td se (FaPairNext k x b t m)).
Proof using.
  intros Hxt Hm HQ. apply fifo_look; [done|]. intros q ents tr h Hst Hp.
  pose proof (fo_act _ _ _ _ _ Hp) as ((Hx & Hk) & (Ht & Hb) & Hn). specialize (Hn Hm).
  assert (k ≠ b) as Hkb by (intros ->; congruence).
  destruct (entry_at _ _ _ _ _ _ Hst Hn) as (y & Hy & Hd & _).
  pose proof (fs_length _ _ _ _ Hst) as Hlen. pose proof (lookup_lt_Some _ _ _ Hn).
  destruct (lookup_lt_is_Some_2 (fh_q h) k) as [[i' v] Hq]; [lia|].
  pose proof (fs_values _ _ _ _ Hst _ _ _ _ Hn Hq) as Hv. rewrite Hy in Hv. injection Hv as <-.
  eexists _, (FaValue k x b t m (me_value y)). split; [cbn; by rewrite Hd|]. split; [|split; [done|split; [by left|done]]].
  split; [done|]. split; [split; [done|lia]|]. split; [done|]. by exists i'.
Qed.

(** *** The head moves on *)

Definition take_first (h : fifo_history) (i : nat) : fifo_history :=
  FHistory (fh_n h) (fh_q h) (fh_o h ++ [i]) (fh_t h) (fh_k h).

Lemma state_first f ents h tr i n g :
  fifo_state f ents h tr → (i < length uses)%nat → (S (length (fh_o h)) ≤ fh_t h)%nat → fh_n h !! S (length (fh_o h)) = Some n →
  fifo_state (MkMpmc (MkPointer n g) (mf_tail f)) ents (take_first h i) tr.
Proof using.
  intros [? ? ? ? ? ? ? ? Hto ? ? ? ?] Hi Ho Hn. split; cbn; try done.
  - by rewrite length_app, Nat.add_1_r.
  - rewrite length_app. cbn. lia.
  - intros j m Hm. apply lookup_app_l_Some. by apply Hto.
  - apply Forall_app. split; [done|]. by constructor.
Qed.

Lemma grows_first ents h tr i : fifo_grows ents ents h (take_first h i) tr tr i.
Proof using.
  split; cbn; try done; [by apply prefix_app_r|]. intros j n Hj [?|[_ Hn]]%lookup_app_Some; [done|].
  apply list_lookup_singleton_Some in Hn as [_ ->]. done.
Qed.

Lemma head_cas_wp n i td se k b t v hd m (Q : bool → fifo_party → Prop) :
  Q true (FParty td se (FaTaken k v)) → Q false (FParty td se (FaValue k (pointer hd) b t (pointer m) v)) →
  fifo_wp n (ck_pr_cas_ptr_2 (the_fifo →' mf_head_loc) hd m) i Q
    (FParty td se (FaValue k (pointer hd) b t (pointer m) v)).
Proof using.
  intros HQ1 HQ2. apply fifo_step. intros [fh ft] ents tr h Hst Hp. cbn. case_decide as E.
  - subst fh. pose proof Hp as [((Hx & Hk) & (Ht & Hb) & Hm & i' & Hq) Hs Hks Hr Hh Hpu Htk].
    pose proof (fs_head _ _ _ _ Hst) as Hhd. cbn in Hhd. cbn in Hk, Hs.
    pose proof (NoDup_lookup _ _ _ _ (fs_nodup _ _ _ _ Hst) Hx Hhd) as ->.
    exists true, (MkMpmc m ft), ents, tr, (take_first h i), (FParty td se (FaTaken (length (fh_o h)) v)).
    split; [by rewrite bool_decide_eq_true_2|]. split; [|split; [|split; [|done]]].
    + destruct Hr as (us & _ & Hu & _). destruct m as [mp mg].
      apply (state_first (MkMpmc hd ft) ents h tr i mp mg Hst); [by eapply lookup_lt_Some | lia | done].
    + split; cbn; try done.
      * split; [lia|]. split; [by apply list_lookup_middle | by exists i'].
      * rewrite length_app. cbn. lia.
      * intros z [Hz|[Hz1 Hz]]%lookup_app_Some.
        -- destruct (Htk z Hz) as [|[? ?]]; [by left | done].
        -- right. exists v. apply list_lookup_singleton_Some in Hz as [Hz _].
           assert (z = length (fh_o h)) as -> by lia. done.
    + intros j r Hne Hjr. eapply party_grows; [apply grows_first|done| |done]. intros e He. split; [done|].
      by apply (fo_hands _ _ _ _ _ Hjr).
  - exists false, (MkMpmc fh ft), ents, tr, h, (FParty td se (FaValue k (pointer hd) b t (pointer m) v)).
    split; [|done]. by rewrite bool_decide_eq_false_2.
Qed.

(** *** What the threads log *)

Lemma put_log_snoc tr k : put_log (tr ++ [k]) = put_log tr ++ put_log [k].
Proof using. apply omap_app. Qed.

Lemma took_log_snoc tr k : took_log (tr ++ [k]) = took_log tr ++ took_log [k].
Proof using. apply omap_app. Qed.

Lemma put_log_put tr i v : put_log (tr ++ [FPut i v]) = put_log tr ++ [(i, v)].
Proof using. apply put_log_snoc. Qed.

Lemma took_log_took tr i v : took_log (tr ++ [FTook i v]) = took_log tr ++ [(i, v)].
Proof using. apply took_log_snoc. Qed.

(** A mark that says nothing of takes. *)
Lemma state_mark f ents h tr k :
  took_log [k] = [] → Forall (λ x, (x.1 < length uses)%nat) (put_log [k]) →
  fifo_state f ents h tr → fifo_state f ents h (tr ++ [k]).
Proof using.
  intros Hk Hi [? ? ? ? ? ? ? ? ? ? ? ? ?]. split; try done.
  - rewrite put_log_snoc. by apply Forall_app.
  - by rewrite took_log_snoc, Hk, app_nil_r.
Qed.

Lemma log_put_wp n i td se v :
  fifo_wp n (fifo_log (FPut i v)) i (λ _ g, g = FParty td se FaIdle) (FParty td se (FaPut v)).
Proof using.
  apply fifo_step. intros q ents tr h Hst Hp.
  exists tt, q, ents, (tr ++ [FPut i v]), h, (FParty td se FaIdle). split; [done|].
  split; [apply state_mark; [done| |done]; destruct (fo_todo _ _ _ _ _ Hp) as (us & _ & Hu & _); apply lookup_lt_Some in Hu; by constructor|]. split; [|split; [|done]].
  - destruct Hp as [_ ? ? ? ? Hpu Htk]. split; cbn in *; try done.
    + by rewrite put_log_put, app_nil_r, of_thread_snoc, decide_True.
    + intros m Hm. destruct (Htk m Hm) as [|[? ?]]; [by left | done].
  - intros j r Hne Hjr. eapply (party_grows ents ents h h tr _ i); [|done| |done].
    + split; try done. intros k Hk. by rewrite put_log_put, of_thread_snoc, decide_False, app_nil_r.
    + intros e He. split; [done|]. by apply (fo_hands _ _ _ _ _ Hjr).
Qed.

Lemma log_empty_wp n i td se a :
  quiet a → fifo_wp n (fifo_log (FEmpty i)) i (λ _ g, g = FParty td se a) (FParty td se a).
Proof using.
  intros Ha. apply fifo_step. intros q ents tr h Hst Hp.
  exists tt, q, ents, (tr ++ [FEmpty i]), h, (FParty td se a). split; [done|].
  assert (put_log (tr ++ [FEmpty i]) = put_log tr) as Ep by (by rewrite put_log_snoc, app_nil_r).
  split; [by apply state_mark|]. split; [|split; [|done]].
  - destruct Hp. by split; rewrite ?Ep.
  - intros j r Hne []. by split; rewrite ?Ep.
Qed.

Definition log_taken (h : fifo_history) (x : nat * nat) : fifo_history :=
  FHistory (fh_n h) (fh_q h) (fh_o h) (fh_t h) (fh_k h ++ [x]).

Lemma log_took_wp n i td se k v :
  fifo_wp n (fifo_log (FTook i v)) i (λ _ g, ∃ se', g = FParty td se' FaIdle) (FParty td se (FaTaken k v)).
Proof using.
  apply fifo_step. intros q ents tr h Hst Hp. pose proof Hp as [(Hk & Ho & i' & Hq) Hs [Hks Hlt] Hr Hh Hpu Htk].
  cbn in Hk, Hlt, Hs. pose proof (lookup_lt_Some _ _ _ Ho).
  assert (put_log (tr ++ [FTook i v]) = put_log tr) as Ep by (by rewrite put_log_snoc, app_nil_r).
  exists tt, q, ents, (tr ++ [FTook i v]), (log_taken h (i, k)), (FParty td (S k) FaIdle). split; [done|].
  split; [|split; [|split; [|by eexists]]].
  - destruct Hst as [? ? ? ? ? ? ? ? Hto ? Honce ? Hlog]. split; cbn; rewrite ?Ep; try done.
    + intros j m [Hm|[= -> ->]%list_elem_of_singleton]%elem_of_app; [by apply Hto | done].
    + rewrite fmap_app. apply NoDup_app. split; [done|]. split; [|apply NoDup_singleton].
      intros m Hm ->%list_elem_of_singleton. cbn in Hm. apply list_elem_of_fmap in Hm as ([j m] & -> & Hm). cbn in *.
      pose proof (Hto j m Hm) as E. assert (j = i) as -> by congruence.
      apply elem_of_of_thread in Hm. rewrite Forall_forall in Hlt. specialize (Hlt m Hm). lia.
    + rewrite took_log_took. apply Forall2_app; [done|]. constructor; [|done]. cbn. by rewrite Hq.
  - split; cbn; rewrite ?Ep; try done; [|intros m Hm; left; apply elem_of_app].
    + rewrite of_thread_snoc, decide_True by done. split.
      * apply sorted_snoc; [done|]. eapply Forall_impl; [exact Hlt|]. cbn. lia.
      * apply Forall_app. split; [eapply Forall_impl; [exact Hlt|]; cbn; lia | constructor; [lia|done]].
    + destruct (Htk m Hm) as [|[v' [= <- <-]]]; [by left | right; by left].
  - intros j r Hne Hjr. eapply (party_grows ents ents h _ tr _ i); [|done| |done].
    + split; cbn; rewrite ?Ep; try done. intros z Hz. by rewrite of_thread_snoc, decide_False, app_nil_r.
    + intros e He. split; [done|]. by apply (fo_hands _ _ _ _ _ Hjr).
Qed.

(** ** The operations *)

Definition at_rest (td : list (Z * Z)) (g : fifo_party) : Prop := ∃ se a, quiet a ∧ g = FParty td se a.

Lemma rests td se a : quiet a → at_rest td (FParty td se a).
Proof using. by exists se, a. Qed.

(** The tail moves to what is behind it, for another thread. *)
Lemma help_wp n i td se e v j (t next : ck_fifo_mpmc_pointer) g (Q : bool → fifo_party → Prop) :
  pointer next ≠ 0 →
  (∀ b, Q b (FParty td se (FaNext e v j (pointer t) (pointer next)))) →
  fifo_wp n (ck_pr_cas_ptr_2 (the_fifo →' mf_tail_loc) t (MkPointer (pointer next) g)) i Q
    (FParty td se (FaNext e v j (pointer t) (pointer next))).
Proof using.
  intros Hn HQ. eapply tail_cas_wp; [|done|done|done|exact HQ].
  intros ents h (Hr & Hx & Hb). split; [done|]. exists j. split; [done|]. by apply Hb.
Qed.

(** The tail moves to the entry that the thread linked. *)
Lemma swing_wp n i td se e v j (t : ck_fifo_mpmc_pointer) g (Q : bool → fifo_party → Prop) :
  (∀ b, Q b (FParty td se (FaPut v))) →
  fifo_wp n (ck_pr_cas_ptr_2 (the_fifo →' mf_tail_loc) t (MkPointer e g)) i Q
    (FParty td se (FaLinked e v j (pointer t))).
Proof using.
  intros HQ. apply (tail_cas_wp _ _ _ _ _ (FaPut v)); [|done|done|done|exact HQ].
  intros ents h (Hx & Hb). split; [done|]. by exists j.
Qed.

Lemma enqueue_wp n i td se e v d :
  quiet d →
  fifo_wp n (ck_fifo_mpmc_enqueue the_fifo the_fentries e v) i (λ _ g, g = FParty td se (FaPut v))
    (FParty ((e, v) :: td) se d).
Proof using Huses.
  intros Hd. apply wp_bind. eapply wp_mono; [by apply prepare_wp|]. intros _ g ->. apply wp_bind.
  eapply wp_mono with (Q := λ t g, ∃ j, g = FParty td se (FaLinked e v j (pointer t))).
  2:{ intros t g [j ->]. apply wp_bind, swing_wp. intros b. by apply wp_ret. }
  apply (wp_loop _ _ _ _ _ (λ _ g, ∃ a, offering e v a ∧ g = FParty td se a)); [by exists (FaPrep e v 3)|]. clear n d Hd.
  intros n [] g (a & Ha & ->). apply wp_bind. eapply wp_mono; [by apply tail_wp|]. intros t g [j ->].
  apply wp_bind. eapply wp_mono; [apply next_wp|]. intros next g ->.
  apply wp_bind, fifo_skip_wp; [done|]. intros z. destruct (z =? generation t); cbn [negb]; [|apply wp_ret; by exists (FaNext e v j (pointer t) (pointer next))].
  destruct (Z.eqb_spec (pointer next) 0) as [E|Hne]; cbn [negb].
  - apply wp_bind, link_wp; [done| |]; apply wp_ret; [by exists j | by exists (FaNext e v j (pointer t) (pointer next))].
  - apply wp_bind, help_wp; [done|]. intros b. apply wp_ret. by exists (FaNext e v j (pointer t) (pointer next)).
Qed.

Lemma tryenqueue_wp n i td se e v d :
  quiet d →
  fifo_wp n (ck_fifo_mpmc_tryenqueue the_fifo the_fentries e v) i
    (λ b g, if b then g = FParty td se (FaPut v) else at_rest td g) (FParty ((e, v) :: td) se d).
Proof using Huses.
  intros Hd. apply wp_bind. eapply wp_mono; [by apply prepare_wp|]. intros _ g ->. apply wp_bind.
  eapply wp_mono; [by apply tail_wp|]. intros t g [j ->].
  apply wp_bind. eapply wp_mono; [apply next_wp|]. intros next g ->.
  apply wp_bind, fifo_skip_wp; [done|]. intros z. destruct (z =? generation t); cbn [negb]; [|apply wp_ret; by apply rests].
  destruct (Z.eqb_spec (pointer next) 0) as [E|Hne]; cbn [negb].
  - apply wp_bind, link_wp; [done| |].
    + apply wp_bind, swing_wp. intros b. by apply wp_ret.
    + apply wp_ret. by apply rests.
  - apply wp_bind, help_wp; [done|]. intros b. apply wp_ret. by apply rests.
Qed.

(** What a thread that took has: the value at its place in the queue. *)
Definition took_or_rests (td : list (Z * Z)) (r : option (Z * Z)) (g : fifo_party) : Prop :=
  match r with Some (v, _) => ∃ se k, g = FParty td se (FaTaken k v) | None => at_rest td g end.

Lemma help_after_wp n i td se k b (t next : ck_fifo_mpmc_pointer) g (Q : bool → fifo_party → Prop) :
  pointer next ≠ 0 →
  (∀ c, Q c (FParty td se (FaPairNext k (pointer t) b (pointer t) (pointer next)))) →
  fifo_wp n (ck_pr_cas_ptr_2 (the_fifo →' mf_tail_loc) t (MkPointer (pointer next) g)) i Q
    (FParty td se (FaPairNext k (pointer t) b (pointer t) (pointer next))).
Proof using.
  intros Hn HQ. eapply tail_cas_wp; [|done|done|done|exact HQ].
  intros ents h Ha. split; [exact Ha|]. destruct Ha as ((Hx & _) & _ & Hb). exists k. split; [done|]. by apply Hb.
Qed.

Lemma dequeue_wp n i td se d :
  quiet d →
  fifo_wp n (ck_fifo_mpmc_dequeue the_fifo the_fentries) i (took_or_rests td) (FParty td se d).
Proof using.
  intros Hd. apply (wp_loop _ _ _ _ _ (λ _ g, at_rest td g)); [by apply rests|]. clear n d Hd se.
  intros n [] g (se & a & Ha & ->). apply wp_bind. eapply wp_mono; [by apply head_wp|]. intros hd g [k ->].
  apply wp_bind. eapply wp_mono; [apply tail_after_wp|]. intros t g [b ->].
  apply wp_bind. eapply wp_mono; [apply next_after_wp|]. intros next g ->.
  destruct (Z.eqb_spec (pointer hd) (pointer t)) as [E|Hne].
  - rewrite E. destruct (Z.eqb_spec (pointer next) 0) as [|Hn]; [apply wp_ret; by apply rests|].
    apply wp_bind, help_after_wp; [done|]. intros c. apply wp_ret. by apply rests.
  - destruct (Z.eqb_spec (pointer next) 0) as [|Hn]; [apply wp_ret; by apply rests|].
    apply wp_bind, value_wp; [done|done|]. intros v.
    apply wp_bind, (head_cas_wp _ _ _ _ _ _ _ _ _ (MkPointer (pointer next) _)); apply wp_ret; [by eexists _, _ | by apply rests].
Qed.

Lemma trydequeue_wp n i td se d :
  quiet d →
  fifo_wp n (ck_fifo_mpmc_trydequeue the_fifo the_fentries) i (took_or_rests td) (FParty td se d).
Proof using.
  intros Hd. apply wp_bind. eapply wp_mono; [by apply head_wp|]. intros hd g [k ->].
  apply wp_bind. eapply wp_mono; [apply tail_after_wp|]. intros t g [b ->].
  apply wp_bind. eapply wp_mono; [apply next_after_wp|]. intros next g ->.
  destruct (Z.eqb_spec (pointer hd) (pointer t)) as [E|Hne].
  - rewrite E. destruct (Z.eqb_spec (pointer next) 0) as [|Hn]; [apply wp_ret; by apply rests|].
    apply wp_bind, help_after_wp; [done|]. intros c. apply wp_ret. by apply rests.
  - destruct (Z.eqb_spec (pointer next) 0) as [|Hn]; [apply wp_ret; by apply rests|].
    apply wp_bind, value_wp; [done|done|]. intros v.
    apply wp_bind, (head_cas_wp _ _ _ _ _ _ _ _ _ (MkPointer (pointer next) _)); apply wp_ret; [by eexists _, _ | by apply rests].
Qed.

Lemma fifo_use_wp n i u us g :
  at_rest (fifo_puts (u :: us)) g → fifo_wp n (fifo_use_once i u) i (λ _, at_rest (fifo_puts us)) g.
Proof using Huses.
  intros (se & a & Ha & ->). destruct u as [e v|e v| |]; cbn [fifo_use_once].
  - apply wp_bind. eapply wp_mono; [by apply (enqueue_wp n i (fifo_puts us))|]. intros _ g ->.
    eapply wp_mono; [apply log_put_wp|]. intros _ g ->. by apply rests.
  - apply wp_bind. eapply wp_mono; [by apply (tryenqueue_wp n i (fifo_puts us))|]. intros [] g Hg; [|by apply wp_ret].
    subst g. eapply wp_mono; [apply log_put_wp|]. intros _ g ->. by apply rests.
  - apply wp_bind. eapply wp_mono; [by apply (dequeue_wp n i (fifo_puts us))|]. intros [[v x]|] g.
    + intros (se' & k & ->). eapply wp_mono; [apply log_took_wp|]. intros _ g [? ->]. by apply rests.
    + intros (se' & a' & Ha' & ->). eapply wp_mono; [by apply log_empty_wp|]. intros _ g ->. by apply rests.
  - apply wp_bind. eapply wp_mono; [by apply (trydequeue_wp n i (fifo_puts us))|]. intros [[v x]|] g; [|intros ?; by apply wp_ret].
    intros (se' & k & ->). eapply wp_mono; [apply log_took_wp|]. intros _ g [? ->]. by apply rests.
Qed.

Lemma fifo_client_wp n i us g :
  at_rest (fifo_puts us) g → fifo_wp n (fifo_client i us) i (λ _, at_rest []) g.
Proof using Huses.
  revert n g. induction us as [|u us IH]; intros n g Hg; cbn [fifo_client]; [by apply wp_ret|].
  apply wp_bind. eapply wp_mono; [by apply fifo_use_wp|]. intros [] g' Hg'. by apply IH.
Qed.
End many.

(** ** The theorem's parts *)

(** The threads before their first steps. *)
Definition fifo_parties (uses : list (list fifo_use)) : list fifo_party := (λ us, FParty (fifo_puts us) 0 FaIdle) <$> uses.

(** The entries that the threads put are used once; they are there, and none is the [stub]. *)
Definition fresh_entries (ents : gmap Z ck_fifo_mpmc_entry) (stub : Z) (uses : list (list fifo_use)) : Prop :=
  NoDup (concat ((λ us, (fifo_puts us).*1) <$> uses))
  ∧ Forall (λ e, e ≠ 0 ∧ e ≠ stub ∧ is_Some (ents !! e)) (concat ((λ us, (fifo_puts us).*1) <$> uses)).

(** The queue [q] of the puts, and where in it the takes were. *)
Definition fifo_queue (uses : list (list fifo_use)) (tr : list fifo_mark) (q : list (nat * Z)) (tk : list (nat * nat)) : Prop :=
  (∀ i us, uses !! i = Some us → of_thread i q `sublist_of` (fifo_puts us).*2)
  ∧ (∀ i, of_thread i (put_log tr) `prefix_of` of_thread i q)
  ∧ taken_from q tk (took_log tr).

(** What is in the queue when no thread is at work in it. *)
Definition fifo_rest (f : ck_fifo_mpmc) (ents : gmap Z ck_fifo_mpmc_entry) (q : list (nat * Z)) (tk : list (nat * nat)) : Prop :=
  ∃ e, ents !! pointer (mf_head f) = Some e ∧ linked ents (pointer (me_next e)) (drop (length tk) q).*2.

Section parts.
Context (uses : list (list fifo_use)).

Lemma inv_init stub ents f :
  fresh_entries ents stub uses → stub ≠ 0 →
  (λ e, pointer (me_next e)) <$> ents !! stub = Some 0 → pointer (mf_head f) = stub → pointer (mf_tail f) = stub →
  fifo_inv uses (f, ents, []) (fifo_parties uses).
Proof using.
  intros [Hnd Hf] Hs He Hh Ht. exists (FHistory [stub] [] [] 0 []). split.
  - split; cbn; try done; try by constructor.
    + apply NoDup_singleton.
    + by rewrite Hh.
    + by rewrite Ht.
    + intros [|j] x [=]; subst. split; [done|]. destruct (ents !! _) as [e|]; [|done]. injection He as He. by exists e.
    + intros i n. by intros ?%not_elem_of_nil.
  - intros i p Hp. unfold fifo_parties in Hp. rewrite list_lookup_fmap in Hp.
    destruct (uses !! i) as [us|] eqn:Hu; [|done]. injection Hp as <-. cbn. split; cbn; try done.
    + split; constructor.
    + exists us, []. split; [done|]. split; [done|]. apply sublist_nil_l.
    + intros e He'. rewrite Forall_forall in Hf. destruct (Hf e) as (? & Hne & ?).
      { rewrite list_elem_of_In, in_concat. exists (fifo_puts us).*1. split; apply list_elem_of_In; [|done].
        apply list_elem_of_fmap. exists us. split; [done|]. by eapply list_elem_of_lookup_2. }
      split; [|done]. by intros ?%list_elem_of_singleton.
Qed.

(** Of a thread that there is not. *)
Lemma of_thread_none {A} i (l : list (nat * A)) :
  (length uses ≤ i)%nat → Forall (λ x, (x.1 < length uses)%nat) l → of_thread i l = [].
Proof using.
  intros Hi Hl. apply elem_of_nil_inv. intros x Hx%elem_of_of_thread. rewrite Forall_forall in Hl.
  specialize (Hl _ Hx). cbn in Hl. lia.
Qed.

Lemma inv_queue f ents h tr ls :
  length ls = length uses → fifo_state uses f ents h tr →
  (∀ i p, ls !! i = Some p → fifo_party_ok uses ents h tr i p) → fifo_queue uses tr (fh_q h) (fh_k h).
Proof using.
  intros Hlen Hst Hls. split; [|split; [|split; [|split]]].
  - intros i us Hu. destruct (lookup_lt_is_Some_2 ls i) as [p Hp]; [rewrite Hlen; by eapply lookup_lt_Some|].
    destruct (fo_todo _ _ _ _ _ _ (Hls i p Hp)) as (us' & before & Hu' & Hpu & Hq).
    assert (us = us') as <- by congruence. rewrite Hpu, fmap_app. by apply sublist_inserts_r.
  - intros i. destruct (decide (i < length uses)%nat) as [Hi|Hi].
    + destruct (lookup_lt_is_Some_2 ls i) as [p Hp]; [lia|]. rewrite (fo_puts _ _ _ _ _ _ (Hls i p Hp)).
      by apply prefix_app_r.
    + rewrite (of_thread_none i (put_log tr)) by (lia || apply (fs_putters _ _ _ _ _ Hst)). apply prefix_nil.
  - apply (fs_log _ _ _ _ _ Hst).
  - apply (fs_once _ _ _ _ _ Hst).
  - intros i. destruct (decide (i < length uses)%nat) as [Hi|Hi].
    + destruct (lookup_lt_is_Some_2 ls i) as [p Hp]; [lia|]. apply (fo_sorted _ _ _ _ _ _ (Hls i p Hp)).
    + replace (of_thread i (fh_k h)) with (@nil nat); [constructor|]. symmetry. apply elem_of_nil_inv.
      intros m Hm%elem_of_of_thread. apply (fs_takers _ _ _ _ _ Hst) in Hm.
      pose proof (fs_threads _ _ _ _ _ Hst) as Ht. eapply Forall_lookup in Ht; [|exact Hm]. lia.
Qed.

(** The chain from the place [j] on has the values that were put there. *)
Lemma chain_linked f ents h tr j :
  fifo_state uses f ents h tr → (j ≤ length (fh_q h))%nat →
  linked ents (default 0 (fh_n h !! S j)) (drop j (fh_q h)).*2.
Proof using.
  intros Hst. pose proof (fs_length _ _ _ _ _ Hst) as Hl. remember (length (fh_q h) - j)%nat as k eqn:Ek.
  revert j Ek. induction k as [|k IH]; intros j Ek Hj.
  - rewrite drop_ge by lia. rewrite lookup_ge_None_2 by lia. done.
  - destruct (lookup_lt_is_Some_2 (fh_q h) j) as [[i v] Hq]; [lia|].
    destruct (lookup_lt_is_Some_2 (fh_n h) (S j)) as [x Hx]; [lia|].
    rewrite (drop_S _ _ _ Hq). cbn. rewrite Hx. cbn.
    destruct (fs_chain _ _ _ _ _ Hst _ _ Hx) as (H0 & e & He & Hp). split; [done|]. exists e. split; [done|].
    pose proof (fs_values _ _ _ _ _ Hst _ _ _ _ Hx Hq) as Hv. rewrite He in Hv. injection Hv as Hv.
    split; [done|]. rewrite Hp. apply IH; lia.
Qed.

(** When no thread is at work, what was taken is what the takers logged. *)
Lemma inv_rest f ents h tr ls :
  length ls = length uses → fifo_state uses f ents h tr →
  (∀ i p, ls !! i = Some p → fifo_party_ok uses ents h tr i p ∧ quiet (fp_act p)) →
  fifo_rest f ents (fh_q h) (fh_k h) ∧ ∀ i, (i < length uses)%nat → of_thread i (put_log tr) = of_thread i (fh_q h).
Proof using.
  intros Hlen Hst Hls. split.
  - assert (length (fh_k h) = length (fh_o h)) as Ek.
    { rewrite <- (length_fmap snd). rewrite <- (length_seq (length (fh_o h)) 0). apply Permutation_length.
      apply NoDup_Permutation; [apply (fs_once _ _ _ _ _ Hst) | apply NoDup_seq|]. intros n.
      rewrite elem_of_seq, list_elem_of_fmap. split.
      - intros ([i n'] & -> & Hn). apply (fs_takers _ _ _ _ _ Hst), lookup_lt_Some in Hn. cbn. lia.
      - intros Hn. destruct (lookup_lt_is_Some_2 (fh_o h) n) as [i Hi]; [lia|].
        pose proof (fs_threads _ _ _ _ _ Hst) as Ht. eapply Forall_lookup in Ht; [|exact Hi].
        destruct (lookup_lt_is_Some_2 ls i) as [p Hp]; [lia|]. destruct (Hls i p Hp) as [Hok Hq].
        destruct (fo_takes _ _ _ _ _ _ Hok n Hi) as [|[v E]]; [by exists (i, n) | by rewrite E in Hq]. }
    destruct (fs_chain _ _ _ _ _ Hst _ _ (fs_head _ _ _ _ _ Hst)) as (_ & e & He & Hp).
    exists e. split; [done|]. rewrite Hp, Ek. eapply chain_linked; [done|]. pose proof (fs_order _ _ _ _ _ Hst). lia.
  - intros i Hi. destruct (lookup_lt_is_Some_2 ls i) as [p Hp]; [lia|]. destruct (Hls i p Hp) as [Hok Hq].
    rewrite (fo_puts _ _ _ _ _ _ Hok). by destruct (fp_act p); cbn; rewrite ?app_nil_r.
Qed.
End parts.
