(* ===== verification/CkTheorems.v ===== *)
(** CkTheorems: the properties of the locks and of the ring of Concurrency Kit. *)

From Stdlib Require Import ZArith Lia Sorting.Sorted.
From stdpp Require Import base list gmap sorting.
From S2P Require Import Prelude Memory Concurrent CkPr CkMutex CkTicket CkMcs CkClh CkHclh CkAnderson.
From S2P Require Import CkRwlock CkRwMutex CkSwlock CkPflock CkTflock CkBytelock CkBrlock CkCohort CkRwcohort CkRing CkRingMany.
From S2P Require Import CkSequence CkStack CkFifo CkFifoMany.

#[local] Open Scope Z_scope.

(** ** Locks *)

(** What the witnesses log. *)
Definition two_in_turn : list mark := [Enter 0; Leave 0; Enter 0; Leave 0; Enter 1; Leave 1].
Definition three_in_turn : list rw_mark :=
  [WriteEnter 1; Downgrade 1; ReadLeave 1; ReadEnter 2; ReadLeave 2; ReadEnter 0; ReadLeave 0; WriteEnter 2; WriteLeave 2].

(** The spin locks of fas.h, cas.h and dec.h exclude: with any number of threads, for dec.h fewer than 2^32, each of which takes the
    lock, tries to take it or asks whether it is taken, in any order, and with any interleaving of their
    steps, no two threads are in a critical section at the same time.  The same with back-off, and with the elided functions, which only wait. *)
Theorem spinlock_mutual_exclusion (uses : list (list use)) :
  (∀ s tr ts, reaches (ck_spinlock_fas_init, []) (clients uses) (s, tr) ts → exclusive tr) ∧
  (∀ s tr ts, reaches (ck_spinlock_cas_init, []) (clients uses) (s, tr) ts → exclusive tr) ∧
  (∀ s tr ts, reaches (ck_spinlock_fas_init, []) (@clients _ fas_eb_spinlock uses) (s, tr) ts → exclusive tr) ∧
  (∀ s tr ts, reaches (ck_spinlock_cas_init, []) (@clients _ cas_eb_spinlock uses) (s, tr) ts → exclusive tr) ∧
  (∀ s tr ts, (length uses ≤ Z.to_nat 4294967295)%nat →
     reaches (ck_spinlock_dec_init, []) (clients uses) (s, tr) ts → exclusive tr) ∧
  (∀ s tr ts, (length uses ≤ Z.to_nat 4294967295)%nat →
     reaches (ck_spinlock_dec_init, []) (@clients _ dec_eb_spinlock uses) (s, tr) ts → exclusive tr) ∧
  (∀ s tr ts, reaches (ck_spinlock_fas_init, []) (@clients _ (elided fas_spinlock false) uses) (s, tr) ts → exclusive tr).
Proof.
  split_and!; intros s tr ts; [intros Hr..|intros Hn Hr|intros Hn Hr|intros Hr].
  - exact (proj1 (@spinlock_exclusive _ _ _ (fas_laws (length uses)) _ _ _ _ (le_n _) Hr)).
  - exact (proj1 (@spinlock_exclusive _ _ _ (cas_laws (length uses)) _ _ _ _ (le_n _) Hr)).
  - exact (proj1 (@spinlock_exclusive _ _ _ (fas_eb_laws (length uses)) _ _ _ _ (le_n _) Hr)).
  - exact (proj1 (@spinlock_exclusive _ _ _ (cas_eb_laws (length uses)) _ _ _ _ (le_n _) Hr)).
  - exact (proj1 (@spinlock_exclusive _ _ _ dec_laws _ _ _ _ Hn Hr)).
  - exact (proj1 (@spinlock_exclusive _ _ _ dec_eb_laws _ _ _ _ Hn Hr)).
  - exact (proj1 (@spinlock_exclusive _ _ _ (elided_laws _ (length uses) (fas_laws _)) _ _ _ _ (le_n _) Hr)).
Qed.

(** Thread 1 spins until thread 0 has left; thread 0 leaves twice. *)
Lemma spinlock_mutual_exclusion_witness :
  ∃ s ts, reaches (ck_spinlock_fas_init, []) (clients [[UseLock; UseTrylock]; [UseLock; UseLocked]]) (s, two_in_turn) ts
    ∧ exclusive two_in_turn.
Proof.
  destruct (schedule_reaches (rounds 12 2) (ck_spinlock_fas_init, [])
    (clients [[UseLock; UseTrylock]; [UseLock; UseLocked]]) (MkFas 1, two_in_turn)) as [ts Hr]; [by vm_compute|].
  exists (MkFas 1), ts. split; [exact Hr|].
  exact (proj1 (spinlock_mutual_exclusion [[UseLock; UseTrylock]; [UseLock; UseLocked]]) _ _ _ Hr).
Defined.

(** C37 (bounds). The ticket lock, whose tickets are halves of a word and wrap at 2^16, excludes as long as at most
    65536 threads use it, and no step of theirs is undefined; so does its variant with proportional
    back-off, when the shift it is given is less than the 32 bits of an unsigned int. *)
Theorem ticket_mutual_exclusion (uses : list (list use)) :
  (length uses ≤ Z.to_nat 65536)%nat →
  (∀ s tr ts, reaches (ck_spinlock_ticket_init, []) (clients uses) (s, tr) ts →
     exclusive tr ∧ ¬ pool_faults (s, tr, ts)) ∧
  (∀ c s tr ts, c < 32 →
     reaches (ck_spinlock_ticket_init, []) (@clients _ (ticket_pb_spinlock c) uses) (s, tr) ts →
     exclusive tr ∧ ¬ pool_faults (s, tr, ts)).
Proof.
  intros Hlen. split.
  - intros s tr ts. by apply (@spinlock_exclusive _ _ _ ticket_laws).
  - intros c s tr ts Hc. by apply (@spinlock_exclusive _ _ (ticket_pb_spinlock c) (ticket_pb_laws c Hc)).
Qed.

(** With back-off, thread 1 takes the next ticket while thread 0 is served. *)
Lemma ticket_mutual_exclusion_witness :
  (length [[UseLock; UseTrylock]; [UseLock; UseLocked]] ≤ Z.to_nat 65536)%nat ∧ 5 < 32 ∧
  ∃ s ts, reaches (ck_spinlock_ticket_init, [])
      (@clients _ (ticket_pb_spinlock 5) [[UseLock; UseTrylock]; [UseLock; UseLocked]])
      (s, [Enter 0; Leave 0; Enter 1; Leave 1]) ts
    ∧ exclusive [Enter 0; Leave 0; Enter 1; Leave 1].
Proof.
  assert (length [[UseLock; UseTrylock]; [UseLock; UseLocked]] ≤ Z.to_nat 65536)%nat as H by (cbn [length]; lia).
  split; [exact H|]. split; [lia|].
  destruct (schedule_reaches (rounds 13 2) (ck_spinlock_ticket_init, [])
    (@clients _ (ticket_pb_spinlock 5) [[UseLock; UseTrylock]; [UseLock; UseLocked]])
    (MkTicket 131074, [Enter 0; Leave 0; Enter 1; Leave 1])) as [ts Hr]; [by vm_compute|].
  exists (MkTicket 131074), ts. split; [exact Hr|].
  refine (proj1 (proj2 (ticket_mutual_exclusion _ H) 5 _ _ _ _ Hr)). lia.
Defined.

(** The reader-writer lock: with fewer than 2^32 threads, each of which reads or writes under the
    lock, tries to, or turns its write lock into a read lock, in any order, and with any interleaving of
    their steps, no thread writes while another reads or writes, and no step is undefined. *)
Theorem rwlock_exclusion (uses : list (list rw_use)) s tr ts :
  Z.of_nat (length uses) < 4294967296 →
  reaches (ck_rwlock_init, []) (rw_clients uses) (s, tr) ts →
  rw_exclusive tr ∧ ¬ pool_faults (s, tr, ts).
Proof. apply rwlock_exclusive. Qed.

(** A writer that goes on as a reader, two readers, and a writer that comes when they have left. *)
Lemma rwlock_exclusion_witness :
  ∃ s ts, reaches (ck_rwlock_init, []) (rw_clients [[UseRead]; [UseDowngrade]; [UseRead; UseTryWrite]])
      (s, three_in_turn) ts ∧ rw_exclusive three_in_turn.
Proof.
  destruct (schedule_reaches (rounds 20 3) (ck_rwlock_init, [])
    (rw_clients [[UseRead]; [UseDowngrade]; [UseRead; UseTryWrite]])
    (MkRwlock 0 0, three_in_turn)) as [ts Hr]; [by vm_compute|].
  exists (MkRwlock 0 0), ts. split; [exact Hr|].
  refine (proj1 (rwlock_exclusion _ _ _ _ _ Hr)). cbn [length]. lia.
Defined.

(** C26 (safety). The other reader-writer locks exclude, as the first does: ck_swlock, in which the thread 0 alone writes,
    waiting, trying or latching, with fewer than 2^30 threads; ck_pflock with fewer than 2^24; ck_tflock with fewer
    than 2^15, although its counts are of 16 bits and wrap; ck_bytelock with fewer than 2^32, of which those with a byte
    of their own may write; ck_brlock, whose readers join the list before they read and leave it after, with any number
    of threads, in any memory that has the readers of the threads, whatever is in them, and which may have no other.  Whatever the threads do and however their steps
    interleave, a thread that writes is alone, also one that goes on as a reader, and no step is undefined; for
    ck_brlock, none follows a pointer that is not that of a reader. *)
Theorem rw_locks_exclusion (uses : list (list rws_use)) (max : nat) :
  (length uses ≤ max)%nat →
  (Z.of_nat max < 1073741824 → ∀ s tr ts,
     reaches (CK_SWLOCK_INITIALIZER, []) (rws_clients uses) (s, tr) ts →
     rw_exclusive tr ∧ ¬ pool_faults (s, tr, ts)) ∧
  (Z.of_nat max < 16777216 → ∀ s tr ts,
     reaches (CK_PFLOCK_INITIALIZER, []) (rws_clients uses) (s, tr) ts →
     rw_exclusive tr ∧ ¬ pool_faults (s, tr, ts)) ∧
  (Z.of_nat max < 32768 → ∀ s tr ts,
     reaches (CK_TFLOCK_TICKET_INITIALIZER, []) (rws_clients uses) (s, tr) ts →
     rw_exclusive tr ∧ ¬ pool_faults (s, tr, ts)) ∧
  (Z.of_nat max < 4294967296 → ∀ s tr ts,
     reaches (CK_BYTELOCK_INITIALIZER, []) (rws_clients uses) (s, tr) ts →
     rw_exclusive tr ∧ ¬ pool_faults (s, tr, ts)) ∧
  (∀ nodes factor s tr ts, (∀ i, (i < length uses)%nat → is_Some (nodes !! own_node i)) →
     reaches (ck_brlock_init nodes, []) (@rws_clients _ (brlock_rw nodes factor) uses) (s, tr) ts →
     rw_exclusive tr ∧ ¬ pool_faults (s, tr, ts)).
Proof.
  intros Hlen. split; [|split; [|split; [|split]]];
    [intros Hmax s tr ts Hr..|
     intros nodes factor s tr ts Hn; by apply (@rws_exclusive _ (length uses) _ (brlock_laws nodes factor (length uses) Hn))].
  - apply (rws_exclusive (T := ck_swlock) uses s tr ts); [lia|exact Hr].
  - apply (rws_exclusive (T := ck_pflock) uses s tr ts); [lia|exact Hr].
  - apply (rws_exclusive (T := ck_tflock_ticket) uses s tr ts); [lia|exact Hr].
  - apply (rws_exclusive (T := ck_bytelock) uses s tr ts); [lia|exact Hr].
Qed.

(** Readers that hold anything; nothing else is in the memory. *)
Definition any_readers : gmap Z ck_brlock_reader := own_nodes 3 (MkReader 7 7 7).

(** A writer that comes again, and readers; the writer of the first lock latches it and then goes on as a reader. *)
Lemma rw_locks_exclusion_witness :
  let tr1 := [WriteEnter 0; WriteLeave 0; WriteEnter 0; WriteLeave 0; ReadEnter 0; ReadLeave 0;
    ReadEnter 1; ReadEnter 2; ReadLeave 1; ReadLeave 2; ReadEnter 1; ReadLeave 1] in
  let tr2 := [WriteEnter 0; WriteLeave 0; ReadEnter 1; ReadEnter 2; ReadLeave 1; ReadLeave 2;
    ReadEnter 0; ReadLeave 0; WriteEnter 1; WriteLeave 1] in
  let tr3 := [WriteEnter 0; WriteLeave 0; ReadEnter 0; ReadLeave 0; ReadEnter 1; ReadLeave 1; WriteEnter 1; WriteLeave 1] in
  (∃ ts, reaches (CK_SWLOCK_INITIALIZER, []) (rws_clients [[RwsWrite 2; RwsDowngrade 0]; [RwsRead 0; RwsRead 1]; [RwsRead 0]])
      (MkSwlock 0, tr1) ts ∧ rw_exclusive tr1) ∧
  (∃ ts, reaches (CK_TFLOCK_TICKET_INITIALIZER, []) (rws_clients [[RwsWrite 0; RwsRead 0]; [RwsRead 0; RwsWrite 0]; [RwsRead 0]])
      (MkTflock 196610 196610, tr2) ts ∧ rw_exclusive tr2) ∧
  ∃ s ts, reaches (ck_brlock_init any_readers, [])
      (@rws_clients _ (brlock_rw any_readers 5) [[RwsWrite 0; RwsRead 0]; [RwsRead 2; RwsWrite 1]; [RwsRead 1]]) (s, tr3) ts
      ∧ rw_exclusive tr3.
Proof.
  intros tr1 tr2 tr3. split; [|split].
  - destruct (schedule_reaches (rounds 60 3) (CK_SWLOCK_INITIALIZER, [])
      (rws_clients [[RwsWrite 2; RwsDowngrade 0]; [RwsRead 0; RwsRead 1]; [RwsRead 0]]) (MkSwlock 0, tr1)) as [ts Hr];
      [by vm_compute|].
    exists ts. split; [exact Hr|]. refine (proj1 (proj1 (rw_locks_exclusion _ 3 _) _ _ _ _ Hr)); [done | lia].
  - destruct (schedule_reaches (rounds 60 3) (CK_TFLOCK_TICKET_INITIALIZER, [])
      (rws_clients [[RwsWrite 0; RwsRead 0]; [RwsRead 0; RwsWrite 0]; [RwsRead 0]]) (MkTflock 196610 196610, tr2)) as [ts Hr];
      [by vm_compute|].
    exists ts. split; [exact Hr|]. refine (proj1 (proj1 (proj2 (proj2 (rw_locks_exclusion _ 3 _))) _ _ _ _ Hr)); [done | lia].
  - destruct (schedule_logs (rounds 200 3) (ck_brlock_init any_readers) []
      (@rws_clients _ (brlock_rw any_readers 5) [[RwsWrite 0; RwsRead 0]; [RwsRead 2; RwsWrite 1]; [RwsRead 1]]) tr3) as (s & ts & Hr);
      [by vm_compute|].
    exists s, ts. split; [exact Hr|].
    refine (proj1 (proj2 (proj2 (proj2 (proj2 (rw_locks_exclusion _ 3 _)))) any_readers 5 _ _ _ _ Hr)); [done|].
    intros i Hi. exists (MkReader 7 7 7). by apply own_nodes_lookup.
Defined.

(** C31 (safety). The cohort lock of two fas locks per thread excludes, however the threads are divided into cohorts,
    whatever the limit on passing the lock in a cohort, and whether they take the lock or try to; so do the three
    reader-writer locks on top of it: no thread writes while another reads or writes.  The counts of waiting threads
    and of the times a lock was passed, and the barriers, may have any value. *)
Theorem cohort_locks_exclusion (co : nat → nat) (pass_limit wait_limit : Z) :
  (∀ (uses : list (list use)) s tr ts,
     reaches (cohorts_init pass_limit, []) (@clients _ (cohort_spinlock co pass_limit) uses) (s, tr) ts →
     exclusive tr ∧ ¬ pool_faults (s, tr, ts)) ∧
  (∀ uses : list (list rws_use), Z.of_nat (length uses) < 4294967296 →
    (∀ s tr ts, reaches (cohorts_init pass_limit, ck_rwcohort_wp_init wait_limit, [])
         (@rws_clients _ (rwcohort_wp co pass_limit wait_limit) uses) (s, tr) ts →
       rw_exclusive tr ∧ ¬ pool_faults (s, tr, ts)) ∧
    (∀ s tr ts, reaches (cohorts_init pass_limit, ck_rwcohort_rp_init wait_limit, [])
         (@rws_clients _ (rwcohort_rp co pass_limit wait_limit) uses) (s, tr) ts →
       rw_exclusive tr ∧ ¬ pool_faults (s, tr, ts)) ∧
    (∀ s tr ts, reaches (cohorts_init pass_limit, ck_rwcohort_neutral_init, [])
         (@rws_clients _ (rwcohort_neutral co pass_limit) uses) (s, tr) ts →
       rw_exclusive tr ∧ ¬ pool_faults (s, tr, ts))).
Proof.
  split.
  - intros uses s tr ts. by apply (@spinlock_exclusive _ (length uses) _ (cohort_spinlock_laws co pass_limit (length uses))).
  - intros uses Hlen. split; [|split]; intros s tr ts.
    + apply (@rws_exclusive _ _ _ (rwcohort_wp_laws co pass_limit wait_limit)). lia.
    + apply (@rws_exclusive _ _ _ (rwcohort_rp_laws co pass_limit wait_limit)). lia.
    + apply (@rws_exclusive _ _ _ (rwcohort_neutral_laws co pass_limit)). lia.
Qed.

(** Two cohorts: the even threads and the odd ones. *)
Definition even_and_odd (i : nat) : nat := (i mod 2)%nat.

Lemma cohort_locks_exclusion_witness :
  let tr1 := [Enter 0; Leave 0; Enter 1; Leave 1; Enter 2; Leave 2; Enter 2; Leave 2] in
  let tr2 := [ReadEnter 1; ReadLeave 1; ReadEnter 2; ReadLeave 2; WriteEnter 1; WriteLeave 1; WriteEnter 0; WriteLeave 0;
    ReadEnter 0; ReadLeave 0] in
  (∃ s ts, reaches (cohorts_init 1, []) (@clients _ (cohort_spinlock even_and_odd 1) [[UseLock; UseTrylock]; [UseLock]; [UseLock; UseLock]])
      (s, tr1) ts ∧ exclusive tr1) ∧
  ∃ s ts, reaches (cohorts_init 1, ck_rwcohort_rp_init 2, [])
      (@rws_clients _ (rwcohort_rp even_and_odd 1 2) [[RwsWrite 0; RwsRead 0]; [RwsRead 0; RwsWrite 0]; [RwsRead 0]])
      (s, tr2) ts ∧ rw_exclusive tr2.
Proof.
  intros tr1 tr2. split.
  - destruct (schedule_logs (rounds 60 3) (cohorts_init 1) []
      (@clients _ (cohort_spinlock even_and_odd 1) [[UseLock; UseTrylock]; [UseLock]; [UseLock; UseLock]]) tr1) as (s & ts & Hr);
      [by vm_compute|].
    exists s, ts. split; [exact Hr|]. exact (proj1 (proj1 (cohort_locks_exclusion even_and_odd 1 2) _ _ _ _ Hr)).
  - destruct (schedule_logs (rounds 80 3) (cohorts_init 1, ck_rwcohort_rp_init 2) []
      (@rws_clients _ (rwcohort_rp even_and_odd 1 2) [[RwsWrite 0; RwsRead 0]; [RwsRead 0; RwsWrite 0]; [RwsRead 0]]) tr2) as (s & ts & Hr);
      [by vm_compute|].
    exists s, ts. split; [exact Hr|].
    refine (proj1 (proj1 (proj2 (proj2 (cohort_locks_exclusion even_and_odd 1 2) _ _)) _ _ _ Hr)). cbn [length]. lia.
Defined.

(** ** The ring *)

(** C24 (refinement). A ring of 2^k slots with one producer and one consumer is a queue: with any interleaving of
    their steps, the copies of single bytes included, what the consumer has taken is a prefix of what the
    producer puts, each entry whole, and no access is out of bounds; also after the indices wrap at 2^32. *)
Theorem ring_spsc_fifo (k ts : nat) (entries : list bytes) (b : bytes) s tr pool :
  (k ≤ 31)%nat → Z.of_nat (ts * 2 ^ k) ≤ 4294967296 →
  Forall (λ e, length e = ts) entries → length b = (ts * 2 ^ k)%nat →
  reaches ((ck_ring_init (2 ^ Z.of_nat k), b), []) [producer ts entries; consumer ts] (s, tr) pool →
  tr `prefix_of` entries ∧ ¬ pool_faults ((s, tr), pool).
Proof. intros Hk Hts He. by apply spsc_fifo. Qed.

(** Entries of two bytes in a ring of two slots, which holds one of them at a time. *)
Lemma ring_spsc_fifo_witness :
  ∃ s pool, reaches ((ck_ring_init (2 ^ 1), [0; 0; 0; 0]), []) [producer 2 [[1; 2]; [3; 4]; [5; 6]]; consumer 2]
      (s, [[1; 2]; [3; 4]]) pool ∧ [[1; 2]; [3; 4]] `prefix_of` [[1; 2]; [3; 4]; [5; 6]].
Proof.
  destruct (schedule_reaches (rounds 25 2) ((ck_ring_init (2 ^ 1), [0; 0; 0; 0]), [])
    [producer 2 [[1; 2]; [3; 4]; [5; 6]]; consumer 2]
    ((MkRing 2 2 0 2 1, [1; 2; 3; 4]), [[1; 2]; [3; 4]])) as [pool Hr]; [by vm_compute|].
  exists (MkRing 2 2 0 2 1, [1; 2; 3; 4]), pool. split; [exact Hr|].
  refine (proj1 (ring_spsc_fifo 1 2 _ _ _ _ _ _ _ _ _ Hr)); [lia | cbn; lia | by repeat constructor | done].
Defined.

(** C22 (refinement). A ring of 2^k slots with any number of threads, each of which puts and takes in any order,
    trying once or until there is room: whatever the interleaving, there is one queue of the entries that
    were put, in which every thread's entries have the thread's order; what is taken are whole entries of
    the queue, none twice, and every thread takes them in the order of the queue; no access is out of bounds.
    So that no index comes round, fewer than 2^32 entries are put. *)
Theorem ring_mpmc_queue (k ts : nat) (uses : list (list ring_use)) (b : bytes) s tr pool :
  (k ≤ 31)%nat → Z.of_nat (ts * 2 ^ k) ≤ 4294967296 →
  Z.of_nat (length (concat (map puts uses))) < 4294967296 →
  Forall (λ us, Forall (λ e, length e = ts) (puts us)) uses → length b = (ts * 2 ^ k)%nat →
  reaches ((ck_ring_init (2 ^ Z.of_nat k), b), []) (ring_clients ts uses) (s, tr) pool →
  queue_history uses tr ∧ ¬ pool_faults ((s, tr), pool).
Proof. apply mpmc_history. Qed.

(** What four threads do in the witness: two put, two take. *)
Definition four_uses : list (list ring_use) :=
  [[Put [1; 2]; Put [3; 4]]; [TryPut [5; 6]; Put [7; 8]]; [TryTake; Take; Take; Take; Take; Take]; [Take; Take]].
Definition four_taken : list (nat * bytes) := [(2%nat, [1; 2]); (2%nat, [5; 6]); (2%nat, [3; 4]); (2%nat, [7; 8])].

Lemma ring_mpmc_queue_witness :
  ∃ s pool, reaches ((ck_ring_init (2 ^ 2), [0; 0; 0; 0; 0; 0; 0; 0]), []) (ring_clients 2 four_uses) (s, four_taken) pool
    ∧ queue_history four_uses four_taken.
Proof.
  destruct (schedule_reaches (rounds 60 4) ((ck_ring_init (2 ^ 2), [0; 0; 0; 0; 0; 0; 0; 0]), []) (ring_clients 2 four_uses)
    ((MkRing 4 4 4 4 3, [1; 2; 5; 6; 3; 4; 7; 8]), four_taken)) as [pool Hr]; [by vm_compute|].
  exists (MkRing 4 4 4 4 3, [1; 2; 5; 6; 3; 4; 7; 8]), pool. split; [exact Hr|].
  refine (proj1 (ring_mpmc_queue 2 2 _ _ _ _ _ _ _ _ _ _ Hr)); [lia | cbn; lia | cbn; lia | by repeat constructor | done].
Defined.

(** ** The sequence lock *)

(** C35 (safety). The sequence lock: while one thread writes [vs], one after the other and word by word, what any
    number of readers return are the words of one write, or those at the start, never of two writes; no
    access is out of bounds.  So that no version comes round, there are fewer than 2^31 writes. *)
Theorem sequence_snapshots (size : nat) (v0 : list Z) (vs : list (list Z)) (readers : nat) s tr pool :
  Forall (λ v, length v = size) (v0 :: vs) → Z.of_nat (length vs) < 2147483648 →
  reaches ((MkSequence 0, v0), []) (writer vs :: replicate readers (reader size)) (s, tr) pool →
  Forall (λ d, d ∈ v0 :: vs) tr ∧ ¬ pool_faults ((s, tr), pool).
Proof. apply snapshots_consistent. Qed.

(** A reader returns the words at the start; another begins, is overtaken by both writes, and tries again. *)
Lemma sequence_snapshots_witness :
  ∃ s pool, reaches ((MkSequence 0, [0; 0]), []) (writer [[1; 2]; [3; 4]] :: replicate 2 (reader 2))
      (s, [[0; 0]; [3; 4]]) pool ∧ Forall (λ d, d ∈ [[0; 0]; [1; 2]; [3; 4]]) [[0; 0]; [3; 4]].
Proof.
  destruct (schedule_reaches (replicate 6 1 ++ replicate 2 2 ++ rounds 14 1 ++ replicate 9 2)%nat ((MkSequence 0, [0; 0]), [])
    (writer [[1; 2]; [3; 4]] :: replicate 2 (reader 2)) ((MkSequence 4, [3; 4]), [[0; 0]; [3; 4]])) as [pool Hr];
    [by vm_compute|].
  exists (MkSequence 4, [3; 4]), pool. split; [exact Hr|].
  refine (proj1 (sequence_snapshots 2 _ _ _ _ _ _ _ _ Hr)); [by repeat constructor | cbn; lia].
Defined.

(** ** The stack *)

(** C34 (invariant). The stack under pushes and pops of one entry by any number of threads, which push again what
    they popped: an entry has one owner at a time, no thread pops what another owns, and no step is
    undefined.  The generation, which tells an entry that was popped and pushed again from one that stayed,
    must not come round: fewer than 2^64 pops. *)
Theorem stack_one_owner (threads : list stack_thread) (nx : ck_stack_entries) s tr ts :
  NoDup (concat threads.*1) → (∀ e, e ∈ concat threads.*1 → e ≠ NULL ∧ is_Some (nx !! e)) →
  Forall (λ x, UseBatchPop ∉ x.2) threads →
  Z.of_nat (total (λ x, pops_in x.2) threads) < 18446744073709551616 →
  reaches ((CK_STACK_INITIALIZER, nx), []) (stack_clients threads) (s, tr) ts →
  is_Some (owners (first_owners threads) tr) ∧ ¬ pool_faults ((s, tr), ts).
Proof. apply stack_owners_exclusive. Qed.

(** Two threads exchange their entries. *)
Definition two_stack_threads : list stack_thread :=
  [([16], [UsePush; UsePop; UsePush]); ([32], [UsePush; UseTryPop; UsePop])].
Definition two_exchanged : list stack_mark := [Give 0 16; Give 1 32; Get 0 32; Give 0 32; Get 1 16].

Lemma stack_one_owner_witness :
  ∃ s ts, reaches ((CK_STACK_INITIALIZER, {[16 := 0; 32 := 0]}), []) (stack_clients two_stack_threads)
      (s, two_exchanged) ts ∧ is_Some (owners (first_owners two_stack_threads) two_exchanged).
Proof.
  destruct (schedule_reaches (rounds 40 2) ((CK_STACK_INITIALIZER, {[16 := 0; 32 := 0]}), [])
    (stack_clients two_stack_threads) ((MkStack 32 2, {[16 := 0; 32 := 0]}), two_exchanged)) as [ts Hr];
    [by vm_compute|].
  exists (MkStack 32 2, {[16 := 0; 32 := 0]}), ts. split; [exact Hr|].
  refine (proj1 (stack_one_owner _ _ _ _ _ _ _ _ _ Hr)).
  - apply (bool_decide_unpack _). by vm_compute.
  - intros e [->|[->|[]%not_elem_of_nil]%elem_of_cons]%elem_of_cons; (split; [done|]); by eexists.
  - apply (bool_decide_unpack _). by vm_compute.
  - by vm_compute.
Defined.

(** Thread 1 pushes two entries, takes both with [ck_stack_batch_pop_mpmc] and pushes the one on top again;
    thread 0 pops twice. *)
Definition batch_threads : list stack_thread := [([], [UsePop; UsePop]); ([16; 32], [UsePush; UsePush; UseBatchPop; UsePush])].

(** [ck_stack_batch_pop_mpmc] does not count the generation, so a pop that has read the stack before it
    and compares after the entry on top was pushed again finds nothing changed: it pops the entry and makes
    the one that was below it the head, although the thread that took both still owns it.  The next pop
    gets an entry that another thread owns. *)
Theorem stack_batch_pop_two_owners :
  ∃ s tr ts,
    reaches ((CK_STACK_INITIALIZER, {[16 := 0; 32 := 0]}), []) (stack_clients batch_threads) (s, tr ++ [Get 0 16]) ts ∧
    (owners (first_owners batch_threads) tr = Some {[32 := 0%nat; 16 := 1%nat]}) ∧
    owners (first_owners batch_threads) (tr ++ [Get 0 16]) = None.
Proof.
  destruct (schedule_reaches (replicate 8 1 ++ replicate 3 0 ++ replicate 11 1 ++ replicate 10 0)%nat
    ((CK_STACK_INITIALIZER, {[16 := 0; 32 := 0]}), []) (stack_clients batch_threads)
    ((MkStack 0 2, {[16 := 0; 32 := 0]}),
     [Give 1 16; Give 1 32; Get 1 32; Get 1 16; Give 1 32; Get 0 32] ++ [Get 0 16])) as [ts Hr]; [by vm_compute|].
  eexists _, _, ts. split; [exact Hr|]. by split; vm_compute.
Qed.

(** * The properties of the queue locks of Concurrency Kit. *)

(** C27 (safety). The queue locks of mcs.h, clh.h, anderson.h and hclh.h exclude: with any number of threads, each with a
    node of its own, for anderson.h as many as there are slots and whether that is a power of two or not,
    which take the lock, ask whether it is taken or, for mcs.h, try to take it, in any order and with any
    interleaving of their steps, no two threads are in a critical section at the same time, and no thread
    follows a pointer that is not that of a node.  Nodes are used again at once, and under clh.h and hclh.h
    exchanged among the threads; the counter of anderson.h wraps; under hclh.h the threads are divided into clusters in any
    way, and their nodes may hold anything at first. *)
Theorem queue_lock_exclusion (uses : list (list use)) (max : nat) :
  (length uses ≤ max)%nat →
  (∀ s tr ts, reaches (@spin_init _ (mcs_spinlock max), []) (@clients _ (mcs_spinlock max) uses) (s, tr) ts →
     exclusive tr ∧ ¬ pool_faults (s, tr, ts)) ∧
  (∀ s tr ts, reaches (@spin_init _ (clh_spinlock max), []) (@clients _ (clh_spinlock max) uses) (s, tr) ts →
     exclusive tr ∧ ¬ pool_faults (s, tr, ts)) ∧
  (∀ s tr ts, 0 < Z.of_nat max < 4294967296 →
     reaches (anderson_first max, []) (@clients _ (anderson_spinlock max) uses) (s, tr) ts →
     exclusive tr ∧ ¬ pool_faults (s, tr, ts)) ∧
  (∀ co clusters nodes s tr ts, length nodes = max → (∀ i, (i < max)%nat → (co i < clusters)%nat) →
     reaches (hclh_first clusters nodes, []) (@clients _ (hclh_spinlock co clusters nodes) uses) (s, tr) ts →
     exclusive tr ∧ ¬ pool_faults (s, tr, ts)).
Proof.
  intros Hlen. split_and!; [intros s tr ts|intros s tr ts|intros s tr ts Hmax|intros co clusters nodes s tr ts <- Hco].
  - by apply (@spinlock_exclusive _ _ (mcs_spinlock max) (mcs_laws max)).
  - by apply (@spinlock_exclusive _ _ (clh_spinlock max) (clh_laws max)).
  - by apply (@spinlock_exclusive _ _ (anderson_spinlock max) (anderson_laws max Hmax)).
  - by apply (@spinlock_exclusive _ _ (hclh_spinlock co clusters nodes) (hclh_laws co clusters nodes Hco)).
Qed.

(** Three threads; the last leaves and takes the lock again. *)
Definition queue_uses : list (list use) := [[UseLock]; [UseLocked; UseLock]; [UseLock; UseLock]].
Definition queue_turns : list mark :=
  [Enter 0; Leave 0; Enter 2; Leave 2; Enter 1; Leave 1; Enter 2; Leave 2]%nat.

(** Four threads in two clusters: those of a cluster hand the lock on before those of the other have it. *)
Definition any_nodes : list ck_spinlock_hclh := replicate 4 (MkHclh 7 7 7 7).
Definition hclh_uses : list (list use) := [[UseLock; UseLock]; [UseLocked; UseLock]; [UseLock; UseLock]; [UseLock; UseLocked]].
Definition hclh_turns : list mark :=
  [Enter 0; Leave 0; Enter 2; Leave 2; Enter 3; Leave 3; Enter 1; Leave 1; Enter 0; Leave 0; Enter 2; Leave 2]%nat.

Lemma queue_lock_exclusion_witness :
  (∃ s ts, reaches (@spin_init _ (mcs_spinlock 3), []) (@clients _ (mcs_spinlock 3) queue_uses) (s, queue_turns) ts
     ∧ exclusive queue_turns) ∧
  (∃ s ts, reaches (@spin_init _ (clh_spinlock 3), []) (@clients _ (clh_spinlock 3) queue_uses) (s, queue_turns) ts
     ∧ exclusive queue_turns) ∧
  (∃ s ts, reaches (anderson_first 3, []) (@clients _ (anderson_spinlock 3) queue_uses) (s, queue_turns) ts
     ∧ exclusive queue_turns) ∧
  (∃ s ts, reaches (hclh_first 2 any_nodes, []) (@clients _ (hclh_spinlock even_and_odd 2 any_nodes) hclh_uses) (s, hclh_turns) ts
     ∧ exclusive hclh_turns).
Proof.
  destruct (queue_lock_exclusion queue_uses 3 ltac:(cbn; lia)) as (Hm & Hc & Ha & _).
  destruct (queue_lock_exclusion hclh_uses 4 ltac:(cbn; lia)) as (_ & _ & _ & Hh). split_and!.
  - destruct (schedule_reaches (rounds 60 3) (@spin_init _ (mcs_spinlock 3), []) (@clients _ (mcs_spinlock 3) queue_uses)
      (MkMcsLock 0 (<[2 := MkMcs 0 3]> {[1 := MkMcs 1 3; 3 := MkMcs 0 0]}), queue_turns)) as [ts Hr]; [by vm_compute|].
    eexists _, ts. split; [exact Hr|]. exact (proj1 (Hm _ _ _ Hr)).
  - destruct (schedule_reaches (rounds 60 3) (@spin_init _ (clh_spinlock 3), []) (@clients _ (clh_spinlock 3) queue_uses)
      (MkClhLock 1 {[1 := MkClh 0 2; 2 := MkClh 0 3; 3 := MkClh 0 1; 4 := MkClh 0 0]} [4; 3; 2], queue_turns)) as [ts Hr];
      [by vm_compute|].
    eexists _, ts. split; [exact Hr|]. exact (proj1 (Hc _ _ _ Hr)).
  - destruct (schedule_reaches (rounds 60 3) (anderson_first 3, []) (@clients _ (anderson_spinlock 3) queue_uses)
      (MkAndersonLock (MkAnderson 3 1 2 4) [MkSlot 1 0; MkSlot 0 1; MkSlot 1 2] [0; 2; 0], queue_turns)) as [ts Hr];
      [by vm_compute|].
    eexists _, ts. split; [exact Hr|]. refine (proj1 (Ha _ _ _ _ Hr)). lia.
  - destruct (schedule_logs (rounds 100 4) (hclh_first 2 any_nodes) [] (@clients _ (hclh_spinlock even_and_odd 2 any_nodes) hclh_uses)
      hclh_turns) as (s & ts & Hr); [by vm_compute|].
    exists s, ts. split; [exact Hr|]. refine (proj1 (Hh even_and_odd 2%nat any_nodes _ _ _ eq_refl _ Hr)).
    intros i _. unfold even_and_odd. pose proof (Nat.mod_upper_bound i 2). lia.
Defined.

(** A thread that takes the lock of three slots, and leaves. *)
Definition anderson_alone (i : nat) : prog anderson_lock unit :=
  @spin_lock _ (anderson_spinlock 3) _ loc_whole i;; @spin_unlock _ (anderson_spinlock 3) _ loc_whole i.

(** [ck_spinlock_anderson_locked] finds the slot of the next ticket with the mask, which is not the remainder when
    the number of slots is not a power of two: of a lock of three slots that was taken once and left it says
    that it is taken, although a thread that wants it does not wait. *)
Lemma anderson_locked_free_lock :
  ∃ x x', solo 20 (anderson_alone 0) (anderson_first 3) = Ret (tt, x)
    ∧ solo 4 (@spin_locked _ (anderson_spinlock 3) _ loc_whole 1) x = Ret (true, x)
    ∧ solo 20 (anderson_alone 1) x = Ret (tt, x').
Proof. eexists _, _. split; [vm_compute; reflexivity|]. split; vm_compute; reflexivity. Qed.

(** * What the queue of linked entries promises to any number of threads, and what is lost when an entry is put again. *)

(** The memory after [ck_fifo_mpmc_init], with the entries [ents] at hand. *)
Definition fifo_start (stub : Z) (ents : gmap Z ck_fifo_mpmc_entry) : outcome (unit * fifo_memory) :=
  solo 7 (ck_fifo_mpmc_init the_fifo the_fentries stub)
    (MkMpmc (MkPointer 0 0) (MkPointer 0 0), ents, []).

Lemma fifo_start_spec stub ents e :
  stub ≠ 0 → ents !! stub = Some e →
  fifo_start stub ents =
    Ret (tt, (MkMpmc (MkPointer stub 0) (MkPointer stub 0), <[stub := MkMpmcEntry (me_value e) (MkPointer 0 0)]> ents, [])).
Proof.
  intros Hs He. unfold fifo_start, ck_fifo_mpmc_init, store_next_member.
  cbn. rewrite (deref_lookup _ _ e) by done. cbn.
  rewrite (deref_lookup _ _ (MkMpmcEntry (me_value e) (MkPointer 0 (generation (me_next e))))) by (done || by rewrite lookup_insert_eq).
  cbn. by rewrite insert_insert_eq.
Qed.

(** Whatever the interleaving, there is a queue of what was put, from which what was taken comes; when all threads
    are done, the rest is linked at the head. *)
Lemma fifo_history_of stub ents uses m f ents' tr pool :
  stub ≠ 0 → is_Some (ents !! stub) → fresh_entries ents stub uses →
  fifo_start stub ents = Ret (tt, m) → reaches m (fifo_clients uses) (f, ents', tr) pool →
  (∃ q tk, fifo_queue uses tr q tk ∧
     (forallb ended pool = true → fifo_rest f ents' q tk ∧
        ∀ i, (i < length uses)%nat → of_thread i (put_log tr) = of_thread i q))
  ∧ ¬ pool_faults ((f, ents', tr), pool).
Proof.
  intros Hs [e He] Hfr Hm Hr. rewrite (fifo_start_spec _ _ _ Hs He) in Hm. injection Hm as <-.
  edestruct (wp_reaches (fifo_inv uses) (λ _ _, at_rest [])) with (ls := fifo_parties uses)
    as (ls & Hlen & Hlen' & HI & Hw); [| | | exact Hr|].
  - unfold fifo_clients, fifo_parties. by rewrite length_imap, length_fmap.
  - apply (inv_init uses stub); [|done| |done|done].
    + destruct Hfr as [? Hf]. split; [done|]. eapply Forall_impl; [exact Hf|]. cbn. intros x (? & ? & Hx).
      split; [done|]. split; [done|]. rewrite lookup_insert_is_Some. destruct (decide (stub = x)); auto.
    + by rewrite lookup_insert_eq.
  - intros i t p n Ht Hp. unfold fifo_clients, fifo_parties in *. rewrite list_lookup_imap in Ht.
    rewrite list_lookup_fmap in Hp. destruct (uses !! i) as [us|] eqn:Hu; [|done].
    injection Ht as <-. injection Hp as <-. apply fifo_client_wp; [apply Hfr|]. by apply rests.
  - unfold fifo_parties in Hlen. rewrite length_fmap in Hlen. split; [|by apply (wp_no_fault (fifo_inv uses) (λ _ _, at_rest []) _ _ ls)].
    destruct HI as (h & Hst & Hls). cbn in Hst, Hls. exists (fh_q h), (fh_k h).
    split; [by eapply inv_queue|]. intros Hend. eapply inv_rest; [exact Hlen|done|].
    intros i p Hp. split; [by apply Hls|]. destruct (lookup_lt_is_Some_2 pool i) as [t Ht].
    { rewrite Hlen'. by eapply lookup_lt_Some. }
    destruct (wp_ended _ _ _ _ _ _ (Hw i t p Ht Hp)) as (_ & se & a & Ha & ->); [|done].
    rewrite forallb_forall in Hend. apply Hend, list_elem_of_In. by eapply list_elem_of_lookup_2.
Qed.

(** ** The queue *)

(** C23 (refinement). Any number of threads that put and take with the four operations of ck_fifo_mpmc, where no
    entry is put twice: there is one queue, in which what each thread was told that it put is in its order, and
    all that was taken comes from it, each value once and for each thread in the order of the queue; no
    step is undefined.  When all threads are done, the values that were not taken are linked at the head, in the
    order of the queue: nothing is lost. *)
Theorem fifo_mpmc_queue (stub : Z) (ents : gmap Z ck_fifo_mpmc_entry) (uses : list (list fifo_use)) m f ents' tr pool :
  stub ≠ 0 → is_Some (ents !! stub) → fresh_entries ents stub uses →
  fifo_start stub ents = Ret (tt, m) → reaches m (fifo_clients uses) (f, ents', tr) pool →
  (∃ q tk, fifo_queue uses tr q tk ∧
     (forallb ended pool = true → fifo_rest f ents' q tk ∧
        ∀ i, (i < length uses)%nat → of_thread i (put_log tr) = of_thread i q))
  ∧ ¬ pool_faults ((f, ents', tr), pool).
Proof. apply fifo_history_of. Qed.

(** Entries that hold nothing. *)
Definition spare_entries (es : list Z) : gmap Z ck_fifo_mpmc_entry :=
  list_to_map ((λ e, (e, MkMpmcEntry 0 (MkPointer 0 0))) <$> es).

Definition three_fifo_threads : list (list fifo_use) :=
  [[FifoPut 32 1; FifoPut 48 2]; [FifoTryPut 64 3; FifoTake]; [FifoTryPut 80 4; FifoTryTake]].

Definition five_entries : gmap Z ck_fifo_mpmc_entry := spare_entries [16; 32; 48; 64; 80].

(** The memory with the stub 16. *)
Definition fifo_begin : fifo_memory := (MkMpmc (MkPointer 16 0) (MkPointer 16 0), five_entries, []).

Definition fifo_ran (sch : list nat) (uses : list (list fifo_use)) : fifo_memory * list (prog fifo_memory unit) :=
  schedule sch (fifo_begin, fifo_clients uses).

(** What a run has, for some entries in the memory. *)
Lemma fifo_ran_reaches sch uses f tr :
  (fifo_ran sch uses).1.1.1 = f → (fifo_ran sch uses).1.2 = tr →
  reaches fifo_begin (fifo_clients uses) (f, (fifo_ran sch uses).1.1.2, tr) (fifo_ran sch uses).2.
Proof. intros <- <-. rewrite <- !surjective_pairing. apply schedule_sound. Qed.

Definition three_sch : list nat := replicate 22 0%nat ++ rounds 60 3.
Definition three_log : list fifo_mark := [FPut 0 1; FPut 0 2; FPut 1 3; FTook 2 1; FTook 1 2].

Lemma three_fresh : fresh_entries five_entries 16 three_fifo_threads.
Proof. split; apply (bool_decide_unpack _); by vm_compute. Qed.

Lemma fifo_mpmc_queue_witness :
  ∃ f ents pool, reaches fifo_begin (fifo_clients three_fifo_threads) (f, ents, three_log) pool ∧
    ∃ q tk, fifo_queue three_fifo_threads three_log q tk ∧ fifo_rest f ents q tk.
Proof.
  pose proof (fifo_ran_reaches three_sch three_fifo_threads _ three_log eq_refl ltac:(by vm_compute)) as Hr.
  eexists _, _, _. split; [exact Hr|].
  destruct (fifo_mpmc_queue 16 five_entries three_fifo_threads fifo_begin _ _ _ _ ltac:(done)
    ltac:(by eexists) three_fresh
    ltac:(by vm_compute) Hr) as [(q & tk & Hq & Hend) _].
  exists q, tk. split; [exact Hq|]. apply Hend. by vm_compute.
Defined.

(** ** Entries that are put again *)

(** A thread takes a value, and puts [v] with the entry that it got back, trying until it has. *)
Definition put_again (i : nat) (v : Z) : prog fifo_memory unit :=
  r ← ck_fifo_mpmc_dequeue the_fifo the_fentries;
  match r with
  | None => fifo_log (FEmpty i)
  | Some (x, garbage) =>
      fifo_log (FTook i x);;
      while (b ← ck_fifo_mpmc_tryenqueue the_fifo the_fentries garbage v; mret (negb b)) (mret tt);;
      fifo_log (FPut i v)
  end.

(** Thread 0 puts; thread 1 puts, and then takes and puts again; thread 2 puts; thread 3 takes three times. *)
Definition reusing_threads : list (prog fifo_memory unit) :=
  [fifo_client 0 [FifoPut 32 1]; (fifo_client 1 [FifoPut 48 2];; put_again 1 3); fifo_client 2 [FifoPut 64 4];
   fifo_client 3 [FifoTake; FifoTake; FifoTake]].

(** Thread 0 has read the stub as the tail, and what is behind it; thread 1 tries to put the stub again, and has
    stored into it; thread 0 goes on; thread 1 has read the generation of the tail when thread 2 puts. *)
Definition losing_sch : list nat :=
  replicate 8 0%nat ++ replicate 23 1%nat ++ replicate 3 0%nat ++ [1%nat] ++ replicate 11 2%nat
  ++ replicate 20 1%nat ++ replicate 40 3%nat.

(** C36 (error). An entry that [ck_fifo_mpmc_dequeue] gives back as garbage may be put again, and the generation of
    its [next] is there to tell a thread that read it before that it was.  But [ck_fifo_mpmc_enqueue] and
    [ck_fifo_mpmc_tryenqueue] store 0 there: a thread that read it as the tail when it was first put links its own
    entry behind it while the other thread still prepares it, and when that thread has to try again, it stores
    [NULL] over the link.  The threads use the queue as they may, in every run: each puts an entry that no other
    thread has, and puts again only the one that it just got back, once.  In this run the put of 1 was reported, all
    threads are done, the queue is empty, and what was taken is all the other values, each once. *)
Theorem fifo_mpmc_reuse_loses_value :
  ∃ f ents tr pool, reaches fifo_begin reusing_threads (f, ents, tr) pool ∧
    forallb ended pool = true ∧ put_log tr ≡ₚ [(0%nat, 1); (1%nat, 2); (1%nat, 3); (2%nat, 4)] ∧ (took_log tr).*2 ≡ₚ [2; 3; 4] ∧
    mf_head f = mf_tail f ∧ ((λ e, pointer (me_next e)) <$> ents !! pointer (mf_head f)) = Some 0.
Proof.
  set (r := schedule losing_sch (fifo_begin, reusing_threads)).
  exists r.1.1.1, r.1.1.2, r.1.2, r.2. split; [rewrite <- !surjective_pairing; apply schedule_sound|].
  split; [by vm_compute|]. split; [apply (bool_decide_unpack _); by vm_compute|].
  split; [apply (bool_decide_unpack _); by vm_compute|]. by split; vm_compute.
Qed.
