(* ===== verification/CkQueue.v ===== *)
(** CkQueue: the linked lists of Concurrency Kit, include/aerospike/ck/ck_queue.h: singly linked lists, tail queues and
    doubly linked lists.

    The memory has a map per member of the structs: the members of the heads, and those of the elements, which are
    the ones the macros reach through the name of a field.  A [struct type **] is the address of the first pointer
    of a head, or of the next pointer of an element.  CK_SLIST_REMOVE_PREVPTR and CK_STAILQ_SWAP are left
    out: the one names a variable that is not its parameter, the other assigns to what [ck_pr_load_ptr] returns. *)

From Stdlib Require Import ZArith Lia.
From stdpp Require Import base list gmap.
From S2P Require Import Prelude Concurrent CkPr.

#[local] Open Scope Z_scope.
#[local] Set Warnings "-clear-no-such-hyp".

(** [struct type **]. *)
Inductive cq_ref : Type := RefHead (h : Z) | RefNext (e : Z).

(** The members [cslh_first], [cstqh_first] or [clh_first] and [cstqh_last] of the heads, and [csle_next],
    [cstqe_next] or [cle_next] and [cle_prev] of the elements.
    [src: include/aerospike/ck/ck_queue.h 126-137 CK_SLIST_HEAD] *)
Record cq_memory : Type := MkCq { cq_first : gmap Z Z; cq_last : gmap Z cq_ref; cq_next : gmap Z Z; cq_prev : gmap Z cq_ref }.
Definition cq_first_loc : loc cq_memory (gmap Z Z) := MkLoc cq_first (λ v m, MkCq v (cq_last m) (cq_next m) (cq_prev m)).
Definition cq_last_loc : loc cq_memory (gmap Z cq_ref) := MkLoc cq_last (λ v m, MkCq (cq_first m) v (cq_next m) (cq_prev m)).
Definition cq_next_loc : loc cq_memory (gmap Z Z) := MkLoc cq_next (λ v m, MkCq (cq_first m) (cq_last m) v (cq_prev m)).
Definition cq_prev_loc : loc cq_memory (gmap Z cq_ref) := MkLoc cq_prev (λ v m, MkCq (cq_first m) (cq_last m) (cq_next m) v).

Section macros.
Context {S : Type} (mem : loc S cq_memory).
Abbreviation first := (mem →' cq_first_loc).
Abbreviation last := (mem →' cq_last_loc).
Abbreviation next := (mem →' cq_next_loc).
Abbreviation prev := (mem →' cq_prev_loc).

(** [p->m], [p->m = v], and [*r = v]. *)
Definition get {A} (m : loc S (gmap Z A)) (p : Z) : prog S A := load_member m p id.
Definition put {A} (m : loc S (gmap Z A)) (p : Z) (v : A) : prog S unit := store_member m p (λ _, v).
Definition put_ref (r : cq_ref) (v : Z) : prog S unit :=
  match r with RefHead h => put first h v | RefNext e => put next e v end.
Definition get_ref (r : cq_ref) : prog S Z :=
  match r with RefHead h => get first h | RefNext e => get next e end.

(** [for (; var; var = var->next) body].
    [src: include/aerospike/ck/ck_queue.h 151-154 CK_SLIST_FOREACH] *)
Definition foreach (body : Z → prog S unit) : Z → prog S unit :=
  loop (λ var,
    if var =? 0 then mret (inr tt)
    else body var;; var ← get next var; mret (inl var)).

(** [for (; var && (tvar = var->next, 1); var = tvar) body].
    [src: include/aerospike/ck/ck_queue.h 156-159 CK_SLIST_FOREACH_SAFE] *)
Definition foreach_safe (body : Z → prog S unit) : Z → prog S unit :=
  loop (λ var,
    if var =? 0 then mret (inr tt)
    else tvar ← get next var; body var;; mret (inl tvar)).

(** *** Singly linked lists *)

(** [src: include/aerospike/ck/ck_queue.h 142-143 CK_SLIST_EMPTY] *)
Definition CK_SLIST_EMPTY (head : Z) : prog S bool := p ← get first head; mret (p =? 0).

(** [src: include/aerospike/ck/ck_queue.h 145-146 CK_SLIST_FIRST] *)
Definition CK_SLIST_FIRST (head : Z) : prog S Z := get first head.

(** [src: include/aerospike/ck/ck_queue.h 148-149 CK_SLIST_NEXT] *)
Definition CK_SLIST_NEXT (elm : Z) : prog S Z := get next elm.

(** [src: include/aerospike/ck/ck_queue.h 151-154 CK_SLIST_FOREACH] *)
Definition CK_SLIST_FOREACH (head : Z) (body : Z → prog S unit) : prog S unit :=
  var ← CK_SLIST_FIRST head; foreach body var.

(** [src: include/aerospike/ck/ck_queue.h 156-159 CK_SLIST_FOREACH_SAFE] *)
Definition CK_SLIST_FOREACH_SAFE (head : Z) (body : Z → prog S unit) : prog S unit :=
  var ← CK_SLIST_FIRST head; foreach_safe body var.

(** [src: include/aerospike/ck/ck_queue.h 161-164 CK_SLIST_FOREACH_PREVPTR] *)
Definition CK_SLIST_FOREACH_PREVPTR (head : Z) (body : Z → cq_ref → prog S unit) : prog S unit :=
  loop (λ varp,
    var ← get_ref varp;
    if var =? 0 then mret (inr tt)
    else body var varp;; mret (inl (RefNext var))) (RefHead head).

(** [src: include/aerospike/ck/ck_queue.h 166-169 CK_SLIST_INIT] *)
Definition CK_SLIST_INIT (head : Z) : prog S unit := put first head 0.

(** [src: include/aerospike/ck/ck_queue.h 171-175 CK_SLIST_INSERT_AFTER] *)
Definition CK_SLIST_INSERT_AFTER (a b : Z) : prog S unit :=
  n ← get next a; put next b n;;
  put next a b.

(** [src: include/aerospike/ck/ck_queue.h 177-181 CK_SLIST_INSERT_HEAD] *)
Definition CK_SLIST_INSERT_HEAD (head elm : Z) : prog S unit :=
  f ← get first head; put next elm f;;
  put first head elm.

(** [src: include/aerospike/ck/ck_queue.h 183-187 CK_SLIST_INSERT_PREVPTR] *)
Definition CK_SLIST_INSERT_PREVPTR (prevp : cq_ref) (slistelm elm : Z) : prog S unit :=
  put next elm slistelm;;
  put_ref prevp elm.

(** [src: include/aerospike/ck/ck_queue.h 189-192 CK_SLIST_REMOVE_AFTER] *)
Definition CK_SLIST_REMOVE_AFTER (elm : Z) : prog S unit :=
  x ← get next elm; n ← get next x;
  put next elm n.

(** [src: include/aerospike/ck/ck_queue.h 205-208 CK_SLIST_REMOVE_HEAD] *)
Definition CK_SLIST_REMOVE_HEAD (head : Z) : prog S unit :=
  f ← get first head; n ← get next f;
  put first head n.

(** [while (curelm->next != elm) curelm = curelm->next].
    [src: include/aerospike/ck/ck_queue.h 199-200 CK_SLIST_REMOVE] *)
Definition find_before (elm : Z) : Z → prog S Z :=
  loop (λ curelm,
    n ← get next curelm;
    if n =? elm then mret (inr curelm)
    else n ← get next curelm; mret (inl n)).

(** [src: include/aerospike/ck/ck_queue.h 194-203 CK_SLIST_REMOVE] *)
Definition CK_SLIST_REMOVE (head elm : Z) : prog S unit :=
  f ← get first head;
  if f =? elm then CK_SLIST_REMOVE_HEAD head
  else
    f ← get first head;
    curelm ← find_before elm f;
    CK_SLIST_REMOVE_AFTER curelm.

(** [src: include/aerospike/ck/ck_queue.h 214-216 CK_SLIST_MOVE] *)
Definition CK_SLIST_MOVE (head1 head2 : Z) : prog S unit := f ← get first head2; put first head1 f.

(** [src: include/aerospike/ck/ck_queue.h 221-225 CK_SLIST_SWAP] *)
Definition CK_SLIST_SWAP (a b : Z) : prog S unit :=
  swap_first ← get first a;
  f ← get first b; put first a f;;
  put first b swap_first.

(** *** Tail queues *)

(** [src: include/aerospike/ck/ck_queue.h 256-256 CK_STAILQ_EMPTY] *)
Definition CK_STAILQ_EMPTY (head : Z) : prog S bool := p ← get first head; mret (p =? 0).

(** [src: include/aerospike/ck/ck_queue.h 258-258 CK_STAILQ_FIRST] *)
Definition CK_STAILQ_FIRST (head : Z) : prog S Z := get first head.

(** [src: include/aerospike/ck/ck_queue.h 300-301 CK_STAILQ_NEXT] *)
Definition CK_STAILQ_NEXT (elm : Z) : prog S Z := get next elm.

(** [src: include/aerospike/ck/ck_queue.h 260-263 CK_STAILQ_FOREACH] *)
Definition CK_STAILQ_FOREACH (head : Z) (body : Z → prog S unit) : prog S unit :=
  var ← CK_STAILQ_FIRST head; foreach body var.

(** [src: include/aerospike/ck/ck_queue.h 265-269 CK_STAILQ_FOREACH_SAFE] *)
Definition CK_STAILQ_FOREACH_SAFE (head : Z) (body : Z → prog S unit) : prog S unit :=
  var ← CK_STAILQ_FIRST head; foreach_safe body var.

(** [src: include/aerospike/ck/ck_queue.h 271-275 CK_STAILQ_INIT] *)
Definition CK_STAILQ_INIT (head : Z) : prog S unit := put first head 0;; put last head (RefHead head).

(** [src: include/aerospike/ck/ck_queue.h 247-254 CK_STAILQ_CONCAT] *)
Definition CK_STAILQ_CONCAT (head1 head2 : Z) : prog S unit :=
  f ← get first head2;
  if negb (f =? 0) then
    r ← get last head1; f ← get first head2; put_ref r f;;
    r ← get last head2; put last head1 r;;
    CK_STAILQ_INIT head2
  else mret tt.

(** [if (elm->next == NULL) head->last = &elm->next].
    [src: include/aerospike/ck/ck_queue.h 281-282 CK_STAILQ_INSERT_AFTER] *)
Definition last_if_end (head elm : Z) : prog S unit :=
  n ← get next elm;
  if n =? 0 then put last head (RefNext elm) else mret tt.

(** [src: include/aerospike/ck/ck_queue.h 277-283 CK_STAILQ_INSERT_AFTER] *)
Definition CK_STAILQ_INSERT_AFTER (head tqelm elm : Z) : prog S unit :=
  n ← get next tqelm; put next elm n;;
  put next tqelm elm;;
  last_if_end head elm.

(** [src: include/aerospike/ck/ck_queue.h 285-291 CK_STAILQ_INSERT_HEAD] *)
Definition CK_STAILQ_INSERT_HEAD (head elm : Z) : prog S unit :=
  f ← get first head; put next elm f;;
  put first head elm;;
  last_if_end head elm.

(** [src: include/aerospike/ck/ck_queue.h 293-298 CK_STAILQ_INSERT_TAIL] *)
Definition CK_STAILQ_INSERT_TAIL (head elm : Z) : prog S unit :=
  put next elm 0;;
  r ← get last head; put_ref r elm;;
  put last head (RefNext elm).

(** [src: include/aerospike/ck/ck_queue.h 314-319 CK_STAILQ_REMOVE_AFTER] *)
Definition CK_STAILQ_REMOVE_AFTER (head elm : Z) : prog S unit :=
  x ← get next elm; n ← get next x;
  put next elm n;;
  last_if_end head elm.

(** [src: include/aerospike/ck/ck_queue.h 321-326 CK_STAILQ_REMOVE_HEAD] *)
Definition CK_STAILQ_REMOVE_HEAD (head : Z) : prog S unit :=
  f ← get first head; n ← get next f;
  put first head n;;
  f ← get first head;
  if f =? 0 then put last head (RefHead head) else mret tt.

(** [src: include/aerospike/ck/ck_queue.h 303-312 CK_STAILQ_REMOVE] *)
Definition CK_STAILQ_REMOVE (head elm : Z) : prog S unit :=
  f ← get first head;
  if f =? elm then CK_STAILQ_REMOVE_HEAD head
  else
    f ← get first head;
    curelm ← find_before elm f;
    CK_STAILQ_REMOVE_AFTER head curelm.

(** [head2->last == &head2->first], as addresses. *)
Definition is_ref_head (h : Z) (r : cq_ref) : bool := match r with RefHead h' => h' =? h | RefNext _ => false end.

(** [src: include/aerospike/ck/ck_queue.h 328-333 CK_STAILQ_MOVE] *)
Definition CK_STAILQ_MOVE (head1 head2 : Z) : prog S unit :=
  f ← get first head2; put first head1 f;;
  r ← get last head2; put last head1 r;;
  r ← get last head2;
  if is_ref_head head2 r then put last head1 (RefHead head1) else mret tt.

(** *** Doubly linked lists *)

(** [src: include/aerospike/ck/ck_queue.h 368-368 CK_LIST_FIRST] *)
Definition CK_LIST_FIRST (head : Z) : prog S Z := get first head.

(** [src: include/aerospike/ck/ck_queue.h 369-369 CK_LIST_EMPTY] *)
Definition CK_LIST_EMPTY (head : Z) : prog S bool := p ← CK_LIST_FIRST head; mret (p =? 0).

(** [src: include/aerospike/ck/ck_queue.h 370-370 CK_LIST_NEXT] *)
Definition CK_LIST_NEXT (elm : Z) : prog S Z := get next elm.

(** [src: include/aerospike/ck/ck_queue.h 372-375 CK_LIST_FOREACH] *)
Definition CK_LIST_FOREACH (head : Z) (body : Z → prog S unit) : prog S unit :=
  var ← CK_LIST_FIRST head; foreach body var.

(** [src: include/aerospike/ck/ck_queue.h 377-380 CK_LIST_FOREACH_SAFE] *)
Definition CK_LIST_FOREACH_SAFE (head : Z) (body : Z → prog S unit) : prog S unit :=
  var ← CK_LIST_FIRST head; foreach_safe body var.

(** [src: include/aerospike/ck/ck_queue.h 382-385 CK_LIST_INIT] *)
Definition CK_LIST_INIT (head : Z) : prog S unit := put first head 0.

(** [src: include/aerospike/ck/ck_queue.h 387-394 CK_LIST_INSERT_AFTER] *)
Definition CK_LIST_INSERT_AFTER (listelm elm : Z) : prog S unit :=
  n ← get next listelm; put next elm n;;
  put prev elm (RefNext listelm);;
  n ← get next listelm;
  (if negb (n =? 0) then n ← get next listelm; put prev n (RefNext elm) else mret tt);;
  put next listelm elm.

(** [src: include/aerospike/ck/ck_queue.h 396-402 CK_LIST_INSERT_BEFORE] *)
Definition CK_LIST_INSERT_BEFORE (listelm elm : Z) : prog S unit :=
  r ← get prev listelm; put prev elm r;;
  put next elm listelm;;
  r ← get prev listelm; put_ref r elm;;
  put prev listelm (RefNext elm).

(** [src: include/aerospike/ck/ck_queue.h 404-411 CK_LIST_INSERT_HEAD] *)
Definition CK_LIST_INSERT_HEAD (head elm : Z) : prog S unit :=
  f ← get first head; put next elm f;;
  n ← get next elm;
  (if negb (n =? 0) then f ← get first head; put prev f (RefNext elm) else mret tt);;
  put first head elm;;
  put prev elm (RefHead head).

(** [src: include/aerospike/ck/ck_queue.h 413-417 CK_LIST_REMOVE] *)
Definition CK_LIST_REMOVE (elm : Z) : prog S unit :=
  r ← get prev elm; n ← get next elm; put_ref r n;;
  n ← get next elm;
  if negb (n =? 0) then n ← get next elm; r ← get prev elm; put prev n r else mret tt.

(** [src: include/aerospike/ck/ck_queue.h 419-423 CK_LIST_MOVE] *)
Definition CK_LIST_MOVE (head1 head2 : Z) : prog S unit :=
  f ← get first head2; put first head1 f;;
  f ← get first head1;
  if negb (f =? 0) then f ← get first head1; put prev f (RefHead head1) else mret tt.

(** [src: include/aerospike/ck/ck_queue.h 428-436 CK_LIST_SWAP] *)
Definition CK_LIST_SWAP (head1 head2 : Z) : prog S unit :=
  swap_tmp ← get first head1;
  f ← get first head2; put first head1 f;;
  put first head2 swap_tmp;;
  swap_tmp ← get first head1;
  (if negb (swap_tmp =? 0) then put prev swap_tmp (RefHead head1) else mret tt);;
  swap_tmp ← get first head2;
  if negb (swap_tmp =? 0) then put prev swap_tmp (RefHead head2) else mret tt.
End macros.

(** ** The lists in the memory *)

(** The first of the elements, or else [q]. *)
Definition head_or (q : Z) (xs : list Z) : Z := match xs with [] => q | x :: _ => x end.

(** The address of the pointer after the elements, when that before them is [r]. *)
Fixpoint last_ref (r : cq_ref) (xs : list Z) : cq_ref := match xs with [] => r | x :: xs => last_ref (RefNext x) xs end.

(** Each element points to the one after it, the last to [q]. *)
Fixpoint seg (nx : gmap Z Z) (xs : list Z) (q : Z) : Prop :=
  match xs with [] => True | x :: xs => nx !! x = Some (head_or q xs) ∧ seg nx xs q end.

(** Each element has the address of the pointer to it, which is [r] for the first. *)
Fixpoint back_seg (pv : gmap Z cq_ref) (r : cq_ref) (xs : list Z) : Prop :=
  match xs with [] => True | x :: xs => pv !! x = Some r ∧ back_seg pv (RefNext x) xs end.

Lemma head_or_app q xs ys : head_or q (xs ++ ys) = head_or (head_or q ys) xs.
Proof. by destruct xs. Qed.

Lemma last_ref_app r xs ys : last_ref r (xs ++ ys) = last_ref (last_ref r xs) ys.
Proof. revert r. induction xs as [|x xs IH]; intros r; [done|]. cbn. apply IH. Qed.

Lemma seg_app nx xs ys q : seg nx (xs ++ ys) q ↔ seg nx xs (head_or q ys) ∧ seg nx ys q.
Proof. induction xs as [|x xs IH]; cbn; [tauto|]. rewrite IH, head_or_app. tauto. Qed.

Lemma seg_frame nx nx' xs q : (∀ x, x ∈ xs → nx' !! x = nx !! x) → seg nx xs q → seg nx' xs q.
Proof.
  induction xs as [|x xs IH]; cbn; [done|]. intros H [Hx Hxs]. rewrite H by set_solver. split; [done|]. apply IH; set_solver.
Qed.

Lemma back_seg_app pv r xs ys : back_seg pv r (xs ++ ys) ↔ back_seg pv r xs ∧ back_seg pv (last_ref r xs) ys.
Proof. revert r. induction xs as [|x xs IH]; intros r; cbn; [tauto|]. rewrite IH. tauto. Qed.

Lemma back_seg_frame pv pv' r xs : (∀ x, x ∈ xs → pv' !! x = pv !! x) → back_seg pv r xs → back_seg pv' r xs.
Proof.
  revert r. induction xs as [|x xs IH]; cbn; [done|]. intros r H [Hx Hxs]. rewrite H by set_solver. split; [done|].
  apply IH; set_solver.
Qed.

(** The three kinds: which members the structs have. *)
Inductive cq_kind : Type := Slist | Stailq | List.
Definition has_last (k : cq_kind) : bool := match k with Stailq => true | _ => false end.
Definition has_prev (k : cq_kind) : bool := match k with List => true | _ => false end.

Record list_at (k : cq_kind) (m : cq_memory) (h : Z) (xs : list Z) : Prop := {
  la_first : cq_first m !! h = Some (head_or 0 xs);
  la_seg : seg (cq_next m) xs 0;
  la_last : has_last k = true → cq_last m !! h = Some (last_ref (RefHead h) xs);
  la_prev : has_prev k = true → back_seg (cq_prev m) (RefHead h) xs
}.

(** The structs at the heads [hs] and the elements [es] are there. *)
Record cq_there (k : cq_kind) (m : cq_memory) (hs es : gset Z) : Prop := {
  ct_first h : h ∈ hs → h ≠ 0 ∧ is_Some (cq_first m !! h);
  ct_last h : has_last k = true → h ∈ hs → is_Some (cq_last m !! h);
  ct_next e : e ∈ es → e ≠ 0 ∧ is_Some (cq_next m !! e);
  ct_prev e : has_prev k = true → e ∈ es → is_Some (cq_prev m !! e)
}.

(** The lists of the heads in [L] have no element in common, and none twice. *)
Record cq_lists (k : cq_kind) (hs es : gset Z) (m : cq_memory) (L : gmap Z (list Z)) : Prop := {
  cl_there : cq_there k m hs es;
  cl_at h xs : L !! h = Some xs → h ∈ hs ∧ list_at k m h xs ∧ NoDup xs ∧ ∀ x, x ∈ xs → x ∈ es;
  cl_apart h h' xs ys x : L !! h = Some xs → L !! h' = Some ys → x ∈ xs → x ∈ ys → h = h'
}.

(** ** Running the macros *)

(** The lists in a memory with more beside them. *)
Definition the_lists {U} : loc (cq_memory * U) cq_memory := MkLoc fst (λ m s, (m, s.2)).

(** At most the heads [H] and the elements [X] are written; no struct goes. *)
Record changes (H X : gset Z) (m m' : cq_memory) : Prop := {
  ch_first p : p ∉ H → cq_first m' !! p = cq_first m !! p;
  ch_last p : p ∉ H → cq_last m' !! p = cq_last m !! p;
  ch_next p : p ∉ X → cq_next m' !! p = cq_next m !! p;
  ch_prev p : p ∉ X → cq_prev m' !! p = cq_prev m !! p;
  ch_first_there p : is_Some (cq_first m !! p) → is_Some (cq_first m' !! p);
  ch_last_there p : is_Some (cq_last m !! p) → is_Some (cq_last m' !! p);
  ch_next_there p : is_Some (cq_next m !! p) → is_Some (cq_next m' !! p);
  ch_prev_there p : is_Some (cq_prev m !! p) → is_Some (cq_prev m' !! p)
}.

Lemma changes_refl H X m : changes H X m m.
Proof. by split. Qed.

Lemma changes_trans H X m m' m'' : changes H X m m' → changes H X m' m'' → changes H X m m''.
Proof.
  intros [A1 A2 A3 A4 A5 A6 A7 A8] [B1 B2 B3 B4 B5 B6 B7 B8].
  split; intros p Hp; [by rewrite B1, A1|by rewrite B2, A2|by rewrite B3, A3|by rewrite B4, A4|auto..].
Qed.

(** The program ends, and does no more than that. *)
Definition does (H X : gset Z) {U A} (t : prog (cq_memory * U) A) (m : cq_memory) (Q : A → cq_memory → Prop) : Prop :=
  ∀ u, runs t (m, u) (λ a s', ∃ m', s' = (m', u) ∧ changes H X m m' ∧ Q a m').

Section does.
Context (H X : gset Z) {U : Type}.

Lemma does_ret A (a : A) m (Q : A → cq_memory → Prop) : Q a m → does H X (U := U) (mret a) m Q.
Proof. intros HQ u. apply runs_ret. exists m. split; [done|]. split; [apply changes_refl|done]. Qed.

Lemma does_bind A B (t : prog (cq_memory * U) A) (k : A → prog (cq_memory * U) B) m Q :
  does H X t m (λ a m', does H X (k a) m' Q) → does H X (t ≫= k) m Q.
Proof.
  intros Ht u. apply runs_bind. eapply runs_mono; [apply Ht|]. intros a s' (m' & -> & Hc & Hk).
  eapply runs_mono; [apply Hk|]. intros b s'' (m'' & -> & Hc' & HQ). exists m''. split; [done|]. split; [|done].
  by eapply changes_trans.
Qed.

Lemma does_mono A (t : prog (cq_memory * U) A) m (Q Q' : A → cq_memory → Prop) :
  does H X t m Q → (∀ a m', Q a m' → Q' a m') → does H X t m Q'.
Proof. intros Ht HQ u. eapply runs_mono; [apply Ht|]. intros a s' (m' & -> & Hc & Ha). exists m'. auto. Qed.

Lemma does_loop A B (body : A → prog (cq_memory * U) (A + B)) a m Q :
  does H X (body a) m (λ r m', match r with inl a' => does H X (loop body a') m' Q | inr b => Q b m' end) →
  does H X (loop body a) m Q.
Proof.
  intros Hb u. apply runs_loop. eapply runs_mono; [apply Hb|]. intros [a'|b] s' (m' & -> & Hc & Hk).
  - eapply runs_mono; [apply Hk|]. intros b s'' (m'' & -> & Hc' & HQ). exists m''. split; [done|]. split; [|done].
    by eapply changes_trans.
  - by exists m'.
Qed.

Lemma does_get {A} (f : loc cq_memory (gmap Z A)) p v m (Q : A → cq_memory → Prop) :
  p ≠ 0 → loc_get f m !! p = Some v → Q v m → does H X (get (the_lists (U := U) →' f) p) m Q.
Proof.
  intros Hp Hv HQ u. eapply runs_atomic.
  - cbn [loc_get loc_member the_lists fst]. rewrite (deref_lookup _ _ _ Hp Hv). reflexivity.
  - exists m. split; [done|]. split; [apply changes_refl|done].
Qed.

Lemma does_put {A} (f : loc cq_memory (gmap Z A)) p v v0 m (Q : unit → cq_memory → Prop) :
  p ≠ 0 → loc_get f m !! p = Some v0 → changes H X m (loc_set f (<[p := v]> (loc_get f m)) m) →
  Q tt (loc_set f (<[p := v]> (loc_get f m)) m) → does H X (put (the_lists (U := U) →' f) p v) m Q.
Proof.
  intros Hp Hv Hc HQ u. eapply runs_atomic.
  - cbn [loc_get loc_set loc_member the_lists fst snd]. rewrite (deref_lookup _ _ _ Hp Hv). reflexivity.
  - eexists. split; [reflexivity|]. split; [exact Hc|exact HQ].
Qed.
End does.

Lemma insert_there {A} (f : gmap Z A) p q v : is_Some (f !! q) → is_Some (<[p := v]> f !! q).
Proof. intros Hq. destruct (decide (p = q)) as [->|]; [by rewrite lookup_insert_eq|by rewrite lookup_insert_ne]. Qed.

Section does.
Context (H X : gset Z) {U : Type}.

Lemma does_put_first p v m (Q : unit → cq_memory → Prop) :
  p ≠ 0 → is_Some (cq_first m !! p) → p ∈ H → Q tt (loc_set cq_first_loc (<[p := v]> (cq_first m)) m) →
  does H X (put (the_lists (U := U) →' cq_first_loc) p v) m Q.
Proof.
  intros Hp [v0 Hv] Hh HQ. eapply does_put; [done|exact Hv| |exact HQ]. split; cbn; try done.
  - intros q Hq. by rewrite lookup_insert_ne by set_solver.
  - intros q. apply insert_there.
Qed.

Lemma does_put_last p v m (Q : unit → cq_memory → Prop) :
  p ≠ 0 → is_Some (cq_last m !! p) → p ∈ H → Q tt (loc_set cq_last_loc (<[p := v]> (cq_last m)) m) →
  does H X (put (the_lists (U := U) →' cq_last_loc) p v) m Q.
Proof.
  intros Hp [v0 Hv] Hh HQ. eapply does_put; [done|exact Hv| |exact HQ]. split; cbn; try done.
  - intros q Hq. by rewrite lookup_insert_ne by set_solver.
  - intros q. apply insert_there.
Qed.

Lemma does_put_next p v m (Q : unit → cq_memory → Prop) :
  p ≠ 0 → is_Some (cq_next m !! p) → p ∈ X → Q tt (loc_set cq_next_loc (<[p := v]> (cq_next m)) m) →
  does H X (put (the_lists (U := U) →' cq_next_loc) p v) m Q.
Proof.
  intros Hp [v0 Hv] Hh HQ. eapply does_put; [done|exact Hv| |exact HQ]. split; cbn; try done.
  - intros q Hq. by rewrite lookup_insert_ne by set_solver.
  - intros q. apply insert_there.
Qed.

Lemma does_put_prev p v m (Q : unit → cq_memory → Prop) :
  p ≠ 0 → is_Some (cq_prev m !! p) → p ∈ X → Q tt (loc_set cq_prev_loc (<[p := v]> (cq_prev m)) m) →
  does H X (put (the_lists (U := U) →' cq_prev_loc) p v) m Q.
Proof.
  intros Hp [v0 Hv] Hh HQ. eapply does_put; [done|exact Hv| |exact HQ]. split; cbn; try done.
  - intros q Hq. by rewrite lookup_insert_ne by set_solver.
  - intros q. apply insert_there.
Qed.
End does.

(** The cells of a memory that is written out. *)
Ltac cq_ne := solve [done | congruence | set_solver].
Ltac cq_maps := cbn; repeat first [rewrite lookup_insert_eq | rewrite lookup_insert_ne by cq_ne].
Ltac cq_there := cq_maps; first [eassumption | by eauto | done].
#[local] Ltac cq_in := cbn; set_solver.
#[local] Ltac cq_step :=
  first [ apply does_bind
        | apply does_ret
        | eapply does_get; [cq_ne | cq_there |]
        | apply does_put_first; [cq_ne | cq_there | cq_in |]
        | apply does_put_last; [cq_ne | cq_there | cq_in |]
        | apply does_put_next; [cq_ne | cq_there | cq_in |]
        | apply does_put_prev; [cq_ne | cq_there | cq_in |] ].
#[local] Ltac cq_frame :=
  first [ eapply seg_frame; [|eassumption] | eapply back_seg_frame; [|eassumption] ]; intros ? ?; by cq_maps.

(** The walk to the element before [x]. *)
Lemma find_before_does H X {U} m x l a r :
  seg (cq_next m) (l ++ a :: x :: r) 0 → x ∉ l ++ [a] → (∀ e, e ∈ l ++ [a] → e ≠ 0) →
  does H X (U := U) (find_before the_lists x (head_or a l)) m (λ c m', c = a ∧ m' = m).
Proof.
  induction l as [|c l IH]; cbn [app head_or]; intros Hs Hx H0; apply does_loop.
  - destruct Hs as [Ha _]. assert (a ≠ 0) by (apply H0; set_solver). repeat cq_step. cbn [head_or]. rewrite Z.eqb_refl.
    by cq_step.
  - destruct Hs as [Hc Hs]. assert (c ≠ 0) by (apply H0; set_solver).
    assert (head_or 0 (l ++ a :: x :: r) = head_or a l) as Eh by (by destruct l). rewrite Eh in Hc.
    assert (head_or a l ≠ x) as Hne by (intros <-; apply Hx; destruct l; set_solver).
    repeat cq_step. rewrite (proj2 (Z.eqb_neq _ _) Hne). repeat cq_step. apply IH; [done|set_solver|set_solver].
Qed.

(** Where an element is in a list. *)
Lemma list_split_last (l : list Z) : l = [] ∨ ∃ l' a, l = l' ++ [a].
Proof. destruct l as [|a l' _] using rev_ind; [by left|right; by exists l', a]. Qed.

Section slist.
Context (hs es : gset Z) (m : cq_memory) (Ht : cq_there Slist m hs es) {U : Type}.
Abbreviation mem := (the_lists (U := U)).

Lemma slist_insert_head h x xs :
  h ∈ hs → x ∈ es → list_at Slist m h xs → x ∉ xs →
  does {[h]} ({[x]} ∪ list_to_set xs) (CK_SLIST_INSERT_HEAD mem h x) m (λ _ m', list_at Slist m' h (x :: xs)).
Proof using Ht.
  intros Hh Hx [Hf Hs _ _] Hni. destruct (ct_first _ _ _ _ Ht h Hh) as [Hh0 _].
  destruct (ct_next _ _ _ _ Ht x Hx) as [Hx0 Hxn]. unfold CK_SLIST_INSERT_HEAD. repeat cq_step.
  split; cbn; try done; [by cq_maps|]. split; [by cq_maps|cq_frame].
Qed.

Lemma slist_insert_after h a x l r :
  x ∈ es → a ∈ es → list_at Slist m h (l ++ a :: r) → NoDup (l ++ a :: r) → x ∉ l ++ a :: r →
  does {[h]} ({[x]} ∪ list_to_set (l ++ a :: r)) (CK_SLIST_INSERT_AFTER mem a x) m
    (λ _ m', list_at Slist m' h (l ++ a :: x :: r)).
Proof using Ht.
  intros Hx Ha [Hf Hs _ _] (Hl & Hla & [Har Hr]%NoDup_cons)%NoDup_app Hni. apply seg_app in Hs as [Hsl [Hsa Hsr]].
  destruct (ct_next _ _ _ _ Ht x Hx) as [Hx0 Hxn]. destruct (ct_next _ _ _ _ Ht a Ha) as [Ha0 _].
  unfold CK_SLIST_INSERT_AFTER. repeat cq_step.
  split; cbn; try done; [by rewrite Hf, !head_or_app|].
  apply seg_app. split; [cq_frame|]. split; [by cq_maps|]. split; [by cq_maps|cq_frame].
Qed.

Lemma slist_remove_after h a x l r :
  a ∈ es → x ∈ es → list_at Slist m h (l ++ a :: x :: r) → NoDup (l ++ a :: x :: r) →
  does {[h]} (list_to_set (l ++ a :: x :: r)) (CK_SLIST_REMOVE_AFTER mem a) m (λ _ m', list_at Slist m' h (l ++ a :: r)).
Proof using Ht.
  intros Ha Hx [Hf Hs _ _] (Hl & Hla & [Har [Hxr Hr]%NoDup_cons]%NoDup_cons)%NoDup_app.
  apply seg_app in Hs as [Hsl [Hsa [Hsx Hsr]]]. cbn in Hsa.
  destruct (ct_next _ _ _ _ Ht x Hx) as [Hx0 _]. destruct (ct_next _ _ _ _ Ht a Ha) as [Ha0 _].
  unfold CK_SLIST_REMOVE_AFTER. repeat cq_step.
  split; cbn; try done; [by rewrite Hf, !head_or_app|].
  apply seg_app. split; [cq_frame|]. split; [by cq_maps|cq_frame].
Qed.

Lemma slist_remove_head h x xs :
  h ∈ hs → x ∈ es → list_at Slist m h (x :: xs) → NoDup (x :: xs) →
  does {[h]} (list_to_set (x :: xs)) (CK_SLIST_REMOVE_HEAD mem h) m (λ _ m', list_at Slist m' h xs).
Proof using Ht.
  intros Hh Hx [Hf Hs _ _] [Hni Hn]%NoDup_cons. destruct Hs as [Hsx Hs]. cbn in Hf.
  destruct (ct_first _ _ _ _ Ht h Hh) as [Hh0 _]. destruct (ct_next _ _ _ _ Ht x Hx) as [Hx0 _].
  unfold CK_SLIST_REMOVE_HEAD. repeat cq_step. split; cbn; try done. by cq_maps.
Qed.

Lemma slist_remove h x l r :
  h ∈ hs → (∀ y, y ∈ l ++ x :: r → y ∈ es) → list_at Slist m h (l ++ x :: r) → NoDup (l ++ x :: r) →
  does {[h]} (list_to_set (l ++ x :: r)) (CK_SLIST_REMOVE mem h x) m (λ _ m', list_at Slist m' h (l ++ r)).
Proof using Ht.
  intros Hh He Hl Hn. pose proof (la_first _ _ _ _ Hl) as Hf. destruct (ct_first _ _ _ _ Ht h Hh) as [Hh0 _].
  unfold CK_SLIST_REMOVE. cq_step. cq_step. destruct (list_split_last l) as [->|(l' & a & ->)].
  - cbn [app head_or]. rewrite Z.eqb_refl. apply slist_remove_head; [done|apply He; set_solver|done|done].
  - rewrite <- app_assoc in *. cbn [app] in *.
    assert (head_or 0 (l' ++ a :: x :: r) = head_or a l') as Eh by (by destruct l'). rewrite Eh.
    apply NoDup_app in Hn as Hn'. destruct Hn' as (_ & Hla & [Hax _]%NoDup_cons).
    assert (head_or a l' ≠ x) as Hne by (intros <-; destruct l'; set_solver).
    rewrite (proj2 (Z.eqb_neq _ _) Hne). cq_step. cq_step. rewrite Eh. cq_step.
    eapply does_mono; [apply (find_before_does _ _ m x l' a r)|].
    + by apply la_seg in Hl.
    + set_solver.
    + intros e Hin. apply (ct_next _ _ _ _ Ht). set_solver.
    + intros c m' [-> ->]. eapply does_mono; [apply (slist_remove_after h a x l' r); [apply He; set_solver..|done|done]|].
      intros [] m' Hm. by rewrite <- app_assoc.
Qed.

Lemma slist_insert_prevptr h x l r :
  h ∈ hs → x ∈ es → (∀ y, y ∈ l ++ r → y ∈ es) → list_at Slist m h (l ++ r) → NoDup (l ++ r) → x ∉ l ++ r →
  does {[h]} ({[x]} ∪ list_to_set (l ++ r)) (CK_SLIST_INSERT_PREVPTR mem (last_ref (RefHead h) l) (head_or 0 r) x) m
    (λ _ m', list_at Slist m' h (l ++ x :: r)).
Proof using Ht.
  intros Hh Hx He [Hf Hs _ _] Hn Hni. destruct (ct_first _ _ _ _ Ht h Hh) as [Hh0 _].
  destruct (ct_next _ _ _ _ Ht x Hx) as [Hx0 Hxn]. unfold CK_SLIST_INSERT_PREVPTR. apply seg_app in Hs as [Hsl Hsr].
  destruct (list_split_last l) as [->|(l' & a & ->)]; rewrite ?last_ref_app; cbn [last_ref put_ref app].
  - repeat cq_step. split; cbn; try done; [by cq_maps|]. split; [by cq_maps|cq_frame].
  - rewrite <- app_assoc in *. cbn [app] in *. apply NoDup_app in Hn as (_ & Hla & [Har _]%NoDup_cons).
    apply seg_app in Hsl as [Hsl [Hsa _]]. cbn [head_or] in Hsl.
    destruct (ct_next _ _ _ _ Ht a ltac:(apply He; set_solver)) as [Ha0 _].
    repeat cq_step. split; cbn; try done; [by rewrite Hf, <- app_assoc, !head_or_app|].
    rewrite <- app_assoc. apply seg_app. cbn. split; [cq_frame|]. split; [by cq_maps|]. split; [by cq_maps|cq_frame].
Qed.

Lemma slist_init h : h ∈ hs → does {[h]} ∅ (CK_SLIST_INIT mem h) m (λ _ m', list_at Slist m' h []).
Proof using Ht.
  intros Hh. destruct (ct_first _ _ _ _ Ht h Hh) as [Hh0 Hf].
  unfold CK_SLIST_INIT. repeat cq_step. split; cbn; try done; intros; by cq_maps.
Qed.

Lemma slist_move h1 h2 ys :
  h1 ∈ hs → h2 ∈ hs → list_at Slist m h2 ys →
  does {[h1]} ∅ (CK_SLIST_MOVE mem h1 h2) m (λ _ m', list_at Slist m' h1 ys).
Proof using Ht.
  intros Hh1 Hh2 [Hf2 Hs2 _ _]. destruct (ct_first _ _ _ _ Ht h1 Hh1) as [Hh10 Hf1].
  destruct (ct_first _ _ _ _ Ht h2 Hh2) as [Hh20 _].
  unfold CK_SLIST_MOVE. repeat cq_step. split; cbn; try done. by cq_maps.
Qed.

Lemma slist_swap h1 h2 xs ys :
  h1 ∈ hs → h2 ∈ hs → h1 ≠ h2 → list_at Slist m h1 xs → list_at Slist m h2 ys →
  does {[h1; h2]} ∅ (CK_SLIST_SWAP mem h1 h2) m (λ _ m', list_at Slist m' h1 ys ∧ list_at Slist m' h2 xs).
Proof using Ht.
  intros Hh1 Hh2 Hne [Hf1 Hs1 _ _] [Hf2 Hs2 _ _]. destruct (ct_first _ _ _ _ Ht h1 Hh1) as [Hh10 _].
  destruct (ct_first _ _ _ _ Ht h2 Hh2) as [Hh20 _].
  unfold CK_SLIST_SWAP. repeat cq_step. split; split; cbn; try done; by cq_maps.
Qed.
End slist.

Section stailq.
Context (hs es : gset Z) (m : cq_memory) (Ht : cq_there Stailq m hs es) {U : Type}.
Abbreviation mem := (the_lists (U := U)).

Lemma stailq_init h : h ∈ hs → does {[h]} ∅ (CK_STAILQ_INIT mem h) m (λ _ m', list_at Stailq m' h []).
Proof using Ht.
  intros Hh. destruct (ct_first _ _ _ _ Ht h Hh) as [Hh0 Hf]. pose proof (ct_last _ _ _ _ Ht h eq_refl Hh) as Hl.
  unfold CK_STAILQ_INIT. repeat cq_step. split; cbn; try done; intros; by cq_maps.
Qed.

Lemma stailq_insert_head h x xs :
  h ∈ hs → x ∈ es → (∀ y, y ∈ xs → y ∈ es) → list_at Stailq m h xs → x ∉ xs →
  does {[h]} ({[x]} ∪ list_to_set xs) (CK_STAILQ_INSERT_HEAD mem h x) m (λ _ m', list_at Stailq m' h (x :: xs)).
Proof using Ht.
  intros Hh Hx He [Hf Hs Hl _] Hni. specialize (Hl eq_refl). destruct (ct_first _ _ _ _ Ht h Hh) as [Hh0 _].
  destruct (ct_next _ _ _ _ Ht x Hx) as [Hx0 Hxn]. unfold CK_STAILQ_INSERT_HEAD, last_if_end. repeat cq_step.
  destruct xs as [|y xs]; cbn [head_or].
  - repeat cq_step. split; cbn; try done; intros; repeat split; by cq_maps.
  - destruct (ct_next _ _ _ _ Ht y ltac:(apply He; set_solver)) as [Hy0 _]. rewrite (proj2 (Z.eqb_neq y 0)) by done.
    repeat cq_step. destruct Hs as [Hsy Hs]. split; cbn; try done; [by cq_maps|].
    split; [by cq_maps|]. split; [by cq_maps|cq_frame].
Qed.

Lemma stailq_insert_after h a x l r :
  h ∈ hs → x ∈ es → (∀ y, y ∈ l ++ a :: r → y ∈ es) → list_at Stailq m h (l ++ a :: r) → NoDup (l ++ a :: r) → x ∉ l ++ a :: r →
  does {[h]} ({[x]} ∪ list_to_set (l ++ a :: r)) (CK_STAILQ_INSERT_AFTER mem h a x) m
    (λ _ m', list_at Stailq m' h (l ++ a :: x :: r)).
Proof using Ht.
  intros Hh Hx He [Hf Hs Hlast _] (Hl & Hla & [Har Hr]%NoDup_cons)%NoDup_app Hni. specialize (Hlast eq_refl).
  apply seg_app in Hs as [Hsl [Hsa Hsr]]. destruct (ct_first _ _ _ _ Ht h Hh) as [Hh0 _].
  destruct (ct_next _ _ _ _ Ht x Hx) as [Hx0 Hxn].
  destruct (ct_next _ _ _ _ Ht a ltac:(apply He; set_solver)) as [Ha0 _].
  unfold CK_STAILQ_INSERT_AFTER, last_if_end. repeat cq_step.
  assert (seg (<[a:=x]> (<[x:=head_or 0 r]> (cq_next m))) (l ++ a :: x :: r) 0) as Hseg.
  { apply seg_app. split; [cq_frame|]. split; [by cq_maps|]. split; [by cq_maps|cq_frame]. }
  destruct r as [|y r]; cbn [head_or] in *.
  - repeat cq_step. split; cbn; try done; [by rewrite Hf, !head_or_app|]. intros _. cq_maps. by rewrite last_ref_app.
  - destruct (ct_next _ _ _ _ Ht y ltac:(apply He; set_solver)) as [Hy0 _]. rewrite (proj2 (Z.eqb_neq y 0)) by done.
    repeat cq_step. split; cbn; try done; [by rewrite Hf, !head_or_app|]. rewrite Hlast, !last_ref_app. done.
Qed.

Lemma stailq_insert_tail h x xs :
  h ∈ hs → x ∈ es → (∀ y, y ∈ xs → y ∈ es) → list_at Stailq m h xs → NoDup xs → x ∉ xs →
  does {[h]} ({[x]} ∪ list_to_set xs) (CK_STAILQ_INSERT_TAIL mem h x) m (λ _ m', list_at Stailq m' h (xs ++ [x])).
Proof using Ht.
  intros Hh Hx He [Hf Hs Hl _] Hn Hni. specialize (Hl eq_refl). destruct (ct_first _ _ _ _ Ht h Hh) as [Hh0 _].
  destruct (ct_next _ _ _ _ Ht x Hx) as [Hx0 Hxn]. unfold CK_STAILQ_INSERT_TAIL. repeat cq_step.
  destruct (list_split_last xs) as [->|(l & a & ->)]; rewrite ?last_ref_app in *; cbn [last_ref put_ref app].
  - repeat cq_step. split; cbn; try done; intros; repeat split; by cq_maps.
  - apply NoDup_app in Hn as (_ & Hla & _). apply seg_app in Hs as [Hsl [Hsa _]].
    destruct (ct_next _ _ _ _ Ht a ltac:(apply He; set_solver)) as [Ha0 _]. repeat cq_step.
    split; cbn; try done; [by rewrite Hf, <- app_assoc, !head_or_app| |intros _; by cq_maps; rewrite last_ref_app].
    rewrite <- app_assoc. apply seg_app. cbn. split; [cq_frame|]. split; [by cq_maps|]. split; [by cq_maps|done].
Qed.

Lemma stailq_remove_after h a x l r :
  h ∈ hs → (∀ y, y ∈ l ++ a :: x :: r → y ∈ es) → list_at Stailq m h (l ++ a :: x :: r) → NoDup (l ++ a :: x :: r) →
  does {[h]} (list_to_set (l ++ a :: x :: r)) (CK_STAILQ_REMOVE_AFTER mem h a) m (λ _ m', list_at Stailq m' h (l ++ a :: r)).
Proof using Ht.
  intros Hh He [Hf Hs Hlast _] (Hl & Hla & [Har [Hxr Hr]%NoDup_cons]%NoDup_cons)%NoDup_app. specialize (Hlast eq_refl).
  apply seg_app in Hs as [Hsl [Hsa [Hsx Hsr]]]. cbn in Hsa. destruct (ct_first _ _ _ _ Ht h Hh) as [Hh0 _].
  destruct (ct_next _ _ _ _ Ht x ltac:(apply He; set_solver)) as [Hx0 _].
  destruct (ct_next _ _ _ _ Ht a ltac:(apply He; set_solver)) as [Ha0 _].
  unfold CK_STAILQ_REMOVE_AFTER, last_if_end. repeat cq_step.
  assert (seg (<[a:=head_or 0 r]> (cq_next m)) (l ++ a :: r) 0) as Hseg.
  { apply seg_app. split; [cq_frame|]. split; [by cq_maps|cq_frame]. }
  destruct r as [|y r]; cbn [head_or] in *.
  - repeat cq_step. split; cbn; try done; [by rewrite Hf, !head_or_app|]. intros _. cq_maps. by rewrite last_ref_app.
  - destruct (ct_next _ _ _ _ Ht y ltac:(apply He; set_solver)) as [Hy0 _]. rewrite (proj2 (Z.eqb_neq y 0)) by done.
    repeat cq_step. split; cbn; try done; [by rewrite Hf, !head_or_app|]. rewrite Hlast, !last_ref_app. done.
Qed.

Lemma stailq_remove_head h x xs :
  h ∈ hs → (∀ y, y ∈ x :: xs → y ∈ es) → list_at Stailq m h (x :: xs) → NoDup (x :: xs) →
  does {[h]} (list_to_set (x :: xs)) (CK_STAILQ_REMOVE_HEAD mem h) m (λ _ m', list_at Stailq m' h xs).
Proof using Ht.
  intros Hh He [Hf Hs Hlast _] [Hni Hn]%NoDup_cons. specialize (Hlast eq_refl). destruct Hs as [Hsx Hs]. cbn in Hf.
  destruct (ct_first _ _ _ _ Ht h Hh) as [Hh0 _].
  destruct (ct_next _ _ _ _ Ht x ltac:(apply He; set_solver)) as [Hx0 _].
  unfold CK_STAILQ_REMOVE_HEAD. repeat cq_step. destruct xs as [|y xs]; cbn [head_or].
  - repeat cq_step. split; cbn; try done; intros; by cq_maps.
  - destruct (ct_next _ _ _ _ Ht y ltac:(apply He; set_solver)) as [Hy0 _]. rewrite (proj2 (Z.eqb_neq y 0)) by done.
    repeat cq_step. split; cbn; try done. by cq_maps.
Qed.

Lemma stailq_remove h x l r :
  h ∈ hs → (∀ y, y ∈ l ++ x :: r → y ∈ es) → list_at Stailq m h (l ++ x :: r) → NoDup (l ++ x :: r) →
  does {[h]} (list_to_set (l ++ x :: r)) (CK_STAILQ_REMOVE mem h x) m (λ _ m', list_at Stailq m' h (l ++ r)).
Proof using Ht.
  intros Hh He Hl Hn. pose proof (la_first _ _ _ _ Hl) as Hf. destruct (ct_first _ _ _ _ Ht h Hh) as [Hh0 _].
  unfold CK_STAILQ_REMOVE. cq_step. cq_step. destruct (list_split_last l) as [->|(l' & a & ->)].
  - cbn [app head_or]. rewrite Z.eqb_refl. by apply stailq_remove_head.
  - rewrite <- app_assoc in *. cbn [app] in *.
    assert (head_or 0 (l' ++ a :: x :: r) = head_or a l') as Eh by (by destruct l'). rewrite Eh.
    apply NoDup_app in Hn as Hn'. destruct Hn' as (_ & Hla & [Hax _]%NoDup_cons).
    assert (head_or a l' ≠ x) as Hne by (intros <-; destruct l'; set_solver).
    rewrite (proj2 (Z.eqb_neq _ _) Hne). cq_step. cq_step. rewrite Eh. cq_step.
    eapply does_mono; [apply (find_before_does _ _ m x l' a r)|].
    + by apply la_seg in Hl.
    + set_solver.
    + intros e Hin. apply (ct_next _ _ _ _ Ht). set_solver.
    + intros c m' [-> ->]. eapply does_mono; [by apply (stailq_remove_after h a x l' r)|].
      intros [] m' Hm. by rewrite <- app_assoc.
Qed.

(** The elements of the second queue go to the end of the first. *)
Lemma stailq_concat h1 h2 xs ys :
  h1 ∈ hs → h2 ∈ hs → h1 ≠ h2 → (∀ y, y ∈ xs ++ ys → y ∈ es) → list_at Stailq m h1 xs → list_at Stailq m h2 ys → NoDup (xs ++ ys) →
  does {[h1; h2]} (list_to_set (xs ++ ys)) (CK_STAILQ_CONCAT mem h1 h2) m
    (λ _ m', list_at Stailq m' h1 (xs ++ ys) ∧ list_at Stailq m' h2 []).
Proof using Ht.
  intros Hh1 Hh2 Hne He [Hf1 Hs1 Hl1 _] [Hf2 Hs2 Hl2 _] (Hn1 & Hd & Hn2)%NoDup_app. specialize (Hl1 eq_refl). specialize (Hl2 eq_refl).
  destruct (ct_first _ _ _ _ Ht h1 Hh1) as [Hh10 _]. destruct (ct_first _ _ _ _ Ht h2 Hh2) as [Hh20 _].
  unfold CK_STAILQ_CONCAT. repeat cq_step. destruct ys as [|y ys]; cbn [head_or Z.eqb negb].
  - rewrite app_nil_r. repeat cq_step. by repeat split.
  - destruct (ct_next _ _ _ _ Ht y ltac:(apply He; set_solver)) as [Hy0 _]. rewrite (proj2 (Z.eqb_neq y 0)) by done. cbn [negb].
    repeat cq_step. unfold CK_STAILQ_INIT.
    destruct (list_split_last xs) as [->|(l & a & ->)]; rewrite ?last_ref_app in *; cbn [last_ref put_ref app head_or] in *.
    + repeat cq_step. split; split; cbn; try done; intros; by cq_maps.
    + apply NoDup_app in Hn1 as (_ & Hla & _). apply seg_app in Hs1 as [Hsl [Hsa _]].
      destruct (ct_next _ _ _ _ Ht a ltac:(apply He; set_solver)) as [Ha0 _]. repeat cq_step.
      split; split; cbn; try done; [| |intros _; cq_maps; by rewrite last_ref_app|by cq_maps|intros _; by cq_maps].
      * cq_maps. by rewrite Hf1, <- app_assoc, !head_or_app.
      * rewrite <- app_assoc. apply seg_app. cbn. split; [cq_frame|]. split; [by cq_maps|].
        destruct Hs2 as [Hsy Hs2]. split; [by cq_maps|cq_frame].
Qed.

(** The second head keeps its pointers, and is not to be used before it is initialised. *)
Lemma stailq_move h1 h2 ys :
  h1 ∈ hs → h2 ∈ hs → h1 ≠ h2 → list_at Stailq m h2 ys →
  does {[h1]} ∅ (CK_STAILQ_MOVE mem h1 h2) m (λ _ m', list_at Stailq m' h1 ys).
Proof using Ht.
  intros Hh1 Hh2 Hne [Hf2 Hs2 Hl2 _]. specialize (Hl2 eq_refl).
  destruct (ct_first _ _ _ _ Ht h1 Hh1) as [Hh10 Hf1]. destruct (ct_first _ _ _ _ Ht h2 Hh2) as [Hh20 _].
  pose proof (ct_last _ _ _ _ Ht h1 eq_refl Hh1) as Hl1. unfold CK_STAILQ_MOVE. repeat cq_step.
  destruct (list_split_last ys) as [->|(l & a & ->)]; rewrite ?last_ref_app in *; cbn [last_ref is_ref_head].
  - rewrite Z.eqb_refl. repeat cq_step. split; cbn; try done; intros; by cq_maps.
  - repeat cq_step. split; cbn; try done; [by cq_maps|]. intros _. cq_maps. by rewrite last_ref_app.
Qed.
End stailq.

Section list.
Context (hs es : gset Z) (m : cq_memory) (Ht : cq_there List m hs es) {U : Type}.
Abbreviation mem := (the_lists (U := U)).

Lemma list_init h : h ∈ hs → does {[h]} ∅ (CK_LIST_INIT mem h) m (λ _ m', list_at List m' h []).
Proof using Ht.
  intros Hh. destruct (ct_first _ _ _ _ Ht h Hh) as [Hh0 Hf].
  unfold CK_LIST_INIT. repeat cq_step. split; cbn; try done; intros; by cq_maps.
Qed.

(** What an element of a list has. *)
Lemma list_elem x : x ∈ es → x ≠ 0 ∧ is_Some (cq_next m !! x) ∧ is_Some (cq_prev m !! x).
Proof using Ht.
  intros Hx. destruct (ct_next _ _ _ _ Ht x Hx). split; [done|]. split; [done|]. by apply (ct_prev _ _ _ _ Ht).
Qed.

Lemma list_insert_head h x xs :
  h ∈ hs → x ∈ es → (∀ y, y ∈ xs → y ∈ es) → list_at List m h xs → NoDup xs → x ∉ xs →
  does {[h]} ({[x]} ∪ list_to_set xs) (CK_LIST_INSERT_HEAD mem h x) m (λ _ m', list_at List m' h (x :: xs)).
Proof using Ht.
  intros Hh Hx He [Hf Hs _ Hp] Hn Hni. specialize (Hp eq_refl). destruct (ct_first _ _ _ _ Ht h Hh) as [Hh0 _].
  destruct (list_elem x Hx) as (Hx0 & Hxn & Hxp). unfold CK_LIST_INSERT_HEAD. repeat cq_step.
  destruct xs as [|y xs]; cbn [head_or].
  - cbn [Z.eqb negb]. repeat cq_step. split; cbn; try done; intros; repeat split; by cq_maps.
  - apply NoDup_cons in Hn as [Hyx Hn]. destruct Hs as [Hsy Hs], Hp as [Hpy Hp].
    destruct (list_elem y ltac:(apply He; set_solver)) as (Hy0 & _ & Hyp).
    rewrite (proj2 (Z.eqb_neq y 0)) by done. cbn [negb]. repeat cq_step.
    split; cbn; try done; [by cq_maps| |intros _].
    + split; [by cq_maps|]. split; [by cq_maps|cq_frame].
    + split; [by cq_maps|]. split; [by cq_maps|cq_frame].
Qed.

Lemma list_insert_after h a x l r :
  h ∈ hs → x ∈ es → (∀ y, y ∈ l ++ a :: r → y ∈ es) → list_at List m h (l ++ a :: r) → NoDup (l ++ a :: r) → x ∉ l ++ a :: r →
  does {[h]} ({[x]} ∪ list_to_set (l ++ a :: r)) (CK_LIST_INSERT_AFTER mem a x) m
    (λ _ m', list_at List m' h (l ++ a :: x :: r)).
Proof using Ht.
  intros Hh Hx He [Hf Hs _ Hp] (Hl & Hla & [Har Hr]%NoDup_cons)%NoDup_app Hni. specialize (Hp eq_refl).
  apply seg_app in Hs as [Hsl [Hsa Hsr]]. apply back_seg_app in Hp as [Hpl [Hpa Hpr]].
  destruct (ct_first _ _ _ _ Ht h Hh) as [Hh0 _]. destruct (list_elem x Hx) as (Hx0 & Hxn & Hxp).
  destruct (list_elem a ltac:(apply He; set_solver)) as (Ha0 & _).
  unfold CK_LIST_INSERT_AFTER. repeat cq_step.
  assert (seg (<[a:=x]> (<[x:=head_or 0 r]> (cq_next m))) (l ++ a :: x :: r) 0) as Hseg.
  { apply seg_app. split; [cq_frame|]. split; [by cq_maps|]. split; [by cq_maps|cq_frame]. }
  destruct r as [|y r]; cbn [head_or] in *.
  - cbn [Z.eqb negb]. repeat cq_step. split; cbn; try done; [by rewrite Hf, !head_or_app|].
    intros _. apply back_seg_app. split; [cq_frame|]. repeat split; by cq_maps.
  - apply NoDup_cons in Hr as [Hyr Hr]. destruct Hpr as [Hpy Hpr].
    destruct (list_elem y ltac:(apply He; set_solver)) as (Hy0 & _ & Hyp).
    rewrite (proj2 (Z.eqb_neq y 0)) by done. cbn [negb]. repeat cq_step.
    split; cbn; try done; [by rewrite Hf, !head_or_app|].
    intros _. apply back_seg_app. split; [cq_frame|]. split; [by cq_maps|]. split; [by cq_maps|]. split; [by cq_maps|cq_frame].
Qed.

Lemma list_insert_before h a x l r :
  h ∈ hs → x ∈ es → (∀ y, y ∈ l ++ a :: r → y ∈ es) → list_at List m h (l ++ a :: r) → NoDup (l ++ a :: r) → x ∉ l ++ a :: r →
  does {[h]} ({[x]} ∪ list_to_set (l ++ a :: r)) (CK_LIST_INSERT_BEFORE mem a x) m
    (λ _ m', list_at List m' h (l ++ x :: a :: r)).
Proof using Ht.
  intros Hh Hx He [Hf Hs _ Hp] (Hl & Hla & [Har Hr]%NoDup_cons)%NoDup_app Hni. specialize (Hp eq_refl).
  apply seg_app in Hs as [Hsl [Hsa Hsr]]. apply back_seg_app in Hp as [Hpl [Hpa Hpr]].
  destruct (ct_first _ _ _ _ Ht h Hh) as [Hh0 _]. destruct (list_elem x Hx) as (Hx0 & Hxn & Hxp).
  destruct (list_elem a ltac:(apply He; set_solver)) as (Ha0 & _).
  unfold CK_LIST_INSERT_BEFORE. repeat cq_step.
  destruct (list_split_last l) as [->|(l' & b & ->)]; rewrite ?last_ref_app in *; cbn [last_ref put_ref app head_or] in *.
  - repeat cq_step. split; cbn; try done; [by cq_maps| |intros _].
    + split; [by cq_maps|]. split; [by cq_maps|cq_frame].
    + split; [by cq_maps|]. split; [by cq_maps|cq_frame].
  - apply NoDup_app in Hl as (_ & Hlb & _). apply seg_app in Hsl as [Hsl [Hsb _]]. apply back_seg_app in Hpl as [Hpl [Hpb _]].
    destruct (list_elem b ltac:(apply He; set_solver)) as (Hb0 & _). repeat cq_step.
    rewrite <- app_assoc. cbn [app]. split; cbn; try done; [by rewrite Hf, <- app_assoc, !head_or_app| |intros _].
    + apply seg_app. split; [cq_frame|]. split; [by cq_maps|]. split; [by cq_maps|]. split; [by cq_maps|cq_frame].
    + apply back_seg_app. split; [cq_frame|]. split; [by cq_maps|]. split; [by cq_maps|]. split; [by cq_maps|cq_frame].
Qed.

Lemma list_remove h x l r :
  h ∈ hs → (∀ y, y ∈ l ++ x :: r → y ∈ es) → list_at List m h (l ++ x :: r) → NoDup (l ++ x :: r) →
  does {[h]} (list_to_set (l ++ x :: r)) (CK_LIST_REMOVE mem x) m (λ _ m', list_at List m' h (l ++ r)).
Proof using Ht.
  intros Hh He [Hf Hs _ Hp] (Hl & Hla & [Hxr Hr]%NoDup_cons)%NoDup_app. specialize (Hp eq_refl).
  apply seg_app in Hs as [Hsl [Hsx Hsr]]. apply back_seg_app in Hp as [Hpl [Hpx Hpr]].
  destruct (ct_first _ _ _ _ Ht h Hh) as [Hh0 _]. destruct (list_elem x ltac:(apply He; set_solver)) as (Hx0 & _).
  unfold CK_LIST_REMOVE. repeat cq_step.
  destruct (list_split_last l) as [->|(l' & b & ->)]; rewrite ?last_ref_app in *; cbn [last_ref put_ref app head_or] in *.
  - repeat cq_step. destruct r as [|y r]; cbn [head_or].
    + cbn [Z.eqb negb]. repeat cq_step. split; cbn; try done. by cq_maps.
    + apply NoDup_cons in Hr as [Hyr Hr]. destruct Hpr as [Hpy Hpr].
      destruct (list_elem y ltac:(apply He; set_solver)) as (Hy0 & _ & Hyp).
      rewrite (proj2 (Z.eqb_neq y 0)) by done. cbn [negb]. repeat cq_step.
      split; cbn; try done; [by cq_maps|intros _]. split; [by cq_maps|cq_frame].
  - apply NoDup_app in Hl as (_ & Hlb & _). apply seg_app in Hsl as [Hsl [Hsb _]]. apply back_seg_app in Hpl as [Hpl [Hpb _]].
    destruct (list_elem b ltac:(apply He; set_solver)) as (Hb0 & _). repeat cq_step.
    assert (seg (<[b:=head_or 0 r]> (cq_next m)) ((l' ++ [b]) ++ r) 0) as Hseg.
    { rewrite <- app_assoc. apply seg_app. split; [cq_frame|]. split; [by cq_maps|cq_frame]. }
    destruct r as [|y r]; cbn [head_or].
    + cbn [Z.eqb negb]. repeat cq_step. rewrite app_nil_r in *. split; cbn; try done; [by rewrite Hf, !head_or_app|intros _].
      apply back_seg_app. by repeat split.
    + apply NoDup_cons in Hr as [Hyr Hr]. destruct Hpr as [Hpy Hpr].
      destruct (list_elem y ltac:(apply He; set_solver)) as (Hy0 & _ & Hyp).
      rewrite (proj2 (Z.eqb_neq y 0)) by done. cbn [negb]. repeat cq_step.
      split; cbn; try done; [by rewrite Hf, !head_or_app|intros _].
      rewrite <- app_assoc. apply back_seg_app. split; [cq_frame|]. split; [by cq_maps|]. split; [by cq_maps|cq_frame].
Qed.

Lemma list_move h1 h2 ys :
  h1 ∈ hs → h2 ∈ hs → (∀ y, y ∈ ys → y ∈ es) → list_at List m h2 ys → NoDup ys →
  does {[h1]} (list_to_set ys) (CK_LIST_MOVE mem h1 h2) m (λ _ m', list_at List m' h1 ys).
Proof using Ht.
  intros Hh1 Hh2 He [Hf2 Hs2 _ Hp2] Hn. specialize (Hp2 eq_refl). destruct (ct_first _ _ _ _ Ht h1 Hh1) as [Hh10 Hf1].
  destruct (ct_first _ _ _ _ Ht h2 Hh2) as [Hh20 _].
  unfold CK_LIST_MOVE. repeat cq_step. destruct ys as [|y ys]; cbn [head_or].
  - cbn [Z.eqb negb]. repeat cq_step. split; cbn; try done. by cq_maps.
  - apply NoDup_cons in Hn as [Hyr Hn]. destruct Hp2 as [Hpy Hpr].
    destruct (list_elem y ltac:(apply He; set_solver)) as (Hy0 & _ & Hyp).
    rewrite (proj2 (Z.eqb_neq y 0)) by done. cbn [negb]. repeat cq_step.
    split; cbn; try done; [by cq_maps|intros _]. split; [by cq_maps|cq_frame].
Qed.

Lemma list_swap h1 h2 xs ys :
  h1 ∈ hs → h2 ∈ hs → h1 ≠ h2 → (∀ y, y ∈ xs ++ ys → y ∈ es) → list_at List m h1 xs → list_at List m h2 ys → NoDup (xs ++ ys) →
  does {[h1; h2]} (list_to_set (xs ++ ys)) (CK_LIST_SWAP mem h1 h2) m
    (λ _ m', list_at List m' h1 ys ∧ list_at List m' h2 xs).
Proof using Ht.
  intros Hh1 Hh2 Hne He [Hf1 Hs1 _ Hp1] [Hf2 Hs2 _ Hp2] (Hn1 & Hd & Hn2)%NoDup_app.
  specialize (Hp1 eq_refl). specialize (Hp2 eq_refl).
  destruct (ct_first _ _ _ _ Ht h1 Hh1) as [Hh10 _]. destruct (ct_first _ _ _ _ Ht h2 Hh2) as [Hh20 _].
  unfold CK_LIST_SWAP. repeat cq_step.
  destruct xs as [|x xs], ys as [|y ys]; cbn [head_or];
    repeat match goal with
    | H : NoDup (_ :: _) |- _ => apply NoDup_cons in H as [? ?]
    | H : back_seg _ _ (_ :: _) |- _ => destruct H as [? ?]
    end.
  - cbn [Z.eqb negb]. repeat cq_step. split; split; cbn; try done; by cq_maps.
  - destruct (list_elem y ltac:(apply He; set_solver)) as (Hy0 & _ & Hyp).
    rewrite (proj2 (Z.eqb_neq y 0)) by done. cbn [negb]. repeat cq_step. cbn [Z.eqb negb]. repeat cq_step.
    split; split; cbn; try done; [by cq_maps|intros _; split; [by cq_maps|cq_frame]|by cq_maps].
  - destruct (list_elem x ltac:(apply He; set_solver)) as (Hx0 & _ & Hxp). cbn [Z.eqb negb]. repeat cq_step.
    rewrite (proj2 (Z.eqb_neq x 0)) by done. cbn [negb]. repeat cq_step.
    split; split; cbn; try done; [by cq_maps|by cq_maps|intros _; split; [by cq_maps|cq_frame]].
  - destruct (list_elem x ltac:(apply He; set_solver)) as (Hx0 & _ & Hxp).
    destruct (list_elem y ltac:(apply He; set_solver)) as (Hy0 & _ & Hyp).
    rewrite (proj2 (Z.eqb_neq y 0)) by done. cbn [negb]. repeat cq_step.
    rewrite (proj2 (Z.eqb_neq x 0)) by done. cbn [negb]. repeat cq_step.
    assert (x ≠ y) by (intros ->; apply (Hd y); set_solver).
    split; split; cbn; try done.
    + by cq_maps.
    + intros _. split; [by cq_maps|cq_frame].
    + by cq_maps.
    + intros _. split; [by cq_maps|cq_frame].
Qed.
End list.
