(* ===== verification/CkQueueLists.v ===== *)
(** CkQueueLists: the macros of ck_queue.h refine lists: what any sequence of uses of the heads and elements of a memory
    does. *)

From Stdlib Require Import ZArith Lia.
From stdpp Require Import base list gmap.
From S2P Require Import Prelude Concurrent CkPr CkQueue.

#[local] Open Scope Z_scope.
#[local] Set Warnings "-clear-no-such-hyp".

(** ** Going over a list *)

Lemma does_weaken H X H' X' {U A} (t : prog (cq_memory * U) A) m Q : H ⊆ H' → X ⊆ X' → does H X t m Q → does H' X' t m Q.
Proof.
  intros HH HX Ht u. eapply runs_mono; [apply Ht|]. intros a s' (m' & -> & [C1 C2 C3 C4 C5 C6 C7 C8] & HQ).
  exists m'. split; [done|]. split; [|done]. split; try done; intros p Hp; [apply C1|apply C2|apply C3|apply C4]; set_solver.
Qed.

Lemma does_changes H X {U A} (t : prog (cq_memory * U) A) m Q :
  does H X t m Q → does H X t m (λ a m', changes H X m m' ∧ Q a m').
Proof. intros Ht u. eapply runs_mono; [apply Ht|]. intros a s' (m' & -> & Hc & HQ). by exists m'. Qed.

Lemma there_changes k hs es H X m m' : changes H X m m' → cq_there k m hs es → cq_there k m' hs es.
Proof.
  intros [_ _ _ _ C1 C2 C3 C4] [T1 T2 T3 T4]. split.
  - intros h Hh. destruct (T1 h Hh). auto.
  - auto.
  - intros e He. destruct (T3 e He). auto.
  - auto.
Qed.

Lemma NoDup_cut (l : list Z) x r : NoDup (l ++ x :: r) → NoDup (l ++ r) ∧ x ∉ l ++ r.
Proof. intros (Hl & Hd & [Hx Hr]%NoDup_cons)%NoDup_app. split; [apply NoDup_app|]; set_solver. Qed.

Lemma NoDup_paste (l : list Z) x r : NoDup (l ++ r) → x ∉ l ++ r → NoDup (l ++ x :: r).
Proof. intros (Hl & Hd & Hr)%NoDup_app Hx. apply NoDup_app. rewrite NoDup_cons. set_solver. Qed.

(** The pointer after the elements [l] of a list. *)
Lemma get_ref_does k hs es H X {U} m h l r :
  cq_there k m hs es → h ∈ hs → (∀ y, y ∈ l ++ r → y ∈ es) → list_at k m h (l ++ r) →
  does H X (get_ref (the_lists (U := U)) (last_ref (RefHead h) l)) m (λ v m', v = head_or 0 r ∧ m' = m).
Proof.
  intros Ht Hh He [Hf Hs _ _]. destruct (ct_first _ _ _ _ Ht h Hh) as [Hh0 _].
  destruct (list_split_last l) as [->|(l' & a & ->)]; rewrite ?last_ref_app; cbn [last_ref get_ref].
  - by eapply does_get.
  - rewrite <- app_assoc in *. apply seg_app in Hs as [_ [Hsa _]].
    destruct (ct_next _ _ _ _ Ht a ltac:(apply He; set_solver)) as [Ha0 _]. by eapply does_get.
Qed.

(** What a client does that looks at the elements. *)
Definition visit (x : Z) : prog (cq_memory * list Z) unit := atomic (λ s : cq_memory * list Z, Ret (tt, (s.1, s.2 ++ [x]))).

Lemma foreach_visits m xs log :
  seg (cq_next m) xs 0 → (∀ x, x ∈ xs → x ≠ 0) →
  runs (foreach the_lists visit (head_or 0 xs)) (m, log) (λ _ s, s = (m, log ++ xs)).
Proof.
  revert log. induction xs as [|x xs IH]; intros log Hs H0; apply runs_loop; cbn [head_or].
  - apply runs_ret. by rewrite app_nil_r.
  - destruct Hs as [Hx Hs]. assert (x ≠ 0) as Hx0 by (apply H0; set_solver). rewrite (proj2 (Z.eqb_neq x 0)) by done.
    apply runs_bind. eapply runs_atomic; [reflexivity|]. cbn [fst snd]. apply runs_bind.
    eapply runs_atomic; [cbn; rewrite (deref_lookup _ _ _ Hx0 Hx); reflexivity|]. apply runs_ret.
    eapply runs_mono; [apply IH; [done|set_solver]|]. intros _ s ->. by rewrite <- app_assoc.
Qed.

(** An element may be removed while a loop that is safe is at it. *)
Lemma foreach_safe_removes k hs es h X {U} (rm : Z → prog (cq_memory * U) unit) (p : Z → bool) m l r :
  (∀ m l x r, cq_there k m hs es → (∀ y, y ∈ l ++ x :: r → y ∈ es) → list_at k m h (l ++ x :: r) → NoDup (l ++ x :: r) →
     does {[h]} (list_to_set (l ++ x :: r)) (rm x) m (λ _ m', list_at k m' h (l ++ r))) →
  cq_there k m hs es → (∀ y, y ∈ l ++ r → y ∈ es) → list_at k m h (l ++ r) → NoDup (l ++ r) → list_to_set (l ++ r) ⊆ X →
  does {[h]} X (foreach_safe the_lists (λ x, if p x then rm x else mret tt) (head_or 0 r)) m
    (λ _ m', list_at k m' h (l ++ filter (λ x, p x = false) r)).
Proof.
  intros Hrm. revert l m. induction r as [|x r IH]; intros l m Ht He Hl Hn HX; apply does_loop; cbn [head_or].
  - by apply does_ret.
  - destruct (ct_next _ _ _ _ Ht x ltac:(apply He; set_solver)) as [Hx0 _]. rewrite (proj2 (Z.eqb_neq x 0)) by done.
    pose proof (la_seg _ _ _ _ Hl) as Hs. apply seg_app in Hs as [_ [Hx _]].
    apply does_bind. eapply does_get; [done|exact Hx|]. apply does_bind. rewrite filter_cons. destruct (p x) eqn:Ep.
    + rewrite decide_False by congruence. eapply does_mono.
      { apply does_changes. eapply does_weaken; [done| |by apply Hrm]. set_solver. }
      intros [] m' [Hc Hl']. apply does_ret, IH; [by eapply there_changes|set_solver|done| |set_solver].
      by apply NoDup_cut in Hn as [].
    + rewrite decide_True by done. apply does_ret, does_ret.
      eapply does_mono; [apply (IH (l ++ [x])); rewrite <- ?app_assoc; done|]. intros [] m' Hm. by rewrite <- app_assoc in Hm.
Qed.

(** An element is put before another of a singly linked list by a loop that has the address of the pointer to it. *)
Definition insert_before {U} (a x : Z) (var : Z) (varp : cq_ref) : prog (cq_memory * U) unit :=
  if var =? a then CK_SLIST_INSERT_PREVPTR the_lists varp var x else mret tt.

Lemma foreach_prevptr_passes k hs es H X {U} m h a x l r :
  cq_there k m hs es → h ∈ hs → (∀ y, y ∈ l ++ r → y ∈ es) → list_at k m h (l ++ r) → a ∉ r →
  does H X (U := U) (loop (λ varp,
    var ← get_ref the_lists varp;
    if var =? 0 then mret (inr tt) else insert_before a x var varp;; mret (inl (RefNext var))) (last_ref (RefHead h) l)) m
    (λ _ m', m' = m).
Proof.
  intros Ht Hh. revert l. induction r as [|y r IH]; intros l He Hl Ha; apply does_loop, does_bind.
  - eapply does_mono; [by eapply get_ref_does|]. intros v m' [-> ->]. by apply does_ret.
  - eapply does_mono; [by eapply get_ref_does|]. intros v m' [-> ->]. cbn [head_or].
    destruct (ct_next _ _ _ _ Ht y ltac:(apply He; set_solver)) as [Hy0 _]. rewrite (proj2 (Z.eqb_neq y 0)) by done.
    unfold insert_before. rewrite (proj2 (Z.eqb_neq y a)) by set_solver. apply does_bind, does_ret, does_ret.
    replace (RefNext y) with (last_ref (RefHead h) (l ++ [y])) by (by rewrite last_ref_app).
    apply IH; rewrite <- ?app_assoc; [done|done|set_solver].
Qed.

Lemma foreach_prevptr_inserts hs es X {U} m h a x l1 l2 r :
  cq_there Slist m hs es → h ∈ hs → x ∈ es → (∀ y, y ∈ l1 ++ l2 ++ a :: r → y ∈ es) → list_at Slist m h (l1 ++ l2 ++ a :: r) →
  NoDup (l1 ++ l2 ++ a :: r) → x ∉ l1 ++ l2 ++ a :: r → {[x]} ∪ list_to_set (l1 ++ l2 ++ a :: r) ⊆ X →
  does {[h]} X (U := U) (loop (λ varp,
    var ← get_ref the_lists varp;
    if var =? 0 then mret (inr tt) else insert_before a x var varp;; mret (inl (RefNext var))) (last_ref (RefHead h) l1)) m
    (λ _ m', list_at Slist m' h (l1 ++ l2 ++ x :: a :: r)).
Proof.
  intros Ht Hh Hx. revert l1. induction l2 as [|y l2 IH]; intros l1 He Hl Hn Hni HX; apply does_loop, does_bind;
    (eapply does_mono; [by eapply get_ref_does|]); intros v m' [-> ->]; cbn [head_or app].
  - destruct (ct_next _ _ _ _ Ht a ltac:(apply He; set_solver)) as [Ha0 _]. rewrite (proj2 (Z.eqb_neq a 0)) by done.
    unfold insert_before at 1. rewrite Z.eqb_refl. apply does_bind. eapply does_mono.
    { apply does_changes. eapply does_weaken; [reflexivity|exact HX|]. by apply (slist_insert_prevptr hs es m Ht h x l1 (a :: r)). }
    intros [] m' [Hc Hl']. apply does_ret. replace (RefNext a) with (last_ref (RefHead h) (l1 ++ [x; a])) by (by rewrite last_ref_app).
    replace (l1 ++ x :: a :: r) with ((l1 ++ [x; a]) ++ r) in * by (by rewrite <- app_assoc).
    eapply does_mono; [eapply (foreach_prevptr_passes Slist hs es _ X m' h a x)|]; [by eapply there_changes|done| |done| |].
    + cbn [app] in He. set_solver.
    + apply NoDup_app in Hn as (_ & _ & Hn). cbn [app] in Hn. by apply NoDup_cons in Hn as [].
    + by intros [] m2 ->.
  - cbn [app] in *. destruct (ct_next _ _ _ _ Ht y ltac:(apply He; set_solver)) as [Hy0 _]. rewrite (proj2 (Z.eqb_neq y 0)) by done.
    apply NoDup_app in Hn as Hn'. destruct Hn' as (_ & _ & [Hy _]%NoDup_cons).
    unfold insert_before at 1. rewrite (proj2 (Z.eqb_neq y a)) by set_solver. apply does_bind, does_ret, does_ret.
    replace (RefNext y) with (last_ref (RefHead h) (l1 ++ [y])) by (by rewrite last_ref_app).
    eapply does_mono; [apply IH; rewrite <- ?app_assoc; done|]. intros [] m' Hm. by rewrite <- app_assoc in Hm.
Qed.

(** ** Uses of the macros *)

Inductive cq_use : Type :=
  | CqInit (h : Z) | CqEmpty (h : Z) | CqFirst (h : Z) | CqNext (h x : Z) | CqAll (h : Z) | CqFilter (h : Z) (p : Z → bool)
  | CqInsertHead (h x : Z) | CqInsertAfter (h a x : Z) | CqInsertBefore (h a x : Z) | CqInsertTail (h x : Z)
  | CqRemoveHead (h : Z) | CqRemoveAfter (h a : Z) | CqRemove (h x : Z)
  | CqMove (h1 h2 : Z) | CqSwap (h1 h2 : Z) | CqConcat (h1 h2 : Z).

Inductive cq_saw : Type := SawNothing | SawBool (b : bool) | SawElem (x : Z) | SawAll (xs : list Z).

Abbreviation client := (prog (cq_memory * list Z)).

Definition nothing (t : client unit) : client cq_saw := t;; mret SawNothing.

(** What a loop over the elements sees. *)
Definition see_all (loop : (Z → client unit) → client unit) : client cq_saw :=
  atomic (λ s : cq_memory * list Z, Ret (tt, (s.1, [])));;
  loop visit;;
  atomic (λ s : cq_memory * list Z, Ret (SawAll s.2, s)).

(** The macro that does it, if the kind has one. *)
Definition cq_do (k : cq_kind) (u : cq_use) : option (client cq_saw) :=
  let mem := the_lists (U := list Z) in
  match k, u with
  | Slist, CqInit h => Some (nothing (CK_SLIST_INIT mem h))
  | Stailq, CqInit h => Some (nothing (CK_STAILQ_INIT mem h))
  | List, CqInit h => Some (nothing (CK_LIST_INIT mem h))
  | Slist, CqEmpty h => Some (b ← CK_SLIST_EMPTY mem h; mret (SawBool b))
  | Stailq, CqEmpty h => Some (b ← CK_STAILQ_EMPTY mem h; mret (SawBool b))
  | List, CqEmpty h => Some (b ← CK_LIST_EMPTY mem h; mret (SawBool b))
  | Slist, CqFirst h => Some (x ← CK_SLIST_FIRST mem h; mret (SawElem x))
  | Stailq, CqFirst h => Some (x ← CK_STAILQ_FIRST mem h; mret (SawElem x))
  | List, CqFirst h => Some (x ← CK_LIST_FIRST mem h; mret (SawElem x))
  | Slist, CqNext _ x => Some (x ← CK_SLIST_NEXT mem x; mret (SawElem x))
  | Stailq, CqNext _ x => Some (x ← CK_STAILQ_NEXT mem x; mret (SawElem x))
  | List, CqNext _ x => Some (x ← CK_LIST_NEXT mem x; mret (SawElem x))
  | Slist, CqAll h => Some (see_all (CK_SLIST_FOREACH mem h))
  | Stailq, CqAll h => Some (see_all (CK_STAILQ_FOREACH mem h))
  | List, CqAll h => Some (see_all (CK_LIST_FOREACH mem h))
  | Slist, CqFilter h p =>
      Some (nothing (CK_SLIST_FOREACH_SAFE mem h (λ x, if p x then CK_SLIST_REMOVE mem h x else mret tt)))
  | Stailq, CqFilter h p =>
      Some (nothing (CK_STAILQ_FOREACH_SAFE mem h (λ x, if p x then CK_STAILQ_REMOVE mem h x else mret tt)))
  | List, CqFilter h p =>
      Some (nothing (CK_LIST_FOREACH_SAFE mem h (λ x, if p x then CK_LIST_REMOVE mem x else mret tt)))
  | Slist, CqInsertHead h x => Some (nothing (CK_SLIST_INSERT_HEAD mem h x))
  | Stailq, CqInsertHead h x => Some (nothing (CK_STAILQ_INSERT_HEAD mem h x))
  | List, CqInsertHead h x => Some (nothing (CK_LIST_INSERT_HEAD mem h x))
  | Slist, CqInsertAfter _ a x => Some (nothing (CK_SLIST_INSERT_AFTER mem a x))
  | Stailq, CqInsertAfter h a x => Some (nothing (CK_STAILQ_INSERT_AFTER mem h a x))
  | List, CqInsertAfter _ a x => Some (nothing (CK_LIST_INSERT_AFTER mem a x))
  | Slist, CqInsertBefore h a x => Some (nothing (CK_SLIST_FOREACH_PREVPTR mem h (insert_before a x)))
  | List, CqInsertBefore _ a x => Some (nothing (CK_LIST_INSERT_BEFORE mem a x))
  | Stailq, CqInsertTail h x => Some (nothing (CK_STAILQ_INSERT_TAIL mem h x))
  | Slist, CqRemoveHead h => Some (nothing (CK_SLIST_REMOVE_HEAD mem h))
  | Stailq, CqRemoveHead h => Some (nothing (CK_STAILQ_REMOVE_HEAD mem h))
  | Slist, CqRemoveAfter _ a => Some (nothing (CK_SLIST_REMOVE_AFTER mem a))
  | Stailq, CqRemoveAfter h a => Some (nothing (CK_STAILQ_REMOVE_AFTER mem h a))
  | Slist, CqRemove h x => Some (nothing (CK_SLIST_REMOVE mem h x))
  | Stailq, CqRemove h x => Some (nothing (CK_STAILQ_REMOVE mem h x))
  | List, CqRemove _ x => Some (nothing (CK_LIST_REMOVE mem x))
  | Slist, CqMove h1 h2 => Some (nothing (CK_SLIST_MOVE mem h1 h2))
  | Stailq, CqMove h1 h2 => Some (nothing (CK_STAILQ_MOVE mem h1 h2))
  | List, CqMove h1 h2 => Some (nothing (CK_LIST_MOVE mem h1 h2))
  | Slist, CqSwap h1 h2 => Some (nothing (CK_SLIST_SWAP mem h1 h2))
  | List, CqSwap h1 h2 => Some (nothing (CK_LIST_SWAP mem h1 h2))
  | Stailq, CqConcat h1 h2 => Some (nothing (CK_STAILQ_CONCAT mem h1 h2))
  | _, _ => None
  end.

Fixpoint cq_runs (k : cq_kind) (us : list cq_use) : client (list cq_saw) :=
  match us with
  | [] => mret []
  | u :: us =>
      match cq_do k u with
      | Some t => r ← t; rs ← cq_runs k us; mret (r :: rs)
      | None => mret []
      end
  end.

(** ** What they mean *)

(** The elements before [x], and those after. *)
Fixpoint cut (x : Z) (xs : list Z) : option (list Z * list Z) :=
  match xs with
  | [] => None
  | y :: xs => if decide (y = x) then Some ([], xs) else '(l, r) ← cut x xs; Some (y :: l, r)
  end.

Section means.
Context (k : cq_kind) (hs es : gset Z).

(** An element that is in no list, and a head whose list may be replaced. *)
Definition free (L : gmap Z (list Z)) (x : Z) : bool :=
  bool_decide (x ∈ es) && bool_decide (map_Forall (λ _ xs, x ∉ xs) L).

(** The result of a use and the lists after it; nothing when it is not allowed: an element is put into two lists, or
    something is asked of a head that has no list. *)
Definition cq_means (L : gmap Z (list Z)) (u : cq_use) : option (cq_saw * gmap Z (list Z)) :=
  match u with
  | CqInit h => if decide (h ∈ hs) then Some (SawNothing, <[h := []]> L) else None
  | CqEmpty h => xs ← L !! h; Some (SawBool (bool_decide (xs = [])), L)
  | CqFirst h => xs ← L !! h; Some (SawElem (head_or 0 xs), L)
  | CqNext h x => xs ← L !! h; '(_, r) ← cut x xs; Some (SawElem (head_or 0 r), L)
  | CqAll h => xs ← L !! h; Some (SawAll xs, L)
  | CqFilter h p => xs ← L !! h; Some (SawNothing, <[h := filter (λ x, p x = false) xs]> L)
  | CqInsertHead h x => xs ← L !! h; if free L x then Some (SawNothing, <[h := x :: xs]> L) else None
  | CqInsertAfter h a x =>
      xs ← L !! h; '(l, r) ← cut a xs; if free L x then Some (SawNothing, <[h := l ++ a :: x :: r]> L) else None
  | CqInsertBefore h a x =>
      xs ← L !! h; '(l, r) ← cut a xs; if free L x then Some (SawNothing, <[h := l ++ x :: a :: r]> L) else None
  | CqInsertTail h x => xs ← L !! h; if free L x then Some (SawNothing, <[h := xs ++ [x]]> L) else None
  | CqRemoveHead h => xs ← L !! h; match xs with [] => None | _ :: r => Some (SawNothing, <[h := r]> L) end
  | CqRemoveAfter h a =>
      xs ← L !! h; '(l, r) ← cut a xs; match r with [] => None | _ :: r => Some (SawNothing, <[h := l ++ a :: r]> L) end
  | CqRemove h x => xs ← L !! h; '(l, r) ← cut x xs; Some (SawNothing, <[h := l ++ r]> L)
  | CqMove h1 h2 =>
      ys ← L !! h2; if decide (h1 ∈ hs ∧ h1 ≠ h2) then Some (SawNothing, <[h1 := ys]> (delete h2 L)) else None
  | CqSwap h1 h2 =>
      xs ← L !! h1; ys ← L !! h2; if decide (h1 ≠ h2) then Some (SawNothing, <[h1 := ys]> (<[h2 := xs]> L)) else None
  | CqConcat h1 h2 =>
      xs ← L !! h1; ys ← L !! h2; if decide (h1 ≠ h2) then Some (SawNothing, <[h1 := xs ++ ys]> (<[h2 := []]> L)) else None
  end.

Fixpoint cq_mean (L : gmap Z (list Z)) (us : list cq_use) : option (list cq_saw * gmap Z (list Z)) :=
  match us with
  | [] => Some ([], L)
  | u :: us =>
      _ ← cq_do k u;
      '(r, L) ← cq_means L u;
      '(rs, L) ← cq_mean L us;
      Some (r :: rs, L)
  end.
End means.

Lemma cut_spec x xs l r : cut x xs = Some (l, r) → xs = l ++ x :: r.
Proof.
  revert l r. induction xs as [|y xs IH]; intros l r H; [done|]. cbn in H. case_decide as E.
  - injection H as <- <-. by rewrite E.
  - destruct (cut x xs) as [[l' r']|]; [|done]. cbn in H. injection H as <- <-. cbn. by rewrite (IH l' r').
Qed.

(** ** The uses do what they mean *)

Section refines.
Context (k : cq_kind) (hs es : gset Z).

(** The lists of some heads change, with elements that are theirs or were free. *)
Lemma cq_lists_change H X m m' L L' :
  cq_lists k hs es m L → changes H X m m' →
  (∀ h xs x, h ∉ H → L !! h = Some xs → x ∈ xs → x ∉ X) →
  (∀ h, h ∉ H → L' !! h = L !! h) →
  (∀ h xs, h ∈ H → L' !! h = Some xs → h ∈ hs ∧ list_at k m' h xs ∧ NoDup xs ∧ ∀ x, x ∈ xs → x ∈ es) →
  (∀ h xs x, h ∈ H → L' !! h = Some xs → x ∈ xs → ∀ h' ys, h' ≠ h → L' !! h' = Some ys → x ∉ ys) →
  cq_lists k hs es m' L'.
Proof.
  intros [Ht Hat Hap] Hc HX Hold Hnew Hapart. split; [by eapply there_changes|..].
  - intros h xs Hh. destruct (decide (h ∈ H)) as [Hin|Hni]; [by apply Hnew|].
    rewrite Hold in Hh by done. destruct (Hat h xs Hh) as (Hhs & [Hf Hs Hl Hp] & Hn & He). split; [done|].
    split; [|done]. destruct Hc as [C1 C2 C3 C4 _ _ _ _]. split.
    + by rewrite C1.
    + eapply seg_frame; [|exact Hs]. intros x Hx. apply C3. by eapply HX.
    + intros E. rewrite C2 by done. by apply Hl.
    + intros E. eapply back_seg_frame; [|by apply Hp]. intros x Hx. apply C4. by eapply HX.
  - intros h h' xs ys x Hh Hh' Hx Hy. destruct (decide (h = h')) as [|Hne]; [done|]. exfalso.
    destruct (decide (h ∈ H)) as [Hin|Hni]; [by apply (Hapart h xs x Hin Hh Hx h' ys)|].
    destruct (decide (h' ∈ H)) as [Hin'|Hni']; [by apply (Hapart h' ys x Hin' Hh' Hy h xs)|].
    rewrite Hold in Hh, Hh' by done. by apply Hne, (Hap h h' xs ys x).
Qed.

(** The list of one head changes. *)
Lemma cq_lists_insert h xs ys X m m' L :
  cq_lists k hs es m L → L !! h = Some xs → changes {[h]} X m m' →
  list_at k m' h ys → NoDup ys → (∀ x, x ∈ X → x ∈ xs ∨ free es L x = true) → (∀ y, y ∈ ys → y ∈ xs ∨ free es L y = true) →
  cq_lists k hs es m' (<[h := ys]> L).
Proof.
  intros Hm Hh Hc Hl Hn HX Hys.
  assert (∀ h' zs x, h' ≠ h → L !! h' = Some zs → x ∈ zs → x ∈ xs ∨ free es L x = true → False) as Hno.
  { intros h' zs x Hne Hz Hx [Hxs|[_ Hf]%andb_true_iff].
    - by apply Hne, (cl_apart _ _ _ _ _ Hm h' h zs xs x).
    - apply bool_decide_eq_true in Hf. by apply (Hf h' zs Hz). }
  destruct (cl_at _ _ _ _ _ Hm h xs Hh) as (Hhs & _ & _ & He).
  eapply (cq_lists_change {[h]} X); [done|done|..].
  - intros h' zs x Hne%not_elem_of_singleton Hz Hx HxX. by eapply Hno; eauto.
  - intros h' Hne%not_elem_of_singleton. by rewrite lookup_insert_ne.
  - intros h' zs ->%elem_of_singleton Hz. rewrite lookup_insert_eq in Hz. injection Hz as <-. split; [done|].
    split; [done|]. split; [done|]. intros y Hy. destruct (Hys y Hy) as [|[Hf _]%andb_true_iff]; [by apply He|].
    by apply bool_decide_eq_true in Hf.
  - intros h' zs x ->%elem_of_singleton Hz Hx h2 ws Hne Hw Hxw. rewrite lookup_insert_eq in Hz. injection Hz as <-.
    rewrite lookup_insert_ne in Hw by done. by eapply Hno; eauto.
Qed.

Implicit Types log : list Z.

Abbreviation meets t m log r L' := (runs t (m, log) (λ r' s, r' = r ∧ cq_lists k hs es s.1 L')).

Lemma nothing_meets H X (t : client unit) m log (P : cq_memory → Prop) L' :
  does H X t m (λ _, P) → (∀ m', changes H X m m' → P m' → cq_lists k hs es m' L') → meets (nothing t) m log SawNothing L'.
Proof.
  intros Ht HP. apply runs_bind. eapply runs_mono; [apply Ht|]. intros [] s (m' & -> & Hc & Hm). apply runs_ret.
  split; [done|]. by apply HP.
Qed.

Lemma free_spec L x : free es L x = true → x ∈ es ∧ ∀ h xs, L !! h = Some xs → x ∉ xs.
Proof.
  intros [Hx%bool_decide_eq_true Hf%bool_decide_eq_true]%andb_true_iff. split; [done|]. intros h xs Hh. by apply (Hf h xs).
Qed.

(** A use that changes the list of one head, with an element that was free or not. *)
Lemma change_meets (t : client unit) h xs ys fresh m log L :
  cq_lists k hs es m L → L !! h = Some xs → (∀ x, x ∈ fresh → free es L x = true) →
  does {[h]} (fresh ∪ list_to_set xs) t m (λ _ m', list_at k m' h ys) →
  NoDup ys → (∀ y, y ∈ ys → y ∈ xs ∨ y ∈ fresh) →
  meets (nothing t) m log SawNothing (<[h := ys]> L).
Proof.
  intros Hm Hh Hf Ht Hn Hys. eapply nothing_meets; [exact Ht|]. intros m' Hc Hl.
  eapply cq_lists_insert; [done|exact Hh|exact Hc|done|done|set_solver|]. intros y Hy. destruct (Hys y Hy); [by left|right; by apply Hf].
Qed.

(** The first, and the next, element is read. *)
Lemma first_meets h xs m log L :
  cq_lists k hs es m L → L !! h = Some xs →
  meets (x ← get (the_lists →' cq_first_loc) h; mret (SawElem x)) m log (SawElem (head_or 0 xs)) L.
Proof.
  intros Hm Hh. destruct (cl_at _ _ _ _ _ Hm h xs Hh) as (Hhs & Hl & _).
  destruct (ct_first _ _ _ _ (cl_there _ _ _ _ _ Hm) h Hhs) as [Hh0 _].
  apply runs_bind. eapply runs_atomic; [cbn; rewrite (deref_lookup _ _ _ Hh0 (la_first _ _ _ _ Hl)); reflexivity|].
  by apply runs_ret.
Qed.

Lemma empty_meets h xs m log L :
  cq_lists k hs es m L → L !! h = Some xs →
  meets (b ← (p ← get (the_lists →' cq_first_loc) h; mret (p =? 0)); mret (SawBool b)) m log (SawBool (bool_decide (xs = []))) L.
Proof.
  intros Hm Hh. destruct (cl_at _ _ _ _ _ Hm h xs Hh) as (Hhs & Hl & _ & He). pose proof (cl_there _ _ _ _ _ Hm) as Ht.
  destruct (ct_first _ _ _ _ Ht h Hhs) as [Hh0 _]. apply runs_bind, runs_bind.
  eapply runs_atomic; [cbn; rewrite (deref_lookup _ _ _ Hh0 (la_first _ _ _ _ Hl)); reflexivity|].
  apply runs_ret, runs_ret. split; [|done]. f_equal. destruct xs as [|y xs]; [done|]. cbn [head_or].
  destruct (ct_next _ _ _ _ Ht y ltac:(apply He; set_solver)) as [Hy _]. by rewrite (proj2 (Z.eqb_neq y 0)).
Qed.

Lemma next_meets h x l r m log L :
  cq_lists k hs es m L → L !! h = Some (l ++ x :: r) →
  meets (x ← get (the_lists →' cq_next_loc) x; mret (SawElem x)) m log (SawElem (head_or 0 r)) L.
Proof.
  intros Hm Hh. destruct (cl_at _ _ _ _ _ Hm h _ Hh) as (Hhs & Hl & _ & He). pose proof (la_seg _ _ _ _ Hl) as Hs.
  apply seg_app in Hs as [_ [Hx _]]. destruct (ct_next _ _ _ _ (cl_there _ _ _ _ _ Hm) x ltac:(apply He; set_solver)) as [Hx0 _].
  apply runs_bind. eapply runs_atomic; [cbn; rewrite (deref_lookup _ _ _ Hx0 Hx); reflexivity|]. by apply runs_ret.
Qed.

(** A loop sees every element, in order. *)
Lemma all_meets h xs m log L :
  cq_lists k hs es m L → L !! h = Some xs →
  meets (see_all (λ body, var ← get (the_lists →' cq_first_loc) h; foreach the_lists body var)) m log (SawAll xs) L.
Proof.
  intros Hm Hh. destruct (cl_at _ _ _ _ _ Hm h xs Hh) as (Hhs & Hl & _ & He).
  destruct (ct_first _ _ _ _ (cl_there _ _ _ _ _ Hm) h Hhs) as [Hh0 _].
  apply runs_bind. eapply runs_atomic; [reflexivity|]. cbn [fst]. apply runs_bind, runs_bind.
  eapply runs_atomic; [cbn; rewrite (deref_lookup _ _ _ Hh0 (la_first _ _ _ _ Hl)); reflexivity|].
  eapply runs_mono; [apply foreach_visits; [apply (la_seg _ _ _ _ Hl)|]|].
  - intros x Hx. by apply (ct_next _ _ _ _ (cl_there _ _ _ _ _ Hm)), He.
  - intros [] s ->. by eapply runs_atomic.
Qed.

Lemma filter_meets h xs m log L (rm : Z → client unit) (p : Z → bool) :
  cq_lists k hs es m L → L !! h = Some xs →
  (∀ m l x r, cq_there k m hs es → (∀ y, y ∈ l ++ x :: r → y ∈ es) → list_at k m h (l ++ x :: r) → NoDup (l ++ x :: r) →
     does {[h]} (list_to_set (l ++ x :: r)) (rm x) m (λ _ m', list_at k m' h (l ++ r))) →
  meets (nothing (var ← get (the_lists →' cq_first_loc) h; foreach_safe the_lists (λ x, if p x then rm x else mret tt) var)) m log
    SawNothing (<[h := filter (λ x, p x = false) xs]> L).
Proof.
  intros Hm Hh Hrm. destruct (cl_at _ _ _ _ _ Hm h xs Hh) as (Hhs & Hl & Hn & He). pose proof (cl_there _ _ _ _ _ Hm) as Ht.
  destruct (ct_first _ _ _ _ Ht h Hhs) as [Hh0 _].
  eapply (change_meets _ h xs _ ∅); [done|done|set_solver| |by apply NoDup_filter|].
  - apply does_bind. eapply does_get; [done|apply (la_first _ _ _ _ Hl)|].
    apply (foreach_safe_removes k hs es h _ rm p m [] xs); try done; set_solver.
  - intros y [_ Hy]%list_elem_of_filter. by left.
Qed.
End refines.

Section uses.
Context (k : cq_kind) (hs es : gset Z) (m : cq_memory) (L : gmap Z (list Z)) (Hm : cq_lists k hs es m L).
Implicit Types (log : list Z).
Abbreviation meets t m log r L' := (runs t (m, log) (λ r' s, r' = r ∧ cq_lists k hs es s.1 L')).
Abbreviation mem := (the_lists (U := list Z)).

(** What is known of the list of a head. *)
Lemma list_known h xs :
  L !! h = Some xs → cq_there k m hs es ∧ h ∈ hs ∧ list_at k m h xs ∧ NoDup xs ∧ ∀ y, y ∈ xs → y ∈ es.
Proof using Hm. intros Hh. split; [exact (cl_there _ _ _ _ _ Hm)|]. exact (cl_at _ _ _ _ _ Hm h xs Hh). Qed.

Lemma insert_after_meets log h a x l r t :
  cq_do k (CqInsertAfter h a x) = Some t → L !! h = Some (l ++ a :: r) → free es L x = true →
  meets t m log SawNothing (<[h := l ++ a :: x :: r]> L).
Proof using Hm.
  intros Hdo Hh Hf. destruct (list_known _ _ Hh) as (Ht & Hhs & Hl & Hn & He).
  destruct (free_spec _ _ _ Hf) as [Hx Hni]. specialize (Hni _ _ Hh).
  assert (NoDup (l ++ a :: x :: r)) as Hn'.
  { replace (l ++ a :: x :: r) with ((l ++ [a]) ++ x :: r) by (by rewrite <- app_assoc).
    apply NoDup_paste; rewrite <- app_assoc; done. }
  destruct k; injection Hdo as <-; (eapply (change_meets _ _ _ _ h _ _ {[x]}); [done|exact Hh|set_solver| |done|set_solver]).
  - apply (slist_insert_after hs es m Ht); try done. apply He. set_solver.
  - by apply (stailq_insert_after hs es m Ht).
  - by apply (list_insert_after hs es m Ht).
Qed.

Lemma insert_before_meets log h a x l r t :
  cq_do k (CqInsertBefore h a x) = Some t → L !! h = Some (l ++ a :: r) → free es L x = true →
  meets t m log SawNothing (<[h := l ++ x :: a :: r]> L).
Proof using Hm.
  intros Hdo Hh Hf. destruct (list_known _ _ Hh) as (Ht & Hhs & Hl & Hn & He).
  destruct (free_spec _ _ _ Hf) as [Hx Hni]. specialize (Hni _ _ Hh). pose proof (NoDup_paste l x (a :: r) Hn Hni) as Hn'.
  destruct k; [|done|]; injection Hdo as <-; (eapply (change_meets _ _ _ _ h _ _ {[x]}); [done|exact Hh|set_solver| |done|set_solver]).
  - by apply (foreach_prevptr_inserts hs es _ m h a x [] l r).
  - by apply (list_insert_before hs es m Ht).
Qed.

Lemma insert_head_meets log h x xs t :
  cq_do k (CqInsertHead h x) = Some t → L !! h = Some xs → free es L x = true →
  meets t m log SawNothing (<[h := x :: xs]> L).
Proof using Hm.
  intros Hdo Hh Hf. destruct (list_known _ _ Hh) as (Ht & Hhs & Hl & Hn & He).
  destruct (free_spec _ _ _ Hf) as [Hx Hni]. specialize (Hni _ _ Hh). pose proof (NoDup_paste [] x xs Hn Hni) as Hn'.
  destruct k; injection Hdo as <-; (eapply (change_meets _ _ _ _ h _ _ {[x]}); [done|exact Hh|set_solver| |done|set_solver]).
  - by apply (slist_insert_head hs es m Ht).
  - by apply (stailq_insert_head hs es m Ht).
  - by apply (list_insert_head hs es m Ht).
Qed.

Lemma insert_tail_meets log h x xs t :
  cq_do k (CqInsertTail h x) = Some t → L !! h = Some xs → free es L x = true →
  meets t m log SawNothing (<[h := xs ++ [x]]> L).
Proof using Hm.
  intros Hdo Hh Hf. destruct (list_known _ _ Hh) as (Ht & Hhs & Hl & Hn & He).
  destruct (free_spec _ _ _ Hf) as [Hx Hni]. specialize (Hni _ _ Hh).
  destruct k; [done| |done]; injection Hdo as <-.
  eapply (change_meets _ _ _ _ h _ _ {[x]}); [done|exact Hh|set_solver|by apply (stailq_insert_tail hs es m Ht)| |set_solver].
  apply NoDup_paste; by rewrite app_nil_r.
Qed.

(** A use that takes elements from the list of a head. *)
Lemma take_meets log h xs ys (t : client unit) :
  L !! h = Some xs → does {[h]} (list_to_set xs) t m (λ _ m', list_at k m' h ys) → NoDup ys → (∀ y, y ∈ ys → y ∈ xs) →
  meets (nothing t) m log SawNothing (<[h := ys]> L).
Proof using Hm.
  intros Hh Ht Hn Hys. eapply (change_meets _ _ _ _ h xs ys ∅); [done|done|set_solver| |done|].
  - eapply does_weaken; [reflexivity| |exact Ht]. set_solver.
  - intros y Hy. left. by apply Hys.
Qed.

Lemma remove_meets log h x l r t :
  cq_do k (CqRemove h x) = Some t → L !! h = Some (l ++ x :: r) → meets t m log SawNothing (<[h := l ++ r]> L).
Proof using Hm.
  intros Hdo Hh. destruct (list_known _ _ Hh) as (Ht & Hhs & Hl & Hn & He). pose proof (NoDup_cut _ _ _ Hn) as [Hn' _].
  pose proof (λ t H, take_meets log h _ (l ++ r) t Hh H Hn' ltac:(set_solver)) as Hgo.
  destruct k; injection Hdo as <-; apply Hgo.
  - by apply (slist_remove hs es m Ht).
  - by apply (stailq_remove hs es m Ht).
  - by apply (list_remove hs es m Ht).
Qed.

Lemma remove_head_meets log h x xs t :
  cq_do k (CqRemoveHead h) = Some t → L !! h = Some (x :: xs) → meets t m log SawNothing (<[h := xs]> L).
Proof using Hm.
  intros Hdo Hh. destruct (list_known _ _ Hh) as (Ht & Hhs & Hl & Hn & He). pose proof (NoDup_cut [] _ _ Hn) as [Hn' _].
  pose proof (λ t H, take_meets log h _ xs t Hh H Hn' ltac:(set_solver)) as Hgo.
  destruct k; [| |done]; injection Hdo as <-; apply Hgo.
  - apply (slist_remove_head hs es m Ht); try done. apply He. set_solver.
  - by apply (stailq_remove_head hs es m Ht).
Qed.

Lemma remove_after_meets log h a x l r t :
  cq_do k (CqRemoveAfter h a) = Some t → L !! h = Some (l ++ a :: x :: r) →
  meets t m log SawNothing (<[h := l ++ a :: r]> L).
Proof using Hm.
  intros Hdo Hh. destruct (list_known _ _ Hh) as (Ht & Hhs & Hl & Hn & He).
  assert (NoDup (l ++ a :: r)) as Hn'.
  { replace (l ++ a :: x :: r) with ((l ++ [a]) ++ x :: r) in Hn by (by rewrite <- app_assoc).
    apply NoDup_cut in Hn as [Hn _]. by rewrite <- app_assoc in Hn. }
  pose proof (λ t H, take_meets log h _ (l ++ a :: r) t Hh H Hn' ltac:(set_solver)) as Hgo.
  destruct k; [| |done]; injection Hdo as <-; apply Hgo.
  - apply (slist_remove_after hs es m Ht); try done; apply He; set_solver.
  - by apply (stailq_remove_after hs es m Ht).
Qed.

(** Two heads exchange what they have. *)
Lemma two_meets log h1 h2 xs ys xs' ys' X (t : client unit) :
  L !! h1 = Some xs → L !! h2 = Some ys → h1 ≠ h2 → X ⊆ list_to_set (xs ++ ys) →
  does {[h1; h2]} X t m (λ _ m', list_at k m' h1 xs' ∧ list_at k m' h2 ys') →
  NoDup (xs' ++ ys') → (∀ y, y ∈ xs' ++ ys' → y ∈ xs ++ ys) →
  meets (nothing t) m log SawNothing (<[h1 := xs']> (<[h2 := ys']> L)).
Proof using Hm.
  intros Hh1 Hh2 Hne HX Ht (Hn1 & Hd & Hn2)%NoDup_app Hys. eapply nothing_meets; [exact Ht|]. intros m' Hc [Hl1 Hl2].
  destruct (list_known _ _ Hh1) as (_ & Hhs1 & _ & _ & He1). destruct (list_known _ _ Hh2) as (_ & Hhs2 & _ & _ & He2).
  assert (∀ h zs x, h ≠ h1 → h ≠ h2 → L !! h = Some zs → x ∈ zs → x ∈ xs ++ ys → False) as Hno.
  { intros h zs x H1 H2 Hz Hx [Hy|Hy]%elem_of_app.
    - by apply H1, (cl_apart _ _ _ _ _ Hm h h1 zs xs x).
    - by apply H2, (cl_apart _ _ _ _ _ Hm h h2 zs ys x). }
  eapply (cq_lists_change _ _ _ {[h1; h2]} X); [done|done|..].
  - intros h zs x Hni Hz Hx HxX. apply (Hno h zs x); [set_solver|set_solver|done|done|set_solver].
  - intros h Hni. rewrite !lookup_insert_ne by set_solver. done.
  - intros h zs Hin Hz. destruct (decide (h = h1)) as [->|Hne1].
    + rewrite lookup_insert_eq in Hz. injection Hz as <-. split; [done|]. split; [done|]. split; [done|].
      intros y Hy. specialize (Hys y ltac:(set_solver)). set_solver.
    + assert (h = h2) as -> by set_solver. rewrite lookup_insert_ne, lookup_insert_eq in Hz by done. injection Hz as <-.
      split; [done|]. split; [done|]. split; [done|]. intros y Hy. specialize (Hys y ltac:(set_solver)). set_solver.
  - intros h zs x Hin Hz Hx h' ws Hne' Hw Hxw.
    destruct (decide (h = h1)) as [->|Hne1]; [|assert (h = h2) as -> by set_solver];
      rewrite ?lookup_insert_eq in Hz; try (rewrite lookup_insert_ne, lookup_insert_eq in Hz by done); injection Hz as <-.
    + rewrite lookup_insert_ne in Hw by done. destruct (decide (h' = h2)) as [->|Hne2].
      * rewrite lookup_insert_eq in Hw. injection Hw as <-. by apply (Hd x).
      * rewrite lookup_insert_ne in Hw by done. apply (Hno h' ws x); [done|done|done|done|]. apply Hys. set_solver.
    + destruct (decide (h' = h1)) as [->|Hne2].
      * rewrite lookup_insert_eq in Hw. injection Hw as <-. by apply (Hd x).
      * rewrite !lookup_insert_ne in Hw by done. apply (Hno h' ws x); [done|done|done|done|]. apply Hys. set_solver.
Qed.

(** The elements of two heads. *)
Lemma two_NoDup h1 h2 xs ys : L !! h1 = Some xs → L !! h2 = Some ys → h1 ≠ h2 → NoDup (xs ++ ys).
Proof using Hm.
  intros Hh1 Hh2 Hne. apply NoDup_app. split; [by apply (list_known h1)|]. split; [|by apply (list_known h2)].
  intros x Hx Hy. by apply Hne, (cl_apart _ _ _ _ _ Hm h1 h2 xs ys x).
Qed.

Lemma swap_meets log h1 h2 xs ys t :
  cq_do k (CqSwap h1 h2) = Some t → L !! h1 = Some xs → L !! h2 = Some ys → h1 ≠ h2 →
  meets t m log SawNothing (<[h1 := ys]> (<[h2 := xs]> L)).
Proof using Hm.
  intros Hdo Hh1 Hh2 Hne. destruct (list_known _ _ Hh1) as (Ht & Hhs1 & Hl1 & _ & He1).
  destruct (list_known _ _ Hh2) as (_ & Hhs2 & Hl2 & _ & He2). pose proof (two_NoDup _ _ _ _ Hh1 Hh2 Hne) as Hn.
  assert (NoDup (ys ++ xs)) as Hn' by (by rewrite Permutation_app_comm).
  pose proof (λ X t H H', two_meets log h1 h2 xs ys ys xs X t Hh1 Hh2 Hne H H' Hn' ltac:(set_solver)) as Hgo.
  destruct k; [|done|]; injection Hdo as <-.
  - apply (Hgo ∅); [set_solver|]. by apply (slist_swap hs es m Ht).
  - apply (Hgo (list_to_set (xs ++ ys))); [done|]. apply (list_swap hs es m Ht); try done. set_solver.
Qed.

Lemma concat_meets log h1 h2 xs ys t :
  cq_do k (CqConcat h1 h2) = Some t → L !! h1 = Some xs → L !! h2 = Some ys → h1 ≠ h2 →
  meets t m log SawNothing (<[h1 := xs ++ ys]> (<[h2 := []]> L)).
Proof using Hm.
  intros Hdo Hh1 Hh2 Hne. destruct (list_known _ _ Hh1) as (Ht & Hhs1 & Hl1 & _ & He1).
  destruct (list_known _ _ Hh2) as (_ & Hhs2 & Hl2 & _ & He2). pose proof (two_NoDup _ _ _ _ Hh1 Hh2 Hne) as Hn.
  assert (NoDup ((xs ++ ys) ++ [])) as Hn' by (by rewrite app_nil_r).
  pose proof (λ X t H H', two_meets log h1 h2 xs ys (xs ++ ys) [] X t Hh1 Hh2 Hne H H' Hn' ltac:(set_solver)) as Hgo.
  destruct k; [done| |done]; injection Hdo as <-.
  apply (Hgo (list_to_set (xs ++ ys))); [done|]. apply (stailq_concat hs es m Ht); try done. set_solver.
Qed.

(** The elements of the second head go to the first, whose own are free from then on. *)
Lemma move_meets log h1 h2 ys t :
  cq_do k (CqMove h1 h2) = Some t → L !! h2 = Some ys → h1 ∈ hs → h1 ≠ h2 →
  meets t m log SawNothing (<[h1 := ys]> (delete h2 L)).
Proof using Hm.
  intros Hdo Hh2 Hh1 Hne. destruct (list_known _ _ Hh2) as (Ht & Hhs2 & Hl2 & Hn & He).
  assert (∀ m', changes {[h1]} (list_to_set ys) m m' → list_at k m' h1 ys → cq_lists k hs es m' (<[h1 := ys]> (delete h2 L))) as Hgo.
  { intros m' Hc Hl.
    assert (cq_lists k hs es m (delete h2 L)) as Hm'.
    { destruct Hm as [M1 M2 M3]. split; [done|..].
      - intros h xs [_ Hh]%lookup_delete_Some. by apply M2.
      - intros h h' xs xs' x [_ Hh]%lookup_delete_Some [_ Hh']%lookup_delete_Some. by apply M3. }
    eapply (cq_lists_change _ _ _ {[h1]}); [exact Hm'|exact Hc|..].
    - intros h xs x _ [Hne' Hh]%lookup_delete_Some Hx Hy. apply Hne'. symmetry.
      apply (cl_apart _ _ _ _ _ Hm h h2 xs ys x); [done|done|done|set_solver].
    - intros h Hni. by rewrite lookup_insert_ne by set_solver.
    - intros h xs ->%elem_of_singleton Hx. rewrite lookup_insert_eq in Hx. by injection Hx as <-.
    - intros h xs x ->%elem_of_singleton Hx Hin h' zs Hne' Hz Hin'. rewrite lookup_insert_eq in Hx. injection Hx as <-.
      rewrite lookup_insert_ne in Hz by done. apply lookup_delete_Some in Hz as [Hne2 Hz].
      apply Hne2. by apply (cl_apart _ _ _ _ _ Hm h2 h' ys zs x). }
  destruct k; injection Hdo as <-; (eapply nothing_meets; [|exact Hgo]).
  - eapply does_weaken; [reflexivity| |by apply (slist_move hs es m Ht)]. set_solver.
  - eapply does_weaken; [reflexivity| |by apply (stailq_move hs es m Ht)]. set_solver.
  - by apply (list_move hs es m Ht).
Qed.

Lemma init_meets log h t :
  cq_do k (CqInit h) = Some t → h ∈ hs → meets t m log SawNothing (<[h := []]> L).
Proof using Hm.
  intros Hdo Hhs. pose proof (cl_there _ _ _ _ _ Hm) as Ht.
  assert (∀ m', changes {[h]} ∅ m m' → list_at k m' h [] → cq_lists k hs es m' (<[h := []]> L)) as Hgo.
  { intros m' Hc Hl. eapply (cq_lists_change _ _ _ {[h]} ∅); [done|done|..].
    - set_solver.
    - intros h' Hni. by rewrite lookup_insert_ne by set_solver.
    - intros h' xs ->%elem_of_singleton Hx. rewrite lookup_insert_eq in Hx. injection Hx as <-.
      split; [done|]. split; [done|]. split; [constructor|set_solver].
    - intros h' xs x ->%elem_of_singleton Hx Hin. rewrite lookup_insert_eq in Hx. injection Hx as <-. set_solver. }
  destruct k; injection Hdo as <-; (eapply nothing_meets; [|exact Hgo]).
  - by apply (slist_init hs es m Ht).
  - by apply (stailq_init hs es m Ht).
  - by apply (list_init hs es m Ht).
Qed.

Lemma filter_use_meets log h xs p t :
  cq_do k (CqFilter h p) = Some t → L !! h = Some xs →
  meets t m log SawNothing (<[h := filter (λ x, p x = false) xs]> L).
Proof using Hm.
  intros Hdo Hh. destruct (list_known _ _ Hh) as (_ & Hhs & _).
  pose proof (λ rm, filter_meets k hs es h xs m log L rm p Hm Hh) as Hgo.
  destruct k; injection Hdo as <-; apply Hgo; intros m' l x r Ht He Hl Hn.
  - by apply (slist_remove hs es m' Ht).
  - by apply (stailq_remove hs es m' Ht).
  - by apply (list_remove hs es m' Ht).
Qed.

(** A use that only looks. *)
Lemma look_meets u log t r L' :
  match u with CqEmpty _ | CqFirst _ | CqNext _ _ | CqAll _ => True | _ => False end →
  cq_do k u = Some t → cq_means hs es L u = Some (r, L') → meets t m log r L'.
Proof using Hm.
  intros Hu Hdo H. destruct u as [h|h|h|h x|h|h p|h x|h a x|h a x|h x|h|h a|h x|h1 h2|h1 h2|h1 h2]; try done;
    cbn [cq_means] in H; (destruct (L !! h) as [xs|] eqn:Hh; [cbn [mbind option_bind] in H|done]).
  - injection H as <- <-. pose proof (empty_meets k hs es h xs m log L Hm Hh) as Hgo. destruct k; injection Hdo as <-; exact Hgo.
  - injection H as <- <-. pose proof (first_meets k hs es h xs m log L Hm Hh) as Hgo. destruct k; injection Hdo as <-; exact Hgo.
  - destruct (cut x xs) as [[l r0]|] eqn:Ec; [|done]. apply cut_spec in Ec as ->. injection H as <- <-.
    pose proof (next_meets k hs es h x l r0 m log L Hm Hh) as Hgo. destruct k; injection Hdo as <-; exact Hgo.
  - injection H as <- <-. pose proof (all_meets k hs es h xs m log L Hm Hh) as Hgo. destruct k; injection Hdo as <-; exact Hgo.
Qed.

(** Every use does what it means. *)
Lemma use_meets u log t r L' : cq_do k u = Some t → cq_means hs es L u = Some (r, L') → meets t m log r L'.
Proof using Hm.
  intros Hdo H. destruct u as [h|h|h|h x|h|h p|h x|h a x|h a x|h x|h|h a|h x|h1 h2|h1 h2|h1 h2];
    try (solve [eapply look_meets; [|exact Hdo|exact H]; exact I]); cbn [cq_means] in H;
    try (destruct (L !! h) as [xs|] eqn:Hh; [cbn [mbind option_bind] in H|done]);
    try (destruct (L !! h1) as [xs|] eqn:Hh1; [cbn [mbind option_bind] in H|done]);
    try (destruct (L !! h2) as [ys|] eqn:Hh2; [cbn [mbind option_bind] in H|done]);
    try (destruct (cut a xs) as [[l r0]|] eqn:Ec; [cbn [mbind option_bind] in H; apply cut_spec in Ec as ->|done]);
    try (destruct (cut x xs) as [[l r0]|] eqn:Ec; [cbn [mbind option_bind] in H; apply cut_spec in Ec as ->|done]);
    try (destruct (free es L x) eqn:Ef; [|done]); try (case_decide as Ed; [|done]).
  - injection H as <- <-. by apply init_meets.
  - injection H as <- <-. by apply filter_use_meets.
  - injection H as <- <-. by apply insert_head_meets.
  - injection H as <- <-. by apply insert_after_meets.
  - injection H as <- <-. by apply insert_before_meets.
  - injection H as <- <-. by apply insert_tail_meets.
  - destruct xs as [|x xs]; [done|]. injection H as <- <-. by eapply remove_head_meets.
  - destruct r0 as [|x r0]; [done|]. injection H as <- <-. by eapply remove_after_meets.
  - injection H as <- <-. by eapply remove_meets.
  - injection H as <- <-. destruct Ed. by apply move_meets.
  - injection H as <- <-. by apply swap_meets.
  - injection H as <- <-. by apply concat_meets.
Qed.
End uses.

(** ** The property *)

(** Structs at the heads [hs] and the elements [es], whatever their pointers are. *)
Lemma cq_lists_none k hs es m : cq_there k m hs es → cq_lists k hs es m ∅.
Proof. intros Ht. split; [done|..]; by intros ? *; rewrite lookup_empty. Qed.

Lemma uses_meet k hs es us m log L rs L' :
  cq_lists k hs es m L → cq_mean k hs es L us = Some (rs, L') →
  runs (cq_runs k us) (m, log) (λ rs' s, rs' = rs ∧ cq_lists k hs es s.1 L').
Proof.
  revert m log L rs. induction us as [|u us IH]; intros m log L rs Hm H; cbn [cq_mean cq_runs] in *.
  - injection H as <- <-. by apply runs_ret.
  - destruct (cq_do k u) as [t|] eqn:Hdo; [|done]. cbn [mbind option_bind] in H.
    destruct (cq_means hs es L u) as [[r L1]|] eqn:Hu; [|done]. cbn [mbind option_bind] in H.
    destruct (cq_mean k hs es L1 us) as [[rs1 L2]|] eqn:Hus; [|done]. cbn [mbind option_bind] in H. injection H as <- <-.
    apply runs_bind. eapply runs_mono; [by eapply use_meets|]. intros r' [m1 log1] [-> Hm1]. cbn in Hm1.
    apply runs_bind. eapply runs_mono; [by eapply IH|]. intros rs' [m2 log2] [-> Hm2]. by apply runs_ret.
Qed.

(** C29 (refinement). The lists of ck_queue.h are lists.  In a memory with heads and elements of one kind, any sequence of
    uses that puts no element into two places at once, and asks of no head that was not initialised, ends without a
    fault, and sees and leaves what the operations on lists give: also a removal inside CK_SLIST_FOREACH_SAFE and its
    kin, and an insertion through the pointer of CK_SLIST_FOREACH_PREVPTR. *)
Theorem ck_queue_refines_lists (k : cq_kind) (hs es : gset Z) (m : cq_memory) (us : list cq_use) rs L :
  cq_there k m hs es →
  cq_mean k hs es ∅ us = Some (rs, L) →
  runs (cq_runs k us) (m, []) (λ rs' s, rs' = rs ∧ ∀ h xs, L !! h = Some xs → list_at k s.1 h xs).
Proof.
  intros Ht H. eapply runs_mono; [eapply uses_meet; [by apply cq_lists_none|exact H]|].
  intros rs' s [-> Hm]. split; [done|]. intros h xs Hh. by apply (cl_at _ _ _ _ _ Hm h xs).
Qed.

(** Two heads and four elements, whose pointers were never set. *)
Definition raw_memory : cq_memory :=
  MkCq (list_to_map [(1, 77); (2, 77)]) (list_to_map [(1, RefHead 77); (2, RefHead 77)])
    (list_to_map [(11, 77); (12, 77); (13, 77); (14, 77)])
    (list_to_map [(11, RefHead 77); (12, RefHead 77); (13, RefHead 77); (14, RefHead 77)]).

Lemma raw_memory_there k : cq_there k raw_memory {[1; 2]} {[11; 12; 13; 14]}.
Proof.
  split.
  - intros h Hh. assert (h = 1 ∨ h = 2) as [-> | ->] by set_solver; split; (lia || by eexists).
  - intros h _ Hh. assert (h = 1 ∨ h = 2) as [-> | ->] by set_solver; by eexists.
  - intros e He. assert (e = 11 ∨ e = 12 ∨ e = 13 ∨ e = 14) as [-> | [-> | [-> | ->]]] by set_solver; split; (lia || by eexists).
  - intros e _ He. assert (e = 11 ∨ e = 12 ∨ e = 13 ∨ e = 14) as [-> | [-> | [-> | ->]]] by set_solver; by eexists.
Qed.

(** A tail queue that takes the elements of another, and a list whose odd elements are removed by a loop over it. *)
Lemma ck_queue_refines_lists_witness :
  runs (cq_runs Stailq [CqInit 1; CqInsertTail 1 11; CqInsertHead 1 12; CqInit 2; CqInsertTail 2 13; CqConcat 1 2;
      CqInsertAfter 1 13 14; CqRemove 1 11; CqAll 1; CqEmpty 2]) (raw_memory, [])
    (λ rs s, rs = [SawNothing; SawNothing; SawNothing; SawNothing; SawNothing; SawNothing; SawNothing; SawNothing;
      SawAll [12; 13; 14]; SawBool true] ∧ list_at Stailq s.1 1 [12; 13; 14]) ∧
  runs (cq_runs List [CqInit 1; CqInsertHead 1 11; CqInsertAfter 1 11 12; CqInsertBefore 1 12 13; CqInsertHead 1 14;
      CqFilter 1 Z.odd; CqAll 1; CqInit 2; CqSwap 1 2; CqFirst 2]) (raw_memory, [])
    (λ rs s, rs = [SawNothing; SawNothing; SawNothing; SawNothing; SawNothing; SawNothing; SawAll [14; 12]; SawNothing;
      SawNothing; SawElem 14] ∧ list_at List s.1 2 [14; 12]).
Proof.
  split; (eapply runs_mono; [eapply (ck_queue_refines_lists _ {[1; 2]} {[11; 12; 13; 14]}); [apply raw_memory_there|]|]).
  1, 3: vm_compute; reflexivity.
  - intros rs s [-> H]. split; [done|]. by apply H.
  - intros rs s [-> H]. split; [done|]. by apply H.
Defined.
