(* ===== verification/CkQueueReaders.v ===== *)
(** CkQueueReaders: the loops of ck_queue.h beside a thread that changes the list: "it is safe to use _FOREACH and
    _FOREACH_SAFE in the presence of concurrent modifications".

    One thread puts in elements that were not in the list before, and takes elements out, whose memory stays; any
    number of threads go over the list meanwhile, and log what they see.  Every element that is in the list all the
    time is seen by every thread that gets to the end. *)

From Stdlib Require Import ZArith Lia.
From stdpp Require Import base list gmap.
From ITree Require Import Core.ITreeDefinition.
From S2P Require Import Prelude Concurrent CkPr CkQueue CkQueueLists.

#[local] Open Scope Z_scope.
#[local] Set Warnings "-clear-no-such-hyp".

(** ** Following the pointers *)

Inductive leads (nx : gmap Z Z) : Z → Z → Prop :=
  | leads_here c : c ≠ 0 → leads nx c c
  | leads_next c d y : c ≠ 0 → nx !! c = Some d → leads nx d y → leads nx c y.

Lemma leads_past nx c d y : leads nx c y → y ≠ c → nx !! c = Some d → leads nx d y.
Proof. intros H Hne Hd. inversion H; subst; [done|]. by simplify_eq. Qed.

Lemma leads_not_null nx y : ¬ leads nx 0 y.
Proof. by inversion 1. Qed.

(** An element is put between [a] and what follows it. *)
Lemma leads_link nx a x v c y : nx !! a = Some v → nx !! x = Some v → x ≠ a → x ≠ 0 → leads nx c y → leads (<[a := x]> nx) c y.
Proof.
  intros Ha Hx Hxa Hx0 H. induction H as [c Hc|c d y Hc Hd H IH]; [by apply leads_here|].
  destruct (decide (c = a)) as [->|Hne].
  - rewrite Ha in Hd. injection Hd as <-. eapply leads_next; [done|by rewrite lookup_insert_eq|].
    eapply leads_next; [done|by rewrite lookup_insert_ne|done].
  - eapply leads_next; [done|by rewrite lookup_insert_ne|done].
Qed.

(** The element [x] is taken out after [a]. *)
Lemma leads_unlink nx a x v c y : nx !! a = Some x → nx !! x = Some v → y ≠ x → leads nx c y → leads (<[a := v]> nx) c y.
Proof.
  intros Ha Hx Hyx H. induction H as [c Hc|c d y Hc Hd H IH]; [by apply leads_here|].
  destruct (decide (c = a)) as [->|Hne].
  - rewrite Ha in Hd. injection Hd as <-. destruct (decide (x = a)) as [->|Hxa]; [by apply IH|].
    specialize (IH Hyx). inversion IH as [|? d' ? _ Hd' H']; subst; [done|].
    rewrite lookup_insert_ne in Hd' by done. simplify_eq. eapply leads_next; [done|by rewrite lookup_insert_eq|done].
  - eapply leads_next; [done|by rewrite lookup_insert_ne|by apply IH].
Qed.

Lemma leads_seg nx xs q y : seg nx xs q → (∀ x, x ∈ xs → x ≠ 0) → y ∈ xs → leads nx (head_or q xs) y.
Proof.
  induction xs as [|x xs IH]; cbn; intros Hs H0 Hy; [by apply elem_of_nil in Hy|]. destruct Hs as [Hx Hs].
  apply elem_of_cons in Hy as [->|Hy]; [apply leads_here, H0; set_solver|].
  eapply leads_next; [apply H0; set_solver|done|]. apply IH; [done|set_solver|done].
Qed.

(** ** What the thread that changes the list keeps *)

Section keeps.
Context (h : Z) (S : gset Z).

(** What a thread can come to: the elements of [V], that were in the list at some time. *)
Record closed (m : cq_memory) (V : gset Z) : Prop := {
  cd_next p : p ∈ V → p ≠ 0 ∧ ∃ v, cq_next m !! p = Some v ∧ (v = 0 ∨ v ∈ V);
  cd_first : ∃ v, cq_first m !! h = Some v ∧ (v = 0 ∨ v ∈ V)
}.

(** From where an element of [S] was reached, it is reached after the step. *)
Record keeps (m : cq_memory) (V : gset Z) (m' : cq_memory) (V' : gset Z) : Prop := {
  ks_more : V ⊆ V';
  ks_closed : closed m' V';
  ks_leads c y : c ∈ V → y ∈ S → leads (cq_next m) c y → leads (cq_next m') c y;
  ks_first f f' y : cq_first m !! h = Some f → cq_first m' !! h = Some f' → y ∈ S →
    leads (cq_next m) f y → leads (cq_next m') f' y
}.

Lemma closed_leads m V x v c y :
  closed m V → x ∉ V → c ∈ V → leads (cq_next m) c y → leads (<[x := v]> (cq_next m)) c y.
Proof.
  intros HC Hx Hc H. revert Hc. induction H as [c Hc0|c d y Hc0 Hd H IH]; intros Hc; [by apply leads_here|].
  destruct (cd_next _ _ HC c Hc) as (_ & d' & Hd' & Hdv). rewrite Hd in Hd'. injection Hd' as <-.
  assert (c ≠ x) by (intros ->; done). eapply leads_next; [done|by rewrite lookup_insert_ne|].
  destruct Hdv as [->|Hdv]; [by apply leads_not_null in H|by apply IH].
Qed.

(** A pointer of an element that is not in the list yet. *)
Lemma keeps_fresh m V x v : closed m V → x ∉ V → keeps m V (loc_set cq_next_loc (<[x := v]> (cq_next m)) m) V.
Proof.
  intros HC Hx. split; [done| | |].
  - split; [|apply (cd_first _ _ HC)]. intros p Hp. destruct (cd_next _ _ HC p Hp) as (Hp0 & w & Hw & Hv). split; [done|].
    exists w. cbn. rewrite lookup_insert_ne; [done|]. by intros ->.
  - intros c y Hc _ H. cbn. by eapply closed_leads.
  - intros f f' y Hf Hf' _ H. cbn in *. rewrite Hf in Hf'. injection Hf' as <-.
    destruct (cd_first _ _ HC) as (f' & Hf' & Hfv). rewrite Hf in Hf'. injection Hf' as <-.
    destruct Hfv as [->|Hfv]; [by apply leads_not_null in H|by eapply closed_leads].
Qed.

(** Other members than the first and next pointers. *)
Lemma keeps_other m V m' : closed m V → cq_first m' = cq_first m → cq_next m' = cq_next m → keeps m V m' V.
Proof.
  intros HC Ef En. split; [done| | |].
  - split; [rewrite En; apply (cd_next _ _ HC)|rewrite Ef; apply (cd_first _ _ HC)].
  - intros c y _ _. by rewrite En.
  - intros f f' y Hf Hf' _. rewrite En. rewrite Ef, Hf in Hf'. by injection Hf' as <-.
Qed.

Lemma keeps_link m V a x v :
  closed m V → a ∈ V → x ∉ V → x ≠ 0 → cq_next m !! a = Some v → cq_next m !! x = Some v →
  keeps m V (loc_set cq_next_loc (<[a := x]> (cq_next m)) m) ({[x]} ∪ V).
Proof.
  intros HC Ha Hx Hx0 Hna Hnx. assert (x ≠ a) as Hxa by (by intros ->).
  destruct (cd_next _ _ HC a Ha) as (Ha0 & v' & Hv' & Hvv). rewrite Hna in Hv'. injection Hv' as <-. split.
  - set_solver.
  - split; cbn.
    + intros p Hp. destruct (decide (p = a)) as [->|Hpa].
      * split; [done|]. exists x. rewrite lookup_insert_eq. split; [done|]. set_solver.
      * rewrite lookup_insert_ne by done. destruct (decide (p = x)) as [->|Hpx].
        -- split; [done|]. exists v. split; [done|]. set_solver.
        -- destruct (cd_next _ _ HC p ltac:(set_solver)) as (Hp0 & w & Hw & Hv). split; [done|]. exists w. set_solver.
    + destruct (cd_first _ _ HC) as (w & Hw & Hv). exists w. set_solver.
  - intros c y _ _ H. cbn. by eapply leads_link.
  - intros f f' y Hf Hf' _ H. cbn in *. rewrite Hf in Hf'. injection Hf' as <-. by eapply leads_link.
Qed.

Lemma keeps_link_first m V x v :
  closed m V → x ∉ V → x ≠ 0 → cq_first m !! h = Some v → cq_next m !! x = Some v →
  keeps m V (loc_set cq_first_loc (<[h := x]> (cq_first m)) m) ({[x]} ∪ V).
Proof.
  intros HC Hx Hx0 Hf Hnx. destruct (cd_first _ _ HC) as (v' & Hv' & Hvv). rewrite Hf in Hv'. injection Hv' as <-. split.
  - set_solver.
  - split; cbn.
    + intros p Hp. destruct (decide (p = x)) as [->|Hpx]; [split; [done|]; exists v; set_solver|].
      destruct (cd_next _ _ HC p ltac:(set_solver)) as (Hp0 & w & Hw & Hv). split; [done|]. exists w. set_solver.
    + exists x. rewrite lookup_insert_eq. split; [done|]. set_solver.
  - done.
  - intros f f' y Hf0 Hf' _ H. cbn in *. rewrite Hf in Hf0. injection Hf0 as <-. rewrite lookup_insert_eq in Hf'.
    injection Hf' as <-. by eapply leads_next.
Qed.

Lemma keeps_unlink m V a x v :
  closed m V → a ∈ V → x ∈ V → x ∉ S → cq_next m !! a = Some x → cq_next m !! x = Some v →
  keeps m V (loc_set cq_next_loc (<[a := v]> (cq_next m)) m) V.
Proof.
  intros HC Ha Hx HxS Hna Hnx. destruct (cd_next _ _ HC x Hx) as (Hx0 & v' & Hv' & Hvv). rewrite Hnx in Hv'. injection Hv' as <-.
  split; [done| | |].
  - split; [|apply (cd_first _ _ HC)]. intros p Hp. cbn. destruct (decide (p = a)) as [->|Hpa].
    + destruct (cd_next _ _ HC a Ha) as [Ha0 _]. split; [done|]. exists v. by rewrite lookup_insert_eq.
    + rewrite lookup_insert_ne by done. by apply (cd_next _ _ HC).
  - intros c y _ Hy H. cbn. eapply leads_unlink; [done|done| |done]. by intros ->.
  - intros f f' y Hf Hf' Hy H. cbn in *. rewrite Hf in Hf'. injection Hf' as <-. eapply leads_unlink; [done|done| |done]. by intros ->.
Qed.

Lemma keeps_unlink_first m V x v :
  closed m V → x ∈ V → x ∉ S → cq_first m !! h = Some x → cq_next m !! x = Some v →
  keeps m V (loc_set cq_first_loc (<[h := v]> (cq_first m)) m) V.
Proof.
  intros HC Hx HxS Hf Hnx. destruct (cd_next _ _ HC x Hx) as (Hx0 & v' & Hv' & Hvv). rewrite Hnx in Hv'. injection Hv' as <-.
  split; [done| |done|].
  - split; [apply (cd_next _ _ HC)|]. exists v. cbn. by rewrite lookup_insert_eq.
  - intros f f' y Hf0 Hf' Hy H. cbn in *. rewrite Hf in Hf0. injection Hf0 as <-. rewrite lookup_insert_eq in Hf'.
    injection Hf' as <-. eapply leads_past; [exact H| |done]. by intros ->.
Qed.
End keeps.

(** ** Threads *)

Definition rd_memory : Type := cq_memory * list (nat * Z).
Abbreviation rd_mem := (the_lists (U := list (nat * Z))).

(** The thread [i] logs the element. *)
Definition see (i : nat) (x : Z) : prog rd_memory unit := atomic (λ s : rd_memory, Prelude.Ret (tt, (s.1, s.2 ++ [(i, x)]))).

Definition reader (k : cq_kind) (h : Z) (i : nat) (safe : bool) : prog rd_memory unit :=
  match k, safe with
  | Slist, false => CK_SLIST_FOREACH rd_mem h (see i)
  | Slist, true => CK_SLIST_FOREACH_SAFE rd_mem h (see i)
  | Stailq, false => CK_STAILQ_FOREACH rd_mem h (see i)
  | Stailq, true => CK_STAILQ_FOREACH_SAFE rd_mem h (see i)
  | List, false => CK_LIST_FOREACH rd_mem h (see i)
  | List, true => CK_LIST_FOREACH_SAFE rd_mem h (see i)
  end.

Inductive cq_edit : Type := EdHead (x : Z) | EdAfter (a x : Z) | EdBefore (a x : Z) | EdTail (x : Z) | EdRemove (x : Z).

Definition cq_edit_do (k : cq_kind) (h : Z) (e : cq_edit) : option (prog rd_memory unit) :=
  match k, e with
  | Slist, EdHead x => Some (CK_SLIST_INSERT_HEAD rd_mem h x)
  | Slist, EdAfter a x => Some (CK_SLIST_INSERT_AFTER rd_mem a x)
  | Slist, EdRemove x => Some (CK_SLIST_REMOVE rd_mem h x)
  | Stailq, EdHead x => Some (CK_STAILQ_INSERT_HEAD rd_mem h x)
  | Stailq, EdAfter a x => Some (CK_STAILQ_INSERT_AFTER rd_mem h a x)
  | Stailq, EdTail x => Some (CK_STAILQ_INSERT_TAIL rd_mem h x)
  | Stailq, EdRemove x => Some (CK_STAILQ_REMOVE rd_mem h x)
  | List, EdHead x => Some (CK_LIST_INSERT_HEAD rd_mem h x)
  | List, EdAfter a x => Some (CK_LIST_INSERT_AFTER rd_mem a x)
  | List, EdBefore a x => Some (CK_LIST_INSERT_BEFORE rd_mem a x)
  | List, EdRemove x => Some (CK_LIST_REMOVE rd_mem x)
  | _, _ => None
  end.

Fixpoint writer (k : cq_kind) (h : Z) (eds : list cq_edit) : prog rd_memory unit :=
  match eds with
  | [] => mret tt
  | e :: eds => match cq_edit_do k h e with Some t => t;; writer k h eds | None => mret tt end
  end.

(** What the edits make of the list: an element that is put in was not in it before, which are those of [V]. *)
Definition edit_means (es V : gset Z) (xs : list Z) (e : cq_edit) : option (list Z * gset Z) :=
  let fresh x := bool_decide (x ∈ es ∧ x ∉ V) in
  match e with
  | EdHead x => if fresh x then Some (x :: xs, {[x]} ∪ V) else None
  | EdAfter a x => '(l, r) ← cut a xs; if fresh x then Some (l ++ a :: x :: r, {[x]} ∪ V) else None
  | EdBefore a x => '(l, r) ← cut a xs; if fresh x then Some (l ++ x :: a :: r, {[x]} ∪ V) else None
  | EdTail x => if fresh x then Some (xs ++ [x], {[x]} ∪ V) else None
  | EdRemove x => '(l, r) ← cut x xs; Some (l ++ r, V)
  end.

Fixpoint edits_mean (k : cq_kind) (h : Z) (es V : gset Z) (xs : list Z) (eds : list cq_edit) : option (list Z * gset Z) :=
  match eds with
  | [] => Some (xs, V)
  | e :: eds => _ ← cq_edit_do k h e; '(xs, V) ← edit_means es V xs e; edits_mean k h es V xs eds
  end.

(** ** The invariant *)

(** The thread that changes the list knows the memory and what was ever in the list.  Another has not begun; is at
    [c], has yet to see [U], and finds it from there; is at [c], and has the one after it, [d]. *)
Inductive rd_ghost : Type :=
  | RdWriter (m : cq_memory) (V : gset Z) | RdNew | RdAt (c : Z) (U : gset Z) | RdTwo (c d : Z) (U : gset Z).

Section invariant.
Context (h : Z) (S W : gset Z).

Definition rd_ok (m : cq_memory) (V : gset Z) (tr : list (nat * Z)) (i : nat) (g : rd_ghost) : Prop :=
  match g with
  | RdWriter m' V' => i = 0%nat ∧ m' = m ∧ V' = V
  | RdNew => True
  | RdAt c U => (c = 0 ∨ c ∈ V) ∧ U ⊆ S ∧ (∀ y, y ∈ U → leads (cq_next m) c y) ∧ ∀ y, y ∈ S → y ∈ U ∨ (i, y) ∈ tr
  | RdTwo c d U => c ∈ V ∧ (d = 0 ∨ d ∈ V) ∧ U ⊆ S ∧ (∀ y, y ∈ U → y = c ∨ leads (cq_next m) d y)
      ∧ ∀ y, y ∈ S → y ∈ U ∨ (i, y) ∈ tr
  end.

Definition rd_inv (s : rd_memory) (gs : list rd_ghost) : Prop :=
  ∃ V, closed h s.1 V ∧ V ⊆ W ∧ (∀ f y, cq_first s.1 !! h = Some f → y ∈ S → leads (cq_next s.1) f y)
    ∧ gs !! 0%nat = Some (RdWriter s.1 V) ∧ (∀ i g, gs !! i = Some g → rd_ok s.1 V s.2 i g)
    ∧ ∀ i y, (i, y) ∈ s.2 → y ∈ V.

(** The writer makes a step. *)
Lemma rd_inv_writer m tr gs V m' V' :
  rd_inv (m, tr) gs → gs !! 0%nat = Some (RdWriter m V) → keeps h S m V m' V' → V' ⊆ W →
  rd_inv (m', tr) (<[0%nat := RdWriter m' V']> gs).
Proof.
  intros (V0 & HC & HV & Hf & H0 & Hok & Htr) Hg HK HV'. cbn [fst snd] in *. rewrite H0 in Hg. injection Hg as ->.
  pose proof (lookup_lt_Some _ _ _ H0) as Hlt. destruct HK as [Hmore HC' Hl Hlf]. exists V'. cbn [fst snd]. split; [done|]. split; [done|].
  assert (∀ c y, (c = 0 ∨ c ∈ V) → y ∈ S → leads (cq_next m) c y → leads (cq_next m') c y) as Hl'.
  { intros c y [->|Hc] Hy H; [by apply leads_not_null in H|by apply Hl]. }
  split; [|split; [|split]].
  - intros f y Hf' Hy. destruct (cd_first _ _ _ HC) as (f0 & Hf0 & _). eapply Hlf; [exact Hf0|done|done|by apply Hf].
  - by rewrite list_lookup_insert_eq.
  - intros i g [[-> E]|[Hne Hi]]%insert_case; [by subst g|]. specialize (Hok i g Hi). destruct g as [m0 V0| |c U|c d U]; cbn in *.
    + by destruct Hok.
    + done.
    + destruct Hok as (Hc & HU & Hlc & Hs). split; [set_solver|]. split; [done|]. split; [|done]. intros y Hy. apply Hl'; auto.
    + destruct Hok as (Hc & Hd & HU & Hlc & Hs). split; [set_solver|]. split; [set_solver|]. split; [done|]. split; [|done].
      intros y Hy. destruct (Hlc y Hy); [by left|right]. apply Hl'; auto.
  - intros i y Hy. apply Hmore. by eapply Htr.
Qed.

(** A reader makes a step, and perhaps logs an element. *)
Lemma wp_reader_step n A (f : rd_memory → outcome (A * rd_memory)) i (Q : A → rd_ghost → Prop) g :
  (∀ m V, g ≠ RdWriter m V) →
  (∀ m tr V, closed h m V → (∀ f y, cq_first m !! h = Some f → y ∈ S → leads (cq_next m) f y) → rd_ok m V tr i g →
     ∃ a log g', f (m, tr) = Prelude.Ret (a, (m, tr ++ log)) ∧ rd_ok m V (tr ++ log) i g' ∧ (∀ j y, (j, y) ∈ log → y ∈ V) ∧ Q a g') →
  wp rd_inv n (atomic f) i Q g.
Proof.
  intros Hg H. apply wp_atomic. intros [m tr] gs (V & HC & HV & Hf & H0 & Hok & Htr) Hi.
  cbn [fst snd] in *. destruct (H m tr V HC Hf (Hok i g Hi)) as (a & log & g' & E & Hok' & Hlog & HQ).
  exists a, (m, tr ++ log), g'. split; [done|]. split; [|done].
  exists V. cbn [fst snd]. do 3 (split; [done|]). split; [|split].
  - rewrite list_lookup_insert_ne; [done|]. intros ->. rewrite H0 in Hi. injection Hi as <-. by eapply Hg.
  - intros j g0 [[-> E0]|[Hne Hj]]%insert_case; [by subst g0|]. specialize (Hok j g0 Hj). clear -Hok.
    destruct g0 as [m0 V0| |c U|c d U]; cbn in *; try done.
    + destruct Hok as (? & ? & ? & Hs). do 3 (split; [done|]). intros y Hy. destruct (Hs y Hy); set_solver.
    + destruct Hok as (? & ? & ? & ? & Hs). do 4 (split; [done|]). intros y Hy. destruct (Hs y Hy); set_solver.
  - intros j y [Hj|Hj]%elem_of_app; [by eapply Htr|by eapply Hlog].
Qed.

(** It reads a pointer, and logs nothing. *)
Lemma wp_reader_get n {A} (f : loc cq_memory (gmap Z A)) p i (Q : A → rd_ghost → Prop) g :
  (∀ m V, g ≠ RdWriter m V) →
  (∀ m tr V, closed h m V → (∀ f y, cq_first m !! h = Some f → y ∈ S → leads (cq_next m) f y) → rd_ok m V tr i g →
     p ≠ 0 ∧ ∃ v g', loc_get f m !! p = Some v ∧ rd_ok m V tr i g' ∧ Q v g') →
  wp rd_inv n (get (rd_mem →' f) p) i Q g.
Proof.
  intros Hg H. apply wp_reader_step; [done|]. intros m tr V HC Hf Hok.
  destruct (H m tr V HC Hf Hok) as (Hp & v & g' & Hv & Hok' & HQ). exists v, [], g'. cbn.
  rewrite app_nil_r, (deref_lookup _ _ _ Hp Hv). repeat split; try done. intros j y Hj. by apply elem_of_nil in Hj.
Qed.

(** At an element, or at the end. *)
Definition rd_at (c : Z) (g : rd_ghost) : Prop := ∃ U, g = RdAt c U.

Lemma reader_first n i : h ≠ 0 → wp rd_inv n (get (rd_mem →' cq_first_loc) h) i rd_at RdNew.
Proof.
  intros Hh. apply wp_reader_get; [done|]. intros m tr V HC Hf _. split; [done|].
  destruct (cd_first _ _ _ HC) as (v & Hv & HvV). exists v, (RdAt v S). split; [done|]. split; [|by exists S].
  split; [done|]. split; [done|]. split; [|by left]. intros y Hy. by eapply Hf.
Qed.

Lemma reader_next n i c U : c ≠ 0 → c ∉ U → wp rd_inv n (get (rd_mem →' cq_next_loc) c) i (λ d g, rd_at d g) (RdAt c U).
Proof.
  intros Hc HcU. apply wp_reader_get; [done|]. intros m tr V HC Hf ([->|HcV] & HU & Hl & Hs); [done|]. split; [done|].
  destruct (cd_next _ _ _ HC c HcV) as (_ & d & Hd & HdV). exists d, (RdAt d U). split; [done|]. split; [|by exists U].
  do 2 (split; [done|]). split; [|done]. intros y Hy. eapply leads_past; [by apply Hl| |done]. by intros ->.
Qed.

Lemma reader_next_two n i c U : c ≠ 0 → wp rd_inv n (get (rd_mem →' cq_next_loc) c) i (λ d g, ∃ U, g = RdTwo c d U) (RdAt c U).
Proof.
  intros Hc. apply wp_reader_get; [done|]. intros m tr V HC Hf ([->|HcV] & HU & Hl & Hs); [done|]. split; [done|].
  destruct (cd_next _ _ _ HC c HcV) as (_ & d & Hd & HdV). exists d, (RdTwo c d U). split; [done|]. split; [|by exists U].
  do 3 (split; [done|]). split; [|done]. intros y Hy. destruct (decide (y = c)) as [->|Hne]; [by left|right].
  by eapply leads_past; [apply Hl| |].
Qed.

Lemma reader_see n i c U : c ≠ 0 → wp rd_inv n (see i c) i (λ _ g, ∃ U, g = RdAt c U ∧ c ∉ U) (RdAt c U).
Proof.
  intros Hc. apply wp_reader_step; [done|]. intros m tr V HC Hf ([->|HcV] & HU & Hl & Hs); [done|].
  exists tt, [(i, c)], (RdAt c (U ∖ {[c]})). split; [done|]. split; [|split].
  - split; [by right|]. split; [set_solver|]. split; [set_solver|]. intros y Hy.
    destruct (decide (y = c)) as [->|Hne]; [right; set_solver|]. destruct (Hs y Hy); set_solver.
  - set_solver.
  - exists (U ∖ {[c]}). split; [done|]. set_solver.
Qed.

Lemma reader_see_two n i c d U : wp rd_inv n (see i c) i (λ _, rd_at d) (RdTwo c d U).
Proof.
  apply wp_reader_step; [done|]. intros m tr V HC Hf (HcV & HdV & HU & Hl & Hs).
  exists tt, [(i, c)], (RdAt d (U ∖ {[c]})). split; [done|]. split; [|split].
  - split; [done|]. split; [set_solver|]. split.
    + intros y Hy. destruct (Hl y ltac:(set_solver)); [set_solver|done].
    + intros y Hy. destruct (decide (y = c)) as [->|Hne]; [right; set_solver|]. destruct (Hs y Hy); set_solver.
  - set_solver.
  - by exists (U ∖ {[c]}).
Qed.

Lemma reader_foreach n i c g : rd_at c g → wp rd_inv n (foreach rd_mem (see i) c) i (λ _, rd_at 0) g.
Proof.
  intros Hg. apply (wp_loop _ _ _ _ _ rd_at); [done|]. clear. intros n c g [U ->].
  destruct (Z.eqb_spec c 0) as [->|Hc]; [apply wp_ret; by exists U|].
  apply wp_bind. eapply wp_mono; [by apply reader_see|]. intros _ g (U' & -> & HcU).
  apply wp_bind. eapply wp_mono; [by apply reader_next|]. intros d g Hg. by apply wp_ret.
Qed.

Lemma reader_foreach_safe n i c g : rd_at c g → wp rd_inv n (foreach_safe rd_mem (see i) c) i (λ _, rd_at 0) g.
Proof.
  intros Hg. apply (wp_loop _ _ _ _ _ rd_at); [done|]. clear. intros n c g [U ->].
  destruct (Z.eqb_spec c 0) as [->|Hc]; [apply wp_ret; by exists U|].
  apply wp_bind. eapply wp_mono; [by apply reader_next_two|]. intros d g (U' & ->).
  apply wp_bind. eapply wp_mono; [by apply reader_see_two|]. intros [] g Hg. by apply wp_ret.
Qed.

Lemma wp_reader n k i safe : h ≠ 0 → wp rd_inv n (reader k h i safe) i (λ _, rd_at 0) RdNew.
Proof.
  intros Hh. destruct k, safe; cbn [reader]; apply wp_bind; (eapply wp_mono; [by apply reader_first|]); intros c g Hg;
    by first [apply reader_foreach|apply reader_foreach_safe].
Qed.

(** *** The thread that changes the list

    Only it writes the list, so it finds the memory as it left it. *)
Fixpoint kept (n : nat) {A} (t : prog rd_memory A) (m : cq_memory) (V : gset Z) (Q : A → cq_memory → gset Z → Prop) : Prop :=
  match n with
  | O => True
  | Datatypes.S n =>
      match observe t with
      | RetF a => Q a m V
      | TauF t' => kept n t' m V Q
      | VisF e k =>
          match e in atom _ X return (X → prog rd_memory A) → Prop with
          | Atom f => λ k, ∃ a m' V', (∀ tr, f (m, tr) = Prelude.Ret (a, (m', tr)))
              ∧ (m' = m ∧ V' = V ∨ keeps h S m V m' V' ∧ V' ⊆ W) ∧ kept n (k a) m' V' Q
          end k
      end
  end.

Lemma kept_S n A (t : prog rd_memory A) m V Q : kept (Datatypes.S n) t m V Q → kept n t m V Q.
Proof.
  revert t m V. induction n as [|n IH]; intros t m V H; [done|].
  cbn [kept]. cbn [kept] in H. destruct (observe t) as [a|t'|X e k]; [done | by apply IH|].
  destruct e as [X f]. destruct H as (a & m' & V' & E & HK & H). exists a, m', V'. split; [done|]. split; [done|]. by apply IH.
Qed.

Lemma kept_mono n A (t : prog rd_memory A) m V (Q Q' : A → cq_memory → gset Z → Prop) :
  kept n t m V Q → (∀ a m' V', Q a m' V' → Q' a m' V') → kept n t m V Q'.
Proof.
  intros H HQ. revert t m V H. induction n as [|n IH]; intros t m V H; [done|].
  cbn [kept] in *. destruct (observe t) as [a|t'|X e k]; [by apply HQ | by apply IH|].
  destruct e as [X f]. destruct H as (a & m' & V' & E & HK & H). exists a, m', V'. eauto.
Qed.

Lemma kept_ret n A (a : A) m V (Q : A → cq_memory → gset Z → Prop) : Q a m V → kept n (mret a) m V Q.
Proof. by destruct n. Qed.

Lemma kept_bind n A B (t : prog rd_memory A) (k : A → prog rd_memory B) m V Q :
  kept n t m V (λ a m' V', kept n (k a) m' V' Q) → kept n (t ≫= k) m V Q.
Proof.
  revert t m V. induction n as [|n IH]; intros t m V H; [done|].
  cbn [kept] in H. cbn [kept]. rewrite observe_prog_bind. destruct (observe t) as [a|t'|X e h'].
  - exact H.
  - apply (IH t'). eapply kept_mono; [exact H|]. intros a m' V'. apply kept_S.
  - destruct e as [X f]. destruct H as (a & m' & V' & E & HK & H). exists a, m', V'. split; [done|]. split; [done|].
    apply (IH (h' a)). eapply kept_mono; [exact H|]. intros b m'' V''. apply kept_S.
Qed.

(** One round of a loop. *)
Lemma kept_loop n A B (body : A → prog rd_memory (A + B)) a m V Q :
  kept n (body a) m V (λ r m' V', match r with inl a' => kept n (loop body a') m' V' Q | inr b => Q b m' V' end) →
  kept n (loop body a) m V Q.
Proof.
  intros H. assert (kept n (body a ≫= λ r,
    match r with inl a' => go (TauF (loop body a')) | inr b => mret (M := prog rd_memory) b end) m V Q) as H'.
  { apply kept_bind. eapply kept_mono; [exact H|]. intros [a'|b] m' V' Hr; [|by apply kept_ret].
    destruct n as [|n]; [done|]. cbn [kept observe _observe]. by apply kept_S. }
  destruct n as [|n]; [done|]. exact H'.
Qed.

Lemma kept_wp n A (t : prog rd_memory A) m V Q :
  kept n t m V Q → wp rd_inv n t 0 (λ a g, ∃ m' V', g = RdWriter m' V' ∧ Q a m' V') (RdWriter m V).
Proof.
  revert t m V. induction n as [|n IH]; intros t m V H; [done|]. cbn [kept wp] in *.
  destruct (observe t) as [a|t'|X e k]; [by exists m, V|by apply IH|]. destruct e as [X f].
  intros [m0 tr] gs HI Hg. destruct H as (a & m' & V' & E & HK & H).
  assert (m0 = m) as ->. { destruct HI as (V0 & _ & _ & _ & H0 & _). cbn in H0. rewrite H0 in Hg. by injection Hg. }
  exists a, (m', tr), (RdWriter m' V'). split; [apply E|]. split; [|by apply IH].
  destruct HK as [[-> ->]|[HK HV]]; [by rewrite list_insert_id|by eapply rd_inv_writer].
Qed.

(** With what the program does when it runs alone. *)
Lemma kept_solo n j A (t : prog rd_memory A) m u a m1 u' V Q :
  kept n t m V Q → solo j t (m, u) = Prelude.Ret (a, (m1, u')) → kept n t m V (λ b m' V', Q b m' V' ∧ b = a ∧ m' = m1).
Proof.
  revert j t m V. induction n as [|n IH]; intros j t m V H E; [done|]. destruct j as [|j]; [done|]. cbn [kept solo] in *.
  destruct (observe t) as [b|t'|X e k]; [by injection E as -> -> _|by eapply IH|]. destruct e as [X f].
  destruct H as (b & m' & V' & Ef & HK & H). rewrite Ef in E. exists b, m', V'. split; [done|]. split; [done|]. by eapply IH.
Qed.

Lemma kept_does n H X A (t : prog rd_memory A) m V Q Q' :
  kept n t m V Q → does H X t m Q' → kept n t m V (λ a m' V', Q a m' V' ∧ changes H X m m' ∧ Q' a m').
Proof.
  intros Hk Hd. destruct (Hd []) as (j & a & s & E & m1 & -> & Hc & HQ).
  eapply kept_mono; [by eapply kept_solo|]. by intros b m' V' (HQb & -> & ->).
Qed.

Lemma kept_closed n A (t : prog rd_memory A) m V Q :
  closed h m V → V ⊆ W → kept n t m V Q → kept n t m V (λ a m' V', Q a m' V' ∧ closed h m' V' ∧ V' ⊆ W).
Proof.
  revert t m V. induction n as [|n IH]; intros t m V HC HV H; [done|]. cbn [kept] in *.
  destruct (observe t) as [a|t'|X e k]; [done|by apply IH|]. destruct e as [X f].
  destruct H as (a & m' & V' & E & HK & H). exists a, m', V'. split; [done|]. split; [done|].
  destruct HK as [[-> ->]|[HK HV']]; [by apply IH|by apply IH; [apply HK|..]].
Qed.
End invariant.

(** ** The edits keep what the readers need *)

(** The head [h] and the elements [es] are there, and the list is [xs]. *)
Section edits.
Context (h : Z) (S W : gset Z) (es : gset Z).
Abbreviation kept := (kept h S W).

Lemma kept_get n {A} (f : loc cq_memory (gmap Z A)) p v m V (Q : A → cq_memory → gset Z → Prop) :
  p ≠ 0 → loc_get f m !! p = Some v → Q v m V → kept n (get (rd_mem →' f) p) m V Q.
Proof.
  intros Hp Hv HQ. destruct n as [|n]; [done|]. exists v, m, V. split; [|split; [by left|by apply kept_ret]].
  intros tr. cbn. by rewrite (deref_lookup _ _ _ Hp Hv).
Qed.

Lemma kept_put n {A} (f : loc cq_memory (gmap Z A)) p v m V V' (Q : unit → cq_memory → gset Z → Prop) :
  p ≠ 0 → is_Some (loc_get f m !! p) → keeps h S m V (loc_set f (<[p := v]> (loc_get f m)) m) V' → V' ⊆ W →
  (closed h (loc_set f (<[p := v]> (loc_get f m)) m) V' → Q tt (loc_set f (<[p := v]> (loc_get f m)) m) V') →
  kept n (put (rd_mem →' f) p v) m V Q.
Proof.
  intros Hp [v0 Hv] HK HV HQ. destruct n as [|n]; [done|]. exists tt, (loc_set f (<[p := v]> (loc_get f m)) m), V'.
  split; [|split; [by right|apply kept_ret, HQ, HK]]. intros tr. cbn. by rewrite (deref_lookup _ _ _ Hp Hv).
Qed.

Section puts.
Context (n : nat) (m : cq_memory) (V : gset Z) (HC : closed h m V) (HV : V ⊆ W) (Q : unit → cq_memory → gset Z → Prop).
Abbreviation goes_on f p v V' :=
  (closed h (loc_set f (<[p := v]> (loc_get f m)) m) V' → Q tt (loc_set f (<[p := v]> (loc_get f m)) m) V').

Lemma kept_put_last p v : p ≠ 0 → is_Some (cq_last m !! p) → goes_on cq_last_loc p v V → kept n (put (rd_mem →' cq_last_loc) p v) m V Q.
Proof using HC HV. intros Hp Hv HQ. eapply kept_put; [done|done| |exact HV|exact HQ]. by apply keeps_other. Qed.

Lemma kept_put_prev p v : p ≠ 0 → is_Some (cq_prev m !! p) → goes_on cq_prev_loc p v V → kept n (put (rd_mem →' cq_prev_loc) p v) m V Q.
Proof using HC HV. intros Hp Hv HQ. eapply kept_put; [done|done| |exact HV|exact HQ]. by apply keeps_other. Qed.

Lemma kept_fresh x v :
  x ≠ 0 → is_Some (cq_next m !! x) → x ∉ V → goes_on cq_next_loc x v V → kept n (put (rd_mem →' cq_next_loc) x v) m V Q.
Proof using HC HV. intros Hp Hv Hx HQ. eapply kept_put; [done|done| |exact HV|exact HQ]. by apply keeps_fresh. Qed.

Lemma kept_link a x v :
  a ∈ V → x ∉ V → x ∈ W → x ≠ 0 → cq_next m !! a = Some v → cq_next m !! x = Some v →
  goes_on cq_next_loc a x ({[x]} ∪ V) → kept n (put (rd_mem →' cq_next_loc) a x) m V Q.
Proof using HC HV.
  intros Ha Hx HW Hx0 Hna Hnx HQ. destruct (cd_next _ _ _ HC a Ha) as [Ha0 _].
  eapply (kept_put _ _ _ _ _ _ ({[x]} ∪ V)); [done|by eexists| |set_solver|exact HQ]. by eapply keeps_link.
Qed.

Lemma kept_link_first x v :
  h ≠ 0 → x ∉ V → x ∈ W → x ≠ 0 → cq_first m !! h = Some v → cq_next m !! x = Some v →
  goes_on cq_first_loc h x ({[x]} ∪ V) → kept n (put (rd_mem →' cq_first_loc) h x) m V Q.
Proof using HC HV.
  intros Hh Hx HW Hx0 Hf Hnx HQ. eapply (kept_put _ _ _ _ _ _ ({[x]} ∪ V)); [done|by eexists| |set_solver|exact HQ]. by eapply keeps_link_first.
Qed.

Lemma kept_unlink a x v :
  a ∈ V → x ∈ V → x ∉ S → cq_next m !! a = Some x → cq_next m !! x = Some v →
  goes_on cq_next_loc a v V → kept n (put (rd_mem →' cq_next_loc) a v) m V Q.
Proof using HC HV.
  intros Ha Hx HS Hna Hnx HQ. destruct (cd_next _ _ _ HC a Ha) as [Ha0 _].
  eapply kept_put; [done|by eexists| |exact HV|exact HQ]. by eapply keeps_unlink.
Qed.

Lemma kept_unlink_first x v :
  h ≠ 0 → x ∈ V → x ∉ S → cq_first m !! h = Some x → cq_next m !! x = Some v →
  goes_on cq_first_loc h v V → kept n (put (rd_mem →' cq_first_loc) h v) m V Q.
Proof using HC HV.
  intros Hh Hx HS Hf Hnx HQ. eapply kept_put; [done|by eexists| |exact HV|exact HQ]. by eapply keeps_unlink_first.
Qed.

Lemma kept_last_if_end e : h ≠ 0 → is_Some (cq_last m !! h) → e ∈ V → kept n (last_if_end rd_mem h e) m V (λ _ _ V', V' = V).
Proof using HC HV.
  intros Hh Hl He. destruct (cd_next _ _ _ HC e He) as (He0 & v & Hv & _). unfold last_if_end. apply kept_bind.
  eapply kept_get; [done|exact Hv|]. destruct (v =? 0); [|by apply kept_ret].
  eapply kept_put; [done|done|by apply keeps_other|exact HV|done].
Qed.
End puts.

Lemma kept_find_before n m V x l a r :
  seg (cq_next m) (l ++ a :: x :: r) 0 → x ∉ l ++ [a] → (∀ e, e ∈ l ++ [a] → e ≠ 0) →
  kept n (find_before rd_mem x (head_or a l)) m V (λ c m' V', c = a ∧ m' = m ∧ V' = V).
Proof.
  induction l as [|c l IH]; cbn [app head_or]; intros Hs Hx H0; apply kept_loop.
  - destruct Hs as [Ha _]. assert (a ≠ 0) by (apply H0; set_solver). apply kept_bind. eapply kept_get; [done|exact Ha|].
    cbn [head_or]. rewrite Z.eqb_refl. by apply kept_ret.
  - destruct Hs as [Hc Hs]. assert (c ≠ 0) by (apply H0; set_solver).
    assert (head_or 0 (l ++ a :: x :: r) = head_or a l) as Eh by (by destruct l). rewrite Eh in Hc.
    assert (head_or a l ≠ x) as Hne by (intros <-; apply Hx; destruct l; set_solver).
    apply kept_bind. eapply kept_get; [done|exact Hc|]. rewrite (proj2 (Z.eqb_neq _ _) Hne).
    apply kept_bind. eapply kept_get; [done|exact Hc|]. apply kept_ret. apply IH; [done|set_solver|set_solver].
Qed.

Record editing (k : cq_kind) (m : cq_memory) (V : gset Z) (xs : list Z) : Prop := {
  ed_closed : closed h m V;
  ed_bound : V ⊆ W;
  ed_there : cq_there k m {[h]} es;
  ed_list : list_at k m h xs;
  ed_nodup : NoDup xs;
  ed_xs y : y ∈ xs → y ∈ V;
  ed_es y : y ∈ V → y ∈ es
}.

Lemma ed_head k m V xs : editing k m V xs →
  h ≠ 0 ∧ cq_first m !! h = Some (head_or 0 xs) ∧ (has_last k = true → is_Some (cq_last m !! h)).
Proof.
  intros E. destruct (ct_first _ _ _ _ (ed_there _ _ _ _ E) h ltac:(set_solver)) as [Hh _]. split; [done|].
  split; [apply (la_first _ _ _ _ (ed_list _ _ _ _ E))|]. intros Hk. apply (ct_last _ _ _ _ (ed_there _ _ _ _ E)); set_solver.
Qed.

Lemma ed_new k m V xs x : editing k m V xs → x ∈ es → x ≠ 0 ∧ is_Some (cq_next m !! x) ∧ (has_prev k = true → is_Some (cq_prev m !! x)).
Proof.
  intros E Hx. destruct (ct_next _ _ _ _ (ed_there _ _ _ _ E) x Hx) as [Hx0 Hn]. do 2 (split; [done|]). intros Hk.
  by apply (ct_prev _ _ _ _ (ed_there _ _ _ _ E)).
Qed.

(** The element [a] of the list, between [l] and [r]. *)
Lemma ed_elem k m V l a r : editing k m V (l ++ a :: r) →
  a ∈ V ∧ a ≠ 0 ∧ cq_next m !! a = Some (head_or 0 r) ∧ (has_prev k = true → cq_prev m !! a = Some (last_ref (RefHead h) l)).
Proof.
  intros E. assert (a ∈ V) as Ha by (apply (ed_xs _ _ _ _ E); set_solver). split; [done|].
  destruct (cd_next _ _ _ (ed_closed _ _ _ _ E) a Ha) as [Ha0 _]. split; [done|].
  pose proof (la_seg _ _ _ _ (ed_list _ _ _ _ E)) as Hs. apply seg_app in Hs as [_ [Hsa _]]. split; [done|].
  intros Hk. pose proof (la_prev _ _ _ _ (ed_list _ _ _ _ E) Hk) as Hp. by apply back_seg_app in Hp as [_ [Hpa _]].
Qed.

#[local] Ltac kp_get := apply kept_bind; eapply kept_get; [cq_ne | cq_there |].
#[local] Ltac kp := apply kept_bind; match goal with HV : _ ⊆ W |- _ =>
  first [ eapply kept_fresh; [eassumption|exact HV|done|cq_there|set_solver|]
        | apply kept_put_prev; [eassumption|set_solver|cq_ne|cq_there|] ]; intros ? end.

Section one.
Context (n : nat) (m : cq_memory) (V : gset Z) (xs : list Z) (x : Z).
Context (HW : x ∈ W) (Hx : x ∈ es) (Hni : x ∉ V).

Lemma slist_head_kept : editing Slist m V xs → kept n (CK_SLIST_INSERT_HEAD rd_mem h x) m V (λ _ _ V', V' = {[x]} ∪ V).
Proof using HW Hx Hni.
  intros E. destruct (ed_head _ _ _ _ E) as (Hh & Hf & _). destruct (ed_new _ _ _ _ x E Hx) as (Hx0 & Hxn & _).
  destruct E as [HC HV Ht _ _ _ _]. unfold CK_SLIST_INSERT_HEAD. kp_get. kp.
  eapply kept_link_first; [eassumption|exact HV|done|done|done|done|cq_there|cq_there|done].
Qed.

Lemma slist_after_kept l a r :
  editing Slist m V (l ++ a :: r) → kept n (CK_SLIST_INSERT_AFTER rd_mem a x) m V (λ _ _ V', V' = {[x]} ∪ V).
Proof using HW Hx Hni.
  intros E. destruct (ed_elem _ _ _ _ _ _ E) as (Ha & Ha0 & Hna & _). destruct (ed_new _ _ _ _ x E Hx) as (Hx0 & Hxn & _).
  destruct E as [HC HV Ht _ _ _ _]. assert (x ≠ a) by (by intros ->). unfold CK_SLIST_INSERT_AFTER. kp_get. kp.
  eapply kept_link; [eassumption|exact HV|done|done|done|done|cq_there|cq_there|done].
Qed.

Lemma stailq_head_kept : editing Stailq m V xs → kept n (CK_STAILQ_INSERT_HEAD rd_mem h x) m V (λ _ _ V', V' = {[x]} ∪ V).
Proof using HW Hx Hni.
  intros E. destruct (ed_head _ _ _ _ E) as (Hh & Hf & Hl). destruct (ed_new _ _ _ _ x E Hx) as (Hx0 & Hxn & _).
  destruct E as [HC HV Ht _ _ _ _]. unfold CK_STAILQ_INSERT_HEAD. kp_get. kp. apply kept_bind.
  eapply kept_link_first; [eassumption|exact HV|done|done|done|done|cq_there|cq_there|]. intros HC2.
  apply kept_last_if_end; [done|set_solver|done|by apply Hl|set_solver].
Qed.

Lemma stailq_after_kept l a r :
  editing Stailq m V (l ++ a :: r) → kept n (CK_STAILQ_INSERT_AFTER rd_mem h a x) m V (λ _ _ V', V' = {[x]} ∪ V).
Proof using HW Hx Hni.
  intros E. destruct (ed_elem _ _ _ _ _ _ E) as (Ha & Ha0 & Hna & _). destruct (ed_new _ _ _ _ x E Hx) as (Hx0 & Hxn & _).
  destruct (ed_head _ _ _ _ E) as (Hh & _ & Hl).
  destruct E as [HC HV Ht _ _ _ _]. assert (x ≠ a) by (by intros ->). unfold CK_STAILQ_INSERT_AFTER. kp_get. kp. apply kept_bind.
  eapply kept_link; [eassumption|exact HV|done|done|done|done|cq_there|cq_there|]. intros HC2.
  apply kept_last_if_end; [done|set_solver|done|by apply Hl|set_solver].
Qed.

Lemma stailq_tail_kept : editing Stailq m V xs → kept n (CK_STAILQ_INSERT_TAIL rd_mem h x) m V (λ _ _ V', V' = {[x]} ∪ V).
Proof using HW Hx Hni.
  intros E. destruct (ed_head _ _ _ _ E) as (Hh & Hf & Hl). destruct (ed_new _ _ _ _ x E Hx) as (Hx0 & Hxn & _).
  pose proof (la_last _ _ _ _ (ed_list _ _ _ _ E) eq_refl) as Hlast. unfold CK_STAILQ_INSERT_TAIL.
  destruct (list_split_last xs) as [->|(l & a & ->)]; rewrite ?last_ref_app in Hlast; cbn [last_ref put_ref head_or] in *.
  - destruct E as [HC HV Ht _ _ _ _]. kp. kp_get. cbn [put_ref]. apply kept_bind.
    eapply kept_link_first; [eassumption|exact HV|done|done|done|done|cq_there|cq_there|]. intros HC2.
    apply kept_put_last; [done|set_solver|done|by apply Hl|done].
  - destruct (ed_elem _ _ _ _ _ _ E) as (Ha & Ha0 & Hna & _). destruct E as [HC HV Ht _ _ _ _].
    assert (x ≠ a) by (by intros ->). kp. kp_get. cbn [put_ref]. apply kept_bind.
    eapply kept_link; [eassumption|exact HV|done|done|done|done|cq_there|cq_there|]. intros HC2.
    apply kept_put_last; [done|set_solver|done|by apply Hl|done].
Qed.

Lemma list_head_kept : editing List m V xs → kept n (CK_LIST_INSERT_HEAD rd_mem h x) m V (λ _ _ V', V' = {[x]} ∪ V).
Proof using HW Hx Hni.
  intros E. destruct (ed_head _ _ _ _ E) as (Hh & Hf & _). destruct (ed_new _ _ _ _ x E Hx) as (Hx0 & Hxn & Hxp).
  specialize (Hxp eq_refl). unfold CK_LIST_INSERT_HEAD. destruct xs as [|y r]; cbn [head_or] in *.
  - destruct E as [HC HV Ht _ _ _ _]. kp_get. kp. kp_get. cbn [Z.eqb negb]. apply kept_bind, kept_ret, kept_bind.
    eapply kept_link_first; [eassumption|exact HV|done|done|done|done|cq_there|cq_there|]. intros HC2.
    apply kept_put_prev; [done|set_solver|done|cq_there|done].
  - destruct (ed_elem _ _ _ [] y r E) as (Hy & Hy0 & _ & Hyp). specialize (Hyp eq_refl). destruct E as [HC HV Ht _ _ _ _].
    kp_get. kp. kp_get. rewrite (proj2 (Z.eqb_neq y 0)) by done. cbn [negb]. apply kept_bind. kp_get.
    apply kept_put_prev; [done|exact HV|done|cq_there|]. intros HC1. apply kept_bind.
    eapply kept_link_first; [eassumption|exact HV|done|done|done|done|cq_there|cq_there|]. intros HC2.
    apply kept_put_prev; [done|set_solver|done|apply insert_there; cq_there|done].
Qed.

Lemma list_after_kept l a r :
  editing List m V (l ++ a :: r) → kept n (CK_LIST_INSERT_AFTER rd_mem a x) m V (λ _ _ V', V' = {[x]} ∪ V).
Proof using HW Hx Hni.
  intros E. destruct (ed_elem _ _ _ _ _ _ E) as (Ha & Ha0 & Hna & _). destruct (ed_new _ _ _ _ x E Hx) as (Hx0 & Hxn & Hxp).
  specialize (Hxp eq_refl). assert (x ≠ a) by (by intros ->; apply Hni). unfold CK_LIST_INSERT_AFTER.
  destruct r as [|y r]; cbn [head_or] in *.
  - destruct E as [HC HV Ht _ _ _ _]. kp_get. kp. kp. kp_get. cbn [Z.eqb negb]. apply kept_bind, kept_ret.
    eapply kept_link; [eassumption|exact HV|done|done|done|done|cq_there|cq_there|done].
  - assert (editing List m V ((l ++ [a]) ++ y :: r)) as E' by (by rewrite <- app_assoc).
    destruct (ed_elem _ _ _ _ _ _ E') as (Hy & Hy0 & _ & Hyp). specialize (Hyp eq_refl). destruct E as [HC HV Ht _ _ _ _].
    kp_get. kp. kp. kp_get. rewrite (proj2 (Z.eqb_neq y 0)) by done. cbn [negb]. apply kept_bind. kp_get.
    apply kept_put_prev; [done|exact HV|done|apply insert_there; cq_there|]. intros HC2.
    eapply kept_link; [eassumption|exact HV|done|done|done|done|cq_there|cq_there|done].
Qed.

Lemma list_before_kept l a r :
  editing List m V (l ++ a :: r) → kept n (CK_LIST_INSERT_BEFORE rd_mem a x) m V (λ _ _ V', V' = {[x]} ∪ V).
Proof using HW Hx Hni.
  intros E. destruct (ed_elem _ _ _ _ _ _ E) as (Ha & Ha0 & Hna & Hpa). destruct (ed_new _ _ _ _ x E Hx) as (Hx0 & Hxn & Hxp).
  specialize (Hxp eq_refl). specialize (Hpa eq_refl). destruct (ed_head _ _ _ _ E) as (Hh & Hf & _).
  assert (x ≠ a) by (by intros ->; apply Hni). unfold CK_LIST_INSERT_BEFORE.
  destruct (list_split_last l) as [->|(l' & b & ->)]; rewrite ?last_ref_app in *; cbn [last_ref put_ref app head_or] in *.
  - destruct E as [HC HV Ht _ _ _ _]. kp_get. kp. kp. kp_get. cbn [put_ref]. apply kept_bind.
    eapply kept_link_first; [eassumption|exact HV|done|done|done|done|cq_there|cq_there|]. intros HC2.
    apply kept_put_prev; [done|set_solver|done|apply insert_there; cq_there|done].
  - rewrite <- app_assoc in E. destruct (ed_elem _ _ _ _ _ _ E) as (Hb & Hb0 & Hnb & _). cbn [app head_or] in Hnb.
    destruct E as [HC HV Ht _ _ _ _]. assert (x ≠ b) by (by intros ->; apply Hni). kp_get. kp. kp. kp_get. cbn [put_ref]. apply kept_bind.
    eapply kept_link; [eassumption|exact HV|done|done|done|done|cq_there|cq_there|]. intros HC2.
    apply kept_put_prev; [done|set_solver|done|apply insert_there; cq_there|done].
Qed.
End one.

Section out.
Context (n : nat) (m : cq_memory) (V : gset Z) (x : Z) (HS : x ∉ S).
Abbreviation stays := (λ (_ : unit) (_ : cq_memory) V', V' = V).

(** The search of CK_SLIST_REMOVE and CK_STAILQ_REMOVE: the element is the first, or is after one that it finds. *)
Lemma kept_search k l r (t : prog rd_memory unit) (u : Z → prog rd_memory unit) Q :
  editing k m V (l ++ x :: r) → (l = [] → kept n t m V Q) → (∀ l' a, l = l' ++ [a] → kept n (u a) m V Q) →
  kept n (f ← get (rd_mem →' cq_first_loc) h;
          if f =? x then t else f ← get (rd_mem →' cq_first_loc) h; curelm ← find_before rd_mem x f; u curelm) m V Q.
Proof.
  intros E Ht Hu. destruct (ed_head _ _ _ _ E) as (Hh & Hf & _). kp_get. destruct (list_split_last l) as [->|(l' & a & ->)].
  - cbn [app head_or] in *. rewrite Z.eqb_refl. by apply Ht.
  - rewrite <- app_assoc in *. cbn [app] in *. pose proof (ed_nodup _ _ _ _ E) as Hn.
    apply NoDup_app in Hn as (_ & Hla & [Hax _]%NoDup_cons).
    assert (head_or 0 (l' ++ a :: x :: r) = head_or a l') as Eh by (by destruct l'). rewrite Eh in Hf |- *.
    assert (head_or a l' ≠ x) as Hne by (intros <-; destruct l'; set_solver).
    rewrite (proj2 (Z.eqb_neq _ _) Hne). kp_get. apply kept_bind. eapply kept_mono.
    + apply (kept_find_before n m V x l' a r); [apply (la_seg _ _ _ _ (ed_list _ _ _ _ E))|set_solver|].
      intros e He. apply (cd_next _ _ _ (ed_closed _ _ _ _ E)), (ed_xs _ _ _ _ E). set_solver.
    + intros c m' V' (-> & -> & ->). by eapply Hu.
Qed.

Lemma ed_two k l a r : editing k m V ((l ++ [a]) ++ x :: r) →
  a ∈ V ∧ a ≠ 0 ∧ cq_next m !! a = Some x ∧ x ∈ V ∧ x ≠ 0 ∧ cq_next m !! x = Some (head_or 0 r) ∧ x ≠ a.
Proof.
  intros E. destruct (ed_elem _ _ _ _ _ _ E) as (Hx & Hx0 & Hnx & _). pose proof (ed_nodup _ _ _ _ E) as (_ & Hd & _)%NoDup_app.
  rewrite <- app_assoc in E. destruct (ed_elem _ _ _ _ _ _ E) as (Ha & Ha0 & Hna & _). repeat split; try done.
  intros ->. apply (Hd a); set_solver.
Qed.

Lemma slist_remove_kept l r : editing Slist m V (l ++ x :: r) → kept n (CK_SLIST_REMOVE rd_mem h x) m V stays.
Proof using HS.
  intros E. eapply (kept_search Slist l r); [done| |]; [intros ->|intros l' a ->].
  - destruct (ed_head _ _ _ _ E) as (Hh & Hf & _). destruct (ed_elem _ _ _ [] _ _ E) as (Hx & Hx0 & Hnx & _).
    destruct E as [HC HV Ht _ _ _ _]. cbn [app head_or] in *. unfold CK_SLIST_REMOVE_HEAD. kp_get. kp_get.
    eapply kept_unlink_first; [eassumption|exact HV|done|exact Hx|done|cq_there|cq_there|done].
  - destruct (ed_two _ _ _ _ E) as (Ha & Ha0 & Hna & Hx & Hx0 & Hnx & _). destruct E as [HC HV Ht _ _ _ _].
    unfold CK_SLIST_REMOVE_AFTER. kp_get. kp_get.
    eapply kept_unlink; [eassumption|exact HV|done|exact Hx|done|cq_there|cq_there|done].
Qed.

Lemma stailq_remove_kept l r : editing Stailq m V (l ++ x :: r) → kept n (CK_STAILQ_REMOVE rd_mem h x) m V stays.
Proof using HS.
  intros E. destruct (ed_head _ _ _ _ E) as (Hh & Hf & Hl). eapply (kept_search Stailq l r); [done| |]; [intros ->|intros l' a ->].
  - destruct (ed_elem _ _ _ [] _ _ E) as (Hx & Hx0 & Hnx & _).
    destruct E as [HC HV Ht _ _ _ _]. cbn [app head_or] in *. unfold CK_STAILQ_REMOVE_HEAD. kp_get. kp_get. apply kept_bind.
    eapply kept_unlink_first; [eassumption|exact HV|done|exact Hx|done|cq_there|cq_there|]. intros HC1.
    kp_get. destruct (head_or 0 r =? 0); [|by apply kept_ret].
    apply kept_put_last; [done|done|done|by apply Hl|done].
  - destruct (ed_two _ _ _ _ E) as (Ha & Ha0 & Hna & Hx & Hx0 & Hnx & _). destruct E as [HC HV Ht _ _ _ _].
    unfold CK_STAILQ_REMOVE_AFTER. kp_get. kp_get. apply kept_bind.
    eapply kept_unlink; [eassumption|exact HV|done|exact Hx|done|cq_there|cq_there|]. intros HC1.
    apply kept_last_if_end; [done|done|done|by apply Hl|done].
Qed.

Lemma list_remove_kept l r : editing List m V (l ++ x :: r) → kept n (CK_LIST_REMOVE rd_mem x) m V stays.
Proof using HS.
  intros E. destruct (ed_head _ _ _ _ E) as (Hh & Hf & _). destruct (ed_elem _ _ _ _ _ _ E) as (Hx & Hx0 & Hnx & Hpx).
  specialize (Hpx eq_refl). unfold CK_LIST_REMOVE. kp_get. kp_get. apply kept_bind.
  assert (∀ m', cq_prev m' = cq_prev m → cq_next m' !! x = Some (head_or 0 r) → closed h m' V →
    kept n (n0 ← get (rd_mem →' cq_next_loc) x;
      if negb (n0 =? 0) then n0 ← get (rd_mem →' cq_next_loc) x; r0 ← get (rd_mem →' cq_prev_loc) x;
        put (rd_mem →' cq_prev_loc) n0 r0 else mret tt) m' V stays) as Hrest.
  { intros m' Ep Hnx' HC'. kp_get. destruct r as [|y r]; cbn [head_or] in *; [by apply kept_ret|].
    assert (editing List m V ((l ++ [x]) ++ y :: r)) as E' by (by rewrite <- app_assoc).
    destruct (ed_elem _ _ _ _ _ _ E') as (Hy & Hy0 & _ & Hyp). specialize (Hyp eq_refl).
    rewrite (proj2 (Z.eqb_neq y 0)) by done. cbn [negb]. kp_get.
    apply kept_bind. eapply kept_get; [done|cbn; rewrite Ep; exact Hpx|].
    apply kept_put_prev; [done|apply E|done|rewrite Ep; by eexists|done]. }
  destruct (list_split_last l) as [->|(l' & a & ->)]; rewrite ?last_ref_app in *; cbn [last_ref put_ref] in *.
  - destruct E as [HC HV Ht _ _ _ _].
    eapply kept_unlink_first; [eassumption|exact HV|done|exact Hx|done|cq_there|cq_there|]. intros HC1. by apply Hrest.
  - destruct (ed_two _ _ _ _ E) as (Ha & Ha0 & Hna & _ & _ & _ & Hxa). destruct E as [HC HV Ht _ _ _ _].
    eapply kept_unlink; [eassumption|exact HV|done|exact Hx|done|cq_there|cq_there|]. intros HC1.
    apply Hrest; [done|cbn; by rewrite lookup_insert_ne|done].
Qed.
End out.

(** What an edit does beside the readers, with what it does alone. *)
Lemma edit_done n k (t : prog rd_memory unit) m V V' xs xs' H X :
  editing k m V xs → kept n t m V (λ _ _ V'', V'' = V') → does H X t m (λ _ m', list_at k m' h xs') →
  NoDup xs' → (∀ y, y ∈ xs' → y ∈ V') → (∀ y, y ∈ V' → y ∈ es) → kept n t m V (λ _ m' V'', V'' = V' ∧ editing k m' V' xs').
Proof.
  intros [HC HV Ht Hl Hn Hxs Hes] Hk Hd Hn' Hxs' Hes'. eapply kept_mono.
  - eapply kept_does; [by apply kept_closed|exact Hd].
  - intros [] m' V'' ((-> & HC' & HV') & Hch & Hl'). split; [done|].
    pose proof (there_changes _ _ _ _ _ _ _ Hch Ht). by split.
Qed.

(** The lists that the edits give have no element twice, and those that were in them. *)
Lemma edit_in (x : Z) l r : NoDup (l ++ r) → x ∉ l ++ r → NoDup (l ++ x :: r).
Proof.
  intros (Hl & Hd & Hr)%NoDup_app Hx. apply NoDup_app. split; [done|]. split; [|apply NoDup_cons; set_solver].
  intros y Hy [->|Hyr]%elem_of_cons; [set_solver|by apply (Hd y)].
Qed.

Lemma edit_kept n k e t m V xs xs' V' :
  editing k m V xs → cq_edit_do k h e = Some t → edit_means es V xs e = Some (xs', V') → V' ⊆ W →
  (∀ x, e = EdRemove x → x ∉ S) → kept n t m V (λ _ m' V'', V'' = V' ∧ editing k m' V' xs').
Proof.
  intros E Ht He HW HS. assert (∀ y, y ∈ xs → y ∈ es) as Hxe by (intros y Hy; apply (ed_es _ _ _ _ E), (ed_xs _ _ _ _ E), Hy).
  pose proof E as [HC HV Hth Hl Hn Hxs Hes].
  assert (h ∈ ({[h]} : gset Z)) as Hh by set_solver.
  assert (∀ x l r, x ∉ V → xs = l ++ r → NoDup (l ++ x :: r)) as Hin.
  { intros x l r Hx ->. apply edit_in; [done|]. by intros ?%Hxs. }
  destruct e as [x|a x|a x|x|x]; cbn [edit_means] in He.
  - case_bool_decide as Hx; [|done]. destruct Hx as [Hx Hni]. injection He as <- <-.
    assert (x ∉ xs) by (by intros ?%Hxs). assert (x ∈ W) by set_solver.
    destruct k; injection Ht as <-; (eapply edit_done; [done| | |by apply (Hin x [] xs)|set_solver|set_solver]).
    + by eapply slist_head_kept.
    + by eapply slist_insert_head.
    + by eapply stailq_head_kept.
    + by eapply stailq_insert_head.
    + by eapply list_head_kept.
    + by eapply list_insert_head.
  - destruct (cut a xs) as [[l r]|] eqn:Ec; [|done]. apply cut_spec in Ec as ->. cbn [mbind option_bind] in He.
    case_bool_decide as Hx; [|done]. destruct Hx as [Hx Hni]. injection He as <- <-.
    assert (x ∉ l ++ a :: r) by (by intros ?%Hxs). assert (x ∈ W) by set_solver.
    assert (NoDup (l ++ a :: x :: r)) as Hn'.
    { pose proof (Hin x (l ++ [a]) r Hni) as H'. rewrite <- !app_assoc in H'. by apply H'. }
    destruct k; injection Ht as <-; (eapply edit_done; [done| | |exact Hn'|set_solver|set_solver]).
    + by eapply slist_after_kept.
    + eapply slist_insert_after; try done. set_solver.
    + by eapply stailq_after_kept.
    + by eapply stailq_insert_after.
    + by eapply list_after_kept.
    + by eapply list_insert_after.
  - destruct (cut a xs) as [[l r]|] eqn:Ec; [|done]. apply cut_spec in Ec as ->. cbn [mbind option_bind] in He.
    case_bool_decide as Hx; [|done]. destruct Hx as [Hx Hni]. injection He as <- <-.
    assert (x ∉ l ++ a :: r) by (by intros ?%Hxs). assert (x ∈ W) by set_solver.
    destruct k; try done. injection Ht as <-. eapply edit_done; [done| | |by apply Hin|set_solver|set_solver].
    + by eapply list_before_kept.
    + by eapply list_insert_before.
  - case_bool_decide as Hx; [|done]. destruct Hx as [Hx Hni]. injection He as <- <-.
    assert (x ∉ xs) by (by intros ?%Hxs). assert (x ∈ W) by set_solver.
    destruct k; try done. injection Ht as <-.
    eapply edit_done; [done| | |apply (Hin x xs []); [done|by rewrite app_nil_r]|set_solver|set_solver].
    + by eapply stailq_tail_kept.
    + by eapply stailq_insert_tail.
  - destruct (cut x xs) as [[l r]|] eqn:Ec; [|done]. apply cut_spec in Ec as ->. cbn [mbind option_bind] in He.
    injection He as <- <-. specialize (HS x eq_refl). pose proof (NoDup_cut _ _ _ Hn) as [Hn' _].
    destruct k; injection Ht as <-; (eapply edit_done; [done| | |done|set_solver|set_solver]).
    + by eapply slist_remove_kept.
    + by eapply slist_remove.
    + by eapply stailq_remove_kept.
    + by eapply stailq_remove.
    + by eapply list_remove_kept.
    + by eapply list_remove.
Qed.

Lemma edits_mean_more k V xs eds xs' V' : edits_mean k h es V xs eds = Some (xs', V') → V ⊆ V'.
Proof.
  revert V xs. induction eds as [|e eds IH]; intros V xs H; cbn in H; [by injection H as _ <-|].
  destruct (cq_edit_do k h e); [|done]. cbn in H. destruct (edit_means es V xs e) as [[xs1 V1]|] eqn:E1; [|done]. cbn in H.
  apply IH in H. assert (V ⊆ V1); [|set_solver]. clear -E1.
  destruct e as [x|a x|a x|x|x]; cbn in E1;
    repeat match type of E1 with
    | context [cut ?a ?xs] => destruct (cut a xs) as [[l r]|]; cbn in E1; [|done]
    end; try (case_bool_decide; [|done]); injection E1 as _ <-; set_solver.
Qed.

Lemma writer_kept n k eds m V xs xs' :
  editing k m V xs → edits_mean k h es V xs eds = Some (xs', W) → (∀ x, EdRemove x ∈ eds → x ∉ S) →
  kept n (writer k h eds) m V (λ _ m' _, list_at k m' h xs').
Proof.
  revert m V xs. induction eds as [|e eds IH]; intros m V xs E H HS; cbn in H.
  - injection H as <- <-. apply kept_ret, E.
  - cbn [writer]. destruct (cq_edit_do k h e) as [t|] eqn:Ht; [|done]. cbn in H.
    destruct (edit_means es V xs e) as [[xs1 V1]|] eqn:E1; [|done]. cbn in H. apply kept_bind. eapply kept_mono.
    + eapply edit_kept; [done|done|done|by eapply edits_mean_more|]. intros x ->. apply HS. set_solver.
    + intros [] m' V'' [-> E']. eapply IH; [done|done|]. intros x Hx. apply HS. set_solver.
Qed.
End edits.

(** ** What the loops see *)

#[export] Instance cq_edit_eq_dec : EqDecision cq_edit.
Proof. solve_decision. Defined.

(** The thread 0 changes the list, and each of the others goes over it. *)
Definition rd_threads (k : cq_kind) (h : Z) (eds : list cq_edit) (safes : list bool) : list (prog rd_memory unit) :=
  writer k h eds :: imap (λ i safe, reader k h (Datatypes.S i) safe) safes.

(** The elements that no edit takes out. *)
Definition rd_stay (eds : list cq_edit) (xs : list Z) : gset Z := list_to_set (filter (λ x, EdRemove x ∉ eds) xs).

Lemma rd_stay_in eds xs x : x ∈ rd_stay eds xs ↔ (EdRemove x ∉ eds) ∧ x ∈ xs.
Proof. unfold rd_stay. rewrite elem_of_list_to_set, list_elem_of_filter. done. Qed.

(** What a thread has done when it has ended. *)
Definition rd_post (k : cq_kind) (h : Z) (xs' : list Z) (i : nat) (_ : unit) (g : rd_ghost) : Prop :=
  match i with O => ∃ m V, g = RdWriter m V ∧ list_at k m h xs' | _ => rd_at 0 g end.

Section start.
Context (k : cq_kind) (h : Z) (es : gset Z) (m : cq_memory) (xs xs' : list Z) (eds : list cq_edit) (W : gset Z) (safes : list bool).
Context (Ht : cq_there k m {[h]} es) (Hl : list_at k m h xs) (Hn : NoDup xs) (He : ∀ x, x ∈ xs → x ∈ es).
Context (Hm : edits_mean k h es (list_to_set xs) xs eds = Some (xs', W)).

Lemma start_closed : closed h m (list_to_set xs).
Proof using Ht Hl He.
  clear -Ht Hl He. split.
  - intros p Hp%elem_of_list_to_set. destruct (ct_next _ _ _ _ Ht p ltac:(auto)) as [Hp0 _]. split; [done|].
    apply list_elem_of_split in Hp as (l & r & ->). pose proof (la_seg _ _ _ _ Hl) as [_ [Hp _]]%seg_app.
    eexists. split; [exact Hp|]. destruct r as [|y r]; [by left|right]. set_solver.
  - eexists. split; [apply (la_first _ _ _ _ Hl)|]. destruct xs as [|y r]; [by left|right]. set_solver.
Qed.

Lemma start_inv :
  rd_inv h (rd_stay eds xs) W (m, []) (RdWriter m (list_to_set xs) :: replicate (length safes) RdNew).
Proof using Ht Hl He Hm.
  clear -Ht Hl He Hm. exists (list_to_set xs). cbn [fst snd]. split; [apply start_closed|]. split; [by eapply edits_mean_more|]. split; [|split; [done|split]].
  - intros f y Hf [_ Hy]%rd_stay_in. rewrite (la_first _ _ _ _ Hl) in Hf. injection Hf as <-.
    apply leads_seg; [apply (la_seg _ _ _ _ Hl)| |done]. intros x Hx. apply (ct_next _ _ _ _ Ht). auto.
  - intros [|i] g Hg; [by injection Hg as <-|]. cbn in Hg. apply lookup_replicate in Hg as [-> _]. done.
  - intros i y Hy. by apply elem_of_nil in Hy.
Qed.

Lemma start_threads i t g n :
  rd_threads k h eds safes !! i = Some t →
  (RdWriter m (list_to_set xs) :: replicate (length safes) RdNew) !! i = Some g →
  wp (rd_inv h (rd_stay eds xs) W) n t i (rd_post k h xs' i) g.
Proof using Ht Hl Hn He Hm.
  destruct i as [|i]; intros Hi Hg.
  - injection Hi as <-. injection Hg as <-. eapply wp_mono; [apply kept_wp|].
    + eapply writer_kept; [|exact Hm|by intros x Hx [? _]%rd_stay_in]. split; try done; [apply start_closed|by eapply edits_mean_more|set_solver|set_solver].
    + done.
  - change (imap (λ i safe, reader k h (Datatypes.S i) safe) safes !! i = Some t) in Hi.
    change (replicate (length safes) RdNew !! i = Some g) in Hg.
    apply lookup_replicate in Hg as [-> _]. rewrite list_lookup_imap in Hi.
    destruct (safes !! i) as [safe|]; [|done]. injection Hi as <-.
    destruct (ct_first _ _ _ _ Ht h ltac:(set_solver)) as [Hh _]. by apply wp_reader.
Qed.
End start.

(** C30 (safety). The loops of ck_queue.h may run beside a thread that changes the list.  While one thread puts in elements
    that were not in the list before, and takes elements out, whose memory stays, any number of threads go over the
    list with FOREACH or FOREACH_SAFE: whatever the interleaving, none follows a pointer to nowhere, each sees only
    elements that are or were in the list, each that has ended has seen every element that was in the list all the
    time, and the one that changes the list leaves what the edits of a list give. *)
Theorem ck_queue_loops_see_all (k : cq_kind) (h : Z) (es : gset Z) m xs eds xs' all safes m' tr pool :
  cq_there k m {[h]} es → list_at k m h xs → NoDup xs → (∀ x, x ∈ xs → x ∈ es) →
  edits_mean k h es (list_to_set xs) xs eds = Some (xs', all) →
  reaches (m, []) (rd_threads k h eds safes) (m', tr) pool →
  ¬ pool_faults ((m', tr), pool) ∧
  (∀ i x, (i, x) ∈ tr → x ∈ all) ∧
  (∀ i x, ended <$> pool !! Datatypes.S i = Some true → x ∈ xs → EdRemove x ∉ eds → (Datatypes.S i, x) ∈ tr) ∧
  (ended <$> pool !! 0%nat = Some true → list_at k m' h xs').
Proof.
  intros Ht Hl Hn He Hm Hr.
  edestruct (wp_reaches (rd_inv h (rd_stay eds xs) all) (rd_post k h xs')) as (gs & _ & Hlen & HI & Hw);
    [|by eapply start_inv|intros i t g n Hi Hg; by eapply start_threads|exact Hr|].
  { cbn. by rewrite length_imap, length_replicate. }
  assert (∀ i t, pool !! i = Some t → ∃ g, gs !! i = Some g) as Hgs.
  { intros i t Hi. apply lookup_lt_is_Some_2. rewrite <- Hlen. by eapply lookup_lt_Some. }
  split; [by eapply wp_no_fault|]. destruct HI as (V & HC & HV & Hf & H0 & Hok & Htr). cbn [fst snd] in *. split; [|split].
  - intros i x Hx. apply HV. by eapply Htr.
  - intros i x (t & Hi & Hend)%fmap_Some Hx Hstay. symmetry in Hend. destruct (Hgs _ _ Hi) as [g Hg].
    destruct (wp_ended _ _ _ _ _ _ (Hw _ _ _ Hi Hg) Hend) as (_ & U & ->). destruct (Hok _ _ Hg) as (_ & _ & HU & Hs).
    destruct (Hs x ltac:(by apply rd_stay_in)) as [HxU|Hin]; [|done]. by apply HU, leads_not_null in HxU.
  - intros (t & Hi & Hend)%fmap_Some. symmetry in Hend. destruct (wp_ended _ _ _ _ _ _ (Hw _ _ _ Hi H0) Hend) as (_ & m0 & V0 & [= <- <-] & Hl'). done.
Qed.

(** A doubly linked list of three elements, and a fourth one. *)
Definition three_listed : cq_memory :=
  MkCq {[1 := 11]} ∅ (list_to_map [(11, 12); (12, 13); (13, 0); (14, 77)])
    (list_to_map [(11, RefHead 1); (12, RefNext 11); (13, RefNext 12); (14, RefHead 77)]).

Lemma three_listed_there : cq_there List three_listed {[1]} {[11; 12; 13; 14]}.
Proof.
  split; try done.
  - intros h Hh. assert (h = 1) as -> by set_solver. split; [lia|by eexists].
  - intros e He. assert (e = 11 ∨ e = 12 ∨ e = 13 ∨ e = 14) as [-> | [-> | [-> | ->]]] by set_solver; split; (lia || by eexists).
  - intros e _ He. assert (e = 11 ∨ e = 12 ∨ e = 13 ∨ e = 14) as [-> | [-> | [-> | ->]]] by set_solver; by eexists.
Qed.

Definition edited_and_read : (rd_memory * list (prog rd_memory unit)) :=
  schedule (rounds 40 3) ((three_listed, []), rd_threads List 1 [EdAfter 12 14; EdRemove 12] [false; true]).

(** Two threads go over the list while [14] is put in after [12], and [12] is taken out. *)
Lemma ck_queue_loops_see_all_witness :
  ¬ pool_faults ((edited_and_read.1.1, edited_and_read.1.2), edited_and_read.2) ∧
  (1%nat, 11) ∈ edited_and_read.1.2 ∧ (2%nat, 13) ∈ edited_and_read.1.2 ∧ list_at List edited_and_read.1.1 1 [11; 14; 13].
Proof.
  destruct (ck_queue_loops_see_all List 1 {[11; 12; 13; 14]} three_listed [11; 12; 13] [EdAfter 12 14; EdRemove 12] [11; 14; 13]
    ({[14]} ∪ list_to_set [11; 12; 13]) [false; true] edited_and_read.1.1 edited_and_read.1.2 edited_and_read.2
    three_listed_there) as (H1 & _ & H2 & H3).
  - split; [done|by repeat split|done|by repeat split].
  - by apply (bool_decide_unpack _).
  - clear. set_solver.
  - vm_compute. reflexivity.
  - rewrite <- surjective_pairing. apply schedule_sound.
  - split; [exact H1|]. split; [|split].
    + apply H2; [vm_compute; reflexivity|by apply (bool_decide_unpack _)|by apply (bool_decide_unpack _)].
    + apply H2; [vm_compute; reflexivity|by apply (bool_decide_unpack _)|by apply (bool_decide_unpack _)].
    + apply H3. vm_compute. reflexivity.
Defined.
