(* ===== verification/CkBitmap.v ===== *)
(** CkBitmap: the bitmap of Concurrency Kit, include/aerospike/ck/ck_bitmap.h, and the bit operations of
    ck_cc.h that it uses, for one thread: each function changes the words one by one.

    The words of a bitmap are an array; what a function returns beside a result is the bitmap, or the
    iterator, after it. *)

From Stdlib Require Import ZArith Lia.
From stdpp Require Import base list numbers gmap sets.
From S2P Require Import Prelude Memory.

#[local] Open Scope Z_scope.

(** ** Bit operations

    The loops of ck_cc.h; the compiler's own functions, which gcc has in their place, give the same on
    arguments that are not 0. *)

Fixpoint ctz_loop (fuel : nat) (i x : Z) : outcome Z :=
  if Z.land x 1 =? 0 then
    match fuel with
    | O => Fault OutOfFuel
    | S fuel => ctz_loop fuel (uint_add i 1) (Z.shiftr x 1)
    end
  else Ret i.

(** [src: include/aerospike/ck/ck_cc.h 139-149 ck_cc_ctz] *)
Definition ck_cc_ctz (x : Z) : outcome Z := if x =? 0 then Ret 0 else ctz_loop 32 0 x.

Fixpoint popcount_loop (fuel : nat) (acc x : Z) : outcome Z :=
  if negb (x =? 0) then
    match fuel with
    | O => Fault OutOfFuel
    | S fuel => popcount_loop fuel (uint_add acc (Z.land x 1)) (Z.shiftr x 1)
    end
  else Ret acc.

(** [src: include/aerospike/ck/ck_cc.h 154-163 ck_cc_popcount] *)
Definition ck_cc_popcount (x : Z) : outcome Z := popcount_loop 32 0 x.

(** [~x] of an [unsigned int]. *)
Definition uint_not (x : Z) : Z := u32 (Z.lnot x).

(** ** Loops over words *)

(** [for (i = lo; i < hi; i++) body], and the same loop that leaves the function when a test fails. *)
Fixpoint for_up {A} (n : nat) (i : Z) (body : Z → A → outcome A) (a : A) : outcome A :=
  match n with
  | O => Ret a
  | S n => a ← body i a; for_up n (i + 1) body a
  end.

Fixpoint all_up (n : nat) (i : Z) (test : Z → outcome bool) : outcome bool :=
  match n with
  | O => Ret true
  | S n => b ← test i; if (b : bool) then all_up n (i + 1) test else Ret false
  end.

(** ** The bitmap *)

(** [src: include/aerospike/ck/ck_bitmap.h 48-48 CK_BITMAP_BLOCK] *)
Definition CK_BITMAP_BLOCK : Z := 32.

(** [src: include/aerospike/ck/ck_bitmap.h 49-49 CK_BITMAP_OFFSET] *)
Definition CK_BITMAP_OFFSET (i : Z) : Z := i mod CK_BITMAP_BLOCK.

(** [src: include/aerospike/ck/ck_bitmap.h 50-50 CK_BITMAP_BIT] *)
Definition CK_BITMAP_BIT (i : Z) : Z := Z.shiftl 1 (CK_BITMAP_OFFSET i).

(** The index of the word.
    [src: include/aerospike/ck/ck_bitmap.h 51-51 CK_BITMAP_PTR] *)
Definition CK_BITMAP_PTR (i : Z) : Z := i / CK_BITMAP_BLOCK.

(** [src: include/aerospike/ck/ck_bitmap.h 52-52 CK_BITMAP_BLOCKS] *)
Definition CK_BITMAP_BLOCKS (n : Z) : Z := (n + CK_BITMAP_BLOCK - 1) / CK_BITMAP_BLOCK.

(** [src: include/aerospike/ck/ck_bitmap.h 117-120 ck_bitmap] *)
Record ck_bitmap : Type := MkBitmap { n_bits : Z; map : list Z }.

(** [src: include/aerospike/ck/ck_bitmap.h 123-127 ck_bitmap_iterator] *)
Record ck_bitmap_iterator : Type := MkIterator { it_cache : Z; it_n_block : Z; it_n_limit : Z }.

(** [src: include/aerospike/ck/ck_bitmap.h 130-135 ck_bitmap_base] *)
Definition ck_bitmap_base (n : Z) : Z := u32 (CK_BITMAP_BLOCKS n * 4).

(** [src: include/aerospike/ck/ck_bitmap.h 141-146 ck_bitmap_size] *)
Definition ck_bitmap_size (n : Z) : Z := u32 (ck_bitmap_base n + 4).

(** [src: include/aerospike/ck/ck_bitmap.h 151-156 ck_bitmap_bits] *)
Definition ck_bitmap_bits (bitmap : ck_bitmap) : Z := n_bits bitmap.

(** [src: include/aerospike/ck/ck_bitmap.h 162-167 ck_bitmap_buffer] *)
Definition ck_bitmap_buffer (bitmap : ck_bitmap) : list Z := map bitmap.

(** An atomic operation on the word [j], which becomes [f] of it. *)
Definition update_word (bitmap : ck_bitmap) (j : Z) (f : Z → Z) : outcome ck_bitmap :=
  w ← arr_get (map bitmap) j;
  m ← arr_set (map bitmap) j (f w);
  Ret (MkBitmap (n_bits bitmap) m).

(** [src: include/aerospike/ck/ck_bitmap.h 172-178 ck_bitmap_set] *)
Definition ck_bitmap_set (bitmap : ck_bitmap) (n : Z) : outcome ck_bitmap :=
  update_word bitmap (CK_BITMAP_PTR n) (λ w, Z.lor w (CK_BITMAP_BIT n)).

(** The bit before, and the bitmap.
    [src: include/aerospike/ck/ck_bitmap.h 186-192 ck_bitmap_bts] *)
Definition ck_bitmap_bts (bitmap : ck_bitmap) (n : Z) : outcome (bool * ck_bitmap) :=
  w ← arr_get (map bitmap) (CK_BITMAP_PTR n);
  bitmap ← update_word bitmap (CK_BITMAP_PTR n) (λ w, Z.setbit w (CK_BITMAP_OFFSET n));
  Ret (Z.testbit w (CK_BITMAP_OFFSET n), bitmap).

(** [src: include/aerospike/ck/ck_bitmap.h 197-203 ck_bitmap_reset] *)
Definition ck_bitmap_reset (bitmap : ck_bitmap) (n : Z) : outcome ck_bitmap :=
  update_word bitmap (CK_BITMAP_PTR n) (λ w, Z.land w (uint_not (CK_BITMAP_BIT n))).

(** [src: include/aerospike/ck/ck_bitmap.h 209-216 ck_bitmap_test] *)
Definition ck_bitmap_test (bitmap : ck_bitmap) (n : Z) : outcome bool :=
  block ← arr_get (map bitmap) (CK_BITMAP_PTR n);
  Ret (negb (Z.land block (CK_BITMAP_BIT n) =? 0)).

(** [src: include/aerospike/ck/ck_bitmap.h 222-238 ck_bitmap_union] *)
Definition ck_bitmap_union (dst src : ck_bitmap) : outcome ck_bitmap :=
  let n_buckets := if n_bits src <? n_bits dst then n_bits src else n_bits dst in
  let n_buckets := CK_BITMAP_BLOCKS n_buckets in
  for_up (Z.to_nat n_buckets) 0 (λ n dst,
    x ← arr_get (map src) n; update_word dst n (λ w, Z.lor w x)) dst.

(** [src: include/aerospike/ck/ck_bitmap.h 245-266 ck_bitmap_intersection] *)
Definition ck_bitmap_intersection (dst src : ck_bitmap) : outcome ck_bitmap :=
  let n_buckets := n_bits dst in
  let n_intersect := if n_bits src <? n_buckets then n_bits src else n_buckets in
  let n_buckets := CK_BITMAP_BLOCKS n_buckets in
  let n_intersect := CK_BITMAP_BLOCKS n_intersect in
  dst ← for_up (Z.to_nat n_intersect) 0 (λ n dst,
    x ← arr_get (map src) n; update_word dst n (λ w, Z.land w x)) dst;
  for_up (Z.to_nat (n_buckets - n_intersect)) n_intersect (λ n dst, update_word dst n (λ _, 0)) dst.

(** [src: include/aerospike/ck/ck_bitmap.h 273-290 ck_bitmap_intersection_negate] *)
Definition ck_bitmap_intersection_negate (dst src : ck_bitmap) : outcome ck_bitmap :=
  let n_intersect := if n_bits src <? n_bits dst then n_bits src else n_bits dst in
  let n_intersect := CK_BITMAP_BLOCKS n_intersect in
  for_up (Z.to_nat n_intersect) 0 (λ n dst,
    x ← arr_get (map src) n; update_word dst n (λ w, Z.land w (uint_not x))) dst.

(** [src: include/aerospike/ck/ck_bitmap.h 296-307 ck_bitmap_clear] *)
Definition ck_bitmap_clear (bitmap : ck_bitmap) : outcome ck_bitmap :=
  let n_buckets := ck_bitmap_base (n_bits bitmap) / 4 in
  for_up (Z.to_nat n_buckets) 0 (λ i bitmap, update_word bitmap i (λ _, 0)) bitmap.

(** The bits of the word below [slop]. *)
Definition low_mask (slop : Z) : Z := uint_sub (Z.shiftl 1 slop) 1.

(** [src: include/aerospike/ck/ck_bitmap.h 314-339 ck_bitmap_empty] *)
Definition ck_bitmap_empty (bitmap : ck_bitmap) (limit : Z) : outcome bool :=
  let limit := if n_bits bitmap <? limit then n_bits bitmap else limit in
  let words := limit / CK_BITMAP_BLOCK in
  let slop := limit mod CK_BITMAP_BLOCK in
  b ← all_up (Z.to_nat words) 0 (λ i, w ← arr_get (map bitmap) i; Ret (w =? 0));
  if negb b then Ret false
  else if 0 <? slop then
    word ← arr_get (map bitmap) words;
    Ret (Z.land word (low_mask slop) =? 0)
  else Ret true.

(** [src: include/aerospike/ck/ck_bitmap.h 345-369 ck_bitmap_full] *)
Definition ck_bitmap_full (bitmap : ck_bitmap) (limit : Z) : outcome bool :=
  let limit := if n_bits bitmap <? limit then n_bits bitmap else limit in
  let words := limit / CK_BITMAP_BLOCK in
  let slop := limit mod CK_BITMAP_BLOCK in
  b ← all_up (Z.to_nat words) 0 (λ i, w ← arr_get (map bitmap) i; Ret (w =? 4294967295));
  if negb b then Ret false
  else if 0 <? slop then
    word ← arr_get (map bitmap) words;
    Ret (Z.land (uint_not word) (low_mask slop) =? 0)
  else Ret true.

(** [src: include/aerospike/ck/ck_bitmap.h 376-396 ck_bitmap_count] *)
Definition ck_bitmap_count (bitmap : ck_bitmap) (limit : Z) : outcome Z :=
  let limit := if n_bits bitmap <? limit then n_bits bitmap else limit in
  let words := limit / CK_BITMAP_BLOCK in
  let slop := limit mod CK_BITMAP_BLOCK in
  count ← for_up (Z.to_nat words) 0 (λ i count,
    w ← arr_get (map bitmap) i; c ← ck_cc_popcount w; Ret (uint_add count c)) 0;
  if 0 <? slop then
    word ← arr_get (map bitmap) words;
    c ← ck_cc_popcount (Z.land word (low_mask slop));
    Ret (uint_add count c)
  else Ret count.

(** [src: include/aerospike/ck/ck_bitmap.h 403-434 ck_bitmap_count_intersect] *)
Definition ck_bitmap_count_intersect (x y : ck_bitmap) (limit : Z) : outcome Z :=
  let limit := if n_bits x <? limit then n_bits x else limit in
  let limit := if n_bits y <? limit then n_bits y else limit in
  let words := limit / CK_BITMAP_BLOCK in
  let slop := limit mod CK_BITMAP_BLOCK in
  count ← for_up (Z.to_nat words) 0 (λ i count,
    xi ← arr_get (map x) i; yi ← arr_get (map y) i;
    c ← ck_cc_popcount (Z.land xi yi); Ret (uint_add count c)) 0;
  if 0 <? slop then
    xi ← arr_get (map x) words; yi ← arr_get (map y) words;
    let word := Z.land xi yi in
    c ← ck_cc_popcount (Z.land word (low_mask slop));
    Ret (uint_add count c)
  else Ret count.

(** The words are those of the memory that the bitmap points to; [memset] writes the bytes of the first.
    [src: include/aerospike/ck/ck_bitmap.h 441-461 ck_bitmap_init] *)
Definition ck_bitmap_init (memory : list Z) (n : Z) (set : bool) : outcome ck_bitmap :=
  let base := ck_bitmap_base n in
  if Z.of_nat (length memory) <? base / 4 then Fault OutOfBounds
  else
    let words := Z.to_nat (base / 4) in
    let bitmap := MkBitmap n (replicate words (if set then 4294967295 else 0) ++ drop words memory) in
    let b := n mod CK_BITMAP_BLOCK in
    if set && negb (b =? 0) then
      update_word bitmap (CK_BITMAP_PTR (uint_sub n 1)) (λ w, Z.land w (low_mask b))
    else Ret bitmap.

(** [src: include/aerospike/ck/ck_bitmap.h 466-479 ck_bitmap_iterator_init] *)
Definition ck_bitmap_iterator_init (bitmap : ck_bitmap) : outcome ck_bitmap_iterator :=
  let n_limit := u32 (CK_BITMAP_BLOCKS (n_bits bitmap)) in
  if 0 <? n_limit then
    w ← arr_get (map bitmap) 0; Ret (MkIterator w 0 n_limit)
  else Ret (MkIterator 0 0 n_limit).

(** The next word that is not 0, if any, and its index. *)
Fixpoint next_block (fuel : nat) (m : list Z) (n_block n_limit : Z) : outcome (option Z * Z) :=
  if n_block <? n_limit then
    match fuel with
    | O => Fault OutOfFuel
    | S fuel =>
        cache ← arr_get m n_block;
        if negb (cache =? 0) then Ret (Some cache, n_block)
        else next_block fuel m (uint_add n_block 1) n_limit
    end
  else Ret (None, n_block).

(** The bit, when the result is [true], and the iterator.
    [src: include/aerospike/ck/ck_bitmap.h 484-513 ck_bitmap_next] *)
Definition ck_bitmap_next (bitmap : ck_bitmap) (i : ck_bitmap_iterator) : outcome (option Z * ck_bitmap_iterator) :=
  let non_zero cache n_block :=
    c ← ck_cc_ctz cache;
    Ret (Some (u32 (CK_BITMAP_BLOCK * n_block + c)),
         MkIterator (Z.land cache (uint_sub cache 1)) n_block (it_n_limit i)) in
  if it_cache i =? 0 then
    if it_n_limit i <=? it_n_block i then Ret (None, i)
    else
      '(cache, n_block) ← next_block (Z.to_nat (it_n_limit i)) (map bitmap) (uint_add (it_n_block i) 1) (it_n_limit i);
      match cache with
      | Some cache => non_zero cache n_block
      | None => Ret (None, MkIterator 0 n_block (it_n_limit i))
      end
  else non_zero (it_cache i) (it_n_block i).

(** * A bitmap as the set of its bits. *)

(** ** Bits of a word *)

(** Those among the numbers of a list for which a function is [true]. *)
Abbreviation those := List.filter.

Lemma those_ext {A} (p q : A → bool) l : (∀ x, x ∈ l → p x = q x) → those p l = those q l.
Proof.
  induction l as [|x l IH]; intros H; [done|]. cbn. rewrite (H x) by left. rewrite IH; [done|].
  intros y Hy. apply H. by right.
Qed.

Lemma those_fmap {A B} (p : B → bool) (f : A → B) l : those p (f <$> l) = f <$> those (λ x, p (f x)) l.
Proof. induction l as [|x l IH]; [done|]. cbn. destruct (p (f x)); cbn; by rewrite IH. Qed.

Lemma those_none {A} (p : A → bool) l : (∀ x, x ∈ l → p x = false) → those p l = [].
Proof.
  induction l as [|x l IH]; intros H; [done|]. cbn. rewrite (H x) by left. apply IH.
  intros y Hy. apply H. by right.
Qed.

Definition bits_below (n : nat) (w : Z) : list Z := those (Z.testbit w) (seqZ 0 (Z.of_nat n)).
Abbreviation word_bits := (bits_below 32).

Lemma land_1 x : Z.land x 1 = Z.b2z (Z.testbit x 0).
Proof. rewrite Z.bit0_mod. change 1 with (Z.ones 1). by rewrite Z.land_ones by lia. Qed.

Lemma half_range x (n : nat) : 0 ≤ x < 2 ^ Z.of_nat (S n) → 0 ≤ Z.shiftr x 1 < 2 ^ Z.of_nat n.
Proof.
  intros H. rewrite Z.shiftr_div_pow2 by lia. change (2 ^ 1) with 2.
  rewrite Nat2Z.inj_succ, Z.pow_succ_r in H by lia. split; [apply Z.div_pos; lia|]. apply Z.div_lt_upper_bound; lia.
Qed.

Lemma half_testbit x i : 0 ≤ i → Z.testbit (Z.shiftr x 1) i = Z.testbit x (i + 1).
Proof. intros. by rewrite Z.shiftr_spec. Qed.

Lemma even_half x : 0 ≤ x → Z.testbit x 0 = false → Z.shiftr x 1 = 0 → x = 0.
Proof.
  intros H H0 H1. apply Z.bits_inj'. intros i Hi. rewrite Z.bits_0.
  destruct (Z.eq_dec i 0) as [->|]; [done|].
  replace i with ((i - 1) + 1) by lia. rewrite <- half_testbit, H1 by lia. apply Z.bits_0.
Qed.

(** [c] is the lowest bit of [x]. *)
Definition lowest (x c : Z) : Prop := Z.testbit x c = true ∧ ∀ j, 0 ≤ j < c → Z.testbit x j = false.

Lemma ctz_loop_spec (n : nat) i x :
  0 < x < 2 ^ Z.of_nat n → 0 ≤ i → i + Z.of_nat n ≤ 32 →
  ∃ c, ctz_loop n i x = Ret (i + c) ∧ 0 ≤ c < Z.of_nat n ∧ lowest x c.
Proof.
  revert i x. induction n as [|n IH]; intros i x Hx Hi Hn; [cbn in Hx; lia|].
  cbn [ctz_loop]. rewrite land_1. destruct (Z.testbit x 0) eqn:E0; cbn [Z.b2z].
  - exists 0. rewrite Z.add_0_r. split; [done|]. split; [lia|]. split; [done|]. lia.
  - pose proof (half_range x n ltac:(lia)) as Hh.
    assert (0 < Z.shiftr x 1) as Hp.
    { destruct (Z.eq_dec (Z.shiftr x 1) 0) as [E|]; [|lia]. apply even_half in E; [lia|lia|done]. }
    change (0 =? 0) with true. cbv iota. rewrite uint_add_small by lia.
    destruct (IH (i + 1) (Z.shiftr x 1)) as (c & -> & Hc & Hl & Hlow); [lia..|].
    exists (c + 1). split; [f_equal; lia|]. split; [lia|]. split.
    + by rewrite <- half_testbit by lia.
    + intros j Hj. destruct (Z.eq_dec j 0) as [->|]; [done|].
      replace j with ((j - 1) + 1) by lia. rewrite <- half_testbit by lia. apply Hlow. lia.
Qed.

Lemma ck_cc_ctz_spec x : 0 < x < 4294967296 → ∃ c, ck_cc_ctz x = Ret c ∧ 0 ≤ c < 32 ∧ lowest x c.
Proof.
  intros Hx. unfold ck_cc_ctz. destruct (Z.eqb_spec x 0); [lia|].
  destruct (ctz_loop_spec 32 0 x) as (c & -> & Hc & Hl); [done|lia|lia|]. by exists c.
Qed.

Lemma bits_below_S n x :
  bits_below (S n) x = (if Z.testbit x 0 then [0] else []) ++ (Z.add 1 <$> bits_below n (Z.shiftr x 1)).
Proof.
  unfold bits_below. rewrite seqZ_cons by lia. rewrite Nat2Z.inj_succ, Z.pred_succ.
  change (Z.succ 0) with (1 + 0). rewrite <- (fmap_add_seqZ 1 0).
  assert (those (Z.testbit x) (Z.add 1 <$> seqZ 0 (Z.of_nat n))
    = Z.add 1 <$> those (Z.testbit (Z.shiftr x 1)) (seqZ 0 (Z.of_nat n))) as E.
  { rewrite those_fmap. f_equal. apply those_ext. intros i Hi%elem_of_seqZ. rewrite half_testbit by lia.
    f_equal. lia. }
  cbn [those]. rewrite E. by destruct (Z.testbit x 0).
Qed.

Lemma popcount_loop_spec (n : nat) acc x :
  0 ≤ x < 2 ^ Z.of_nat n → 0 ≤ acc → acc + Z.of_nat n < 4294967296 →
  popcount_loop n acc x = Ret (acc + Z.of_nat (length (bits_below n x))).
Proof.
  revert acc x. induction n as [|n IH]; intros acc x Hx Hacc Hn.
  - assert (x = 0) as -> by (cbn in Hx; lia). cbn [popcount_loop]. by rewrite Z.add_0_r.
  - rewrite bits_below_S, length_app, length_fmap. cbn [popcount_loop].
    pose proof (half_range x n Hx) as Hh. rewrite land_1. destruct (Z.eqb_spec x 0) as [->|Hne]; cbn [negb].
    + f_equal. change (Z.testbit 0 0) with false. cbn [length]. unfold bits_below. rewrite those_none; [by rewrite Z.add_0_r|].
      intros i _. apply Z.bits_0.
    + assert (0 ≤ Z.b2z (Z.testbit x 0) ≤ 1) by (destruct (Z.testbit x 0); cbn; lia).
      rewrite uint_add_small, IH by lia. f_equal. destruct (Z.testbit x 0); cbn [Z.b2z length]; lia.
Qed.

Lemma ck_cc_popcount_spec x :
  0 ≤ x < 4294967296 → ck_cc_popcount x = Ret (Z.of_nat (length (word_bits x))).
Proof. intros Hx. unfold ck_cc_popcount. by rewrite popcount_loop_spec by (done || lia). Qed.

(** [cache & (cache - 1)] has not the lowest bit. *)
Lemma testbit_pred x c i :
  0 < x → 0 ≤ c → 0 ≤ i → lowest x c →
  Z.testbit (Z.land x (x - 1)) i = Z.testbit x i && negb (i =? c).
Proof.
  intros Hx Hc Hi [Hbit Hlow]. rewrite Z.land_spec.
  assert (x = x / 2 ^ (c + 1) * 2 ^ (c + 1) + 2 ^ c) as E.
  { rewrite (Z.div_mod x (2 ^ (c + 1))) at 1 by lia. rewrite Z.mul_comm. f_equal.
    apply Z.bits_inj'. intros j Hj. destruct (decide (j < c + 1)).
    - rewrite Z.mod_pow2_bits_low by lia. rewrite Z.pow2_bits_eqb by lia.
      destruct (Z.eqb_spec c j) as [<-|]; [done|]. apply Hlow. lia.
    - rewrite Z.mod_pow2_bits_high by lia. rewrite Z.pow2_bits_eqb by lia.
      destruct (Z.eqb_spec c j); [lia|done]. }
  assert (2 ^ (c + 1) = 2 * 2 ^ c) as Ep by (rewrite Z.pow_add_r by lia; change (2 ^ 1) with 2; lia).
  assert (0 < 2 ^ c) by lia.
  assert ((x - 1) / 2 ^ (c + 1) = x / 2 ^ (c + 1)) as Eh.
  { symmetry. apply (Z.div_unique _ _ _ (2 ^ c - 1)); lia. }
  destruct (Z.eqb_spec i c) as [->|Hne]; cbn [negb].
  - rewrite andb_false_r. rewrite Hbit. cbn.
    assert (x - 1 = x / 2 ^ (c + 1) * 2 ^ (c + 1) + (2 ^ c - 1)) as E1 by lia.
    assert ((x - 1) mod 2 ^ (c + 1) = 2 ^ c - 1) as E2.
    { rewrite E1, Z.add_comm, Z.mod_add by lia. apply Z.mod_small. lia. }
    rewrite <- (Z.mod_pow2_bits_low (x - 1) (c + 1) c) by lia. rewrite E2.
    rewrite Z.sub_1_r, <- Z.ones_equiv. apply Z.ones_spec_high. lia.
  - rewrite andb_true_r. destruct (decide (i < c)) as [Hlt|Hge]; [by rewrite Hlow by lia|].
    replace i with ((i - (c + 1)) + (c + 1)) by lia.
    rewrite <- !Z.div_pow2_bits, Eh by lia. by rewrite andb_diag.
Qed.

(** ** The words of a bitmap *)

Definition is_word (w : Z) : Prop := 0 ≤ w < 4294967296.

(** The word [j], and the bit [i] of the words together. *)
Definition word (bm : ck_bitmap) (j : Z) : Z := map bm !!! Z.to_nat j.
Definition bit (bm : ck_bitmap) (i : Z) : bool := Z.testbit (word bm (i / 32)) (i mod 32).

(** The words are words, and as many as the bits need. *)
Record wf (bm : ck_bitmap) : Prop := {
  wf_bits : 0 ≤ n_bits bm < 4294967296;
  wf_length : CK_BITMAP_BLOCKS (n_bits bm) ≤ Z.of_nat (length (map bm));
  wf_words : Forall is_word (map bm)
}.

(** The bits past the last in the words of the bitmap are 0. *)
Definition clean (bm : ck_bitmap) : Prop :=
  ∀ i, n_bits bm ≤ i < 32 * CK_BITMAP_BLOCKS (n_bits bm) → bit bm i = false.

Lemma blocks_bound n : 0 ≤ n → n ≤ 32 * CK_BITMAP_BLOCKS n < n + 32.
Proof. intros Hn. unfold CK_BITMAP_BLOCKS, CK_BITMAP_BLOCK. Z.to_euclidean_division_equations. lia. Qed.

(** The word of a bit is one of the words of the bitmap. *)
Lemma block_of n i : 0 ≤ i < 32 * CK_BITMAP_BLOCKS n → 0 ≤ i / 32 < CK_BITMAP_BLOCKS n.
Proof. generalize (CK_BITMAP_BLOCKS n). intros b Hi. Z.to_euclidean_division_equations. lia. Qed.

Lemma arr_get_word bm j : 0 ≤ j < Z.of_nat (length (map bm)) → arr_get (map bm) j = Ret (word bm j).
Proof.
  intros Hj. rewrite <- (Z2Nat.id j) at 1 by lia. apply arr_get_lookup. unfold word.
  apply list_lookup_lookup_total_lt. lia.
Qed.

Lemma word_is_word bm j : Forall is_word (map bm) → is_word (word bm j).
Proof.
  intros H. unfold word. destruct (map bm !! Z.to_nat j) as [w|] eqn:E.
  - rewrite (list_lookup_total_correct _ _ _ E). by eapply Forall_lookup_1.
  - rewrite list_lookup_total_alt, E. cbn. unfold is_word. lia.
Qed.

Lemma is_word_bits w : 0 ≤ w → (∀ i, 32 ≤ i → Z.testbit w i = false) → is_word w.
Proof.
  intros H0 Hw. unfold is_word. split; [done|].
  destruct (Z.eq_dec w 0) as [->|]; [lia|]. change 4294967296 with (2 ^ 32). apply Z.log2_lt_pow2; [lia|].
  destruct (Z.le_gt_cases 32 (Z.log2 w)) as [Hl|]; [|done].
  specialize (Hw _ Hl). rewrite Z.bit_log2 in Hw by lia. done.
Qed.

Lemma is_word_high w i : is_word w → 32 ≤ i → Z.testbit w i = false.
Proof.
  intros Hw Hi. rewrite <- (Z.mod_small w (2 ^ 32)) by (unfold is_word in Hw; lia).
  apply Z.mod_pow2_bits_high. lia.
Qed.

Lemma lor_is_word x y : is_word x → is_word y → is_word (Z.lor x y).
Proof.
  intros Hx Hy. apply is_word_bits; [apply Z.lor_nonneg; unfold is_word in *; lia|].
  intros i Hi. by rewrite Z.lor_spec, !is_word_high.
Qed.

Lemma land_is_word x y : is_word x → 0 ≤ y → is_word (Z.land x y).
Proof.
  intros Hx Hy. apply is_word_bits; [apply Z.land_nonneg; lia|].
  intros i Hi. by rewrite Z.land_spec, (is_word_high x).
Qed.

Lemma uint_not_is_word x : is_word (uint_not x).
Proof. unfold is_word, uint_not, uwrap. pose proof (Z.mod_pos_bound (Z.lnot x) (2 ^ 32)). lia. Qed.

Lemma uint_not_testbit x i : 0 ≤ i < 32 → Z.testbit (uint_not x) i = negb (Z.testbit x i).
Proof. intros Hi. unfold uint_not, uwrap. rewrite Z.mod_pow2_bits_low by lia. apply Z.lnot_spec; lia. Qed.

Lemma bit_testbit k i : 0 ≤ i < 32 → Z.testbit (CK_BITMAP_BIT k) i = (i =? k mod 32).
Proof.
  intros Hi. unfold CK_BITMAP_BIT, CK_BITMAP_OFFSET, CK_BITMAP_BLOCK.
  rewrite Z.shiftl_1_l, Z.pow2_bits_eqb by (Z.to_euclidean_division_equations; lia). apply Z.eqb_sym.
Qed.

Lemma bit_is_word k : is_word (CK_BITMAP_BIT k).
Proof.
  unfold CK_BITMAP_BIT, CK_BITMAP_OFFSET, CK_BITMAP_BLOCK. rewrite Z.shiftl_1_l.
  pose proof (Z.mod_pos_bound k 32 ltac:(lia)). split; [lia|].
  change 4294967296 with (2 ^ 32). apply Z.pow_lt_mono_r; lia.
Qed.

(** ** Operations on words *)

(** [bm'] is [bm] with every word, by its index, replaced by what [f] gives for it. *)
Record becomes (bm : ck_bitmap) (f : Z → Z → Z) (bm' : ck_bitmap) : Prop := {
  becomes_bits : n_bits bm' = n_bits bm;
  becomes_length : length (map bm') = length (map bm);
  becomes_words : Forall is_word (map bm');
  becomes_word : ∀ k, 0 ≤ k → word bm' k = f k (word bm k)
}.

Lemma becomes_wf bm f bm' : wf bm → becomes bm f bm' → wf bm'.
Proof. intros [Hn Hl Hw] [En El Hw' _]. split; [by rewrite En|by rewrite En, El|done]. Qed.

Lemma becomes_bit bm f bm' i :
  becomes bm f bm' → 0 ≤ i → bit bm' i = Z.testbit (f (i / 32) (word bm (i / 32))) (i mod 32).
Proof. intros H Hi. unfold bit. rewrite (becomes_word _ _ _ H); [done|]. apply Z.div_pos; lia. Qed.

Lemma becomes_trans bm f bm1 g bm2 h :
  becomes bm f bm1 → becomes bm1 g bm2 → (∀ k w, 0 ≤ k → g k (f k w) = h k w) → becomes bm h bm2.
Proof.
  intros [En El _ E] [En' El' Hw' E'] Hh. split; [congruence..|done|].
  intros k Hk. by rewrite E', E, Hh.
Qed.

Lemma update_word_spec bm j f :
  0 ≤ j < Z.of_nat (length (map bm)) → Forall is_word (map bm) → is_word (f (word bm j)) →
  ∃ bm', update_word bm j f = Ret bm' ∧ becomes bm (λ k w, if k =? j then f w else w) bm'.
Proof.
  intros Hj Hw Hf. unfold update_word. rewrite arr_get_word by done. cbn [mbind outcome_bind].
  rewrite arr_set_in by done. cbn [mbind outcome_bind].
  eexists. split; [reflexivity|]. split; cbn [n_bits map]; [done|apply length_insert|by apply Forall_insert|].
  intros k Hk. unfold word at 1. cbn [map]. destruct (Z.eqb_spec k j) as [->|Hne].
  - by apply list_lookup_total_insert_eq; lia.
  - rewrite list_lookup_total_insert_ne by lia. done.
Qed.

(** A loop that changes the words [lo], [lo + 1], … one at a time changes these. *)
Lemma for_up_spec body f bm (n : nat) lo :
  0 ≤ lo →
  (∀ i bm1, lo ≤ i < lo + Z.of_nat n → length (map bm1) = length (map bm) → Forall is_word (map bm1) →
    ∃ bm2, body i bm1 = Ret bm2 ∧ becomes bm1 (λ k w, if k =? i then f i w else w) bm2) →
  Forall is_word (map bm) →
  ∃ bm', for_up n lo body bm = Ret bm' ∧
    becomes bm (λ k w, if (lo <=? k) && (k <? lo + Z.of_nat n) then f k w else w) bm'.
Proof.
  revert lo bm. induction n as [|n IH]; intros lo bm Hlo Hbody Hw.
  - exists bm. split; [done|]. split; [done..|]. intros k Hk.
    destruct (Z.leb_spec lo k), (Z.ltb_spec k (lo + Z.of_nat 0)); cbn [andb]; done || lia.
  - cbn [for_up]. destruct (Hbody lo bm) as (bm1 & -> & H1); [lia|done..|]. cbn [mbind outcome_bind].
    destruct (IH (lo + 1) bm1) as (bm2 & -> & H2); [lia| |by apply (becomes_words _ _ _ H1)|].
    { intros i bm3 Hi El. apply Hbody; [lia|]. rewrite El. apply (becomes_length _ _ _ H1). }
    exists bm2. split; [done|]. apply (becomes_trans _ _ _ _ _ _ H1 H2). intros k w Hk.
    destruct (Z.eqb_spec k lo) as [->|Hne].
    + destruct (Z.leb_spec (lo + 1) lo), (Z.leb_spec lo lo), (Z.ltb_spec lo (lo + Z.of_nat (S n)));
        cbn [andb]; done || lia.
    + destruct (Z.leb_spec (lo + 1) k), (Z.leb_spec lo k), (Z.ltb_spec k (lo + 1 + Z.of_nat n)),
        (Z.ltb_spec k (lo + Z.of_nat (S n))); cbn [andb]; done || lia.
Qed.

(** A loop that only tests. *)
Lemma all_up_spec test t (n : nat) lo :
  (∀ i, lo ≤ i < lo + Z.of_nat n → test i = Ret (t i)) →
  all_up n lo test = Ret (forallb t (seqZ lo (Z.of_nat n))).
Proof.
  revert lo. induction n as [|n IH]; intros lo H; [done|].
  cbn [all_up]. rewrite H by lia. cbn [mbind outcome_bind]. rewrite seqZ_cons by lia. cbn [forallb].
  destruct (t lo); [|done]. cbn [andb]. rewrite Nat2Z.inj_succ, Z.pred_succ. apply IH. intros i Hi. apply H. lia.
Qed.

(** * The operations of a bitmap as operations on the set of its bits. *)

(** ** The set of a bitmap *)

(** The bits of the words below [limit], in order, and those of the bitmap as a set. *)
Definition set_bits (bm : ck_bitmap) (limit : Z) : list Z := those (bit bm) (seqZ 0 limit).
Definition elems (bm : ck_bitmap) : gset Z := list_to_set (set_bits bm (n_bits bm)).

(** [bm] has [n] bits and no others, and they are those of [X]. *)
Record represents (n : Z) (X : gset Z) (bm : ck_bitmap) : Prop := {
  represents_bits : n_bits bm = n;
  represents_wf : wf bm;
  represents_clean : clean bm;
  represents_elems : elems bm = X
}.

Lemma elem_of_those {A} (p : A → bool) l x : x ∈ those p l ↔ x ∈ l ∧ p x = true.
Proof. rewrite !list_elem_of_In. apply filter_In. Qed.

Lemma elem_of_set_bits bm limit i : i ∈ set_bits bm limit ↔ 0 ≤ i < limit ∧ bit bm i = true.
Proof. unfold set_bits. rewrite elem_of_those, elem_of_seqZ. intuition lia. Qed.

Lemma elem_of_elems bm i : i ∈ elems bm ↔ 0 ≤ i < n_bits bm ∧ bit bm i = true.
Proof. unfold elems. rewrite elem_of_list_to_set. apply elem_of_set_bits. Qed.

(** Within the words of a bitmap with no bits past its last, a bit is one of the set. *)
Lemma clean_bit bm i :
  clean bm → 0 ≤ i < 32 * CK_BITMAP_BLOCKS (n_bits bm) → bit bm i = true ↔ i ∈ elems bm.
Proof.
  intros Hc Hi. rewrite elem_of_elems. destruct (Z.lt_ge_cases i (n_bits bm)); [intuition lia|].
  rewrite Hc by lia. intuition (done || lia).
Qed.

(** ** What an operation does to the bits *)

(** The operation ends with a bitmap of as many bits, each of them given by [g]. *)
Definition gives (bm : ck_bitmap) (op : outcome ck_bitmap) (g : Z → bool → bool) : Prop :=
  ∃ bm', op = Ret bm' ∧ wf bm' ∧ n_bits bm' = n_bits bm ∧ ∀ i, 0 ≤ i → bit bm' i = g i (bit bm i).

Lemma gives_represents bm op g X :
  gives bm op g →
  (∀ i, n_bits bm ≤ i < 32 * CK_BITMAP_BLOCKS (n_bits bm) → g i (bit bm i) = false) →
  (∀ i, i ∈ X ↔ 0 ≤ i < n_bits bm ∧ g i (bit bm i) = true) →
  ∃ bm', op = Ret bm' ∧ represents (n_bits bm) X bm'.
Proof.
  intros (bm' & -> & Hwf & En & Hb) Hc HX. exists bm'. split; [done|]. split; [done|done| |].
  - intros i Hi. rewrite En in Hi. pose proof (wf_bits _ Hwf). rewrite Hb by lia. by apply Hc.
  - apply set_eq. intros i. rewrite elem_of_elems, HX, En. split; intros [Hi Hg]; (split; [lia|]).
    + by rewrite <- Hb by lia.
    + by rewrite Hb by lia.
Qed.

(** The bit [n] is the bit [n mod 32] of the word [n / 32]. *)
Lemma same_bit i n : 0 ≤ i → 0 ≤ n → (i =? n) = (i / 32 =? n / 32) && (i mod 32 =? n mod 32).
Proof.
  intros. destruct (Z.eqb_spec i n) as [->|]; [by rewrite !Z.eqb_refl|].
  destruct (Z.eqb_spec (i / 32) (n / 32)); [|done]. destruct (Z.eqb_spec (i mod 32) (n mod 32)); [|done].
  Z.to_euclidean_division_equations. lia.
Qed.

Lemma mod_32 i : 0 ≤ i mod 32 < 32.
Proof. apply Z.mod_pos_bound. lia. Qed.

(** A change of the word of the bit [n] that leaves its other bits. *)
Lemma gives_one bm n f v :
  wf bm → 0 ≤ n < n_bits bm → (∀ w, is_word w → is_word (f w)) →
  (∀ w o, is_word w → 0 ≤ o < 32 → Z.testbit (f w) o = if o =? n mod 32 then v else Z.testbit w o) →
  gives bm (update_word bm (CK_BITMAP_PTR n) f) (λ i b, if i =? n then v else b).
Proof.
  intros Hwf Hn Hf Hb. pose proof Hwf as [Hn0 Hl Hw].
  pose proof (blocks_bound (n_bits bm) ltac:(lia)). pose proof (block_of (n_bits bm) n ltac:(lia)) as Hj.
  unfold CK_BITMAP_PTR, CK_BITMAP_BLOCK.
  destruct (update_word_spec bm (n / 32) f) as (bm' & -> & H'); [lia|done|by apply Hf, word_is_word|].
  exists bm'. split; [done|]. split; [by eapply becomes_wf|]. split; [apply (becomes_bits _ _ _ H')|].
  intros i Hi. rewrite (becomes_bit _ _ _ i H') by done. rewrite (same_bit i n) by lia.
  destruct (i / 32 =? n / 32); [|done]. cbn [andb].
  rewrite Hb; [done|by apply word_is_word|apply mod_32].
Qed.

(** A loop that combines the words of [dst] with those of [src], below the word [b]. *)
Lemma gives_words dst src b h hb :
  wf dst → wf src → 0 ≤ b ≤ CK_BITMAP_BLOCKS (n_bits dst) → b ≤ CK_BITMAP_BLOCKS (n_bits src) →
  (∀ w x, is_word w → is_word x → is_word (h x w)) →
  (∀ w x o, is_word w → is_word x → 0 ≤ o < 32 → Z.testbit (h x w) o = hb (Z.testbit w o) (Z.testbit x o)) →
  gives dst (for_up (Z.to_nat b) 0 (λ n dst, x ← arr_get (map src) n; update_word dst n (h x)) dst)
    (λ i c, if i / 32 <? b then hb c (bit src i) else c).
Proof.
  intros Hd Hs Hb Hbs Hh Hhb. pose proof Hd as [_ Hld Hwd]. pose proof Hs as [_ Hls Hws].
  destruct (for_up_spec (λ n dst, x ← arr_get (map src) n; update_word dst n (h x))
              (λ k w, h (word src k) w) dst (Z.to_nat b) 0) as (bm' & E & H'); [done| |done|].
  { intros i bm1 Hi El Hw1. rewrite arr_get_word by lia. cbn [mbind outcome_bind].
    apply update_word_spec; [lia|done|]. apply Hh; by apply word_is_word. }
  exists bm'. split; [exact E|]. split; [by eapply (becomes_wf dst)|]. split; [apply (becomes_bits _ _ _ H')|].
  intros i Hi. rewrite (becomes_bit _ _ _ i H') by done. pose proof (Z.div_pos i 32 Hi ltac:(lia)).
  destruct (Z.leb_spec 0 (i / 32)); [|lia]. rewrite Z2Nat.id, Z.add_0_l by lia. cbn [andb].
  destruct (i / 32 <? b); [|done]. apply Hhb; [by apply word_is_word..|apply mod_32].
Qed.

(** A loop that clears the words from [lo] up to [hi]. *)
Lemma gives_cleared bm lo hi :
  wf bm → 0 ≤ lo ≤ hi → hi ≤ Z.of_nat (length (map bm)) →
  gives bm (for_up (Z.to_nat (hi - lo)) lo (λ n bm, update_word bm n (λ _, 0)) bm)
    (λ i c, if (lo <=? i / 32) && (i / 32 <? hi) then false else c).
Proof.
  intros Hwf Hlo Hhi.
  destruct (for_up_spec (λ n bm, update_word bm n (λ _, 0)) (λ _ _, 0) bm (Z.to_nat (hi - lo)) lo)
    as (bm' & E & H'); [lia| |by apply wf_words|].
  { intros i bm1 Hi El Hw1. by apply update_word_spec; [lia|done|unfold is_word; lia]. }
  exists bm'. split; [exact E|]. split; [by eapply becomes_wf|]. split; [apply (becomes_bits _ _ _ H')|].
  intros i Hi. rewrite (becomes_bit _ _ _ i H') by done. rewrite Z2Nat.id by lia.
  replace (lo + (hi - lo)) with hi by lia. destruct (_ && _); [apply Z.bits_0|done].
Qed.

Lemma gives_ext bm op g g' :
  gives bm op g → (∀ i, 0 ≤ i → g i (bit bm i) = g' i (bit bm i)) → gives bm op g'.
Proof.
  intros (bm' & -> & Hwf & En & Hb) Hg. exists bm'. split_and!; [done..|]. intros i Hi. by rewrite Hb, Hg.
Qed.

(** ** The operations *)

Lemma ck_bitmap_set_gives bm n :
  wf bm → 0 ≤ n < n_bits bm → gives bm (ck_bitmap_set bm n) (λ i b, if i =? n then true else b).
Proof.
  intros Hwf Hn. apply gives_one; [done..| |].
  - intros w Hw. apply lor_is_word; [done|apply bit_is_word].
  - intros w o Hw Ho. rewrite Z.lor_spec, bit_testbit by done. by destruct (o =? n mod 32), (Z.testbit w o).
Qed.

Lemma ck_bitmap_reset_gives bm n :
  wf bm → 0 ≤ n < n_bits bm → gives bm (ck_bitmap_reset bm n) (λ i b, if i =? n then false else b).
Proof.
  intros Hwf Hn. apply gives_one; [done..| |].
  - intros w Hw. apply land_is_word; [done|apply uint_not_is_word].
  - intros w o Hw Ho. rewrite Z.land_spec, uint_not_testbit, bit_testbit by done.
    by destruct (o =? n mod 32), (Z.testbit w o).
Qed.

Lemma ck_bitmap_bts_update bm n :
  wf bm → 0 ≤ n < n_bits bm →
  ck_bitmap_bts bm n = (bm' ← ck_bitmap_set bm n; Ret (bit bm n, bm')).
Proof.
  intros [Hn0 Hl _] Hn. pose proof (blocks_bound (n_bits bm) ltac:(lia)).
  pose proof (block_of (n_bits bm) n ltac:(lia)).
  unfold ck_bitmap_bts, ck_bitmap_set, CK_BITMAP_PTR, CK_BITMAP_OFFSET, CK_BITMAP_BIT, CK_BITMAP_BLOCK.
  rewrite arr_get_word by lia. cbn [mbind outcome_bind].
  unfold update_word. rewrite arr_get_word by lia. cbn [mbind outcome_bind].
  unfold CK_BITMAP_OFFSET, CK_BITMAP_BLOCK. by rewrite Z.setbit_spec', Z.shiftl_1_l by apply mod_32.
Qed.

Lemma ck_bitmap_test_bit bm n : wf bm → 0 ≤ n < n_bits bm → ck_bitmap_test bm n = Ret (bit bm n).
Proof.
  intros [Hn0 Hl Hw] Hn. pose proof (blocks_bound (n_bits bm) ltac:(lia)).
  pose proof (block_of (n_bits bm) n ltac:(lia)).
  unfold ck_bitmap_test, CK_BITMAP_PTR, CK_BITMAP_BLOCK. rewrite arr_get_word by lia.
  cbn [mbind outcome_bind]. f_equal. unfold bit. pose proof (mod_32 n).
  destruct (Z.eqb_spec (Z.land (word bm (n / 32)) (CK_BITMAP_BIT n)) 0) as [E|Hne]; cbn [negb].
  - apply (f_equal (λ w, Z.testbit w (n mod 32))) in E. rewrite Z.land_spec, bit_testbit, Z.eqb_refl, Z.bits_0 in E by done.
    by rewrite andb_true_r in E.
  - symmetry. apply Bool.not_false_is_true. intros E. apply Hne, Z.bits_inj'. intros o Ho.
    rewrite Z.land_spec, Z.bits_0. destruct (Z.lt_ge_cases o 32); [|by rewrite is_word_high by (try apply word_is_word; done)].
    rewrite bit_testbit by lia. destruct (Z.eqb_spec o (n mod 32)) as [->|]; [by rewrite E|apply andb_false_r].
Qed.

Lemma blocks_min n m :
  0 ≤ n → 0 ≤ m →
  0 ≤ CK_BITMAP_BLOCKS (if m <? n then m else n) ≤ CK_BITMAP_BLOCKS n ∧
  CK_BITMAP_BLOCKS (if m <? n then m else n) ≤ CK_BITMAP_BLOCKS m.
Proof.
  intros. unfold CK_BITMAP_BLOCKS, CK_BITMAP_BLOCK.
  destruct (Z.ltb_spec m n); Z.to_euclidean_division_equations; lia.
Qed.

(** The words below the fewer of the words of two bitmaps. *)
Abbreviation shared dst src := (CK_BITMAP_BLOCKS (if n_bits src <? n_bits dst then n_bits src else n_bits dst)).

Lemma ck_bitmap_union_gives dst src :
  wf dst → wf src →
  gives dst (ck_bitmap_union dst src) (λ i b, if i / 32 <? shared dst src then b || bit src i else b).
Proof.
  intros Hd Hs. destruct (blocks_min (n_bits dst) (n_bits src)) as [??]; [apply Hd|apply Hs|].
  apply gives_words; [done..| |].
  - intros. by apply lor_is_word.
  - intros. apply Z.lor_spec.
Qed.

Lemma ck_bitmap_intersection_negate_gives dst src :
  wf dst → wf src →
  gives dst (ck_bitmap_intersection_negate dst src)
    (λ i b, if i / 32 <? shared dst src then b && negb (bit src i) else b).
Proof.
  intros Hd Hs. destruct (blocks_min (n_bits dst) (n_bits src)) as [??]; [apply Hd|apply Hs|].
  apply (gives_words _ _ _ (λ x w, Z.land w (uint_not x)) (λ b c, b && negb c)); [done..| |].
  - intros. apply land_is_word; [done|apply uint_not_is_word].
  - intros. by rewrite Z.land_spec, uint_not_testbit.
Qed.

Lemma ck_bitmap_intersection_gives dst src :
  wf dst → wf src →
  gives dst (ck_bitmap_intersection dst src)
    (λ i b, if i / 32 <? shared dst src then b && bit src i
            else if i / 32 <? CK_BITMAP_BLOCKS (n_bits dst) then false else b).
Proof.
  intros Hd Hs. destruct (blocks_min (n_bits dst) (n_bits src)) as [??]; [apply Hd|apply Hs|].
  unfold ck_bitmap_intersection.
  destruct (gives_words dst src (shared dst src) (λ x w, Z.land w x) andb) as (d1 & E1 & Hw1 & En1 & Hb1); [done..| | |].
  { intros w x Hw Hx. apply land_is_word; [done|apply Hx]. }
  { intros. apply Z.land_spec. }
  setoid_rewrite E1. cbn [mbind outcome_bind].
  destruct (gives_cleared d1 (shared dst src) (CK_BITMAP_BLOCKS (n_bits dst))) as (d2 & E2 & Hw2 & En2 & Hb2);
    [done|lia|rewrite <- En1; apply Hw1|].
  exists d2. split; [exact E2|]. split; [done|]. split; [congruence|]. intros i Hi. rewrite Hb2, Hb1 by done.
  destruct (Z.leb_spec (shared dst src) (i / 32)), (Z.ltb_spec (i / 32) (shared dst src)); cbn [andb]; done || lia.
Qed.

Lemma ck_bitmap_base_words n : 0 ≤ n < 4294967296 → ck_bitmap_base n / 4 = CK_BITMAP_BLOCKS n.
Proof.
  intros Hn. pose proof (blocks_bound n ltac:(lia)). unfold ck_bitmap_base. rewrite u32_small by lia. by apply Z.div_mul.
Qed.

Lemma ck_bitmap_clear_gives bm :
  wf bm → gives bm (ck_bitmap_clear bm) (λ i b, if i / 32 <? CK_BITMAP_BLOCKS (n_bits bm) then false else b).
Proof.
  intros Hwf. pose proof (wf_bits _ Hwf). pose proof (blocks_bound (n_bits bm) ltac:(lia)).
  unfold ck_bitmap_clear. rewrite ck_bitmap_base_words by done.
  eapply gives_ext; [rewrite <- (Z.sub_0_r (CK_BITMAP_BLOCKS _)) at 1; apply gives_cleared; [done|lia|apply Hwf]|].
  intros i Hi. pose proof (Z.div_pos i 32 Hi ltac:(lia)). cbn beta. by destruct (Z.leb_spec 0 (i / 32)); [|lia].
Qed.

Lemma low_mask_ones s : 0 ≤ s < 32 → low_mask s = Z.ones s.
Proof.
  intros Hs. unfold low_mask. rewrite Z.shiftl_1_l, Z.ones_equiv.
  assert (2 ^ s ≤ 2 ^ 31) by (apply Z.pow_le_mono_r; lia). rewrite uint_sub_small by lia. lia.
Qed.

Lemma land_ones_testbit w s o : 0 ≤ s → 0 ≤ o → Z.testbit (Z.land w (Z.ones s)) o = Z.testbit w o && (o <? s).
Proof. intros. rewrite Z.land_spec. f_equal. by rewrite Z.testbit_ones_nonneg. Qed.

Lemma ck_bitmap_init_filled memory n (set : bool) :
  0 ≤ n < 4294967296 → CK_BITMAP_BLOCKS n ≤ Z.of_nat (length memory) → Forall is_word memory →
  let bm := MkBitmap n (replicate (Z.to_nat (CK_BITMAP_BLOCKS n)) (if set then 4294967295 else 0)
                        ++ drop (Z.to_nat (CK_BITMAP_BLOCKS n)) memory) in
  wf bm ∧ ∀ i, 0 ≤ i < 32 * CK_BITMAP_BLOCKS n → bit bm i = set.
Proof.
  intros Hn Hl Hm bm. pose proof (blocks_bound n ltac:(lia)). split.
  - split; unfold bm; cbn [n_bits map]; [done| |].
    + rewrite length_app, length_replicate, length_drop. lia.
    + apply Forall_app. split; [|by apply Forall_drop].
      apply Forall_replicate. destruct set; unfold is_word; lia.
  - intros i Hi. pose proof (block_of n i Hi). unfold bit, word, bm. cbn [map].
    rewrite list_lookup_total_alt, lookup_app_l by (rewrite length_replicate; lia).
    rewrite lookup_replicate_2 by lia. cbn [default]. destruct set; [|apply Z.bits_0].
    change 4294967295 with (Z.ones 32). apply Z.ones_spec_low, mod_32.
Qed.

Lemma ck_bitmap_init_represents memory n (set : bool) :
  0 ≤ n < 4294967296 → CK_BITMAP_BLOCKS n ≤ Z.of_nat (length memory) → Forall is_word memory →
  ∃ bm, ck_bitmap_init memory n set = Ret bm ∧ represents n (if set then list_to_set (seqZ 0 n) else ∅) bm.
Proof.
  intros Hn Hl Hm. pose proof (blocks_bound n ltac:(lia)).
  assert (∀ bm, n_bits bm = n → wf bm → (∀ i, 0 ≤ i < 32 * CK_BITMAP_BLOCKS n → bit bm i = set && (i <? n)) →
    represents n (if set then list_to_set (seqZ 0 n) else ∅) bm) as Hrep.
  { intros bm En Hwf Hb. split; [done|done| |].
    - intros i Hi. rewrite En in Hi. rewrite Hb by lia. destruct (Z.ltb_spec i n); [lia|apply andb_false_r].
    - apply set_eq. intros i. rewrite elem_of_elems, En. destruct set.
      + rewrite elem_of_list_to_set, elem_of_seqZ. split; [lia|]. intros Hi. split; [lia|]. rewrite Hb by lia.
        by destruct (Z.ltb_spec i n); [|lia].
      + split; [|set_solver]. intros [Hi Hf]. by rewrite Hb in Hf by lia. }
  destruct (ck_bitmap_init_filled memory n set Hn Hl Hm) as [Hwf Hb]. cbn zeta in Hwf, Hb.
  unfold ck_bitmap_init. rewrite ck_bitmap_base_words by done.
  destruct (Z.ltb_spec (Z.of_nat (length memory)) (CK_BITMAP_BLOCKS n)); [lia|].
  set (bm := MkBitmap _ _) in *. unfold CK_BITMAP_BLOCK.
  destruct (set && negb (n mod 32 =? 0)) eqn:E.
  - apply andb_prop in E as [-> E]. apply negb_true_iff, Z.eqb_neq in E. pose proof (mod_32 n).
    assert (1 ≤ n) by (destruct (Z.eq_dec n 0) as [->|]; [done|lia]). rewrite uint_sub_small by lia.
    assert ((n - 1) / 32 = n / 32) as Ej by (Z.to_euclidean_division_equations; lia).
    unfold CK_BITMAP_PTR, CK_BITMAP_BLOCK. rewrite Ej, low_mask_ones by lia.
    pose proof (block_of n (n - 1) ltac:(lia)) as Hj. rewrite Ej in Hj.
    destruct (update_word_spec bm (n / 32) (λ w, Z.land w (Z.ones (n mod 32)))) as (bm' & -> & H').
    { pose proof (wf_length _ Hwf). cbn [n_bits bm] in *. lia. }
    { apply Hwf. }
    { apply land_is_word; [apply word_is_word, Hwf|]. rewrite Z.ones_equiv. lia. }
    exists bm'. split; [done|]. apply Hrep; [apply (becomes_bits _ _ _ H')|by eapply becomes_wf|].
    intros i Hi. rewrite (becomes_bit _ _ _ i H') by lia. specialize (Hb i Hi). unfold bit in Hb.
    pose proof (mod_32 i). destruct (Z.eqb_spec (i / 32) (n / 32)) as [Ei|Ei].
    + rewrite land_ones_testbit, Hb by lia. cbn [andb]. apply Bool.eq_iff_eq_true. rewrite !Z.ltb_lt.
      Z.to_euclidean_division_equations. lia.
    + rewrite Hb. symmetry. apply Z.ltb_lt. pose proof (block_of n i Hi).
      assert (CK_BITMAP_BLOCKS n = n / 32 + 1); [|Z.to_euclidean_division_equations; lia].
      unfold CK_BITMAP_BLOCKS, CK_BITMAP_BLOCK. Z.to_euclidean_division_equations. lia.
  - exists bm. split; [done|]. apply Hrep; [done|done|]. intros i Hi. rewrite Hb by done.
    apply andb_false_iff in E as [->|E]; [done|]. apply negb_false_iff, Z.eqb_eq in E.
    destruct set; [|done]. symmetry. apply Z.ltb_lt. revert Hi. unfold CK_BITMAP_BLOCKS, CK_BITMAP_BLOCK.
    Z.to_euclidean_division_equations. lia.
Qed.

(** ** The specification *)

Lemma bit_elem bm i : 0 ≤ i < n_bits bm → bit bm i = bool_decide (i ∈ elems bm).
Proof. intros Hi. symmetry. case_bool_decide as H; rewrite elem_of_elems in H; [|destruct (bit bm i)]; intuition. Qed.

Lemma block_lt n i : 0 ≤ i < 32 * CK_BITMAP_BLOCKS n ↔ 0 ≤ i ∧ i / 32 < CK_BITMAP_BLOCKS n.
Proof. generalize (CK_BITMAP_BLOCKS n). intros b. Z.to_euclidean_division_equations. lia. Qed.

(** A bit of [dst] is combined with a bit of [src] when that is an element. *)
Lemma shared_bit dst src i :
  0 ≤ n_bits dst → 0 ≤ n_bits src → clean src → 0 ≤ i < 32 * CK_BITMAP_BLOCKS (n_bits dst) →
  i < n_bits dst ∨ n_bits src ≤ n_bits dst →
  (i / 32 <? shared dst src) && bit src i = bool_decide (i ∈ elems src).
Proof.
  intros Hd Hs Hc Hi Hor. pose proof (blocks_bound (n_bits src) Hs). apply block_lt in Hi.
  pose proof (proj1 (block_lt (n_bits src) i)) as Hlt. pose proof (proj2 (block_lt (n_bits src) i)) as Hlt'.
  destruct (Z.ltb_spec (i / 32) (shared dst src)) as [Hb|Hb]; cbn [andb].
  - apply Bool.eq_iff_eq_true. rewrite bool_decide_eq_true. apply clean_bit; [done|].
    destruct (blocks_min (n_bits dst) (n_bits src)); lia.
  - symmetry. apply bool_decide_eq_false. rewrite elem_of_elems. intros [Hm _].
    destruct (Z.ltb_spec (n_bits src) (n_bits dst)); [lia|].
    assert (n_bits src = n_bits dst ∨ n_bits dst < n_bits src) as [E|] by lia; [rewrite E in *; lia|].
    lia.
Qed.

Lemma one_represents bm n op (v : bool) :
  clean bm → 0 ≤ n < n_bits bm → gives bm op (λ i b, if i =? n then v else b) →
  ∃ bm', op = Ret bm' ∧ represents (n_bits bm) (if v then {[ n ]} ∪ elems bm else elems bm ∖ {[ n ]}) bm'.
Proof.
  intros Hc Hn H. eapply gives_represents; [exact H| |].
  - intros i Hi. cbn beta. destruct (Z.eqb_spec i n); [lia|]. by apply Hc.
  - intros i. cbn beta. pose proof (elem_of_elems bm i) as Hi. destruct (Z.eqb_spec i n) as [->|Hne].
    + destruct v; [rewrite elem_of_union|rewrite elem_of_difference]; rewrite elem_of_singleton; intuition congruence.
    + rewrite <- Hi. destruct v; [rewrite elem_of_union|rewrite elem_of_difference]; rewrite elem_of_singleton; intuition congruence.
Qed.

Section Specification.
Context (bm src : ck_bitmap) (Hwf : wf bm) (Hc : clean bm) (Hws : wf src) (Hcs : clean src).

Lemma union_represents :
  n_bits src ≤ n_bits bm →
  ∃ bm', ck_bitmap_union bm src = Ret bm' ∧ represents (n_bits bm) (elems bm ∪ elems src) bm'.
Proof using Hwf Hc Hws Hcs.
  intros Hle. pose proof (wf_bits _ Hwf). pose proof (wf_bits _ Hws).
  eapply gives_represents;
    [eapply (gives_ext _ _ _ (λ i b, b || ((i / 32 <? shared bm src) && bit src i)));
       [by apply ck_bitmap_union_gives|]| |].
  - intros i _. cbn beta. by destruct (i / 32 <? shared bm src), (bit bm i).
  - intros i Hi. cbn beta. rewrite Hc, shared_bit by (done || lia). apply bool_decide_eq_false.
    rewrite elem_of_elems. lia.
  - intros i. cbn beta. rewrite elem_of_union. pose proof (blocks_bound (n_bits bm) ltac:(lia)). split.
    + intros Hi. assert (0 ≤ i < n_bits bm) by (rewrite !elem_of_elems in Hi; lia).
      split; [done|]. rewrite bit_elem, shared_bit by (done || lia). apply orb_true_iff. rewrite !bool_decide_eq_true. done.
    + intros [Hi E]. rewrite bit_elem, shared_bit, orb_true_iff, !bool_decide_eq_true in E by (done || lia). done.
Qed.

Lemma intersection_represents :
  ∃ bm', ck_bitmap_intersection bm src = Ret bm' ∧ represents (n_bits bm) (elems bm ∩ elems src) bm'.
Proof using Hwf Hc Hws Hcs.
  pose proof (wf_bits _ Hwf). pose proof (wf_bits _ Hws). pose proof (blocks_bound (n_bits bm) ltac:(lia)).
  eapply gives_represents; [by apply ck_bitmap_intersection_gives| |].
  - intros i Hi. cbn beta. rewrite Hc by done.
    by destruct (i / 32 <? shared bm src), (i / 32 <? CK_BITMAP_BLOCKS (n_bits bm)).
  - intros i. cbn beta. rewrite elem_of_intersection, (elem_of_elems bm).
    destruct (decide (0 ≤ i < n_bits bm)) as [Hi|]; [|intuition].
    pose proof (shared_bit bm src i) as E. rewrite <- (bool_decide_eq_true (i ∈ elems src)), <- E by (done || lia).
    destruct (Z.ltb_spec (i / 32) (CK_BITMAP_BLOCKS (n_bits bm))) as [|Hb].
    + destruct (i / 32 <? shared bm src), (bit bm i), (bit src i); cbn; intuition congruence.
    + pose proof (proj1 (block_lt (n_bits bm) i)). lia.
Qed.

Lemma intersection_negate_represents :
  ∃ bm', ck_bitmap_intersection_negate bm src = Ret bm' ∧ represents (n_bits bm) (elems bm ∖ elems src) bm'.
Proof using Hwf Hc Hws Hcs.
  pose proof (wf_bits _ Hwf). pose proof (wf_bits _ Hws). pose proof (blocks_bound (n_bits bm) ltac:(lia)).
  eapply gives_represents; [by apply ck_bitmap_intersection_negate_gives| |].
  - intros i Hi. cbn beta. rewrite Hc by done. by destruct (i / 32 <? shared bm src).
  - intros i. cbn beta. rewrite elem_of_difference, (elem_of_elems bm).
    destruct (decide (0 ≤ i < n_bits bm)) as [Hi|]; [|intuition].
    pose proof (shared_bit bm src i) as E. rewrite <- (bool_decide_eq_true (i ∈ elems src)), <- E by (done || lia).
    destruct (i / 32 <? shared bm src), (bit bm i), (bit src i); cbn; intuition congruence.
Qed.

Lemma clear_represents : ∃ bm', ck_bitmap_clear bm = Ret bm' ∧ represents (n_bits bm) ∅ bm'.
Proof using Hwf Hc.
  pose proof (wf_bits _ Hwf). pose proof (blocks_bound (n_bits bm) ltac:(lia)).
  assert (∀ i, 0 ≤ i < 32 * CK_BITMAP_BLOCKS (n_bits bm) → (i / 32 <? CK_BITMAP_BLOCKS (n_bits bm)) = true) as Hlt.
  { intros i Hi%block_lt. apply Z.ltb_lt. lia. }
  eapply gives_represents; [by apply ck_bitmap_clear_gives| |].
  - intros i Hi. cbn beta. by rewrite Hlt by lia.
  - intros i. cbn beta. split; [by intros []%not_elem_of_empty|]. intros [Hi E]. by rewrite Hlt in E by lia.
Qed.
End Specification.

(** C25 (refinement). The operations of ck_bitmap.h are those of sets of numbers. [ck_bitmap_init] gives the empty
    or the full set; on bitmaps with no bits past their last, setting, resetting and testing a bit add, remove
    and look up an element, [ck_bitmap_bts] adds it and tells whether it was there;
    [ck_bitmap_intersection] and [ck_bitmap_intersection_negate] give the intersection with and the difference
    from another bitmap of any size, [ck_bitmap_union] the union with one that is not larger, and
    [ck_bitmap_clear] the empty set. The results again have no bits past the last. *)
Theorem bitmap_operations_refine_sets (memory : list Z) (set : bool) N X bm M Y src n :
  0 ≤ n < N → represents N X bm → represents M Y src →
  CK_BITMAP_BLOCKS N ≤ Z.of_nat (length memory) → Forall is_word memory →
  (∃ bm', ck_bitmap_init memory N set = Ret bm' ∧ represents N (if set then list_to_set (seqZ 0 N) else ∅) bm') ∧
  (∃ bm', ck_bitmap_set bm n = Ret bm' ∧ represents N ({[ n ]} ∪ X) bm') ∧
  (∃ bm', ck_bitmap_bts bm n = Ret (bool_decide (n ∈ X), bm') ∧ represents N ({[ n ]} ∪ X) bm') ∧
  (∃ bm', ck_bitmap_reset bm n = Ret bm' ∧ represents N (X ∖ {[ n ]}) bm') ∧
  ck_bitmap_test bm n = Ret (bool_decide (n ∈ X)) ∧
  (M ≤ N → ∃ bm', ck_bitmap_union bm src = Ret bm' ∧ represents N (X ∪ Y) bm') ∧
  (∃ bm', ck_bitmap_intersection bm src = Ret bm' ∧ represents N (X ∩ Y) bm') ∧
  (∃ bm', ck_bitmap_intersection_negate bm src = Ret bm' ∧ represents N (X ∖ Y) bm') ∧
  (∃ bm', ck_bitmap_clear bm = Ret bm' ∧ represents N ∅ bm').
Proof.
  intros Hn [<- Hwf Hc <-] [<- Hws Hcs <-] Hl Hm. rewrite <- bit_elem by done.
  destruct (one_represents bm n _ true Hc Hn (ck_bitmap_set_gives bm n Hwf Hn)) as (bm1 & E1 & H1).
  split; [by apply ck_bitmap_init_represents; [apply Hwf|..]|].
  split; [by exists bm1|].
  split; [exists bm1; by rewrite ck_bitmap_bts_update, E1|].
  split; [apply (one_represents bm n _ false Hc Hn), ck_bitmap_reset_gives; done|].
  split; [by apply ck_bitmap_test_bit|].
  split; [by apply union_represents|].
  split; [by apply intersection_represents|].
  split; [by apply intersection_negate_represents|by apply clear_represents].
Qed.

(** A check that a bitmap represents a set. *)
Lemma represents_check n X bm :
  (n_bits bm =? n) && (0 <=? n) && (n <? 4294967296) && (CK_BITMAP_BLOCKS n <=? Z.of_nat (length (map bm)))
    && forallb (λ w, (0 <=? w) && (w <? 4294967296)) (map bm)
    && forallb (λ i, negb (bit bm i)) (seqZ n (32 * CK_BITMAP_BLOCKS n - n)) && bool_decide (elems bm = X) = true →
  represents n X bm.
Proof.
  intros H. rewrite !andb_true_iff, Z.eqb_eq, Z.ltb_lt, !Z.leb_le, !forallb_forall, bool_decide_eq_true in H.
  destruct H as ((((((<- & ?) & ?) & ?) & Hw) & Hc) & HX). split; [done| | |done].
  - split; [done|done|]. apply Forall_forall. intros w Hin%list_elem_of_In%Hw. unfold is_word. lia.
  - intros i Hi. specialize (Hc i). rewrite <- list_elem_of_In, elem_of_seqZ in Hc.
    apply negb_true_iff, Hc. lia.
Qed.

Lemma bitmap_operations_refine_sets_witness :
  ∃ bm', ck_bitmap_intersection (MkBitmap 40 [8; 9]) (MkBitmap 64 [9; 2147483656]) = Ret bm' ∧
         represents 40 ({[ 3; 32; 35 ]} ∩ {[ 0; 3; 35; 63 ]}) bm'.
Proof.
  apply (bitmap_operations_refine_sets [7; 7] true 40 {[ 3; 32; 35 ]} (MkBitmap 40 [8; 9])
           64 {[ 0; 3; 35; 63 ]} (MkBitmap 64 [9; 2147483656]) 4).
  - lia.
  - by apply represents_check.
  - by apply represents_check.
  - by vm_compute.
  - repeat (apply Forall_cons; split; [unfold is_word; lia|]). apply Forall_nil_2.
Defined.
