(* ===== verification/CkBitmapScan.v ===== *)
(** CkBitmapScan: counting the bits of a bitmap and going through them in order. *)

From Stdlib Require Import ZArith Lia.
From stdpp Require Import base list numbers gmap sets.
From S2P Require Import Prelude Memory CkBitmap.

#[local] Open Scope Z_scope.

(** ** Bits of a sequence of words *)

(** The bit [i] of the words [ws 0], [ws 1], …; [bit bm] is that of the words of [bm]. *)
Definition word_bit (ws : Z → Z) (i : Z) : bool := Z.testbit (ws (i / 32)) (i mod 32).

Lemma word_bit_at ws j o : 0 ≤ j → 0 ≤ o < 32 → word_bit ws (32 * j + o) = Z.testbit (ws j) o.
Proof.
  intros Hj Ho. unfold word_bit. rewrite Z.mul_comm, Z.div_add_l, (Z.div_small o), Z.add_0_r by lia.
  by rewrite Z.add_comm, Z_mod_plus_full, Z.mod_small by lia.
Qed.

(** The numbers of a word are those of its bits, from its first on. *)
Lemma seqZ_word j k : seqZ (32 * j) k = Z.add (32 * j) <$> seqZ 0 k.
Proof. by rewrite fmap_add_seqZ, Z.add_0_r. Qed.

Lemma those_word ws j (k : nat) :
  0 ≤ j → (k <= 32)%nat →
  those (word_bit ws) (seqZ (32 * j) (Z.of_nat k)) = Z.add (32 * j) <$> bits_below k (ws j).
Proof.
  intros Hj Hk. rewrite seqZ_word, those_fmap. unfold bits_below. f_equal.
  apply those_ext. intros o Ho%elem_of_seqZ. apply word_bit_at; lia.
Qed.

Lemma seqZ_words_S (n : Z) : 0 ≤ n → seqZ 0 (32 * Z.succ n) = seqZ 0 (32 * n) ++ seqZ (32 * n) 32.
Proof. intros Hn. replace (32 * Z.succ n) with (32 * n + 32) by lia. rewrite seqZ_app by lia. done. Qed.

(** The parts of [limit]: whole words, and bits of the next. *)
Lemma seqZ_limit limit :
  0 ≤ limit → seqZ 0 limit = seqZ 0 (32 * (limit / 32)) ++ seqZ (32 * (limit / 32)) (limit mod 32).
Proof.
  intros Hl. rewrite (Z.div_mod limit 32) at 1 by lia. pose proof (mod_32 limit).
  pose proof (Z.div_pos limit 32 Hl ltac:(lia)). by rewrite seqZ_app by lia.
Qed.

Lemma those_app {A} (p : A → bool) l k : those p (l ++ k) = those p l ++ those p k.
Proof. apply List.filter_app. Qed.

(** ** Counting *)

(** A loop with a state, by an invariant. *)
Lemma for_up_invariant {A} (I : Z → A → Prop) body (n : nat) lo a :
  I lo a →
  (∀ i a, lo ≤ i < lo + Z.of_nat n → I i a → ∃ a', body i a = Ret a' ∧ I (i + 1) a') →
  ∃ a', for_up n lo body a = Ret a' ∧ I (lo + Z.of_nat n) a'.
Proof.
  revert lo a. induction n as [|n IH]; intros lo a Ha Hbody.
  - exists a. split; [done|]. by rewrite Z.add_0_r.
  - cbn [for_up]. destruct (Hbody lo a) as (a1 & -> & H1); [lia|done|]. cbn [mbind outcome_bind].
    destruct (IH (lo + 1) a1 H1) as (a2 & -> & H2).
    { intros i b Hi. apply Hbody. lia. }
    exists a2. split; [done|]. by replace (lo + Z.of_nat (S n)) with (lo + 1 + Z.of_nat n) by lia.
Qed.

Lemma bits_below_length n w : (length (bits_below n w) <= n)%nat.
Proof.
  unfold bits_below. etrans; [apply List.filter_length_le|]. rewrite length_seqZ. lia.
Qed.

Lemma masked_bits w (k : nat) :
  (k <= 32)%nat → word_bits (Z.land w (Z.ones (Z.of_nat k))) = bits_below k w.
Proof.
  intros Hk. unfold bits_below. change (Z.of_nat 32) with 32.
  replace 32 with (Z.of_nat k + (32 - Z.of_nat k)) by lia. rewrite seqZ_app, those_app by lia.
  rewrite (those_none _ (seqZ (0 + _) _)), app_nil_r.
  - apply those_ext. intros i Hi%elem_of_seqZ. rewrite land_ones_testbit by lia.
    destruct (Z.ltb_spec i (Z.of_nat k)); [apply andb_true_r|lia].
  - intros i Hi%elem_of_seqZ. rewrite land_ones_testbit by lia.
    destruct (Z.ltb_spec i (Z.of_nat k)); [lia|apply andb_false_r].
Qed.

Section Count.
Context (ws : Z → Z) (Hws : ∀ j, 0 ≤ j → is_word (ws j)).
Context (getw : Z → outcome Z) (limit : Z) (Hlimit : 0 ≤ limit < 4294967296).
Context (Hget : ∀ j, 0 ≤ 32 * j < limit → getw j = Ret (ws j)).

Definition count_words : outcome Z :=
  count ← for_up (Z.to_nat (limit / CK_BITMAP_BLOCK)) 0 (λ i count,
    w ← getw i; c ← ck_cc_popcount w; Ret (uint_add count c)) 0;
  if 0 <? limit mod CK_BITMAP_BLOCK then
    w ← getw (limit / CK_BITMAP_BLOCK);
    c ← ck_cc_popcount (Z.land w (low_mask (limit mod CK_BITMAP_BLOCK)));
    Ret (uint_add count c)
  else Ret count.

(** The bits counted are few enough for the counter. *)
Lemma those_length n : 0 ≤ n → Z.of_nat (length (those (word_bit ws) (seqZ 0 n))) ≤ n.
Proof using.
  intros Hn. pose proof (List.filter_length_le (word_bit ws) (seqZ 0 n)) as H. rewrite length_seqZ in H. lia.
Qed.

Lemma count_words_spec : count_words = Ret (Z.of_nat (length (those (word_bit ws) (seqZ 0 limit)))).
Proof using Hws Hget Hlimit.
  unfold count_words, CK_BITMAP_BLOCK. pose proof (mod_32 limit). pose proof (Z.div_mod limit 32 ltac:(lia)) as Hdm.
  assert (0 ≤ limit / 32) by (apply Z.div_pos; lia).
  destruct (for_up_invariant (λ i c, c = Z.of_nat (length (those (word_bit ws) (seqZ 0 (32 * i)))))
              (λ i count, w ← getw i; c ← ck_cc_popcount w; Ret (uint_add count c))
              (Z.to_nat (limit / 32)) 0 0) as (c & E & ->); [done| |].
  { intros i c Hi ->. rewrite Hget by lia. cbn [mbind outcome_bind].
    rewrite ck_cc_popcount_spec by (apply Hws; lia). cbn [mbind outcome_bind].
    pose proof (those_length (32 * i) ltac:(lia)). pose proof (bits_below_length 32 (ws i)).
    rewrite uint_add_small by lia. eexists. split; [reflexivity|].
    rewrite Z.add_1_r, seqZ_words_S by lia. change (seqZ (32 * i) 32) with (seqZ (32 * i) (Z.of_nat 32)).
    rewrite those_app, length_app, those_word, length_fmap by lia. lia. }
  setoid_rewrite E. cbn [mbind outcome_bind]. rewrite Z2Nat.id, Z.add_0_l by lia.
  rewrite (seqZ_limit limit), those_app, length_app by lia.
  destruct (Z.ltb_spec 0 (limit mod 32)).
  - rewrite Hget by lia. cbn [mbind outcome_bind]. rewrite low_mask_ones by lia.
    rewrite <- (Z2Nat.id (limit mod 32)) by lia.
    rewrite ck_cc_popcount_spec by (apply land_is_word; [by apply Hws|]; rewrite Z.ones_equiv; lia).
    cbn [mbind outcome_bind]. rewrite masked_bits, those_word, length_fmap by lia.
    pose proof (those_length (32 * (limit / 32)) ltac:(lia)).
    pose proof (bits_below_length (Z.to_nat (limit mod 32)) (ws (limit / 32))).
    rewrite uint_add_small by lia. f_equal. lia.
  - replace (limit mod 32) with 0 by lia. rewrite (seqZ_nil (32 * (limit / 32)) 0) by lia.
    cbn [those length]. f_equal. lia.
Qed.
End Count.

(** The limit of a scan is at most the bits of the bitmap. *)
Lemma limit_word bm limit j :
  wf bm → limit ≤ n_bits bm → 0 ≤ 32 * j < limit → arr_get (map bm) j = Ret (word bm j).
Proof.
  intros Hwf Hl Hj. pose proof (wf_bits _ Hwf). pose proof (blocks_bound (n_bits bm) ltac:(lia)).
  pose proof (wf_length _ Hwf). apply arr_get_word. lia.
Qed.

Lemma ck_bitmap_count_spec bm limit :
  wf bm → 0 ≤ limit → ck_bitmap_count bm limit = Ret (Z.of_nat (length (set_bits bm (limit `min` n_bits bm)))).
Proof.
  intros Hwf Hl. pose proof (wf_bits _ Hwf). unfold ck_bitmap_count.
  replace (if n_bits bm <? limit then n_bits bm else limit) with (limit `min` n_bits bm)
    by (destruct (Z.ltb_spec (n_bits bm) limit); lia).
  apply (count_words_spec (word bm) (λ j _, word_is_word bm j (wf_words _ Hwf)) (arr_get (map bm))); [lia|].
  intros j Hj. apply (limit_word bm (limit `min` n_bits bm)); [done|lia|done].
Qed.

Lemma for_up_ext {A} body body' (n : nat) lo (a : A) :
  (∀ i a, body i a = body' i a) → for_up n lo body a = for_up n lo body' a.
Proof.
  intros H. revert lo a. induction n as [|n IH]; intros lo a; [done|]. cbn [for_up]. rewrite H.
  destruct (body' lo a); [apply IH|done].
Qed.

(** The words of two bitmaps together. *)
Definition both_words x y j : outcome Z := xi ← arr_get (map x) j; yi ← arr_get (map y) j; Ret (Z.land xi yi).

Lemma both_words_bind {A} x y j (k : Z → outcome A) :
  (xi ← arr_get (map x) j; yi ← arr_get (map y) j; k (Z.land xi yi)) = (w ← both_words x y j; k w).
Proof. unfold both_words. by destruct (arr_get (map x) j); [destruct (arr_get (map y) j)|]. Qed.

Lemma ck_bitmap_count_intersect_spec x y limit :
  wf x → wf y → 0 ≤ limit →
  ck_bitmap_count_intersect x y limit =
  Ret (Z.of_nat (length (those (λ i, bit x i && bit y i) (seqZ 0 (limit `min` (n_bits x `min` n_bits y)))))).
Proof.
  intros Hx Hy Hl. pose proof (wf_bits _ Hx). pose proof (wf_bits _ Hy). unfold ck_bitmap_count_intersect.
  replace (if n_bits x <? limit then n_bits x else limit) with (limit `min` n_bits x)
    by (destruct (Z.ltb_spec (n_bits x) limit); lia).
  replace (if n_bits y <? limit `min` n_bits x then n_bits y else limit `min` n_bits x)
    with (limit `min` (n_bits x `min` n_bits y)) by (destruct (Z.ltb_spec (n_bits y) (limit `min` n_bits x)); lia).
  set (l := limit `min` (n_bits x `min` n_bits y)).
  assert (∀ j, 0 ≤ j → is_word (Z.land (word x j) (word y j))) as Hw.
  { intros j Hj. apply land_is_word; [|apply (word_is_word y)]; try apply word_is_word; [apply Hx|apply Hy]. }
  rewrite (those_ext _ (word_bit (λ j, Z.land (word x j) (word y j)))) by (intros i _; symmetry; apply Z.land_spec).
  rewrite <- (count_words_spec (λ j, Z.land (word x j) (word y j)) Hw (both_words x y)); [|unfold l; lia|].
  - unfold count_words. rewrite (for_up_ext _ (λ i count, w ← both_words x y i; c ← ck_cc_popcount w; Ret (uint_add count c))).
    + destruct (for_up _ _ _ _); [|done]. cbn [mbind outcome_bind]. destruct (0 <? _); [|done].
      apply (both_words_bind x y _ (λ w, c ← ck_cc_popcount (Z.land w _); Ret _)).
    + intros i c. apply (both_words_bind x y i (λ w, p ← ck_cc_popcount w; Ret (uint_add c p))).
  - intros j Hj. unfold both_words. rewrite (limit_word x l), (limit_word y l) by (done || unfold l; lia). done.
Qed.

(** ** Tests of all bits *)

(** A word has none of its first [k] bits. *)
Lemma no_bits_below w (k : nat) :
  0 ≤ w → (Z.land w (Z.ones (Z.of_nat k)) =? 0) = forallb (λ o, negb (Z.testbit w o)) (seqZ 0 (Z.of_nat k)).
Proof.
  intros Hw. apply Bool.eq_iff_eq_true. rewrite Z.eqb_eq, forallb_forall. split.
  - intros E o Ho. apply list_elem_of_In, elem_of_seqZ in Ho. apply (f_equal (λ w, Z.testbit w o)) in E.
    rewrite land_ones_testbit, Z.bits_0 in E by lia. destruct (Z.ltb_spec o (Z.of_nat k)); [|lia].
    rewrite andb_true_r in E. by rewrite E.
  - intros H. apply Z.bits_inj'. intros o Ho. rewrite land_ones_testbit, Z.bits_0 by lia.
    destruct (Z.ltb_spec o (Z.of_nat k)); [|apply andb_false_r]. rewrite andb_true_r.
    apply negb_true_iff, H, list_elem_of_In, elem_of_seqZ. lia.
Qed.

Lemma no_bits w : is_word w → (w =? 0) = forallb (λ o, negb (Z.testbit w o)) (seqZ 0 32).
Proof.
  intros Hw. change 32 with (Z.of_nat 32). rewrite <- no_bits_below by apply Hw. f_equal.
  apply Z.bits_inj'. intros o Ho. rewrite land_ones_testbit by done.
  destruct (Z.ltb_spec o (Z.of_nat 32)); [by rewrite andb_true_r|]. by rewrite is_word_high.
Qed.

Lemma uint_not_zero w : is_word w → (uint_not w =? 0) = (w =? 4294967295).
Proof.
  unfold is_word. intros Hw. unfold uint_not, uwrap. replace (Z.lnot w) with ((4294967295 - w) + (-1) * 2 ^ 32) by (unfold Z.lnot; lia).
  rewrite Z_mod_plus_full, Z.mod_small by lia. apply Bool.eq_iff_eq_true. rewrite !Z.eqb_eq. lia.
Qed.

Section All.
(** The bits are those of [g] of the words, which is [~] or nothing; none of them is to be set. *)
Context (ws : Z → Z) (Hws : ∀ j, 0 ≤ j → is_word (ws j)).
Context (getw : Z → outcome Z) (limit : Z) (Hlimit : 0 ≤ limit < 4294967296).
Context (Hget : ∀ j, 0 ≤ 32 * j < limit → getw j = Ret (ws j)).

Lemma forallb_word p j (k : nat) :
  0 ≤ j → (k <= 32)%nat → (∀ o, 0 ≤ o < 32 → p (32 * j + o) = negb (Z.testbit (ws j) o)) →
  forallb p (seqZ (32 * j) (Z.of_nat k)) = forallb (λ o, negb (Z.testbit (ws j) o)) (seqZ 0 (Z.of_nat k)).
Proof using.
  intros Hj Hk Hp. rewrite seqZ_word. apply Bool.eq_iff_eq_true. rewrite !forallb_forall. split.
  - intros H o Ho. rewrite <- Hp by (apply list_elem_of_In, elem_of_seqZ in Ho; lia).
    apply H. apply list_elem_of_In, list_elem_of_fmap. exists o. split; [done|by apply list_elem_of_In].
  - intros H i Hi. apply list_elem_of_In, list_elem_of_fmap in Hi as (o & -> & Ho).
    rewrite Hp by (apply elem_of_seqZ in Ho; lia). by apply H, list_elem_of_In.
Qed.

Definition all_words (test : Z → outcome bool) : outcome bool :=
  b ← all_up (Z.to_nat (limit / CK_BITMAP_BLOCK)) 0 test;
  if negb b then Ret false
  else if 0 <? limit mod CK_BITMAP_BLOCK then
    word ← getw (limit / CK_BITMAP_BLOCK);
    Ret (Z.land word (low_mask (limit mod CK_BITMAP_BLOCK)) =? 0)
  else Ret true.

Lemma all_words_spec test :
  (∀ j, 0 ≤ 32 * j < limit → test j = Ret (ws j =? 0)) →
  all_words test = Ret (forallb (λ i, negb (word_bit ws i)) (seqZ 0 limit)).
Proof using Hws Hget Hlimit.
  intros Htest. unfold all_words, CK_BITMAP_BLOCK. pose proof (mod_32 limit).
  pose proof (Z.div_mod limit 32 ltac:(lia)). assert (0 ≤ limit / 32) by (apply Z.div_pos; lia).
  rewrite (all_up_spec _ (λ j, ws j =? 0)) by (intros j Hj; apply Htest; lia). cbn [mbind outcome_bind].
  rewrite (seqZ_limit limit), forallb_app, Z2Nat.id by lia.
  assert (∀ n : nat, forallb (λ j, ws j =? 0) (seqZ 0 (Z.of_nat n)) = forallb (λ i, negb (word_bit ws i)) (seqZ 0 (32 * Z.of_nat n))) as Hwords.
  { induction n as [|n IH]; [done|]. rewrite Nat2Z.inj_succ, seqZ_words_S, forallb_app, <- IH by lia.
    rewrite <- Z.add_1_r, seqZ_app, forallb_app, Z.add_0_l by lia. f_equal.
    pose proof (forallb_word (λ i, negb (word_bit ws i)) (Z.of_nat n) 32) as E. change (Z.of_nat 32) with 32 in E.
    rewrite E, <- no_bits; [apply andb_true_r|apply Hws; lia|lia|lia|].
    intros o Ho. by rewrite word_bit_at by lia. }
  rewrite <- (Z2Nat.id (limit / 32)), Hwords, Z2Nat.id by lia.
  destruct (forallb _ (seqZ 0 (32 * _))); [|done]. cbn [negb andb].
  destruct (Z.ltb_spec 0 (limit mod 32)).
  - rewrite Hget by lia. cbn [mbind outcome_bind]. rewrite low_mask_ones by lia.
    rewrite <- (Z2Nat.id (limit mod 32)) by lia. rewrite no_bits_below by (apply Hws; lia).
    rewrite (forallb_word _ (limit / 32)); [done|lia..|]. intros o Ho. by rewrite word_bit_at by lia.
  - replace (limit mod 32) with 0 by lia. by rewrite (seqZ_nil (32 * (limit / 32)) 0) by lia.
Qed.
End All.

Lemma ck_bitmap_empty_spec bm limit :
  wf bm → 0 ≤ limit →
  ck_bitmap_empty bm limit = Ret (forallb (λ i, negb (bit bm i)) (seqZ 0 (limit `min` n_bits bm))).
Proof.
  intros Hwf Hl. pose proof (wf_bits _ Hwf). unfold ck_bitmap_empty.
  replace (if n_bits bm <? limit then n_bits bm else limit) with (limit `min` n_bits bm)
    by (destruct (Z.ltb_spec (n_bits bm) limit); lia).
  apply (all_words_spec (word bm) (λ j _, word_is_word bm j (wf_words _ Hwf)) (arr_get (map bm))); [lia|..].
  - intros j Hj. apply (limit_word bm (limit `min` n_bits bm)); [done|lia|done].
  - intros j Hj. by rewrite (limit_word bm (limit `min` n_bits bm)) by (done || lia).
Qed.

Lemma ck_bitmap_full_spec bm limit :
  wf bm → 0 ≤ limit → ck_bitmap_full bm limit = Ret (forallb (bit bm) (seqZ 0 (limit `min` n_bits bm))).
Proof.
  intros Hwf Hl. pose proof (wf_bits _ Hwf). unfold ck_bitmap_full.
  replace (if n_bits bm <? limit then n_bits bm else limit) with (limit `min` n_bits bm)
    by (destruct (Z.ltb_spec (n_bits bm) limit); lia).
  set (l := limit `min` n_bits bm).
  etrans; [|etrans; [apply (all_words_spec (λ j, uint_not (word bm j)) (λ j _, uint_not_is_word _)
                             (λ j, w ← arr_get (map bm) j; Ret (uint_not w)) l) with
                             (test := λ i, w ← arr_get (map bm) i; Ret (w =? 4294967295))|]].
  - unfold all_words. destruct (all_up _ _ _) as [b|]; [|done]. cbn [mbind outcome_bind].
    destruct (negb b); [done|]. destruct (0 <? _); [|done]. by destruct (arr_get (map bm) _).
  - unfold l. lia.
  - intros j Hj. by rewrite (limit_word bm l) by (done || unfold l; lia).
  - intros j Hj. rewrite (limit_word bm l) by (done || unfold l; lia). cbn [mbind outcome_bind]. f_equal.
    symmetry. apply uint_not_zero, word_is_word, Hwf.
  - f_equal. apply Bool.eq_iff_eq_true. rewrite !forallb_forall. apply forall_proper. intros i.
    unfold word_bit. rewrite uint_not_testbit, negb_involutive by apply mod_32. done.
Qed.

(** * The iterator of a bitmap gives its bits in order. *)

(** The loop [while (ck_bitmap_next(bitmap, &i, &bit)) …] of a client: the bits it is given. *)
Fixpoint bitmap_drain (fuel : nat) (bm : ck_bitmap) (it : ck_bitmap_iterator) : outcome (list Z) :=
  '(b, it) ← ck_bitmap_next bm it;
  match b with
  | None => Ret []
  | Some b =>
      match fuel with
      | O => Fault OutOfFuel
      | S fuel => rest ← bitmap_drain fuel bm it; Ret (b :: rest)
      end
  end.

(** ** The lowest bit and the others *)

Lemma lowest_first x c : 0 < x < 4294967296 → 0 ≤ c < 32 → lowest x c → word_bits x = c :: word_bits (Z.land x (x - 1)).
Proof.
  intros Hx Hc Hl. unfold bits_below. change (Z.of_nat 32) with 32.
  replace 32 with (c + (1 + (31 - c))) by lia. rewrite (seqZ_app 0 c), (seqZ_app _ 1), !those_app by lia.
  rewrite (those_none (Z.testbit x) (seqZ 0 c)); [|intros i Hi%elem_of_seqZ; apply Hl; lia].
  rewrite (those_none (Z.testbit (Z.land x (x - 1))) (seqZ 0 c));
    [|intros i Hi%elem_of_seqZ; rewrite Z.land_spec; destruct Hl as [_ ->]; [done|lia]].
  assert (seqZ (0 + c) 1 = [c]) as -> by (unfold seqZ; cbn; f_equal; lia). cbn [those].
  rewrite (proj1 Hl). rewrite (testbit_pred x c c), Z.eqb_refl, andb_false_r by (done || lia). cbn [app]. f_equal.
  apply those_ext. intros i Hi%elem_of_seqZ. rewrite (testbit_pred x c) by (done || lia).
  destruct (Z.eqb_spec i c); [lia|]. by rewrite andb_true_r.
Qed.

Lemma word_bits_0 : word_bits 0 = [].
Proof. done. Qed.

#[local] Opaque bits_below.

(** ** What is left to an iterator *)

(** The bits of the words from [j] up to [lim]. *)
Definition bits_from (bm : ck_bitmap) (j lim : Z) : list Z := those (bit bm) (seqZ (32 * j) (32 * (lim - j))).

Definition pending (bm : ck_bitmap) (it : ck_bitmap_iterator) : list Z :=
  (Z.add (32 * it_n_block it) <$> word_bits (it_cache it)) ++ bits_from bm (it_n_block it + 1) (it_n_limit it).

Record iterates (bm : ck_bitmap) (it : ck_bitmap_iterator) : Prop := {
  iterates_cache : is_word (it_cache it);
  iterates_block : 0 ≤ it_n_block it ≤ it_n_limit it;
  iterates_inside : it_cache it ≠ 0 → it_n_block it < it_n_limit it;
  iterates_limit : it_n_limit it = CK_BITMAP_BLOCKS (n_bits bm)
}.

Lemma bits_from_S bm j lim :
  0 ≤ j < lim → bits_from bm j lim = (Z.add (32 * j) <$> word_bits (word bm j)) ++ bits_from bm (j + 1) lim.
Proof.
  intros Hj. unfold bits_from. replace (32 * (lim - j)) with (Z.of_nat 32 + 32 * (lim - (j + 1))) by lia.
  rewrite seqZ_app, those_app by lia.
  pose proof (those_word (word bm) j 32 ltac:(lia) ltac:(lia)) as E. unfold word_bit in E.
  setoid_rewrite E. f_equal. f_equal. f_equal; lia.
Qed.

Lemma bits_from_end bm j lim : lim ≤ j → bits_from bm j lim = [].
Proof. intros H. unfold bits_from. by rewrite seqZ_nil by lia. Qed.

(** The loop over the words that are 0. *)
Lemma next_block_spec bm (fuel : nat) j lim :
  wf bm → lim = CK_BITMAP_BLOCKS (n_bits bm) → 0 ≤ j ≤ lim → lim - j ≤ Z.of_nat fuel →
  (∃ j', next_block fuel (map bm) j lim = Ret (Some (word bm j'), j') ∧ j ≤ j' < lim ∧ word bm j' ≠ 0 ∧
         bits_from bm j lim = bits_from bm j' lim) ∨
  (next_block fuel (map bm) j lim = Ret (None, lim) ∧ bits_from bm j lim = []).
Proof.
  intros Hwf ->. pose proof (wf_bits _ Hwf). pose proof (blocks_bound (n_bits bm) ltac:(lia)).
  pose proof (wf_length _ Hwf). revert j. set (lim := CK_BITMAP_BLOCKS (n_bits bm)) in *.
  induction fuel as [|fuel IH]; intros j Hj Hf.
  - right. assert (j = lim) as -> by lia. cbn. rewrite Z.ltb_irrefl. split; [done|]. by apply bits_from_end.
  - cbn [next_block]. destruct (Z.ltb_spec j lim) as [Hlt|]; [|right; assert (j = lim) as -> by lia;
      split; [done|by apply bits_from_end]].
    rewrite arr_get_word by lia. cbn [mbind outcome_bind].
    destruct (Z.eqb_spec (word bm j) 0) as [E0|Hne]; cbn [negb].
    + assert (bits_from bm j lim = bits_from bm (j + 1) lim) as E.
      { rewrite bits_from_S, E0, word_bits_0 by lia. done. }
      rewrite uint_add_small by lia. rewrite E.
      destruct (IH (j + 1)) as [(j' & ? & ? & ?)|?]; [lia|lia|left; exists j'; intuition lia|by right].
    + left. exists j. split; [done|]. split; [lia|done].
Qed.

(** ** One step of an iterator *)

Lemma next_gives bm it : wf bm → iterates bm it →
  ∃ it', ck_bitmap_next bm it = Ret (head (pending bm it), it') ∧ iterates bm it' ∧
         pending bm it' = tail (pending bm it).
Proof.
  intros Hwf [Hc Hb Hin Hlim]. pose proof (wf_bits _ Hwf). pose proof (blocks_bound (n_bits bm) ltac:(lia)).
  unfold ck_bitmap_next, CK_BITMAP_BLOCK.
  set (non_zero := λ cache n_block : Z, c ← ck_cc_ctz cache;
    Ret (Some (u32 (32 * n_block + c)), MkIterator (Z.land cache (uint_sub cache 1)) n_block (it_n_limit it))).
  cbv zeta.
  assert (∀ cache j, is_word cache → cache ≠ 0 → 0 ≤ j < it_n_limit it →
    let p := (Z.add (32 * j) <$> word_bits cache) ++ bits_from bm (j + 1) (it_n_limit it) in
    ∃ it', non_zero cache j = Ret (head p, it') ∧ iterates bm it' ∧ pending bm it' = tail p) as Hnz.
  { intros cache j Hcw Hne Hj p. pose proof Hcw as Hcr. unfold is_word in Hcr.
    destruct (ck_cc_ctz_spec cache) as (c & E & Hc32 & Hl); [lia|]. unfold non_zero. rewrite E.
    cbn [mbind outcome_bind]. rewrite uint_sub_small by lia.
    assert (p = 32 * j + c :: (Z.add (32 * j) <$> word_bits (Z.land cache (cache - 1)))
                 ++ bits_from bm (j + 1) (it_n_limit it)) as ->.
    { unfold p. rewrite (lowest_first cache c), fmap_cons by (assumption || lia).
      apply app_comm_cons. }
    rewrite u32_small by lia. eexists. split; [reflexivity|]. split; [|reflexivity].
    split; cbn [it_cache it_n_block it_n_limit]; [apply land_is_word; [done|lia]|lia|lia|done]. }
  destruct (Z.eqb_spec (it_cache it) 0) as [E0|Hne]; [|by apply Hnz; [|lia|lia]].
  unfold pending. rewrite E0. rewrite word_bits_0. cbn [fmap list_fmap app].
  destruct (Z.leb_spec (it_n_limit it) (it_n_block it)) as [Hge|Hlt].
  - exists it. rewrite bits_from_end by lia. split; [done|]. split; [done|].
    by rewrite E0, word_bits_0.
  - rewrite uint_add_small by lia.
    destruct (next_block_spec bm (Z.to_nat (it_n_limit it)) (it_n_block it + 1) (it_n_limit it))
      as [(j & -> & Hj & Hw & ->)|[-> ->]]; [done|done|lia|lia| |]; cbn [mbind outcome_bind].
    + rewrite bits_from_S by lia. by apply Hnz; [apply word_is_word, Hwf| |lia].
    + eexists. split; [reflexivity|]. split; [split; cbn [it_cache it_n_block it_n_limit]; [unfold is_word; lia|lia|done|done]|].
      cbn [it_cache it_n_block it_n_limit head tail]. apply bits_from_end. lia.
Qed.

Lemma drain_pending bm (fuel : nat) it :
  wf bm → iterates bm it → (length (pending bm it) <= fuel)%nat → bitmap_drain fuel bm it = Ret (pending bm it).
Proof.
  intros Hwf. revert it. induction fuel as [|fuel IH]; intros it Hit Hf;
    destruct (next_gives bm it Hwf Hit) as (it' & E & Hit' & Hp); cbn [bitmap_drain]; rewrite E;
    cbn [mbind outcome_bind]; destruct (pending bm it) as [|b l]; try done; cbn in Hf; [lia|].
  cbn [head]. cbn [tail] in Hp. rewrite IH by (done || rewrite Hp; lia). by rewrite Hp.
Qed.

Lemma iterator_init_pending bm :
  wf bm → ∃ it, ck_bitmap_iterator_init bm = Ret it ∧ iterates bm it ∧
                pending bm it = those (bit bm) (seqZ 0 (32 * CK_BITMAP_BLOCKS (n_bits bm))).
Proof.
  intros Hwf. pose proof (wf_bits _ Hwf). pose proof (blocks_bound (n_bits bm) ltac:(lia)).
  pose proof (wf_length _ Hwf). unfold ck_bitmap_iterator_init. rewrite u32_small by lia.
  set (lim := CK_BITMAP_BLOCKS (n_bits bm)) in *.
  assert (those (bit bm) (seqZ 0 (32 * lim)) = bits_from bm 0 lim) as ->.
  { unfold bits_from. by rewrite Z.mul_0_r, Z.sub_0_r. }
  destruct (Z.ltb_spec 0 lim).
  - rewrite arr_get_word by lia. cbn [mbind outcome_bind]. eexists. split; [reflexivity|].
    split; [split; cbn [it_cache it_n_block it_n_limit]; [apply word_is_word, Hwf|lia|lia|done]|].
    rewrite bits_from_S by lia. done.
  - eexists. split; [reflexivity|]. split; [split; cbn [it_cache it_n_block it_n_limit]; [unfold is_word; lia|lia|done|done]|].
    unfold pending. cbn [it_cache it_n_block it_n_limit]. rewrite word_bits_0.
    cbn [fmap list_fmap app]. by rewrite !bits_from_end by lia.
Qed.

(** ** The specification *)

(** The numbers of a set below a limit. *)
Definition below (limit : Z) (X : gset Z) : gset Z := filter (λ i, i < limit) X.

Lemma size_those (p : Z → bool) n (X : gset Z) :
  (∀ i, i ∈ X ↔ 0 ≤ i < n ∧ p i = true) → Z.of_nat (length (those p (seqZ 0 n))) = Z.of_nat (size X).
Proof.
  intros HX. f_equal. rewrite <- (size_list_to_set (C := gset Z)).
  - f_equal. apply set_eq. intros i. rewrite elem_of_list_to_set, elem_of_those, elem_of_seqZ, HX. intuition lia.
  - apply NoDup_ListNoDup, List.NoDup_filter, NoDup_ListNoDup, NoDup_seqZ.
Qed.

Lemma elem_of_below limit X i : i ∈ below limit X ↔ i < limit ∧ i ∈ X.
Proof. unfold below. by rewrite elem_of_filter. Qed.

(** The bits an iterator gives on a bitmap with no bits past the last. *)
Lemma clean_words_bits bm :
  wf bm → clean bm →
  those (bit bm) (seqZ 0 (32 * CK_BITMAP_BLOCKS (n_bits bm))) =
  those (λ i, bool_decide (i ∈ elems bm)) (seqZ 0 (n_bits bm)).
Proof.
  intros Hwf Hc. pose proof (wf_bits _ Hwf). pose proof (blocks_bound (n_bits bm) ltac:(lia)).
  replace (32 * CK_BITMAP_BLOCKS (n_bits bm)) with (n_bits bm + (32 * CK_BITMAP_BLOCKS (n_bits bm) - n_bits bm)) by lia.
  rewrite (seqZ_app 0 (n_bits bm)), those_app by lia. rewrite (those_none _ (seqZ (0 + _) _)), app_nil_r.
  - apply those_ext. intros i Hi%elem_of_seqZ. apply bit_elem. lia.
  - intros i Hi%elem_of_seqZ. apply Hc. lia.
Qed.

(** An iterator from the start. *)
Lemma drain_from_start bm :
  wf bm →
  ∃ it, ck_bitmap_iterator_init bm = Ret it ∧
    bitmap_drain (Z.to_nat (32 * CK_BITMAP_BLOCKS (n_bits bm))) bm it =
    Ret (those (bit bm) (seqZ 0 (32 * CK_BITMAP_BLOCKS (n_bits bm)))).
Proof.
  intros Hwf. destruct (iterator_init_pending bm Hwf) as (it & -> & Hit & Hp). exists it. split; [done|].
  rewrite <- Hp. apply drain_pending; [done..|]. rewrite Hp.
  etrans; [apply List.filter_length_le|]. by rewrite length_seqZ.
Qed.

(** C28 (functional). The functions of ck_bitmap.h that go through a bitmap are exact: the iterator gives every
    bit that is set once, in increasing order, and then ends; [ck_bitmap_count] and [ck_bitmap_count_intersect]
    count the bits set below the limit and the bits of the bitmaps; [ck_bitmap_empty] and [ck_bitmap_full]
    tell whether none and all of these are set. The loops end and no counter overflows. *)
Theorem bitmap_scans_exact N X bm M Y src limit :
  represents N X bm → represents M Y src → 0 ≤ limit →
  (∃ it, ck_bitmap_iterator_init bm = Ret it ∧
     bitmap_drain (Z.to_nat (32 * CK_BITMAP_BLOCKS N)) bm it = Ret (those (λ i, bool_decide (i ∈ X)) (seqZ 0 N))) ∧
  ck_bitmap_count bm limit = Ret (Z.of_nat (size (below limit X))) ∧
  ck_bitmap_count_intersect bm src limit = Ret (Z.of_nat (size (below limit (X ∩ Y)))) ∧
  ck_bitmap_empty bm limit = Ret (bool_decide (below limit X = ∅)) ∧
  ck_bitmap_full bm limit = Ret (bool_decide ((list_to_set (seqZ 0 (limit `min` N)) : gset Z) ⊆ X)).
Proof.
  intros [<- Hwf Hc <-] [<- Hws Hcs <-] Hl. split_and!.
  - destruct (drain_from_start bm Hwf) as (it & -> & E). exists it. split; [done|]. by rewrite E, clean_words_bits.
  - rewrite ck_bitmap_count_spec by done. f_equal. apply size_those. intros i.
    rewrite elem_of_below, elem_of_elems. intuition lia.
  - rewrite ck_bitmap_count_intersect_spec by done. f_equal. apply size_those. intros i.
    rewrite elem_of_below, elem_of_intersection, !elem_of_elems, andb_true_iff. intuition lia.
  - rewrite ck_bitmap_empty_spec by done. f_equal. apply Bool.eq_iff_eq_true.
    rewrite forallb_forall, bool_decide_eq_true. split.
    + intros H. apply set_eq. intros i. rewrite elem_of_below, elem_of_elems. split; [|by intros []%not_elem_of_empty].
      intros (Hi & Hb & E). specialize (H i). rewrite <- list_elem_of_In, elem_of_seqZ, E in H. discriminate H. lia.
    + intros H i Hi%list_elem_of_In%elem_of_seqZ. apply negb_true_iff, not_true_iff_false. intros E.
      apply (not_elem_of_empty (C := gset Z) i). rewrite <- H, elem_of_below, elem_of_elems. intuition lia.
  - rewrite ck_bitmap_full_spec by done. f_equal. apply Bool.eq_iff_eq_true.
    rewrite forallb_forall, bool_decide_eq_true. split.
    + intros H i Hi. rewrite elem_of_list_to_set in Hi. apply elem_of_elems.
      split; [apply elem_of_seqZ in Hi; lia|]. by apply H, list_elem_of_In.
    + intros H i Hi%list_elem_of_In. apply (elem_of_elems bm i), H. by apply elem_of_list_to_set.
Qed.

Lemma bitmap_scans_exact_witness :
  ∃ it, ck_bitmap_iterator_init (MkBitmap 40 [9; 8]) = Ret it ∧
    bitmap_drain 64 (MkBitmap 40 [9; 8]) it = Ret [0; 3; 35].
Proof.
  destruct (bitmap_scans_exact 40 {[ 0; 3; 35 ]} (MkBitmap 40 [9; 8]) 40 {[ 0; 3; 35 ]} (MkBitmap 40 [9; 8]) 7)
    as [(it & E & D) _]; [by apply represents_check..|lia|].
  exists it. split; [exact E|]. change (Z.to_nat (32 * CK_BITMAP_BLOCKS 40)) with 64%nat in D. rewrite D.
  by vm_compute.
Defined.

(** A bitmap that takes the union with a larger one gets the bits of that up to the end of its
    own last word: those past its last bit are not counted, but an iterator gives them. *)
Theorem bitmap_union_extra_bits N X dst M Y src :
  represents N X dst → represents M Y src → N < M →
  ∃ dst' it, ck_bitmap_union dst src = Ret dst' ∧ n_bits dst' = N ∧
    ck_bitmap_count dst' N = Ret (Z.of_nat (size (below N (X ∪ Y)))) ∧
    ck_bitmap_iterator_init dst' = Ret it ∧
    bitmap_drain (Z.to_nat (32 * CK_BITMAP_BLOCKS N)) dst' it =
      Ret (those (λ i, bool_decide (i ∈ X ∪ Y)) (seqZ 0 (32 * CK_BITMAP_BLOCKS N))).
Proof.
  intros [<- Hwf Hc <-] [<- Hws Hcs <-] Hlt. pose proof (wf_bits _ Hwf). pose proof (wf_bits _ Hws).
  pose proof (blocks_bound (n_bits dst) ltac:(lia)). pose proof (blocks_bound (n_bits src) ltac:(lia)).
  destruct (ck_bitmap_union_gives dst src Hwf Hws) as (dst' & -> & Hw' & En & Hb).
  destruct (drain_from_start dst' Hw') as (it & Ei & Ed). rewrite En in Ed.
  assert (∀ i, 0 ≤ i < 32 * CK_BITMAP_BLOCKS (n_bits dst) → bit dst' i = bool_decide (i ∈ elems dst ∪ elems src)) as Hbit.
  { intros i Hi. rewrite Hb by lia. destruct (Z.ltb_spec (n_bits src) (n_bits dst)); [lia|].
    pose proof (proj1 (block_lt _ _) Hi). destruct (Z.ltb_spec (i / 32) (CK_BITMAP_BLOCKS (n_bits dst))); [|lia].
    destruct (blocks_min (n_bits src) (n_bits dst)) as [Hm _]; [lia..|].
    destruct (Z.ltb_spec (n_bits dst) (n_bits src)); [|lia].
    apply Bool.eq_iff_eq_true. rewrite orb_true_iff, bool_decide_eq_true, elem_of_union.
    by rewrite !clean_bit by (done || lia). }
  exists dst', it. split; [done|]. split; [done|]. split; [|split; [done|]].
  - rewrite ck_bitmap_count_spec by (done || lia). f_equal. rewrite En, Z.min_id. apply size_those. intros i.
    rewrite elem_of_below. split.
    + intros [Hi Hin]. assert (0 ≤ i) by (rewrite elem_of_union, !elem_of_elems in Hin; lia).
      split; [lia|]. rewrite Hbit by lia. by apply bool_decide_eq_true.
    + intros [Hi E]. rewrite Hbit, bool_decide_eq_true in E by lia. split; [lia|done].
  - rewrite Ed. f_equal. apply those_ext. intros i Hi%elem_of_seqZ. apply Hbit. lia.
Qed.

Lemma bitmap_union_extra_bits_witness :
  ∃ dst' it, ck_bitmap_union (MkBitmap 4 [1]) (MkBitmap 40 [80; 0]) = Ret dst' ∧ n_bits dst' = 4 ∧
    ck_bitmap_count dst' 4 = Ret 1 ∧ ck_bitmap_iterator_init dst' = Ret it ∧
    bitmap_drain 32 dst' it = Ret [0; 4; 6].
Proof.
  destruct (bitmap_union_extra_bits 4 {[ 0 ]} (MkBitmap 4 [1]) 40 {[ 4; 6 ]} (MkBitmap 40 [80; 0]))
    as (dst' & it & Eu & En & Ec & Ei & Ed); [by apply represents_check..|lia|].
  exists dst', it. split; [exact Eu|]. split; [exact En|]. split; [rewrite Ec; by vm_compute|].
  split; [exact Ei|]. change (Z.to_nat (32 * CK_BITMAP_BLOCKS 4)) with 32%nat in Ed. rewrite Ed. by vm_compute.
Defined.
